(* ===== verification/_CoqProject ===== *)
-Q . S2P
Prelude.v
Format.v
Crc.v
RsInit.v
GF.v
RsTheory.v
RsCode.v
RsCorrect.v
RsDecode.v
RsLib.v
BmAlgebra.v
BmCode.v
RsComplete.v
Edac.v
EdacWord.v
EdacBlock.v
EdacLayouts.v
EdacTheorems.v
Dirent.v
FileData.v
Super.v
SuperTheorems.v
Alloc.v
AllocBits.v
AllocImage.v
AllocInv.v
AllocTheorems.v
AllocProps.v
IndParity.v
IndRegion.v
DirentTheorems.v
DirRecords.v
DirOps.v
Dir.v
DirTree.v
DirUpdate.v
FileDataTheorems.v
FileTree.v
FileSteady.v
FileIo.v
FileWriteback.v
WbCount.v
FileMap.v
FileGrow.v
FileTheorems.v
FileFree.v
FileTruncate.v
FileContent.v
FileIoTheorems.v
WbContent.v
TreeCheck.v
AllocHealth.v
IndTheorems.v
Volume.v
FileProps.v
FileIoProps.v
Inode.v
InodeTheorems.v
Alert.v
Budget.v
Clock.v
ReaddirTheorems.v
DirTheorems.v
Namei.v
Names.v
NameiSteps.v
NameiTheorems.v
NameiVolume.v
NameiProps.v
Scrub.v
ScrubSafe.v
ScrubRepair.v
ScrubProps.v
FsckRead.v
FsckPass6.v
FsckEffect.v
FsckWalk.v
FsckSpec.v
FsckSound.v
FsckProps.v
