(* ===== verification/Prelude.v ===== *)
(** * beamfs: a verification development

    beamfs is a filesystem for media that flip bits.  Every structure it
    writes carries Reed-Solomon parity, and the theorems here are about the
    code that keeps that promise: the codec, the layers that apply it to
    blocks, the superblock, the bitmap, the directories, the indirect blocks
    and the block trees and data blocks of files.

    ** Parts and files

    - Prelude (this file): machine integers, error codes, buffers as lists of
      bytes with memcpy as [splice], loops over a counter, shared automation.
    - Format: constants, field offsets and inline helpers of
      beamfs_format.h.
    - Crc: tools/fsck.beamfs/crc32.c and the CRC entry points of edac.c.
    - RsInit, RsCode: tools/fsck.beamfs/rs_decode.c.  GF, RsTheory, RsCorrect,
      RsDecode, BmAlgebra, BmCode, RsComplete: the field, the code,
      soundness of the decoder and its completeness up to eight errors.
    - RsLib: lib/reed_solomon of the kernel as a class, [RsLib], with what
      edac.c relies on ([RsLibSpec], [RsLibBounded]); the codec of the tools
      is an instance, so no theorem rests on an unmet assumption.
    - Edac: edac.c.  EdacWord, EdacBlock, EdacLayouts, EdacTheorems: one word,
      the generic loop over codewords, the contiguous and interleaved
      layouts, and the promises of the layer.
    - Dirent: dirent.c, and the record walks of namei.c and dir.c.
      DirentTheorems, DirRecords, DirOps: encoding, termination of the
      walks, and the walks as operations on a list of entries.
    - Dir: directories over several blocks (namei.c, dir.c), against the
      class [DirEnv] of what they call.  DirTree, DirUpdate: the blocks of a
      directory as one list of entries.  ReaddirTheorems: beamfs_readdir of
      dir.c; successive calls list every name once.  DirTheorems: a
      directory refines a map from names to inode numbers.
    - Inode: the inode record, written by namei.c and read, checked and
      repaired by inode.c.  InodeTheorems.
    - Super: the superblock part of super.c, its journal, the part of
      mount that reads it, and the mounted flag through mount, sync, remount
      and unmount, down to the medium.  SuperTheorems.
    - Alloc: alloc.c.  AllocBits, AllocImage, AllocInv,
      AllocTheorems, AllocProps: bit arrays and the search, the on-disk
      image, the invariant, and what the allocator promises.  AllocHealth:
      only a failed write makes it fail the volume; inode numbers.
    - IndParity: indparity.c.  IndRegion, IndTheorems.
    - FileData: the data block of file_inline.c, built, sealed and read back.
      FileDataTheorems.
    - FileTree: the block tree of a file (file_inline.c, super.c): lookup,
      allocation, truncation, eviction and count, against the class
      [TreeEnv].  FileMap: the laws of that class and the tree as a map from
      logical to physical blocks; FileGrow, FileTheorems:
      growing it; FileFree, FileTruncate: cutting it.
    - FileIo: what iomap calls of a file, the mapping of a range and the
      filling of a folio, and setattr (file_inline.c).  FileWriteback: the
      encoded writeback of the same file, a state monad over one pass of the
      flusher.  FileSteady: what the tree code never takes away.
      FileContent: several files on one volume, and the bytes a file holds.  FileIoTheorems: reading and
      truncation.  WbCount: every folio of a pass is finished once.
      WbContent: a pass writes what the folios hold.
    - TreeCheck: treecheck.c and the map it refines.
    - Alert, Budget, Clock: alert.c, budget.c and clock.c, each with what it
      promises: the rate limit over less than half the wrap of jiffies, the high-water
      marks and the wear scan, the dates of journal entries.
    - Volume: allocator, parity, tree checker and buffers as one state, an
      instance of [DirEnv] and [TreeEnv] that keeps their laws, with a file
      on it as an example.  FileProps: what the block tree promises, and the
      same volume with bytes in the file.  FileIoProps: what reading,
      mapping, truncation and writeback promise.
    - Namei: the inode operations of directories
      and symbolic links (namei.c, super.c), against the class [NameiEnv].
      Names: the tree of names they refine.  NameiSteps, NameiTheorems:
      each operation on that tree.  NameiVolume: the volume with its inode
      table as an instance.  NameiProps: what names promise.
    - Scrub: the background scrubber of scrub.c, against the class
      [ScrubEnv].  ScrubSafe: what a check finds in a block and leaves
      there, and the sweep beside other threads.  ScrubRepair: the
      sweep of a file nobody touches.  ScrubProps: its pace, and what the
      scrubber promises.
    - FsckRead: the reader of fsck.beamfs (fsck_read.c), and the view of a
      volume it gives.  FsckPass6: pass 6 (fsck_pass6.c), ownership of
      blocks, directories, links and the verdict.  FsckEffect, FsckWalk: the
      pass as a list of effects read off the volume.  FsckSpec: the blocks
      of each file and the entries of the directories, and the result of
      the pass in their terms.  FsckSound: what a good verdict means.
      FsckProps: when the pass goes wrong, blocks the kernel wrote, orphans.

    ** How the code is modelled

    A buffer is the list of its bytes, an integer of the code a [Z] that is
    wrapped where the code lets it wrap, a C function a Rocq function that
    takes and returns the state it reads and writes.  Loops are [foldl] over
    the values of the counter where the bound is fixed, and fuelled
    fixpoints where it is not; for these the fuel is proved sufficient
    ([dir_walk_terminates], [rsv_find_loop_spec], [gather_loop_spec],
    [next_worn_loop_spec], [slide_spec]).
    Failures the environment decides (an allocation, a read, a write) are
    arguments.  A function that holds s_lock, or a buffer lock, is one step;
    so is a call of the tree checker, although tc_store drops its lock for
    an allocation.
    In writeback a call of iomap and the completion of a bio are one step
    each, in any order, and a read of a block finds the copy of the buffer
    cache, or the device as completed bios left it; a completion for a folio
    no pass owns does nothing.
    The sweep of the scrubber is cut at every point where it holds no lock;
    what the other threads do there is a list of steps it is given.
    A buffer of the checker that no read filled in has no value: a run of
    pass 6 that uses one is [None].  [rec_walk] and the effects of FsckWalk
    are the specification of its walks, not a second model of them: the
    walks are proved to have these effects.

    ** What is not modelled

    Memory ordering, the page cache, the older data scheme of file.c, the
    write_iter and fiemap entry points, the text of sysfs and the trace
    points, mkfs, and the driver of fsck with its passes 1 to 5, which
    print what they find. *)

From Stdlib Require Export ZArith Lia Bool.
From stdpp Require Export base list numbers.

Open Scope Z_scope.

(** ** Machine integers

    A w-bit unsigned C integer is a [Z] in [0, 2^w); arithmetic that the
    source lets wrap is written with these functions. *)

Definition u8 (x : Z) : Z := x mod 2 ^ 8.
Definition u16 (x : Z) : Z := x mod 2 ^ 16.
Definition u32 (x : Z) : Z := x mod 2 ^ 32.
Definition u64 (x : Z) : Z := x mod 2 ^ 64.

Definition is_byte (x : Z) : Prop := 0 <= x < 256.
Definition bytes (l : list Z) : Prop := Forall is_byte l.

(** ** Error codes (include/uapi/asm-generic/errno), as the negative
    values the kernel functions return. *)

Definition EIO : Z := 5.
Definition ENOENT : Z := 2.
Definition ENOMEM : Z := 12.
Definition EINVAL : Z := 22.
Definition ENOSPC : Z := 28.
Definition ENAMETOOLONG : Z := 36.
Definition ENOTEMPTY : Z := 39.
Definition EBADMSG : Z := 74.
Definition EOPNOTSUPP : Z := 95.
Definition EROFS : Z := 30.
Definition EUCLEAN : Z := 117.

(** ** Buffers

    A C buffer is the list of its bytes.  Offsets and lengths are [Z], so
    that the 4096-byte geometry stays in binary. *)

Definition zlen {A} (l : list A) : Z := Z.of_nat (length l).

(** [buf[i]]; the source never reads outside its buffers. *)
Definition getb (l : list Z) (i : Z) : Z := nth (Z.to_nat i) l 0.

(** The [n] bytes from [off]. *)
Definition slice {A} (l : list A) (off n : Z) : list A :=
  take (Z.to_nat n) (drop (Z.to_nat off) l).

(** [memcpy(l + off, src, len(src))]: in range it keeps the length. *)
Definition splice {A} (l : list A) (off : Z) (src : list A) : list A :=
  take (Z.to_nat off) l ++ src ++ drop (Z.to_nat off + length src)%nat l.

(** [buf[i] = x]. *)
Definition setb (l : list Z) (i x : Z) : list Z := <[Z.to_nat i := x]> l.

(** [memset(_, 0, n)]. *)
Definition zeros (n : Z) : list Z := replicate (Z.to_nat n) 0.

(** [for (i = 0; i < n; i++)] as the list of the values of [i]. *)
Definition upto (n : Z) : list Z := seqZ 0 n.

Create HintDb bytes discriminated.
Create Rewrite HintDb zl.

Lemma u32_add_l a b : u32 (u32 a + b) = u32 (a + b).
Proof. unfold u32. by rewrite Zplus_mod_idemp_l. Qed.

(** *** Lengths *)

Lemma zlen_nonneg {A} (l : list A) : 0 <= zlen l.
Proof. unfold zlen; lia. Qed.

Lemma zlen_nil {A} : zlen (@nil A) = 0.
Proof. done. Qed.

Lemma zlen_cons {A} (x : A) l : zlen (x :: l) = 1 + zlen l.
Proof. unfold zlen; simpl; lia. Qed.

Lemma zlen_app {A} (l1 l2 : list A) : zlen (l1 ++ l2) = zlen l1 + zlen l2.
Proof. unfold zlen; rewrite length_app; lia. Qed.

Lemma zlen_splice {A} (l : list A) off src :
  0 <= off -> off + zlen src <= zlen l -> zlen (splice l off src) = zlen l.
Proof.
  unfold zlen, splice; intros.
  rewrite !length_app, length_take, length_drop; lia.
Qed.

Lemma zlen_slice {A} (l : list A) off n :
  0 <= off -> 0 <= n -> off + n <= zlen l -> zlen (slice l off n) = n.
Proof. unfold zlen, slice; intros; rewrite length_take, length_drop; lia. Qed.

Lemma zlen_setb l i x : zlen (setb l i x) = zlen l.
Proof. unfold zlen, setb; by rewrite length_insert. Qed.

Lemma zlen_zeros n : 0 <= n -> zlen (zeros n) = n.
Proof. unfold zlen, zeros; intros; rewrite length_replicate; lia. Qed.

Lemma zlen_upto n : 0 <= n -> zlen (upto n) = n.
Proof. unfold zlen, upto; intros; rewrite length_seqZ; lia. Qed.

Lemma zlen_map {A B} (f : A -> B) l : zlen (map f l) = zlen l.
Proof. unfold zlen; by rewrite length_map. Qed.

(** *** Reading *)

Lemma getb_beyond l i : zlen l <= i -> getb l i = 0.
Proof. unfold getb, zlen; intros; apply nth_overflow; lia. Qed.

Lemma getb_app l1 l2 i :
  0 <= i -> getb (l1 ++ l2) i =
    if decide (i < zlen l1) then getb l1 i else getb l2 (i - zlen l1).
Proof.
  unfold getb, zlen; intros; case_decide.
  - apply app_nth1; lia.
  - rewrite app_nth2 by lia; f_equal; lia.
Qed.

Lemma nth_take_lt (l : list Z) n i : (i < n)%nat -> nth i (take n l) 0 = nth i l 0.
Proof.
  revert n i; induction l as [|x l IH]; intros [|n] [|i] H; simpl; try lia; try done.
  apply IH; lia.
Qed.

Lemma nth_drop_plus (l : list Z) n i : nth i (drop n l) 0 = nth (n + i) l 0.
Proof.
  revert n; induction l as [|x l IH]; intros [|n]; simpl; try done.
  destruct i; done.
Qed.

Lemma getb_slice l off n i :
  0 <= off -> 0 <= i < n -> getb (slice l off n) i = getb l (off + i).
Proof.
  unfold getb, slice; intros.
  rewrite nth_take_lt by lia; rewrite nth_drop_plus; f_equal; lia.
Qed.

Lemma getb_slice_ge l off n i :
  0 <= n -> n <= i -> getb (slice l off n) i = 0.
Proof.
  unfold getb, slice; intros; apply nth_overflow; rewrite length_take; lia.
Qed.

Lemma getb_splice_in l off src i :
  0 <= off -> off + zlen src <= zlen l -> off <= i < off + zlen src ->
  getb (splice l off src) i = getb src (i - off).
Proof.
  unfold splice; intros; rewrite getb_app by lia.
  assert (zlen (take (Z.to_nat off) l) = off) as ->
    by (unfold zlen in *; rewrite length_take; lia).
  rewrite decide_False by lia; rewrite getb_app by lia.
  by rewrite decide_True by lia.
Qed.

Lemma getb_splice_out l off src i :
  0 <= off -> off + zlen src <= zlen l -> 0 <= i -> i < off \/ off + zlen src <= i ->
  getb (splice l off src) i = getb l i.
Proof.
  unfold splice; intros; rewrite getb_app by lia.
  assert (zlen (take (Z.to_nat off) l) = off) as ->
    by (unfold zlen in *; rewrite length_take; lia).
  case_decide.
  - unfold getb; apply nth_take_lt; lia.
  - rewrite getb_app by lia; rewrite decide_False by lia.
    unfold getb; rewrite nth_drop_plus; f_equal; unfold zlen in *; lia.
Qed.

Lemma getb_setb_eq l i x : 0 <= i < zlen l -> getb (setb l i x) i = x.
Proof.
  unfold getb, setb, zlen; intros. apply nth_lookup_Some, list_lookup_insert_eq; lia.
Qed.

Lemma getb_setb_ne l i j x : 0 <= i -> 0 <= j -> i <> j -> getb (setb l i x) j = getb l j.
Proof.
  unfold getb, setb; intros. rewrite !nth_lookup, list_lookup_insert_ne by lia; done.
Qed.

Lemma getb_zeros n i : getb (zeros n) i = 0.
Proof.
  unfold getb, zeros; rewrite nth_lookup.
  destruct (replicate _ _ !! _) eqn:E; [|done].
  by apply lookup_replicate in E as [-> _].
Qed.

Lemma getb_upto n i : 0 <= i < n -> getb (upto n) i = i.
Proof.
  unfold getb, upto; intros; apply nth_lookup_Some. rewrite lookup_seqZ; lia.
Qed.

Lemma getb_map f (l : list Z) i :
  0 <= i < zlen l -> getb (map f l) i = f (getb l i).
Proof.
  unfold getb, zlen; intros.
  rewrite (nth_indep _ 0 (f 0)) by (rewrite length_map; lia). apply map_nth.
Qed.

Lemma getb_cons x l i :
  0 <= i -> getb (x :: l) i = if decide (i = 0) then x else getb l (i - 1).
Proof.
  unfold getb; intros; case_decide; [by subst|].
  replace (Z.to_nat i) with (S (Z.to_nat (i - 1))) by lia; done.
Qed.

(** *** Loops over a counter *)

Lemma upto_0 : upto 0 = [].
Proof. done. Qed.

Lemma upto_succ n : 0 <= n -> upto (n + 1) = upto n ++ [n].
Proof.
  intros. unfold upto. rewrite seqZ_app by lia. simpl. f_equal.
Qed.

Lemma elem_of_upto n i : i ∈ upto n <-> 0 <= i < n.
Proof. unfold upto. rewrite elem_of_seqZ. lia. Qed.

(** A loop [for (i = 0; i < n; i++) st = f(st, i)] keeps an invariant
    indexed by its counter. *)
Lemma foldl_upto_ind {S} (f : S -> Z -> S) (P : Z -> S -> Prop) (s : S) (n : Z) :
  0 <= n -> P 0 s -> (forall i t, 0 <= i < n -> P i t -> P (i + 1) (f t i)) ->
  P n (foldl f s (upto n)).
Proof.
  intros Hn H0 Hs. revert Hn Hs. revert n.
  refine (natlike_ind _ _ _); [done|]. intros n Hn IH Hs.
  rewrite <- Z.add_1_r, upto_succ, foldl_app by lia. simpl.
  apply Hs; [lia|]. apply IH. intros; apply Hs; [lia|done].
Qed.

(** The same downwards. *)
Lemma foldl_downto_ind {S} (f : S -> Z -> S) (P : Z -> S -> Prop) (s : S) (n : Z) :
  0 <= n -> P n s -> (forall i t, 0 <= i < n -> P (i + 1) t -> P i (f t i)) ->
  P 0 (foldl f s (reverse (upto n))).
Proof.
  intros Hn H0 Hs. revert n Hn s H0 Hs. refine (natlike_ind _ _ _); [done|].
  intros n Hn IH s H0 Hs. rewrite <- Z.add_1_r, upto_succ, reverse_app in * by lia. simpl.
  apply IH; [apply Hs; [lia|done]|]. intros i t Hi. apply Hs. lia.
Qed.

Lemma foldl_map {A B S} (f : S -> B -> S) (g : A -> B) (s : S) (l : list A) :
  foldl f s (map g l) = foldl (fun s x => f s (g x)) s l.
Proof. revert s. induction l as [|x l IH]; intros s; simpl; [done|]. apply IH. Qed.

(** *** Extensionality *)

Lemma bytes_ext (l1 l2 : list Z) :
  zlen l1 = zlen l2 -> (forall i, 0 <= i < zlen l1 -> getb l1 i = getb l2 i) -> l1 = l2.
Proof.
  unfold zlen, getb; intros Hl H. apply (nth_ext l1 l2 0 0); [lia|].
  intros n Hn; specialize (H (Z.of_nat n)); rewrite Nat2Z.id in H; apply H; lia.
Qed.

Lemma list_map_upto (l : list Z) : l = map (getb l) (upto (zlen l)).
Proof.
  apply bytes_ext.
  - rewrite zlen_map, zlen_upto; [done|apply zlen_nonneg].
  - intros i Hi. pose proof (zlen_nonneg l).
    rewrite getb_map by (rewrite zlen_upto; lia). by rewrite getb_upto.
Qed.

(** A decidable property of every byte, and of the 0 read past the end. *)
Lemma forallb_getb (f : Z -> bool) (P : Z -> Prop) l i :
  (forall x, f x = true -> P x) -> f 0 = true -> forallb f l = true -> P (getb l i).
Proof.
  intros Hf H0 Hl. apply Hf. unfold getb. rewrite nth_lookup.
  destruct (l !! Z.to_nat i) eqn:E; simpl; [|done].
  rewrite forallb_forall in Hl. apply Hl, list_elem_of_In.
  eapply list_elem_of_lookup_2; exact E.
Qed.

Lemma filter_all {A} (P : A -> Prop) `{Hd : !forall x, Decision (P x)} (l : list A) :
  (forall x, x ∈ l -> P x) -> filter P l = l.
Proof.
  induction l as [|x l IH]; intros H; [done|]. rewrite filter_cons, decide_True.
  - f_equal. apply IH. intros y Hy. apply H. by right.
  - apply H. left.
Qed.

(** *** Bytes *)

Lemma bytes_getb l i : bytes l -> is_byte (getb l i).
Proof.
  unfold bytes, getb; intros H; rewrite nth_lookup.
  destruct (l !! Z.to_nat i) eqn:E; simpl; [|unfold is_byte; lia].
  by eapply Forall_lookup_1 in H.
Qed.

Lemma bytes_app l1 l2 : bytes (l1 ++ l2) <-> bytes l1 /\ bytes l2.
Proof. apply Forall_app. Qed.

Lemma bytes_cons x l : bytes (x :: l) <-> is_byte x /\ bytes l.
Proof. apply list.Forall_cons. Qed.

(** Bytes by evaluation. *)
Lemma bytes_check l : forallb (fun x => (0 <=? x) && (x <? 256)) l = true -> bytes l.
Proof.
  intros H. apply Forall_forall. intros x Hx. rewrite forallb_forall in H.
  specialize (H x Hx). unfold is_byte. lia.
Qed.

Lemma bytes_slice l off n : bytes l -> bytes (slice l off n).
Proof. intros; by apply Forall_take, Forall_drop. Qed.

Lemma bytes_splice l off src : bytes l -> bytes src -> bytes (splice l off src).
Proof.
  intros; unfold splice; rewrite !bytes_app; split_and!; auto;
    [by apply Forall_take | by apply Forall_drop].
Qed.

Lemma bytes_setb l i x : bytes l -> is_byte x -> bytes (setb l i x).
Proof. intros; by apply Forall_insert. Qed.

Lemma bytes_zeros n : bytes (zeros n).
Proof. apply Forall_replicate; unfold is_byte; lia. Qed.

Lemma log2_byte x : is_byte x -> Z.log2 x < 8.
Proof.
  unfold is_byte; intros. destruct (decide (x = 0)) as [->|]; [done|].
  apply Z.log2_lt_pow2; lia.
Qed.

Lemma is_byte_lxor x y : is_byte x -> is_byte y -> is_byte (Z.lxor x y).
Proof.
  intros Hx Hy; pose proof (log2_byte x Hx); pose proof (log2_byte y Hy).
  unfold is_byte in *. assert (0 <= Z.lxor x y) by (apply Z.lxor_nonneg; lia).
  pose proof (Z.log2_lxor x y ltac:(lia) ltac:(lia)).
  destruct (decide (Z.lxor x y = 0)) as [->|]; [lia|].
  split; [done|]. apply (Z.log2_lt_pow2 _ 8); lia.
Qed.

#[export] Hint Resolve bytes_slice bytes_splice bytes_setb bytes_zeros bytes_getb
  is_byte_lxor : bytes.
#[export] Hint Rewrite @zlen_nil @zlen_cons @zlen_app zlen_setb @zlen_map : zl.
#[export] Hint Rewrite @zlen_splice @zlen_slice zlen_zeros zlen_upto
  using (autorewrite with zl; lia) : zl.

(** Lengths of composed buffers, then arithmetic. *)
Ltac zlen := autorewrite with zl; try lia.

(** A literal buffer holds bytes. *)
Ltac bytes_list :=
  repeat (apply bytes_cons; split; [unfold is_byte; lia|]); apply Forall_nil; exact I.
