(* ===== verification/Format.v ===== *)
(** * On-disk format (beamfs_format.h)

    The constants that describe bytes on the medium, the field offsets of
    the packed structures, little-endian access, and the inline helpers
    the kernel and the tools share. *)

From S2P Require Import Prelude.

(** ** Little-endian fields *)

(** The [n] bytes of [x], low byte first. *)
Fixpoint le_bytes (n : nat) (x : Z) : list Z :=
  match n with O => [] | S n => x mod 256 :: le_bytes n (x / 256) end.

(** The value of a little-endian byte string. *)
Fixpoint le_val (l : list Z) : Z :=
  match l with [] => 0 | x :: l => x + 256 * le_val l end.

Definition get_le16 (b : list Z) (off : Z) : Z := le_val (slice b off 2).
Definition get_le32 (b : list Z) (off : Z) : Z := le_val (slice b off 4).
Definition get_le64 (b : list Z) (off : Z) : Z := le_val (slice b off 8).

Definition put_le16 (b : list Z) (off x : Z) : list Z := splice b off (le_bytes 2 x).
Definition put_le32 (b : list Z) (off x : Z) : list Z := splice b off (le_bytes 4 x).
Definition put_le64 (b : list Z) (off x : Z) : list Z := splice b off (le_bytes 8 x).

(** ** Geometry *)

Definition BEAMFS_MAGIC : Z := 1111834957. (* 0x4245414D *)
Definition BEAMFS_BLOCK_SIZE : Z := 4096.
Definition BEAMFS_RS_PARITY : Z := 16.
Definition BEAMFS_SUBBLOCK_DATA : Z := 239.
Definition BEAMFS_SUBBLOCK_TOTAL : Z := BEAMFS_SUBBLOCK_DATA + BEAMFS_RS_PARITY.

Definition BEAMFS_BITMAP_SUBBLOCKS : Z := 16.
Definition BEAMFS_BITMAP_DATA_BYTES : Z := BEAMFS_BITMAP_SUBBLOCKS * BEAMFS_SUBBLOCK_DATA.
Definition BEAMFS_BITS_PER_BITMAP_BLOCK : Z := BEAMFS_BITMAP_DATA_BYTES * 8.

Definition BEAMFS_SB_FLAGS_BITMAP_BLOCKS_MASK : Z := 65535.
Definition BEAMFS_SB_FLAG_MOUNTED : Z := 65536.
Definition BEAMFS_SB_FLAG_ERRORS : Z := 131072.

Definition BEAMFS_DATA_INLINE_SUBBLOCKS : Z := 16.
Definition BEAMFS_DATA_INLINE_BYTES : Z := BEAMFS_DATA_INLINE_SUBBLOCKS * BEAMFS_SUBBLOCK_DATA.
Definition BEAMFS_DATA_INLINE_TOTAL : Z := BEAMFS_DATA_INLINE_SUBBLOCKS * BEAMFS_SUBBLOCK_TOTAL.
Definition BEAMFS_DATA_INLINE_PAD : Z := BEAMFS_BLOCK_SIZE - BEAMFS_DATA_INLINE_TOTAL.

Definition BEAMFS_CAPSULE_DATA_OFF : Z := 0.
Definition BEAMFS_CAPSULE_DATA_BYTES : Z := 3808.
Definition BEAMFS_CAPSULE_CSUM_OFF : Z := 3808.
Definition BEAMFS_CAPSULE_SELFID_OFF : Z := 3816.
Definition BEAMFS_CAPSULE_CODED_BYTES : Z := 3824.
Definition BEAMFS_CAPSULE_PARITY_OFF : Z := 3824.
Definition BEAMFS_CAPSULE_PARITY_LEN : Z := BEAMFS_DATA_INLINE_SUBBLOCKS * BEAMFS_RS_PARITY.
Definition BEAMFS_CAPSULE_GEN_OFF : Z := 4080.
Definition BEAMFS_CAPSULE_GEN_BYTES : Z := 8.
Definition BEAMFS_CAPSULE_FREE_OFF : Z := 4088.

Definition BEAMFS_DATA_WOVEN_OFF : Z := 0.
Definition BEAMFS_DATA_WOVEN_BYTES : Z := BEAMFS_DATA_INLINE_BYTES.
Definition BEAMFS_DATA_WOVEN_PARITY_OFF : Z := BEAMFS_DATA_INLINE_BYTES.
Definition BEAMFS_DATA_WOVEN_PARITY_LEN : Z := BEAMFS_DATA_INLINE_SUBBLOCKS * BEAMFS_RS_PARITY.

Definition BEAMFS_DATA_CSUM_TYPE_OFF : Z := BEAMFS_DATA_INLINE_TOTAL + 0.
Definition BEAMFS_DATA_CSUM_VALUE_OFF : Z := BEAMFS_DATA_INLINE_TOTAL + 4.
Definition BEAMFS_DATA_CSUM_DESC_BYTES : Z := 8.
Definition BEAMFS_DATA_SELFID_OFF : Z := BEAMFS_DATA_INLINE_TOTAL + 8.
Definition BEAMFS_DATA_SELFID_BYTES : Z := 8.
Definition BEAMFS_CSUM_NONE : Z := 0.
Definition BEAMFS_CSUM_CRC32 : Z := 1.

Definition BEAMFS_FIRST_USER_INO : Z := 3.
Definition beamfs_ino_is_reserved (ino : Z) : bool := ino <? BEAMFS_FIRST_USER_INO.

(** ** File geometry *)

Definition beamfs_inline_logical_to_iblock (file_offset : Z) : Z :=
  file_offset / BEAMFS_DATA_INLINE_BYTES.

Definition beamfs_inline_offset_in_logical (file_offset : Z) : Z :=
  u32 (file_offset mod BEAMFS_DATA_INLINE_BYTES).

Definition beamfs_inline_size_to_blocks (size : Z) : Z :=
  u64 (u64 (size + BEAMFS_DATA_INLINE_BYTES) - 1) / BEAMFS_DATA_INLINE_BYTES.

Definition BEAMFS_DIRECT_BLOCKS : Z := 12.
Definition BEAMFS_INDIRECT_PTRS : Z := BEAMFS_BLOCK_SIZE / 8.
Definition BEAMFS_DINDIRECT_PTRS : Z := BEAMFS_INDIRECT_PTRS * BEAMFS_INDIRECT_PTRS.
Definition BEAMFS_TINDIRECT_PTRS : Z :=
  BEAMFS_INDIRECT_PTRS * BEAMFS_INDIRECT_PTRS * BEAMFS_INDIRECT_PTRS.
Definition BEAMFS_MAX_IBLOCK_DIRECT : Z := BEAMFS_DIRECT_BLOCKS.
Definition BEAMFS_MAX_IBLOCK_INDIRECT : Z := BEAMFS_MAX_IBLOCK_DIRECT + BEAMFS_INDIRECT_PTRS.
Definition BEAMFS_MAX_IBLOCK_DINDIRECT : Z := BEAMFS_MAX_IBLOCK_INDIRECT + BEAMFS_DINDIRECT_PTRS.
Definition BEAMFS_MAX_IBLOCK_TINDIRECT : Z := BEAMFS_MAX_IBLOCK_DINDIRECT + BEAMFS_TINDIRECT_PTRS.
Definition BEAMFS_MAX_FILE_SIZE : Z := BEAMFS_MAX_IBLOCK_TINDIRECT * BEAMFS_DATA_INLINE_BYTES.

(** ** Superblock *)

Definition BEAMFS_SB_RS_COVERAGE_BYTES : Z := 2765.
Definition BEAMFS_SB_RS_STAGING_BYTES : Z := 2769.
Definition BEAMFS_SB_RS_DATA_LEN : Z := 213.
Definition BEAMFS_SB_RS_SUBBLOCKS : Z := 13.
Definition BEAMFS_SB_RS_PARITY_BYTES : Z := 208.
Definition BEAMFS_SB_RS_PARITY_OFFSET : Z := 3888.

(** Offsets in struct beamfs_super_block (packed). *)
Definition off_s_magic : Z := 0.
Definition off_s_block_size : Z := 4.
Definition off_s_block_count : Z := 8.
Definition off_s_free_blocks : Z := 16.
Definition off_s_inode_count : Z := 24.
Definition off_s_free_inodes : Z := 32.
Definition off_s_inode_table_blk : Z := 40.
Definition off_s_data_start_blk : Z := 48.
Definition off_s_version : Z := 56.
Definition off_s_flags : Z := 60.
Definition off_s_crc32 : Z := 64.
Definition off_s_uuid : Z := 68.
Definition off_s_label : Z := off_s_uuid + 16.
Definition off_s_rs_journal : Z := off_s_label + 32.
Definition BEAMFS_RS_JOURNAL_SIZE : Z := 64.
Definition sizeof_rs_event : Z := 40.
Definition off_s_rs_journal_head : Z := off_s_rs_journal + BEAMFS_RS_JOURNAL_SIZE * sizeof_rs_event.
Definition off_s_bitmap_blk : Z := off_s_rs_journal_head + 1.
Definition off_s_feat_compat : Z := off_s_bitmap_blk + 8.
Definition off_s_feat_incompat : Z := off_s_feat_compat + 8.
Definition off_s_feat_ro_compat : Z := off_s_feat_incompat + 8.
Definition off_s_data_protection_scheme : Z := off_s_feat_ro_compat + 8.
Definition off_s_ind_parity_blk : Z := off_s_data_protection_scheme + 4.
Definition off_s_ind_parity_len : Z := off_s_ind_parity_blk + 8.
Definition off_s_ind_parity_mode : Z := off_s_ind_parity_len + 4.
Definition off_s_budget_blk : Z := off_s_ind_parity_mode + 4.
Definition off_s_budget_len : Z := off_s_budget_blk + 8.
Definition off_s_budget_pad : Z := off_s_budget_len + 4.
Definition off_s_anchor_mono : Z := off_s_budget_pad + 4.
Definition off_s_anchor_real : Z := off_s_anchor_mono + 8.
Definition off_s_anchor_quality : Z := off_s_anchor_real + 8.
Definition off_s_anchor_pad : Z := off_s_anchor_quality + 4.
Definition off_s_pad : Z := off_s_anchor_pad + 4.

Definition beamfs_bitmap_blocks_count_from_flags (s_flags : Z) : Z :=
  let v := Z.land s_flags BEAMFS_SB_FLAGS_BITMAP_BLOCKS_MASK in
  if v =? 0 then 1 else v.

(** ** Resilience journal entry flags *)

Definition BEAMFS_RS_EVENT_FLAG_ENTROPY_VALID : Z := 1.
Definition BEAMFS_RS_EVENT_FLAG_UNCORRECTABLE : Z := 2.
Definition BEAMFS_RS_EVENT_FLAG_RMW_NEUTRALISED : Z := 4.
Definition BEAMFS_RS_EVENT_FLAG_INODE : Z := 8.
Definition BEAMFS_RS_EVENT_SUBBLOCK_SHIFT : Z := 8.
Definition BEAMFS_RS_EVENT_SUBBLOCK_MASK : Z := Z.shiftl 255 BEAMFS_RS_EVENT_SUBBLOCK_SHIFT.
Definition BEAMFS_RS_ENTROPY_BINS : Z := 8.
Definition BEAMFS_RS_BLOCK_NO_SB_MARKER : Z := 18446744073709547520. (* 0xFFFFFFFFFFFFF000 *)
Definition BEAMFS_RS_BLOCK_NO_SB_MASK : Z := 18446744073709547520.
Definition BEAMFS_RS_BLOCK_NO_SB_IDX_MASK : Z := 4095.

Definition beamfs_rs_event_subblock_bits (sub : Z) : Z :=
  Z.land (u32 (Z.shiftl (u32 (sub + 1)) BEAMFS_RS_EVENT_SUBBLOCK_SHIFT))
         BEAMFS_RS_EVENT_SUBBLOCK_MASK.

(** [None] is the -1 of an event that has no subblock. *)
Definition beamfs_rs_event_subblock (flags : Z) : option Z :=
  let v := Z.shiftr (Z.land flags BEAMFS_RS_EVENT_SUBBLOCK_MASK) BEAMFS_RS_EVENT_SUBBLOCK_SHIFT in
  if v =? 0 then None else Some (v - 1).

(** ** Features *)

Definition BEAMFS_VERSION_CURRENT : Z := 5.
Definition BEAMFS_DATA_PROTECTION_UNIVERSAL_INLINE : Z := 2.
Definition BEAMFS_DATA_PROTECTION_MAX : Z := 5.

Definition BEAMFS_FEATURE_RO_COMPAT_DATA_CSUM : Z := Z.shiftl 1 4.
Definition BEAMFS_FEATURE_RO_COMPAT_DATA_SELFID : Z := Z.shiftl 1 5.
Definition BEAMFS_FEATURE_INCOMPAT_PER_INODE_RS : Z := Z.shiftl 1 8.
Definition BEAMFS_FEATURE_INCOMPAT_INDIRECT_PARITY : Z := Z.shiftl 1 13.
Definition BEAMFS_FEATURE_INCOMPAT_ERROR_BUDGET : Z := Z.shiftl 1 14.
Definition BEAMFS_FEATURE_INCOMPAT_DIR_RS : Z := Z.shiftl 1 15.
Definition BEAMFS_FEATURE_INCOMPAT_INODE_CRC_FULL : Z := Z.shiftl 1 16.
Definition BEAMFS_FEATURE_INCOMPAT_IND_PARITY_FEC : Z := Z.shiftl 1 17.
Definition BEAMFS_FEATURE_INCOMPAT_RS_INTERLEAVE : Z := Z.shiftl 1 18.

Definition BEAMFS_FEAT_RO_COMPAT_SUPP : Z :=
  Z.lor BEAMFS_FEATURE_RO_COMPAT_DATA_CSUM BEAMFS_FEATURE_RO_COMPAT_DATA_SELFID.
Definition BEAMFS_FEAT_INCOMPAT_SUPP : Z :=
  foldr Z.lor 0
    [BEAMFS_FEATURE_INCOMPAT_PER_INODE_RS; BEAMFS_FEATURE_INCOMPAT_INDIRECT_PARITY;
     BEAMFS_FEATURE_INCOMPAT_ERROR_BUDGET; BEAMFS_FEATURE_INCOMPAT_DIR_RS;
     BEAMFS_FEATURE_INCOMPAT_INODE_CRC_FULL; BEAMFS_FEATURE_INCOMPAT_IND_PARITY_FEC;
     BEAMFS_FEATURE_INCOMPAT_RS_INTERLEAVE].

Definition BEAMFS_IND_PARITY_NONE : Z := 0.
Definition BEAMFS_IND_PARITY_CRC : Z := 1.
Definition BEAMFS_IND_PARITY_RS : Z := 2.
Definition BEAMFS_IND_PARITY__MAX : Z := 3.
Definition BEAMFS_IND_PARITY_CRC_BYTES : Z := BEAMFS_DATA_INLINE_SUBBLOCKS * 4.
Definition BEAMFS_IND_PARITY_RS_BYTES : Z := BEAMFS_DATA_INLINE_SUBBLOCKS * BEAMFS_RS_PARITY.
Definition BEAMFS_IND_PARITY_RS_SLOTS : Z := BEAMFS_DATA_INLINE_BYTES / BEAMFS_IND_PARITY_RS_BYTES.
Definition BEAMFS_IND_PARITY_CRC_SLOTS : Z := BEAMFS_DATA_INLINE_BYTES / BEAMFS_IND_PARITY_CRC_BYTES.
Definition BEAMFS_ERROR_BUDGET_MAX : Z := BEAMFS_RS_PARITY / 2.

(** ** Directory records *)

Definition BEAMFS_MAX_FILENAME : Z := 255.
Definition BEAMFS_DIRENT_HDR_LEN : Z := 12.
Definition BEAMFS_DIRENT_ALIGN : Z := 4.
Definition BEAMFS_DIRENT_MIN_LEN : Z := BEAMFS_DIRENT_HDR_LEN + BEAMFS_DIRENT_ALIGN.
Definition BEAMFS_DIRENT_LEN (namelen : Z) : Z :=
  (BEAMFS_DIRENT_HDR_LEN + namelen + BEAMFS_DIRENT_ALIGN - 1) / BEAMFS_DIRENT_ALIGN
  * BEAMFS_DIRENT_ALIGN.
Definition BEAMFS_DIRENT_NOSPACE : Z := 4294967295.

(** ** Inode *)

(** Offsets in struct beamfs_inode (packed, 256 bytes). *)
Definition sizeof_inode : Z := 256.
Definition off_i_mode : Z := 0.
Definition off_i_nlink : Z := 2.
Definition off_i_uid : Z := 4.
Definition off_i_gid : Z := 8.
Definition off_i_size : Z := 12.
Definition off_i_atime : Z := 20.
Definition off_i_mtime : Z := 28.
Definition off_i_ctime : Z := 36.
Definition off_i_flags : Z := 44.
Definition off_i_crc32 : Z := 48.
Definition off_i_direct : Z := 52.
Definition off_i_indirect : Z := off_i_direct + BEAMFS_DIRECT_BLOCKS * 8.
Definition off_i_dindirect : Z := off_i_indirect + 8.
Definition off_i_tindirect : Z := off_i_dindirect + 8.
Definition off_i_reserved : Z := off_i_tindirect + 8.
Definition BEAMFS_INODE_RS_DATA : Z := off_i_reserved.
Definition BEAMFS_INODE_RS_PAR : Z := 16.
Definition BEAMFS_INODE_CRC_HEAD_LEN : Z := off_i_crc32.
Definition BEAMFS_INODE_CRC_TAIL_OFF : Z := off_i_crc32 + 4.
Definition BEAMFS_INODE_CRC_TAIL_LEN : Z := BEAMFS_INODE_RS_DATA - BEAMFS_INODE_CRC_TAIL_OFF.
Definition BEAMFS_INODE_CRC_BYTES : Z := BEAMFS_INODE_CRC_HEAD_LEN + BEAMFS_INODE_CRC_TAIL_LEN.

(** ** Little-endian lemmas *)

Lemma length_le_bytes n x : length (le_bytes n x) = n.
Proof. revert x. induction n as [|n IH]; intros x; simpl; [done|]. by rewrite IH. Qed.

Lemma zlen_le_bytes n x : zlen (le_bytes n x) = Z.of_nat n.
Proof. unfold zlen. by rewrite length_le_bytes. Qed.

Lemma bytes_le_bytes n x : bytes (le_bytes n x).
Proof.
  revert x. induction n as [|n IH]; intros x; simpl; [constructor|].
  apply bytes_cons. split; [|apply IH]. unfold is_byte. pose proof (Z.mod_pos_bound x 256). lia.
Qed.

Lemma le_val_le_bytes n x : 0 <= x -> le_val (le_bytes n x) = x mod 256 ^ Z.of_nat n.
Proof.
  revert x. induction n as [|n IH]; intros x Hx; cbn [le_bytes le_val].
  - rewrite Z.mod_1_r. done.
  - rewrite IH by (apply Z.div_pos; lia).
    rewrite Nat2Z.inj_succ, Z.pow_succ_r by lia.
    rewrite Z.rem_mul_r by (try apply Z.pow_nonzero; lia). lia.
Qed.

Lemma le_bytes_le_val l : bytes l -> le_bytes (length l) (le_val l) = l.
Proof.
  induction 1 as [|x l Hx Hl IH]; simpl; [done|]. unfold is_byte in Hx.
  assert ((x + 256 * le_val l) mod 256 = x) as ->.
  { rewrite Z.mul_comm, Z.mod_add by lia. apply Z.mod_small. lia. }
  rewrite Z.mul_comm, Z.div_add, Z.div_small, Z.add_0_l by lia. by rewrite IH.
Qed.

Lemma le_val_range l : bytes l -> 0 <= le_val l < 256 ^ zlen l.
Proof.
  induction 1 as [|x l Hx Hl IH]; [done|]. rewrite zlen_cons.
  rewrite Z.add_comm, Z.pow_add_r by (pose proof (zlen_nonneg l); lia).
  cbn [le_val]. unfold is_byte in Hx. lia.
Qed.

Lemma slice_splice_eq {A} (b src : list A) off :
  0 <= off -> off + zlen src <= zlen b -> slice (splice b off src) off (zlen src) = src.
Proof.
  intros Ho Hl. unfold slice, splice, zlen in *.
  rewrite drop_app_le by (rewrite length_take; lia).
  rewrite drop_ge by (rewrite length_take; lia). simpl.
  rewrite take_app_le by lia. by rewrite take_ge by lia.
Qed.

Lemma slice_splice_len {A} (b src : list A) off n :
  zlen src = n -> 0 <= off -> off + n <= zlen b -> slice (splice b off src) off n = src.
Proof. intros <-. apply slice_splice_eq. Qed.

Lemma slice_splice_ne {A} (b src : list A) off off' n :
  0 <= off -> off + zlen src <= zlen b -> 0 <= off' -> 0 <= n ->
  off' + n <= off \/ off + zlen src <= off' -> slice (splice b off src) off' n = slice b off' n.
Proof.
  intros Ho Hl Ho' Hn D. unfold slice, splice, zlen in *. apply list_eq. intros i.
  destruct (decide (i < Z.to_nat n)%nat); [|rewrite !lookup_take_ge by lia; done].
  rewrite !lookup_take_lt by lia. rewrite !lookup_drop.
  destruct D.
  - rewrite lookup_app_l by (rewrite length_take; lia). by rewrite lookup_take_lt by lia.
  - rewrite lookup_app_r by (rewrite length_take; lia).
    rewrite lookup_app_r by (rewrite length_take; lia).
    rewrite lookup_drop, length_take. f_equal. lia.
Qed.

Lemma slice_splice_in {A} (b src : list A) off off' n :
  0 <= off -> off + zlen src <= zlen b -> off <= off' -> 0 <= n -> off' + n <= off + zlen src ->
  slice (splice b off src) off' n = slice src (off' - off) n.
Proof.
  intros Ho Hl Ho' Hn D. unfold slice, splice, zlen in *. apply list_eq. intros i.
  destruct (decide (i < Z.to_nat n)%nat); [|rewrite !lookup_take_ge by lia; done].
  rewrite !lookup_take_lt by lia. rewrite !lookup_drop.
  rewrite lookup_app_r by (rewrite length_take; lia). rewrite length_take.
  rewrite lookup_app_l by lia. f_equal. lia.
Qed.

Lemma splice_cat (b s1 s2 : list Z) off off2 :
  off2 = off + zlen s1 -> 0 <= off -> off + zlen s1 + zlen s2 <= zlen b ->
  splice (splice b off s1) off2 s2 = splice b off (s1 ++ s2).
Proof.
  intros -> Ho Hl. pose proof (zlen_nonneg s1). pose proof (zlen_nonneg s2).
  assert (H1 : zlen (splice b off s1) = zlen b) by (rewrite zlen_splice; lia).
  assert (H2 : zlen (splice b off (s1 ++ s2)) = zlen b) by (rewrite zlen_splice; rewrite ?zlen_app; lia).
  apply bytes_ext; [rewrite zlen_splice; lia|]. intros i Hi.
  rewrite zlen_splice in Hi by lia.
  destruct (decide (off <= i < off + zlen s1 + zlen s2)) as [Hin|Hout].
  - rewrite (getb_splice_in b) by (rewrite ?zlen_app; lia). rewrite getb_app by lia.
    destruct (decide (i - off < zlen s1)).
    + rewrite getb_splice_out by lia. by rewrite getb_splice_in by lia.
    + rewrite getb_splice_in by lia. f_equal. lia.
  - rewrite (getb_splice_out b off (s1 ++ s2)) by (rewrite ?zlen_app; lia).
    by rewrite !getb_splice_out by lia.
Qed.

Lemma splice_cover (b s1 s2 : list Z) off :
  0 <= off -> zlen s1 <= zlen s2 -> off + zlen s2 <= zlen b ->
  splice (splice b off s1) off s2 = splice b off s2.
Proof.
  intros Ho H12 Hl. pose proof (zlen_nonneg s1). apply bytes_ext; [rewrite !zlen_splice; rewrite ?zlen_splice; lia|].
  intros i Hi. rewrite !zlen_splice in Hi by (rewrite ?zlen_splice; lia).
  destruct (decide (off <= i < off + zlen s2)).
  - rewrite !getb_splice_in by (rewrite ?zlen_splice; lia). done.
  - rewrite !getb_splice_out by (rewrite ?zlen_splice; lia). done.
Qed.

Lemma slice_seqZ (l : list Z) off n :
  0 <= off -> 0 <= n -> off + n <= zlen l -> slice l off n = map (getb l) (seqZ off n).
Proof.
  intros Ho Hn Hl. assert (Hs : zlen (seqZ off n) = n) by (unfold zlen; rewrite length_seqZ; lia).
  apply bytes_ext; rewrite zlen_slice by lia; [by rewrite zlen_map|]. intros i Hi.
  rewrite getb_slice by lia. symmetry. unfold getb at 1. erewrite (nth_lookup_Some _ _ _ (getb l (off + i))); [done|].
  rewrite list_lookup_fmap, lookup_seqZ_lt by lia. cbn. do 2 f_equal. lia.
Qed.

Lemma slice_cat (l : list Z) off m n :
  0 <= off -> 0 <= m -> 0 <= n -> off + m + n <= zlen l ->
  slice l off (m + n) = slice l off m ++ slice l (off + m) n.
Proof. intros. by rewrite !slice_seqZ, seqZ_app, map_app by lia. Qed.

Lemma setb_splice (b : list Z) i x : 0 <= i < zlen b -> setb b i x = splice b i [x].
Proof.
  intros Hi. apply bytes_ext; [rewrite zlen_setb, zlen_splice; [done|lia|change (zlen [x]) with 1; lia]|].
  rewrite zlen_setb. intros j Hj. destruct (decide (i = j)) as [->|Hne].
  - rewrite getb_setb_eq by lia. rewrite getb_splice_in by (change (zlen [x]) with 1; lia).
    by rewrite Z.sub_diag.
  - rewrite getb_setb_ne by lia. by rewrite getb_splice_out by (change (zlen [x]) with 1; lia).
Qed.

Lemma slice_slice {A} (l : list A) a n b m :
  0 <= a -> 0 <= b -> 0 <= m -> b + m <= n -> slice (slice l a n) b m = slice l (a + b) m.
Proof.
  intros Ha Hb Hm H. unfold slice. apply list_eq. intros i.
  destruct (decide (i < Z.to_nat m)%nat); [|rewrite !lookup_take_ge by lia; done].
  rewrite !lookup_take_lt, !lookup_drop by lia. rewrite lookup_take_lt, lookup_drop by lia. f_equal. lia.
Qed.

Lemma slice_app_l {A} (l1 l2 : list A) n : zlen l1 = n -> slice (l1 ++ l2) 0 n = l1.
Proof. intros <-. unfold slice, zlen. rewrite Nat2Z.id. cbn [Z.to_nat drop]. by apply take_app_length'. Qed.

Lemma slice_app_r {A} (l1 l2 : list A) n m : zlen l1 = n -> zlen l2 = m -> slice (l1 ++ l2) n m = l2.
Proof. intros <- <-. unfold slice, zlen. rewrite !Nat2Z.id, drop_app_length. by apply take_ge. Qed.

Lemma get_put_le32 b off x :
  0 <= off -> off + 4 <= zlen b -> 0 <= x < 2 ^ 32 -> get_le32 (put_le32 b off x) off = x.
Proof.
  intros. unfold get_le32, put_le32. change 4 with (Z.of_nat 4). rewrite <- (zlen_le_bytes 4 x).
  rewrite slice_splice_eq by (rewrite ?zlen_le_bytes; lia).
  rewrite le_val_le_bytes by lia. apply Z.mod_small. simpl. lia.
Qed.

Lemma get_put_le16 b off x :
  0 <= off -> off + 2 <= zlen b -> 0 <= x < 2 ^ 16 -> get_le16 (put_le16 b off x) off = x.
Proof.
  intros. unfold get_le16, put_le16. change 2 with (Z.of_nat 2) at 1.
  rewrite <- (zlen_le_bytes 2 x).
  rewrite slice_splice_eq by (rewrite ?zlen_le_bytes; lia).
  rewrite le_val_le_bytes by lia. apply Z.mod_small. simpl. lia.
Qed.

Lemma get_put_le64 b off x :
  0 <= off -> off + 8 <= zlen b -> 0 <= x < 2 ^ 64 -> get_le64 (put_le64 b off x) off = x.
Proof.
  intros. unfold get_le64, put_le64. change 8 with (Z.of_nat 8). rewrite <- (zlen_le_bytes 8 x).
  rewrite slice_splice_eq by (rewrite ?zlen_le_bytes; lia).
  rewrite le_val_le_bytes by lia. apply Z.mod_small. simpl. lia.
Qed.

#[export] Hint Resolve bytes_le_bytes : bytes.
#[export] Hint Rewrite zlen_le_bytes : zl.

(** ** Theorems *)

(** The subblock index survives the event flags: whatever other flags
    an event carries outside bits 8..15, the index that
    beamfs_rs_event_subblock_bits stored is the one that
    beamfs_rs_event_subblock reads back. *)
Theorem event_subblock_roundtrip (flags sub : Z) :
  0 <= sub < 255 -> Z.land flags BEAMFS_RS_EVENT_SUBBLOCK_MASK = 0 ->
  beamfs_rs_event_subblock (Z.lor flags (beamfs_rs_event_subblock_bits sub)) = Some sub.
Proof.
  intros Hs Hf. unfold beamfs_rs_event_subblock, beamfs_rs_event_subblock_bits.
  unfold u32. rewrite (Z.mod_small (sub + 1)) by lia.
  rewrite (Z.mod_small (Z.shiftl _ _)) by (rewrite Z.shiftl_mul_pow2; unfold BEAMFS_RS_EVENT_SUBBLOCK_SHIFT; lia).
  rewrite Z.land_lor_distr_l, Hf, Z.lor_0_l, <- Z.land_assoc, Z.land_diag.
  unfold BEAMFS_RS_EVENT_SUBBLOCK_MASK. rewrite <- Z.shiftl_land, Z.shiftr_shiftl_l by done.
  rewrite Z.sub_diag, Z.shiftl_0_r. change 255 with (Z.ones 8). rewrite Z.land_ones by lia.
  rewrite Z.mod_small by lia. destruct (sub + 1 =? 0) eqn:E; [lia|]. f_equal. lia.
Qed.

Lemma event_subblock_roundtrip_witness :
  beamfs_rs_event_subblock
    (Z.lor BEAMFS_RS_EVENT_FLAG_UNCORRECTABLE (beamfs_rs_event_subblock_bits 15)) = Some 15.
Proof. apply (event_subblock_roundtrip BEAMFS_RS_EVENT_FLAG_UNCORRECTABLE 15); [lia|reflexivity]. Defined.

(** The block count of a file is exact: every size the format can
    address needs beamfs_inline_size_to_blocks blocks of 3824 bytes and no
    fewer, and its last byte translates into the last of them. *)
Theorem inline_size_to_blocks_exact (size : Z) :
  0 < size <= BEAMFS_MAX_FILE_SIZE ->
  let n := beamfs_inline_size_to_blocks size in
  (n - 1) * BEAMFS_DATA_INLINE_BYTES < size <= n * BEAMFS_DATA_INLINE_BYTES /\
  0 < n <= BEAMFS_MAX_IBLOCK_TINDIRECT /\
  beamfs_inline_logical_to_iblock (size - 1) = n - 1.
Proof.
  intros Hs n. subst n. unfold beamfs_inline_size_to_blocks, beamfs_inline_logical_to_iblock, u64.
  change BEAMFS_MAX_FILE_SIZE with 514253034304 in Hs.
  change BEAMFS_MAX_IBLOCK_TINDIRECT with 134480396.
  change BEAMFS_DATA_INLINE_BYTES with 3824.
  rewrite (Z.mod_small (size + 3824)) by lia. rewrite Z.mod_small by lia.
  pose proof (Z.div_mod (size + 3824 - 1) 3824 ltac:(lia)).
  pose proof (Z.mod_pos_bound (size + 3824 - 1) 3824 ltac:(lia)).
  split; [lia|]. split; [lia|].
  replace (size + 3824 - 1) with (size - 1 + 1 * 3824) by lia. rewrite Z.div_add by lia. lia.
Qed.

Lemma inline_size_to_blocks_exact_witness :
  beamfs_inline_size_to_blocks 3825 = 2 /\ beamfs_inline_logical_to_iblock 3824 = 1.
Proof.
  split; [reflexivity|].
  apply (inline_size_to_blocks_exact 3825). split; [reflexivity|vm_compute; discriminate].
Defined.
