(* ===== verification/Crc.v ===== *)
(** * CRC-32 (tools/fsck.beamfs/crc32.c, crc32.h; edac.c)

    The table-driven CRC of the tools, the bit-serial definition it
    implements, the checksums of the superblock and of an inode, and the
    interface behind which the kernel code sees crc32_le. *)

From S2P Require Import Prelude Format.

(** ** The tools' implementation *)

Definition crc_poly : Z := 3988292384. (* 0xEDB88320 *)

(** One bit: [c = (c & 1) ? (poly ^ (c >> 1)) : (c >> 1)]. *)
Definition crc_bit (c : Z) : Z :=
  if Z.land c 1 =? 1 then Z.lxor crc_poly (Z.shiftr c 1) else Z.shiftr c 1.

Definition crc32_init : list Z :=
  map (fun i => foldl (fun c _ => crc_bit c) i (upto 8)) (upto 256).

Definition crc32_table : list Z := Eval vm_compute in crc32_init.

(** [c = crc32_table[(c ^ *p++) & 0xFF] ^ (c >> 8)]. *)
Definition crc_step (c x : Z) : Z :=
  Z.lxor (getb crc32_table (Z.land (Z.lxor c x) 255)) (Z.shiftr c 8).

Definition crc32_internal (seed : Z) (buf : list Z) : Z := foldl crc_step seed buf.

Definition crc_xorout : Z := 4294967295. (* 0xFFFFFFFF *)

Definition crc32 (buf : list Z) : Z := Z.lxor (crc32_internal crc_xorout buf) crc_xorout.

Definition crc32_sb (sb : list Z) : Z :=
  let c := crc32_internal crc_xorout (slice sb 0 off_s_crc32) in
  let c := crc32_internal c (slice sb off_s_uuid (off_s_pad - off_s_uuid)) in
  Z.lxor c crc_xorout.

Definition crc32_inode (raw : list Z) : Z :=
  let staging := slice raw 0 BEAMFS_INODE_CRC_HEAD_LEN ++
                 slice raw BEAMFS_INODE_CRC_TAIL_OFF BEAMFS_INODE_CRC_TAIL_LEN in
  crc32 staging.

(** ** The bit-serial definition *)

Definition bit8 (c : Z) : Z := Nat.iter 8 crc_bit c.

Definition crc_ref (seed : Z) (buf : list Z) : Z := foldl (fun c x => bit8 (Z.lxor c x)) seed buf.

Definition is_u32 (x : Z) : Prop := 0 <= x < 2 ^ 32.

Lemma land_1_mod c : Z.land c 1 = c mod 2.
Proof. change 1 with (Z.ones 1) at 1. by rewrite Z.land_ones by lia. Qed.

Lemma crc_bit_eq c : crc_bit c = Z.lxor (Z.shiftr c 1) (if Z.odd c then crc_poly else 0).
Proof.
  unfold crc_bit. rewrite land_1_mod, Zmod_odd. destruct (Z.odd c); simpl.
  - apply Z.lxor_comm.
  - by rewrite Z.lxor_0_r.
Qed.

Lemma crc_bit_lxor x y : crc_bit (Z.lxor x y) = Z.lxor (crc_bit x) (crc_bit y).
Proof.
  rewrite !crc_bit_eq, Z.shiftr_lxor.
  assert (Z.odd (Z.lxor x y) = xorb (Z.odd x) (Z.odd y)) as ->.
  { rewrite <- !Z.bit0_odd. apply Z.lxor_spec. }
  apply Z.bits_inj. intros n. rewrite !Z.lxor_spec.
  destruct (Z.odd x), (Z.odd y); simpl; rewrite ?Z.testbit_0_l;
    destruct (Z.testbit (Z.shiftr x 1) n), (Z.testbit (Z.shiftr y 1) n), (Z.testbit crc_poly n); done.
Qed.

Lemma bit8_lxor x y : bit8 (Z.lxor x y) = Z.lxor (bit8 x) (bit8 y).
Proof. unfold bit8. simpl. by rewrite !crc_bit_lxor. Qed.

Lemma crc_bit_double y : crc_bit (2 * y) = y.
Proof.
  rewrite crc_bit_eq. rewrite Z.odd_mul. simpl. rewrite Z.lxor_0_r, Z.shiftr_div_pow2 by lia.
  rewrite Z.mul_comm. by apply Z.div_mul.
Qed.

Lemma bit8_shl8 y : bit8 (Z.shiftl y 8) = y.
Proof.
  rewrite Z.shiftl_mul_pow2 by lia. unfold bit8. cbn [Nat.iter].
  replace (y * 2 ^ 8) with (2 * (2 * (2 * (2 * (2 * (2 * (2 * (2 * y)))))))) by lia.
  simpl. by rewrite !crc_bit_double.
Qed.

Lemma crc32_table_bit8 i : 0 <= i < 256 -> getb crc32_table i = bit8 i.
Proof.
  intros Hi. change crc32_table with crc32_init. unfold crc32_init.
  rewrite getb_map by zlen. by rewrite getb_upto by lia.
Qed.

Lemma low_byte_split c : c = Z.lxor (Z.land c 255) (Z.shiftl (Z.shiftr c 8) 8).
Proof.
  apply Z.bits_inj'. intros n Hn. rewrite Z.lxor_spec, Z.land_spec.
  change 255 with (Z.ones 8). rewrite Z.shiftl_spec by done.
  destruct (decide (n < 8)).
  - rewrite Z.ones_spec_low, (Z.testbit_neg_r _ (n - 8)) by lia.
    by rewrite andb_true_r, xorb_false_r.
  - rewrite Z.ones_spec_high by lia. rewrite Z.shiftr_spec by lia.
    rewrite andb_false_r, xorb_false_l. f_equal. lia.
Qed.

Lemma shiftr_lxor_byte c x : is_byte x -> Z.shiftr (Z.lxor c x) 8 = Z.shiftr c 8.
Proof.
  intros Hx. rewrite Z.shiftr_lxor. assert (Z.shiftr x 8 = 0) as ->; [|by rewrite Z.lxor_0_r].
  rewrite Z.shiftr_div_pow2 by lia. apply Z.div_small. apply Hx.
Qed.

Lemma land_255_byte c : is_byte (Z.land c 255).
Proof. change 255 with (Z.ones 8). rewrite Z.land_ones by lia. apply Z.mod_pos_bound. lia. Qed.

Lemma crc_step_bit8 c x : is_byte x -> crc_step c x = bit8 (Z.lxor c x).
Proof.
  intros Hx. unfold crc_step. rewrite crc32_table_bit8 by apply land_255_byte.
  rewrite (low_byte_split (Z.lxor c x)) at 2. rewrite bit8_lxor, bit8_shl8.
  by rewrite shiftr_lxor_byte.
Qed.

(** The table-driven loop is the bit-serial CRC. *)
Lemma crc32_internal_ref seed buf : bytes buf -> crc32_internal seed buf = crc_ref seed buf.
Proof.
  intros H. unfold crc32_internal, crc_ref. revert seed.
  induction H as [|x buf Hx H IH]; intros seed; simpl; [done|].
  by rewrite crc_step_bit8, IH.
Qed.

(** ** Range and injectivity *)

Lemma lxor_bound n x y : 0 <= n -> 0 <= x < 2 ^ n -> 0 <= y < 2 ^ n -> 0 <= Z.lxor x y < 2 ^ n.
Proof.
  intros Hn Hx Hy. assert (0 <= Z.lxor x y) as H0 by (apply Z.lxor_nonneg; lia). split; [done|].
  destruct (decide (Z.lxor x y = 0)) as [->|]; [lia|]. apply Z.log2_lt_pow2; [lia|].
  pose proof (Z.log2_lxor x y ltac:(lia) ltac:(lia)).
  assert (forall z, 0 <= z < 2 ^ n -> Z.log2 z < n \/ z = 0) as L.
  { intros z Hz. destruct (decide (z = 0)); [by right|left]. apply Z.log2_lt_pow2; lia. }
  assert (0 < n) by (destruct (decide (n = 0)) as [->|]; [simpl in *; exfalso; apply n0; replace x with 0 by lia; replace y with 0 by lia; done|lia]).
  destruct (L x Hx) as [?| ->], (L y Hy) as [?| ->]; simpl in *; lia.
Qed.

Lemma crc_bit_range c : is_u32 c -> is_u32 (crc_bit c).
Proof.
  intros Hc. rewrite crc_bit_eq. apply lxor_bound; [lia| |].
  - rewrite Z.shiftr_div_pow2 by lia. unfold is_u32 in Hc. change (2 ^ 1) with 2.
    split; [apply Z.div_pos; lia|]. apply Z.div_lt_upper_bound; lia.
  - destruct (Z.odd c); unfold crc_poly; lia.
Qed.

Lemma bit8_range c : is_u32 c -> is_u32 (bit8 c).
Proof. intros. unfold bit8. simpl. by repeat apply crc_bit_range. Qed.

(** The top bit of a step is the bit that was shifted out. *)
Lemma crc_bit_top c : is_u32 c -> Z.testbit (crc_bit c) 31 = Z.odd c.
Proof.
  intros Hc. rewrite crc_bit_eq, Z.lxor_spec, Z.shiftr_spec by lia.
  assert (Z.testbit c (31 + 1) = false) as ->.
  { destruct (decide (c = 0)) as [->|]; [by rewrite Z.testbit_0_l|].
    apply Z.bits_above_log2; [apply Hc|]. apply Z.log2_lt_pow2; unfold is_u32 in Hc; lia. }
  by destruct (Z.odd c).
Qed.

Lemma crc_bit_inj c d : is_u32 c -> is_u32 d -> crc_bit c = crc_bit d -> c = d.
Proof.
  intros Hc Hd E. assert (O : Z.odd c = Z.odd d).
  { rewrite <- !crc_bit_top by done. by rewrite E. }
  rewrite !crc_bit_eq, O in E. apply (f_equal (fun z => Z.lxor z (if Z.odd d then crc_poly else 0))) in E.
  rewrite !Z.lxor_assoc, Z.lxor_nilpotent, !Z.lxor_0_r in E.
  rewrite (Z.div2_odd c), (Z.div2_odd d), O. rewrite !Z.div2_spec. by rewrite E.
Qed.

Lemma bit8_inj c d : is_u32 c -> is_u32 d -> bit8 c = bit8 d -> c = d.
Proof.
  intros Hc Hd. unfold bit8. simpl. intros E.
  repeat (apply crc_bit_inj in E; [|by repeat apply crc_bit_range|by repeat apply crc_bit_range]).
  done.
Qed.

Lemma byte_u32 x : is_byte x -> is_u32 x.
Proof. unfold is_byte, is_u32. lia. Qed.

Lemma crc_ref_range seed buf : is_u32 seed -> bytes buf -> is_u32 (crc_ref seed buf).
Proof.
  intros Hs H. revert seed Hs. induction H as [|x buf Hx H IH]; intros seed Hs; simpl; [done|].
  apply IH, bit8_range, lxor_bound; [lia|done|by apply byte_u32].
Qed.

(** The state is never forgotten: a fixed message maps states injectively. *)
Lemma crc_ref_inj_seed c d buf :
  is_u32 c -> is_u32 d -> bytes buf -> crc_ref c buf = crc_ref d buf -> c = d.
Proof.
  intros Hc Hd H. revert c d Hc Hd.
  induction H as [|x buf Hx H IH]; intros c d Hc Hd E; simpl in E; [done|].
  apply byte_u32 in Hx.
  apply IH in E; [|by apply bit8_range, lxor_bound..].
  apply bit8_inj in E; [|by apply lxor_bound..].
  apply (f_equal (fun z => Z.lxor z x)) in E.
  by rewrite !Z.lxor_assoc, Z.lxor_nilpotent, !Z.lxor_0_r in E.
Qed.

Lemma byte_add_lxor x v : is_byte x -> 0 <= v -> x + 256 * v = Z.lxor x (Z.shiftl v 8).
Proof.
  intros Hx Hv. rewrite Z.shiftl_mul_pow2 by lia.
  rewrite <- Z.add_nocarry_lxor; [lia|]. apply Z.bits_inj'. intros n Hn.
  rewrite Z.land_spec, Z.bits_0. destruct (decide (n < 8)).
  - rewrite (Z.mul_pow2_bits_low v 8 n) by lia. by rewrite andb_false_r.
  - destruct (decide (x = 0)) as [->|]; [by rewrite Z.bits_0|].
    rewrite (Z.bits_above_log2 x n); [done|apply Hx|]. pose proof (log2_byte x Hx). lia.
Qed.

(** A message shifts through the register as one number. *)
Lemma crc_ref_word c w :
  bytes w -> crc_ref c w = Nat.iter (length w) bit8 (Z.lxor c (le_val w)).
Proof.
  intros H. revert c. induction H as [|x w Hx H IH]; intros c.
  - simpl. by rewrite Z.lxor_0_r.
  - cbn [crc_ref foldl length le_val]. fold (crc_ref (bit8 (Z.lxor c x)) w). rewrite IH.
    rewrite Nat.iter_succ_r. f_equal.
    rewrite byte_add_lxor by (done || apply le_val_range, H).
    by rewrite <- Z.lxor_assoc, (bit8_lxor (Z.lxor c x)), bit8_shl8.
Qed.

Lemma iter_bit8_inj n c d :
  is_u32 c -> is_u32 d -> Nat.iter n bit8 c = Nat.iter n bit8 d -> c = d.
Proof.
  revert c d. induction n as [|n IH]; intros c d Hc Hd E; [done|].
  rewrite !Nat.iter_succ_r in E. apply IH in E; [|by apply bit8_range..]. by apply bit8_inj in E.
Qed.

Lemma crc_ref_inj_window c w w' :
  is_u32 c -> bytes w -> bytes w' -> length w = length w' -> (length w <= 4)%nat ->
  crc_ref c w = crc_ref c w' -> w = w'.
Proof.
  intros Hc Hw Hw' Hl H4 E. rewrite !crc_ref_word, <- Hl in E by done.
  assert (R : forall l, bytes l -> (length l <= 4)%nat -> is_u32 (le_val l)).
  { intros l Hb Hn. pose proof (le_val_range l Hb) as R. unfold is_u32.
    assert (256 ^ zlen l <= 256 ^ 4) by (apply Z.pow_le_mono_r; unfold zlen; lia). lia. }
  apply iter_bit8_inj in E; [|apply lxor_bound; [lia|done|apply R; (done || lia)]..].
  apply (f_equal (Z.lxor c)) in E.
  rewrite <- !Z.lxor_assoc, Z.lxor_nilpotent, !Z.lxor_0_l in E.
  rewrite <- (le_bytes_le_val w), <- (le_bytes_le_val w') by done. by rewrite Hl, E.
Qed.

Lemma crc_ref_app c a b : crc_ref c (a ++ b) = crc_ref (crc_ref c a) b.
Proof. apply foldl_app. Qed.

Lemma lxor_cancel_r x y z : Z.lxor x z = Z.lxor y z -> x = y.
Proof.
  intros E. apply (f_equal (fun t => Z.lxor t z)) in E.
  by rewrite !Z.lxor_assoc, Z.lxor_nilpotent, !Z.lxor_0_r in E.
Qed.

Lemma xorout_u32 : is_u32 crc_xorout.
Proof. unfold is_u32, crc_xorout. lia. Qed.

(** ** The kernel's library

    crc32_le of the kernel is code outside the repository.  What edac.c
    relies on is its documented behaviour: CRC-32 with the reflected
    polynomial 0xEDB88320, without initial or final inversion. *)
Class CrcLib := {
  crc32_le : Z -> list Z -> Z;
  crc32_le_spec : forall c l, is_u32 c -> bytes l -> crc32_le c l = crc_ref c l }.

(** The tools' implementation is one such library. *)
#[export] Program Instance tools_crc : CrcLib := {| crc32_le := crc32_internal |}.
Next Obligation. intros; by apply crc32_internal_ref. Qed.

Section kernel_crc.
Context `{CL : !CrcLib}.

Definition beamfs_crc32 (buf : list Z) : Z := Z.lxor (crc32_le crc_xorout buf) crc_xorout.

Definition beamfs_crc32_sb (fsb : list Z) : Z :=
  let c := crc32_le crc_xorout (slice fsb 0 off_s_crc32) in
  let c := crc32_le c (slice fsb off_s_uuid (off_s_pad - off_s_uuid)) in
  Z.lxor c crc_xorout.

Lemma beamfs_crc32_tools buf : bytes buf -> beamfs_crc32 buf = crc32 buf.
Proof.
  intros Hb. unfold beamfs_crc32, crc32.
  by rewrite crc32_le_spec, crc32_internal_ref by (done || apply xorout_u32).
Qed.

Lemma beamfs_crc32_range buf : bytes buf -> is_u32 (beamfs_crc32 buf).
Proof.
  intros Hb. unfold beamfs_crc32. rewrite crc32_le_spec by (done || apply xorout_u32).
  apply lxor_bound; [lia| |apply xorout_u32]. by apply crc_ref_range; [apply xorout_u32|].
Qed.

Lemma beamfs_crc32_sb_staging fsb :
  bytes fsb ->
  beamfs_crc32_sb fsb =
  beamfs_crc32 (slice fsb 0 off_s_crc32 ++ slice fsb off_s_uuid (off_s_pad - off_s_uuid)).
Proof.
  intros Hb. pose proof xorout_u32. unfold beamfs_crc32_sb, beamfs_crc32.
  rewrite (crc32_le_spec _ (_ ++ _)), crc_ref_app by (try apply bytes_app; auto with bytes).
  rewrite (crc32_le_spec crc_xorout) by auto with bytes.
  rewrite crc32_le_spec by (auto with bytes; apply crc_ref_range; auto with bytes). done.
Qed.
End kernel_crc.

(** ** Theorems *)

(** C36: the table-driven CRC of the tools computes the bit-serial CRC-32
    (reflected polynomial 0xEDB88320) from any seed, and a checksum over
    two pieces is the checksum over their concatenation. *)
Theorem crc32_internal_correct (seed : Z) (a b : list Z) :
  bytes a -> bytes b ->
  crc32_internal seed (a ++ b) = crc_ref seed (a ++ b) /\
  crc32_internal (crc32_internal seed a) b = crc32_internal seed (a ++ b).
Proof.
  intros Ha Hb. rewrite !crc32_internal_ref by (done || by apply bytes_app).
  split; [done|]. by rewrite crc_ref_app.
Qed.

Lemma crc32_internal_correct_witness :
  crc32_internal 7 ([1; 2] ++ [3]) = crc_ref 7 ([1; 2] ++ [3]).
Proof. apply (crc32_internal_correct 7 [1; 2] [3]); repeat constructor; lia. Defined.

(** The checksum detects every burst of up to four consecutive bytes:
    two buffers that agree outside such a window and differ inside it have
    different CRCs. *)
Theorem crc32_detects_burst `{CL : !CrcLib} (pre w w' post : list Z) :
  bytes pre -> bytes w -> bytes w' -> bytes post ->
  zlen w = zlen w' -> zlen w <= 4 -> w <> w' ->
  beamfs_crc32 (pre ++ w ++ post) <> beamfs_crc32 (pre ++ w' ++ post).
Proof.
  intros Hpre Hw Hw' Hpost Hl H4 Hne E. apply Hne. pose proof xorout_u32 as Hx.
  unfold beamfs_crc32 in E. apply lxor_cancel_r in E.
  rewrite !crc32_le_spec, !crc_ref_app in E by (done || by rewrite !bytes_app).
  assert (Hs : is_u32 (crc_ref crc_xorout pre)) by (by apply crc_ref_range).
  apply crc_ref_inj_seed in E; [|by apply crc_ref_range..|done].
  apply crc_ref_inj_window in E; unfold zlen in *; (done || lia).
Qed.

Lemma crc32_detects_burst_witness :
  beamfs_crc32 ([1; 2; 3] ++ [4; 5] ++ [6]) <> beamfs_crc32 ([1; 2; 3] ++ [4; 6] ++ [6]).
Proof.
  apply (crc32_detects_burst [1; 2; 3] [4; 5] [4; 6] [6]);
    [bytes_list..|done|vm_compute; discriminate|discriminate].
Defined.

(** Kernel and tools agree on the superblock checksum byte for byte,
    and it is the CRC of the 2765 covered bytes in staging order: region A
    [0, 64) followed by region B [68, 2769). *)
Theorem crc32_sb_agree `{CL : !CrcLib} (sb : list Z) :
  bytes sb -> zlen sb = BEAMFS_BLOCK_SIZE ->
  beamfs_crc32_sb sb = crc32_sb sb /\
  crc32_sb sb = crc32 (slice sb 0 64 ++ slice sb 68 2701) /\
  zlen (slice sb 0 64 ++ slice sb 68 2701) = BEAMFS_SB_RS_COVERAGE_BYTES.
Proof.
  intros Hb Hl. unfold BEAMFS_BLOCK_SIZE in Hl. split_and!.
  - rewrite beamfs_crc32_sb_staging by done.
    rewrite beamfs_crc32_tools by (apply bytes_app; auto with bytes).
    symmetry. apply (beamfs_crc32_sb_staging (CL := tools_crc) sb Hb).
  - apply (beamfs_crc32_sb_staging (CL := tools_crc) sb Hb).
  - rewrite zlen_app, !zlen_slice by lia. done.
Qed.

Lemma crc32_sb_agree_witness : beamfs_crc32_sb (zeros 4096) = crc32_sb (zeros 4096).
Proof.
  refine (proj1 (crc32_sb_agree (zeros 4096) _ _)); [apply bytes_zeros|by rewrite zlen_zeros].
Defined.
