(* ===== verification/RsInit.v ===== *)
(** * The Reed-Solomon codec handle of fsck.beamfs

    tools/fsck.beamfs/rs_decode.c: [struct rs_codec] and [rs_init], which
    builds the GF(2^8) log and antilog tables of the primitive polynomial
    0x187 and the generator polynomial with roots alpha^0 .. alpha^15 in
    index form.  The loops are folds over the values of their counter. *)

From S2P Require Import Prelude.

Definition RS_SYMSIZE : Z := 8.
Definition RS_GFPOLY : Z := 391. (* 0x187 *)
Definition RS_FCR : Z := 0.
Definition RS_PRIM : Z := 1.
Definition RS_NROOTS : Z := 16.
Definition RS_MAX_DATA_LEN : Z := 239.
Definition RS_UNCORRECTABLE : Z := -1.

(** [struct rs_codec], less the scratch buffers: every routine that uses
    one writes it before reading it. *)
Record rs_codec := {
  mm : Z;
  nn : Z;
  nroots : Z;
  fcr : Z;
  prim : Z;
  iprim : Z;
  gfpoly : Z;
  alpha_to : list Z;
  index_of : list Z;
  genpoly : list Z;
}.

Definition rs_modnn (rs : rs_codec) (x : Z) : Z := u16 (x mod nn rs).

(** One turn of the shift register: [sr <<= 1], reduced by the polynomial. *)
Definition sr_step (sr : Z) : Z :=
  let sr := Z.shiftl sr 1 in
  let sr := if Z.land sr (Z.shiftl 1 RS_SYMSIZE) =? 0 then sr
            else Z.lxor sr RS_GFPOLY in
  Z.land sr (Z.shiftl 1 RS_SYMSIZE - 1).

(** The table loop: [(index_of, alpha_to, sr)] after the 255 turns. *)
Definition gf_tables (nn : Z) : list Z * list Z * Z :=
  foldl (fun '(index_of, alpha_to, sr) i =>
           (setb index_of sr (u16 i), setb alpha_to i (u16 sr), sr_step sr))
    (setb (zeros 256) 0 (u16 nn), setb (zeros 256) nn 0, 1) (upto nn).

(** [for (iprim = 1; (iprim % prim) != 0; iprim += rs->nn)]. *)
Fixpoint iprim_loop (fuel : nat) (prim nn iprim : Z) : Z :=
  match fuel with
  | O => iprim
  | S fuel => if iprim mod prim =? 0 then iprim else iprim_loop fuel prim nn (iprim + nn)
  end.

(** Multiply the polynomial by (x + alpha^root): the body of the outer
    generator loop, [j] going down from [i] to 1. *)
Definition genpoly_step (rs : rs_codec) (gp : list Z) (i root : Z) : list Z :=
  let gp := setb gp (i + 1) 1 in
  let gp := foldl (fun gp j =>
              if getb gp j =? 0 then setb gp j (getb gp (j - 1))
              else setb gp j (Z.lxor (getb gp (j - 1))
                     (getb (alpha_to rs) (rs_modnn rs (getb (index_of rs) (getb gp j) + root)))))
              gp (reverse (seqZ 1 i)) in
  setb gp 0 (getb (alpha_to rs) (rs_modnn rs (getb (index_of rs) (getb gp 0) + root))).

(** The generator in polynomial form, before the conversion. *)
Definition genpoly_form (rs : rs_codec) : list Z :=
  foldl (fun gp i => genpoly_step rs gp i (fcr rs * prim rs + i * prim rs))
    (setb (zeros (nroots rs + 1)) 0 1) (upto (nroots rs)).

(** [rs_init]; [calloc_ok] is whether the allocation succeeds.  [None] is
    the NULL of a failed allocation or of a polynomial that is not
    primitive. *)
Definition rs_init (calloc_ok : bool) : option rs_codec :=
  if calloc_ok then
    let nn := Z.shiftl 1 RS_SYMSIZE - 1 in
    let '(index_of, alpha_to, sr) := gf_tables nn in
    if sr =? getb alpha_to 0 then
      let rs := {| mm := RS_SYMSIZE; nn := nn; nroots := RS_NROOTS; fcr := RS_FCR;
                   prim := RS_PRIM;
                   iprim := iprim_loop 256 RS_PRIM nn 1 / RS_PRIM; gfpoly := RS_GFPOLY;
                   alpha_to := alpha_to; index_of := index_of; genpoly := [] |} in
      let gp := genpoly_form rs in
      Some {| mm := mm rs; nn := nn; nroots := nroots rs; fcr := fcr rs; prim := prim rs;
              iprim := iprim rs; gfpoly := gfpoly rs;
              alpha_to := alpha_to; index_of := index_of;
              genpoly := map (fun c => getb index_of c) gp |}
    else None
  else None.

(** The handle [rs_init] returns, evaluated. *)
Definition codec : rs_codec :=
  Eval vm_compute in
    match rs_init true with
    | Some rs => rs
    | None => {| mm := 0; nn := 0; nroots := 0; fcr := 0; prim := 0; iprim := 0;
                 gfpoly := 0; alpha_to := []; index_of := []; genpoly := [] |}
    end.

Lemma rs_init_codec : rs_init true = Some codec.
Proof. vm_compute. reflexivity. Qed.

(** Checks over every value of a byte, by evaluation. *)
Lemma forallb_upto (n : Z) (P : Z -> bool) :
  forallb P (upto n) = true -> forall x, 0 <= x < n -> P x = true.
Proof.
  intros H x Hx. rewrite forallb_forall in H. apply H.
  apply list_elem_of_In, elem_of_seqZ; lia.
Qed.
