(* ===== verification/GF.v ===== *)
(** * The field GF(2^8) behind the tables

    What the log/antilog tables of [RsInit.codec] mean: bytes under XOR
    and [gmul] form a field of characteristic 2 in which alpha = 2 has
    order 255.  [gf] packs a byte with its range, so that [ring] applies
    to the algebra of the encoder and the decoder. *)

From Stdlib Require Import Ring Field.
From S2P Require Import Prelude RsInit.

(** alpha^k and log_alpha x, as the code looks them up. *)
Definition gexp (k : Z) : Z := getb (alpha_to codec) (k mod 255).
Definition glog (x : Z) : Z := getb (index_of codec) x.

(** Multiplication through the tables, zero apart. *)
Definition gmul (x y : Z) : Z :=
  if (x =? 0) || (y =? 0) then 0 else gexp (glog x + glog y).

Definition gexp_check (k : Z) : bool :=
  let v := getb (alpha_to codec) k in
  (0 <? v) && (v <? 256) && (getb (index_of codec) v =? k)
  && (v =? (if k =? 0 then 1 else sr_step (getb (alpha_to codec) (k - 1)))).

Lemma gexp_table k : 0 <= k < 255 -> gexp_check k = true.
Proof. apply forallb_upto. vm_compute. reflexivity. Qed.

Definition glog_check (x : Z) : bool :=
  let v := getb (index_of codec) x in
  if x =? 0 then v =? 255
  else (0 <=? v) && (v <? 255) && (getb (alpha_to codec) v =? x).

Lemma glog_table x : 0 <= x < 256 -> glog_check x = true.
Proof. apply forallb_upto. vm_compute. reflexivity. Qed.

Lemma alpha_nn : getb (alpha_to codec) 255 = 0.
Proof. vm_compute. reflexivity. Qed.

Lemma sr_step_lxor x y :
  0 <= x < 256 -> 0 <= y < 256 -> sr_step (Z.lxor x y) = Z.lxor (sr_step x) (sr_step y).
Proof.
  intros Hx Hy. apply Z.eqb_eq. revert y Hy.
  apply (forallb_upto 256 (fun y => sr_step (Z.lxor x y) =? Z.lxor (sr_step x) (sr_step y))).
  revert x Hx.
  apply (forallb_upto 256 (fun x => forallb
    (fun y => sr_step (Z.lxor x y) =? Z.lxor (sr_step x) (sr_step y)) (upto 256))).
  vm_compute. reflexivity.
Qed.

(** ** Logarithm and exponential *)

Lemma gexp_range k : 0 < gexp k < 256.
Proof.
  pose proof (gexp_table (k mod 255) ltac:(apply Z.mod_pos_bound; lia)) as H.
  unfold gexp, gexp_check in *. rewrite !andb_true_iff in H. lia.
Qed.

Lemma gexp_byte k : 0 <= gexp k < 256.
Proof. pose proof (gexp_range k); lia. Qed.

Lemma glog_gexp k : glog (gexp k) = k mod 255.
Proof.
  pose proof (gexp_table (k mod 255) ltac:(apply Z.mod_pos_bound; lia)) as H.
  unfold gexp, glog, gexp_check in *. rewrite !andb_true_iff in H. lia.
Qed.

Lemma glog_zero : glog 0 = 255.
Proof. vm_compute. reflexivity. Qed.

Lemma glog_range x : 0 < x < 256 -> 0 <= glog x < 255.
Proof.
  intros Hx. pose proof (glog_table x ltac:(lia)) as H.
  unfold glog, glog_check in *.
  destruct (x =? 0) eqn:E; [lia|]. rewrite !andb_true_iff in H. lia.
Qed.

Lemma gexp_glog x : 0 < x < 256 -> gexp (glog x) = x.
Proof.
  intros Hx. pose proof (glog_range x Hx). pose proof (glog_table x ltac:(lia)) as H1.
  unfold gexp. rewrite Z.mod_small by lia. unfold glog, glog_check in *.
  destruct (x =? 0) eqn:E; [lia|]. rewrite !andb_true_iff in H1. lia.
Qed.

Lemma glog_bound x : 0 <= x < 256 -> 0 <= glog x <= 255.
Proof.
  intros. destruct (decide (x = 0)) as [->|]; [rewrite glog_zero; lia|].
  pose proof (glog_range x); lia.
Qed.

(** A byte is zero exactly when its logarithm is the code's [nn]. *)
Lemma glog_nn_iff x : 0 <= x < 256 -> glog x = 255 <-> x = 0.
Proof.
  intros Hx; split; [|intros ->; apply glog_zero].
  intros E. destruct (decide (x = 0)); [done|]. pose proof (glog_range x); lia.
Qed.

Lemma gexp_0 : gexp 0 = 1.
Proof. vm_compute. reflexivity. Qed.

Lemma gexp_mod k : gexp (k mod 255) = gexp k.
Proof. unfold gexp. by rewrite Z.mod_mod by lia. Qed.

Lemma gexp_inj i j : 0 <= i < 255 -> 0 <= j < 255 -> gexp i = gexp j -> i = j.
Proof.
  intros Hi Hj H. apply (f_equal glog) in H. rewrite !glog_gexp in H.
  by rewrite !Z.mod_small in H by lia.
Qed.

(** ** Multiplication *)

Lemma gmul_range x y : 0 <= gmul x y < 256.
Proof. unfold gmul. destruct (_ || _); [lia|]. pose proof (gexp_range (glog x + glog y)); lia. Qed.

Lemma gmul_0_l x : gmul 0 x = 0.
Proof. done. Qed.

Lemma gmul_0_r x : gmul x 0 = 0.
Proof. unfold gmul. by rewrite orb_true_r. Qed.

Lemma gmul_nz x y : x <> 0 -> y <> 0 -> gmul x y = gexp (glog x + glog y).
Proof. intros. unfold gmul. rewrite !(proj2 (Z.eqb_neq _ _)) by done. done. Qed.

Lemma gmul_comm x y : gmul x y = gmul y x.
Proof. unfold gmul. rewrite orb_comm. destruct (_ || _); [done|]. by rewrite Z.add_comm. Qed.

Lemma gmul_gexp i j : gmul (gexp i) (gexp j) = gexp (i + j).
Proof.
  pose proof (gexp_range i); pose proof (gexp_range j).
  rewrite gmul_nz by lia. rewrite !glog_gexp, <- (gexp_mod (i + j)), Z.add_mod by lia.
  by rewrite gexp_mod.
Qed.

Lemma gmul_assoc x y z :
  0 <= x < 256 -> 0 <= y < 256 -> 0 <= z < 256 -> gmul x (gmul y z) = gmul (gmul x y) z.
Proof.
  intros. destruct (decide (x = 0)) as [->|]; [done|].
  destruct (decide (y = 0)) as [->|]; [by rewrite ?gmul_0_r, ?gmul_0_l, ?gmul_0_r|].
  destruct (decide (z = 0)) as [->|]; [by rewrite !gmul_0_r|].
  rewrite <- (gexp_glog x), <- (gexp_glog y), <- (gexp_glog z) by lia.
  rewrite !gmul_gexp. f_equal; lia.
Qed.

Lemma gmul_1_l x : 0 <= x < 256 -> gmul 1 x = x.
Proof.
  intros. destruct (decide (x = 0)) as [->|]; [done|].
  rewrite <- (gexp_glog x) at 1 by lia. rewrite <- gexp_0, gmul_gexp.
  by rewrite Z.add_0_l, gexp_glog by lia.
Qed.

Lemma gexp_succ k : gexp (k + 1) = sr_step (gexp k).
Proof.
  unfold gexp. rewrite Z.add_mod by lia. change (1 mod 255) with 1.
  assert (0 <= k mod 255 < 255) by (apply Z.mod_pos_bound; lia).
  set (m := k mod 255) in *. destruct (decide (m = 254)) as [->|].
  { vm_compute. reflexivity. }
  rewrite (Z.mod_small (m + 1)) by lia.
  pose proof (gexp_table (m + 1) ltac:(lia)) as T. unfold gexp_check in T.
  rewrite !andb_true_iff in T. destruct T as [_ T].
  rewrite (proj2 (Z.eqb_neq (m + 1) 0)) in T by lia.
  replace (m + 1 - 1) with m in T by lia. lia.
Qed.

Lemma gmul_2 x : 0 <= x < 256 -> gmul (gexp 1) x = sr_step x.
Proof.
  intros. destruct (decide (x = 0)) as [->|]; [by rewrite gmul_0_r|].
  rewrite <- (gexp_glog x) by lia. rewrite gmul_gexp, Z.add_comm. apply gexp_succ.
Qed.

Lemma gmul_gexp_lxor (n : nat) x y : 0 <= x < 256 -> 0 <= y < 256 ->
  gmul (gexp (Z.of_nat n)) (Z.lxor x y) =
    Z.lxor (gmul (gexp (Z.of_nat n)) x) (gmul (gexp (Z.of_nat n)) y).
Proof.
  intros Hx Hy. assert (0 <= Z.lxor x y < 256) by (by apply is_byte_lxor).
  induction n as [|n IH].
  { change (gexp (Z.of_nat 0)) with 1. by rewrite !gmul_1_l. }
  assert (Hs : forall z, 0 <= z < 256 ->
            gmul (gexp (Z.of_nat (S n))) z = sr_step (gmul (gexp (Z.of_nat n)) z)).
  { intros z Hz. rewrite <- gmul_2 by apply gmul_range.
    rewrite gmul_assoc, gmul_gexp; [|split; [|]; pose proof (gexp_range 1); lia|
      pose proof (gexp_range (Z.of_nat n)); lia|done].
    do 2 f_equal; lia. }
  rewrite !Hs by done. rewrite IH. apply sr_step_lxor; apply gmul_range.
Qed.

Lemma gmul_lxor_r x y z : 0 <= x < 256 -> 0 <= y < 256 -> 0 <= z < 256 ->
  gmul x (Z.lxor y z) = Z.lxor (gmul x y) (gmul x z).
Proof.
  intros. destruct (decide (x = 0)) as [->|]; [done|].
  pose proof (glog_range x ltac:(lia)).
  rewrite <- (gexp_glog x) by lia.
  rewrite <- (Z2Nat.id (glog x)) by lia. by apply gmul_gexp_lxor.
Qed.

(** ** The field of bytes *)

Record gf := GF { gv : Z; gv_ok : (0 <=? gv) && (gv <? 256) = true }.

Lemma gf_eq x y : gv x = gv y -> x = y.
Proof.
  destruct x as [x Hx], y as [y Hy]; simpl; intros ->. f_equal. apply proof_irrel.
Qed.

Lemma gv_range x : 0 <= gv x < 256.
Proof. destruct x as [x H]; simpl. rewrite andb_true_iff in H. lia. Qed.

Lemma gv_byte x : is_byte (gv x).
Proof. apply gv_range. Qed.

Lemma byte_ok x : 0 <= x < 256 -> (0 <=? x) && (x <? 256) = true.
Proof. rewrite andb_true_iff; lia. Qed.

(** A [Z] read as a field element; bytes are read exactly. *)
Program Definition to_gf (x : Z) : gf := GF (x mod 256) _.
Next Obligation. intros. apply byte_ok, Z.mod_pos_bound; lia. Qed.

Definition fz : gf := GF 0 eq_refl.
Definition fo : gf := GF 1 eq_refl.
Definition fadd (x y : gf) : gf :=
  GF (Z.lxor (gv x) (gv y)) (byte_ok _ (is_byte_lxor _ _ (gv_range x) (gv_range y))).
Definition fmul (x y : gf) : gf := GF (gmul (gv x) (gv y)) (byte_ok _ (gmul_range _ _)).
(** alpha^k *)
Definition fexp (k : Z) : gf := GF (gexp k) (byte_ok _ (gexp_byte k)).
Definition finv (x : gf) : gf := fexp (255 - glog (gv x)).

Declare Scope gf_scope.
Delimit Scope gf_scope with gf.
Bind Scope gf_scope with gf.
Infix "+" := fadd : gf_scope.
Infix "*" := fmul : gf_scope.
Notation "0" := fz : gf_scope.
Notation "1" := fo : gf_scope.

#[export] Instance gf_eq_dec : EqDecision gf.
Proof.
  intros x y. destruct (decide (gv x = gv y)) as [E|E].
  - left; by apply gf_eq.
  - right; by intros ->.
Defined.

Lemma gv_to_gf x : 0 <= x < 256 -> gv (to_gf x) = x.
Proof. intros; simpl; by apply Z.mod_small. Qed.

Lemma to_gf_gv x : to_gf (gv x) = x.
Proof. apply gf_eq, gv_to_gf, gv_range. Qed.

Lemma to_gf_lxor x y : is_byte x -> is_byte y -> to_gf (Z.lxor x y) = (to_gf x + to_gf y)%gf.
Proof.
  intros. apply gf_eq. simpl. rewrite !Z.mod_small by (auto; by apply is_byte_lxor). done.
Qed.

Lemma to_gf_gexp k : to_gf (gexp k) = fexp k.
Proof. apply gf_eq. pose proof (gexp_range k). by rewrite gv_to_gf by lia. Qed.

Lemma to_gf_gmul x y : is_byte x -> is_byte y -> to_gf (gmul x y) = (to_gf x * to_gf y)%gf.
Proof.
  intros. apply gf_eq. rewrite gv_to_gf by apply gmul_range. simpl.
  by rewrite !Z.mod_small by done.
Qed.

Lemma to_gf_inj x y : is_byte x -> is_byte y -> to_gf x = to_gf y -> x = y.
Proof. intros Hx Hy H. apply (f_equal gv) in H. by rewrite !gv_to_gf in H. Qed.

Lemma gf_ring : ring_theory 0%gf 1%gf fadd fmul fadd (fun x => x) eq.
Proof.
  constructor; intros; apply gf_eq; simpl; try done.
  - apply Z.lxor_comm.
  - by rewrite Z.lxor_assoc.
  - apply gmul_1_l, gv_range.
  - apply gmul_comm.
  - apply gmul_assoc; apply gv_range.
  - rewrite gmul_comm, gmul_lxor_r, (gmul_comm (gv z)), (gmul_comm (gv z)); auto using gv_range.
  - apply Z.lxor_nilpotent.
Qed.

Add Ring gf_ring : gf_ring.

Lemma fexp_nz k : fexp k <> 0%gf.
Proof. intros H. apply (f_equal gv) in H. simpl in H. pose proof (gexp_range k). lia. Qed.

Lemma fexp_add i j : (fexp i * fexp j)%gf = fexp (i + j).
Proof. apply gf_eq. simpl. apply gmul_gexp. Qed.

Lemma fexp_0 : fexp 0 = 1%gf.
Proof. apply gf_eq, gexp_0. Qed.

Lemma fexp_mod k : fexp (k mod 255) = fexp k.
Proof. apply gf_eq. simpl. apply gexp_mod. Qed.

Lemma fexp_inj i j : 0 <= i < 255 -> 0 <= j < 255 -> fexp i = fexp j -> i = j.
Proof. intros ?? H. apply (f_equal gv) in H. by apply gexp_inj. Qed.

(** Every non-zero element is a power of alpha. *)
Lemma fexp_log x : x <> 0%gf -> fexp (glog (gv x)) = x.
Proof.
  intros H. apply gf_eq. simpl. apply gexp_glog. pose proof (gv_range x).
  assert (gv x <> 0); [|lia]. intros E. apply H. by apply gf_eq.
Qed.

Lemma fmul_inv x : x <> 0%gf -> (finv x * x)%gf = 1%gf.
Proof.
  intros H. rewrite <- (fexp_log x H) at 2. unfold finv. rewrite fexp_add.
  replace (255 - glog (gv x) + glog (gv x)) with 255 by lia.
  rewrite <- fexp_mod. apply fexp_0.
Qed.

Lemma fmul_integral x y : (x * y)%gf = 0%gf -> x = 0%gf \/ y = 0%gf.
Proof.
  intros H. destruct (decide (x = 0%gf)); [by left|]. right.
  transitivity (finv x * (x * y))%gf; [|rewrite H; ring].
  transitivity ((finv x * x) * y)%gf; [rewrite fmul_inv by done; ring|ring].
Qed.

Lemma fadd_self x : (x + x)%gf = 0%gf.
Proof. apply gf_eq. simpl. apply Z.lxor_nilpotent. Qed.

Lemma fadd_eq_0 x y : (x + y)%gf = 0%gf <-> x = y.
Proof.
  split; [|intros ->; apply fadd_self]. intros H.
  transitivity ((x + y) + y)%gf; [|rewrite H; ring].
  transitivity (x + (y + y))%gf; [rewrite fadd_self; ring|ring].
Qed.
