(* ===== verification/RsTheory.v ===== *)
(** * The code as algebra

    A word is read big-endian as a polynomial over GF(2^8); it is a
    codeword when it vanishes at alpha^0 .. alpha^15.  This file holds
    what the codec theorems share: Horner evaluation, its linearity, and
    the distance of the code (a non-zero word of length at most 255 that
    vanishes at 16 consecutive powers has at least 17 non-zero symbols). *)

From Stdlib Require Import Ring.
From S2P Require Import Prelude RsInit GF.

Open Scope gf_scope.

Fixpoint fpow (x : gf) (n : nat) : gf :=
  match n with O => 1 | S n => x * fpow x n end.

(** Horner's rule from the left, the way the syndrome loop runs. *)
Definition horner (a : gf) (l : list gf) : gf := foldl (fun s d => d + s * a) 0 l.

(** The same value as a sum of weighted symbols. *)
Fixpoint wsum (a : gf) (l : list gf) : gf :=
  match l with [] => 0 | c :: l => c * fpow a (length l) + wsum a l end.

Lemma fpow_add x m n : fpow x (m + n) = fpow x m * fpow x n.
Proof. induction m as [|m IH]; simpl; [ring|]. rewrite IH; ring. Qed.

Lemma fpow_fexp k n : fpow (fexp k) n = fexp (k * Z.of_nat n)%Z.
Proof.
  induction n as [|n IH]; simpl.
  { by rewrite Z.mul_0_r, fexp_0. }
  rewrite IH, fexp_add. f_equal. lia.
Qed.

Lemma foldl_horner a s l : foldl (fun s d => d + s * a) s l = s * fpow a (length l) + wsum a l.
Proof.
  revert s. induction l as [|c l IH]; intros s; simpl; [ring|]. rewrite IH. ring.
Qed.

Lemma horner_wsum a l : horner a l = wsum a l.
Proof. unfold horner. rewrite foldl_horner. ring. Qed.

Lemma wsum_app a l1 l2 : wsum a (l1 ++ l2) = wsum a l1 * fpow a (length l2) + wsum a l2.
Proof.
  induction l1 as [|c l IH]; simpl; [ring|].
  rewrite IH, length_app, fpow_add. ring.
Qed.

Lemma wsum_zeros a n : wsum a (replicate n 0) = 0.
Proof. induction n as [|n IH]; simpl; [done|]. rewrite IH. ring. Qed.

(** Symbol-wise sum of two words. *)
Definition vadd (l1 l2 : list gf) : list gf := zip_with fadd l1 l2.

Lemma length_vadd l1 l2 : length l1 = length l2 -> length (vadd l1 l2) = length l1.
Proof. apply length_zip_with_l_eq. Qed.

Lemma wsum_vadd a l1 l2 :
  length l1 = length l2 -> wsum a (vadd l1 l2) = wsum a l1 + wsum a l2.
Proof.
  revert l2. induction l1 as [|c l IH]; intros [|c' l'] H; simpl in *; try lia; [ring|].
  fold (vadd l l'). rewrite IH, length_vadd by lia.
  replace (length l') with (length l) by lia. ring.
Qed.

(** ** Sparse words and the Vandermonde argument *)

(** Sum of c * x^i over terms (x, c). *)
Definition msum (i : nat) (ts : list (gf * gf)) : gf :=
  foldr (fun t s => snd t * fpow (fst t) i + s) 0 ts.

(** Multiply each coefficient by (x + x0). *)
Definition shift_terms (x0 : gf) (ts : list (gf * gf)) : list (gf * gf) :=
  map (fun t => (fst t, snd t * (fst t + x0))) ts.

Lemma msum_shift x0 i ts : msum i (shift_terms x0 ts) = msum (S i) ts + x0 * msum i ts.
Proof.
  induction ts as [|[x c] ts IH]; simpl; [ring|].
  rewrite IH. ring.
Qed.

Lemma fst_shift_terms x0 ts : map fst (shift_terms x0 ts) = map fst ts.
Proof. unfold shift_terms. rewrite map_map. by apply map_ext. Qed.

Lemma vandermonde ts :
  NoDup (map fst ts) -> (forall i, (i < length ts)%nat -> msum i ts = 0) ->
  Forall (fun t => snd t = 0) ts.
Proof.
  remember (length ts) as n eqn:Hn. revert ts Hn.
  induction n as [|n IH]; intros [|[x0 c0] ts] Hn Hnd H; simpl in *; try lia; [constructor|].
  apply list.NoDup_cons in Hnd as [Hx0 Hnd].
  assert (Hts : Forall (fun t => snd t = 0) (shift_terms x0 ts)).
  { apply IH.
    - unfold shift_terms. rewrite length_map. lia.
    - by rewrite fst_shift_terms.
    - intros i Hi. rewrite msum_shift.
      pose proof (H i ltac:(lia)) as H0. pose proof (H (S i) ltac:(lia)) as H1.
      simpl in H1. set (d := c0 * (x0 * fpow x0 i)) in *.
      transitivity (msum (S i) ts + x0 * msum i ts + (d + d));
        [rewrite fadd_self; ring|].
      transitivity ((d + msum (S i) ts) + x0 * (c0 * fpow x0 i + msum i ts));
        [unfold d; ring|]. rewrite H0, H1. ring. }
  assert (Hc : Forall (fun t => snd t = 0) ts).
  { unfold shift_terms in Hts. rewrite Forall_map in Hts.
    rewrite !Forall_forall in *. intros [x c] Hin. specialize (Hts _ Hin). simpl in *.
    apply fmul_integral in Hts as [E|E]; [done|]. apply fadd_eq_0 in E as ->.
    exfalso. apply Hx0. apply list_elem_of_In, in_map_iff. exists (x0, c).
    split; [done|]. exact Hin. }
  constructor; [|done]. specialize (H O ltac:(lia)). unfold msum in H. simpl in H.
  assert (E : foldr (fun t s => snd t * 1 + s) 0 ts = 0).
  { clear -Hc. induction Hc as [|[x c] ts Hc Hcs IH]; simpl in *; [done|].
    rewrite IH, Hc. ring. }
  simpl. rewrite E in H. transitivity (c0 * 1 + 0); [ring|exact H].
Qed.

(** The terms of a word: symbol and location. *)
Fixpoint terms (l : list gf) : list (gf * gf) :=
  match l with [] => [] | c :: l => (fexp (zlen l), c) :: terms l end.

Lemma wsum_terms k l : wsum (fexp (Z.of_nat k)) l = msum k (terms l).
Proof.
  induction l as [|c l IH]; simpl; [done|]. rewrite IH.
  rewrite !fpow_fexp. do 3 f_equal. unfold zlen. lia.
Qed.

Lemma msum_filter i ts : msum i (filter (fun t => snd t <> 0) ts) = msum i ts.
Proof.
  unfold msum. induction ts as [|[x c] ts IH]; [done|].
  destruct (decide (snd (x, c) <> 0)) as [E|E].
  - rewrite filter_cons_True by done. simpl. by rewrite IH.
  - rewrite filter_cons_False by done. simpl in *. rewrite IH.
    destruct (decide (c = 0)) as [->|]; [ring|done].
Qed.

Lemma terms_fst_bound l t : t ∈ terms l -> exists k, (0 <= k < zlen l)%Z /\ fst t = fexp k.
Proof.
  induction l as [|c l IH]; simpl; intros Ht; [by apply list_elem_of_In in Ht|].
  rewrite zlen_cons. apply elem_of_cons in Ht as [->|Ht].
  - exists (zlen l). simpl. pose proof (zlen_nonneg l). split; [lia|done].
  - destruct (IH Ht) as (k & ? & ?). exists k. split; [lia|done].
Qed.

Lemma terms_nodup l : (zlen l <= 255)%Z -> NoDup (map fst (terms l)).
Proof.
  induction l as [|c l IH]; simpl; intros H; [constructor|].
  rewrite zlen_cons in H. constructor; [|apply IH; lia].
  intros Hin. apply list_elem_of_In, in_map_iff in Hin as (t & Ht & Hin).
  apply list_elem_of_In, terms_fst_bound in Hin as (k & Hk & E).
  rewrite E in Ht. pose proof (zlen_nonneg l). apply fexp_inj in Ht; lia.
Qed.

Lemma nodup_map_filter {A B} (f : A -> B) (P : A -> Prop) `{!forall x, Decision (P x)} l :
  NoDup (map f l) -> NoDup (map f (filter P l)).
Proof.
  induction l as [|x l IH]; intros Hnd; [constructor|].
  inversion Hnd as [|? ? Hx Hl]; subst. rewrite filter_cons. case_decide; [|by apply IH].
  constructor; [|by apply IH]. intros Hin. apply Hx.
  apply list_elem_of_In, in_map_iff in Hin as (y & Hy & Hin).
  apply list_elem_of_In, in_map_iff. exists y. split; [done|].
  apply list_elem_of_In, list_elem_of_filter in Hin as [_ Hin]. by apply list_elem_of_In.
Qed.

(** Number of non-zero symbols. *)
Definition weight (l : list gf) : nat := length (filter (fun c => c <> 0) l).

Lemma weight_terms l : weight l = length (filter (fun t => snd t <> 0) (terms l)).
Proof.
  unfold weight. induction l as [|c l IH]; [done|]. simpl.
  rewrite !filter_cons. destruct (decide (c <> 0)), (decide (snd (fexp (zlen l), c) <> 0));
    simpl in *; try done; by rewrite IH.
Qed.

(** A word that vanishes at [n] consecutive powers of alpha from alpha^0
    and has at most [n] non-zero symbols is zero. *)
Theorem sparse_root_word (n : nat) l :
  (zlen l <= 255)%Z -> (weight l <= n)%nat ->
  (forall i, (i < n)%nat -> wsum (fexp (Z.of_nat i)) l = 0) ->
  Forall (fun c => c = 0) l.
Proof.
  intros Hl Hw H.
  assert (F : Forall (fun t => snd t = 0) (filter (fun t => snd t <> 0) (terms l))).
  { apply vandermonde.
    - by apply nodup_map_filter, terms_nodup.
    - intros i Hi. rewrite msum_filter, <- wsum_terms. apply H.
      rewrite weight_terms in Hw. lia. }
  assert (E : filter (fun t => snd t <> 0) (terms l) = []).
  { destruct (filter _ (terms l)) as [|t ts] eqn:E; [done|exfalso].
    assert (Ht : t ∈ filter (fun t => snd t <> 0) (terms l)) by (rewrite E; left).
    apply list_elem_of_filter in Ht as [Ht _]. apply Ht. by inversion F. }
  clear -E. induction l as [|c l IH]; [constructor|]. simpl in E.
  rewrite filter_cons in E. destruct (decide _) as [D|D]; [done|]. simpl in D.
  constructor; [|by apply IH]. destruct (decide (c = 0)); tauto.
Qed.

Close Scope gf_scope.

(** ** Words of bytes *)

Definition word (l : list Z) : list gf := map to_gf l.

(** The decoder's i-th syndrome of a byte word. *)
Definition syndrome (i : Z) (l : list Z) : gf := wsum (fexp i) (word l).

(** All [RS_NROOTS] syndromes vanish. *)
Definition is_codeword (l : list Z) : Prop :=
  forall i, 0 <= i < RS_NROOTS -> syndrome i l = fz.

(** Number of positions where two buffers differ. *)
Definition hamming (l1 l2 : list Z) : Z :=
  zlen (filter (fun p => fst p <> snd p) (zip l1 l2)).

Lemma weight_vadd l1 l2 :
  bytes l1 -> bytes l2 -> Z.of_nat (weight (vadd (word l1) (word l2))) = hamming l1 l2.
Proof.
  unfold weight, hamming, zlen, vadd, word. intros H1 H2. f_equal.
  revert l2 H2. induction H1 as [|x l1 Hx H1 IH]; intros [|y l2] H2; simpl; try done.
  inversion H2; subst. rewrite !filter_cons.
  assert (Hxy : (to_gf x + to_gf y)%gf = fz <-> x = y).
  { rewrite fadd_eq_0. split; [by apply to_gf_inj|by intros ->]. }
  destruct (decide ((to_gf x + to_gf y)%gf <> fz)), (decide (fst (x, y) <> snd (x, y)));
    simpl in *; try tauto; by rewrite IH.
Qed.

(** Two codewords of equal length at distance at most 16 are the same. *)
Theorem codeword_distance l1 l2 :
  bytes l1 -> bytes l2 -> zlen l1 = zlen l2 -> zlen l1 <= 255 ->
  is_codeword l1 -> is_codeword l2 -> hamming l1 l2 <= RS_NROOTS -> l1 = l2.
Proof.
  intros B1 B2 Hl Hle C1 C2 Hd.
  assert (Hl' : length (word l1) = length (word l2)).
  { unfold word. rewrite !length_map. unfold zlen in Hl. lia. }
  assert (F : Forall (fun c => c = fz) (vadd (word l1) (word l2))).
  { apply (sparse_root_word 16).
    - unfold zlen in *. rewrite length_vadd by done.
      unfold word. rewrite length_map. lia.
    - pose proof (weight_vadd l1 l2 B1 B2). unfold RS_NROOTS in Hd. lia.
    - intros i Hi. rewrite wsum_vadd by done.
      pose proof (C1 (Z.of_nat i) ltac:(unfold RS_NROOTS; lia)) as E1.
      pose proof (C2 (Z.of_nat i) ltac:(unfold RS_NROOTS; lia)) as E2.
      unfold syndrome in *. rewrite E1, E2. ring. }
  clear -F B1 B2 Hl. unfold zlen in Hl.
  revert l2 B2 Hl F. induction B1 as [|x l1 Hx B1 IH]; intros [|y l2] B2 Hl F; simpl in *; try lia; [done|].
  inversion B2; inversion F; subst. f_equal.
  - apply to_gf_inj; [done|done|]. apply fadd_eq_0. assumption.
  - apply IH; [done|lia|done].
Qed.
