(* ===== verification/RsCode.v ===== *)
(** * Reed-Solomon encoder and decoder of fsck.beamfs

    tools/fsck.beamfs/rs_decode.c: [rs_encode_subblock] (the LFSR encoder
    shared with mkfs.beamfs), [rs_decode_internal] (syndromes,
    Berlekamp-Massey, Chien search, Forney, verification of the inferred
    error, correction) and the wrapper [rs_decode_subblock].  Polynomials
    are kept in the form the code keeps them: symbols or their logarithms,
    [nn] = 255 being the logarithm of zero. *)

From Stdlib Require Import Ring.
From S2P Require Import Prelude RsInit GF RsTheory.

(** ** Encoder *)

(** One data byte through the shift register. *)
Definition enc_step (rs : rs_codec) (par : list Z) (d : Z) : list Z :=
  let feedback := getb (index_of rs) (Z.lxor d (getb par 0)) in
  if feedback =? nn rs then
    let par := foldl (fun par j => setb par j (getb par (j + 1))) par (upto (RS_NROOTS - 1)) in
    setb par (RS_NROOTS - 1) 0
  else
    let par := foldl (fun par j =>
      setb par j (Z.lxor (getb par (j + 1))
        (getb (alpha_to rs) (rs_modnn rs (feedback + getb (genpoly rs) (RS_NROOTS - 1 - j))))))
      par (upto (RS_NROOTS - 1)) in
    setb par (RS_NROOTS - 1)
      (getb (alpha_to rs) (rs_modnn rs (feedback + getb (genpoly rs) 0))).

Definition rs_encode_subblock (rs : rs_codec) (data : list Z) : list Z :=
  map (fun p => Z.land p 255) (foldl (enc_step rs) (zeros RS_NROOTS) data).

(** ** Decoder *)

(** What a decode leaves: the data, the parity, the count it returns and
    the positions it writes. *)
Inductive decode_result :=
  | Uncorrectable
  | Decoded (n : Z) (data par positions : list Z).

(** One received symbol into every syndrome. *)
Definition syn_step (rs : rs_codec) (syn : list Z) (x : Z) : list Z :=
  map (fun i =>
    if getb syn i =? 0 then x
    else Z.lxor x (getb (alpha_to rs)
           (rs_modnn rs (getb (index_of rs) (getb syn i) + (fcr rs + i) * prim rs))))
    (upto (nroots rs)).

Definition syndromes (rs : rs_codec) (data par : list Z) : list Z :=
  let syn := map (fun _ => getb data 0) (upto (nroots rs)) in
  let syn := foldl (syn_step rs) syn (drop 1 data) in
  foldl (syn_step rs) syn par.

(** The discrepancy of round [r]: lambda in symbol form, [s] in index form. *)
Definition bm_discr (rs : rs_codec) (lambda s : list Z) (r : Z) : Z :=
  foldl (fun acc i =>
    if negb (getb lambda i =? 0) && negb (getb s (r - i - 1) =? nn rs) then
      Z.lxor acc (getb (alpha_to rs)
        (rs_modnn rs (getb (index_of rs) (getb lambda i) + getb s (r - i - 1))))
    else acc) 0 (upto r).

Record bm_state := { bm_lambda : list Z; bm_b : list Z; bm_el : Z }.

(** [memmove(&b[1], b, nroots); b[0] = nn]. *)
Definition bm_shift (rs : rs_codec) (b : list Z) : list Z :=
  nn rs :: slice b 0 (nroots rs).

(** One round of Berlekamp-Massey. *)
Definition bm_round (rs : rs_codec) (s : list Z) (st : bm_state) (r : Z) : bm_state :=
  let '{| bm_lambda := lambda; bm_b := b; bm_el := el |} := st in
  let discr_r := getb (index_of rs) (bm_discr rs lambda s r) in
  if discr_r =? nn rs then
    {| bm_lambda := lambda; bm_b := bm_shift rs b; bm_el := el |}
  else
    let t := getb lambda 0 :: map (fun i =>
               if getb b i =? nn rs then getb lambda (i + 1)
               else Z.lxor (getb lambda (i + 1))
                      (getb (alpha_to rs) (rs_modnn rs (discr_r + getb b i))))
               (upto (nroots rs)) in
    if 2 * el <=? r - 1 then
      {| bm_lambda := t;
         bm_b := map (fun i => if getb lambda i =? 0 then nn rs
                   else rs_modnn rs (getb (index_of rs) (getb lambda i) - discr_r + nn rs))
                   (upto (nroots rs + 1));
         bm_el := r - el |}
    else
      {| bm_lambda := t; bm_b := bm_shift rs b; bm_el := el |}.

Definition berlekamp_massey (rs : rs_codec) (s : list Z) : bm_state :=
  let lambda := 1 :: zeros (nroots rs) in
  foldl (bm_round rs s)
    {| bm_lambda := lambda; bm_b := map (fun c => getb (index_of rs) c) lambda; bm_el := 0 |}
    (seqZ 1 (nroots rs)).

(** Degree of a polynomial in index form: the last index that is not [nn]. *)
Definition deg_index (rs : rs_codec) (l : list Z) : Z :=
  foldl (fun d i => if getb l i =? nn rs then d else i) 0 (upto (nroots rs + 1)).

(** One value of the Chien search: [(q, reg)] after the inner loop. *)
Definition chien_eval (rs : rs_codec) (deg : Z) (reg : list Z) : Z * list Z :=
  foldl (fun '(q, reg) j =>
    if getb reg j =? nn rs then (q, reg)
    else let reg := setb reg j (rs_modnn rs (getb reg j + j)) in
         (Z.lxor q (getb (alpha_to rs) (getb reg j)), reg))
    (1, reg) (reverse (seqZ 1 deg)).

(** The search from [i], with [fuel] = the values of [i] left; [None] is
    the early return on an impossible location. *)
Fixpoint chien (rs : rs_codec) (fuel : nat) (i k deg pad : Z) (reg root loc : list Z)
    : option (list Z * list Z) :=
  match fuel with
  | O => Some (root, loc)
  | S fuel =>
    let '(q, reg) := chien_eval rs deg reg in
    let k' := rs_modnn rs (k + iprim rs) in
    if negb (q =? 0) then chien rs fuel (i + 1) k' deg pad reg root loc
    else if k <? pad then None
    else
      let root := root ++ [i] in
      let loc := loc ++ [k] in
      if zlen loc =? deg then Some (root, loc)
      else chien rs fuel (i + 1) k' deg pad reg root loc
  end.

(** omega(x) = s(x) lambda(x) mod x^nroots, in index form. *)
Definition omega_poly (rs : rs_codec) (s lambda : list Z) (deg_omega : Z) : list Z :=
  map (fun i => getb (index_of rs)
    (foldl (fun tmp j =>
       if negb (getb s (i - j) =? nn rs) && negb (getb lambda j =? nn rs) then
         Z.lxor tmp (getb (alpha_to rs) (rs_modnn rs (getb s (i - j) + getb lambda j)))
       else tmp) 0 (reverse (upto (i + 1)))))
    (upto (deg_omega + 1)).

(** Forney: omega evaluated at one root. *)
Definition error_num1 (rs : rs_codec) (omega : list Z) (deg_omega root : Z) : Z :=
  foldl (fun acc i =>
    if getb omega i =? nn rs then acc
    else Z.lxor acc (getb (alpha_to rs) (rs_modnn rs (getb omega i + i * root))))
    0 (reverse (upto (deg_omega + 1))).

(** Forney: the error value at one root. *)
Definition error_value (rs : rs_codec) (lambda omega : list Z) (deg_lambda deg_omega root : Z) : Z :=
  let num1 := error_num1 rs omega deg_omega root in
  if num1 =? 0 then 0
  else
    let num2 := getb (alpha_to rs) (rs_modnn rs (root * (fcr rs - 1) + nn rs)) in
    let top := 2 * (Z.min deg_lambda (nroots rs - 1) / 2) in
    let den := foldl (fun acc h =>
        let i := 2 * h in
        if getb lambda (i + 1) =? nn rs then acc
        else Z.lxor acc (getb (alpha_to rs) (rs_modnn rs (getb lambda (i + 1) + i * root))))
        0 (reverse (upto (top / 2 + 1))) in
    getb (alpha_to rs)
      (rs_modnn rs (getb (index_of rs) num1 + getb (index_of rs) num2 + nn rs
                    - getb (index_of rs) den)).

(** The syndrome of the inferred error, to compare with the received one. *)
Definition error_syndrome (rs : rs_codec) (b loc : list Z) (i : Z) : Z :=
  foldl (fun tmp '(bj, lj) =>
    if bj =? 0 then tmp
    else Z.lxor tmp (getb (alpha_to rs)
           (rs_modnn rs (getb (index_of rs) bj + (fcr rs + i) * prim rs * (nn rs - lj - 1)))))
    0 (zip b loc).

Definition verify_error (rs : rs_codec) (s b loc : list Z) : bool :=
  forallb (fun i => error_syndrome rs b loc i =? getb (alpha_to rs) (getb s i))
    (upto (nroots rs)).

(** Apply one correction to the data or to the parity. *)
Definition apply_one (rs : rs_codec) (pad len : Z) (dp : list Z * list Z) (bl : Z * Z)
    : list Z * list Z :=
  let '(data, par) := dp in
  let '(b, loc) := bl in
  if loc <? nn rs - nroots rs
  then (setb data (loc - pad) (Z.lxor (getb data (loc - pad)) b), par)
  else (data, setb par (loc - pad - len) (Z.lxor (getb par (loc - pad - len)) b)).

(** The data positions reported to the caller. *)
Definition report_positions (rs : rs_codec) (pad : Z) (b loc : list Z) : list Z :=
  map (fun '(_, l) => l - pad)
    (filter (fun '(bj, lj) => lj < nn rs - nroots rs /\ bj <> 0) (zip b loc)).

Definition rs_decode_internal (rs : rs_codec) (data par : list Z) (len : Z) : decode_result :=
  let pad := nn rs - nroots rs - len in
  if (pad <? 0) || (nn rs - nroots rs <=? pad) then Uncorrectable
  else
    let syn := syndromes rs data par in
    let s := map (fun x => getb (index_of rs) x) syn in
    if forallb (fun x => x =? 0) syn then Decoded 0 data par []
    else
      let lambda := map (fun c => getb (index_of rs) c) (bm_lambda (berlekamp_massey rs s)) in
      let deg_lambda := deg_index rs lambda in
      if deg_lambda =? 0 then Uncorrectable
      else
        match chien rs (Z.to_nat (nn rs)) 1 (iprim rs - 1) deg_lambda pad lambda [] [] with
        | None => Uncorrectable
        | Some (root, loc) =>
          if negb (deg_lambda =? zlen loc) then Uncorrectable
          else
            let deg_omega := deg_lambda - 1 in
            let omega := omega_poly rs s lambda deg_omega in
            let b := map (error_value rs lambda omega deg_lambda deg_omega) root in
            if verify_error rs s b loc then
              let '(data, par) := foldl (apply_one rs pad len) (data, par) (zip b loc) in
              Decoded (zlen (filter (fun r => error_num1 rs omega deg_omega r <> 0) root)) data par
                (report_positions rs pad b loc)
            else Uncorrectable
        end.

(** The wrapper: refuses an empty or over-long segment, converts between
    bytes and 16-bit symbols, and writes back only a decode that succeeded. *)
Definition rs_decode_subblock (rs : rs_codec) (data : list Z) (len : Z) (parity : list Z)
    : decode_result :=
  if (len =? 0) || (RS_MAX_DATA_LEN <? len) then Uncorrectable
  else
    match rs_decode_internal rs (map u16 data) (map u16 parity) len with
    | Decoded n d p pos =>
        Decoded n (map (fun x => Z.land x 255) d) (map (fun x => Z.land x 255) p) pos
    | Uncorrectable => Uncorrectable
    end.
