(* ===== verification/RsCorrect.v ===== *)
(** * Correctness of the Reed-Solomon codec

    The encoder produces codewords; a clean codeword decodes to itself; a
    decode that succeeds returns a codeword at the distance it reports,
    and by the distance of the code it is the word that was written
    whenever the damage and the correction together stay within 16
    symbols. *)

From Stdlib Require Import Ring.
From S2P Require Import Prelude RsInit GF RsTheory RsCode.

Create Rewrite HintDb rs.

Lemma nn_codec : nn codec = 255. Proof. done. Qed.
Lemma nroots_codec : nroots codec = 16. Proof. done. Qed.
Lemma fcr_codec : fcr codec = 0. Proof. done. Qed.
Lemma prim_codec : prim codec = 1. Proof. done. Qed.
Lemma iprim_codec : iprim codec = 1. Proof. done. Qed.

Lemma modnn_codec x : rs_modnn codec x = x mod 255.
Proof.
  unfold rs_modnn, u16. rewrite nn_codec. apply Z.mod_small.
  pose proof (Z.mod_pos_bound x 255); lia.
Qed.

Lemma alpha_modnn x : getb (alpha_to codec) (rs_modnn codec x) = gexp x.
Proof. by rewrite modnn_codec. Qed.

Lemma index_glog x : getb (index_of codec) x = glog x.
Proof. done. Qed.

#[export] Hint Rewrite nn_codec nroots_codec fcr_codec prim_codec iprim_codec alpha_modnn
  index_glog : rs.

(** ** Encoder *)

(** The generator in symbol form, from the index form the codec keeps. *)
Definition gen_sym : list gf := map (fun e => fexp e) (genpoly codec).

(** The generator vanishes at alpha^0 .. alpha^15 and is monic. *)
Definition gen_root_check (i : Z) : bool :=
  gv (wsum (fexp i) (reverse gen_sym)) =? 0.

Lemma gen_root i : 0 <= i < 16 -> wsum (fexp i) (reverse gen_sym) = fz.
Proof.
  intros Hi. apply gf_eq. apply Z.eqb_eq. change (gen_root_check i = true).
  revert i Hi. apply forallb_upto. vm_compute. reflexivity.
Qed.

(** The register loop, [par[j] = F(j, par[j + 1])] for j = 0 .. n-1. *)
Lemma shift_loop (F : Z -> Z -> Z) (par : list Z) (n : Z) :
  0 <= n < zlen par ->
  let r := foldl (fun par j => setb par j (F j (getb par (j + 1)))) par (upto n) in
  zlen r = zlen par /\
  forall i, 0 <= i < zlen par -> getb r i = if i <? n then F i (getb par (i + 1)) else getb par i.
Proof.
  intros Hn r. subst r.
  apply (foldl_upto_ind _ (fun n r => zlen r = zlen par /\ forall i, 0 <= i < zlen par ->
    getb r i = if i <? n then F i (getb par (i + 1)) else getb par i)); [lia| |].
  - split; [done|]. intros. destruct (i <? 0) eqn:E; [lia|done].
  - intros j r Hj [Hl IH]. rewrite zlen_setb. split; [done|]. intros i Hi.
    destruct (decide (i = j)) as [->|].
    + rewrite getb_setb_eq by lia. rewrite IH by lia.
      destruct (j + 1 <? j) eqn:?, (j <? j + 1) eqn:?; lia || done.
    + rewrite getb_setb_ne by lia. rewrite IH by lia.
      destruct (i <? j) eqn:?, (i <? j + 1) eqn:?; lia || done.
Qed.

Lemma word_upto l : word l = map (fun i => to_gf (getb l i)) (upto (zlen l)).
Proof. unfold word. rewrite (list_map_upto l) at 1. by rewrite map_map. Qed.

Lemma gen_sym_upto : gen_sym = map (fun i => fexp (getb (genpoly codec) i)) (upto 17).
Proof. unfold gen_sym. rewrite (list_map_upto (genpoly codec)) at 1. by rewrite map_map. Qed.

(** One step of the register, as symbols. *)
Lemma enc_step_spec par d :
  zlen par = 16 -> bytes par -> is_byte d ->
  let r := enc_step codec par d in
  zlen r = 16 /\ bytes r /\
  word r = vadd (drop 1 (word par) ++ [fz])
             (map (fmul (to_gf d + to_gf (getb par 0))%gf) (drop 1 (reverse gen_sym))).
Proof.
  intros Hl Hb Hd r.
  assert (Hf : is_byte (Z.lxor d (getb par 0))) by auto with bytes.
  set (x := Z.lxor d (getb par 0)) in *.
  assert (E : zlen r = 16 /\ forall i, 0 <= i < 16 -> getb r i =
     Z.lxor (if i <? 15 then getb par (i + 1) else 0)
            (gmul x (gexp (getb (genpoly codec) (15 - i))))).
  { subst r. unfold enc_step. fold x. autorewrite with rs.
    change (RS_NROOTS - 1) with 15.
    destruct (glog x =? 255) eqn:E.
    - apply Z.eqb_eq in E. apply glog_nn_iff in E; [|done].
      pose proof (shift_loop (fun _ y => y) par 15 ltac:(lia)) as [L G].
      rewrite zlen_setb. split; [lia|]. intros i Hi. rewrite E, gmul_0_l, Z.lxor_0_r.
      destruct (decide (i = 15)) as [->|].
      + by rewrite getb_setb_eq by lia.
      + rewrite getb_setb_ne by lia. rewrite G by lia. destruct (i <? 15) eqn:?; [done|lia].
    - apply Z.eqb_neq in E. rewrite glog_nn_iff in E by done.
      pose proof (shift_loop (fun j y => Z.lxor y (getb (alpha_to codec)
         (rs_modnn codec (glog x + getb (genpoly codec) (15 - j))))) par 15 ltac:(lia)) as [L G].
      rewrite zlen_setb. split; [lia|]. intros i Hi.
      assert (M : forall j, gmul x (gexp j) = gexp (glog x + j)).
      { intros j. rewrite <- (gexp_glog x) at 1 by (unfold is_byte in *; lia). apply gmul_gexp. }
      destruct (decide (i = 15)) as [->|].
      + rewrite getb_setb_eq by lia. simpl. by rewrite M.
      + rewrite getb_setb_ne, G by lia. destruct (i <? 15) eqn:?; [|lia].
        by rewrite alpha_modnn, M. }
  destruct E as [L G]. split; [done|].
  assert (B : forall i, 0 <= i < 16 -> is_byte (getb r i)).
  { intros i Hi. rewrite G by done. apply is_byte_lxor; [|apply gmul_range].
    destruct (i <? 15); [by apply bytes_getb|unfold is_byte; lia]. }
  split.
  { unfold bytes. apply Forall_lookup. intros i y Hy.
    pose proof (lookup_lt_Some _ _ _ Hy). specialize (B (Z.of_nat i)).
    unfold getb in B. rewrite Nat2Z.id in B. rewrite (nth_lookup_Some _ _ _ _ Hy) in B.
    apply B. unfold zlen in L. lia. }
  assert (S1 : forall i g, 0 <= i < 16 -> is_byte (getb par i) ->
     to_gf (Z.lxor (getb par i) (gmul x (gexp g)))
     = (to_gf (getb par i) + (to_gf d + to_gf (getb par 0)) * fexp g)%gf).
  { intros i g Hi Hp. rewrite to_gf_lxor by (auto; apply gmul_range).
    rewrite to_gf_gmul by (auto; apply gexp_byte). unfold x.
    rewrite to_gf_lxor, to_gf_gexp by auto with bytes. done. }
  assert (S2 : forall g, to_gf (Z.lxor 0 (gmul x (gexp g)))
     = (fz + (to_gf d + to_gf (getb par 0)) * fexp g)%gf).
  { intros g. rewrite to_gf_lxor by (apply gmul_range || (unfold is_byte; lia)).
    rewrite to_gf_gmul by (auto; apply gexp_byte). unfold x.
    rewrite to_gf_lxor, to_gf_gexp by auto with bytes. f_equal. by apply gf_eq. }
  rewrite (word_upto r), (word_upto par), gen_sym_upto, L, Hl.
  clear Hl L Hd Hf. revert G. generalize (genpoly codec) as gp. intros gp G.
  change (upto 16) with [0;1;2;3;4;5;6;7;8;9;10;11;12;13;14;15].
  change (upto 17) with [0;1;2;3;4;5;6;7;8;9;10;11;12;13;14;15;16].
  cbn -[getb to_gf fadd fmul fexp].
  repeat (apply (f_equal2 cons); [rewrite G by lia;
    first [apply S1; [lia|by apply bytes_getb] | apply S2]|]).
  done.
Qed.

Lemma wsum_scale a c l : wsum a (map (fmul c) l) = (c * wsum a l)%gf.
Proof.
  induction l as [|x l IH]; simpl; [ring|]. rewrite IH, length_map. ring.
Qed.

(** The tail of the generator evaluates to a^16 at each of its roots. *)
Lemma gen_tail i : 0 <= i < 16 ->
  wsum (fexp i) (drop 1 (reverse gen_sym)) = fpow (fexp i) 16.
Proof.
  intros Hi. pose proof (gen_root i Hi) as H.
  assert (reverse gen_sym = fexp 0 :: drop 1 (reverse gen_sym)) as E by done.
  rewrite E in H. cbn [wsum] in H. apply (proj1 (fadd_eq_0 _ _)) in H. rewrite <- H.
  rewrite fexp_0. change (length (drop 1 (reverse gen_sym))) with 16%nat. ring.
Qed.

Lemma enc_step_eval par d i :
  zlen par = 16 -> bytes par -> is_byte d -> 0 <= i < 16 ->
  wsum (fexp i) (word (enc_step codec par d)) =
  (fexp i * wsum (fexp i) (word par) + to_gf d * fpow (fexp i) 16)%gf.
Proof.
  intros Hl Hb Hd Hi. pose proof (enc_step_spec par d Hl Hb Hd) as (_ & _ & ->).
  destruct par as [|p0 rest]; [done|].
  assert (length rest = 15%nat) as Hr by (unfold zlen in Hl; simpl in Hl; lia).
  assert (length (map to_gf rest ++ [fz]) = 16%nat) as Hw
    by (rewrite length_app, length_map, Hr; done).
  change (drop 1 (word (p0 :: rest))) with (map to_gf rest).
  rewrite wsum_vadd by (rewrite Hw, length_map; done).
  rewrite wsum_scale, gen_tail by done.
  change (getb (p0 :: rest) 0) with p0. rewrite wsum_app.
  change (word (p0 :: rest)) with (to_gf p0 :: map to_gf rest). cbn [length wsum].
  rewrite length_map, Hr.
  set (a := fexp i). set (W := wsum a (map to_gf rest)).
  change (fpow a 16) with (a * fpow a 15)%gf. set (q := fpow a 15).
  transitivity (a * W + to_gf d * (a * q) + to_gf p0 * (a * q))%gf;
    [change (fpow a 1) with (a * fo)%gf; change (fpow a 0) with fo; ring|].
  ring.
Qed.

(** The register holds minus the shifted prefix at every root. *)
Lemma enc_invariant data i :
  bytes data -> 0 <= i < 16 ->
  let par := foldl (enc_step codec) (zeros RS_NROOTS) data in
  zlen par = 16 /\ bytes par /\
  (wsum (fexp i) (word data) * fpow (fexp i) 16 + wsum (fexp i) (word par))%gf = fz.
Proof.
  intros Hd Hi. induction data as [|d data IH] using rev_ind.
  - split; [done|]. split; [apply bytes_zeros|].
    change (word (foldl (enc_step codec) (zeros RS_NROOTS) [])) with (replicate 16 (to_gf 0)).
    assert (to_gf 0 = fz) as -> by (by apply gf_eq). rewrite wsum_zeros. cbn [word map wsum]. ring.
  - apply bytes_app in Hd as [Hd Hx]. inversion Hx; subst.
    destruct (IH Hd) as (L & B & E). rewrite foldl_app. cbn [foldl].
    set (par := foldl _ _ data) in *.
    pose proof (enc_step_spec par d L B ltac:(done)) as (L' & B' & _).
    split; [done|]. split; [done|]. rewrite enc_step_eval by done.
    unfold word at 1. rewrite map_app, wsum_app. cbn [map wsum length].
    fold (word data). set (a := fexp i) in *. set (q := fpow a 16) in *.
    change (fpow a 1) with (a * fo)%gf. change (fpow a 0) with fo.
    transitivity (a * (wsum a (word data) * q + wsum a (word par))
                  + (to_gf d * q + to_gf d * q))%gf; [ring|].
    rewrite E, fadd_self. ring.
Qed.

Lemma land_255_bytes l : bytes l -> map (fun x => Z.land x 255) l = l.
Proof.
  intros H. rewrite <- (map_id l) at 2. apply map_ext_Forall.
  eapply Forall_impl; [|exact H]. intros x Hx. change 255 with (Z.ones 8).
  rewrite Z.land_ones by lia. apply Z.mod_small. apply Hx.
Qed.

Lemma u16_bytes l : bytes l -> map u16 l = l.
Proof.
  intros H. rewrite <- (map_id l) at 2. apply map_ext_Forall.
  eapply Forall_impl; [|exact H]. intros x [? ?]. apply Z.mod_small. lia.
Qed.

Lemma rs_encode_length data : bytes data -> zlen (rs_encode_subblock codec data) = 16.
Proof.
  intros H. unfold rs_encode_subblock. rewrite zlen_map.
  apply (enc_invariant data 0 H ltac:(lia)).
Qed.

Lemma rs_encode_bytes data : bytes data -> bytes (rs_encode_subblock codec data).
Proof.
  intros H. pose proof (enc_invariant data 0 H ltac:(lia)) as (_ & B & _).
  unfold rs_encode_subblock. by rewrite land_255_bytes.
Qed.

Lemma rs_encode_is_codeword data :
  bytes data -> is_codeword (data ++ rs_encode_subblock codec data).
Proof.
  intros H i Hi. pose proof (enc_invariant data i H Hi) as (L & B & E).
  unfold syndrome, rs_encode_subblock. rewrite land_255_bytes by done.
  unfold word. rewrite map_app, wsum_app. rewrite length_map.
  assert (length (foldl (enc_step codec) (zeros RS_NROOTS) data) = 16%nat) as ->
    by (unfold zlen in L; lia).
  exact E.
Qed.

(** ** Syndromes *)

Lemma to_gf_0 : to_gf 0 = fz. Proof. by apply gf_eq. Qed.

(** One syndrome update is one step of Horner's rule. *)
Lemma syn_update s x i :
  is_byte s -> is_byte x ->
  (if s =? 0 then x else Z.lxor x (gexp (glog s + i)))
  = gv (to_gf x + to_gf s * fexp i)%gf.
Proof.
  intros Hs Hx. destruct (s =? 0) eqn:E.
  - apply Z.eqb_eq in E as ->. rewrite to_gf_0.
    transitivity (gv (to_gf x)); [symmetry; by apply gv_to_gf|]. f_equal. ring.
  - apply Z.eqb_neq in E. rewrite <- (gv_to_gf (Z.lxor x _)).
    + f_equal. rewrite to_gf_lxor by (done || apply gexp_byte). f_equal.
      rewrite to_gf_gexp. rewrite <- fexp_add. f_equal.
      apply gf_eq. rewrite gv_to_gf by done. cbn [gv fexp].
      apply gexp_glog. unfold is_byte in *. lia.
    + apply is_byte_lxor; [done|apply gexp_byte].
Qed.

(** The 16 accumulators hold the Horner values of the symbols read. *)
Definition syn_holds (syn : list Z) (l : list Z) : Prop :=
  syn = map (fun i => gv (horner (fexp i) (word l))) (upto 16).

Lemma horner_snoc a l x : horner a (l ++ [x]) = (x + horner a l * a)%gf.
Proof. unfold horner. by rewrite foldl_app. Qed.

Lemma syn_step_holds syn l x :
  syn_holds syn l -> is_byte x -> syn_holds (syn_step codec syn x) (l ++ [x]).
Proof.
  unfold syn_holds, syn_step. intros -> Hx. apply map_ext_Forall, Forall_forall.
  intros i Hi%list_elem_of_In%elem_of_upto. change (nroots codec) with 16 in Hi. autorewrite with rs.
  rewrite (getb_map _ (upto 16)) by (rewrite zlen_upto; lia). rewrite getb_upto by done.
  set (h := horner _ _). rewrite Z.add_0_l, Z.mul_1_r, syn_update by (done || apply gv_byte).
  unfold word. rewrite map_app. cbn [map]. rewrite horner_snoc, to_gf_gv. done.
Qed.

Lemma syn_fold_holds syn l1 l2 :
  syn_holds syn l1 -> bytes l2 -> syn_holds (foldl (syn_step codec) syn l2) (l1 ++ l2).
Proof.
  intros H B. revert syn l1 H. induction B as [|x l2 Hx B IH]; intros syn l1 H; simpl.
  - by rewrite app_nil_r.
  - replace (l1 ++ x :: l2) with ((l1 ++ [x]) ++ l2) by (by rewrite <- app_assoc).
    apply IH. by apply syn_step_holds.
Qed.

(** The computed syndromes are those of the word. *)
Lemma syndromes_spec data par :
  bytes data -> bytes par -> 0 < zlen data ->
  syndromes codec data par = map (fun i => gv (syndrome i (data ++ par))) (upto 16).
Proof.
  intros Hd Hp Hl. destruct data as [|x data]; [done|].
  apply bytes_cons in Hd as [Hx Hd].
  assert (H0 : syn_holds (map (fun _ => getb (x :: data) 0) (upto (nroots codec))) [x]).
  { unfold syn_holds. apply map_ext. intros i. change (getb (x :: data) 0) with x.
    unfold horner. cbn [word map foldl].
    transitivity (gv (to_gf x)); [symmetry; by apply gv_to_gf|f_equal; ring]. }
  pose proof (syn_fold_holds _ _ _ (syn_fold_holds _ _ _ H0 Hd) Hp) as H.
  unfold syndromes. change (drop 1 (x :: data)) with data. cbv zeta.
  unfold syn_holds in H. rewrite H.
  apply map_ext. intros i. rewrite horner_wsum. done.
Qed.

(** The all-zero test of the decoder decides the code. *)
Lemma syndromes_clean data par :
  bytes data -> bytes par -> 0 < zlen data ->
  forallb (fun x => x =? 0) (syndromes codec data par) = true <-> is_codeword (data ++ par).
Proof.
  intros Hd Hp Hl. rewrite syndromes_spec by done. rewrite forallb_forall. split.
  - intros H i Hi. apply gf_eq. apply Z.eqb_eq, H.
    apply in_map_iff. exists i. split; [done|]. by apply list_elem_of_In, elem_of_upto.
  - intros H x (i & <- & Hi)%in_map_iff. apply list_elem_of_In, elem_of_upto in Hi.
    by rewrite (H i Hi).
Qed.
