(* ===== verification/RsDecode.v ===== *)
(** * Soundness of the decoder

    A decode that succeeds returns a codeword at the distance it reports.
    The proof rests on the decoder's own verification step: whatever
    locator Berlekamp-Massey and the Chien search produce, the error that
    is applied reproduces the received syndromes. *)

From Stdlib Require Import Ring Sorted.
From stdpp Require Import sorting.
From S2P Require Import Prelude RsInit GF RsTheory RsCode RsCorrect.

(** ** Corrections of a word *)

(** XOR [b] into position [p]. *)
Definition fix1 (w : list Z) (bp : Z * Z) : list Z :=
  setb w (snd bp) (Z.lxor (getb w (snd bp)) (fst bp)).

Definition fix_all (w : list Z) (bps : list (Z * Z)) : list Z := foldl fix1 w bps.

Definition fix_ok (n : Z) (bp : Z * Z) : Prop := is_byte (fst bp) /\ 0 <= snd bp < n.

Lemma zlen_fix_all bps w : zlen (fix_all w bps) = zlen w.
Proof.
  revert w. induction bps as [|bp bps IH]; intros w; simpl; [done|].
  rewrite IH. apply zlen_setb.
Qed.

Lemma bytes_fix_all n bps w : bytes w -> Forall (fix_ok n) bps -> bytes (fix_all w bps).
Proof.
  intros Hw H. revert w Hw. induction H as [|bp bps [Hb _] H IH]; intros w Hw; simpl; [done|].
  apply IH. unfold fix1. auto with bytes.
Qed.

Lemma setb_split w p x :
  0 <= p < zlen w ->
  exists l1 l2, w = l1 ++ getb w p :: l2 /\ setb w p x = l1 ++ x :: l2 /\ zlen l2 = zlen w - 1 - p.
Proof.
  intros Hp. exists (take (Z.to_nat p) w), (drop (S (Z.to_nat p)) w).
  assert (E : w !! Z.to_nat p = Some (getb w p)).
  { unfold getb. rewrite nth_lookup.
    destruct (lookup_lt_is_Some_2 w (Z.to_nat p)) as [y ->]; [unfold zlen in Hp; lia|done]. }
  split_and!.
  - symmetry. by apply take_drop_middle.
  - unfold setb. rewrite insert_take_drop; [done|]. by apply lookup_lt_Some in E.
  - unfold zlen in *. rewrite length_drop. lia.
Qed.

(** A correction adds one weighted term to each syndrome. *)
Lemma syndrome_fix1 w bp i :
  bytes w -> fix_ok (zlen w) bp ->
  syndrome i (fix1 w bp) =
  (syndrome i w + to_gf (fst bp) * fexp (i * (zlen w - 1 - snd bp)))%gf.
Proof.
  destruct bp as [b p]. intros Hw [Hb Hp]. unfold fix1, syndrome. cbn [fst snd] in *.
  destruct (setb_split w p (Z.lxor (getb w p) b) Hp) as (l1 & l2 & E1 & E2 & El).
  assert (Hx : is_byte (getb w p)) by auto with bytes.
  rewrite E2, <- El. clear E2 El Hp. set (x := getb w p) in *. clearbody x. subst w.
  unfold word. rewrite !map_app. cbn [map].
  rewrite !wsum_app. cbn [wsum length]. rewrite to_gf_lxor by auto with bytes.
  rewrite !length_map, !fpow_fexp. unfold zlen. ring.
Qed.

Definition fix_sum (n i : Z) (bps : list (Z * Z)) : gf :=
  foldr (fun bp s => to_gf (fst bp) * fexp (i * (n - 1 - snd bp)) + s)%gf fz bps.

Lemma syndrome_fix_all n i bps w :
  zlen w = n -> bytes w -> Forall (fix_ok n) bps ->
  syndrome i (fix_all w bps) = (syndrome i w + fix_sum n i bps)%gf.
Proof.
  intros Hn Hw H. revert w Hn Hw. induction H as [|bp bps Hb H IH]; intros w Hn Hw; simpl.
  - ring.
  - rewrite IH.
    + rewrite syndrome_fix1 by (subst; done). rewrite Hn. ring.
    + unfold fix1. by rewrite zlen_setb.
    + unfold fix1. destruct Hb. auto with bytes.
Qed.

(** ** What the corrections change *)

Lemma getb_fix_all_out bps w n j :
  Forall (fix_ok n) bps -> 0 <= j -> j ∉ map snd bps -> getb (fix_all w bps) j = getb w j.
Proof.
  intros H Hj. revert w. induction H as [|bp bps [_ Hp] H IH]; intros w Hn; simpl; [done|].
  apply not_elem_of_cons in Hn as [? ?]. rewrite IH by done.
  unfold fix1. apply getb_setb_ne; (lia || done).
Qed.

Lemma getb_fix_all_in bps w b p :
  Forall (fix_ok (zlen w)) bps -> NoDup (map snd bps) -> (b, p) ∈ bps ->
  getb (fix_all w bps) p = Z.lxor (getb w p) b.
Proof.
  intros H. remember (zlen w) as n eqn:Hn. revert w Hn.
  induction H as [|bp bps [_ Hp] H IH]; intros w Hn Hnd Hin;
    [by apply elem_of_nil in Hin|].
  cbn [map] in Hnd. apply list.NoDup_cons in Hnd as [Hx Hnd].
  apply elem_of_cons in Hin as [<-|Hin]; cbn [fix_all foldl].
  - fold (fix_all (fix1 w (b, p)) bps).
    rewrite (getb_fix_all_out _ _ n) by (simpl in *; (done || lia)).
    unfold fix1. apply getb_setb_eq. simpl in *. lia.
  - fold (fix_all (fix1 w bp) bps). rewrite IH; try done.
    + unfold fix1. rewrite getb_setb_ne; [done|lia| |].
      * rewrite Forall_forall in H. destruct (H _ (proj1 (list_elem_of_In _ _) Hin)). simpl in *. lia.
      * intros E. apply Hx. rewrite E. apply list_elem_of_In, in_map_iff.
        exists (b, p). split; [done|by apply list_elem_of_In].
    + unfold fix1. by rewrite zlen_setb.
Qed.

Lemma lxor_eq_self x b : Z.lxor x b = x -> b = 0.
Proof.
  intros E. apply (f_equal (Z.lxor x)) in E.
  rewrite <- Z.lxor_assoc, Z.lxor_nilpotent, Z.lxor_0_l in E. done.
Qed.

Lemma zip_getb l1 l2 :
  zlen l1 = zlen l2 -> zip l1 l2 = map (fun i => (getb l1 i, getb l2 i)) (upto (zlen l1)).
Proof.
  intros H. transitivity (zip (map (getb l1) (upto (zlen l1))) (map (getb l2) (upto (zlen l1)))).
  - rewrite <- list_map_upto. rewrite H at 1. by rewrite <- list_map_upto.
  - generalize (upto (zlen l1)). intros l. induction l as [|i l IH]; simpl; [done|]. by rewrite IH.
Qed.

(** Hamming distance as a count of positions. *)
Lemma hamming_upto l1 l2 :
  zlen l1 = zlen l2 ->
  hamming l1 l2 = zlen (filter (fun i => getb l1 i <> getb l2 i) (upto (zlen l1))).
Proof.
  intros H. unfold hamming. rewrite zip_getb by done. generalize (upto (zlen l1)). intros l.
  induction l as [|i l IH]; [done|]. cbn [map]. rewrite !filter_cons. cbn [fst snd].
  repeat case_decide; try done. rewrite !zlen_cons. lia.
Qed.

(** Exactly the positions that get a non-zero value change. *)
Lemma fix_all_changed bps w j :
  Forall (fix_ok (zlen w)) bps -> NoDup (map snd bps) -> 0 <= j ->
  getb w j <> getb (fix_all w bps) j <-> j ∈ map snd (filter (fun bp => fst bp <> 0) bps).
Proof.
  intros H Hnd Hj. rewrite list_elem_of_In, in_map_iff. split.
  - intros Hne. destruct (decide (j ∈ map snd bps)) as [Hin|Hout].
    + apply list_elem_of_In, in_map_iff in Hin as ([b p] & <- & Hin).
      exists (b, p). split; [done|]. apply list_elem_of_In in Hin.
      apply list_elem_of_In, list_elem_of_filter. split; [|done].
      simpl in *. intros ->. apply Hne. by rewrite (getb_fix_all_in _ _ _ _ H Hnd Hin), Z.lxor_0_r.
    + by rewrite (getb_fix_all_out _ _ (zlen w)) in Hne by done.
  - intros ([b p] & <- & Hin). apply list_elem_of_In, list_elem_of_filter in Hin as [Hb Hin].
    simpl in *. rewrite (getb_fix_all_in _ _ _ _ H Hnd Hin). intros E. symmetry in E.
    by apply lxor_eq_self in E.
Qed.

(** Corrections at distinct positions change as many symbols as they have
    non-zero values. *)
Lemma hamming_fix_all bps w :
  Forall (fix_ok (zlen w)) bps -> NoDup (map snd bps) ->
  hamming w (fix_all w bps) = zlen (filter (fun bp => fst bp <> 0) bps).
Proof.
  intros H Hnd. rewrite hamming_upto by (by rewrite zlen_fix_all).
  transitivity (zlen (map snd (filter (fun bp => fst bp <> 0) bps))); [|apply zlen_map].
  unfold zlen. f_equal. apply Permutation_length, NoDup_Permutation.
  - apply list.NoDup_filter, NoDup_seqZ.
  - by apply nodup_map_filter.
  - intros j. rewrite list_elem_of_filter, elem_of_upto. split.
    + intros [Hne Hj]. by apply (proj1 (fix_all_changed bps w j H Hnd ltac:(lia))).
    + intros Hin. assert (0 <= j < zlen w) as Hj; [|by rewrite fix_all_changed by (done || lia)].
      apply list_elem_of_In, in_map_iff in Hin as (bp & <- & Hin).
      apply list_elem_of_In, list_elem_of_filter in Hin as [_ Hin].
      rewrite Forall_forall in H. by destruct (H _ (proj1 (list_elem_of_In _ _) Hin)).
Qed.

(** ** The Chien search *)

(** Locations come out strictly increasing and inside the shortened word. *)
Definition chien_inv (pad k : Z) (root loc : list Z) : Prop :=
  StronglySorted Z.lt loc /\ Forall (fun l => pad <= l < k) loc /\ zlen root = zlen loc.

Lemma chien_inv_weaken pad k k' root loc :
  k <= k' -> chien_inv pad k root loc -> chien_inv pad k' root loc.
Proof.
  intros Hk (? & H & ?). split_and!; [done| |done].
  eapply Forall_impl; [|exact H]. simpl. lia.
Qed.

Lemma sorted_snoc l x :
  StronglySorted Z.lt l -> Forall (fun y => y < x) l -> StronglySorted Z.lt (l ++ [x]).
Proof.
  induction 1 as [|y l Hs IH Hy]; intros H; simpl; [by repeat constructor|].
  inversion H; subst. constructor; [by apply IH|]. apply list.Forall_app. by repeat constructor.
Qed.

Lemma chien_inv_snoc pad k i root loc :
  pad <= k -> chien_inv pad k root loc -> chien_inv pad (k + 1) (root ++ [i]) (loc ++ [k]).
Proof.
  intros Hk (Hs & H & Hz). split_and!.
  - apply sorted_snoc; [done|]. eapply Forall_impl; [|exact H]. simpl. lia.
  - apply list.Forall_app. split; [|repeat constructor; lia].
    eapply Forall_impl; [|exact H]. simpl. lia.
  - zlen.
Qed.

Lemma chien_spec fuel i k deg pad reg root loc root' loc' :
  chien codec fuel i k deg pad reg root loc = Some (root', loc') ->
  0 <= k -> k + Z.of_nat fuel <= 255 -> chien_inv pad k root loc -> chien_inv pad 255 root' loc'.
Proof.
  revert i k reg root loc. induction fuel as [|fuel IH]; intros i k reg root loc E Hk Hf H.
  { simplify_eq/=. eapply chien_inv_weaken; [|done]. lia. }
  cbn [chien] in E. destruct (chien_eval codec deg reg) as [q reg'].
  autorewrite with rs in E. rewrite modnn_codec in E.
  assert (Hnext : forall root loc, chien_inv pad (k + 1) root loc ->
    chien codec fuel (i + 1) ((k + 1) mod 255) deg pad reg' root loc = Some (root', loc') ->
    chien_inv pad 255 root' loc').
  { intros r l Hi E'. destruct fuel as [|fuel].
    - simplify_eq/=. eapply chien_inv_weaken; [|done]. lia.
    - rewrite Z.mod_small in E' by lia. eapply IH; [exact E'|lia|lia|done]. }
  destruct (negb (q =? 0)).
  - eapply Hnext; [|done]. eapply chien_inv_weaken; [|done]. lia.
  - destruct (k <? pad) eqn:Ep; [done|].
    assert (Hs := chien_inv_snoc pad k i root loc ltac:(lia) H).
    destruct (zlen (loc ++ [k]) =? deg).
    + simplify_eq. eapply chien_inv_weaken; [|done]. lia.
    + by eapply Hnext.
Qed.

(** ** Verification of the inferred error *)

Lemma error_syndrome_spec b loc i pad :
  bytes b ->
  error_syndrome codec b loc i = gv (fix_sum (255 - pad) i (zip b (map (fun l => l - pad) loc))).
Proof.
  intros Hb. unfold error_syndrome.
  enough (G : forall acc, is_byte acc -> foldl (fun tmp '(bj, lj) =>
      if bj =? 0 then tmp
      else Z.lxor tmp (getb (alpha_to codec) (rs_modnn codec
        (getb (index_of codec) bj + (fcr codec + i) * prim codec * (nn codec - lj - 1)))))
      acc (zip b loc) = gv (to_gf acc + fix_sum (255 - pad) i (zip b (map (fun l => l - pad) loc)))%gf).
  { rewrite G by (unfold is_byte; lia). rewrite to_gf_0. reflexivity. }
  revert loc. induction Hb as [|x b Hx Hb IH]; intros [|l loc] acc Ha; cbn [zip_with foldl map fix_sum foldr fst snd].
  1-3: transitivity (gv (to_gf acc)); [symmetry; by apply gv_to_gf|f_equal; ring].
  autorewrite with rs. destruct (x =? 0) eqn:E.
  - apply Z.eqb_eq in E as ->. rewrite IH by done. rewrite to_gf_0. reflexivity.
  - apply Z.eqb_neq in E. rewrite IH by (apply is_byte_lxor; [done|apply gexp_byte]).
    rewrite to_gf_lxor by (done || apply gexp_byte). rewrite to_gf_gexp, <- fexp_add.
    assert (fexp (glog x) = to_gf x) as ->.
    { apply gf_eq. rewrite gv_to_gf by done. cbn [gv fexp]. apply gexp_glog.
      unfold is_byte in *. lia. }
    replace ((0 + i) * 1 * (255 - l - 1)) with (i * (255 - pad - 1 - (l - pad))) by ring.
    f_equal. unfold fix_sum. ring.
Qed.

Lemma alpha_index x : is_byte x -> getb (alpha_to codec) (getb (index_of codec) x) = x.
Proof.
  intros Hx. change (getb (alpha_to codec) (glog x) = x).
  destruct (decide (x = 0)) as [->|Hn]; [done|]. unfold is_byte in Hx.
  pose proof (glog_range x ltac:(lia)). rewrite <- (gexp_glog x) at 2 by lia.
  unfold gexp. by rewrite Z.mod_small by lia.
Qed.

Lemma error_value_byte lambda omega dl dw r : is_byte (error_value codec lambda omega dl dw r).
Proof.
  unfold error_value. destruct (_ =? 0); [unfold is_byte; lia|].
  rewrite alpha_modnn. apply gexp_byte.
Qed.

Lemma error_value_nz lambda omega dl dw r :
  error_value codec lambda omega dl dw r <> 0 <-> error_num1 codec omega dw r <> 0.
Proof.
  unfold error_value. destruct (_ =? 0) eqn:E.
  - apply Z.eqb_eq in E. tauto.
  - apply Z.eqb_neq in E. rewrite alpha_modnn.
    match goal with |- gexp ?x <> 0 <-> _ => pose proof (gexp_range x) end. split; [done|lia].
Qed.

(** A verified error cancels every syndrome of the word. *)
Lemma verify_error_codeword w pad b loc :
  zlen w = 255 - pad -> bytes w -> bytes b -> zlen b = zlen loc ->
  Forall (fun l => pad <= l < 255) loc ->
  verify_error codec (map (fun x => getb (index_of codec) x)
    (map (fun i => gv (syndrome i w)) (upto 16))) b loc = true ->
  is_codeword (fix_all w (zip b (map (fun l => l - pad) loc))).
Proof.
  intros Hw Bw Bb Hbl Hloc V i Hi. change RS_NROOTS with 16 in Hi.
  unfold verify_error in V. rewrite forallb_forall in V.
  specialize (V i ltac:(apply list_elem_of_In, elem_of_upto; done)).
  apply Z.eqb_eq in V. rewrite (error_syndrome_spec _ _ _ pad) in V by done.
  rewrite getb_map in V by zlen. rewrite getb_map in V by zlen. rewrite getb_upto in V by done.
  rewrite alpha_index in V by apply gv_byte. apply gf_eq in V.
  rewrite (syndrome_fix_all (255 - pad)); [|done|done|].
  - rewrite V. apply fadd_self.
  - clear V. revert b Bb Hbl. induction Hloc as [|l loc Hl Hloc IH]; intros [|x b] Bb Hbl;
      simpl; try constructor.
    + apply bytes_cons in Bb as [? ?]. split; simpl; [done|lia].
    + apply bytes_cons in Bb as [? ?]. apply IH; [done|]. rewrite !zlen_cons in Hbl. lia.
Qed.

(** ** The correction loop *)

Lemma apply_one_fix pad len data par b l :
  zlen data = len -> zlen par = 16 -> pad = 239 - len -> pad <= l < 255 ->
  let '(d, p) := apply_one codec pad len (data, par) (b, l) in
  d ++ p = fix1 (data ++ par) (b, l - pad) /\ zlen d = len /\ zlen p = 16.
Proof.
  intros Hd Hp -> Hl. unfold apply_one, fix1. autorewrite with rs. cbn [fst snd].
  destruct (l <? 255 - 16) eqn:E; (split; [|by rewrite ?zlen_setb]).
  - unfold setb. rewrite insert_app_l by (unfold zlen in *; lia).
    rewrite getb_app by lia. by rewrite decide_True by lia.
  - rewrite getb_app by lia. rewrite decide_False by lia. unfold setb.
    rewrite insert_app_r_alt by (unfold zlen in *; lia).
    rewrite Hd. do 2 f_equal. unfold zlen in *. lia.
Qed.

Lemma apply_all_fix pad len bls data par :
  zlen data = len -> zlen par = 16 -> pad = 239 - len ->
  Forall (fun bl => pad <= snd bl < 255) bls ->
  let '(d, p) := foldl (apply_one codec pad len) (data, par) bls in
  d ++ p = fix_all (data ++ par) (map (fun bl => (fst bl, snd bl - pad)) bls) /\
  zlen d = len /\ zlen p = 16.
Proof.
  intros Hd Hp Hpad H. revert data par Hd Hp.
  induction H as [|[b l] bls Hl H IH]; intros data par Hd Hp; [done|].
  cbn [foldl map fst snd]. pose proof (apply_one_fix pad len data par b l Hd Hp Hpad Hl) as A.
  destruct (apply_one codec pad len (data, par) (b, l)) as [d p]. destruct A as (A & Hd' & Hp').
  specialize (IH d p Hd' Hp'). destruct (foldl _ _ bls) as [d' p']. destruct IH as (IH & ? & ?).
  split; [|done]. rewrite IH, A. done.
Qed.

(** ** Soundness *)

Lemma deg_index_bound l : 0 <= deg_index codec l <= 16.
Proof.
  unfold deg_index. rewrite nroots_codec. change (16 + 1) with 17.
  apply (foldl_upto_ind _ (fun _ d => 0 <= d <= 16)); [lia|lia|].
  intros i t Hi Ht. destruct (_ =? _); lia.
Qed.

(** The positions of a buffer where another one differs, in order. *)
Definition changed (l1 l2 : list Z) : list Z :=
  filter (fun i => getb l1 i <> getb l2 i) (upto (zlen l1)).

Lemma sorted_map_sub pad loc :
  StronglySorted Z.lt loc -> StronglySorted Z.lt (map (fun l => l - pad) loc).
Proof.
  induction 1 as [|x l Hs IH Hx]; simpl; constructor; [done|].
  apply Forall_map. eapply Forall_impl; [|exact Hx]. simpl. lia.
Qed.

Lemma sorted_lt_nodup l : StronglySorted Z.lt l -> NoDup l.
Proof.
  induction 1 as [|x l Hs IH Hx]; constructor; [|done].
  intros Hin%list_elem_of_In. rewrite Forall_forall in Hx. specialize (Hx _ Hin). lia.
Qed.

Lemma sorted_filter {A} (f : A -> Z) (P : A -> Prop) `{!forall x, Decision (P x)} (l : list A) :
  StronglySorted Z.lt (map f l) -> StronglySorted Z.lt (map f (filter P l)).
Proof.
  induction l as [|x l IH]; simpl; intros Hf; [constructor|].
  inversion Hf as [|? ? Hs Hx]; subst. rewrite filter_cons. case_decide; [|by apply IH].
  simpl. constructor; [by apply IH|]. rewrite !Forall_forall in *.
  intros y (z & <- & Hz)%in_map_iff. apply Hx, in_map.
  by apply list_elem_of_In, list_elem_of_filter, proj2, list_elem_of_In in Hz.
Qed.

Lemma sorted_lt_le l : StronglySorted Z.lt l -> StronglySorted Z.le l.
Proof.
  induction 1 as [|x l Hs IH Hx]; constructor; [done|].
  eapply Forall_impl; [|exact Hx]. simpl. lia.
Qed.

Lemma sorted_lt_ext l1 l2 :
  StronglySorted Z.lt l1 -> StronglySorted Z.lt l2 -> (forall x, x ∈ l1 <-> x ∈ l2) -> l1 = l2.
Proof.
  intros H1 H2 E. apply (StronglySorted_unique Z.le).
  1-2: by apply sorted_lt_le.
  apply NoDup_Permutation; [by apply sorted_lt_nodup..|done].
Qed.

Lemma sorted_upto n : StronglySorted Z.lt (upto n).
Proof.
  unfold upto, seqZ. generalize 0 at 1. generalize (Z.to_nat n). intros k m.
  generalize 0%nat at 1.
  induction k as [|k IH]; intros i; simpl; constructor; [apply IH|].
  rewrite Forall_fmap. apply Forall_forall. intros j Hj%in_seq. simpl. lia.
Qed.

Lemma zip_sub pad b loc :
  zip b (map (fun l => l - pad) loc) = map (fun bl : Z * Z => (fst bl, snd bl - pad)) (zip b loc).
Proof.
  revert loc. induction b as [|x b IH]; intros [|l loc]; simpl; try done. by rewrite IH.
Qed.

Lemma snd_zip_eq {A B} (l1 : list A) (l2 : list B) : zlen l1 = zlen l2 -> map snd (zip l1 l2) = l2.
Proof.
  unfold zlen. revert l2. induction l1 as [|x l1 IH]; intros [|y l2] H; simpl in *; try lia; [done|].
  rewrite IH; [done|lia].
Qed.

(** The shape every successful decode of a damaged word has. *)
Definition correction (w w' : list Z) (n pad : Z) (b loc : list Z) : Prop :=
  bytes b /\ zlen b = zlen loc /\ zlen loc <= 16 /\ StronglySorted Z.lt loc /\
  Forall (fun l => pad <= l < 255) loc /\
  w' = fix_all w (zip b (map (fun l => l - pad) loc)) /\
  n = zlen (filter (fun x => x <> 0) b) /\ is_codeword w'.

Lemma correction_ok w w' n pad b loc :
  correction w w' n pad b loc -> zlen w = 255 - pad ->
  Forall (fix_ok (zlen w)) (zip b (map (fun l => l - pad) loc)) /\
  NoDup (map snd (zip b (map (fun l => l - pad) loc))).
Proof.
  intros (Bb & Hz & _ & Hs & Hl & _) Hw. split.
  - rewrite Hw. clear Hs. unfold zlen in Hz.
    revert b Bb Hz. induction Hl as [|l loc Hl Hloc IH]; intros [|x b] Bb Hbl; simpl; try constructor.
    + apply bytes_cons in Bb as [? ?]. split; simpl; [done|lia].
    + apply bytes_cons in Bb as [? ?]. simpl in Hbl. apply IH; [done|lia].
  - rewrite snd_zip_eq by zlen. by apply sorted_lt_nodup, sorted_map_sub.
Qed.

Lemma filter_fst_zip (b loc : list Z) :
  zlen b = zlen loc ->
  zlen (filter (fun bp : Z * Z => fst bp <> 0) (zip b loc)) = zlen (filter (fun x => x <> 0) b).
Proof.
  unfold zlen. intros Hz. apply Nat2Z.inj in Hz. f_equal. revert loc Hz.
  induction b as [|x b IH]; intros [|l loc] Hz; simpl in *; try lia.
  rewrite !filter_cons. cbn [fst]. repeat case_decide; simpl; try done; rewrite ?IH; lia.
Qed.

Lemma correction_sound w w' n pad b loc :
  correction w w' n pad b loc -> bytes w -> zlen w = 255 - pad ->
  bytes w' /\ zlen w' = zlen w /\ hamming w w' = n /\ 0 <= n <= 16.
Proof.
  intros C Bw Hw. destruct (correction_ok _ _ _ _ _ _ C Hw) as [Ok Nd].
  destruct C as (Bb & Hz & H16 & _ & _ & -> & -> & _). split_and!.
  - by eapply bytes_fix_all.
  - apply zlen_fix_all.
  - rewrite hamming_fix_all by done. apply filter_fst_zip. zlen.
  - apply zlen_nonneg.
  - transitivity (zlen b); [|lia]. unfold zlen. pose proof (length_filter (fun x => x <> 0) b). lia.
Qed.

Lemma getb_app_l l1 l2 i : 0 <= i < zlen l1 -> getb (l1 ++ l2) i = getb l1 i.
Proof. intros. rewrite getb_app by lia. by rewrite decide_True by lia. Qed.

Lemma report_elem pad b loc j :
  j ∈ report_positions codec pad b loc <->
  j ∈ map snd (filter (fun bp : Z * Z => fst bp <> 0) (zip b (map (fun l => l - pad) loc))) /\
  j < 239 - pad.
Proof.
  unfold report_positions. rewrite zip_sub. rewrite !list_elem_of_In, !in_map_iff. split.
  - intros ([x l] & <- & Hin). apply list_elem_of_In, list_elem_of_filter in Hin as [[H1 H2] Hin].
    change (nn codec - nroots codec) with 239 in H1. split; [|lia].
    exists (x, l - pad). split; [done|]. apply list_elem_of_In, list_elem_of_filter. split; [done|].
    apply list_elem_of_In, in_map_iff. exists (x, l). split; [done|by apply list_elem_of_In].
  - intros [([x l] & <- & Hin) Hj]. apply list_elem_of_In, list_elem_of_filter in Hin as [H2 Hin].
    apply list_elem_of_In, in_map_iff in Hin as ([x' l'] & Hxl & Hin). simplify_eq/=.
    exists (x, l'). split; [done|]. apply list_elem_of_In, list_elem_of_filter.
    split; [|by apply list_elem_of_In]. change (nn codec - nroots codec) with 239. split; [lia|done].
Qed.

(** The reported positions are those of the data bytes that changed. *)
Lemma correction_positions data par d p n pad b loc :
  correction (data ++ par) (d ++ p) n pad b loc ->
  zlen data = 239 - pad -> zlen par = 16 -> zlen d = zlen data ->
  report_positions codec pad b loc = changed data d.
Proof.
  intros C Hd Hp Hdd. destruct (correction_ok _ _ _ _ _ _ C ltac:(zlen)) as [Ok Nd].
  destruct C as (Bb & Hz & H16 & Hs & Hl & E & _).
  assert (Hsz : StronglySorted Z.lt (map (fun bl : Z * Z => snd bl - pad) (zip b loc))).
  { rewrite <- (snd_zip_eq b loc Hz) in Hs. apply (sorted_map_sub pad) in Hs.
    by rewrite map_map in Hs. }
  apply sorted_lt_ext.
  - unfold report_positions.
    rewrite (map_ext _ (fun bl : Z * Z => snd bl - pad)) by (by intros []).
    by apply sorted_filter.
  - unfold changed. rewrite <- (map_id (filter _ _)). apply sorted_filter.
    rewrite map_id. apply sorted_upto.
  - intros j. unfold changed. rewrite list_elem_of_filter, elem_of_upto.
    rewrite report_elem. split.
    + intros [Hin Hj].
      assert (0 <= j).
      { apply list_elem_of_In, in_map_iff in Hin as (bp & <- & Hin).
        apply list_elem_of_In, list_elem_of_filter in Hin as [_ Hin].
        rewrite Forall_forall in Ok. apply (Ok _ (proj1 (list_elem_of_In _ _) Hin)). }
      apply (fix_all_changed _ _ _ Ok Nd) in Hin; [|done]. rewrite <- E in Hin.
      rewrite !getb_app_l in Hin by lia. split; [done|lia].
    + intros [Hne Hj]. split; [|lia]. apply (fix_all_changed _ _ _ Ok Nd); [lia|].
      rewrite <- E. by rewrite !getb_app_l by lia.
Qed.

Lemma zip_loc_ok {pad} (b loc : list Z) :
  Forall (fun l => pad <= l < 255) loc -> Forall (fun bl : Z * Z => pad <= snd bl < 255) (zip b loc).
Proof.
  intros H. revert b. induction H as [|l loc Hl H IH]; intros [|x b]; simpl; constructor; auto.
Qed.

Lemma count_nonzero lambda omega dl dw root :
  zlen (filter (fun r => error_num1 codec omega dw r <> 0) root) =
  zlen (filter (fun x => x <> 0) (map (error_value codec lambda omega dl dw) root)).
Proof.
  induction root as [|r root IH]; [done|]. cbn [map]. rewrite !filter_cons.
  pose proof (error_value_nz lambda omega dl dw r).
  repeat case_decide; try tauto. rewrite !zlen_cons. by rewrite IH.
Qed.

Lemma Decoded_inj n d p pos n' d' p' pos' :
  Decoded n d p pos = Decoded n' d' p' pos' -> n' = n /\ d' = d /\ p' = p /\ pos' = pos.
Proof. by intros [= -> -> -> ->]. Qed.

(** Every successful decode: nothing to do, or a verified correction. *)
Lemma decode_internal_cases data par n d p pos :
  bytes data -> bytes par -> 0 < zlen data <= 239 -> zlen par = 16 ->
  rs_decode_internal codec data par (zlen data) = Decoded n d p pos ->
  (is_codeword (data ++ par) /\ n = 0 /\ d = data /\ p = par /\ pos = []) \/
  (exists b loc, correction (data ++ par) (d ++ p) n (239 - zlen data) b loc /\
     zlen d = zlen data /\ zlen p = 16 /\ pos = report_positions codec (239 - zlen data) b loc).
Proof.
  intros Bd Bp Hl Hp. unfold rs_decode_internal.
  change (nn codec - nroots codec) with 239. set (pad := 239 - zlen data).
  destruct ((pad <? 0) || (239 <=? pad)); [done|].
  destruct (forallb _ _) eqn:Ez.
  { intros [= <- <- <- <-]. left. apply syndromes_clean in Ez; (done || lia). }
  clear Ez. rewrite syndromes_spec by (done || lia).
  set (s := map _ (map _ _)). set (lambda := map _ (bm_lambda _)).
  pose proof (deg_index_bound lambda) as Hdeg. set (deg := deg_index codec lambda) in *.
  destruct (deg =? 0); [done|].
  destruct (chien _ _ _ _ _ _ _ _ _) as [[root loc]|] eqn:Ec; [|done].
  apply chien_spec in Ec; [|done|done|by repeat constructor].
  destruct Ec as (Hs & Hloc & Hrl). destruct (deg =? zlen loc) eqn:Ed; [cbn [negb]|done].
  apply Z.eqb_eq in Ed. set (om := omega_poly _ _ _ _).
  set (b := map (error_value _ _ _ _ _) root).
  assert (Bb : bytes b).
  { apply Forall_map, Forall_forall. intros; apply error_value_byte. }
  assert (Hb : zlen b = zlen loc) by (subst b; zlen).
  destruct (verify_error codec s b loc) eqn:Ev; [|done].
  pose proof (apply_all_fix pad (zlen data) (zip b loc) data par eq_refl Hp eq_refl
    (zip_loc_ok b loc Hloc)) as A.
  destruct (foldl _ _ (zip b loc)) as [d' p']. destruct A as (A & Hd' & Hp').
  intros (-> & -> & -> & ->)%Decoded_inj. right. exists b, loc. split; [|done].
  rewrite <- zip_sub in A. 
  split; [exact Bb|]. split; [exact Hb|]. split; [lia|]. split; [exact Hs|].
  split; [exact Hloc|]. split; [exact A|]. split; [apply count_nonzero|].
  rewrite A. apply verify_error_codeword; try done; [zlen|].
  by apply bytes_app.
Qed.

(** [rs_decode_subblock] is the decoder on byte buffers. *)
Lemma rs_decode_subblock_eq data par :
  bytes data -> bytes par -> 0 < zlen data <= 239 ->
  rs_decode_subblock codec data (zlen data) par =
  match rs_decode_internal codec data par (zlen data) with
  | Decoded n d p pos =>
      Decoded n (map (fun x => Z.land x 255) d) (map (fun x => Z.land x 255) p) pos
  | Uncorrectable => Uncorrectable
  end.
Proof.
  intros Bd Bp Hl. unfold rs_decode_subblock. rewrite !u16_bytes by done.
  change RS_MAX_DATA_LEN with 239.
  destruct (zlen data =? 0) eqn:E1, (239 <? zlen data) eqn:E2; simpl; try lia. done.
Qed.

(** What a caller learns from a decode that succeeds. *)
Record decode_ok (data par : list Z) (n : Z) (d p pos : list Z) : Prop := {
  dok_codeword : is_codeword (d ++ p);
  dok_bytes_d : bytes d;
  dok_bytes_p : bytes p;
  dok_len_d : zlen d = zlen data;
  dok_len_p : zlen p = 16;
  dok_distance : hamming (data ++ par) (d ++ p) = n;
  dok_bound : 0 <= n <= 16;
  dok_positions : pos = changed data d }.

Lemma hamming_refl l : hamming l l = 0.
Proof.
  unfold hamming. induction l as [|x l IH]; [done|]. cbn [zip_with]. rewrite filter_cons.
  cbn [fst snd]. by case_decide.
Qed.

Lemma hamming_cons x y l1 l2 :
  hamming (x :: l1) (y :: l2) = (if x =? y then 0 else 1) + hamming l1 l2.
Proof.
  unfold hamming. cbn [zip_with]. rewrite filter_cons. cbn [fst snd].
  destruct (x =? y) eqn:E; case_decide; try rewrite zlen_cons; lia.
Qed.

Lemma hamming_app l1 l2 r1 r2 :
  zlen l1 = zlen r1 -> hamming (l1 ++ l2) (r1 ++ r2) = hamming l1 r1 + hamming l2 r2.
Proof.
  unfold zlen. revert r1. induction l1 as [|x l1 IH]; intros [|y r1] H; simpl in H; try lia.
  - done.
  - cbn [app]. rewrite !hamming_cons, IH; lia.
Qed.

Lemma hamming_le l1 l2 : 0 <= hamming l1 l2 <= zlen l1.
Proof.
  revert l2. induction l1 as [|x l1 IH]; intros l2.
  - change (hamming [] l2) with 0. by split.
  - rewrite zlen_cons. pose proof (zlen_nonneg l1). destruct l2 as [|y l2].
    + change (hamming (x :: l1) []) with 0. lia.
    + rewrite hamming_cons. specialize (IH l2). destruct (x =? y); lia.
Qed.

Lemma hamming_triangle l1 l2 l3 :
  zlen l1 = zlen l2 -> zlen l2 = zlen l3 -> hamming l1 l3 <= hamming l1 l2 + hamming l2 l3.
Proof.
  unfold zlen. revert l2 l3. induction l1 as [|x l1 IH]; intros [|y l2] [|z l3] H1 H2;
    simpl in H1, H2; try lia; [done|].
  rewrite !hamming_cons. specialize (IH l2 l3 ltac:(lia) ltac:(lia)).
  destruct (x =? y) eqn:?, (y =? z) eqn:?, (x =? z) eqn:?; lia.
Qed.

Lemma changed_refl l : changed l l = [].
Proof.
  unfold changed. destruct (filter _ _) as [|x q] eqn:E; [done|].
  assert (Hx : x ∈ filter (fun i => getb l i <> getb l i) (upto (zlen l))) by (rewrite E; left).
  by apply list_elem_of_filter in Hx as [? _].
Qed.

Lemma rs_decode_ok data par n d p pos :
  bytes data -> bytes par -> 0 < zlen data <= 239 -> zlen par = 16 ->
  rs_decode_subblock codec data (zlen data) par = Decoded n d p pos ->
  decode_ok data par n d p pos.
Proof.
  intros Bd Bp Hl Hp. rewrite rs_decode_subblock_eq by done.
  destruct (rs_decode_internal _ _ _ _) as [|n' d' p' pos'] eqn:E; [done|].
  apply decode_internal_cases in E; try done.
  assert (Bw : bytes (data ++ par)) by (by apply bytes_app).
  destruct E as [(C & -> & -> & -> & ->)|(b & loc & C & Hd & Hp' & ->)].
  - rewrite !land_255_bytes by done. intros [= <- <- <- <-]. split; try done.
    + apply hamming_refl.
    + by rewrite changed_refl.
  - pose proof (correction_sound _ _ _ _ _ _ C Bw ltac:(zlen)) as (B' & Hz & Hh & Hn).
    apply bytes_app in B' as [Bd' Bp']. rewrite !land_255_bytes by done.
    intros [= <- <- <- <-]. split; try done.
    + apply C.
    + eapply correction_positions; [exact C|lia|done|done].
Qed.

(** ** Theorems *)

(** The encoder completes any data of at most 239 bytes to a codeword:
    16 parity bytes that make all 16 syndromes of data and parity vanish. *)
Theorem rs_encode_codeword data :
  bytes data -> zlen data <= RS_MAX_DATA_LEN ->
  let par := rs_encode_subblock codec data in
  zlen par = RS_NROOTS /\ bytes par /\ is_codeword (data ++ par).
Proof.
  intros Hd _ par. split_and!.
  - by apply rs_encode_length.
  - by apply rs_encode_bytes.
  - by apply rs_encode_is_codeword.
Qed.

Lemma rs_encode_codeword_witness :
  is_codeword ([1; 2; 3; 200] ++ rs_encode_subblock codec [1; 2; 3; 200]).
Proof.
  apply (rs_encode_codeword [1; 2; 3; 200]).
  - repeat constructor; lia.
  - vm_compute. discriminate.
Defined.

(** A sub-block that was encoded and not damaged decodes to itself, with
    no symbol corrected and no position reported. *)
Theorem rs_roundtrip_clean data :
  bytes data -> 0 < zlen data <= RS_MAX_DATA_LEN ->
  let par := rs_encode_subblock codec data in
  rs_decode_subblock codec data (zlen data) par = Decoded 0 data par [].
Proof.
  intros Hd Hl par. change RS_MAX_DATA_LEN with 239 in Hl.
  assert (Bp : bytes par) by (by apply rs_encode_bytes).
  rewrite rs_decode_subblock_eq by done. unfold rs_decode_internal.
  change (nn codec - nroots codec) with 239.
  assert ((239 - zlen data <? 0) || (239 <=? 239 - zlen data) = false) as ->.
  { apply orb_false_intro; [apply Z.ltb_ge|apply Z.leb_gt]; lia. }
  assert (C : is_codeword (data ++ par)) by (by apply rs_encode_is_codeword).
  apply syndromes_clean in C as ->; [|done|done|lia]. by rewrite !land_255_bytes by done.
Qed.

Lemma rs_roundtrip_clean_witness :
  rs_decode_subblock codec [1; 2; 3; 200] 4 (rs_encode_subblock codec [1; 2; 3; 200]) =
  Decoded 0 [1; 2; 3; 200] (rs_encode_subblock codec [1; 2; 3; 200]) [].
Proof.
  apply (rs_roundtrip_clean [1; 2; 3; 200]).
  - repeat constructor; lia.
  - vm_compute. split; [done|discriminate].
Defined.

(** C2: a decode that succeeds returns a codeword of the same lengths, at
    exactly the Hamming distance it reports (at most 16) from what was
    read, and the positions it reports are, in order, those of the data
    bytes it changed. *)
Theorem rs_decode_sound data par n d p pos :
  bytes data -> bytes par -> 0 < zlen data <= RS_MAX_DATA_LEN -> zlen par = RS_NROOTS ->
  rs_decode_subblock codec data (zlen data) par = Decoded n d p pos ->
  is_codeword (d ++ p) /\ bytes d /\ bytes p /\ zlen d = zlen data /\ zlen p = RS_NROOTS /\
  hamming (data ++ par) (d ++ p) = n /\ 0 <= n <= RS_NROOTS /\
  pos = filter (fun i => getb data i <> getb d i) (upto (zlen data)).
Proof.
  intros Bd Bp Hl Hp E. apply (rs_decode_ok _ _ _ _ _ _ Bd Bp Hl Hp) in E.
  unfold RS_NROOTS. destruct E. split_and!; (assumption || lia).
Qed.

(** A concrete damaged sub-block for the witnesses. *)
Definition ex_data : list Z := [17; 0; 255; 42; 9; 9; 1; 128].
Definition ex_par : list Z := Eval vm_compute in rs_encode_subblock codec ex_data.
Definition ex_bad : list Z := [17; 3; 255; 42; 9; 77; 1; 128].

Lemma rs_decode_sound_witness : exists n d p pos,
  rs_decode_subblock codec ex_bad 8 ex_par = Decoded n d p pos /\ is_codeword (d ++ p).
Proof.
  exists 2, ex_data, ex_par, [1; 5].
  assert (E : rs_decode_subblock codec ex_bad 8 ex_par = Decoded 2 ex_data ex_par [1; 5])
    by (vm_compute; reflexivity).
  split; [exact E|].
  apply (rs_decode_sound ex_bad ex_par 2 ex_data ex_par [1; 5]);
    [repeat constructor; lia|repeat constructor; lia| |done|exact E].
  vm_compute. split; [done|discriminate].
Defined.

(** No miscorrection within the distance of the code: when the damage
    to a written sub-block and the correction a decode reports come to at
    most 16 symbols together, the decode returns what was written. *)
Theorem rs_no_miscorrection data data' par' n d p pos :
  bytes data -> bytes data' -> bytes par' ->
  0 < zlen data <= RS_MAX_DATA_LEN -> zlen data' = zlen data -> zlen par' = RS_NROOTS ->
  let par := rs_encode_subblock codec data in
  rs_decode_subblock codec data' (zlen data') par' = Decoded n d p pos ->
  hamming (data ++ par) (data' ++ par') + n <= RS_NROOTS ->
  d = data /\ p = par.
Proof.
  intros Bd Bd' Bp' Hl Hl' Hp' par E Hn. change RS_MAX_DATA_LEN with 239 in Hl.
  assert (Hp : zlen par = 16) by (by apply rs_encode_length).
  assert (Bp : bytes par) by (by apply rs_encode_bytes).
  assert (Cw : is_codeword (data ++ par)) by (by apply rs_encode_is_codeword).
  apply (rs_decode_ok _ _ _ _ _ _ Bd' Bp' ltac:(lia) Hp') in E as [].
  clearbody par.
  change RS_NROOTS with 16 in *.
  assert (H : data ++ par = d ++ p).
  { apply codeword_distance; [by apply bytes_app|by apply bytes_app|zlen|zlen|done|done|].
    etransitivity; [apply (hamming_triangle _ (data' ++ par')); zlen|].
    change RS_NROOTS with 16. lia. }
  apply app_inj_1 in H as [-> ->]; [done|]. unfold zlen in *. lia.
Qed.

Lemma rs_no_miscorrection_witness : exists p,
  rs_decode_subblock codec ex_bad 8 ex_par = Decoded 2 ex_data p [1; 5] /\
  p = rs_encode_subblock codec ex_data.
Proof.
  exists ex_par.
  assert (E : rs_decode_subblock codec ex_bad 8 ex_par = Decoded 2 ex_data ex_par [1; 5])
    by (vm_compute; reflexivity).
  split; [exact E|].
  apply (rs_no_miscorrection ex_data ex_bad ex_par 2 ex_data ex_par [1; 5]);
    [repeat constructor; lia..| |done|done|exact E|]; vm_compute; repeat split; discriminate.
Defined.

(** The parity of a sub-block is determined by its data: the encoder's
    16 bytes are the only ones that complete it to a codeword. *)
Theorem rs_parity_unique data p :
  bytes data -> bytes p -> zlen data <= RS_MAX_DATA_LEN -> zlen p = RS_NROOTS ->
  is_codeword (data ++ p) -> p = rs_encode_subblock codec data.
Proof.
  intros Bd Bp Hl Hp C. change RS_MAX_DATA_LEN with 239 in Hl.
  assert (Hp' : zlen (rs_encode_subblock codec data) = 16) by (by apply rs_encode_length).
  assert (H : data ++ p = data ++ rs_encode_subblock codec data).
  { change RS_NROOTS with 16 in *.
    apply codeword_distance; [by apply bytes_app| | zlen|zlen|done| |].
    - apply bytes_app. split; [done|by apply rs_encode_bytes].
    - by apply rs_encode_is_codeword.
    - rewrite hamming_app, hamming_refl by done. pose proof (hamming_le p (rs_encode_subblock codec data)).
      change RS_NROOTS with 16. lia. }
  by apply app_inj_1 in H as [_ ->].
Qed.

Lemma rs_parity_unique_witness : ex_par = rs_encode_subblock codec ex_data.
Proof.
  apply (rs_parity_unique ex_data ex_par);
    [repeat constructor; lia|repeat constructor; lia|vm_compute; discriminate|done|].
  apply (rs_encode_is_codeword ex_data). repeat constructor; lia.
Defined.
