(* ===== verification/RsLib.v ===== *)
(** * The kernel's Reed-Solomon library as an interface

    edac.c calls lib/reed_solomon (init_rs, encode_rs8, decode_rs8), which
    is not part of the repository.  The interface below is what edac.c
    relies on: with (symsize, gfpoly, fcr, prim, nroots) =
    (8, 0x187, 0, 1, 16), encode_rs8 completes a codeword; decode_rs8,
    asked to report, either fails or gives the positions and patterns of a
    correction that leads to a codeword, and reports none on a codeword.
    The codec of fsck.beamfs, which is in the repository, implements it. *)

From S2P Require Import Prelude RsInit GF RsTheory RsCode RsCorrect RsDecode.

(** A correction as decode_rs8 reports it: (corr[i], pos[i]). *)
Class RsLib := {
  encode_rs8 : list Z -> list Z;
  decode_rs8 : list Z -> list Z -> option (list (Z * Z)) }.

(** Buffers decode_rs8 accepts. *)
Definition rs_input (data par : list Z) : Prop :=
  bytes data /\ bytes par /\ 0 < zlen data <= 239 /\ zlen par = 16.

Class RsLibSpec `{!RsLib} := {
  encode_rs8_len : forall d, bytes d -> zlen d <= 239 -> zlen (encode_rs8 d) = 16;
  encode_rs8_bytes : forall d, bytes d -> zlen d <= 239 -> bytes (encode_rs8 d);
  encode_rs8_codeword : forall d, bytes d -> zlen d <= 239 -> is_codeword (d ++ encode_rs8 d);
  decode_rs8_clean : forall d p, rs_input d p -> is_codeword (d ++ p) -> decode_rs8 d p = Some [];
  decode_rs8_sound : forall d p cs, rs_input d p -> decode_rs8 d p = Some cs ->
    Forall (fun c => 0 < fst c < 256 /\ 0 <= snd c < zlen d + 16) cs /\
    NoDup (map snd cs) /\ zlen cs <= 16 /\ is_codeword (fix_all (d ++ p) cs) }.

(** The correction capacity decode_rs8 documents for 16 roots: a word within
    eight symbols of a codeword decodes, with at most eight corrections. *)
Class RsLibBounded `{!RsLib} := {
  decode_rs8_bounded : forall d p d0 p0, rs_input d p -> rs_input d0 p0 -> zlen d0 = zlen d ->
    is_codeword (d0 ++ p0) -> hamming (d0 ++ p0) (d ++ p) <= 8 ->
    exists cs, decode_rs8 d p = Some cs /\ zlen cs <= 8 }.

(** ** The fsck codec as an instance *)

(** The corrections of a decode, recovered by comparing its buffers. *)
Definition diff_corrections (w w' : list Z) : list (Z * Z) :=
  map (fun i => (Z.lxor (getb w i) (getb w' i), i)) (changed w w').

Definition fsck_decode (d p : list Z) : option (list (Z * Z)) :=
  match rs_decode_subblock codec d (zlen d) p with
  | Decoded _ d' p' _ => Some (diff_corrections (d ++ p) (d' ++ p'))
  | Uncorrectable => None
  end.

#[export] Instance fsck_rslib : RsLib :=
  {| encode_rs8 := rs_encode_subblock codec; decode_rs8 := fsck_decode |}.

Lemma zlen_changed w w' : zlen w = zlen w' -> zlen (changed w w') = hamming w w'.
Proof. intros H. by rewrite hamming_upto. Qed.

Lemma elem_of_changed w w' i : i ∈ changed w w' <-> 0 <= i < zlen w /\ getb w i <> getb w' i.
Proof. unfold changed. rewrite list_elem_of_filter, elem_of_upto. tauto. Qed.

Lemma nodup_changed w w' : NoDup (changed w w').
Proof. apply list.NoDup_filter, NoDup_seqZ. Qed.

Lemma snd_diff w w' : map snd (diff_corrections w w') = changed w w'.
Proof. unfold diff_corrections. rewrite map_map. apply map_id. Qed.

Lemma elem_of_diff w w' b i :
  (b, i) ∈ diff_corrections w w' <->
  b = Z.lxor (getb w i) (getb w' i) /\ i ∈ changed w w'.
Proof.
  unfold diff_corrections. rewrite list_elem_of_In, in_map_iff. split.
  - intros (j & E & Hj). simplify_eq/=. split; [done|by apply list_elem_of_In].
  - intros [-> Hi]. exists i. split; [done|by apply list_elem_of_In].
Qed.

Lemma diff_corrections_ok w w' :
  bytes w -> bytes w' ->
  Forall (fun c => 0 < fst c < 256 /\ 0 <= snd c < zlen w) (diff_corrections w w').
Proof.
  intros B B'. apply Forall_forall. intros [b i] Hin%list_elem_of_In. apply elem_of_diff in Hin as [-> Hi].
  apply elem_of_changed in Hi as [Hi Hne]. split; [|done]. cbn [fst].
  assert (Hb : is_byte (Z.lxor (getb w i) (getb w' i))) by auto with bytes.
  assert (Z.lxor (getb w i) (getb w' i) <> 0) by (rewrite Z.lxor_eq_0_iff; done).
  unfold is_byte in Hb. lia.
Qed.

Lemma fix_all_diff w w' :
  bytes w -> bytes w' -> zlen w = zlen w' -> fix_all w (diff_corrections w w') = w'.
Proof.
  intros B B' Hl.
  assert (Ok : Forall (fix_ok (zlen w)) (diff_corrections w w')).
  { eapply Forall_impl; [|by apply diff_corrections_ok]. intros c [? ?]. split; [unfold is_byte|]; lia. }
  assert (Nd : NoDup (map snd (diff_corrections w w'))) by (rewrite snd_diff; apply nodup_changed).
  apply bytes_ext; [by rewrite zlen_fix_all|]. rewrite zlen_fix_all. intros i Hi.
  destruct (decide (i ∈ changed w w')) as [Hc|Hc].
  - rewrite (getb_fix_all_in _ _ (Z.lxor (getb w i) (getb w' i))) by (done || by apply elem_of_diff).
    by rewrite <- Z.lxor_assoc, Z.lxor_nilpotent, Z.lxor_0_l.
  - rewrite (getb_fix_all_out _ _ (zlen w)) by (done || lia || by rewrite snd_diff).
    rewrite elem_of_changed in Hc. destruct (decide (getb w i = getb w' i)); tauto.
Qed.

#[export] Instance fsck_rslib_spec : RsLibSpec.
Proof.
  split.
  - intros. by apply rs_encode_length.
  - intros. by apply rs_encode_bytes.
  - intros. by apply rs_encode_is_codeword.
  - intros d p (Bd & Bp & Hl & Hp) C. cbn [decode_rs8 fsck_rslib]. unfold fsck_decode.
    rewrite rs_decode_subblock_eq by done. unfold rs_decode_internal.
    change (nn codec - nroots codec) with 239.
    assert ((239 - zlen d <? 0) || (239 <=? 239 - zlen d) = false) as ->.
    { apply orb_false_intro; [apply Z.ltb_ge|apply Z.leb_gt]; lia. }
    apply syndromes_clean in C as ->; [|done|done|lia]. rewrite !land_255_bytes by done.
    f_equal. unfold diff_corrections. by rewrite changed_refl.
  - intros d p cs (Bd & Bp & Hl & Hp). cbn [decode_rs8 fsck_rslib]. unfold fsck_decode.
    destruct (rs_decode_subblock codec d (zlen d) p) as [|n d' p' pos] eqn:E; [done|].
    apply (rs_decode_ok _ _ _ _ _ _ Bd Bp Hl Hp) in E. destruct E as [C Bd' Bp' Hd' Hp' Hh Hn _].
    intros [= <-]. assert (Bw : bytes (d ++ p)) by (by apply bytes_app).
    assert (Bw' : bytes (d' ++ p')) by (by apply bytes_app).
    assert (Hlen : zlen (d ++ p) = zlen (d' ++ p')) by zlen.
    split_and!.
    + rewrite <- Hp, <- zlen_app. by apply diff_corrections_ok.
    + rewrite snd_diff. apply nodup_changed.
    + unfold diff_corrections. rewrite zlen_map, zlen_changed by done. lia.
    + by rewrite fix_all_diff.
Qed.
