(* ===== verification/BmAlgebra.v ===== *)
(** * Power series over GF(2^8)

    The algebra behind Berlekamp-Massey: finite sums, the Cauchy product,
    and the locator and evaluator polynomials of an error pattern. *)

From Stdlib Require Import Ring.
From S2P Require Import Prelude RsInit GF RsTheory.

Local Open Scope gf_scope.

Definition series := nat -> gf.

Fixpoint gsum (n : nat) (f : nat -> gf) : gf :=
  match n with O => 0 | S n => gsum n f + f n end.

Definition conv (f g : series) (n : nat) : gf := gsum (S n) (fun i => f i * g (n - i)%nat).

(** Multiplication by x. *)
Definition xs (f : series) (n : nat) : gf := match n with O => 0 | S n => f n end.

Definition delta (n : nat) : gf := match n with O => 1 | S _ => 0 end.

(** Multiplication by (1 + c x). *)
Definition mul1 (c : gf) (f : series) (n : nat) : gf := f n + c * xs f n.

(** ** Sums *)

Lemma gsum_ext n f g : (forall i, (i < n)%nat -> f i = g i) -> gsum n f = gsum n g.
Proof. induction n as [|n IH]; intros H; simpl; [done|]. rewrite IH, H; [done|lia|auto with lia]. Qed.

Lemma gsum_zero n f : (forall i, (i < n)%nat -> f i = 0) -> gsum n f = 0.
Proof. induction n as [|n IH]; intros H; simpl; [done|]. rewrite IH, H by auto with lia. ring. Qed.

Lemma gsum_add n f g : gsum n (fun i => f i + g i) = gsum n f + gsum n g.
Proof. induction n as [|n IH]; simpl; [ring|]. rewrite IH. ring. Qed.

Lemma gsum_scale n c f : gsum n (fun i => c * f i) = c * gsum n f.
Proof. induction n as [|n IH]; simpl; [ring|]. rewrite IH. ring. Qed.

Lemma gsum_first n f : gsum (S n) f = f 0%nat + gsum n (fun i => f (S i)).
Proof. induction n as [|n IH]; simpl in *; [ring|]. rewrite IH. ring. Qed.

Lemma gsum_rev n f : gsum (S n) f = gsum (S n) (fun i => f (n - i)%nat).
Proof.
  revert f. induction n as [|n IH]; intros f; [done|].
  rewrite (gsum_first (S n) (fun i => f (S n - i)%nat)). rewrite Nat.sub_0_r.
  change (gsum (S (S n)) f) with (gsum (S n) f + f (S n)). rewrite IH.
  transitivity (f (S n) + gsum (S n) (fun i => f (n - i)%nat)); [ring|].
  f_equal.
Qed.

Lemma gsum_split m n f : gsum (m + n) f = gsum m f + gsum n (fun i => f (m + i)%nat).
Proof.
  induction n as [|n IH].
  - rewrite Nat.add_0_r. simpl. ring.
  - rewrite Nat.add_succ_r. simpl. rewrite IH. ring.
Qed.

(** Sums beyond the support. *)
Lemma gsum_support m n f : (m <= n)%nat -> (forall i, (m <= i)%nat -> f i = 0) -> gsum n f = gsum m f.
Proof.
  intros Hmn H. replace n with (m + (n - m))%nat by lia. rewrite gsum_split.
  rewrite (gsum_zero (n - m)); [ring|]. intros i _. apply H. lia.
Qed.

Lemma gsum_triangle n (F : nat -> nat -> gf) :
  gsum (S n) (fun i => gsum (S (n - i)) (F i)) =
  gsum (S n) (fun j => gsum (S (n - j)) (fun i => F i j)).
Proof.
  assert (Step : forall n (G : nat -> nat -> gf),
    gsum (S (S n)) (fun i => gsum (S (S n - i)) (G i)) =
    gsum (S n) (fun i => gsum (S (n - i)) (G i)) + gsum (S (S n)) (fun i => G i (S n - i)%nat)).
  { intros k G. change (gsum (S (S k)) (fun i => gsum (S (S k - i)) (G i))) with
      (gsum (S k) (fun i => gsum (S (S k - i)) (G i)) + gsum (S (S k - S k)) (G (S k))).
    rewrite (gsum_ext (S k) (fun i => gsum (S (S k - i)) (G i))
      (fun i => gsum (S (k - i)) (G i) + G i (S k - i)%nat)).
    2:{ intros i Hi. replace (S k - i)%nat with (S (k - i))%nat by lia. done. }
    rewrite gsum_add. rewrite Nat.sub_diag.
    change (gsum (S (S k)) (fun i => G i (S k - i)%nat)) with
      (gsum (S k) (fun i => G i (S k - i)%nat) + G (S k) (S k - S k)%nat).
    rewrite Nat.sub_diag. cbn [gsum]. ring. }
  induction n as [|n IH]; [done|]. rewrite Step, (Step n (fun j i => F i j)), IH.
  f_equal. rewrite gsum_rev. apply gsum_ext. intros i Hi. f_equal. lia.
Qed.

(** ** The product *)

Lemma conv_ext f f' g g' n :
  (forall i, (i <= n)%nat -> f i = f' i) -> (forall i, (i <= n)%nat -> g i = g' i) ->
  conv f g n = conv f' g' n.
Proof. intros Hf Hg. apply gsum_ext. intros i Hi. rewrite Hf, Hg by lia. done. Qed.

Lemma conv_exchange f g h n : conv f (conv g h) n = conv g (conv f h) n.
Proof.
  unfold conv.
  transitivity (gsum (S n) (fun i => gsum (S (n - i)) (fun j => f i * (g j * h (n - i - j)%nat)))).
  { apply gsum_ext. intros i _. by rewrite gsum_scale. }
  rewrite gsum_triangle. apply gsum_ext. intros j Hj. rewrite <- gsum_scale.
  apply gsum_ext. intros i Hi. replace (n - j - i)%nat with (n - i - j)%nat by lia. ring.
Qed.

Lemma conv_add_l f g h n : conv (fun i => f i + g i) h n = conv f h n + conv g h n.
Proof. unfold conv. rewrite <- gsum_add. apply gsum_ext. intros. ring. Qed.

Lemma conv_add_r f g h n : conv f (fun i => g i + h i) n = conv f g n + conv f h n.
Proof. unfold conv. rewrite <- gsum_add. apply gsum_ext. intros. ring. Qed.

Lemma conv_scale_l c f g n : conv (fun i => c * f i) g n = c * conv f g n.
Proof. unfold conv. rewrite <- gsum_scale. apply gsum_ext. intros. ring. Qed.

Lemma conv_scale_r c f g n : conv f (fun i => c * g i) n = c * conv f g n.
Proof. unfold conv. rewrite <- gsum_scale. apply gsum_ext. intros. ring. Qed.

Lemma conv_xs_l f g n : conv (xs f) g n = xs (conv f g) n.
Proof.
  unfold conv at 1. rewrite gsum_first. cbn [xs]. destruct n as [|n]; cbn [xs].
  - cbn. ring.
  - unfold conv. transitivity (gsum (S n) (fun i => f i * g (S n - S i)%nat)); [ring|]. done.
Qed.

Lemma conv_comm f g n : conv f g n = conv g f n.
Proof.
  unfold conv. rewrite gsum_rev. apply gsum_ext. intros i Hi.
  replace (n - (n - i))%nat with i by lia. ring.
Qed.

Lemma conv_delta f n : conv delta f n = f n.
Proof.
  unfold conv. rewrite gsum_first, gsum_zero.
  - cbn [delta]. rewrite Nat.sub_0_r. ring.
  - intros i _. cbn [delta]. ring.
Qed.

Lemma conv_zero f g n :
  (forall i, (i <= n)%nat -> f i = 0 \/ g (n - i)%nat = 0) -> conv f g n = 0.
Proof.
  intros H. apply gsum_zero. intros i Hi. destruct (H i) as [->| ->]; [lia|ring|ring].
Qed.

Lemma conv_mul1_l c f g n : conv (mul1 c f) g n = mul1 c (conv f g) n.
Proof.
  unfold mul1. rewrite conv_add_l, conv_scale_l, conv_xs_l. done.
Qed.

(** (1 + X x) times the geometric series of X is 1. *)
Lemma conv_geo X f n : conv (mul1 X f) (fpow X) n = f n.
Proof.
  rewrite conv_mul1_l, <- (conv_delta f n), (conv_comm delta).
  unfold mul1. rewrite <- conv_xs_l. rewrite (conv_comm f (fpow X)), (conv_comm f delta).
  destruct n as [|n]; cbn [xs].
  - unfold conv. cbn. ring.
  - rewrite conv_xs_l. cbn [xs]. rewrite (conv_comm (fpow X) f), (conv_comm delta f).
    unfold conv. rewrite <- gsum_scale.
    change (gsum (S (S n)) (fun i => f i * fpow X (S n - i)%nat)) with
      (gsum (S n) (fun i => f i * fpow X (S n - i)%nat) + f (S n) * fpow X (S n - S n)%nat).
    change (gsum (S (S n)) (fun i => f i * delta (S n - i)%nat)) with
      (gsum (S n) (fun i => f i * delta (S n - i)%nat) + f (S n) * delta (S n - S n)%nat).
    rewrite (gsum_zero (S n) (fun i => f i * delta (S n - i)%nat)).
    2:{ intros i Hi. replace (S n - i)%nat with (S (n - i))%nat by lia. cbn. ring. }
    rewrite (gsum_ext (S n) (fun i => f i * fpow X (S n - i)%nat) (fun i => X * (f i * fpow X (n - i)%nat))).
    2:{ intros i Hi. replace (S n - i)%nat with (S (n - i))%nat by lia. cbn [fpow]. ring. }
    rewrite Nat.sub_diag. cbn [fpow delta].
    set (A := gsum (S n) (fun i => X * _)). transitivity (A + A + f (S n) * 1); [ring|].
    rewrite fadd_self. ring.
Qed.

(** ** Locator and evaluator of an error pattern

    A pattern is a list of (X, Y): location and value.  Its syndromes are
    the power sums [msum]. *)

Fixpoint locS (ts : list (gf * gf)) : series :=
  match ts with [] => delta | t :: ts => mul1 (fst t) (locS ts) end.

Fixpoint evaS (ts : list (gf * gf)) : series :=
  match ts with
  | [] => fun _ => 0
  | t :: ts => fun n => snd t * locS ts n + mul1 (fst t) (evaS ts) n
  end.

Lemma mul1_ext c f g n : (forall i, f i = g i) -> mul1 c f n = mul1 c g n.
Proof. intros H. unfold mul1. rewrite H. destruct n; cbn [xs]; rewrite ?H; done. Qed.

(** The key equation. *)
Lemma loc_key ts n : conv (locS ts) (fun n => msum n ts) n = evaS ts n.
Proof.
  revert n. induction ts as [|[X Y] ts IH]; intros n; cbn [locS evaS fst snd].
  - apply conv_zero. intros i _. by right.
  - rewrite (conv_ext _ (mul1 X (locS ts)) _ (fun n => Y * fpow X n + msum n ts)) by done.
    rewrite conv_add_r, conv_scale_r, conv_geo, conv_mul1_l. f_equal. by apply mul1_ext.
Qed.

Lemma locS_0 ts : locS ts 0%nat = 1.
Proof. induction ts as [|[X Y] ts IH]; [done|]. cbn [locS]. unfold mul1. rewrite IH. cbn. ring. Qed.

Lemma mul1_support c f n : (forall i, (n <= i)%nat -> f i = 0) ->
  forall i, (S n <= i)%nat -> mul1 c f i = 0.
Proof.
  intros H i Hi. unfold mul1. rewrite H by lia. destruct i; [lia|]. cbn [xs]. rewrite H by lia. ring.
Qed.

Lemma locS_support ts i : (length ts < i)%nat -> locS ts i = 0.
Proof.
  revert i. induction ts as [|[X Y] ts IH]; intros i Hi; cbn [locS length] in *.
  - destruct i; [lia|done].
  - apply (mul1_support _ _ (S (length ts))); [|lia]. intros j Hj. apply IH. lia.
Qed.

Lemma evaS_support ts i : (length ts <= i)%nat -> evaS ts i = 0.
Proof.
  revert i. induction ts as [|[X Y] ts IH]; intros i Hi; cbn [evaS length fst snd] in *; [done|].
  rewrite locS_support by lia. rewrite (mul1_support _ _ (length ts)); [ring| |lia].
  intros j Hj. by apply IH.
Qed.

(** ** Evaluation *)

Definition peval (n : nat) (f : series) (x : gf) : gf := gsum n (fun i => f i * fpow x i).

Lemma peval_ext n f g x : (forall i, (i < n)%nat -> f i = g i) -> peval n f x = peval n g x.
Proof. intros H. apply gsum_ext. intros i Hi. by rewrite H. Qed.

Lemma peval_support m n f x :
  (m <= n)%nat -> (forall i, (m <= i)%nat -> f i = 0) -> peval n f x = peval m f x.
Proof. intros Hmn H. apply gsum_support; [done|]. intros i Hi. rewrite H by done. ring. Qed.

Lemma peval_add n f g x : peval n (fun i => f i + g i) x = peval n f x + peval n g x.
Proof. unfold peval. rewrite <- gsum_add. apply gsum_ext. intros. ring. Qed.

Lemma peval_scale n c f x : peval n (fun i => c * f i) x = c * peval n f x.
Proof. unfold peval. rewrite <- gsum_scale. apply gsum_ext. intros. ring. Qed.

Lemma peval_xs n f x : peval (S n) (xs f) x = x * peval n f x.
Proof.
  unfold peval. rewrite gsum_first. cbn [xs fpow]. rewrite <- gsum_scale.
  transitivity (gsum n (fun i => f i * (x * fpow x i))); [ring|]. apply gsum_ext. intros. ring.
Qed.

Lemma peval_mul1 n c f x :
  (forall i, (n <= i)%nat -> f i = 0) -> peval (S n) (mul1 c f) x = (1 + c * x) * peval n f x.
Proof.
  intros H. unfold mul1. rewrite peval_add, peval_scale, peval_xs.
  rewrite (peval_support n (S n)) by (done || lia). ring.
Qed.

(** The formal derivative: the odd coefficients, shifted down. *)
Definition der (f : series) (n : nat) : gf := if Nat.even n then f (S n) else 0.

Lemma der_mul1 c f n : der (mul1 c f) n = c * f n + mul1 c (der f) n.
Proof.
  unfold der, mul1. destruct n as [|n]; cbn [xs].
  - cbn [Nat.even]. ring.
  - rewrite Nat.even_succ, <- Nat.negb_even. destruct (Nat.even n); cbn [negb].
    + transitivity (c * f (S n) + c * f (S n)); [symmetry; apply fadd_self|ring].
    + ring.
Qed.

Fixpoint evL (ts : list (gf * gf)) (x : gf) : gf :=
  match ts with [] => 1 | t :: ts => (1 + fst t * x) * evL ts x end.
Fixpoint evO (ts : list (gf * gf)) (x : gf) : gf :=
  match ts with [] => 0 | t :: ts => snd t * evL ts x + (1 + fst t * x) * evO ts x end.
Fixpoint evD (ts : list (gf * gf)) (x : gf) : gf :=
  match ts with [] => 0 | t :: ts => fst t * evL ts x + (1 + fst t * x) * evD ts x end.

Lemma peval_loc ts x : peval (S (length ts)) (locS ts) x = evL ts x.
Proof.
  induction ts as [|[X Y] ts IH]; cbn [locS evL length fst].
  - unfold peval. cbn. ring.
  - rewrite peval_mul1, IH; [done|]. intros i Hi. apply locS_support. lia.
Qed.

Lemma peval_eva ts x : peval (length ts) (evaS ts) x = evO ts x.
Proof.
  induction ts as [|[X Y] ts IH]; cbn [evaS evO length fst snd]; [done|].
  rewrite peval_add, peval_scale, peval_loc, peval_mul1, IH; [done|]. apply evaS_support.
Qed.

Lemma der_support ts i : (length ts <= i)%nat -> der (locS ts) i = 0.
Proof. intros H. unfold der. destruct (Nat.even i); [|done]. apply locS_support. lia. Qed.

Lemma peval_der ts x : peval (length ts) (der (locS ts)) x = evD ts x.
Proof.
  induction ts as [|[X Y] ts IH]; cbn [locS evD length fst]; [done|].
  rewrite (peval_ext _ _ (fun i => X * locS ts i + mul1 X (der (locS ts)) i))
    by (intros; apply der_mul1).
  rewrite peval_add, peval_scale, peval_loc, peval_mul1, IH; [done|]. apply der_support.
Qed.

(** The roots of the locator are the inverse locations. *)
Lemma evL_zero ts x : evL ts x = 0 <-> exists t, t ∈ ts /\ fst t * x = 1.
Proof.
  induction ts as [|t ts IH]; cbn [evL].
  - split; [intros E; by apply (f_equal gv) in E|intros (t & Ht & _); by apply elem_of_nil in Ht].
  - split.
    + intros [E|E]%fmul_integral.
      * exists t. split; [left|]. symmetry. by apply fadd_eq_0.
      * apply IH in E as (t' & Ht & E). exists t'. split; [by right|done].
    + intros (t' & Ht & E). apply elem_of_cons in Ht as [->|Ht].
      * rewrite E, fadd_self. ring.
      * assert (evL ts x = 0) as -> by (apply IH; eauto). ring.
Qed.

(** Forney's formula. *)
Lemma forney ts X Y x :
  NoDup (map fst ts) -> (X, Y) ∈ ts -> X * x = 1 -> X * evO ts x = Y * evD ts x.
Proof.
  induction ts as [|[X1 Y1] ts IH]; intros Hnd Hin Hx; [by apply elem_of_nil in Hin|].
  cbn [map fst] in Hnd. apply list.NoDup_cons in Hnd as [Hx1 Hnd].
  cbn [evO evD fst snd]. apply elem_of_cons in Hin as [[= -> ->]|Hin].
  - rewrite Hx, fadd_self. ring.
  - assert (evL ts x = 0) as -> by (apply evL_zero; by exists (X, Y)).
    specialize (IH Hnd Hin Hx).
    transitivity ((1 + X1 * x) * (X * evO ts x)); [ring|]. rewrite IH. ring.
Qed.

Lemma evD_nz ts X Y x : NoDup (map fst ts) -> (X, Y) ∈ ts -> X * x = 1 -> evD ts x <> 0.
Proof.
  induction ts as [|[X1 Y1] ts IH]; intros Hnd Hin Hx E; [by apply elem_of_nil in Hin|].
  cbn [map fst] in Hnd. apply list.NoDup_cons in Hnd as [Hx1 Hnd]. cbn [evD fst] in E.
  assert (Hinv : forall X', X' * x = 1 -> X' = X).
  { intros X' HX'. transitivity (X' * (X * x)); [rewrite Hx; ring|].
    transitivity (X * (X' * x)); [ring|]. rewrite HX'. ring. }
  apply elem_of_cons in Hin as [[= -> ->]|Hin].
  - rewrite Hx, fadd_self in E.
    assert (E' : X1 * evL ts x = 0) by (transitivity (X1 * evL ts x + 0 * evD ts x); [ring|exact E]).
    apply fmul_integral in E' as [E'|E'].
    + rewrite E' in Hx. apply (f_equal gv) in Hx. cbn [fmul gv] in Hx. by rewrite gmul_0_l in Hx.
    + apply evL_zero in E' as (t & Ht & Hx'). apply Hx1. rewrite <- (Hinv (fst t)) by done.
      apply list_elem_of_In, in_map. by apply list_elem_of_In.
  - assert (evL ts x = 0) as E0 by (apply evL_zero; by exists (X, Y)).
    rewrite E0 in E.
    assert (E' : (1 + X1 * x) * evD ts x = 0) by (transitivity (X1 * 0 + (1 + X1 * x) * evD ts x); [ring|exact E]).
    apply fmul_integral in E' as [E'|E']; [|by apply (IH Hnd Hin Hx)].
    apply (proj1 (fadd_eq_0 _ _)) in E'. symmetry in E'. apply Hinv in E'. subst X1. apply Hx1.
    apply list_elem_of_In, in_map_iff. exists (X, Y). split; [done|by apply list_elem_of_In].
Qed.

(** ** Uniqueness of the locator *)

Lemma fpow_inv X x n : X * x = 1 -> fpow X n * fpow x n = 1.
Proof.
  intros H. induction n as [|n IH]; cbn [fpow]; [ring|].
  transitivity ((X * x) * (fpow X n * fpow x n)); [ring|]. rewrite H, IH. ring.
Qed.

(** Past the support of [f], the product with a geometric series is an
    evaluation at the inverse of its ratio. *)
Lemma conv_geo_eval f X x m n :
  X * x = 1 -> (m <= n)%nat -> (forall i, (m < i)%nat -> f i = 0) ->
  conv f (fpow X) n = fpow X n * peval (S m) f x.
Proof.
  intros Hx Hmn Hf. unfold conv, peval. rewrite <- gsum_scale.
  rewrite (gsum_support (S m) (S n)); [|lia|].
  - apply gsum_ext. intros i Hi. replace n with (n - i + i)%nat at 2 by lia. rewrite fpow_add.
    transitivity (f i * fpow X (n - i) * (fpow X i * fpow x i)); [rewrite fpow_inv by done; ring|ring].
  - intros i Hi. rewrite Hf by lia. ring.
Qed.

Lemma mul1_conv_geo X f n : mul1 X (conv f (fpow X)) n = f n.
Proof. rewrite <- conv_mul1_l. apply conv_geo. Qed.

Lemma loc_unique ts f :
  NoDup (map fst ts) -> Forall (fun t => fst t <> 0) ts ->
  (forall i, (length ts < i)%nat -> f i = 0) ->
  (forall t x, t ∈ ts -> fst t * x = 1 -> peval (S (length ts)) f x = 0) ->
  forall n, f n = f 0%nat * locS ts n.
Proof.
  revert f. induction ts as [|[X Y] ts IH]; intros f Hnd Hnz Hs Hz n.
  { cbn [locS]. destruct n; cbn [delta]; [ring|]. rewrite (Hs (S n)) by (simpl; lia). ring. }
  cbn [map fst] in Hnd. apply list.NoDup_cons in Hnd as [HX Hnd].
  inversion Hnz as [|? ? HX0 Hnz']; subst. cbn [fst length] in *.
  assert (Hinv : X * finv X = 1) by (transitivity (finv X * X); [ring|by apply fmul_inv]).
  set (g := conv f (fpow X)).
  assert (Hg : forall i, mul1 X g i = f i) by (intros i; apply mul1_conv_geo).
  assert (Hgs : forall i, (length ts < i)%nat -> g i = 0).
  { intros i Hi. unfold g. rewrite (conv_geo_eval f X (finv X) (S (length ts)));
      [|done|lia|done]. rewrite (Hz (X, Y)); [ring|left|done]. }
  assert (E : forall i, g i = g 0%nat * locS ts i).
  { apply IH; [done|done|done|]. intros t x Ht Hx.
    pose proof (Hz t x ltac:(by right) Hx) as E.
    rewrite (peval_ext _ _ (mul1 X g)) in E by (intros; symmetry; apply Hg).
    rewrite peval_mul1 in E by (intros i Hi; apply Hgs; lia).
    apply fmul_integral in E as [E|E]; [|done]. exfalso. apply HX.
    apply (proj1 (fadd_eq_0 _ _)) in E.
    assert (X = fst t) as ->.
    { transitivity (X * (fst t * x)); [rewrite Hx; ring|].
      transitivity (fst t * (X * x)); [ring|]. rewrite <- E. ring. }
    apply list_elem_of_In, in_map. by apply list_elem_of_In. }
  rewrite <- (Hg n), <- (Hg 0%nat). cbn [locS fst]. unfold mul1.
  rewrite (E n). destruct n as [|n]; cbn [xs]; [rewrite locS_0; ring|]. rewrite (E n). ring.
Qed.

(** ** Berlekamp-Massey, algebraically

    The invariant of the algorithm as an approximation property: after [r]
    syndromes, [lam] of length [L] annihilates them up to a polynomial of
    degree below [L], and [b] is the best failed attempt, normalised.  When
    the syndromes are those of at most eight errors, the invariant at
    [r] = 16 forces [lam] to be the error locator. *)

Local Open Scope gf_scope.

Definition at_eq (r n : nat) : gf := if Nat.eqb n r then 1 else 0.

Definition bm_alg (Sy : series) (r L : nat) (lam b : series) : Prop :=
  (L <= r)%nat /\ lam 0%nat = 1 /\
  (forall i, (L < i)%nat -> lam i = 0) /\
  (forall i, (r < i + L)%nat -> b i = 0) /\
  exists om th : series,
    (forall i, (L <= i)%nat -> om i = 0) /\
    (forall i, (r < i + L)%nat -> th i = 0) /\
    (forall n, (n < r)%nat -> conv lam Sy n = om n) /\
    (forall n, (n <= r)%nat -> conv (xs b) Sy n = th n + at_eq r n).

Lemma bm_alg_init Sy : bm_alg Sy 0 0 delta delta.
Proof.
  split_and!; try done.
  - intros [|i] Hi; [lia|done].
  - intros [|i] Hi; [lia|done].
  - exists (fun _ => 0), delta. split_and!; try done.
    + intros [|i] Hi; [lia|done].
    + intros n Hn. lia.
    + intros n Hn. assert (n = 0%nat) as -> by lia. rewrite conv_xs_l. cbn. by rewrite fadd_self.
Qed.

(** [b] shifted keeps its role one step later. *)
Lemma xs_step Sy r b th n :
  (forall n, (n <= r)%nat -> conv (xs b) Sy n = th n + at_eq r n) ->
  (n <= S r)%nat -> conv (xs (xs b)) Sy n = xs th n + at_eq (S r) n.
Proof.
  intros H Hn. rewrite conv_xs_l. destruct n as [|n]; cbn [xs].
  - unfold at_eq. cbn. ring.
  - rewrite H by lia. unfold at_eq. cbn [Nat.eqb]. done.
Qed.

Lemma bm_alg_zero Sy r L lam b :
  bm_alg Sy r L lam b -> conv lam Sy r = 0 -> bm_alg Sy (S r) L lam (xs b).
Proof.
  intros (HL & H0 & Hl & Hb & om & th & Hom & Hth & Ha & Hc) Hd.
  split_and!; [lia|done|done| |].
  - intros [|i] Hi; cbn [xs]; [done|]. apply Hb. lia.
  - exists om, (xs th). split_and!; [done| | |].
    + intros [|i] Hi; cbn [xs]; [done|]. apply Hth. lia.
    + intros n Hn. destruct (decide (n = r)) as [->|]; [|apply Ha; lia].
      rewrite Hd, Hom; [done|lia].
    + intros n Hn. by eapply xs_step.
Qed.

(** The update of the locator, common to the two cases below. *)
Lemma lam_update Sy r L lam b om th d n :
  (L <= r)%nat -> (forall i, (L <= i)%nat -> om i = 0) ->
  (forall n, (n < r)%nat -> conv lam Sy n = om n) ->
  (forall n, (n <= r)%nat -> conv (xs b) Sy n = th n + at_eq r n) ->
  conv lam Sy r = d -> (n < S r)%nat ->
  conv (fun i => lam i + d * xs b i) Sy n = om n + d * th n.
Proof.
  intros HL Hom Ha Hc Hd Hn. rewrite conv_add_l, conv_scale_l, Hc by lia. unfold at_eq.
  destruct (Nat.eqb_spec n r) as [->|].
  - rewrite Hd, Hom by lia. transitivity (d + d + d * th r); [ring|]. rewrite fadd_self. ring.
  - rewrite Ha by lia. ring.
Qed.

Lemma bm_alg_keep Sy r L lam b d :
  bm_alg Sy r L lam b -> conv lam Sy r = d -> (r < 2 * L)%nat ->
  bm_alg Sy (S r) L (fun i => lam i + d * xs b i) (xs b).
Proof.
  intros (HL & H0 & Hl & Hb & om & th & Hom & Hth & Ha & Hc) Hd H2.
  split_and!; [lia| | | |].
  - cbn [xs]. rewrite H0. ring.
  - intros [|i] Hi; [lia|]. cbn [xs]. rewrite Hl, Hb by lia. ring.
  - intros [|i] Hi; cbn [xs]; [done|]. apply Hb. lia.
  - exists (fun i => om i + d * th i), (xs th). split_and!.
    + intros i Hi. rewrite Hom, Hth by lia. ring.
    + intros [|i] Hi; cbn [xs]; [done|]. apply Hth. lia.
    + intros n Hn. by apply (lam_update Sy r L lam b om th d).
    + intros n Hn. by eapply xs_step.
Qed.

Lemma bm_alg_grow Sy r L lam b d :
  bm_alg Sy r L lam b -> conv lam Sy r = d -> d <> 0 -> (2 * L <= r)%nat ->
  bm_alg Sy (S r) (S r - L) (fun i => lam i + d * xs b i) (fun i => finv d * lam i).
Proof.
  intros (HL & H0 & Hl & Hb & om & th & Hom & Hth & Ha & Hc) Hd Hnz H2.
  split_and!; [lia| | | |].
  - cbn [xs]. rewrite H0. ring.
  - intros [|i] Hi; [lia|]. cbn [xs]. rewrite Hl, Hb by lia. ring.
  - intros i Hi. rewrite Hl by lia. ring.
  - exists (fun i => om i + d * th i), (xs (fun i => finv d * om i)). split_and!.
    + intros i Hi. rewrite Hom, Hth by lia. ring.
    + intros [|i] Hi; cbn [xs]; [done|]. rewrite Hom by lia. ring.
    + intros n Hn. by apply (lam_update Sy r L lam b om th d).
    + intros n Hn. rewrite conv_xs_l. destruct n as [|n]; cbn [xs].
      * unfold at_eq. cbn. ring.
      * rewrite conv_scale_l. unfold at_eq. cbn [Nat.eqb].
        destruct (Nat.eqb_spec n r) as [->|].
        -- rewrite Hd, fmul_inv, Hom by (done || lia). ring.
        -- rewrite Ha by lia. ring.
Qed.

(** The register never outgrows the number of errors. *)
Lemma bm_alg_bound ts r L lam b :
  bm_alg (fun n => msum n ts) r L lam b -> (L <= length ts)%nat.
Proof.
  intros (HL & H0 & Hl & Hb & om & th & Hom & Hth & Ha & Hc).
  destruct (decide (L <= length ts)%nat) as [|Hgt]; [done|exfalso].
  set (Sy := fun n => msum n ts) in *.
  assert (E1 : conv (locS ts) (conv (xs b) Sy) r = 0).
  { rewrite conv_exchange.
    rewrite (conv_ext _ (xs b) _ (evaS ts)) by (done || intros; apply loc_key).
    apply conv_zero. intros [|i] Hi; [by left|]. cbn [xs].
    destruct (decide (r < i + L)%nat); [left; by apply Hb|right; apply evaS_support; lia]. }
  rewrite (conv_ext _ (locS ts) _ (fun n => th n + at_eq r n)) in E1 by (done || intros; apply Hc; lia).
  rewrite conv_add_r in E1.
  rewrite (conv_zero (locS ts) th) in E1.
  2:{ intros i Hi. destruct (decide (length ts < i)%nat); [left; by apply locS_support|].
      right. apply Hth. lia. }
  unfold conv in E1. rewrite gsum_first, gsum_zero in E1.
  2:{ intros i Hi. unfold at_eq. destruct (Nat.eqb_spec (r - S i) r); [lia|]. ring. }
  rewrite Nat.sub_0_r, locS_0 in E1. unfold at_eq in E1. rewrite Nat.eqb_refl in E1.
  assert (E2 : (1 : gf) = 0) by (rewrite <- E1; ring). by apply (f_equal gv) in E2.
Qed.

Lemma conv_msum f ts n :
  conv f (fun n => msum n ts) n = foldr (fun t s => snd t * conv f (fpow (fst t)) n + s) 0 ts.
Proof.
  induction ts as [|[X Y] ts IH]; cbn [foldr fst snd].
  - apply conv_zero. intros. by right.
  - rewrite <- IH, <- conv_scale_r, <- conv_add_r. done.
Qed.

(** A pattern of at most eight errors: distinct locations, no zero. *)
Definition pattern (ts : list (gf * gf)) : Prop :=
  NoDup (map fst ts) /\ Forall (fun t => fst t <> 0 /\ snd t <> 0) ts /\ (length ts <= 8)%nat.

Lemma fpow_nz X n : X <> 0 -> fpow X n <> 0.
Proof.
  intros HX. induction n as [|n IH]; cbn [fpow].
  - intros E. by apply (f_equal gv) in E.
  - intros [E|E]%fmul_integral; done.
Qed.

(** The locator vanishes at the inverse of every location. *)
Lemma bm_alg_roots ts L lam b :
  pattern ts -> bm_alg (fun n => msum n ts) 16 L lam b ->
  Forall (fun t => peval (S L) lam (finv (fst t)) = 0) ts.
Proof.
  intros (Hnd & Hnz & H8) A. pose proof (bm_alg_bound _ _ _ _ _ A) as HL.
  destruct A as (_ & _ & Hl & _ & om & _ & Hom & _ & Ha & _).
  set (ts' := map (fun t => (fst t, snd t * peval (S L) lam (finv (fst t)) * fpow (fst t) L)) ts).
  assert (F : Forall (fun t => snd t = 0) ts').
  { apply vandermonde.
    - unfold ts'. rewrite map_map. done.
    - unfold ts'. rewrite length_map. intros k Hk.
      pose proof (Ha (L + k)%nat ltac:(lia)) as E. rewrite Hom in E by lia.
      rewrite conv_msum in E. rewrite <- E. clear -Hnz Hl. unfold msum.
      induction Hnz as [|[X Y] ts [HX HY] Hnz IH]; [done|]. cbn [map foldr fst snd] in *.
      rewrite IH. f_equal. rewrite (conv_geo_eval lam X (finv X) L); [|..|lia|done].
      + rewrite fpow_add. ring.
      + transitivity (finv X * X); [ring|by apply fmul_inv]. }
  unfold ts' in F. rewrite Forall_map in F. rewrite !Forall_forall in *.
  intros t Ht. specialize (F t Ht). specialize (Hnz t Ht) as [HX HY]. cbn [snd] in F.
  apply fmul_integral in F as [F|F]; [|by apply fpow_nz in F].
  by apply fmul_integral in F as [F|F].
Qed.

(** At most eight errors: the result is the error locator. *)
Theorem bm_alg_locator ts L lam b :
  pattern ts -> bm_alg (fun n => msum n ts) 16 L lam b -> forall n, lam n = locS ts n.
Proof.
  intros P A n. pose proof (bm_alg_roots _ _ _ _ P A) as R.
  pose proof (bm_alg_bound _ _ _ _ _ A) as HL. destruct P as (Hnd & Hnz & H8).
  destruct A as (_ & H0 & Hl & _).
  rewrite (loc_unique ts lam); [rewrite H0; ring|done| | |].
  - eapply Forall_impl; [|exact Hnz]. by intros ? [? _].
  - intros i Hi. apply Hl. lia.
  - intros t x Ht Hx.
    assert (x = finv (fst t)) as ->.
    { rewrite Forall_forall in Hnz. destruct (Hnz t) as [HX _]; [by apply list_elem_of_In|].
      transitivity (finv (fst t) * fst t * x); [rewrite fmul_inv by done; ring|].
      transitivity (finv (fst t) * (fst t * x)); [ring|]. rewrite Hx. ring. }
    rewrite (peval_support (S L)) by (lia || intros; apply Hl; lia).
    rewrite Forall_forall in R. apply R. by apply list_elem_of_In.
Qed.
