(* ===== verification/BmCode.v ===== *)
(** * Berlekamp-Massey as coded

    The rounds of [berlekamp_massey] (symbols and logarithms in byte
    arrays) implement the algebraic steps of BmAlgebra. *)

From Stdlib Require Import Ring.
From S2P Require Import Prelude RsInit GF RsTheory RsCode RsCorrect RsDecode BmAlgebra.

(** A byte array as a series; an array of logarithms as one. *)
Definition ser (l : list Z) : series := fun i => to_gf (getb l (Z.of_nat i)).
Definition alog (x : Z) : gf := to_gf (getb (alpha_to codec) x).
Definition ixs (l : list Z) : series :=
  fun i => if (i <=? 16)%nat then alog (getb l (Z.of_nat i)) else fz.

Definition logs (l : list Z) : Prop := forall i, 0 <= i -> 0 <= getb l i <= 255.

Lemma alog_255 : alog 255 = fz.
Proof. by apply gf_eq. Qed.

Lemma alog_fexp x : 0 <= x < 255 -> alog x = fexp x.
Proof.
  intros Hx. unfold alog. rewrite <- to_gf_gexp. f_equal. unfold gexp. by rewrite Z.mod_small.
Qed.

Lemma alog_glog x : is_byte x -> alog (glog x) = to_gf x.
Proof. intros Hx. unfold alog. f_equal. by apply alpha_index. Qed.

Lemma alog_mod x : alog (x mod 255) = fexp x.
Proof. rewrite alog_fexp by (apply Z.mod_pos_bound; lia). apply fexp_mod. Qed.

Lemma fexp_glog x : 0 < x < 256 -> fexp (glog x) = to_gf x.
Proof. intros Hx. rewrite <- to_gf_gexp. f_equal. by apply gexp_glog. Qed.

(** The guarded multiply-accumulate every loop of the decoder uses. *)
Lemma mac_spec acc x y :
  is_byte acc -> is_byte x -> 0 <= y <= 255 ->
  (if negb (x =? 0) && negb (y =? 255) then Z.lxor acc (gexp (glog x + y)) else acc)
  = gv (to_gf acc + to_gf x * alog y)%gf.
Proof.
  intros Ha Hx Hy. destruct (x =? 0) eqn:Ex; cbn [negb andb].
  { apply Z.eqb_eq in Ex as ->. rewrite to_gf_0.
    transitivity (gv (to_gf acc)); [symmetry; by apply gv_to_gf|f_equal; ring]. }
  apply Z.eqb_neq in Ex. destruct (y =? 255) eqn:Ey; cbn [negb andb].
  { apply Z.eqb_eq in Ey as ->. rewrite alog_255.
    transitivity (gv (to_gf acc)); [symmetry; by apply gv_to_gf|f_equal; ring]. }
  apply Z.eqb_neq in Ey. rewrite alog_fexp by lia. rewrite <- (fexp_glog x) by (unfold is_byte in Hx; lia).
  rewrite fexp_add, <- to_gf_gexp, <- to_gf_lxor by (done || apply gexp_byte).
  rewrite gv_to_gf; [done|]. apply is_byte_lxor; [done|apply gexp_byte].
Qed.

Section bm.
Context (Sy : series) (s : list Z).
Context (Hs : forall j, 0 <= j < 16 -> 0 <= getb s j <= 255 /\ alog (getb s j) = Sy (Z.to_nat j)).

Lemma bm_discr_spec lambda r :
  bytes lambda -> 1 <= r <= 16 ->
  bm_discr codec lambda s r = gv (conv (ser lambda) Sy (Z.to_nat (r - 1))).
Proof.
  intros Hl Hr. unfold bm_discr, conv.
  set (F := fun i => (ser lambda i * Sy (Z.to_nat (r - 1) - i)%nat)%gf).
  replace (S (Z.to_nat (r - 1))) with (Z.to_nat r) by lia.
  apply (foldl_upto_ind _ (fun n acc => acc = gv (gsum (Z.to_nat n) F))); [lia|done|].
  intros i acc Hi ->. destruct (Hs (r - i - 1)) as [Hrange Es]; [lia|].
  autorewrite with rs. rewrite mac_spec by (auto using gv_byte with bytes).
  f_equal. rewrite to_gf_gv, Es. replace (Z.to_nat (i + 1)) with (S (Z.to_nat i)) by lia.
  cbn [gsum]. f_equal. unfold F, ser. rewrite Z2Nat.id by lia. f_equal. f_equal. lia.
Qed.

(** The invariant on the arrays. *)
Definition bm_inv (r : Z) (st : bm_state) : Prop :=
  zlen (bm_lambda st) = 17 /\ bytes (bm_lambda st) /\
  zlen (bm_b st) = 17 /\ logs (bm_b st) /\ 0 <= bm_el st /\
  bm_alg Sy (Z.to_nat r) (Z.to_nat (bm_el st)) (ser (bm_lambda st)) (ixs (bm_b st)).

Lemma bm_alg_ext r L lam lam' b b' :
  (forall i, lam i = lam' i) -> (forall i, b i = b' i) -> bm_alg Sy r L lam b -> bm_alg Sy r L lam' b'.
Proof.
  intros El Eb (HL & H0 & Hl & Hb & om & th & Hom & Hth & Ha & Hc). split_and!.
  - done.
  - by rewrite <- El.
  - intros i Hi. rewrite <- El. by apply Hl.
  - intros i Hi. rewrite <- Eb. by apply Hb.
  - exists om, th. split_and!; [done|done| |].
    + intros n Hn. rewrite <- Ha by done. by apply conv_ext.
    + intros n Hn. rewrite <- Hc by done. apply conv_ext; [|done].
      intros [|i] _; cbn [xs]; [done|]. by rewrite Eb.
Qed.

Lemma getb_cons_S x l i : getb (x :: l) (Z.of_nat (S i)) = getb l (Z.of_nat i).
Proof. unfold getb. rewrite !Nat2Z.id. done. Qed.

Lemma shift_ixs b : zlen b = 17 -> ixs b 16%nat = fz ->
  forall i, xs (ixs b) i = ixs (bm_shift codec b) i.
Proof.
  intros Hb H16 [|i]; cbn [xs].
  { unfold ixs. cbn [Nat.leb]. change (getb (bm_shift codec b) (Z.of_nat 0)) with 255.
    by rewrite alog_255. }
  unfold ixs at 2, bm_shift. rewrite getb_cons_S. change (nroots codec) with 16.
  destruct (S i <=? 16)%nat eqn:E.
  - apply Nat.leb_le in E. rewrite getb_slice by lia. unfold ixs.
    destruct (i <=? 16)%nat eqn:E'; [done|]. apply Nat.leb_gt in E'. lia.
  - apply Nat.leb_gt in E. destruct (decide (i = 16)%nat) as [->|]; [done|].
    unfold ixs. destruct (i <=? 16)%nat eqn:E'; [apply Nat.leb_le in E'; lia|done].
Qed.

Lemma shift_logs b : zlen b = 17 -> logs b -> zlen (bm_shift codec b) = 17 /\ logs (bm_shift codec b).
Proof.
  intros Hb Hl. unfold bm_shift. change (nroots codec) with 16. split.
  - rewrite zlen_cons, zlen_slice by lia. done.
  - intros i Hi. rewrite getb_cons by lia. case_decide; [change (nn codec) with 255; lia|].
    destruct (decide (i - 1 < 16)); [rewrite getb_slice by lia; apply Hl; lia|].
    rewrite getb_slice_ge by lia. lia.
Qed.

(** The updated locator. *)
Definition bm_t (lambda b : list Z) (discr_r : Z) : list Z :=
  getb lambda 0 :: map (fun i =>
    if getb b i =? nn codec then getb lambda (i + 1)
    else Z.lxor (getb lambda (i + 1)) (getb (alpha_to codec) (rs_modnn codec (discr_r + getb b i))))
    (upto (nroots codec)).

Lemma t_entry x d y :
  is_byte x -> 0 < d < 256 -> 0 <= y <= 255 ->
  (if y =? 255 then x else Z.lxor x (gexp (glog d + y))) = gv (to_gf x + to_gf d * alog y)%gf.
Proof.
  intros Hx Hd Hy. rewrite <- mac_spec by (done || unfold is_byte; lia).
  destruct (d =? 0) eqn:E; [lia|]. cbn [negb andb]. by destruct (y =? 255).
Qed.

Lemma bm_t_spec lambda b d :
  zlen lambda = 17 -> bytes lambda -> zlen b = 17 -> logs b -> 0 < d < 256 -> ixs b 16%nat = fz ->
  zlen (bm_t lambda b (glog d)) = 17 /\ bytes (bm_t lambda b (glog d)) /\
  forall i, (ser lambda i + to_gf d * xs (ixs b) i)%gf = ser (bm_t lambda b (glog d)) i.
Proof.
  intros Hl Bl Hb Lb Hd H16. unfold bm_t. autorewrite with rs.
  assert (E : forall i, 0 <= i < 16 ->
    (if getb b i =? 255 then getb lambda (i + 1)
     else Z.lxor (getb lambda (i + 1)) (getb (alpha_to codec) (rs_modnn codec (glog d + getb b i))))
    = gv (to_gf (getb lambda (i + 1)) + to_gf d * alog (getb b i))%gf).
  { intros i Hi. rewrite alpha_modnn.
    apply t_entry; [auto with bytes|done|apply Lb; lia]. }
  split_and!.
  - zlen.
  - apply bytes_cons. split; [auto with bytes|]. apply Forall_map, Forall_forall.
    intros i Hi%list_elem_of_In%elem_of_upto. rewrite E by done. apply gv_byte.
  - intros [|i]; cbn [xs].
    { unfold ser. change (getb (getb lambda 0 :: _) (Z.of_nat 0)) with (getb lambda 0).
      change (Z.of_nat 0) with 0. ring. }
    unfold ser at 2. rewrite getb_cons_S. destruct (decide (i < 16)%nat).
    + rewrite getb_map by zlen. rewrite getb_upto by lia. rewrite E by lia. rewrite to_gf_gv.
      unfold ser, ixs. destruct (i <=? 16)%nat eqn:E'; [|apply Nat.leb_gt in E'; lia].
      by replace (Z.of_nat (S i)) with (Z.of_nat i + 1) by lia.
    + rewrite getb_beyond by zlen. unfold ser. rewrite getb_beyond by lia.
      assert (ixs b i = fz) as ->.
      { destruct (decide (i = 16)%nat) as [->|]; [done|]. unfold ixs.
        destruct (i <=? 16)%nat eqn:E'; [apply Nat.leb_le in E'; lia|done]. }
      rewrite to_gf_0. ring.
Qed.

(** The normalised copy of the old locator. *)
Definition bm_newb (lambda : list Z) (discr_r : Z) : list Z :=
  map (fun i => if getb lambda i =? 0 then nn codec
    else rs_modnn codec (getb (index_of codec) (getb lambda i) - discr_r + nn codec))
    (upto (nroots codec + 1)).

Lemma bm_newb_spec lambda d :
  zlen lambda = 17 -> bytes lambda -> 0 < d < 256 ->
  zlen (bm_newb lambda (glog d)) = 17 /\ logs (bm_newb lambda (glog d)) /\
  forall i, (finv (to_gf d) * ser lambda i)%gf = ixs (bm_newb lambda (glog d)) i.
Proof.
  intros Hl Bl Hd. unfold bm_newb. change (nroots codec + 1) with 17. autorewrite with rs.
  assert (R : forall i, 0 <= (if getb lambda i =? 0 then 255 else
      rs_modnn codec (getb (index_of codec) (getb lambda i) - glog d + 255)) <= 255).
  { intros i. destruct (_ =? 0); [lia|]. rewrite modnn_codec.
    match goal with |- context [?a mod 255] => pose proof (Z.mod_pos_bound a 255) end. lia. }
  split_and!.
  - zlen.
  - intros i Hi. destruct (decide (i < 17)); [rewrite getb_map by zlen; apply R|].
    rewrite getb_beyond by zlen. lia.
  - intros i. unfold ixs. destruct (i <=? 16)%nat eqn:E.
    + apply Nat.leb_le in E. rewrite getb_map by zlen. rewrite getb_upto by lia. unfold ser.
      destruct (getb lambda (Z.of_nat i) =? 0) eqn:Ez.
      * apply Z.eqb_eq in Ez as ->. rewrite alog_255, to_gf_0. ring.
      * apply Z.eqb_neq in Ez. rewrite modnn_codec, alog_mod, index_glog.
        assert (Hx : is_byte (getb lambda (Z.of_nat i))) by auto with bytes.
        replace (glog (getb lambda (Z.of_nat i)) - glog d + 255)
          with ((255 - glog d) + glog (getb lambda (Z.of_nat i))) by lia.
        rewrite <- fexp_add, fexp_glog by (unfold is_byte in Hx; lia).
        unfold finv. by rewrite gv_to_gf by lia.
    + apply Nat.leb_gt in E. unfold ser. rewrite getb_beyond by lia. rewrite to_gf_0. ring.
Qed.

Lemma bm_round_spec r st :
  0 <= r < 16 -> bm_inv r st -> bm_inv (r + 1) (bm_round codec s st (r + 1)).
Proof.
  intros Hr (Hl & Bl & Hb & Lb & He & A). destruct st as [lambda b el].
  cbn [bm_lambda bm_b bm_el] in *. unfold bm_round.
  set (d := bm_discr codec lambda s (r + 1)).
  assert (Ed : conv (ser lambda) Sy (Z.to_nat r) = to_gf d).
  { unfold d. rewrite bm_discr_spec by (done || lia). rewrite to_gf_gv. do 2 f_equal. lia. }
  assert (Hd : is_byte d) by (unfold d; rewrite bm_discr_spec by (done || lia); apply gv_byte).
  assert (Hel : (Z.to_nat el <= Z.to_nat r)%nat) by (by destruct A as (? & _)).
  assert (H16 : ixs b 16%nat = fz) by (destruct A as (_ & _ & _ & H & _); apply H; lia).
  replace (Z.to_nat (r + 1)) with (S (Z.to_nat r)) in * by lia.
  destruct (shift_logs b Hb Lb) as [Hsb Lsb].
  rewrite index_glog. change (nn codec) with 255 at 1.
  destruct (glog d =? 255) eqn:E0.
  - apply Z.eqb_eq in E0. apply glog_nn_iff in E0; [|done]. rewrite E0, to_gf_0 in Ed.
    unfold bm_inv. cbn [bm_lambda bm_b bm_el]. split_and!; try done.
    replace (Z.to_nat (r + 1)) with (S (Z.to_nat r)) by lia.
    eapply bm_alg_ext; [done| |by apply bm_alg_zero]. by apply shift_ixs.
  - apply Z.eqb_neq in E0. rewrite glog_nn_iff in E0 by done.
    assert (Hd' : 0 < d < 256) by (unfold is_byte in Hd; lia).
    destruct (bm_t_spec lambda b d Hl Bl Hb Lb Hd' H16) as (T1 & T2 & T3).
    fold (bm_t lambda b (glog d)). fold (bm_newb lambda (glog d)).
    destruct (2 * el <=? r + 1 - 1) eqn:E2; unfold bm_inv; cbn [bm_lambda bm_b bm_el];
      replace (Z.to_nat (r + 1)) with (S (Z.to_nat r)) by lia.
    + destruct (bm_newb_spec lambda d Hl Bl Hd') as (N1 & N2 & N3). split_and!; try done; [lia|].
      replace (Z.to_nat (r + 1 - el)) with (S (Z.to_nat r) - Z.to_nat el)%nat by lia.
      eapply bm_alg_ext; [exact T3|exact N3|]. apply (bm_alg_grow _ _ _ _ _ _ A Ed); [|lia].
      rewrite <- to_gf_0. intros E. apply to_gf_inj in E; [lia|done|unfold is_byte; lia].
    + split_and!; try done. eapply bm_alg_ext; [exact T3|by apply shift_ixs|].
      apply (bm_alg_keep _ _ _ _ _ _ A Ed). lia.
Qed.

Lemma bm_inv_init :
  bm_inv 0 {| bm_lambda := 1 :: zeros (nroots codec);
              bm_b := map (fun c => getb (index_of codec) c) (1 :: zeros (nroots codec));
              bm_el := 0 |}.
Proof.
  unfold bm_inv. cbn [bm_lambda bm_b bm_el]. split_and!; try done.
  - bytes_list.
  - intros i _. apply (forallb_getb (fun x => (0 <=? x) && (x <=? 255)) (fun x => 0 <= x <= 255)); [lia|done|done].
  - eapply bm_alg_ext; [| |apply bm_alg_init].
    + intros i. do 17 (destruct i as [|i]; [by apply gf_eq|]).
      unfold ser. rewrite getb_beyond; [by apply gf_eq|]. change (zlen _) with 17. lia.
    + intros i. do 17 (destruct i as [|i]; [by apply gf_eq|]). done.
Qed.

Theorem berlekamp_massey_spec : bm_inv 16 (berlekamp_massey codec s).
Proof.
  unfold berlekamp_massey. change (nroots codec) with 16 at 3.
  replace (seqZ 1 16) with (map (fun i => i + 1) (upto 16)) by done.
  rewrite foldl_map. apply (foldl_upto_ind _ bm_inv); [lia|apply bm_inv_init|].
  intros i st Hi H. by apply bm_round_spec.
Qed.
End bm.
