(* ===== verification/RsComplete.v ===== *)
(** * Completeness of the decoder

    When a word is at distance at most eight from a codeword, the decoder
    finds it: Berlekamp-Massey gives the locator, the Chien search its
    roots, Forney's formula the values, and the verification accepts. *)

From Stdlib Require Import Ring.
From S2P Require Import Prelude RsInit GF RsTheory RsCode RsCorrect RsDecode RsLib BmAlgebra BmCode.

(** ** Sums over lists *)

Definition lsum {A} (f : A -> gf) (l : list A) : gf := foldr (fun x s => (f x + s)%gf) fz l.

Lemma lsum_perm {A} (f : A -> gf) l l' : l ≡ₚ l' -> lsum f l = lsum f l'.
Proof.
  induction 1 as [|x l l' _ IH|x y l|l1 l2 l3 _ IH1 _ IH2]; unfold lsum in *; cbn [foldr].
  - done.
  - by rewrite IH.
  - ring.
  - by rewrite IH1.
Qed.

Lemma lsum_ext {A} (f g : A -> gf) l : (forall x, x ∈ l -> f x = g x) -> lsum f l = lsum g l.
Proof.
  intros H. unfold lsum. induction l as [|x l IH]; cbn [foldr]; [done|].
  rewrite H by left. rewrite IH; [done|]. intros y Hy. apply H. by right.
Qed.

Lemma lsum_map {A B} (f : B -> gf) (g : A -> B) l : lsum f (map g l) = lsum (fun x => f (g x)) l.
Proof. unfold lsum. induction l as [|x l IH]; cbn [map foldr]; [done|]. by rewrite IH. Qed.

Lemma seqZ_snoc a (m : nat) : seqZ a (Z.of_nat (S m)) = seqZ a (Z.of_nat m) ++ [a + Z.of_nat m].
Proof.
  replace (Z.of_nat (S m)) with (Z.of_nat m + 1) by lia. rewrite seqZ_app by lia. done.
Qed.

Lemma lsum_rev_seqZ (f : Z -> gf) a (m : nat) :
  lsum f (reverse (seqZ a (Z.of_nat m))) = gsum m (fun i => f (a + Z.of_nat i)).
Proof.
  induction m as [|m IH]; [done|]. rewrite seqZ_snoc, reverse_snoc. cbn [lsum foldr gsum].
  fold (lsum f (reverse (seqZ a (Z.of_nat m)))). rewrite IH. ring.
Qed.

(** ** The Chien polynomial evaluation *)

Definition chien_next (x j : Z) : Z := if x =? 255 then 255 else (x + j) mod 255.

Definition chien_step : Z * list Z -> Z -> Z * list Z := fun '(q, reg) j =>
  if getb reg j =? nn codec then (q, reg)
  else let reg := setb reg j (rs_modnn codec (getb reg j + j)) in
       (Z.lxor q (getb (alpha_to codec) (getb reg j)), reg).

Lemma chien_fold js q reg :
  zlen reg = 17 -> is_byte q -> NoDup js -> Forall (fun j => 0 <= j < 17) js ->
  (forall j, 0 <= j < 17 -> 0 <= getb reg j <= 255) ->
  let '(q', reg') := foldl chien_step (q, reg) js in
  q' = gv (to_gf q + lsum (fun j => alog (chien_next (getb reg j) j)) js)%gf /\
  zlen reg' = 17 /\
  forall j, 0 <= j < 17 -> getb reg' j = if decide (j ∈ js) then chien_next (getb reg j) j else getb reg j.
Proof.
  revert q reg. induction js as [|j js IH]; intros q reg Hz Hq Hnd Hjs Hr.
  { cbn [foldl lsum foldr]. split_and!; [|done|].
    - transitivity (gv (to_gf q)); [symmetry; by apply gv_to_gf|f_equal; ring].
    - intros k Hk. case_decide as D; [by apply elem_of_nil in D|done]. }
  apply list.NoDup_cons in Hnd as [Hj Hnd]. inversion Hjs as [|? ? Hj17 Hjs']; subst.
  cbn [foldl].
  assert (E : exists q' reg', chien_step (q, reg) j = (q', reg') /\ is_byte q' /\ zlen reg' = 17 /\
    q' = gv (to_gf q + alog (chien_next (getb reg j) j))%gf /\
    (forall k, 0 <= k < 17 -> getb reg' k = if decide (k = j) then chien_next (getb reg k) k else getb reg k)).
  { unfold chien_step, chien_next. change (nn codec) with 255.
    destruct (getb reg j =? 255) eqn:E.
    - exists q, reg. split_and!; try done.
      + rewrite alog_255. transitivity (gv (to_gf q)); [symmetry; by apply gv_to_gf|f_equal; ring].
      + intros k Hk. case_decide as D; [subst; rewrite E; lia|done].
    - exists (Z.lxor q (gexp (getb reg j + j))), (setb reg j ((getb reg j + j) mod 255)).
      rewrite modnn_codec, getb_setb_eq by lia.
      assert (B : is_byte (Z.lxor q (gexp (getb reg j + j)))) by (apply is_byte_lxor; [done|apply gexp_byte]).
      split_and!; try done.
      + by rewrite zlen_setb.
      + rewrite alog_mod, <- to_gf_gexp, <- to_gf_lxor by (done || apply gexp_byte).
        by rewrite gv_to_gf.
      + intros k Hk. case_decide as D.
        * subst. rewrite E. apply getb_setb_eq. lia.
        * apply getb_setb_ne; lia. }
  destruct E as (q' & reg' & -> & Bq & Hz' & Eq & Er).
  assert (Hr' : forall k, 0 <= k < 17 -> 0 <= getb reg' k <= 255).
  { intros k Hk. rewrite Er by done. case_decide; [|by apply Hr]. unfold chien_next.
    destruct (_ =? 255); [lia|]. pose proof (Z.mod_pos_bound (getb reg k + k) 255). lia. }
  specialize (IH q' reg' Hz' Bq Hnd Hjs' Hr').
  destruct (foldl chien_step (q', reg') js) as [q2 reg2]. destruct IH as (I1 & I2 & I3). split_and!.
  - rewrite I1, Eq, to_gf_gv. f_equal. cbn [lsum foldr]. fold (lsum (fun j => alog (chien_next (getb reg j) j)) js).
    rewrite (lsum_ext (fun j => alog (chien_next (getb reg' j) j)) (fun j => alog (chien_next (getb reg j) j))).
    + ring.
    + intros k Hk. rewrite Er; [|rewrite Forall_forall in Hjs'; by apply Hjs', list_elem_of_In].
      rewrite decide_False; [done|]. intros ->. done.
  - done.
  - intros k Hk. rewrite I3, Er by done. destruct (decide (k = j)) as [->|].
    + rewrite (decide_False (P := j ∈ js)) by done. rewrite decide_True; [done|left].
    + destruct (decide (k ∈ js)).
      * rewrite decide_True; [done|by right].
      * rewrite decide_False; [done|]. by intros [?|?]%elem_of_cons.
Qed.

(** A loop that XORs terms into an accumulator is a sum. *)
Lemma foldl_xor_sum (f : Z -> Z -> Z) (F : Z -> gf) (l : list Z) (a : Z) :
  is_byte a -> (forall acc j, is_byte acc -> j ∈ l -> f acc j = gv (to_gf acc + F j)%gf) ->
  foldl f a l = gv (to_gf a + lsum F l)%gf.
Proof.
  revert a. induction l as [|j l IH]; intros a Ha H; cbn [foldl lsum foldr].
  - transitivity (gv (to_gf a)); [symmetry; by apply gv_to_gf|f_equal; ring].
  - rewrite H by (done || left). rewrite IH.
    + rewrite to_gf_gv. f_equal. unfold lsum. ring.
    + apply gv_byte.
    + intros acc k Hk Hin. apply H; [done|by right].
Qed.

(** The guarded product of two logarithms. *)
Lemma mac2_spec acc x y :
  is_byte acc -> 0 <= x <= 255 -> 0 <= y <= 255 ->
  (if negb (x =? 255) && negb (y =? 255) then Z.lxor acc (gexp (x + y)) else acc)
  = gv (to_gf acc + alog x * alog y)%gf.
Proof.
  intros Ha Hx Hy. destruct (x =? 255) eqn:Ex; cbn [negb andb].
  { apply Z.eqb_eq in Ex as ->. rewrite alog_255.
    transitivity (gv (to_gf acc)); [symmetry; by apply gv_to_gf|f_equal; ring]. }
  destruct (y =? 255) eqn:Ey; cbn [negb andb].
  { apply Z.eqb_eq in Ey as ->. rewrite alog_255.
    transitivity (gv (to_gf acc)); [symmetry; by apply gv_to_gf|f_equal; ring]. }
  apply Z.eqb_neq in Ex, Ey. rewrite !alog_fexp by lia.
  rewrite fexp_add, <- to_gf_gexp, <- to_gf_lxor by (done || apply gexp_byte).
  rewrite gv_to_gf; [done|]. apply is_byte_lxor; [done|apply gexp_byte].
Qed.

(** The guarded term of an evaluation. *)
Lemma mac3_spec acc x k :
  is_byte acc -> 0 <= x <= 255 ->
  (if x =? 255 then acc else Z.lxor acc (gexp (x + k))) = gv (to_gf acc + alog x * fexp k)%gf.
Proof.
  intros Ha Hx. destruct (x =? 255) eqn:Ex.
  { apply Z.eqb_eq in Ex as ->. rewrite alog_255.
    transitivity (gv (to_gf acc)); [symmetry; by apply gv_to_gf|f_equal; ring]. }
  apply Z.eqb_neq in Ex. rewrite alog_fexp by lia.
  rewrite fexp_add, <- to_gf_gexp, <- to_gf_lxor by (done || apply gexp_byte).
  rewrite gv_to_gf; [done|]. apply is_byte_lxor; [done|apply gexp_byte].
Qed.

Lemma gsum_even m (f : nat -> gf) :
  (forall i, Nat.even i = false -> f i = fz) -> gsum (2 * m) f = gsum m (fun h => f (2 * h)%nat).
Proof.
  intros H. induction m as [|m IH]; [done|].
  replace (2 * S m)%nat with (S (S (2 * m))) by lia. cbn [gsum]. rewrite IH.
  rewrite (H (S (2 * m))); [ring|]. rewrite Nat.even_succ, <- Nat.negb_even, Nat.even_mul. done.
Qed.

(** ** An error pattern *)

Section pattern.
(** [cs]: value and position of each error in a word of [255 - pad]
    symbols. *)
Context (pad : Z) (Hpad : 0 <= pad < 239) (cs : list (Z * Z)).
Context (Hcs : Forall (fun c => 0 < fst c < 256 /\ 0 <= snd c < 255 - pad) cs).
Context (Hnd : NoDup (map snd cs)) (Hlen : 0 < zlen cs <= 8).

(** Exponent of the location of position [p]. *)
Definition expo (p : Z) : Z := 255 - pad - 1 - p.

Definition ts : list (gf * gf) := map (fun c => (fexp (expo (snd c)), to_gf (fst c))) cs.

Lemma length_ts : Z.of_nat (length ts) = zlen cs.
Proof. unfold ts. by rewrite length_map. Qed.

Lemma cs_in c : c ∈ cs -> 0 < fst c < 256 /\ 0 <= snd c < 255 - pad.
Proof. intros Hc. rewrite Forall_forall in Hcs. by apply Hcs, list_elem_of_In. Qed.

Lemma elem_of_ts t : t ∈ ts <-> exists c, c ∈ cs /\ t = (fexp (expo (snd c)), to_gf (fst c)).
Proof.
  unfold ts. rewrite list_elem_of_In, in_map_iff. split.
  - intros (c & <- & Hc). exists c. split; [by apply list_elem_of_In|done].
  - intros (c & Hc & ->). exists c. split; [done|by apply list_elem_of_In].
Qed.

Lemma ts_nodup : NoDup (map fst ts).
Proof.
  unfold ts. rewrite map_map. cbn [fst]. clear Hlen. induction cs as [|c l IH]; [constructor|].
  cbn [map] in *. apply list.NoDup_cons in Hnd as [Hc Hnd']. inversion Hcs as [|? ? Hc0 Hcs0]; subst.
  constructor; [|by apply IH]. intros Hin. apply Hc.
  apply list_elem_of_In, in_map_iff in Hin as (c' & E & Hin).
  rewrite Forall_forall in Hcs0. pose proof (Hcs0 _ Hin) as Hc'.
  apply fexp_inj in E; unfold expo in *; [|lia|lia].
  apply list_elem_of_In, in_map_iff. exists c'. split; [lia|done].
Qed.

Lemma ts_pattern : pattern ts.
Proof.
  split_and!; [apply ts_nodup| |].
  - apply Forall_forall. intros t Ht%list_elem_of_In. apply elem_of_ts in Ht as (c & Hc & ->).
    cbn [fst snd]. split; [apply fexp_nz|]. rewrite <- to_gf_0. intros E.
    apply to_gf_inj in E; pose proof (cs_in c Hc); unfold is_byte; lia.
  - pose proof length_ts. lia.
Qed.

Context (lambda : list Z) (Hl17 : zlen lambda = 17) (Hlb : bytes lambda).
Context (Hloc : forall n, ser lambda n = locS ts n).

Definition lidx : list Z := map (fun c => getb (index_of codec) c) lambda.

Lemma lidx_spec j : 0 <= j < 17 ->
  getb lidx j = glog (getb lambda j) /\ 0 <= getb lidx j <= 255 /\ alog (getb lidx j) = locS ts (Z.to_nat j).
Proof.
  intros Hj. unfold lidx. rewrite getb_map by lia. rewrite index_glog.
  assert (B : is_byte (getb lambda j)) by auto with bytes. split; [done|]. split.
  - by apply glog_bound.
  - rewrite alog_glog by done. rewrite <- Hloc. unfold ser. by rewrite Z2Nat.id by lia.
Qed.

Lemma lidx_nn j : 0 <= j < 17 -> getb lidx j = 255 <-> locS ts (Z.to_nat j) = fz.
Proof.
  intros Hj. destruct (lidx_spec j Hj) as (E & R & A). split.
  - intros E'. rewrite <- A, E'. apply alog_255.
  - intros E'. destruct (decide (getb lidx j = 255)); [done|].
    rewrite alog_fexp in A by lia. rewrite E' in A. by apply fexp_nz in A.
Qed.

(** The leading coefficient is the product of the locations. *)
Lemma locS_lead (l : list (gf * gf)) : Forall (fun t => fst t <> fz) l -> locS l (length l) <> fz.
Proof.
  induction 1 as [|[X Y] l HX Hl IH]; cbn [locS length].
  - intros E. by apply (f_equal gv) in E.
  - unfold mul1. cbn [xs fst]. rewrite locS_support by lia.
    intros E. assert (E' : (X * locS l (length l))%gf = fz) by (rewrite <- E; ring).
    by apply fmul_integral in E' as [?|?].
Qed.

Lemma deg_index_locator : deg_index codec lidx = zlen cs.
Proof.
  unfold deg_index. change (nroots codec + 1) with 17. change (nn codec) with 255.
  pose proof length_ts as Hts.
  assert (H : (fun n d => (n <= zlen cs -> True) /\ (zlen cs < n -> d = zlen cs)) 17
    (foldl (fun d i => if getb lidx i =? 255 then d else i) 0 (upto 17))); [|apply H; lia].
  set (P := fun n d => (n <= zlen cs -> True) /\ (zlen cs < n -> d = zlen cs)).
  apply (foldl_upto_ind _ P); unfold P; [lia|split; lia|].
  intros i d Hi [_ IH]. split; [done|]. intros Hlt.
  destruct (getb lidx i =? 255) eqn:E.
  - apply Z.eqb_eq, lidx_nn in E; [|done]. apply IH.
    destruct (decide (i = zlen cs)) as [->|]; [|lia].
    exfalso. revert E. replace (Z.to_nat (zlen cs)) with (length ts) by lia. apply locS_lead.
    destruct ts_pattern as (_ & F & _). eapply Forall_impl; [|exact F]. by intros ? [? _].
  - apply Z.eqb_neq in E. destruct (decide (i = zlen cs)) as [->|]; [done|].
    exfalso. apply E, lidx_nn; [done|]. apply locS_support. lia.
Qed.

(** ** Chien *)

Definition reg_at (i : Z) (reg : list Z) : Prop :=
  zlen reg = 17 /\ (forall j, 0 <= j < 17 -> 0 <= getb reg j <= 255) /\
  (forall j, 1 <= j <= zlen cs -> alog (getb reg j) = (locS ts (Z.to_nat j) * fexp (i * j))%gf).

Lemma reg_at_0 : reg_at 0 lidx.
Proof.
  split_and!.
  - unfold lidx. zlen.
  - intros j Hj. apply (lidx_spec j Hj).
  - intros j Hj. destruct (lidx_spec j) as (_ & _ & ->); [lia|].
    replace (0 * j) with 0 by lia. rewrite fexp_0. ring.
Qed.

Lemma chien_next_at i reg j :
  reg_at i reg -> 1 <= j <= zlen cs ->
  alog (chien_next (getb reg j) j) = (locS ts (Z.to_nat j) * fexp ((i + 1) * j))%gf.
Proof.
  intros (_ & R & A) Hj. specialize (A j Hj). specialize (R j ltac:(lia)). unfold chien_next.
  replace ((i + 1) * j) with (i * j + j) by lia. rewrite <- fexp_add.
  destruct (getb reg j =? 255) eqn:E.
  - apply Z.eqb_eq in E. rewrite E, alog_255 in A. rewrite alog_255.
    transitivity (locS ts (Z.to_nat j) * fexp (i * j) * fexp j)%gf; [rewrite <- A; ring|ring].
  - apply Z.eqb_neq in E. rewrite alog_mod, <- fexp_add. rewrite alog_fexp in A by lia. rewrite A. ring.
Qed.

Lemma peval_locator x :
  (fo + gsum (length ts) (fun k => locS ts (S k) * fpow x (S k)))%gf = evL ts x.
Proof.
  rewrite <- peval_loc. unfold peval. rewrite gsum_first, locS_0. cbn [fpow]. ring.
Qed.

Lemma chien_eval_spec i reg :
  reg_at i reg ->
  exists reg', chien_eval codec (zlen cs) reg = (gv (evL ts (fexp (i + 1))), reg') /\ reg_at (i + 1) reg'.
Proof.
  intros Hr. pose proof length_ts as Hts. 
  change (chien_eval codec (zlen cs) reg) with (foldl chien_step (1, reg) (reverse (seqZ 1 (zlen cs)))).
  pose proof (chien_fold (reverse (seqZ 1 (zlen cs))) 1 reg) as F.
  destruct (foldl chien_step (1, reg) (reverse (seqZ 1 (zlen cs)))) as [q reg'].
  destruct F as (F1 & F2 & F3); [apply Hr|unfold is_byte; lia| | |apply Hr|].
  { rewrite reverse_Permutation. apply NoDup_seqZ. }
  { apply Forall_forall. intros j Hj%list_elem_of_In. rewrite elem_of_reverse, elem_of_seqZ in Hj. lia. }
  exists reg'. split.
  - f_equal. rewrite F1. f_equal. rewrite <- Hts, lsum_rev_seqZ, <- peval_locator.
    f_equal; [by apply gf_eq|]. apply gsum_ext. intros k Hk.
    rewrite (chien_next_at i) by (done || lia). rewrite fpow_fexp. f_equal; [f_equal; lia|f_equal; lia].
  - split_and!; [done| |].
    + intros j Hj. rewrite F3 by done. destruct Hr as (_ & R & _). case_decide; [|by apply R].
      unfold chien_next. destruct (_ =? 255); [lia|].
      pose proof (Z.mod_pos_bound (getb reg j + j) 255). lia.
    + intros j Hj. rewrite F3 by lia. rewrite decide_True by (rewrite elem_of_reverse, elem_of_seqZ; lia).
      by apply chien_next_at.
Qed.

Definition is_root (i : Z) : Prop := gv (evL ts (fexp i)) = 0.

Definition roots : list Z := filter is_root (seqZ 1 255).

(** The roots, by error: position [p] has its root at [pad + p + 1]. *)
Lemma is_root_iff i : 1 <= i <= 255 -> is_root i <-> i ∈ map (fun c => pad + snd c + 1) cs.
Proof.
  intros Hi. unfold is_root. rewrite list_elem_of_In, in_map_iff.
  transitivity (evL ts (fexp i) = fz); [split; [intros E; by apply gf_eq|by intros ->]|].
  rewrite evL_zero. split.
  - intros (t & Ht & E). apply elem_of_ts in Ht as (c & Hc & ->). cbn [fst] in E.
    pose proof (cs_in c Hc) as Hc'. exists c. split; [|by apply list_elem_of_In].
    rewrite fexp_add, <- fexp_0, <- (fexp_mod (_ + _)) in E.
    apply fexp_inj in E; [|apply Z.mod_pos_bound; lia|lia]. unfold expo in *.
    apply Z.mod_divide in E as [k E]; lia.
  - intros (c & E & Hc). exists (fexp (expo (snd c)), to_gf (fst c)). split.
    + apply elem_of_ts. exists c. split; [by apply list_elem_of_In|done].
    + cbn [fst]. rewrite fexp_add. unfold expo.
      replace (255 - pad - 1 - snd c + i) with (255 * 1) by lia.
      rewrite <- fexp_mod, Z.mul_comm, Z.mod_mul by lia. apply fexp_0.
Qed.

Lemma roots_perm : roots ≡ₚ map (fun c => pad + snd c + 1) cs.
Proof.
  apply NoDup_Permutation.
  - apply list.NoDup_filter, NoDup_seqZ.
  - rewrite <- (map_map snd (fun p => pad + p + 1)). apply NoDup_fmap_2; [|done].
    intros x y E. lia.
  - intros i. unfold roots. rewrite list_elem_of_filter, elem_of_seqZ. split.
    + intros [Hr Hi]. apply is_root_iff; [lia|done].
    + intros Hin. assert (1 <= i <= 255).
      { apply list_elem_of_In, in_map_iff in Hin as (c & <- & Hc%list_elem_of_In).
        apply cs_in in Hc. lia. }
      split; [by apply is_root_iff|lia].
Qed.

Lemma zlen_roots : zlen roots = zlen cs.
Proof. unfold zlen. rewrite roots_perm. by rewrite length_map. Qed.

Lemma roots_range i : i ∈ roots -> pad + 1 <= i <= 255.
Proof.
  rewrite roots_perm. intros Hin. apply list_elem_of_In, in_map_iff in Hin as (c & <- & Hc%list_elem_of_In).
  apply cs_in in Hc. lia.
Qed.

(** The search finds exactly the roots. *)
Lemma chien_find (fuel : nat) (i : Z) reg root :
  i = 256 - Z.of_nat fuel -> 1 <= i -> reg_at (i - 1) reg ->
  root = filter is_root (seqZ 1 (i - 1)) -> zlen root < zlen cs ->
  chien codec fuel i (i - 1) (zlen cs) pad reg root (map (fun r => r - 1) root)
  = Some (roots, map (fun r => r - 1) roots).
Proof.
  revert i reg root. induction fuel as [|fuel IH]; intros i reg root Ei Hi Hr Hroot Hlt.
  { exfalso. replace (i - 1) with 255 in Hroot by lia. rewrite Hroot in Hlt.
    fold roots in Hlt. rewrite zlen_roots in Hlt. lia. }
  cbn [chien]. destruct (chien_eval_spec _ _ Hr) as (reg' & -> & Hr').
  replace (i - 1 + 1) with i in * by lia. autorewrite with rs. rewrite modnn_codec.
  replace (i - 1 + 1) with i by lia.
  assert (Hsnoc : seqZ 1 i = seqZ 1 (i - 1) ++ [i]).
  { replace i with ((i - 1) + 1) at 1 by lia. rewrite seqZ_app by lia.
    replace (1 + (i - 1)) with i by lia. done. }
  assert (Hrest : forall l, l = filter is_root (seqZ 1 i) -> zlen l < zlen cs ->
    chien codec fuel (i + 1) (i mod 255) (zlen cs) pad reg' l (map (fun r => r - 1) l)
    = Some (roots, map (fun r => r - 1) roots)).
  { intros l El Hll. destruct fuel as [|fuel].
    - exfalso. replace i with 255 in El by lia. fold roots in El. rewrite El, zlen_roots in Hll. lia.
    - rewrite Z.mod_small by lia. replace i with (i + 1 - 1) at 2 by lia.
      apply IH; [lia|lia| | |done]; by replace (i + 1 - 1) with i by lia. }
  destruct (gv (evL ts (fexp i)) =? 0) eqn:Eq; cbn [negb].
  - apply Z.eqb_eq in Eq.
    assert (Hl : root ++ [i] = filter is_root (seqZ 1 i)).
    { rewrite Hsnoc, list.filter_app, <- Hroot. f_equal. rewrite filter_cons, decide_True by done. done. }
    assert (Hin : i ∈ roots) by (apply list_elem_of_filter; rewrite elem_of_seqZ; split; [done|lia]).
    pose proof (roots_range i Hin). destruct (i - 1 <? pad) eqn:Ep; [lia|].
    change [i - 1] with (map (fun r => r - 1) [i]). rewrite <- map_app, zlen_map.
    destruct (zlen (root ++ [i]) =? zlen cs) eqn:Ez.
    + apply Z.eqb_eq in Ez. assert (Eroots : root ++ [i] = roots); [|by rewrite Eroots].
      assert (Happ : roots = (root ++ [i]) ++ filter is_root (seqZ (1 + i) (255 - i))).
      { rewrite Hl, <- list.filter_app, <- seqZ_app by lia. unfold roots. do 2 f_equal. lia. }
      pose proof (f_equal zlen Happ) as Hz. rewrite zlen_app, zlen_roots, Ez in Hz.
      rewrite Happ. destruct (filter is_root (seqZ (1 + i) (255 - i))); [by rewrite app_nil_r|].
      rewrite zlen_cons in Hz. pose proof (zlen_nonneg l). lia.
    + apply Z.eqb_neq in Ez. apply Hrest; [done|]. rewrite zlen_app, zlen_cons, zlen_nil in *. lia.
  - apply Z.eqb_neq in Eq. apply Hrest; [|done].
    rewrite Hsnoc, list.filter_app, <- Hroot. rewrite filter_cons, decide_False by done.
    by rewrite filter_nil, app_nil_r.
Qed.

Lemma chien_roots :
  chien codec 255 1 0 (zlen cs) pad lidx [] [] = Some (roots, map (fun r => r - 1) roots).
Proof.
  apply (chien_find 255 1 lidx []); [done|lia|apply reg_at_0|done|].
  change (zlen (@nil Z)) with 0. lia.
Qed.

(** ** Forney *)

Context (s : list Z).
Context (Hs : forall j, 0 <= j < 16 -> 0 <= getb s j <= 255 /\ alog (getb s j) = msum (Z.to_nat j) ts).

Definition omega : list Z := omega_poly codec s lidx (zlen cs - 1).

Lemma omega_spec i : 0 <= i < zlen cs ->
  0 <= getb omega i <= 255 /\ alog (getb omega i) = evaS ts (Z.to_nat i).
Proof.
  intros Hi. unfold omega, omega_poly. replace (zlen cs - 1 + 1) with (zlen cs) by lia.
  rewrite getb_map by zlen. rewrite getb_upto by lia. rewrite index_glog.
  rewrite (foldl_xor_sum _ (fun j => (alog (getb s (i - j)) * alog (getb lidx j))%gf)).
  - set (G := (to_gf 0 + _)%gf).
    assert (EG : G = evaS ts (Z.to_nat i)).
    { unfold G, upto. replace (i + 1) with (Z.of_nat (S (Z.to_nat i))) by lia.
      rewrite lsum_rev_seqZ, to_gf_0. rewrite <- loc_key. unfold conv.
      transitivity (gsum (S (Z.to_nat i)) (fun k => locS ts k * msum (Z.to_nat i - k) ts))%gf; [|done].
      rewrite (gsum_ext _ _ (fun k => locS ts k * msum (Z.to_nat i - k) ts)%gf); [ring|].
      intros k Hk. destruct (Hs (i - (0 + Z.of_nat k))) as [_ ->]; [lia|].
      destruct (lidx_spec (0 + Z.of_nat k)) as (_ & _ & ->); [lia|].
      replace (Z.to_nat (i - (0 + Z.of_nat k))) with (Z.to_nat i - k)%nat by lia.
      replace (Z.to_nat (0 + Z.of_nat k)) with k by lia. ring. }
    split; [apply glog_bound, gv_range|]. rewrite alog_glog by apply gv_byte. by rewrite to_gf_gv.
  - unfold is_byte; lia.
  - intros acc j Ha Hj. rewrite elem_of_reverse, elem_of_upto in Hj.
    autorewrite with rs. apply mac2_spec; [done|apply Hs; lia|apply lidx_spec; lia].
Qed.

Lemma num1_spec r : error_num1 codec omega (zlen cs - 1) r = gv (evO ts (fexp r)).
Proof.
  unfold error_num1. replace (zlen cs - 1 + 1) with (zlen cs) by lia.
  rewrite (foldl_xor_sum _ (fun i => (alog (getb omega i) * fexp (i * r))%gf)).
  - f_equal. rewrite to_gf_0. pose proof length_ts as Hts. rewrite <- peval_eva. unfold peval, upto.
    rewrite <- Hts, lsum_rev_seqZ.
    rewrite (gsum_ext _ _ (fun i => evaS ts i * fpow (fexp r) i)%gf); [ring|].
    intros k Hk. destruct (omega_spec (0 + Z.of_nat k)) as [_ ->]; [lia|].
    rewrite fpow_fexp. f_equal; f_equal; lia.
  - unfold is_byte; lia.
  - intros acc j Ha Hj. rewrite elem_of_reverse, elem_of_upto in Hj.
    autorewrite with rs. apply mac3_spec; [done|apply omega_spec; lia].
Qed.

Definition den (r : Z) : Z :=
  foldl (fun acc h =>
    let i := 2 * h in
    if getb lidx (i + 1) =? nn codec then acc
    else Z.lxor acc (getb (alpha_to codec) (rs_modnn codec (getb lidx (i + 1) + i * r))))
    0 (reverse (upto (2 * (Z.min (zlen cs) (nroots codec - 1) / 2) / 2 + 1))).

Lemma den_spec r : den r = gv (evD ts (fexp r)).
Proof.
  unfold den. change (nroots codec - 1) with 15. rewrite Z.min_l by lia.
  assert (Hm : 2 * (zlen cs / 2) / 2 = zlen cs / 2) by (rewrite Z.mul_comm; apply Z.div_mul; lia).
  rewrite Hm. assert (Hh : 0 <= zlen cs / 2 <= 4).
  { split; [apply Z.div_pos; lia|]. apply Z.div_le_upper_bound; lia. }
  rewrite (foldl_xor_sum _ (fun h => (alog (getb lidx (2 * h + 1)) * fexp (2 * h * r))%gf)).
  - f_equal. rewrite to_gf_0. pose proof length_ts as Hts. unfold upto.
    replace (zlen cs / 2 + 1) with (Z.of_nat (S (Z.to_nat (zlen cs / 2)))) by lia.
    rewrite lsum_rev_seqZ.
    set (m := S (Z.to_nat (zlen cs / 2))).
    transitivity (peval (2 * m) (der (locS ts)) (fexp r)).
    + unfold peval. rewrite gsum_even.
      * rewrite (gsum_ext _ _ (fun h => der (locS ts) (2 * h)%nat * fpow (fexp r) (2 * h)%nat)%gf); [ring|].
        intros k Hk. unfold m in Hk. destruct (lidx_spec (2 * (0 + Z.of_nat k) + 1)) as (_ & _ & ->); [lia|].
        rewrite fpow_fexp. unfold der. rewrite Nat.even_mul. cbn [Nat.even orb].
        f_equal; [f_equal; lia|f_equal; lia].
      * intros i Hi. unfold der. rewrite Hi. ring.
    + rewrite <- peval_der. apply peval_support; [|apply der_support].
      unfold m. pose proof (Z.div_mod (zlen cs) 2 ltac:(lia)).
      pose proof (Z.mod_pos_bound (zlen cs) 2 ltac:(lia)). lia.
  - unfold is_byte; lia.
  - intros acc h Ha Hj. rewrite elem_of_reverse, elem_of_upto in Hj.
    cbn zeta. autorewrite with rs. apply mac3_spec; [done|apply lidx_spec; lia].
Qed.

Lemma error_value_spec c :
  c ∈ cs -> error_value codec lidx omega (zlen cs) (zlen cs - 1) (pad + snd c + 1) = fst c.
Proof.
  intros Hc. pose proof (cs_in c Hc) as Hc'. set (r := pad + snd c + 1).
  set (X := fexp (expo (snd c))). set (x := fexp r).
  assert (HX : (X * x)%gf = fo).
  { unfold X, x. rewrite fexp_add. unfold expo, r. rewrite <- fexp_mod.
    replace (255 - pad - 1 - snd c + (pad + snd c + 1)) with (1 * 255) by lia.
    rewrite Z.mod_mul by lia. apply fexp_0. }
  assert (Ht : (X, to_gf (fst c)) ∈ ts) by (apply elem_of_ts; eauto).
  pose proof (forney ts X (to_gf (fst c)) x ts_nodup Ht HX) as HF.
  pose proof (evD_nz ts X (to_gf (fst c)) x ts_nodup Ht HX) as HD.
  assert (HY : to_gf (fst c) <> fz).
  { rewrite <- to_gf_0. intros E. apply to_gf_inj in E; unfold is_byte; lia. }
  unfold error_value. fold (den r). rewrite num1_spec, den_spec. fold x.
  destruct (gv (evO ts x) =? 0) eqn:E0.
  { exfalso. apply Z.eqb_eq in E0. assert (E1 : evO ts x = fz) by (by apply gf_eq). rewrite E1 in HF.
    assert (E2 : (to_gf (fst c) * evD ts x)%gf = fz) by (rewrite <- HF; ring).
    by apply fmul_integral in E2 as [?|?]. }
  apply Z.eqb_neq in E0. autorewrite with rs.
  set (N := evO ts x) in *. set (D := evD ts x) in *.
  assert (HN : N <> fz) by (intros E; by rewrite E in E0).
  assert (Eg : glog (gexp (r * (0 - 1) + 255)) = expo (snd c)).
  { rewrite glog_gexp. rewrite Z.mod_small; unfold expo, r; lia. }
  change (getb (index_of codec)) with glog. rewrite Eg.
  assert (Ev : fexp (glog (gv N) + expo (snd c) + 255 - glog (gv D)) = to_gf (fst c)).
  { replace (glog (gv N) + expo (snd c) + 255 - glog (gv D))
      with (glog (gv N) + (expo (snd c) + (255 - glog (gv D)))) by lia.
    rewrite <- !fexp_add. change (fexp (255 - glog (gv D))) with (finv D).
    rewrite (fexp_log N HN). change (fexp (expo (snd c))) with X.
    transitivity ((X * N) * finv D)%gf; [ring|]. rewrite HF.
    transitivity (to_gf (fst c) * (finv D * D))%gf; [ring|]. rewrite fmul_inv by done. ring. }
  apply (f_equal gv) in Ev. rewrite gv_to_gf in Ev by lia. done.
Qed.

(** ** The inferred error is the real one *)

Definition inferred : list (Z * Z) :=
  zip (map (error_value codec lidx omega (zlen cs) (zlen cs - 1)) roots)
      (map (fun l => l - pad) (map (fun r => r - 1) roots)).

Lemma inferred_perm : inferred ≡ₚ cs.
Proof.
  unfold inferred. rewrite map_map.
  assert (E : forall l : list Z, zip (map (error_value codec lidx omega (zlen cs) (zlen cs - 1)) l)
      (map (fun x => x - 1 - pad) l) =
    map (fun r => (error_value codec lidx omega (zlen cs) (zlen cs - 1) r, r - 1 - pad)) l).
  { intros l. induction l as [|r l IH]; [done|]. cbn [map zip_with]. by rewrite IH. }
  rewrite E. transitivity (map (fun r => (error_value codec lidx omega (zlen cs) (zlen cs - 1) r, r - 1 - pad))
    (map (fun c => pad + snd c + 1) cs)).
  - apply Permutation_map, roots_perm.
  - rewrite map_map.
    rewrite (map_ext_Forall _ (fun c => c)); [by rewrite map_id|].
    apply Forall_forall. intros c Hc%list_elem_of_In.
    rewrite error_value_spec by done. destruct c as [b p]. cbn [fst snd]. f_equal. lia.
Qed.

Lemma fix_sum_lsum n i l : fix_sum n i l = lsum (fun bp => to_gf (fst bp) * fexp (i * (n - 1 - snd bp)))%gf l.
Proof. done. Qed.

Lemma fix_sum_msum i : 0 <= i -> fix_sum (255 - pad) i cs = msum (Z.to_nat i) ts.
Proof.
  intros Hi. unfold ts, fix_sum, msum, expo. clear Hcs Hnd Hlen Hloc Hs.
  induction cs as [|c l IH]; cbn [map foldr fst snd]; [done|].
  rewrite IH, fpow_fexp, Z2Nat.id by lia. by rewrite (Z.mul_comm i).
Qed.

Lemma verify_inferred :
  verify_error codec s (map (error_value codec lidx omega (zlen cs) (zlen cs - 1)) roots)
    (map (fun r => r - 1) roots) = true.
Proof.
  unfold verify_error. apply forallb_forall. change (nroots codec) with 16.
  intros i Hi%list_elem_of_In%elem_of_upto. apply Z.eqb_eq.
  rewrite (error_syndrome_spec _ _ _ pad).
  - fold inferred. rewrite fix_sum_lsum, (lsum_perm _ _ _ inferred_perm), <- fix_sum_lsum.
    rewrite fix_sum_msum by lia. destruct (Hs i Hi) as [R E]. rewrite <- E. unfold alog.
    apply gv_to_gf. apply (forallb_getb (fun x => (0 <=? x) && (x <? 256)) (fun x => 0 <= x < 256)); [lia|done|done].
  - apply Forall_map, Forall_forall. intros; apply error_value_byte.
Qed.
End pattern.

(** ** Completeness *)

Lemma bm_inv_locator ts s :
  pattern ts ->
  (forall j, 0 <= j < 16 -> 0 <= getb s j <= 255 /\ alog (getb s j) = msum (Z.to_nat j) ts) ->
  let st := berlekamp_massey codec s in
  zlen (bm_lambda st) = 17 /\ bytes (bm_lambda st) /\ forall n, ser (bm_lambda st) n = locS ts n.
Proof.
  intros P Hs st. destruct (berlekamp_massey_spec (fun n => msum n ts) s Hs) as (Hl & Bl & _ & _ & _ & A).
  split_and!; [done|done|]. intros n. by eapply bm_alg_locator.
Qed.

(** The branch of the decoder taken on a damaged word. *)
Lemma decode_damaged pad cs data par :
  0 <= pad < 239 -> pad = 239 - zlen data -> zlen par = 16 -> bytes data -> bytes par ->
  Forall (fun c => 0 < fst c < 256 /\ 0 <= snd c < 255 - pad) cs ->
  NoDup (map snd cs) -> 0 < zlen cs <= 8 ->
  (forall i, 0 <= i < 16 -> syndrome i (data ++ par) = fix_sum (255 - pad) i cs) ->
  exists n d' p' pos, rs_decode_internal codec data par (zlen data) = Decoded n d' p' pos /\ n <= 8.
Proof.
  intros Hpad Epad Hp Bd Bp Hcs Hnd Hlen Hsyn. unfold rs_decode_internal.
  change (nn codec - nroots codec) with 239. rewrite <- Epad.
  assert ((pad <? 0) || (239 <=? pad) = false) as ->.
  { apply orb_false_intro; [apply Z.ltb_ge|apply Z.leb_gt]; lia. }
  destruct (forallb _ _); [exists 0; do 3 eexists; split; [reflexivity|lia]|].
  rewrite syndromes_spec by (done || lia).
  set (s := map _ (map _ (upto 16))).
  assert (Hs : forall j, 0 <= j < 16 ->
    0 <= getb s j <= 255 /\ alog (getb s j) = msum (Z.to_nat j) (ts pad cs)).
  { intros j Hj. unfold s. rewrite getb_map by zlen. rewrite getb_map by zlen. rewrite getb_upto by done.
    rewrite index_glog. split; [apply glog_bound, gv_range|].
    rewrite alog_glog by apply gv_byte. rewrite to_gf_gv, Hsyn by done.
    apply fix_sum_msum. lia. }
  destruct (bm_inv_locator _ s (ts_pattern pad Hpad cs Hcs Hnd Hlen) Hs) as (Hl & Bl & Hloc).
  set (lambda := bm_lambda (berlekamp_massey codec s)) in *.
  change (map (fun c => getb (index_of codec) c) lambda) with (lidx lambda).
  rewrite (deg_index_locator pad Hpad cs Hcs Hnd Hlen lambda Hl Bl Hloc).
  destruct (zlen cs =? 0) eqn:E0; [lia|].
  change (Z.to_nat (nn codec)) with 255%nat. change (iprim codec - 1) with 0.
  rewrite (chien_roots pad Hpad cs Hcs Hnd Hlen lambda Hl Bl Hloc).
  rewrite zlen_map, (zlen_roots pad Hpad cs Hcs Hnd), Z.eqb_refl. cbn [negb].
  change (omega_poly codec s (lidx lambda) (zlen cs - 1)) with (omega cs lambda s).
  rewrite (verify_inferred pad Hpad cs Hcs Hnd Hlen lambda Hl Bl Hloc s Hs).
  destruct (foldl _ _ _) as [d' p']. do 4 eexists. split; [reflexivity|].
  transitivity (zlen (roots pad cs)).
  - unfold zlen. apply inj_le, length_filter.
  - rewrite (zlen_roots pad Hpad cs Hcs Hnd). lia.
Qed.

Lemma decode_complete d p d0 p0 :
  bytes d -> bytes p -> bytes d0 -> bytes p0 -> 0 < zlen d <= 239 -> zlen d0 = zlen d ->
  zlen p = 16 -> zlen p0 = 16 -> is_codeword (d0 ++ p0) -> hamming (d0 ++ p0) (d ++ p) <= 8 ->
  exists n d' p' pos, rs_decode_internal codec d p (zlen d) = Decoded n d' p' pos /\ n <= 8.
Proof.
  intros Bd Bp Bd0 Bp0 Hl Hl0 Hp Hp0 C Hh.
  set (w0 := d0 ++ p0) in *. set (w := d ++ p) in *.
  assert (Bw0 : bytes w0) by (by apply bytes_app). assert (Bw : bytes w) by (by apply bytes_app).
  assert (Hz : zlen w0 = zlen w) by (unfold w0, w; zlen).
  assert (Hzw : zlen w0 = 255 - (239 - zlen d)) by (rewrite Hz; unfold w; zlen).
  set (cs := diff_corrections w0 w).
  assert (Ok : Forall (fun c => 0 < fst c < 256 /\ 0 <= snd c < 255 - (239 - zlen d)) cs)
    by (rewrite <- Hzw; by apply diff_corrections_ok).
  assert (Nd : NoDup (map snd cs)) by (unfold cs; rewrite snd_diff; apply nodup_changed).
  assert (Hcs : zlen cs = hamming w0 w)
    by (unfold cs, diff_corrections; rewrite zlen_map; by apply zlen_changed).
  assert (Hsyn : forall i, 0 <= i < 16 -> syndrome i w = fix_sum (255 - (239 - zlen d)) i cs).
  { intros i Hi. rewrite <- (fix_all_diff w0 w) by done. fold cs.
    rewrite (syndrome_fix_all (255 - (239 - zlen d))); [|done|done|].
    - rewrite (C i Hi). ring.
    - eapply Forall_impl; [|exact Ok]. intros c [? ?]. split; [unfold is_byte|]; lia. }
  destruct (decide (zlen cs = 0)) as [E|].
  - exists 0, d, p, []. split; [|lia]. unfold rs_decode_internal.
    change (nn codec - nroots codec) with 239.
    assert ((239 - zlen d <? 0) || (239 <=? 239 - zlen d) = false) as ->.
    { apply orb_false_intro; [apply Z.ltb_ge|apply Z.leb_gt]; lia. }
    assert (is_codeword (d ++ p)) as Cw.
    { intros i Hi. fold w. rewrite Hsyn by done. by destruct cs. }
    by apply syndromes_clean in Cw as ->; [|done|done|lia].
  - apply (decode_damaged (239 - zlen d) cs); try done; [lia|].
    pose proof (zlen_nonneg cs). lia.
Qed.

(** A word within eight symbols of a codeword decodes to that codeword. *)
Lemma decode_within data par data' par' :
  bytes data -> bytes par -> bytes data' -> bytes par' -> 0 < zlen data <= 239 -> zlen data' = zlen data ->
  zlen par = 16 -> zlen par' = 16 -> is_codeword (data ++ par) -> hamming (data ++ par) (data' ++ par') <= 8 ->
  rs_decode_subblock codec data' (zlen data') par' =
  Decoded (hamming (data' ++ par') (data ++ par)) data par
    (filter (fun i => getb data' i <> getb data i) (upto (zlen data'))).
Proof.
  intros Bd Bp Bd' Bp' Hl Hl' Hp Hp' C Hh.
  destruct (decode_complete data' par' data par) as (n & d & p & pos & E & Hn); try done; [lia|].
  assert (E' : rs_decode_subblock codec data' (zlen data') par' =
    Decoded n (map (fun x => Z.land x 255) d) (map (fun x => Z.land x 255) p) pos)
    by (rewrite rs_decode_subblock_eq by (done || lia); by rewrite E).
  clear E. pose proof (rs_decode_ok _ _ _ _ _ _ Bd' Bp' ltac:(lia) Hp' E') as Ok.
  rewrite E'. clear E'. set (d1 := map _ d) in *. set (p1 := map _ p) in *. clearbody d1 p1.
  destruct Ok as [C1 B1 B2 L1 L2 Hd _ ->].
  assert (H : data ++ par = d1 ++ p1).
  { apply codeword_distance; [by apply bytes_app|by apply bytes_app|zlen|zlen|done|done|].
    etransitivity; [apply (hamming_triangle _ (data' ++ par')); zlen|].
    change RS_NROOTS with 16. lia. }
  apply app_inj_1 in H as [<- <-]; [|unfold zlen in *; lia].
  rewrite Hd. done.
Qed.

(** ** Theorems *)

(** C1: the decoder corrects every pattern of up to eight damaged symbols,
    wherever they fall in data and parity: it returns the data and the
    parity that were written, the number of damaged symbols, and the
    positions of the damaged data bytes. *)
Theorem rs_corrects_8 data data' par' :
  bytes data -> bytes data' -> bytes par' ->
  0 < zlen data <= RS_MAX_DATA_LEN -> zlen data' = zlen data -> zlen par' = RS_NROOTS ->
  let par := rs_encode_subblock codec data in
  hamming (data ++ par) (data' ++ par') <= RS_NROOTS / 2 ->
  rs_decode_subblock codec data' (zlen data') par' =
  Decoded (hamming (data' ++ par') (data ++ par)) data par
    (filter (fun i => getb data' i <> getb data i) (upto (zlen data'))).
Proof.
  intros Bd Bd' Bp' Hl Hl' Hp' par Hh.
  apply decode_within; try done; [by apply rs_encode_bytes|by apply rs_encode_length|by apply rs_encode_is_codeword].
Qed.

Lemma rs_corrects_8_witness :
  rs_decode_subblock codec ex_bad 8 ex_par =
  Decoded (hamming (ex_bad ++ ex_par) (ex_data ++ rs_encode_subblock codec ex_data)) ex_data
    (rs_encode_subblock codec ex_data) (filter (fun i => getb ex_bad i <> getb ex_data i) (upto 8)).
Proof.
  apply (rs_corrects_8 ex_data ex_bad ex_par); [bytes_list..| |done|done|];
    vm_compute; repeat split; discriminate.
Defined.

(** The fsck codec has the documented capacity. *)
#[export] Instance fsck_rslib_bounded : RsLibBounded.
Proof.
  split. intros d p d0 p0 (Bd & Bp & Hl & Hp) (Bd0 & Bp0 & _ & Hp0) Hl0 C Hh.
  cbn [decode_rs8 fsck_rslib]. unfold fsck_decode.
  destruct (decode_complete d p d0 p0) as (n & d' & p' & pos & E & Hn); try done.
  assert (E' : rs_decode_subblock codec d (zlen d) p =
    Decoded n (map (fun x => Z.land x 255) d') (map (fun x => Z.land x 255) p') pos)
    by (rewrite rs_decode_subblock_eq by done; by rewrite E).
  rewrite E'. eexists. split; [reflexivity|].
  pose proof (rs_decode_ok _ _ _ _ _ _ Bd Bp Hl Hp E') as [_ _ _ L1 L2 Hd _ _].
  unfold diff_corrections. rewrite zlen_map, zlen_changed by (rewrite !zlen_app; lia). lia.
Qed.
