(* ===== verification/Edac.v ===== *)
(** * The EDAC layer (edac.c)

    Set-up and tear-down of the per-CPU codecs, encode and decode of one
    codeword, of a region of contiguous codewords and of an interleaved
    (woven) block, and the entropy estimator of the resilience journal.

    A function that the source gives pointers into a buffer takes the
    buffer and the offsets; what it writes it returns.  Return codes are
    the source's: zero or positive, or minus an errno. *)

From S2P Require Import Prelude Format RsInit GF RsTheory RsCode RsCorrect RsDecode RsLib.

(** ** Codec tables *)

(** [beamfs_rs_ctrl_pcpu] and [beamfs_rs_scratch_pcpu]: a per-CPU array or
    NULL; an entry says whether the CPU's pointer is set.  [live] counts
    the allocations that have not been freed. *)
Record rs_tables := Tables {
  t_ctrl : option (list bool);
  t_scratch : option (list bool);
  t_live : Z }.

(** What the allocator answers during one call of init. *)
Record rs_allocs := {
  a_scratch_array : bool;
  a_ctrl_array : bool;
  a_init_rs : list bool;      (** init_rs, by CPU *)
  a_kmalloc : list bool }.    (** kmalloc of a scratch, by CPU *)

Definition count_set (l : list bool) : Z := zlen (filter (fun b => b = true) l).

(** Free every codec, every scratch, the two arrays. *)
Definition beamfs_rs_exit_tables (t : rs_tables) : rs_tables :=
  match t_ctrl t with
  | None => t
  | Some ctrl =>
    let live := t_live t - count_set ctrl in
    let live := match t_scratch t with
                | Some scratch => live - count_set scratch - 1
                | None => live end in
    Tables None None (live - 1)
  end.

(** One CPU of the init loop: [inr] is the early return after a failed
    init_rs. *)
Definition init_cpu (a : rs_allocs) (st : rs_tables + rs_tables) (cpu : nat)
    : rs_tables + rs_tables :=
  match st with
  | inr t => inr t
  | inl t =>
    if nth cpu (a_init_rs a) false then
      let ctrl := match t_ctrl t with Some c => Some (<[cpu := true]> c) | None => None end in
      match t_scratch t with
      | Some s =>
        let ok := nth cpu (a_kmalloc a) false in
        inl (Tables ctrl (Some (<[cpu := ok]> s)) (t_live t + 1 + if ok then 1 else 0))
      | None => inl (Tables ctrl None (t_live t + 1))
      end
    else inr (beamfs_rs_exit_tables t)
  end.

Definition beamfs_rs_init_tables (ncpu : nat) (a : rs_allocs) (t : rs_tables) : Z * rs_tables :=
  let scratch := if a_scratch_array a then Some (replicate ncpu false) else None in
  let live := t_live t + if a_scratch_array a then 1 else 0 in
  if negb (a_ctrl_array a) then
    (- ENOMEM, Tables None None (live - if a_scratch_array a then 1 else 0))
  else
    let t := Tables (Some (replicate ncpu false)) scratch (live + 1) in
    match foldl (init_cpu a) (inl t) (seq 0 ncpu) with
    | inl t => (0, t)
    | inr t => (- ENOMEM, t)
    end.

(** The codec pointer of the running CPU. *)
Definition ctrl_here (t : rs_tables) (cpu : nat) : bool :=
  match t_ctrl t with Some l => nth cpu l false | None => false end.

Definition scratch_here (t : rs_tables) (cpu : nat) : bool :=
  match t_scratch t with Some l => nth cpu l false | None => false end.

(** ** One codeword *)

Section codec.
Context `{RL : !RsLib} (t : rs_tables) (cpu : nat).

Definition beamfs_rs_encode (data : list Z) (len : Z) : Z * list Z :=
  if match t_ctrl t with None => true | _ => false end then (- EINVAL, [])
  else if BEAMFS_SUBBLOCK_DATA <? len then (- EINVAL, [])
  else if negb (ctrl_here t cpu) then (- EINVAL, [])
  else (0, map u8 (encode_rs8 (slice data 0 len))).

(** The inner loop of the insertion sort: slots [0, j) hold candidates to
    move up, slot [j] is free. *)
Fixpoint sift (a : list (Z * Z)) (x : Z * Z) (j : nat) : list (Z * Z) :=
  match j with
  | O => <[0%nat := x]> a
  | S k =>
    let y := nth k a (0, 0) in
    if snd x <? snd y then sift (<[j := y]> a) x k else <[j := x]> a
  end.

Definition sort_corrections (a : list (Z * Z)) : list (Z * Z) :=
  foldl (fun a i => sift a (nth i a (0, 0)) i) a (seq 1 (length a - 1)).

(** One correction: (data, positions, n_data). *)
Definition apply_correction (len : Z) (maxp : option Z) (st : list Z * list Z * Z) (c : Z * Z)
    : list Z * list Z * Z :=
  let '(data, positions, n_data) := st in
  let '(corr, pos) := c in
  if (pos <? 0) || (len <=? pos) then st
  else
    let data := setb data pos (Z.lxor (getb data pos) (u8 corr)) in
    let positions := match maxp with
                     | Some m => if n_data <? m then positions ++ [u8 pos] else positions
                     | None => positions end in
    (data, positions, n_data + 1).

(** [maxp] is [Some max_positions], or [None] for a NULL [positions].
    Returns the code, the data, and the positions written. *)
Definition beamfs_rs_decode (data : list Z) (len : Z) (parity : list Z) (maxp : option Z)
    : Z * list Z * list Z :=
  if match t_ctrl t with None => true | _ => false end then (- EINVAL, data, [])
  else if BEAMFS_SUBBLOCK_DATA <? len then (- EINVAL, data, [])
  else if match maxp with Some m => m =? 0 | None => false end then (- EINVAL, data, [])
  else if negb (ctrl_here t cpu) then (- EINVAL, data, [])
  else
    match decode_rs8 (slice data 0 len) parity with
    | None => (- EBADMSG, data, [])
    | Some cs =>
      let nerr := zlen cs in
      if BEAMFS_RS_PARITY <? nerr then (- EBADMSG, data, [])
      else
        let '(data, positions, n_data) :=
          foldl (apply_correction len maxp) (data, [], 0) (sort_corrections cs) in
        match maxp with
        | Some m => (Z.min n_data m, data, positions)
        | None => (nerr, data, positions)
        end
    end.

(** ** Interleaved blocks *)

Definition rs_woven_off (sub i n_subblocks : Z) : Z := i * n_subblocks + sub.

Definition rs_gather (blk : list Z) (base sub data_len n_subblocks : Z) : list Z :=
  map (fun i => getb blk (base + rs_woven_off sub i n_subblocks)) (upto data_len).

Definition rs_scatter (blk : list Z) (base sub data_len n_subblocks : Z) (scratch : list Z)
    : list Z :=
  foldl (fun blk i => setb blk (base + rs_woven_off sub i n_subblocks) (getb scratch i))
    blk (upto data_len).

Definition beamfs_rs_encode_woven (blk : list Z) (data parity parity_stride data_len n_subblocks : Z)
    : Z * list Z :=
  if match t_scratch t with None => true | _ => false end then (- EINVAL, blk)
  else if BEAMFS_SUBBLOCK_DATA <? data_len then (- EINVAL, blk)
  else if negb (scratch_here t cpu) then (- ENOMEM, blk)
  else
    foldl (fun '(ret, blk) i =>
      if ret <? 0 then (ret, blk)
      else
        let scratch := rs_gather blk data i data_len n_subblocks in
        let '(rc, par) := beamfs_rs_encode scratch data_len in
        if rc <? 0 then (rc, blk) else (0, splice blk (parity + i * parity_stride) par))
      (0, blk) (upto n_subblocks).

(** Returns the code, the block and [results]. *)
Definition beamfs_rs_decode_woven (blk : list Z) (data parity parity_stride data_len n_subblocks : Z)
    : Z * list Z * list Z :=
  if match t_scratch t with None => true | _ => false end then (- EINVAL, blk, [])
  else if BEAMFS_SUBBLOCK_DATA <? data_len then (- EINVAL, blk, [])
  else if negb (scratch_here t cpu) then (- ENOMEM, blk, [])
  else
    foldl (fun '(worst, blk, results) i =>
      let scratch := rs_gather blk data i data_len n_subblocks in
      let '(rc, scratch, _) :=
        beamfs_rs_decode scratch data_len
          (slice blk (parity + i * parity_stride) BEAMFS_RS_PARITY) None in
      let results := results ++ [rc] in
      if rc <? 0 then (rc, blk, results)
      else
        let blk := rs_scatter blk data i data_len n_subblocks scratch in
        (if worst <? rc then rc else worst, blk, results))
      (0, blk, []) (upto n_subblocks).

Definition beamfs_rs_encode_block (block : list Z) : Z * list Z :=
  beamfs_rs_encode_woven block BEAMFS_DATA_WOVEN_OFF BEAMFS_DATA_WOVEN_PARITY_OFF
    BEAMFS_RS_PARITY BEAMFS_SUBBLOCK_DATA BEAMFS_DATA_INLINE_SUBBLOCKS.

Definition beamfs_rs_decode_block (block : list Z) : Z * list Z * list Z :=
  beamfs_rs_decode_woven block BEAMFS_DATA_WOVEN_OFF BEAMFS_DATA_WOVEN_PARITY_OFF
    BEAMFS_RS_PARITY BEAMFS_SUBBLOCK_DATA BEAMFS_DATA_INLINE_SUBBLOCKS.

(** ** Contiguous regions *)

Definition beamfs_rs_encode_region
    (mem : list Z) (data data_stride parity parity_stride data_len n_subblocks : Z) : Z * list Z :=
  foldl (fun '(ret, mem) i =>
    if ret <? 0 then (ret, mem)
    else
      let '(rc, par) := beamfs_rs_encode (slice mem (data + i * data_stride) data_len) data_len in
      if rc <? 0 then (rc, mem) else (0, splice mem (parity + i * parity_stride) par))
    (0, mem) (upto n_subblocks).

(** [pstride] is [Some positions_stride] with a positions buffer, [None]
    without.  Returns the code, the buffer, [results] and, by codeword,
    the positions written. *)
Definition beamfs_rs_decode_region
    (mem : list Z) (data data_stride parity parity_stride data_len n_subblocks : Z)
    (pstride : option Z) : Z * list Z * list Z * list (list Z) :=
  if match pstride with Some s => s =? 0 | None => false end then (- EINVAL, mem, [], [])
  else
    foldl (fun '(worst, mem, results, positions) i =>
      let '(rc, d, pos) :=
        beamfs_rs_decode (slice mem (data + i * data_stride) data_len) data_len
          (slice mem (parity + i * parity_stride) BEAMFS_RS_PARITY) pstride in
      (if (rc <? 0) && (0 <=? worst) then rc else worst,
       splice mem (data + i * data_stride) d, results ++ [rc], positions ++ [pos]))
      (0, mem, [], []) (upto n_subblocks).
End codec.

(** User bytes of an interleaved block. *)
Definition beamfs_block_read (block : list Z) (off len : Z) : list Z :=
  slice block (BEAMFS_DATA_WOVEN_OFF + off) len.

Definition beamfs_block_write (block : list Z) (off : Z) (src : list Z) : list Z :=
  splice block (BEAMFS_DATA_WOVEN_OFF + off) src.

(** ** Entropy of the corrected positions *)

Definition beamfs_rs_entropy_term_q16_16 : list (list Z) :=
  [[0; 0; 0; 0; 0; 0; 0; 0; 0];
   [0; 0; 0; 0; 0; 0; 0; 0; 0];
   [0; 32768; 0; 0; 0; 0; 0; 0; 0];
   [0; 34624; 25557; 0; 0; 0; 0; 0; 0];
   [0; 32768; 32768; 20400; 0; 0; 0; 0; 0];
   [0; 30434; 34654; 28979; 16878; 0; 0; 0; 0];
   [0; 28235; 34624; 32768; 25557; 14365; 0; 0; 0];
   [0; 26283; 33842; 34333; 30235; 22724; 12493; 0; 0];
   [0; 24576; 32768; 34776; 32768; 27774; 20400; 11047; 0]].

(** The bin loop; [None] is one of the two early returns of 0. *)
Definition entropy_bins (positions : list Z) (code_len : Z) : option (list Z) :=
  foldl (fun bins idx =>
    match bins with
    | None => None
    | Some bins =>
      if code_len <=? idx then None
      else
        let bin := u32 (idx * BEAMFS_RS_ENTROPY_BINS) / code_len in
        if BEAMFS_RS_ENTROPY_BINS <=? bin then None
        else Some (setb bins bin (getb bins bin + 1))
    end) (Some (zeros BEAMFS_RS_ENTROPY_BINS)) positions.

Definition beamfs_rs_compute_entropy_q16_16 (positions : list Z) (n_positions code_len : Z) : Z :=
  if (n_positions =? 0) || (BEAMFS_RS_PARITY / 2 <? n_positions) then 0
  else if (code_len <? n_positions) || (BEAMFS_SUBBLOCK_DATA <? code_len) then 0
  else
    match entropy_bins (slice positions 0 n_positions) code_len with
    | None => 0
    | Some bins =>
      foldl (fun h b =>
        u32 (h + getb (nth (Z.to_nat n_positions) beamfs_rs_entropy_term_q16_16 []) (getb bins b)))
        0 (upto BEAMFS_RS_ENTROPY_BINS)
    end.
