(* ===== verification/EdacWord.v ===== *)
(** * One codeword through edac.c: what encode and decode do *)

From Stdlib Require Import Sorted.
From stdpp Require Import sorting.
From S2P Require Import Prelude Format RsInit GF RsTheory RsCode RsCorrect RsDecode RsLib Edac.

(** ** The insertion sort *)

Abbreviation sorted_pos l := (StronglySorted Z.le (map snd l)).

Lemma sorted_le_snoc l x :
  StronglySorted Z.le l -> Forall (fun y => y <= x) l -> StronglySorted Z.le (l ++ [x]).
Proof.
  induction 1 as [|y l Hs IH Hy]; intros H; simpl; [by repeat constructor|].
  inversion H; subst. constructor; [by apply IH|]. apply list.Forall_app. by repeat constructor.
Qed.

Lemma sorted_le_app_inv l x :
  StronglySorted Z.le (l ++ [x]) -> StronglySorted Z.le l /\ Forall (fun y => y <= x) l.
Proof.
  induction l as [|y l IH]; simpl; intros H; [by repeat constructor|].
  inversion H as [|? ? Hs Hy]; subst. destruct (IH Hs).
  apply list.Forall_app in Hy as [? Hy]. inversion Hy; subst.
  split; constructor; done.
Qed.

Lemma sift_spec s x y r :
  sorted_pos s ->
  exists s', sift (s ++ y :: r) x (length s) = s' ++ r /\ s' ≡ₚ x :: s /\ sorted_pos s'.
Proof.
  revert y r. induction s as [|z s IH] using rev_ind; intros y r Hs.
  { exists [x]. by repeat constructor. }
  rewrite map_app in Hs. apply sorted_le_app_inv in Hs as [Hs Hz].
  rewrite length_app, Nat.add_1_r. cbn [sift].
  rewrite <- app_assoc. change ([z] ++ y :: r) with (z :: y :: r).
  assert (nth (length s) (s ++ z :: y :: r) (0, 0) = z) as -> by apply nth_middle.
  assert (E : forall v, <[S (length s) := v]> (s ++ z :: y :: r) = s ++ z :: v :: r).
  { intros v. rewrite insert_app_r_alt by lia.
    replace (S (length s) - length s)%nat with 1%nat by lia. done. }
  rewrite !E. destruct (snd x <? snd z) eqn:Exz.
  - destruct (IH z (z :: r) Hs) as (s' & -> & Hp & Hs').
    exists (s' ++ [z]). split; [by rewrite <- app_assoc|]. split.
    + rewrite Hp. by rewrite app_comm_cons.
    + rewrite map_app. apply sorted_le_snoc; [done|].
      apply Forall_map. rewrite Hp. constructor; [lia|]. by rewrite Forall_map in Hz.
  - exists (s ++ [z] ++ [x]). split; [by rewrite <- !app_assoc|]. split.
    + rewrite app_assoc. by rewrite Permutation_app_comm.
    + rewrite app_assoc, map_app. apply sorted_le_snoc.
      * rewrite map_app. by apply sorted_le_snoc.
      * rewrite map_app. apply list.Forall_app. split; [|repeat constructor; simpl; lia].
        eapply Forall_impl; [|exact Hz]. simpl. lia.
Qed.

Lemma sort_corrections_spec a : sort_corrections a ≡ₚ a /\ sorted_pos (sort_corrections a).
Proof.
  destruct a as [|c a]; [by split; [|constructor]|].
  unfold sort_corrections. replace (length (c :: a) - 1)%nat with (length a) by (simpl; lia).
  enough (G : forall k, (k <= length a)%nat -> exists s,
    foldl (fun a i => sift a (nth i a (0, 0)) i) (c :: a) (seq 1 k) = s ++ drop k a /\
    s ≡ₚ c :: take k a /\ sorted_pos s).
  { destruct (G (length a) ltac:(lia)) as (s & -> & Hp & Hs).
    rewrite drop_ge, app_nil_r by lia. by rewrite take_ge in Hp by lia. }
  induction k as [|k IH]; intros Hk.
  { exists [c]. by repeat constructor. }
  destruct (IH ltac:(lia)) as (s & E & Hp & Hs).
  rewrite seq_S, foldl_app, E. cbn [foldl].
  assert (Hl : length s = S k) by (rewrite Hp; simpl; rewrite length_take; lia).
  destruct (lookup_lt_is_Some_2 a k) as [x Hx]; [lia|].
  rewrite (drop_S a x k Hx).
  replace (1 + k)%nat with (length s) by lia. rewrite nth_middle.
  destruct (sift_spec s x x (drop (S k) a) Hs) as (s' & -> & Hp' & Hs').
  exists s'. split; [done|]. split; [|done].
  rewrite Hp', Hp, (take_S_r a k x Hx). by rewrite app_comm_cons, (Permutation_app_comm _ [x]).
Qed.

(** ** The correction loop *)

(** The corrections that fall on data. *)
Definition data_part (len : Z) (cs : list (Z * Z)) : list (Z * Z) :=
  filter (fun c => snd c < len) cs.

(** A well-formed correction list for a word of [n] symbols. *)
Definition corrections_ok (n : Z) (cs : list (Z * Z)) : Prop :=
  Forall (fun c => 0 < fst c < 256 /\ 0 <= snd c < n) cs /\ NoDup (map snd cs).

Lemma corrections_fix_ok n cs : corrections_ok n cs -> Forall (fix_ok n) cs.
Proof.
  intros [H _]. eapply Forall_impl; [|exact H]. intros c [? ?]. split; [unfold is_byte|]; lia.
Qed.

Lemma corrections_perm n cs cs' : cs ≡ₚ cs' -> corrections_ok n cs -> corrections_ok n cs'.
Proof. intros Hp [H N]. split; by rewrite <- Hp. Qed.

Lemma data_part_ok n len cs : corrections_ok n cs -> corrections_ok len (data_part len cs).
Proof.
  intros [H N]. split.
  - apply Forall_forall. intros c Hc%list_elem_of_In. apply list_elem_of_filter in Hc as [Hl Hc].
    rewrite Forall_forall in H. specialize (H c (proj1 (list_elem_of_In _ _) Hc)). lia.
  - by apply nodup_map_filter.
Qed.

Lemma apply_correction_eq len maxp data pos nd corr p :
  len <= 239 -> 0 < corr < 256 -> 0 <= p ->
  apply_correction len maxp (data, pos, nd) (corr, p) =
  if len <=? p then (data, pos, nd)
  else (fix1 data (corr, p),
        match maxp with Some m => if nd <? m then pos ++ [p] else pos | None => pos end, nd + 1).
Proof.
  intros Hlen Hc Hp. unfold apply_correction, fix1. cbn [fst snd].
  assert ((p <? 0) = false) as -> by lia. cbn [orb]. destruct (len <=? p) eqn:E; [done|].
  assert (u8 corr = corr) as -> by (apply Z.mod_small; lia).
  by assert (u8 p = p) as -> by (apply Z.mod_small; lia).
Qed.

Lemma apply_corrections_fold len maxp cs data pos n nd :
  len <= 239 -> corrections_ok n cs ->
  foldl (apply_correction len maxp) (data, pos, nd) cs =
  (fix_all data (data_part len cs),
   pos ++ match maxp with
          | Some m => take (Z.to_nat (m - nd)) (map snd (data_part len cs)) | None => [] end,
   nd + zlen (data_part len cs)).
Proof.
  intros Hlen [H _]. revert data pos nd.
  induction H as [|[corr p] cs [Hc Hp] H IH]; intros data pos nd; cbn [foldl].
  { unfold data_part. cbn. rewrite Z.add_0_r. destruct maxp; [rewrite take_nil|]; by rewrite app_nil_r. }
  cbn [fst snd] in *. rewrite apply_correction_eq by lia.
  unfold data_part. rewrite filter_cons. cbn [snd].
  destruct (len <=? p) eqn:E; case_decide; try lia; rewrite IH; [done|].
  cbn [map snd]. rewrite zlen_cons.
  f_equal; [|unfold data_part; lia]. f_equal. destruct maxp as [m|]; [|done].
  destruct (nd <? m) eqn:Em.
  - replace (Z.to_nat (m - nd)) with (S (Z.to_nat (m - (nd + 1)))) by lia. simpl.
    by rewrite <- app_assoc.
  - replace (Z.to_nat (m - nd)) with 0%nat by lia.
    by replace (Z.to_nat (m - (nd + 1))) with 0%nat by lia.
Qed.

(** Correcting the data alone is the data half of correcting the word. *)
Lemma fix_all_data data par cs :
  corrections_ok (zlen data + zlen par) cs ->
  fix_all data (data_part (zlen data) cs) = slice (fix_all (data ++ par) cs) 0 (zlen data).
Proof.
  intros C. pose proof (zlen_nonneg data) as Hd. pose proof (zlen_nonneg par) as Hp.
  assert (Hz : zlen (fix_all (data ++ par) cs) = zlen data + zlen par)
    by (rewrite zlen_fix_all; zlen).
  pose proof (data_part_ok _ (zlen data) _ C) as Cd.
  apply bytes_ext; rewrite ?zlen_fix_all; [by rewrite zlen_slice by lia|].
  intros i Hi. rewrite getb_slice by lia. rewrite Z.add_0_l.
  assert (Fw : Forall (fix_ok (zlen (data ++ par))) cs)
    by (rewrite zlen_app; by apply corrections_fix_ok).
  assert (Fd : Forall (fix_ok (zlen data)) (data_part (zlen data) cs)) by (by apply corrections_fix_ok).
  destruct C as [_ Nw], Cd as [_ Nd].
  destruct (decide (i ∈ map snd cs)) as [Hin|Hout].
  - apply list_elem_of_In, in_map_iff in Hin as ([b p] & <- & Hin). apply list_elem_of_In in Hin.
    cbn [snd] in *. rewrite (getb_fix_all_in _ _ _ _ Fw Nw Hin).
    rewrite (getb_fix_all_in _ _ b p Fd Nd).
    + by rewrite getb_app_l.
    + apply list_elem_of_filter. cbn. split; [lia|done].
  - rewrite (getb_fix_all_out cs (data ++ par) _ i Fw) by (done || lia).
    rewrite (getb_fix_all_out _ _ (zlen data)); [by rewrite getb_app_l|done|lia|].
    intros Hin. apply Hout. apply list_elem_of_In, in_map_iff in Hin as (c & <- & Hin).
    apply list_elem_of_In, list_elem_of_filter in Hin as [_ Hin].
    apply list_elem_of_In, in_map_iff. exists c. split; [done|by apply list_elem_of_In].
Qed.

Lemma fix_all_perm n cs cs' w :
  cs ≡ₚ cs' -> corrections_ok n cs -> zlen w = n -> fix_all w cs = fix_all w cs'.
Proof.
  intros Hp C Hw. pose proof (corrections_perm _ _ _ Hp C) as C'.
  pose proof (corrections_fix_ok _ _ C) as F. pose proof (corrections_fix_ok _ _ C') as F'.
  destruct C as [_ N], C' as [_ N']. subst n.
  apply bytes_ext; rewrite ?zlen_fix_all; [done|]. intros i Hi.
  destruct (decide (i ∈ map snd cs)) as [Hin|Hout].
  - apply list_elem_of_In, in_map_iff in Hin as ([b p] & <- & Hin). apply list_elem_of_In in Hin.
    cbn [snd]. rewrite (getb_fix_all_in _ _ b p F N Hin).
    rewrite (getb_fix_all_in _ _ b p F' N'); [done|by rewrite <- Hp].
  - rewrite (getb_fix_all_out _ _ (zlen w) i F) by (done || lia).
    rewrite (getb_fix_all_out _ _ (zlen w) i F'); [done|lia|by rewrite <- Hp].
Qed.

(** The positions written are those of the data bytes that changed. *)
Lemma sorted_positions data cs :
  corrections_ok (zlen data) cs -> sorted_pos cs -> map snd cs = changed data (fix_all data cs).
Proof.
  intros C Hs. pose proof (corrections_fix_ok _ _ C) as F. destruct C as [C N].
  apply sorted_lt_ext.
  - clear -Hs N. induction Hs as [|x l Hs IH Hx]; constructor.
    + apply IH. by apply list.NoDup_cons in N as [_ ?].
    + apply list.NoDup_cons in N as [Nx _]. apply Forall_forall. intros y Hy.
      rewrite Forall_forall in Hx. specialize (Hx y Hy).
      assert (y <> x) by (intros ->; apply Nx; by apply list_elem_of_In). lia.
  - unfold changed. rewrite <- (map_id (filter _ _)). apply sorted_filter.
    rewrite map_id. apply sorted_upto.
  - intros j. rewrite elem_of_changed.
    assert (Hf : map snd (filter (fun bp : Z * Z => fst bp <> 0) cs) = map snd cs).
    { f_equal. apply filter_all. intros c Hc. rewrite Forall_forall in C.
      specialize (C c (proj1 (list_elem_of_In _ _) Hc)). lia. }
    split.
    + intros Hj. assert (0 <= j < zlen data) as Hb.
      { apply list_elem_of_In, in_map_iff in Hj as (c & <- & Hc).
        rewrite Forall_forall in C. apply (C c Hc). }
      split; [done|]. apply fix_all_changed; [done|done|lia|by rewrite Hf].
    + intros [Hj Hne]. apply (fix_all_changed _ _ _ F N) in Hne; [|lia]. by rewrite Hf in Hne.
Qed.

Lemma sorted_le_filter {A} (f : A -> Z) (P : A -> Prop) `{Hdec : !forall x, Decision (P x)} (l : list A) :
  StronglySorted Z.le (map f l) -> StronglySorted Z.le (map f (filter P l)).
Proof.
  induction l as [|c l IH]; intros Hs; [done|].
  cbn [map] in Hs. inversion Hs as [|? ? Hs' Hc]; subst. rewrite filter_cons.
  case_decide; [|by apply IH]. cbn [map]. constructor; [by apply IH|].
  rewrite Forall_forall in Hc |- *. intros y (z & <- & Hz)%in_map_iff. apply Hc, in_map.
  by apply list_elem_of_In, list_elem_of_filter, proj2, list_elem_of_In in Hz.
Qed.

(** ** Encode and decode of one codeword *)

Section word.
Context `{RL : !RsLib} `{RS : !RsLibSpec} (t : rs_tables) (cpu : nat).
Context (Hctrl : ctrl_here t cpu = true).

Lemma ctrl_array : exists l, t_ctrl t = Some l.
Proof. unfold ctrl_here in Hctrl. destruct (t_ctrl t); [by eexists|done]. Qed.

Lemma slice_all {A} (l : list A) : slice l 0 (zlen l) = l.
Proof. unfold slice, zlen. simpl. rewrite drop_0, Nat2Z.id. by apply firstn_all. Qed.

Lemma u8_bytes l : bytes l -> map u8 l = l.
Proof.
  intros H. rewrite <- (map_id l) at 2. apply map_ext_Forall.
  eapply Forall_impl; [|exact H]. intros x Hx. by apply Z.mod_small.
Qed.

Lemma rs_encode_eq data :
  bytes data -> zlen data <= 239 -> beamfs_rs_encode t cpu data (zlen data) = (0, encode_rs8 data).
Proof.
  intros Hb Hl. unfold beamfs_rs_encode. destruct ctrl_array as [l ->]. rewrite Hctrl.
  unfold BEAMFS_SUBBLOCK_DATA. destruct (239 <? zlen data) eqn:E; [lia|]. cbn [negb].
  rewrite slice_all. rewrite u8_bytes; [done|]. by apply encode_rs8_bytes.
Qed.

(** A decode either gives up and touches nothing, or finds a codeword. *)
Record word_fixed (data par : list Z) (n : Z) (d' p' : list Z) : Prop := {
  wf_codeword : is_codeword (d' ++ p');
  wf_bytes : bytes (d' ++ p');
  wf_len : zlen d' = zlen data;
  wf_par : zlen p' = 16;
  wf_distance : hamming (data ++ par) (d' ++ p') = n;
  wf_bound : 0 <= n <= 16 }.

Definition decode_return (maxp : option Z) (n : Z) (ch : list Z) : Z :=
  match maxp with Some m => Z.min (zlen ch) m | None => n end.

Definition decode_positions (maxp : option Z) (ch : list Z) : list Z :=
  match maxp with Some m => take (Z.to_nat m) ch | None => [] end.

Lemma corrections_split data par cs :
  rs_input data par -> decode_rs8 data par = Some cs ->
  corrections_ok (zlen data + 16) cs /\ zlen cs <= 16 /\
  word_fixed data par (zlen cs) (slice (fix_all (data ++ par) cs) 0 (zlen data))
    (slice (fix_all (data ++ par) cs) (zlen data) 16).
Proof.
  intros Hin E. destruct (decode_rs8_sound _ _ _ Hin E) as (F & N & H16 & C).
  destruct Hin as (Bd & Bp & Hl & Hp).
  assert (Cok : corrections_ok (zlen data + 16) cs) by done.
  split; [done|]. split; [done|].
  assert (Hz : zlen (data ++ par) = zlen data + 16) by zlen.
  pose proof (corrections_fix_ok _ _ Cok) as Fx. rewrite <- Hz in Fx.
  set (w' := fix_all (data ++ par) cs) in *.
  assert (Hw' : zlen w' = zlen data + 16) by (unfold w'; rewrite zlen_fix_all; zlen).
  assert (Ew : slice w' 0 (zlen data) ++ slice w' (zlen data) 16 = w').
  { unfold slice. change (Z.to_nat 0) with 0%nat. rewrite drop_0.
    rewrite (take_ge (drop _ _)); [apply take_drop|]. rewrite length_drop. unfold zlen in *. lia. }
  split; rewrite ?Ew; try done.
  - eapply bytes_fix_all; [|exact Fx]. by apply bytes_app.
  - zlen.
  - zlen.
  - unfold w'. rewrite hamming_fix_all by done. f_equal. apply filter_all.
    intros c Hc. rewrite Forall_forall in F. specialize (F c (proj1 (list_elem_of_In _ _) Hc)). lia.
  - pose proof (zlen_nonneg cs). lia.
Qed.

(** The guards of a decode pass on a well-formed call. *)
Lemma rs_decode_guards data par maxp :
  rs_input data par -> (forall m, maxp = Some m -> 0 < m) ->
  beamfs_rs_decode t cpu data (zlen data) par maxp =
  match decode_rs8 data par with
  | None => (- EBADMSG, data, [])
  | Some cs =>
    if BEAMFS_RS_PARITY <? zlen cs then (- EBADMSG, data, [])
    else
      let '(data, positions, n_data) :=
        foldl (apply_correction (zlen data) maxp) (data, [], 0) (sort_corrections cs) in
      match maxp with
      | Some m => (Z.min n_data m, data, positions)
      | None => (zlen cs, data, positions)
      end
  end.
Proof.
  intros (_ & _ & Hl & _) Hm. unfold beamfs_rs_decode. destruct ctrl_array as [l ->]. rewrite Hctrl.
  unfold BEAMFS_SUBBLOCK_DATA. destruct (239 <? zlen data) eqn:E1; [lia|].
  assert (match maxp with Some m => m =? 0 | None => false end = false) as ->.
  { destruct maxp as [m|]; [|done]. specialize (Hm m eq_refl). lia. }
  cbn [negb]. by rewrite slice_all.
Qed.

(** The data half of the corrected word. *)
Definition fixed_data (data par : list Z) (cs : list (Z * Z)) : list Z :=
  slice (fix_all (data ++ par) cs) 0 (zlen data).

Lemma rs_decode_some data par maxp cs :
  rs_input data par -> (forall m, maxp = Some m -> 0 < m) -> decode_rs8 data par = Some cs ->
  beamfs_rs_decode t cpu data (zlen data) par maxp =
    (decode_return maxp (zlen cs) (changed data (fixed_data data par cs)), fixed_data data par cs,
     decode_positions maxp (changed data (fixed_data data par cs))).
Proof.
  intros Hin Hm E. rewrite rs_decode_guards, E by done.
  destruct (corrections_split _ _ _ Hin E) as (Cok & H16 & W).
  unfold BEAMFS_RS_PARITY. destruct (16 <? zlen cs) eqn:E2; [lia|].
  destruct (sort_corrections_spec cs) as [Hp Hs].
  pose proof (corrections_perm _ _ _ (symmetry Hp) Cok) as Cok'.
  destruct Hin as (_ & _ & Hl & Hpar).
  rewrite (apply_corrections_fold _ _ _ _ _ (zlen data + 16)) by (done || lia).
  assert (Ed : fix_all data (data_part (zlen data) (sort_corrections cs)) = fixed_data data par cs).
  { unfold fixed_data. rewrite (fix_all_data data par) by (by rewrite Hpar).
    by rewrite (fix_all_perm _ _ _ _ Hp Cok') by zlen. }
  assert (Es : map snd (data_part (zlen data) (sort_corrections cs)) =
               changed data (fixed_data data par cs)).
  { rewrite <- Ed. apply sorted_positions; [by eapply data_part_ok|]. by apply sorted_le_filter. }
  rewrite <- (zlen_map snd (data_part _ _)), Ed, Es.
  destruct maxp as [m|]; cbn [decode_return decode_positions]; [by rewrite Z.sub_0_r|done].
Qed.

Lemma rs_decode_cases data par maxp :
  rs_input data par -> (forall m, maxp = Some m -> 0 < m) ->
  beamfs_rs_decode t cpu data (zlen data) par maxp = (- EBADMSG, data, []) \/
  exists n d' p', word_fixed data par n d' p' /\
    beamfs_rs_decode t cpu data (zlen data) par maxp =
      (decode_return maxp n (changed data d'), d', decode_positions maxp (changed data d')).
Proof.
  intros Hin Hm. destruct (decode_rs8 data par) as [cs|] eqn:E.
  - right. exists (zlen cs), (fixed_data data par cs), (slice (fix_all (data ++ par) cs) (zlen data) 16).
    split; [by apply corrections_split|]. by apply rs_decode_some.
  - left. by rewrite rs_decode_guards, E.
Qed.

(** A clean codeword is left alone. *)
Lemma rs_decode_codeword data par maxp :
  rs_input data par -> is_codeword (data ++ par) -> (forall m, maxp = Some m -> 0 < m) ->
  beamfs_rs_decode t cpu data (zlen data) par maxp = (0, data, []).
Proof.
  intros Hin C Hm. rewrite rs_decode_guards, decode_rs8_clean by done. cbn.
  destruct maxp as [m|]; [|done]. specialize (Hm m eq_refl). by rewrite Z.min_l by lia.
Qed.
End word.

(** What was written comes back when damage and correction stay within
    the distance of the code. *)
Lemma word_fixed_original data par data' par' n d' p' :
  bytes (data ++ par) -> bytes (data' ++ par') -> is_codeword (data ++ par) ->
  zlen data = zlen data' -> zlen par = 16 -> zlen par' = 16 -> zlen data <= 239 ->
  word_fixed data' par' n d' p' -> hamming (data ++ par) (data' ++ par') + n <= 16 ->
  d' = data /\ p' = par.
Proof.
  intros B B' C Hl Hp Hp' Hmax [] Hn.
  assert (H : data ++ par = d' ++ p').
  { apply codeword_distance; [done|done|zlen|zlen|done|done|].
    etransitivity; [apply (hamming_triangle _ (data' ++ par')); zlen|].
    change RS_NROOTS with 16. lia. }
  apply app_inj_1 in H as [-> ->]; [done|]. unfold zlen in *. lia.
Qed.
