(* ===== verification/EdacBlock.v ===== *)
(** * Blocks of codewords

    A protected buffer is an array of codewords under a layout: where
    symbol [k] of codeword [i] lives.  The contiguous regions and the
    interleaved blocks of edac.c are two layouts; encoding, decoding and
    the resistance to damage are proved once, against the layout. *)

From S2P Require Import Prelude Format RsInit GF RsTheory RsCode RsCorrect RsDecode RsLib Edac EdacWord.

Record layout := Layout {
  l_size : Z;              (** bytes of the buffer *)
  l_n : Z;                 (** codewords *)
  l_len : Z;               (** data symbols per codeword *)
  l_data : Z -> Z -> Z;    (** offset of data symbol [k] of codeword [i] *)
  l_par : Z -> Z }.        (** offset of the parity of codeword [i] *)

Definition addr (L : layout) (i k : Z) : Z :=
  if k <? l_len L then l_data L i k else l_par L i + (k - l_len L).

(** Symbols lie in the buffer and no two share a byte. *)
Class LayoutOk (L : layout) : Prop := {
  lo_n : 0 <= l_n L;
  lo_len : 0 < l_len L <= 239;
  lo_range : forall i k, 0 <= i < l_n L -> 0 <= k < l_len L + 16 -> 0 <= addr L i k < l_size L;
  lo_inj : forall i k j m, 0 <= i < l_n L -> 0 <= k < l_len L + 16 ->
    0 <= j < l_n L -> 0 <= m < l_len L + 16 -> addr L i k = addr L j m -> i = j /\ k = m }.

Definition cw_data (L : layout) (mem : list Z) (i : Z) : list Z :=
  map (fun k => getb mem (l_data L i k)) (upto (l_len L)).

Definition cw_par (L : layout) (mem : list Z) (i : Z) : list Z := slice mem (l_par L i) 16.

Definition cw (L : layout) (mem : list Z) (i : Z) : list Z := cw_data L mem i ++ cw_par L mem i.

(** ** Scattered writes *)

Definition scatter (f : Z -> Z) (mem src : list Z) (n : Z) : list Z :=
  foldl (fun mem k => setb mem (f k) (getb src k)) mem (upto n).

Lemma scatter_spec (f : Z -> Z) mem src n :
  0 <= n -> (forall k, 0 <= k < n -> 0 <= f k < zlen mem) ->
  (forall k m, 0 <= k < n -> 0 <= m < n -> f k = f m -> k = m) ->
  zlen (scatter f mem src n) = zlen mem /\
  (forall k, 0 <= k < n -> getb (scatter f mem src n) (f k) = getb src k) /\
  (forall a, 0 <= a -> (forall k, 0 <= k < n -> f k <> a) -> getb (scatter f mem src n) a = getb mem a).
Proof.
  intros Hn Hr Hi. unfold scatter.
  apply (foldl_upto_ind _ (fun j m => zlen m = zlen mem /\
    (forall k, 0 <= k < j -> getb m (f k) = getb src k) /\
    (forall a, 0 <= a -> (forall k, 0 <= k < j -> f k <> a) -> getb m a = getb mem a))); [done| |].
  { split_and!; [done|lia|done]. }
  intros j m Hj (L & A & B). split_and!.
  - by rewrite zlen_setb.
  - intros k Hk. destruct (decide (k = j)) as [->|].
    + apply getb_setb_eq. rewrite L. by apply Hr.
    + rewrite getb_setb_ne; [apply A; lia|apply Hr; lia|apply Hr; lia|].
      intros E. apply Hi in E; lia.
  - intros a Ha Hk. rewrite getb_setb_ne; [|apply Hr; lia|done|apply Hk; lia].
    apply B; [done|]. intros k ?. apply Hk. lia.
Qed.

Lemma bytes_scatter f mem src n : bytes mem -> bytes src -> bytes (scatter f mem src n).
Proof.
  intros Hm Hs. unfold scatter. revert mem Hm. induction (upto n) as [|k l IH]; intros mem Hm; [done|].
  apply IH. auto with bytes.
Qed.

Lemma splice_scatter mem off src :
  0 <= off -> off + zlen src <= zlen mem ->
  splice mem off src = scatter (fun k => off + k) mem src (zlen src).
Proof.
  intros Ho Hl. destruct (scatter_spec (fun k => off + k) mem src (zlen src)) as (L & A & B);
    [apply zlen_nonneg|lia|lia|].
  apply bytes_ext; [rewrite L; by apply zlen_splice|]. rewrite zlen_splice by done. intros i Hi.
  destruct (decide (off <= i < off + zlen src)).
  - rewrite getb_splice_in by lia. specialize (A (i - off) ltac:(lia)).
    by replace (off + (i - off)) with i in A by lia.
  - rewrite getb_splice_out by lia. symmetry. apply B; lia.
Qed.

Lemma slice_gather mem off n :
  0 <= off -> 0 <= n -> off + n <= zlen mem ->
  slice mem off n = map (fun k => getb mem (off + k)) (upto n).
Proof.
  intros. apply bytes_ext; [zlen|]. rewrite zlen_slice by done. intros i Hi.
  rewrite getb_slice by lia. rewrite getb_map by zlen. by rewrite getb_upto by done.
Qed.

(** ** Reading and writing codewords under a layout *)

Section layout.
Context (L : layout) {LO : LayoutOk L}.

Lemma addr_data i k : 0 <= k < l_len L -> addr L i k = l_data L i k.
Proof. intros. unfold addr. destruct (k <? l_len L) eqn:E; [done|lia]. Qed.

Lemma addr_par i k : 0 <= k -> addr L i (l_len L + k) = l_par L i + k.
Proof. intros. unfold addr. destruct (l_len L + k <? l_len L) eqn:E; [lia|]. f_equal. lia. Qed.

Lemma data_range i k : 0 <= i < l_n L -> 0 <= k < l_len L -> 0 <= l_data L i k < l_size L.
Proof. intros. rewrite <- addr_data by done. apply lo_range; lia. Qed.

Lemma par_range i : 0 <= i < l_n L -> 0 <= l_par L i /\ l_par L i + 16 <= l_size L.
Proof.
  intros Hi. pose proof (lo_len (L := L)).
  pose proof (lo_range i (l_len L + 0) Hi ltac:(lia)) as A.
  pose proof (lo_range i (l_len L + 15) Hi ltac:(lia)) as B.
  rewrite addr_par in A, B by lia. lia.
Qed.

Lemma data_inj i k j m : 0 <= i < l_n L -> 0 <= k < l_len L -> 0 <= j < l_n L -> 0 <= m < l_len L ->
  l_data L i k = l_data L j m -> i = j /\ k = m.
Proof. intros ? ? ? ?. rewrite <- !addr_data by done. apply lo_inj; lia. Qed.

Lemma data_par_disjoint i k j m : 0 <= i < l_n L -> 0 <= k < l_len L -> 0 <= j < l_n L -> 0 <= m < 16 ->
  l_data L i k <> l_par L j + m.
Proof.
  intros ? ? ? ? E. pose proof (lo_len (L := L)).
  rewrite <- addr_data, <- addr_par in E by lia. apply lo_inj in E; lia.
Qed.

Lemma par_inj i k j m : 0 <= i < l_n L -> 0 <= k < 16 -> 0 <= j < l_n L -> 0 <= m < 16 ->
  l_par L i + k = l_par L j + m -> i = j /\ k = m.
Proof.
  intros ? ? ? ? E. pose proof (lo_len (L := L)). rewrite <- !addr_par in E by lia.
  apply lo_inj in E; lia.
Qed.

Lemma zlen_cw_data mem i : zlen (cw_data L mem i) = l_len L.
Proof. pose proof (lo_len (L := L)). unfold cw_data. zlen. Qed.

Lemma zlen_cw_par mem i : zlen mem = l_size L -> 0 <= i < l_n L -> zlen (cw_par L mem i) = 16.
Proof. intros Hm Hi. pose proof (par_range i Hi). unfold cw_par. by rewrite zlen_slice by lia. Qed.

Lemma bytes_cw_data mem i : bytes mem -> bytes (cw_data L mem i).
Proof. intros. unfold cw_data. apply Forall_map, Forall_forall. intros. auto with bytes. Qed.

Lemma getb_cw_data mem i k : 0 <= k < l_len L -> getb (cw_data L mem i) k = getb mem (l_data L i k).
Proof. intros. unfold cw_data. rewrite getb_map by zlen. by rewrite getb_upto. Qed.

Lemma cw_input mem i :
  zlen mem = l_size L -> bytes mem -> 0 <= i < l_n L -> rs_input (cw_data L mem i) (cw_par L mem i).
Proof.
  intros Hm Hb Hi. pose proof (lo_len (L := L)). split_and!.
  - by apply bytes_cw_data.
  - unfold cw_par. auto with bytes.
  - rewrite zlen_cw_data. lia.
  - rewrite zlen_cw_data. lia.
  - by apply zlen_cw_par.
Qed.

Lemma cw_data_ext mem mem' i :
  (forall k, 0 <= k < l_len L -> getb mem (l_data L i k) = getb mem' (l_data L i k)) ->
  cw_data L mem i = cw_data L mem' i.
Proof.
  intros H. apply map_ext_Forall, Forall_forall.
  intros k Hk%list_elem_of_In%elem_of_upto. by apply H.
Qed.

Lemma cw_par_ext mem mem' i :
  zlen mem = l_size L -> zlen mem' = l_size L -> 0 <= i < l_n L ->
  (forall k, 0 <= k < 16 -> getb mem (l_par L i + k) = getb mem' (l_par L i + k)) ->
  cw_par L mem i = cw_par L mem' i.
Proof.
  intros Hm Hm' Hi H. pose proof (par_range i Hi). unfold cw_par.
  apply bytes_ext; [by rewrite !zlen_slice by lia|]. rewrite zlen_slice by lia. intros k Hk.
  rewrite !getb_slice by lia. by apply H.
Qed.

(** Writing the parity of codeword [i]. *)
Lemma put_par mem i p :
  zlen mem = l_size L -> zlen p = 16 -> 0 <= i < l_n L ->
  let mem' := splice mem (l_par L i) p in
  zlen mem' = l_size L /\ cw_par L mem' i = p /\
  (forall j, 0 <= j < l_n L -> cw_data L mem' j = cw_data L mem j) /\
  (forall j, 0 <= j < l_n L -> j <> i -> cw_par L mem' j = cw_par L mem j) /\
  (forall a, 0 <= a -> ~ (l_par L i <= a < l_par L i + 16) -> getb mem' a = getb mem a).
Proof.
  intros Hm Hp Hi mem'. pose proof (par_range i Hi) as Hr.
  assert (Hout : forall a, 0 <= a -> ~ (l_par L i <= a < l_par L i + 16) -> getb mem' a = getb mem a)
    by (intros; apply getb_splice_out; lia).
  assert (Hz : zlen mem' = l_size L) by (unfold mem'; rewrite zlen_splice; lia).
  split_and!; try done.
  - unfold cw_par, mem'. rewrite <- Hp. by apply slice_splice_eq; lia.
  - intros j Hj. apply cw_data_ext. intros k Hk. pose proof (data_range j k Hj Hk).
    apply Hout; [lia|]. intros Hin.
    apply (data_par_disjoint j k i (l_data L j k - l_par L i)); (done || lia).
  - intros j Hj Hne. apply cw_par_ext; try done. intros k Hk. pose proof (par_range j Hj).
    apply Hout; [lia|]. intros Hin.
    destruct (par_inj j k i (l_par L j + k - l_par L i)); (done || lia).
Qed.

(** Writing the data of codeword [i]. *)
Lemma put_data mem i d :
  zlen mem = l_size L -> zlen d = l_len L -> 0 <= i < l_n L ->
  let mem' := scatter (l_data L i) mem d (l_len L) in
  zlen mem' = l_size L /\ cw_data L mem' i = d /\
  (forall j, 0 <= j < l_n L -> cw_par L mem' j = cw_par L mem j) /\
  (forall j, 0 <= j < l_n L -> j <> i -> cw_data L mem' j = cw_data L mem j) /\
  (forall a, 0 <= a -> (forall k, 0 <= k < l_len L -> l_data L i k <> a) -> getb mem' a = getb mem a).
Proof.
  intros Hm Hd Hi mem'. pose proof (lo_len (L := L)).
  destruct (scatter_spec (l_data L i) mem d (l_len L)) as (A & B & C); [lia| | |].
  { intros k Hk. rewrite Hm. by apply data_range. }
  { intros k m Hk Hk' E. by apply data_inj in E as [_ ?]. }
  assert (Hz : zlen mem' = l_size L) by (unfold mem'; lia).
  split_and!; try done.
  - apply bytes_ext; [by rewrite zlen_cw_data|]. rewrite zlen_cw_data. intros k Hk.
    rewrite getb_cw_data by done. by apply B.
  - intros j Hj. apply cw_par_ext; try done. intros k Hk. pose proof (par_range j Hj).
    apply C; [lia|]. intros m Hm'. by apply data_par_disjoint.
  - intros j Hj Hne. apply cw_data_ext. intros k Hk. apply C; [by apply data_range|].
    intros m Hm' E. apply data_inj in E; (done || lia).
Qed.
End layout.

(** ** Encoding and decoding every codeword *)

Lemma foldl_ext_inv {S} (I : S -> Prop) (f g : S -> Z -> S) (s : S) (l : list Z) :
  I s -> (forall s i, i ∈ l -> I s -> f s i = g s i /\ I (f s i)) -> foldl f s l = foldl g s l.
Proof.
  revert s. induction l as [|i l IH]; intros s Hs H; [done|]. cbn [foldl].
  destruct (H s i) as [E HI]; [left|done|]. rewrite <- E. apply IH; [done|].
  intros s' j Hj. apply H. by right.
Qed.

Section loops.
Context `{RL : !RsLib} `{RS : !RsLibSpec} (t : rs_tables) (cpu : nat).
Context (Hctrl : ctrl_here t cpu = true) (L : layout) {LO : LayoutOk L}.

Definition enc_loop (mem : list Z) : Z * list Z :=
  foldl (fun '(ret, mem) i =>
    if ret <? 0 then (ret, mem)
    else
      let '(rc, par) := beamfs_rs_encode t cpu (cw_data L mem i) (l_len L) in
      if rc <? 0 then (rc, mem) else (0, splice mem (l_par L i) par))
    (0, mem) (upto (l_n L)).

(** [mem'] is [mem] with the parity of every codeword computed. *)
Record encoded (mem mem' : list Z) : Prop := {
  en_len : zlen mem' = l_size L;
  en_bytes : bytes mem';
  en_data : forall i, 0 <= i < l_n L -> cw_data L mem' i = cw_data L mem i;
  en_par : forall i, 0 <= i < l_n L -> cw_par L mem' i = encode_rs8 (cw_data L mem i);
  en_out : forall a, 0 <= a ->
    (forall i, 0 <= i < l_n L -> ~ (l_par L i <= a < l_par L i + 16)) -> getb mem' a = getb mem a }.

Lemma enc_loop_spec mem :
  zlen mem = l_size L -> bytes mem -> exists mem', enc_loop mem = (0, mem') /\ encoded mem mem'.
Proof.
  intros Hm Hb. unfold enc_loop. pose proof (lo_len (L := L)) as Hlen.
  set (P := fun n (st : Z * list Z) => exists mem', st = (0, mem') /\ zlen mem' = l_size L /\ bytes mem' /\
    (forall i, 0 <= i < l_n L -> cw_data L mem' i = cw_data L mem i) /\
    (forall i, 0 <= i < n -> cw_par L mem' i = encode_rs8 (cw_data L mem i)) /\
    (forall a, 0 <= a -> (forall i, 0 <= i < n -> ~ (l_par L i <= a < l_par L i + 16)) ->
       getb mem' a = getb mem a)).
  match goal with |- exists mem', ?f = _ /\ _ => assert (G : P (l_n L) f) end.
  2:{ destruct G as (mem' & -> & ?). exists mem'. split; [done|]. split; tauto. }
  apply (foldl_upto_ind _ P); [apply lo_n| |].
  { exists mem. split_and!; (done || lia). }
  intros i st Hi (m & -> & Hz & B & Hd & Hp & Ho). cbn [Z.ltb Z.compare].
  pose proof (rs_encode_eq t cpu Hctrl (cw_data L m i)) as E. rewrite zlen_cw_data in E by done.
  rewrite E; [|by apply bytes_cw_data|lia]. cbn [Z.ltb Z.compare].
  rewrite (Hd i Hi). assert (Bd : bytes (cw_data L mem i)) by (by apply bytes_cw_data).
  assert (Hle : zlen (cw_data L mem i) <= 239) by (rewrite zlen_cw_data by done; lia).
  pose proof (encode_rs8_len _ Bd Hle) as H16. pose proof (encode_rs8_bytes _ Bd Hle) as HB.
  destruct (put_par L m i (encode_rs8 (cw_data L mem i)) Hz H16 Hi) as (P1 & P2 & P3 & P4 & P5).
  eexists. split; [done|]. split_and!; [done|auto with bytes| | |].
  - intros j Hj. rewrite P3 by done. by apply Hd.
  - intros j Hj. destruct (decide (j = i)) as [->|]; [done|].
    rewrite P4 by lia. apply Hp. lia.
  - intros a Ha Hn. rewrite P5; [|done|apply Hn; lia]. apply Ho; [done|].
    intros j Hj. apply Hn. lia.
Qed.

Context (maxp : option Z) (Hmaxp : forall m, maxp = Some m -> 0 < m).

(** The decode of codeword [i] of a buffer. *)
Definition dec1 (mem : list Z) (i : Z) : Z * list Z * list Z :=
  beamfs_rs_decode t cpu (cw_data L mem i) (l_len L) (cw_par L mem i) maxp.

Definition dec_loop (mem : list Z) : list Z * list Z * list (list Z) :=
  foldl (fun '(mem, results, positions) i =>
    let '(rc, d, pos) := dec1 mem i in
    (scatter (l_data L i) mem d (l_len L), results ++ [rc], positions ++ [pos]))
    (mem, [], []) (upto (l_n L)).

(** [mem'] is [mem] with every codeword's data replaced by its decode. *)
Record decoded (mem mem' : list Z) : Prop := {
  de_len : zlen mem' = l_size L;
  de_bytes : bytes mem';
  de_data : forall i, 0 <= i < l_n L -> cw_data L mem' i = snd (fst (dec1 mem i));
  de_par : forall i, 0 <= i < l_n L -> cw_par L mem' i = cw_par L mem i;
  de_out : forall a, 0 <= a ->
    (forall i k, 0 <= i < l_n L -> 0 <= k < l_len L -> l_data L i k <> a) -> getb mem' a = getb mem a }.

Lemma dec1_data mem i :
  zlen mem = l_size L -> bytes mem -> 0 <= i < l_n L ->
  zlen (snd (fst (dec1 mem i))) = l_len L /\ bytes (snd (fst (dec1 mem i))).
Proof.
  intros Hm Hb Hi. unfold dec1. pose proof (cw_input L mem i Hm Hb Hi) as Hin.
  pose proof (rs_decode_cases t cpu Hctrl _ _ maxp Hin Hmaxp) as C.
  rewrite zlen_cw_data in C by done.
  destruct C as [->|(n & d' & p' & W & ->)]; cbn [fst snd].
  - rewrite zlen_cw_data by done. split; [done|by apply bytes_cw_data].
  - destruct W as [_ B Hl _ _ _]. rewrite Hl, zlen_cw_data by done.
    split; [done|]. by apply bytes_app in B as [? _].
Qed.

Lemma dec1_ext mem mem' i :
  cw_data L mem i = cw_data L mem' i -> cw_par L mem i = cw_par L mem' i ->
  dec1 mem i = dec1 mem' i.
Proof. intros E1 E2. unfold dec1. by rewrite E1, E2. Qed.

Lemma dec_loop_spec mem :
  zlen mem = l_size L -> bytes mem -> exists mem', decoded mem mem' /\
    dec_loop mem = (mem', map (fun i => fst (fst (dec1 mem i))) (upto (l_n L)),
                    map (fun i => snd (dec1 mem i)) (upto (l_n L))).
Proof.
  intros Hm Hb. unfold dec_loop.
  set (P := fun n (st : list Z * list Z * list (list Z)) => exists mem',
    st = (mem', map (fun i => fst (fst (dec1 mem i))) (upto n), map (fun i => snd (dec1 mem i)) (upto n)) /\
    zlen mem' = l_size L /\ bytes mem' /\
    (forall i, 0 <= i < n -> cw_data L mem' i = snd (fst (dec1 mem i))) /\
    (forall i, n <= i < l_n L -> cw_data L mem' i = cw_data L mem i) /\
    (forall i, 0 <= i < l_n L -> cw_par L mem' i = cw_par L mem i) /\
    (forall a, 0 <= a -> (forall i k, 0 <= i < l_n L -> 0 <= k < l_len L -> l_data L i k <> a) ->
       getb mem' a = getb mem a)).
  match goal with |- exists mem', _ /\ ?f = _ => assert (G : P (l_n L) f) end.
  2:{ destruct G as (mem' & -> & ? & ? & ? & ? & ? & ?). exists mem'. split; [|done]. by split. }
  apply (foldl_upto_ind _ P); [apply lo_n| |].
  { exists mem. split_and!; (done || lia). }
  intros i st Hi (m & -> & Hz & B & Hd & Hu & Hp & Ho).
  assert (E : dec1 m i = dec1 mem i) by (apply dec1_ext; [apply Hu; lia|by apply Hp]).
  rewrite E. destruct (dec1_data mem i Hm Hb Hi) as [Hl Bd].
  destruct (dec1 mem i) as [[rc d] pos] eqn:Ed. cbn [fst snd] in *.
  destruct (put_data L m i d Hz Hl Hi) as (P1 & P2 & P3 & P4 & P5).
  exists (scatter (l_data L i) m d (l_len L)). split_and!.
  - rewrite upto_succ, !map_app by lia. cbn [map]. by rewrite Ed.
  - done.
  - by apply bytes_scatter.
  - intros j Hj. destruct (decide (j = i)) as [->|]; [by rewrite P2, Ed|].
    rewrite P4 by lia. apply Hd. lia.
  - intros j Hj. rewrite P4 by lia. apply Hu. lia.
  - intros j Hj. rewrite P3 by done. by apply Hp.
  - intros a Ha Hn. rewrite P5; [by apply Ho|done|]. intros k Hk. by apply Hn.
Qed.

(** An encoded buffer decodes to itself. *)
Lemma decode_encoded mem mem' :
  zlen mem = l_size L -> bytes mem -> encoded mem mem' ->
  dec_loop mem' = (mem', map (fun _ => 0) (upto (l_n L)), map (fun _ => []) (upto (l_n L))).
Proof.
  intros Hm Hb [Hz B Hd Hp _]. pose proof (lo_len (L := L)) as Hlen.
  assert (C : forall i, 0 <= i < l_n L -> dec1 mem' i = (0, cw_data L mem' i, [])).
  { intros i Hi. unfold dec1. pose proof (cw_input L mem' i Hz B Hi) as Hin.
    pose proof (rs_decode_codeword t cpu Hctrl _ _ maxp Hin) as E.
    rewrite zlen_cw_data in E by done. apply E; [|done].
    rewrite Hd, Hp by done. apply encode_rs8_codeword; [by apply bytes_cw_data|].
    rewrite zlen_cw_data by done. lia. }
  destruct (dec_loop_spec mem' Hz B) as (m & [Hz' _ Hd' Hp' Ho'] & ->).
  assert (E : m = mem').
  { apply bytes_ext; [lia|]. rewrite Hz'. intros a Ha.
    destruct (decide (Exists (fun i => Exists (fun k => l_data L i k = a) (upto (l_len L))) (upto (l_n L)))) as [Hx|Hx].
    - apply Exists_exists in Hx as (i & Hi%list_elem_of_In%elem_of_upto & Hx).
      apply Exists_exists in Hx as (k & Hk%list_elem_of_In%elem_of_upto & <-).
      rewrite <- !getb_cw_data by done. by rewrite Hd', C by done.
    - apply Ho'; [lia|]. intros i k Hi Hk Ea. apply Hx, Exists_exists. exists i.
      split; [by apply list_elem_of_In, elem_of_upto|]. apply Exists_exists. exists k.
      split; [by apply list_elem_of_In, elem_of_upto|done]. }
  subst m. f_equal; [f_equal|]; apply map_ext_Forall, Forall_forall;
    intros i Hi%list_elem_of_In%elem_of_upto; by rewrite C.
Qed.
End loops.
