(* ===== verification/EdacLayouts.v ===== *)
(** * The two layouts of edac.c

    [beamfs_rs_encode_region]/[beamfs_rs_decode_region] and
    [beamfs_rs_encode_woven]/[beamfs_rs_decode_woven] are the generic loops
    of EdacBlock under the contiguous and the interleaved layout. *)

From S2P Require Import Prelude Format RsInit GF RsTheory RsCode RsCorrect RsDecode RsLib Edac EdacWord EdacBlock.

Definition region_layout (size data ds par ps len n : Z) : layout :=
  Layout size n len (fun i k => data + i * ds + k) (fun i => par + i * ps).

Definition woven_layout (size data par ps len n : Z) : layout :=
  Layout size n len (fun i k => data + rs_woven_off i k n) (fun i => par + i * ps).

(** The return value of decode_region: the first error, or 0. *)
Definition first_error (results : list Z) : Z :=
  foldl (fun w rc => if (rc <? 0) && (0 <=? w) then rc else w) 0 results.

(** The return value of decode_woven. *)
Definition woven_worst (results : list Z) : Z :=
  foldl (fun w rc => if rc <? 0 then rc else if w <? rc then rc else w) 0 results.

Lemma foldl_upto_sim {S T} (R : S -> T -> Prop) (f : S -> Z -> S) (g : T -> Z -> T) s t n :
  R s t -> (forall i s t, 0 <= i < n -> R s t -> R (f s i) (g t i)) ->
  R (foldl f s (upto n)) (foldl g t (upto n)).
Proof.
  intros H0 H. assert (Hl : forall i, i ∈ upto n -> 0 <= i < n) by (intros i Hi; by apply elem_of_upto).
  revert s t H0. induction (upto n) as [|i l IH]; intros s t H0; [done|]. cbn [foldl].
  apply IH; [intros j Hj; apply Hl; by right|]. apply H; [apply Hl; left|done].
Qed.

Section region.
Context `{RL : !RsLib} `{RS : !RsLibSpec} (t : rs_tables) (cpu : nat).
Context (Hctrl : ctrl_here t cpu = true).
Context (size data ds par ps len n : Z).
Abbreviation L := (region_layout size data ds par ps len n).
Context {LO : LayoutOk L}.

Lemma region_data mem i :
  zlen mem = size -> 0 <= i < n -> slice mem (data + i * ds) len = cw_data L mem i.
Proof.
  intros Hm Hi. pose proof (lo_len (L := L)) as Hlen. cbn [l_len region_layout] in Hlen.
  pose proof (data_range L i 0 Hi ltac:(cbn; lia)) as A.
  pose proof (data_range L i (len - 1) Hi ltac:(cbn; lia)) as B. cbn in A, B.
  rewrite slice_gather by lia. done.
Qed.

Lemma region_put mem i d :
  zlen mem = size -> 0 <= i < n -> zlen d = len ->
  splice mem (data + i * ds) d = scatter (l_data L i) mem d len.
Proof.
  intros Hm Hi Hd. pose proof (lo_len (L := L)) as Hlen. cbn [l_len region_layout] in Hlen.
  pose proof (data_range L i 0 Hi ltac:(cbn; lia)) as A.
  pose proof (data_range L i (len - 1) Hi ltac:(cbn; lia)) as B. cbn in A, B.
  rewrite splice_scatter by lia. by rewrite Hd.
Qed.

Lemma encode_region_loop mem :
  zlen mem = size -> bytes mem ->
  beamfs_rs_encode_region t cpu mem data ds par ps len n = enc_loop t cpu L mem.
Proof.
  intros Hm Hb. unfold beamfs_rs_encode_region, enc_loop. cbn [l_n l_len l_par region_layout].
  apply (foldl_ext_inv (fun st : Z * list Z => zlen (snd st) = size /\ bytes (snd st))); [done|].
  intros [ret m] i Hi%elem_of_upto [Hz B]. cbn [snd] in *. rewrite region_data by done.
  split; [done|]. destruct (ret <? 0); [done|].
  pose proof (lo_len (L := L)) as Hlen. cbn [l_len region_layout] in Hlen.
  pose proof (rs_encode_eq t cpu Hctrl (cw_data L m i) (bytes_cw_data L m i B)) as E.
  rewrite (zlen_cw_data L) in E. cbn [l_len region_layout] in E. rewrite E by lia. cbn [fst snd Z.ltb Z.compare].
  assert (Hle : zlen (cw_data L m i) <= 239) by (rewrite (zlen_cw_data L); cbn; lia).
  pose proof (encode_rs8_len _ (bytes_cw_data L m i B) Hle).
  pose proof (encode_rs8_bytes _ (bytes_cw_data L m i B) Hle).
  destruct (par_range L i Hi) as [? ?]. cbn in *.
  split; [rewrite zlen_splice; lia|auto with bytes].
Qed.

Lemma decode_region_loop mem pstride :
  (forall m, pstride = Some m -> 0 < m) -> zlen mem = size -> bytes mem ->
  beamfs_rs_decode_region t cpu mem data ds par ps len n pstride =
  let '(m, res, pos) := dec_loop t cpu L pstride mem in (first_error res, m, res, pos).
Proof.
  intros Hps Hm Hb. unfold beamfs_rs_decode_region.
  assert (match pstride with Some s => s =? 0 | None => false end = false) as ->.
  { destruct pstride as [m|]; [|done]. specialize (Hps m eq_refl). lia. }
  set (R := fun (x : Z * list Z * list Z * list (list Z)) (y : list Z * list Z * list (list Z)) =>
    x = (let '(m, res, pos) := y in (first_error res, m, res, pos)) /\
    zlen (fst (fst y)) = size /\ bytes (fst (fst y))).
  match goal with |- ?a = _ => enough (G : R a (dec_loop t cpu L pstride mem)) by apply G end.
  unfold dec_loop. cbn [l_n l_len region_layout]. apply (foldl_upto_sim R); [done|].
  intros i [[[w m'] res'] pos'] [[m res] pos] Hi (E & Hz & B). cbn [fst] in *. injection E as -> -> -> ->.
  rewrite region_data by done. change (slice m (par + i * ps) BEAMFS_RS_PARITY) with (cw_par L m i).
  fold (dec1 t cpu L pstride m i).
  destruct (dec1_data t cpu Hctrl L pstride Hps m i Hz B Hi) as [Hl Bd].
  unfold dec1 in *. cbn [l_len region_layout] in *.
  destruct (beamfs_rs_decode _ _ _ _ _ _) as [[rc d] p] eqn:Ed. cbn [fst snd] in *.
  rewrite region_put by done. split_and!.
  - unfold first_error. by rewrite foldl_app.
  - by apply (put_data L m i d).
  - by apply bytes_scatter.
Qed.
End region.

Section woven.
Context `{RL : !RsLib} `{RS : !RsLibSpec} (t : rs_tables) (cpu : nat).
Context (Hctrl : ctrl_here t cpu = true) (Hscratch : scratch_here t cpu = true).
Context (size data par ps len n : Z).
Abbreviation L := (woven_layout size data par ps len n).
Context {LO : LayoutOk L}.

Lemma scratch_array : exists l, t_scratch t = Some l.
Proof. unfold scratch_here in Hscratch. destruct (t_scratch t); [by eexists|done]. Qed.

(** Scattering a codeword onto itself changes nothing. *)
Lemma scatter_self mem i :
  zlen mem = size -> 0 <= i < n -> scatter (l_data L i) mem (cw_data L mem i) len = mem.
Proof.
  intros Hm Hi. pose proof (lo_len (L := L)) as Hlen. cbn [l_len woven_layout] in Hlen.
  destruct (scatter_spec (l_data L i) mem (cw_data L mem i) len) as (A & B & C); [lia| | |].
  { intros k Hk. rewrite Hm. by apply (data_range L). }
  { intros k m Hk Hk' E. by apply (data_inj L) in E as [_ ?]. }
  apply bytes_ext; [done|]. rewrite A. intros a Ha.
  destruct (decide (Exists (fun k => l_data L i k = a) (upto len))) as [Hx|Hx].
  - apply Exists_exists in Hx as (k & Hk%list_elem_of_In%elem_of_upto & <-).
    rewrite B by done. by rewrite (getb_cw_data L) by done.
  - apply C; [lia|]. intros k Hk E. apply Hx, Exists_exists. exists k.
    split; [by apply list_elem_of_In, elem_of_upto|done].
Qed.

Lemma encode_woven_loop mem :
  zlen mem = size -> bytes mem ->
  beamfs_rs_encode_woven t cpu mem data par ps len n = enc_loop t cpu L mem.
Proof.
  intros Hm Hb. unfold beamfs_rs_encode_woven, enc_loop. cbn [l_n l_len l_par woven_layout].
  pose proof (lo_len (L := L)) as Hlen. cbn [l_len woven_layout] in Hlen.
  destruct scratch_array as [l ->]. rewrite Hscratch. unfold BEAMFS_SUBBLOCK_DATA.
  destruct (239 <? len) eqn:E0; [lia|]. cbn [negb].
  apply foldl_ext_inv with (I := fun _ => True); [done|]. by intros [ret m] i _ _.
Qed.

Lemma decode_woven_loop mem :
  zlen mem = size -> bytes mem ->
  beamfs_rs_decode_woven t cpu mem data par ps len n =
  let '(m, res, _) := dec_loop t cpu L None mem in (woven_worst res, m, res).
Proof.
  intros Hm Hb. unfold beamfs_rs_decode_woven.
  pose proof (lo_len (L := L)) as Hlen. cbn [l_len woven_layout] in Hlen.
  destruct scratch_array as [l ->]. rewrite Hscratch. unfold BEAMFS_SUBBLOCK_DATA.
  destruct (239 <? len) eqn:E0; [lia|]. cbn [negb].
  set (R := fun (x : Z * list Z * list Z) (y : list Z * list Z * list (list Z)) =>
    x = (let '(m, res, pos) := y in (woven_worst res, m, res)) /\
    zlen (fst (fst y)) = size /\ bytes (fst (fst y))).
  match goal with |- ?a = _ => enough (G : R a (dec_loop t cpu L None mem)) by apply G end.
  unfold dec_loop. cbn [l_n l_len woven_layout]. apply (foldl_upto_sim R); [done|].
  intros i [[w m'] res'] [[m res] pos] Hi (E & Hz & B). cbn [fst] in *. injection E as -> -> ->.
  change (rs_gather m data i len n) with (cw_data L m i).
  change (slice m (par + i * ps) BEAMFS_RS_PARITY) with (cw_par L m i).
  assert (Hn : forall m0 : Z, None = Some m0 -> 0 < m0) by done.
  destruct (dec1_data t cpu Hctrl L None Hn m i Hz B Hi) as [Hl Bd].
  pose proof (rs_decode_cases t cpu Hctrl _ _ None (cw_input L m i Hz B Hi) Hn) as Cs.
  rewrite (zlen_cw_data L) in Cs. cbn [l_len woven_layout] in Cs.
  unfold dec1 in *. cbn [l_len woven_layout] in *.
  destruct (beamfs_rs_decode t cpu _ _ _ _) as [[rc d] p] eqn:Ed. cbn [fst snd] in *.
  assert (Hw : woven_worst (res ++ [rc]) =
    if rc <? 0 then rc else if woven_worst res <? rc then rc else woven_worst res)
    by (unfold woven_worst; by rewrite foldl_app).
  split_and!.
  - rewrite Hw. destruct (rc <? 0) eqn:Erc; [|done].
    destruct Cs as [[= -> -> ->]|(k & d' & p' & W & [= -> -> ->])].
    + by rewrite scatter_self.
    + destruct W as [_ _ _ _ _ [? ?]]. cbn [decode_return] in Erc. lia.
  - by apply (put_data L m i d).
  - by apply bytes_scatter.
Qed.
End woven.

(** ** The layouts in use *)

(** Sixteen subblocks, data and parity alternating every 255 bytes: the
    bitmap, directory blocks, parity region blocks, data blocks of volumes
    without interleaving. *)
Definition alternating : layout :=
  region_layout BEAMFS_BLOCK_SIZE 0 BEAMFS_SUBBLOCK_TOTAL BEAMFS_SUBBLOCK_DATA BEAMFS_SUBBLOCK_TOTAL
    BEAMFS_SUBBLOCK_DATA BEAMFS_DATA_INLINE_SUBBLOCKS.

(** The interleaved block of [beamfs_rs_encode_block]. *)
Definition interleaved : layout :=
  woven_layout BEAMFS_BLOCK_SIZE BEAMFS_DATA_WOVEN_OFF BEAMFS_DATA_WOVEN_PARITY_OFF BEAMFS_RS_PARITY
    BEAMFS_SUBBLOCK_DATA BEAMFS_DATA_INLINE_SUBBLOCKS.

(** The superblock: staging buffer followed by its parity zone. *)
Definition sb_layout : layout :=
  region_layout (BEAMFS_SB_RS_STAGING_BYTES + BEAMFS_SB_RS_PARITY_BYTES) 0 BEAMFS_SB_RS_DATA_LEN
    BEAMFS_SB_RS_STAGING_BYTES BEAMFS_RS_PARITY BEAMFS_SB_RS_DATA_LEN BEAMFS_SB_RS_SUBBLOCKS.

Ltac layout_ok :=
  split; cbv [addr alternating interleaved sb_layout region_layout woven_layout l_size l_n l_len
    l_data l_par rs_woven_off BEAMFS_BLOCK_SIZE BEAMFS_SUBBLOCK_TOTAL BEAMFS_SUBBLOCK_DATA
    BEAMFS_RS_PARITY BEAMFS_DATA_INLINE_SUBBLOCKS BEAMFS_DATA_WOVEN_OFF BEAMFS_DATA_WOVEN_PARITY_OFF
    BEAMFS_DATA_INLINE_BYTES BEAMFS_SB_RS_STAGING_BYTES BEAMFS_SB_RS_PARITY_BYTES
    BEAMFS_SB_RS_DATA_LEN BEAMFS_SB_RS_SUBBLOCKS]; [lia|lia| |];
  intros; repeat match goal with
    | |- context [?a <? ?b] => destruct (Z.ltb_spec a b)
    | H : context [?a <? ?b] |- _ => destruct (Z.ltb_spec a b)
    end; lia.

#[export] Instance alternating_ok : LayoutOk alternating.
Proof. layout_ok. Qed.

#[export] Instance interleaved_ok : LayoutOk interleaved.
Proof. layout_ok. Qed.

#[export] Instance sb_layout_ok : LayoutOk sb_layout.
Proof. layout_ok. Qed.

(** ** Damage *)

(** Symbols of codeword [i] that differ between two buffers. *)
Definition damage (L : layout) (mem mem' : list Z) (i : Z) : Z := hamming (cw L mem i) (cw L mem' i).

Lemma hamming_subset l1 l2 (I : list Z) :
  zlen l1 = zlen l2 -> (forall k, 0 <= k < zlen l1 -> getb l1 k <> getb l2 k -> k ∈ I) ->
  hamming l1 l2 <= zlen I.
Proof.
  intros Hl H. rewrite hamming_upto by done. unfold zlen at 1 3.
  apply inj_le. apply submseteq_length, NoDup_submseteq; [apply list.NoDup_filter, NoDup_seqZ|].
  intros k Hk. apply list_elem_of_filter in Hk as [Hne Hk]. apply elem_of_upto in Hk. by apply H.
Qed.

(** A burst of at most [e] times [n] bytes in the data area of an
    interleaved block reaches at most [e] symbols of each codeword. *)
Lemma woven_burst size data par ps len n (LO : LayoutOk (woven_layout size data par ps len n))
    mem mem' b e i :
  zlen mem = size -> zlen mem' = size -> 0 <= e -> 0 <= i < n ->
  (forall a, 0 <= a < size -> ~ (b <= a < b + e * n) -> getb mem' a = getb mem a) ->
  (forall j k, 0 <= j < n -> 0 <= k < 16 -> ~ (b <= par + j * ps + k < b + e * n)) ->
  damage (woven_layout size data par ps len n) mem mem' i <= e.
Proof.
  set (L := woven_layout size data par ps len n). intros Hm Hm' He Hi Hout Hpar.
  pose proof (lo_len (L := L)) as Hlen. cbn [l_len L woven_layout] in Hlen.
  unfold damage, cw.
  assert (Ep : cw_par L mem i = cw_par L mem' i).
  { apply cw_par_ext; [done|done|done|done|]. intros k Hk. symmetry.
    destruct (par_range L i Hi) as [R1 R2]. cbn in *.
    apply Hout; [lia|]. apply Hpar; done. }
  rewrite hamming_app by (by rewrite !zlen_cw_data). rewrite Ep, hamming_refl, Z.add_0_r.
  set (lo := - ((- (b - data - i)) / n)).
  transitivity (zlen (seqZ lo e)); [|unfold zlen; rewrite length_seqZ; lia].
  apply hamming_subset; [by rewrite !zlen_cw_data|]. rewrite zlen_cw_data by done.
  intros k Hk Hne. apply elem_of_seqZ. cbn in Hk.
  rewrite !getb_cw_data in Hne by (done || cbn; lia). cbn in Hne.
  assert (Hin : b <= data + rs_woven_off i k n < b + e * n).
  { destruct (decide (b <= data + rs_woven_off i k n < b + e * n)); [done|exfalso].
    apply Hne. symmetry. apply Hout; [|done]. apply (data_range L i k Hi Hk). }
  unfold rs_woven_off, lo in *.
  pose proof (Z.div_mod (- (b - data - i)) n ltac:(lia)).
  pose proof (Z.mod_pos_bound (- (b - data - i)) n ltac:(lia)). nia.
Qed.
