(* ===== verification/EdacTheorems.v ===== *)
(** * What the EDAC layer guarantees *)

From S2P Require Import Prelude Format RsInit GF RsTheory RsCode RsCorrect RsDecode RsLib RsComplete Edac EdacWord EdacBlock EdacLayouts.

(** ** One damaged codeword *)

(** At most eight damaged symbols decode to the data that was encoded; with
    room for [m] positions the decoder reports at most [m] corrections. *)
Lemma rs_decode_restores `{RL : !RsLib} `{RS : !RsLibSpec} `{RB : !RsLibBounded} t cpu (Hctrl : ctrl_here t cpu = true)
    data data' par' maxp :
  bytes data -> rs_input data' par' -> zlen data = zlen data' -> (forall m, maxp = Some m -> 0 < m) ->
  hamming (data ++ encode_rs8 data) (data' ++ par') <= 8 ->
  exists n ps, 0 <= n /\ (forall m, maxp = Some m -> n <= m) /\ beamfs_rs_decode t cpu data' (zlen data') par' maxp = (n, data, ps).
Proof.
  intros B Hin Hl Hm Hd. assert (H239 : 0 < zlen data <= 239) by (rewrite Hl; apply Hin).
  assert (C : is_codeword (data ++ encode_rs8 data)) by (apply encode_rs8_codeword; [done|lia]).
  assert (Hin0 : rs_input data (encode_rs8 data)).
  { split_and!; [done|apply encode_rs8_bytes; [done|lia]|lia|lia|apply encode_rs8_len; [done|lia]]. }
  destruct (decode_rs8_bounded _ _ _ _ Hin Hin0 Hl C Hd) as (cs & Ecs & H8).
  destruct (corrections_split _ _ _ Hin Ecs) as (_ & _ & W).
  rewrite (rs_decode_some t cpu Hctrl _ _ maxp cs Hin Hm Ecs).
  assert (E : fixed_data data' par' cs = data).
  { eapply (word_fixed_original data (encode_rs8 data) data' par'); [..|exact W|].
    - destruct Hin0 as (? & ? & _). by apply bytes_app.
    - destruct Hin as (? & ? & _). by apply bytes_app.
    - exact C.
    - done.
    - apply Hin0.
    - apply Hin.
    - lia.
    - lia. }
  rewrite E. do 2 eexists. split; [|split; [|reflexivity]].
  - unfold decode_return. destruct maxp as [m|]; [|apply zlen_nonneg]. specialize (Hm m eq_refl).
    pose proof (zlen_nonneg (changed data' data)). lia.
  - intros m ->. unfold decode_return. lia.
Qed.

(** ** Decoding a damaged buffer *)

Section damaged.
Context `{RL : !RsLib} `{RS : !RsLibSpec} `{RB : !RsLibBounded} (t : rs_tables) (cpu : nat).
Context (Hctrl : ctrl_here t cpu = true) (L : layout) {LO : LayoutOk L}.
Context (maxp : option Z) (Hmaxp : forall m, maxp = Some m -> 0 < m).

Lemma zlen_cw mem i : zlen mem = l_size L -> 0 <= i < l_n L -> zlen (cw L mem i) = l_len L + 16.
Proof. intros. unfold cw. rewrite zlen_app, zlen_cw_data, zlen_cw_par by done. done. Qed.

(** Symbol [k] of codeword [i] is the byte at [addr]. *)
Lemma getb_cw mem i k :
  zlen mem = l_size L -> 0 <= i < l_n L -> 0 <= k < l_len L + 16 -> getb (cw L mem i) k = getb mem (addr L i k).
Proof.
  intros Hm Hi Hk. destruct (par_range L i Hi). unfold cw, addr. rewrite getb_app, zlen_cw_data by (done || lia).
  destruct (Z.ltb_spec k (l_len L)); case_decide; try lia; [by rewrite getb_cw_data by (done || lia)|].
  unfold cw_par. by rewrite getb_slice by lia.
Qed.

(** Bytes that differ damage no more symbols than they are. *)
Lemma damage_few mem mem' (A : list Z) i :
  zlen mem = l_size L -> zlen mem' = l_size L -> 0 <= i < l_n L ->
  (forall a, 0 <= a < l_size L -> getb mem a <> getb mem' a -> a ∈ A) -> damage L mem mem' i <= zlen A.
Proof.
  intros Hm Hm' Hi H. pose proof (zlen_cw mem i Hm Hi) as Z1. pose proof (zlen_cw mem' i Hm' Hi) as Z2.
  unfold damage. rewrite hamming_upto, Z1 by lia. set (K := filter _ _).
  assert (HK : forall k, k ∈ K -> 0 <= k < l_len L + 16 /\ getb mem (addr L i k) <> getb mem' (addr L i k)).
  { intros k [N Hk%elem_of_upto]%list_elem_of_filter. rewrite !getb_cw in N by done. by split. }
  transitivity (zlen (map (addr L i) K)); [unfold zlen; rewrite length_map; lia|]. apply inj_le, submseteq_length, NoDup_submseteq.
  - apply NoDup_fmap_2_strong; [|apply list.NoDup_filter, NoDup_seqZ].
    intros x y Hx Hy E. by apply (lo_inj i x i y Hi (proj1 (HK x Hx)) Hi (proj1 (HK y Hy))).
  - intros a (k & -> & Hk)%list_elem_of_fmap. destruct (HK k Hk) as [R N]. apply H; [by apply lo_range|done].
Qed.

(** One codeword with at most eight damaged symbols. *)
Lemma dec1_restores mem0 mem mem' i :
  zlen mem0 = l_size L -> bytes mem0 -> encoded L mem0 mem ->
  zlen mem' = l_size L -> bytes mem' -> 0 <= i < l_n L -> damage L mem mem' i <= 8 ->
  0 <= fst (fst (dec1 t cpu L maxp mem' i)) /\ snd (fst (dec1 t cpu L maxp mem' i)) = cw_data L mem0 i.
Proof.
  intros Hm0 B0 En Hm' B' Hi Hd. pose proof (lo_len (L := L)) as Hlen.
  pose proof (en_len _ _ _ En) as Hm. pose proof (en_bytes _ _ _ En) as Bm.
  assert (Hl : zlen (cw_data L mem i) = zlen (cw_data L mem' i)) by (by rewrite !zlen_cw_data).
  unfold damage, cw in Hd. rewrite (en_par _ _ _ En) in Hd by done. rewrite <- (en_data _ _ _ En) in Hd |- * by done.
  destruct (rs_decode_restores t cpu Hctrl (cw_data L mem i) (cw_data L mem' i) (cw_par L mem' i) maxp) as (n & ps & Hn & _ & E); auto.
  - by apply bytes_cw_data.
  - by apply cw_input.
  - unfold dec1. rewrite <- (zlen_cw_data L mem' i) by done. by rewrite E.
Qed.
End damaged.

(** ** Return values *)

Lemma first_error_ok results : (forall r, r ∈ results -> 0 <= r) -> first_error results = 0.
Proof.
  unfold first_error. induction results as [|r l IH]; intros H; [done|]. cbn [foldl].
  assert (0 <= r) by (apply H; left). destruct (r <? 0) eqn:E; [lia|]. cbn [andb].
  apply IH. intros x Hx. apply H. by right.
Qed.

Lemma woven_worst_ok results :
  (forall r, r ∈ results -> 0 <= r) -> 0 <= woven_worst results.
Proof.
  unfold woven_worst. enough (G : forall a, 0 <= a -> (forall r, r ∈ results -> 0 <= r) ->
    0 <= foldl (fun w rc => if rc <? 0 then rc else if w <? rc then rc else w) a results)
    by (apply G; lia).
  induction results as [|r l IH]; intros a Ha H; [done|]. cbn [foldl].
  assert (0 <= r) by (apply H; left). apply IH; [|intros x Hx; apply H; by right].
  destruct (r <? 0) eqn:E; [lia|]. destruct (a <? r); lia.
Qed.

Lemma woven_worst_zeros n : woven_worst (replicate n 0) = 0.
Proof. unfold woven_worst. induction n as [|n IH]; [done|]. exact IH. Qed.

Lemma map_const_replicate {A B} (x : B) (l : list A) : map (fun _ => x) l = replicate (length l) x.
Proof. induction l as [|y l IH]; simpl; [done|]. by rewrite IH. Qed.

(** ** The data area of an interleaved block *)

(** Byte [a] of the data area is symbol [a / 16] of codeword [a mod 16]. *)
Lemma interleaved_byte mem a :
  0 <= a < 3824 -> getb mem a = getb (cw_data interleaved mem (a mod 16)) (a / 16).
Proof.
  intros Ha. pose proof (Z.div_mod a 16 ltac:(lia)). pose proof (Z.mod_pos_bound a 16 ltac:(lia)).
  assert (0 <= a / 16 < 239) by lia.
  rewrite getb_cw_data by (change (l_len interleaved) with 239; lia). f_equal. cbn. unfold rs_woven_off, BEAMFS_DATA_WOVEN_OFF,
    BEAMFS_DATA_INLINE_SUBBLOCKS. lia.
Qed.

Lemma block_read_ext b1 b2 off len :
  zlen b1 = 4096 -> zlen b2 = 4096 -> 0 <= off -> 0 <= len -> off + len <= 3824 ->
  (forall i, 0 <= i < 16 -> cw_data interleaved b1 i = cw_data interleaved b2 i) ->
  beamfs_block_read b1 off len = beamfs_block_read b2 off len.
Proof.
  intros H1 H2 Ho Hl Hol E. unfold beamfs_block_read, BEAMFS_DATA_WOVEN_OFF.
  apply bytes_ext; rewrite !zlen_slice by lia; [done|]. intros k Hk.
  rewrite !getb_slice by lia. rewrite !(interleaved_byte _ (0 + off + k)) by lia.
  pose proof (Z.mod_pos_bound (0 + off + k) 16 ltac:(lia)). by rewrite E by lia.
Qed.

Definition ready (t : rs_tables) (cpu : nat) : Prop :=
  ctrl_here t cpu = true /\ scratch_here t cpu = true.

(** Encoding an interleaved block keeps its 3824 data bytes and its 16
    tail bytes, and the result decodes to itself with no correction. *)
Theorem encode_block_roundtrip `{RL : !RsLib} `{RS : !RsLibSpec} t cpu (block : list Z) :
  ready t cpu -> bytes block -> zlen block = BEAMFS_BLOCK_SIZE ->
  exists blk, beamfs_rs_encode_block t cpu block = (0, blk) /\
    beamfs_rs_decode_block t cpu blk = (0, blk, replicate 16 0) /\
    (forall off len, 0 <= off -> 0 <= len -> off + len <= 3824 ->
       beamfs_block_read blk off len = beamfs_block_read block off len) /\
    slice blk 4080 16 = slice block 4080 16.
Proof.
  intros [Hc Hs] Hb Hz. unfold beamfs_rs_encode_block, beamfs_rs_decode_block.
  rewrite (encode_woven_loop t cpu Hs BEAMFS_BLOCK_SIZE _ _ _ _ _ (LO := interleaved_ok)) by done.
  destruct (enc_loop_spec t cpu Hc interleaved block Hz Hb) as (blk & E & En).
  exists blk. split; [exact E|]. destruct En as [Lz Bz Dz Pz Oz].
  assert (En : encoded interleaved block blk) by (by split).
  split_and!.
  - rewrite (decode_woven_loop t cpu Hc Hs BEAMFS_BLOCK_SIZE _ _ _ _ _ (LO := interleaved_ok)) by done.
    fold interleaved.
    rewrite (decode_encoded t cpu Hc interleaved None ltac:(done) block blk Hz Hb En).
    rewrite map_const_replicate. change (length (upto (l_n interleaved))) with 16%nat.
    by rewrite woven_worst_zeros.
  - intros off len Ho Hl Hol. by apply block_read_ext.
  - unfold BEAMFS_BLOCK_SIZE in Hz. cbn in Lz. unfold BEAMFS_BLOCK_SIZE in Lz.
    apply bytes_ext; rewrite !zlen_slice by lia; [done|]. intros k Hk.
    rewrite !getb_slice by lia. apply Oz; [lia|]. intros i Hi. change (l_n interleaved) with 16 in Hi.
    cbn. unfold BEAMFS_DATA_WOVEN_PARITY_OFF, BEAMFS_DATA_INLINE_BYTES, BEAMFS_RS_PARITY,
      BEAMFS_DATA_INLINE_SUBBLOCKS, BEAMFS_SUBBLOCK_DATA. lia.
Qed.

(** One CPU, everything allocated. *)
Definition ex_tables : rs_tables := Tables (Some [true]) (Some [true]) 4.

Lemma encode_block_roundtrip_witness : exists blk,
  beamfs_rs_encode_block ex_tables 0 (zeros 4096) = (0, blk) /\
  beamfs_rs_decode_block ex_tables 0 blk = (0, blk, replicate 16 0).
Proof.
  destruct (encode_block_roundtrip ex_tables 0 (zeros 4096)) as (blk & E & D & _);
    [done|apply bytes_zeros|by rewrite zlen_zeros|].
  exists blk. split; [exact E|exact D].
Defined.

(** Burst resistance of the interleaved layout: after any damage confined
    to 128 consecutive bytes of the 3824 coded bytes, however heavy, every
    codeword decodes and the data read back is the data that was written. *)
Theorem woven_survives_burst `{RL : !RsLib} `{RS : !RsLibSpec} `{RB : !RsLibBounded}
    t cpu (block blk hit : list Z) (b : Z) :
  ready t cpu -> bytes block -> zlen block = BEAMFS_BLOCK_SIZE ->
  beamfs_rs_encode_block t cpu block = (0, blk) ->
  bytes hit -> zlen hit = BEAMFS_BLOCK_SIZE -> 0 <= b -> b + 128 <= BEAMFS_CAPSULE_CODED_BYTES ->
  (forall a, 0 <= a < BEAMFS_BLOCK_SIZE -> ~ (b <= a < b + 128) -> getb hit a = getb blk a) ->
  exists ret fixed results, beamfs_rs_decode_block t cpu hit = (ret, fixed, results) /\
    0 <= ret /\ (forall r, r ∈ results -> 0 <= r) /\
    beamfs_block_read fixed 0 3824 = beamfs_block_read block 0 3824.
Proof.
  intros [Hc Hs] Hb Hz E Bh Hh Hb0 Hb1 Hout. unfold beamfs_rs_encode_block in E.
  rewrite (encode_woven_loop t cpu Hs BEAMFS_BLOCK_SIZE _ _ _ _ _ (LO := interleaved_ok)) in E by done.
  destruct (enc_loop_spec t cpu Hc interleaved block Hz Hb) as (blk' & E' & En).
  assert (blk' = blk) as ->.
  { assert ((0, blk') = (0, blk)) as [= ->] by (by rewrite <- E, <- E'). done. }
  assert (Hn : forall m : Z, None = Some m -> 0 < m) by done.
  assert (D : forall i, 0 <= i < 16 -> damage interleaved blk hit i <= 8).
  { intros i Hi. apply (woven_burst _ _ _ _ _ _ interleaved_ok blk hit b 8 i);
      [apply En|done|lia|done| |].
    - intros a Ha Hn'. apply Hout; [done|]. exact Hn'.
    - intros j k Hj Hk. change BEAMFS_DATA_INLINE_SUBBLOCKS with 16 in *.
      unfold BEAMFS_CAPSULE_CODED_BYTES in Hb1.
      change BEAMFS_DATA_WOVEN_PARITY_OFF with 3824. unfold BEAMFS_RS_PARITY. lia. }
  pose proof (fun i Hi => dec1_restores t cpu Hc interleaved None Hn block blk hit i Hz Hb En Hh Bh Hi (D i Hi)) as R.
  unfold beamfs_rs_decode_block.
  rewrite (decode_woven_loop t cpu Hc Hs BEAMFS_BLOCK_SIZE _ _ _ _ _ (LO := interleaved_ok)) by done.
  fold interleaved. destruct (dec_loop_spec t cpu Hc interleaved None Hn hit Hh Bh) as (m & De & ->).
  do 3 eexists. split; [reflexivity|].
  assert (Hres : forall r, r ∈ map (fun i => fst (fst (dec1 t cpu interleaved None hit i))) (upto (l_n interleaved)) -> 0 <= r).
  { intros r Hr. apply list_elem_of_In, in_map_iff in Hr as (i & <- & Hi%list_elem_of_In%elem_of_upto).
    by apply R. }
  split_and!; [by apply woven_worst_ok|done|].
  apply block_read_ext; [apply De|done|lia|lia|lia|].
  intros i Hi. rewrite (de_data _ _ _ _ _ _ De) by done. by apply R.
Qed.

(** The witness's damage: 128 bytes of ones over an encoded block of zeros. *)
Definition ex_blk : list Z := Eval vm_compute in snd (beamfs_rs_encode_block ex_tables 0 (zeros 4096)).

Lemma woven_survives_burst_witness : exists ret fixed results,
  beamfs_rs_decode_block ex_tables 0 (splice ex_blk 1000 (replicate 128 255)) = (ret, fixed, results) /\
  beamfs_block_read fixed 0 3824 = beamfs_block_read (zeros 4096) 0 3824.
Proof.
  assert (Hz : zlen ex_blk = 4096) by (vm_compute; reflexivity).
  assert (Hr : zlen (replicate 128 255) = 128) by reflexivity.
  assert (Bb : bytes ex_blk).
  { apply bytes_check. vm_compute. reflexivity. }
  destruct (woven_survives_burst ex_tables 0 (zeros 4096) ex_blk
    (splice ex_blk 1000 (replicate 128 255)) 1000) as (ret & fixed & res & E & _ & _ & R).
  - done.
  - apply bytes_zeros.
  - by rewrite zlen_zeros.
  - vm_compute. reflexivity.
  - apply bytes_splice; [done|]. apply Forall_replicate. unfold is_byte; lia.
  - rewrite zlen_splice by lia. done.
  - lia.
  - vm_compute. discriminate.
  - intros a Ha Hn. apply getb_splice_out; lia.
  - exists ret, fixed, res. split; [exact E|exact R].
Defined.

(** ** Contiguous regions *)

Section regions.
Context `{RL : !RsLib} `{RS : !RsLibSpec} (t : rs_tables) (cpu : nat).
Context (Hctrl : ctrl_here t cpu = true).
Context (size data ds par ps len n : Z).
Abbreviation L := (region_layout size data ds par ps len n).
Context {LO : LayoutOk L}.

Lemma encode_region_encoded mem0 :
  zlen mem0 = size -> bytes mem0 -> exists mem,
    beamfs_rs_encode_region t cpu mem0 data ds par ps len n = (0, mem) /\ encoded L mem0 mem.
Proof.
  intros H0 B0. rewrite (encode_region_loop t cpu Hctrl size) by done.
  by apply (enc_loop_spec t cpu Hctrl L).
Qed.

Lemma decode_region_clean mem0 mem pstride :
  (forall m, pstride = Some m -> 0 < m) -> zlen mem0 = size -> bytes mem0 -> encoded L mem0 mem ->
  beamfs_rs_decode_region t cpu mem data ds par ps len n pstride =
    (0, mem, map (fun _ => 0) (upto n), map (fun _ => []) (upto n)).
Proof.
  intros Hps H0 B0 En. rewrite (decode_region_loop t cpu Hctrl size) by (done || apply En).
  rewrite (decode_encoded t cpu Hctrl L pstride Hps mem0 mem H0 B0 En).
  rewrite first_error_ok; [done|]. intros r Hr.
  apply list_elem_of_In, in_map_iff in Hr as (? & <- & _). done.
Qed.

Lemma decode_region_decoded mem pstride :
  (forall m, pstride = Some m -> 0 < m) -> zlen mem = size -> bytes mem -> exists fixed,
    decoded t cpu L pstride mem fixed /\
    let results := map (fun i => fst (fst (dec1 t cpu L pstride mem i))) (upto n) in
    beamfs_rs_decode_region t cpu mem data ds par ps len n pstride =
      (first_error results, fixed, results, map (fun i => snd (dec1 t cpu L pstride mem i)) (upto n)).
Proof.
  intros Hps Hm Hb. rewrite (decode_region_loop t cpu Hctrl size) by done.
  destruct (dec_loop_spec t cpu Hctrl L pstride Hps mem Hm Hb) as (m & De & ->). by exists m.
Qed.

Context `{RB : !RsLibBounded}.

Lemma decode_region_restores mem0 mem mem' pstride :
  (forall m, pstride = Some m -> 0 < m) -> zlen mem0 = size -> bytes mem0 -> encoded L mem0 mem ->
  bytes mem' -> zlen mem' = size -> (forall i, 0 <= i < n -> damage L mem mem' i <= 8) ->
  exists fixed,
    decoded t cpu L pstride mem' fixed /\
    (forall i, 0 <= i < n -> 0 <= fst (fst (dec1 t cpu L pstride mem' i))) /\
    (forall i, 0 <= i < n -> cw_data L fixed i = cw_data L mem0 i) /\
    beamfs_rs_decode_region t cpu mem' data ds par ps len n pstride =
      (0, fixed, map (fun i => fst (fst (dec1 t cpu L pstride mem' i))) (upto n),
       map (fun i => snd (dec1 t cpu L pstride mem' i)) (upto n)).
Proof.
  intros Hps H0 B0 En B' H' D.
  pose proof (fun i Hi => dec1_restores t cpu Hctrl L pstride Hps mem0 mem mem' i H0 B0 En H' B' Hi (D i Hi)) as R.
  destruct (decode_region_decoded mem' pstride Hps H' B') as (fixed & De & E).
  exists fixed. split; [exact De|]. split_and!.
  - intros i Hi. by apply R.
  - intros i Hi. rewrite (de_data _ _ _ _ _ _ De) by done. by apply R.
  - rewrite E, first_error_ok; [done|]. intros r Hr.
    apply list_elem_of_In, in_map_iff in Hr as (i & <- & Hi%list_elem_of_In%elem_of_upto). by apply R.
Qed.
End regions.

(** A contiguous region (bitmap, directory, parity-region or superblock
    geometry: any layout whose symbols do not overlap) with at most eight
    damaged symbols in each codeword decodes without error, and every
    codeword's data is what was encoded. *)
Theorem decode_region_corrects `{RL : !RsLib} `{RS : !RsLibSpec} `{RB : !RsLibBounded}
    t cpu size data ds par ps len n (pstride : option Z) (mem0 mem mem' : list Z) :
  let L := region_layout size data ds par ps len n in
  LayoutOk L -> ctrl_here t cpu = true -> (forall m, pstride = Some m -> 0 < m) ->
  bytes mem0 -> zlen mem0 = size ->
  beamfs_rs_encode_region t cpu mem0 data ds par ps len n = (0, mem) ->
  bytes mem' -> zlen mem' = size -> (forall i, 0 <= i < n -> damage L mem mem' i <= 8) ->
  exists fixed results positions,
    beamfs_rs_decode_region t cpu mem' data ds par ps len n pstride = (0, fixed, results, positions) /\
    (forall r, r ∈ results -> 0 <= r) /\
    (forall i, 0 <= i < n -> slice fixed (data + i * ds) len = slice mem0 (data + i * ds) len).
Proof.
  intros L LO Hc Hps B0 H0 E B' H' D.
  destruct (encode_region_encoded t cpu Hc size data ds par ps len n mem0 H0 B0) as (m0 & E' & En).
  assert (m0 = mem) as -> by (assert ((0, m0) = (0, mem)) as [= ->] by (by rewrite <- E, <- E'); done).
  destruct (decode_region_restores t cpu Hc size data ds par ps len n mem0 mem mem' pstride
    Hps H0 B0 En B' H' D) as (fixed & De & R & Dt & ->).
  do 3 eexists. split; [reflexivity|]. split.
  - intros r Hr. apply list_elem_of_In, in_map_iff in Hr as (i & <- & Hi%list_elem_of_In%elem_of_upto).
    by apply R.
  - intros i Hi. rewrite !(region_data size data ds par ps len n) by (done || apply De). by apply Dt.
Qed.

Lemma decode_region_corrects_witness : exists fixed results positions,
  beamfs_rs_decode_region ex_tables 0 (zeros 4096) 0 255 239 255 239 16 (Some 8)
    = (0, fixed, results, positions) /\ forall r, r ∈ results -> 0 <= r.
Proof.
  destruct (decode_region_corrects ex_tables 0 4096 0 255 239 255 239 16 (Some 8)
    (zeros 4096) (zeros 4096) (zeros 4096)) as (f & r & p & E & R & _).
  - exact alternating_ok.
  - done.
  - intros m [= <-]. lia.
  - apply bytes_zeros.
  - by rewrite zlen_zeros.
  - vm_compute. reflexivity.
  - apply bytes_zeros.
  - by rewrite zlen_zeros.
  - intros i Hi. unfold damage. rewrite hamming_refl. lia.
  - exists f, r, p. split; [exact E|exact R].
Defined.

Lemma first_error_neg results r :
  r ∈ results -> r < 0 -> exists r', r' ∈ results /\ r' < 0 /\ first_error results = r'.
Proof.
  unfold first_error. intros Hin Hr.
  assert (Keep : forall l a, a < 0 -> foldl (fun w rc => if (rc <? 0) && (0 <=? w) then rc else w) a l = a).
  { intros l. induction l as [|x l IH]; intros a Ha; [done|]. cbn [foldl].
    destruct (0 <=? a) eqn:E; [lia|]. rewrite andb_false_r. by apply IH. }
  induction results as [|x l IH]; [by apply elem_of_nil in Hin|]. cbn [foldl].
  destruct (x <? 0) eqn:E; cbn [andb].
  - change (0 <=? 0) with true. exists x. split; [left|]. split; [lia|]. rewrite Keep by lia. done.
  - apply elem_of_cons in Hin as [->|Hin]; [lia|].
    destruct (IH Hin) as (r' & ? & ? & ?). exists r'. split; [by right|done].
Qed.

(** The return value of a region decode tells the truth: it is 0 exactly
    when no codeword failed, and otherwise it is one of the failures. *)
Theorem decode_region_reports `{RL : !RsLib} `{RS : !RsLibSpec} t cpu size data ds par ps len n
    (pstride : option Z) (mem : list Z) ret fixed results positions :
  LayoutOk (region_layout size data ds par ps len n) -> ctrl_here t cpu = true ->
  (forall m, pstride = Some m -> 0 < m) -> bytes mem -> zlen mem = size ->
  beamfs_rs_decode_region t cpu mem data ds par ps len n pstride = (ret, fixed, results, positions) ->
  zlen results = n /\ (ret = 0 <-> forall r, r ∈ results -> 0 <= r) /\
  (ret <> 0 -> ret < 0 /\ ret ∈ results).
Proof.
  intros LO Hc Hps Bm Hm E. rewrite (decode_region_loop t cpu Hc size) in E by done.
  destruct (dec_loop_spec t cpu Hc (region_layout size data ds par ps len n) pstride Hps mem Hm Bm) as (m & De & Ed).
  rewrite Ed in E. injection E as <- <- <- <-.
  match goal with |- zlen ?r = _ /\ _ => set (results := r) end.
  assert (Hlen : zlen results = n).
  { unfold results. rewrite zlen_map, zlen_upto; [done|]. apply (lo_n (L := region_layout size data ds par ps len n)). }
  split; [done|]. destruct (decide (Exists (fun r => r < 0) results)) as [Hx|Hx].
  - apply Exists_exists in Hx as (r & Hr%list_elem_of_In & Hneg).
    destruct (first_error_neg results r Hr Hneg) as (r' & Hr' & Hn' & ->).
    split; [|intros _; by split]. split; [lia|]. intros H. specialize (H r Hr). lia.
  - assert (Hok : forall r, r ∈ results -> 0 <= r).
    { intros r Hr. destruct (decide (0 <= r)); [done|exfalso]. apply Hx, Exists_exists.
      exists r. split; [by apply list_elem_of_In|lia]. }
    rewrite first_error_ok by done. by split.
Qed.

Lemma decode_region_reports_witness : exists ret fixed results positions,
  beamfs_rs_decode_region ex_tables 0 (zeros 4096) 0 255 239 255 239 16 None
    = (ret, fixed, results, positions) /\ (ret = 0 <-> forall r, r ∈ results -> 0 <= r).
Proof.
  destruct (beamfs_rs_decode_region ex_tables 0 (zeros 4096) 0 255 239 255 239 16 None)
    as [[[ret f] r] p] eqn:E.
  destruct (decode_region_reports ex_tables 0 4096 0 255 239 255 239 16 None (zeros 4096) ret f r p)
    as (_ & R & _); [exact alternating_ok|done|done|apply bytes_zeros|by rewrite zlen_zeros|exact E|].
  exists ret, f, r, p. split; [reflexivity|exact R].
Defined.

(** Nine symbols of the first codeword damaged, one of the second. *)
Definition ex_hidden : list Z :=
  foldl (fun blk k => setb blk (16 * k) (17 * k + 5)) (setb (zeros 4096) 1 1) (upto 9).

(** The return value of an interleaved decode is not the worst result:
    a codeword that cannot be decoded is forgotten when a later one needs
    correction.  Here codeword 0 fails with -EBADMSG, codeword 1 has one
    symbol corrected, and the call returns 1. *)
Theorem decode_woven_hides_error : exists blk ret fixed results,
  bytes blk /\ zlen blk = BEAMFS_BLOCK_SIZE /\
  beamfs_rs_decode_block ex_tables 0 blk = (ret, fixed, results) /\
  getb results 0 = - EBADMSG /\ ret = 1.
Proof.
  exists ex_hidden.
  assert (E : exists fixed results, beamfs_rs_decode_block ex_tables 0 ex_hidden = (1, fixed, results) /\
    getb results 0 = - EBADMSG).
  { eexists _, _. split; [vm_compute; reflexivity|vm_compute; reflexivity]. }
  destruct E as (fixed & results & E & R). exists 1, fixed, results.
  split_and!; [apply bytes_check; vm_compute; reflexivity|vm_compute; reflexivity|exact E|exact R|reflexivity].
Qed.

(** ** The entropy estimator *)

Definition lut (n k : Z) : Z := getb (nth (Z.to_nat n) beamfs_rs_entropy_term_q16_16 []) k.

(** Every term is at most [k] times the term of a single position. *)
Definition lut_ok (n : Z) : bool :=
  forallb (fun k => (0 <=? lut n k) && (lut n k <=? k * lut n 1) && (n * lut n 1 <=? 196608)) (upto 9).

Lemma lut_bound n k : 1 <= n <= 8 -> 0 <= k <= 8 ->
  0 <= lut n k <= k * lut n 1 /\ n * lut n 1 <= 196608.
Proof.
  intros Hn Hk. assert (H : lut_ok (1 + (n - 1)) = true).
  { apply (forallb_upto 8 (fun i => lut_ok (1 + i))); [vm_compute; reflexivity|lia]. }
  replace (1 + (n - 1)) with n in H by lia. unfold lut_ok in H. rewrite forallb_forall in H.
  specialize (H k). rewrite <- list_elem_of_In, elem_of_upto in H. specialize (H ltac:(lia)). lia.
Qed.

Definition zsum (l : list Z) : Z := foldr Z.add 0 l.

Lemma zsum_setb l i x : 0 <= i < zlen l -> zsum (setb l i x) = zsum l - getb l i + x.
Proof.
  intros Hi. destruct (setb_split l i x Hi) as (l1 & l2 & E1 & -> & _).
  rewrite E1 at 1. set (y := getb l i). clearbody y. clear.
  unfold zsum. rewrite !foldr_app. cbn [foldr].
  induction l1 as [|z l1 IH]; cbn [foldr]; lia.
Qed.

(** After the bin loop: eight counts that add up to the positions read. *)
Lemma entropy_bins_spec positions len bins :
  Forall (fun p => 0 <= p) positions -> 0 < len <= 239 -> entropy_bins positions len = Some bins ->
  zlen bins = 8 /\ Forall (fun k => 0 <= k) bins /\ zsum bins = zlen positions.
Proof.
  intros Hp Hl. unfold entropy_bins. revert bins.
  induction positions as [|p ps IH] using rev_ind; intros bins.
  { intros [= <-]. split_and!; [done|repeat constructor; lia|done]. }
  rewrite foldl_app. cbn [foldl]. apply list.Forall_app in Hp as [Hps Hp]. inversion Hp; subst.
  destruct (foldl _ _ ps) as [b|] eqn:E; [|done]. destruct (IH Hps b eq_refl) as (L & N & S).
  destruct (len <=? p) eqn:E1; [done|]. unfold u32, BEAMFS_RS_ENTROPY_BINS.
  rewrite Z.mod_small by lia. destruct (8 <=? p * 8 / len) eqn:E2; [done|]. intros [= <-].
  assert (0 <= p * 8 / len) by (apply Z.div_pos; lia).
  assert (Hg : 0 <= getb b (p * 8 / len)).
  { unfold getb. rewrite nth_lookup. destruct (b !! _) eqn:Eb; simpl; [|lia].
    rewrite Forall_forall in N. apply N. apply list_elem_of_In. by eapply list_elem_of_lookup_2. }
  split_and!.
  - by rewrite zlen_setb.
  - apply Forall_insert; [done|lia].
  - rewrite zsum_setb by lia. rewrite zlen_app, zlen_cons, zlen_nil. lia.
Qed.

Lemma entropy_sum (n : Z) (bins : list Z) :
  1 <= n <= 8 -> zlen bins = 8 -> Forall (fun k => 0 <= k) bins -> zsum bins = n ->
  0 <= foldl (fun h b => u32 (h + lut n (getb bins b))) 0 (upto 8) <= n * lut n 1.
Proof.
  intros Hn Hl Hb Hs.
  destruct bins as [|k0 [|k1 [|k2 [|k3 [|k4 [|k5 [|k6 [|k7 [|? ?]]]]]]]]]; try (unfold zlen in Hl; simpl in Hl; lia).
  rewrite !list.Forall_cons in Hb. destruct Hb as (? & ? & ? & ? & ? & ? & ? & ? & _).
  cbn [zsum foldr] in Hs |- *. change (upto 8) with [0;1;2;3;4;5;6;7]. cbn [foldl].
  cbn [getb nth Z.to_nat Pos.to_nat Pos.iter_op Init.Nat.add].
  pose proof (lut_bound n k0 Hn ltac:(lia)). pose proof (lut_bound n k1 Hn ltac:(lia)).
  pose proof (lut_bound n k2 Hn ltac:(lia)). pose proof (lut_bound n k3 Hn ltac:(lia)).
  pose proof (lut_bound n k4 Hn ltac:(lia)). pose proof (lut_bound n k5 Hn ltac:(lia)).
  pose proof (lut_bound n k6 Hn ltac:(lia)). pose proof (lut_bound n k7 Hn ltac:(lia)).
  assert (n * lut n 1 = k0 * lut n 1 + k1 * lut n 1 + k2 * lut n 1 + k3 * lut n 1 + k4 * lut n 1
    + k5 * lut n 1 + k6 * lut n 1 + k7 * lut n 1) by (rewrite <- Hs at 1; ring).
  unfold u32.
  rewrite (Z.mod_small (0 + lut n k0)) by lia.
  rewrite (Z.mod_small (0 + lut n k0 + lut n k1)) by lia.
  rewrite (Z.mod_small (0 + lut n k0 + lut n k1 + lut n k2)) by lia.
  rewrite (Z.mod_small (0 + lut n k0 + lut n k1 + lut n k2 + lut n k3)) by lia.
  rewrite (Z.mod_small (0 + lut n k0 + lut n k1 + lut n k2 + lut n k3 + lut n k4)) by lia.
  rewrite (Z.mod_small (0 + lut n k0 + lut n k1 + lut n k2 + lut n k3 + lut n k4 + lut n k5)) by lia.
  rewrite (Z.mod_small (0 + lut n k0 + lut n k1 + lut n k2 + lut n k3 + lut n k4 + lut n k5 + lut n k6)) by lia.
  rewrite (Z.mod_small (0 + lut n k0 + lut n k1 + lut n k2 + lut n k3 + lut n k4 + lut n k5 + lut n k6 + lut n k7)) by lia.
  lia.
Qed.

(** The estimate of up to eight corrected positions lies in
    [0, 3 * 65536]: no intermediate sum wraps, and no bin is missed when
    the positions lie inside the codeword. *)
Theorem entropy_bounded (positions : list Z) (n len : Z) :
  bytes positions -> zlen positions = n -> 1 <= n <= BEAMFS_RS_PARITY / 2 ->
  n <= len <= BEAMFS_SUBBLOCK_DATA -> (forall p, p ∈ positions -> p < len) ->
  (exists bins, entropy_bins positions len = Some bins) /\
  0 <= beamfs_rs_compute_entropy_q16_16 positions n len <= 3 * 65536.
Proof.
  intros Hb Hz Hn Hl Hp. change (BEAMFS_RS_PARITY / 2) with 8 in *. unfold BEAMFS_SUBBLOCK_DATA in *.
  assert (Hpos : Forall (fun p => 0 <= p) positions).
  { eapply Forall_impl; [|exact Hb]. unfold is_byte. lia. }
  assert (Hbins : exists bins, entropy_bins positions len = Some bins).
  { clear -Hpos Hp Hl Hn. unfold entropy_bins. generalize (zeros BEAMFS_RS_ENTROPY_BINS).
    induction Hpos as [|p ps Hp0 Hps IH]; intros b; [by eexists|]. cbn [foldl].
    assert (Hlt : p < len) by (apply Hp; left). destruct (len <=? p) eqn:E1; [lia|].
    unfold u32, BEAMFS_RS_ENTROPY_BINS. rewrite Z.mod_small by lia.
    destruct (8 <=? p * 8 / len) eqn:E2.
    - exfalso. apply Z.leb_le in E2. assert (p * 8 / len < 8) by (apply Z.div_lt_upper_bound; lia). lia.
    - apply IH. intros q Hq. apply Hp. by right. }
  split; [done|]. destruct Hbins as (bins & E).
  destruct (entropy_bins_spec positions len bins Hpos ltac:(lia) E) as (L8 & N & S).
  unfold beamfs_rs_compute_entropy_q16_16. change (BEAMFS_RS_PARITY / 2) with 8. unfold BEAMFS_SUBBLOCK_DATA.
  destruct (n =? 0) eqn:E1, (8 <? n) eqn:E2, (len <? n) eqn:E3, (239 <? len) eqn:E4; try lia. cbn [orb].
  replace (slice positions 0 n) with positions by (rewrite <- Hz; symmetry; apply slice_all).
  rewrite E. pose proof (entropy_sum n bins Hn L8 N ltac:(lia)) as B.
  destruct (lut_bound n 0 Hn ltac:(lia)) as [_ U]. unfold lut in B, U.
  change BEAMFS_RS_ENTROPY_BINS with 8. lia.
Qed.

Lemma entropy_bounded_witness :
  0 <= beamfs_rs_compute_entropy_q16_16 [3; 80; 200] 3 239 <= 3 * 65536.
Proof.
  apply (entropy_bounded [3; 80; 200] 3 239); [bytes_list|done|vm_compute; split; discriminate|
    vm_compute; split; discriminate|].
  intros p Hp. repeat (apply elem_of_cons in Hp as [->|Hp]; [lia|]). by apply elem_of_nil in Hp.
Defined.

(** The bound is reached: eight positions in eight different bins give
    3 * 65536 exactly, the value that the half-open range in the comments
    leaves out. *)
Theorem entropy_reaches_bound :
  beamfs_rs_compute_entropy_q16_16 [0; 30; 60; 90; 120; 150; 180; 210] 8 239 = 3 * 65536.
Proof. vm_compute. reflexivity. Qed.

(** ** The codec tables *)

Definition pcpu_ok (ncpu : nat) (t : rs_tables) : Prop :=
  (exists l, t_ctrl t = Some l /\ length l = ncpu) /\
  (forall l, t_scratch t = Some l -> length l = ncpu).

Lemma count_set_insert (l : list bool) (i : nat) (b : bool) :
  (i < length l)%nat -> nth i l false = false ->
  count_set (<[i := b]> l) = count_set l + if b then 1 else 0.
Proof.
  unfold count_set. revert i. induction l as [|x l IH]; intros [|i] Hi Hx; simpl in *; try lia.
  - subst x. rewrite !filter_cons. destruct b; repeat case_decide; try done; rewrite ?zlen_cons; lia.
  - rewrite !filter_cons. specialize (IH i ltac:(lia) Hx).
    repeat case_decide; rewrite ?zlen_cons; lia.
Qed.

Lemma nth_insert_ne {A} (l : list A) (i j : nat) x d : i <> j -> nth j (<[i := x]> l) d = nth j l d.
Proof. intros H. rewrite !nth_lookup, list_lookup_insert_ne by done. done. Qed.

Lemma nth_insert_eq {A} (l : list A) (i : nat) x d : (i < length l)%nat -> nth i (<[i := x]> l) d = x.
Proof. intros H. apply nth_lookup_Some, list_lookup_insert_eq. done. Qed.

(** What is allocated is what the tables point to. *)
Definition owned (t : rs_tables) : Z :=
  match t_ctrl t with Some c => count_set c + 1 | None => 0 end +
  match t_scratch t with Some s => count_set s + 1 | None => 0 end.

Lemma exit_live t : (exists l, t_ctrl t = Some l) ->
  beamfs_rs_exit_tables t = Tables None None (t_live t - owned t).
Proof.
  intros [l E]. unfold beamfs_rs_exit_tables, owned. rewrite E.
  destruct (t_scratch t); f_equal; lia.
Qed.

Lemma count_set_false n : count_set (replicate n false) = 0.
Proof.
  unfold count_set. induction n as [|n IH]; [done|]. cbn [replicate]. rewrite filter_cons.
  by case_decide.
Qed.

Definition init_inv (ncpu cpu : nat) (base : Z) (st : rs_tables + rs_tables) : Prop :=
  match st with
  | inl t => pcpu_ok ncpu t /\ t_live t = base + owned t /\
      (forall i, (i < cpu)%nat -> ctrl_here t i = true) /\
      (forall i, (cpu <= i)%nat -> ctrl_here t i = false /\ scratch_here t i = false)
  | inr t => t = Tables None None base
  end.

Lemma init_cpu_inv ncpu a base st cpu :
  (cpu < ncpu)%nat -> init_inv ncpu cpu base st -> init_inv ncpu (S cpu) base (init_cpu a st cpu).
Proof.
  intros Hc. destruct st as [t|t]; cbn [init_inv init_cpu]; [|done].
  intros (((l & El & Hl) & Hs) & Hlive & Hset & Hunset).
  destruct (nth cpu (a_init_rs a) false).
  - rewrite El. destruct (Hunset cpu ltac:(lia)) as [U1 U2]. unfold ctrl_here in U1. rewrite El in U1.
    assert (Hcount : count_set (<[cpu := true]> l) = count_set l + 1)
      by (rewrite count_set_insert; [done|lia|done]).
    assert (Hctrl : forall i, nth i (<[cpu := true]> l) false = if decide (i = cpu) then true else nth i l false).
    { intros i. case_decide as D; [subst; apply nth_insert_eq; lia|by apply nth_insert_ne]. }
    unfold scratch_here in U2. destruct (t_scratch t) as [s|] eqn:Es; cbn [init_inv].
    + specialize (Hs s eq_refl). split_and!.
      * split; [eexists; split; [done|by rewrite length_insert]|]. intros s' [= <-]. by rewrite length_insert.
      * unfold owned in *. cbn [t_ctrl t_scratch t_live]. rewrite El, Es in Hlive.
        rewrite Hcount, count_set_insert by (done || lia). lia.
      * intros i Hi. unfold ctrl_here. cbn [t_ctrl]. rewrite Hctrl. case_decide; [done|].
        specialize (Hset i ltac:(lia)). unfold ctrl_here in Hset. by rewrite El in Hset.
      * intros i Hi. destruct (Hunset i ltac:(lia)) as [V1 V2].
        unfold ctrl_here, scratch_here in *. cbn [t_ctrl t_scratch]. rewrite El in V1. rewrite Es in V2.
        rewrite Hctrl, decide_False by lia. split; [done|]. by rewrite nth_insert_ne by lia.
    + split_and!.
      * split; [eexists; split; [done|by rewrite length_insert]|]. by intros s'.
      * unfold owned in *. cbn [t_ctrl t_scratch t_live]. rewrite El, Es in Hlive. rewrite Hcount. lia.
      * intros i Hi. unfold ctrl_here. cbn [t_ctrl]. rewrite Hctrl. case_decide; [done|].
        specialize (Hset i ltac:(lia)). unfold ctrl_here in Hset. by rewrite El in Hset.
      * intros i Hi. destruct (Hunset i ltac:(lia)) as [V1 _].
        unfold ctrl_here, scratch_here in *. cbn [t_ctrl t_scratch]. rewrite El in V1.
        by rewrite Hctrl, decide_False by lia.
  - cbn [init_inv]. rewrite exit_live by (by exists l). f_equal. lia.
Qed.

(** Setting up the codecs is all or nothing: on success every possible
    CPU has a codec and a later beamfs_rs_exit_tables frees all that was
    allocated; on failure, whichever allocation failed, nothing is left
    allocated and both tables are NULL. *)
Theorem rs_tables_no_leak (ncpu : nat) (a : rs_allocs) (base : Z) :
  let '(ret, t) := beamfs_rs_init_tables ncpu a (Tables None None base) in
  (ret = 0 /\ (forall cpu, (cpu < ncpu)%nat -> ctrl_here t cpu = true) /\
   beamfs_rs_exit_tables t = Tables None None base) \/
  (ret = - ENOMEM /\ t = Tables None None base).
Proof.
  unfold beamfs_rs_init_tables. cbn [t_live]. destruct (a_ctrl_array a); cbn [negb].
  2:{ right. split; [done|]. f_equal. lia. }
  set (t0 := Tables _ _ _).
  assert (I0 : init_inv ncpu 0 base (inl t0)).
  { cbn [init_inv]. unfold t0, pcpu_ok, owned, ctrl_here, scratch_here. cbn [t_ctrl t_scratch t_live].
    rewrite count_set_false.
    assert (R : forall i, nth i (replicate ncpu false) false = false)
      by (intros i; rewrite nth_lookup; destruct (replicate _ _ !! i) eqn:E; [by apply lookup_replicate in E as [-> _]|done]).
    split_and!.
    - eexists. split; [done|]. by rewrite length_replicate.
    - intros l. destruct (a_scratch_array a); [|done]. intros [= <-]. by rewrite length_replicate.
    - destruct (a_scratch_array a); rewrite ?count_set_false; lia.
    - intros i Hi. lia.
    - intros i _. rewrite R. destruct (a_scratch_array a); by rewrite ?R. }
  assert (I : init_inv ncpu ncpu base (foldl (init_cpu a) (inl t0) (seq 0 ncpu))).
  { enough (G : forall k, (k <= ncpu)%nat -> init_inv ncpu k base (foldl (init_cpu a) (inl t0) (seq 0 k)))
      by (by apply G).
    induction k as [|k IH]; intros Hk; [done|]. rewrite seq_S, foldl_app. cbn [foldl].
    apply init_cpu_inv; [lia|]. apply IH. lia. }
  destruct (foldl _ _ _) as [t|t]; cbn [init_inv] in I.
  - left. destruct I as (((l & El & _) & _) & Hlive & Hset & _). split_and!; [done|done|].
    rewrite exit_live by (by exists l). f_equal. lia.
  - right. by split.
Qed.
