(* ===== verification/Dirent.v ===== *)
(** * Directory blocks (dirent.c)

    Records of variable length in a 3824-byte payload, and the sixteen
    codewords the payload is spread over.  A directory block in memory is
    the flat payload followed by 272 bytes the codec fills; on the medium
    it has the alternating layout. *)

From S2P Require Import Prelude Format RsInit RsLib Edac.

(** ** Calls into the journal and the error budget

    [beamfs_log_rs_event_flagged], [beamfs_budget_record] and
    [beamfs_alert_uncorrectable] return nothing, so the readers of a block are modelled as returning the
    calls they make, in order; [None] is a NULL [positions]. *)

Inductive rs_call :=
  | LogRsEvent (block_no : Z) (positions : option (list Z)) (n_positions code_len flags : Z)
  | BudgetRecord (phys symbols : Z)
  | AlertUncorrectable (phys : Z).

(** ** Records *)

(** Fields of struct beamfs_dir_entry at payload offset [off]. *)
Definition d_ino (p : list Z) (off : Z) : Z := get_le64 p off.
Definition d_rec_len (p : list Z) (off : Z) : Z := get_le16 p (off + 8).
Definition d_name_len (p : list Z) (off : Z) : Z := getb p (off + 10).
Definition d_file_type (p : list Z) (off : Z) : Z := getb p (off + 11).
Definition d_name (p : list Z) (off : Z) : list Z := slice p (off + 12) (d_name_len p off).

Definition beamfs_dirent_sub_end (off : Z) : Z :=
  u32 ((off / BEAMFS_SUBBLOCK_DATA + 1) * BEAMFS_SUBBLOCK_DATA).

Definition beamfs_dirent_place (off len : Z) : Z :=
  if BEAMFS_DATA_INLINE_BYTES <? u32 (off + len) then BEAMFS_DIRENT_NOSPACE
  else if BEAMFS_SUBBLOCK_DATA <? len then off
  else
    let last := beamfs_dirent_sub_end off in
    if u32 (off + len) <=? last then off
    else if BEAMFS_DATA_INLINE_BYTES <? u32 (last + len) then BEAMFS_DIRENT_NOSPACE
    else last.

Definition beamfs_dirent_next (p : list Z) (off : Z) : Z :=
  let rec := d_rec_len p off in
  if rec <? BEAMFS_DIRENT_MIN_LEN then BEAMFS_DIRENT_NOSPACE
  else if BEAMFS_DATA_INLINE_BYTES <? u32 (off + rec) then BEAMFS_DIRENT_NOSPACE
  else u32 (off + rec).

Definition beamfs_dirent_valid (p : list Z) (off : Z) : bool :=
  let rec := d_rec_len p off in
  if rec <? BEAMFS_DIRENT_MIN_LEN then false
  else if BEAMFS_DATA_INLINE_BYTES <? u32 (off + rec) then false
  else if rec <? BEAMFS_DIRENT_HDR_LEN + d_name_len p off then false
  else true.

(** ** Parity *)

Section parity.
Context `{RL : !RsLib} (t : rs_tables) (cpu : nat).

(** Spread the payload into the codeword slots, last subblock first, then
    encode.  An encode that fails is only logged. *)
Definition dirent_spread (b : list Z) : list Z :=
  foldl (fun b i =>
    splice b (i * BEAMFS_SUBBLOCK_TOTAL) (slice b (i * BEAMFS_SUBBLOCK_DATA) BEAMFS_SUBBLOCK_DATA))
    b (reverse (upto BEAMFS_DATA_INLINE_SUBBLOCKS)).

Definition beamfs_dirent_encode (b : list Z) : list Z :=
  snd (beamfs_rs_encode_region t cpu (dirent_spread b) 0 BEAMFS_SUBBLOCK_TOTAL
    BEAMFS_SUBBLOCK_DATA BEAMFS_SUBBLOCK_TOTAL BEAMFS_SUBBLOCK_DATA BEAMFS_DATA_INLINE_SUBBLOCKS).

(** The walk over [results]: (corrected, ret, calls). *)
Definition dirent_report (blocknr : Z) (results : list Z) (positions : list (list Z))
    (st : Z * Z * list rs_call) (i : Z) : Z * Z * list rs_call :=
  let '(corrected, ret, calls) := st in
  let r := getb results i in
  if 0 <? r then
    (corrected + 1, ret,
     calls ++ [LogRsEvent blocknr (Some (nth (Z.to_nat i) positions [])) r BEAMFS_SUBBLOCK_DATA
                 (beamfs_rs_event_subblock_bits i);
               BudgetRecord blocknr r])
  else if r <? 0 then (corrected, - EUCLEAN, calls)
  else st.

(** Bring the data of the codewords back together, first subblock first. *)
Definition dirent_gather (dst : list Z) : list Z :=
  foldl (fun b i =>
    splice b (i * BEAMFS_SUBBLOCK_DATA) (slice b (i * BEAMFS_SUBBLOCK_TOTAL) BEAMFS_SUBBLOCK_DATA))
    dst (upto BEAMFS_DATA_INLINE_SUBBLOCKS).

(** Returns the code, the scratch page [dst] and the calls made. *)
Definition beamfs_dirent_decode (blocknr : Z) (b_data : list Z) : Z * list Z * list rs_call :=
  let '(ret, dst, results, positions) :=
    beamfs_rs_decode_region t cpu b_data 0 BEAMFS_SUBBLOCK_TOTAL BEAMFS_SUBBLOCK_DATA
      BEAMFS_SUBBLOCK_TOTAL BEAMFS_SUBBLOCK_DATA BEAMFS_DATA_INLINE_SUBBLOCKS
      (Some (BEAMFS_RS_PARITY / 2)) in
  let '(corrected, ret, calls) :=
    foldl (dirent_report blocknr results positions) (0, ret, [])
      (upto BEAMFS_DATA_INLINE_SUBBLOCKS) in
  if ret <? 0 then (ret, dst, calls) else (corrected, dirent_gather dst, calls).
End parity.

(** ** Walks over the records of one directory block

    The inner loops of dir.c ([beamfs_lookup], [beamfs_readdir]) and namei.c
    ([beamfs_add_dirent], [beamfs_del_dirent], [beamfs_dir_is_empty]): what
    each does with one decoded payload. *)

(** A loop over [l] that can be left: [inr] leaves it. *)
Fixpoint fold_until {S R} (step : S -> Z -> S + R) (s : S) (l : list Z) : S + R :=
  match l with
  | [] => inl s
  | o :: l => match step s o with inr r => inr r | inl s => fold_until step s l end
  end.

(** The loop they share: from [off], while the offset is in the payload and
    the record is valid, [step]; [inr] leaves the walk.  A record is at
    least sixteen bytes, so [walk_fuel] steps cover the payload. *)
Fixpoint dir_walk {S R} (fuel : nat) (p : list Z) (step : S -> Z -> S + R) (s : S) (off : Z) : S + R :=
  match fuel with
  | O => inl s
  | Datatypes.S fuel =>
    if BEAMFS_DATA_INLINE_BYTES <=? off then inl s
    else if negb (beamfs_dirent_valid p off) then inl s
    else
      match step s off with
      | inr r => inr r
      | inl s =>
        let next := beamfs_dirent_next p off in
        if next =? BEAMFS_DIRENT_NOSPACE then inl s else dir_walk fuel p step s next
      end
  end.

Definition walk_fuel : nat := 240.

(** [de->d_ino && de->d_name_len == len && !memcmp(de->d_name, name, len)] *)
Definition name_matches (p : list Z) (off : Z) (name : list Z) : bool :=
  negb (d_ino p off =? 0) && (d_name_len p off =? zlen name) &&
  bool_decide (slice p (off + BEAMFS_DIRENT_HDR_LEN) (zlen name) = name).

(** ** Lookup *)

(** The inode number the walk finds. *)
Definition lookup_payload (p name : list Z) : option Z :=
  match dir_walk walk_fuel p
          (fun (_ : unit) off => if name_matches p off name then inr (d_ino p off) else inl tt) tt 0 with
  | inl _ => None
  | inr ino => Some ino
  end.

(** ** Emptiness *)

Definition dot : Z := 46.

Definition is_dots (p : list Z) (off : Z) : bool :=
  ((d_name_len p off =? 1) && (getb p (off + 12) =? dot)) ||
  ((d_name_len p off =? 2) && (getb p (off + 12) =? dot) && (getb p (off + 13) =? dot)).

Definition payload_is_empty (p : list Z) : bool :=
  match dir_walk walk_fuel p
          (fun (_ : unit) off => if negb (d_ino p off =? 0) && negb (is_dots p off) then inr tt else inl tt)
          tt 0 with
  | inl _ => true
  | inr _ => false
  end.

(** ** Insertion *)

(** The search of [beamfs_add_dirent]: the payload (a split shortens the
    live record) and the place. *)
Definition add_search (p : list Z) (want : Z) : option (list Z * Z) :=
  match dir_walk walk_fuel p
    (fun (_ : unit) offset =>
      let rec := d_rec_len p offset in
      let used := if d_ino p offset =? 0 then 0 else u16 (BEAMFS_DIRENT_LEN (d_name_len p offset)) in
      if (d_ino p offset =? 0) && (want <=? rec) then inr (p, offset)
      else if negb (d_ino p offset =? 0) && (want <=? rec - used) &&
              (beamfs_dirent_place (u32 (offset + used)) want =? u32 (offset + used)) then
        inr (put_le16 p (offset + 8) used, u32 (offset + used))
      else inl tt) tt 0 with
  | inl _ => None
  | inr r => Some r
  end.

(** [place_it]: the record at [place] takes what the name needs, the rest
    becomes a free record when it can hold a header. *)
Definition place_it (p : list Z) (place want ino : Z) (name : list Z) (file_type : Z) : list Z :=
  let rec := d_rec_len p place in
  let '(p, keep) :=
    if u16 (want + BEAMFS_DIRENT_MIN_LEN) <=? rec then
      let p := splice p (place + want) (zeros BEAMFS_DIRENT_HDR_LEN) in
      (put_le16 p (place + want + 8) (rec - want), want)
    else (p, Z.max rec want) in
  let p := splice p place (zeros BEAMFS_DIRENT_HDR_LEN) in
  let p := put_le64 p place ino in
  let p := put_le16 p (place + 8) keep in
  let p := setb p (place + 10) (u8 (zlen name)) in
  let p := setb p (place + 11) file_type in
  splice p (place + 12) name.

Definition add_payload (p name : list Z) (ino file_type : Z) : option (list Z) :=
  let want := u16 (BEAMFS_DIRENT_LEN (zlen name)) in
  match add_search p want with
  | None => None
  | Some (p, place) => Some (place_it p place want ino name file_type)
  end.

(** ** Removal *)

(** The record at [offset] is released, and folded into a free predecessor
    of the same subblock. *)
Definition release (p : list Z) (prev_off offset : Z) : list Z :=
  let p := put_le64 p offset 0 in
  if prev_off =? BEAMFS_DIRENT_NOSPACE then p
  else if (d_ino p prev_off =? 0) &&
          (prev_off / BEAMFS_SUBBLOCK_DATA =? offset / BEAMFS_SUBBLOCK_DATA) then
    put_le16 p (prev_off + 8) (u16 (d_rec_len p prev_off + d_rec_len p offset))
  else p.

Definition del_payload (p name : list Z) : option (list Z) :=
  match dir_walk walk_fuel p
    (fun prev_off offset =>
      if name_matches p offset name then inr (release p prev_off offset) else inl offset)
    BEAMFS_DIRENT_NOSPACE 0 with
  | inl _ => None
  | inr p => Some p
  end.
