(* ===== verification/FileData.v ===== *)
(** * Data blocks of files (file_inline.c)

    A data block holds a payload, a descriptor (checksum and identity) and
    the parity of sixteen codewords, in one of two layouts: alternating
    (sixteen runs of 239 data and 16 parity bytes, the descriptor after
    them, outside every codeword) and capsule (payload and descriptor
    contiguous and interleaved over the codewords, the parity after them). *)

From S2P Require Import Prelude Format Crc RsInit RsLib Edac Dirent.

(** What the mount found in the superblock. *)
Record data_cfg := DataCfg {
  s_data_csum : bool;
  s_data_selfid : bool;
  s_rs_interleave : bool }.   (** s_feat_incompat has RS_INTERLEAVE *)

Definition beamfs_block_payload (c : data_cfg) : Z :=
  if s_rs_interleave c then BEAMFS_CAPSULE_DATA_BYTES else BEAMFS_DATA_INLINE_BYTES.

Definition beamfs_desc_off (c : data_cfg) : Z :=
  if s_rs_interleave c then BEAMFS_CAPSULE_CSUM_OFF else BEAMFS_DATA_CSUM_TYPE_OFF.

Definition beamfs_selfid_off (c : data_cfg) : Z :=
  if s_rs_interleave c then BEAMFS_CAPSULE_SELFID_OFF else BEAMFS_DATA_SELFID_OFF.

(** What the stack held where the decode declares its arrays: the capsule
    branch hands neither array's contents out on every path. *)
Record stack_arrays := StackArrays { stk_results : list Z; stk_positions : list (list Z) }.

Section data.
Context `{RL : !RsLib} `{CL : !CrcLib} (c : data_cfg) (t : rs_tables) (cpu : nat).

Definition beamfs_data_selfid (ino iblock : Z) : Z :=
  let lo := beamfs_crc32 (le_bytes 8 ino) in
  let hi := beamfs_crc32 (le_bytes 8 iblock) in
  Z.lor (Z.shiftl hi 32) lo.

(** ** Building a block *)

Definition beamfs_lay_data_payload (block payload : list Z) : list Z :=
  if s_rs_interleave c then
    splice block BEAMFS_CAPSULE_DATA_OFF (slice payload 0 BEAMFS_CAPSULE_DATA_BYTES)
  else
    foldl (fun b i => splice b (i * BEAMFS_SUBBLOCK_TOTAL)
             (slice payload (i * BEAMFS_SUBBLOCK_DATA) BEAMFS_SUBBLOCK_DATA))
      block (upto BEAMFS_DATA_INLINE_SUBBLOCKS).

Definition beamfs_inline_stamp_tail_pad (block payload : list Z) (ino iblock : Z) : list Z :=
  let doff := beamfs_desc_off c in
  let soff := beamfs_selfid_off c in
  let covered := beamfs_block_payload c in
  let block := splice block BEAMFS_DATA_INLINE_TOTAL (zeros BEAMFS_DATA_INLINE_PAD) in
  let block := splice block doff (zeros (BEAMFS_DATA_CSUM_DESC_BYTES + BEAMFS_DATA_SELFID_BYTES)) in
  let block :=
    if s_data_csum c then
      let crc := beamfs_crc32 (slice payload 0 covered) in
      put_le32 (setb block doff BEAMFS_CSUM_CRC32) (doff + 4) crc
    else block in
  if s_data_selfid c then put_le64 block soff (beamfs_data_selfid ino iblock) else block.

Definition beamfs_stamp_data_block := beamfs_inline_stamp_tail_pad.

Definition beamfs_seal_data_block (block : list Z) : Z * list Z :=
  if s_rs_interleave c then
    beamfs_rs_encode_woven t cpu block BEAMFS_CAPSULE_DATA_OFF BEAMFS_CAPSULE_PARITY_OFF
      BEAMFS_RS_PARITY BEAMFS_SUBBLOCK_DATA BEAMFS_DATA_INLINE_SUBBLOCKS
  else
    beamfs_rs_encode_region t cpu block 0 BEAMFS_SUBBLOCK_TOTAL BEAMFS_SUBBLOCK_DATA
      BEAMFS_SUBBLOCK_TOTAL BEAMFS_SUBBLOCK_DATA BEAMFS_DATA_INLINE_SUBBLOCKS.

(** The bytes [beamfs_wb_queue] puts on the medium, over whatever the page
    held. *)
Definition build_data_block (page payload : list Z) (ino iblock : Z) : Z * list Z :=
  let block := beamfs_lay_data_payload page payload in
  let block := beamfs_inline_stamp_tail_pad block payload ino iblock in
  beamfs_seal_data_block block.

(** A block just allocated: zeroes, stamped and sealed; an encode that
    fails is only logged. *)
Definition fresh_data_block (ino iblock : Z) : list Z :=
  let block := zeros BEAMFS_BLOCK_SIZE in
  let block := beamfs_inline_stamp_tail_pad block block ino iblock in
  snd (beamfs_seal_data_block block).

(** ** Reading a block *)

Definition beamfs_inline_payload_crc (codeword : list Z) : Z :=
  if s_rs_interleave c then
    Z.lxor (crc32_le 4294967295 (slice codeword BEAMFS_CAPSULE_DATA_OFF BEAMFS_CAPSULE_DATA_BYTES)) 4294967295
  else
    Z.lxor (foldl (fun crc i =>
        crc32_le crc (slice codeword (i * BEAMFS_SUBBLOCK_TOTAL) BEAMFS_SUBBLOCK_DATA))
      4294967295 (upto BEAMFS_DATA_INLINE_SUBBLOCKS)) 4294967295.

(** The decode in the volume's layout: the block, [rs_results] and
    [rs_positions] as the function then reads them. *)
Definition decode_data (stk : stack_arrays) (tmp : list Z) : list Z * list Z * list (list Z) :=
  if s_rs_interleave c then
    let '(_, tmp, results) :=
      beamfs_rs_decode_woven t cpu tmp BEAMFS_CAPSULE_DATA_OFF BEAMFS_CAPSULE_PARITY_OFF
        BEAMFS_RS_PARITY BEAMFS_SUBBLOCK_DATA BEAMFS_DATA_INLINE_SUBBLOCKS in
    (tmp, match results with [] => stk_results stk | _ => results end, stk_positions stk)
  else
    let '(_, tmp, results, positions) :=
      beamfs_rs_decode_region t cpu tmp 0 BEAMFS_SUBBLOCK_TOTAL BEAMFS_SUBBLOCK_DATA
        BEAMFS_SUBBLOCK_TOTAL BEAMFS_SUBBLOCK_DATA BEAMFS_DATA_INLINE_SUBBLOCKS
        (Some (BEAMFS_RS_PARITY / 2)) in
    (tmp, results, positions).

Definition rmw_flag (rmw_path : bool) : Z :=
  if rmw_path then BEAMFS_RS_EVENT_FLAG_RMW_NEUTRALISED else 0.

(** One codeword of the report: whether any was uncorrectable, the calls. *)
Definition data_report (phys : Z) (results : list Z) (positions : list (list Z)) (rmw_path : bool)
    (st : bool * list rs_call) (i : Z) : bool * list rs_call :=
  let '(uncorrectable, calls) := st in
  let rc := getb results i in
  let flags := Z.lor (rmw_flag rmw_path) (beamfs_rs_event_subblock_bits i) in
  if rc <? 0 then
    (true, calls ++ [LogRsEvent phys None 0 BEAMFS_SUBBLOCK_DATA flags; AlertUncorrectable phys])
  else if 0 <? rc then
    let np := Z.min rc (BEAMFS_RS_PARITY / 2) in
    (uncorrectable,
     calls ++ [LogRsEvent phys (Some (nth (Z.to_nat i) positions [])) np BEAMFS_SUBBLOCK_DATA flags;
               BudgetRecord phys np])
  else st.

(** The piece of the payload the caller asked for. *)
Definition copy_slice (tmp : list Z) (slice_offset slice_length : Z) : list Z :=
  if s_rs_interleave c then slice tmp (BEAMFS_CAPSULE_DATA_OFF + slice_offset) slice_length
  else
    let slice_end := slice_offset + slice_length in
    let sb_first := slice_offset / BEAMFS_SUBBLOCK_DATA in
    let sb_last := (slice_end - 1) / BEAMFS_SUBBLOCK_DATA in
    concat (map (fun sb_idx =>
      let sb_user_start := sb_idx * BEAMFS_SUBBLOCK_DATA in
      let sb_user_end := sb_user_start + BEAMFS_SUBBLOCK_DATA in
      let from_in_sb := if sb_user_start <? slice_offset then slice_offset - sb_user_start else 0 in
      let to_in_sb := if slice_end <? sb_user_end then slice_end - sb_user_start else BEAMFS_SUBBLOCK_DATA in
      slice tmp (sb_idx * BEAMFS_SUBBLOCK_TOTAL + from_in_sb) (to_in_sb - from_in_sb))
      (seqZ sb_first (sb_last - sb_first + 1))).

(** Returns the code, the bytes written to [dst_buf] and the calls. *)
Definition beamfs_inline_decode_block_into_buf (stk : stack_arrays) (scratch_ok : bool) (raw : list Z)
    (phys ino iblock slice_offset slice_length : Z) (rmw_path : bool) : Z * list Z * list rs_call :=
  if phys =? 0 then (- EINVAL, [], [])
  else if slice_length =? 0 then (- EINVAL, [], [])
  else if BEAMFS_DATA_INLINE_BYTES <? slice_offset + slice_length then (- EINVAL, [], [])
  else if negb scratch_ok then (- ENOMEM, [], [])
  else
    let '(tmp, results, positions) := decode_data stk raw in
    let '(uncorrectable, calls) :=
      foldl (data_report phys results positions rmw_path) (false, []) (upto BEAMFS_DATA_INLINE_SUBBLOCKS) in
    let bad := LogRsEvent (u64 (phys * BEAMFS_DATA_INLINE_SUBBLOCKS)) None 0 BEAMFS_SUBBLOCK_DATA (rmw_flag rmw_path) in
    let doff := beamfs_desc_off c in
    if uncorrectable then (- EIO, [], calls)
    else if s_data_csum c && negb (getb tmp doff =? BEAMFS_CSUM_CRC32) then (- EIO, [], calls ++ [bad])
    else if s_data_csum c && negb (get_le32 tmp (doff + 4) =? beamfs_inline_payload_crc tmp)
    then (- EIO, [], calls ++ [bad])
    else if s_data_selfid c && negb (beamfs_data_selfid ino iblock =? get_le64 tmp (beamfs_selfid_off c))
    then (- EIO, [], calls ++ [bad])
    else (0, copy_slice tmp slice_offset slice_length, calls).

Definition beamfs_inline_decode_symlink (stk : stack_arrays) (scratch_ok : bool) (raw : list Z)
    (phys ino len : Z) : Z * list Z * list rs_call :=
  if beamfs_block_payload c <? len then (- EUCLEAN, [], [])
  else beamfs_inline_decode_block_into_buf stk scratch_ok raw phys ino 0 0 len false.
End data.
