(* ===== verification/Super.v ===== *)
(** * The superblock in memory (super.c)

    The authoritative copy [s_beamfs_sb], the buffer it is written through,
    its Reed-Solomon parity and CRC, the resilience journal it carries, and
    the part of mount that reads it back. *)

From S2P Require Import Prelude Format Crc RsInit RsLib Edac Dirent.

(** ** State *)

Record buffer := Buffer { b_data : list Z; b_uptodate : bool; b_dirty : bool }.

Record super := Super {
  s_beamfs_sb : list Z;              (** struct beamfs_super_block, 4096 bytes *)
  s_sbh : buffer;
  s_sb_rs_staging : bool;            (** the mount's staging buffer exists *)
  s_super_needs_encode : bool;
  s_failed : bool }.

Definition set_sb (sp : super) (fsb : list Z) : super :=
  Super fsb (s_sbh sp) (s_sb_rs_staging sp) (s_super_needs_encode sp) (s_failed sp).

Definition beamfs_fail (sp : super) : super :=
  Super (s_beamfs_sb sp) (s_sbh sp) (s_sb_rs_staging sp) (s_super_needs_encode sp) true.

(** ** Staging *)

(** Bytes [0, 64) and [68, 2769) of the superblock, then the pad. *)
Definition beamfs_sb_to_rs_staging (sb : list Z) : list Z :=
  slice sb 0 off_s_crc32 ++ slice sb off_s_uuid (off_s_pad - off_s_uuid) ++
  zeros (BEAMFS_SB_RS_STAGING_BYTES - BEAMFS_SB_RS_COVERAGE_BYTES).

Definition beamfs_sb_from_rs_staging (staging sb : list Z) : list Z :=
  let sb := splice sb 0 (slice staging 0 off_s_crc32) in
  splice sb off_s_uuid (slice staging off_s_crc32 (off_s_pad - off_s_uuid)).

Section super.
Context `{RL : !RsLib} `{CL : !CrcLib} (t : rs_tables) (cpu : nat).

(** The staging buffer and the parity zone as one memory: the codec works
    on the first, reads and writes parity in the second. *)
Definition sb_region (fsb : list Z) : list Z :=
  beamfs_sb_to_rs_staging fsb ++ slice fsb BEAMFS_SB_RS_PARITY_OFFSET BEAMFS_SB_RS_PARITY_BYTES.

Definition sb_encode (fsb : list Z) : list Z :=
  let '(_, mem) := beamfs_rs_encode_region t cpu (sb_region fsb) 0 BEAMFS_SB_RS_DATA_LEN
    BEAMFS_SB_RS_STAGING_BYTES BEAMFS_RS_PARITY BEAMFS_SB_RS_DATA_LEN BEAMFS_SB_RS_SUBBLOCKS in
  splice fsb BEAMFS_SB_RS_PARITY_OFFSET (slice mem BEAMFS_SB_RS_STAGING_BYTES BEAMFS_SB_RS_PARITY_BYTES).

Definition beamfs_dirty_super_now (sp : super) : super :=
  if s_failed sp then sp
  else if negb (b_uptodate (s_sbh sp)) then beamfs_fail sp
  else
    let fsb := s_beamfs_sb sp in
    let fsb := if s_sb_rs_staging sp then sb_encode fsb else fsb in
    let crc := beamfs_crc32_sb fsb in
    let fsb := put_le32 fsb off_s_crc32 crc in
    Super (put_le32 (s_beamfs_sb sp) off_s_crc32 crc) (Buffer fsb true true)
      (s_sb_rs_staging sp) (s_super_needs_encode sp) (s_failed sp).

Definition clear_needs_encode (sp : super) : super :=
  Super (s_beamfs_sb sp) (s_sbh sp) (s_sb_rs_staging sp) false (s_failed sp).

Definition beamfs_dirty_super (sp : super) : super := beamfs_dirty_super_now (clear_needs_encode sp).

Definition beamfs_super_encode_pending (sp : super) : super :=
  if negb (s_super_needs_encode sp) then sp
  else beamfs_dirty_super_now (clear_needs_encode sp).

(** ** The resilience journal *)

Definition off_event (head : Z) : Z := off_s_rs_journal + head * sizeof_rs_event.

(** The 40 bytes of struct beamfs_rs_event. *)
Definition rs_event_bytes (block_no timestamp symbol_count entropy flags : Z) : list Z :=
  let body := le_bytes 8 block_no ++ le_bytes 8 timestamp ++ le_bytes 4 symbol_count ++
              le_bytes 4 entropy ++ le_bytes 4 flags ++ le_bytes 4 0 in
  body ++ le_bytes 4 (beamfs_crc32 body) ++ le_bytes 4 0.

Definition reserved_mask : Z :=
  Z.lor BEAMFS_RS_EVENT_FLAG_ENTROPY_VALID BEAMFS_RS_EVENT_FLAG_UNCORRECTABLE.

(** The guards of [beamfs_log_rs_event_flagged]. *)
Definition event_ok (positions : option (list Z)) (n_positions code_len_bytes : Z) : bool :=
  negb (BEAMFS_RS_PARITY / 2 <? n_positions) &&
  Bool.eqb (n_positions =? 0) (match positions with None => true | _ => false end) &&
  negb ((code_len_bytes =? 0) || (BEAMFS_SUBBLOCK_DATA <? code_len_bytes)).

(** The forensic policy: flags and entropy. *)
Definition event_flags (n_positions extra_flags : Z) : Z :=
  let flags :=
    if n_positions =? 0 then BEAMFS_RS_EVENT_FLAG_UNCORRECTABLE
    else if 2 <=? n_positions then BEAMFS_RS_EVENT_FLAG_ENTROPY_VALID else 0 in
  Z.lor flags (Z.ldiff extra_flags reserved_mask).

Definition event_entropy (positions : option (list Z)) (n_positions code_len_bytes : Z) : Z :=
  if 2 <=? n_positions
  then beamfs_rs_compute_entropy_q16_16 (default [] positions) n_positions code_len_bytes else 0.

(** [now] is what ktime_get_ns() reads. *)
Definition beamfs_log_rs_event_flagged (now : Z) (sp : super) (block_no : Z)
    (positions : option (list Z)) (n_positions code_len_bytes extra_flags : Z) : super :=
  if negb (event_ok positions n_positions code_len_bytes) then sp
  else
    let entropy_q16 := event_entropy positions n_positions code_len_bytes in
    let flags := event_flags n_positions extra_flags in
    let fsb := s_beamfs_sb sp in
    let head := getb fsb off_s_rs_journal_head mod BEAMFS_RS_JOURNAL_SIZE in
    let fsb := splice fsb (off_event head)
      (rs_event_bytes block_no now n_positions entropy_q16 flags) in
    let fsb := setb fsb off_s_rs_journal_head ((head + 1) mod BEAMFS_RS_JOURNAL_SIZE) in
    let fsb := if Z.land flags BEAMFS_RS_EVENT_FLAG_UNCORRECTABLE =? 0 then fsb
               else put_le32 fsb off_s_flags (Z.lor (get_le32 fsb off_s_flags) BEAMFS_SB_FLAG_ERRORS) in
    beamfs_dirty_super (set_sb sp fsb).

Definition beamfs_log_rs_event (now : Z) (sp : super) (block_no : Z) (positions : option (list Z))
    (n_positions code_len_bytes : Z) : super :=
  beamfs_log_rs_event_flagged now sp block_no positions n_positions code_len_bytes 0.

(** ** Reading it back at mount *)

Record pending_rs_event := Pending {
  pe_block_no : Z; pe_n_positions : Z; pe_code_len_bytes : Z; pe_positions : list Z }.

(** [kmalloc_ok]: the events' array could be allocated. *)
Definition beamfs_capture_sb_rs_events (kmalloc_ok : bool) (rs_results : list Z)
    (rs_positions : list (list Z)) : list pending_rs_event :=
  let hit := filter (fun i => 0 < getb rs_results i) (upto BEAMFS_SB_RS_SUBBLOCKS) in
  if negb kmalloc_ok then []
  else
    map (fun i =>
      let np := Z.min (getb rs_results i) (BEAMFS_RS_PARITY / 2) in
      Pending (Z.lor BEAMFS_RS_BLOCK_NO_SB_MARKER i) np BEAMFS_SB_RS_DATA_LEN
        (slice (nth (Z.to_nat i) rs_positions []) 0 np)) hit.

(** The head of beamfs_fill_super, up to the feature checks: the checks of
    magic and version, then the CRC, then Reed-Solomon when the CRC fails.
    [inl] is the error the mount returns. *)
Definition fill_super_read (kvmalloc_ok kmalloc_ok : bool) (fsb : list Z)
    : Z + (list Z * list pending_rs_event) :=
  if negb (get_le32 fsb off_s_magic =? BEAMFS_MAGIC) then inl (- EINVAL)
  else if negb (get_le32 fsb off_s_version =? BEAMFS_VERSION_CURRENT) then inl (- EINVAL)
  else if beamfs_crc32_sb fsb =? get_le32 fsb off_s_crc32 then inr (fsb, [])
  else if negb kvmalloc_ok then inl (- ENOMEM)
  else
    let '(rc, mem, results, positions) :=
      beamfs_rs_decode_region t cpu (sb_region fsb) 0 BEAMFS_SB_RS_DATA_LEN BEAMFS_SB_RS_STAGING_BYTES
        BEAMFS_RS_PARITY BEAMFS_SB_RS_DATA_LEN BEAMFS_SB_RS_SUBBLOCKS (Some (BEAMFS_RS_PARITY / 2)) in
    if rc <? 0 then inl (- EINVAL)
    else
      let fsb := beamfs_sb_from_rs_staging (slice mem 0 BEAMFS_SB_RS_STAGING_BYTES) fsb in
      if negb (beamfs_crc32_sb fsb =? get_le32 fsb off_s_crc32) then inl (- EINVAL)
      else inr (fsb, beamfs_capture_sb_rs_events kmalloc_ok results positions).

(** The feature checks.  [inl] refuses the mount; [inr] says whether the
    mount is read-only. *)
Definition fill_super_features (rdonly : bool) (fsb : list Z) : Z + bool :=
  let scheme := get_le32 fsb off_s_data_protection_scheme in
  let incompat := get_le64 fsb off_s_feat_incompat in
  let unknown_incompat := Z.ldiff incompat BEAMFS_FEAT_INCOMPAT_SUPP in
  let unknown_ro_compat := Z.ldiff (get_le64 fsb off_s_feat_ro_compat) BEAMFS_FEAT_RO_COMPAT_SUPP in
  if BEAMFS_DATA_PROTECTION_MAX <? scheme then inl (- EINVAL)
  else if Z.land incompat BEAMFS_FEATURE_INCOMPAT_INODE_CRC_FULL =? 0 then inl (- EINVAL)
  else if negb (get_le32 fsb off_s_ind_parity_mode =? BEAMFS_IND_PARITY_NONE) &&
          (Z.land incompat BEAMFS_FEATURE_INCOMPAT_IND_PARITY_FEC =? 0) then inl (- EINVAL)
  else if negb (unknown_incompat =? 0) then inl (- EINVAL)
  else inr (rdonly || negb (unknown_ro_compat =? 0)).

(** ** The mounted flag

    The mount with its superblock in memory, the block on the medium, and
    whether the VFS holds it read-only. *)

Record mnt := Mnt { m_super : super; m_medium : list Z; m_rdonly : bool }.

Definition with_super (m : mnt) (sp : super) : mnt := Mnt sp (m_medium m) (m_rdonly m).

Definition set_flags (sp : super) (fl : Z) : super := set_sb sp (put_le32 (s_beamfs_sb sp) off_s_flags fl).

(** sync_dirty_buffer on the superblock's buffer: a dirty buffer is written
    and clean; [ok]: the device took it.  One it did not take is no longer
    up to date, and the medium is as it was. *)
Definition sync_sbh (ok : bool) (m : mnt) : Z * mnt :=
  let sp := m_super m in
  let with_bh bh := Super (s_beamfs_sb sp) bh (s_sb_rs_staging sp) (s_super_needs_encode sp) (s_failed sp) in
  if negb (b_dirty (s_sbh sp)) then (0, m)
  else if ok
  then (0, Mnt (with_bh (Buffer (b_data (s_sbh sp)) (b_uptodate (s_sbh sp)) false)) (b_data (s_sbh sp)) (m_rdonly m))
  else (- EIO, with_super m (with_bh (Buffer (b_data (s_sbh sp)) false false))).

(** The end of a mount: the mounted flag, and whether the last mount left
    the volume clean. *)
Definition fill_super_flags (ok : bool) (m : mnt) : bool * mnt :=
  let fl := get_le32 (s_beamfs_sb (m_super m)) off_s_flags in
  let unclean := negb (Z.land fl (Z.lor BEAMFS_SB_FLAG_MOUNTED BEAMFS_SB_FLAG_ERRORS) =? 0) in
  if m_rdonly m then (unclean, m)
  else
    (unclean, snd (sync_sbh ok (with_super m
      (beamfs_dirty_super_now (set_flags (m_super m) (Z.lor fl BEAMFS_SB_FLAG_MOUNTED)))))).

(** The superblock's part of beamfs_sync_fs. *)
Definition sync_fs_super (ok : bool) (m : mnt) : Z * mnt :=
  sync_sbh ok (with_super m (beamfs_super_encode_pending (m_super m))).

(** The superblock's part of beamfs_put_super. *)
Definition put_super_flags (ok : bool) (m : mnt) : mnt :=
  let sp := beamfs_super_encode_pending (m_super m) in
  let sp :=
    if negb (m_rdonly m) && negb (s_failed sp) then
      beamfs_dirty_super_now
        (set_flags sp (Z.ldiff (get_le32 (s_beamfs_sb sp) off_s_flags) BEAMFS_SB_FLAG_MOUNTED))
    else sp in
  snd (sync_sbh ok (with_super m sp)).

(** [sync_ret]: what sync_filesystem answered, whose work on the superblock
    is [sync_fs_super]; [mask]: SB_RDONLY is among the flags to change. *)
Definition beamfs_reconfigure (sync_ret : Z) (mask to_ro ok : bool) (m : mnt) : Z * mnt :=
  let sp := m_super m in
  let unknown := Z.ldiff (get_le64 (s_beamfs_sb sp) off_s_feat_ro_compat) BEAMFS_FEAT_RO_COMPAT_SUPP in
  if negb (sync_ret =? 0) then (sync_ret, m)
  else if negb mask || Bool.eqb to_ro (m_rdonly m) then (0, m)
  else if negb to_ro && negb (unknown =? 0) then (- EROFS, m)
  else if s_failed sp then (if to_ro then 0 else - EROFS, m)
  else
    let fl := get_le32 (s_beamfs_sb sp) off_s_flags in
    let fl := if to_ro then Z.ldiff fl BEAMFS_SB_FLAG_MOUNTED else Z.lor fl BEAMFS_SB_FLAG_MOUNTED in
    (0, snd (sync_sbh ok (with_super m (beamfs_dirty_super (set_flags sp fl))))).
End super.
