(* ===== verification/SuperTheorems.v ===== *)
(** * What the superblock code guarantees *)

From S2P Require Import Prelude Format Crc RsInit GF RsTheory RsCode RsCorrect RsDecode RsLib RsComplete Edac EdacWord EdacBlock EdacLayouts EdacTheorems Dirent Super.

Ltac sb_consts :=
  change off_s_crc32 with 64 in *; change off_s_uuid with 68 in *; change off_s_pad with 2769 in *;
  change BEAMFS_SB_RS_STAGING_BYTES with 2769 in *; change BEAMFS_SB_RS_COVERAGE_BYTES with 2765 in *;
  change BEAMFS_SB_RS_PARITY_OFFSET with 3888 in *; change BEAMFS_SB_RS_PARITY_BYTES with 208 in *;
  change BEAMFS_SB_RS_DATA_LEN with 213 in *; change BEAMFS_SB_RS_SUBBLOCKS with 13 in *;
  change BEAMFS_BLOCK_SIZE with 4096 in *; change off_s_magic with 0 in *; change off_s_version with 56 in *;
  change off_s_flags with 60 in *; change off_s_rs_journal with 116 in *;
  change off_s_rs_journal_head with 2676 in *; change sizeof_rs_event with 40 in *;
  change BEAMFS_RS_JOURNAL_SIZE with 64 in *.

(** ** Staging *)

Lemma zlen_staging sb : zlen sb = 4096 -> zlen (beamfs_sb_to_rs_staging sb) = 2769.
Proof.
  intros Hz. unfold beamfs_sb_to_rs_staging. sb_consts. rewrite !zlen_app, !zlen_slice, zlen_zeros by lia. lia.
Qed.

Lemma bytes_staging sb : bytes sb -> bytes (beamfs_sb_to_rs_staging sb).
Proof. intros. unfold beamfs_sb_to_rs_staging. rewrite !bytes_app. auto with bytes. Qed.

(** Two images with the same covered bytes. *)
Definition same_covered (a b : list Z) : Prop :=
  slice a 0 64 = slice b 0 64 /\ slice a 68 2701 = slice b 68 2701.

Lemma staging_ext a b : same_covered a b -> beamfs_sb_to_rs_staging a = beamfs_sb_to_rs_staging b.
Proof. intros [H1 H2]. unfold beamfs_sb_to_rs_staging. sb_consts. change (2769 - 68) with 2701. by rewrite H1, H2. Qed.

Lemma crc_ext `{CL : !CrcLib} a b : same_covered a b -> beamfs_crc32_sb a = beamfs_crc32_sb b.
Proof. intros [H1 H2]. unfold beamfs_crc32_sb. sb_consts. change (2769 - 68) with 2701. by rewrite H1, H2. Qed.

Lemma same_covered_trans a b c : same_covered a b -> same_covered b c -> same_covered a c.
Proof. intros [? ?] [? ?]. split; congruence. Qed.

Lemma same_covered_sym a b : same_covered a b -> same_covered b a.
Proof. intros [? ?]. split; congruence. Qed.

(** Writes outside the covered bytes. *)
Lemma covered_splice a off src :
  zlen a = 4096 -> 0 <= off -> off + zlen src <= 4096 ->
  (64 <= off /\ off + zlen src <= 68) \/ 2769 <= off -> same_covered (splice a off src) a.
Proof.
  intros Hz Ho Hl D. pose proof (zlen_nonneg src). split; apply slice_splice_ne; lia.
Qed.

Lemma from_staging_spec st sb :
  zlen st = 2769 -> zlen sb = 4096 ->
  let r := beamfs_sb_from_rs_staging st sb in
  zlen r = 4096 /\ slice r 0 64 = slice st 0 64 /\ slice r 68 2701 = slice st 64 2701 /\
  slice r 64 4 = slice sb 64 4 /\ slice r 2769 1327 = slice sb 2769 1327.
Proof.
  intros Hs Hz r. subst r. unfold beamfs_sb_from_rs_staging. sb_consts. change (2769 - 68) with 2701.
  assert (L1 : zlen (slice st 0 64) = 64) by (rewrite zlen_slice; lia).
  assert (L2 : zlen (slice st 64 2701) = 2701) by (rewrite zlen_slice; lia).
  assert (L3 : zlen (splice sb 0 (slice st 0 64)) = 4096) by (rewrite zlen_splice; lia).
  split_and!.
  - rewrite zlen_splice; lia.
  - rewrite slice_splice_ne by lia. apply slice_splice_len; lia.
  - apply slice_splice_len; lia.
  - rewrite !slice_splice_ne by lia. done.
  - rewrite !slice_splice_ne by lia. done.
Qed.

Lemma slice_app_mid {A} (l1 l2 l3 : list A) off n :
  off = zlen l1 -> n = zlen l2 -> slice (l1 ++ l2 ++ l3) off n = l2.
Proof.
  intros -> ->. unfold slice, zlen. rewrite !Nat2Z.id, drop_app_length. apply take_app_length.
Qed.

Lemma staging_parts sb :
  zlen sb = 4096 ->
  slice (beamfs_sb_to_rs_staging sb) 0 64 = slice sb 0 64 /\
  slice (beamfs_sb_to_rs_staging sb) 64 2701 = slice sb 68 2701.
Proof.
  intros Hz. unfold beamfs_sb_to_rs_staging. sb_consts. change (2769 - 68) with 2701. split.
  - apply (slice_app_mid []); [done|]. rewrite zlen_slice; lia.
  - apply slice_app_mid; rewrite zlen_slice; lia.
Qed.

(** Staging is lossless: copying a superblock's staging buffer onto any
    image restores exactly the covered bytes [0, 64) and [68, 2769), and
    leaves that image's s_crc32 and everything from s_pad on. *)
Theorem staging_roundtrip (sb sb' : list Z) :
  zlen sb = BEAMFS_BLOCK_SIZE -> zlen sb' = BEAMFS_BLOCK_SIZE ->
  let r := beamfs_sb_from_rs_staging (beamfs_sb_to_rs_staging sb) sb' in
  same_covered r sb /\ slice r off_s_crc32 4 = slice sb' off_s_crc32 4 /\
  slice r off_s_pad 1327 = slice sb' off_s_pad 1327.
Proof.
  intros Hz Hz'. sb_consts. destruct (from_staging_spec _ sb' (zlen_staging sb Hz) Hz') as (_ & A & B & C & D).
  destruct (staging_parts sb Hz) as [P Q]. split; [split|]; [by rewrite A|by rewrite B|done].
Qed.

Lemma staging_roundtrip_witness :
  same_covered (beamfs_sb_from_rs_staging (beamfs_sb_to_rs_staging (zeros 4096)) (replicate 4096 1)) (zeros 4096).
Proof. refine (proj1 (staging_roundtrip (zeros 4096) (replicate 4096 1) _ _)); reflexivity. Defined.

(** ** The image that is written *)

Section image.
Context `{RL : !RsLib} `{RS : !RsLibSpec} `{CL : !CrcLib} (t : rs_tables) (cpu : nat).
Context (Hctrl : ctrl_here t cpu = true).

(** What beamfs_dirty_super_now puts in the buffer. *)
Definition sb_image (fsb : list Z) : list Z :=
  put_le32 (sb_encode t cpu fsb) off_s_crc32 (beamfs_crc32_sb (sb_encode t cpu fsb)).

Lemma zlen_sb_region fsb : zlen fsb = 4096 -> zlen (sb_region fsb) = 2977.
Proof. intros Hz. unfold sb_region. sb_consts. rewrite zlen_app, zlen_staging, zlen_slice by lia. done. Qed.

Lemma bytes_sb_region fsb : bytes fsb -> bytes (sb_region fsb).
Proof. intros Hb. unfold sb_region. apply bytes_app. split; [by apply bytes_staging|auto with bytes]. Qed.

Lemma sb_encode_spec fsb :
  zlen fsb = 4096 -> bytes fsb -> exists mem, encoded sb_layout (sb_region fsb) mem /\
    sb_encode t cpu fsb = splice fsb 3888 (slice mem 2769 208) /\ zlen (slice mem 2769 208) = 208.
Proof.
  intros Hz Hb. unfold sb_encode.
  destruct (encode_region_encoded t cpu Hctrl _ _ _ _ _ _ _ (LO := sb_layout_ok) (sb_region fsb)
    (zlen_sb_region fsb Hz) (bytes_sb_region fsb Hb)) as (mem & -> & En).
  exists mem. split; [exact En|]. split; [done|].
  pose proof (en_len _ _ _ En) as L. change (zlen mem = 2977) in L. rewrite zlen_slice; lia.
Qed.

Lemma crc_sb_range fsb : bytes fsb -> 0 <= beamfs_crc32_sb fsb < 2 ^ 32.
Proof.
  intros Hb. rewrite beamfs_crc32_sb_staging by done. apply beamfs_crc32_range, bytes_app. auto with bytes.
Qed.

(** Facts on the image: length, bytes, covered bytes, CRC, parity. *)
Lemma sb_image_spec fsb :
  zlen fsb = 4096 -> bytes fsb ->
  zlen (sb_image fsb) = 4096 /\ bytes (sb_image fsb) /\ same_covered (sb_image fsb) fsb /\
  get_le32 (sb_image fsb) 64 = beamfs_crc32_sb (sb_image fsb) /\
  encoded sb_layout (sb_region fsb) (sb_region (sb_image fsb)).
Proof.
  intros Hz Hb. destruct (sb_encode_spec fsb Hz Hb) as (mem & En & E & Lm).
  pose proof (en_len _ _ _ En) as L. change (zlen mem = 2977) in L.
  assert (Bm : bytes mem) by apply En.
  set (e := sb_encode t cpu fsb) in *. assert (Ze : zlen e = 4096) by (rewrite E, zlen_splice; lia).
  assert (Be : bytes e) by (rewrite E; auto with bytes).
  assert (Ce : same_covered e fsb) by (rewrite E; apply covered_splice; lia).
  pose proof (crc_sb_range e Be) as Rc.
  assert (L4 : zlen (le_bytes 4 (beamfs_crc32_sb e)) = 4) by apply zlen_le_bytes.
  assert (Zi : zlen (sb_image fsb) = 4096).
  { unfold sb_image, put_le32. sb_consts. fold e. rewrite zlen_splice; lia. }
  assert (Ci : same_covered (sb_image fsb) e).
  { unfold sb_image, put_le32. sb_consts. fold e. apply covered_splice; lia. }
  assert (Cf : same_covered (sb_image fsb) fsb) by (by apply (same_covered_trans _ e)).
  split_and!.
  - done.
  - unfold sb_image, put_le32. fold e. auto with bytes.
  - exact Cf.
  - rewrite (crc_ext _ e Ci). unfold sb_image. sb_consts. fold e. apply get_put_le32; lia.
  - assert (Em : sb_region (sb_image fsb) = mem); [|by rewrite Em].
    unfold sb_region. sb_consts. rewrite (staging_ext _ fsb Cf).
    assert (Ep : slice (sb_image fsb) 3888 208 = slice mem 2769 208).
    { unfold sb_image, put_le32. sb_consts. fold e. rewrite slice_splice_ne by lia.
      rewrite E. apply slice_splice_len; lia. }
    rewrite Ep. assert (Ed : beamfs_sb_to_rs_staging fsb = slice mem 0 2769).
    { apply bytes_ext; [rewrite zlen_staging, zlen_slice; lia|]. rewrite zlen_staging by lia. intros a Ha.
      rewrite getb_slice by lia. rewrite Z.add_0_l. rewrite (en_out _ _ _ En).
      - unfold sb_region. rewrite getb_app by lia. rewrite zlen_staging by lia. by rewrite decide_True by lia.
      - lia.
      - intros i Hi. change (l_n sb_layout) with 13 in Hi. cbn. sb_consts. unfold BEAMFS_RS_PARITY. lia. }
    rewrite Ed. apply bytes_ext; [rewrite zlen_app, !zlen_slice; lia|].
    rewrite zlen_app, !zlen_slice by lia. intros a Ha. rewrite getb_app by lia. rewrite zlen_slice by lia.
    case_decide; rewrite getb_slice by lia; f_equal; lia.
Qed.
End image.

(** Thirteen subblocks of 213 bytes are the staging buffer. *)
Lemma staging_layout_ext a b :
  zlen a = 2977 -> zlen b = 2977 -> (forall i, 0 <= i < 13 -> cw_data sb_layout a i = cw_data sb_layout b i) ->
  slice a 0 2769 = slice b 0 2769.
Proof.
  intros Ha Hb E. apply bytes_ext; rewrite !zlen_slice by lia; [done|]. intros x Hx.
  rewrite !getb_slice by lia. pose proof (Z.div_mod x 213 ltac:(lia)).
  pose proof (Z.mod_pos_bound x 213 ltac:(lia)).
  specialize (E (x / 213) ltac:(lia)). apply (f_equal (fun l => getb l (x mod 213))) in E.
  rewrite !getb_cw_data in E by (change (l_len sb_layout) with 213; lia). cbn in E. sb_consts.
  replace (0 + x) with (0 + x / 213 * 213 + x mod 213) by lia. exact E.
Qed.

Lemma region_staging fsb : zlen fsb = 4096 -> slice (sb_region fsb) 0 2769 = beamfs_sb_to_rs_staging fsb.
Proof.
  intros Hz. unfold sb_region. change (?a ++ ?b) with ([] ++ a ++ b). apply slice_app_mid; [done|].
  by rewrite zlen_staging.
Qed.

Section mount.
Context `{RL : !RsLib} `{RS : !RsLibSpec} `{CL : !CrcLib} (t : rs_tables) (cpu : nat).
Context (Hctrl : ctrl_here t cpu = true).

Definition sb_good (fsb : list Z) : Prop :=
  zlen fsb = 4096 /\ bytes fsb /\ get_le32 fsb off_s_magic = BEAMFS_MAGIC /\
  get_le32 fsb off_s_version = BEAMFS_VERSION_CURRENT.

Lemma le32_covered a b off :
  zlen a = 4096 -> zlen b = 4096 -> same_covered a b -> 0 <= off -> off + 4 <= 64 ->
  get_le32 a off = get_le32 b off.
Proof.
  intros Ha Hb [H _] Ho Hl. unfold get_le32. f_equal. apply bytes_ext; rewrite !zlen_slice by lia; [done|].
  intros k Hk. rewrite !getb_slice by lia. apply (f_equal (fun l => getb l (off + k))) in H.
  rewrite !getb_slice in H by lia. exact H.
Qed.

Lemma sb_image_good fsb : sb_good fsb -> sb_good (sb_image t cpu fsb).
Proof.
  intros (Z & B & M & V). destruct (sb_image_spec t cpu Hctrl fsb Z B) as (Zi & Bi & C & _ & _).
  split_and!; [done|done| |]; rewrite (le32_covered _ fsb) by (done || sb_consts; lia); done.
Qed.

(** An undamaged image mounts as it is. *)
Lemma read_image kv km fsb :
  sb_good fsb -> fill_super_read t cpu kv km (sb_image t cpu fsb) = inr (sb_image t cpu fsb, []).
Proof.
  intros G. destruct (sb_image_good fsb G) as (_ & _ & M & V). destruct G as (Z & B & _).
  destruct (sb_image_spec t cpu Hctrl fsb Z B) as (_ & _ & _ & C & _).
  unfold fill_super_read. rewrite M, V, !Z.eqb_refl. cbn [negb]. sb_consts. by rewrite C, Z.eqb_refl.
Qed.

Context `{RB : !RsLibBounded}.

(** The codec gives the staging bytes back. *)
Lemma decode_sb fsb hit :
  sb_good fsb -> zlen hit = 4096 -> bytes hit ->
  (forall i, 0 <= i < 13 -> damage sb_layout (sb_region (sb_image t cpu fsb)) (sb_region hit) i <= 8) ->
  exists mem results positions,
    beamfs_rs_decode_region t cpu (sb_region hit) 0 BEAMFS_SB_RS_DATA_LEN BEAMFS_SB_RS_STAGING_BYTES
      BEAMFS_RS_PARITY BEAMFS_SB_RS_DATA_LEN BEAMFS_SB_RS_SUBBLOCKS (Some (BEAMFS_RS_PARITY / 2))
      = (0, mem, results, positions) /\
    slice mem 0 2769 = beamfs_sb_to_rs_staging fsb.
Proof.
  intros (Z & B & _) Zh Bh D. destruct (sb_image_spec t cpu Hctrl fsb Z B) as (Zi & Bi & Ci & Crc & En).
  destruct (decode_region_restores t cpu Hctrl _ _ _ _ _ _ _ (LO := sb_layout_ok) (sb_region fsb)
    (sb_region (sb_image t cpu fsb)) (sb_region hit) (Some (BEAMFS_RS_PARITY / 2)))
    as (fixed & De & _ & Dt & E).
  - intros m [= <-]. done.
  - by apply zlen_sb_region.
  - by apply bytes_sb_region.
  - exact En.
  - by apply bytes_sb_region.
  - by apply zlen_sb_region.
  - exact D.
  - do 3 eexists. split; [exact E|]. rewrite <- region_staging by done.
    apply staging_layout_ext; [apply De|by apply zlen_sb_region|exact Dt].
Qed.

Lemma read_damaged km fsb hit :
  sb_good fsb -> zlen hit = 4096 -> bytes hit ->
  get_le32 hit 0 = BEAMFS_MAGIC -> get_le32 hit 56 = BEAMFS_VERSION_CURRENT ->
  slice hit 64 4 = slice (sb_image t cpu fsb) 64 4 -> beamfs_crc32_sb hit <> get_le32 hit 64 ->
  (forall i, 0 <= i < 13 -> damage sb_layout (sb_region (sb_image t cpu fsb)) (sb_region hit) i <= 8) ->
  exists r pending, fill_super_read t cpu true km hit = inr (r, pending) /\
    same_covered r fsb /\ slice r 64 4 = slice (sb_image t cpu fsb) 64 4.
Proof.
  intros G Zh Bh M V Hc Hne D. destruct (decode_sb fsb hit G Zh Bh D) as (mem & res & pos & E & Es).
  destruct G as (Z & B & _). destruct (sb_image_spec t cpu Hctrl fsb Z B) as (Zi & Bi & Ci & Crc & En).
  unfold fill_super_read. rewrite E. sb_consts. rewrite M, V, !Z.eqb_refl. cbn [negb].
  destruct (beamfs_crc32_sb hit =? get_le32 hit 64) eqn:Eq; [lia|]. cbn [Z.ltb Z.compare]. rewrite Es.
  destruct (from_staging_spec _ hit (zlen_staging fsb Z) Zh) as (_ & A1 & A2 & A3 & _).
  destruct (staging_parts fsb Z) as [P Q].
  set (r := beamfs_sb_from_rs_staging (beamfs_sb_to_rs_staging fsb) hit) in *.
  assert (Cr : same_covered r fsb) by (split; congruence).
  assert (Ecrc : beamfs_crc32_sb r = get_le32 r 64).
  { unfold get_le32. rewrite A3, Hc. change (le_val (slice (sb_image t cpu fsb) 64 4)) with
      (get_le32 (sb_image t cpu fsb) 64). rewrite Crc. apply crc_ext.
    by apply (same_covered_trans _ fsb), same_covered_sym. }
  rewrite Ecrc, Z.eqb_refl. cbn [negb]. do 2 eexists. split; [reflexivity|]. split; [exact Cr|congruence].
Qed.
End mount.

(** What the next mount reads after [beamfs_dirty_super]. *)
Lemma dirty_super_read `{RL : !RsLib} `{RS : !RsLibSpec} `{CL : !CrcLib} t cpu (sp : super) kv km :
  ctrl_here t cpu = true -> sb_good (s_beamfs_sb sp) -> s_failed sp = false ->
  b_uptodate (s_sbh sp) = true -> s_sb_rs_staging sp = true ->
  let sp' := beamfs_dirty_super t cpu sp in
  let disk := b_data (s_sbh sp') in
  fill_super_read t cpu kv km disk = inr (disk, []) /\ same_covered disk (s_beamfs_sb sp) /\
  b_dirty (s_sbh sp') = true /\ s_failed sp' = false /\ same_covered (s_beamfs_sb sp') (s_beamfs_sb sp).
Proof.
  intros Hc G Hf Hu Hs sp' disk. destruct sp as [fsb bh st ne fl]. cbn in *. subst.
  unfold disk, sp', beamfs_dirty_super, beamfs_dirty_super_now, clear_needs_encode. cbn. rewrite Hu. cbn.
  fold (sb_image t cpu fsb). pose proof (read_image t cpu Hc kv km fsb G) as R. destruct G as (Z & B & _).
  destruct (sb_image_spec t cpu Hc fsb Z B) as (Zi & Bi & Ci & _).
  split_and!; [exact R|exact Ci|done|done|].
  unfold put_le32. apply covered_splice; rewrite ?zlen_le_bytes; sb_consts; lia.
Qed.

(** What [beamfs_dirty_super] puts in the buffer is a superblock the
    next mount accepts without recovery: its CRC and parity are those of
    the fields it carries, and the fields are the authoritative ones. *)
Theorem dirty_super_mountable `{RL : !RsLib} `{RS : !RsLibSpec} `{CL : !CrcLib} t cpu (sp : super) kv km :
  ctrl_here t cpu = true -> sb_good (s_beamfs_sb sp) -> s_failed sp = false ->
  b_uptodate (s_sbh sp) = true -> s_sb_rs_staging sp = true ->
  let sp' := beamfs_dirty_super t cpu sp in
  let disk := b_data (s_sbh sp') in
  fill_super_read t cpu kv km disk = inr (disk, []) /\ same_covered disk (s_beamfs_sb sp) /\
  b_dirty (s_sbh sp') = true /\ s_failed sp' = false /\ same_covered (s_beamfs_sb sp') (s_beamfs_sb sp).
Proof. intros. by apply dirty_super_read. Qed.

(** A minimal superblock: magic and version over zeros. *)
Definition ex_sb : list Z :=
  put_le32 (put_le32 (zeros 4096) off_s_magic BEAMFS_MAGIC) off_s_version BEAMFS_VERSION_CURRENT.

Lemma ex_sb_good : sb_good ex_sb.
Proof.
  split_and!; [reflexivity|unfold ex_sb, put_le32; auto with bytes|vm_compute; reflexivity|vm_compute; reflexivity].
Qed.

Definition ex_super : super := Super ex_sb (Buffer (zeros 4096) true false) true false false.

Lemma dirty_super_mountable_witness :
  let disk := b_data (s_sbh (beamfs_dirty_super ex_tables 0 ex_super)) in
  fill_super_read ex_tables 0 true true disk = inr (disk, []).
Proof.
  refine (proj1 (dirty_super_mountable ex_tables 0 ex_super true true _ _ _ _ _));
    [done|exact ex_sb_good|done|done|done].
Defined.


Definition ex_disk : list Z := Eval vm_compute in sb_image ex_tables 0 ex_sb.
Definition ex_hit : list Z := setb (setb ex_disk 24 200) 100 77.


(** The checksum field is a single point of failure: it is covered by
    neither the CRC nor the parity, so an image whose only damage is there,
    be it one bit, is refused by every mount although nothing else is
    wrong. *)
Theorem sb_crc_field_unprotected `{RL : !RsLib} `{RS : !RsLibSpec} `{CL : !CrcLib} t cpu km (fsb : list Z) x :
  ctrl_here t cpu = true -> sb_good fsb -> 0 <= x < 2 ^ 32 ->
  x <> get_le32 (sb_image t cpu fsb) off_s_crc32 ->
  fill_super_read t cpu true km (put_le32 (sb_image t cpu fsb) off_s_crc32 x) = inl (- EINVAL).
Proof.
  intros Hc G Hx Hne. destruct (sb_image_good t cpu Hc fsb G) as (_ & _ & M & V). destruct G as (Z & B & _).
  destruct (sb_image_spec t cpu Hc fsb Z B) as (Zi & Bi & Ci & Crc & En).
  set (disk := sb_image t cpu fsb) in *. sb_consts. set (hit := put_le32 disk 64 x).
  assert (L4 : zlen (le_bytes 4 x) = 4) by apply zlen_le_bytes.
  assert (Zh : zlen hit = 4096) by (unfold hit, put_le32; rewrite zlen_splice; lia).
  assert (Ch : same_covered hit disk) by (unfold hit, put_le32; apply covered_splice; lia).
  assert (Xh : get_le32 hit 64 = x) by (apply get_put_le32; lia).
  assert (Er : sb_region hit = sb_region disk).
  { unfold sb_region. rewrite (staging_ext _ _ Ch). f_equal. unfold hit, put_le32. sb_consts.
    apply slice_splice_ne; lia. }
  unfold fill_super_read. sb_consts. rewrite Xh, (crc_ext _ _ Ch), <- Crc, Er.
  rewrite (le32_covered hit disk 0), (le32_covered hit disk 56) by (done || lia). rewrite M, V, !Z.eqb_refl. cbn [negb].
  destruct (get_le32 disk 64 =? x) eqn:E; [lia|].
  rewrite (decode_region_clean t cpu Hc _ _ _ _ _ _ _ (LO := sb_layout_ok) (sb_region fsb)
    (sb_region disk) (Some (BEAMFS_RS_PARITY / 2))); [|intros m [= <-]; done|by apply zlen_sb_region|by apply bytes_sb_region|exact En].
  cbn [Z.ltb Z.compare]. rewrite (region_staging disk Zi).
  destruct (from_staging_spec _ hit (zlen_staging disk Zi) Zh) as (_ & A1 & A2 & A3 & _).
  destruct (staging_parts disk Zi) as [P Q].
  set (r := beamfs_sb_from_rs_staging (beamfs_sb_to_rs_staging disk) hit) in *.
  assert (Cr : same_covered r disk) by (split; congruence).
  assert (Xr : get_le32 r 64 = x) by (unfold get_le32 in *; by rewrite A3).
  rewrite Xr, (crc_ext _ _ Cr), <- Crc, E. done.
Qed.

Lemma sb_crc_field_unprotected_witness :
  fill_super_read ex_tables 0 true true
    (put_le32 (sb_image ex_tables 0 ex_sb) off_s_crc32
       (Z.lxor 1 (get_le32 (sb_image ex_tables 0 ex_sb) off_s_crc32))) = inl (- EINVAL).
Proof.
  apply (sb_crc_field_unprotected ex_tables 0 true ex_sb); [done|exact ex_sb_good| |].
  - vm_compute. split; [discriminate|reflexivity].
  - vm_compute. discriminate.
Defined.

(** ** The journal *)

(** Slot [i] of the journal, as bytes. *)
Definition journal_slot (fsb : list Z) (i : Z) : list Z := slice fsb (off_event i) sizeof_rs_event.

Definition journal_head (fsb : list Z) : Z := getb fsb off_s_rs_journal_head mod BEAMFS_RS_JOURNAL_SIZE.

(** A call of the journal: its arguments. *)
Record log_call := LogCall {
  lc_now : Z; lc_block : Z; lc_positions : option (list Z); lc_n : Z; lc_len : Z; lc_flags : Z }.

Section journal.
Context `{RL : !RsLib} `{CL : !CrcLib} (t : rs_tables) (cpu : nat).

Definition do_log (sp : super) (c : log_call) : super :=
  beamfs_log_rs_event_flagged t cpu (lc_now c) sp (lc_block c) (lc_positions c) (lc_n c) (lc_len c) (lc_flags c).

Definition event_of (c : log_call) : list Z :=
  rs_event_bytes (lc_block c) (lc_now c) (lc_n c) (event_entropy (lc_positions c) (lc_n c) (lc_len c))
    (event_flags (lc_n c) (lc_flags c)).

Lemma zlen_event c : zlen (event_of c) = 40.
Proof. unfold event_of, rs_event_bytes. rewrite !zlen_app, !zlen_le_bytes. done. Qed.

(** dirty_super touches the authoritative copy in its CRC field only. *)
Lemma dirty_super_sb sp :
  zlen (s_beamfs_sb sp) = 4096 ->
  let f := s_beamfs_sb (beamfs_dirty_super t cpu sp) in
  zlen f = 4096 /\ forall a, 0 <= a -> ~ (64 <= a < 68) -> getb f a = getb (s_beamfs_sb sp) a.
Proof.
  intros Hz. unfold beamfs_dirty_super, beamfs_dirty_super_now, clear_needs_encode, beamfs_fail. cbn.
  destruct (s_failed sp); [done|]. destruct (b_uptodate (s_sbh sp)); cbn; [|done].
  unfold put_le32. sb_consts. split; [rewrite zlen_splice; rewrite ?zlen_le_bytes; lia|].
  intros a Ha Hn. apply getb_splice_out; rewrite ?zlen_le_bytes; lia.
Qed.

Lemma log_step sp c :
  zlen (s_beamfs_sb sp) = 4096 -> event_ok (lc_positions c) (lc_n c) (lc_len c) = true ->
  let f := s_beamfs_sb sp in let f' := s_beamfs_sb (do_log sp c) in let h := journal_head f in
  zlen f' = 4096 /\ journal_slot f' h = event_of c /\ journal_head f' = (h + 1) mod 64 /\
  forall i, 0 <= i < 64 -> i <> h -> journal_slot f' i = journal_slot f i.
Proof.
  intros Hz Hok f f' h. unfold f', do_log, beamfs_log_rs_event_flagged. rewrite Hok. cbn [negb].
  fold f. fold (journal_head f). fold h. fold (event_of c).
  assert (Hh : 0 <= h < 64) by (apply Z.mod_pos_bound; done). pose proof (zlen_event c) as Le.
  assert (Zf : zlen f = 4096) by done.
  unfold off_event in *. sb_consts.
  set (f1 := splice f (116 + h * 40) (event_of c)).
  assert (Z1 : zlen f1 = 4096) by (unfold f1; rewrite zlen_splice; unfold f; lia).
  set (f2 := setb f1 2676 ((h + 1) mod 64)).
  assert (Z2 : zlen f2 = 4096) by (unfold f2; by rewrite zlen_setb).
  match goal with |- context [set_sb sp ?x] => set (f3 := x) end.
  assert (H3 : zlen f3 = 4096 /\ forall a, 68 <= a -> getb f3 a = getb f2 a).
  { unfold f3. destruct (_ =? 0); [done|]. unfold put_le32. split; [rewrite zlen_splice; rewrite ?zlen_le_bytes; lia|].
    intros a Ha. apply getb_splice_out; rewrite ?zlen_le_bytes; lia. }
  destruct H3 as [Z3 H3].
  destruct (dirty_super_sb (set_sb sp f3) Z3) as [Z4 H4]. cbn [s_beamfs_sb set_sb] in *.
  set (f4 := s_beamfs_sb (beamfs_dirty_super t cpu (set_sb sp f3))) in *.
  assert (E : forall a, 68 <= a -> getb f4 a = getb f2 a) by (intros a Ha; rewrite H4, H3 by lia; done).
  split_and!.
  - done.
  - unfold journal_slot, off_event. sb_consts. apply bytes_ext; [rewrite zlen_slice; lia|].
    rewrite zlen_slice by lia. intros k Hk. rewrite getb_slice, E by lia. unfold f2.
    rewrite getb_setb_ne by lia. unfold f1. rewrite getb_splice_in by lia. f_equal. lia.
  - unfold journal_head. sb_consts. rewrite E by lia. unfold f2. rewrite getb_setb_eq by lia.
    apply Z.mod_mod. lia.
  - intros i Hi Hne. unfold journal_slot, off_event. sb_consts. apply bytes_ext; rewrite !zlen_slice by (unfold f; lia); [done|].
    intros k Hk. rewrite !getb_slice, E by lia. unfold f2. rewrite getb_setb_ne by lia. unfold f1.
    apply getb_splice_out; unfold f; lia.
Qed.

Definition log_ok (c : log_call) : Prop := event_ok (lc_positions c) (lc_n c) (lc_len c) = true.
#[global] Instance log_ok_dec c : Decision (log_ok c) := _.

(** A call with arguments out of bounds logs nothing. *)
Lemma log_refused sp c : ~ log_ok c -> do_log sp c = sp.
Proof. intros H. apply not_true_is_false in H. unfold do_log, beamfs_log_rs_event_flagged. by rewrite H. Qed.

Lemma log_run sp calls :
  zlen (s_beamfs_sb sp) = 4096 -> zlen (s_beamfs_sb (foldl do_log sp calls)) = 4096 /\
  foldl do_log sp calls = foldl do_log sp (filter log_ok calls).
Proof.
  intros Hz. induction calls as [|c calls [IH1 IH2]] using rev_ind; [done|].
  rewrite list.filter_app, !foldl_app, <- IH2, list.filter_cons. cbn [foldl]. case_decide as Hc; [by split; [apply log_step|]|].
  by rewrite log_refused.
Qed.
End journal.

(** Two of fewer than 64 consecutive numbers differ modulo 64. *)
Lemma mod64_apart h a b : 0 <= a < b -> b - a < 64 -> (h + a) mod 64 <> (h + b) mod 64.
Proof.
  intros H1 H2 E. assert (Hd : ((h + b) - (h + a)) mod 64 = 0) by (rewrite Zminus_mod, E, Z.sub_diag; done).
  replace (h + b - (h + a)) with (b - a) in Hd by lia. rewrite Z.mod_small in Hd; lia.
Qed.

(** C31: the journal is a ring of 64 entries that keeps the most recent
    events.  After any calls, those with arguments in bounds, in order, are
    its events: the head has advanced by their number modulo 64, each of the
    last 64 is in the slot its turn gave it, with its fields and the
    checksum over them, whatever it overwrote, and a slot no turn came to is
    as it was. *)
Theorem journal_keeps_events `{RL : !RsLib} `{CL : !CrcLib} t cpu (sp : super) (calls : list log_call) :
  zlen (s_beamfs_sb sp) = BEAMFS_BLOCK_SIZE ->
  let h := journal_head (s_beamfs_sb sp) in
  let f := s_beamfs_sb (foldl (do_log t cpu) sp calls) in
  let events := filter log_ok calls in
  journal_head f = (h + zlen events) mod BEAMFS_RS_JOURNAL_SIZE /\
  (forall j c, events !! j = Some c -> zlen events - BEAMFS_RS_JOURNAL_SIZE <= Z.of_nat j ->
    journal_slot f ((h + Z.of_nat j) mod BEAMFS_RS_JOURNAL_SIZE) = event_of c) /\
  forall i, 0 <= i < BEAMFS_RS_JOURNAL_SIZE ->
    (forall j, 0 <= j < zlen events -> i <> (h + j) mod BEAMFS_RS_JOURNAL_SIZE) ->
    journal_slot f i = journal_slot (s_beamfs_sb sp) i.
Proof.
  intros Hz h f events. change BEAMFS_RS_JOURNAL_SIZE with 64 in *. change BEAMFS_BLOCK_SIZE with 4096 in Hz.
  assert (Hok : Forall log_ok events) by (apply Forall_forall; intros c Hc; apply list_elem_of_In in Hc; by apply list_elem_of_filter in Hc as [? _]).
  subst f. rewrite (proj2 (log_run t cpu sp calls Hz)). fold events. clearbody events. clear calls.
  assert (Hh : 0 <= h < 64) by (apply Z.mod_pos_bound; done).
  induction events as [|c calls IH] using rev_ind.
  - split_and!; [rewrite Z.add_0_r; symmetry; by apply Z.mod_small|done|done].
  - apply list.Forall_app in Hok as [Hok Hc]. apply list.Forall_cons in Hc as [Hc _]. destruct (IH Hok) as (Hf & Sf & Uf).
    pose proof (proj1 (log_run t cpu sp calls Hz)) as Zf. rewrite foldl_app. cbn [foldl].
    set (sp1 := foldl (do_log t cpu) sp calls) in *. destruct (log_step t cpu sp1 c Zf Hc) as (_ & S1 & H1 & O1).
    rewrite Hf in *. rewrite zlen_app. change (zlen [c]) with 1. pose proof (zlen_nonneg calls). split_and!.
    + rewrite H1, Zplus_mod_idemp_l. f_equal. lia.
    + intros j x Hx Hj. apply lookup_app_Some in Hx as [Hx|[Hl Hx]].
      * pose proof (lookup_lt_Some _ _ _ Hx) as Hlt. unfold zlen in *.
        rewrite O1; [apply Sf; [done|lia]|by apply Z.mod_pos_bound|apply mod64_apart; lia].
      * apply list_lookup_singleton_Some in Hx as [Hj0 <-]. unfold zlen in *. by replace (Z.of_nat j) with (Z.of_nat (length calls)) by lia.
    + intros i Hi Hn. rewrite O1; [apply Uf; [done|]; intros j Hj; apply Hn; lia|done|apply Hn; lia].
Qed.

(** Seventy events and a refused call: the first six are gone. *)
Lemma journal_keeps_events_witness :
  let call n := LogCall 1000 n None 0 239 0 in
  let f := s_beamfs_sb (foldl (do_log ex_tables 0) ex_super (LogCall 1000 0 None 9 239 0 :: map call (upto 70))) in
  journal_head f = 6 /\ journal_slot f 5 = event_of (call 69) /\ journal_slot f 6 = event_of (call 6).
Proof.
  intros call. set (calls := LogCall 1000 0 None 9 239 0 :: map call (upto 70)). intros f.
  assert (E : filter log_ok calls = map call (upto 70)) by (vm_compute; reflexivity).
  destruct (journal_keeps_events ex_tables 0 ex_super calls eq_refl) as (H & S & _). rewrite E in H, S. fold f in H, S.
  split; [rewrite H; vm_compute; reflexivity|]. split.
  - exact (S 69%nat (call 69) eq_refl ltac:(vm_compute; discriminate)).
  - exact (S 6%nat (call 6) eq_refl ltac:(vm_compute; discriminate)).
Defined.

(** ** The mounted flag *)

(** Header fields of an image, and the flag as the next mount reads it. *)
Definition sb_flags (fsb : list Z) : Z := get_le32 fsb off_s_flags.
Definition sb_ro_compat (fsb : list Z) : Z := get_le64 fsb off_s_feat_ro_compat.
Definition marked (fsb : list Z) : bool := negb (Z.land (sb_flags fsb) BEAMFS_SB_FLAG_MOUNTED =? 0).

Lemma land_pow2_test x n : 0 <= n -> negb (Z.land x (2 ^ n) =? 0) = Z.testbit x n.
Proof.
  intros Hn. destruct (Z.testbit x n) eqn:E.
  - apply negb_true_iff, Z.eqb_neq. intros H. apply (f_equal (fun y => Z.testbit y n)) in H.
    rewrite Z.land_spec, E, Z.pow2_bits_true, Z.bits_0 in H by done. done.
  - apply negb_false_iff, Z.eqb_eq, Z.bits_inj'. intros k Hk. rewrite Z.land_spec, Z.bits_0.
    destruct (decide (k = n)) as [->|]; [by rewrite E|]. rewrite Z.pow2_bits_false by done. apply andb_false_r.
Qed.

Lemma marked_test fsb : marked fsb = Z.testbit (sb_flags fsb) 16.
Proof. unfold marked. change BEAMFS_SB_FLAG_MOUNTED with (2 ^ 16). by apply land_pow2_test. Qed.

Lemma marked_flags a b : sb_flags a = sb_flags b -> marked a = marked b.
Proof. unfold marked. by intros ->. Qed.

Lemma flags_range fsb : bytes fsb -> 0 <= sb_flags fsb < 2 ^ 32.
Proof.
  intros Hb. unfold sb_flags, get_le32. pose proof (le_val_range (slice fsb off_s_flags 4) ltac:(auto with bytes)) as R.
  assert (zlen (slice fsb off_s_flags 4) <= 4) by (unfold slice, zlen; rewrite length_take; lia).
  pose proof (zlen_nonneg (slice fsb off_s_flags 4)).
  assert (256 ^ zlen (slice fsb off_s_flags 4) <= 256 ^ 4) by (apply Z.pow_le_mono_r; lia). lia.
Qed.

Lemma lor_u32 a b : 0 <= a < 2 ^ 32 -> 0 <= b < 2 ^ 32 -> 0 <= Z.lor a b < 2 ^ 32.
Proof.
  intros Ha Hb. split; [apply Z.lor_nonneg; lia|].
  destruct (decide (Z.lor a b = 0)) as [->|Hne]; [lia|]. apply Z.log2_lt_pow2; [|].
  - pose proof (proj2 (Z.lor_nonneg a b) ltac:(lia)). lia.
  - rewrite Z.log2_lor by lia. apply Z.max_lub_lt.
    + destruct (decide (a = 0)) as [->|]; [done|]. apply Z.log2_lt_pow2; lia.
    + destruct (decide (b = 0)) as [->|]; [done|]. apply Z.log2_lt_pow2; lia.
Qed.

Lemma ldiff_u32 a b : 0 <= a < 2 ^ 32 -> 0 <= b -> 0 <= Z.ldiff a b < 2 ^ 32.
Proof.
  intros Ha Hb. split; [apply Z.ldiff_nonneg; lia|].
  assert (Z.ldiff a b <= a); [|lia]. apply Z.ldiff_le; [lia|]. apply Z.bits_inj'. intros n Hn.
  rewrite !Z.ldiff_spec, Z.bits_0. by destruct (Z.testbit a n), (Z.testbit b n).
Qed.

(** Images that agree in the header fields. *)
Definition same_head (a b : list Z) : Prop := sb_flags a = sb_flags b /\ sb_ro_compat a = sb_ro_compat b.

Lemma covered_head a b : zlen a = 4096 -> zlen b = 4096 -> same_covered a b -> same_head a b.
Proof.
  intros Za Zb [H1 H2]. split; unfold sb_flags, sb_ro_compat, get_le32, get_le64; f_equal;
    change off_s_feat_ro_compat with 2701; sb_consts.
  - apply (f_equal (fun l => slice l 60 4)) in H1. rewrite !slice_slice in H1 by lia. exact H1.
  - apply (f_equal (fun l => slice l 2633 8)) in H2. rewrite !slice_slice in H2 by lia. exact H2.
Qed.

(** A write of [len] bytes at [off] to other fields. *)
Definition elsewhere (off len : Z) : Prop :=
  0 <= off /\ off + len <= BEAMFS_BLOCK_SIZE /\
  (off + len <= off_s_flags \/ off_s_flags + 4 <= off /\ off + len <= off_s_feat_ro_compat \/ off_s_feat_ro_compat + 8 <= off).

Lemma splice_head a off src : zlen a = 4096 -> elsewhere off (zlen src) -> same_head (splice a off src) a.
Proof.
  unfold elsewhere. change off_s_feat_ro_compat with 2701. intros Za (Ho & Hl & D). pose proof (zlen_nonneg src). sb_consts.
  split; unfold sb_flags, sb_ro_compat, get_le32, get_le64; f_equal; change off_s_feat_ro_compat with 2701; sb_consts;
    apply slice_splice_ne; lia.
Qed.

(** What happens to the superblock of a mount: an event for the journal,
    another field written (counters, clocks) and the superblock with it,
    a failure of the volume, a sync, a remount, as reconfigure_super does
    it. *)
Inductive sb_event :=
  | SbLog (c : log_call)
  | SbUpdate (off : Z) (src : list Z)
  | SbFail
  | SbSync (ok : bool)
  | SbRemount (sync_ret : Z) (mask to_ro ok : bool).

(** Writes of the superblock that the device takes, of other fields. *)
Definition event_fits (e : sb_event) : Prop :=
  match e with
  | SbUpdate off src => bytes src /\ elsewhere off (zlen src)
  | SbSync ok | SbRemount _ _ _ ok => ok = true
  | _ => True
  end.

(** The protocol: is the volume read-only, has it failed, is it marked. *)
Record flag_state := FlagState { fs_rdonly : bool; fs_failed : bool; fs_marked : bool }.

Definition flag_step (unknown : bool) (v : flag_state) (e : sb_event) : flag_state :=
  match e with
  | SbFail => FlagState (fs_rdonly v) true (fs_marked v)
  | SbRemount 0 true to_ro _ =>
    if Bool.eqb to_ro (fs_rdonly v) then v
    else if to_ro then FlagState true (fs_failed v) (fs_failed v && fs_marked v)
    else if unknown || fs_failed v then v
    else FlagState false false true
  | _ => v
  end.

Section flags.
Context `{RL : !RsLib} `{RS : !RsLibSpec} `{CL : !CrcLib} (t : rs_tables) (cpu : nat).
Context (Hctrl : ctrl_here t cpu = true).

Definition sb_step (m : mnt) (e : sb_event) : mnt :=
  match e with
  | SbLog c => with_super m (do_log t cpu (m_super m) c)
  | SbUpdate off src =>
    with_super m (beamfs_dirty_super t cpu (set_sb (m_super m) (splice (s_beamfs_sb (m_super m)) off src)))
  | SbFail => with_super m (beamfs_fail (m_super m))
  | SbSync ok => snd (sync_fs_super t cpu ok m)
  | SbRemount sync_ret mask to_ro ok =>
    let '(ret, m') := beamfs_reconfigure t cpu sync_ret mask to_ro ok m in
    if (ret =? 0) && mask then Mnt (m_super m') (m_medium m') to_ro else m'
  end.

(** The superblock in memory and its buffer. *)
Record super_ok (sp : super) : Prop := {
  so_len : zlen (s_beamfs_sb sp) = 4096;
  so_bytes : bytes (s_beamfs_sb sp);
  so_uptodate : b_uptodate (s_sbh sp) = true }.

(** The flag in memory and in the buffer is [b]; and on the medium. *)
Definition super_marked (b : bool) (sp : super) : Prop :=
  super_ok sp /\ marked (s_beamfs_sb sp) = b /\ marked (b_data (s_sbh sp)) = b.
Definition mount_marked (b : bool) (m : mnt) : Prop := super_marked b (m_super m) /\ marked (m_medium m) = b.

(** What an operation on the superblock leaves alone. *)
Definition same_rest (sp sp' : super) : Prop :=
  sb_ro_compat (s_beamfs_sb sp') = sb_ro_compat (s_beamfs_sb sp) /\ s_failed sp' = s_failed sp.

(** The rebuild carries the header to the buffer, unless the volume failed. *)
Lemma dirty_now_spec sp :
  super_ok sp ->
  let sp' := beamfs_dirty_super_now t cpu sp in
  super_ok sp' /\ same_head (s_beamfs_sb sp') (s_beamfs_sb sp) /\ s_failed sp' = s_failed sp /\
  if s_failed sp then sp' = sp else b_dirty (s_sbh sp') = true /\ sb_flags (b_data (s_sbh sp')) = sb_flags (s_beamfs_sb sp).
Proof.
  intros [Zs B U]. unfold beamfs_dirty_super_now. destruct (s_failed sp) eqn:F; [by split_and!|].
  rewrite U. cbn [negb]. set (fsb := if s_sb_rs_staging sp then _ else _).
  assert (C : forall x, same_covered (put_le32 (s_beamfs_sb sp) off_s_crc32 x) (s_beamfs_sb sp)).
  { intros x. unfold put_le32. sb_consts. apply covered_splice; rewrite ?zlen_le_bytes; lia. }
  assert (L : forall x (l : list Z), zlen l = 4096 -> zlen (put_le32 l off_s_crc32 x) = 4096).
  { intros x l Hl. unfold put_le32. sb_consts. rewrite zlen_splice; rewrite ?zlen_le_bytes; lia. }
  split_and!; cbn; [|by apply covered_head; [apply L| |]|done|done|].
  - split; cbn; [by apply L|apply bytes_splice; [done|apply bytes_le_bytes]|done].
  - destruct (sb_image_spec t cpu Hctrl (s_beamfs_sb sp) Zs B) as (Zi & _ & Ci & _). subst fsb.
    destruct (s_sb_rs_staging sp); [apply covered_head; [exact Zi|exact Zs|exact Ci]|apply covered_head; [by apply L|exact Zs|apply C]].
Qed.

Lemma dirty_now_marked b sp :
  super_ok sp -> marked (s_beamfs_sb sp) = b -> (s_failed sp = true -> marked (b_data (s_sbh sp)) = b) ->
  super_marked b (beamfs_dirty_super_now t cpu sp) /\ same_rest sp (beamfs_dirty_super_now t cpu sp).
Proof.
  intros Ok Hm Hb. destruct (dirty_now_spec sp Ok) as (O & [H1 H2] & F & D). split; [|by split].
  split; [done|]. rewrite (marked_flags _ _ H1). split; [done|].
  destruct (s_failed sp); [rewrite D; auto|]. by rewrite (marked_flags _ _ (proj2 D)).
Qed.

Lemma dirty_marked b sp :
  super_ok sp -> marked (s_beamfs_sb sp) = b -> (s_failed sp = true -> marked (b_data (s_sbh sp)) = b) ->
  super_marked b (beamfs_dirty_super t cpu sp) /\ same_rest sp (beamfs_dirty_super t cpu sp).
Proof. intros [O1 O2 O3]. apply (dirty_now_marked b (clear_needs_encode sp)). by split. Qed.

Lemma pending_marked b sp :
  super_marked b sp -> super_marked b (beamfs_super_encode_pending t cpu sp) /\ same_rest sp (beamfs_super_encode_pending t cpu sp).
Proof.
  intros (O & M & Mb). unfold beamfs_super_encode_pending. destruct (s_super_needs_encode sp); cbn [negb]; [by apply dirty_marked|by split_and!].
Qed.

Lemma pending_flags sp : super_ok sp -> sb_flags (s_beamfs_sb (beamfs_super_encode_pending t cpu sp)) = sb_flags (s_beamfs_sb sp).
Proof.
  intros [O1 O2 O3]. unfold beamfs_super_encode_pending. destruct (s_super_needs_encode sp); cbn [negb]; [|done].
  by destruct (dirty_now_spec (clear_needs_encode sp) ltac:(by split)) as (_ & [H _] & _).
Qed.

(** New flags, rebuilt into the buffer of a volume that has not failed. *)
Lemma flags_written sp x :
  super_ok sp -> s_failed sp = false -> 0 <= x < 2 ^ 32 ->
  let sp' := beamfs_dirty_super_now t cpu (set_flags sp x) in
  super_marked (Z.testbit x 16) sp' /\ same_rest sp sp' /\ b_dirty (s_sbh sp') = true /\ sb_flags (b_data (s_sbh sp')) = x.
Proof.
  intros [Zs B U] F Hx. set (sp1 := set_flags sp x).
  assert (Zx : zlen (s_beamfs_sb sp1) = 4096) by (cbn; unfold put_le32; sb_consts; rewrite zlen_splice; rewrite ?zlen_le_bytes; lia).
  assert (O : super_ok sp1) by (split; [done|apply bytes_splice; [done|apply bytes_le_bytes]|done]).
  assert (Fx : sb_flags (s_beamfs_sb sp1) = x) by (apply get_put_le32; sb_consts; lia).
  assert (Rx : sb_ro_compat (s_beamfs_sb sp1) = sb_ro_compat (s_beamfs_sb sp)).
  { unfold sb_ro_compat, get_le64. f_equal. apply slice_splice_ne; rewrite ?zlen_le_bytes; change off_s_feat_ro_compat with 2701; sb_consts; lia. }
  destruct (dirty_now_marked (Z.testbit x 16) sp1 O) as [M [R1 R2]]; [by rewrite marked_test, Fx|cbn; congruence|].
  destruct (dirty_now_spec sp1 O) as (_ & _ & _ & D). cbn [sp1 set_flags set_sb s_failed] in D, R2. rewrite F in D. rewrite Fx in D. rewrite Rx in R1.
  split; [done|]. split; [by split|done].
Qed.

Lemma sync_marked b m :
  super_marked b (m_super m) -> (b_dirty (s_sbh (m_super m)) = false -> marked (m_medium m) = b) ->
  let m' := snd (sync_sbh true m) in
  mount_marked b m' /\ same_rest (m_super m) (m_super m') /\ m_rdonly m' = m_rdonly m /\
  (b_dirty (s_sbh (m_super m)) = true -> m_medium m' = b_data (s_sbh (m_super m))).
Proof.
  intros ([O1 O2 O3] & M & Mb) Hd. unfold sync_sbh. destruct (b_dirty (s_sbh (m_super m))) eqn:D; cbn [negb snd]; [by split_and!|].
  split; [by split; [split_and!|apply Hd]|]. split; [by split|]. by split.
Qed.

Lemma log_marked b sp c :
  super_marked b sp -> super_marked b (do_log t cpu sp c) /\ same_rest sp (do_log t cpu sp c).
Proof.
  intros (O & M & Mb). pose proof O as [Zs B U]. unfold do_log, beamfs_log_rs_event_flagged. destruct (negb _); [by split_and!|].
  fold (event_of c). fold (journal_head (s_beamfs_sb sp)). set (h := journal_head _). set (ev := event_of c).
  assert (Hh : 0 <= h < 64) by (apply Z.mod_pos_bound; done). pose proof (zlen_event c : zlen ev = 40) as Le.
  assert (Be : bytes ev) by (unfold ev, event_of, rs_event_bytes; rewrite !bytes_app; split_and!; apply bytes_le_bytes).
  set (f1 := splice (s_beamfs_sb sp) (off_event h) ev).
  assert (H1 : same_head f1 (s_beamfs_sb sp)) by (apply splice_head; [done|]; unfold elsewhere, off_event; change off_s_feat_ro_compat with 2701; sb_consts; lia).
  assert (Z1 : zlen f1 = 4096) by (unfold f1, off_event; sb_consts; rewrite zlen_splice; lia).
  assert (B1 : bytes f1) by (by apply bytes_splice).
  set (f2 := setb f1 off_s_rs_journal_head _).
  assert (B2 : bytes f2) by (apply bytes_setb; [done|]; pose proof (Z.mod_pos_bound (h + 1) BEAMFS_RS_JOURNAL_SIZE ltac:(done)); sb_consts; unfold is_byte; lia).
  assert (Z2 : zlen f2 = 4096) by (unfold f2; by rewrite zlen_setb).
  assert (H2 : same_head f2 f1).
  { assert (G : forall off n, 0 <= off -> 0 <= n -> off + n <= 4096 -> off + n <= 2676 \/ 2676 < off -> slice f2 off n = slice f1 off n).
    { intros off n A1 A2 A3 A4. apply bytes_ext; rewrite !zlen_slice by lia; [done|]. intros k Hk. rewrite !getb_slice by lia.
      unfold f2. apply getb_setb_ne; sb_consts; lia. }
    split; unfold sb_flags, sb_ro_compat, get_le32, get_le64; f_equal; apply G; change off_s_feat_ro_compat with 2701; sb_consts; lia. }
  set (f3 := if _ =? 0 then _ else _).
  assert (H3 : zlen f3 = 4096 /\ bytes f3 /\ marked f3 = marked f2 /\ sb_ro_compat f3 = sb_ro_compat f2).
  { unfold f3. destruct (_ =? 0); [by split_and!|]. pose proof (flags_range f2 B2) as Rf. fold (sb_flags f2). split_and!.
    - unfold put_le32. sb_consts. rewrite zlen_splice; rewrite ?zlen_le_bytes; lia.
    - apply bytes_splice; [done|apply bytes_le_bytes].
    - rewrite !marked_test. unfold sb_flags at 1. rewrite get_put_le32; [by rewrite Z.lor_spec, orb_false_r|done|sb_consts; lia|by apply lor_u32].
    - unfold sb_ro_compat, get_le64. f_equal. apply slice_splice_ne; rewrite ?zlen_le_bytes; change off_s_feat_ro_compat with 2701; sb_consts; lia. }
  destruct H3 as (Z3 & B3 & M3 & R3). destruct H1 as [F1 R1], H2 as [F2 R2].
  assert (Hm : marked f3 = b) by (rewrite M3, (marked_flags _ _ F2), (marked_flags _ _ F1); done).
  destruct (dirty_marked b (set_sb sp f3)) as [X [Y1 Y2]]; [by split|done|done|]. split; [exact X|]. split; [|exact Y2].
  rewrite Y1. cbn. by rewrite R3, R2.
Qed.

(** One event is one step of the protocol. *)
Definition refines (ro : Z) (v : flag_state) (m : mnt) : Prop :=
  mount_marked (fs_marked v) m /\ m_rdonly m = fs_rdonly v /\ s_failed (m_super m) = fs_failed v /\
  sb_ro_compat (s_beamfs_sb (m_super m)) = ro /\ (fs_rdonly v = false -> fs_marked v = true).

Definition ro_unknown (ro : Z) : bool := negb (Z.ldiff ro BEAMFS_FEAT_RO_COMPAT_SUPP =? 0).

Lemma remount_refines ro v m sync_ret mask to_ro :
  refines ro v m -> refines ro (flag_step (ro_unknown ro) v (SbRemount sync_ret mask to_ro true)) (sb_step m (SbRemount sync_ret mask to_ro true)).
Proof.
  intros H. pose proof H as (Mm & Rd & Fl & Ro & Inv). cbn [sb_step]. unfold beamfs_reconfigure. fold (sb_ro_compat (s_beamfs_sb (m_super m))).
  fold (sb_flags (s_beamfs_sb (m_super m))). rewrite Ro. fold (ro_unknown ro). rewrite Rd, Fl.
  assert (Same : m = Mnt (m_super m) (m_medium m) (fs_rdonly v)) by (rewrite <- Rd; by destruct m).
  destruct (Z.eqb_spec sync_ret 0) as [->|Ns]; cbn [negb].
  2:{ replace (sync_ret =? 0) with false by lia. cbn [andb]. by destruct sync_ret. }
  cbn [flag_step]. destruct mask; cbn [negb orb andb]; [|exact H].
  destruct (Bool.eqb to_ro (fs_rdonly v)) eqn:Eq.
  { apply Bool.eqb_prop in Eq as ->. cbn. rewrite <- Same. exact H. }
  assert (Hw : forall x, 0 <= x < 2 ^ 32 -> fs_failed v = false ->
    let m' := snd (sync_sbh true (with_super m (beamfs_dirty_super t cpu (set_flags (m_super m) x)))) in
    mount_marked (Z.testbit x 16) m' /\ s_failed (m_super m') = false /\ sb_ro_compat (s_beamfs_sb (m_super m')) = ro).
  { intros x Hx Hf. destruct Mm as [[[O1 O2 O3] _] _].
    destruct (flags_written (clear_needs_encode (m_super m)) x) as (W1 & [W2 W2'] & W3 & _); [by split|cbn; congruence|done|].
    destruct (sync_marked (Z.testbit x 16) (with_super m (beamfs_dirty_super t cpu (set_flags (m_super m) x))) W1) as (Y1 & [Y2 Y3] & _).
    { cbn [m_super with_super]. change (beamfs_dirty_super t cpu (set_flags (m_super m) x)) with
        (beamfs_dirty_super_now t cpu (set_flags (clear_needs_encode (m_super m)) x)). by rewrite W3. }
    split; [exact Y1|]. split; [rewrite Y3; exact (eq_trans W2' (eq_trans Fl Hf))|rewrite Y2; exact (eq_trans W2 Ro)]. }
  pose proof (flags_range (s_beamfs_sb (m_super m)) (so_bytes _ (proj1 (proj1 Mm)))) as Rf.
  destruct to_ro; cbn [negb andb].
  - destruct (fs_failed v) eqn:Ff; cbn [Z.eqb andb].
    { split_and!; cbn; try done. }
    destruct (Hw (Z.ldiff (sb_flags (s_beamfs_sb (m_super m))) BEAMFS_SB_FLAG_MOUNTED)) as (Y1 & Y2 & Y3); [by apply ldiff_u32|done|].
    rewrite Z.ldiff_spec in Y1. change (Z.testbit BEAMFS_SB_FLAG_MOUNTED 16) with true in Y1. rewrite andb_false_r in Y1.
    destruct (sync_sbh _ _) as [? m']. by split_and!.
  - destruct (ro_unknown ro); cbn [orb]; [exact H|]. destruct (fs_failed v) eqn:Ff; [exact H|]. cbn [Z.eqb andb].
    destruct (Hw (Z.lor (sb_flags (s_beamfs_sb (m_super m))) BEAMFS_SB_FLAG_MOUNTED)) as (Y1 & Y2 & Y3); [by apply lor_u32|done|].
    rewrite Z.lor_spec in Y1. change (Z.testbit BEAMFS_SB_FLAG_MOUNTED 16) with true in Y1. rewrite orb_true_r in Y1.
    destruct (sync_sbh _ _) as [? m']. by split_and!.
Qed.

Lemma step_refines ro v m e :
  refines ro v m -> event_fits e -> refines ro (flag_step (ro_unknown ro) v e) (sb_step m e).
Proof.
  intros H He. destruct e as [c|off src| |ok|sync_ret mask to_ro ok]; [| | | |cbn in He; subst ok; by apply remount_refines];
    destruct H as ([Sm Md] & Rd & Fl & Ro & Inv); cbn [flag_step sb_step].
  - destruct (log_marked _ _ c Sm) as [X [Y1 Y2]]. split_and!; [by split|done|cbn; congruence|cbn; congruence|done].
  - destruct He as [Bs He]. destruct Sm as ([O1 O2 O3] & M & Mb).
    destruct (splice_head (s_beamfs_sb (m_super m)) off src O1 He) as [F R].
    destruct (dirty_marked (fs_marked v) (set_sb (m_super m) (splice (s_beamfs_sb (m_super m)) off src))) as [X [Y1 Y2]].
    + destruct He as (? & ? & _). sb_consts. split; [cbn; rewrite zlen_splice; lia|by apply bytes_splice|done].
    + cbn. by rewrite (marked_flags _ _ F).
    + done.
    + split_and!; [by split|done|cbn; rewrite Y2; done|cbn; rewrite Y1; cbn; congruence|done].
  - split_and!; try done. destruct Sm as ([? ? ?] & ? & ?). by split_and!.
  - cbn in He. subst ok. unfold sync_fs_super. destruct (pending_marked _ _ Sm) as [X [Y1 Y2]].
    destruct (sync_marked (fs_marked v) (with_super m (beamfs_super_encode_pending t cpu (m_super m))) X) as (Z1 & [Z2 Z3] & Z4 & _); [done|].
    split_and!; [done|by rewrite Z4|rewrite Z3; cbn; congruence|rewrite Z2; cbn; congruence|done].
Qed.

Lemma run_refines ro es : forall v m, refines ro v m -> Forall event_fits es ->
  refines ro (foldl (flag_step (ro_unknown ro)) v es) (foldl sb_step m es).
Proof.
  induction es as [|e es IH]; intros v m H He; [done|]. apply list.Forall_cons in He as [H1 H2]. cbn [foldl].
  apply IH; [by apply step_refines|done].
Qed.
End flags.

(** Without the mounted flag, unclean is the error flag. *)
Lemma unclean_errors fl :
  Z.land (Z.ldiff fl BEAMFS_SB_FLAG_MOUNTED) (Z.lor BEAMFS_SB_FLAG_MOUNTED BEAMFS_SB_FLAG_ERRORS) = Z.land fl BEAMFS_SB_FLAG_ERRORS.
Proof.
  apply Z.bits_inj'. intros n Hn. rewrite !Z.land_spec, Z.ldiff_spec, Z.lor_spec.
  change BEAMFS_SB_FLAG_MOUNTED with (2 ^ 16). change BEAMFS_SB_FLAG_ERRORS with (2 ^ 17).
  destruct (decide (n = 16)) as [->|H16].
  - rewrite (Z.pow2_bits_true 16), (Z.pow2_bits_false 17) by done. by destruct (Z.testbit fl 16).
  - rewrite (Z.pow2_bits_false 16) by done. by rewrite andb_true_r.
Qed.

(** A volume as a mount finds it: the superblock read from the medium. *)
Definition read_mount (disk : list Z) (rdonly : bool) : mnt := Mnt (Super disk (Buffer disk true false) true false false) disk rdonly.

(** C32: the mounted flag on the medium tells a crash from a clean unmount.
    From a mount on, through any calls of the journal, updates, failures of
    the volume, syncs and remounts, as long as the device takes the writes
    of the superblock, the flag on the medium is what the protocol says: set
    by a writable mount and by the way back to writable, taken off by the
    way to read-only unless the volume failed, and left alone otherwise.  So
    a crash of a writable mount leaves it set.  Put_super takes it off a
    writable volume that has not failed, whose next mount is then called
    unclean exactly when the error flag stands, and leaves it on one that
    has. *)
Theorem mount_flag_protocol `{RL : !RsLib} `{RS : !RsLibSpec} `{CL : !CrcLib} t cpu disk rdonly es :
  ctrl_here t cpu = true -> zlen disk = BEAMFS_BLOCK_SIZE -> bytes disk -> Forall event_fits es ->
  let m := foldl (sb_step t cpu) (snd (fill_super_flags t cpu true (read_mount disk rdonly))) es in
  let v := foldl (flag_step (ro_unknown (sb_ro_compat disk))) (FlagState rdonly false (negb rdonly || marked disk)) es in
  let disk' := m_medium (put_super_flags t cpu true m) in
  m_rdonly m = fs_rdonly v /\ s_failed (m_super m) = fs_failed v /\ marked (m_medium m) = fs_marked v /\
  (m_rdonly m = false -> marked (m_medium m) = true) /\
  marked disk' = fs_marked v && (fs_rdonly v || fs_failed v) /\
  (fs_rdonly v = false -> fs_failed v = false -> forall rdonly',
    fst (fill_super_flags t cpu true (read_mount disk' rdonly')) =
      negb (Z.land (sb_flags (s_beamfs_sb (m_super m))) BEAMFS_SB_FLAG_ERRORS =? 0)).
Proof.
  intros Hc Zd Bd He m v disk'. sb_consts.
  assert (Ok : super_ok (Super disk (Buffer disk true false) true false false)) by (by split).
  assert (R0 : refines (sb_ro_compat disk) (FlagState rdonly false (negb rdonly || marked disk))
    (snd (fill_super_flags t cpu true (read_mount disk rdonly)))).
  { unfold fill_super_flags. cbn [read_mount m_rdonly m_super s_beamfs_sb]. fold (sb_flags disk). destruct rdonly; [by split_and!|].
    destruct (flags_written t cpu Hc _ (Z.lor (sb_flags disk) BEAMFS_SB_FLAG_MOUNTED) Ok eq_refl) as (W1 & [W2 W2'] & W3 & _);
      [by apply lor_u32; [apply flags_range|]|].
    rewrite Z.lor_spec in W1. change (Z.testbit BEAMFS_SB_FLAG_MOUNTED 16) with true in W1. rewrite orb_true_r in W1. cbn [snd].
    match goal with |- context [sync_sbh true ?x] => destruct (sync_marked true x W1) as (Y1 & [Y2 Y3] & Y4 & _); [cbn [m_super with_super]; by rewrite W3|] end.
    split_and!; [exact Y1|exact Y4|rewrite Y3; exact W2'|rewrite Y2; exact W2|done]. }
  pose proof (run_refines t cpu Hc (sb_ro_compat disk) es _ _ R0 He) as R. fold m v in R. clearbody m v. clear R0 Ok es He.
  destruct R as ([Sm Md] & Rd & Fl & _ & Inv). pose proof (pending_marked t cpu Hc _ _ Sm) as [[O [M Mb]] [P1 P2]].
  unfold disk', put_super_flags. rewrite Rd. set (sp := beamfs_super_encode_pending t cpu (m_super m)) in *.
  split; [done|]. split; [done|]. split; [done|]. split; [intros E; rewrite Md; auto|]. rewrite P2, Fl.
  destruct (fs_rdonly v) eqn:Er; cbn [negb andb orb].
  { destruct (sync_marked (fs_marked v) (with_super m sp)) as ([_ Y] & _); [by split_and!|done|]. rewrite andb_true_r. by split. }
  destruct (fs_failed v) eqn:Ff; cbn [negb].
  { destruct (sync_marked (fs_marked v) (with_super m sp)) as ([_ Y] & _); [by split_and!|done|]. rewrite andb_true_r. by split. }
  pose proof (flags_range _ (so_bytes _ O)) as Rf. fold (sb_flags (s_beamfs_sb sp)).
  destruct (flags_written t cpu Hc sp (Z.ldiff (sb_flags (s_beamfs_sb sp)) BEAMFS_SB_FLAG_MOUNTED) O) as (W1 & _ & W3 & W4);
    [congruence|by apply ldiff_u32|].
  rewrite Z.ldiff_spec in W1. change (Z.testbit BEAMFS_SB_FLAG_MOUNTED 16) with true in W1. rewrite andb_false_r in W1.
  match goal with |- context [sync_sbh true ?x] => destruct (sync_marked false x W1) as ([_ Y] & _ & _ & Y4); [cbn [m_super with_super]; by rewrite W3|] end.
  rewrite andb_false_r. split; [exact Y|]. intros _ _ rdonly'. rewrite (Y4 W3). cbn [m_super with_super].
  unfold fill_super_flags. cbn [read_mount m_rdonly m_super s_beamfs_sb].
  fold (sb_flags (b_data (s_sbh (beamfs_dirty_super_now t cpu (set_flags sp (Z.ldiff (sb_flags (s_beamfs_sb sp)) BEAMFS_SB_FLAG_MOUNTED)))))).
  rewrite W4, unclean_errors. cbn [fst]. pose proof (pending_flags t cpu Hc _ (proj1 Sm)) as Ep. fold sp in Ep. rewrite Ep. by destruct rdonly'.
Qed.

(** A writable mount of a volume that was left marked, an uncorrectable
    event, read-only and back, an update; then put down. *)
Definition ex_sb_events : list sb_event :=
  [SbLog (LogCall 1000 77 None 0 239 0); SbRemount 0 true true true; SbRemount 0 true false true; SbUpdate 32 (le_bytes 8 5); SbSync true].

Lemma mount_flag_protocol_witness :
  let m := foldl (sb_step ex_tables 0) (snd (fill_super_flags ex_tables 0 true (read_mount ex_disk false))) ex_sb_events in
  let disk' := m_medium (put_super_flags ex_tables 0 true m) in
  marked (m_medium m) = true /\ marked disk' = false /\
  fst (fill_super_flags ex_tables 0 true (read_mount disk' false)) = negb (Z.land (sb_flags (s_beamfs_sb (m_super m))) BEAMFS_SB_FLAG_ERRORS =? 0) /\
  marked (m_medium (put_super_flags ex_tables 0 true (sb_step ex_tables 0 m SbFail))) = true.
Proof.
  assert (Bd : bytes ex_disk) by (apply bytes_check; vm_compute; reflexivity).
  assert (Fe : forall l, Forall event_fits (ex_sb_events ++ match l with true => [SbFail] | false => [] end)).
  { intros l. apply list.Forall_app. split; [|by destruct l; repeat constructor].
    assert (U : event_fits (SbUpdate 32 (le_bytes 8 5))).
    { split; [apply bytes_le_bytes|]. unfold elsewhere. rewrite zlen_le_bytes. change off_s_feat_ro_compat with 2701. sb_consts. lia. }
    repeat (apply list.Forall_cons; split; [exact U || exact I || exact eq_refl|]). apply list.Forall_nil_2. }
  destruct (mount_flag_protocol ex_tables 0 ex_disk false (ex_sb_events ++ []) eq_refl eq_refl Bd (Fe false)) as (H1 & H2 & H3 & _ & H5 & H6).
  destruct (mount_flag_protocol ex_tables 0 ex_disk false (ex_sb_events ++ [SbFail]) eq_refl eq_refl Bd (Fe true)) as (_ & _ & _ & _ & H7 & _).
  intros m disk'. rewrite foldl_app in H7. cbn [foldl] in H7. fold m in H7. rewrite app_nil_r in H1, H2, H3, H5, H6. fold m in H1, H2, H3, H5, H6. fold disk' in H5, H6.
  split; [rewrite H3; vm_compute; reflexivity|]. split; [rewrite H5; vm_compute; reflexivity|].
  split; [apply H6; vm_compute; reflexivity|]. rewrite H7. vm_compute. reflexivity.
Defined.
