(* ===== verification/Alloc.v ===== *)
(** * Block and inode allocation (alloc.c)

    The in-memory bitmaps (1 = free), the image of the block bitmap that is
    kept up to date in the buffers of its on-disk blocks, the reservation
    windows, and the free counts mirrored in the superblock.  A function
    that takes s_lock is one step of the model. *)

From stdpp Require Import gmap.
From S2P Require Import Prelude Format Crc RsInit RsLib Edac Dirent Super.

(** ** Bit arrays *)

Definition test_bit (l : list Z) (i : Z) : bool := Z.testbit (getb l (i / 8)) (i mod 8).
Definition set_bit (l : list Z) (i : Z) : list Z :=
  setb l (i / 8) (Z.lor (getb l (i / 8)) (Z.shiftl 1 (i mod 8))).
Definition clear_bit (l : list Z) (i : Z) : list Z :=
  setb l (i / 8) (Z.ldiff (getb l (i / 8)) (Z.shiftl 1 (i mod 8))).

(** The first set bit in [start, size), or [size]. *)
Fixpoint scan_bits (fuel : nat) (l : list Z) (size i : Z) : Z :=
  match fuel with
  | O => size
  | S fuel => if test_bit l i then i else scan_bits fuel l size (i + 1)
  end.

Definition find_next_bit (l : list Z) (size start : Z) : Z :=
  scan_bits (Z.to_nat (size - start)) l size start.

(** BITS_TO_LONGS(n) longs, as bytes. *)
Definition bitmap_bytes (n : Z) : Z := 8 * ((n + 63) / 64).

(** ** State *)

Record iinfo := IInfo {
  i_rsv_start : Z;
  i_rsv_end : Z;
  i_rsv_next : Z;
  i_rsv_size : Z;
  i_last_alloc : Z;
  i_blocks_counted : bool;
  i_bytes : Z;
  i_freeing : bool;
  i_dirty : bool }.

Record sbi := Sbi {
  s_nblocks : Z;
  s_data_start : Z;
  s_block_bitmap : option (list Z);
  s_bitmap_blocks_count : Z;
  s_bitmap_blkhs : option (list (option buffer));
  s_bitmap_needs_encode : option (list bool);
  s_alloc_goal : Z;
  s_free_blocks : Z;
  s_inode_bitmap : option (list Z);
  s_ninodes : Z;
  s_free_inodes : Z;
  s_rsv_windows : list Z;             (** inodes that hold a window *)
  s_inodes : gmap Z iinfo;
  s_super : super;
  s_tc_forgotten : list Z }.          (** blocks the tree checker was told to forget *)

Definition BEAMFS_RSV_MIN : Z := 16.
Definition BEAMFS_RSV_MAX : Z := 512.

Definition beamfs_rsv_init : iinfo := IInfo 0 0 0 BEAMFS_RSV_MIN 0 false 0 false false.

Definition ii (s : sbi) (ino : Z) : iinfo := default beamfs_rsv_init (s_inodes s !! ino).

(** Field updates. *)
Definition with_bits (s : sbi) (b : list Z) : sbi :=
  Sbi (s_nblocks s) (s_data_start s) (Some b) (s_bitmap_blocks_count s) (s_bitmap_blkhs s)
    (s_bitmap_needs_encode s) (s_alloc_goal s) (s_free_blocks s) (s_inode_bitmap s) (s_ninodes s)
    (s_free_inodes s) (s_rsv_windows s) (s_inodes s) (s_super s) (s_tc_forgotten s).
Definition with_buffers (s : sbi) (bhs : option (list (option buffer))) (ne : option (list bool)) : sbi :=
  Sbi (s_nblocks s) (s_data_start s) (s_block_bitmap s) (s_bitmap_blocks_count s) bhs ne
    (s_alloc_goal s) (s_free_blocks s) (s_inode_bitmap s) (s_ninodes s)
    (s_free_inodes s) (s_rsv_windows s) (s_inodes s) (s_super s) (s_tc_forgotten s).
Definition with_goal (s : sbi) (g : Z) : sbi :=
  Sbi (s_nblocks s) (s_data_start s) (s_block_bitmap s) (s_bitmap_blocks_count s) (s_bitmap_blkhs s)
    (s_bitmap_needs_encode s) g (s_free_blocks s) (s_inode_bitmap s) (s_ninodes s)
    (s_free_inodes s) (s_rsv_windows s) (s_inodes s) (s_super s) (s_tc_forgotten s).
Definition with_free_blocks (s : sbi) (n : Z) : sbi :=
  Sbi (s_nblocks s) (s_data_start s) (s_block_bitmap s) (s_bitmap_blocks_count s) (s_bitmap_blkhs s)
    (s_bitmap_needs_encode s) (s_alloc_goal s) n (s_inode_bitmap s) (s_ninodes s)
    (s_free_inodes s) (s_rsv_windows s) (s_inodes s) (s_super s) (s_tc_forgotten s).
Definition with_ibits (s : sbi) (b : option (list Z)) : sbi :=
  Sbi (s_nblocks s) (s_data_start s) (s_block_bitmap s) (s_bitmap_blocks_count s) (s_bitmap_blkhs s)
    (s_bitmap_needs_encode s) (s_alloc_goal s) (s_free_blocks s) b (s_ninodes s)
    (s_free_inodes s) (s_rsv_windows s) (s_inodes s) (s_super s) (s_tc_forgotten s).
Definition with_free_inodes (s : sbi) (n : Z) : sbi :=
  Sbi (s_nblocks s) (s_data_start s) (s_block_bitmap s) (s_bitmap_blocks_count s) (s_bitmap_blkhs s)
    (s_bitmap_needs_encode s) (s_alloc_goal s) (s_free_blocks s) (s_inode_bitmap s) (s_ninodes s)
    n (s_rsv_windows s) (s_inodes s) (s_super s) (s_tc_forgotten s).
Definition with_windows (s : sbi) (w : list Z) (m : gmap Z iinfo) : sbi :=
  Sbi (s_nblocks s) (s_data_start s) (s_block_bitmap s) (s_bitmap_blocks_count s) (s_bitmap_blkhs s)
    (s_bitmap_needs_encode s) (s_alloc_goal s) (s_free_blocks s) (s_inode_bitmap s) (s_ninodes s)
    (s_free_inodes s) w m (s_super s) (s_tc_forgotten s).
Definition with_super (s : sbi) (sp : super) : sbi :=
  Sbi (s_nblocks s) (s_data_start s) (s_block_bitmap s) (s_bitmap_blocks_count s) (s_bitmap_blkhs s)
    (s_bitmap_needs_encode s) (s_alloc_goal s) (s_free_blocks s) (s_inode_bitmap s) (s_ninodes s)
    (s_free_inodes s) (s_rsv_windows s) (s_inodes s) sp (s_tc_forgotten s).
Definition with_forgotten (s : sbi) (l : list Z) : sbi :=
  Sbi (s_nblocks s) (s_data_start s) (s_block_bitmap s) (s_bitmap_blocks_count s) (s_bitmap_blkhs s)
    (s_bitmap_needs_encode s) (s_alloc_goal s) (s_free_blocks s) (s_inode_bitmap s) (s_ninodes s)
    (s_free_inodes s) (s_rsv_windows s) (s_inodes s) (s_super s) l.

Definition set_ii (s : sbi) (ino : Z) (i : iinfo) : sbi :=
  with_windows s (s_rsv_windows s) (<[ino := i]> (s_inodes s)).

Definition beamfs_failed (s : sbi) : bool := s_failed (s_super s).

(** ** Reservation windows *)

Definition no_window (i : iinfo) : iinfo :=
  IInfo 0 0 0 (i_rsv_size i) (i_last_alloc i) (i_blocks_counted i) (i_bytes i) (i_freeing i) (i_dirty i).

Definition beamfs_rsv_drop_locked (s : sbi) (ino : Z) : sbi :=
  with_windows s (filter (fun o => o <> ino) (s_rsv_windows s)) (<[ino := no_window (ii s ino)]> (s_inodes s)).

Definition beamfs_rsv_discard (s : sbi) (ino : Z) : sbi := beamfs_rsv_drop_locked s ino.

(** [me] is [None] for a caller with no inode. *)
Definition beamfs_rsv_covering (s : sbi) (me : option Z) (bit : Z) : Z :=
  match find (fun o => negb (bool_decide (Some o = me)) &&
                       (i_rsv_start (ii s o) <=? bit) && (bit <? i_rsv_end (ii s o))) (s_rsv_windows s) with
  | Some o => i_rsv_end (ii s o)
  | None => 0
  end.

Definition beamfs_rsv_next_start (s : sbi) (me : option Z) (bit : Z) : Z :=
  foldl (fun lim o =>
    if bool_decide (Some o = me) then lim
    else let st := i_rsv_start (ii s o) in
         if (bit <=? st) && (st <? lim) then st else lim)
    (s_nblocks s) (s_rsv_windows s).

(** The search loop: every turn leaves, advances [bit], or wraps once. *)
Fixpoint rsv_find_loop (fuel : nat) (s : sbi) (bits : list Z) (me : option Z) (respect : bool)
    (bit : Z) (wrapped : bool) : Z :=
  let n := s_nblocks s in
  match fuel with
  | O => n
  | S fuel =>
    let bit := find_next_bit bits n bit in
    if n <=? bit then
      if wrapped then n else rsv_find_loop fuel s bits me respect 0 true
    else
      let last := if respect then beamfs_rsv_covering s me bit else 0 in
      if last =? 0 then bit
      else if n <=? last then
        if wrapped then n else rsv_find_loop fuel s bits me respect 0 true
      else rsv_find_loop fuel s bits me respect last wrapped
  end.

Definition rsv_fuel (n : Z) : nat := Z.to_nat (2 * n + 3).

Definition beamfs_rsv_find (s : sbi) (bits : list Z) (me : option Z) (goal : Z) (respect : bool) : Z :=
  let n := s_nblocks s in
  let bit := if goal <? n then goal else 0 in
  rsv_find_loop (rsv_fuel n) s bits me respect bit (bit =? 0).

(** Returns the bit, [s_nblocks] when none is free. *)
Definition beamfs_rsv_alloc_locked (s : sbi) (bits : list Z) (ino : Z) : Z * sbi :=
  let n := s_nblocks s in
  let fi := ii s ino in
  let bit :=
    if i_rsv_next fi <? i_rsv_end fi then
      let b := find_next_bit bits (i_rsv_end fi) (i_rsv_next fi) in
      if i_rsv_end fi <=? b then n else b
    else n in
  if bit <? n then
    (bit, set_ii s ino (IInfo (i_rsv_start fi) (i_rsv_end fi) (bit + 1) (i_rsv_size fi) bit
            (i_blocks_counted fi) (i_bytes fi) (i_freeing fi) (i_dirty fi)))
  else
    let exhausted := negb (i_rsv_end fi =? 0) && (i_rsv_end fi <=? i_rsv_next fi) in
    let s := beamfs_rsv_drop_locked s ino in
    let fi := ii s ino in
    let goal := if i_last_alloc fi =? 0 then s_alloc_goal s else i_last_alloc fi + 1 in
    let bit := beamfs_rsv_find s bits (Some ino) goal true in
    let bit := if n <=? bit then beamfs_rsv_find s bits (Some ino) goal false else bit in
    if n <=? bit then (n, s)
    else
      let size := if exhausted && (i_rsv_size fi <? BEAMFS_RSV_MAX) then i_rsv_size fi * 2
                  else i_rsv_size fi in
      let last := Z.min (Z.min (bit + size) (beamfs_rsv_next_start s (Some ino) (bit + 1))) n in
      let fi := IInfo bit last (bit + 1) size bit
                  (i_blocks_counted fi) (i_bytes fi) (i_freeing fi) (i_dirty fi) in
      (bit, with_windows s (ino :: s_rsv_windows s) (<[ino := fi]> (s_inodes s))).

(** ** The on-disk image of the block bitmap *)

Section image.
Context `{RL : !RsLib} `{CL : !CrcLib} (t : rs_tables) (cpu : nat).

(** One codeword of bitmap block [k]. *)
Definition encode_sub (bits : list Z) (first last : Z) (bdata : list Z) (i : Z) : list Z :=
  let off := i * BEAMFS_SUBBLOCK_TOTAL in
  let bit0 := first + i * BEAMFS_SUBBLOCK_DATA * 8 in
  if last <=? bit0 then splice bdata off (zeros BEAMFS_SUBBLOCK_DATA)
  else
    let nbytes := Z.min BEAMFS_SUBBLOCK_DATA ((last - bit0 + 7) / 8) in
    let bdata := splice bdata off (slice bits (bit0 / 8) nbytes) in
    let bdata := if nbytes <? BEAMFS_SUBBLOCK_DATA
                 then splice bdata (off + nbytes) (zeros (BEAMFS_SUBBLOCK_DATA - nbytes)) else bdata in
    snd (beamfs_rs_encode_region t cpu bdata off BEAMFS_SUBBLOCK_TOTAL (off + BEAMFS_SUBBLOCK_DATA)
           BEAMFS_SUBBLOCK_TOTAL BEAMFS_SUBBLOCK_DATA 1).

Definition beamfs_bitmap_encode_sub_locked (nblocks : Z) (bits : list Z) (k sub : Z) (bdata : list Z)
    : list Z :=
  let first := k * BEAMFS_BITS_PER_BITMAP_BLOCK in
  let last := Z.min (first + BEAMFS_BITS_PER_BITMAP_BLOCK) nblocks in
  if BEAMFS_BITMAP_SUBBLOCKS <=? sub then
    foldl (encode_sub bits first last) (zeros BEAMFS_BLOCK_SIZE) (upto BEAMFS_BITMAP_SUBBLOCKS)
  else encode_sub bits first last bdata sub.

Definition beamfs_bitmap_encode_one_locked (nblocks : Z) (bits : list Z) (k : Z) (bdata : list Z) : list Z :=
  beamfs_bitmap_encode_sub_locked nblocks bits k BEAMFS_BITMAP_SUBBLOCKS bdata.

Definition beamfs_bitmap_encode_pending (s : sbi) : sbi :=
  match s_bitmap_blkhs s, s_bitmap_needs_encode s, s_block_bitmap s with
  | Some bhs, Some ne, Some bits =>
    let '(bhs, ne) :=
      foldl (fun '(bhs, ne) k =>
        let j := Z.to_nat k in
        if nth j ne false then
          let ne := <[j := false]> ne in
          match nth j bhs None with
          | None => (bhs, ne)
          | Some bh =>
            (<[j := Some (Buffer (beamfs_bitmap_encode_one_locked (s_nblocks s) bits k (b_data bh))
                            (b_uptodate bh) (b_dirty bh))]> bhs, ne)
          end
        else (bhs, ne)) (bhs, ne) (upto (s_bitmap_blocks_count s)) in
    with_buffers s (Some bhs) (Some ne)
  | _, _, _ => s
  end.

(** mark_inode_dirty(owner), unless the owner is being freed. *)
Definition dirty_owner (s : sbi) (owner : option Z) : sbi :=
  match owner with
  | None => s
  | Some ino =>
    let fi := ii s ino in
    if i_freeing fi then s
    else set_ii s ino (IInfo (i_rsv_start fi) (i_rsv_end fi) (i_rsv_next fi) (i_rsv_size fi)
           (i_last_alloc fi) (i_blocks_counted fi) (i_bytes fi) (i_freeing fi) true)
  end.

Definition beamfs_write_bitmap_block (s : sbi) (bit_global : Z) (owner : option Z) : Z * sbi :=
  if beamfs_failed s then (- EIO, s)
  else
    match s_bitmap_blkhs s, s_block_bitmap s with
    | Some bhs, Some bits =>
      if s_nblocks s <=? bit_global then (- EINVAL, s)
      else
        let k := bit_global / BEAMFS_BITS_PER_BITMAP_BLOCK in
        if s_bitmap_blocks_count s <=? k then (- EINVAL, s)
        else
          match nth (Z.to_nat k) bhs None with
          | None => (- EINVAL, s)
          | Some bh =>
            if negb (b_uptodate bh) then (- EIO, with_super s (beamfs_fail (s_super s)))
            else
              let sub := (bit_global mod BEAMFS_BITS_PER_BITMAP_BLOCK) / (BEAMFS_SUBBLOCK_DATA * 8) in
              let bdata := beamfs_bitmap_encode_sub_locked (s_nblocks s) bits k sub (b_data bh) in
              let ne := match s_bitmap_needs_encode s with
                        | Some ne => Some (<[Z.to_nat k := false]> ne) | None => None end in
              let s := with_buffers s (Some (<[Z.to_nat k := Some (Buffer bdata true true)]> bhs)) ne in
              (0, dirty_owner s owner)
          end
    | _, _ => (- EINVAL, s)
    end.

(** The free counts of the superblock, and the superblock dirtied. *)
Definition sb_counts (s : sbi) : sbi :=
  let fsb := s_beamfs_sb (s_super s) in
  let fsb := put_le64 fsb off_s_free_blocks (s_free_blocks s) in
  with_super s (beamfs_dirty_super t cpu (set_sb (s_super s) fsb)).

Definition sb_icounts (s : sbi) : sbi :=
  let fsb := s_beamfs_sb (s_super s) in
  let fsb := put_le64 fsb off_s_free_inodes (s_free_inodes s) in
  with_super s (beamfs_dirty_super t cpu (set_sb (s_super s) fsb)).

(** inode_add_bytes / inode_sub_bytes, once the owner's blocks are counted. *)
Definition add_bytes (s : sbi) (owner : option Z) (n : Z) : sbi :=
  match owner with
  | None => s
  | Some ino =>
    let fi := ii s ino in
    if i_blocks_counted fi then
      set_ii s ino (IInfo (i_rsv_start fi) (i_rsv_end fi) (i_rsv_next fi) (i_rsv_size fi)
        (i_last_alloc fi) (i_blocks_counted fi) (i_bytes fi + n) (i_freeing fi) (i_dirty fi))
    else s
  end.

Definition beamfs_alloc_block (s : sbi) (owner : option Z) : Z * sbi :=
  if beamfs_failed s then (0, s)
  else
    match s_block_bitmap s with
    | None => (0, s)
    | Some bits =>
      if s_free_blocks s =? 0 then (0, s)
      else
        let '(bit, s) :=
          match owner with
          | Some ino => beamfs_rsv_alloc_locked s bits ino
          | None =>
            let b := beamfs_rsv_find s bits None (s_alloc_goal s) true in
            (if s_nblocks s <=? b then beamfs_rsv_find s bits None (s_alloc_goal s) false else b, s)
          end in
        if s_nblocks s <=? bit then (0, s)
        else
          let s := with_goal s (if s_nblocks s <=? bit + 1 then 0 else bit + 1) in
          let s := with_bits s (clear_bit bits bit) in
          let s := with_free_blocks s (u64 (s_free_blocks s - 1)) in
          let s := sb_counts s in
          let s := add_bytes s owner BEAMFS_BLOCK_SIZE in
          let '(_, s) := beamfs_write_bitmap_block s bit owner in
          (s_data_start s + bit, s)
    end.

Definition beamfs_block_is_allocated (s : sbi) (block : Z) : bool :=
  if block <? s_data_start s then true
  else
    match s_block_bitmap s with
    | None => true
    | Some bits =>
      let bit := block - s_data_start s in
      if s_nblocks s <=? bit then false else negb (test_bit bits bit)
    end.

Definition beamfs_free_block (s : sbi) (block : Z) (owner : option Z) : sbi :=
  if beamfs_failed s then s
  else if block <? s_data_start s then s
  else
    let bit := block - s_data_start s in
    if s_nblocks s <=? bit then s
    else
      match s_block_bitmap s with
      | None => s                     (* the code dereferences the bitmap here *)
      | Some bits =>
        if test_bit bits bit then s
        else
          let s := with_goal s (if bit <? s_alloc_goal s then bit else s_alloc_goal s) in
          let s := with_bits s (set_bit bits bit) in
          let s := with_free_blocks s (u64 (s_free_blocks s + 1)) in
          let s := sb_counts s in
          let s := add_bytes s owner (- BEAMFS_BLOCK_SIZE) in
          let s := with_forgotten s (block :: s_tc_forgotten s) in
          snd (beamfs_write_bitmap_block s bit owner)
      end.

(** ** Inode numbers *)

Definition beamfs_alloc_inode_num (s : sbi) : Z * sbi :=
  if beamfs_failed s then (0, s)
  else
    match s_inode_bitmap s with
    | None => (0, s)
    | Some bits =>
      if s_free_inodes s =? 0 then (0, s)
      else
        let bit := find_next_bit bits (s_ninodes s + 1) 2 in
        if s_ninodes s <? bit then (0, s)
        else
          let s := with_ibits s (Some (clear_bit bits bit)) in
          let s := with_free_inodes s (u64 (s_free_inodes s - 1)) in
          (bit, sb_icounts s)
    end.

Definition beamfs_free_inode_num (s : sbi) (ino : Z) : sbi :=
  if beamfs_ino_is_reserved ino || (s_ninodes s <? ino) then s
  else
    match s_inode_bitmap s with
    | None => s                       (* the code dereferences the bitmap here *)
    | Some bits =>
      if test_bit bits ino then s
      else
        let s := with_ibits s (Some (set_bit bits ino)) in
        let s := with_free_inodes s (u64 (s_free_inodes s + 1)) in
        sb_icounts s
    end.

Definition beamfs_destroy_bitmap (s : sbi) : sbi :=
  let s := match s_bitmap_blkhs s with Some _ => with_buffers s None None | None => s end in
  Sbi (s_nblocks s) (s_data_start s) None (s_bitmap_blocks_count s) (s_bitmap_blkhs s)
    (s_bitmap_needs_encode s) (s_alloc_goal s) (s_free_blocks s) None (s_ninodes s)
    (s_free_inodes s) (s_rsv_windows s) (s_inodes s) (s_super s) (s_tc_forgotten s).
End image.

(** ** The bitmaps at mount (beamfs_setup_bitmap of alloc.c) *)

(** Which allocations succeed, which blocks can be read, which writes land. *)
Record mount_env := MountEnv {
  me_bitmap : bool; me_needs : bool; me_blkhs : bool; me_inode : bool;
  me_read : Z -> option (list Z);
  me_sync : Z -> bool }.

(** [set_bit] or [clear_bit] by the value read. *)
Definition copy_bit (bits : list Z) (i : Z) (v : bool) : list Z :=
  if v then set_bit bits i else clear_bit bits i.

(** The bits of one 239-byte subblock, from [bit_global] on. *)
Definition load_sub (max_bit : Z) (st : list Z * Z) (subdata : list Z) : list Z * Z :=
  let '(bits, bit_global) := st in
  let n := Z.max 0 (Z.min (BEAMFS_SUBBLOCK_DATA * 8) (max_bit - bit_global)) in
  (foldl (fun bits b => copy_bit bits (bit_global + b) (test_bit subdata b)) bits (upto n),
   bit_global + n).

Definition load_block (max_bit : Z) (st : list Z * Z) (bdata : list Z) : list Z * Z :=
  foldl (fun st i => load_sub max_bit st (slice bdata (i * BEAMFS_SUBBLOCK_TOTAL) BEAMFS_SUBBLOCK_DATA))
    st (upto BEAMFS_BITMAP_SUBBLOCKS).

(** The journal calls for the results of one bitmap block. *)
Definition bitmap_calls (disk_blk : Z) (results : list Z) (positions : list (list Z)) : list rs_call :=
  concat (map (fun i =>
    let rc := getb results i in
    if 0 <? rc then
      [LogRsEvent disk_blk (Some (nth (Z.to_nat i) positions []))
         (Z.min rc (BEAMFS_RS_PARITY / 2)) BEAMFS_SUBBLOCK_DATA (beamfs_rs_event_subblock_bits i)]
    else []) (upto BEAMFS_BITMAP_SUBBLOCKS)).

(** Progress of the loop over bitmap blocks. *)
Record load_state := LoadState {
  ls_bits : list Z;
  ls_bit_global : Z;
  ls_blkhs : list (option buffer);
  ls_calls : list rs_call;
  ls_written : list (Z * list Z) }.      (** repairs that reached the medium *)

Section mount.
Context `{RL : !RsLib} `{CL : !CrcLib} (t : rs_tables) (cpu : nat) (env : mount_env).

(** One bitmap block; [inr] is the read error that fails the mount. *)
Definition load_bitmap_block (bitmap_blk max_bit : Z) (st : load_state + load_state) (k : Z)
    : load_state + load_state :=
  match st with
  | inr st => inr st
  | inl st =>
    if max_bit <=? ls_bit_global st then inl st
    else
      let disk_blk := bitmap_blk + k in
      match me_read env disk_blk with
      | None => inr st
      | Some bdata =>
        let '(_, bdata, results, positions) :=
          beamfs_rs_decode_region t cpu bdata 0 BEAMFS_SUBBLOCK_TOTAL BEAMFS_SUBBLOCK_DATA
            BEAMFS_SUBBLOCK_TOTAL BEAMFS_SUBBLOCK_DATA BEAMFS_BITMAP_SUBBLOCKS
            (Some (BEAMFS_RS_PARITY / 2)) in
        let calls := bitmap_calls disk_blk results positions in
        let corrected := existsb (fun i => 0 <? getb results i) (upto BEAMFS_BITMAP_SUBBLOCKS) in
        let '(bits, bit_global) := load_block max_bit (ls_bits st, ls_bit_global st) bdata in
        (* a corrected block is written back at once *)
        let bh := Buffer bdata (negb corrected || me_sync env disk_blk) false in
        inl (LoadState bits bit_global (<[Z.to_nat k := Some bh]> (ls_blkhs st)) (ls_calls st ++ calls)
                (if corrected && me_sync env disk_blk then ls_written st ++ [(disk_blk, bdata)]
                 else ls_written st))
      end
  end.

(** The inode table scan: i_mode 0 marks a free slot. *)
Definition scan_inode_block (total_inodes inode_table_blk : Z) (ibits : list Z) (block : Z) : list Z :=
  let per := BEAMFS_BLOCK_SIZE / sizeof_inode in
  match me_read env (inode_table_blk + block) with
  | None => ibits
  | Some raw =>
    foldl (fun ibits i =>
      let ino := block * per + i + 1 in
      if (total_inodes <? ino) || (ino =? 1) then ibits
      else if get_le16 raw (i * sizeof_inode + off_i_mode) =? 0 then set_bit ibits ino else ibits)
      ibits (upto per)
  end.

(** Returns the code, the state, the journal calls and the repairs
    written. *)
Definition beamfs_setup_bitmap (s : sbi) : Z * sbi * list rs_call * list (Z * list Z) :=
  let fsb := s_beamfs_sb (s_super s) in
  let total_blocks := get_le64 fsb off_s_block_count in
  let data_start := get_le64 fsb off_s_data_start_blk in
  let bitmap_blk := get_le64 fsb off_s_bitmap_blk in
  if total_blocks <=? data_start then (- EINVAL, s, [], [])
  else if (bitmap_blk =? 0) || (data_start <=? bitmap_blk) then (- EINVAL, s, [], [])
  else
    let nblocks := total_blocks - data_start in
    let count := beamfs_bitmap_blocks_count_from_flags (get_le32 fsb off_s_flags) in
    let mk bits bhs ne goal ibits ninodes :=
      Sbi nblocks data_start bits count bhs ne goal (s_free_blocks s) ibits ninodes
        (s_free_inodes s) (s_rsv_windows s) (s_inodes s) (s_super s) (s_tc_forgotten s) in
    if negb (me_bitmap env) then (- ENOMEM, mk None None None (s_alloc_goal s) None (s_ninodes s), [], [])
    else
      let bits := zeros (bitmap_bytes nblocks) in
      if negb (me_needs env)
      then (- ENOMEM, mk (Some bits) None None (s_alloc_goal s) None (s_ninodes s), [], [])
      else
        let ne := replicate (Z.to_nat count) false in
        if negb (me_blkhs env)
        then (- ENOMEM, mk None None (Some ne) (s_alloc_goal s) None (s_ninodes s), [], [])
        else
          match foldl (load_bitmap_block bitmap_blk nblocks)
                  (inl (LoadState bits 0 (replicate (Z.to_nat count) None) [] [])) (upto count) with
          | inr ls =>
            (- EIO, mk None None None (s_alloc_goal s) None (s_ninodes s), ls_calls ls, ls_written ls)
          | inl ls =>
            let total_inodes := get_le64 fsb off_s_inode_count in
            let inode_table_blk := get_le64 fsb off_s_inode_table_blk in
            let per := BEAMFS_BLOCK_SIZE / sizeof_inode in
            if negb (me_inode env)
            then (- ENOMEM, mk None None None 0 None total_inodes, ls_calls ls, ls_written ls)
            else
              let ibits := foldl (scan_inode_block total_inodes inode_table_blk)
                             (zeros (bitmap_bytes (total_inodes + 1)))
                             (upto ((total_inodes + per - 1) / per)) in
              (0, mk (Some (ls_bits ls)) (Some (ls_blkhs ls)) (Some ne) 0 (Some ibits) total_inodes,
               ls_calls ls, ls_written ls)
          end.
End mount.
