(* ===== verification/AllocBits.v ===== *)
(** * Bit arrays and the free-block search *)

From stdpp Require Import gmap.
From S2P Require Import Prelude Format Crc RsInit RsLib Edac Dirent Super Alloc.

(** ** Bits *)

Definition in_bits (l : list Z) (i : Z) : Prop := 0 <= i < 8 * zlen l.

Lemma bit_split i j : 0 <= i -> 0 <= j -> i / 8 = j / 8 -> i mod 8 = j mod 8 -> i = j.
Proof. intros. pose proof (Z.div_mod i 8). pose proof (Z.div_mod j 8). lia. Qed.

Lemma in_bits_byte l i : in_bits l i -> 0 <= i / 8 < zlen l /\ 0 <= i mod 8 < 8.
Proof.
  intros H. unfold in_bits in H. pose proof (Z.div_mod i 8 ltac:(lia)).
  pose proof (Z.mod_pos_bound i 8 ltac:(lia)). lia.
Qed.

Lemma test_set_bit l i j :
  in_bits l i -> 0 <= j -> test_bit (set_bit l i) j = if decide (i = j) then true else test_bit l j.
Proof.
  intros Hi Hj. destruct (in_bits_byte l i Hi) as [B M]. destruct Hi as [Hi0 _]. unfold test_bit, set_bit.
  pose proof (Z.mod_pos_bound j 8 ltac:(lia)).
  destruct (decide (i / 8 = j / 8)) as [E|E].
  - rewrite <- E, getb_setb_eq by lia. rewrite Z.lor_spec, Z.shiftl_spec by lia.
    destruct (decide (i = j)) as [->|Hne].
    + rewrite Z.sub_diag. by rewrite orb_true_r.
    + assert (i mod 8 <> j mod 8) by (intros Em; apply Hne, bit_split; done || lia).
      destruct (decide (j mod 8 < i mod 8)).
      * rewrite (Z.testbit_neg_r 1) by lia. by rewrite orb_false_r.
      * rewrite (Z.bits_above_log2 1) by (change (Z.log2 1) with 0; lia). by rewrite orb_false_r.
  - rewrite getb_setb_ne; [| lia | apply Z.div_pos; lia | done]. destruct (decide (i = j)) as [->|]; done.
Qed.

Lemma test_clear_bit l i j :
  in_bits l i -> 0 <= j -> test_bit (clear_bit l i) j = if decide (i = j) then false else test_bit l j.
Proof.
  intros Hi Hj. destruct (in_bits_byte l i Hi) as [B M]. destruct Hi as [Hi0 _]. unfold test_bit, clear_bit.
  pose proof (Z.mod_pos_bound j 8 ltac:(lia)).
  destruct (decide (i / 8 = j / 8)) as [E|E].
  - rewrite <- E, getb_setb_eq by lia. rewrite Z.ldiff_spec, Z.shiftl_spec by lia.
    destruct (decide (i = j)) as [->|Hne].
    + rewrite Z.sub_diag. by rewrite andb_false_r.
    + assert (i mod 8 <> j mod 8) by (intros Em; apply Hne, bit_split; done || lia).
      destruct (decide (j mod 8 < i mod 8)).
      * rewrite (Z.testbit_neg_r 1) by lia. by rewrite andb_true_r.
      * rewrite (Z.bits_above_log2 1) by (change (Z.log2 1) with 0; lia). by rewrite andb_true_r.
  - rewrite getb_setb_ne; [| lia | apply Z.div_pos; lia | done]. destruct (decide (i = j)) as [->|]; done.
Qed.

Lemma zlen_set_bit l i : zlen (set_bit l i) = zlen l.
Proof. apply zlen_setb. Qed.
Lemma zlen_clear_bit l i : zlen (clear_bit l i) = zlen l.
Proof. apply zlen_setb. Qed.

Lemma is_byte_bits x : is_byte x <-> 0 <= x /\ forall n, 8 <= n -> Z.testbit x n = false.
Proof.
  unfold is_byte. split.
  - intros H. split; [lia|]. intros n Hn. destruct (decide (x = 0)) as [->|]; [apply Z.bits_0|].
    apply Z.bits_above_log2; [lia|]. assert (Z.log2 x < 8) by (apply Z.log2_lt_pow2; lia). lia.
  - intros [H0 H]. split; [done|]. destruct (decide (x < 256)); [done|]. exfalso.
    assert (Hl : 8 <= Z.log2 x) by (change 8 with (Z.log2 256); apply Z.log2_le_mono; lia).
    specialize (H (Z.log2 x) Hl). rewrite Z.bit_log2 in H by lia. done.
Qed.

Lemma is_byte_set l i : 0 <= i -> bytes l -> is_byte (Z.lor (getb l (i / 8)) (Z.shiftl 1 (i mod 8))).
Proof.
  intros Hi Hb. pose proof (bytes_getb l (i / 8) Hb) as [B1 B2]%is_byte_bits.
  pose proof (Z.mod_pos_bound i 8 ltac:(lia)). apply is_byte_bits. split.
  - apply Z.lor_nonneg. split; [done|]. apply Z.shiftl_nonneg. lia.
  - intros n Hn. rewrite Z.lor_spec, B2, Z.shiftl_spec by lia. apply Z.bits_above_log2; [lia|change (Z.log2 1) with 0; lia].
Qed.

Lemma is_byte_clear l i : bytes l -> is_byte (Z.ldiff (getb l (i / 8)) (Z.shiftl 1 (i mod 8))).
Proof.
  intros Hb. pose proof (bytes_getb l (i / 8) Hb) as [B1 B2]%is_byte_bits.
  apply is_byte_bits. split; [apply Z.ldiff_nonneg; by left|].
  intros n Hn. rewrite Z.ldiff_spec, B2 by lia. done.
Qed.

(** ** find_next_bit *)

Lemma find_next_bit_spec l size start :
  start <= size ->
  let r := find_next_bit l size start in
  start <= r <= size /\ (r < size -> test_bit l r = true) /\
  forall j, start <= j < r -> test_bit l j = false.
Proof.
  intros Hs r. subst r. unfold find_next_bit.
  remember (Z.to_nat (size - start)) as fuel eqn:Ef. revert start Hs Ef.
  induction fuel as [|fuel IH]; intros start Hs Ef; cbn [scan_bits].
  - split_and!; [lia|lia|lia|]. intros j Hj. lia.
  - destruct (test_bit l start) eqn:E.
    + split_and!; [lia|lia|done|]. intros j Hj. lia.
    + destruct (IH (start + 1) ltac:(lia) ltac:(lia)) as ([A1 A2] & B & C). split_and!; [lia|lia|done|].
      intros j Hj. destruct (decide (j = start)) as [->|]; [done|]. apply C. lia.
Qed.

(** ** Counting free bits *)

Definition free_count (l : list Z) (n : Z) : Z := zlen (filter (fun i => test_bit l i = true) (upto n)).

Lemma free_count_range l n : 0 <= n -> 0 <= free_count l n <= n.
Proof.
  intros Hn. unfold free_count. split; [apply zlen_nonneg|].
  rewrite <- (zlen_upto n Hn) at 2. unfold zlen. apply inj_le, length_filter.
Qed.

Lemma free_count_pos l n : free_count l n <> 0 <-> exists i, 0 <= i < n /\ test_bit l i = true.
Proof.
  unfold free_count. split.
  - intros H. destruct (filter _ (upto n)) as [|i r] eqn:E; [done|]. exists i.
    assert (Hi : i ∈ filter (fun i => test_bit l i = true) (upto n)) by (rewrite E; left).
    apply list_elem_of_filter in Hi as [? Hi%elem_of_upto]. done.
  - intros (i & Hi & Ht) Hz. assert (Hin : i ∈ filter (fun i => test_bit l i = true) (upto n)).
    { apply list_elem_of_filter. by rewrite elem_of_upto. }
    destruct (filter _ (upto n)) as [|x r]; [by apply elem_of_nil in Hin|].
    rewrite zlen_cons in Hz. pose proof (zlen_nonneg r). lia.
Qed.

(** A list of indices counted under two predicates that differ at one. *)
Lemma count_change (f g : Z -> bool) (l : list Z) i :
  NoDup l -> i ∈ l -> f i = true -> g i = false -> (forall j, j ∈ l -> j <> i -> f j = g j) ->
  zlen (filter (fun j => f j = true) l) = zlen (filter (fun j => g j = true) l) + 1.
Proof.
  intros ND Hin Hf Hg H. apply list_elem_of_split in Hin as (l1 & l2 & ->).
  apply list.NoDup_app in ND as (_ & D1 & D2). apply list.NoDup_cons in D2 as [D2 _].
  rewrite !list.filter_app, !filter_cons, !zlen_app. rewrite decide_True by done. rewrite (decide_False (P := g i = true)) by congruence.
  assert (E : forall l : list Z, (forall j, j ∈ l -> f j = g j) ->
    filter (fun j => f j = true) l = filter (fun j => g j = true) l).
  { intros l Hl. induction l as [|x l IH]; [done|]. rewrite !filter_cons, (Hl x) by left.
    rewrite IH by (intros j Hj; apply Hl; by right). done. }
  rewrite (E l1), (E l2).
  - rewrite zlen_cons. lia.
  - intros j Hj. apply H; [apply elem_of_app; right; by right|]. intros ->. done.
  - intros j Hj. apply H; [apply elem_of_app; by left|]. intros ->. apply (D1 i Hj). left.
Qed.

Lemma free_count_clear l n i :
  0 <= i < n -> in_bits l i -> test_bit l i = true -> free_count (clear_bit l i) n = free_count l n - 1.
Proof.
  intros Hi Hin Ht. unfold free_count.
  rewrite (count_change (test_bit l) (test_bit (clear_bit l i)) (upto n) i).
  - lia.
  - apply NoDup_seqZ.
  - by apply elem_of_upto.
  - done.
  - rewrite test_clear_bit by (done || lia). by rewrite decide_True.
  - intros j Hj%elem_of_upto Hne. rewrite test_clear_bit by (done || lia). by rewrite decide_False.
Qed.

Lemma free_count_set l n i :
  0 <= i < n -> in_bits l i -> test_bit l i = false -> free_count (set_bit l i) n = free_count l n + 1.
Proof.
  intros Hi Hin Ht. unfold free_count.
  rewrite (count_change (test_bit (set_bit l i)) (test_bit l) (upto n) i).
  - lia.
  - apply NoDup_seqZ.
  - by apply elem_of_upto.
  - rewrite test_set_bit by (done || lia). by rewrite decide_True.
  - done.
  - intros j Hj%elem_of_upto Hne. rewrite test_set_bit by (done || lia). by rewrite decide_False.
Qed.

(** ** The free-block search and the reservation windows

    What [beamfs_rsv_find] and [beamfs_rsv_alloc_locked] return, for every
    bitmap and every set of windows: a free block when one exists, and the
    fuel of the search is never exhausted. *)

(** A window of another inode holds the bit. *)
Definition covered (s : sbi) (me : option Z) (bit : Z) : Prop :=
  exists o, o ∈ s_rsv_windows s /\ Some o <> me /\ i_rsv_start (ii s o) <= bit < i_rsv_end (ii s o).

Lemma rsv_covering_spec s me bit :
  0 <= bit ->
  (beamfs_rsv_covering s me bit = 0 /\ ~ covered s me bit) \/
  (bit < beamfs_rsv_covering s me bit /\
   forall j, bit <= j < beamfs_rsv_covering s me bit -> covered s me j).
Proof.
  intros Hb. unfold beamfs_rsv_covering. destruct (find _ _) as [o|] eqn:E.
  - right. apply find_some in E as [Hin Ho]. apply andb_prop in Ho as [Ho H3].
    apply andb_prop in Ho as [H1 H2]. apply negb_true_iff, bool_decide_eq_false in H1.
    split; [lia|]. intros j Hj. exists o. rewrite list_elem_of_In. split_and!; [done..|lia|lia].
  - left. split; [done|]. intros (o & Hin & Hme & Hr).
    pose proof (find_none _ _ E o (proj1 (list_elem_of_In _ _) Hin)) as Hf. cbn beta in Hf.
    rewrite bool_decide_eq_false_2 in Hf by done. lia.
Qed.

(** What a search from [bit] may return. *)
Record found (s : sbi) (bits : list Z) (me : option Z) (respect : bool) (lo r : Z) : Prop := {
  found_range : 0 <= r <= s_nblocks s;
  found_free : r < s_nblocks s -> test_bit bits r = true;
  found_clear : r < s_nblocks s -> respect = true -> ~ covered s me r;
  found_none : r = s_nblocks s -> forall j, lo <= j < s_nblocks s -> test_bit bits j = true ->
    respect = true /\ covered s me j }.

Lemma rsv_find_loop_spec s bits me respect fuel bit (wrapped : bool) :
  0 <= bit <= s_nblocks s ->
  s_nblocks s - bit + (if wrapped then 0 else s_nblocks s + 1) < Z.of_nat fuel ->
  found s bits me respect (if wrapped then bit else 0) (rsv_find_loop fuel s bits me respect bit wrapped).
Proof.
  revert bit wrapped. induction fuel as [|fuel IH]; intros bit wrapped Hb Hf; [destruct wrapped; lia|].
  cbn [rsv_find_loop]. destruct (find_next_bit_spec bits (s_nblocks s) bit ltac:(lia)) as (R & T & N).
  set (b := find_next_bit bits (s_nblocks s) bit) in *.
  assert (Wrap : forall last, b <= last -> s_nblocks s <= last ->
    (forall j, bit <= j < last -> j < s_nblocks s -> test_bit bits j = true -> respect = true /\ covered s me j) ->
    found s bits me respect (if wrapped then bit else 0)
      (if wrapped then s_nblocks s else rsv_find_loop fuel s bits me respect 0 true)).
  { intros last H1 H2 Hc. destruct wrapped.
    - split; [lia|lia|lia|]. intros _ j Hj Ht. apply (Hc j); [lia|lia|done].
    - exact (IH 0 true ltac:(lia) ltac:(lia)). }
  destruct (Z.leb_spec (s_nblocks s) b) as [Hn|Hn].
  { apply (Wrap b); [lia|lia|]. intros j Hj Hj' Ht. rewrite N in Ht by lia. done. }
  destruct respect.
  2:{ cbn. split; [lia|by intros; apply T|done|lia]. }
  destruct (rsv_covering_spec s me b ltac:(lia)) as [[-> Hc]|[Hlt Hc]].
  - cbn. split; [lia|by intros; apply T|done|lia].
  - destruct (Z.eqb_spec (beamfs_rsv_covering s me b) 0); [lia|].
    assert (Hcov : forall j, bit <= j < beamfs_rsv_covering s me b -> test_bit bits j = true ->
              true = true /\ covered s me j).
    { intros j Hj Ht. split; [done|]. apply Hc. destruct (decide (j < b)); [|lia].
      rewrite N in Ht by lia. done. }
    destruct (Z.leb_spec (s_nblocks s) (beamfs_rsv_covering s me b)).
    + apply (Wrap (beamfs_rsv_covering s me b)); [lia|lia|]. intros j Hj _ Ht. by apply Hcov.
    + destruct (IH (beamfs_rsv_covering s me b) wrapped ltac:(lia) ltac:(lia)) as [A B C D].
      split; [done..|]. intros Hr j Hj Ht. destruct (decide (bit <= j < beamfs_rsv_covering s me b)); [by apply Hcov|].
      apply (D Hr); [|done]. destruct wrapped; lia.
Qed.

Lemma rsv_find_spec s bits me goal respect :
  0 <= s_nblocks s -> 0 <= goal -> found s bits me respect 0 (beamfs_rsv_find s bits me goal respect).
Proof.
  intros Hn Hg. unfold beamfs_rsv_find. set (b := if goal <? s_nblocks s then goal else 0).
  assert (Hb : 0 <= b <= s_nblocks s) by (unfold b; destruct (Z.ltb_spec goal (s_nblocks s)); lia).
  pose proof (rsv_find_loop_spec s bits me respect (rsv_fuel (s_nblocks s)) b (b =? 0) Hb) as H.
  unfold rsv_fuel in *. destruct (Z.eqb_spec b 0) as [E|E]; [rewrite E in *|]; apply H; lia.
Qed.

(** The two-pass search: a free block outside the windows of the others,
    else any free block. *)
Definition find2 (s : sbi) (bits : list Z) (me : option Z) (goal : Z) : Z :=
  let b := beamfs_rsv_find s bits me goal true in
  if s_nblocks s <=? b then beamfs_rsv_find s bits me goal false else b.

Record picked (s : sbi) (bits : list Z) (me : option Z) (r : Z) : Prop := {
  picked_range : 0 <= r <= s_nblocks s;
  picked_free : r < s_nblocks s -> test_bit bits r = true;
  picked_some : forall j, 0 <= j < s_nblocks s -> test_bit bits j = true -> r < s_nblocks s;
  picked_respects : r < s_nblocks s ->
    (exists j, 0 <= j < s_nblocks s /\ test_bit bits j = true /\ ~ covered s me j) -> ~ covered s me r }.

Lemma find2_spec s bits me goal :
  0 <= s_nblocks s -> 0 <= goal -> picked s bits me (find2 s bits me goal).
Proof.
  intros Hn Hg. unfold find2. destruct (rsv_find_spec s bits me goal true Hn Hg) as [A B C D].
  destruct (rsv_find_spec s bits me goal false Hn Hg) as [A' B' C' D'].
  destruct (Z.leb_spec (s_nblocks s) (beamfs_rsv_find s bits me goal true)) as [H|H].
  - split; [done..| |].
    + intros j Hj Ht. destruct (decide (beamfs_rsv_find s bits me goal false = s_nblocks s)); [|lia].
      by destruct (D' e j Hj Ht).
    + intros _ (j & Hj & Ht & Hc). destruct (D ltac:(lia) j Hj Ht). done.
  - split; [done..| |].
    + intros. lia.
    + intros _ _. by apply C.
Qed.

(** ** Windows *)

(** Every inode's window lies in the volume; the hint and the size are sane. *)
Record window_ok (n : Z) (i : iinfo) : Prop := {
  win_start : 0 <= i_rsv_start i;
  win_end : i_rsv_end i <= n;
  win_next : i_rsv_start i <= i_rsv_next i;
  win_last : 0 <= i_last_alloc i;
  win_size : i_rsv_size i ∈ [16; 32; 64; 128; 256; 512] }.

Definition windows_ok (s : sbi) : Prop := forall o, window_ok (s_nblocks s) (ii s o).

Lemma window_ok_init n : 0 <= n -> window_ok n beamfs_rsv_init.
Proof. intros. split; cbn; [lia..|]. left. Qed.

Lemma window_ok_no n i : 0 <= n -> window_ok n i -> window_ok n (no_window i).
Proof. intros Hn []. split; cbn; done || lia. Qed.

Lemma ii_insert s w m o p i : ii (with_windows s w (<[o := i]> m)) p = if decide (o = p) then i else default beamfs_rsv_init (m !! p).
Proof. unfold ii. cbn. destruct (decide (o = p)) as [->|]; [by rewrite lookup_insert_eq|by rewrite lookup_insert_ne]. Qed.

Lemma windows_ok_insert s w o i :
  windows_ok s -> window_ok (s_nblocks s) i -> windows_ok (with_windows s w (<[o := i]> (s_inodes s))).
Proof.
  intros Hs Hi p. rewrite ii_insert. cbn. destruct (decide (o = p)); [done|]. apply Hs.
Qed.

Lemma windows_ok_drop s ino : 0 <= s_nblocks s -> windows_ok s -> windows_ok (beamfs_rsv_drop_locked s ino).
Proof. intros Hn Hs. apply windows_ok_insert; [done|]. apply window_ok_no; [done|apply Hs]. Qed.

Lemma ii_drop_ne s ino o : o <> ino -> ii (beamfs_rsv_drop_locked s ino) o = ii s o.
Proof. intros H. unfold beamfs_rsv_drop_locked. rewrite ii_insert, decide_False by done. done. Qed.

Lemma ii_drop_eq s ino : ii (beamfs_rsv_drop_locked s ino) ino = no_window (ii s ino).
Proof. unfold beamfs_rsv_drop_locked. by rewrite ii_insert, decide_True. Qed.

Lemma covered_drop s ino bit : covered (beamfs_rsv_drop_locked s ino) (Some ino) bit <-> covered s (Some ino) bit.
Proof.
  unfold covered. split; intros (o & Hin & Hne & Hr); exists o.
  - rewrite ii_drop_ne in Hr by congruence. cbn in Hin. apply list_elem_of_filter in Hin as [_ Hin]. done.
  - rewrite ii_drop_ne by congruence. split; [|done]. cbn. apply list_elem_of_filter. split; [congruence|done].
Qed.

(** The next window never starts before [bit]. *)
Lemma rsv_next_start_spec s me bit :
  bit <= s_nblocks s ->
  bit <= beamfs_rsv_next_start s me bit <= s_nblocks s /\
  forall o, o ∈ s_rsv_windows s -> Some o <> me -> bit <= i_rsv_start (ii s o) ->
    beamfs_rsv_next_start s me bit <= i_rsv_start (ii s o).
Proof.
  intros Hb. unfold beamfs_rsv_next_start. remember (s_rsv_windows s) as ws eqn:E. clear E.
  assert (G : forall lim, bit <= lim ->
    let r := foldl (fun lim o => if bool_decide (Some o = me) then lim
       else let st := i_rsv_start (ii s o) in if (bit <=? st) && (st <? lim) then st else lim) lim ws in
    bit <= r <= lim /\ forall o, o ∈ ws -> Some o <> me -> bit <= i_rsv_start (ii s o) -> r <= i_rsv_start (ii s o)).
  2:{ by apply G. }
  induction ws as [|o ws IH]; intros lim Hl; cbn [foldl].
  { split; [lia|]. intros o Ho%elem_of_nil. done. }
  set (lim' := if bool_decide (Some o = me) then lim else _).
  assert (L : bit <= lim' <= lim /\ (Some o <> me -> bit <= i_rsv_start (ii s o) -> lim' <= i_rsv_start (ii s o))).
  { unfold lim'. case_bool_decide; [split; [lia|done]|]. cbn zeta.
    destruct (Z.leb_spec bit (i_rsv_start (ii s o))); destruct (Z.ltb_spec (i_rsv_start (ii s o)) lim); cbn; split; intros; lia. }
  destruct L as [L1 L2]. specialize (IH lim' ltac:(lia)). cbv zeta in IH |- *.
  destruct IH as [A B]. split; [lia|].
  intros p [->|Hp]%elem_of_cons Hne Hs; [specialize (L2 Hne Hs); lia|by apply B].
Qed.

(** ** One allocation for an inode *)

(** The fields an allocation's search may change: the windows. *)
Definition same_but_windows (s s' : sbi) : Prop := exists w m, s' = with_windows s w m.

Lemma rsv_alloc_unfold s bits ino :
  let fi := ii s ino in
  let own := find_next_bit bits (i_rsv_end fi) (i_rsv_next fi) in
  let s1 := beamfs_rsv_drop_locked s ino in
  let goal := if i_last_alloc fi =? 0 then s_alloc_goal s else i_last_alloc fi + 1 in
  let bit := find2 s1 bits (Some ino) goal in
  (i_rsv_next fi < i_rsv_end fi /\ own < i_rsv_end fi /\ own < s_nblocks s /\
   beamfs_rsv_alloc_locked s bits ino =
     (own, set_ii s ino (IInfo (i_rsv_start fi) (i_rsv_end fi) (own + 1) (i_rsv_size fi) own
            (i_blocks_counted fi) (i_bytes fi) (i_freeing fi) (i_dirty fi)))) \/
  (s_nblocks s <= bit /\ beamfs_rsv_alloc_locked s bits ino = (s_nblocks s, s1)) \/
  (bit < s_nblocks s /\ exists size,
   (size = i_rsv_size fi \/ i_rsv_size fi < BEAMFS_RSV_MAX /\ size = i_rsv_size fi * 2) /\
   beamfs_rsv_alloc_locked s bits ino =
     (bit, with_windows s1 (ino :: s_rsv_windows s1) (<[ino :=
        IInfo bit (Z.min (Z.min (bit + size) (beamfs_rsv_next_start s1 (Some ino) (bit + 1))) (s_nblocks s))
          (bit + 1) size bit (i_blocks_counted fi) (i_bytes fi) (i_freeing fi) (i_dirty fi)]> (s_inodes s1)))).
Proof.
  intros fi own s1 goal bit. unfold beamfs_rsv_alloc_locked. cbv zeta. fold fi. fold own. fold s1.
  assert (F : ii s1 ino = no_window fi) by apply ii_drop_eq. rewrite F. cbn [i_last_alloc no_window i_rsv_size
    i_blocks_counted i_bytes i_freeing i_dirty]. change (s_alloc_goal s1) with (s_alloc_goal s). fold goal.
  set (b0 := if i_rsv_next fi <? i_rsv_end fi then _ else _).
  destruct (Z.ltb_spec b0 (s_nblocks s)) as [H|H].
  - left. unfold b0 in *. destruct (Z.ltb_spec (i_rsv_next fi) (i_rsv_end fi)); [|lia].
    destruct (Z.leb_spec (i_rsv_end fi) own); [lia|]. done.
  - right. assert (B : (if s_nblocks s <=? beamfs_rsv_find s1 bits (Some ino) goal true
              then beamfs_rsv_find s1 bits (Some ino) goal false
              else beamfs_rsv_find s1 bits (Some ino) goal true) = bit) by done.
    rewrite B. destruct (Z.leb_spec (s_nblocks s) bit); [by left|]. right. split; [done|].
    eexists. split; [|reflexivity]. destruct (_ && _) eqn:E; [|by left]. right. lia.
Qed.

Lemma rsv_size_double x :
  x ∈ [16; 32; 64; 128; 256; 512] -> x < BEAMFS_RSV_MAX -> x * 2 ∈ [16; 32; 64; 128; 256; 512].
Proof. unfold BEAMFS_RSV_MAX. rewrite !list_elem_of_In. cbn [In]. lia. Qed.

Lemma rsv_alloc_spec s bits ino :
  0 <= s_nblocks s -> 0 <= s_alloc_goal s -> windows_ok s ->
  let '(bit, s') := beamfs_rsv_alloc_locked s bits ino in
  0 <= bit <= s_nblocks s /\ (bit < s_nblocks s -> test_bit bits bit = true) /\
  (forall j, 0 <= j < s_nblocks s -> test_bit bits j = true -> bit < s_nblocks s) /\
  same_but_windows s s' /\ windows_ok s'.
Proof.
  intros Hn Hg Hw. pose proof (rsv_alloc_unfold s bits ino) as U. cbv zeta in U.
  set (goal := if i_last_alloc (ii s ino) =? 0 then _ else _) in U.
  assert (Hgoal : 0 <= goal).
  { unfold goal. pose proof (win_last _ _ (Hw ino)). destruct (Z.eqb_spec (i_last_alloc (ii s ino)) 0); lia. }
  destruct (Hw ino) as [W1 W2 W3 W4 W5].
  destruct U as [(U1 & U2 & U3 & ->)|[(U1 & ->)|(U1 & size & Hsz & ->)]].
  - destruct (find_next_bit_spec bits (i_rsv_end (ii s ino)) (i_rsv_next (ii s ino)) ltac:(lia)) as (R & T & _).
    split_and!; [lia|lia|by intros; apply T|lia|by eexists _, _|].
    apply windows_ok_insert; [done|]. split; cbn; done || lia.
  - destruct (find2_spec (beamfs_rsv_drop_locked s ino) bits (Some ino) goal Hn Hgoal) as [A B C D].
    split_and!; [lia|lia|lia| |by eexists _, _|by apply windows_ok_drop].
    intros j Hj Ht. specialize (C j Hj Ht). cbn in *. lia.
  - destruct (find2_spec (beamfs_rsv_drop_locked s ino) bits (Some ino) goal Hn Hgoal) as [A B C D].
    set (bit := find2 _ _ _ _) in *. cbn in A.
    split_and!; [lia|lia|exact B|by intros|by eexists _, _|].
    apply windows_ok_insert; [by apply windows_ok_drop|]. split; cbn; [lia..|].
    destruct Hsz as [->|[Hlt ->]]; [done|]. by apply rsv_size_double.
Qed.

(** ** Disjoint windows *)

Definition disjoint (i j : iinfo) : Prop :=
  forall b, ~ (i_rsv_start i <= b < i_rsv_end i /\ i_rsv_start j <= b < i_rsv_end j).

(** No bit is in the windows of two inodes. *)
Definition windows_disjoint (s : sbi) : Prop :=
  forall o p, o ∈ s_rsv_windows s -> p ∈ s_rsv_windows s -> o <> p -> disjoint (ii s o) (ii s p).

Lemma disjoint_sym i j : disjoint i j -> disjoint j i.
Proof. intros H b Hb. apply (H b). tauto. Qed.

Lemma windows_disjoint_insert s w ino i :
  windows_disjoint s -> (forall o, o ∈ w -> o = ino \/ o ∈ s_rsv_windows s) ->
  (forall o, o ∈ w -> o <> ino -> disjoint i (ii s o)) ->
  windows_disjoint (with_windows s w (<[ino := i]> (s_inodes s))).
Proof.
  intros Hd Hw Hi o p Ho Hp Hne. cbn in Ho, Hp. rewrite !ii_insert.
  destruct (decide (ino = o)) as [<-|]; destruct (decide (ino = p)) as [<-|]; [done|..].
  - apply Hi; congruence.
  - apply disjoint_sym, Hi; congruence.
  - destruct (Hw o Ho), (Hw p Hp); [congruence..|]. by apply Hd.
Qed.

Lemma windows_disjoint_drop s ino : windows_disjoint s -> windows_disjoint (beamfs_rsv_drop_locked s ino).
Proof.
  intros Hd. apply windows_disjoint_insert; [done| |].
  - intros o [_ Ho]%list_elem_of_filter. by right.
  - intros o _ _ b. cbn. lia.
Qed.

(** While some free block lies outside the windows of the others, the
    window an allocation opens meets none of them. *)
Lemma rsv_alloc_disjoint s bits ino :
  0 <= s_nblocks s -> 0 <= s_alloc_goal s -> windows_ok s -> windows_disjoint s ->
  (ino ∈ s_rsv_windows s \/ i_rsv_end (ii s ino) = 0) ->
  (exists j, 0 <= j < s_nblocks s /\ test_bit bits j = true /\ ~ covered s (Some ino) j) ->
  windows_disjoint (snd (beamfs_rsv_alloc_locked s bits ino)).
Proof.
  intros Hn Hg Hw Hd Hin (j & Hj & Ht & Hc). pose proof (rsv_alloc_unfold s bits ino) as U. cbv zeta in U.
  set (goal := if i_last_alloc (ii s ino) =? 0 then _ else _) in U.
  assert (Hgoal : 0 <= goal).
  { unfold goal. pose proof (win_last _ _ (Hw ino)). destruct (Z.eqb_spec (i_last_alloc (ii s ino)) 0); lia. }
  destruct U as [(U1 & U2 & U3 & ->)|[(U1 & ->)|(U1 & size & Hsz & ->)]]; cbn [snd].
  - apply windows_disjoint_insert; [done|by right|]. intros o Ho Hne b. cbn.
    destruct Hin as [Hin|E]; [|destruct (Hw ino); lia]. exact (Hd ino o Hin Ho (not_eq_sym Hne) b).
  - by apply windows_disjoint_drop.
  - destruct (find2_spec (beamfs_rsv_drop_locked s ino) bits (Some ino) goal Hn Hgoal) as [A B C D].
    set (bit := find2 _ _ _ _) in *. set (s1 := beamfs_rsv_drop_locked s ino) in *.
    assert (Hnc : ~ covered s1 (Some ino) bit).
    { apply D; [done|]. exists j. split; [done|]. split; [done|]. unfold s1. by rewrite covered_drop. }
    apply windows_disjoint_insert; [by apply windows_disjoint_drop| |].
    + intros o [->|Ho]%elem_of_cons; [by left|by right].
    + intros o [->|Ho]%elem_of_cons Hne; [done|].
      intros b. cbn [i_rsv_start i_rsv_end]. intros [H1 H2].
      destruct (rsv_next_start_spec s1 (Some ino) (bit + 1) ltac:(cbn in *; lia)) as [_ N].
      destruct (decide (bit + 1 <= i_rsv_start (ii s1 o))).
      * specialize (N o Ho ltac:(congruence) ltac:(lia)). lia.
      * apply Hnc. exists o. split_and!; [done|congruence|lia|lia].
Qed.
