(* ===== verification/AllocImage.v ===== *)
(** * The on-disk image of the block bitmap

    A bitmap block is 16 codewords of 239 bytes of bitmap and 16 of parity.
    Re-encoding the one codeword a changed bit lies in leaves the image that
    re-encoding the whole block would. *)

From stdpp Require Import gmap.
From S2P Require Import Prelude Format Crc RsInit GF RsTheory RsCode RsCorrect RsDecode RsLib Edac EdacWord EdacBlock EdacLayouts EdacTheorems Dirent Super Alloc AllocBits.

Abbreviation LB := (region_layout 4096 0 255 239 255 239 16).

#[export] Instance LB_ok : LayoutOk LB.
Proof.
  assert (A : forall i k, 0 <= i < 16 -> 0 <= k < 255 -> addr LB i k = 255 * i + k).
  { intros i k Hi Hk. unfold addr. cbn. destruct (Z.ltb_spec k 239); lia. }
  split; [done|done| |].
  - intros i k Hi Hk. cbn [l_n l_len l_size region_layout] in *. rewrite A by lia. lia.
  - intros i k j m Hi Hk Hj Hm E. cbn [l_n l_len region_layout] in *. rewrite !A in E by lia. lia.
Qed.

(** The 239 data bytes of codeword [i] of bitmap block [k]. *)
Definition sub_data (n : Z) (bits : list Z) (k i : Z) : list Z :=
  let bit0 := k * BEAMFS_BITS_PER_BITMAP_BLOCK + i * BEAMFS_SUBBLOCK_DATA * 8 in
  let last := Z.min (k * BEAMFS_BITS_PER_BITMAP_BLOCK + BEAMFS_BITS_PER_BITMAP_BLOCK) n in
  let nbytes := Z.max 0 (Z.min BEAMFS_SUBBLOCK_DATA ((last - bit0 + 7) / 8)) in
  slice bits (bit0 / 8) nbytes ++ zeros (BEAMFS_SUBBLOCK_DATA - nbytes).

(** Where the codeword starts, in bits and bytes, and how many of its bytes
    hold bits of the volume. *)
Lemma sub_geometry n k i :
  0 <= k -> 0 <= i < 16 -> 0 <= n ->
  let bit0 := k * 30592 + i * 239 * 8 in
  let last := Z.min (k * 30592 + 30592) n in
  let nbytes := Z.max 0 (Z.min 239 ((last - bit0 + 7) / 8)) in
  bit0 / 8 = k * 3824 + i * 239 /\ 0 <= nbytes <= 239 /\
  (last <= bit0 -> nbytes = 0) /\
  (bit0 < last -> nbytes = Z.min 239 ((last - bit0 + 7) / 8) /\ 8 * (bit0 / 8 + nbytes) <= n + 7).
Proof.
  intros Hk Hi Hn bit0 last nbytes.
  assert (E : bit0 / 8 = k * 3824 + i * 239).
  { unfold bit0. replace (k * 30592 + i * 239 * 8) with ((k * 3824 + i * 239) * 8) by lia. apply Z.div_mul. lia. }
  pose proof (Z.div_mod (last - bit0 + 7) 8 ltac:(lia)). pose proof (Z.mod_pos_bound (last - bit0 + 7) 8 ltac:(lia)).
  split; [done|]. unfold nbytes, last, bit0 in *. lia.
Qed.

Definition bits_for (n : Z) (bits : list Z) : Prop := bytes bits /\ 0 <= n <= 8 * zlen bits.

Lemma zlen_sub_data n bits k i :
  bits_for n bits -> 0 <= k -> 0 <= i < 16 -> zlen (sub_data n bits k i) = 239.
Proof.
  intros [_ Hn] Hk Hi. destruct (sub_geometry n k i Hk Hi ltac:(lia)) as (E & R & D & Lv).
  unfold sub_data. change BEAMFS_BITS_PER_BITMAP_BLOCK with 30592. change BEAMFS_SUBBLOCK_DATA with 239.
  cbv zeta in *. set (bit0 := k * 30592 + i * 239 * 8) in *. set (last := Z.min (k * 30592 + 30592) n) in *.
  set (nb := Z.max 0 (Z.min 239 ((last - bit0 + 7) / 8))) in *.
  rewrite zlen_app, zlen_zeros by lia. destruct (decide (last <= bit0)) as [Hd|Hd].
  - rewrite (D Hd). done.
  - rewrite zlen_slice by lia. lia.
Qed.

Lemma bytes_sub_data n bits k i : bits_for n bits -> bytes (sub_data n bits k i).
Proof. intros [B _]. apply bytes_app. auto with bytes. Qed.

(** Bit [b] of the codeword is bit [bit0 + b] of the volume. *)
Lemma test_sub_data n bits k i b :
  bits_for n bits -> 0 <= k -> 0 <= i < 16 -> 0 <= b < 1912 -> k * 30592 + i * 1912 + b < n ->
  test_bit (sub_data n bits k i) b = test_bit bits (k * 30592 + i * 1912 + b).
Proof.
  intros [_ Hn] Hk Hi Hb Hl. destruct (sub_geometry n k i Hk Hi ltac:(lia)) as (E & R & D & Lv).
  pose proof (Z.div_mod b 8 ltac:(lia)). pose proof (Z.mod_pos_bound b 8 ltac:(lia)).
  assert (Hd : (k * 30592 + i * 1912 + b) / 8 = k * 3824 + i * 239 + b / 8).
  { replace (k * 30592 + i * 1912 + b) with (b + (k * 3824 + i * 239) * 8) by lia. rewrite Z.div_add by lia. lia. }
  assert (Hm : (k * 30592 + i * 1912 + b) mod 8 = b mod 8).
  { replace (k * 30592 + i * 1912 + b) with (b + (k * 3824 + i * 239) * 8) by lia. by rewrite Z.mod_add by lia. }
  unfold test_bit. rewrite Hd, Hm. f_equal.
  unfold sub_data. change BEAMFS_BITS_PER_BITMAP_BLOCK with 30592. change BEAMFS_SUBBLOCK_DATA with 239.
  cbv zeta in *. set (bit0 := k * 30592 + i * 239 * 8) in *. set (last := Z.min (k * 30592 + 30592) n) in *.
  set (nb := Z.max 0 (Z.min 239 ((last - bit0 + 7) / 8))) in *.
  assert (Hlive : bit0 < last) by (unfold bit0, last; lia). destruct (Lv Hlive) as [En Hfit].
  pose proof (Z.div_mod (last - bit0 + 7) 8 ltac:(lia)). pose proof (Z.mod_pos_bound (last - bit0 + 7) 8 ltac:(lia)).
  assert (b / 8 < nb) by (rewrite En; unfold last, bit0 in *; lia).
  rewrite getb_app by lia. rewrite zlen_slice by lia. rewrite decide_True by lia.
  rewrite getb_slice by lia. f_equal. lia.
Qed.

(** A changed bit changes the data of its own codeword only. *)
Lemma sub_data_setb n bits k i j x :
  bits_for n bits -> 0 <= k -> 0 <= i < 16 -> 0 <= j -> ~ (k * 3824 + i * 239 <= j < k * 3824 + i * 239 + 239) ->
  sub_data n (setb bits j x) k i = sub_data n bits k i.
Proof.
  intros [_ Hn] Hk Hi Hj Ho. destruct (sub_geometry n k i Hk Hi ltac:(lia)) as (E & R & D & Lv).
  unfold sub_data. change BEAMFS_BITS_PER_BITMAP_BLOCK with 30592. change BEAMFS_SUBBLOCK_DATA with 239.
  cbv zeta in *. set (bit0 := k * 30592 + i * 239 * 8) in *. set (last := Z.min (k * 30592 + 30592) n) in *.
  set (nb := Z.max 0 (Z.min 239 ((last - bit0 + 7) / 8))) in *. f_equal.
  destruct (decide (last <= bit0)) as [Hd|Hd]; [by rewrite (D Hd)|].
  apply bytes_ext; [rewrite !zlen_slice; rewrite ?zlen_setb; lia|].
  rewrite zlen_slice by (rewrite ?zlen_setb; lia). intros p Hp. rewrite !getb_slice by lia.
  apply getb_setb_ne; lia.
Qed.

(** ** Codewords and blocks *)

Section image.
Context `{RL : !RsLib} `{RS : !RsLibSpec} (t : rs_tables) (cpu : nat).
Context (Hctrl : ctrl_here t cpu = true).

Definition sub_word (n : Z) (bits : list Z) (k i : Z) : list Z :=
  sub_data n bits k i ++ encode_rs8 (sub_data n bits k i).

(** What bitmap block [k] holds for the bitmap [bits] of [n] blocks. *)
Record image_of (n : Z) (bits : list Z) (k : Z) (img : list Z) : Prop := {
  im_len : zlen img = 4096;
  im_bytes : bytes img;
  im_words : forall i, 0 <= i < 16 -> slice img (i * 255) 255 = sub_word n bits k i;
  im_tail : slice img 4080 16 = zeros 16 }.

Lemma is_codeword_zeros : is_codeword (zeros 255).
Proof.
  assert (H : is_codeword (zeros 239 ++ rs_encode_subblock codec (zeros 239))).
  { apply rs_encode_is_codeword, bytes_zeros. }
  assert (E : rs_encode_subblock codec (zeros 239) = zeros 16) by (by vm_compute).
  rewrite E in H. exact H.
Qed.

(** The parity of an empty codeword is zero. *)
Lemma encode_rs8_zeros : encode_rs8 (zeros 239) = zeros 16.
Proof.
  assert (B : bytes (zeros 239)) by apply bytes_zeros.
  assert (L : zlen (zeros 239) <= 239) by (rewrite zlen_zeros; lia).
  assert (H : zeros 239 ++ encode_rs8 (zeros 239) = zeros 239 ++ zeros 16).
  { pose proof (encode_rs8_len _ B L) as L2. pose proof (encode_rs8_bytes _ B L).
    apply codeword_distance.
    - by apply bytes_app.
    - apply bytes_app. split; apply bytes_zeros.
    - rewrite !zlen_app, L2, !zlen_zeros by lia. done.
    - rewrite !zlen_app, L2, !zlen_zeros by lia. lia.
    - by apply encode_rs8_codeword.
    - exact is_codeword_zeros.
    - rewrite hamming_app, hamming_refl by done.
      pose proof (hamming_le (encode_rs8 (zeros 239)) (zeros 16)). change RS_NROOTS with 16. lia. }
  by apply app_inj_1 in H as [_ ->].
Qed.

Lemma zlen_sub_word n bits k i : bits_for n bits -> 0 <= k -> 0 <= i < 16 -> zlen (sub_word n bits k i) = 255.
Proof.
  intros Hb Hk Hi. unfold sub_word. pose proof (zlen_sub_data n bits k i Hb Hk Hi) as Hz.
  rewrite zlen_app, Hz, encode_rs8_len by (by apply bytes_sub_data || lia). lia.
Qed.

Lemma bytes_sub_word n bits k i : bits_for n bits -> 0 <= k -> 0 <= i < 16 -> bytes (sub_word n bits k i).
Proof.
  intros Hb Hk Hi. pose proof (zlen_sub_data n bits k i Hb Hk Hi) as Hz.
  pose proof (bytes_sub_data n bits k i Hb). apply bytes_app. split; [done|].
  apply encode_rs8_bytes; [done|lia].
Qed.

Definition k_last (n k : Z) : Z := Z.min (k * BEAMFS_BITS_PER_BITMAP_BLOCK + BEAMFS_BITS_PER_BITMAP_BLOCK) n.

(** The encoder of one codeword writes it whole; the codewords past the
    end of the volume keep the zero parity the block was cleared to. *)
Lemma encode_sub_spec n bits k i bdata :
  bits_for n bits -> 0 <= k -> 0 <= i < 16 -> zlen bdata = 4096 -> bytes bdata ->
  (k * 30592 + i * 1912 < n \/ slice bdata (i * 255 + 239) 16 = zeros 16) ->
  encode_sub t cpu bits (k * BEAMFS_BITS_PER_BITMAP_BLOCK) (k_last n k) bdata i =
    splice bdata (i * 255) (sub_word n bits k i).
Proof.
  intros Hb Hk Hi Hz Bd Hor. pose proof (zlen_sub_data n bits k i Hb Hk Hi) as Hzs.
  pose proof (bytes_sub_data n bits k i Hb) as Bs. pose proof Hb as [_ Hn].
  destruct (sub_geometry n k i Hk Hi ltac:(lia)) as (E & R & D & Lv).
  unfold encode_sub, sub_word. unfold sub_data in *. unfold k_last. change BEAMFS_SUBBLOCK_TOTAL with 255.
  change BEAMFS_BITS_PER_BITMAP_BLOCK with 30592 in *. change BEAMFS_SUBBLOCK_DATA with 239 in *. cbv zeta in *.
  set (bit0 := k * 30592 + i * 239 * 8) in *. set (last := Z.min (k * 30592 + 30592) n) in *.
  set (nb := Z.max 0 (Z.min 239 ((last - bit0 + 7) / 8))) in *.
  destruct (Z.leb_spec last bit0) as [Hd|Hd].
  - rewrite (D Hd) in *. rewrite Z.sub_0_r in *. change (slice bits (bit0 / 8) 0 ++ zeros 239) with (zeros 239) in *.
    rewrite encode_rs8_zeros. assert (Hp : slice bdata (i * 255 + 239) 16 = zeros 16).
    { destruct Hor; [|done]. unfold last, bit0 in *. lia. }
    rewrite <- (splice_cat bdata (zeros 239) (zeros 16) (i * 255) (i * 255 + 239)) by (rewrite ?zlen_zeros; lia).
    rewrite <- Hp. apply bytes_ext; rewrite !zlen_splice; rewrite ?zlen_splice, ?zlen_slice, ?zlen_zeros; try lia.
    intros a Ha. destruct (decide (i * 255 + 239 <= a < i * 255 + 255)).
    + rewrite (getb_splice_in _ _ (slice _ _ _)) by (rewrite ?zlen_splice, ?zlen_slice, ?zlen_zeros; lia).
      rewrite getb_slice by lia. rewrite getb_splice_out by (rewrite ?zlen_zeros; lia). f_equal. lia.
    + rewrite (getb_splice_out _ _ (slice _ _ _)) by (rewrite ?zlen_splice, ?zlen_slice, ?zlen_zeros; lia). done.
  - destruct (Lv Hd) as [En Hfit]. rewrite <- En.
    assert (S1 : (if nb <? 239 then splice (splice bdata (i * 255) (slice bits (bit0 / 8) nb)) (i * 255 + nb) (zeros (239 - nb))
                  else splice bdata (i * 255) (slice bits (bit0 / 8) nb)) =
                 splice bdata (i * 255) (slice bits (bit0 / 8) nb ++ zeros (239 - nb))).
    { destruct (Z.ltb_spec nb 239).
      - apply splice_cat; rewrite ?zlen_slice, ?zlen_zeros by lia; lia.
      - replace (239 - nb) with 0 by lia. change (zeros 0) with (@nil Z). by rewrite app_nil_r. }
    rewrite S1. set (w := slice bits (bit0 / 8) nb ++ zeros (239 - nb)) in *.
    unfold beamfs_rs_encode_region. change (upto 1) with [0]. cbn [foldl]. change (0 <? 0) with false. cbn iota.
    rewrite Z.mul_0_l, !Z.add_0_r. rewrite (slice_splice_len bdata w) by lia.
    pose proof (rs_encode_eq t cpu Hctrl w Bs ltac:(lia)) as Ee. rewrite Hzs in Ee. rewrite Ee.
    change (0 <? 0) with false. cbn [snd]. apply splice_cat; [lia|lia|].
    rewrite encode_rs8_len by (done || lia). lia.
Qed.

Lemma image_full n bits k bdata :
  bits_for n bits -> 0 <= k -> image_of n bits k (beamfs_bitmap_encode_one_locked t cpu n bits k bdata).
Proof.
  intros Hb Hk. unfold beamfs_bitmap_encode_one_locked, beamfs_bitmap_encode_sub_locked.
  change (BEAMFS_BITMAP_SUBBLOCKS <=? BEAMFS_BITMAP_SUBBLOCKS) with true. cbv iota zeta.
  change BEAMFS_BITMAP_SUBBLOCKS with 16. fold (k_last n k).
  set (P := fun m img => zlen img = 4096 /\ bytes img /\
    (forall i, 0 <= i < m -> slice img (i * 255) 255 = sub_word n bits k i) /\
    (forall a, m * 255 <= a -> getb img a = 0)).
  assert (G : P 16 (foldl (encode_sub t cpu bits (k * BEAMFS_BITS_PER_BITMAP_BLOCK) (k_last n k))
                      (zeros BEAMFS_BLOCK_SIZE) (upto 16))).
  { apply (foldl_upto_ind _ P); [lia| |].
    - split_and!; [done|apply bytes_zeros|lia|]. intros a _. apply getb_zeros.
    - intros i img Hi (Hz & B & Hw & H0).
      assert (Hp : slice img (i * 255 + 239) 16 = zeros 16).
      { apply bytes_ext; rewrite !zlen_slice; rewrite ?zlen_zeros; try lia. intros a Ha.
        rewrite getb_slice, getb_zeros by lia. apply H0. lia. }
      pose proof (zlen_sub_word n bits k i Hb Hk Hi). pose proof (bytes_sub_word n bits k i Hb Hk Hi).
      rewrite (encode_sub_spec n bits k i img Hb Hk Hi Hz B (or_intror Hp)). split_and!.
      + rewrite zlen_splice; lia.
      + auto with bytes.
      + intros j Hj. destruct (decide (j = i)) as [->|].
        * apply slice_splice_len; lia.
        * rewrite slice_splice_ne by lia. apply Hw. lia.
      + intros a Ha. rewrite getb_splice_out by lia. apply H0. lia. }
  destruct G as (Hz & B & Hw & H0). split; [done..|].
  apply bytes_ext; rewrite !zlen_slice; rewrite ?zlen_zeros; try lia. intros a Ha.
  rewrite getb_slice, getb_zeros by lia. apply H0. lia.
Qed.

(** The codeword of a bit. *)
Lemma bit_codeword b :
  0 <= b -> let k := b / 30592 in let i := (b mod 30592) / 1912 in
  0 <= k /\ 0 <= i < 16 /\ k * 30592 + i * 1912 <= b /\
  k * 3824 + i * 239 <= b / 8 < k * 3824 + i * 239 + 239.
Proof.
  intros Hb k i. pose proof (Z.div_mod b 30592 ltac:(lia)). pose proof (Z.mod_pos_bound b 30592 ltac:(lia)).
  pose proof (Z.div_mod (b mod 30592) 1912 ltac:(lia)). pose proof (Z.mod_pos_bound (b mod 30592) 1912 ltac:(lia)).
  pose proof (Z.div_mod b 8 ltac:(lia)). pose proof (Z.mod_pos_bound b 8 ltac:(lia)).
  assert (0 <= k) by (apply Z.div_pos; lia). assert (0 <= i) by (apply Z.div_pos; lia).
  fold k in H. fold i in H1. lia.
Qed.

Lemma bits_for_setb n bits j x : bits_for n bits -> is_byte x -> bits_for n (setb bits j x).
Proof. intros [B Hn] Hx. split; [auto with bytes|by rewrite zlen_setb]. Qed.

Lemma image_update n bits b x img :
  bits_for n bits -> is_byte x -> 0 <= b < n -> image_of n bits (b / 30592) img ->
  image_of n (setb bits (b / 8) x) (b / 30592)
    (beamfs_bitmap_encode_sub_locked t cpu n (setb bits (b / 8) x) (b / 30592) ((b mod 30592) / 1912) img).
Proof.
  intros Hb Hx Hr [Hz B Hw Ht]. destruct (bit_codeword b ltac:(lia)) as (Hk & Hi & Hle & Hby).
  pose proof (bits_for_setb n bits (b / 8) x Hb Hx) as Hb'.
  set (k := b / 30592) in *. set (i := (b mod 30592) / 1912) in *. set (bits' := setb bits (b / 8) x) in *.
  unfold beamfs_bitmap_encode_sub_locked. change BEAMFS_BITMAP_SUBBLOCKS with 16.
  destruct (Z.leb_spec 16 i); [lia|]. fold (k_last n k).
  assert (Hl : k * 30592 + i * 1912 < n) by lia.
  rewrite (encode_sub_spec n bits' k i img Hb' Hk Hi Hz B (or_introl Hl)).
  pose proof (zlen_sub_word n bits' k i Hb' Hk Hi). pose proof (bytes_sub_word n bits' k i Hb' Hk Hi). split.
  - rewrite zlen_splice; lia.
  - auto with bytes.
  - intros j Hj. destruct (decide (j = i)) as [->|].
    + apply slice_splice_len; lia.
    + rewrite slice_splice_ne by lia. rewrite Hw by done. unfold sub_word, bits'.
      rewrite sub_data_setb by (done || lia). done.
  - rewrite slice_splice_ne by lia. done.
Qed.

Lemma image_other n bits b x k img :
  bits_for n bits -> 0 <= k -> 0 <= b -> k <> b / 30592 -> image_of n bits k img ->
  image_of n (setb bits (b / 8) x) k img.
Proof.
  intros Hb Hk Hr Hne [Hz B Hw Ht]. destruct (bit_codeword b ltac:(lia)) as (Hk' & Hi & Hle & Hby).
  split; [done..| |done]. intros i Hi'. rewrite Hw by done. unfold sub_word.
  rewrite sub_data_setb by (done || lia). done.
Qed.

Lemma image_encoded n bits k img :
  bits_for n bits -> 0 <= k -> image_of n bits k img ->
  encoded LB img img /\ forall i, 0 <= i < 16 -> cw_data LB img i = sub_data n bits k i.
Proof.
  intros Hb Hk [Hz B Hw Ht].
  assert (D : forall i, 0 <= i < 16 -> cw_data LB img i = sub_data n bits k i).
  { intros i Hi. rewrite <- (region_data 4096 0 255 239 255 239 16 img i Hz Hi).
    pose proof (zlen_sub_data n bits k i Hb Hk Hi) as Hs. specialize (Hw i Hi).
    apply (f_equal (fun l => slice l 0 239)) in Hw. rewrite slice_slice in Hw by lia.
    rewrite Z.add_0_r in Hw. rewrite Z.add_0_l, Hw. unfold sub_word.
    by apply slice_app_l. }
  split; [|done]. split; [done..| |done]. intros i Hi. rewrite D by done. unfold cw_par. cbn [l_par region_layout].
  pose proof (zlen_sub_data n bits k i Hb Hk Hi) as Hs. specialize (Hw i Hi).
  apply (f_equal (fun l => slice l 239 16)) in Hw. rewrite slice_slice in Hw by lia.
  rewrite (Z.add_comm 239), Hw. unfold sub_word.
  pose proof (encode_rs8_len _ (bytes_sub_data n bits k i Hb) ltac:(lia)) as He.
  by apply slice_app_r.
Qed.
End image.
