(* ===== verification/AllocInv.v ===== *)
(** * The invariant of the block allocator

    What holds of the allocator's state between operations, and that
    beamfs_alloc_block, beamfs_free_block and beamfs_rsv_discard keep it. *)

From stdpp Require Import gmap.
From S2P Require Import Prelude Format Crc RsInit GF RsTheory RsCode RsCorrect RsDecode RsLib Edac EdacWord EdacBlock EdacLayouts EdacTheorems Dirent Super SuperTheorems Alloc AllocBits AllocImage.

(** ** Steps that touch no more than the inodes *)

Definition same_win (i j : iinfo) : Prop :=
  i_rsv_start j = i_rsv_start i /\ i_rsv_end j = i_rsv_end i /\ i_rsv_next j = i_rsv_next i /\
  i_rsv_size j = i_rsv_size i /\ i_last_alloc j = i_last_alloc i.

Definition only_inodes (s s' : sbi) : Prop :=
  s' = with_windows s (s_rsv_windows s) (s_inodes s') /\ forall o, same_win (ii s o) (ii s' o).

Lemma only_inodes_refl s : only_inodes s s.
Proof. split; [by destruct s|]. intros o. by split_and!. Qed.

Lemma only_inodes_set s ino i : same_win (ii s ino) i -> only_inodes s (set_ii s ino i).
Proof.
  intros H. split; [done|]. intros o. unfold set_ii. rewrite ii_insert.
  destruct (decide (ino = o)) as [<-|]; [done|]. by split_and!.
Qed.

Lemma windows_ok_ext s s' :
  s_nblocks s' = s_nblocks s -> (forall o, same_win (ii s o) (ii s' o)) -> windows_ok s -> windows_ok s'.
Proof.
  intros E H Hw o. destruct (H o) as (H1 & H2 & H3 & H4 & H5). destruct (Hw o) as [A B C D F].
  rewrite E. split; congruence || lia.
Qed.

Section steps.
Context `{RL : !RsLib} `{RS : !RsLibSpec} `{CL : !CrcLib} (t : rs_tables) (cpu : nat).
Context (Hctrl : ctrl_here t cpu = true).

Lemma add_bytes_only s owner n : only_inodes s (add_bytes s owner n).
Proof.
  unfold add_bytes. destruct owner as [ino|]; [|apply only_inodes_refl].
  destruct (i_blocks_counted _); [|apply only_inodes_refl]. apply only_inodes_set. by split_and!.
Qed.

Lemma dirty_owner_only s owner : only_inodes s (dirty_owner s owner).
Proof.
  unfold dirty_owner. destruct owner as [ino|]; [|apply only_inodes_refl].
  destruct (i_freeing _); [apply only_inodes_refl|]. apply only_inodes_set. by split_and!.
Qed.

(** ** The invariant *)

(** The buffers of the bitmap hold the image of [bits]. *)
Definition image_ok (s : sbi) (bits : list Z) : Prop :=
  exists bhs, s_bitmap_blkhs s = Some bhs /\
  forall k, 0 <= k -> k * BEAMFS_BITS_PER_BITMAP_BLOCK < s_nblocks s ->
    k < s_bitmap_blocks_count s /\ (Z.to_nat k < length bhs)%nat /\
    exists bh, nth (Z.to_nat k) bhs None = Some bh /\
      (beamfs_failed s = false -> b_uptodate bh = true -> image_of (s_nblocks s) bits k (b_data bh)).

Definition sb_mirrors (s : sbi) : Prop :=
  zlen (s_beamfs_sb (s_super s)) = 4096 /\
  get_le64 (s_beamfs_sb (s_super s)) off_s_free_blocks = s_free_blocks s.

Record alloc_inv (s : sbi) (bits : list Z) : Prop := {
  ai_bits : s_block_bitmap s = Some bits;
  ai_for : bits_for (s_nblocks s) bits;
  ai_data : 0 < s_data_start s;
  ai_width : s_data_start s + s_nblocks s < 2 ^ 64;
  ai_free : s_free_blocks s = free_count bits (s_nblocks s);
  ai_goal : 0 <= s_alloc_goal s;
  ai_windows : windows_ok s;
  ai_image : image_ok s bits;
  ai_mirror : sb_mirrors s }.

Lemma sb_counts_mirrors s :
  zlen (s_beamfs_sb (s_super s)) = 4096 -> 0 <= s_free_blocks s < 2 ^ 64 -> sb_mirrors (sb_counts t cpu s).
Proof.
  intros Hz Hr. unfold sb_mirrors, sb_counts. cbn [s_super with_super s_free_blocks].
  set (f := put_le64 _ _ _). assert (Hf : zlen f = 4096).
  { unfold f, put_le64. change off_s_free_blocks with 16. rewrite zlen_splice; rewrite ?zlen_le_bytes; lia. }
  destruct (dirty_super_sb t cpu (set_sb (s_super s) f) Hf) as [Hl Hg]. split; [done|].
  transitivity (get_le64 f off_s_free_blocks).
  - unfold get_le64. f_equal. change off_s_free_blocks with 16.
    apply bytes_ext; [rewrite !zlen_slice; lia|]. rewrite zlen_slice by lia. intros a Ha.
    rewrite !getb_slice by lia. apply Hg; lia.
  - apply get_put_le64; change off_s_free_blocks with 16; lia.
Qed.

(** ** Writing back the codeword of a changed bit *)

(** The fields a write-back leaves alone. *)
Record frame (s s' : sbi) : Prop := {
  fr_nblocks : s_nblocks s' = s_nblocks s;
  fr_data : s_data_start s' = s_data_start s;
  fr_bits : s_block_bitmap s' = s_block_bitmap s;
  fr_goal : s_alloc_goal s' = s_alloc_goal s;
  fr_free : s_free_blocks s' = s_free_blocks s;
  fr_list : s_rsv_windows s' = s_rsv_windows s;
  fr_win : forall o, same_win (ii s o) (ii s' o);
  fr_sb : s_beamfs_sb (s_super s') = s_beamfs_sb (s_super s) }.

Lemma frame_refl s : frame s s.
Proof. split; [done..| |done]. intros o. by split_and!. Qed.

Lemma frame_only s s' : only_inodes s s' -> frame s s'.
Proof. intros [E H]. split; [by rewrite E..|done|by rewrite E]. Qed.

Lemma write_frame s bit owner : frame s (snd (beamfs_write_bitmap_block t cpu s bit owner)).
Proof.
  unfold beamfs_write_bitmap_block.
  repeat match goal with
  | |- frame ?s (snd (_, ?s)) => apply frame_refl
  | |- context [if ?c then _ else _] => destruct c
  | |- context [match ?c with _ => _ end] => destruct c; try by apply frame_refl
  end; try apply frame_refl; cbn [snd].
  all: try (split; [done..| |done]; intros o; by split_and!).
  all: match goal with |- frame _ (dirty_owner ?s0 _) => destruct (dirty_owner_only s0 owner) as [E H] end.
  all: split; [by rewrite E..|exact H|by rewrite E].
Qed.

(** The codeword of the changed bit is encoded again: the image is the
    image of the new bitmap. *)
Lemma write_image s bits x bit owner :
  bits_for (s_nblocks s) bits -> is_byte x -> 0 <= bit < s_nblocks s ->
  s_block_bitmap s = Some (setb bits (bit / 8) x) -> image_ok s bits ->
  image_ok (snd (beamfs_write_bitmap_block t cpu s bit owner)) (setb bits (bit / 8) x).
Proof.
  intros Hb Hx Hbit HB (bhs & Hbhs & Him). unfold beamfs_write_bitmap_block.
  destruct (bit_codeword bit ltac:(lia)) as (Hk & Hi & Hle & _).
  destruct (beamfs_failed s) eqn:F.
  { exists bhs. split; [done|]. intros k Hk0 Hkn. destruct (Him k Hk0 Hkn) as (A & B & bh & C & _).
    split_and!; [done..|]. exists bh. split; [done|]. intros F'. cbn in F'. congruence. }
  rewrite Hbhs, HB. destruct (Z.leb_spec (s_nblocks s) bit); [lia|].
  change BEAMFS_BITS_PER_BITMAP_BLOCK with 30592 in *. change (BEAMFS_SUBBLOCK_DATA * 8) with 1912.
  set (kb := bit / 30592) in *. destruct (Him kb Hk ltac:(lia)) as (Hc & Hlen & bh & Hn & Hi').
  destruct (Z.leb_spec (s_bitmap_blocks_count s) kb); [lia|]. rewrite Hn.
  destruct (b_uptodate bh) eqn:U; cbn [negb].
  2:{ exists bhs. split; [done|]. intros k Hk0 Hkn. destruct (Him k Hk0 Hkn) as (A & B & bh' & C & _).
      split_and!; [done..|]. exists bh'. split; [done|]. done. }
  cbn [snd]. set (s1 := with_buffers _ _ _). destruct (dirty_owner_only s1 owner) as [-> _].
  eexists. split; [done|]. cbn [with_windows with_buffers s_nblocks s_bitmap_blocks_count s1].
  intros k Hk0 Hkn. destruct (Him k Hk0 Hkn) as (A & B & bh' & C & D).
  split; [done|]. split; [by rewrite length_insert|]. destruct (decide (k = kb)) as [->|Hne].
  - eexists. rewrite nth_insert_eq by done. split; [done|]. cbn [b_data]. intros _ _.
    apply (image_update t cpu Hctrl (s_nblocks s)); [done..|]. by apply Hi'.
  - exists bh'. rewrite nth_insert_ne by lia. split; [done|]. intros F' U'.
    apply image_other; [done|done|lia|done|]. by apply D.
Qed.

(** ** A changed bit, counted and written back *)

(** The tail shared by beamfs_alloc_block and beamfs_free_block. *)
Definition commit (s : sbi) (goal : Z) (bits : list Z) (free : Z) (owner : option Z) (d : Z)
    (fg : list Z) (bit : Z) : sbi :=
  snd (beamfs_write_bitmap_block t cpu
    (with_forgotten (add_bytes (sb_counts t cpu (with_free_blocks (with_bits (with_goal s goal) bits) free))
       owner d) fg) bit owner).

Lemma image_ok_ext s s' bits :
  s_bitmap_blkhs s' = s_bitmap_blkhs s -> s_nblocks s' = s_nblocks s ->
  s_bitmap_blocks_count s' = s_bitmap_blocks_count s -> (beamfs_failed s' = false -> beamfs_failed s = false) ->
  image_ok s bits -> image_ok s' bits.
Proof.
  intros E1 E2 E3 E4 (bhs & Hb & H). exists bhs. rewrite E1, E2, E3. split; [done|].
  intros k Hk Hn. destruct (H k Hk Hn) as (A & B & bh & C & D). split_and!; [done..|]. exists bh. auto.
Qed.

Lemma dirty_super_failed sp : s_failed (beamfs_dirty_super t cpu sp) = false -> s_failed sp = false.
Proof.
  unfold beamfs_dirty_super, beamfs_dirty_super_now. change (s_failed (clear_needs_encode sp)) with (s_failed sp).
  destruct (s_failed sp) eqn:E; [|done]. change (s_failed (clear_needs_encode sp)) with (s_failed sp). congruence.
Qed.

Lemma commit_inv s goal bits x free owner d fg bit :
  bits_for (s_nblocks s) bits -> 0 < s_data_start s -> s_data_start s + s_nblocks s < 2 ^ 64 ->
  windows_ok s -> image_ok s bits -> zlen (s_beamfs_sb (s_super s)) = 4096 ->
  is_byte x -> 0 <= bit < s_nblocks s -> 0 <= goal ->
  free = free_count (setb bits (bit / 8) x) (s_nblocks s) ->
  let s' := commit s goal (setb bits (bit / 8) x) free owner d fg bit in
  alloc_inv s' (setb bits (bit / 8) x) /\ s_nblocks s' = s_nblocks s /\ s_data_start s' = s_data_start s /\
  s_alloc_goal s' = goal /\ s_rsv_windows s' = s_rsv_windows s /\ (forall o, same_win (ii s o) (ii s' o)).
Proof.
  intros Hb Hd Hw Hwin Him Hsb Hx Hbit Hg Hf s'. unfold s', commit.
  set (s2 := with_free_blocks (with_bits (with_goal s goal) _) free).
  set (s3 := sb_counts t cpu s2). destruct (add_bytes_only s3 owner d) as [E4 W4].
  set (s4 := add_bytes s3 owner d) in *. set (s5 := with_forgotten s4 fg).
  pose proof (write_frame s5 bit owner) as [F1 F2 F3 F4 F5 F6 F7 F8].
  assert (Hn5 : s_nblocks s5 = s_nblocks s) by (unfold s5; rewrite E4; done).
  assert (W5 : forall o, same_win (ii s o) (ii s5 o)) by exact W4.
  pose proof (free_count_range (setb bits (bit / 8) x) (s_nblocks s) ltac:(lia)) as Hr.
  assert (M3 : sb_mirrors s3) by (apply sb_counts_mirrors; [done|cbn; lia]).
  assert (I5 : image_ok s5 bits).
  { apply (image_ok_ext s); [by unfold s5; rewrite E4..| |done].
    unfold s5. rewrite E4. unfold beamfs_failed, s3, sb_counts. cbn. intros ?%dirty_super_failed. done. }
  assert (Iw : image_ok (snd (beamfs_write_bitmap_block t cpu s5 bit owner)) (setb bits (bit / 8) x)).
  { apply write_image; rewrite ?Hn5; [done..| |done]. unfold s5. rewrite E4. done. }
  assert (Wf : windows_ok (snd (beamfs_write_bitmap_block t cpu s5 bit owner))).
  { apply (windows_ok_ext s5); [done..|]. by apply (windows_ok_ext s). }
  set (s6 := snd _) in *.
  assert (P5 : s_block_bitmap s5 = Some (setb bits (bit / 8) x) /\ s_data_start s5 = s_data_start s /\
    s_alloc_goal s5 = goal /\ s_free_blocks s5 = free /\ s_rsv_windows s5 = s_rsv_windows s /\
    s_super s5 = s_super s3) by (unfold s5; rewrite E4; done).
  destruct P5 as (P1 & P2 & P3 & P4 & P6 & P7).
  assert (W6 : forall o, same_win (ii s o) (ii s6 o)).
  { intros o. destruct (W5 o) as (? & ? & ? & ? & ?), (F7 o) as (? & ? & ? & ? & ?). split_and!; congruence. }
  assert (M6 : sb_mirrors s6).
  { unfold sb_mirrors. rewrite F8, F5, P4, P7. exact M3. }
  assert (Hb' : bits_for (s_nblocks s) (setb bits (bit / 8) x)) by (by apply bits_for_setb).
  split; [split|]; rewrite ?F1, ?F2, ?F3, ?F4, ?F5, ?F6, ?Hn5, ?P1, ?P2, ?P3, ?P4, ?P6; done.
Qed.

(** ** beamfs_alloc_block *)

(** The search of beamfs_alloc_block. *)
Definition pick (s : sbi) (bits : list Z) (owner : option Z) : Z * sbi :=
  match owner with
  | Some ino => beamfs_rsv_alloc_locked s bits ino
  | None => (find2 s bits None (s_alloc_goal s), s)
  end.

Lemma pick_spec s bits owner :
  0 <= s_nblocks s -> 0 <= s_alloc_goal s -> windows_ok s ->
  let '(bit, s') := pick s bits owner in
  0 <= bit <= s_nblocks s /\ (bit < s_nblocks s -> test_bit bits bit = true) /\
  (forall j, 0 <= j < s_nblocks s -> test_bit bits j = true -> bit < s_nblocks s) /\
  same_but_windows s s' /\ windows_ok s'.
Proof.
  intros Hn Hg Hw. destruct owner as [ino|]; cbn [pick]; [by apply rsv_alloc_spec|].
  destruct (find2_spec s bits None (s_alloc_goal s) Hn Hg) as [A B C _].
  split_and!; [lia|lia|done|done| |done]. exists (s_rsv_windows s), (s_inodes s). by destruct s.
Qed.

Lemma alloc_block_eq s bits owner :
  s_block_bitmap s = Some bits -> beamfs_failed s = false -> s_free_blocks s <> 0 ->
  beamfs_alloc_block t cpu s owner =
  let '(bit, s1) := pick s bits owner in
  if s_nblocks s1 <=? bit then (0, s1)
  else
    let s' := commit s1 (if s_nblocks s1 <=? bit + 1 then 0 else bit + 1) (clear_bit bits bit)
                (u64 (s_free_blocks s1 - 1)) owner BEAMFS_BLOCK_SIZE (s_tc_forgotten s1) bit in
    (s_data_start s' + bit, s').
Proof.
  intros HB F N. unfold beamfs_alloc_block. rewrite F, HB.
  destruct (Z.eqb_spec (s_free_blocks s) 0); [done|].
  change (match owner with Some ino => beamfs_rsv_alloc_locked s bits ino | None => _ end) with (pick s bits owner).
  destruct (pick s bits owner) as [bit s1]. destruct (_ <=? bit); [done|].
  unfold commit. cbn [s_free_blocks with_bits with_goal].
  set (s4 := add_bytes _ _ _).
  assert (E : with_forgotten s4 (s_tc_forgotten s1) = s4).
  { unfold s4. destruct (add_bytes_only (sb_counts t cpu (with_free_blocks (with_bits
      (with_goal s1 (if s_nblocks s1 <=? bit + 1 then 0 else bit + 1)) (clear_bit bits bit))
      (u64 (s_free_blocks s1 - 1)))) owner BEAMFS_BLOCK_SIZE) as [-> _]. done. }
  rewrite E. destruct (beamfs_write_bitmap_block _ _ _ _ _); done.
Qed.
End steps.
