(* ===== verification/AllocTheorems.v ===== *)
(** * Correctness of the block allocator *)

From stdpp Require Import gmap.
From S2P Require Import Prelude Format Crc RsInit GF RsTheory RsCode RsCorrect RsDecode RsLib Edac EdacWord EdacBlock EdacLayouts EdacTheorems Dirent Super SuperTheorems Alloc AllocBits AllocImage AllocInv.

(** A block of the data zone. *)
Definition in_volume (s : sbi) (b : Z) : Prop := s_data_start s <= b < s_data_start s + s_nblocks s.

Section ops.
Context `{RL : !RsLib} `{RS : !RsLibSpec} `{CL : !CrcLib} (t : rs_tables) (cpu : nat).
Context (Hctrl : ctrl_here t cpu = true).

Definition alloc_ok (s : sbi) : Prop := exists bits, alloc_inv s bits.

(** The volume is the same; block [b] alone became [v]. *)
Definition only_block (s s' : sbi) (b : Z) (v : bool) : Prop :=
  s_nblocks s' = s_nblocks s /\ s_data_start s' = s_data_start s /\
  forall c, beamfs_block_is_allocated s' c = if decide (c = b) then v else beamfs_block_is_allocated s c.

Definition same_blocks (s s' : sbi) : Prop :=
  s_nblocks s' = s_nblocks s /\ s_data_start s' = s_data_start s /\
  forall c, beamfs_block_is_allocated s' c = beamfs_block_is_allocated s c.

Lemma is_allocated_eq s bits b :
  s_block_bitmap s = Some bits ->
  beamfs_block_is_allocated s b =
    if b <? s_data_start s then true
    else if s_nblocks s <=? b - s_data_start s then false else negb (test_bit bits (b - s_data_start s)).
Proof. intros H. unfold beamfs_block_is_allocated. by rewrite H. Qed.

Lemma in_bits_for n bits i : bits_for n bits -> 0 <= i < n -> in_bits bits i.
Proof. intros [_ H] Hi. unfold in_bits. lia. Qed.

Lemma only_block_bit s s' bits bits' bit v :
  alloc_inv s bits -> s_block_bitmap s' = Some bits' -> s_nblocks s' = s_nblocks s ->
  s_data_start s' = s_data_start s -> 0 <= bit < s_nblocks s ->
  (forall j, 0 <= j -> test_bit bits' j = if decide (bit = j) then negb v else test_bit bits j) ->
  only_block s s' (s_data_start s + bit) v.
Proof.
  intros [HB _ _ _ _ _ _ _ _] HB' En Ed Hbit Ht. split_and!; [done..|]. intros c.
  rewrite (is_allocated_eq s bits c HB), (is_allocated_eq s' bits' c HB'), En, Ed.
  destruct (Z.ltb_spec c (s_data_start s)); [by rewrite decide_False by lia|].
  destruct (Z.leb_spec (s_nblocks s) (c - s_data_start s)); [by rewrite decide_False by lia|].
  rewrite Ht by lia. destruct (decide (c = s_data_start s + bit)).
  - rewrite decide_True by lia. by destruct v.
  - by rewrite decide_False by lia.
Qed.

Lemma alloc_inv_windows s bits w m :
  alloc_inv s bits -> windows_ok (with_windows s w m) -> alloc_inv (with_windows s w m) bits.
Proof. intros [] Hw. split; done. Qed.

Lemma no_free_block s bits :
  alloc_inv s bits -> s_free_blocks s = 0 -> forall c, in_volume s c -> beamfs_block_is_allocated s c = true.
Proof.
  intros [HB _ _ _ Hf _ _ _ _] H0 c [Hc1 Hc2]. rewrite (is_allocated_eq s bits c HB).
  destruct (Z.ltb_spec c (s_data_start s)); [lia|]. destruct (Z.leb_spec (s_nblocks s) (c - s_data_start s)); [lia|].
  destruct (test_bit bits (c - s_data_start s)) eqn:E; [|done]. exfalso.
  apply (free_count_pos bits (s_nblocks s)); [|congruence]. exists (c - s_data_start s). split; [lia|done].
Qed.

Lemma alloc_block_spec s bits owner :
  alloc_inv s bits ->
  let '(b, s') := beamfs_alloc_block t cpu s owner in
  (b = 0 /\ alloc_ok s' /\ same_blocks s s' /\
   (beamfs_failed s = true \/ forall c, in_volume s c -> beamfs_block_is_allocated s c = true)) \/
  (in_volume s b /\ beamfs_block_is_allocated s b = false /\ beamfs_failed s = false /\
   alloc_ok s' /\ only_block s s' b true).
Proof.
  intros Hinv. pose proof Hinv as [HB Hbf Hd Hw Hf Hg Hwin Him [Hsb _]].
  destruct (beamfs_failed s) eqn:F.
  { unfold beamfs_alloc_block. rewrite F. left. split_and!; [done|by exists bits|done..|by left]. }
  destruct (decide (s_free_blocks s = 0)) as [E0|E0].
  { unfold beamfs_alloc_block. rewrite F, HB. destruct (Z.eqb_spec (s_free_blocks s) 0); [|done].
    left. split_and!; [done|by exists bits|done..|]. right. by eapply no_free_block. }
  rewrite (alloc_block_eq t cpu s bits owner HB F E0).
  pose proof (pick_spec s bits owner ltac:(destruct Hbf; lia) Hg Hwin) as P.
  destruct (pick s bits owner) as [bit s1]. destruct P as (Hr & Hfree & Hsome & (w & m & ->) & Hwin1).
  cbn [s_nblocks with_windows s_free_blocks s_tc_forgotten] in *.
  assert (Hfound : bit < s_nblocks s).
  { rewrite Hf in E0. apply free_count_pos in E0 as (i & Hi & Hti). by apply (Hsome i). }
  destruct (Z.leb_spec (s_nblocks s) bit); [lia|].
  specialize (Hfree Hfound). pose proof Hbf as [Bb Hlen].
  pose proof (free_count_range bits (s_nblocks s) ltac:(lia)) as Hc.
  pose proof (in_bits_for _ _ bit Hbf ltac:(lia)) as Hin.
  set (g := if s_nblocks s <=? bit + 1 then 0 else bit + 1).
  assert (Hg' : 0 <= g) by (unfold g; destruct (Z.leb_spec (s_nblocks s) (bit + 1)); lia).
  assert (Hcnt : u64 (s_free_blocks s - 1) = free_count (clear_bit bits bit) (s_nblocks s)).
  { rewrite free_count_clear by (done || lia). rewrite Hf in *. unfold u64. apply Z.mod_small. lia. }
  destruct (commit_inv t cpu Hctrl (with_windows s w m) g bits _ (u64 (s_free_blocks s - 1)) owner BEAMFS_BLOCK_SIZE
    (s_tc_forgotten s) bit Hbf Hd Hw Hwin1 Him Hsb (is_byte_clear bits bit Bb) ltac:(cbn; lia) Hg' Hcnt)
    as (Hinv' & En & Ed & _).
  change (setb bits (bit / 8) _) with (clear_bit bits bit) in *. cbv zeta. set (s' := commit _ _ _ _ _ _ _ _ _ _) in *.
  cbn [s_nblocks s_data_start with_windows] in En, Ed. right.
  rewrite Ed. split_and!.
  - unfold in_volume. lia.
  - rewrite (is_allocated_eq s bits _ HB). destruct (Z.ltb_spec (s_data_start s + bit) (s_data_start s)); [lia|].
    replace (s_data_start s + bit - s_data_start s) with bit by lia.
    destruct (Z.leb_spec (s_nblocks s) bit); [lia|]. by rewrite Hfree.
  - done.
  - by exists (clear_bit bits bit).
  - apply (only_block_bit s s' bits (clear_bit bits bit)); [done|apply Hinv'|done|done|lia|].
    intros j Hj. by apply test_clear_bit.
Qed.

Lemma free_block_spec s bits block owner :
  alloc_inv s bits ->
  let s' := beamfs_free_block t cpu s block owner in
  (s' = s /\ (beamfs_failed s = true \/ ~ in_volume s block \/ beamfs_block_is_allocated s block = false)) \/
  (in_volume s block /\ beamfs_block_is_allocated s block = true /\ beamfs_failed s = false /\
   alloc_ok s' /\ only_block s s' block false).
Proof.
  intros Hinv. pose proof Hinv as [HB Hbf Hd Hw Hf Hg Hwin Him [Hsb _]]. pose proof Hbf as [Bb Hlen].
  unfold beamfs_free_block. destruct (beamfs_failed s) eqn:F; [left; tauto|].
  destruct (Z.ltb_spec block (s_data_start s)); [left; unfold in_volume; split; [done|right; left; lia]|].
  destruct (Z.leb_spec (s_nblocks s) (block - s_data_start s));
    [left; unfold in_volume; split; [done|right; left; lia]|].
  rewrite HB. set (bit := block - s_data_start s) in *.
  assert (Ha : beamfs_block_is_allocated s block = negb (test_bit bits bit)).
  { rewrite (is_allocated_eq s bits block HB). destruct (Z.ltb_spec block (s_data_start s)); [lia|].
    fold bit. destruct (Z.leb_spec (s_nblocks s) bit); [lia|done]. }
  rewrite Ha. destruct (test_bit bits bit) eqn:T; [left; tauto|]. right.
  set (g := if bit <? s_alloc_goal s then bit else s_alloc_goal s).
  assert (Hg' : 0 <= g) by (unfold g; destruct (Z.ltb_spec bit (s_alloc_goal s)); lia).
  pose proof (in_bits_for _ _ bit Hbf ltac:(lia)) as Hin.
  assert (Hcnt : u64 (s_free_blocks s + 1) = free_count (set_bit bits bit) (s_nblocks s)).
  { pose proof (free_count_set bits (s_nblocks s) bit ltac:(lia) Hin T) as E.
    pose proof (free_count_range (set_bit bits bit) (s_nblocks s) ltac:(lia)).
    rewrite E in *. rewrite Hf. unfold u64. apply Z.mod_small. lia. }
  destruct (commit_inv t cpu Hctrl s g bits _ (u64 (s_free_blocks s + 1)) owner (- BEAMFS_BLOCK_SIZE)
    (block :: s_tc_forgotten s) bit Hbf Hd Hw Hwin Him Hsb (is_byte_set bits bit ltac:(lia) Bb) ltac:(lia) Hg' Hcnt)
    as (Hinv' & En & Ed & _).
  change (setb bits (bit / 8) _) with (set_bit bits bit) in *.
  match goal with |- context [snd (beamfs_write_bitmap_block t cpu ?a bit owner)] =>
    assert (Es : snd (beamfs_write_bitmap_block t cpu a bit owner) =
      commit t cpu s g (set_bit bits bit) (u64 (s_free_blocks s + 1)) owner (- BEAMFS_BLOCK_SIZE)
        (block :: s_tc_forgotten s) bit) end.
  { unfold commit. cbn [s_free_blocks with_bits with_goal s_alloc_goal]. fold g. do 2 f_equal.
    match goal with |- with_forgotten ?a _ = _ => set (s4 := a) end.
    assert (E4 : s_tc_forgotten s4 = s_tc_forgotten s).
    { unfold s4. destruct (add_bytes_only (sb_counts t cpu (with_free_blocks (with_bits (with_goal s g)
        (set_bit bits bit)) (u64 (s_free_blocks s + 1)))) owner (- BEAMFS_BLOCK_SIZE)) as [-> _]. done. }
    by rewrite E4. }
  rewrite Es. split_and!.
  - unfold in_volume, bit in *. lia.
  - done.
  - done.
  - by exists (set_bit bits bit).
  - pose proof (only_block_bit s _ bits (set_bit bits bit) bit false Hinv (ai_bits _ _ Hinv') En Ed ltac:(lia)
      (fun j Hj => test_set_bit bits bit j Hin Hj)) as O.
    by replace (s_data_start s + bit) with block in O by lia.
Qed.
End ops.

(** ** Reading the block bitmap back at mount *)

(** The first [g] bits of the volume have been read. *)
Record loaded (n : Z) (bits : list Z) (g : Z) (acc : list Z) : Prop := {
  ld_len : n <= 8 * zlen acc;
  ld_bits : forall j, 0 <= j < g -> test_bit acc j = test_bit bits j }.

Lemma in_bits_copy acc i v j : in_bits acc j -> in_bits (copy_bit acc i v) j.
Proof. unfold in_bits, copy_bit. destruct v; by rewrite ?zlen_set_bit, ?zlen_clear_bit. Qed.

Lemma test_copy_bit acc i v j :
  in_bits acc i -> 0 <= j -> test_bit (copy_bit acc i v) j = if decide (i = j) then v else test_bit acc j.
Proof. intros Hi Hj. unfold copy_bit. destruct v; [by apply test_set_bit|by apply test_clear_bit]. Qed.

Lemma zlen_copy_bit acc i v : zlen (copy_bit acc i v) = zlen acc.
Proof. unfold copy_bit. destruct v; [apply zlen_set_bit|apply zlen_clear_bit]. Qed.

(** One codeword's bits. *)
Lemma load_sub_spec n bits g acc sub :
  0 <= g <= n -> loaded n bits g acc ->
  (forall b, 0 <= b < 1912 -> g + b < n -> test_bit sub b = test_bit bits (g + b)) ->
  let '(acc', g') := load_sub n (acc, g) sub in g' = Z.min n (g + 1912) /\ loaded n bits g' acc'.
Proof.
  intros Hg [Hl Hb] Hs. cbn [load_sub]. change (BEAMFS_SUBBLOCK_DATA * 8) with 1912.
  set (m := Z.max 0 (Z.min 1912 (n - g))). assert (Hm : 0 <= m <= 1912 /\ g + m <= n) by lia.
  split; [lia|].
  set (P := fun i a => zlen a = zlen acc /\ loaded n bits (g + i) a).
  enough (G : P m (foldl (fun bits b => copy_bit bits (g + b) (test_bit sub b)) acc (upto m))) by apply G.
  apply (foldl_upto_ind _ P); [lia| |].
  - split; [done|]. rewrite Z.add_0_r. by split.
  - intros i a Hi [Hz [Ha Hab]]. split; [by rewrite zlen_copy_bit|]. split; [by rewrite zlen_copy_bit|].
    intros j Hj. rewrite test_copy_bit by (unfold in_bits; lia). destruct (decide (g + i = j)) as [<-|].
    + apply Hs; lia.
    + apply Hab. lia.
Qed.

(** One bitmap block, as the decoder left it. *)
Lemma load_block_spec n bits k acc fixed :
  bits_for n bits -> 0 <= k -> k * 30592 < n -> zlen fixed = 4096 ->
  (forall i, 0 <= i < 16 -> cw_data LB fixed i = sub_data n bits k i) ->
  loaded n bits (k * 30592) acc ->
  let '(acc', g') := load_block n (acc, k * 30592) fixed in
  g' = Z.min n ((k + 1) * 30592) /\ loaded n bits g' acc'.
Proof.
  intros Hb Hk Hkn Hz Hd Hl. unfold load_block. change BEAMFS_BITMAP_SUBBLOCKS with 16.
  change BEAMFS_SUBBLOCK_TOTAL with 255. change BEAMFS_SUBBLOCK_DATA with 239.
  set (P := fun i (st : list Z * Z) => snd st = Z.min n (k * 30592 + i * 1912) /\ loaded n bits (snd st) (fst st)).
  assert (G : P 16 (foldl (fun st i => load_sub n st (slice fixed (i * 255) 239)) (acc, k * 30592) (upto 16))).
  { apply (foldl_upto_ind _ P); [lia| |].
    - unfold P. cbn [fst snd]. split; [lia|done].
    - intros i [a g] Hi [Hg Ha]. cbn [fst snd] in *.
      pose proof (load_sub_spec n bits g a (slice fixed (i * 255) 239) ltac:(destruct Hb; lia) Ha) as S.
      assert (Hsub : forall b, 0 <= b < 1912 -> g + b < n -> test_bit (slice fixed (i * 255) 239) b = test_bit bits (g + b)).
      { intros b Hb1 Hb2. pose proof (region_data 4096 0 255 239 255 239 16 fixed i Hz Hi) as E.
        rewrite Z.add_0_l in E. rewrite E, Hd by done. rewrite test_sub_data by (done || lia). f_equal. lia. }
      specialize (S Hsub). destruct (load_sub _ _ _) as [a' g']. unfold P. cbn [fst snd].
      destruct S as [S1 S2]. split; [lia|done]. }
  destruct (foldl _ _ _) as [a' g']. destruct G as [G1 G2]. cbn [fst snd] in *. split; [lia|done].
Qed.

Section remount.
Context `{RL : !RsLib} `{RS : !RsLibSpec} `{RB : !RsLibBounded} `{CL : !CrcLib} (t : rs_tables) (cpu : nat).
Context (Hctrl : ctrl_here t cpu = true) (env : mount_env).

(** What the medium holds of bitmap block [k]: the image, with at most
    eight damaged bytes in each codeword. *)
Definition readable (n : Z) (bits : list Z) (bm k : Z) : Prop :=
  exists img img', image_of n bits k img /\ me_read env (bm + k) = Some img' /\
    bytes img' /\ zlen img' = 4096 /\ forall i, 0 <= i < 16 -> damage LB img img' i <= 8.

Lemma load_bitmap_block_spec n bits bm k ls :
  bits_for n bits -> 0 <= k -> (k * 30592 < n -> readable n bits bm k) ->
  ls_bit_global ls = Z.min n (k * 30592) -> loaded n bits (ls_bit_global ls) (ls_bits ls) ->
  exists ls', load_bitmap_block t cpu env bm n (inl ls) k = inl ls' /\
    ls_bit_global ls' = Z.min n ((k + 1) * 30592) /\ loaded n bits (ls_bit_global ls') (ls_bits ls').
Proof.
  intros Hb Hk Hr Hg Hl. cbn [load_bitmap_block]. destruct (Z.leb_spec n (ls_bit_global ls)).
  { exists ls. split_and!; [done|lia|done]. }
  destruct Hr as (img & img' & Him & -> & Bi & Hz & Hdm); [lia|].
  destruct (image_encoded n bits k img Hb Hk Him) as [En Hcw].
  change (beamfs_rs_decode_region t cpu img' _ _ _ _ _ _ _) with
    (beamfs_rs_decode_region t cpu img' 0 255 239 255 239 16 (Some 8)).
  destruct (decode_region_restores t cpu Hctrl 4096 0 255 239 255 239 16 img img img' (Some 8)
    ltac:(intros m [= <-]; lia) (im_len _ _ _ _ Him) (im_bytes _ _ _ _ Him) En Bi Hz Hdm)
    as (fixed & De & _ & Hfix & ->).
  pose proof (load_block_spec n bits k (ls_bits ls) fixed Hb Hk ltac:(lia) (de_len _ _ _ _ _ _ De)) as S.
  assert (Hc2 : forall i, 0 <= i < 16 -> cw_data LB fixed i = sub_data n bits k i).
  { intros i Hi. rewrite Hfix by done. by apply Hcw. }
  assert (Hgk : ls_bit_global ls = k * 30592) by lia. rewrite Hgk in *. specialize (S Hc2 Hl).
  destruct (load_block n (ls_bits ls, k * 30592) fixed) as [acc g]. destruct S as [S1 S2].
  eexists. split; [reflexivity|]. cbn [ls_bit_global ls_bits]. done.
Qed.

Lemma load_bitmap_spec n bits bm count bhs :
  bits_for n bits -> 0 < n -> 0 <= count -> n <= count * 30592 ->
  (forall k, 0 <= k -> k * 30592 < n -> readable n bits bm k) ->
  exists ls, foldl (load_bitmap_block t cpu env bm n)
      (inl (LoadState (zeros (bitmap_bytes n)) 0 bhs [] [])) (upto count) = inl ls /\
    loaded n bits n (ls_bits ls).
Proof.
  intros Hb Hn Hc Hcov Hr.
  set (P := fun k (st : load_state + load_state) => exists ls, st = inl ls /\ ls_bit_global ls = Z.min n (k * 30592) /\
              loaded n bits (ls_bit_global ls) (ls_bits ls)).
  assert (G : P count (foldl (load_bitmap_block t cpu env bm n)
      (inl (LoadState (zeros (bitmap_bytes n)) 0 bhs [] [])) (upto count))).
  { apply (foldl_upto_ind _ P); [done| |].
    - eexists. split; [done|]. cbn [ls_bit_global ls_bits]. split; [lia|]. split; [|lia].
      unfold bitmap_bytes. pose proof (Z.div_mod (n + 63) 64 ltac:(lia)).
      pose proof (Z.mod_pos_bound (n + 63) 64 ltac:(lia)). rewrite zlen_zeros by lia. lia.
    - intros k st Hk (ls & -> & Hg & Hl). apply load_bitmap_block_spec; [done|lia| |done|done].
      intros Hkn. apply Hr; lia. }
  destruct G as (ls & E & Hg & Hl). exists ls. split; [done|]. replace n with (ls_bit_global ls) at 2 by lia. done.
Qed.
End remount.
