(* ===== verification/AllocProps.v ===== *)
(** * What the allocator promises *)

From stdpp Require Import gmap.
From S2P Require Import Prelude Format Crc RsInit GF RsTheory RsCode RsCorrect RsDecode RsLib RsComplete Edac EdacWord EdacBlock EdacLayouts EdacTheorems Dirent Super SuperTheorems Alloc AllocBits AllocImage AllocInv AllocTheorems.

(** ** A small volume *)

Definition ex_bits : list Z := [0; 255; 254; 0; 0; 0; 0; 0].

Definition ex_img : list Z :=
  Eval vm_compute in beamfs_bitmap_encode_one_locked ex_tables 0 24 ex_bits 0 (zeros 4096).

Definition ex_vol_sb : list Z :=
  put_le64 (put_le64 (put_le64 (put_le64 (put_le32 ex_sb off_s_flags 0)
    off_s_block_count 34) off_s_data_start_blk 10) off_s_bitmap_blk 5) off_s_free_blocks 15.

(** 24 blocks from block 10 on, blocks 0 to 7 and 16 of them in use. *)
Definition ex_vol : sbi :=
  Sbi 24 10 (Some ex_bits) 1 (Some [Some (Buffer ex_img true false)]) (Some [false]) 0 15
    None 0 0 [] ∅ (Super ex_vol_sb (Buffer (zeros 4096) true false) true false false) [].

Lemma ex_vol_inv : alloc_inv ex_vol ex_bits.
Proof.
  assert (Hb : bits_for 24 ex_bits) by (split; [by apply bytes_check|by vm_compute]).
  assert (Hi : image_of 24 ex_bits 0 ex_img).
  { assert (E : ex_img = beamfs_bitmap_encode_one_locked ex_tables 0 24 ex_bits 0 (zeros 4096)) by (by vm_compute).
    rewrite E. by apply image_full. }
  split; [done|done|done|done|by vm_compute|done| | |].
  - intros o. unfold ii. cbn [ex_vol s_inodes]. rewrite lookup_empty. by apply window_ok_init.
  - eexists. split; [reflexivity|]. intros k Hk Hn. change BEAMFS_BITS_PER_BITMAP_BLOCK with 30592 in Hn.
    cbn [ex_vol s_nblocks s_bitmap_blocks_count] in *. assert (k = 0) as -> by lia. split_and!; [lia|cbn; lia|].
    by eexists.
  - split; by vm_compute.
Qed.

(** ** Allocation and release *)

(** C3: beamfs_alloc_block keeps the allocator's invariant; it returns 0
    exactly when the filesystem has failed or no block of the data zone is
    free, and then allocates nothing; any other result is a block of the
    data zone that was free, that is now allocated, and the only block whose
    state changed. *)
Theorem alloc_block_correct `{RL : !RsLib} `{RS : !RsLibSpec} `{CL : !CrcLib} t cpu s owner :
  ctrl_here t cpu = true -> alloc_ok s ->
  let '(b, s') := beamfs_alloc_block t cpu s owner in
  alloc_ok s' /\
  (b = 0 <-> beamfs_failed s = true \/ forall c, in_volume s c -> beamfs_block_is_allocated s c = true) /\
  (b = 0 -> same_blocks s s') /\
  (b <> 0 -> in_volume s b /\ beamfs_block_is_allocated s b = false /\ only_block s s' b true).
Proof.
  intros Hctrl [bits Hinv]. pose proof (alloc_block_spec t cpu Hctrl s bits owner Hinv) as H.
  destruct (beamfs_alloc_block t cpu s owner) as [b s']. destruct H as [(-> & H1 & H2 & H3)|(H1 & H2 & H3 & H4 & H5)].
  - split_and!; [done..|]. done.
  - pose proof (ai_data _ _ Hinv). assert (b <> 0) by (unfold in_volume in H1; lia).
    split_and!; [done| |done|done]. split; [done|]. intros [F|F]; [congruence|]. rewrite F in H2; done.
Qed.

Lemma alloc_block_correct_witness : exists b s',
  beamfs_alloc_block ex_tables 0 ex_vol (Some 7) = (b, s') /\ b <> 0 /\ only_block ex_vol s' b true.
Proof.
  pose proof (alloc_block_correct ex_tables 0 ex_vol (Some 7) eq_refl (ex_intro _ _ ex_vol_inv)) as H.
  assert (E : fst (beamfs_alloc_block ex_tables 0 ex_vol (Some 7)) = 18) by (by vm_compute).
  destruct (beamfs_alloc_block ex_tables 0 ex_vol (Some 7)) as [b s']. cbn [fst] in E.
  destruct H as (_ & _ & _ & H). exists b, s'. split_and!; [done|rewrite E; done|]. apply H. rewrite E. done.
Defined.

(** Beamfs_free_block releases an allocated block of the data zone and
    nothing else; on a failed filesystem, outside the data zone or on a
    block already free it changes nothing.  The invariant is kept. *)
Theorem free_block_correct `{RL : !RsLib} `{RS : !RsLibSpec} `{CL : !CrcLib} t cpu s block owner :
  ctrl_here t cpu = true -> alloc_ok s ->
  let s' := beamfs_free_block t cpu s block owner in
  alloc_ok s' /\
  (beamfs_failed s = false -> in_volume s block -> beamfs_block_is_allocated s block = true ->
     only_block s s' block false) /\
  (beamfs_failed s = true \/ ~ in_volume s block \/ beamfs_block_is_allocated s block = false -> s' = s).
Proof.
  intros Hctrl [bits Hinv]. cbv zeta.
  destruct (free_block_spec t cpu Hctrl s bits block owner Hinv) as [(-> & H)|(H1 & H2 & H3 & H4 & H5)].
  - split_and!; [by exists bits| |done]. intros F V A. rewrite F, A in H. destruct H as [?|[?|?]]; done.
  - split_and!; [done|done|]. intros [F|[F|F]]; [congruence|done|congruence].
Qed.

Lemma free_block_correct_witness :
  only_block ex_vol (beamfs_free_block ex_tables 0 ex_vol 12 None) 12 false.
Proof.
  destruct (free_block_correct ex_tables 0 ex_vol 12 None eq_refl (ex_intro _ _ ex_vol_inv)) as (_ & H & _).
  apply H; [done|split; cbn; lia|by vm_compute].
Defined.

(** ** Sequences of operations *)

Inductive alloc_op : Type :=
  | OpAlloc (owner : option Z)
  | OpFree (block : Z) (owner : option Z)
  | OpDiscard (ino : Z).

Section runs.
Context `{RL : !RsLib} `{RS : !RsLibSpec} `{CL : !CrcLib} (t : rs_tables) (cpu : nat).

(** The state, and the blocks handed out and not released. *)
Definition run_op (st : sbi * list Z) (op : alloc_op) : sbi * list Z :=
  let '(s, live) := st in
  match op with
  | OpAlloc owner =>
    let '(b, s') := beamfs_alloc_block t cpu s owner in (s', if b =? 0 then live else b :: live)
  | OpFree block owner => (beamfs_free_block t cpu s block owner, filter (fun c => c <> block) live)
  | OpDiscard ino => (beamfs_rsv_discard s ino, live)
  end.

Definition run_ops (s : sbi) (live : list Z) (ops : list alloc_op) : sbi * list Z := foldl run_op (s, live) ops.

Definition live_ok (s : sbi) (live : list Z) : Prop :=
  NoDup live /\ forall b, b ∈ live -> in_volume s b /\ beamfs_block_is_allocated s b = true.

Lemma live_ok_same s s' live : same_blocks s s' -> live_ok s live -> live_ok s' live.
Proof.
  intros (E1 & E2 & E3) [N H]. split; [done|]. intros b Hb. unfold in_volume. rewrite E1, E2, E3. by apply H.
Qed.

Lemma live_ok_nil s : live_ok s [].
Proof. split; [apply NoDup_nil_2|]. intros b Hb. exfalso. by apply elem_of_nil in Hb. Qed.

Lemma run_op_ok s live op :
  ctrl_here t cpu = true -> alloc_ok s -> live_ok s live ->
  let '(s', live') := run_op (s, live) op in alloc_ok s' /\ live_ok s' live'.
Proof.
  intros Hctrl [bits Hinv] Hlive. destruct op as [owner|block owner|ino]; cbn [run_op].
  - pose proof (alloc_block_spec t cpu Hctrl s bits owner Hinv) as H.
    destruct (beamfs_alloc_block t cpu s owner) as [b s']. pose proof (ai_data _ _ Hinv).
    destruct H as [(-> & H1 & H2 & _)|(H1 & H2 & H3 & H4 & E1 & E2 & E3)].
    + split; [done|]. by apply (live_ok_same s).
    + destruct (Z.eqb_spec b 0); [unfold in_volume in H1; lia|]. split; [done|].
      destruct Hlive as [N H]. split.
      * constructor; [|done]. intros Hb. destruct (H b Hb). congruence.
      * intros c [->|Hc]%elem_of_cons; unfold in_volume; rewrite E1, E2, E3.
        -- by rewrite decide_True.
        -- destruct (H c Hc). by destruct (decide (c = b)).
  - assert (Hf : live_ok s (filter (fun c => c <> block) live)).
    { destruct Hlive as [N H]. split; [by apply list.NoDup_filter|]. intros c [_ Hc]%list_elem_of_filter. by apply H. }
    destruct (free_block_spec t cpu Hctrl s bits block owner Hinv) as [(-> & _)|(H1 & H2 & H3 & H4 & E1 & E2 & E3)].
    + split; [by exists bits|done].
    + split; [done|]. destruct Hf as [N H]. split; [done|]. intros c Hc. unfold in_volume.
      rewrite E1, E2, E3. apply list_elem_of_filter in Hc as Hc'. rewrite decide_False by tauto. by apply H.
  - split; [|by apply (live_ok_same s)]. exists bits. apply alloc_inv_windows; [done|].
    apply windows_ok_drop; [destruct (ai_for _ _ Hinv); lia|apply Hinv].
Qed.
End runs.

(** C4: whatever is allocated, freed and discarded, in any order and by any
    owners, the allocator's invariant holds throughout, and no block is
    handed out twice while it is in use: the outstanding blocks are distinct
    and all marked allocated. *)
Theorem alloc_never_aliases `{RL : !RsLib} `{RS : !RsLibSpec} `{CL : !CrcLib} t cpu s live ops :
  ctrl_here t cpu = true -> alloc_ok s -> live_ok s live ->
  let '(s', live') := run_ops t cpu s live ops in
  alloc_ok s' /\ NoDup live' /\ forall b, b ∈ live' -> in_volume s' b /\ beamfs_block_is_allocated s' b = true.
Proof.
  intros Hctrl Hs Hl. unfold run_ops. revert s live Hs Hl.
  induction ops as [|op ops IH]; intros s live Hs Hl; [done|]. cbn [foldl].
  pose proof (run_op_ok t cpu s live op Hctrl Hs Hl) as H. destruct (run_op t cpu (s, live) op) as [s' live'].
  destruct H. by apply IH.
Qed.

Lemma alloc_never_aliases_witness : NoDup (snd (run_ops ex_tables 0 ex_vol []
  [OpAlloc (Some 7); OpAlloc None; OpFree 18 (Some 7); OpAlloc (Some 9); OpDiscard 7; OpAlloc None])).
Proof.
  pose proof (alloc_never_aliases ex_tables 0 ex_vol []
    [OpAlloc (Some 7); OpAlloc None; OpFree 18 (Some 7); OpAlloc (Some 9); OpDiscard 7; OpAlloc None]
    eq_refl (ex_intro _ _ ex_vol_inv)) as H.
  specialize (H (live_ok_nil ex_vol)). destruct (run_ops _ _ _ _ _) as [s' live']. apply H.
Defined.

(** As long as a free block lies outside the reservation windows of the
    other inodes, the window an allocation opens or draws from meets none of
    them: the windows in the list stay pairwise disjoint. *)
Theorem rsv_windows_disjoint s bits ino :
  alloc_inv s bits -> windows_disjoint s -> (ino ∈ s_rsv_windows s \/ i_rsv_end (ii s ino) = 0) ->
  (exists j, 0 <= j < s_nblocks s /\ test_bit bits j = true /\ ~ covered s (Some ino) j) ->
  windows_disjoint (snd (beamfs_rsv_alloc_locked s bits ino)).
Proof.
  intros Hinv. apply rsv_alloc_disjoint; [destruct (ai_for _ _ Hinv); lia|apply Hinv|apply Hinv].
Qed.

Lemma rsv_windows_disjoint_witness : windows_disjoint (snd (beamfs_rsv_alloc_locked ex_vol ex_bits 7)).
Proof.
  apply (rsv_windows_disjoint ex_vol ex_bits 7 ex_vol_inv).
  - intros o p Ho. by apply elem_of_nil in Ho.
  - right. done.
  - exists 8. split; [cbn; lia|]. split; [by vm_compute|]. intros (o & Ho & _). by apply elem_of_nil in Ho.
Defined.

(** C5: the bitmap survives a remount.  When the medium holds the bitmap
    blocks the allocator keeps in its buffers, with up to eight damaged bytes
    in every 255-byte codeword, beamfs_setup_bitmap succeeds and finds every
    block of the volume in the state the allocator left it. *)
Theorem bitmap_survives_remount `{RL : !RsLib} `{RS : !RsLibSpec} `{RB : !RsLibBounded} `{CL : !CrcLib}
    t cpu env s s0 bits bm :
  ctrl_here t cpu = true -> alloc_inv s bits -> beamfs_failed s = false -> 0 < s_nblocks s ->
  me_bitmap env = true -> me_needs env = true -> me_blkhs env = true -> me_inode env = true ->
  get_le64 (s_beamfs_sb (s_super s0)) off_s_block_count = s_data_start s + s_nblocks s ->
  get_le64 (s_beamfs_sb (s_super s0)) off_s_data_start_blk = s_data_start s ->
  get_le64 (s_beamfs_sb (s_super s0)) off_s_bitmap_blk = bm -> 0 < bm < s_data_start s ->
  beamfs_bitmap_blocks_count_from_flags (get_le32 (s_beamfs_sb (s_super s0)) off_s_flags) =
    s_bitmap_blocks_count s ->
  (forall k bhs bh, s_bitmap_blkhs s = Some bhs -> 0 <= k -> k * BEAMFS_BITS_PER_BITMAP_BLOCK < s_nblocks s ->
     nth (Z.to_nat k) bhs None = Some bh ->
     b_uptodate bh = true /\
     exists img, me_read env (bm + k) = Some img /\ bytes img /\ zlen img = 4096 /\
       forall i, 0 <= i < 16 -> damage LB (b_data bh) img i <= 8) ->
  exists s' calls written,
    beamfs_setup_bitmap t cpu env s0 = (0, s', calls, written) /\ same_blocks s s'.
Proof.
  intros Hctrl Hinv F Hn M1 M2 M3 M4 Hbc Hds Hbm Hbr Hfl Hdisk.
  pose proof (ai_image _ _ Hinv) as (bhs & Hbhs & Him). pose proof (ai_for _ _ Hinv) as Hbf.
  assert (Hcov : s_nblocks s <= s_bitmap_blocks_count s * 30592 /\ 0 <= s_bitmap_blocks_count s).
  { pose proof (Z.div_mod (s_nblocks s - 1) 30592 ltac:(lia)). pose proof (Z.mod_pos_bound (s_nblocks s - 1) 30592 ltac:(lia)).
    assert (0 <= (s_nblocks s - 1) / 30592) by (apply Z.div_pos; lia).
    destruct (Him ((s_nblocks s - 1) / 30592)) as (A & _); [done|change BEAMFS_BITS_PER_BITMAP_BLOCK with 30592; lia|]. lia. }
  unfold beamfs_setup_bitmap. rewrite Hbc, Hds, Hbm, Hfl, M1, M2, M3, M4. cbv zeta.
  destruct (Z.leb_spec (s_data_start s + s_nblocks s) (s_data_start s)); [lia|].
  destruct (Z.eqb_spec bm 0); [lia|]. destruct (Z.leb_spec (s_data_start s) bm); [lia|]. cbn [negb orb].
  replace (s_data_start s + s_nblocks s - s_data_start s) with (s_nblocks s) by lia.
  destruct (load_bitmap_spec t cpu Hctrl env (s_nblocks s) bits bm (s_bitmap_blocks_count s)
    (replicate (Z.to_nat (s_bitmap_blocks_count s)) None) Hbf Hn ltac:(lia) ltac:(lia)) as (ls & -> & Hl).
  { intros k Hk Hkn. destruct (Him k Hk Hkn) as (_ & _ & bh & Hbh & Himg).
    destruct (Hdisk k bhs bh Hbhs Hk Hkn Hbh) as (U & img & H1 & H2 & H3 & H4).
    exists (b_data bh), img. split_and!; [by apply Himg|done..]. }
  eexists _, _, _. split; [reflexivity|]. split_and!; [done..|]. intros c.
  rewrite (is_allocated_eq s bits c (ai_bits _ _ Hinv)).
  unfold beamfs_block_is_allocated. cbn [s_data_start s_block_bitmap s_nblocks].
  destruct (Z.ltb_spec c (s_data_start s)); [done|].
  destruct (Z.leb_spec (s_nblocks s) (c - s_data_start s)); [done|].
  by rewrite (ld_bits _ _ _ _ Hl) by lia.
Qed.

(** The medium of [ex_vol], with two damaged bytes. *)
Definition ex_medium : mount_env :=
  MountEnv true true true true (fun _ => Some (setb (setb ex_img 1 77) 250 3)) (fun _ => true).

Lemma bitmap_survives_remount_witness : exists s' calls written,
  beamfs_setup_bitmap ex_tables 0 ex_medium ex_vol = (0, s', calls, written) /\ same_blocks ex_vol s'.
Proof.
  apply (bitmap_survives_remount ex_tables 0 ex_medium ex_vol ex_vol ex_bits 5 eq_refl ex_vol_inv);
    [done|done|done|done|done|done|by vm_compute|by vm_compute|by vm_compute|done|by vm_compute|].
  intros k bhs bh E Hk Hkn Hbh. change BEAMFS_BITS_PER_BITMAP_BLOCK with 30592 in Hkn. cbn [ex_vol s_nblocks] in Hkn.
  assert (k = 0) as -> by lia. cbn [ex_vol s_bitmap_blkhs] in E. injection E as <-. injection Hbh as <-.
  split; [done|]. eexists. split; [reflexivity|]. split; [by apply bytes_check|]. split; [by vm_compute|].
  intros i Hi. cbn [b_data].
  assert (C : forallb (fun i => damage LB ex_img (setb (setb ex_img 1 77) 250 3) i <=? 8) (upto 16) = true)
    by (by vm_compute).
  rewrite forallb_forall in C. specialize (C i (proj1 (list_elem_of_In _ _) (proj2 (elem_of_upto 16 i) Hi))).
  by apply Z.leb_le in C.
Defined.
