(* ===== verification/IndParity.v ===== *)
(** * Parity of indirect blocks (indparity.c)

    An indirect block has no room for a checksum: its parity is a slot of a
    region block of its own, which is itself encoded like a data block.  The
    region is reached through a decode kept per cpu. *)

From stdpp Require Import gmap.
From S2P Require Import Prelude Format Crc RsInit RsLib Edac Dirent Super.

(** ** State *)

(** struct ind_region_cache, one per cpu and shared by every mount. *)
Record ind_region_cache := RCache {
  c_blocknr : Z; c_gen : Z; c_ret : Z; c_data : option (list Z) }.

(** The part of a mount that the parity code reads and writes. *)
Record pvol := PVol {
  s_ind_parity_mode : Z;
  s_ind_parity_blk : Z;
  s_ind_parity_len : Z;
  pv_data_start : Z;
  s_ind_parity_gen : Z;
  pv_buffers : gmap Z (list Z);        (** region blocks beamfs_bread returns *)
  pv_shared : list Z;                  (** region blocks dirtied on s_shared_bhs *)
  pv_verified : gset Z;                (** buffers flagged BeamfsVerified *)
  pv_dirty_inodes : list Z;
  pv_calls : list rs_call }.           (** journal calls, in order *)

Definition set_verified (v : pvol) (f : gset Z) : pvol :=
  PVol (s_ind_parity_mode v) (s_ind_parity_blk v) (s_ind_parity_len v) (pv_data_start v) (s_ind_parity_gen v)
    (pv_buffers v) (pv_shared v) f (pv_dirty_inodes v) (pv_calls v).
Definition add_calls (v : pvol) (calls : list rs_call) : pvol :=
  PVol (s_ind_parity_mode v) (s_ind_parity_blk v) (s_ind_parity_len v) (pv_data_start v) (s_ind_parity_gen v)
    (pv_buffers v) (pv_shared v) (pv_verified v) (pv_dirty_inodes v) (pv_calls v ++ calls).
Definition put_region (v : pvol) (blk : Z) (data : list Z) : pvol :=
  PVol (s_ind_parity_mode v) (s_ind_parity_blk v) (s_ind_parity_len v) (pv_data_start v) (s_ind_parity_gen v)
    (<[blk := data]> (pv_buffers v)) (pv_shared v) (pv_verified v) (pv_dirty_inodes v) (pv_calls v).
Definition mark_shared (v : pvol) (blk : Z) (inode : option Z) : pvol :=
  PVol (s_ind_parity_mode v) (s_ind_parity_blk v) (s_ind_parity_len v) (pv_data_start v) (s_ind_parity_gen v)
    (pv_buffers v) (blk :: pv_shared v) (pv_verified v)
    (match inode with Some i => i :: pv_dirty_inodes v | None => pv_dirty_inodes v end) (pv_calls v).

(** ** Where a block's parity lives *)

Definition ind_parity_stride (mode : Z) : Z :=
  if mode =? BEAMFS_IND_PARITY_CRC then BEAMFS_IND_PARITY_CRC_BYTES
  else if mode =? BEAMFS_IND_PARITY_RS then BEAMFS_IND_PARITY_RS_BYTES else 0.

Definition ind_parity_slots (mode : Z) : Z :=
  if mode =? BEAMFS_IND_PARITY_CRC then BEAMFS_IND_PARITY_CRC_SLOTS
  else if mode =? BEAMFS_IND_PARITY_RS then BEAMFS_IND_PARITY_RS_SLOTS else 0.

(** [Some (region_blk, offset, stride)], or [None] for false. *)
Definition ind_parity_slot (v : pvol) (phys : Z) : option (Z * Z * Z) :=
  let stride := ind_parity_stride (s_ind_parity_mode v) in
  let slots := ind_parity_slots (s_ind_parity_mode v) in
  if (stride =? 0) || (slots =? 0) || (s_ind_parity_blk v =? 0) then None
  else if phys <? pv_data_start v then None
  else
    let index := phys - pv_data_start v in
    let region_blk := u64 (s_ind_parity_blk v + index / slots) in
    let offset := u32 (index mod slots * stride) in
    if BEAMFS_DATA_INLINE_BYTES <? offset + stride then None
    else if u64 (s_ind_parity_blk v + s_ind_parity_len v) <=? region_blk then None
    else Some (region_blk, offset, stride).

(** ** One slot of a decoded region block *)

(** The while loop of ind_slot_gather, [out] so far. *)
Fixpoint slot_gather_loop (fuel : nat) (scratch : list Z) (off stride done : Z) (out : list Z) : list Z :=
  match fuel with
  | O => out
  | S fuel =>
    if stride <=? done then out
    else
      let sub := (off + done) / BEAMFS_SUBBLOCK_DATA in
      let within := (off + done) mod BEAMFS_SUBBLOCK_DATA in
      let run := BEAMFS_SUBBLOCK_DATA - within in
      let run := if stride - done <? run then stride - done else run in
      slot_gather_loop fuel scratch off stride (done + run)
        (out ++ slice scratch (sub * BEAMFS_SUBBLOCK_TOTAL + within) run)
  end.

Definition ind_slot_gather (scratch : list Z) (off stride : Z) : list Z :=
  slot_gather_loop (Z.to_nat stride) scratch off stride 0 [].

Fixpoint slot_scatter_loop (fuel : nat) (scratch : list Z) (off stride done : Z) (src : list Z) : list Z :=
  match fuel with
  | O => scratch
  | S fuel =>
    if stride <=? done then scratch
    else
      let sub := (off + done) / BEAMFS_SUBBLOCK_DATA in
      let within := (off + done) mod BEAMFS_SUBBLOCK_DATA in
      let run := BEAMFS_SUBBLOCK_DATA - within in
      let run := if stride - done <? run then stride - done else run in
      slot_scatter_loop fuel (splice scratch (sub * BEAMFS_SUBBLOCK_TOTAL + within) (slice src done run))
        off stride (done + run) src
  end.

Definition ind_slot_scatter (scratch : list Z) (off stride : Z) (src : list Z) : list Z :=
  slot_scatter_loop (Z.to_nat stride) scratch off stride 0 src.

(** ** The region *)

(** What may fail in a call: the scratch pool (first and second page) and
    the allocation of a cpu's cache page. *)
Record parity_env := PEnv { pe_scratch : bool; pe_copy : bool; pe_kmalloc : bool }.

Definition empty_cache : ind_region_cache := RCache 0 0 0 None.
Definition get_cache (caches : list ind_region_cache) (cpu : nat) : ind_region_cache := nth cpu caches empty_cache.

Definition beamfs_ind_parity_touched (v : pvol) : pvol :=
  PVol (s_ind_parity_mode v) (s_ind_parity_blk v) (s_ind_parity_len v) (pv_data_start v)
    (u64 (s_ind_parity_gen v + 1)) (pv_buffers v) (pv_shared v) (pv_verified v) (pv_dirty_inodes v) (pv_calls v).

Definition beamfs_ind_parity_cache_free (caches : list ind_region_cache) : list ind_region_cache :=
  map (fun c => RCache (c_blocknr c) (c_gen c) (c_ret c) None) caches.

Section region.
Context `{RL : !RsLib} `{CL : !CrcLib} (t : rs_tables) (cpu : nat).

(** The decode: the code, the scratch page, the journal calls. *)
Definition region_decode (blocknr : Z) (b_data : list Z) : Z * list Z * list rs_call :=
  let '(_, scratch, results, positions) :=
    beamfs_rs_decode_region t cpu b_data 0 BEAMFS_SUBBLOCK_TOTAL BEAMFS_SUBBLOCK_DATA BEAMFS_SUBBLOCK_TOTAL
      BEAMFS_SUBBLOCK_DATA BEAMFS_DATA_INLINE_SUBBLOCKS (Some (BEAMFS_RS_PARITY / 2)) in
  let '(ret, calls) :=
    foldl (fun '(ret, calls) i =>
      let r := getb results i in
      if r <? 0 then (- EUCLEAN, calls)
      else if 0 <? r then
        (ret, calls ++ [LogRsEvent blocknr (Some (nth (Z.to_nat i) positions [])) r BEAMFS_SUBBLOCK_DATA
                          (beamfs_rs_event_subblock_bits i)])
      else (ret, calls)) (0, []) (upto BEAMFS_DATA_INLINE_SUBBLOCKS) in
  (ret, scratch, calls).

(** Returns the code, the scratch page, the caches and the journal calls. *)
Definition ind_region_read (env : parity_env) (caches : list ind_region_cache) (gen blocknr : Z)
    (b_data : list Z) : Z * list Z * list ind_region_cache * list rs_call :=
  let c := get_cache caches cpu in
  match c_data c with
  | Some d =>
    if (c_blocknr c =? blocknr) && (c_gen c =? gen) then (c_ret c, d, caches, [])
    else
      let '(ret, scratch, calls) := region_decode blocknr b_data in
      (ret, scratch, <[cpu := RCache blocknr gen ret (Some scratch)]> caches, calls)
  | None =>
    let '(ret, scratch, calls) := region_decode blocknr b_data in
    (ret, scratch,
     if pe_kmalloc env then <[cpu := RCache blocknr gen ret (Some scratch)]> caches else caches, calls)
  end.

Definition ind_region_write (b_data scratch : list Z) : list Z :=
  let b_data := foldl (fun b i =>
      splice b (i * BEAMFS_SUBBLOCK_TOTAL) (slice scratch (i * BEAMFS_SUBBLOCK_TOTAL) BEAMFS_SUBBLOCK_DATA))
    b_data (upto BEAMFS_DATA_INLINE_SUBBLOCKS) in
  snd (beamfs_rs_encode_region t cpu b_data 0 BEAMFS_SUBBLOCK_TOTAL BEAMFS_SUBBLOCK_DATA BEAMFS_SUBBLOCK_TOTAL
         BEAMFS_SUBBLOCK_DATA BEAMFS_DATA_INLINE_SUBBLOCKS).

(** crc32_le(~0, subblock, 239) ^ ~0. *)
Definition sub_crc (block : list Z) (i : Z) : Z :=
  Z.lxor (crc32_le 4294967295 (slice block (i * BEAMFS_SUBBLOCK_DATA) BEAMFS_SUBBLOCK_DATA)) 4294967295.

(** The slot of [block], written over [slotbuf]. *)
Definition slot_fill (mode : Z) (block slotbuf : list Z) : list Z :=
  if mode =? BEAMFS_IND_PARITY_CRC then
    foldl (fun s i => put_le32 s (4 * i) (sub_crc block i)) slotbuf (upto BEAMFS_DATA_INLINE_SUBBLOCKS)
  else
    foldl (fun s i =>
      let mem := slice block (i * BEAMFS_SUBBLOCK_DATA) BEAMFS_SUBBLOCK_DATA ++
                 slice s (i * BEAMFS_RS_PARITY) BEAMFS_RS_PARITY in
      let '(_, mem) := beamfs_rs_encode_region t cpu mem 0 BEAMFS_SUBBLOCK_DATA BEAMFS_SUBBLOCK_DATA
        BEAMFS_RS_PARITY BEAMFS_SUBBLOCK_DATA 1 in
      splice s (i * BEAMFS_RS_PARITY) (slice mem BEAMFS_SUBBLOCK_DATA BEAMFS_RS_PARITY))
      slotbuf (upto BEAMFS_DATA_INLINE_SUBBLOCKS).

Definition beamfs_ind_parity_update (env : parity_env) (caches : list ind_region_cache) (v : pvol)
    (phys : Z) (block : list Z) (inode : option Z) : list ind_region_cache * pvol :=
  match ind_parity_slot v phys with
  | None => (caches, v)
  | Some (region_blk, offset, stride) =>
    if BEAMFS_IND_PARITY_RS_BYTES <? stride then (caches, v)
    else
      match pv_buffers v !! region_blk with
      | None => (caches, v)
      | Some pbh =>
        if negb (pe_scratch env) then (caches, v)
        else
          let '(rc, scratch, caches, calls) := ind_region_read env caches (s_ind_parity_gen v) region_blk pbh in
          let v := add_calls v calls in
          if rc =? - EUCLEAN then (caches, v)
          else
            let slotbuf := slot_fill (s_ind_parity_mode v) block (ind_slot_gather scratch offset stride) in
            let scratch := ind_slot_scatter scratch offset stride slotbuf in
            let v := put_region v region_blk (ind_region_write pbh scratch) in
            let v := set_verified v ({[phys]} ∪ pv_verified v) in
            let v := beamfs_ind_parity_touched v in
            (caches, mark_shared v region_blk inode)
      end
  end.

(** The CRC comparison: the code and the journal calls. *)
Definition verify_crc (phys : Z) (block slotbuf : list Z) : Z * list rs_call :=
  foldl (fun '(ret, calls) i =>
    if get_le32 slotbuf (4 * i) =? sub_crc block i then (ret, calls)
    else (- EUCLEAN, calls ++ [LogRsEvent phys None 0 BEAMFS_SUBBLOCK_DATA (beamfs_rs_event_subblock_bits i)]))
    (0, []) (upto BEAMFS_DATA_INLINE_SUBBLOCKS).

(** The decode of a copy, subblock by subblock. *)
Definition verify_rs (phys : Z) (block slotbuf : list Z) : Z * list rs_call :=
  foldl (fun '(ret, calls) i =>
    let mem := slice block (i * BEAMFS_SUBBLOCK_DATA) BEAMFS_SUBBLOCK_DATA ++
               slice slotbuf (i * BEAMFS_RS_PARITY) BEAMFS_RS_PARITY in
    let '(region_rc, _, results, positions) :=
      beamfs_rs_decode_region t cpu mem 0 BEAMFS_SUBBLOCK_DATA BEAMFS_SUBBLOCK_DATA BEAMFS_RS_PARITY
        BEAMFS_SUBBLOCK_DATA 1 (Some (BEAMFS_RS_PARITY / 2)) in
    let r := getb results 0 in
    if (region_rc <? 0) || (r <? 0) then
      (- EUCLEAN, calls ++ [LogRsEvent phys None 0 BEAMFS_SUBBLOCK_DATA (beamfs_rs_event_subblock_bits i)])
    else if 0 <? r then
      (ret, calls ++ [LogRsEvent phys (Some (nth 0 positions [])) r BEAMFS_SUBBLOCK_DATA
                        (beamfs_rs_event_subblock_bits i)])
    else (ret, calls)) (0, []) (upto BEAMFS_DATA_INLINE_SUBBLOCKS).

Definition beamfs_ind_parity_verify (env : parity_env) (caches : list ind_region_cache) (v : pvol)
    (phys : Z) (block : list Z) : Z * list ind_region_cache * pvol :=
  match ind_parity_slot v phys with
  | None => (0, caches, v)
  | Some (region_blk, offset, stride) =>
    if bool_decide (phys ∈ pv_verified v) then (0, caches, v)
    else
      match pv_buffers v !! region_blk with
      | None => (0, caches, v)
      | Some pbh =>
        if BEAMFS_IND_PARITY_RS_BYTES <? stride then (0, caches, v)
        else if negb (pe_scratch env) then (0, caches, v)
        else
          let '(rc, rscratch, caches, calls) := ind_region_read env caches (s_ind_parity_gen v) region_blk pbh in
          let v := add_calls v calls in
          if rc =? - EUCLEAN then (0, caches, v)
          else
            let slotbuf := ind_slot_gather rscratch offset stride in
            if forallb (fun b => b =? 0) slotbuf then
              (0, caches, set_verified v ({[phys]} ∪ pv_verified v))
            else if negb (s_ind_parity_mode v =? BEAMFS_IND_PARITY_CRC) && negb (pe_copy env)
            then (0, caches, v)
            else
              let '(ret, calls) := if s_ind_parity_mode v =? BEAMFS_IND_PARITY_CRC
                                   then verify_crc phys block slotbuf else verify_rs phys block slotbuf in
              let v := add_calls v calls in
              (ret, caches, if ret =? 0 then set_verified v ({[phys]} ∪ pv_verified v) else v)
      end
  end.

Definition beamfs_ind_parity_verify_medium (env : parity_env) (caches : list ind_region_cache) (v : pvol)
    (phys : Z) (block : list Z) : Z * list ind_region_cache * pvol :=
  beamfs_ind_parity_verify env caches (set_verified v (pv_verified v ∖ {[phys]})) phys block.
End region.
