(* ===== verification/IndRegion.v ===== *)
(** * Slots of a region block

    The payload byte [x] of a region block is byte [pos x] of the buffer;
    gathering and scattering a slot are the byte-wise maps through it. *)

From stdpp Require Import gmap.
From S2P Require Import Prelude Format Crc RsInit GF RsTheory RsCode RsCorrect RsDecode RsLib Edac EdacWord EdacBlock EdacLayouts EdacTheorems Dirent Super Alloc AllocBits AllocImage IndParity.

Definition pos (x : Z) : Z := x / 239 * 255 + x mod 239.

Lemma pos_run x j : 0 <= x -> 0 <= j < 239 - x mod 239 -> pos (x + j) = pos x + j.
Proof.
  intros Hx Hj. unfold pos. pose proof (Z.div_mod x 239 ltac:(lia)). pose proof (Z.mod_pos_bound x 239 ltac:(lia)).
  assert (E : x + j = (x mod 239 + j) + x / 239 * 239) by lia.
  rewrite E, Z.div_add, Z.mod_add, (Z.div_small (x mod 239 + j)), (Z.mod_small (x mod 239 + j)) by lia. lia.
Qed.

Lemma pos_range x : 0 <= x < 3824 -> 0 <= pos x < 4080.
Proof.
  intros Hx. unfold pos. pose proof (Z.div_mod x 239 ltac:(lia)). pose proof (Z.mod_pos_bound x 239 ltac:(lia)).
  assert (0 <= x / 239) by (apply Z.div_pos; lia). lia.
Qed.

Lemma pos_inj x y : 0 <= x -> 0 <= y -> pos x = pos y -> x = y.
Proof.
  unfold pos. intros Hx Hy E. pose proof (Z.div_mod x 239 ltac:(lia)). pose proof (Z.mod_pos_bound x 239 ltac:(lia)).
  pose proof (Z.div_mod y 239 ltac:(lia)). pose proof (Z.mod_pos_bound y 239 ltac:(lia)).
  assert (x / 239 = y / 239) by lia. lia.
Qed.

(** The run of bytes the loops copy at once. *)
Definition run_len (off stride done : Z) : Z :=
  let run := BEAMFS_SUBBLOCK_DATA - (off + done) mod BEAMFS_SUBBLOCK_DATA in
  if stride - done <? run then stride - done else run.

Lemma run_len_range off stride done :
  0 <= off + done -> done < stride ->
  1 <= run_len off stride done <= stride - done /\ run_len off stride done <= 239 - (off + done) mod 239.
Proof.
  intros H0 H1. unfold run_len. change BEAMFS_SUBBLOCK_DATA with 239.
  pose proof (Z.mod_pos_bound (off + done) 239 ltac:(lia)).
  destruct (Z.ltb_spec (stride - done) (239 - (off + done) mod 239)); lia.
Qed.

(** The bytes of a slot, one by one. *)
Definition slot_bytes (img : list Z) (off stride : Z) : list Z :=
  map (fun j => getb img (pos (off + j))) (upto stride).

Lemma zlen_slot_bytes img off stride : 0 <= stride -> zlen (slot_bytes img off stride) = stride.
Proof. intros H. unfold slot_bytes. rewrite zlen_map. by apply zlen_upto. Qed.

Lemma getb_slot_bytes img off stride j :
  0 <= j < stride -> getb (slot_bytes img off stride) j = getb img (pos (off + j)).
Proof. intros H. unfold slot_bytes. rewrite getb_map by (rewrite zlen_upto; lia). by rewrite getb_upto by lia. Qed.

Lemma gather_loop_spec img off stride fuel done out :
  zlen img = 4096 -> 0 <= off -> off + stride <= 3824 -> 0 <= done <= stride -> stride - done <= Z.of_nat fuel ->
  out = slot_bytes img off done ->
  slot_gather_loop fuel img off stride done out = slot_bytes img off stride.
Proof.
  intros Hz Ho Hs. revert done out. induction fuel as [|fuel IH]; intros done out Hd Hf ->; cbn [slot_gather_loop].
  { by replace done with stride by lia. }
  destruct (Z.leb_spec stride done); [by replace done with stride by lia|].
  fold (run_len off stride done). pose proof (run_len_range off stride done ltac:(lia) ltac:(lia)) as [R1 R2].
  set (r := run_len off stride done) in *. apply IH; [lia|lia|].
  change ((off + done) / BEAMFS_SUBBLOCK_DATA * BEAMFS_SUBBLOCK_TOTAL + (off + done) mod BEAMFS_SUBBLOCK_DATA)
    with (pos (off + done)).
  pose proof (pos_range (off + done) ltac:(lia)). pose proof (pos_range (off + done + (r - 1)) ltac:(lia)) as Hp.
  rewrite pos_run in Hp by lia.
  apply bytes_ext; rewrite zlen_app, !zlen_slot_bytes, zlen_slice by lia; [lia|].
  intros i Hi. rewrite getb_app by lia. rewrite zlen_slot_bytes by lia. case_decide.
  - by rewrite !getb_slot_bytes by lia.
  - rewrite getb_slice, getb_slot_bytes by lia. rewrite <- pos_run by lia. do 2 f_equal. lia.
Qed.

Lemma slot_gather_eq img off stride :
  zlen img = 4096 -> 0 <= off -> 0 <= stride -> off + stride <= 3824 ->
  ind_slot_gather img off stride = slot_bytes img off stride.
Proof. intros. apply gather_loop_spec; [done|done|done|lia|lia|]. done. Qed.

(** [img'] is [img] with the first [n] bytes of the slot taken from [src]. *)
Record scattered (img src : list Z) (off n : Z) (img' : list Z) : Prop := {
  sc_len : zlen img' = zlen img;
  sc_in : forall j, 0 <= j < n -> getb img' (pos (off + j)) = getb src j;
  sc_out : forall a, 0 <= a -> (forall j, 0 <= j < n -> pos (off + j) <> a) -> getb img' a = getb img a }.

Lemma scatter_loop_spec img src off stride fuel done img' :
  zlen img = 4096 -> zlen src = stride -> 0 <= off -> off + stride <= 3824 -> 0 <= done <= stride ->
  stride - done <= Z.of_nat fuel -> scattered img src off done img' ->
  scattered img src off stride (slot_scatter_loop fuel img' off stride done src).
Proof.
  intros Hz Hsr Ho Hs. revert done img'. induction fuel as [|fuel IH]; intros done img' Hd Hf Hsc;
    cbn [slot_scatter_loop]; [by replace stride with done by lia|].
  destruct (Z.leb_spec stride done); [by replace stride with done by lia|].
  fold (run_len off stride done). pose proof (run_len_range off stride done ltac:(lia) ltac:(lia)) as [R1 R2].
  set (r := run_len off stride done) in *. apply IH; [lia|lia|].
  change ((off + done) / BEAMFS_SUBBLOCK_DATA * BEAMFS_SUBBLOCK_TOTAL + (off + done) mod BEAMFS_SUBBLOCK_DATA)
    with (pos (off + done)).
  pose proof (pos_range (off + done) ltac:(lia)). pose proof (pos_range (off + done + (r - 1)) ltac:(lia)) as Hp.
  rewrite pos_run in Hp by lia. destruct Hsc as [Hl Hin Hout].
  assert (Hzs : zlen (slice src done r) = r) by (rewrite zlen_slice; lia).
  split.
  - rewrite zlen_splice; lia.
  - intros j Hj. destruct (decide (j < done)).
    + rewrite getb_splice_out; [by apply Hin; lia|lia|lia| |].
      * apply pos_range. lia.
      * rewrite Hzs. destruct (decide (pos (off + done) <= pos (off + j) < pos (off + done) + r)); [exfalso|lia].
        assert (E : pos (off + j) = pos (off + done + (pos (off + j) - pos (off + done)))) by (rewrite (pos_run (off + done)); lia).
        apply pos_inj in E; lia.
    + assert (E : pos (off + j) = pos (off + done) + (j - done)) by (rewrite <- pos_run by lia; f_equal; lia).
      rewrite E, getb_splice_in by lia. rewrite getb_slice by lia. f_equal. lia.
  - intros a Ha Hno. rewrite getb_splice_out; [apply Hout; [done|]; intros j Hj; apply Hno; lia|lia|lia|done|].
    rewrite Hzs. destruct (decide (pos (off + done) <= a < pos (off + done) + r)); [exfalso|lia].
    apply (Hno (done + (a - pos (off + done)))); [lia|]. rewrite Z.add_assoc, pos_run by lia. lia.
Qed.

Lemma slot_scatter_spec img src off stride :
  zlen img = 4096 -> zlen src = stride -> 0 <= off -> off + stride <= 3824 ->
  scattered img src off stride (ind_slot_scatter img off stride src).
Proof.
  intros Hz Hs Ho Hr. pose proof (zlen_nonneg src). apply scatter_loop_spec; [done|done|done|done|lia|lia|].
  split; [done|lia|done].
Qed.

(** The slot reads back, and a slot that does not overlap it is untouched. *)
Lemma scattered_same img src off stride img' :
  0 <= stride -> zlen src = stride -> scattered img src off stride img' -> slot_bytes img' off stride = src.
Proof.
  intros Hst Hs [Hl Hin _]. apply bytes_ext; rewrite zlen_slot_bytes by lia; [done|].
  intros j Hj. rewrite getb_slot_bytes by lia. by apply Hin.
Qed.

Lemma scattered_other img src off stride img' off' stride' :
  0 <= off -> 0 <= off' -> off' + stride' <= 3824 -> off' + stride' <= off \/ off + stride <= off' ->
  scattered img src off stride img' -> slot_bytes img' off' stride' = slot_bytes img off' stride'.
Proof.
  intros Ho Ho' Hr Hd [Hl _ Hout]. unfold slot_bytes. apply map_ext_in. intros j Hj%list_elem_of_In%elem_of_upto.
  apply Hout; [apply pos_range; lia|]. intros i Hi E. apply pos_inj in E; lia.
Qed.

(** ** The parity region: reads, writes and the per-cpu decode cache *)

Section region.
Context `{RL : !RsLib} `{RS : !RsLibSpec} `{CL : !CrcLib} (t : rs_tables) (cpu : nat).
Context (Hctrl : ctrl_here t cpu = true).

(** A region block as [ind_region_write] leaves it. *)
Definition region_ok (img : list Z) : Prop := encoded LB img img.

Lemma region_decode_ok blocknr img : region_ok img -> region_decode t cpu blocknr img = (0, img, []).
Proof.
  intros En. pose proof (en_len _ _ _ En) as Hz. pose proof (en_bytes _ _ _ En) as B. unfold region_decode.
  change (beamfs_rs_decode_region t cpu img _ _ _ _ _ _ _) with
    (beamfs_rs_decode_region t cpu img 0 255 239 255 239 16 (Some 8)).
  rewrite (decode_region_clean t cpu Hctrl 4096 0 255 239 255 239 16 img img (Some 8)
    ltac:(intros m [= <-]; lia) Hz B En).
  by vm_compute.
Qed.

(** The payload of the new block is the payload of the scratch page. *)
Lemma region_write_spec b scratch :
  zlen b = 4096 -> bytes b -> zlen scratch = 4096 -> bytes scratch ->
  region_ok (ind_region_write t cpu b scratch) /\
  forall x, 0 <= x < 3824 -> getb (ind_region_write t cpu b scratch) (pos x) = getb scratch (pos x).
Proof.
  intros Hz B Hs Bs. unfold ind_region_write. change BEAMFS_DATA_INLINE_SUBBLOCKS with 16.
  change BEAMFS_SUBBLOCK_TOTAL with 255. change BEAMFS_SUBBLOCK_DATA with 239.
  set (P := fun n (m : list Z) => zlen m = 4096 /\ bytes m /\
    forall i k, 0 <= i < n -> 0 <= k < 239 -> getb m (i * 255 + k) = getb scratch (i * 255 + k)).
  assert (G : P 16 (foldl (fun b i => splice b (i * 255) (slice scratch (i * 255) 239)) b (upto 16))).
  { apply (foldl_upto_ind _ P); [lia|done || (split_and!; [done|done|]; intros; lia)|].
    intros i m Hi (Hm & Bm & Hg). assert (Hl : zlen (slice scratch (i * 255) 239) = 239) by (rewrite zlen_slice; lia).
    split_and!; [rewrite zlen_splice; lia|auto with bytes|]. intros j k Hj Hk. destruct (decide (j = i)) as [->|].
    - rewrite getb_splice_in by lia. rewrite getb_slice by lia. f_equal. lia.
    - rewrite getb_splice_out by lia. apply Hg; lia. }
  set (m := foldl _ b (upto 16)) in *. destruct G as (Hm & Bm & Hg).
  destruct (encode_region_encoded t cpu Hctrl 4096 0 255 239 255 239 16 m Hm Bm) as (m' & -> & En).
  cbn [snd]. pose proof En as [El Eb Ed Ep Eo]. split.
  - split; [done|done|done| |done]. intros i Hi. rewrite Ed by done. by apply Ep.
  - intros x Hx. pose proof (Z.div_mod x 239 ltac:(lia)). pose proof (Z.mod_pos_bound x 239 ltac:(lia)).
    assert (0 <= x / 239) by (apply Z.div_pos; lia). assert (Hi : 0 <= x / 239 < 16) by lia. unfold pos.
    specialize (Ed (x / 239) Hi). apply (f_equal (fun l => getb l (x mod 239))) in Ed.
    rewrite !(getb_cw_data LB) in Ed by (cbn; lia). cbn [l_data region_layout] in Ed. rewrite !Z.add_0_l in Ed. rewrite Ed. apply Hg; lia.
Qed.

(** ** The slot of a block *)

Definition slot_value (mode : Z) (block : list Z) : list Z :=
  if mode =? BEAMFS_IND_PARITY_CRC then concat (map (fun i => le_bytes 4 (sub_crc block i)) (upto 16))
  else concat (map (fun i => encode_rs8 (slice block (i * 239) 239)) (upto 16)).

(** The pieces of a slot, [w] bytes each. *)
Lemma pieces_fill (w : Z) (f : Z -> list Z) (step : list Z -> Z -> list Z) (s0 : list Z) :
  0 < w -> zlen s0 = 16 * w -> (forall i, 0 <= i < 16 -> zlen (f i) = w) ->
  (forall s i, 0 <= i < 16 -> zlen s = 16 * w -> step s i = splice s (i * w) (f i)) ->
  let r := foldl step s0 (upto 16) in
  zlen r = 16 * w /\ forall i, 0 <= i < 16 -> slice r (i * w) w = f i.
Proof.
  intros Hw Hz Hf Hstep. cbv zeta.
  set (P := fun n s => zlen s = 16 * w /\ forall i, 0 <= i < n -> slice s (i * w) w = f i).
  apply (foldl_upto_ind _ P); [lia|split; [done|lia]|].
  intros i s Hi [Hs Hp]. pose proof (Hf i Hi). rewrite Hstep by done.
  assert (i * w + w <= 16 * w) by nia. split; [rewrite zlen_splice; nia|].
  intros j Hj. destruct (decide (j = i)) as [->|].
  - apply slice_splice_len; [done|nia|nia].
  - rewrite slice_splice_ne by nia. apply Hp. lia.
Qed.

Lemma pieces_concat (w : Z) (f : Z -> list Z) (r : list Z) :
  0 < w -> (forall i, 0 <= i < 16 -> zlen (f i) = w) -> zlen r = 16 * w ->
  (forall i, 0 <= i < 16 -> slice r (i * w) w = f i) -> r = concat (map f (upto 16)).
Proof.
  intros Hw Hf Hz Hp.
  assert (G : forall n, 0 <= n -> n <= 16 -> take (Z.to_nat (n * w)) r = concat (map f (upto n))).
  { refine (natlike_ind _ _ _); [done|]. intros n Hn IH Hle. rewrite <- Z.add_1_r, upto_succ by lia.
    rewrite map_app, concat_app, <- IH by lia. cbn [map concat]. rewrite app_nil_r, <- Hp by lia. unfold slice.
    replace (Z.to_nat ((n + 1) * w)) with (Z.to_nat (n * w) + Z.to_nat w)%nat by nia.
    by rewrite take_take_drop. }
  specialize (G 16 ltac:(lia) ltac:(lia)). rewrite take_ge in G by (unfold zlen in Hz; lia). exact G.
Qed.

Definition piece_len (mode : Z) : Z := if mode =? BEAMFS_IND_PARITY_CRC then 4 else 16.

Definition piece (mode : Z) (block : list Z) (i : Z) : list Z :=
  if mode =? BEAMFS_IND_PARITY_CRC then le_bytes 4 (sub_crc block i)
  else encode_rs8 (slice block (i * 239) 239).

Lemma slot_value_pieces mode block : slot_value mode block = concat (map (piece mode block) (upto 16)).
Proof. unfold slot_value, piece. by destruct (mode =? _). Qed.

Lemma sub_input block i :
  zlen block = 4096 -> bytes block -> 0 <= i < 16 ->
  zlen (slice block (i * 239) 239) = 239 /\ bytes (slice block (i * 239) 239).
Proof. intros Hz B Hi. split; [rewrite zlen_slice; lia|auto with bytes]. Qed.

Lemma zlen_piece mode block i :
  zlen block = 4096 -> bytes block -> 0 <= i < 16 -> zlen (piece mode block i) = piece_len mode.
Proof.
  intros Hz B Hi. unfold piece, piece_len. destruct (mode =? _); [apply zlen_le_bytes|].
  destruct (sub_input block i Hz B Hi). apply encode_rs8_len; [done|lia].
Qed.

Lemma bytes_piece mode block i : zlen block = 4096 -> bytes block -> 0 <= i < 16 -> bytes (piece mode block i).
Proof.
  intros Hz B Hi. unfold piece. destruct (mode =? _); [apply bytes_le_bytes|].
  destruct (sub_input block i Hz B Hi). apply encode_rs8_bytes; [done|lia].
Qed.

(** The parity of one sub-block, computed next to it. *)
Lemma encode_one_sub data par :
  zlen data = 239 -> bytes data -> zlen par = 16 ->
  snd (beamfs_rs_encode_region t cpu (data ++ par) 0 239 239 16 239 1) = data ++ encode_rs8 data.
Proof.
  intros Hd B Hp. unfold beamfs_rs_encode_region. change (upto 1) with [0]. cbn [foldl].
  change (0 <? 0) with false. cbv iota. rewrite Z.mul_0_l, !Z.add_0_r, (slice_app_l data par 239 Hd).
  pose proof (rs_encode_eq t cpu Hctrl data B ltac:(lia)) as E. rewrite Hd in E. rewrite E.
  change (0 <? 0) with false. cbv iota. cbn [snd].
  pose proof (encode_rs8_len data B ltac:(lia)) as L. unfold splice.
  rewrite take_app_length' by (unfold zlen in Hd; lia). f_equal.
  rewrite drop_ge by (rewrite length_app; unfold zlen in *; lia). by rewrite app_nil_r.
Qed.

Lemma slot_fill_eq mode block sb :
  zlen block = 4096 -> bytes block -> zlen sb = 16 * piece_len mode ->
  slot_fill t cpu mode block sb = slot_value mode block /\
  zlen (slot_value mode block) = 16 * piece_len mode /\
  forall i, 0 <= i < 16 -> slice (slot_value mode block) (i * piece_len mode) (piece_len mode) = piece mode block i.
Proof.
  intros Hz B Hs. assert (Hw : 0 < piece_len mode) by (unfold piece_len; destruct (mode =? _); lia).
  pose proof (fun i Hi => zlen_piece mode block i Hz B Hi) as Hp.
  assert (G : let r := slot_fill t cpu mode block sb in zlen r = 16 * piece_len mode /\
    forall i, 0 <= i < 16 -> slice r (i * piece_len mode) (piece_len mode) = piece mode block i).
  { unfold slot_fill. change BEAMFS_DATA_INLINE_SUBBLOCKS with 16. cbv zeta.
    unfold piece, piece_len in *. destruct (mode =? BEAMFS_IND_PARITY_CRC).
    - apply (pieces_fill 4); [done..|]. intros s i Hi Hl. unfold put_le32. f_equal. lia.
    - apply (pieces_fill 16); [done..|]. intros s i Hi Hl.
      change BEAMFS_RS_PARITY with 16. change BEAMFS_SUBBLOCK_DATA with 239.
      destruct (sub_input block i Hz B Hi) as [Hd Bd].
      assert (Hl2 : zlen (slice s (i * 16) 16) = 16) by (rewrite zlen_slice; lia).
      pose proof (encode_one_sub _ _ Hd Bd Hl2) as E. destruct (beamfs_rs_encode_region _ _ _ _ _ _ _ _ _) as [rc m].
      cbn [snd] in E. rewrite E. f_equal. apply slice_app_r; [done|]. apply encode_rs8_len; [done|lia]. }
  destruct G as [G1 G2].
  assert (E : slot_fill t cpu mode block sb = slot_value mode block).
  { rewrite slot_value_pieces. by apply (pieces_concat (piece_len mode)). }
  rewrite E in *. done.
Qed.

Lemma bytes_slot_value mode block : zlen block = 4096 -> bytes block -> bytes (slot_value mode block).
Proof.
  intros Hz B. rewrite slot_value_pieces. unfold bytes. apply Forall_concat, Forall_map, Forall_forall.
  intros i Hi%list_elem_of_In%elem_of_upto. by apply bytes_piece.
Qed.

Lemma sub_crc_range block i : bytes block -> 0 <= sub_crc block i < 2 ^ 32.
Proof. intros B. change (sub_crc block i) with (beamfs_crc32 (slice block (i * 239) 239)). apply beamfs_crc32_range. auto with bytes. Qed.

(** A block agrees with its own slot. *)
Lemma verify_crc_clean phys mode block :
  zlen block = 4096 -> bytes block -> mode = BEAMFS_IND_PARITY_CRC ->
  verify_crc phys block (slot_value mode block) = (0, []).
Proof.
  intros Hz B ->. destruct (slot_fill_eq BEAMFS_IND_PARITY_CRC block (zeros 64) Hz B ltac:(done)) as (_ & Hl & Hp).
  unfold verify_crc. change BEAMFS_DATA_INLINE_SUBBLOCKS with 16.
  set (P := fun (n : Z) (st : Z * list rs_call) => st = (0, [])).
  apply (foldl_upto_ind _ P); [lia|done|]. intros i st Hi ->.
  change (piece_len BEAMFS_IND_PARITY_CRC) with 4 in *. unfold get_le32. rewrite Z.mul_comm, Hp by done.
  change (piece BEAMFS_IND_PARITY_CRC block i) with (le_bytes 4 (sub_crc block i)).
  pose proof (sub_crc_range block i B) as Hr. rewrite le_val_le_bytes by lia.
  rewrite Z.mod_small by exact Hr. by rewrite Z.eqb_refl.
Qed.

Lemma decode_one_sub data :
  zlen data = 239 -> bytes data ->
  exists m, beamfs_rs_decode_region t cpu (data ++ encode_rs8 data) 0 239 239 16 239 1 (Some 8) = (0, m, [0], [[]]).
Proof.
  intros Hd B. unfold beamfs_rs_decode_region. change (8 =? 0) with false. change (upto 1) with [0]. cbv iota. cbn [foldl].
  rewrite Z.mul_0_l, !Z.add_0_r, (slice_app_l data _ 239 Hd).
  pose proof (encode_rs8_len data B ltac:(lia)) as L. pose proof (encode_rs8_bytes data B ltac:(lia)) as Bp.
  change BEAMFS_RS_PARITY with 16. rewrite (slice_app_r data _ 239 16 Hd L).
  pose proof (rs_decode_codeword t cpu Hctrl data (encode_rs8 data) (Some 8)) as E. rewrite Hd in E.
  rewrite E; [by eexists| | |].
  - split_and!; [done|done|lia|lia|done].
  - by apply encode_rs8_codeword; [|lia].
  - intros m [= <-]. lia.
Qed.

Lemma verify_rs_clean phys mode block :
  zlen block = 4096 -> bytes block -> mode <> BEAMFS_IND_PARITY_CRC ->
  verify_rs t cpu phys block (slot_value mode block) = (0, []).
Proof.
  intros Hz B Hm. assert (Em : (mode =? BEAMFS_IND_PARITY_CRC) = false) by (by apply Z.eqb_neq).
  assert (Ew : piece_len mode = 16) by (unfold piece_len; by rewrite Em).
  destruct (slot_fill_eq mode block (zeros 256) Hz B ltac:(by rewrite Ew)) as (_ & Hl & Hp). rewrite Ew in Hp.
  unfold verify_rs. change BEAMFS_DATA_INLINE_SUBBLOCKS with 16.
  change BEAMFS_RS_PARITY with 16. change BEAMFS_SUBBLOCK_DATA with 239. change (16 / 2) with 8.
  set (P := fun (n : Z) (st : Z * list rs_call) => st = (0, [])).
  apply (foldl_upto_ind _ P); [lia|done|]. intros i st Hi ->. unfold P. rewrite Hp by done.
  unfold piece. rewrite Em. destruct (sub_input block i Hz B Hi) as [Hd Bd].
  destruct (decode_one_sub _ Hd Bd) as (m & ->). done.
Qed.

(** ** The decode cache *)

Lemma elem_of_insert_inv {A} (l : list A) i x y : y ∈ <[i := x]> l -> y = x \/ y ∈ l.
Proof.
  intros (j & Hj)%list_elem_of_lookup. apply list_lookup_insert_Some in Hj as [(_ & -> & _)|(_ & Hj)]; [by left|].
  right. by eapply list_elem_of_lookup_2.
Qed.

(** An entry of the current generation is the decode of the block it names,
    and no entry is ahead of the mount's counter. *)
Definition cache_ok (v : pvol) (caches : list ind_region_cache) : Prop :=
  forall c, c ∈ caches -> c_gen c <= s_ind_parity_gen v /\
    forall d b, c_data c = Some d -> c_gen c = s_ind_parity_gen v -> pv_buffers v !! c_blocknr c = Some b ->
      exists calls, region_decode t cpu (c_blocknr c) b = (c_ret c, d, calls).

(** The cache changes nothing but the time a read takes. *)
Lemma region_read_spec env v caches blocknr b :
  (cpu < length caches)%nat -> cache_ok v caches -> pv_buffers v !! blocknr = Some b ->
  exists caches' calls, ind_region_read t cpu env caches (s_ind_parity_gen v) blocknr b =
      (fst (region_decode t cpu blocknr b), caches', calls) /\
    cache_ok v caches' /\ length caches' = length caches.
Proof.
  intros Hcpu Hok Hb. unfold ind_region_read.
  destruct (region_decode t cpu blocknr b) as [[ret scratch] calls] eqn:E.
  assert (Hnew : cache_ok v (<[cpu := RCache blocknr (s_ind_parity_gen v) ret (Some scratch)]> caches)).
  { intros c Hc. apply elem_of_insert_inv in Hc as [->|Hc]; [|by apply Hok].
    cbn [c_gen c_data c_blocknr c_ret]. split; [lia|]. intros d b' [= <-] _ Hb'.
    rewrite Hb in Hb'. injection Hb' as <-. exists calls. done. }
  destruct (c_data (get_cache caches cpu)) as [d|] eqn:Ed.
  - destruct (_ && _) eqn:Hit.
    + apply andb_prop in Hit as [H1%Z.eqb_eq H2%Z.eqb_eq].
      assert (Hin : get_cache caches cpu ∈ caches) by (apply list_elem_of_In, nth_In; done).
      destruct (Hok _ Hin) as [_ H]. rewrite <- H1 in Hb. destruct (H d b Ed H2 Hb) as (calls' & H').
      rewrite H1, E in H'. injection H' as -> -> <-. by eexists _, _.
    + eexists _, _. split; [reflexivity|]. split; [done|by rewrite length_insert].
  - eexists _, _. split; [reflexivity|]. destruct (pe_kmalloc env); [|done]. split; [done|by rewrite length_insert].
Qed.
End region.
