(* ===== verification/DirentTheorems.v ===== *)
(** * Directory blocks: layout and correction *)

From S2P Require Import Prelude Format RsInit GF RsTheory RsCode RsCorrect RsDecode RsLib RsComplete Edac EdacWord EdacBlock EdacLayouts EdacTheorems Dirent.

(** ** Spreading and gathering the payload *)

Definition sub_data (b : list Z) (i : Z) : list Z :=
  slice b (i * BEAMFS_SUBBLOCK_DATA) BEAMFS_SUBBLOCK_DATA.

Ltac dir_consts := change BEAMFS_SUBBLOCK_TOTAL with 255 in *; change BEAMFS_SUBBLOCK_DATA with 239 in *;
  change BEAMFS_DATA_INLINE_SUBBLOCKS with 16 in *; change BEAMFS_DATA_INLINE_BYTES with 3824 in *;
  change BEAMFS_BLOCK_SIZE with 4096 in *; change BEAMFS_DIRENT_MIN_LEN with 16 in *;
  change BEAMFS_DIRENT_HDR_LEN with 12 in *; change BEAMFS_DIRENT_NOSPACE with 4294967295 in *.

Lemma spread_spec b :
  zlen b = 4096 -> bytes b ->
  zlen (dirent_spread b) = 4096 /\ bytes (dirent_spread b) /\
  forall i, 0 <= i < 16 -> slice (dirent_spread b) (i * 255) 239 = sub_data b i.
Proof.
  intros Hz Hb. unfold dirent_spread, sub_data. dir_consts.
  set (P := fun j b' => zlen b' = 4096 /\ bytes b' /\
    (forall i, j <= i < 16 -> slice b' (i * 255) 239 = slice b (i * 239) 239) /\
    (forall a, 0 <= a < j * 239 -> getb b' a = getb b a)).
  match goal with |- zlen ?x = _ /\ _ => enough (G : P 0 x) by (destruct G as (? & ? & ? & _); auto) end.
  apply (foldl_downto_ind _ P); [lia| |].
  - split_and!; [done|done|lia|done].
  - intros j b' Hj (Lz & B & D & K).
    assert (Hs : zlen (slice b' (j * 239) 239) = 239) by (rewrite zlen_slice; lia).
    assert (Es : slice b' (j * 239) 239 = slice b (j * 239) 239).
    { apply bytes_ext; rewrite !zlen_slice by lia; [done|]. intros k Hk.
      rewrite !getb_slice by lia. apply K. lia. }
    split_and!; [zlen|auto with bytes| |].
    + intros i Hi. destruct (decide (i = j)) as [->|Hne].
      * rewrite <- Es. apply slice_splice_len; lia.
      * rewrite slice_splice_ne by lia. apply D. lia.
    + intros a Ha. rewrite getb_splice_out by lia. apply K. lia.
Qed.

Lemma gather_spec b :
  zlen b = 4096 -> bytes b ->
  zlen (dirent_gather b) = 4096 /\ bytes (dirent_gather b) /\
  forall i, 0 <= i < 16 -> sub_data (dirent_gather b) i = slice b (i * 255) 239.
Proof.
  intros Hz Hb. unfold dirent_gather, sub_data. dir_consts.
  set (P := fun j b' => zlen b' = 4096 /\ bytes b' /\
    (forall i, 0 <= i < j -> slice b' (i * 239) 239 = slice b (i * 255) 239) /\
    (forall a, j * 239 <= a -> getb b' a = getb b a)).
  match goal with |- zlen ?x = _ /\ _ => enough (G : P 16 x) by (destruct G as (? & ? & ? & _); auto) end.
  apply (foldl_upto_ind _ P); [lia| |].
  - split_and!; [done|done|lia|done].
  - intros j b' Hj (Lz & B & D & K).
    assert (Hs : zlen (slice b' (j * 255) 239) = 239) by (rewrite zlen_slice; lia).
    assert (Es : slice b' (j * 255) 239 = slice b (j * 255) 239).
    { apply bytes_ext; rewrite !zlen_slice by lia; [done|]. intros k Hk.
      rewrite !getb_slice by lia. apply K. lia. }
    split_and!; [zlen|auto with bytes| |].
    + intros i Hi. destruct (decide (i = j)) as [->|Hne].
      * rewrite <- Es. apply slice_splice_len; lia.
      * rewrite slice_splice_ne by lia. apply D. lia.
    + intros a Ha. rewrite getb_splice_out by lia. apply K. lia.
Qed.

(** Sixteen subblocks of 239 bytes are the payload. *)
Lemma payload_ext b1 b2 :
  zlen b1 = 4096 -> zlen b2 = 4096 -> (forall i, 0 <= i < 16 -> sub_data b1 i = sub_data b2 i) ->
  slice b1 0 3824 = slice b2 0 3824.
Proof.
  intros H1 H2 E. apply bytes_ext; rewrite !zlen_slice by lia; [done|]. intros a Ha.
  rewrite !getb_slice by lia. pose proof (Z.div_mod a 239 ltac:(lia)).
  pose proof (Z.mod_pos_bound a 239 ltac:(lia)).
  specialize (E (a / 239) ltac:(lia)). apply (f_equal (fun l => getb l (a mod 239))) in E.
  unfold sub_data in E. dir_consts. rewrite !getb_slice in E by lia.
  replace (0 + a) with (a / 239 * 239 + a mod 239) by lia. exact E.
Qed.

Lemma alternating_data b i :
  zlen b = 4096 -> 0 <= i < 16 -> cw_data alternating b i = slice b (i * 255) 239.
Proof.
  intros Hz Hi. symmetry.
  pose proof (region_data 4096 0 255 239 255 239 16 (LO := alternating_ok) b i Hz Hi) as E.
  by rewrite Z.add_0_l in E.
Qed.

Lemma upto_map_const {A} (x : A) n : 0 <= n -> map (fun _ => x) (upto n) = replicate (Z.to_nat n) x.
Proof. intros. rewrite map_const_replicate. unfold upto. by rewrite length_seqZ. Qed.

(** ** Round trip and correction *)

Section decode.
Context `{RL : !RsLib} `{RS : !RsLibSpec} (t : rs_tables) (cpu : nat).
Context (Hctrl : ctrl_here t cpu = true).

Lemma half_parity : forall m : Z, Some (BEAMFS_RS_PARITY / 2) = Some m -> 0 < m.
Proof. intros m [= <-]. done. Qed.

(** What is written for a payload: the encoding of its spread. *)
Lemma dirent_encode_spec b :
  zlen b = 4096 -> bytes b -> encoded alternating (dirent_spread b) (beamfs_dirent_encode t cpu b).
Proof.
  intros Hz Hb. destruct (spread_spec b Hz Hb) as (Zs & Bs & _).
  destruct (encode_region_encoded t cpu Hctrl _ _ _ _ _ _ _ (LO := alternating_ok) (dirent_spread b) Zs Bs)
    as (m & E & En).
  unfold beamfs_dirent_encode. rewrite E. exact En.
Qed.

(** The report over results that are not negative. *)
Lemma report_ok blocknr (res : Z -> Z) positions n :
  0 <= n -> (forall i, 0 <= i < n -> 0 <= res i) ->
  exists calls, foldl (dirent_report blocknr (map res (upto n)) positions) (0, 0, []) (upto n) =
    (zlen (filter (fun i => 0 < res i) (upto n)), 0, calls).
Proof.
  intros Hn Hr.
  set (P := fun j (st : Z * Z * list rs_call) => j <= n -> exists calls,
    st = (zlen (filter (fun i => 0 < res i) (upto j)), 0, calls)).
  match goal with |- exists _, ?x = _ => enough (G : P n x) by (apply G; lia) end.
  apply (foldl_upto_ind _ P); [done| |].
  - intros _. rewrite upto_0. by eexists.
  - intros i st Hi IH _. destruct IH as (calls & ->); [lia|]. rewrite upto_succ by lia.
    rewrite list.filter_app, zlen_app. unfold dirent_report.
    rewrite getb_map, getb_upto by zlen. specialize (Hr i Hi). rewrite filter_cons, filter_nil.
    destruct (0 <? res i) eqn:E1.
    + rewrite decide_True by lia. eexists. reflexivity.
    + rewrite decide_False by lia. destruct (res i <? 0) eqn:E2; [lia|]. exists calls.
      change (zlen (@nil Z)) with 0. by rewrite Z.add_0_r.
Qed.

Lemma dirent_decode_encoded blocknr b :
  zlen b = 4096 -> bytes b ->
  exists dst, beamfs_dirent_decode t cpu blocknr (beamfs_dirent_encode t cpu b) = (0, dst, []) /\
    zlen dst = 4096 /\ bytes dst /\ slice dst 0 3824 = slice b 0 3824.
Proof.
  intros Hz Hb. destruct (spread_spec b Hz Hb) as (Zs & Bs & Ds).
  pose proof (dirent_encode_spec b Hz Hb) as En. unfold beamfs_dirent_decode.
  rewrite (decode_region_clean t cpu Hctrl _ _ _ _ _ _ _ (LO := alternating_ok) _ _ _ half_parity Zs Bs En).
  change (foldl _ _ _) with (0, 0, @nil rs_call) at 1.
  destruct (gather_spec (beamfs_dirent_encode t cpu b)) as (Zg & Bg & Dg); [apply En|apply En|].
  eexists. split; [reflexivity|]. split_and!; [done|done|].
  apply payload_ext; [done|done|]. intros i Hi. rewrite Dg by done.
  rewrite <- alternating_data by (done || apply En). rewrite (en_data _ _ _ En) by done.
  rewrite alternating_data by done. by apply Ds.
Qed.

Context `{RB : !RsLibBounded}.

Lemma dirent_decode_damaged blocknr b hit :
  zlen b = 4096 -> bytes b -> zlen hit = 4096 -> bytes hit ->
  (forall i, 0 <= i < 16 -> damage alternating (beamfs_dirent_encode t cpu b) hit i <= 8) ->
  exists n dst calls, beamfs_dirent_decode t cpu blocknr hit = (n, dst, calls) /\
    0 <= n <= 16 /\ zlen dst = 4096 /\ bytes dst /\ slice dst 0 3824 = slice b 0 3824.
Proof.
  intros Hz Hb Hh Bh D. destruct (spread_spec b Hz Hb) as (Zs & Bs & Ds).
  pose proof (dirent_encode_spec b Hz Hb) as En.
  destruct (decode_region_restores t cpu Hctrl _ _ _ _ _ _ _ (LO := alternating_ok) _ _ hit _
    half_parity Zs Bs En Bh Hh D) as (fixed & De & R & Dt & E).
  unfold beamfs_dirent_decode. change (region_layout _ _ _ _ _ _ _) with alternating in *.
  rewrite E. clear E. change BEAMFS_DATA_INLINE_SUBBLOCKS with 16.
  destruct (report_ok blocknr (fun i => fst (fst (dec1 t cpu alternating (Some (BEAMFS_RS_PARITY / 2)) hit i)))
    (map (fun i => snd (dec1 t cpu alternating (Some (BEAMFS_RS_PARITY / 2)) hit i)) (upto 16)) 16)
    as (calls & Ec); [lia|exact R|].
  rewrite Ec. cbn [Z.ltb Z.compare].
  destruct (gather_spec fixed) as (Zg & Bg & Dg); [apply De|apply De|].
  do 3 eexists. split; [reflexivity|]. split_and!.
  - apply zlen_nonneg.
  - transitivity (zlen (upto 16)); [|by rewrite zlen_upto]. unfold zlen. apply inj_le, length_filter.
  - done.
  - done.
  - apply payload_ext; [done|done|]. intros i Hi. rewrite Dg by done.
    rewrite <- alternating_data by (done || apply De). rewrite Dt by done.
    rewrite alternating_data by done. by apply Ds.
Qed.
End decode.

(** A directory block reads back as it was written: decoding an encoded
    block reports no correction, makes no journal or budget call, and yields
    the 3824 payload bytes. *)
Theorem dirent_roundtrip `{RL : !RsLib} `{RS : !RsLibSpec} t cpu blocknr (b : list Z) :
  ctrl_here t cpu = true -> bytes b -> zlen b = BEAMFS_BLOCK_SIZE ->
  exists dst, beamfs_dirent_decode t cpu blocknr (beamfs_dirent_encode t cpu b) = (0, dst, []) /\
    slice dst 0 BEAMFS_DATA_INLINE_BYTES = slice b 0 BEAMFS_DATA_INLINE_BYTES.
Proof.
  intros Hc Hb Hz. destruct (dirent_decode_encoded t cpu Hc blocknr b Hz Hb) as (dst & E & _ & _ & P).
  by exists dst.
Qed.

Lemma dirent_roundtrip_witness : exists dst,
  beamfs_dirent_decode ex_tables 0 9 (beamfs_dirent_encode ex_tables 0 (zeros 4096)) = (0, dst, []) /\
  slice dst 0 BEAMFS_DATA_INLINE_BYTES = slice (zeros 4096) 0 BEAMFS_DATA_INLINE_BYTES.
Proof.
  destruct (dirent_roundtrip ex_tables 0 9 (zeros 4096)) as (dst & E & P);
    [done|apply bytes_zeros|by rewrite zlen_zeros|].
  exists dst. split; [exact E|exact P].
Defined.

(** A directory block with at most eight damaged symbols in each of its
    codewords decodes to the payload that was written, and says how many
    codewords needed it. *)
Theorem dirent_corrects `{RL : !RsLib} `{RS : !RsLibSpec} `{RB : !RsLibBounded}
    t cpu blocknr (b hit : list Z) :
  ctrl_here t cpu = true -> bytes b -> zlen b = BEAMFS_BLOCK_SIZE ->
  bytes hit -> zlen hit = BEAMFS_BLOCK_SIZE ->
  (forall i, 0 <= i < 16 -> damage alternating (beamfs_dirent_encode t cpu b) hit i <= 8) ->
  exists n dst calls, beamfs_dirent_decode t cpu blocknr hit = (n, dst, calls) /\ 0 <= n <= 16 /\
    slice dst 0 BEAMFS_DATA_INLINE_BYTES = slice b 0 BEAMFS_DATA_INLINE_BYTES.
Proof.
  intros Hc Hb Hz Bh Hh D.
  destruct (dirent_decode_damaged t cpu Hc blocknr b hit Hz Hb Hh Bh D) as (n & dst & calls & E & N & _ & _ & P).
  by exists n, dst, calls.
Qed.

Lemma dirent_corrects_witness : exists n dst calls,
  beamfs_dirent_decode ex_tables 0 9 (zeros 4096) = (n, dst, calls) /\ 0 <= n <= 16.
Proof.
  destruct (dirent_corrects ex_tables 0 9 (zeros 4096) (zeros 4096)) as (n & dst & calls & E & N & _).
  - done.
  - apply bytes_zeros.
  - by rewrite zlen_zeros.
  - apply bytes_zeros.
  - by rewrite zlen_zeros.
  - intros i Hi. assert (beamfs_dirent_encode ex_tables 0 (zeros 4096) = zeros 4096) as ->
      by (vm_compute; reflexivity). unfold damage. rewrite hamming_refl. lia.
  - exists n, dst, calls. split; [exact E|exact N].
Defined.

(** ** Placement *)

(** [len] bytes at [p] lie in the payload, and inside one subblock. *)
Definition fits (p len : Z) : Prop :=
  p + len <= BEAMFS_DATA_INLINE_BYTES /\ p / BEAMFS_SUBBLOCK_DATA = (p + len - 1) / BEAMFS_SUBBLOCK_DATA.

(** For a record that can be held by one subblock, [beamfs_dirent_place]
    returns the first offset at or after the cursor where the record lies in
    one subblock of the payload, and NOSPACE exactly when there is none. *)
Theorem dirent_place_least off len :
  0 <= off <= BEAMFS_DATA_INLINE_BYTES -> 0 < len <= BEAMFS_SUBBLOCK_DATA ->
  let p := beamfs_dirent_place off len in
  (p = BEAMFS_DIRENT_NOSPACE /\ forall q, off <= q -> ~ fits q len) \/
  (off <= p /\ fits p len /\ forall q, off <= q < p -> ~ fits q len).
Proof.
  intros Ho Hl p. subst p. unfold beamfs_dirent_place, beamfs_dirent_sub_end, fits. dir_consts.
  pose proof (Z.div_mod off 239 ltac:(lia)). pose proof (Z.mod_pos_bound off 239 ltac:(lia)).
  unfold u32. rewrite !(Z.mod_small _ (2 ^ 32)) by lia.
  destruct (3824 <? off + len) eqn:E1.
  { left. split; [done|]. intros q Hq [? _]. lia. }
  destruct (239 <? len) eqn:E2; [lia|].
  assert (Hsub : forall q, (q / 239 = (q + len - 1) / 239) <-> q mod 239 + len <= 239).
  { intros q. pose proof (Z.div_mod q 239 ltac:(lia)). pose proof (Z.mod_pos_bound q 239 ltac:(lia)).
    pose proof (Z.div_mod (q + len - 1) 239 ltac:(lia)).
    pose proof (Z.mod_pos_bound (q + len - 1) 239 ltac:(lia)). split; intros; nia. }
  assert (Hbetween : forall q, off <= q < (off / 239 + 1) * 239 -> off mod 239 + len > 239 ->
    ~ (q / 239 = (q + len - 1) / 239)).
  { intros q Hq Hgt. rewrite Hsub. pose proof (Z.div_mod q 239 ltac:(lia)).
    pose proof (Z.mod_pos_bound q 239 ltac:(lia)). assert (q / 239 = off / 239) by nia. lia. }
  destruct (off + len <=? (off / 239 + 1) * 239) eqn:E3.
  { right. split_and!; [lia|lia|apply Hsub; lia|]. intros q Hq. lia. }
  destruct (3824 <? (off / 239 + 1) * 239 + len) eqn:E4.
  - left. split; [done|]. intros q Hq [Hq1 Hq2].
    destruct (decide (q < (off / 239 + 1) * 239)); [|lia]. apply (Hbetween q); [lia|lia|done].
  - right. split_and!; [lia|lia| |].
    + apply Hsub. rewrite Z.mod_mul by lia. lia.
    + intros q Hq [_ Hq2]. apply (Hbetween q); [lia|lia|done].
Qed.

Lemma dirent_place_least_witness :
  let p := beamfs_dirent_place 230 24 in
  (p = BEAMFS_DIRENT_NOSPACE /\ forall q, 230 <= q -> ~ fits q 24) \/
  (230 <= p /\ fits p 24 /\ forall q, 230 <= q < p -> ~ fits q 24).
Proof. apply (dirent_place_least 230 24); vm_compute; split; discriminate || reflexivity. Defined.
