(* ===== verification/DirRecords.v ===== *)
(** * The record chain of a directory payload *)

From S2P Require Import Prelude Format RsInit RsLib Edac Dirent DirentTheorems.

(** ** Fields *)

Lemma rec_len_range p o : bytes p -> 0 <= d_rec_len p o < 65536.
Proof.
  intros Hb. unfold d_rec_len, get_le16.
  pose proof (le_val_range (slice p (o + 8) 2) ltac:(auto with bytes)) as H.
  assert (zlen (slice p (o + 8) 2) <= 2) by (unfold slice, zlen; rewrite length_take; lia).
  pose proof (zlen_nonneg (slice p (o + 8) 2)).
  assert (256 ^ zlen (slice p (o + 8) 2) <= 256 ^ 2) by (apply Z.pow_le_mono_r; lia). lia.
Qed.

Lemma name_len_range p o : bytes p -> 0 <= d_name_len p o < 256.
Proof. intros Hb. apply (bytes_getb p (o + 10) Hb). Qed.

Lemma valid_spec p o :
  bytes p -> 0 <= o <= 3824 ->
  beamfs_dirent_valid p o = true <->
  16 <= d_rec_len p o /\ o + d_rec_len p o <= 3824 /\ 12 + d_name_len p o <= d_rec_len p o.
Proof.
  intros Hb Ho. pose proof (rec_len_range p o Hb). unfold beamfs_dirent_valid, u32. dir_consts.
  rewrite Z.mod_small by lia.
  destruct (d_rec_len p o <? 16) eqn:E1; [split; [done|lia]|].
  destruct (3824 <? o + d_rec_len p o) eqn:E2; [split; [done|lia]|].
  destruct (d_rec_len p o <? 12 + d_name_len p o) eqn:E3; [split; [done|lia]|].
  split; [lia|done].
Qed.

Lemma next_valid p o :
  bytes p -> 0 <= o <= 3824 -> beamfs_dirent_valid p o = true ->
  beamfs_dirent_next p o = o + d_rec_len p o.
Proof.
  intros Hb Ho V%valid_spec; [|done|done]. unfold beamfs_dirent_next, u32. dir_consts.
  rewrite Z.mod_small by lia.
  destruct (d_rec_len p o <? 16) eqn:E1; [lia|]. by destruct (3824 <? o + d_rec_len p o) eqn:E2; [lia|].
Qed.

(** ** The walk terminates *)

(** Fuel past the payload's sixteenth changes nothing. *)
Lemma walk_enough {S R} p (step : S -> Z -> S + R) fuel s off extra :
  bytes p -> 0 <= off -> 3824 - off < 16 * Z.of_nat fuel ->
  dir_walk (fuel + extra) p step s off = dir_walk fuel p step s off.
Proof.
  intros Hb. revert s off. induction fuel as [|fuel IH]; intros s off Ho Hf.
  - destruct extra as [|extra]; [done|]. cbn [Nat.add dir_walk]. dir_consts.
    by destruct (3824 <=? off) eqn:E; [|lia].
  - cbn [Nat.add dir_walk]. dir_consts. destruct (3824 <=? off) eqn:E; [done|].
    destruct (beamfs_dirent_valid p off) eqn:V; [|done]. cbn [negb].
    destruct (step s off) as [s'|r]; [|done]. rewrite next_valid by (done || lia).
    apply valid_spec in V; [|done|lia].
    destruct (off + d_rec_len p off =? 4294967295) eqn:N; [lia|]. apply IH; lia.
Qed.

(** A step that counts itself. *)
Definition counted {S R} (step : S -> Z -> S + R) (st : Z * S) (off : Z) : Z * S + Z * R :=
  match step (snd st) off with inl s => inl (fst st + 1, s) | inr r => inr (fst st + 1, r) end.

(** From [off], no more steps than there are sixteens of bytes ahead. *)
Lemma walk_counted {S R} p (step : S -> Z -> S + R) fuel n s off :
  bytes p -> 0 <= off <= 3824 ->
  match dir_walk fuel p (counted step) (n, s) off with
  | inl (m, s') => n <= m <= n + (3824 - off) / 16 /\ dir_walk fuel p step s off = inl s'
  | inr (m, r) => n <= m <= n + (3824 - off) / 16 /\ dir_walk fuel p step s off = inr r
  end.
Proof.
  intros Hb. revert n s off. induction fuel as [|fuel IH]; intros n s off Ho;
    (assert (0 <= (3824 - off) / 16) by (apply Z.div_pos; lia)); [by split; [lia|]|].
  cbn [dir_walk]. dir_consts. destruct (3824 <=? off) eqn:E; [by split; [lia|]|].
  destruct (beamfs_dirent_valid p off) eqn:V; cbn [negb]; [|by split; [lia|]]. rewrite next_valid by (done || lia).
  apply valid_spec in V; [|done|lia]. unfold counted at 1. cbn [fst snd].
  assert (D : (3824 - (off + d_rec_len p off)) / 16 + 1 <= (3824 - off) / 16).
  { rewrite <- Z.div_add by lia. apply Z.div_le_mono; lia. }
  assert (0 <= (3824 - (off + d_rec_len p off)) / 16) by (apply Z.div_pos; lia).
  destruct (step s off) as [s'|r]; [|split; [lia|done]].
  destruct (off + d_rec_len p off =? 4294967295) eqn:N; [lia|].
  specialize (IH (n + 1) s' (off + d_rec_len p off) ltac:(lia)).
  destruct (dir_walk fuel p (counted step) _ _) as [[m ?]|[m ?]]; (split; [lia|apply IH]).
Qed.

(** C30: the walk over a block's records terminates on any payload, however
    damaged: it calls its step at most 239 times, since every record it
    goes on from is at least sixteen bytes, and fuel beyond [walk_fuel]
    changes nothing. *)
Theorem dir_walk_terminates {S R} p (step : S -> Z -> S + R) s fuel :
  bytes p ->
  match dir_walk fuel p (counted step) (0, s) 0 with
  | inl (n, s') => 0 <= n <= 239 /\ dir_walk fuel p step s 0 = inl s'
  | inr (n, r) => 0 <= n <= 239 /\ dir_walk fuel p step s 0 = inr r
  end /\
  ((walk_fuel <= fuel)%nat -> dir_walk fuel p step s 0 = dir_walk walk_fuel p step s 0).
Proof.
  intros Hb. split; [exact (walk_counted p step fuel 0 s 0 Hb ltac:(lia))|]. intros Hf.
  replace fuel with (walk_fuel + (fuel - walk_fuel))%nat by lia. apply walk_enough; [done|lia|]. vm_compute. reflexivity.
Qed.

(** A payload of 239 unused records of sixteen bytes. *)
Definition ex_small_records : list Z := concat (map (fun _ => put_le16 (zeros 16) 8 16) (upto 239)).

Lemma dir_walk_terminates_witness :
  dir_walk 1000 ex_small_records (counted (fun (s : unit) _ => @inl unit unit s)) (0, tt) 0 = inl (239, tt) /\
  dir_walk 1000 ex_small_records (fun (s : unit) _ => @inl unit unit s) tt 0 = inl tt.
Proof.
  assert (B : bytes ex_small_records) by (apply bytes_check; vm_compute; reflexivity).
  pose proof (dir_walk_terminates ex_small_records (fun (s : unit) _ => @inl unit unit s) tt 1000 B) as [H _].
  assert (E : dir_walk 1000 ex_small_records (counted (fun (s : unit) _ => @inl unit unit s)) (0, tt) 0 = inl (239, tt))
    by (vm_compute; reflexivity).
  rewrite E in H. split; [exact E|exact (proj2 H)].
Defined.

(** ** Chains *)

(** [recs p a b l]: from [a], the valid records at the offsets [l] lead to [b]. *)
Inductive recs (p : list Z) : Z -> Z -> list Z -> Prop :=
  | recs_nil a : recs p a a []
  | recs_cons o b l : beamfs_dirent_valid p o = true -> recs p (o + d_rec_len p o) b l ->
      recs p o b (o :: l).

Lemma recs_app p a b c l1 l2 : recs p a b l1 -> recs p b c l2 -> recs p a c (l1 ++ l2).
Proof. induction 1; intros; [done|]. cbn [app]. constructor; auto. Qed.

Lemma recs_split p a c l1 l2 : recs p a c (l1 ++ l2) -> exists b, recs p a b l1 /\ recs p b c l2.
Proof.
  revert a. induction l1 as [|o l1 IH]; intros a H; cbn [app] in H; [by exists a; split; [constructor|]|].
  inversion H; subst. destruct (IH _ H5) as (b & H1 & H2). exists b. split; [by constructor|done].
Qed.

Lemma recs_cons_inv p a b o l :
  recs p a b (o :: l) -> a = o /\ beamfs_dirent_valid p o = true /\ recs p (o + d_rec_len p o) b l.
Proof. inversion 1; subst. done. Qed.

Lemma recs_nil_inv p a b : recs p a b [] -> a = b.
Proof. by inversion 1. Qed.

Lemma recs_fun p a b c l : recs p a b l -> recs p a c l -> b = c.
Proof.
  intros H. revert c. induction H as [a|o b l V H IH]; intros c H2.
  - by apply recs_nil_inv in H2.
  - apply recs_cons_inv in H2 as (_ & _ & H2). by apply IH.
Qed.

(** Chains inside the payload advance by sixteen bytes a record. *)
Lemma recs_bound p a b l :
  bytes p -> 0 <= a <= 3824 -> recs p a b l -> a + 16 * zlen l <= b /\ (l <> [] -> b <= 3824).
Proof.
  intros Hb Ha H. induction H as [a|o b l V H IH].
  - split; [change (zlen (@nil Z)) with 0; lia|done].
  - apply valid_spec in V; [|done|done]. destruct IH as [IH1 IH2]; [lia|]. rewrite zlen_cons.
    split; [lia|]. intros _. destruct l as [|x l]; [|by apply IH2].
    apply recs_nil_inv in H. lia.
Qed.

Lemma recs_in p a b l o :
  bytes p -> 0 <= a <= 3824 -> recs p a b l -> o ∈ l ->
  a <= o /\ beamfs_dirent_valid p o = true /\ o + d_rec_len p o <= b /\ o + d_rec_len p o <= 3824.
Proof.
  intros Hb Ha H Hin. apply list_elem_of_split in Hin as (l1 & l2 & ->).
  apply recs_split in H as (c & H1 & H2). pose proof (recs_bound p a c l1 Hb Ha H1) as B1.
  apply recs_cons_inv in H2 as (-> & V & H2).
  assert (Ho : 0 <= o <= 3824).
  { pose proof (zlen_nonneg l1). destruct l1 as [|x l1']; [apply recs_nil_inv in H1; lia|].
    destruct B1 as [? B1]. specialize (B1 ltac:(done)). lia. }
  pose proof V as V'. apply valid_spec in V'; [|done|done]. pose proof (zlen_nonneg l1). pose proof (zlen_nonneg l2).
  pose proof (recs_bound p (o + d_rec_len p o) b l2 Hb ltac:(lia) H2). split_and!; [lia|done|lia|lia].
Qed.

(** ** A walk along a chain *)

Lemma walk_recs {S R} p (step : S -> Z -> S + R) fuel s a l :
  bytes p -> 0 <= a <= 3824 -> recs p a 3824 l -> zlen l < Z.of_nat fuel ->
  dir_walk fuel p step s a = fold_until step s l.
Proof.
  intros Hb. revert s a fuel. induction l as [|o l IH]; intros s a fuel Ha H Hf.
  - apply recs_nil_inv in H as ->. destruct fuel as [|fuel]; [done|]. done.
  - apply recs_cons_inv in H as (-> & V & H). destruct fuel as [|fuel]; [rewrite zlen_cons in Hf; pose proof (zlen_nonneg l); lia|].
    cbn [dir_walk fold_until]. pose proof V as V'. apply valid_spec in V'; [|done|done].
    dir_consts. destruct (3824 <=? o) eqn:E; [lia|]. rewrite V. cbn [negb].
    destruct (step s o) as [s'|r]; [|done]. rewrite next_valid by done.
    destruct (o + d_rec_len p o =? 4294967295) eqn:N; [lia|].
    apply IH; [lia|done|]. rewrite zlen_cons in Hf. lia.
Qed.

Lemma walk_all {S R} p (step : S -> Z -> S + R) s l :
  bytes p -> recs p 0 3824 l -> dir_walk walk_fuel p step s 0 = fold_until step s l.
Proof.
  intros Hb H. apply walk_recs; [done|lia|done|].
  pose proof (recs_bound p 0 3824 l Hb ltac:(lia) H). unfold walk_fuel. lia.
Qed.

(** ** The entries of a directory block

    A payload whose record chain covers it exactly is read as the list of
    its live entries; the walks of DirWalk are then operations on that
    list: find, insert, remove. *)

(** ** Entries *)

Record dentry := Dentry { e_ino : Z; e_name : list Z; e_type : Z }.

Definition entry (p : list Z) (o : Z) : dentry := Dentry (d_ino p o) (d_name p o) (d_file_type p o).

Definition entries (p : list Z) (l : list Z) : list dentry :=
  map (entry p) (filter (fun o => d_ino p o <> 0) l).

(** The chain covers the payload, and a live record keeps less slack than a
    record could use. *)
Record wf_payload (p : list Z) (l : list Z) : Prop := {
  wf_bytes : bytes p;
  wf_len : zlen p = BEAMFS_BLOCK_SIZE;
  wf_recs : recs p 0 3824 l;
  wf_slack : forall o, o ∈ l -> d_ino p o <> 0 ->
    0 <= d_rec_len p o - BEAMFS_DIRENT_LEN (d_name_len p o) < BEAMFS_DIRENT_MIN_LEN }.

(** A free record of at least [want] bytes. *)
Definition has_room (p l : list Z) (want : Z) : Prop := exists o, o ∈ l /\ d_ino p o = 0 /\ want <= d_rec_len p o.

Lemma entries_app p l1 l2 : entries p (l1 ++ l2) = entries p l1 ++ entries p l2.
Proof. unfold entries. by rewrite list.filter_app, map_app. Qed.

Lemma entries_live p o l : d_ino p o <> 0 -> entries p (o :: l) = entry p o :: entries p l.
Proof. intros. unfold entries. rewrite filter_cons_True by done. done. Qed.

Lemma entries_free p o l : d_ino p o = 0 -> entries p (o :: l) = entries p l.
Proof. intros H. unfold entries. rewrite filter_cons_False; [done|]. intros N. by apply N. Qed.

(** ** Payloads that agree on a range *)

Definition agree (p p' : list Z) (a b : Z) : Prop := forall x, a <= x < b -> getb p' x = getb p x.

Lemma slice_agree p p' a b off n :
  zlen p = 4096 -> zlen p' = 4096 -> agree p p' a b -> 0 <= off -> 0 <= n -> a <= off -> off + n <= b ->
  b <= 4096 -> slice p' off n = slice p off n.
Proof.
  intros H1 H2 A Ho Hn Ha Hb Hl. apply bytes_ext; rewrite !zlen_slice by lia; [done|].
  intros k Hk. rewrite !getb_slice by lia. apply A. lia.
Qed.

Lemma rec_agree p p' o :
  zlen p = 4096 -> zlen p' = 4096 -> bytes p -> 0 <= o <= 3824 -> beamfs_dirent_valid p o = true ->
  agree p p' o (o + d_rec_len p o) ->
  beamfs_dirent_valid p' o = true /\ d_rec_len p' o = d_rec_len p o /\ d_name_len p' o = d_name_len p o /\
  d_ino p' o = d_ino p o /\ entry p' o = entry p o.
Proof.
  intros H1 H2 Hb Ho V A. pose proof V as V'. apply valid_spec in V'; [|done|done].
  pose proof (name_len_range p o Hb).
  assert (Er : d_rec_len p' o = d_rec_len p o).
  { unfold d_rec_len at 1 2, get_le16. f_equal. apply (slice_agree p p' o (o + d_rec_len p o)); lia || done. }
  assert (En : d_name_len p' o = d_name_len p o) by (apply A; lia).
  assert (Ei : d_ino p' o = d_ino p o).
  { unfold d_ino, get_le64. f_equal. apply (slice_agree p p' o (o + d_rec_len p o)); lia || done. }
  split_and!; try done.
  - unfold beamfs_dirent_valid in *. by rewrite Er, En.
  - unfold entry. rewrite Ei. f_equal; [|apply A; lia]. unfold d_name. rewrite En.
    apply (slice_agree p p' o (o + d_rec_len p o)); lia || done.
Qed.

Lemma recs_agree p p' a b l :
  zlen p = 4096 -> zlen p' = 4096 -> bytes p -> 0 <= a <= 3824 -> recs p a b l -> agree p p' a b ->
  recs p' a b l /\ entries p' l = entries p l /\
  forall o, o ∈ l -> d_rec_len p' o = d_rec_len p o /\ d_name_len p' o = d_name_len p o /\ d_ino p' o = d_ino p o.
Proof.
  intros H1 H2 Hb Ha H. induction H as [a|o b l V H IH]; intros A.
  { split_and!; [constructor|done|]. intros o Ho. by apply elem_of_nil in Ho. }
  pose proof V as V'. apply valid_spec in V'; [|done|done].
  pose proof (recs_bound p (o + d_rec_len p o) b l Hb ltac:(lia) H) as [B _]. pose proof (zlen_nonneg l).
  destruct (rec_agree p p' o H1 H2 Hb Ha V) as (V2 & Er & En & Ei & Ee); [intros x Hx; apply A; lia|].
  destruct IH as (I1 & I2 & I3); [lia|intros x Hx; apply A; lia|]. split_and!.
  - constructor; [done|]. by rewrite Er.
  - destruct (decide (d_ino p o = 0)) as [Z0|NZ].
    + rewrite !entries_free by congruence. done.
    + rewrite !entries_live by congruence. by rewrite Ee, I2.
  - intros x Hx. apply elem_of_cons in Hx as [->|Hx]; [done|by apply I3].
Qed.
