(* ===== verification/DirOps.v ===== *)
(** * One directory block: lookup, insertion and removal are correct *)

From S2P Require Import Prelude Format RsInit RsLib Edac Dirent DirentTheorems DirRecords.

(** ** Lookup *)

Definition find_entry (name : list Z) (es : list dentry) : option dentry :=
  find (fun e => bool_decide (e_name e = name)) es.

Lemma name_matches_spec p o name :
  bytes p -> zlen p = 4096 -> 0 <= o <= 3824 -> beamfs_dirent_valid p o = true ->
  name_matches p o name = negb (d_ino p o =? 0) && bool_decide (d_name p o = name).
Proof.
  intros Hb Hz Ho V. apply valid_spec in V; [|done|done]. pose proof (name_len_range p o Hb).
  unfold name_matches, d_name. dir_consts. destruct (negb (d_ino p o =? 0)); [|done]. cbn [andb].
  destruct (d_name_len p o =? zlen name) eqn:E; cbn [andb].
  - apply Z.eqb_eq in E. by rewrite E.
  - symmetry. apply bool_decide_eq_false. intros N. apply (f_equal zlen) in N.
    rewrite zlen_slice in N by lia. lia.
Qed.

(** What [recs_in] says of a record of a whole payload. *)
Lemma wf_in p l o :
  wf_payload p l -> o ∈ l ->
  0 <= o <= 3808 /\ beamfs_dirent_valid p o = true /\ 16 <= d_rec_len p o /\ o + d_rec_len p o <= 3824.
Proof.
  intros W Hin. destruct (recs_in p 0 3824 l o (wf_bytes _ _ W) ltac:(lia) (wf_recs _ _ W) Hin) as (? & V & _ & ?).
  pose proof (rec_len_range p o (wf_bytes _ _ W)).
  pose proof V as V'. apply valid_spec in V'; [|apply W|lia]. split_and!; done || lia.
Qed.

(** A walk that stops at the first live record whose name matches. *)
Lemma fold_matching {S R} p l name (f : S -> Z -> R) (g : S -> Z -> S) s :
  wf_payload p l -> forall l2, (forall o, o ∈ l2 -> o ∈ l) ->
  match fold_until (fun s o => if name_matches p o name then inr (f s o) else inl (g s o)) s l2 with
  | inl _ => find_entry name (entries p l2) = None
  | inr r => exists l1 o l3, l2 = l1 ++ o :: l3 /\ d_ino p o <> 0 /\ d_name p o = name /\
      r = f (foldl g s l1) o /\ find_entry name (entries p l1) = None
  end.
Proof.
  intros W l2. revert s. induction l2 as [|o l2 IH]; intros s Hsub; [done|]. cbn [fold_until].
  destruct (wf_in p l o W ltac:(apply Hsub; left)) as (Ho & V & _ & _).
  rewrite name_matches_spec by (done || apply W || lia).
  destruct (d_ino p o =? 0) eqn:E0; cbn [negb andb].
  - specialize (IH (g s o) ltac:(intros; apply Hsub; by right)). apply Z.eqb_eq in E0.
    destruct (fold_until _ (g s o) l2) as [s'|r].
    + by rewrite entries_free.
    + destruct IH as (l1 & x & l3 & -> & ? & ? & ? & ?). exists (o :: l1), x, l3.
      rewrite entries_free by done. done.
  - apply Z.eqb_neq in E0. destruct (bool_decide (d_name p o = name)) eqn:En.
    + apply bool_decide_eq_true in En. by exists [], o, l2.
    + specialize (IH (g s o) ltac:(intros; apply Hsub; by right)).
      assert (Hf : forall es, find_entry name (entry p o :: es) = find_entry name es).
      { intros es. unfold find_entry. cbn [find e_name entry]. by rewrite En. }
      destruct (fold_until _ (g s o) l2) as [s'|r].
      * rewrite entries_live by done. by rewrite Hf.
      * destruct IH as (l1 & x & l3 & -> & ? & ? & ? & ?). exists (o :: l1), x, l3.
        rewrite entries_live by done. rewrite Hf. done.
Qed.

Lemma find_entry_app name es1 e es2 :
  find_entry name es1 = None -> e_name e = name -> find_entry name (es1 ++ e :: es2) = Some e.
Proof.
  unfold find_entry. induction es1 as [|x es1 IH]; intros H En; cbn [app find] in *.
  - by rewrite bool_decide_eq_true_2.
  - destruct (bool_decide (e_name x = name)); [done|]. by apply IH.
Qed.

Lemma lookup_payload_spec p l name :
  wf_payload p l -> lookup_payload p name = option_map e_ino (find_entry name (entries p l)).
Proof.
  intros W. unfold lookup_payload. rewrite (walk_all _ _ _ l) by apply W.
  pose proof (fold_matching p l name (fun (_ : unit) o => d_ino p o) (fun _ _ => tt) tt W l (fun _ H => H)) as H.
  destruct (fold_until _ tt l) as [s|r]; [by rewrite H|].
  destruct H as (l1 & o & l3 & -> & NZ & En & -> & Hn).
  rewrite entries_app, entries_live by done. by rewrite (find_entry_app _ _ (entry p o) _ Hn En).
Qed.

(** ** Insertion *)

Definition name_ok (name : list Z) : Prop := bytes name /\ 1 <= zlen name <= BEAMFS_MAX_FILENAME.

Lemma dirent_len_range n : 0 <= n -> 12 + n <= BEAMFS_DIRENT_LEN n < 12 + n + 4.
Proof.
  intros. unfold BEAMFS_DIRENT_LEN, BEAMFS_DIRENT_HDR_LEN, BEAMFS_DIRENT_ALIGN.
  pose proof (Z.div_mod (12 + n + 4 - 1) 4 ltac:(lia)). pose proof (Z.mod_pos_bound (12 + n + 4 - 1) 4 ltac:(lia)).
  lia.
Qed.

Lemma dirent_len_name name : name_ok name ->
  u16 (BEAMFS_DIRENT_LEN (zlen name)) = BEAMFS_DIRENT_LEN (zlen name) /\
  16 <= BEAMFS_DIRENT_LEN (zlen name) < 271 /\ 12 + zlen name <= BEAMFS_DIRENT_LEN (zlen name).
Proof.
  intros [_ Hl]. unfold BEAMFS_MAX_FILENAME in Hl. pose proof (dirent_len_range (zlen name) ltac:(lia)).
  assert (16 <= BEAMFS_DIRENT_LEN (zlen name)).
  { unfold BEAMFS_DIRENT_LEN, BEAMFS_DIRENT_HDR_LEN, BEAMFS_DIRENT_ALIGN in *. lia. }
  unfold u16. rewrite Z.mod_small by lia. lia.
Qed.

(** The bytes [place_it] writes over the record. *)
Definition rec_image (ino keep : Z) (name : list Z) (file_type : Z) : list Z :=
  le_bytes 8 ino ++ le_bytes 2 keep ++ [u8 (zlen name); file_type] ++ name.

Lemma zlen_rec_image ino keep name ft : zlen (rec_image ino keep name ft) = 12 + zlen name.
Proof. unfold rec_image. rewrite !zlen_app, !zlen_le_bytes. change (zlen [u8 (zlen name); ft]) with 2. lia. Qed.

Lemma header_image p o ino keep name ft :
  0 <= o -> o + 12 + zlen name <= zlen p ->
  splice (setb (setb (put_le16 (put_le64 (splice p o (zeros 12)) o ino) (o + 8) keep) (o + 10)
    (u8 (zlen name))) (o + 11) ft) (o + 12) name = splice p o (rec_image ino keep name ft).
Proof.
  intros Ho Hl. pose proof (zlen_nonneg name). unfold put_le16, put_le64.
  assert (Z12 : zlen (zeros 12) = 12) by done.
  set (q := splice p o (zeros 12)). assert (Hq : zlen q = zlen p) by (unfold q; rewrite zlen_splice; lia).
  assert (L8 : zlen (le_bytes 8 ino) = 8) by apply zlen_le_bytes.
  assert (L2 : zlen (le_bytes 2 keep) = 2) by apply zlen_le_bytes.
  assert (L1 : forall x : Z, zlen [x] = 1) by done.
  rewrite (splice_cat q) by lia.
  rewrite (setb_splice _ (o + 10)) by (rewrite zlen_splice; rewrite ?zlen_app; lia).
  rewrite (splice_cat q) by (rewrite ?zlen_app; rewrite ?L1; lia).
  rewrite (setb_splice _ (o + 11)) by (rewrite zlen_splice; rewrite ?zlen_app; rewrite ?L1; lia).
  rewrite (splice_cat q) by (rewrite ?zlen_app; rewrite ?L1; lia).
  rewrite (splice_cat q) by (rewrite ?zlen_app; rewrite ?L1; lia).
  unfold q. rewrite splice_cover by (rewrite ?zlen_app; rewrite ?L1; lia).
  unfold rec_image. by rewrite <- !app_assoc.
Qed.

(** A record whose image has been written. *)
Lemma rec_image_fields p o ino keep name ft :
  0 <= o -> o + 12 + zlen name <= zlen p -> 0 <= ino < 2 ^ 64 -> 0 <= keep < 2 ^ 16 ->
  zlen name <= 255 -> 
  let p' := splice p o (rec_image ino keep name ft) in
  d_ino p' o = ino /\ d_rec_len p' o = keep /\ d_name_len p' o = zlen name /\
  entry p' o = Dentry ino name ft.
Proof.
  intros Ho Hl Hi Hk Hn p'. pose proof (zlen_nonneg name). pose proof (zlen_rec_image ino keep name ft) as Hr.
  assert (Ei : d_ino p' o = ino).
  { unfold d_ino, get_le64, p'. rewrite slice_splice_in by lia. rewrite Z.sub_diag.
    change (slice (rec_image ino keep name ft) 0 8) with (le_bytes 8 ino).
    rewrite le_val_le_bytes by lia. apply Z.mod_small. lia. }
  assert (Ek : d_rec_len p' o = keep).
  { unfold d_rec_len, get_le16, p'. rewrite slice_splice_in by lia.
    replace (o + 8 - o) with 8 by lia.
    change (slice (rec_image ino keep name ft) 8 2) with (le_bytes 2 keep).
    rewrite le_val_le_bytes by lia. apply Z.mod_small. lia. }
  assert (En : d_name_len p' o = zlen name).
  { unfold d_name_len, p'. rewrite getb_splice_in by lia. replace (o + 10 - o) with 10 by lia.
    change (getb (rec_image ino keep name ft) 10) with (u8 (zlen name)). apply Z.mod_small. lia. }
  split_and!; [done..|]. unfold entry. rewrite Ei. f_equal.
  - unfold d_name. rewrite En. unfold p'. rewrite slice_splice_in by lia.
    replace (o + 12 - o) with 12 by lia. unfold slice, rec_image.
    rewrite !app_assoc, drop_app_le by (rewrite !length_app, !length_le_bytes; simpl; lia).
    rewrite drop_ge by (rewrite !length_app, !length_le_bytes; simpl; lia). cbn [app].
    apply take_ge. unfold zlen. lia.
  - unfold d_file_type, p'. rewrite getb_splice_in by lia. replace (o + 11 - o) with 11 by lia. done.
Qed.

(** The record at [o] has been replaced by the chain [ls] of [p']. *)
Record replaced (p p' : list Z) (o rec : Z) (ls : list Z) (es : list dentry) : Prop := {
  rp_len : zlen p' = 4096;
  rp_bytes : bytes p';
  rp_low : agree p p' 0 o;
  rp_high : agree p p' (o + rec) 4096;
  rp_recs : recs p' o (o + rec) ls;
  rp_entries : entries p' ls = es;
  rp_slack : forall x, x ∈ ls -> d_ino p' x <> 0 ->
    0 <= d_rec_len p' x - BEAMFS_DIRENT_LEN (d_name_len p' x) < BEAMFS_DIRENT_MIN_LEN }.

Lemma bytes_rec_image ino keep name ft : bytes name -> is_byte ft -> bytes (rec_image ino keep name ft).
Proof.
  intros Hn Hf. unfold rec_image. apply bytes_app. split; [auto with bytes|]. apply bytes_app.
  split; [auto with bytes|]. apply bytes_app. split; [|done]. apply bytes_cons. split.
  - unfold u8, is_byte. pose proof (Z.mod_pos_bound (zlen name) (2 ^ 8)). lia.
  - apply bytes_cons. split; [done|constructor].
Qed.

Lemma place_it_whole p o ino name ft :
  let want := BEAMFS_DIRENT_LEN (zlen name) in
  bytes p -> zlen p = 4096 -> 0 <= o <= 3824 -> beamfs_dirent_valid p o = true ->
  want <= d_rec_len p o < want + 16 -> name_ok name -> 0 < ino < 2 ^ 64 -> is_byte ft ->
  replaced p (place_it p o want ino name ft) o (d_rec_len p o) [o] [Dentry ino name ft].
Proof.
  intros want Hb Hz Ho V Hw Hn Hi Hf. pose proof V as V'. apply valid_spec in V'; [|done|done].
  destruct (dirent_len_name name Hn) as (_ & W1 & W2). fold want in W1, W2. destruct Hn as [Bn Ln].
  unfold BEAMFS_MAX_FILENAME in Ln.
  unfold place_it. dir_consts. unfold u16. rewrite Z.mod_small by lia.
  destruct (want + 16 <=? d_rec_len p o) eqn:E; [lia|]. rewrite Z.max_l by lia.
  rewrite header_image by lia. pose proof (zlen_rec_image ino (d_rec_len p o) name ft) as Hr.
  destruct (rec_image_fields p o ino (d_rec_len p o) name ft) as (Ei & Ek & En & Ee); [lia..|].
  set (p' := splice p o _) in *.
  assert (Hz' : zlen p' = 4096) by (unfold p'; rewrite zlen_splice; lia).
  assert (Hb' : bytes p') by (unfold p'; auto using bytes_splice, bytes_rec_image).
  split.
  - done.
  - done.
  - intros x Hx. unfold p'. apply getb_splice_out; lia.
  - intros x Hx. unfold p'. apply getb_splice_out; lia.
  - constructor; [|rewrite Ek; constructor]. apply valid_spec; [done|done|]. lia.
  - rewrite entries_live by lia. by rewrite Ee.
  - intros x Hx%list_elem_of_singleton _. subst x. rewrite Ek, En. fold want.
    change BEAMFS_DIRENT_MIN_LEN with 16. lia.
Qed.

Lemma place_it_split p o ino name ft :
  let want := BEAMFS_DIRENT_LEN (zlen name) in
  bytes p -> zlen p = 4096 -> 0 <= o <= 3824 -> beamfs_dirent_valid p o = true ->
  want + 16 <= d_rec_len p o -> name_ok name -> 0 < ino < 2 ^ 64 -> is_byte ft ->
  replaced p (place_it p o want ino name ft) o (d_rec_len p o) [o; o + want] [Dentry ino name ft].
Proof.
  intros want Hb Hz Ho V Hw Hn Hi Hf. pose proof V as V'. apply valid_spec in V'; [|done|done].
  destruct (dirent_len_name name Hn) as (_ & W1 & W2). fold want in W1, W2. destruct Hn as [Bn Ln].
  unfold BEAMFS_MAX_FILENAME in Ln. assert (Z12 : zlen (zeros 12) = 12) by done.
  unfold place_it. dir_consts. unfold u16. rewrite Z.mod_small by lia.
  destruct (want + 16 <=? d_rec_len p o) eqn:E; [clear E|lia].
  set (rec := d_rec_len p o) in *. set (r := o + want). assert (Er : r = o + want) by done.
  set (p1 := splice p r (zeros 12)). assert (H1 : zlen p1 = 4096) by (unfold p1; rewrite zlen_splice; lia).
  set (p2 := put_le16 p1 (r + 8) (rec - want)).
  assert (L2 : zlen (le_bytes 2 (rec - want)) = 2) by apply zlen_le_bytes.
  assert (H2 : zlen p2 = 4096) by (unfold p2, put_le16; rewrite zlen_splice; lia).
  rewrite header_image by lia. pose proof (zlen_rec_image ino want name ft) as Hr.
  destruct (rec_image_fields p2 o ino want name ft) as (Ei & Ek & En & Ee); [lia..|].
  set (p' := splice p2 o _) in *.
  assert (Hz' : zlen p' = 4096) by (unfold p'; rewrite zlen_splice; lia).
  assert (Hb' : bytes p').
  { unfold p', p2, p1, put_le16. auto 6 using bytes_splice, bytes_rec_image, bytes_zeros, bytes_le_bytes. }
  assert (Ri : d_ino p' r = 0).
  { unfold d_ino, get_le64, p'. rewrite slice_splice_ne by lia. unfold p2, put_le16.
    rewrite slice_splice_ne by lia. unfold p1. rewrite slice_splice_in by lia. by rewrite Z.sub_diag. }
  assert (Rk : d_rec_len p' r = rec - want).
  { unfold d_rec_len, p'. unfold get_le16. rewrite slice_splice_ne by lia.
    apply (get_put_le16 p1); lia. }
  assert (Out : forall x, 0 <= x -> x < o \/ o + rec <= x -> getb p' x = getb p x).
  { intros x Hx0 Hx. unfold p'. rewrite getb_splice_out by lia. unfold p2, put_le16.
    rewrite getb_splice_out by lia. unfold p1. rewrite getb_splice_out by lia. done. }
  assert (Rn : d_name_len p' r = 0).
  { unfold d_name_len, p'. rewrite getb_splice_out by lia. unfold p2, put_le16.
    rewrite getb_splice_out by lia. unfold p1. rewrite getb_splice_in by lia. apply getb_zeros. }
  split.
  - done.
  - done.
  - intros x Hx. apply Out; lia.
  - intros x Hx. apply Out; lia.
  - constructor; [apply valid_spec; [done|lia|lia]|]. rewrite Ek. fold r.
    constructor; [apply valid_spec; [done|lia|lia]|]. rewrite Rk.
    replace (r + (rec - want)) with (o + rec) by lia. constructor.
  - rewrite entries_live by lia. rewrite entries_free by done. by rewrite Ee.
  - intros x Hx Hl. apply elem_of_cons in Hx as [->|Hx%list_elem_of_singleton].
    + rewrite Ek, En. fold want. change BEAMFS_DIRENT_MIN_LEN with 16. lia.
    + subst x. by rewrite Ri in Hl.
Qed.

(** A stretch of the chain replaced in a well-formed payload. *)
Lemma wf_replaced p p' l1 old l2 o rec ls es :
  wf_payload p (l1 ++ old ++ l2) -> recs p 0 o l1 -> recs p o (o + rec) old -> old <> [] ->
  replaced p p' o rec ls es ->
  wf_payload p' (l1 ++ ls ++ l2) /\ entries p' (l1 ++ ls ++ l2) = entries p l1 ++ es ++ entries p l2.
Proof.
  intros W R1 Ro Hne R. destruct W as [Hb Hz Hr Hs]. change BEAMFS_BLOCK_SIZE with 4096 in Hz.
  assert (Ho : 0 <= o <= 3824).
  { destruct (recs_bound p 0 o l1 Hb ltac:(lia) R1) as [B1 B1']. pose proof (zlen_nonneg l1).
    destruct l1; [apply recs_nil_inv in R1; lia|]. specialize (B1' ltac:(done)). lia. }
  destruct (recs_bound p o (o + rec) old Hb Ho Ro) as [B2 B2']. specialize (B2' Hne).
  pose proof (zlen_nonneg old).
  assert (R2 : recs p (o + rec) 3824 l2).
  { apply recs_split in Hr as (c & Q1 & Q2). apply recs_split in Q2 as (d & Q2 & Q3).
    rewrite (recs_fun p 0 c o l1 Q1 R1) in *. by rewrite (recs_fun p o d (o + rec) old Q2 Ro) in *. }
  destruct R as [Z' B' Lo Hi Rr Re Rs].
  destruct (recs_agree p p' 0 o l1 Hz Z' Hb ltac:(lia) R1 Lo) as (A1 & A2 & A3).
  destruct (recs_agree p p' (o + rec) 3824 l2 Hz Z' Hb ltac:(lia) R2) as (C1 & C2 & C3);
    [intros x Hx; apply Hi; lia|].
  split; [split|].
  - done.
  - done.
  - eapply recs_app; [exact A1|]. eapply recs_app; [exact Rr|exact C1].
  - intros x Hx Hl. apply elem_of_app in Hx as [Hx|Hx]; [|apply elem_of_app in Hx as [Hx|Hx]].
    + destruct (A3 x Hx) as (-> & -> & Ei). apply Hs; [apply elem_of_app; by left|]. by rewrite <- Ei.
    + by apply Rs.
    + destruct (C3 x Hx) as (-> & -> & Ei). apply Hs; [|by rewrite <- Ei].
      apply elem_of_app. right. apply elem_of_app. by right.
  - rewrite !entries_app. by rewrite A2, Re, C2.
Qed.

(** The position of a record in a well-formed payload. *)
Lemma wf_split p l1 o l2 :
  wf_payload p (l1 ++ o :: l2) ->
  0 <= o <= 3824 /\ beamfs_dirent_valid p o = true /\ recs p 0 o l1 /\ recs p o (o + d_rec_len p o) [o].
Proof.
  intros W. destruct (wf_in p _ o W) as (Ho & V & _); [apply elem_of_app; right; left|].
  pose proof (wf_recs _ _ W) as R. apply recs_split in R as (c & R1 & R2).
  apply recs_cons_inv in R2 as (-> & _ & R2). split_and!; [lia|lia|done|done|]. constructor; [done|constructor].
Qed.

(** The search meets a free record that is large enough, or none. *)
Lemma add_search_spec p l want :
  wf_payload p l -> 16 <= want ->
  match add_search p want with
  | None => forall o, o ∈ l -> d_ino p o = 0 -> d_rec_len p o < want
  | Some (p', o) => p' = p /\ o ∈ l /\ d_ino p o = 0 /\ want <= d_rec_len p o
  end.
Proof.
  intros W Hw. unfold add_search. rewrite (walk_all _ _ _ l) by apply W.
  enough (G : forall l2, (forall o, o ∈ l2 -> o ∈ l) ->
    match fold_until (fun (_ : unit) offset =>
      let rec := d_rec_len p offset in
      let used := if d_ino p offset =? 0 then 0 else u16 (BEAMFS_DIRENT_LEN (d_name_len p offset)) in
      if (d_ino p offset =? 0) && (want <=? rec) then inr (p, offset)
      else if negb (d_ino p offset =? 0) && (want <=? rec - used) &&
              (beamfs_dirent_place (u32 (offset + used)) want =? u32 (offset + used)) then
        inr (put_le16 p (offset + 8) used, u32 (offset + used))
      else inl tt) tt l2 with
    | inl _ => forall o, o ∈ l2 -> d_ino p o = 0 -> d_rec_len p o < want
    | inr (p', o) => p' = p /\ o ∈ l2 /\ d_ino p o = 0 /\ want <= d_rec_len p o
    end).
  { specialize (G l (fun _ H => H)). by destruct (fold_until _ tt l) as [[]|[p' o]]. }
  induction l2 as [|o l2 IH]; intros Hsub; [intros o Ho; by apply elem_of_nil in Ho|].
  cbn [fold_until]. specialize (IH ltac:(intros; apply Hsub; by right)).
  pose proof (name_len_range p o (wf_bytes _ _ W)).
  pose proof (dirent_len_range (d_name_len p o) ltac:(lia)).
  destruct (d_ino p o =? 0) eqn:E0; cbn [negb andb].
  - apply Z.eqb_eq in E0. destruct (want <=? d_rec_len p o) eqn:E1.
    + split_and!; [done|left|done|lia].
    + destruct (fold_until _ tt l2) as [[]|[p' x]].
      * intros x Hx Hx0. apply elem_of_cons in Hx as [->|Hx]; [lia|by apply IH].
      * destruct IH as (? & ? & ? & ?). split_and!; [done|by right|done|done].
  - apply Z.eqb_neq in E0. pose proof (wf_slack _ _ W o (Hsub o ltac:(left)) E0) as Hs.
    change BEAMFS_DIRENT_MIN_LEN with 16 in Hs. unfold u16. rewrite (Z.mod_small (BEAMFS_DIRENT_LEN _)) by lia.
    destruct (want <=? d_rec_len p o - BEAMFS_DIRENT_LEN (d_name_len p o)) eqn:E1; [lia|]. cbn [andb].
    destruct (fold_until _ tt l2) as [[]|[p' x]].
    + intros x Hx Hx0. apply elem_of_cons in Hx as [->|Hx]; [done|by apply IH].
    + destruct IH as (? & ? & ? & ?). split_and!; [done|by right|done|done].
Qed.

(** What an insertion does to the entries. *)
Lemma add_payload_spec p l name ino ft :
  wf_payload p l -> name_ok name -> 0 < ino < 2 ^ 64 -> is_byte ft ->
  match add_payload p name ino ft with
  | None => forall o, o ∈ l -> d_ino p o = 0 -> d_rec_len p o < BEAMFS_DIRENT_LEN (zlen name)
  | Some p' => exists l' es1 es2, wf_payload p' l' /\ entries p l = es1 ++ es2 /\
      entries p' l' = es1 ++ Dentry ino name ft :: es2
  end.
Proof.
  intros W Hn Hi Hf. destruct (dirent_len_name name Hn) as (U & Lw & _). unfold add_payload. rewrite U.
  pose proof (add_search_spec p l _ W ltac:(apply Lw)) as S.
  destruct (add_search p _) as [[q o]|]; [|exact S]. destruct S as (-> & Hin & H0 & Hw).
  apply list_elem_of_split in Hin as (l1 & l2 & ->).
  destruct (wf_split p l1 o l2 W) as (Ho & V & R1 & Ro).
  assert (exists ls, replaced p (place_it p o (BEAMFS_DIRENT_LEN (zlen name)) ino name ft) o
    (d_rec_len p o) ls [Dentry ino name ft]) as (ls & R).
  { destruct (decide (BEAMFS_DIRENT_LEN (zlen name) + 16 <= d_rec_len p o)).
    - eexists. apply place_it_split; done || apply W.
    - eexists. apply place_it_whole; done || apply W || lia. }
  destruct (wf_replaced p _ l1 [o] l2 _ _ ls _ W R1 Ro ltac:(done) R) as [W' E'].
  exists (l1 ++ ls ++ l2), (entries p l1), (entries p l2). split_and!; [done| |exact E'].
  by rewrite entries_app, entries_free.
Qed.

(** ** Removal *)

Lemma release_alone p o :
  bytes p -> zlen p = 4096 -> 0 <= o <= 3824 -> beamfs_dirent_valid p o = true ->
  replaced p (put_le64 p o 0) o (d_rec_len p o) [o] [].
Proof.
  intros Hb Hz Ho V. pose proof V as V'. apply valid_spec in V'; [|done|done].
  assert (L8 : zlen (le_bytes 8 0) = 8) by apply zlen_le_bytes.
  set (p' := put_le64 p o 0). assert (Hz' : zlen p' = 4096) by (unfold p', put_le64; rewrite zlen_splice; lia).
  assert (Ei : d_ino p' o = 0) by (apply get_put_le64; lia).
  assert (Er : d_rec_len p' o = d_rec_len p o).
  { unfold d_rec_len, p', get_le16, put_le64. rewrite slice_splice_ne by lia. done. }
  assert (En : d_name_len p' o = d_name_len p o).
  { unfold d_name_len, p', put_le64. rewrite getb_splice_out by lia. done. }
  assert (Hb' : bytes p') by (unfold p', put_le64; auto with bytes).
  split.
  - done.
  - done.
  - intros x Hx. unfold p', put_le64. apply getb_splice_out; lia.
  - intros x Hx. unfold p', put_le64. apply getb_splice_out; lia.
  - constructor; [|rewrite Er; constructor]. apply valid_spec; [done|done|]. lia.
  - by apply entries_free.
  - intros x Hx%list_elem_of_singleton Hl. subst x. by rewrite Ei in Hl.
Qed.

(** The fold into a free predecessor. *)
Lemma release_fold p prev o :
  bytes p -> zlen p = 4096 -> 0 <= prev <= 3824 -> beamfs_dirent_valid p prev = true ->
  d_ino p prev = 0 -> o = prev + d_rec_len p prev -> beamfs_dirent_valid p o = true ->
  replaced p (put_le16 (put_le64 p o 0) (prev + 8) (u16 (d_rec_len p prev + d_rec_len p o))) prev
    (d_rec_len p prev + d_rec_len p o) [prev] [].
Proof.
  intros Hb Hz Hp Vp Ip Eo Vo. pose proof Vp as Vp'. apply valid_spec in Vp'; [|done|done].
  pose proof Vo as Vo'. apply valid_spec in Vo'; [|done|lia].
  set (rec := d_rec_len p prev + d_rec_len p o). unfold u16. rewrite Z.mod_small by lia.
  assert (L8 : zlen (le_bytes 8 0) = 8) by apply zlen_le_bytes.
  assert (L2 : zlen (le_bytes 2 rec) = 2) by apply zlen_le_bytes.
  set (q := put_le64 p o 0). assert (Hq : zlen q = 4096) by (unfold q, put_le64; rewrite zlen_splice; lia).
  set (p' := put_le16 q (prev + 8) rec).
  assert (Hz' : zlen p' = 4096) by (unfold p', put_le16; rewrite zlen_splice; lia).
  assert (Ei : d_ino p' prev = 0).
  { unfold d_ino, get_le64, p', put_le16. rewrite slice_splice_ne by lia. unfold q, put_le64.
    rewrite slice_splice_ne by lia. exact Ip. }
  assert (Er : d_rec_len p' prev = rec) by (apply get_put_le16; lia).
  assert (En : d_name_len p' prev = d_name_len p prev).
  { unfold d_name_len, p', put_le16. rewrite getb_splice_out by lia. unfold q, put_le64.
    by rewrite getb_splice_out by lia. }
  assert (Hb' : bytes p') by (unfold p', q, put_le16, put_le64; auto with bytes).
  assert (Out : forall x, 0 <= x -> x < prev \/ prev + rec <= x -> getb p' x = getb p x).
  { intros x Hx0 Hx. unfold p', put_le16. rewrite getb_splice_out by lia. unfold q, put_le64.
    by rewrite getb_splice_out by lia. }
  split.
  - done.
  - done.
  - intros x Hx. apply Out; lia.
  - intros x Hx. apply Out; lia.
  - constructor; [|rewrite Er; constructor]. apply valid_spec; [done|done|]. lia.
  - by apply entries_free.
  - intros x Hx%list_elem_of_singleton Hl. subst x. by rewrite Ei in Hl.
Qed.

(** The state of the removal walk is the record before. *)
Lemma fold_prev (d : Z) l1 prev : foldl (fun _ o => o) d (l1 ++ [prev]) = prev.
Proof. by rewrite foldl_app. Qed.

(** A record released over [rec] bytes is free and that large. *)
Lemma released_room p p' o rec x l1 l2 : replaced p p' o rec [x] [] -> has_room p' (l1 ++ [x] ++ l2) rec.
Proof.
  intros [_ _ _ _ R E _]. exists x. split; [apply elem_of_app; right; left|].
  apply recs_cons_inv in R as (<- & _ & R). apply recs_nil_inv in R. split; [|lia].
  destruct (decide (d_ino p' o = 0)) as [|N]; [done|]. by rewrite entries_live in E.
Qed.

Lemma release_spec p l1 o l2 :
  wf_payload p (l1 ++ o :: l2) -> d_ino p o <> 0 ->
  exists l', wf_payload (release p (foldl (fun _ o => o) BEAMFS_DIRENT_NOSPACE l1) o) l' /\
    entries (release p (foldl (fun _ o => o) BEAMFS_DIRENT_NOSPACE l1) o) l' = entries p l1 ++ entries p l2 /\
    has_room (release p (foldl (fun _ o => o) BEAMFS_DIRENT_NOSPACE l1) o) l' (d_rec_len p o).
Proof.
  intros W NZ. destruct (wf_split p l1 o l2 W) as (Ho & V & R1 & Ro).
  destruct W as [Hb Hz Hr Hs] eqn:EW. clear EW. change BEAMFS_BLOCK_SIZE with 4096 in Hz.
  pose proof (release_alone p o Hb Hz Ho V) as RA.
  assert (Alone : exists l', wf_payload (put_le64 p o 0) l' /\
    entries (put_le64 p o 0) l' = entries p l1 ++ entries p l2 /\ has_room (put_le64 p o 0) l' (d_rec_len p o)).
  { destruct (wf_replaced p _ l1 [o] l2 _ _ _ _ W R1 Ro ltac:(done) RA) as [W' E']. eexists. split; [exact W'|].
    split; [exact E'|]. by apply (released_room p _ o). }
  destruct l1 as [|prev l1 _] using rev_ind; [exact Alone|]. rewrite fold_prev. unfold release.
  assert (Hprev : prev ∈ (l1 ++ [prev]) ++ o :: l2) by (apply elem_of_app; left; apply elem_of_app; right; left).
  destruct (wf_in p _ prev W Hprev) as (Hp & Vp & _ & _).
  apply recs_split in R1 as (c & Q1 & Q2). apply recs_cons_inv in Q2 as (-> & _ & Q2).
  apply recs_nil_inv in Q2.
  assert (Ip : d_ino (put_le64 p o 0) prev = d_ino p prev).
  { apply valid_spec in Vp; [|done|lia]. unfold d_ino, get_le64, put_le64.
    rewrite slice_splice_ne by (rewrite ?zlen_le_bytes; lia). done. }
  rewrite Ip. destruct (prev =? BEAMFS_DIRENT_NOSPACE); [exact Alone|]. destruct ((d_ino p prev =? 0) &&
    (prev / BEAMFS_SUBBLOCK_DATA =? o / BEAMFS_SUBBLOCK_DATA)) eqn:E; [|exact Alone].
  apply andb_true_iff in E as [E0%Z.eqb_eq _].
  assert (Ek : d_rec_len (put_le64 p o 0) prev = d_rec_len p prev).
  { apply valid_spec in Vp; [|done|lia]. unfold d_rec_len, get_le16, put_le64.
    rewrite slice_splice_ne; rewrite ?zlen_le_bytes; lia || done. }
  assert (Ek' : d_rec_len (put_le64 p o 0) o = d_rec_len p o).
  { apply valid_spec in V; [|done|lia]. unfold d_rec_len, get_le16, put_le64.
    rewrite slice_splice_ne; rewrite ?zlen_le_bytes; lia || done. }
  rewrite Ek, Ek'.
  pose proof (release_fold p prev o Hb Hz ltac:(lia) Vp E0 ltac:(lia) V) as RF.
  assert (W2 : wf_payload p (l1 ++ [prev; o] ++ l2)) by (by rewrite <- app_assoc in W).
  assert (Rold : recs p prev (prev + (d_rec_len p prev + d_rec_len p o)) [prev; o]).
  { constructor; [done|]. rewrite Q2. constructor; [done|].
    replace (prev + (d_rec_len p prev + d_rec_len p o)) with (o + d_rec_len p o) by lia. constructor. }
  destruct (wf_replaced p _ l1 [prev; o] l2 _ _ _ _ W2 Q1 Rold ltac:(done) RF) as [W' E'].
  eexists. split; [exact W'|]. split.
  - rewrite E', entries_app, (entries_free p prev []) by done. cbn [app]. by rewrite app_nil_r.
  - destruct (released_room _ _ _ _ _ l1 l2 RF) as (x & Hx & H0 & Hl). exists x. split_and!; [done|done|].
    pose proof (rec_len_range p prev Hb). lia.
Qed.

Lemma del_payload_spec p l name :
  wf_payload p l ->
  match del_payload p name with
  | None => find_entry name (entries p l) = None
  | Some p' => exists l' es1 e es2, wf_payload p' l' /\ entries p l = es1 ++ e :: es2 /\
      e_name e = name /\ find_entry name es1 = None /\ entries p' l' = es1 ++ es2 /\ has_room p' l' (BEAMFS_DIRENT_LEN (zlen name))
  end.
Proof.
  intros W. unfold del_payload. rewrite (walk_all _ _ _ l) by apply W.
  pose proof (fold_matching p l name (fun prev o => release p prev o) (fun _ o => o)
    BEAMFS_DIRENT_NOSPACE W l (fun _ H => H)) as H.
  destruct (fold_until _ _ l) as [s|r]; [done|].
  destruct H as (l1 & o & l2 & -> & NZ & En & -> & Hn).
  destruct (release_spec p l1 o l2 W NZ) as (l' & W' & E' & x & Hx & H0 & Hl).
  exists l', (entries p l1), (entry p o), (entries p l2). split_and!; [done| |done|done|done|].
  - by rewrite entries_app, entries_live.
  - exists x. split_and!; [done|done|]. destruct (wf_in p _ o W) as (Ho & V & _); [apply elem_of_app; right; left|].
    pose proof (wf_slack _ _ W o ltac:(apply elem_of_app; right; left) NZ) as Hs. apply valid_spec in V; [|apply W|lia].
    rewrite <- En. unfold d_name. pose proof (name_len_range p o (wf_bytes _ _ W)). pose proof (wf_len _ _ W) as Z. change BEAMFS_BLOCK_SIZE with 4096 in Z.
    rewrite zlen_slice by (dir_consts; lia). lia.
Qed.

(** ** What the operations promise *)

(** Finding another name does not see an entry come or go. *)
Lemma find_entry_skip n es1 e es2 :
  e_name e <> n -> find_entry n (es1 ++ e :: es2) = find_entry n (es1 ++ es2).
Proof.
  intros Hn. unfold find_entry. induction es1 as [|x es1 IH]; cbn [app find].
  - by rewrite bool_decide_eq_false_2.
  - by rewrite IH.
Qed.

Lemma find_entry_none n es : find_entry n es = None <-> n ∉ map e_name es.
Proof.
  unfold find_entry. induction es as [|x es IH]; cbn [find map].
  - split; [intros _ H; by apply elem_of_nil in H|done].
  - rewrite not_elem_of_cons. destruct (bool_decide (e_name x = n)) eqn:E.
    + apply bool_decide_eq_true in E. split; [done|]. intros [H _]. by subst.
    + apply bool_decide_eq_false in E. rewrite IH. split; [intros H; by split|by intros [_ H]].
Qed.

(** On a well-formed block, [beamfs_lookup]'s walk returns the inode of
    the first entry of that name, and nothing when there is none. *)
Theorem lookup_payload_correct p l name :
  wf_payload p l -> lookup_payload p name = option_map e_ino (find_entry name (entries p l)).
Proof. apply lookup_payload_spec. Qed.

(** Adding an entry to a well-formed block either fails, and then no
    free record is long enough for the name, or leaves a well-formed block
    with the entry inserted among the old ones: the new name is found, and
    every other name still gives what it gave. *)
Theorem add_payload_correct p l name ino ft :
  wf_payload p l -> name_ok name -> 0 < ino < 2 ^ 64 -> is_byte ft ->
  find_entry name (entries p l) = None ->
  match add_payload p name ino ft with
  | None => forall o, o ∈ l -> d_ino p o = 0 -> d_rec_len p o < BEAMFS_DIRENT_LEN (zlen name)
  | Some p' => exists l', wf_payload p' l' /\
      entries p' l' ≡ₚ Dentry ino name ft :: entries p l /\
      lookup_payload p' name = Some ino /\
      forall n, n <> name -> lookup_payload p' n = lookup_payload p n
  end.
Proof.
  intros W Hn Hi Hf Hnew. pose proof (add_payload_spec p l name ino ft W Hn Hi Hf) as S.
  destruct (add_payload p name ino ft) as [p'|]; [|exact S].
  destruct S as (l' & es1 & es2 & W' & E & E'). exists l'. split; [done|]. rewrite E in *. split_and!.
  - rewrite E'. by rewrite Permutation_middle.
  - rewrite (lookup_payload_spec p' l' _ W'), E', find_entry_app; [done| |done].
    apply find_entry_none in Hnew. apply find_entry_none. rewrite map_app, not_elem_of_app in Hnew. apply Hnew.
  - intros n Hne. rewrite (lookup_payload_spec p' l' _ W'), (lookup_payload_spec p l _ W), E, E'.
    rewrite find_entry_skip; [done|]. cbn. congruence.
Qed.

(** Removing a name from a well-formed block whose names are distinct
    leaves a well-formed block without that entry and with all the others;
    it fails exactly when the name is not there. *)
Theorem del_payload_correct p l name :
  wf_payload p l -> NoDup (map e_name (entries p l)) ->
  match del_payload p name with
  | None => find_entry name (entries p l) = None
  | Some p' => exists l' e, wf_payload p' l' /\ entries p l ≡ₚ e :: entries p' l' /\ e_name e = name /\
      lookup_payload p' name = None /\ forall n, n <> name -> lookup_payload p' n = lookup_payload p n
  end.
Proof.
  intros W ND. pose proof (del_payload_spec p l name W) as S.
  destruct (del_payload p name) as [p'|]; [|exact S].
  destruct S as (l' & es1 & e & es2 & W' & E & En & Hn1 & E' & _). exists l', e. split; [done|].
  rewrite E in ND. rewrite map_app in ND. cbn [map] in ND. split_and!.
  - rewrite E, E'. by rewrite Permutation_middle.
  - done.
  - rewrite (lookup_payload_spec p' l' _ W'), E'.
    assert (find_entry name (es1 ++ es2) = None) as ->; [|done].
    apply find_entry_none. rewrite map_app, not_elem_of_app. split; [by apply find_entry_none|].
    apply list.NoDup_app in ND as (_ & _ & ND). apply list.NoDup_cons in ND as [ND _]. by rewrite <- En.
  - intros n Hne. rewrite (lookup_payload_spec p' l' _ W'), (lookup_payload_spec p l _ W), E, E'.
    rewrite find_entry_skip; [done|]. congruence.
Qed.

(** A new block is one free record that spans the payload. *)
Definition new_dir_payload : list Z := put_le16 (zeros BEAMFS_BLOCK_SIZE) 8 BEAMFS_DATA_INLINE_BYTES.

Lemma wf_new_payload : wf_payload new_dir_payload [0].
Proof.
  split.
  - unfold new_dir_payload, put_le16. auto with bytes.
  - reflexivity.
  - constructor; [reflexivity|]. change (0 + d_rec_len new_dir_payload 0) with 3824. constructor.
  - intros o Ho%list_elem_of_singleton. subst o. intros N. exfalso. apply N. reflexivity.
Qed.

Definition ex_dir : list Z :=
  Eval vm_compute in default [] (add_payload new_dir_payload [97; 98] 7 8).

Lemma wf_ex_dir : wf_payload ex_dir [0; 16].
Proof.
  split.
  - apply bytes_check. vm_compute. reflexivity.
  - reflexivity.
  - constructor; [vm_compute; reflexivity|]. change (0 + d_rec_len ex_dir 0) with 16.
    constructor; [vm_compute; reflexivity|]. change (16 + d_rec_len ex_dir 16) with 3824. constructor.
  - intros o Ho N. rewrite !elem_of_cons, elem_of_nil in Ho. destruct Ho as [->|[->|[]]].
    + vm_compute. split; [discriminate|reflexivity].
    + exfalso. apply N. vm_compute. reflexivity.
Qed.

Lemma lookup_payload_correct_witness : lookup_payload ex_dir [97; 98] = Some 7.
Proof. rewrite (lookup_payload_correct ex_dir [0; 16] [97; 98] wf_ex_dir). vm_compute. reflexivity. Defined.

Lemma add_payload_correct_witness :
  match add_payload ex_dir [99] 9 8 with
  | None => False
  | Some p' => lookup_payload p' [99] = Some 9 /\ lookup_payload p' [97; 98] = Some 7
  end.
Proof.
  pose proof (add_payload_correct ex_dir [0; 16] [99] 9 8 wf_ex_dir) as H.
  assert (exists p', add_payload ex_dir [99] 9 8 = Some p') as (p' & E).
  { eexists. vm_compute. reflexivity. }
  rewrite E in *. destruct H as (l' & _ & _ & L & O).
  - split; [by apply bytes_check|]. vm_compute. split; discriminate.
  - lia.
  - unfold is_byte. lia.
  - vm_compute. reflexivity.
  - split; [exact L|]. rewrite O by done. vm_compute. reflexivity.
Defined.

Lemma del_payload_correct_witness :
  match del_payload ex_dir [97; 98] with
  | None => False
  | Some p' => lookup_payload p' [97; 98] = None
  end.
Proof.
  pose proof (del_payload_correct ex_dir [0; 16] [97; 98] wf_ex_dir) as H.
  assert (exists p', del_payload ex_dir [97; 98] = Some p') as (p' & E).
  { eexists. vm_compute. reflexivity. }
  rewrite E in *. destruct H as (l' & e & _ & _ & _ & L & _); [|exact L].
  vm_compute. constructor; [apply not_elem_of_nil|constructor].
Defined.

(** A live record of 100 bytes for a one-letter name, and the record after it. *)
Definition ex_slack : list Z :=
  splice (splice (zeros 4096) 0 (rec_image 5 100 [97] 8)) 100 (rec_image 6 3724 [98] 8).

(** The branch of [beamfs_add_dirent] that takes the tail of a live
    record reads the new record's length from the slack instead of from the
    record it splits.  On a chain with a live record of sixteen bytes of
    slack or more, the entries behind it are lost: b is found before the
    insertion of c, and not after.  (The invariant [wf_slack] is what keeps
    the branch from being taken on blocks this code wrote.) *)
Theorem add_split_loses_entries :
  recs ex_slack 0 3824 [0; 100] /\ lookup_payload ex_slack [98] = Some 6 /\
  exists p', add_payload ex_slack [99] 7 8 = Some p' /\
    lookup_payload p' [99] = Some 7 /\ lookup_payload p' [98] = None.
Proof.
  split_and!.
  - constructor; [vm_compute; reflexivity|]. change (0 + d_rec_len ex_slack 0) with 100.
    constructor; [vm_compute; reflexivity|]. change (100 + d_rec_len ex_slack 100) with 3824. constructor.
  - vm_compute. reflexivity.
  - eexists. split; [vm_compute; reflexivity|]. split; vm_compute; reflexivity.
Qed.
