(* ===== verification/Dir.v ===== *)
(** * Directories (namei.c, dir.c)

    A directory is up to 12 direct and 512 single-indirect blocks of
    records.  The operations below resolve the blocks in order, decode each
    and walk its records. *)

From S2P Require Import Prelude Format RsInit RsLib Edac Dirent.

(** ** What the directory code calls *)

(** The buffer cache, the allocator, the parity of indirect blocks, the
    scratch pool and the resilience journal, as operations on a state [S]. *)
Class DirEnv (S : Type) := {
  (** beamfs_bread: the buffer's contents, [None] on a read error *)
  bread : S -> Z -> option (list Z);
  (** sb_getblk does not return NULL *)
  getblk : S -> Z -> bool;
  (** new contents of a buffer, marked up to date and dirty *)
  bput : S -> Z -> list Z -> S;
  (** beamfs_alloc_block and beamfs_free_block for an owner *)
  balloc : S -> Z -> Z * S;
  bfree : S -> Z -> Z -> S;
  (** beamfs_ind_parity_update of a block with these contents *)
  parity_update : S -> Z -> list Z -> Z -> S;
  (** beamfs_scratch_get does not return NULL *)
  scratch_get : S -> bool;
  (** journal and budget calls *)
  report : S -> list rs_call -> S }.

(** The directory inode: i_direct and i_indirect are block numbers. *)
Record dinode := DInode {
  di_ino : Z;
  di_direct : list Z;
  di_indirect : Z;
  di_size : Z;
  di_mtime : Z * Z;           (** seconds, nanoseconds *)
  di_ctime : Z * Z;
  di_dirty : bool }.

Definition mark_inode_dirty (d : dinode) : dinode :=
  DInode (di_ino d) (di_direct d) (di_indirect d) (di_size d) (di_mtime d) (di_ctime d) true.
Definition set_direct (d : dinode) (i b : Z) : dinode :=
  DInode (di_ino d) (setb (di_direct d) i b) (di_indirect d) (di_size d) (di_mtime d) (di_ctime d) (di_dirty d).
Definition set_indirect (d : dinode) (b : Z) : dinode :=
  DInode (di_ino d) (di_direct d) b (di_size d) (di_mtime d) (di_ctime d) (di_dirty d).
Definition add_size (d : dinode) (n : Z) : dinode :=
  DInode (di_ino d) (di_direct d) (di_indirect d) (di_size d + n) (di_mtime d) (di_ctime d) (di_dirty d).
Definition set_times (d : dinode) (now : Z * Z) : dinode :=
  DInode (di_ino d) (di_direct d) (di_indirect d) (di_size d) now now (di_dirty d).

Definition DIR_BLOCKS : Z := BEAMFS_DIRECT_BLOCKS + BEAMFS_INDIRECT_PTRS.

Section dir.
Context {S : Type} `{RL : !RsLib} `{DE : !DirEnv S} (t : rs_tables) (cpu : nat).

(** A new directory block: one free record over the payload, then parity. *)
Definition new_dir_block : list Z :=
  beamfs_dirent_encode t cpu (put_le16 (zeros BEAMFS_BLOCK_SIZE) 8 BEAMFS_DATA_INLINE_BYTES).

(** The end of [beamfs_dir_get_block] once the inode has an indirect
    block: look the slot up, fill it on demand. *)
Definition dir_get_indirect (s : S) (dir : dinode) (indirect_slot : Z) (alloc : bool)
    : Z * Z * dinode * S :=
  let indirect_blk := di_indirect dir in
  match bread s indirect_blk with
  | None => (- EIO, 0, dir, s)
  | Some ptrs =>
    let block_no := get_le64 ptrs (8 * indirect_slot) in
    if negb (block_no =? 0) then (0, block_no, dir, s)
    else if negb alloc then (0, 0, dir, s)
    else
      let '(block_no, s) := balloc s (di_ino dir) in
      if block_no =? 0 then (- ENOSPC, 0, dir, s)
      else if negb (getblk s block_no) then (- EIO, 0, dir, bfree s block_no (di_ino dir))
      else
        let s := bput s block_no new_dir_block in
        let ptrs := put_le64 ptrs (8 * indirect_slot) block_no in
        let s := bput s indirect_blk ptrs in
        let s := parity_update s indirect_blk ptrs (di_ino dir) in
        (0, block_no, mark_inode_dirty (add_size dir BEAMFS_DATA_INLINE_BYTES), s)
  end.

(** Returns the code, [*out_block], the inode and the state. *)
Definition beamfs_dir_get_block (s : S) (dir : dinode) (block_idx : Z) (alloc : bool)
    : Z * Z * dinode * S :=
  if DIR_BLOCKS <=? block_idx then (- EINVAL, 0, dir, s)
  else if block_idx <? BEAMFS_DIRECT_BLOCKS then
    let block_no := getb (di_direct dir) block_idx in
    if negb (block_no =? 0) then (0, block_no, dir, s)
    else if negb alloc then (0, 0, dir, s)
    else
      let '(block_no, s) := balloc s (di_ino dir) in
      if block_no =? 0 then (- ENOSPC, 0, dir, s)
      else if negb (getblk s block_no) then (- EIO, 0, dir, bfree s block_no (di_ino dir))
      else
        let s := bput s block_no new_dir_block in
        let dir := set_direct dir block_idx block_no in
        (0, block_no, mark_inode_dirty (add_size dir BEAMFS_DATA_INLINE_BYTES), s)
  else
    let indirect_slot := block_idx - BEAMFS_DIRECT_BLOCKS in
    if di_indirect dir =? 0 then
      if negb alloc then (0, 0, dir, s)
      else
        let '(indirect_blk, s) := balloc s (di_ino dir) in
        if indirect_blk =? 0 then (- ENOSPC, 0, dir, s)
        else if negb (getblk s indirect_blk) then (- EIO, 0, dir, bfree s indirect_blk (di_ino dir))
        else
          let s := bput s indirect_blk (zeros BEAMFS_BLOCK_SIZE) in
          let s := parity_update s indirect_blk (zeros BEAMFS_BLOCK_SIZE) (di_ino dir) in
          dir_get_indirect s (mark_inode_dirty (set_indirect dir indirect_blk)) indirect_slot alloc
    else dir_get_indirect s dir indirect_slot alloc.

(** A buffer read and decoded into the scratch page: [None] when the read
    fails. *)
Definition read_payload (s : S) (block_no : Z) : option (Z * list Z * S) :=
  match bread s block_no with
  | None => None
  | Some b =>
    let '(rc, p, calls) := beamfs_dirent_decode t cpu block_no b in
    Some (rc, p, report s calls)
  end.

(** [memcpy(bh->b_data, payload, 3824); beamfs_dirent_encode(bh);] *)
Definition write_payload (s : S) (block_no : Z) (p : list Z) : S :=
  match bread s block_no with
  | None => s
  | Some b =>
    bput s block_no (beamfs_dirent_encode t cpu
      (splice b 0 (slice p 0 BEAMFS_DATA_INLINE_BYTES)))
  end.

(** *** Lookup *)

(** The loop over blocks: the error or the inode number, if any. *)
Definition lookup_block (dir : dinode) (name : list Z) (s : S) (i : Z) : S + (S * (Z + option Z)) :=
  let '(rc, block_no, _, s) := beamfs_dir_get_block s dir i false in
  if negb (rc =? 0) then inr (s, inl rc)
  else if block_no =? 0 then inr (s, inr None)
  else
    match read_payload s block_no with
    | None => inl s
    | Some (rc, p, s) =>
      if rc <? 0 then inr (s, inl rc)
      else
        match lookup_payload p name with
        | Some ino => inr (s, inr (Some ino))
        | None => inl s
        end
    end.

(** [inl] is an error, [inr None] a negative dentry. *)
Definition beamfs_lookup (s : S) (dir : dinode) (name : list Z) : S * (Z + option Z) :=
  if BEAMFS_MAX_FILENAME <? zlen name then (s, inl (- ENAMETOOLONG))
  else if negb (scratch_get s) then (s, inl (- ENOMEM))
  else
    match fold_until (lookup_block dir name) s (upto DIR_BLOCKS) with
    | inl s => (s, inr None)
    | inr r => r
    end.

(** *** Emptiness *)

Definition empty_block (dir : dinode) (s : S) (i : Z) : S + (S * Z) :=
  let '(rc, block_no, _, s) := beamfs_dir_get_block s dir i false in
  if negb (rc =? 0) then inr (s, rc)
  else if block_no =? 0 then inr (s, 0)
  else
    match read_payload s block_no with
    | None => inl s
    | Some (rc, p, s) =>
      if rc <? 0 then inr (s, rc)
      else if payload_is_empty p then inl s else inr (s, - ENOTEMPTY)
    end.

Definition beamfs_dir_is_empty (s : S) (dir : dinode) : S * Z :=
  if negb (scratch_get s) then (s, - ENOMEM)
  else
    match fold_until (empty_block dir) s (upto DIR_BLOCKS) with
    | inl s => (s, 0)
    | inr r => r
    end.

(** *** Insertion *)

(** One block of the search: [inr] carries the code, the inode, the state. *)
Definition add_block (name : list Z) (ino file_type : Z) (now : Z * Z) (st : dinode * S) (i : Z)
    : (dinode * S) + (Z * dinode * S) :=
  let '(dir, s) := st in
  let '(rc, block_no, dir, s) := beamfs_dir_get_block s dir i false in
  if negb (rc =? 0) then inr (rc, dir, s)
  else
    (* end of what exists: take one more block *)
    let '(rc, block_no, dir, s) :=
      if block_no =? 0 then
        let '(rc, block_no, dir, s) := beamfs_dir_get_block s dir i true in
        if negb (rc =? 0) then (rc, block_no, dir, s)
        else if block_no =? 0 then (- ENOSPC, block_no, dir, s)
        else (0, block_no, dir, s)
      else (0, block_no, dir, s) in
    if negb (rc =? 0) then inr (rc, dir, s)
    else
      match read_payload s block_no with
      | None => inr (- EIO, dir, s)
      | Some (rc, p, s) =>
        if rc <? 0 then inr (rc, dir, s)
        else
          match add_payload p name ino file_type with
          | None => inl (dir, s)
          | Some p =>
            inr (0, mark_inode_dirty (set_times dir now), write_payload s block_no p)
          end
      end.

Definition beamfs_add_dirent (s : S) (dir : dinode) (name : list Z) (ino file_type : Z) (now : Z * Z)
    : Z * dinode * S :=
  if BEAMFS_MAX_FILENAME <? zlen name then (- ENAMETOOLONG, dir, s)
  else if negb (scratch_get s) then (- ENOMEM, dir, s)
  else
    match fold_until (add_block name ino file_type now) (dir, s) (upto DIR_BLOCKS) with
    | inl (dir, s) => (- ENOSPC, dir, s)
    | inr r => r
    end.

(** *** Removal *)

Definition del_block (dir : dinode) (name : list Z) (now : Z * Z) (s : S) (i : Z) : S + (Z * dinode * S) :=
  let '(rc, block_no, _, s) := beamfs_dir_get_block s dir i false in
  if negb (rc =? 0) then inr (rc, dir, s)
  else if block_no =? 0 then inr (- ENOENT, dir, s)
  else
    match read_payload s block_no with
    | None => inl s
    | Some (rc, p, s) =>
      if rc <? 0 then inr (rc, dir, s)
      else
        match del_payload p name with
        | None => inl s
        | Some p => inr (0, mark_inode_dirty (set_times dir now), write_payload s block_no p)
        end
    end.

Definition beamfs_del_dirent (s : S) (dir : dinode) (name : list Z) (now : Z * Z) : Z * dinode * S :=
  if negb (scratch_get s) then (- ENOMEM, dir, s)
  else
    match fold_until (del_block dir name now) s (upto DIR_BLOCKS) with
    | inl s => (- ENOENT, dir, s)
    | inr r => r
    end.
End dir.
