(* ===== verification/DirTree.v ===== *)
(** * Directories over several blocks

    The blocks of a directory, resolved through its inode, and what the
    directory code promises about the entries they hold.  Everything is
    proved against the laws of [DirEnvOk]. *)

From S2P Require Import Prelude Format RsInit RsLib Edac EdacTheorems Dirent DirentTheorems DirRecords DirOps Dir.

(** ** Laws of the environment *)

Class DirEnvOk (S : Type) `{DE : !DirEnv S} := {
  allocated : S -> Z -> Prop;
  bput_same s b c : bread (bput s b c) b = Some c;
  bput_other s b c b' : b <> b' -> bread (bput s b c) b' = bread s b';
  bput_allocated s b c b' : allocated (bput s b c) b' <-> allocated s b';
  report_bread s calls b : allocated s b -> bread (report s calls) b = bread s b;
  report_allocated s calls b : allocated (report s calls) b <-> allocated s b;
  parity_bread s i ptrs ino b : allocated s b -> bread (parity_update s i ptrs ino) b = bread s b;
  parity_allocated s i ptrs ino b : allocated (parity_update s i ptrs ino) b <-> allocated s b;
  balloc_none s ino s' : balloc s ino = (0, s') -> forall b, allocated s' b <-> allocated s b;
  balloc_some s ino b s' : balloc s ino = (b, s') -> b <> 0 ->
    ~ allocated s b /\ 0 < b < 2 ^ 64 /\ forall b', allocated s' b' <-> b' = b \/ allocated s b';
  balloc_bread s ino b s' b' : balloc s ino = (b, s') -> allocated s b' -> bread s' b' = bread s b';
  bfree_allocated s b ino b' : allocated s b' -> b' <> b -> allocated (bfree s b ino) b';
  bfree_bread s b ino b' : allocated s b' -> b' <> b -> bread (bfree s b ino) b' = bread s b' }.

(** ** A directory's blocks *)

(** One block: where it is, its decoded payload and its record chain. *)
Record dblock := DBlock { b_phys : Z; b_payload : list Z; b_chain : list Z }.

Definition block_entries (b : dblock) : list dentry := entries (b_payload b) (b_chain b).
Definition dir_entries (bs : list dblock) : list dentry := concat (map block_entries bs).

Section tree.
Context {S : Type} `{RL : !RsLib} `{RS : !RsLibSpec} `{DO : DirEnvOk S} (t : rs_tables) (cpu : nat).
Context (Hctrl : ctrl_here t cpu = true).

(** What [beamfs_dir_get_block] finds without allocating; [None] is a
    read error on the indirect block. *)
Definition bmap (s : S) (d : dinode) (i : Z) : option Z :=
  if i <? BEAMFS_DIRECT_BLOCKS then Some (getb (di_direct d) i)
  else if di_indirect d =? 0 then Some 0
  else match bread s (di_indirect d) with
       | None => None
       | Some ptrs => Some (get_le64 ptrs (8 * (i - BEAMFS_DIRECT_BLOCKS)))
       end.

Lemma get_block_lookup s d i :
  0 <= i < 524 ->
  beamfs_dir_get_block t cpu s d i false =
    match bmap s d i with Some b => (0, b, d, s) | None => (- EIO, 0, d, s) end.
Proof.
  intros Hi. unfold beamfs_dir_get_block, bmap. change DIR_BLOCKS with 524.
  destruct (524 <=? i) eqn:E; [lia|]. cbn [negb].
  destruct (i <? BEAMFS_DIRECT_BLOCKS).
  - destruct (getb (di_direct d) i =? 0) eqn:E0; cbn [negb]; [|done]. apply Z.eqb_eq in E0. by rewrite E0.
  - destruct (di_indirect d =? 0); [done|]. unfold dir_get_indirect. destruct (bread s (di_indirect d)) as [ptrs|]; [|done].
    destruct (get_le64 ptrs _ =? 0) eqn:E0; cbn [negb]; [|done]. apply Z.eqb_eq in E0. by rewrite E0.
Qed.

(** A block on the volume holds payload [p] with chain [l]. *)
Record block_ok (s : S) (b : dblock) : Prop := {
  bk_alloc : allocated s (b_phys b);
  bk_nz : b_phys b <> 0;
  bk_read : exists c rc calls, bread s (b_phys b) = Some c /\ bytes c /\ zlen c = 4096 /\
    beamfs_dirent_decode t cpu (b_phys b) c = (rc, b_payload b, calls) /\ 0 <= rc;
  bk_wf : wf_payload (b_payload b) (b_chain b) }.

(** The directory [d] consists of the blocks [bs]. *)
Record wf_dir (s : S) (d : dinode) (bs : list dblock) : Prop := {
  wd_len : zlen bs <= 524;
  wd_direct : zlen (di_direct d) = 12;
  wd_indirect : di_indirect d <> 0 -> allocated s (di_indirect d) /\
    (exists ptrs, bread s (di_indirect d) = Some ptrs /\ zlen ptrs = 4096 /\ bytes ptrs) /\ 12 <= zlen bs;
  wd_block : forall i b, bs !! i = Some b ->
    bmap s d (Z.of_nat i) = Some (b_phys b) /\ block_ok s b /\ b_phys b <> di_indirect d;
  wd_distinct : NoDup (map b_phys bs);
  wd_end : forall i, zlen bs <= i < 524 -> bmap s d i = Some 0 }.

(** States that give a directory the same blocks. *)
Definition same_on (s s' : S) : Prop :=
  forall b, allocated s b -> allocated s' b /\ bread s' b = bread s b.

Lemma block_ok_same s s' b : same_on s s' -> block_ok s b -> block_ok s' b.
Proof.
  intros H [A N R W]. destruct (H _ A) as [A' B']. split; [done|done| |done]. by rewrite B'.
Qed.

Lemma bmap_same s s' d i :
  same_on s s' -> (di_indirect d <> 0 -> allocated s (di_indirect d)) -> bmap s' d i = bmap s d i.
Proof.
  intros H Hi. unfold bmap. destruct (i <? BEAMFS_DIRECT_BLOCKS); [done|].
  destruct (di_indirect d =? 0) eqn:E; [done|]. apply Z.eqb_neq in E.
  by destruct (H _ (Hi E)) as [_ ->].
Qed.

Lemma wf_dir_same s s' d bs : same_on s s' -> wf_dir s d bs -> wf_dir s' d bs.
Proof.
  intros H [L D I B N E]. assert (Hi : di_indirect d <> 0 -> allocated s (di_indirect d)) by (intros; by apply I).
  split; [done|done| | |done|].
  - intros Hne. destruct (I Hne) as [A R]. destruct (H _ A) as [A' ->]. by split.
  - intros i b Hb. destruct (B i b Hb) as (M & K & X). rewrite (bmap_same s s') by done.
    split_and!; [done| |done]. by apply (block_ok_same s).
  - intros i Hi'. rewrite (bmap_same s s') by done. by apply E.
Qed.

Lemma same_report s calls : same_on s (report s calls).
Proof. intros b A. split; [by apply report_allocated|by apply report_bread]. Qed.

Lemma same_on_trans s1 s2 s3 : same_on s1 s2 -> same_on s2 s3 -> same_on s1 s3.
Proof. intros H1 H2 b A. destruct (H1 b A) as [A2 E2]. destruct (H2 b A2) as [A3 E3]. split; [done|by rewrite E3]. Qed.

Lemma same_on_refl s : same_on s s.
Proof. by intros b A. Qed.

(** Reading a block of the directory. *)
Lemma read_block s b :
  block_ok s b -> exists rc s', read_payload t cpu s (b_phys b) = Some (rc, b_payload b, s') /\
    0 <= rc /\ same_on s s'.
Proof.
  intros [A N (c & rc & calls & E & B & Z & D & R) W]. unfold read_payload. rewrite E, D.
  eexists _, _. split; [reflexivity|]. split; [done|apply same_report].
Qed.

(** ** Lookup *)

Lemma find_entry_concat_none name bs b :
  find_entry name (block_entries b) = None ->
  find_entry name (dir_entries (b :: bs)) = find_entry name (dir_entries bs).
Proof.
  intros H. unfold dir_entries. cbn [map concat]. unfold find_entry in *.
  induction (block_entries b) as [|e es IH]; [done|]. cbn [app find] in *.
  destruct (bool_decide _); [done|]. by apply IH.
Qed.

Lemma find_entry_concat_some name bs b e :
  find_entry name (block_entries b) = Some e -> find_entry name (dir_entries (b :: bs)) = Some e.
Proof.
  intros H. unfold dir_entries. cbn [map concat]. unfold find_entry in *.
  induction (block_entries b) as [|e' es IH]; [done|]. cbn [app find] in *.
  destruct (bool_decide _); [done|]. by apply IH.
Qed.

Lemma upto_cons_from i : 0 <= i < 524 -> seqZ i (524 - i) = i :: seqZ (i + 1) (524 - (i + 1)).
Proof. intros. rewrite seqZ_cons by lia. f_equal; f_equal; lia. Qed.

(** The rest of the loop, from block [i]. *)
Lemma lookup_loop d bs name : forall k s i,
  wf_dir s d bs -> Z.to_nat (zlen bs - i) = k -> 0 <= i <= zlen bs ->
  exists s', same_on s s' /\
    match fold_until (lookup_block t cpu d name) s (seqZ i (524 - i)) with
    | inl s => (s, inr None)
    | inr r => r
    end = (s', inr (option_map e_ino (find_entry name (dir_entries (drop (Z.to_nat i) bs))))).
Proof.
  induction k as [|k IH]; intros s i W Hk Hi; pose proof (wd_len _ _ _ W) as Hl.
  - assert (i = zlen bs) as -> by lia.
    rewrite drop_ge by (unfold zlen; lia). destruct (decide (zlen bs = 524)) as [E|E].
    + rewrite E. exists s. split; [apply same_on_refl|done].
    + pose proof (zlen_nonneg bs). rewrite upto_cons_from by lia. cbn [fold_until]. unfold lookup_block.
      rewrite get_block_lookup, (wd_end _ _ _ W) by lia. exists s. split; [apply same_on_refl|done].
  - assert (Hin : exists b, bs !! Z.to_nat i = Some b).
    { destruct (bs !! Z.to_nat i) as [b|] eqn:E; [by exists b|]. apply lookup_ge_None in E. unfold zlen in *. lia. }
    destruct Hin as (b & Hb). destruct (wd_block _ _ _ W _ b Hb) as (M & K & _). rewrite Z2Nat.id in M by lia.
    rewrite upto_cons_from by lia. cbn [fold_until]. unfold lookup_block at 1.
    rewrite get_block_lookup, M by lia. cbn [Z.eqb negb].
    pose proof (bk_nz _ _ K) as NZ. destruct (b_phys b =? 0) eqn:E0; [lia|].
    destruct (read_block s b K) as (rc & s' & -> & Hrc & Hs). destruct (rc <? 0) eqn:Er; [lia|].
    rewrite (lookup_payload_spec _ _ name (bk_wf _ _ K)). fold (block_entries b).
    rewrite (drop_S bs b (Z.to_nat i)) by done.
    destruct (find_entry name (block_entries b)) as [e|] eqn:F; cbn [option_map].
    + exists s'. split; [done|]. by rewrite (find_entry_concat_some _ _ _ e F).
    + rewrite find_entry_concat_none by done.
      destruct (IH s' (i + 1)) as (s2 & Hs2 & E2); [by apply (wf_dir_same s)|lia|lia|].
      exists s2. split; [by apply (same_on_trans s s')|].
      replace (Datatypes.S (Z.to_nat i)) with (Z.to_nat (i + 1)) by lia. exact E2.
Qed.

Lemma lookup_spec s d bs name :
  wf_dir s d bs -> scratch_get s = true -> zlen name <= 255 ->
  exists s', same_on s s' /\
    beamfs_lookup t cpu s d name = (s', inr (option_map e_ino (find_entry name (dir_entries bs)))).
Proof.
  intros W Hs Hn. unfold beamfs_lookup. change BEAMFS_MAX_FILENAME with 255.
  destruct (255 <? zlen name) eqn:E; [lia|]. rewrite Hs. cbn [negb].
  change (upto DIR_BLOCKS) with (seqZ 0 (524 - 0)).
  pose proof (zlen_nonneg bs).
  destruct (lookup_loop d bs name _ s 0 W eq_refl ltac:(lia)) as (s' & Hs' & E'). exists s'.
  split; [done|]. exact E'.
Qed.

(** ** Rewriting a block *)

Lemma wf_payload_ext p p' l :
  wf_payload p l -> bytes p' -> zlen p' = 4096 -> slice p' 0 3824 = slice p 0 3824 ->
  wf_payload p' l /\ entries p' l = entries p l /\ forall want, has_room p l want -> has_room p' l want.
Proof.
  intros [B Z R Sl] B' Z' E. change BEAMFS_BLOCK_SIZE with 4096 in Z.
  assert (A : agree p p' 0 3824).
  { intros x Hx. apply (f_equal (fun l => getb l x)) in E. rewrite !getb_slice in E by lia. exact E. }
  destruct (recs_agree p p' 0 3824 l Z Z' B ltac:(lia) R A) as (R' & Ee & F). split_and!; [split; try done|done|].
  2: { intros want (o & Ho & H0 & Hw). exists o. destruct (F o Ho) as (-> & _ & ->). done. }
  intros o Ho Hl. destruct (F o Ho) as (-> & -> & Ei). apply Sl; [done|]. by rewrite <- Ei.
Qed.

(** Encoded contents of a block whose payload is [p]. *)
Lemma encoded_payload phys q p l :
  bytes q -> zlen q = 4096 -> slice q 0 3824 = slice p 0 3824 -> wf_payload p l ->
  exists p', let c := beamfs_dirent_encode t cpu q in bytes c /\ zlen c = 4096 /\
    beamfs_dirent_decode t cpu phys c = (0, p', []) /\ wf_payload p' l /\ entries p' l = entries p l /\
    forall want, has_room p l want -> has_room p' l want.
Proof.
  intros Bq Zq E W. pose proof (dirent_encode_spec t cpu Hctrl q Zq Bq) as En.
  destruct (dirent_decode_encoded t cpu Hctrl phys q Zq Bq) as (dst & D & Zd & Bd & Ed).
  destruct (wf_payload_ext p dst l W Bd Zd) as (W' & E' & R'); [by rewrite Ed|].
  exists dst. split_and!; [apply En|apply En|exact D|done|done|done].
Qed.

Lemma write_block s b p l :
  block_ok s b -> wf_payload p l ->
  exists p', let s' := write_payload t cpu s (b_phys b) p in
    block_ok s' (DBlock (b_phys b) p' l) /\ entries p' l = entries p l /\ (forall want, has_room p l want -> has_room p' l want) /\
    (forall x, allocated s' x <-> allocated s x) /\ (forall x, x <> b_phys b -> bread s' x = bread s x).
Proof.
  intros [A N (c & rc & calls & E & B & Z & D & R) W0] W. pose proof (wf_bytes _ _ W) as Bp.
  pose proof (wf_len _ _ W) as Zp. change BEAMFS_BLOCK_SIZE with 4096 in Zp.
  assert (Zs : zlen (slice p 0 3824) = 3824) by (rewrite zlen_slice; lia).
  unfold write_payload. rewrite E. change BEAMFS_DATA_INLINE_BYTES with 3824.
  destruct (encoded_payload (b_phys b) (splice c 0 (slice p 0 3824)) p l) as (p' & B' & Z' & D' & W' & E' & R').
  { auto with bytes. }
  { rewrite zlen_splice; lia. }
  { by apply slice_splice_len; [|lia|lia]. }
  { done. }
  exists p'. cbn [b_phys]. split_and!.
  - split; cbn [b_phys b_payload b_chain].
    + by apply bput_allocated.
    + done.
    + rewrite bput_same. eexists _, 0, []. by split_and!.
    + done.
  - done.
  - done.
  - intros x. apply bput_allocated.
  - intros x Hx. by apply bput_other.
Qed.

(** A directory with one block rewritten. *)
Lemma wf_dir_write s s' d d' bs k b b' :
  wf_dir s d bs -> bs !! k = Some b -> b_phys b' = b_phys b -> block_ok s' b' ->
  di_direct d' = di_direct d -> di_indirect d' = di_indirect d ->
  (forall x, allocated s' x <-> allocated s x) -> (forall x, x <> b_phys b -> bread s' x = bread s x) ->
  wf_dir s' d' (<[k := b']> bs).
Proof.
  intros [L D I B N E] Hk Hp Hok Ed Ei Ha Hr.
  destruct (B k b Hk) as (_ & _ & Hind).
  assert (M : forall i, bmap s' d' i = bmap s d i).
  { intros i. unfold bmap. rewrite Ed, Ei. destruct (i <? BEAMFS_DIRECT_BLOCKS); [done|].
    destruct (di_indirect d =? 0); [done|]. rewrite Hr; [done|congruence]. }
  assert (Zl : zlen (<[k:=b']> bs) = zlen bs) by (unfold zlen; by rewrite length_insert).
  split.
  - by rewrite Zl.
  - by rewrite Ed.
  - rewrite Ei. intros Hne. destruct (I Hne) as [A R]. rewrite Hr by congruence.
    split; [by apply Ha|by rewrite Zl].
  - intros i x Hx. rewrite M, Ei. destruct (decide (i = k)) as [->|Hik].
    + rewrite list_lookup_insert_eq in Hx by (by eapply lookup_lt_Some). injection Hx as <-.
      rewrite Hp. destruct (B k b Hk) as (M1 & _ & X1). done.
    + rewrite list_lookup_insert_ne in Hx by done. destruct (B i x Hx) as (M1 & K1 & X1).
      split_and!; [done| |done]. assert (Hne : b_phys x <> b_phys b).
      { intros Eq. apply Hik. apply (NoDup_lookup (map b_phys bs) i k (b_phys x) N).
        - by rewrite list_lookup_fmap, Hx.
        - rewrite list_lookup_fmap, Hk. cbn. by f_equal. }
      destruct K1 as [A1 N1 R1 W1]. split; [by apply Ha|done| |done]. by rewrite Hr.
  - assert (map b_phys (<[k:=b']> bs) = map b_phys bs) as ->; [|done].
    apply list_eq. intros i. rewrite !list_lookup_fmap. destruct (decide (i = k)) as [->|Hik].
    + rewrite list_lookup_insert_eq by (by eapply lookup_lt_Some). rewrite Hk. cbn. by f_equal.
    + by rewrite list_lookup_insert_ne.
  - intros i Hi. rewrite M. apply E. by rewrite Zl in Hi.
Qed.
End tree.
