(* ===== verification/DirUpdate.v ===== *)
(** * Directories: insertion and removal across blocks *)

From S2P Require Import Prelude Format RsInit RsLib Edac EdacTheorems Dirent DirentTheorems DirRecords DirOps Dir DirTree.

Lemma dir_entries_app b1 b2 : dir_entries (b1 ++ b2) = dir_entries b1 ++ dir_entries b2.
Proof. unfold dir_entries. by rewrite map_app, concat_app. Qed.

Lemma dir_entries_insert bs k b b' :
  bs !! k = Some b ->
  dir_entries bs = dir_entries (take k bs) ++ block_entries b ++ dir_entries (drop (S k) bs) /\
  dir_entries (<[k := b']> bs) = dir_entries (take k bs) ++ block_entries b' ++ dir_entries (drop (S k) bs).
Proof.
  intros Hk. pose proof (lookup_lt_Some _ _ _ Hk). split.
  - rewrite <- (take_drop_middle bs k b Hk) at 1. by rewrite dir_entries_app.
  - rewrite insert_take_drop by done. by rewrite dir_entries_app.
Qed.

Lemma find_entry_none_app n es1 es2 :
  find_entry n (es1 ++ es2) = None <-> find_entry n es1 = None /\ find_entry n es2 = None.
Proof. rewrite !find_entry_none, map_app, not_elem_of_app. done. Qed.

Lemma le_val_zero l : Forall (eq 0) l -> le_val l = 0.
Proof. induction 1 as [|x l <- _ IH]; [done|]. cbn [le_val]. by rewrite IH. Qed.

Lemma get_le64_zeros n off : get_le64 (zeros n) off = 0.
Proof. apply le_val_zero. unfold slice, zeros. by apply Forall_take, Forall_drop, Forall_replicate. Qed.

Section update.
Context {S : Type} `{RL : !RsLib} `{RS : !RsLibSpec} `{DO : DirEnvOk S} (t : rs_tables) (cpu : nat).
Context (Hctrl : ctrl_here t cpu = true).

(** A block of the directory at the loop's index. *)
Lemma block_at s d bs i :
  wf_dir t cpu s d bs -> 0 <= i < zlen bs ->
  exists b, bs !! Z.to_nat i = Some b /\ block_ok t cpu s b /\
    beamfs_dir_get_block t cpu s d i false = (0, b_phys b, d, s) /\ (b_phys b =? 0) = false.
Proof.
  intros W Hi. pose proof (wd_len _ _ _ _ _ W).
  destruct (bs !! Z.to_nat i) as [b|] eqn:E.
  - destruct (wd_block _ _ _ _ _ W _ b E) as (M & K & _). rewrite Z2Nat.id in M by lia. exists b.
    split_and!; [done|done| |].
    + rewrite get_block_lookup by lia. by rewrite M.
    + pose proof (bk_nz _ _ _ _ K). lia.
  - apply lookup_ge_None in E. unfold zlen in *. lia.
Qed.

Lemma no_block_at s d bs i :
  wf_dir t cpu s d bs -> zlen bs <= i < 524 ->
  beamfs_dir_get_block t cpu s d i false = (0, 0, d, s).
Proof.
  intros W Hi. pose proof (zlen_nonneg bs). rewrite get_block_lookup by lia.
  by rewrite (wd_end _ _ _ _ _ W) by lia.
Qed.

(** *** What a step leaves to others *)

(** The blocks of a directory. *)
Definition dir_blocks (d : dinode) (bs : list dblock) : list Z :=
  map b_phys bs ++ (if di_indirect d =? 0 then [] else [di_indirect d]).

(** The directory went from one state to another without touching a block
    somebody else has, and took no such block. *)
Record evolves (s : S) (d : dinode) (bs : list dblock) (s' : S) (d' : dinode) (bs' : list dblock) : Prop := {
  ev_frame : forall x, allocated s x -> x ∉ dir_blocks d bs -> allocated s' x /\ bread s' x = bread s x;
  ev_owned : forall x, x ∈ dir_blocks d' bs' -> x ∈ dir_blocks d bs \/ ~ allocated s x }.

Lemma evolves_same s s' d bs : same_on s s' -> evolves s d bs s' d bs.
Proof. intros H. split; [intros x A _; by apply H|by left]. Qed.

Lemma evolves_trans s1 d1 b1 s2 d2 b2 s3 d3 b3 :
  evolves s1 d1 b1 s2 d2 b2 -> evolves s2 d2 b2 s3 d3 b3 -> evolves s1 d1 b1 s3 d3 b3.
Proof.
  intros [F1 O1] [F2 O2]. split.
  - intros x A N. destruct (F1 x A N) as [A2 E2].
    assert (N2 : x ∉ dir_blocks d2 b2) by (intros Hx; destruct (O1 x Hx); done).
    destruct (F2 x A2 N2) as [A3 E3]. split; [done|by rewrite E3].
  - intros x Hx. destruct (O2 x Hx) as [Hx2|N2]; [by apply O1|].
    destruct (decide (x ∈ dir_blocks d1 b1)) as [?|N1]; [by left|right]. intros A. by destruct (F1 x A N1).
Qed.

Lemma dir_blocks_phys d bs i b : bs !! i = Some b -> b_phys b ∈ dir_blocks d bs.
Proof.
  intros H. apply elem_of_app. left. apply list_elem_of_In, in_map, list_elem_of_In. by apply list_elem_of_lookup_2 with i.
Qed.

(** A step of a directory whose blocks stay where they are. *)
Lemma evolves_blocks s s' d d' bs bs' i b : bs !! i = Some b -> dir_blocks d' bs' = dir_blocks d bs ->
  (forall x, allocated s' x <-> allocated s x) -> (forall x, x <> b_phys b -> bread s' x = bread s x) -> evolves s d bs s' d' bs'.
Proof.
  intros Hb E A R. pose proof (dir_blocks_phys d bs i b Hb) as Hin. split; [|rewrite E; by left].
  intros x Ax Nx. split; [by apply A|]. apply R. by intros ->.
Qed.

Lemma dir_blocks_insert d d' bs k b b' : bs !! k = Some b -> b_phys b' = b_phys b -> di_indirect d' = di_indirect d ->
  dir_blocks d' (<[k := b']> bs) = dir_blocks d bs.
Proof.
  intros Hk E Ei. unfold dir_blocks. rewrite Ei. f_equal. apply list_eq. intros i. rewrite !list_lookup_fmap. destruct (decide (i = k)) as [->|N].
  - rewrite list_lookup_insert_eq by (by eapply lookup_lt_Some). rewrite Hk. cbn. by f_equal.
  - by rewrite list_lookup_insert_ne.
Qed.

(** *** Removal *)

(** One of the blocks has a free record of [want] bytes. *)
Definition dir_room (bs : list dblock) (want : Z) : Prop := exists b, b ∈ bs /\ has_room (b_payload b) (b_chain b) want.

Lemma del_loop d bs name now : forall k s i,
  wf_dir t cpu s d bs -> Z.to_nat (zlen bs - i) = k -> 0 <= i <= zlen bs ->
  let r := match fold_until (del_block t cpu d name now) s (seqZ i (524 - i)) with
           | inl s => (- ENOENT, d, s) | inr r => r end in
  (exists s', r = (- ENOENT, d, s') /\ same_on s s' /\
     find_entry name (dir_entries (drop (Z.to_nat i) bs)) = None) \/
  (exists s' d' bs' es1 e es2, r = (0, d', s') /\ wf_dir t cpu s' d' bs' /\ evolves s d bs s' d' bs' /\ di_ino d' = di_ino d /\
     dir_entries bs = dir_entries (take (Z.to_nat i) bs) ++ es1 ++ e :: es2 /\ e_name e = name /\
     find_entry name es1 = None /\ dir_entries bs' = dir_entries (take (Z.to_nat i) bs) ++ es1 ++ es2 /\
     dir_room bs' (BEAMFS_DIRENT_LEN (zlen name))).
Proof.
  induction k as [|k IH]; intros s i W Hk Hi; pose proof (wd_len _ _ _ _ _ W) as Hl; cbv zeta.
  - assert (i = zlen bs) as -> by lia. left. exists s.
    rewrite drop_ge by (unfold zlen; lia). destruct (decide (zlen bs = 524)) as [E|E].
    + rewrite E. split_and!; [done|apply same_on_refl|done].
    + pose proof (zlen_nonneg bs). rewrite upto_cons_from by lia. cbn [fold_until]. unfold del_block.
      rewrite (no_block_at s d bs) by (done || lia). split_and!; [done|apply same_on_refl|done].
  - destruct (block_at s d bs i W ltac:(lia)) as (b & Hb & K & G & NZ).
    rewrite upto_cons_from by lia. cbn [fold_until]. unfold del_block at 1 3. rewrite G, NZ. cbn [Z.eqb negb].
    destruct (read_block t cpu s b K) as (rc & s1 & Er & Hrc & Hs). rewrite Er.
    destruct (rc <? 0) eqn:Erc; [lia|].
    pose proof (wf_dir_same t cpu s s1 d bs Hs W) as W1.
    pose proof (block_ok_same t cpu s s1 b Hs K) as K1.
    pose proof (del_payload_spec _ _ name (bk_wf _ _ _ _ K)) as DS.
    destruct (del_payload (b_payload b) name) as [p'|].
    + right. destruct DS as (l' & x1 & e & x2 & Wp & Ex & En & Hn & Ex' & Hroom).
      destruct (write_block t cpu Hctrl s1 b p' l' K1 Wp) as (q & Kq & Eq & Hq & Aq & Rq).
      set (s2 := write_payload t cpu s1 (b_phys b) p') in *.
      set (b' := DBlock (b_phys b) q l') in *.
      assert (W2 : wf_dir t cpu s2 (mark_inode_dirty (set_times d now)) (<[Z.to_nat i := b']> bs)).
      { by apply (wf_dir_write t cpu s1 s2 d _ bs _ b b'). }
      destruct (dir_entries_insert bs (Z.to_nat i) b b' Hb) as [E1 E2].
      exists s2, (mark_inode_dirty (set_times d now)), (<[Z.to_nat i := b']> bs), x1, e,
        (x2 ++ dir_entries (drop (Datatypes.S (Z.to_nat i)) bs)).
      split_and!; [done|done| |done| |done|done| |].
      * apply (evolves_trans _ _ _ s1 d bs); [by apply evolves_same|].
        apply (evolves_blocks s1 s2 d _ bs _ (Z.to_nat i) b Hb); [by apply (dir_blocks_insert d _ bs _ b)|done|done].
      * rewrite E1. unfold block_entries. rewrite Ex. by rewrite <- app_assoc.
      * rewrite E2. unfold block_entries, b'. cbn [b_payload b_chain]. rewrite Eq, Ex'. by rewrite <- app_assoc.
      * exists b'. split; [|by apply Hq]. apply (list_elem_of_lookup_2 _ (Z.to_nat i)), list_lookup_insert_eq. by eapply lookup_lt_Some.
    + destruct (IH s1 (i + 1) W1 ltac:(lia) ltac:(lia)) as [(s' & Er' & Hs' & F)|H].
      * left. exists s'. split_and!; [exact Er'|by apply (same_on_trans s s1)|].
        rewrite (drop_S bs b (Z.to_nat i)) by done. rewrite find_entry_concat_none by done.
        by replace (Datatypes.S (Z.to_nat i)) with (Z.to_nat (i + 1)) by lia.
      * right. destruct H as (s' & d' & bs' & es1 & e & es2 & Er' & W' & Ev & Eino & E1 & En & F & E2 & Hroom).
        replace (Z.to_nat (i + 1)) with (Datatypes.S (Z.to_nat i)) in * by lia.
        rewrite (take_S_r bs (Z.to_nat i) b Hb) in E1, E2. rewrite dir_entries_app in E1, E2.
        assert (Eb : dir_entries [b] = block_entries b) by (unfold dir_entries; cbn; apply app_nil_r).
        rewrite Eb, <- app_assoc in E1, E2.
        exists s', d', bs', (block_entries b ++ es1), e, es2.
        split_and!; [exact Er'|done| |done|by rewrite E1, <- app_assoc|done| |by rewrite E2, <- app_assoc|done].
        { exact (evolves_trans _ _ _ _ _ _ _ _ _ (evolves_same _ _ _ _ Hs) Ev). }
        apply find_entry_none_app. by split.
Qed.

(** *** A directory that grows *)

Lemma new_block_ok s b :
  allocated s b -> b <> 0 -> bread s b = Some (new_dir_block t cpu) ->
  exists p, block_ok t cpu s (DBlock b p [0]) /\ entries p [0] = [] /\
    d_ino p 0 = 0 /\ d_rec_len p 0 = 3824.
Proof.
  intros A N E.
  destruct (encoded_payload t cpu Hctrl b new_dir_payload new_dir_payload [0]) as (p & B & Z & D & W & En & _);
    [apply wf_new_payload|apply wf_new_payload|done|apply wf_new_payload|].
  assert (E0 : entries new_dir_payload [0] = []) by (by apply entries_free).
  assert (Ei : d_ino p 0 = 0).
  { destruct (decide (d_ino p 0 = 0)) as [?|H]; [done|]. rewrite (entries_live p 0 []) in En by done. congruence. }
  exists p. split_and!.
  - split; [done|done| |done]. cbn [b_phys b_payload]. eexists _, 0, []. by split_and!.
  - by rewrite En.
  - done.
  - pose proof (wf_recs _ _ W) as R. apply recs_cons_inv in R as (_ & _ & R). apply recs_nil_inv in R. lia.
Qed.

Definition fresh (s : S) (d : dinode) (bs : list dblock) (b : Z) : Prop :=
  b <> di_indirect d /\ b ∉ map b_phys bs.

Lemma not_allocated_fresh s d bs b :
  wf_dir t cpu s d bs -> ~ allocated s b -> b <> 0 -> fresh s d bs b.
Proof.
  intros W Ha Hb. split.
  - intros ->. apply Ha. by apply W.
  - intros Hin. apply list_elem_of_In, in_map_iff in Hin as (x & <- & Hx%list_elem_of_In).
    apply list_elem_of_lookup in Hx as (i & Hx). destruct (wd_block _ _ _ _ _ W i x Hx) as (_ & K & _).
    apply Ha, K.
Qed.

Lemma lookup_snoc (bs : list dblock) x i b :
  (bs ++ [x]) !! i = Some b -> bs !! i = Some b \/ (i = length bs /\ b = x).
Proof.
  intros H. apply lookup_app_Some in H as [H|[Hl H]]; [by left|right].
  apply list_lookup_singleton_Some in H as [? <-]. split; [lia|done].
Qed.

(** The next block, through a direct pointer. *)
Lemma extend_direct s d d' bs blk :
  wf_dir t cpu s d bs -> zlen bs < 12 -> block_ok t cpu s blk -> fresh s d bs (b_phys blk) ->
  di_direct d' = setb (di_direct d) (zlen bs) (b_phys blk) -> di_indirect d' = di_indirect d ->
  wf_dir t cpu s d' (bs ++ [blk]).
Proof.
  intros [L D I B N E] Hn K [F1 F2] Ed Ei. pose proof (zlen_nonneg bs).
  assert (Ll : Z.of_nat (length bs) = zlen bs) by done.
  assert (M : forall i, 0 <= i -> i <> zlen bs -> bmap s d' i = bmap s d i).
  { intros i Hi Hne. unfold bmap. rewrite Ed, Ei, getb_setb_ne by lia. done. }
  assert (Mn : bmap s d' (zlen bs) = Some (b_phys blk)).
  { unfold bmap, BEAMFS_DIRECT_BLOCKS. rewrite Ed, getb_setb_eq by lia. by destruct (zlen bs <? 12) eqn:Q; [|lia]. }
  split.
  - rewrite zlen_app, zlen_cons, zlen_nil. lia.
  - by rewrite Ed, zlen_setb.
  - rewrite Ei. intros Hne. destruct (I Hne) as (_ & _ & ?). lia.
  - intros i x Hx. rewrite Ei. apply lookup_snoc in Hx as [Hx|[-> ->]].
    + pose proof (lookup_lt_Some _ _ _ Hx). rewrite M by lia. by apply B.
    + rewrite Ll, Mn. done.
  - rewrite map_app. apply list.NoDup_app. split_and!; [done| |apply NoDup_singleton].
    intros x Hx Hx2. apply list_elem_of_singleton in Hx2 as ->. done.
  - intros i Hi. rewrite zlen_app, zlen_cons, zlen_nil in Hi. rewrite M by lia. apply E. lia.
Qed.

(** The next block, through the indirect block. *)
Lemma extend_indirect s s' d d' bs blk ptrs :
  wf_dir t cpu s d bs -> 12 <= zlen bs < 524 -> di_indirect d <> 0 ->
  bread s (di_indirect d) = Some ptrs -> zlen ptrs = 4096 -> bytes ptrs ->
  block_ok t cpu s blk -> fresh s d bs (b_phys blk) -> 0 < b_phys blk < 2 ^ 64 ->
  di_direct d' = di_direct d -> di_indirect d' = di_indirect d ->
  (forall x, allocated s x -> allocated s' x) ->
  (forall x, allocated s x -> x <> di_indirect d -> bread s' x = bread s x) ->
  bread s' (di_indirect d) = Some (put_le64 ptrs (8 * (zlen bs - 12)) (b_phys blk)) ->
  wf_dir t cpu s' d' (bs ++ [blk]).
Proof.
  intros [L D I B N E] Hn Hne Hp Zp Bp K [F1 F2] Hb Ed Ei Ha Hr Hp'. pose proof (zlen_nonneg bs).
  assert (Ll : Z.of_nat (length bs) = zlen bs) by done.
  assert (L8 : zlen (le_bytes 8 (b_phys blk)) = 8) by apply zlen_le_bytes.
  assert (Hne' : (di_indirect d =? 0) = false) by lia.
  assert (M : forall i, 0 <= i < 524 -> i <> zlen bs -> bmap s' d' i = bmap s d i).
  { intros i Hi Hin. unfold bmap, BEAMFS_DIRECT_BLOCKS. rewrite Ed, Ei, Hne', Hp, Hp'.
    destruct (i <? 12) eqn:Q; [done|]. f_equal. unfold get_le64, put_le64.
    rewrite slice_splice_ne; [done|lia..]. }
  assert (Mn : bmap s' d' (zlen bs) = Some (b_phys blk)).
  { unfold bmap, BEAMFS_DIRECT_BLOCKS. rewrite Ei, Hne', Hp'. destruct (zlen bs <? 12) eqn:Q; [lia|].
    f_equal. apply get_put_le64; lia. }
  assert (Kx : forall x, block_ok t cpu s x -> b_phys x <> di_indirect d -> block_ok t cpu s' x).
  { intros x [A1 N1 R1 W1] Hx. split; [by apply Ha|done| |done]. by rewrite Hr. }
  split.
  - rewrite zlen_app, zlen_cons, zlen_nil. lia.
  - by rewrite Ed.
  - rewrite Ei. intros _. destruct (I Hne) as [A _]. split; [by apply Ha|]. split; [|rewrite zlen_app, zlen_cons, zlen_nil; lia].
    eexists. split; [exact Hp'|]. split; [unfold put_le64; rewrite zlen_splice; lia|unfold put_le64; auto with bytes].
  - intros i x Hx. rewrite Ei. apply lookup_snoc in Hx as [Hx|[-> ->]].
    + pose proof (lookup_lt_Some _ _ _ Hx). destruct (B i x Hx) as (M1 & K1 & X1).
      rewrite M by (unfold zlen in *; lia). split_and!; [done|by apply Kx|done].
    + rewrite Ll, Mn. split_and!; [done|by apply Kx|done].
  - rewrite map_app. apply list.NoDup_app. split_and!; [done| |apply NoDup_singleton].
    intros x Hx Hx2. apply list_elem_of_singleton in Hx2 as ->. done.
  - intros i Hi. rewrite zlen_app, zlen_cons, zlen_nil in Hi. rewrite M by lia. apply E. lia.
Qed.

(** An allocation followed by a write to the new block leaves the rest. *)
Lemma same_alloc s ino b s' : balloc s ino = (b, s') -> same_on s s'.
Proof.
  intros E x A. split; [|by apply (balloc_bread s ino b)].
  destruct (decide (b = 0)) as [->|Hb]; [by apply (balloc_none s ino s' E)|].
  destruct (balloc_some s ino b s' E Hb) as (_ & _ & H). apply H. by right.
Qed.

Lemma same_alloc_put s ino b s' c : balloc s ino = (b, s') -> b <> 0 -> same_on s (bput s' b c).
Proof.
  intros E Hb x A. destruct (same_alloc s ino b s' E x A) as [A' R'].
  destruct (balloc_some s ino b s' E Hb) as (Hna & _ & _).
  split; [by apply bput_allocated|]. rewrite bput_other by (intros ->; done). done.
Qed.

Lemma same_alloc_free s ino b s' : balloc s ino = (b, s') -> b <> 0 -> same_on s (bfree s' b ino).
Proof.
  intros E Hb x A. destruct (same_alloc s ino b s' E x A) as [A' R'].
  destruct (balloc_some s ino b s' E Hb) as (Hna & _ & _). assert (x <> b) by (intros ->; done).
  split; [by apply bfree_allocated|]. by rewrite bfree_bread.
Qed.

Lemma unchanged_wf s s' d bs rc : rc <> 0 -> same_on s s' -> wf_dir t cpu s d bs ->
  rc <> 0 /\ wf_dir t cpu s' d bs /\ evolves s d bs s' d bs /\ di_ino d = di_ino d.
Proof. intros Hrc H W. split_and!; [done|by apply (wf_dir_same t cpu s)|by apply evolves_same|done]. Qed.

(** A block that nobody had joins the directory. *)
Lemma evolves_grow s s' d d' bs blk : ~ allocated s (b_phys blk) -> di_indirect d' = di_indirect d ->
  (forall x, allocated s x -> x ∉ dir_blocks d bs -> allocated s' x /\ bread s' x = bread s x) -> evolves s d bs s' d' (bs ++ [blk]).
Proof.
  intros N Ei F. split; [done|]. intros x Hx. unfold dir_blocks in *. rewrite Ei, map_app, !elem_of_app in Hx. rewrite elem_of_app.
  destruct Hx as [[?|Hx]|?]; [tauto| |tauto]. cbn [map] in Hx. apply list_elem_of_singleton in Hx as ->. by right.
Qed.

(** The directory has one more block, at [b], empty. *)
Definition grown (s0 : S) (d0 : dinode) (s : S) (d : dinode) (bs : list dblock) (b : Z) : Prop :=
  exists blk, wf_dir t cpu s d (bs ++ [blk]) /\ evolves s0 d0 bs s d (bs ++ [blk]) /\ di_ino d = di_ino d0 /\ b_phys blk = b /\ b <> 0 /\ b_chain blk = [0] /\
    block_entries blk = [] /\ d_ino (b_payload blk) 0 = 0 /\ d_rec_len (b_payload blk) 0 = 3824.

Lemma get_indirect_alloc s d bs rc b d' s' :
  wf_dir t cpu s d bs -> 12 <= zlen bs < 524 -> di_indirect d <> 0 ->
  dir_get_indirect t cpu s d (zlen bs - 12) true = (rc, b, d', s') ->
  (rc <> 0 /\ wf_dir t cpu s' d' bs /\ evolves s d bs s' d' bs /\ di_ino d' = di_ino d) \/ (rc = 0 /\ grown s d s' d' bs b).
Proof.
  intros W Hn Hne G. unfold dir_get_indirect in G.
  destruct (wd_indirect _ _ _ _ _ W Hne) as (Ai & (ptrs & Ep & Zp & Bp) & _). rewrite Ep in G.
  pose proof (wd_end _ _ _ _ _ W (zlen bs) ltac:(lia)) as M. unfold bmap in M.
  destruct (zlen bs <? BEAMFS_DIRECT_BLOCKS) eqn:Q; [unfold BEAMFS_DIRECT_BLOCKS in Q; lia|].
  destruct (di_indirect d =? 0) eqn:Q2; [lia|]. rewrite Ep in M.
  change BEAMFS_DIRECT_BLOCKS with 12 in M. injection M as M. rewrite M in G. cbn [Z.eqb negb] in G.
  destruct (balloc s (di_ino d)) as [nb s1] eqn:Ea. destruct (nb =? 0) eqn:E0.
  { apply Z.eqb_eq in E0 as ->. injection G as <- <- <- <-. left. apply (unchanged_wf s s1 d bs); [done|exact (same_alloc _ _ _ _ Ea)|done]. }
  apply Z.eqb_neq in E0. destruct (balloc_some s _ nb s1 Ea E0) as (Hna & Hr & Hal).
  destruct (negb (getblk s1 nb)).
  { injection G as <- <- <- <-. left. apply (unchanged_wf s _ d bs); [done|exact (same_alloc_free _ _ _ _ Ea E0)|done]. }
  injection G as <- <- <- <-. right. split; [done|].
  pose proof (same_alloc_put s _ nb s1 (new_dir_block t cpu) Ea E0) as Hs.
  set (s2 := bput s1 nb (new_dir_block t cpu)) in *.
  pose proof (wf_dir_same t cpu s s2 d bs Hs W) as W2.
  assert (A2 : allocated s2 nb) by (apply bput_allocated, Hal; by left).
  destruct (new_block_ok s2 nb A2 E0) as (p & K & En & Ei & El); [apply bput_same|].
  assert (Fr : fresh s2 d bs nb) by apply (not_allocated_fresh s d bs nb W Hna E0).
  destruct (Hs _ Ai) as [Ai2 Ri2].
  set (ptrs' := put_le64 ptrs (8 * (zlen bs - 12)) nb) in *. set (s3 := bput s2 (di_indirect d) ptrs') in *.
  exists (DBlock nb p [0]). split; [|split; [|by split_and!]].
  2:{ apply evolves_grow; [done|done|]. intros x Ax Nx. destruct (Hs x Ax) as [Ax2 Rx2].
      split; [by apply parity_allocated, bput_allocated|]. rewrite parity_bread by (by apply bput_allocated).
      transitivity (bread s2 x); [apply bput_other|done]. intros <-. apply Nx. unfold dir_blocks. rewrite Q2. apply elem_of_app. right. by left. }
  apply (extend_indirect s2 _ d _ bs (DBlock nb p [0]) ptrs); try done.
  - by rewrite Ri2.
  - intros x Ax. by apply parity_allocated, bput_allocated.
  - intros x Ax Hx. rewrite parity_bread by (by apply bput_allocated). apply bput_other. congruence.
  - rewrite parity_bread by (by apply bput_allocated). apply bput_same.
Qed.

(** A fresh, empty indirect block changes nothing. *)
Lemma add_indirect s s' d bs nb :
  wf_dir t cpu s d bs -> 12 <= zlen bs -> di_indirect d = 0 -> ~ allocated s nb -> nb <> 0 -> same_on s s' ->
  allocated s' nb -> bread s' nb = Some (zeros 4096) ->
  wf_dir t cpu s' (mark_inode_dirty (set_indirect d nb)) bs.
Proof.
  intros W H12 H0 Hna Hnb Hs A' R'. pose proof (not_allocated_fresh s d bs nb W Hna Hnb) as [_ F].
  destruct W as [L D I B N E].
  assert (M : forall i, 0 <= i < 524 -> bmap s' (mark_inode_dirty (set_indirect d nb)) i = bmap s d i).
  { intros i Hi. unfold bmap. cbn [di_direct di_indirect mark_inode_dirty set_indirect].
    destruct (i <? BEAMFS_DIRECT_BLOCKS); [done|]. rewrite H0, R'. destruct (nb =? 0) eqn:Q; [lia|]. cbn [Z.eqb].
    f_equal. apply get_le64_zeros. }
  split.
  - done.
  - done.
  - intros _. cbn [di_indirect mark_inode_dirty set_indirect]. split; [done|]. split; [|done].
    exists (zeros 4096). split_and!; [done|done|apply bytes_zeros].
  - intros i x Hx. pose proof (lookup_lt_Some _ _ _ Hx). rewrite M by (unfold zlen in L; lia).
    destruct (B i x Hx) as (M1 & K1 & X1). split_and!; [done|by apply (block_ok_same t cpu s)|].
    cbn [di_indirect mark_inode_dirty set_indirect]. intros Ex. apply F. rewrite <- Ex.
    apply list_elem_of_In, in_map, list_elem_of_In. by apply list_elem_of_lookup_2 with i.
  - done.
  - intros i Hi. pose proof (zlen_nonneg bs). rewrite M by lia. by apply E.
Qed.

Lemma get_block_alloc s d bs rc b d' s' :
  wf_dir t cpu s d bs -> zlen bs < 524 ->
  beamfs_dir_get_block t cpu s d (zlen bs) true = (rc, b, d', s') ->
  (rc <> 0 /\ wf_dir t cpu s' d' bs /\ evolves s d bs s' d' bs /\ di_ino d' = di_ino d) \/ (rc = 0 /\ grown s d s' d' bs b).
Proof.
  intros W Hn G. pose proof (zlen_nonneg bs). unfold beamfs_dir_get_block in G. change DIR_BLOCKS with 524 in G.
  destruct (524 <=? zlen bs) eqn:Q0; [lia|]. change BEAMFS_DIRECT_BLOCKS with 12 in G.
  destruct (zlen bs <? 12) eqn:Q1.
  - pose proof (wd_end _ _ _ _ _ W (zlen bs) ltac:(lia)) as M. unfold bmap in M.
    change BEAMFS_DIRECT_BLOCKS with 12 in M. rewrite Q1 in M. injection M as M. rewrite M in G.
    cbn [Z.eqb negb] in G. destruct (balloc s (di_ino d)) as [nb s1] eqn:Ea. destruct (nb =? 0) eqn:E0.
    { apply Z.eqb_eq in E0 as ->. injection G as <- <- <- <-. left. apply (unchanged_wf s s1 d bs); [done|exact (same_alloc _ _ _ _ Ea)|done]. }
    apply Z.eqb_neq in E0. destruct (balloc_some s _ nb s1 Ea E0) as (Hna & Hr & Hal).
    destruct (negb (getblk s1 nb)).
    { injection G as <- <- <- <-. left. apply (unchanged_wf s _ d bs); [done|exact (same_alloc_free _ _ _ _ Ea E0)|done]. }
    injection G as <- <- <- <-. right. split; [done|].
    pose proof (same_alloc_put s _ nb s1 (new_dir_block t cpu) Ea E0) as Hs.
    set (s2 := bput s1 nb (new_dir_block t cpu)) in *.
    assert (A2 : allocated s2 nb) by (apply bput_allocated, Hal; by left).
    destruct (new_block_ok s2 nb A2 E0) as (p & K & En & Ei & El); [apply bput_same|].
    exists (DBlock nb p [0]). split; [|split; [|by split_and!]].
    2:{ apply evolves_grow; [done|done|]. intros x Ax _. by apply Hs. }
    apply (extend_direct s2 d); [by apply (wf_dir_same t cpu s)|lia|done| |done|done].
    apply (not_allocated_fresh s d bs nb W Hna E0).
  - destruct (di_indirect d =? 0) eqn:Q2; [|by apply (get_indirect_alloc s d); [|lia|lia|]].
    apply Z.eqb_eq in Q2. cbn [negb] in G.
    destruct (balloc s (di_ino d)) as [nb s1] eqn:Ea. destruct (nb =? 0) eqn:E0.
    { apply Z.eqb_eq in E0 as ->. injection G as <- <- <- <-. left. apply (unchanged_wf s s1 d bs); [done|exact (same_alloc _ _ _ _ Ea)|done]. }
    apply Z.eqb_neq in E0. destruct (balloc_some s _ nb s1 Ea E0) as (Hna & Hr & Hal).
    destruct (negb (getblk s1 nb)).
    { injection G as <- <- <- <-. left. apply (unchanged_wf s _ d bs); [done|exact (same_alloc_free _ _ _ _ Ea E0)|done]. }
    change BEAMFS_BLOCK_SIZE with 4096 in G.
    pose proof (same_alloc_put s _ nb s1 (zeros 4096) Ea E0) as Hs.
    set (s2 := bput s1 nb (zeros 4096)) in *.
    assert (A2 : allocated s2 nb) by (apply bput_allocated, Hal; by left).
    set (s3 := parity_update s2 nb (zeros 4096) (di_ino d)) in *.
    assert (H3 : same_on s2 s3) by (intros x Ax; split; [by apply parity_allocated|by apply parity_bread]).
    assert (W3 : wf_dir t cpu s3 (mark_inode_dirty (set_indirect d nb)) bs).
    { apply (add_indirect s s3 d bs nb W ltac:(lia) Q2 Hna E0 (same_on_trans _ _ _ Hs H3)); [by apply H3|].
      destruct (H3 nb A2) as [_ ->]. apply bput_same. }
    assert (Ev : evolves s d bs s3 (mark_inode_dirty (set_indirect d nb)) bs).
    { split; [intros x Ax _; exact (same_on_trans _ _ _ Hs H3 x Ax)|]. intros x Hx. unfold dir_blocks in *.
      cbn [di_indirect mark_inode_dirty set_indirect] in Hx. replace (nb =? 0) with false in Hx by lia.
      rewrite elem_of_app, list_elem_of_singleton in Hx. rewrite elem_of_app. destruct Hx as [?| ->]; [tauto|by right]. }
    destruct (get_indirect_alloc s3 _ bs rc b d' s' W3 ltac:(lia) E0 G) as [(Hrc & W' & Ev' & Ei)|[-> (blk & W' & Ev' & Ei & R')]].
    + left. split_and!; [done|done|by eapply evolves_trans|done].
    + right. split; [done|]. exists blk. split; [done|]. split; [by eapply evolves_trans|]. split; [exact Ei|exact R'].
Qed.

(** *** Insertion *)

(** The entry [e] came, and at most [k] blocks. *)
Definition inserted (k : Z) (s0 : S) (d0 : dinode) (s : S) (d : dinode) (bs : list dblock) (e : dentry) : Prop :=
  exists bs' es1 es2, wf_dir t cpu s d bs' /\ evolves s0 d0 bs s d bs' /\ di_ino d = di_ino d0 /\ dir_entries bs = es1 ++ es2 /\
    dir_entries bs' = es1 ++ e :: es2 /\ zlen bs' <= zlen bs + k.

(** The block at [i] takes the entry. *)
Lemma write_insert s d bs i b p name ino ft now :
  wf_dir t cpu s d bs -> bs !! i = Some b -> name_ok name -> 0 < ino < 2 ^ 64 -> is_byte ft ->
  add_payload (b_payload b) name ino ft = Some p ->
  inserted 0 s d (write_payload t cpu s (b_phys b) p) (mark_inode_dirty (set_times d now)) bs (Dentry ino name ft).
Proof.
  intros W Hb Hn Hi Hf Ea. destruct (wd_block _ _ _ _ _ W i b Hb) as (_ & K & _).
  pose proof (add_payload_spec _ _ name ino ft (bk_wf _ _ _ _ K) Hn Hi Hf) as A. rewrite Ea in A.
  destruct A as (l' & x1 & x2 & Wp & Ex & Ex').
  destruct (write_block t cpu Hctrl s b p l' K Wp) as (q & Kq & Eq & _ & Aq & Rq).
  set (s2 := write_payload t cpu s (b_phys b) p) in *. set (b' := DBlock (b_phys b) q l') in *.
  destruct (dir_entries_insert bs i b b' Hb) as [E1 E2].
  exists (<[i := b']> bs), (dir_entries (take i bs) ++ x1), (x2 ++ dir_entries (drop (Datatypes.S i) bs)).
  split_and!.
  - by apply (wf_dir_write t cpu s s2 d _ bs _ b b').
  - apply (evolves_blocks s s2 d _ bs _ i b Hb); [by apply (dir_blocks_insert d _ bs _ b)|done|done].
  - done.
  - rewrite E1. unfold block_entries. rewrite Ex. by rewrite <- !app_assoc.
  - rewrite E2. unfold block_entries, b'. cbn [b_payload b_chain]. rewrite Eq, Ex'. by rewrite <- !app_assoc.
  - unfold zlen. rewrite length_insert. lia.
Qed.

(** An empty block has room. *)
Lemma add_to_new b name ino ft :
  wf_payload (b_payload b) (b_chain b) -> b_chain b = [0] -> d_ino (b_payload b) 0 = 0 ->
  d_rec_len (b_payload b) 0 = 3824 -> name_ok name -> 0 < ino < 2 ^ 64 -> is_byte ft ->
  exists p, add_payload (b_payload b) name ino ft = Some p.
Proof.
  intros W C I R Hn Hi Hf. pose proof (add_payload_spec _ _ name ino ft W Hn Hi Hf) as A.
  destruct (add_payload (b_payload b) name ino ft) as [p|]; [by exists p|].
  destruct (dirent_len_name name Hn) as (_ & ? & _).
  specialize (A 0 ltac:(rewrite C; left) I). lia.
Qed.

Lemma no_room_after bs want : ~ dir_room (drop (Z.to_nat (zlen bs)) bs) want.
Proof. rewrite drop_ge by (unfold zlen; lia). by intros (b & Hb%elem_of_nil & _). Qed.

Lemma add_loop name ino ft now (Hn : name_ok name) (Hi : 0 < ino < 2 ^ 64) (Hf : is_byte ft) bs :
  forall k s d i, wf_dir t cpu s d bs -> Z.to_nat (zlen bs - i) = k -> 0 <= i <= zlen bs ->
  exists rc d' s', match fold_until (add_block t cpu name ino ft now) (d, s) (seqZ i (524 - i)) with
                   | inl (d, s) => (- ENOSPC, d, s) | inr r => r end = (rc, d', s') /\
    ((rc <> 0 /\ wf_dir t cpu s' d' bs /\ evolves s d bs s' d' bs /\ di_ino d' = di_ino d /\
      ~ dir_room (drop (Z.to_nat i) bs) (BEAMFS_DIRENT_LEN (zlen name))) \/
     (rc = 0 /\ inserted 1 s d s' d' bs (Dentry ino name ft))).
Proof.
  induction k as [|k IH]; intros s d i W Hk Hir; pose proof (wd_len _ _ _ _ _ W) as Hl.
  - assert (i = zlen bs) as -> by lia. destruct (decide (zlen bs = 524)) as [E|E].
    { rewrite E. exists (- ENOSPC), d, s. split; [done|]. left. destruct (unchanged_wf s s d bs (- ENOSPC)) as (H1 & H2 & H3 & H4); [done|apply same_on_refl|done|]. split_and!; try done. rewrite <- E. apply no_room_after. }
    pose proof (zlen_nonneg bs). rewrite upto_cons_from by lia. cbn [fold_until]. unfold add_block at 1.
    rewrite (no_block_at s d bs) by (done || lia). cbn [Z.eqb negb].
    destruct (beamfs_dir_get_block t cpu s d (zlen bs) true) as [[[rc b] d1] s1] eqn:G.
    destruct (get_block_alloc s d bs rc b d1 s1 W ltac:(lia) G) as [(Hrc & W1 & Ev1 & Ei1)|[-> Gr]].
    { destruct (rc =? 0) eqn:E0; [lia|]. cbn [negb]. rewrite E0. cbn [negb]. exists rc, d1, s1. split; [done|]. left. split_and!; try done. by apply no_room_after. }
    destruct Gr as (blk & W1 & Ev1 & Ei1 & Hp & Hnz & C & En & I & R). cbn [Z.eqb negb].
    destruct (b =? 0) eqn:E0; [lia|]. cbn [Z.eqb negb].
    assert (Hblk : (bs ++ [blk]) !! length bs = Some blk) by (by apply list_lookup_middle).
    destruct (wd_block _ _ _ _ _ W1 _ blk Hblk) as (_ & K & _).
    destruct (read_block t cpu s1 blk K) as (rc & s2 & Er & Hrc & Hs). rewrite <- Hp, Er.
    destruct (rc <? 0) eqn:Erc; [lia|].
    destruct (add_to_new blk name ino ft (bk_wf _ _ _ _ K) C I R Hn Hi Hf) as (p & Ep). rewrite Ep.
    eexists _, _, _. split; [reflexivity|]. right. split; [done|].
    destruct (write_insert s2 d1 (bs ++ [blk]) (length bs) blk p name ino ft now
      (wf_dir_same t cpu s1 s2 d1 _ Hs W1) Hblk Hn Hi Hf Ep) as (bs' & es1 & es2 & W' & Ev2 & Ei2 & E1 & E2 & El).
    exists bs', es1, es2. split_and!; [done| |congruence| |done|rewrite zlen_app, zlen_cons, zlen_nil in El; lia].
    { eapply evolves_trans; [exact Ev1|]. eapply evolves_trans; [apply evolves_same, Hs|exact Ev2]. }
    rewrite <- E1, dir_entries_app.
    unfold dir_entries at 3. cbn [map concat]. rewrite En. by rewrite !app_nil_r.
  - destruct (block_at s d bs i W ltac:(lia)) as (b & Hb & K & G & NZ).
    rewrite upto_cons_from by lia. cbn [fold_until]. unfold add_block at 1. rewrite G, NZ. cbn [Z.eqb negb].
    destruct (read_block t cpu s b K) as (rc & s1 & Er & Hrc & Hs). rewrite Er.
    destruct (rc <? 0) eqn:Erc; [lia|].
    pose proof (wf_dir_same t cpu s s1 d bs Hs W) as W1.
    destruct (add_payload (b_payload b) name ino ft) as [p|] eqn:Ep.
    + eexists _, _, _. split; [reflexivity|]. right. split; [done|].
      destruct (write_insert s1 d bs (Z.to_nat i) b p name ino ft now W1 Hb Hn Hi Hf Ep) as (bs' & es1 & es2 & W' & Ev2 & R1 & R2 & R3 & R4).
      exists bs', es1, es2. split; [done|]. split; [|split_and!; try done; lia]. eapply evolves_trans; [apply evolves_same, Hs|exact Ev2].
    + destruct (IH s1 d (i + 1) W1 ltac:(lia) ltac:(lia)) as (rc' & d' & s' & E' & H'). exists rc', d', s'. split; [exact E'|].
      pose proof (evolves_same s s1 d bs Hs) as Ev1. destruct H' as [(Hrc' & W' & Ev2 & Ei & Nr)|[-> (bs' & es1 & es2 & W' & Ev2 & R')]].
      * left. split_and!; [done|done|by eapply evolves_trans|done|]. rewrite (drop_S bs b (Z.to_nat i)) by done.
        replace (Datatypes.S (Z.to_nat i)) with (Z.to_nat (i + 1)) by lia. intros (b0 & [->|Hin]%elem_of_cons & Hr); [|by apply Nr; exists b0].
        pose proof (add_payload_spec _ _ name ino ft (bk_wf _ _ _ _ K) Hn Hi Hf) as A. rewrite Ep in A. destruct Hr as (o & Ho & H0 & Hw).
        specialize (A o Ho H0). lia.
      * right. split; [done|]. exists bs', es1, es2. split; [done|]. split; [by eapply evolves_trans|exact R'].
Qed.
End update.
