(* ===== verification/FileDataTheorems.v ===== *)
(** * What a data block guarantees

    A block built from a payload gives the payload back, through up to
    eight damaged symbols in every codeword, and only to the inode and the
    logical block it was written for. *)

From S2P Require Import Prelude Format Crc RsInit GF RsTheory RsCode RsCorrect RsDecode RsLib RsComplete Edac EdacWord EdacBlock EdacLayouts EdacTheorems Dirent FileData.

Ltac data_consts :=
  unfold beamfs_block_payload, beamfs_desc_off, beamfs_selfid_off in *;
  change BEAMFS_CAPSULE_DATA_OFF with 0 in *; change BEAMFS_CAPSULE_DATA_BYTES with 3808 in *;
  change BEAMFS_CAPSULE_CSUM_OFF with 3808 in *; change BEAMFS_CAPSULE_SELFID_OFF with 3816 in *;
  change BEAMFS_CAPSULE_PARITY_OFF with 3824 in *; change BEAMFS_DATA_INLINE_BYTES with 3824 in *;
  change BEAMFS_DATA_CSUM_TYPE_OFF with 4080 in *; change BEAMFS_DATA_SELFID_OFF with 4088 in *;
  change BEAMFS_DATA_INLINE_TOTAL with 4080 in *; change BEAMFS_DATA_INLINE_PAD with 16 in *;
  change BEAMFS_SUBBLOCK_TOTAL with 255 in *; change BEAMFS_SUBBLOCK_DATA with 239 in *;
  change BEAMFS_DATA_INLINE_SUBBLOCKS with 16 in *; change BEAMFS_RS_PARITY with 16 in *;
  change (BEAMFS_DATA_CSUM_DESC_BYTES + BEAMFS_DATA_SELFID_BYTES) with 16 in *;
  change BEAMFS_BLOCK_SIZE with 4096 in *.

(** Linear goals with quotients. *)
Ltac divlia := Z.to_euclidean_division_equations; lia.

(** ** Where the bytes are *)

(** The byte of the block that holds byte [u] of the payload. *)
Definition user_addr (c : data_cfg) (u : Z) : Z :=
  if s_rs_interleave c then u else u / 239 * 255 + u mod 239.

Definition data_layout (c : data_cfg) : layout :=
  if s_rs_interleave c then interleaved else alternating.

#[export] Instance data_layout_ok c : LayoutOk (data_layout c).
Proof. unfold data_layout. destruct (s_rs_interleave c); apply _. Qed.

Lemma data_layout_facts c : l_size (data_layout c) = 4096 /\ l_n (data_layout c) = 16 /\ l_len (data_layout c) = 239.
Proof. unfold data_layout. by destruct (s_rs_interleave c). Qed.

(** Payload bytes, and in a capsule the descriptor, are symbols. *)
Lemma user_symbol c u :
  0 <= u < 3824 -> exists i k, 0 <= i < 16 /\ 0 <= k < 239 /\ l_data (data_layout c) i k = user_addr c u.
Proof.
  intros Hu. unfold data_layout, user_addr. destruct (s_rs_interleave c); cbn; data_consts.
  - exists (u mod 16), (u / 16). unfold rs_woven_off. change BEAMFS_DATA_WOVEN_OFF with 0.
    split_and!; divlia.
  - exists (u / 239), (u mod 239). split_and!; divlia.
Qed.

Lemma user_addr_range c u : 0 <= u < 3824 -> 0 <= user_addr c u < 4080.
Proof. unfold user_addr. destruct (s_rs_interleave c); divlia. Qed.

(** Bytes of the descriptor: symbols of a capsule, outside every codeword
    of the alternating layout. *)
Definition desc_byte (c : data_cfg) (a : Z) : Prop := beamfs_desc_off c <= a < beamfs_desc_off c + 16.

(** Two blocks that hold the same payload bytes and descriptor. *)
Definition same_content (c : data_cfg) (b b' : list Z) : Prop :=
  (forall u, 0 <= u < beamfs_block_payload c -> getb b (user_addr c u) = getb b' (user_addr c u)) /\
  (forall a, desc_byte c a -> getb b a = getb b' a).

(** ** Building *)

Lemma lay_spec c page payload :
  zlen page = 4096 -> bytes page -> bytes payload -> beamfs_block_payload c <= zlen payload ->
  let b := beamfs_lay_data_payload c page payload in
  zlen b = 4096 /\ bytes b /\
  forall u, 0 <= u < beamfs_block_payload c -> getb b (user_addr c u) = getb payload u.
Proof.
  intros Zp Bp By Hl. unfold beamfs_lay_data_payload, user_addr. data_consts. destruct (s_rs_interleave c).
  - assert (Zs : zlen (slice payload 0 3808) = 3808) by (rewrite zlen_slice; lia).
    split_and!; [rewrite zlen_splice; lia|auto with bytes|]. intros u Hu.
    rewrite getb_splice_in by lia. rewrite getb_slice by lia. f_equal. lia.
  - set (P := fun n b => zlen b = 4096 /\ bytes b /\
      forall u, 0 <= u < 239 * n -> getb b (u / 239 * 255 + u mod 239) = getb payload u).
    change 3824 with (239 * 16). apply (foldl_upto_ind _ P); [lia| |].
    { split_and!; [done..|lia]. }
    intros i b Hi (Z1 & B1 & G1).
    assert (Zs : zlen (slice payload (i * 239) 239) = 239) by (rewrite zlen_slice; lia).
    split_and!; [rewrite zlen_splice; lia|auto with bytes|]. intros u Hu.
    destruct (decide (u / 239 = i)) as [E|E].
    + rewrite getb_splice_in by divlia. rewrite getb_slice by divlia. f_equal. divlia.
    + rewrite getb_splice_out by divlia. apply G1. divlia.
Qed.

(** What the stamp writes. *)
Record stamped `{CL : !CrcLib} (c : data_cfg) (payload : list Z) (ino iblock : Z) (b : list Z) : Prop := {
  st_type : s_data_csum c = true -> getb b (beamfs_desc_off c) = BEAMFS_CSUM_CRC32;
  st_crc : s_data_csum c = true ->
    get_le32 b (beamfs_desc_off c + 4) = beamfs_crc32 (slice payload 0 (beamfs_block_payload c));
  st_id : s_data_selfid c = true -> get_le64 b (beamfs_selfid_off c) = beamfs_data_selfid ino iblock }.

Lemma lor_add_disjoint hi lo : 0 <= hi -> 0 <= lo < 2 ^ 32 -> Z.lor (hi * 2 ^ 32) lo = hi * 2 ^ 32 + lo.
Proof.
  intros Hh Hl. rewrite <- Z.add_lor_land. enough (Z.land (hi * 2 ^ 32) lo = 0) as -> by lia.
  apply Z.bits_inj'. intros n Hn. rewrite Z.land_spec, Z.bits_0. destruct (decide (n < 32)).
  - by rewrite Z.mul_pow2_bits_low.
  - apply andb_false_intro2. destruct (decide (lo = 0)) as [->|]; [apply Z.bits_0|].
    apply Z.bits_above_log2; [lia|]. apply Z.log2_lt_pow2; [lia|].
    apply Z.lt_le_trans with (2 ^ 32); [lia|]. apply Z.pow_le_mono_r; lia.
Qed.

Lemma selfid_range `{CL : !CrcLib} ino iblock : 0 <= beamfs_data_selfid ino iblock < 2 ^ 64.
Proof.
  unfold beamfs_data_selfid.
  pose proof (beamfs_crc32_range (le_bytes 8 ino) (bytes_le_bytes _ _)) as L.
  pose proof (beamfs_crc32_range (le_bytes 8 iblock) (bytes_le_bytes _ _)) as H. unfold is_u32 in *.
  rewrite Z.shiftl_mul_pow2, lor_add_disjoint by lia. lia.
Qed.

Lemma user_not_desc c u : 0 <= u < beamfs_block_payload c -> ~ desc_byte c (user_addr c u).
Proof. unfold desc_byte, user_addr. data_consts. destruct (s_rs_interleave c); divlia. Qed.

Lemma stamp_spec `{CL : !CrcLib} c block payload ino iblock :
  zlen block = 4096 -> bytes block -> bytes payload ->
  let b := beamfs_inline_stamp_tail_pad c block payload ino iblock in
  zlen b = 4096 /\ bytes b /\ stamped c payload ino iblock b /\
  forall u, 0 <= u < beamfs_block_payload c -> getb b (user_addr c u) = getb block (user_addr c u).
Proof.
  intros Zb Bb By. unfold beamfs_inline_stamp_tail_pad.
  pose proof (beamfs_crc32_range (slice payload 0 (beamfs_block_payload c)) ltac:(auto with bytes)) as Rc.
  pose proof (selfid_range ino iblock) as Ri. set (crc := beamfs_crc32 _) in *. set (id := beamfs_data_selfid _ _) in *.
  set (b1 := splice block BEAMFS_DATA_INLINE_TOTAL _). set (b2 := splice b1 _ _).
  assert (H1 : zlen b1 = 4096) by (unfold b1; data_consts; rewrite zlen_splice; rewrite ?zlen_zeros; lia).
  assert (H2 : zlen b2 = 4096).
  { unfold b2. data_consts. destruct (s_rs_interleave c); rewrite zlen_splice; rewrite ?zlen_zeros; lia. }
  assert (B2 : bytes b2) by (unfold b2, b1; auto with bytes).
  assert (Hd : 0 <= beamfs_desc_off c <= 4080 /\ beamfs_selfid_off c = beamfs_desc_off c + 8)
    by (data_consts; destruct (s_rs_interleave c); lia).
  set (b3 := if s_data_csum c then _ else b2).
  assert (H3 : zlen b3 = 4096).
  { unfold b3, put_le32. destruct (s_data_csum c); [|done]. rewrite zlen_splice; rewrite ?zlen_le_bytes, ?zlen_setb; lia. }
  assert (B3 : bytes b3).
  { unfold b3, put_le32. destruct (s_data_csum c); [|done]. apply bytes_splice; [|apply bytes_le_bytes].
    apply bytes_setb; [done|]. unfold is_byte, BEAMFS_CSUM_CRC32. lia. }
  assert (H4 : forall b, b = (if s_data_selfid c then put_le64 b3 (beamfs_selfid_off c) id else b3) ->
    zlen b = 4096 /\ bytes b /\ forall a, 0 <= a -> ~ (beamfs_selfid_off c <= a < beamfs_selfid_off c + 8) -> getb b a = getb b3 a).
  { intros b ->. unfold put_le64. destruct (s_data_selfid c); [|done].
    assert (zlen (le_bytes 8 id) = 8) by apply zlen_le_bytes.
    split_and!; [rewrite zlen_splice; lia|apply bytes_splice; [done|apply bytes_le_bytes]|].
    intros a Ha Hn. apply getb_splice_out; lia. }
  destruct (H4 _ eq_refl) as (Z4 & B4 & O4). set (b4 := if s_data_selfid c then _ else b3) in *.
  assert (O3 : forall a, 0 <= a -> ~ desc_byte c a -> getb b3 a = getb b2 a).
  { intros a Ha Hn. unfold b3, put_le32, desc_byte in *. destruct (s_data_csum c); [|done].
    rewrite getb_splice_out; rewrite ?zlen_le_bytes, ?zlen_setb; [|lia..]. apply getb_setb_ne; lia. }
  split_and!; [done|done| |].
  - split.
    + intros Hc. rewrite O4 by lia. unfold b3, put_le32. rewrite Hc.
      rewrite getb_splice_out; rewrite ?zlen_le_bytes, ?zlen_setb; [|lia..]. apply getb_setb_eq. lia.
    + intros Hc. assert (E : get_le32 b4 (beamfs_desc_off c + 4) = get_le32 b3 (beamfs_desc_off c + 4)).
      { unfold get_le32. f_equal. rewrite !slice_seqZ by lia. apply map_ext_in.
        intros a Ha%list_elem_of_In%elem_of_seqZ. apply O4; lia. }
      rewrite E. unfold b3. rewrite Hc. unfold is_u32 in Rc.
      rewrite get_put_le32 by (rewrite ?zlen_setb; lia). by rewrite ?Z.mod_small by lia.
    + intros Hc. unfold b4. rewrite Hc. rewrite get_put_le64 by lia. by rewrite ?Z.mod_small by lia.
  - intros u Hu. pose proof (user_not_desc c u Hu) as Hn.
    assert (Hr : 0 <= user_addr c u < 4080).
    { apply user_addr_range. data_consts. destruct (s_rs_interleave c); lia. }
    rewrite O4 by (unfold desc_byte in Hn; lia). rewrite O3 by (done || lia). unfold b2, b1. unfold desc_byte in Hn. data_consts.
    destruct (s_rs_interleave c); rewrite !getb_splice_out; rewrite ?zlen_splice; rewrite ?zlen_zeros; try lia.
Qed.

(** ** Sealing and decoding *)

Section sealed.
Context `{RL : !RsLib} `{RS : !RsLibSpec} `{RB : !RsLibBounded} `{CL : !CrcLib}.
Context (c : data_cfg) (t : rs_tables) (cpu : nat) (Hr : ready t cpu).

Lemma seal_spec block :
  zlen block = 4096 -> bytes block -> exists blk,
    beamfs_seal_data_block c t cpu block = (0, blk) /\ encoded (data_layout c) block blk.
Proof.
  intros Zb Bb. destruct Hr as [Hc Hs]. unfold beamfs_seal_data_block, data_layout. destruct (s_rs_interleave c).
  - rewrite (encode_woven_loop t cpu Hs BEAMFS_BLOCK_SIZE _ _ _ _ _ (LO := interleaved_ok)) by done.
    by apply (enc_loop_spec t cpu Hc interleaved).
  - by apply (encode_region_encoded t cpu Hc BEAMFS_BLOCK_SIZE _ _ _ _ _ _ (LO := alternating_ok)).
Qed.

(** Damage the decode undoes: eight symbols of a codeword, and in the
    alternating layout no byte of the descriptor. *)
Definition tolerable (blk raw : list Z) : Prop :=
  zlen raw = 4096 /\ bytes raw /\ (forall i, 0 <= i < 16 -> damage (data_layout c) blk raw i <= 8) /\
  (s_rs_interleave c = false -> forall a, desc_byte c a -> getb raw a = getb blk a).

(** The positions array the decode leaves to its report. *)
Lemma decode_spec stk block blk raw :
  zlen block = 4096 -> bytes block -> encoded (data_layout c) block blk -> tolerable blk raw ->
  exists fixed results positions, decode_data c t cpu stk raw = (fixed, results, positions) /\
    zlen fixed = 4096 /\ bytes fixed /\ (forall i, 0 <= i < 16 -> 0 <= getb results i) /\
    same_content c fixed block.
Proof.
  intros Zb Bb En (Zr & Br & D & Ds). destruct Hr as [Hc Hs]. destruct (data_layout_facts c) as (F1 & F2 & F3).
  assert (Hn : forall mp, (forall m, mp = Some m -> 0 < m) -> forall fixed,
    decoded t cpu (data_layout c) mp raw fixed -> zlen fixed = 4096 /\ bytes fixed /\
    (forall i, 0 <= i < 16 -> 0 <= getb (map (fun i => fst (fst (dec1 t cpu (data_layout c) mp raw i))) (upto 16)) i) /\
    same_content c fixed block).
  { intros mp Hmp fixed De.
    pose proof (fun i Hi => dec1_restores t cpu Hc (data_layout c) mp Hmp block blk raw i ltac:(lia) Bb En ltac:(lia) Br Hi
      (D i ltac:(lia))) as R.
    assert (Hsym : forall u, 0 <= u < 3824 -> getb fixed (user_addr c u) = getb block (user_addr c u)).
    { intros u Hu. destruct (user_symbol c u Hu) as (i & k & Hi & Hk & <-).
      rewrite <- !(getb_cw_data (data_layout c)) by lia.
      rewrite (de_data _ _ _ _ _ _ De) by lia. f_equal. apply R. lia. }
    split_and!; [rewrite <- F1; apply De|apply De| |split].
    - intros i Hi. rewrite getb_map, getb_upto by (rewrite ?zlen_upto; lia). apply R. lia.
    - intros u Hu. apply Hsym. data_consts. destruct (s_rs_interleave c); lia.
    - intros a Ha. unfold desc_byte in *. data_consts. destruct (s_rs_interleave c) eqn:Ec.
      + specialize (Hsym a). unfold user_addr in Hsym. rewrite Ec in Hsym. apply Hsym. lia.
      + assert (Hout : forall i, 0 <= i < 16 -> ~ (l_par (data_layout c) i <= a < l_par (data_layout c) i + 16)).
        { intros i Hi. unfold data_layout. rewrite Ec. cbn. data_consts. lia. }
        rewrite (de_out _ _ _ _ _ _ De); [|lia|].
        * rewrite Ds by done. apply (en_out _ _ _ En); [lia|]. rewrite F2. exact Hout.
        * intros i k Hi Hk. unfold data_layout in *. rewrite Ec in *. cbn in *. data_consts. lia. }
  unfold decode_data. destruct (s_rs_interleave c) eqn:Ec.
  - assert (El : data_layout c = interleaved) by (unfold data_layout; by rewrite Ec). rewrite El in *.
    rewrite (decode_woven_loop t cpu Hc Hs BEAMFS_BLOCK_SIZE _ _ _ _ _ (LO := interleaved_ok)) by done.
    destruct (dec_loop_spec t cpu Hc interleaved None ltac:(done) raw Zr Br) as (fixed & De & E).
    fold interleaved. change (woven_layout BEAMFS_BLOCK_SIZE BEAMFS_CAPSULE_DATA_OFF BEAMFS_CAPSULE_PARITY_OFF BEAMFS_RS_PARITY
      BEAMFS_SUBBLOCK_DATA BEAMFS_DATA_INLINE_SUBBLOCKS) with interleaved. rewrite E.
    destruct (Hn None ltac:(done) fixed De) as (N1 & N2 & N3 & N4).
    do 3 eexists. split; [reflexivity|]. split_and!; [done|done| |done]. exact N3.
  - assert (El : data_layout c = alternating) by (unfold data_layout; by rewrite Ec). rewrite El in *.
    assert (Hm : forall m, Some (BEAMFS_RS_PARITY / 2) = Some m -> 0 < m) by (intros m [= <-]; done).
    destruct (decode_region_decoded t cpu Hc BEAMFS_BLOCK_SIZE 0 255 239 255 239 16 raw (Some (BEAMFS_RS_PARITY / 2)) Hm Zr Br)
      as (fixed & De & E). data_consts. rewrite E.
    destruct (Hn (Some (BEAMFS_RS_PARITY / 2)) Hm fixed De) as (N1 & N2 & N3 & N4).
    do 3 eexists. split; [reflexivity|]. split_and!; [done|done| |done]. exact N3.
Qed.
End sealed.

(** ** Reading back *)

Lemma report_ok_data phys results positions rmw :
  (forall i, 0 <= i < 16 -> 0 <= getb results i) ->
  exists calls, foldl (data_report phys results positions rmw) (false, []) (upto 16) = (false, calls) /\
    forall x, x ∈ calls -> x <> AlertUncorrectable phys.
Proof.
  intros H. set (P := fun (n : Z) (st : bool * list rs_call) => exists calls, st = (false, calls) /\
    forall x, x ∈ calls -> x <> AlertUncorrectable phys).
  apply (foldl_upto_ind _ P); [lia|exists []; split; [done|by intros x ?%elem_of_nil]|].
  intros i st Hi (calls & -> & Hc). unfold data_report. specialize (H i Hi).
  destruct (Z.ltb_spec (getb results i) 0); [lia|]. destruct (0 <? getb results i); [|by exists calls].
  eexists. split; [reflexivity|]. intros x Hx. rewrite elem_of_app, !elem_of_cons in Hx.
  destruct Hx as [Hx|[->|[->|Hx]]]; [by apply Hc|done|done|by apply elem_of_nil in Hx].
Qed.

(** The user bytes [off, off + len) of a block. *)
Definition user_bytes (c : data_cfg) (b : list Z) (off len : Z) : list Z :=
  map (fun u => getb b (user_addr c u)) (seqZ off len).

Lemma user_bytes_run c b off len a :
  s_rs_interleave c = false -> zlen b = 4096 -> 0 <= off -> 0 <= len -> off / 239 = a ->
  off + len <= (a + 1) * 239 -> off + len <= 3824 ->
  slice b (a * 255 + (off - a * 239)) len = user_bytes c b off len.
Proof.
  intros Ec Zb Ho Hl <- H1 H2. unfold user_bytes. rewrite slice_seqZ by divlia.
  set (d := off / 239 * 255 - off / 239 * 239).
  assert (E : seqZ (off / 239 * 255 + (off - off / 239 * 239)) len = map (Z.add d) (seqZ off len)).
  { etransitivity; [|symmetry; apply fmap_add_seqZ]. f_equal. unfold d. lia. }
  rewrite E, map_map. apply map_ext_in.
  intros u Hu%list_elem_of_In%elem_of_seqZ. unfold user_addr. rewrite Ec. f_equal. unfold d. divlia.
Qed.

Lemma copy_slice_eq c b off len :
  zlen b = 4096 -> 0 <= off -> 0 < len -> off + len <= beamfs_block_payload c ->
  copy_slice c b off len = user_bytes c b off len.
Proof.
  intros Zb Ho Hl Hb. unfold copy_slice. data_consts. destruct (s_rs_interleave c) eqn:Ec.
  - rewrite slice_seqZ by lia. unfold user_bytes, user_addr. by rewrite Ec.
  - set (piece := fun sb_idx => slice b _ _). set (first := off / 239). set (last := (off + len - 1) / 239).
    assert (G : forall n : Z, 0 <= n -> n <= last - first + 1 ->
      concat (map piece (seqZ first n)) =
        user_bytes c b off (if n =? 0 then 0 else Z.min (off + len) ((first + n) * 239) - off)).
    { refine (natlike_ind (fun n => n <= last - first + 1 -> _) _ _); [done|]. intros n Hn IH Hle. rewrite <- Z.add_1_r in *.
      rewrite seqZ_app, map_app, concat_app, IH by lia. change (seqZ (first + n) 1) with [first + n].
      cbn [map concat]. rewrite app_nil_r. destruct (Z.eqb_spec (n + 1) 0); [lia|].
      unfold piece. destruct (Z.eqb_spec n 0) as [->|Hn0].
      - change (user_bytes c b off 0) with (@nil Z). cbn [app]. rewrite Z.add_0_r.
        replace (if first * 239 <? off then off - first * 239 else 0) with (off - first * 239)
          by (destruct (Z.ltb_spec (first * 239) off); unfold first in *; divlia).
        rewrite (user_bytes_run c b off _ first) by (try done; try (unfold first; divlia);
          destruct (Z.ltb_spec (off + len) (first * 239 + 239)); unfold first in *; divlia).
        f_equal. destruct (Z.ltb_spec (off + len) (first * 239 + 239)); lia.
      - assert (Hge : off < (first + n) * 239) by (unfold first; divlia).
        assert (Hlt : (first + n) * 239 < off + len) by (unfold first, last in *; divlia).
        destruct (Z.ltb_spec ((first + n) * 239) off); [lia|]. rewrite Z.min_r by lia.
        replace ((first + n) * 255 + 0) with ((first + n) * 255 + ((first + n) * 239 - (first + n) * 239)) by lia.
        assert (0 <= first) by (unfold first; divlia).
        rewrite (user_bytes_run c b ((first + n) * 239) _ (first + n)) by (try done; try divlia;
          destruct (Z.ltb_spec (off + len) ((first + n) * 239 + 239)); divlia).
        unfold user_bytes. rewrite <- map_app. f_equal.
        replace ((first + n) * 239) with (off + ((first + n) * 239 - off)) at 2 by lia.
        rewrite <- seqZ_app by (try lia; destruct (Z.ltb_spec (off + len) ((first + n) * 239 + 239)); lia).
        f_equal. destruct (Z.ltb_spec (off + len) ((first + n) * 239 + 239)); lia. }
    rewrite G by (unfold first, last; divlia). f_equal.
    destruct (Z.eqb_spec (last - first + 1) 0); unfold first, last in *; divlia.
Qed.

Lemma user_bytes_payload c b payload off len :
  0 <= off -> 0 <= len -> off + len <= beamfs_block_payload c -> beamfs_block_payload c <= zlen payload ->
  (forall u, 0 <= u < beamfs_block_payload c -> getb b (user_addr c u) = getb payload u) ->
  user_bytes c b off len = slice payload off len.
Proof.
  intros Ho Hl Hp Hz H. rewrite slice_seqZ by lia. apply map_ext_in.
  intros u Hu%list_elem_of_In%elem_of_seqZ. apply H. lia.
Qed.

(** The checksum the reader computes is that of the user bytes. *)
Lemma payload_crc_eq `{CL : !CrcLib} c b :
  zlen b = 4096 -> bytes b ->
  beamfs_inline_payload_crc c b = beamfs_crc32 (user_bytes c b 0 (beamfs_block_payload c)).
Proof.
  intros Zb Bb. unfold beamfs_inline_payload_crc, beamfs_crc32. data_consts. destruct (s_rs_interleave c) eqn:Ec.
  - rewrite slice_seqZ by lia. unfold user_bytes, user_addr. by rewrite Ec.
  - f_equal. change crc_xorout with 4294967295. change 3824 with (239 * 16).
    assert (Bu : forall n, bytes (user_bytes c b 0 n)).
    { intros n. apply Forall_map, Forall_forall. intros u _. by apply bytes_getb. }
    set (P := fun n crc => crc = crc32_le 4294967295 (user_bytes c b 0 (239 * n))).
    change (P 16 (foldl (fun crc i => crc32_le crc (slice b (i * 255) 239)) 4294967295 (upto 16))).
    apply (foldl_upto_ind _ P); [lia| |].
    { unfold P. rewrite crc32_le_spec by (apply xorout_u32 || apply Bu). done. }
    intros i crc Hi ->. unfold P. rewrite (crc32_le_spec 4294967295) by (apply xorout_u32 || apply Bu).
    rewrite crc32_le_spec by first [by apply bytes_slice | apply crc_ref_range; [apply xorout_u32|apply Bu]].
    rewrite (crc32_le_spec 4294967295) by (apply xorout_u32 || apply Bu). rewrite <- crc_ref_app. f_equal.
    replace (i * 255) with (i * 255 + (239 * i - i * 239)) by lia.
    rewrite (user_bytes_run c b (239 * i) 239 i) by (done || divlia).
    unfold user_bytes. rewrite <- map_app. f_equal. rewrite <- (Z.add_0_l (239 * i)) at 2.
    rewrite <- seqZ_app by lia. f_equal. lia.
Qed.

(** *** The descriptor check *)

Lemma same_le32 c b b' off :
  zlen b = 4096 -> zlen b' = 4096 -> beamfs_desc_off c <= off -> off + 4 <= beamfs_desc_off c + 16 ->
  same_content c b b' -> get_le32 b off = get_le32 b' off.
Proof.
  intros Zb Zb' H1 H2 [_ H]. assert (0 <= beamfs_desc_off c <= 4080) by (data_consts; destruct (s_rs_interleave c); lia).
  unfold get_le32. f_equal. rewrite !slice_seqZ by lia. apply map_ext_in.
  intros a Ha%list_elem_of_In%elem_of_seqZ. apply H. unfold desc_byte. lia.
Qed.

Lemma same_selfid c b b' :
  zlen b = 4096 -> zlen b' = 4096 -> same_content c b b' ->
  get_le64 b (beamfs_selfid_off c) = get_le64 b' (beamfs_selfid_off c).
Proof.
  intros Zb Zb' [_ H].
  assert (0 <= beamfs_desc_off c <= 4080 /\ beamfs_selfid_off c = beamfs_desc_off c + 8)
    by (data_consts; destruct (s_rs_interleave c); lia).
  unfold get_le64. f_equal. rewrite !slice_seqZ by lia. apply map_ext_in.
  intros a Ha%list_elem_of_In%elem_of_seqZ. apply H. unfold desc_byte. lia.
Qed.

(** ** Identity *)

(** Distinct numbers below 2^32 differ in a window of four bytes. *)
Lemma crc_le8_inj `{CL : !CrcLib} x y :
  0 <= x < 2 ^ 32 -> 0 <= y < 2 ^ 32 -> beamfs_crc32 (le_bytes 8 x) = beamfs_crc32 (le_bytes 8 y) -> x = y.
Proof.
  intros Hx Hy E. unfold beamfs_crc32 in E. apply lxor_cancel_r in E.
  rewrite !crc32_le_spec in E by (apply xorout_u32 || apply bytes_le_bytes).
  assert (S : forall z, 0 <= z < 2 ^ 32 -> le_bytes 8 z = le_bytes 4 z ++ [0; 0; 0; 0]).
  { intros z Hz. rewrite <- (le_bytes_le_val (le_bytes 4 z ++ _)) by (apply bytes_app; split; [apply bytes_le_bytes|by apply bytes_check]).
    rewrite length_app, length_le_bytes. cbn [length Nat.add].
    assert (Hv : le_val (le_bytes 4 z ++ [0; 0; 0; 0]) = le_val (le_bytes 4 z)) by (cbn; lia).
    rewrite Hv, le_val_le_bytes by lia. by rewrite Z.mod_small by (cbn; lia). }
  rewrite !S, !crc_ref_app in E by done.
  assert (B0 : bytes [0; 0; 0; 0]) by (by apply bytes_check).
  apply crc_ref_inj_seed in E; [|apply crc_ref_range; [apply xorout_u32|apply bytes_le_bytes]..|done].
  apply crc_ref_inj_window in E; [|apply xorout_u32|apply bytes_le_bytes..|by rewrite !length_le_bytes|rewrite length_le_bytes; lia].
  apply (f_equal le_val) in E. rewrite !le_val_le_bytes in E by lia. rewrite !Z.mod_small in E by (cbn; lia). done.
Qed.

Lemma selfid_inj `{CL : !CrcLib} ino iblock ino' iblock' :
  0 <= ino < 2 ^ 32 -> 0 <= iblock < 2 ^ 32 -> 0 <= ino' < 2 ^ 32 -> 0 <= iblock' < 2 ^ 32 ->
  beamfs_data_selfid ino iblock = beamfs_data_selfid ino' iblock' -> ino = ino' /\ iblock = iblock'.
Proof.
  intros H1 H2 H3 H4 E. unfold beamfs_data_selfid in E. rewrite !Z.shiftl_mul_pow2 in E by lia.
  assert (R : forall z, 0 <= beamfs_crc32 (le_bytes 8 z) < 2 ^ 32) by (intros; apply beamfs_crc32_range, bytes_le_bytes).
  pose proof (R ino). pose proof (R ino'). pose proof (R iblock). pose proof (R iblock').
  rewrite !lor_add_disjoint in E by lia. split; apply crc_le8_inj; lia.
Qed.

(** ** Theorems *)

Section theorems.
Context `{RL : !RsLib} `{RS : !RsLibSpec} `{RB : !RsLibBounded} `{CL : !CrcLib}.
Context (c : data_cfg) (t : rs_tables) (cpu : nat) (Hr : ready t cpu).

(** What a block built by the write path holds once it is read. *)
Lemma built_decoded stk page payload ino iblock blk raw :
  zlen page = 4096 -> bytes page -> bytes payload -> beamfs_block_payload c <= zlen payload ->
  build_data_block c t cpu page payload ino iblock = (0, blk) -> tolerable c blk raw ->
  exists fixed results positions, decode_data c t cpu stk raw = (fixed, results, positions) /\
    zlen fixed = 4096 /\ bytes fixed /\ (forall i, 0 <= i < 16 -> 0 <= getb results i) /\
    stamped c payload ino iblock fixed /\
    (forall u, 0 <= u < beamfs_block_payload c -> getb fixed (user_addr c u) = getb payload u).
Proof.
  intros Zp Bp By Hl E T. unfold build_data_block in E.
  destruct (lay_spec c page payload Zp Bp By Hl) as (L1 & L2 & L3).
  destruct (stamp_spec c (beamfs_lay_data_payload c page payload) payload ino iblock L1 L2 By) as (S1 & S2 & S3 & S4).
  set (b := beamfs_inline_stamp_tail_pad c _ _ _ _) in *.
  destruct (seal_spec c t cpu Hr b S1 S2) as (blk' & E' & En). rewrite E in E'. injection E' as <-.
  destruct (decode_spec c t cpu Hr stk b blk raw S1 S2 En T) as (fixed & results & positions & D & F1 & F2 & F3 & F4).
  exists fixed, results, positions. split; [done|]. split; [done|]. split; [done|]. split; [done|]. split.
  - destruct S3 as [T1 T2 T3]. split.
    + intros Hc. destruct F4 as [_ F4]. rewrite F4; [by apply T1|]. unfold desc_byte. lia.
    + intros Hc. rewrite (same_le32 c fixed b) by (done || lia). by apply T2.
    + intros Hc. rewrite (same_selfid c fixed b) by done. by apply T3.
  - intros u Hu. destruct F4 as [F4 _]. rewrite F4, S4 by done. by apply L3.
Qed.
End theorems.

(** A slice of the payload of a block with damage that the code tolerates. *)
Lemma data_block_read `{RL : !RsLib} `{RS : !RsLibSpec} `{RB : !RsLibBounded} `{CL : !CrcLib}
    c t cpu stk page payload ino iblock blk raw phys off len rmw :
  ready t cpu -> zlen page = 4096 -> bytes page -> bytes payload -> beamfs_block_payload c <= zlen payload ->
  build_data_block c t cpu page payload ino iblock = (0, blk) -> tolerable c blk raw ->
  phys <> 0 -> 0 <= off -> 0 < len -> off + len <= beamfs_block_payload c ->
  exists calls, beamfs_inline_decode_block_into_buf c t cpu stk true raw phys ino iblock off len rmw =
      (0, slice payload off len, calls) /\
    forall x, x ∈ calls -> x <> AlertUncorrectable phys.
Proof.
  intros Hr Zp Bp By Hl E T Hph Ho Hn Hs. unfold beamfs_inline_decode_block_into_buf.
  destruct (Z.eqb_spec phys 0); [done|]. destruct (Z.eqb_spec len 0); [lia|].
  assert (beamfs_block_payload c <= 3824) by (data_consts; destruct (s_rs_interleave c); lia).
  change BEAMFS_DATA_INLINE_BYTES with 3824. destruct (Z.ltb_spec 3824 (off + len)); [lia|]. cbn [negb].
  destruct (built_decoded c t cpu Hr stk page payload ino iblock blk raw Zp Bp By Hl E T)
    as (fixed & results & positions & -> & F1 & F2 & F3 & [T1 T2 T3] & F5).
  change BEAMFS_DATA_INLINE_SUBBLOCKS with 16.
  destruct (report_ok_data phys results positions rmw F3) as (calls & -> & Hc). exists calls. split; [|done].
  assert (Ec : s_data_csum c = true -> get_le32 fixed (beamfs_desc_off c + 4) = beamfs_inline_payload_crc c fixed).
  { intros Hy. rewrite T2, payload_crc_eq by done. by rewrite (user_bytes_payload c fixed payload) by (done || lia). }
  rewrite copy_slice_eq, (user_bytes_payload c fixed payload) by (done || lia).
  destruct (s_data_csum c); cbn [andb].
  - rewrite T1, Ec by done. rewrite !Z.eqb_refl. cbn [negb]. destruct (s_data_selfid c); cbn [andb]; [|done].
    rewrite T3 by done. by rewrite Z.eqb_refl.
  - destruct (s_data_selfid c); cbn [andb]; [|done]. rewrite T3 by done. by rewrite Z.eqb_refl.
Qed.

(** C22: a data block written for logical block [iblock] of inode [ino],
    in either layout, over whatever the page held before, and then damaged
    in up to eight symbols of every codeword (and nowhere in the descriptor
    of the alternating layout, which lies outside the codewords), is read
    back as written: any slice of the payload comes out exact, and nothing
    raises the uncorrectable alert. *)
Theorem data_block_roundtrip `{RL : !RsLib} `{RS : !RsLibSpec} `{RB : !RsLibBounded} `{CL : !CrcLib}
    c t cpu stk page payload ino iblock blk raw phys off len rmw :
  ready t cpu -> zlen page = 4096 -> bytes page -> bytes payload -> beamfs_block_payload c <= zlen payload ->
  build_data_block c t cpu page payload ino iblock = (0, blk) -> tolerable c blk raw ->
  phys <> 0 -> 0 <= off -> 0 < len -> off + len <= beamfs_block_payload c ->
  exists calls, beamfs_inline_decode_block_into_buf c t cpu stk true raw phys ino iblock off len rmw =
      (0, slice payload off len, calls) /\
    forall x, x ∈ calls -> x <> AlertUncorrectable phys.
Proof. apply data_block_read. Qed.

(** C23: on a volume with DATA_SELFID, an opt-in of mkfs, a read never
    returns another block's data: a sealed block that belongs to logical
    block [iblock'] of inode [ino'] is refused with EIO when it is read for
    any other inode or logical block, numbers below 2^32, whatever
    correctable damage it carries.  On a volume without it the same read
    succeeds and returns that other block's bytes. *)
Theorem data_block_misdirected `{RL : !RsLib} `{RS : !RsLibSpec} `{RB : !RsLibBounded} `{CL : !CrcLib}
    c t cpu stk page payload ino iblock ino' iblock' blk raw phys off len rmw :
  ready t cpu -> zlen page = 4096 -> bytes page -> bytes payload ->
  beamfs_block_payload c <= zlen payload ->
  build_data_block c t cpu page payload ino' iblock' = (0, blk) -> tolerable c blk raw ->
  0 <= ino < 2 ^ 32 -> 0 <= iblock < 2 ^ 32 -> 0 <= ino' < 2 ^ 32 -> 0 <= iblock' < 2 ^ 32 ->
  (ino, iblock) <> (ino', iblock') ->
  phys <> 0 -> 0 <= off -> 0 < len -> off + len <= beamfs_block_payload c ->
  exists calls, beamfs_inline_decode_block_into_buf c t cpu stk true raw phys ino iblock off len rmw =
    if s_data_selfid c then (- EIO, [], calls) else (0, slice payload off len, calls).
Proof.
  intros Hr Zp Bp By Hl E T I1 I2 I3 I4 Hne Hph Ho Hn Hs. destruct (s_data_selfid c) eqn:Hid.
  2:{ destruct (data_block_read c t cpu stk page payload ino' iblock' blk raw phys off len rmw Hr Zp Bp By Hl E T Hph Ho Hn Hs) as (calls & Er & _).
    exists calls. rewrite <- Er. unfold beamfs_inline_decode_block_into_buf. by rewrite Hid. }
  unfold beamfs_inline_decode_block_into_buf.
  destruct (Z.eqb_spec phys 0); [done|]. destruct (Z.eqb_spec len 0); [lia|].
  assert (beamfs_block_payload c <= 3824) by (data_consts; destruct (s_rs_interleave c); lia).
  change BEAMFS_DATA_INLINE_BYTES with 3824. destruct (Z.ltb_spec 3824 (off + len)); [lia|]. cbn [negb].
  destruct (built_decoded c t cpu Hr stk page payload ino' iblock' blk raw Zp Bp By Hl E T)
    as (fixed & results & positions & -> & F1 & F2 & F3 & [_ _ T3] & _).
  change BEAMFS_DATA_INLINE_SUBBLOCKS with 16.
  destruct (report_ok_data phys results positions rmw F3) as (calls & -> & Hc).
  rewrite T3, Hid by done. cbn [andb].
  assert ((beamfs_data_selfid ino iblock =? beamfs_data_selfid ino' iblock') = false) as ->.
  { apply Z.eqb_neq. intros X. apply Hne. apply selfid_inj in X as [-> ->]; done. }
  cbn [negb]. repeat case_match; by eexists.
Qed.

(** In a capsule the journal is given positions the decode never wrote:
    [beamfs_rs_decode_woven] takes no positions array, and the list logged
    with a correction is what the stack held at the codeword's index. *)
Lemma capsule_logs_stack `{RL : !RsLib} `{CL : !CrcLib} c t cpu stk ok raw phys ino iblock off len rmw
    blk pos n code_len flags :
  s_rs_interleave c = true ->
  LogRsEvent blk (Some pos) n code_len flags ∈
    snd (beamfs_inline_decode_block_into_buf c t cpu stk ok raw phys ino iblock off len rmw) ->
  exists i : nat, pos = nth i (stk_positions stk) [].
Proof.
  intros Ec. unfold beamfs_inline_decode_block_into_buf, decode_data. rewrite Ec.
  repeat (case_match; [by intros ?%elem_of_nil|]).
  destruct (beamfs_rs_decode_woven _ _ _ _ _ _ _ _) as [[rc tmp] results].
  set (res := match results with [] => _ | _ => _ end).
  assert (G : forall x, x ∈ snd (foldl (data_report phys res (stk_positions stk) rmw) (false, []) (upto BEAMFS_DATA_INLINE_SUBBLOCKS)) ->
    forall b p a q f, x = LogRsEvent b (Some p) a q f -> exists i : nat, p = nth i (stk_positions stk) []).
  { set (P := fun (k : Z) (st : bool * list rs_call) => forall x, x ∈ snd st ->
      forall b p a q f, x = LogRsEvent b (Some p) a q f -> exists i : nat, p = nth i (stk_positions stk) []).
    apply (foldl_upto_ind _ P); [done|by intros x ?%elem_of_nil|].
    intros i [u calls] Hi IH x Hx. unfold data_report in Hx.
    destruct (getb res i <? 0); [|destruct (0 <? getb res i); [|by apply IH]]; cbn [snd] in Hx;
      rewrite elem_of_app, !elem_of_cons in Hx; destruct Hx as [Hx|[->|[->|Hx]]]; try (by apply IH);
      try (by apply elem_of_nil in Hx); intros b p a q f [=]. by eexists. }
  destruct (foldl _ _ _) as [uncorrectable calls]. cbn [snd] in G.
  repeat case_match; cbn [snd]; rewrite ?elem_of_app, ?list_elem_of_singleton; intros H';
    try (destruct H' as [H'|H']; [|done]); by eapply G.
Qed.

(** A capsule volume with both checks, and one block of it. *)
Definition ex_cfg : data_cfg := DataCfg true true true.
Definition ex_payload : list Z := replicate 3808 7.
Definition ex_data_block : list Z :=
  Eval vm_compute in snd (build_data_block ex_cfg ex_tables 0 (zeros 4096) ex_payload 12 5).
Definition ex_stack : stack_arrays := StackArrays [] [].

Lemma ex_built : build_data_block ex_cfg ex_tables 0 (zeros 4096) ex_payload 12 5 = (0, ex_data_block).
Proof. vm_compute. reflexivity. Qed.

Lemma ex_payload_bytes : bytes ex_payload.
Proof. apply Forall_replicate. unfold is_byte. lia. Qed.

Lemma tolerable_refl c blk : zlen blk = 4096 -> bytes blk -> tolerable c blk blk.
Proof. intros Z B. split_and!; [done|done| |done]. intros i Hi. unfold damage. rewrite hamming_refl. lia. Qed.

Lemma data_block_roundtrip_witness : exists calls,
  beamfs_inline_decode_block_into_buf ex_cfg ex_tables 0 ex_stack true ex_data_block 99 12 5 100 200 false =
    (0, slice ex_payload 100 200, calls).
Proof.
  destruct (data_block_roundtrip ex_cfg ex_tables 0 ex_stack (zeros 4096) ex_payload 12 5 ex_data_block ex_data_block 99 100 200 false)
    as (calls & E & _); [done|done|apply bytes_zeros|apply ex_payload_bytes|done|apply ex_built| |done|done|done|done|].
  - apply tolerable_refl; [done|]. apply bytes_check. vm_compute. reflexivity.
  - exists calls. exact E.
Defined.

Lemma data_block_misdirected_witness : exists calls,
  beamfs_inline_decode_block_into_buf ex_cfg ex_tables 0 ex_stack true ex_data_block 99 12 6 100 200 false =
    (- EIO, [], calls).
Proof.
  apply (data_block_misdirected ex_cfg ex_tables 0 ex_stack (zeros 4096) ex_payload 12 6 12 5 ex_data_block ex_data_block);
    [done|done|apply bytes_zeros|apply ex_payload_bytes|done|apply ex_built| |lia|lia|lia|lia|done|done|lia|lia|done].
  apply tolerable_refl; [done|]. apply bytes_check. vm_compute. reflexivity.
Defined.
