(* ===== verification/FileTree.v ===== *)
(** * The block tree of a file (file_inline.c, super.c)

    Logical blocks 0..11 are reached through i_direct, the next 512
    through i_indirect, then 512^2 and 512^3 through i_dindirect and
    i_tindirect.  The lookup, the allocating lookup, the truncation, the
    release of an inode and the count of its blocks. *)

From S2P Require Import Prelude Format Crc RsInit RsLib Edac Dirent Dir FileData.

(** ** What the tree code calls, beyond what directories call *)

(** Calls of the tree checker. *)
Inductive tc_call :=
  | TcStore (ino parent slot old child : Z)
  | TcClear (parent slot : Z)
  | TcZeroed (ino parent : Z).

Class TreeEnv (S : Type) := {
  tree_dir :: DirEnv S;
  s_data_start : S -> Z;
  s_nblocks : S -> Z;
  s_free_blocks : S -> Z;
  (** beamfs_block_is_allocated *)
  is_allocated : S -> Z -> bool;
  (** beamfs_failed and beamfs_fail *)
  failed : S -> bool;
  fail : S -> S;
  (** beamfs_free_block without an owner *)
  bfree_anon : S -> Z -> S;
  (** beamfs_ind_parity_verify of a block with these contents *)
  parity_verify : S -> Z -> list Z -> Z * S;
  (** buffer_uptodate: false once a write of the buffer has failed *)
  uptodate : S -> Z -> bool;
  tc : S -> tc_call -> S }.

(** ** The inode *)

Inductive ftype := S_IFREG | S_IFDIR | S_IFLNK | S_IFOTHER.

Record finode := FInode {
  fi_ino : Z;
  fi_type : ftype;
  fi_size : Z;
  fi_direct : list Z;
  fi_indirect : Z;
  fi_dindirect : Z;
  fi_tindirect : Z;
  fi_freeing : bool;      (** I_FREEING | I_WILL_FREE | I_CLEAR *)
  fi_ctime : Z * Z;      (** seconds, nanoseconds *)
  fi_dirty : bool }.

Definition with_pointers (f : finode) (d : list Z) (i1 i2 i3 : Z) : finode :=
  FInode (fi_ino f) (fi_type f) (fi_size f) d i1 i2 i3 (fi_freeing f) (fi_ctime f) (fi_dirty f).
Definition fset_direct (f : finode) (i b : Z) : finode :=
  with_pointers f (setb (fi_direct f) i b) (fi_indirect f) (fi_dindirect f) (fi_tindirect f).
Definition fset_indirect (f : finode) (b : Z) : finode :=
  with_pointers f (fi_direct f) b (fi_dindirect f) (fi_tindirect f).
Definition fset_dindirect (f : finode) (b : Z) : finode :=
  with_pointers f (fi_direct f) (fi_indirect f) b (fi_tindirect f).
Definition fset_tindirect (f : finode) (b : Z) : finode :=
  with_pointers f (fi_direct f) (fi_indirect f) (fi_dindirect f) b.
Definition fmark_dirty (f : finode) : finode :=
  FInode (fi_ino f) (fi_type f) (fi_size f) (fi_direct f) (fi_indirect f) (fi_dindirect f) (fi_tindirect f)
    (fi_freeing f) (fi_ctime f) true.
Definition fset_ctime (f : finode) (now : Z * Z) : finode :=
  FInode (fi_ino f) (fi_type f) (fi_size f) (fi_direct f) (fi_indirect f) (fi_dindirect f) (fi_tindirect f)
    (fi_freeing f) now (fi_dirty f).

Section tree.
Context {S : Type} `{RL : !RsLib} `{CL : !CrcLib} `{TE : !TreeEnv S}.
Context (c : data_cfg) (t : rs_tables) (cpu : nat).

(** [ptrs[slot]] of a block of pointers. *)
Definition ptr (ptrs : list Z) (slot : Z) : Z := get_le64 ptrs (8 * slot).

(** ** Lookup *)

Definition in_data (s : S) (b : Z) : bool :=
  negb ((b <? s_data_start s) || (s_data_start s + s_nblocks s <=? b)).

Definition beamfs_check_intermediate_block (s : S) (block : Z) : Z * S :=
  if negb (in_data s block) || negb (is_allocated s block) then
    (- EUCLEAN, report s [LogRsEvent block None 0 BEAMFS_SUBBLOCK_DATA 0])
  else (0, s).

(** The terminal pointer of a walk: a hole, or a data block in use. *)
Definition check_terminal (s : S) (phys : Z) : Z * Z * S :=
  if phys =? 0 then (0, 0, s)
  else if negb (in_data s phys) then (- EUCLEAN, 0, s)
  else if negb (is_allocated s phys) then (- EUCLEAN, 0, s)
  else (0, phys, s).

(** A walk from block [blk] through the slots of each level. *)
Fixpoint lookup_slots (s : S) (blk : Z) (slots : list Z) : Z * Z * S :=
  match slots with
  | [] => check_terminal s blk
  | slot :: slots =>
    if blk =? 0 then (0, 0, s)
    else
      let '(ret, s) := beamfs_check_intermediate_block s blk in
      if negb (ret =? 0) then (ret, 0, s)
      else
        match bread s blk with
        | None => (- EIO, 0, s)
        | Some ptrs =>
          let '(bad, s) := parity_verify s blk ptrs in
          if negb (bad =? 0) then (- EUCLEAN, 0, s)
          else lookup_slots s (ptr ptrs slot) slots
        end
  end.

(** The slots of a logical block under the double and triple roots. *)
Definition dind_slots (iblock : Z) : list Z :=
  let didx := iblock - BEAMFS_MAX_IBLOCK_INDIRECT in
  [didx / BEAMFS_INDIRECT_PTRS; didx mod BEAMFS_INDIRECT_PTRS].
Definition tind_slots (iblock : Z) : list Z :=
  let tidx := iblock - BEAMFS_MAX_IBLOCK_DINDIRECT in
  [tidx / (BEAMFS_INDIRECT_PTRS * BEAMFS_INDIRECT_PTRS);
   (tidx / BEAMFS_INDIRECT_PTRS) mod BEAMFS_INDIRECT_PTRS; tidx mod BEAMFS_INDIRECT_PTRS].

(** Returns the code, [*phys_out] and the state. *)
Definition beamfs_inline_lookup_phys (s : S) (f : finode) (iblock : Z) : Z * Z * S :=
  if iblock <? BEAMFS_DIRECT_BLOCKS then lookup_slots s (getb (fi_direct f) iblock) []
  else if iblock <? BEAMFS_DIRECT_BLOCKS + BEAMFS_INDIRECT_PTRS then
    lookup_slots s (fi_indirect f) [iblock - BEAMFS_DIRECT_BLOCKS]
  else if iblock <? BEAMFS_MAX_IBLOCK_DINDIRECT then lookup_slots s (fi_dindirect f) (dind_slots iblock)
  else if iblock <? BEAMFS_MAX_IBLOCK_TINDIRECT then lookup_slots s (fi_tindirect f) (tind_slots iblock)
  else (- EOPNOTSUPP, 0, s).

(** Is this a block a file may point at?  A pointer outside the data area
    fails the volume. *)
Definition beamfs_phys_is_sane (s : S) (phys : Z) : bool * S :=
  if phys =? 0 then (true, s)
  else if negb (in_data s phys) then (false, fail s) else (true, s).

(** ** Allocating lookup *)

Definition beamfs_attach_dirty (s : S) (blk : Z) : S := if uptodate s blk then s else fail s.

(** A block from the allocator with a buffer: the code, the block. *)
Definition alloc_buffer (s : S) (ino : Z) : Z * Z * S :=
  let '(b, s) := balloc s ino in
  if b =? 0 then (if failed s then - EIO else - ENOSPC, 0, s)
  else if negb (getblk s b) then (- EIO, 0, bfree s b ino)
  else (0, b, s).

(** A missing level: zeroes, with their parity. *)
Definition new_indirect (s : S) (ino : Z) : Z * Z * S :=
  let '(rc, b, s) := alloc_buffer s ino in
  if negb (rc =? 0) then (rc, 0, s)
  else
    let s := tc s (TcZeroed ino b) in
    let s := bput s b (zeros BEAMFS_BLOCK_SIZE) in
    (0, b, parity_update s b (zeros BEAMFS_BLOCK_SIZE) ino).

(** A data block: zeroes, stamped and sealed. *)
Definition new_data (s : S) (ino iblock : Z) : Z * Z * S :=
  let '(rc, b, s) := alloc_buffer s ino in
  if negb (rc =? 0) then (rc, 0, s)
  else (0, b, bput s b (fresh_data_block c t cpu ino iblock)).

(** A pointer stored in its parent. *)
Definition install (s : S) (ino parent : Z) (ptrs : list Z) (slot child : Z) : S :=
  let s := tc s (TcStore ino parent slot (ptr ptrs slot) child) in
  let ptrs := put_le64 ptrs (8 * slot) child in
  let s := bput s parent ptrs in
  let s := parity_update s parent ptrs ino in
  beamfs_attach_dirty s parent.

(** From a block of pointers down to the data block.  Returns the code,
    the block, whether this call allocated it, the inode and the state. *)
Fixpoint alloc_slots (s : S) (f : finode) (iblock : Z) (now : Z * Z) (blk : Z) (slots : list Z) : Z * Z * bool * finode * S :=
  match slots with
  | [] => (0, blk, false, f, s)
  | slot :: rest =>
    match bread s blk with
    | None => (- EIO, 0, false, f, s)
    | Some ptrs =>
      let '(bad, s) := parity_verify s blk ptrs in
      if negb (bad =? 0) then (- EUCLEAN, 0, false, f, s)
      else
        let phys := ptr ptrs slot in
        match rest with
        | [] =>
          if negb (phys =? 0) then (0, phys, false, f, s)
          else
            let '(rc, b, s) := new_data s (fi_ino f) iblock in
            if negb (rc =? 0) then (rc, 0, false, f, s)
            else (0, b, true, fmark_dirty (fset_ctime f now), install s (fi_ino f) blk ptrs slot b)
        | _ =>
          if negb (phys =? 0) then alloc_slots s f iblock now phys rest
          else
            let '(rc, b, s) := new_indirect s (fi_ino f) in
            if negb (rc =? 0) then (rc, 0, false, f, s)
            else alloc_slots (install s (fi_ino f) blk ptrs slot b) (fmark_dirty f) iblock now b rest
        end
    end
  end.

(** A root, created when the inode has none, then the walk. *)
Definition alloc_from_root (s : S) (f : finode) (iblock : Z) (now : Z * Z) (root : Z) (set_root : finode -> Z -> finode)
    (slots : list Z) : Z * Z * bool * finode * S :=
  if root =? 0 then
    let '(rc, b, s) := new_indirect s (fi_ino f) in
    if negb (rc =? 0) then (rc, 0, false, f, s)
    else alloc_slots s (fmark_dirty (set_root f b)) iblock now b slots
  else alloc_slots s f iblock now root slots.

(** Returns the code, [*phys_out], [*allocated], the inode and the state. *)
Definition beamfs_inline_lookup_or_alloc_phys_new (s : S) (f : finode) (iblock : Z) (now : Z * Z)
    : Z * Z * bool * finode * S :=
  if fi_freeing f then (- EIO, 0, false, f, s)
  else if s_free_blocks s =? 0 then (- ENOSPC, 0, false, f, s)
  else if iblock <? BEAMFS_DIRECT_BLOCKS then
    let phys := getb (fi_direct f) iblock in
    if negb (phys =? 0) then (0, phys, false, f, s)
    else
      let '(rc, b, s) := new_data s (fi_ino f) iblock in
      if negb (rc =? 0) then (rc, 0, false, f, s)
      else (0, b, true, fmark_dirty (fset_direct f iblock b), s)
  else if iblock <? BEAMFS_DIRECT_BLOCKS + BEAMFS_INDIRECT_PTRS then
    alloc_from_root s f iblock now (fi_indirect f) fset_indirect [iblock - BEAMFS_DIRECT_BLOCKS]
  else if iblock <? BEAMFS_MAX_IBLOCK_DINDIRECT then
    alloc_from_root s f iblock now (fi_dindirect f) fset_dindirect (dind_slots iblock)
  else if iblock <? BEAMFS_MAX_IBLOCK_TINDIRECT then
    alloc_from_root s f iblock now (fi_tindirect f) fset_tindirect (tind_slots iblock)
  else (- EOPNOTSUPP, 0, false, f, s).

(** ** Freeing *)

Definition beamfs_free_one_block (s : S) (blk : Z) : bool * S :=
  if blk =? 0 then (false, s)
  else if negb (is_allocated s blk) then
    (false, report s [LogRsEvent blk None 0 BEAMFS_SUBBLOCK_DATA 0])
  else (true, bfree_anon s blk).

(** The contents of a buffer that is held. *)
Definition held (s : S) (blk : Z) : list Z := default [] (bread s blk).

(** [ptrs[j] = 0] in the buffer of [blk]. *)
Definition clear_slot (s : S) (blk j : Z) : S :=
  let s := tc s (TcClear blk j) in
  bput s blk (put_le64 (held s blk) (8 * j) 0).

(** [span d]: logical blocks under a pointer at depth [d]. *)
Definition span (d : nat) : Z := BEAMFS_INDIRECT_PTRS ^ Z.of_nat d.

(** One slot: the state, the survivors, whether a slot was cleared. *)
Definition free_slot (free_child : S -> Z -> Z -> bool * S) (leaf : bool) (blk base child_span first : Z)
    (st : S * Z * bool) (j : Z) : S * Z * bool :=
  let '(s, survivors, dirtied) := st in
  let child := ptr (held s blk) j in
  let child_base := base + j * child_span in
  if child =? 0 then st
  else if negb leaf then
    let '(gone, s) := free_child s child child_base in
    if gone then (clear_slot s blk j, survivors, true) else (s, survivors + 1, dirtied)
  else if child_base <? first then (s, survivors + 1, dirtied)
  else
    let '(_, s) := beamfs_free_one_block s child in
    (clear_slot s blk j, survivors, true).

(** [depth] is one less than the code's: 0 frees a block of pointers to
    data.  Returns whether the subtree is gone. *)
Fixpoint beamfs_free_ind_range (s : S) (blk : Z) (depth : nat) (base first ino : Z) : bool * S :=
  if blk =? 0 then (true, s)
  else if base + span depth * BEAMFS_INDIRECT_PTRS <=? first then (false, s)
  else
    match bread s blk with
    | None => (false, s)
    | Some _ =>
      let free_child := match depth with
        | O => fun s _ _ => (false, s)
        | Datatypes.S d => fun s child child_base => beamfs_free_ind_range s child d child_base first ino
        end in
      let leaf := match depth with O => true | _ => false end in
      let '(s, survivors, dirtied) :=
        foldl (free_slot free_child leaf blk base (span depth) first) (s, 0, false) (upto BEAMFS_INDIRECT_PTRS) in
      let s := if dirtied then parity_update s blk (held s blk) ino else s in
      if survivors =? 0 then (true, snd (beamfs_free_one_block s blk)) else (false, s)
    end.

(** Direct pointers from [first] on. *)
Definition free_direct (st : finode * S) (i : Z) : finode * S :=
  let '(f, s) := st in
  let blk := getb (fi_direct f) i in
  if blk =? 0 then st else (fset_direct f i 0, bfree s blk (fi_ino f)).

(** The single indirect block of a truncation.  [None] is the early return;
    [kvmalloc_ok] is the allocation of the list of blocks to free. *)
Definition truncate_indirect (kvmalloc_ok : bool) (s : S) (f : finode) (first : Z) : S * option finode :=
  if fi_indirect f =? 0 then (s, Some f)
  else
    let blk := fi_indirect f in
    match bread s blk with
    | None => (s, None)
    | Some ptrs =>
      let '(bad, s) := parity_verify s blk ptrs in
      if negb (bad =? 0) then (s, None)
      else if negb kvmalloc_ok then (s, None)
      else
        let slot_first := if BEAMFS_DIRECT_BLOCKS <=? first then first - BEAMFS_DIRECT_BLOCKS else 0 in
        let '(s, doomed) :=
          foldl (fun '(s, doomed) j =>
            let b := ptr (held s blk) j in
            if b =? 0 then (s, doomed) else (clear_slot s blk j, doomed ++ [b]))
            (s, []) (seqZ slot_first (BEAMFS_INDIRECT_PTRS - slot_first)) in
        let s := parity_update s blk (held s blk) (fi_ino f) in
        let f := fmark_dirty f in
        let s := foldl (fun s b => bfree s b (fi_ino f)) s doomed in
        if slot_first =? 0 then (bfree s blk (fi_ino f), Some (fset_indirect f 0)) else (s, Some f)
    end.

Definition beamfs_inline_free_blocks_from (kvmalloc_ok : bool) (s : S) (f : finode) (first : Z) : finode * S :=
  let i0 := u32 first in
  let '(f, s) := foldl free_direct (f, s) (seqZ i0 (BEAMFS_DIRECT_BLOCKS - i0)) in
  match truncate_indirect kvmalloc_ok s f first with
  | (s, None) => (f, s)
  | (s, Some f) =>
    let '(f, s) :=
      if fi_dindirect f =? 0 then (f, s)
      else
        let '(gone, s) := beamfs_free_ind_range s (fi_dindirect f) 1 BEAMFS_MAX_IBLOCK_INDIRECT first (fi_ino f) in
        (if gone then fset_dindirect f 0 else f, s) in
    let '(f, s) :=
      if fi_tindirect f =? 0 then (f, s)
      else
        let '(gone, s) := beamfs_free_ind_range s (fi_tindirect f) 2 BEAMFS_MAX_IBLOCK_DINDIRECT first (fi_ino f) in
        (if gone then fset_tindirect f 0 else f, s) in
    (fmark_dirty f, s)
  end.

(** The direct blocks of an inode that goes away: the inode, the state and
    [seen] ([None] when it could not be allocated). *)
Definition evict_direct (st : finode * S * option (list Z)) (i : Z) : finode * S * option (list Z) :=
  let '(f, s, seen) := st in
  let blk := getb (fi_direct f) i in
  let fresh := match seen with Some l => negb (bool_decide (blk ∈ l)) | None => true end in
  let '(s, seen) :=
    if negb (blk =? 0) && fresh
    then (bfree_anon s blk, match seen with Some l => Some (l ++ [blk]) | None => None end)
    else (s, seen) in
  (fset_direct f i 0, s, seen).

Definition beamfs_free_data_blocks (kmalloc_ok : bool) (s : S) (f : finode) : finode * S :=
  match fi_type f with
  | S_IFLNK =>
    let s := if (8 * BEAMFS_DIRECT_BLOCKS <=? fi_size f) && negb (getb (fi_direct f) 0 =? 0)
             then bfree_anon s (getb (fi_direct f) 0) else s in
    (with_pointers f (zeros BEAMFS_DIRECT_BLOCKS) (fi_indirect f) (fi_dindirect f) (fi_tindirect f), s)
  | _ =>
    let '(f, s, _) := foldl evict_direct (f, s, if kmalloc_ok then Some [] else None) (upto BEAMFS_DIRECT_BLOCKS) in
    let '(f, s) :=
      if fi_indirect f =? 0 then (f, s)
      else (fset_indirect f 0,
            snd (beamfs_free_ind_range s (fi_indirect f) 0 BEAMFS_MAX_IBLOCK_DIRECT 0 (fi_ino f))) in
    let '(f, s) :=
      if fi_dindirect f =? 0 then (f, s)
      else (fset_dindirect f 0,
            snd (beamfs_free_ind_range s (fi_dindirect f) 1 BEAMFS_MAX_IBLOCK_INDIRECT 0 (fi_ino f))) in
    if fi_tindirect f =? 0 then (f, s)
    else (fset_tindirect f 0,
          snd (beamfs_free_ind_range s (fi_tindirect f) 2 BEAMFS_MAX_IBLOCK_DINDIRECT 0 (fi_ino f)))
  end.

(** ** Counting *)

(** [depth] is one less than the code's.  Returns the code, the count and
    the state; [kmalloc_ok] is the allocation of the list of children. *)
Fixpoint beamfs_count_tree (kmalloc_ok : bool) (s : S) (blk : Z) (depth : nat) (count : Z) : Z * Z * S :=
  let '(ret, s) := beamfs_check_intermediate_block s blk in
  if negb (ret =? 0) then (ret, count, s)
  else
    match bread s blk with
    | None => (- EIO, count, s)
    | Some ptrs =>
      let '(bad, s) := parity_verify s blk ptrs in
      if negb (bad =? 0) then (- EUCLEAN, count, s)
      else if match depth with O => false | _ => negb kmalloc_ok end then (- ENOMEM, count, s)
      else
        let kids := filter (fun p => p <> 0) (map (ptr ptrs) (upto BEAMFS_INDIRECT_PTRS)) in
        match depth with
        | O => (0, count + 1 + zlen kids, s)
        | Datatypes.S d =>
          foldl (fun '(ret, count, s) kid =>
            if negb (ret =? 0) then (ret, count, s) else beamfs_count_tree kmalloc_ok s kid d count)
            (0, count + 1, s) kids
        end
    end.

Definition beamfs_count_blocks (kmalloc_ok : bool) (s : S) (f : finode) : Z * Z * S :=
  match fi_type f with
  | S_IFLNK =>
    (0, if (8 * BEAMFS_DIRECT_BLOCKS <=? fi_size f) && negb (getb (fi_direct f) 0 =? 0) then 1 else 0, s)
  | S_IFOTHER => (0, 0, s)
  | _ =>
    let count := zlen (filter (fun p => p <> 0) (map (getb (fi_direct f)) (upto BEAMFS_DIRECT_BLOCKS))) in
    foldl (fun '(ret, count, s) '(root, depth) =>
      if negb (ret =? 0) || (root =? 0) then (ret, count, s) else beamfs_count_tree kmalloc_ok s root depth count)
      (0, count, s) [(fi_indirect f, 0%nat); (fi_dindirect f, 1%nat); (fi_tindirect f, 2%nat)]
  end.
End tree.
