(* ===== verification/FileSteady.v ===== *)
(** * What the tree code never takes away

    A property of the environment that every call the tree code makes
    keeps is kept by the lookup, the allocation and the truncation. *)

From S2P Require Import Prelude Format Crc RsInit RsLib Edac Dirent Dir FileData FileTree.

(** The mount's reserve of pages does not run out, no write of a buffer
    fails, the volume is the size it is. *)
Class Steady (S : Type) `{TE : !TreeEnv S} := {
  steady : S -> Prop;
  capacity : Z;
  steady_scratch s : steady s -> scratch_get s = true;
  steady_failed s : steady s -> failed s = false;
  steady_uptodate s b : steady s -> uptodate s b = true;
  steady_capacity s : steady s -> 0 <= s_nblocks s <= capacity;
  steady_report s calls : steady s -> steady (report s calls);
  steady_tc s x : steady s -> steady (tc s x);
  steady_verify s b p : steady s -> steady (snd (parity_verify s b p));
  steady_update s b p ino : steady s -> steady (parity_update s b p ino);
  steady_bput s b p : steady s -> steady (bput s b p);
  steady_balloc s ino : steady s -> steady (snd (balloc s ino));
  steady_bfree s b ino : steady s -> steady (bfree s b ino);
  steady_bfree_anon s b : steady s -> steady (bfree_anon s b);
  report_free s calls : s_free_blocks (report s calls) = s_free_blocks s;
  verify_free s b p : s_free_blocks (snd (parity_verify s b p)) = s_free_blocks s;
  bput_free s b p : s_free_blocks (bput s b p) = s_free_blocks s }.

Create HintDb steady discriminated.
#[export] Hint Resolve steady_report steady_tc steady_verify steady_update steady_bput steady_balloc steady_bfree steady_bfree_anon : steady.

Section steady.
Context {S : Type} `{RL : !RsLib} `{CL : !CrcLib} `{ST : Steady S}.
Context (c : data_cfg) (t : rs_tables) (cpu : nat).

Lemma check_steady s b : steady s -> steady (snd (beamfs_check_intermediate_block s b)).
Proof. intros H. unfold beamfs_check_intermediate_block. destruct (_ || _); cbn [snd]; auto with steady. Qed.

Lemma lookup_slots_steady slots : forall s b, steady s -> steady (snd (lookup_slots s b slots)).
Proof.
  induction slots as [|j slots IH]; intros s b H; cbn [lookup_slots].
  - unfold check_terminal. by repeat case_match.
  - destruct (b =? 0); [done|]. pose proof (check_steady s b H) as H1. destruct (beamfs_check_intermediate_block s b) as [ret s1]. cbn [snd] in H1.
    destruct (negb (ret =? 0)); [done|]. destruct (bread s1 b) as [p|]; [|done].
    pose proof (steady_verify s1 b p H1) as H2. destruct (parity_verify s1 b p) as [bad s2]. cbn [snd] in H2. destruct (negb (bad =? 0)); [done|]. by apply IH.
Qed.

Lemma lookup_steady s f i : steady s -> steady (snd (beamfs_inline_lookup_phys s f i)).
Proof. intros H. unfold beamfs_inline_lookup_phys. repeat (destruct (i <? _); [by apply lookup_slots_steady|]). done. Qed.

Lemma lookup_slots_free slots : forall s b, s_free_blocks (snd (lookup_slots s b slots)) = s_free_blocks s.
Proof.
  induction slots as [|j slots IH]; intros s b; cbn [lookup_slots].
  - unfold check_terminal. by repeat case_match.
  - destruct (b =? 0); [done|]. assert (E : s_free_blocks (snd (beamfs_check_intermediate_block s b)) = s_free_blocks s)
      by (unfold beamfs_check_intermediate_block; destruct (_ || _); [apply report_free|done]).
    destruct (beamfs_check_intermediate_block s b) as [ret s1]. cbn [snd] in E. rewrite <- E.
    destruct (negb (ret =? 0)); [done|]. destruct (bread s1 b) as [p|]; [|done].
    pose proof (verify_free s1 b p) as E2. destruct (parity_verify s1 b p) as [bad s2]. cbn [snd] in E2. rewrite <- E2. destruct (negb (bad =? 0)); [done|]. apply IH.
Qed.

Lemma lookup_free s f i : s_free_blocks (snd (beamfs_inline_lookup_phys s f i)) = s_free_blocks s.
Proof. unfold beamfs_inline_lookup_phys. repeat (destruct (i <? _); [apply lookup_slots_free|]). done. Qed.

Lemma attach_steady s b : steady s -> steady (beamfs_attach_dirty s b).
Proof. intros H. unfold beamfs_attach_dirty. by rewrite steady_uptodate. Qed.

Lemma alloc_buffer_steady s ino : steady s -> steady (snd (alloc_buffer s ino)).
Proof.
  intros H. unfold alloc_buffer. pose proof (steady_balloc s ino H) as H1. destruct (balloc s ino) as [b s1]. cbn [snd] in H1.
  destruct (b =? 0); [done|]. destruct (negb (getblk s1 b)); cbn [snd]; auto with steady.
Qed.

Lemma new_indirect_steady s ino : steady s -> steady (snd (new_indirect s ino)).
Proof.
  intros H. unfold new_indirect. pose proof (alloc_buffer_steady s ino H) as H1. destruct (alloc_buffer s ino) as [[rc b] s1]. cbn [snd] in H1.
  destruct (negb (rc =? 0)); cbn [snd]; auto with steady.
Qed.

Lemma new_data_steady s ino i : steady s -> steady (snd (new_data c t cpu s ino i)).
Proof.
  intros H. unfold new_data. pose proof (alloc_buffer_steady s ino H) as H1. destruct (alloc_buffer s ino) as [[rc b] s1]. cbn [snd] in H1.
  destruct (negb (rc =? 0)); cbn [snd]; auto with steady.
Qed.

Lemma install_steady s ino b p j q : steady s -> steady (install s ino b p j q).
Proof. intros H. unfold install. apply attach_steady. auto with steady. Qed.

Lemma alloc_slots_steady slots : forall s f i now b, steady s -> steady (snd (alloc_slots c t cpu s f i now b slots)).
Proof.
  induction slots as [|j rest IH]; intros s f i now b H; cbn [alloc_slots]; [done|]. destruct (bread s b) as [p|]; [|done].
  pose proof (steady_verify s b p H) as H1. destruct (parity_verify s b p) as [bad s1]. cbn [snd] in H1. destruct (negb (bad =? 0)); [done|].
  destruct rest as [|j2 rest].
  - destruct (negb (ptr p j =? 0)); [done|]. pose proof (new_data_steady s1 (fi_ino f) i H1) as H2. destruct (new_data _ _ _ _ _ _) as [[rc q] s2]. cbn [snd] in H2.
    destruct (negb (rc =? 0)); [done|]. by apply install_steady.
  - destruct (negb (ptr p j =? 0)); [by apply IH|]. pose proof (new_indirect_steady s1 (fi_ino f) H1) as H2. destruct (new_indirect _ _) as [[rc q] s2]. cbn [snd] in H2.
    destruct (negb (rc =? 0)); [done|]. by apply IH, install_steady.
Qed.

Lemma alloc_root_steady s f i now root set slots : steady s -> steady (snd (alloc_from_root c t cpu s f i now root set slots)).
Proof.
  intros H. unfold alloc_from_root. destruct (root =? 0); [|by apply alloc_slots_steady].
  pose proof (new_indirect_steady s (fi_ino f) H) as H2. destruct (new_indirect _ _) as [[rc q] s2]. cbn [snd] in H2.
  destruct (negb (rc =? 0)); [done|]. by apply alloc_slots_steady.
Qed.

Lemma alloc_steady s f i now : steady s -> steady (snd (beamfs_inline_lookup_or_alloc_phys_new c t cpu s f i now)).
Proof.
  intros H. unfold beamfs_inline_lookup_or_alloc_phys_new. destruct (fi_freeing f); [done|]. destruct (_ =? 0); [done|].
  destruct (i <? _).
  - destruct (negb _); [done|]. pose proof (new_data_steady s (fi_ino f) i H) as H2. destruct (new_data _ _ _ _ _ _) as [[rc q] s2]. cbn [snd] in H2.
    by destruct (negb (rc =? 0)).
  - repeat (destruct (i <? _); [by apply alloc_root_steady|]). done.
Qed.

(** ** Freeing *)

Lemma fold_steady {X Y} (P : X -> S) (f : X -> Y -> X) l : (forall x y, steady (P x) -> steady (P (f x y))) ->
  forall x, steady (P x) -> steady (P (foldl f x l)).
Proof. intros Hf. induction l as [|y l IH]; intros x H; [done|]. cbn [foldl]. apply IH, Hf, H. Qed.

Lemma free_one_steady s b : steady s -> steady (snd (beamfs_free_one_block s b)).
Proof. intros H. unfold beamfs_free_one_block. destruct (b =? 0); [done|]. destruct (negb _); cbn [snd]; auto with steady. Qed.

Lemma clear_steady s b j : steady s -> steady (clear_slot s b j).
Proof. intros H. unfold clear_slot. auto with steady. Qed.

Lemma free_slot_steady fc leaf blk base sp first st j : (forall s b x, steady s -> steady (snd (fc s b x))) ->
  steady (fst (fst st)) -> steady (fst (fst (free_slot fc leaf blk base sp first st j))).
Proof.
  intros Hf H. destruct st as [[s n] d]. cbn [fst] in H. unfold free_slot. destruct (ptr (held s blk) j =? 0); [done|]. destruct (negb leaf).
  - pose proof (Hf s (ptr (held s blk) j) (base + j * sp) H) as H1. destruct (fc _ _ _) as [gone s1]. cbn [snd] in H1.
    destruct gone; cbn [fst]; [by apply clear_steady|done].
  - destruct (_ <? first); [done|]. pose proof (free_one_steady s (ptr (held s blk) j) H) as H1. destruct (beamfs_free_one_block _ _) as [g s1].
    cbn [fst snd] in *. by apply clear_steady.
Qed.

Lemma free_range_steady d : forall s b base first ino, steady s -> steady (snd (beamfs_free_ind_range s b d base first ino)).
Proof.
  induction d as [|d IH]; intros s b base first ino H; cbn [beamfs_free_ind_range].
  all: destruct (b =? 0); [done|]; destruct (_ <=? first); [done|]; destruct (bread s b) as [p|]; [|done].
  all: match goal with |- context [foldl ?g ?x ?l] =>
    assert (H1 : steady (fst (fst (foldl g x l)))) by
      (apply (fold_steady (fun st => fst (fst st)) g l); [intros st j; apply free_slot_steady; intros; cbn [snd]; auto|done]);
    destruct (foldl g x l) as [[s1 n] dirty] end.
  all: cbn [fst] in H1; assert (H2 : steady (if dirty then parity_update s1 b (held s1 b) ino else s1)) by (destruct dirty; auto with steady).
  all: destruct (n =? 0); cbn [snd]; [by apply free_one_steady|done].
Qed.

Lemma truncate_indirect_steady kv s f first : steady s -> steady (fst (truncate_indirect kv s f first)).
Proof.
  intros H. unfold truncate_indirect. destruct (fi_indirect f =? 0); [done|]. destruct (bread s (fi_indirect f)) as [p|]; [|done].
  pose proof (steady_verify s (fi_indirect f) p H) as H1. destruct (parity_verify _ _ _) as [bad s1]. cbn [snd] in H1.
  destruct (negb (bad =? 0)); [done|]. destruct (negb kv); [done|].
  match goal with |- context [foldl ?g (s1, []) ?l] =>
    assert (H2 : steady (fst (foldl g (s1, []) l))) by
      (apply (fold_steady fst g l); [|done]; intros [s2 dm] j; cbn [fst]; intros; destruct (_ =? 0); cbn [fst]; [done|by apply clear_steady]);
    destruct (foldl g (s1, []) l) as [s2 doomed] end.
  cbn [fst] in H2.
  assert (H3 : steady (foldl (fun s b => bfree s b (fi_ino (fmark_dirty f))) (parity_update s2 (fi_indirect f) (held s2 (fi_indirect f)) (fi_ino f)) doomed))
    by (apply (fold_steady (fun s => s)); auto with steady).
  destruct (_ =? 0); cbn [fst]; auto with steady.
Qed.

Lemma free_from_steady kv s f first : steady s -> steady (snd (beamfs_inline_free_blocks_from kv s f first)).
Proof.
  intros H. unfold beamfs_inline_free_blocks_from.
  match goal with |- context [foldl free_direct (f, s) ?l] =>
    assert (H1 : steady (snd (foldl free_direct (f, s) l))) by
      (apply (fold_steady snd free_direct l); [|done]; intros [f1 s1] j; unfold free_direct; cbn [snd]; intros; destruct (_ =? 0); cbn [snd]; auto with steady);
    destruct (foldl free_direct (f, s) l) as [f1 s1] end.
  cbn [snd] in H1. pose proof (truncate_indirect_steady kv s1 f1 first H1) as H2. destruct (truncate_indirect kv s1 f1 first) as [s2 [f2|]]; cbn [fst] in H2; [|done].
  assert (R : forall s b d base g (k : finode -> finode), steady s -> steady (snd (let '(gone, s) := beamfs_free_ind_range s b d base first (fi_ino g) in (if gone then k g else g, s)))).
  { intros s0 b d base g k H0. pose proof (free_range_steady d s0 b base first (fi_ino g) H0) as H3. by destruct (beamfs_free_ind_range _ _ _ _ _ _). }
  set (st3 := if fi_dindirect f2 =? 0 then _ else _).
  assert (H3 : steady (snd st3)) by (unfold st3; destruct (fi_dindirect f2 =? 0); [done|by apply (R s2 (fi_dindirect f2) 1%nat BEAMFS_MAX_IBLOCK_INDIRECT f2 (fun g => fset_dindirect g 0))]).
  destruct st3 as [f3 s3]. cbn [snd] in H3. set (st4 := if fi_tindirect f3 =? 0 then _ else _).
  assert (H4 : steady (snd st4)) by (unfold st4; destruct (fi_tindirect f3 =? 0); [done|by apply (R s3 (fi_tindirect f3) 2%nat BEAMFS_MAX_IBLOCK_DINDIRECT f3 (fun g => fset_tindirect g 0))]).
  destruct st4 as [f4 s4].
  exact H4.
Qed.

(** ** What stays of the inode *)

Definition same_meta (f f' : finode) : Prop :=
  fi_ino f' = fi_ino f /\ fi_type f' = fi_type f /\ fi_size f' = fi_size f /\ fi_freeing f' = fi_freeing f.

Lemma same_meta_trans f g h : same_meta f g -> same_meta g h -> same_meta f h.
Proof. intros (E1 & E2 & E3 & E4) (F1 & F2 & F3 & F4). unfold same_meta. rewrite F1, F2, F3, F4. done. Qed.

Lemma alloc_slots_meta slots : forall s f i now b, same_meta f (snd (fst (alloc_slots c t cpu s f i now b slots))).
Proof.
  induction slots as [|j rest IH]; intros s f i now b; cbn [alloc_slots]; [done|]. destruct (bread s b) as [p|]; [|done].
  destruct (parity_verify s b p) as [bad s1]. destruct (negb (bad =? 0)); [done|]. destruct rest as [|j2 rest].
  - destruct (negb (ptr p j =? 0)); [done|]. destruct (new_data _ _ _ _ _ _) as [[rc q] s2]. by destruct (negb (rc =? 0)).
  - destruct (negb (ptr p j =? 0)); [by apply IH|]. destruct (new_indirect _ _) as [[rc q] s2].
    destruct (negb (rc =? 0)); [done|]. exact (IH _ (fmark_dirty f) i now q).
Qed.

Lemma alloc_meta s f i now : same_meta f (snd (fst (beamfs_inline_lookup_or_alloc_phys_new c t cpu s f i now))).
Proof.
  assert (R : forall root set slots, (forall b, same_meta f (set f b)) -> same_meta f (snd (fst (alloc_from_root c t cpu s f i now root set slots)))).
  { intros root set slots Hs. unfold alloc_from_root. destruct (root =? 0); [|apply alloc_slots_meta].
    destruct (new_indirect _ _) as [[rc q] s2]. destruct (negb (rc =? 0)); [done|].
    apply (same_meta_trans f (fmark_dirty (set f q))); [apply Hs|apply alloc_slots_meta]. }
  unfold beamfs_inline_lookup_or_alloc_phys_new. destruct (fi_freeing f) eqn:Ef; [done|]. destruct (_ =? 0); [done|].
  destruct (i <? _).
  - destruct (negb _); [done|]. destruct (new_data _ _ _ _ _ _) as [[rc q] s2]. by destruct (negb (rc =? 0)).
  - repeat (destruct (i <? _); [by apply R|]). done.
Qed.

Lemma fold_meta {X Y} (P : X -> finode) (g : X -> Y -> X) l : (forall x y, same_meta (P x) (P (g x y))) -> forall x, same_meta (P x) (P (foldl g x l)).
Proof. intros H. induction l as [|y l IH]; intros x; [done|]. cbn [foldl]. apply (same_meta_trans _ (P (g x y))); [apply H|apply IH]. Qed.

Lemma free_from_meta kv s f first : same_meta f (fst (beamfs_inline_free_blocks_from kv s f first)).
Proof.
  unfold beamfs_inline_free_blocks_from.
  match goal with |- context [foldl free_direct (f, s) ?l] =>
    assert (H1 : same_meta f (fst (foldl free_direct (f, s) l))) by
      (apply (fold_meta fst free_direct l); intros [f1 s1] j; unfold free_direct; by destruct (_ =? 0));
    destruct (foldl free_direct (f, s) l) as [f1 s1] end.
  cbn [fst] in H1.
  assert (H2 : forall f2, snd (truncate_indirect kv s1 f1 first) = Some f2 -> same_meta f1 f2).
  { intros f2. unfold truncate_indirect. destruct (fi_indirect f1 =? 0); [by intros [= <-]|]. destruct (bread s1 (fi_indirect f1)) as [p|]; [|done].
    destruct (parity_verify _ _ _) as [bad s2]. destruct (negb (bad =? 0)); [done|]. destruct (negb kv); [done|].
    destruct (foldl _ (s2, []) _) as [s3 dm]. destruct (_ =? 0); by intros [= <-]. }
  destruct (truncate_indirect kv s1 f1 first) as [s2 [f2|]]; [|done]. cbn [snd] in H2. specialize (H2 f2 eq_refl).
  assert (R : forall s b d base g (k : finode -> finode), same_meta g (k g) -> same_meta g (fst (let '(gone, s) := beamfs_free_ind_range s b d base first (fi_ino g) in (if gone then k g else g, s)))).
  { intros s0 b d base g k Hk. destruct (beamfs_free_ind_range _ _ _ _ _ _) as [[|] s3]; done. }
  set (st3 := if fi_dindirect f2 =? 0 then _ else _).
  assert (H3 : same_meta f2 (fst st3)) by (unfold st3; destruct (fi_dindirect f2 =? 0); [done|by apply (R s2 (fi_dindirect f2) 1%nat BEAMFS_MAX_IBLOCK_INDIRECT f2 (fun g => fset_dindirect g 0))]).
  destruct st3 as [f3 s3]. cbn [fst] in H3. set (st4 := if fi_tindirect f3 =? 0 then _ else _).
  assert (H4 : same_meta f3 (fst st4)) by (unfold st4; destruct (fi_tindirect f3 =? 0); [done|by apply (R s3 (fi_tindirect f3) 2%nat BEAMFS_MAX_IBLOCK_DINDIRECT f3 (fun g => fset_tindirect g 0))]).
  destruct st4 as [f4 s4]. cbn [fst] in H4. exact (same_meta_trans _ _ _ H1 (same_meta_trans _ _ _ H2 (same_meta_trans _ _ _ H3 H4))).
Qed.
End steady.
