(* ===== verification/FileIo.v ===== *)
(** * Mapping, reading and truncating a file (file_inline.c)

    What iomap calls of a file whose blocks carry their own parity, and
    setattr: the mapping of a range, the filling of a folio from the blocks
    that back it, and the cut of a file to a new size. *)

From S2P Require Import Prelude Format Crc RsInit RsLib Edac Dirent Dir FileData FileTree.

Definition IOMAP_WRITE : Z := 1.
Definition IOMAP_REPORT : Z := 4.
Definition IOMAP_NULL_ADDR : Z := 2 ^ 64 - 1.

Inductive iomap_type := IOMAP_HOLE | IOMAP_MAPPED.

(** [im_fresh] is BEAMFS_IOMAP_F_FRESH. *)
Record iomap := Iomap {
  im_type : iomap_type;
  im_offset : Z;
  im_length : Z;
  im_addr : Z;
  im_fresh : bool }.

Definition PAGE_SIZE : Z := 4096.

(** Folios of a file are single pages. *)
Definition offset_in_folio (pos : Z) : Z := pos mod PAGE_SIZE.
Definition folio_zero_range (folio : list Z) (off len : Z) : list Z := splice folio off (zeros len).

Definition DIV_ROUND_UP (n d : Z) : Z := (n + d - 1) / d.

(** truncate_setsize: i_size; the pages beyond it leave the page cache. *)
Definition truncate_setsize (f : finode) (n : Z) : finode :=
  FInode (fi_ino f) (fi_type f) n (fi_direct f) (fi_indirect f) (fi_dindirect f) (fi_tindirect f)
    (fi_freeing f) (fi_ctime f) (fi_dirty f).

Section io.
Context {S : Type} `{RL : !RsLib} `{CL : !CrcLib} `{TE : !TreeEnv S}.
Context (c : data_cfg) (t : rs_tables) (cpu : nat) (stk : stack_arrays).

Abbreviation payload := (beamfs_block_payload c).

Definition beamfs_inline_lookup_or_alloc_phys (s : S) (f : finode) (iblock : Z) (now : Z * Z) : Z * Z * finode * S :=
  let '(ret, phys, _, f, s) := beamfs_inline_lookup_or_alloc_phys_new c t cpu s f iblock now in (ret, phys, f, s).

(** A code of 0 stands only for an address a file may have. *)
Definition gate (ret phys : Z) (s : S) : Z * S :=
  if ret =? 0 then
    let '(sane, s) := beamfs_phys_is_sane s phys in
    if sane then (0, s) else (- EUCLEAN, s)
  else (ret, s).

(** ** Mapping *)

(** Returns the code, the mapping, the inode and the state. *)
Definition beamfs_inline_iomap_begin (s : S) (f : finode) (pos length flags : Z) (now : Z * Z)
    : Z * iomap * finode * S :=
  let b := pos / payload in
  let write := negb (Z.land flags IOMAP_WRITE =? 0) in
  let hole len fresh := Iomap IOMAP_HOLE pos len IOMAP_NULL_ADDR fresh in
  if negb write && (fi_size f <=? pos) then (0, hole length false, f, s)
  else
    let len :=
      if negb (Z.land flags (Z.lor IOMAP_REPORT IOMAP_WRITE) =? 0) then
        Z.min length (payload - (pos - b * payload))
      else length in
    if write && failed s then (- EIO, hole len false, f, s)
    else
      let '(ret, phys, fresh, f, s) :=
        if write then beamfs_inline_lookup_or_alloc_phys_new c t cpu s f b now
        else let '(ret, phys, s) := beamfs_inline_lookup_phys s f b in (ret, phys, false, f, s) in
      let fresh := (ret =? 0) && fresh in
      let '(ret, s) := gate ret phys s in
      if ret <? 0 then (ret, hole len fresh, f, s)
      else if phys =? 0 then (0, hole len fresh, f, s)
      else (0, Iomap IOMAP_MAPPED pos len (phys * BEAMFS_BLOCK_SIZE) fresh, f, s).

Definition beamfs_inline_iomap_end (kvmalloc_ok : bool) (s : S) (f : finode) (pos length written flags : Z) (m : iomap)
    : finode * S :=
  if (Z.land flags IOMAP_WRITE =? 0) || negb (im_fresh m) then (f, s)
  else if (written <? 0) || (length <=? written) then (f, s)
  else
    let first_unused := DIV_ROUND_UP (pos + written) payload in
    if pos + length <=? first_unused * payload then (f, s)
    else
      let first_past_eof := DIV_ROUND_UP (fi_size f) payload in
      if first_unused <? first_past_eof then (f, s)
      else beamfs_inline_free_blocks_from kvmalloc_ok s f first_unused.

(** ** Reading *)

(** The slices of the blocks that back [p, end), each decoded into its
    place in the folio.  [fetch] gets a block's bytes, or an error. *)
Fixpoint read_slices (fetch : S -> Z -> Z + list Z) (fuel : nat) (s : S) (f : finode) (folio : list Z) (p end_ : Z)
    : Z * list Z * S :=
  match fuel with
  | O => (0, folio, s)
  | Datatypes.S fuel =>
    if end_ <=? p then (0, folio, s)
    else
      let b := p / payload in
      let slice_offset := p - b * payload in
      let slice_length := Z.min (end_ - p) (payload - slice_offset) in
      let folio_off := offset_in_folio p in
      let '(ret, phys, s) := beamfs_inline_lookup_phys s f b in
      if ret <? 0 then (ret, folio, s)
      else if phys =? 0 then
        read_slices fetch fuel s f (folio_zero_range folio folio_off slice_length) (p + slice_length) end_
      else
        match fetch s phys with
        | inl e => (e, folio, s)
        | inr raw =>
          let '(ret, out, calls) :=
            beamfs_inline_decode_block_into_buf c t cpu stk (scratch_get s) raw phys (fi_ino f) b slice_offset slice_length false in
          let s := report s calls in
          if ret <? 0 then (ret, folio, s)
          else read_slices fetch fuel s f (splice folio folio_off out) (p + slice_length) end_
        end
  end.

(** The part of the range beyond the end of the file is zeroed first. *)
Definition read_range (fetch : S -> Z -> Z + list Z) (s : S) (f : finode) (folio : list Z) (pos len : Z) : Z * list Z * S :=
  let end_ := pos + len in
  let '(folio, end_) :=
    if fi_size f <? end_ then
      let eof := Z.max pos (fi_size f) in
      (folio_zero_range folio (offset_in_folio eof) (end_ - eof), eof)
    else (folio, end_) in
  read_slices fetch (Z.to_nat len) s f folio pos end_.

(** The buffer cache first, then the device, into a page of the mount's
    reserve. *)
Definition fetch_read (s : S) (phys : Z) : Z + list Z :=
  if negb (scratch_get s) then inl (- ENOMEM)
  else match bread s phys with None => inl (- EIO) | Some raw => inr raw end.

Definition beamfs_inline_read_folio_range := read_range fetch_read.

(** sb_bread. *)
Definition fetch_write (s : S) (phys : Z) : Z + list Z :=
  match bread s phys with None => inl (- EIO) | Some raw => inr raw end.

Definition beamfs_inline_write_read_folio_range := read_range fetch_write.

(** ** Truncation *)

(** [sync]: what sync_dirty_buffer answers for the block. *)
Definition beamfs_inline_zero_tail_block (sync : Z -> Z) (s : S) (f : finode) (b zero_offset : Z) (now : Z * Z)
    : Z * finode * S :=
  if BEAMFS_DATA_INLINE_BYTES <=? zero_offset then (0, f, s)
  else
    let '(_, _, s) := beamfs_inline_lookup_phys s f b in
    let '(ret, phys, f, s) := beamfs_inline_lookup_or_alloc_phys s f b now in
    let '(ret, s) := gate ret phys s in
    if ret <? 0 then (ret, f, s)
    else if phys =? 0 then (0, f, s)
    else if negb (scratch_get s) then (- ENOMEM, f, s)
    else
      match bread s phys with
      | None => (- EIO, f, s)
      | Some raw =>
        let '(ret, scratch, calls) :=
          beamfs_inline_decode_block_into_buf c t cpu stk (scratch_get s) raw phys (fi_ino f) b 0 BEAMFS_DATA_INLINE_BYTES true in
        let s := report s calls in
        if ret <? 0 then (ret, f, s)
        else
          let scratch := splice scratch zero_offset (zeros (BEAMFS_DATA_INLINE_BYTES - zero_offset)) in
          let '(ret, block) := build_data_block c t cpu raw scratch (fi_ino f) b in
          let s := bput s phys block in
          if ret <? 0 then (ret, f, s) else (sync phys, f, s)
      end.

(** [prepare], [newsize_ok]: the answers of setattr_prepare and
    inode_newsize_ok; [setattr_copy]: what the VFS does with the attributes
    other than the size; [ia_size]: the new size, with ATTR_SIZE. *)
Definition beamfs_inline_setattr (kvmalloc_ok : bool) (sync : Z -> Z) (prepare newsize_ok : Z) (setattr_copy : finode -> finode)
    (s : S) (f : finode) (ia_size : option Z) (now : Z * Z) : Z * finode * S :=
  if negb (prepare =? 0) then (prepare, f, s)
  else
    match ia_size with
    | None => (0, fmark_dirty (setattr_copy f), s)
    | Some new_size =>
      if negb (newsize_ok =? 0) then (newsize_ok, f, s)
      else
        let '(ret, f, s) :=
          if new_size <? fi_size f then
            let f := truncate_setsize f new_size in
            let first_freed := DIV_ROUND_UP new_size payload in
            let tail_off := new_size mod payload in
            let '(ret, f, s) :=
              if negb (tail_off =? 0) && (0 <? new_size) then
                beamfs_inline_zero_tail_block sync s f (new_size / payload) tail_off now
              else (0, f, s) in
            if negb (ret =? 0) then (ret, f, s)
            else let '(f, s) := beamfs_inline_free_blocks_from kvmalloc_ok s f first_freed in (0, f, s)
          else if fi_size f <? new_size then (0, truncate_setsize f new_size, s)
          else (0, f, s) in
        if negb (ret =? 0) then (ret, f, s)
        else (0, fmark_dirty (setattr_copy (fset_ctime f now)), s)
    end.
End io.
