(* ===== verification/FileWriteback.v ===== *)
(** * Writing a file back (file_inline.c)

    One pass of the flusher: every slice of a dirty folio is encoded into a
    page and queued, the block a folio ends in waits for the folio that
    continues it, contiguous blocks share a bio, and a folio is finished
    when the last block that carries its bytes has completed. *)

From stdpp Require Import gmap.
From S2P Require Import Prelude Format Crc RsInit RsLib Edac Dirent Dir FileData FileTree FileIo.

Definition BEAMFS_WB_MAX_BLOCKS : Z := 32.
Definition BEAMFS_BLOCK_SHIFT : Z := 12.
Definition SECTOR_SHIFT : Z := 9.

(** A folio in flight, at the position it has in the file. *)
Record beamfs_wb_folio := WbFolio {
  o_folio : Z;
  o_len : Z;
  o_pending : Z;
  o_abandoned : bool }.

(** An encoded block and the folios it came from, by reference. *)
Record beamfs_wb_block := WbBlock {
  k_phys : Z;
  k_page : list Z;
  k_owner : option Z;
  k_owner2 : option Z }.

(** A bio being built: its blocks, and the sector after them. *)
Record beamfs_wb_ioend := WbIoend {
  io_blk : list beamfs_wb_block;
  io_next : Z }.

(** The boundary block that waits; its bytes are in [wb_pend_payload]. *)
Record wb_pending := WbPending {
  pend_phys : Z;
  pend_b : Z;
  pend_filled : Z;
  pend_next_pos : Z;
  pend_inode : Z;
  pend_owner : option Z }.

Record beamfs_wb := Wb {
  wb_ioend : option beamfs_wb_ioend;
  wb_pend : option wb_pending;         (** have_pend *)
  wb_pend_payload : list Z;
  wb_error : Z }.

(** What a call asks of the kernel: [aliased], whether the buffer cache
    has a copy of a block, which nobody else brings in meanwhile; whether
    the context, the counter of the folio at a position and the ioend of a
    block can be allocated; for a block, whether a page of the pool is
    there without waiting and what it held before. *)
Record wb_kernel := WbKernel {
  aliased : Z -> bool;
  kzalloc_wb : bool;
  kzalloc_owner : Z -> bool;
  kzalloc_io : Z -> bool;
  page_now : Z -> bool;
  pool_page : Z -> list Z }.

Section writeback.
Context {S : Type} `{RL : !RsLib} `{CL : !CrcLib} `{TE : !TreeEnv S}.
Context (c : data_cfg) (t : rs_tables) (cpu : nat) (stk : stack_arrays) (K : wb_kernel) (now : Z * Z).

Abbreviation payload := (beamfs_block_payload c).

(** The volume and the inode, the context of the pass (wpc->wb_ctx), the
    folios by reference and the next reference, the bios submitted and not
    complete, the folios finished and the errors set on the mapping, in
    order. *)
Record wpass := WPass {
  p_env : S;
  p_inode : finode;
  p_ctx : option beamfs_wb;
  p_owners : gmap Z beamfs_wb_folio;
  p_next : Z;
  p_inflight : list (list beamfs_wb_block);
  p_finished : list Z;
  p_errors : list Z }.

Definition W (A : Type) : Type := wpass -> A * wpass.
#[global] Instance W_ret : MRet W := fun A x w => (x, w).
#[global] Instance W_bind : MBind W := fun A B k m w => let '(x, w) := m w in k x w.

Definition get {A} (f : wpass -> A) : W A := fun w => (f w, w).
Definition set_env (s : S) : W unit := fun w =>
  (tt, WPass s (p_inode w) (p_ctx w) (p_owners w) (p_next w) (p_inflight w) (p_finished w) (p_errors w)).
Definition set_inode (f : finode) : W unit := fun w =>
  (tt, WPass (p_env w) f (p_ctx w) (p_owners w) (p_next w) (p_inflight w) (p_finished w) (p_errors w)).
Definition set_ctx (x : option beamfs_wb) : W unit := fun w =>
  (tt, WPass (p_env w) (p_inode w) x (p_owners w) (p_next w) (p_inflight w) (p_finished w) (p_errors w)).
Definition set_owners (o : gmap Z beamfs_wb_folio) : W unit := fun w =>
  (tt, WPass (p_env w) (p_inode w) (p_ctx w) o (p_next w) (p_inflight w) (p_finished w) (p_errors w)).
Definition new_owner (o : beamfs_wb_folio) : W Z := fun w =>
  (p_next w, WPass (p_env w) (p_inode w) (p_ctx w) (<[p_next w := o]> (p_owners w)) (p_next w + 1) (p_inflight w) (p_finished w) (p_errors w)).
Definition set_inflight (q : list (list beamfs_wb_block)) : W unit := fun w =>
  (tt, WPass (p_env w) (p_inode w) (p_ctx w) (p_owners w) (p_next w) q (p_finished w) (p_errors w)).
Definition iomap_finish_folio_write (folio : Z) : W unit := fun w =>
  (tt, WPass (p_env w) (p_inode w) (p_ctx w) (p_owners w) (p_next w) (p_inflight w) (p_finished w ++ [folio]) (p_errors w)).
Definition mapping_set_error (e : Z) : W unit := fun w =>
  (tt, WPass (p_env w) (p_inode w) (p_ctx w) (p_owners w) (p_next w) (p_inflight w) (p_finished w) (p_errors w ++ [e])).

Definition ctx0 : beamfs_wb := Wb None None [] 0.
Definition get_wb : W beamfs_wb := get (fun w => default ctx0 (p_ctx w)).
Definition set_ioend (x : option beamfs_wb_ioend) : W unit :=
  wb ← get_wb; set_ctx (Some (Wb x (wb_pend wb) (wb_pend_payload wb) (wb_error wb))).
Definition set_pend (x : option wb_pending) (bytes : list Z) : W unit :=
  wb ← get_wb; set_ctx (Some (Wb (wb_ioend wb) x bytes (wb_error wb))).
(** The first error stays. *)
Definition keep_error (e : Z) : W unit :=
  wb ← get_wb; if wb_error wb =? 0 then set_ctx (Some (Wb (wb_ioend wb) (wb_pend wb) (wb_pend_payload wb) e)) else mret tt.

(** ** Completion *)

Definition beamfs_wb_folio_done (o : option Z) : W unit :=
  match o with
  | None => mret tt
  | Some id =>
    owners ← get p_owners;
    match owners !! id with
    | None => mret tt
    | Some x =>
      let n := o_pending x - 1 in
      if n =? 0 then
        (if o_abandoned x then mret tt else iomap_finish_folio_write (o_folio x));;
        set_owners (delete id owners)
      else set_owners (<[id := WbFolio (o_folio x) (o_len x) n (o_abandoned x)]> owners)
    end
  end.

Definition is_owner (o : option Z) : bool := match o with Some _ => true | None => false end.

(** One block of a bio: the device has it, unless the bio failed. *)
Definition end_block (failed : bool) (blk : beamfs_wb_block) : W unit :=
  (if failed then
     (if is_owner (k_owner blk) then mapping_set_error (- EIO) else mret tt);;
     (if is_owner (k_owner2 blk) then mapping_set_error (- EIO) else mret tt)
   else mret tt);;
  beamfs_wb_folio_done (k_owner blk);;
  beamfs_wb_folio_done (k_owner2 blk).

(** What a read finds once the device has written the block: a copy in the
    buffer cache hides the device. *)
Definition dev_write (blk : beamfs_wb_block) : W unit :=
  if aliased K (k_phys blk) then mret tt
  else s ← get p_env; set_env (bput s (k_phys blk) (k_page blk)).

Fixpoint for_each {A} (f : A -> W unit) (l : list A) : W unit :=
  match l with [] => mret tt | x :: l => f x;; for_each f l end.

(** The bio number [k] of those submitted completes. *)
Definition beamfs_wb_end_bio (k : nat) (failed : bool) : W unit :=
  q ← get p_inflight;
  match q !! k with
  | None => mret tt
  | Some blks =>
    set_inflight (delete k q);;
    (if failed then mret tt else for_each dev_write blks);;
    for_each (end_block failed) blks
  end.

(** ** Queueing *)

Definition beamfs_wb_submit_ioend : W unit :=
  wb ← get_wb;
  match wb_ioend wb with
  | None => mret tt
  | Some io =>
    set_ioend None;;
    q ← get p_inflight;
    set_inflight (q ++ [io_blk io])
  end.

(** A page, in the end; what is held goes first if there is a wait. *)
Definition beamfs_wb_page (phys : Z) : W (list Z) :=
  (if page_now K phys then mret tt else beamfs_wb_submit_ioend);; mret (pool_page K phys).

Definition beamfs_wb_sync_alias (phys : Z) (block : list Z) : W unit :=
  if aliased K phys then s ← get p_env; set_env (bput s phys block) else mret tt.

Definition beamfs_wb_queue (b phys : Z) (bytes : list Z) (owner owner2 : option Z) : W Z :=
  let sector := Z.shiftl phys (BEAMFS_BLOCK_SHIFT - SECTOR_SHIFT) in
  page ← beamfs_wb_page phys;
  f ← get p_inode;
  let '(ret, block) := build_data_block c t cpu page bytes (fi_ino f) b in
  if ret <? 0 then mret ret
  else
    beamfs_wb_sync_alias phys block;;
    wb ← get_wb;
    (match wb_ioend wb with
     | Some io => if (zlen (io_blk io) =? BEAMFS_WB_MAX_BLOCKS) || negb (io_next io =? sector) then beamfs_wb_submit_ioend else mret tt
     | None => mret tt
     end);;
    wb ← get_wb;
    let add io := set_ioend (Some (WbIoend (io_blk io ++ [WbBlock phys block owner owner2])
                    (io_next io + Z.shiftr BEAMFS_BLOCK_SIZE SECTOR_SHIFT)));; mret 0 in
    match wb_ioend wb with
    | Some io => add io
    | None => if negb (kzalloc_io K phys) then mret (- ENOMEM) else add (WbIoend [] sector)
    end.

(** An error, or the bytes the block holds now. *)
Definition beamfs_wb_read_old (b phys : Z) : W (Z + list Z) :=
  s ← get p_env;
  f ← get p_inode;
  if negb (scratch_get s) then mret (inl (- ENOMEM))
  else
    match bread s phys with
    | None => mret (inl (- EIO))
    | Some raw =>
      let '(ret, out, calls) :=
        beamfs_inline_decode_block_into_buf c t cpu stk (scratch_get s) raw phys (fi_ino f) b 0 BEAMFS_DATA_INLINE_BYTES true in
      set_env (report s calls);;
      mret (if ret <? 0 then inl ret else inr out)
    end.

Definition beamfs_wb_flush_pending : W Z :=
  wb ← get_wb;
  match wb_pend wb with
  | None => mret 0
  | Some pd =>
    let owner := pend_owner pd in
    set_pend None (wb_pend_payload wb);;
    s ← get p_env;
    ret ← (if negb (scratch_get s) then mret (- ENOMEM)
           else
             r ← beamfs_wb_read_old (pend_b pd) (pend_phys pd);
             match r with
             | inl e => mret e
             | inr old =>
               let old := splice old 0 (slice (wb_pend_payload wb) 0 (pend_filled pd)) in
               beamfs_wb_queue (pend_b pd) (pend_phys pd) old owner None
             end);
    if ret =? 0 then mret 0
    else
      (if is_owner owner then mapping_set_error ret;; beamfs_wb_folio_done owner else mret tt);;
      keep_error ret;;
      mret ret
  end.

(** ** One folio *)

Definition beamfs_wb_get : W bool :=
  x ← get p_ctx;
  s ← get p_env;
  match x with
  | Some _ => mret true
  | None =>
    if negb (kzalloc_wb K) || negb (scratch_get s) then mret false
    else set_ctx (Some (Wb None None (zeros BEAMFS_BLOCK_SIZE) 0));; mret true
  end.

(** The block of a slice: the lookup, then the lookup that allocates. *)
Definition slice_phys (b : Z) : W (Z + Z) :=
  s ← get p_env;
  f ← get p_inode;
  let '(_, _, s) := beamfs_inline_lookup_phys s f b in
  let '(ret, phys, f, s) := beamfs_inline_lookup_or_alloc_phys c t cpu s f b now in
  set_env s;;
  set_inode f;;
  mret (if ret <? 0 then inl ret else if phys =? 0 then inl (- EIO) else inr phys).

Definition flush_first (k : W Z) : W Z :=
  wb ← get_wb;
  match wb_pend wb with
  | None => k
  | Some _ => ret ← beamfs_wb_flush_pending; if ret <? 0 then mret ret else k
  end.

(** The continuation of the block that waits: its bytes, then the rest from
    the medium when the folio stops short of its end. *)
Definition slice_continue (pd : wb_pending) (b phys slice_offset slice_length : Z) (src : list Z) (owner : Z) : W Z :=
  wb ← get_wb;
  let first := pend_owner pd in
  let bytes := splice (wb_pend_payload wb) slice_offset src in
  let filled := pend_filled pd + slice_length in
  set_pend None bytes;;
  ret ← (if filled <? payload then
           r ← beamfs_wb_read_old b phys;
           match r with
           | inl e => mret e
           | inr old => beamfs_wb_queue b phys (splice old 0 (slice bytes 0 filled)) first (Some owner)
           end
         else beamfs_wb_queue b phys bytes first (Some owner));
  if ret <? 0 then beamfs_wb_folio_done first;; mret ret else mret 0.

(** A slice inside a block that does not wait: what the block holds, with
    the slice over it. *)
Definition slice_partial (b phys slice_offset : Z) (src : list Z) (owner : Z) : W Z :=
  r ← beamfs_wb_read_old b phys;
  match r with
  | inl e => mret e
  | inr old => beamfs_wb_queue b phys (splice old slice_offset src) (Some owner) None
  end.

(** The bytes of a slice of the folio; then as the slice lies in its
    block.  A page of scratch is 4096 bytes, of which the block takes the
    payload; what lies beyond is given as zero. *)
Definition writeback_slice (folio : list Z) (p end_ : Z) (owner : Z) : W Z :=
  let b := p / payload in
  let slice_offset := p - b * payload in
  let slice_length := Z.min (end_ - p) (payload - slice_offset) in
  let src := slice folio (offset_in_folio p) slice_length in
  r ← slice_phys b;
  match r with
  | inl e => mret e
  | inr phys =>
    wb ← get_wb;
    f ← get p_inode;
    if negb (slice_offset =? 0) then
      match wb_pend wb with
      | Some pd =>
        if (pend_b pd =? b) && (pend_phys pd =? phys) && (pend_filled pd =? slice_offset) then
          slice_continue pd b phys slice_offset slice_length src owner
        else flush_first (slice_partial b phys slice_offset src owner)
      | None => slice_partial b phys slice_offset src owner
      end
    else if slice_length =? payload then
      flush_first (beamfs_wb_queue b phys (splice (zeros BEAMFS_BLOCK_SIZE) 0 src) (Some owner) None)
    else
      flush_first (
        wb ← get_wb;
        set_pend (Some (WbPending phys b slice_length (p + slice_length) (fi_ino f) (Some owner)))
          (splice (wb_pend_payload wb) 0 src);;
        mret 0)
  end.

(** Returns the code and the number of slices queued. *)
Fixpoint writeback_slices (fuel : nat) (folio : list Z) (p end_ : Z) (owner queued : Z) : W (Z * Z) :=
  match fuel with
  | O => mret (0, queued)
  | Datatypes.S fuel =>
    if end_ <=? p then mret (0, queued)
    else
      let slice_length := Z.min (end_ - p) (payload - (p - p / payload * payload)) in
      ret ← writeback_slice folio p end_ owner;
      if ret <? 0 then mret (ret, queued)
      else writeback_slices fuel folio (p + slice_length) end_ owner (queued + 1)
  end.

(** [folio] holds the bytes of the file's page at [pos]. *)
Definition beamfs_inline_writeback_range (folio : list Z) (pos len : Z) : W Z :=
  ok ← beamfs_wb_get;
  if negb ok then mret (- ENOMEM)
  else
    let end_ := pos + len in
    let nslices := (end_ - 1) / payload - pos / payload + 1 in
    if negb (kzalloc_owner K pos) then mret (- ENOMEM)
    else
      s ← get p_env;
      if negb (scratch_get s) then mret (- ENOMEM)
      else
        owner ← new_owner (WbFolio pos len nslices false);
        wb ← get_wb;
        f ← get p_inode;
        ret ← (match wb_pend wb with
               | Some pd =>
                 if negb (pend_inode pd =? fi_ino f) || negb (pend_next_pos pd =? pos) then beamfs_wb_flush_pending else mret 0
               | None => mret 0
               end);
        r ← (if ret <? 0 then mret (ret, 0) else writeback_slices (Z.to_nat len) folio pos end_ owner 0);
        let '(ret, queued) := r in
        if ret <? 0 then
          owners ← get p_owners;
          (match owners !! owner with
           | None => mret tt
           | Some x =>
             let n := if queued <? nslices then o_pending x - (nslices - queued) else o_pending x in
             if (queued <? nslices) && (n =? 0) then set_owners (delete owner owners)
             else set_owners (<[owner := WbFolio (o_folio x) (o_len x) n true]> owners)
           end);;
          keep_error ret;;
          mret ret
        else mret len.

(** ** The end of the pass *)

Definition beamfs_inline_writeback_submit (error : Z) : W Z :=
  x ← get p_ctx;
  match x with
  | None => mret error
  | Some _ =>
    ret ← beamfs_wb_flush_pending;
    beamfs_wb_submit_ioend;;
    wb ← get_wb;
    set_ctx None;;
    mret (if error =? 0 then (if ret <? 0 then ret else wb_error wb) else error)
  end.
End writeback.
Arguments wpass : clear implicits.
Arguments W : clear implicits.

(** ** The calls of a pass, in the order the kernel makes them *)

(** A folio, the end of a pass, the completion of a bio; each with what the
    kernel answers meanwhile. *)
Inductive wb_event :=
  | WbRange (K : wb_kernel) (folio : list Z) (pos len : Z)
  | WbSubmit (K : wb_kernel) (error : Z)
  | WbEndBio (K : wb_kernel) (k : nat) (failed : bool).

Section run.
Context {S : Type} `{RL : !RsLib} `{CL : !CrcLib} `{TE : !TreeEnv S}.
Context (c : data_cfg) (t : rs_tables) (cpu : nat) (stk : stack_arrays) (now : Z * Z).

(** The folio the call took over, if it took one. *)
Definition wb_step (e : wb_event) : W S (list Z) :=
  match e with
  | WbRange K folio pos len =>
    r ← beamfs_inline_writeback_range c t cpu stk K now folio pos len; mret (if r <? 0 then [] else [pos])
  | WbSubmit K error => beamfs_inline_writeback_submit c t cpu stk K error;; mret []
  | WbEndBio K k failed => beamfs_wb_end_bio K k failed;; mret []
  end.

Fixpoint wb_run (l : list wb_event) : W S (list Z) :=
  match l with [] => mret [] | e :: l => r ← wb_step e; rs ← wb_run l; mret (r ++ rs) end.
End run.
