(* ===== verification/WbCount.v ===== *)
(** * Every folio of a writeback pass is finished once

    The counter of a folio is the number of blocks, queued or waiting, that
    carry its bytes, whatever fails and in whatever order bios complete. *)

From stdpp Require Import gmap.
From S2P Require Import Prelude Format Crc RsInit RsLib Edac Dirent Dir FileData FileTree FileIo FileWriteback.

Section wp.
Context {S : Type}.

Definition wpw {A} (m : W S A) (w : wpass S) (Post : A -> wpass S -> Prop) : Prop := Post (fst (m w)) (snd (m w)).

Lemma wpw_ret {A} (a : A) w (Post : A -> wpass S -> Prop) : Post a w -> wpw (mret a) w Post.
Proof. done. Qed.
Lemma wpw_bind {A B} (m : W S A) (k : A -> W S B) w Post : wpw m w (fun a w => wpw (k a) w Post) -> wpw (x ← m; k x) w Post.
Proof. unfold wpw, mbind, W_bind. by destruct (m w). Qed.
Lemma wpw_mono {A} (m : W S A) w (P Post : A -> wpass S -> Prop) : wpw m w P -> (forall a w, P a w -> Post a w) -> wpw m w Post.
Proof. unfold wpw. auto. Qed.
Lemma wpw_get {A} (f : wpass S -> A) w Post : Post (f w) w -> wpw (get f) w Post.
Proof. done. Qed.
End wp.

(** Runs the steps that only read or write a field. *)
Ltac wrun :=
  cbv [wpw mbind W_bind mret W_ret get get_wb set_env set_inode set_ctx set_owners new_owner set_inflight iomap_finish_folio_write
       mapping_set_error set_ioend set_pend];
  cbn [fst snd p_env p_inode p_ctx p_owners p_next p_inflight p_finished p_errors].

Section count.
Context {S : Type} `{RL : !RsLib} `{CL : !CrcLib} `{TE : !TreeEnv S}.
Context (c : data_cfg) (t : rs_tables) (cpu : nat) (stk : stack_arrays) (K : wb_kernel) (now : Z * Z).

Abbreviation wpass := (wpass S).

(** ** References *)

Definition is_ref (id : Z) (o : option Z) : Z := if decide (o = Some id) then 1 else 0.
Definition block_refs (id : Z) (b : beamfs_wb_block) : Z := is_ref id (k_owner b) + is_ref id (k_owner2 b).
Definition list_refs (id : Z) (l : list beamfs_wb_block) : Z := foldr (fun b n => block_refs id b + n) 0 l.

Definition wb_of (w : wpass) : beamfs_wb := default ctx0 (p_ctx w).
Definition ioend_blocks (w : wpass) : list beamfs_wb_block := match wb_ioend (wb_of w) with Some io => io_blk io | None => [] end.
Definition queued_blocks (w : wpass) : list beamfs_wb_block := concat (p_inflight w) ++ ioend_blocks w.
Definition pend_ref (id : Z) (w : wpass) : Z := match wb_pend (wb_of w) with Some pd => is_ref id (pend_owner pd) | None => 0 end.
Definition refs (w : wpass) (id : Z) : Z := list_refs id (queued_blocks w) + pend_ref id w.

Lemma is_ref_range id o : 0 <= is_ref id o <= 1.
Proof. unfold is_ref. case_decide; lia. Qed.

Lemma list_refs_app id l l' : list_refs id (l ++ l') = list_refs id l + list_refs id l'.
Proof. induction l as [|b l IH]; [done|]. cbn [app list_refs foldr]. fold (list_refs id (l ++ l')) (list_refs id l). lia. Qed.

Lemma list_refs_nonneg id l : 0 <= list_refs id l.
Proof.
  induction l as [|b l IH]; [done|]. cbn [list_refs foldr]. fold (list_refs id l). unfold block_refs.
  pose proof (is_ref_range id (k_owner b)). pose proof (is_ref_range id (k_owner2 b)). lia.
Qed.

Lemma refs_nonneg w id : 0 <= refs w id.
Proof.
  unfold refs, pend_ref. pose proof (list_refs_nonneg id (queued_blocks w)). destruct (wb_pend (wb_of w)) as [pd|]; [|lia].
  pose proof (is_ref_range id (pend_owner pd)). lia.
Qed.

(** ** The invariant *)

(** The folios that will be finished. *)
Definition live (w : wpass) : list Z := o_folio <$> (snd <$> map_to_list (filter (fun x => o_abandoned (snd x) = false) (p_owners w))).

(** [F]: what is known of the folio of a reference. *)
Context (F : Z -> Z -> bool -> Prop).

(** [D]: references a call in progress still owes; [L]: the folios handed
    over and not given up. *)
Record counted (D : Z -> Z) (L : list Z) (w : wpass) : Prop := {
  ct_owed id : 0 <= D id;
  ct_count id : match p_owners w !! id with Some x => o_pending x = refs w id + D id /\ 0 < o_pending x | None => refs w id + D id = 0 end;
  ct_fresh id : is_Some (p_owners w !! id) -> id < p_next w;
  ct_known id x : p_owners w !! id = Some x -> F id (o_folio x) (o_abandoned x);
  ct_live : p_finished w ++ live w ≡ₚ L }.

Abbreviation kept := (filter (fun x : Z * beamfs_wb_folio => o_abandoned (snd x) = false)).
Abbreviation places m := (o_folio <$> (snd <$> map_to_list (kept m))).

Lemma live_insert (m : gmap Z beamfs_wb_folio) id x : m !! id = None ->
  places (<[id := x]> m) ≡ₚ (if o_abandoned x then [] else [o_folio x]) ++ places m.
Proof.
  intros Hn. assert (Hk : kept m !! id = None) by (by apply map_lookup_filter_None_2; left). destruct (o_abandoned x) eqn:E.
  - rewrite map_filter_insert_False by (cbn; congruence). by rewrite delete_id.
  - rewrite map_filter_insert_True by done. by rewrite map_to_list_insert.
Qed.

Lemma live_delete (m : gmap Z beamfs_wb_folio) id x : m !! id = Some x ->
  places m ≡ₚ (if o_abandoned x then [] else [o_folio x]) ++ places (delete id m).
Proof. intros Hx. rewrite <- (live_insert _ id) by apply lookup_delete_eq. by rewrite insert_delete_id. Qed.

(** ** What a step may do *)

(** Nothing of what is counted changes, except that [l] is queued. *)
Record moved (l : list beamfs_wb_block) (w w' : wpass) : Prop := {
  mv_owners : p_owners w' = p_owners w;
  mv_next : p_next w' = p_next w;
  mv_finished : p_finished w' = p_finished w;
  mv_pend : wb_pend (wb_of w') = wb_pend (wb_of w);
  mv_queued : queued_blocks w' = queued_blocks w ++ l }.

Lemma moved_nil w w' : p_owners w' = p_owners w -> p_next w' = p_next w -> p_finished w' = p_finished w -> p_inflight w' = p_inflight w ->
  wb_pend (wb_of w') = wb_pend (wb_of w) -> wb_ioend (wb_of w') = wb_ioend (wb_of w) -> moved [] w w'.
Proof. intros ? ? ? Hi ? He. split; [done..|]. unfold queued_blocks, ioend_blocks. by rewrite Hi, He, app_nil_r. Qed.

Lemma moved_refl w : moved [] w w.
Proof. by apply moved_nil. Qed.

Lemma moved_app l l' w w' w'' : moved l w w' -> moved l' w' w'' -> moved (l ++ l') w w''.
Proof. intros [? ? ? ? Hq] [? ? ? ? Hq']. split; try congruence. by rewrite Hq', Hq, app_assoc. Qed.

Lemma moved_counted l D L w w' : moved l w w' -> counted D L w ->
  (forall id, list_refs id l <= D id) -> counted (fun id => D id - list_refs id l) L w'.
Proof.
  intros [Ho Hn Hf Hp Hq] [H0 Hc Hfr Hk Hl] Hle. split.
  - intros id. specialize (Hle id). lia.
  - intros id. specialize (Hc id). rewrite Ho. unfold refs, pend_ref in *. rewrite Hq, Hp, list_refs_app.
    destruct (p_owners w !! id); lia.
  - intros id. rewrite Ho, Hn. apply Hfr.
  - intros id x. rewrite Ho. apply Hk.
  - unfold live. by rewrite Hf, Ho.
Qed.

Lemma counted_ext D D' L w : (forall id, D id = D' id) -> counted D L w -> counted D' L w.
Proof. intros He [H0 Hc Hf Hk Hl]. split; [intros id; by rewrite <- He|intros id; specialize (Hc id); by rewrite <- He|done..]. Qed.

Lemma counted_moved D L w w' : moved [] w w' -> counted D L w -> counted D L w'.
Proof.
  intros Hm Hc. eapply counted_ext; [|eapply moved_counted; [exact Hm|exact Hc|]]; intros id; [cbn; lia|]. cbn. apply (ct_owed _ _ _ Hc).
Qed.

(** The parts of a pass the counters are about, besides the owners. *)
Definition same_queue (w w' : wpass) : Prop := p_inflight w' = p_inflight w /\ p_ctx w' = p_ctx w.

Lemma same_queue_refs w w' id : same_queue w w' -> refs w' id = refs w id.
Proof. intros [Hi Hc]. unfold refs, queued_blocks, ioend_blocks, pend_ref, wb_of. by rewrite Hi, Hc. Qed.

(** A reference given back: the last one finishes the folio. *)
Lemma done_spec D L o w : counted D L w -> (forall id, is_ref id o <= D id) ->
  wpw (beamfs_wb_folio_done o) w (fun _ w' => counted (fun id => D id - is_ref id o) L w' /\ same_queue w w').
Proof.
  intros Hc Hle. pose proof Hc as [H0 Hct Hf Hk Hl]. destruct o as [i|]; cbn [beamfs_wb_folio_done].
  2:{ apply wpw_ret. split; [|done]. eapply counted_ext; [|exact Hc]. intros id. cbn. unfold is_ref. rewrite decide_False by done. lia. }
  assert (Hi1 : 1 <= D i) by (specialize (Hle i); unfold is_ref in Hle; by rewrite decide_True in Hle).
  apply wpw_bind, wpw_get. pose proof (Hct i) as Hi. destruct (p_owners w !! i) as [x|] eqn:Ex; [|pose proof (refs_nonneg w i); lia].
  destruct Hi as [Hi _]. pose proof (refs_nonneg w i) as Hr. cbv zeta.
  assert (Hdel : forall j, j <> i -> D j - is_ref j (Some i) = D j) by (intros j Hj; unfold is_ref; rewrite decide_False by congruence; lia).
  assert (Hsame : D i - is_ref i (Some i) = D i - 1) by (unfold is_ref; by rewrite decide_True).
  pose proof (live_delete _ _ _ Ex) as Hlive.
  destruct (Z.eqb_spec (o_pending x - 1) 0) as [E|E].
  - destruct (o_abandoned x) eqn:Ea; wrun.
    all: split; [|done]; split; cbn [p_owners p_next p_finished].
    all: try (intros id; destruct (decide (id = i)) as [->|Hn]; [lia|rewrite Hdel by done; apply H0]).
    all: try (intros id; destruct (decide (id = i)) as [->|Hn];
      [rewrite lookup_delete_eq; rewrite Hsame, (same_queue_refs w) by done; lia
      |rewrite lookup_delete_ne, Hdel, (same_queue_refs w) by done; apply Hct]).
    all: try (intros id [y Hy]; apply lookup_delete_Some in Hy as [_ Hy]; apply Hf; by eexists).
    all: try (intros id y Hy; apply lookup_delete_Some in Hy as [_ Hy]; by apply Hk).
    all: unfold live in *; cbn; rewrite <- Hl, Hlive; cbn; by rewrite <- ?app_assoc.
  - wrun. split; [|done]. split; cbn [p_owners p_next p_finished].
    + intros id. destruct (decide (id = i)) as [->|Hn]; [lia|rewrite Hdel by done; apply H0].
    + intros id. destruct (decide (id = i)) as [->|Hn].
      * rewrite lookup_insert_eq. cbn. rewrite Hsame, (same_queue_refs w) by done. lia.
      * rewrite lookup_insert_ne, Hdel, (same_queue_refs w) by done. apply Hct.
    + intros id [y Hy]. apply lookup_insert_Some in Hy as [[<- _]|[_ Hy]]; apply Hf; by eexists.
    + intros id y Hy. apply lookup_insert_Some in Hy as [[<- <-]|[_ Hy]]; [apply (Hk i x Ex)|by apply Hk].
    + unfold live in *. cbn. rewrite <- Hl, Hlive. rewrite <- insert_delete_eq, live_insert by apply lookup_delete_eq. done.
Qed.

(** ** Queueing *)

Lemma submit_ioend_spec w : wpw beamfs_wb_submit_ioend w (fun _ w' => moved [] w w' /\ wb_ioend (wb_of w') = None).
Proof.
  unfold beamfs_wb_submit_ioend. apply wpw_bind. unfold get_wb. apply wpw_get. fold (wb_of w).
  destruct (wb_ioend (wb_of w)) as [io|] eqn:E; [|apply wpw_ret; split; [apply moved_refl|done]].
  wrun. split; [|done]. split; cbn [p_owners p_next p_finished]; try done.
  unfold queued_blocks, ioend_blocks. rewrite E. cbn. rewrite concat_app. cbn. by rewrite !app_nil_r.
Qed.

Lemma page_spec phys w : wpw (beamfs_wb_page K phys) w (fun pg w' => pg = pool_page K phys /\ moved [] w w').
Proof.
  unfold beamfs_wb_page. apply wpw_bind. destruct (page_now K phys).
  - apply wpw_ret, wpw_ret. split; [done|apply moved_refl].
  - eapply wpw_mono; [apply submit_ioend_spec|]. intros _ w' [Hm _]. apply wpw_ret. done.
Qed.

Lemma sync_alias_spec phys block w : wpw (beamfs_wb_sync_alias K phys block) w (fun _ w' => moved [] w w').
Proof. unfold beamfs_wb_sync_alias. destruct (aliased K phys); wrun; by apply moved_nil. Qed.

(** Queued whole, or not at all. *)
Lemma queue_spec b phys bytes o o2 w :
  wpw (beamfs_wb_queue c t cpu K b phys bytes o o2) w
    (fun r w' => (r = 0 /\ exists block, moved [WbBlock phys block o o2] w w') \/ (r < 0 /\ moved [] w w')).
Proof.
  unfold beamfs_wb_queue. apply wpw_bind. eapply wpw_mono; [apply page_spec|]. cbv beta. intros pg w1 [-> Hm1].
  apply wpw_bind, wpw_get. destruct (build_data_block _ _ _ _ _ _ _) as [ret block].
  destruct (Z.ltb_spec ret 0) as [Hr|Hr]; [apply wpw_ret; by right|].
  apply wpw_bind. eapply wpw_mono; [apply sync_alias_spec|]. cbv beta. intros _ w2 Hm2.
  apply wpw_bind. unfold get_wb at 1. apply wpw_get. apply wpw_bind. fold (wb_of w2).
  apply (wpw_mono _ _ (fun _ w' => moved [] w2 w')).
  { destruct (wb_ioend (wb_of w2)) as [io|]; [|apply wpw_ret, moved_refl].
    destruct (_ || _); [|apply wpw_ret, moved_refl]. eapply wpw_mono; [apply submit_ioend_spec|]. by intros _ w' [? _]. }
  intros _ w3 Hm3. apply wpw_bind. unfold get_wb at 1. apply wpw_get. fold (wb_of w3). cbv zeta.
  pose proof (moved_app _ _ _ _ _ (moved_app _ _ _ _ _ Hm1 Hm2) Hm3) as Hm. cbn in Hm.
  assert (Hadd : forall io w', w' = snd (set_ioend (Some (WbIoend (io_blk io ++ [WbBlock phys block o o2])
      (io_next io + Z.shiftr BEAMFS_BLOCK_SIZE SECTOR_SHIFT))) w3) -> io_blk io = ioend_blocks w3 -> moved [WbBlock phys block o o2] w w').
  { intros io w' -> Hio. eapply (moved_app [] [WbBlock phys block o o2]); [exact Hm|]. wrun. split; try done. unfold queued_blocks, ioend_blocks. cbn.
    rewrite Hio. by rewrite <- app_assoc. }
  destruct (wb_ioend (wb_of w3)) as [io|] eqn:Eio.
  - left. split; [done|]. exists block. apply (Hadd io); [done|]. unfold ioend_blocks. by rewrite Eio.
  - destruct (kzalloc_io K phys); cbn [negb]; [|apply wpw_ret; right; split; [done|exact Hm]].
    left. split; [done|]. exists block. apply (Hadd (WbIoend [] (Z.shiftl phys (BEAMFS_BLOCK_SHIFT - SECTOR_SHIFT)))); [done|]. unfold ioend_blocks. by rewrite Eio.
Qed.

Lemma read_old_spec b phys w :
  wpw (beamfs_wb_read_old c t cpu stk b phys) w (fun r w' => moved [] w w' /\ forall e, r = inl e -> e < 0).
Proof.
  unfold beamfs_wb_read_old. do 2 apply wpw_bind, wpw_get. cbn [negb].
  destruct (scratch_get (p_env w)); cbn [negb]; [|apply wpw_ret; split; [apply moved_refl|by intros e [= <-]]].
  destruct (bread (p_env w) phys) as [raw|]; [|apply wpw_ret; split; [apply moved_refl|by intros e [= <-]]].
  destruct (beamfs_inline_decode_block_into_buf _ _ _ _ _ _ _ _ _ _ _ _) as [[ret out] calls].
  wrun. split; [by apply moved_nil|]. intros e. destruct (Z.ltb_spec ret 0); [by intros [= <-]|done].
Qed.

(** ** The block that waits *)

Lemma pend_taken D L w pd bytes : wb_pend (wb_of w) = Some pd -> counted D L w ->
  wpw (set_pend None bytes) w (fun _ w' => counted (fun id => D id + is_ref id (pend_owner pd)) L w' /\ wb_pend (wb_of w') = None).
Proof.
  intros Hp [H0 Hc Hf Hk Hl]. wrun. split; [|done]. split; cbn [p_owners p_next p_finished]; try done.
  - intros id. pose proof (is_ref_range id (pend_owner pd)). specialize (H0 id). lia.
  - intros id. specialize (Hc id). unfold refs, pend_ref, queued_blocks, ioend_blocks in *. rewrite Hp in Hc.
    unfold wb_of, Datatypes.id in *. cbn [p_ctx p_inflight from_option wb_pend wb_ioend] in *.
    destruct (p_owners w !! id); lia.
Qed.

Lemma pend_left D L w pd bytes : wb_pend (wb_of w) = None -> (forall id, is_ref id (pend_owner pd) <= D id) -> counted D L w ->
  wpw (set_pend (Some pd) bytes) w (fun _ w' => counted (fun id => D id - is_ref id (pend_owner pd)) L w').
Proof.
  intros Hp Hle [H0 Hc Hf Hk Hl]. wrun. split; cbn [p_owners p_next p_finished]; try done.
  - intros id. specialize (Hle id). lia.
  - intros id. specialize (Hc id). unfold refs, pend_ref, queued_blocks, ioend_blocks in *. rewrite Hp in Hc.
    unfold wb_of, Datatypes.id in *. cbn [p_ctx p_inflight from_option wb_pend wb_ioend] in *.
    destruct (p_owners w !! id); lia.
Qed.

Lemma keep_error_spec e w : wpw (keep_error e) w (fun _ w' => moved [] w w').
Proof. unfold keep_error. apply wpw_bind. unfold get_wb. apply wpw_get. destruct (_ =? 0); wrun; by apply moved_nil. Qed.

Lemma list_refs_one id phys block o o2 : list_refs id [WbBlock phys block o o2] = is_ref id o + is_ref id o2.
Proof. cbn. unfold block_refs. cbn. lia. Qed.

(** The block the pass queues takes over the references it is given. *)
Lemma queue_counted D L b phys bytes o o2 w : counted D L w -> (forall id, is_ref id o + is_ref id o2 <= D id) ->
  wpw (beamfs_wb_queue c t cpu K b phys bytes o o2) w
    (fun r w' => wb_pend (wb_of w') = wb_pend (wb_of w) /\
      ((r = 0 /\ counted (fun id => D id - (is_ref id o + is_ref id o2)) L w') \/ (r < 0 /\ counted D L w'))).
Proof.
  intros Hc Hle. eapply wpw_mono; [apply queue_spec|]. cbv beta. intros r w' [[-> [block Hm]]|[Hr Hm]].
  - split; [apply (mv_pend _ _ _ Hm)|]. left. split; [done|].
    eapply counted_ext; [|eapply moved_counted; [exact Hm|exact Hc|]]; intros id; cbv beta; rewrite list_refs_one; [lia|apply Hle].
  - split; [apply (mv_pend _ _ _ Hm)|]. right. split; [done|]. by eapply counted_moved.
Qed.

Lemma flush_spec D L w : counted D L w ->
  wpw (beamfs_wb_flush_pending c t cpu stk K) w (fun r w' => r <= 0 /\ counted D L w' /\ wb_pend (wb_of w') = None).
Proof.
  intros Hc. unfold beamfs_wb_flush_pending. apply wpw_bind. unfold get_wb at 1. apply wpw_get. fold (wb_of w).
  destruct (wb_pend (wb_of w)) as [pd|] eqn:Ep; [|apply wpw_ret; done]. cbv zeta.
  apply wpw_bind. eapply wpw_mono; [by apply pend_taken|]. cbv beta. intros _ w1 [Hc1 Hp1].
  apply wpw_bind, wpw_get. apply wpw_bind.
  set (D1 := fun id => D id + is_ref id (pend_owner pd)) in *.
  apply (wpw_mono _ _ (fun r w' => wb_pend (wb_of w') = None /\ ((r = 0 /\ counted D L w') \/ (r < 0 /\ counted D1 L w')))).
  { destruct (scratch_get (p_env w1)); cbn [negb]; [|apply wpw_ret; split; [done|by right]].
    apply wpw_bind. eapply wpw_mono; [apply read_old_spec|]. cbv beta. intros [e|old] w2 [Hm He].
    { apply wpw_ret. split; [by rewrite (mv_pend _ _ _ Hm)|]. right. split; [by apply He|]. by eapply counted_moved. }
    eapply wpw_mono; [eapply (queue_counted D1 L); [by eapply counted_moved|]|].
    - intros id. unfold D1. pose proof (ct_owed _ _ _ Hc id). unfold is_ref at 2. rewrite decide_False by done. lia.
    - cbv beta. intros r w3 [Hp3 Hr]. split; [by rewrite Hp3, (mv_pend _ _ _ Hm)|]. destruct Hr as [[-> Hc3]|?]; [left|by right].
      split; [done|]. eapply counted_ext; [|exact Hc3]. intros id. cbv beta. unfold D1, is_ref. rewrite (decide_False (P := None = Some id)) by done. lia. }
  intros r w2 [Hp2 [[-> Hc2]|[Hr Hc2]]]; [apply wpw_ret; done|]. destruct (Z.eqb_spec r 0) as [->|Hn]; [lia|].
  apply wpw_bind. apply (wpw_mono _ _ (fun _ w' => counted D L w' /\ wb_pend (wb_of w') = None)).
  - destruct (pend_owner pd) as [i|] eqn:Eo; cbn [is_owner].
    + apply wpw_bind. apply (wpw_mono _ _ (fun _ w' => moved [] w2 w')); [wrun; by apply moved_nil|]. intros _ w3 Hm.
      eapply wpw_mono; [apply (done_spec D1 L); [by eapply counted_moved|]|].
      * intros id. unfold D1. pose proof (ct_owed _ _ _ Hc id). lia.
      * cbv beta. intros _ w4 [Hc4 [_ Hq]]. split; [|unfold wb_of; rewrite Hq; fold (wb_of w3); by rewrite (mv_pend _ _ _ Hm)].
        eapply counted_ext; [|exact Hc4]. intros id. cbv beta. unfold D1. lia.
    + apply wpw_ret. split; [|done]. eapply counted_ext; [|exact Hc2]. intros id. unfold D1, is_ref. rewrite decide_False by done. lia.
  - intros _ w3 [Hc3 Hp3]. apply wpw_bind. eapply wpw_mono; [apply keep_error_spec|]. cbv beta. intros _ w4 Hm4. apply wpw_ret.
    split; [lia|]. split; [by eapply counted_moved|]. by rewrite (mv_pend _ _ _ Hm4).
Qed.

(** ** One folio *)

(** A slice that succeeds takes one of the references the folio has left;
    one that fails takes none. *)
Definition takes (D : Z -> Z) (L : list Z) (o : Z) (r : Z) (w : wpass) : Prop :=
  (r = 0 /\ counted (fun id => D id - is_ref id (Some o)) L w) \/ (r < 0 /\ counted D L w).

Lemma is_ref_none id : is_ref id None = 0.
Proof. unfold is_ref. by rewrite decide_False. Qed.

Lemma owner_has D o : 1 <= D o -> (forall id, 0 <= D id) -> forall id, is_ref id (Some o) <= D id.
Proof. intros H1 H0 id. unfold is_ref. case_decide as E; [injection E as <-; lia|apply H0]. Qed.

Lemma queue_takes D L b phys bytes o w : counted D L w -> 1 <= D o ->
  wpw (beamfs_wb_queue c t cpu K b phys bytes (Some o) None) w (takes D L o).
Proof.
  intros Hc H1. eapply wpw_mono; [apply (queue_counted D L _ _ _ _ _ _ Hc)|].
  - intros id. rewrite is_ref_none, Z.add_0_r. apply owner_has; [done|apply (ct_owed _ _ _ Hc)].
  - cbv beta. intros r w' [_ [[-> Hc']|?]]; [left|by right]. split; [done|]. eapply counted_ext; [|exact Hc']. intros id. cbv beta. rewrite is_ref_none. lia.
Qed.

Lemma partial_takes D L b phys off src o w : counted D L w -> 1 <= D o -> wpw (slice_partial c t cpu stk K b phys off src o) w (takes D L o).
Proof.
  intros Hc H1. unfold slice_partial. apply wpw_bind. eapply wpw_mono; [apply read_old_spec|]. cbv beta. intros [e|old] w1 [Hm He].
  - apply wpw_ret. right. split; [by apply He|]. by eapply counted_moved.
  - apply queue_takes; [by eapply counted_moved|done].
Qed.

Lemma flush_first_takes D L o k w : counted D L w ->
  (forall w, counted D L w -> wb_pend (wb_of w) = None -> wpw k w (takes D L o)) -> wpw (flush_first c t cpu stk K k) w (takes D L o).
Proof.
  intros Hc Hk. unfold flush_first. apply wpw_bind. unfold get_wb at 1. apply wpw_get. fold (wb_of w).
  destruct (wb_pend (wb_of w)) as [pd|] eqn:Ep; [|by apply Hk]. apply wpw_bind. eapply wpw_mono; [by apply flush_spec|].
  cbv beta. intros r w1 (Hr & Hc1 & Hp1). destruct (Z.ltb_spec r 0); [apply wpw_ret; by right|by apply Hk].
Qed.

Lemma continue_takes D L pd b phys off len src o w : counted D L w -> 1 <= D o -> wb_pend (wb_of w) = Some pd ->
  wpw (slice_continue c t cpu stk K pd b phys off len src o) w (takes D L o).
Proof.
  intros Hc H1 Hp. pose proof (ct_owed _ _ _ Hc) as H0. unfold slice_continue. apply wpw_bind. unfold get_wb at 1. apply wpw_get. cbv zeta.
  apply wpw_bind. eapply wpw_mono; [by apply pend_taken|]. cbv beta. intros _ w1 [Hc1 Hp1]. set (D1 := fun id => D id + is_ref id (pend_owner pd)) in *.
  assert (Hq : forall bytes w', counted D1 L w' -> wpw (beamfs_wb_queue c t cpu K b phys bytes (pend_owner pd) (Some o)) w'
      (fun r w' => (r = 0 /\ counted (fun id => D id - is_ref id (Some o)) L w') \/ (r < 0 /\ counted D1 L w'))).
  { intros bytes w' Hc'. eapply wpw_mono; [apply (queue_counted D1 L _ _ _ _ _ _ Hc')|].
    - intros id. unfold D1. pose proof (owner_has D o H1 H0 id). lia.
    - cbv beta. intros r w2 [_ [[-> Hc2]|?]]; [left|by right]. split; [done|]. eapply counted_ext; [|exact Hc2]. intros id. cbv beta. unfold D1. lia. }
  apply wpw_bind. apply (wpw_mono _ _ (fun r w' => (r = 0 /\ counted (fun id => D id - is_ref id (Some o)) L w') \/ (r < 0 /\ counted D1 L w'))).
  - destruct (_ <? _); [|by apply Hq]. apply wpw_bind. eapply wpw_mono; [apply read_old_spec|]. cbv beta. intros [e|old] w2 [Hm He].
    + apply wpw_ret. right. split; [by apply He|]. by eapply counted_moved.
    + apply Hq. by eapply counted_moved.
  - intros r w2 [[-> Hc2]|[Hr Hc2]]; [apply wpw_ret; by left|]. destruct (Z.ltb_spec r 0); [|lia].
    apply wpw_bind. eapply wpw_mono; [apply (done_spec D1 L); [done|]|].
    + intros id. unfold D1. specialize (H0 id). lia.
    + cbv beta. intros _ w3 [Hc3 _]. apply wpw_ret. right. split; [done|]. eapply counted_ext; [|exact Hc3]. intros id. cbv beta. unfold D1. lia.
Qed.

Lemma slice_phys_spec b w : wpw (slice_phys c t cpu now b) w (fun r w' => moved [] w w' /\ forall e, r = inl e -> e < 0).
Proof.
  unfold slice_phys. do 2 apply wpw_bind, wpw_get. destruct (beamfs_inline_lookup_phys _ _ _) as [[? ?] s1].
  destruct (beamfs_inline_lookup_or_alloc_phys _ _ _ _ _ _ _) as [[[ret phys] f] s2]. wrun. split; [by apply moved_nil|].
  intros e. destruct (Z.ltb_spec ret 0); [by intros [= <-]|]. destruct (phys =? 0); [by intros [= <-]|done].
Qed.

Lemma slice_takes D L folio p end_ o w : counted D L w -> 1 <= D o -> wpw (writeback_slice c t cpu stk K now folio p end_ o) w (takes D L o).
Proof.
  intros Hc H1. pose proof (ct_owed _ _ _ Hc) as H0. unfold writeback_slice. cbv zeta. apply wpw_bind. eapply wpw_mono; [apply slice_phys_spec|].
  cbv beta. intros [e|phys] w1 [Hm He]; [apply wpw_ret; right; split; [by apply He|by eapply counted_moved]|].
  assert (Hc1 : counted D L w1) by (by eapply counted_moved). clear He.
  apply wpw_bind. unfold get_wb at 1. apply wpw_get. fold (wb_of w1). apply wpw_bind, wpw_get.
  destruct (negb (_ =? 0)).
  - destruct (wb_pend (wb_of w1)) as [pd|] eqn:Ep; [|by apply partial_takes].
    destruct (_ && _); [by apply continue_takes|]. apply flush_first_takes; [done|]. intros w2 Hc2 _. by apply partial_takes.
  - destruct (_ =? _).
    + apply flush_first_takes; [done|]. intros w2 Hc2 _. by apply queue_takes.
    + apply flush_first_takes; [done|]. intros w2 Hc2 Hp2. apply wpw_bind. unfold get_wb at 1. apply wpw_get. apply wpw_bind.
      eapply wpw_mono; [apply (pend_left D L); [done| |done]|].
      * by apply owner_has.
      * cbv beta. intros _ w3 Hc3. apply wpw_ret. by left.
Qed.

(** ** All the slices *)

Abbreviation payload := (beamfs_block_payload c).

Definition slices_left (p end_ : Z) : Z := if end_ <=? p then 0 else (end_ - 1) / payload - p / payload + 1.

Lemma slices_next p end_ : 0 < payload -> 0 <= p < end_ ->
  let p' := p + Z.min (end_ - p) (payload - (p - p / payload * payload)) in
  p < p' <= end_ /\ slices_left p end_ = 1 + slices_left p' end_.
Proof.
  intros HP Hp p'. subst p'. pose proof (Z.div_mod p payload ltac:(lia)) as Hd. pose proof (Z.mod_pos_bound p payload HP) as Hm.
  set (q := p / payload) in *. unfold slices_left. rewrite (proj2 (Z.leb_gt end_ p)) by lia. fold q.
  destruct (Z.le_ge_cases (end_ - p) (payload - (p - q * payload))) as [Hle|Hge].
  - rewrite Z.min_l by lia. split; [lia|]. rewrite (proj2 (Z.leb_le end_ _)) by lia.
    rewrite (Z.div_unique (end_ - 1) payload q (end_ - 1 - q * payload)) by lia. lia.
  - rewrite Z.min_r by lia. split; [lia|]. replace (p + (payload - (p - q * payload))) with ((q + 1) * payload) by lia.
    rewrite Z.div_mul by lia. destruct (Z.leb_spec end_ ((q + 1) * payload)); [|lia].
    rewrite (Z.div_unique (end_ - 1) payload q (end_ - 1 - q * payload)) by lia. lia.
Qed.

Lemma slices_spec L folio end_ o fuel : 0 < payload -> forall p D queued w, 0 <= p -> (Z.to_nat (end_ - p) <= fuel)%nat ->
  counted D L w -> slices_left p end_ <= D o ->
  wpw (writeback_slices c t cpu stk K now fuel folio p end_ o queued) w (fun r w' =>
    counted (fun id => D id - (snd r - queued) * is_ref id (Some o)) L w' /\
    ((fst r = 0 /\ snd r - queued = slices_left p end_) \/ (fst r < 0 /\ 0 <= snd r - queued < slices_left p end_))).
Proof.
  intros HP. induction fuel as [|fuel IH]; intros p D queued w Hp Hf Hc Hle; cbn [writeback_slices].
  { assert (E : end_ <= p) by lia. apply wpw_ret. cbn. unfold slices_left. rewrite (proj2 (Z.leb_le end_ p)) by lia.
    split; [|left; lia]. eapply counted_ext; [|exact Hc]. intros id. cbv beta. lia. }
  destruct (Z.leb_spec end_ p) as [E|E].
  { apply wpw_ret. cbn. unfold slices_left. rewrite (proj2 (Z.leb_le end_ p)) by lia.
    split; [|left; lia]. eapply counted_ext; [|exact Hc]. intros id. cbv beta. lia. }
  cbv zeta. destruct (slices_next p end_ HP ltac:(lia)) as [Hn Hs]. cbv zeta in Hn, Hs. set (p' := p + _) in *.
  assert (0 <= slices_left p' end_).
  { unfold slices_left. destruct (Z.leb_spec end_ p'); [lia|]. pose proof (Z.div_le_mono p' (end_ - 1) payload HP ltac:(lia)). lia. }
  apply wpw_bind. eapply wpw_mono; [apply (slice_takes D L); [done|lia]|]. cbv beta. intros r w1 [[-> Hc1]|[Hr Hc1]].
  - cbn [Z.ltb Z.compare]. eapply wpw_mono; [eapply (IH p'); [lia|lia|exact Hc1|]|].
    + cbv beta. unfold is_ref. rewrite decide_True by done. lia.
    + cbv beta. intros [r q] w2 [Hc2 Hr]. cbn [fst snd] in *. split; [|lia]. eapply counted_ext; [|exact Hc2]. intros id. cbv beta. lia.
  - rewrite (proj2 (Z.ltb_lt r 0)) by lia. apply wpw_ret. cbn [fst snd]. split; [|right; lia].
    eapply counted_ext; [|exact Hc1]. intros id. cbv beta. lia.
Qed.
End count.

Section pass.
Context {S : Type} `{RL : !RsLib} `{CL : !CrcLib} `{TE : !TreeEnv S}.
Context (c : data_cfg) (t : rs_tables) (cpu : nat) (stk : stack_arrays) (K : wb_kernel) (now : Z * Z).
Context (Hpayload : 0 < beamfs_block_payload c).

Abbreviation wpass := (wpass S).

(** Between two calls nothing is owed. *)
Definition settled (L : list Z) (w : wpass) : Prop := counted (fun _ _ _ => True) (fun _ => 0) L w.

Lemma known_weaken F F' D L (w : wpass) : (forall id f a, F id f a -> F' id f a) -> counted F D L w -> counted F' D L w.
Proof. intros HF [? ? ? ? ?]. split; eauto. Qed.

Lemma settled_perm L L' w : L ≡ₚ L' -> settled L w -> settled L' w.
Proof. intros HL [? ? ? ? ?]. split; try done. by rewrite <- HL. Qed.

(** A folio handed over: its counter is what the call owes. *)
Lemma new_owner_spec L w pos len n : settled L w -> 0 < n ->
  wpw (new_owner (WbFolio pos len n false)) w (fun o w' =>
    counted (fun id f a => id = o -> f = pos /\ a = false) (fun id => n * is_ref id (Some o)) (pos :: L) w').
Proof.
  intros [H0 Hc Hf _ Hl] Hn. set (o := p_next w).
  assert (Ho : p_owners w !! o = None) by (apply eq_None_not_Some; intros Hs; specialize (Hf o Hs); unfold o in Hf; lia).
  wrun. fold o. assert (Hr : forall id, id <> o -> is_ref id (Some o) = 0) by (intros id Hid; unfold is_ref; by rewrite decide_False by congruence).
  assert (Hr1 : is_ref o (Some o) = 1) by (unfold is_ref; by rewrite decide_True).
  split; cbn [p_owners p_next p_finished].
  - intros id. pose proof (is_ref_range id (Some o)). lia.
  - intros id. specialize (Hc id). destruct (decide (id = o)) as [->|Hne].
    + rewrite lookup_insert_eq. cbn [o_pending]. rewrite (same_queue_refs w) by done. rewrite Ho in Hc. rewrite Hr1. lia.
    + rewrite lookup_insert_ne, (same_queue_refs w), (Hr id) by done. by rewrite Z.mul_0_r.
  - intros id [y Hy]. apply lookup_insert_Some in Hy as [[<- _]|[_ Hy]]; [fold o; lia|]. specialize (Hf id ltac:(by eexists)). lia.
  - intros id y Hy ->. rewrite lookup_insert_eq in Hy. by injection Hy as <-.
  - unfold live in *. cbn [p_owners]. rewrite live_insert by done. cbn. rewrite <- Hl. by rewrite Permutation_middle.
Qed.

(** A folio given up: the slices never queued leave the count. *)
Lemma gave_up L w o pos n x : counted (fun id f a => id = o -> f = pos /\ a = false) (fun id => n * is_ref id (Some o)) (pos :: L) w ->
  0 < n -> p_owners w !! o = Some x ->
  wpw (if (o_pending x - n =? 0) then set_owners (delete o (p_owners w))
       else set_owners (<[o := WbFolio (o_folio x) (o_len x) (o_pending x - n) true]> (p_owners w))) w (fun _ w' => settled L w').
Proof.
  intros [H0 Hc Hf Hk Hl] Hn Hx. destruct (Hk o x Hx eq_refl) as [Hpos Ha]. pose proof (Hc o) as Hco. rewrite Hx in Hco. destruct Hco as [Hp _].
  assert (Hr : forall id, id <> o -> is_ref id (Some o) = 0) by (intros id Hid; unfold is_ref; by rewrite decide_False by congruence).
  assert (Hr1 : is_ref o (Some o) = 1) by (unfold is_ref; by rewrite decide_True). rewrite Hr1 in Hp.
  pose proof (live_delete _ _ _ Hx) as Hlive. rewrite Ha, Hpos in Hlive. pose proof (refs_nonneg w o).
  assert (HL : p_finished w ++ (o_folio <$> (snd <$> map_to_list (filter (fun x : Z * beamfs_wb_folio => o_abandoned (snd x) = false) (delete o (p_owners w))))) ≡ₚ L).
  { apply (Permutation_cons_inv (a := pos)). rewrite <- Hl. unfold live. rewrite Hlive. cbn. by rewrite Permutation_middle. }
  destruct (Z.eqb_spec (o_pending x - n) 0) as [E|E]; wrun; split; cbn [p_owners p_next p_finished]; try done.
  - intros id. destruct (decide (id = o)) as [->|Hne]; [rewrite lookup_delete_eq, (same_queue_refs w) by done; lia|].
    rewrite lookup_delete_ne, (same_queue_refs w) by done. specialize (Hc id). rewrite (Hr id Hne), Z.mul_0_r in Hc. done.
  - intros id [y Hy]. apply lookup_delete_Some in Hy as [_ Hy]. apply Hf. by eexists.
  - intros id. destruct (decide (id = o)) as [->|Hne]; [rewrite lookup_insert_eq, (same_queue_refs w) by done; cbn [o_pending]; lia|].
    rewrite lookup_insert_ne, (same_queue_refs w) by done. specialize (Hc id). rewrite (Hr id Hne), Z.mul_0_r in Hc. done.
  - intros id [y Hy]. apply lookup_insert_Some in Hy as [[<- _]|[_ Hy]]; apply Hf; by eexists.
  - unfold live. cbn [p_owners]. rewrite <- insert_delete_eq, live_insert by apply lookup_delete_eq. cbn. done.
Qed.

Lemma get_ctx_spec L w : settled L w -> wpw (beamfs_wb_get K) w (fun _ w' => settled L w').
Proof.
  intros Hs. unfold beamfs_wb_get. do 2 apply wpw_bind, wpw_get. destruct (p_ctx w) as [wb|] eqn:E; [by apply wpw_ret|].
  destruct (_ || _); [by apply wpw_ret|]. wrun. eapply (counted_moved _ _ _ w); [|exact Hs]. apply moved_nil; try done; unfold wb_of; by rewrite E.
Qed.

(** A folio is taken over, to be finished once, or given back. *)
Lemma range_spec L folio pos len w : settled L w -> 0 <= pos -> 0 < len ->
  wpw (beamfs_inline_writeback_range c t cpu stk K now folio pos len) w
    (fun r w' => (r = len /\ settled (pos :: L) w') \/ (r < 0 /\ settled L w')).
Proof.
  intros Hs Hpos Hlen. unfold beamfs_inline_writeback_range. apply wpw_bind. eapply wpw_mono; [by apply get_ctx_spec|].
  cbv beta. intros ok w1 Hs1. destruct ok; cbn [negb]; [|apply wpw_ret; by right]. cbv zeta.
  destruct (kzalloc_owner K pos); cbn [negb]; [|apply wpw_ret; by right]. apply wpw_bind, wpw_get.
  destruct (scratch_get (p_env w1)); cbn [negb]; [|apply wpw_ret; by right].
  set (end_ := pos + len). set (n := (end_ - 1) / beamfs_block_payload c - pos / beamfs_block_payload c + 1).
  assert (Hleft : slices_left c pos end_ = n) by (unfold slices_left, n; by rewrite (proj2 (Z.leb_gt end_ pos)) by lia).
  assert (Hn : 0 < n) by (pose proof (Z.div_le_mono pos (end_ - 1) _ Hpayload ltac:(lia)); unfold n; lia).
  apply wpw_bind. eapply wpw_mono; [by apply new_owner_spec|]. cbv beta. intros o w2 Hc2.
  apply wpw_bind. unfold get_wb at 1. apply wpw_get. apply wpw_bind, wpw_get. apply wpw_bind.
  set (F := fun id f a => id = o -> f = pos /\ a = false) in *.
  apply (wpw_mono _ _ (fun r w' => r <= 0 /\ counted F (fun id => n * is_ref id (Some o)) (pos :: L) w')).
  { destruct (wb_pend (default ctx0 (p_ctx w2))); [destruct (_ || _)|].
    - eapply wpw_mono; [by apply flush_spec|]. cbv beta. by intros r w' (? & ? & _).
    - by apply wpw_ret.
    - by apply wpw_ret. }
  intros r w3 [Hr Hc3]. apply wpw_bind.
  apply (wpw_mono _ _ (fun r w' => counted F (fun id => (n - snd r) * is_ref id (Some o)) (pos :: L) w' /\
    ((fst r = 0 /\ snd r = n) \/ (fst r < 0 /\ 0 <= snd r < n)))).
  { destruct (Z.ltb_spec r 0).
    - apply wpw_ret. cbn [fst snd]. rewrite Z.sub_0_r. split; [done|right; lia].
    - eapply wpw_mono; [eapply (slices_spec c t cpu stk K now F (pos :: L) folio end_ o _ Hpayload); [lia|lia|exact Hc3|]|].
      + cbv beta. unfold is_ref. rewrite decide_True by done. lia.
      + cbv beta. intros [r' q] w' [Hc' Hr']. cbn [fst snd] in *. rewrite Hleft, !Z.sub_0_r in *. split; [|lia].
        eapply counted_ext; [|exact Hc']. intros id. cbv beta. lia. }
  intros [r' q] w4 [Hc4 Hr']. cbn [fst snd] in *. destruct Hr' as [[-> ->]|[Hr' Hq]].
  - apply wpw_ret. left. split; [done|]. eapply (known_weaken F); [done|]. eapply counted_ext; [|exact Hc4]. intros id. cbv beta. lia.
  - rewrite (proj2 (Z.ltb_lt r' 0)) by done. apply wpw_bind, wpw_get.
    assert (Hx : exists x, p_owners w4 !! o = Some x).
    { pose proof (ct_count _ _ _ _ Hc4 o) as Hco. destruct (p_owners w4 !! o) as [x|]; [by exists x|]. pose proof (refs_nonneg w4 o).
      cbv beta in Hco. unfold is_ref in Hco. rewrite decide_True in Hco by done. lia. }
    destruct Hx as [x Hx]. rewrite Hx. rewrite (proj2 (Z.ltb_lt q n)) by lia. cbn [andb].
    apply wpw_bind. eapply wpw_mono; [eapply (gave_up L w4 o pos (n - q) x Hc4); [lia|exact Hx]|].
    cbv beta. intros _ w5 Hs5. apply wpw_bind. eapply wpw_mono; [apply keep_error_spec|]. cbv beta. intros _ w6 Hm. apply wpw_ret.
    right. split; [done|]. by eapply counted_moved.
Qed.

(** The end of a pass leaves nothing waiting and no bio being built. *)
Lemma submit_spec L error w : settled L w ->
  wpw (beamfs_inline_writeback_submit c t cpu stk K error) w (fun _ w' => settled L w' /\ p_ctx w' = None).
Proof.
  intros Hs. unfold beamfs_inline_writeback_submit. apply wpw_bind, wpw_get. destruct (p_ctx w) as [wb|] eqn:E; [|by apply wpw_ret].
  apply wpw_bind. eapply wpw_mono; [by apply flush_spec|]. cbv beta. intros r w1 (_ & Hs1 & Hp1).
  apply wpw_bind. eapply wpw_mono; [apply submit_ioend_spec|]. cbv beta. intros _ w2 [Hm Hi].
  assert (Hs2 : settled L w2) by (by eapply counted_moved). assert (Hp2 : wb_pend (wb_of w2) = None) by (by rewrite (mv_pend _ _ _ Hm)).
  wrun. split; [|done]. eapply (counted_moved _ _ _ w2); [|exact Hs2]. by apply moved_nil.
Qed.

(** A bio taken out of flight owes its blocks' references. *)
Lemma end_block_spec F D L failed blk (w : wpass) : counted F D L w -> (forall id, block_refs id blk <= D id) ->
  wpw (end_block failed blk) w (fun _ w' => counted F (fun id => D id - block_refs id blk) L w' /\ same_queue w w').
Proof.
  intros Hc Hle. unfold end_block. apply wpw_bind.
  apply (wpw_mono _ _ (fun _ w' => counted F D L w' /\ same_queue w w')).
  { destruct failed; [|by apply wpw_ret]. destruct (is_owner (k_owner blk)), (is_owner (k_owner2 blk)); wrun;
      (split; [|done]); (eapply (counted_moved _ _ _ w); [by apply moved_nil|done]). }
  intros _ w1 [Hc1 [Hi1 Hx1]]. unfold block_refs in Hle. pose proof (fun id => is_ref_range id (k_owner blk)) as Hr1. pose proof (fun id => is_ref_range id (k_owner2 blk)) as Hr2.
  apply wpw_bind. eapply wpw_mono; [apply (done_spec F D L); [done|]|].
  { intros id. specialize (Hle id). specialize (Hr2 id). lia. }
  cbv beta. intros _ w2 [Hc2 [Hi2 Hx2]]. eapply wpw_mono; [eapply (done_spec F); [exact Hc2|]|].
  { intros id. cbv beta. specialize (Hle id). lia. }
  cbv beta. intros _ w3 [Hc3 [Hi3 Hx3]]. split; [|split; congruence]. eapply counted_ext; [|exact Hc3]. intros id. cbv beta. unfold block_refs. lia.
Qed.

Lemma end_blocks_spec F L failed blks : forall D (w : wpass), counted F D L w -> (forall id, list_refs id blks <= D id) ->
  wpw (for_each (end_block failed) blks) w (fun _ w' => counted F (fun id => D id - list_refs id blks) L w' /\ same_queue w w').
Proof.
  induction blks as [|b blks IH]; intros D w Hc Hle; cbn [for_each].
  { apply wpw_ret. split; [|done]. eapply counted_ext; [|exact Hc]. intros id. cbn. lia. }
  apply wpw_bind. eapply wpw_mono; [apply (end_block_spec F D L); [done|]|].
  { intros id. specialize (Hle id). cbn in Hle. pose proof (list_refs_nonneg id blks). unfold list_refs in *. lia. }
  cbv beta. intros _ w1 [Hc1 [Hi1 Hx1]]. eapply wpw_mono; [eapply IH; [exact Hc1|]|].
  { intros id. cbv beta. specialize (Hle id). cbn in Hle. unfold list_refs. lia. }
  cbv beta. intros _ w2 [Hc2 [Hi2 Hx2]]. split; [|split; congruence]. eapply counted_ext; [|exact Hc2]. intros id. cbv beta. cbn. unfold list_refs. lia.
Qed.

Lemma list_refs_perm id l l' : l ≡ₚ l' -> list_refs id l = list_refs id l'.
Proof. unfold list_refs. induction 1; cbn; lia. Qed.

Lemma dev_writes_spec blks : forall w : wpass, wpw (for_each (dev_write K) blks) w (fun _ w' => moved [] w w' /\ same_queue w w').
Proof.
  induction blks as [|b blks IH]; intros w; cbn [for_each]; [apply wpw_ret; split; [apply moved_refl|done]|].
  apply wpw_bind. apply (wpw_mono _ _ (fun _ w' => moved [] w w' /\ same_queue w w')).
  { unfold dev_write. destruct (aliased K _); wrun; (split; [by apply moved_nil|done]). }
  intros _ w1 [Hm1 [? ?]]. eapply wpw_mono; [apply IH|]. cbv beta. intros _ w2 [Hm2 [? ?]]. split; [|split; congruence]. apply (moved_app [] [] _ _ _ Hm1 Hm2).
Qed.

Lemma end_bio_spec L k failed w : settled L w ->
  wpw (beamfs_wb_end_bio K k failed) w (fun _ w' => settled L w' /\ p_ctx w' = p_ctx w /\ p_inflight w' = delete k (p_inflight w)).
Proof.
  intros Hs. unfold beamfs_wb_end_bio. apply wpw_bind, wpw_get. destruct (p_inflight w !! k) as [blks|] eqn:Ek.
  2:{ apply wpw_ret. split; [done|]. split; [done|]. apply lookup_ge_None in Ek. rewrite delete_take_drop, take_ge, drop_ge, app_nil_r by lia. done. }
  apply wpw_bind. apply (wpw_mono _ _ (fun _ w' => counted (fun _ _ _ => True) (fun id => list_refs id blks) L w' /\ p_ctx w' = p_ctx w /\ p_inflight w' = delete k (p_inflight w))).
  { destruct Hs as [H0 Hc Hf Hk Hl]. wrun. split; [|done]. split; cbn [p_owners p_next p_finished]; try done.
    - intros id. apply list_refs_nonneg.
    - intros id. specialize (Hc id). assert (Hq : refs w id = refs (WPass (p_env w) (p_inode w) (p_ctx w) (p_owners w) (p_next w) (delete k (p_inflight w)) (p_finished w) (p_errors w)) id + list_refs id blks).
      { unfold refs, queued_blocks. cbn [p_inflight]. change (ioend_blocks (WPass _ _ _ _ _ _ _ _)) with (ioend_blocks w).
        change (pend_ref id (WPass _ _ _ _ _ _ _ _)) with (pend_ref id w). rewrite !list_refs_app.
        rewrite (list_refs_perm id (concat (p_inflight w)) (blks ++ concat (delete k (p_inflight w)))), list_refs_app; [lia|].
        by rewrite (delete_Permutation _ _ _ Ek) at 1. }
      rewrite Hq, Z.add_0_r in Hc. done. }
  intros _ w1 (Hc1 & Hx1 & Hi1). apply wpw_bind.
  apply (wpw_mono _ _ (fun _ w' => counted (fun _ _ _ => True) (fun id => list_refs id blks) L w' /\ same_queue w1 w')).
  { destruct failed; [by apply wpw_ret|]. eapply wpw_mono; [apply dev_writes_spec|]. cbv beta. intros _ w' [Hm Hq]. split; [by eapply counted_moved|done]. }
  intros _ w2 [Hc2 [Hi2 Hx2]]. eapply wpw_mono; [eapply end_blocks_spec; [exact Hc2|done]|]. cbv beta. intros _ w3 [Hc3 [Hi3 Hx3]].
  split; [|split; congruence]. eapply counted_ext; [|exact Hc3]. intros id. cbv beta. lia.
Qed.

(** ** Any sequence of calls *)

Definition wb_event_ok (e : wb_event) : Prop := match e with WbRange _ _ pos len => 0 <= pos /\ 0 < len | _ => True end.
End pass.

Section runs.
Context {S : Type} `{RL : !RsLib} `{CL : !CrcLib} `{TE : !TreeEnv S}.
Context (c : data_cfg) (t : rs_tables) (cpu : nat) (stk : stack_arrays) (now : Z * Z).
Context (Hpayload : 0 < beamfs_block_payload c).

Lemma wb_step_spec L e (w : wpass S) : settled L w -> wb_event_ok e ->
  wpw (wb_step c t cpu stk now e) w (fun r w' => settled (r ++ L) w').
Proof.
  intros Hs He. destruct e as [K folio pos len|K error|K k failed]; cbn [wb_step wb_event_ok] in *; apply wpw_bind.
  - eapply wpw_mono; [apply (range_spec c t cpu stk K now Hpayload); [exact Hs|tauto..]|]. cbv beta. intros r w' [[-> Hs']|[Hr Hs']]; apply wpw_ret.
    + by rewrite (proj2 (Z.ltb_ge len 0)) by lia.
    + by rewrite (proj2 (Z.ltb_lt r 0)) by lia.
  - eapply wpw_mono; [by apply submit_spec|]. cbv beta. by intros r w' [Hs' _].
  - eapply wpw_mono; [by apply end_bio_spec|]. cbv beta. by intros r w' [Hs' _].
Qed.

Lemma wb_run_spec l : forall L (w : wpass S), settled L w -> Forall wb_event_ok l ->
  wpw (wb_run c t cpu stk now l) w (fun r w' => settled (r ++ L) w').
Proof.
  induction l as [|e l IH]; intros L w Hs Hl; cbn [wb_run]; [by apply wpw_ret|]. inversion_clear Hl as [|? ? He Hl'].
  apply wpw_bind. eapply wpw_mono; [by apply wb_step_spec|]. cbv beta. intros r w1 Hs1. apply wpw_bind. eapply wpw_mono; [by apply IH|].
  cbv beta. intros rs w2 Hs2. apply wpw_ret. eapply settled_perm; [|exact Hs2]. rewrite !app_assoc. by rewrite (Permutation_app_comm rs r).
Qed.

(** Nothing in flight, nothing waiting: every folio taken has been
    finished, and nothing is left of its counter. *)
Lemma settled_idle L (w : wpass S) : settled L w -> p_inflight w = [] -> p_ctx w = None -> p_owners w = ∅ /\ p_finished w ≡ₚ L.
Proof.
  intros [H0 Hc Hf Hk Hl] Hi Hx. assert (Ho : p_owners w = ∅).
  { apply map_empty. intros id. specialize (Hc id). destruct (p_owners w !! id) as [x|]; [|done].
    unfold refs, queued_blocks, ioend_blocks, pend_ref, wb_of in Hc. rewrite Hi, Hx in Hc. cbn in Hc. lia. }
  split; [done|]. unfold live in Hl. rewrite Ho in Hl. rewrite map_filter_empty, map_to_list_empty in Hl. cbn in Hl. by rewrite app_nil_r in Hl.
Qed.

(** A completion order of [n] bios: which of those left, and with what. *)
Fixpoint completions (K : wb_kernel) (n : nat) (order : list (nat * bool)) : option (list wb_event) :=
  match order with
  | [] => if decide (n = O) then Some [] else None
  | (k, failed) :: order =>
    if decide (k < n)%nat then l ← completions K (n - 1) order; Some (WbEndBio K k failed :: l) else None
  end.

(** There is always an order: the oldest first. *)
Lemma completions_oldest K n failed : completions K n (replicate n (O, failed)) = Some (replicate n (WbEndBio K O failed)).
Proof. induction n as [|n IH]; [done|]. cbn [replicate completions]. rewrite decide_True by lia. replace (Datatypes.S n - 1)%nat with n by lia. by rewrite IH. Qed.

Lemma completions_spec K L order : forall (w : wpass S) l, settled L w -> p_ctx w = None -> completions K (length (p_inflight w)) order = Some l ->
  wpw (wb_run c t cpu stk now l) w (fun r w' => settled L w' /\ p_ctx w' = None /\ p_inflight w' = []).
Proof.
  induction order as [|[k failed] order IH]; intros w l Hs Hx Hl; cbn [completions] in Hl.
  { case_decide as E; [|done]. injection Hl as <-. apply wpw_ret. split; [done|]. split; [done|]. by apply nil_length_inv. }
  case_decide as E; [|done]. destruct (completions K (length (p_inflight w) - 1) order) as [l'|] eqn:El; [|done]. injection Hl as <-.
  cbn [wb_run wb_step]. apply wpw_bind, wpw_bind. eapply wpw_mono; [by apply end_bio_spec|]. cbv beta. intros _ w1 (Hs1 & Hx1 & Hi1).
  apply wpw_ret, wpw_bind. eapply wpw_mono; [apply (IH w1 l'); [done|congruence|]|].
  - rewrite Hi1, length_delete; [done|]. by apply lookup_lt_is_Some.
  - cbv beta. intros r w2 H2. by apply wpw_ret.
Qed.

(** A flusher that has not started. *)
Definition wb_start (s : S) (f : finode) : wpass S := WPass s f None ∅ 0 [] [] [].

Lemma start_settled s f : settled [] (wb_start s f).
Proof.
  split; cbn [wb_start p_owners p_next p_finished]; try done.
  intros id [x Hx]. by rewrite lookup_empty in Hx.
Qed.

Lemma finished_once l K error order ends s f : Forall wb_event_ok l ->
  let '(taken, w1) := wb_run c t cpu stk now l (wb_start s f) in
  let w2 := snd (beamfs_inline_writeback_submit c t cpu stk K error w1) in
  completions K (length (p_inflight w2)) order = Some ends ->
  let w3 := snd (wb_run c t cpu stk now ends w2) in
  p_inflight w3 = [] /\ p_owners w3 = ∅ /\ p_finished w3 ≡ₚ taken.
Proof.
  intros Hl. pose proof (wb_run_spec l [] _ (start_settled s f) Hl) as H1. unfold wpw in H1.
  destruct (wb_run c t cpu stk now l (wb_start s f)) as [taken w1]. cbn [fst snd] in H1. rewrite app_nil_r in H1.
  destruct (submit_spec c t cpu stk K taken error w1 H1) as [H2 Hx2]. cbv zeta. intros Hc.
  destruct (completions_spec K taken order _ _ H2 Hx2 Hc) as (H3 & Hx3 & Hi3).
  destruct (settled_idle _ _ H3 Hi3 Hx3) as [Ho Hp]. by rewrite Hi3.
Qed.
End runs.
