(* ===== verification/FileMap.v ===== *)
(** * A file as a map from logical to physical blocks

    The trees of pointers a file owns, the map they represent and what it
    means for a state to grow or keep them.  Everything is stated against
    the laws of [TreeEnvOk]. *)

From S2P Require Import Prelude Format Crc RsInit RsLib Edac Dirent Dir DirTree FileData FileTree.

(** ** Laws of the environment *)

(** What the parity code promises: which contents of a block verify, while
    the generation counter has room for more updates. *)
Class ParityView (S : Type) := {
  described : S -> Z -> list Z -> Prop;
  par_ok : S -> Prop;
  room : S -> Z }.

(** The block keeps its contents, its place and its parity. *)
Definition keeps {S} `{DirEnvOk S} `{!ParityView S} (s s' : S) (b : Z) : Prop :=
  allocated s' b /\ bread s' b = bread s b /\ forall p, described s b p -> described s' b p.

(** Nothing a tree depends on changes. *)
Record same {S} `{DirEnvOk S} `{!ParityView S} (s s' : S) : Prop := {
  sm_alloc : forall b, allocated s' b <-> allocated s b;
  sm_read : forall b, allocated s b -> bread s' b = bread s b;
  sm_desc : forall b p, described s b p -> described s' b p;
  sm_par : par_ok s -> par_ok s';
  sm_room : room s <= room s' }.

(** A block goes back to the allocator. *)
Record freed {S} `{DirEnvOk S} `{!ParityView S} `{!TreeEnv S} (s s' : S) (b : Z) : Prop := {
  fr_alloc : failed s = false -> forall b', allocated s' b' <-> allocated s b' /\ b' <> b;
  fr_read : forall b', allocated s b' -> b' <> b -> bread s' b' = bread s b';
  fr_desc : forall b' p, described s b' p -> described s' b' p;
  fr_par : par_ok s -> par_ok s';
  fr_room : room s <= room s';
  fr_failed : failed s' = failed s }.

Class TreeEnvOk (S : Type) `{TE : !TreeEnv S} := {
  tree_dir_ok :: DirEnvOk S;
  tree_parity :: ParityView S;
  pointer_ok s b : in_data s b && is_allocated s b = true <-> allocated s b;
  allocated_range s b : allocated s b -> 0 < b < 2 ^ 64;
  tc_same s x : same s (tc s x) /\ failed (tc s x) = failed s;
  fail_same s : same s (fail s);
  report_same s calls : same s (report s calls) /\ failed (report s calls) = failed s;
  verify_same s b p : par_ok s -> allocated s b -> zlen p = 4096 -> bytes p -> described s b p ->
    exists s', parity_verify s b p = (0, s') /\ same s s' /\ failed s' = failed s;
  verify_allocated s b p b' : allocated (snd (parity_verify s b p)) b' <-> allocated s b';
  update_par s b p ino : par_ok s -> allocated s b -> zlen p = 4096 -> bytes p -> 0 < room s ->
    let s' := parity_update s b p ino in
    par_ok s' /\ described s' b p /\ room s - 1 <= room s' /\ failed s' = failed s /\
    forall b' p', b' <> b -> allocated s b' -> described s b' p' -> described s' b' p';
  bput_par s b p : let s' := bput s b p in
    (par_ok s -> par_ok s') /\ room s <= room s' /\ failed s' = failed s /\
    forall b' p', described s b' p' -> described s' b' p';
  balloc_par s ino b s' : balloc s ino = (b, s') ->
    (par_ok s -> par_ok s') /\ room s <= room s' /\ (b <> 0 -> failed s' = false) /\
    forall b' p', described s b' p' -> described s' b' p';
  bfree_freed s b ino : freed s (bfree s b ino) b;
  bfree_anon_freed s b : freed s (bfree_anon s b) b }.

(** ** Trees and the map *)

(** What the data blocks are known to hold: [None] where nothing is. *)
Class LeafView : Type := leaf_view : Z -> option (list Z).

(** Nothing is known of any. *)
Definition no_view : LeafView := fun _ => None.

Lemma elem_of_concat {A} (x : A) (ls : list (list A)) : x ∈ concat ls <-> exists l, x ∈ l /\ l ∈ ls.
Proof.
  rewrite list_elem_of_In, in_concat. split; intros (l & H1 & H2); exists l; rewrite !list_elem_of_In in *; done.
Qed.

Lemma NoDup_concat_lookup {A} (L : list (list A)) :
  NoDup (concat L) <-> (forall i l, L !! i = Some l -> NoDup l) /\
    (forall i j l l' x, i <> j -> L !! i = Some l -> L !! j = Some l' -> x ∈ l -> x ∉ l').
Proof.
  induction L as [|l L IH]; cbn [concat].
  - split; [intros _; split; intros [|i]; done|intros; constructor].
  - rewrite list.NoDup_app, IH. split.
    + intros (H1 & H2 & H3 & H4). split.
      * intros [|i] l' E; [by injection E as <-|by apply (H3 i)].
      * intros [|i] [|j] a b x Hne Ea Eb Ha Hb; [done| | |].
        -- injection Ea as <-. apply (H2 x Ha). apply elem_of_concat. exists b.
           split; [done|]. by eapply list_elem_of_lookup_2.
        -- injection Eb as <-. apply (H2 x Hb). apply elem_of_concat. exists a.
           split; [done|]. by eapply list_elem_of_lookup_2.
        -- apply (H4 i j a b x); [lia|done..].
    + intros (H1 & H2). split_and!.
      * by apply (H1 0%nat).
      * intros x Hx Hc. apply elem_of_concat in Hc as (l' & Hx' & (j & Ej)%list_elem_of_lookup_1).
        by apply (H2 0%nat (Datatypes.S j) l l' x).
      * intros i. by apply (H1 (Datatypes.S i)).
      * intros i j a b x Hne. apply (H2 (Datatypes.S i) (Datatypes.S j)). lia.
Qed.

Section map.
Context {S : Type} `{TO : TreeEnvOk S} `{LV : !LeafView}.

(** [d] levels of pointers under [b]; the blocks of the tree. *)
Definition kids (s : S) (b : Z) : list Z := map (ptr (held s b)) (upto 512).

Fixpoint tree_blocks (s : S) (d : nat) (b : Z) : list Z :=
  if b =? 0 then []
  else b :: match d with
            | O => []
            | Datatypes.S d => concat (map (tree_blocks s d) (kids s b))
            end.

(** The block a path of slots leads to; 0 is a hole. *)
Fixpoint tree_get (s : S) (b : Z) (slots : list Z) : Z :=
  if b =? 0 then 0
  else match slots with
       | [] => b
       | slot :: slots => tree_get s (ptr (held s b) slot) slots
       end.

(** Pointers lead to blocks in use; blocks of pointers are readable and
    their parity describes them; data blocks hold what is known of them. *)
Fixpoint tree_ok (s : S) (d : nat) (b : Z) : Prop :=
  b = 0 \/ allocated s b /\
    match d with
    | O => forall p, leaf_view b = Some p -> bread s b = Some p
    | Datatypes.S d => exists p, bread s b = Some p /\ zlen p = 4096 /\ bytes p /\ described s b p /\
        forall j, 0 <= j < 512 -> tree_ok s d (ptr p j)
    end.

(** Several trees: a depth and a root each. *)
Definition forest (s : S) (ts : list (nat * Z)) : list Z := concat (map (fun '(d, b) => tree_blocks s d b) ts).

Record forest_ok (s : S) (ts : list (nat * Z)) : Prop := {
  fo_ok : forall i d b, ts !! i = Some (d, b) -> tree_ok s d b;
  fo_nodup : NoDup (forest s ts) }.

Definition children (s : S) (d : nat) (b : Z) : list (nat * Z) := map (fun p => (d, p)) (kids s b).

Lemma tree_blocks_children s d b :
  b <> 0 -> tree_blocks s (Datatypes.S d) b = b :: forest s (children s d b).
Proof.
  intros Hb. cbn [tree_blocks]. destruct (Z.eqb_spec b 0); [done|]. unfold forest, children. by rewrite map_map.
Qed.

Lemma elem_of_forest s ts x :
  x ∈ forest s ts <-> exists i d b, ts !! i = Some (d, b) /\ x ∈ tree_blocks s d b.
Proof.
  unfold forest. rewrite elem_of_concat. split.
  - intros (l & Hx & Hl). apply list_elem_of_In, in_map_iff in Hl as ([d b] & <- & Hl).
    apply list_elem_of_In, list_elem_of_lookup_1 in Hl as [i Hi]. by exists i, d, b.
  - intros (i & d & b & Hi & Hx). exists (tree_blocks s d b). split; [done|].
    apply list_elem_of_In, in_map_iff. exists (d, b). split; [done|]. apply list_elem_of_In. by apply list_elem_of_lookup_2 in Hi.
Qed.

Lemma forest_nodup s ts :
  NoDup (forest s ts) <->
    (forall i d b, ts !! i = Some (d, b) -> NoDup (tree_blocks s d b)) /\
    (forall i j d b d' b' x, i <> j -> ts !! i = Some (d, b) -> ts !! j = Some (d', b') ->
       x ∈ tree_blocks s d b -> x ∉ tree_blocks s d' b').
Proof.
  unfold forest. rewrite NoDup_concat_lookup.
  assert (L : forall i, map (fun '(d, b) => tree_blocks s d b) ts !! i = (fun '(d, b) => tree_blocks s d b) <$> ts !! i)
    by (intros i; apply list_lookup_fmap).
  split; intros [H1 H2]; split.
  - intros i d b E. apply (H1 i). by rewrite L, E.
  - intros i j d b d' b' x Hne E1 E2. apply (H2 i j); [done|by rewrite L, E1|by rewrite L, E2].
  - intros i l E. rewrite L in E. destruct (ts !! i) as [[d b]|] eqn:Ei; [|done]. injection E as <-. by apply (H1 i).
  - intros i j l l' x Hne E1 E2. rewrite L in E1, E2. destruct (ts !! i) as [[d b]|] eqn:Ei; [|done].
    destruct (ts !! j) as [[d' b']|] eqn:Ej; [|done]. injection E1 as <-. injection E2 as <-. by apply (H2 i j).
Qed.

Lemma lookup_children s d b j :
  0 <= j < 512 -> children s d b !! Z.to_nat j = Some (d, ptr (held s b) j).
Proof.
  intros Hj. unfold children, kids. rewrite list_lookup_fmap, list_lookup_fmap.
  unfold upto. rewrite lookup_seqZ_lt by lia. cbn. do 3 f_equal. lia.
Qed.

Lemma lookup_children_inv s d b i d' p :
  children s d b !! i = Some (d', p) -> exists j, i = Z.to_nat j /\ 0 <= j < 512 /\ d' = d /\ p = ptr (held s b) j.
Proof.
  unfold children, kids. rewrite !list_lookup_fmap. intros E.
  destruct (upto 512 !! i) as [j|] eqn:Ej; [|done]. cbn in E. injection E as <- <-.
  apply lookup_seqZ in Ej as [-> Hi]. exists (0 + Z.of_nat i). split_and!; [lia|lia|lia|done|done].
Qed.

Lemma tree_ok_children s d b :
  b <> 0 -> tree_ok s (Datatypes.S d) b -> forall i d' p, children s d b !! i = Some (d', p) -> tree_ok s d' p.
Proof.
  intros Hb [->|(A & p & E & Z & B & D & C)]; [done|]. intros i d' q H.
  apply lookup_children_inv in H as (j & -> & Hj & -> & ->). unfold held. rewrite E. by apply C.
Qed.

(** ** Framing *)

Lemma tree_frame s s' d b :
  (forall x, x ∈ tree_blocks s d b -> keeps s s' x) -> tree_ok s d b ->
  tree_ok s' d b /\ tree_blocks s' d b = tree_blocks s d b /\
  forall slots, length slots = d -> Forall (fun j => 0 <= j < 512) slots -> tree_get s' b slots = tree_get s b slots.
Proof.
  revert b. induction d as [|d IH]; intros b H Hok.
  - split_and!; [|done|].
    + destruct Hok as [->|[A L]]; [by left|]. right.
      assert (Hb : b ∈ tree_blocks s 0 b) by (cbn; destruct (Z.eqb_spec b 0) as [->|]; [pose proof (allocated_range s 0 A); lia|left]).
      destruct (H b Hb) as (A' & R & _). split; [done|]. intros p Hp. rewrite R. by apply L.
    + by intros [|? ?].
  - destruct (decide (b = 0)) as [->|Hb].
    { split_and!; [by left|done|]. intros slots _ _. by destruct slots. }
    rewrite tree_blocks_children in H by done.
    destruct (H b ltac:(left)) as (A & R & D). pose proof Hok as Hok'.
    destruct Hok as [->|(A0 & p & E & Z & B & De & C)]; [done|].
    assert (Hh : held s' b = held s b) by (unfold held; by rewrite R).
    assert (Hp : held s b = p) by (unfold held; by rewrite E).
    assert (HK : forall j, 0 <= j < 512 -> tree_ok s' d (ptr p j) /\ tree_blocks s' d (ptr p j) = tree_blocks s d (ptr p j) /\
      forall slots, length slots = d -> Forall (fun j => 0 <= j < 512) slots ->
        tree_get s' (ptr p j) slots = tree_get s (ptr p j) slots).
    { intros j Hj. apply IH; [|by apply C]. intros x Hx. apply H. right. apply elem_of_forest.
      exists (Z.to_nat j), d, (ptr p j). rewrite lookup_children, Hp by done. done. }
    split_and!.
    + right. split; [done|]. exists p. rewrite R. split_and!; [done|done|done|by apply D|]. intros j Hj. by apply HK.
    + rewrite !tree_blocks_children by done. f_equal. unfold forest, children. rewrite !map_map. unfold kids.
      rewrite Hh, !map_map, Hp. f_equal. apply map_ext_in. intros j Hj%list_elem_of_In%elem_of_upto. by apply HK.
    + intros [|j slots] Hl Hf; [done|]. cbn [tree_get]. destruct (Z.eqb_spec b 0); [done|].
      apply list.Forall_cons in Hf as [Hj Hf]. rewrite Hh, Hp. apply HK; [done|by injection Hl|done].
Qed.
End map.
