(* ===== verification/FileGrow.v ===== *)
(** * Growing the tree of a file

    One slot of a tree changes: what stays, what is new, and that the
    allocating lookup does exactly that. *)

From S2P Require Import Prelude Format Crc RsInit RsLib Edac Dirent FileData Dir DirTree DirUpdate FileTree FileMap.

Definition valid_slots (d : nat) (slots : list Z) : Prop :=
  length slots = d /\ Forall (fun j => 0 <= j < 512) slots.

Section grow.
Context {S : Type} `{TO : TreeEnvOk S} `{LV : !LeafView}.

Lemma tree_allocated s d b x : tree_ok s d b -> x ∈ tree_blocks s d b -> allocated s x.
Proof.
  revert b. induction d as [|d IH]; intros b Hok Hx.
  - cbn in Hx. destruct (Z.eqb_spec b 0); [by apply elem_of_nil in Hx|].
    apply list_elem_of_singleton in Hx as ->. by destruct Hok as [->|[A _]].
  - destruct (decide (b = 0)) as [->|Hb]; [by apply elem_of_nil in Hx|].
    rewrite tree_blocks_children, elem_of_cons in Hx by done. pose proof Hok as Hok'.
    destruct Hok as [->|(A & _)]; [done|]. destruct Hx as [->|Hx]; [done|].
    apply elem_of_forest in Hx as (i & d' & p & Hi & Hx). pose proof (tree_ok_children s d b Hb Hok' i d' p Hi) as Ok.
    apply lookup_children_inv in Hi as (j & -> & Hj & -> & ->). by apply (IH _ Ok).
Qed.

Lemma same_keeps s s' b : same s s' -> allocated s b -> keeps s s' b.
Proof. intros [H1 H2 H3 _ _] A. split_and!; [by apply H1|by apply H2|apply H3]. Qed.

Lemma same_refl s : same s s.
Proof. by split. Qed.

Lemma same_trans s1 s2 s3 : same s1 s2 -> same s2 s3 -> same s1 s3.
Proof.
  intros [A1 R1 D1 P1 M1] [A2 R2 D2 P2 M2]. split; [|intros b A| | |lia].
  - intros b. by rewrite A2, A1.
  - rewrite R2 by (by apply A1). by apply R1.
  - intros b p H. by apply D2, D1.
  - intros H. by apply P2, P1.
Qed.

Lemma keeps_trans s1 s2 s3 b : keeps s1 s2 b -> keeps s2 s3 b -> keeps s1 s3 b.
Proof. intros (A1 & R1 & D1) (A2 & R2 & D2). split_and!; [done|by rewrite R2|]. intros p H. by apply D2, D1. Qed.

(** The tree under [b] changes along the path [slots] only. *)
Record grown (s s' : S) (d : nat) (b : Z) (slots : list Z) : Prop := {
  gr_ok : tree_ok s' d b;
  gr_nodup : NoDup (tree_blocks s' d b);
  gr_keep : forall x, allocated s x -> x ∉ tree_blocks s d b -> keeps s s' x;
  gr_alloc : forall x, allocated s' x <-> allocated s x \/ x ∈ tree_blocks s' d b;
  gr_old : forall x, x ∈ tree_blocks s d b -> x ∈ tree_blocks s' d b;
  gr_new : forall x, x ∈ tree_blocks s' d b -> x ∈ tree_blocks s d b \/ ~ allocated s x;
  gr_get : forall slots', valid_slots d slots' -> slots' <> slots -> tree_get s' b slots' = tree_get s b slots' }.

Lemma grown_same s s' d b slots :
  same s s' -> tree_ok s d b -> NoDup (tree_blocks s d b) -> grown s s' d b slots.
Proof.
  intros Hs Hok Hn. destruct (tree_frame s s' d b) as (F1 & F2 & F3); [|done|].
  { intros x Hx. apply same_keeps; [done|]. by apply (tree_allocated s d b). }
  split; rewrite ?F2; [done|done| | |done|by left|].
  - intros x A _. by apply same_keeps.
  - intros x. rewrite (sm_alloc _ _ Hs). split; [by left|]. intros [A|A]; [done|]. by apply (tree_allocated s d b).
  - intros slots' [H1 H2] _. by apply F3.
Qed.

Lemma grown_trans s1 s2 s3 d b slots :
  grown s1 s2 d b slots -> grown s2 s3 d b slots -> grown s1 s3 d b slots.
Proof.
  intros G H. split; [apply H|apply H| | | | |].
  - intros x A Hx. pose proof (gr_keep _ _ _ _ _ G x A Hx) as K. apply (keeps_trans s1 s2); [done|].
    apply (gr_keep _ _ _ _ _ H); [apply K|]. intros Hx2. by destruct (gr_new _ _ _ _ _ G x Hx2).
  - intros x. rewrite (gr_alloc _ _ _ _ _ H), (gr_alloc _ _ _ _ _ G).
    pose proof (gr_old _ _ _ _ _ H x). tauto.
  - intros x Hx. by apply (gr_old _ _ _ _ _ H), (gr_old _ _ _ _ _ G).
  - intros x Hx. destruct (gr_new _ _ _ _ _ H x Hx) as [Hx2|Hx2]; [by apply (gr_new _ _ _ _ _ G)|right].
    intros A. apply Hx2. apply (gr_alloc _ _ _ _ _ G). by left.
  - intros slots' V Hne. rewrite (gr_get _ _ _ _ _ H) by done. by apply (gr_get _ _ _ _ _ G).
Qed.

(** *** One tree of a forest *)

Record fgrown (s s' : S) (ts : list (nat * Z)) (i : nat) : Prop := {
  fg_ok : forest_ok s' ts;
  fg_keep : forall x, allocated s x -> x ∉ forest s ts -> keeps s s' x;
  fg_alloc : forall x, allocated s' x <-> allocated s x \/ x ∈ forest s' ts;
  fg_old : forall x, x ∈ forest s ts -> x ∈ forest s' ts;
  fg_new : forall x, x ∈ forest s' ts -> x ∈ forest s ts \/ ~ allocated s x;
  fg_other : forall j d b, j <> i -> ts !! j = Some (d, b) -> tree_blocks s' d b = tree_blocks s d b /\
    forall slots, valid_slots d slots -> tree_get s' b slots = tree_get s b slots }.

Lemma forest_step s s' ts i d b slots :
  forest_ok s ts -> ts !! i = Some (d, b) -> grown s s' d b slots -> fgrown s s' ts i.
Proof.
  intros [Ok Nd] Hi G. pose proof Nd as Nd0. apply forest_nodup in Nd as [Nd Dj].
  assert (O : forall j d' b', j <> i -> ts !! j = Some (d', b') -> tree_ok s' d' b' /\
    tree_blocks s' d' b' = tree_blocks s d' b' /\
    forall slots, valid_slots d' slots -> tree_get s' b' slots = tree_get s b' slots).
  { intros j d' b' Hne Hj. destruct (tree_frame s s' d' b') as (F1 & F2 & F3); [|by apply (Ok j)|].
    - intros x Hx. apply (gr_keep _ _ _ _ _ G); [apply (tree_allocated s d' b' x (Ok j d' b' Hj) Hx)|].
      intros Hx'. by apply (Dj j i d' b' d b x).
    - split_and!; [done|done|]. intros sl [V1 V2]. by apply F3. }
  assert (In : forall x, x ∈ forest s' ts <-> x ∈ tree_blocks s' d b \/
    exists j d' b', j <> i /\ ts !! j = Some (d', b') /\ x ∈ tree_blocks s d' b').
  { intros x. rewrite elem_of_forest. split.
    - intros (j & d' & b' & Hj & Hx). destruct (decide (j = i)) as [->|Hne].
      + rewrite Hi in Hj. injection Hj as <- <-. by left.
      + right. exists j, d', b'. destruct (O j d' b' Hne Hj) as (_ & <- & _). done.
    - intros [Hx|(j & d' & b' & Hne & Hj & Hx)]; [by exists i, d, b|].
      exists j, d', b'. destruct (O j d' b' Hne Hj) as (_ & -> & _). done. }
  assert (In0 : forall x, x ∈ forest s ts <-> x ∈ tree_blocks s d b \/
    exists j d' b', j <> i /\ ts !! j = Some (d', b') /\ x ∈ tree_blocks s d' b').
  { intros x. rewrite elem_of_forest. split.
    - intros (j & d' & b' & Hj & Hx). destruct (decide (j = i)) as [->|Hne].
      + rewrite Hi in Hj. injection Hj as <- <-. by left.
      + right. by exists j, d', b'.
    - intros [Hx|(j & d' & b' & Hne & Hj & Hx)]; [by exists i, d, b|]. by exists j, d', b'. }
  split.
  - split.
    + intros j d' b' Hj. destruct (decide (j = i)) as [->|Hne].
      * rewrite Hi in Hj. injection Hj as <- <-. apply G.
      * by apply (O j).
    + apply forest_nodup. split.
      * intros j d' b' Hj. destruct (decide (j = i)) as [->|Hne].
        -- rewrite Hi in Hj. injection Hj as <- <-. apply G.
        -- destruct (O j d' b' Hne Hj) as (_ & -> & _). by apply (Nd j).
      * assert (Sep : forall j d' b' x, j <> i -> ts !! j = Some (d', b') -> x ∈ tree_blocks s d' b' -> x ∉ tree_blocks s' d b).
        { intros j d' b' x Hne Hj Hx Hx'. destruct (gr_new _ _ _ _ _ G x Hx') as [Hx2|Hx2].
          - by apply (Dj j i d' b' d b x).
          - apply Hx2. by apply (tree_allocated s d' b' x (Ok j d' b' Hj)). }
        intros j k dj bj dk bk x Hne Hj Hk Hx Hx'.
        destruct (decide (j = i)) as [->|Hji]; [|destruct (decide (k = i)) as [->|Hki]].
        -- rewrite Hi in Hj. injection Hj as <- <-. destruct (O k dk bk ltac:(done) Hk) as (_ & Ek & _). rewrite Ek in Hx'.
           by apply (Sep k dk bk x).
        -- rewrite Hi in Hk. injection Hk as <- <-. destruct (O j dj bj ltac:(done) Hj) as (_ & Ej & _). rewrite Ej in Hx.
           by apply (Sep j dj bj x).
        -- destruct (O j dj bj ltac:(done) Hj) as (_ & Ej & _). destruct (O k dk bk ltac:(done) Hk) as (_ & Ek & _).
           rewrite Ej in Hx. rewrite Ek in Hx'. by apply (Dj j k dj bj dk bk x).
  - intros x A Hx. apply (gr_keep _ _ _ _ _ G); [done|]. intros Hx'. apply Hx, In0. by left.
  - intros x. rewrite (gr_alloc _ _ _ _ _ G), In. split; [tauto|]. intros [A|[Hx|(j & d' & b' & Hne & Hj & Hx)]]; [by left|by right|].
    left. by apply (tree_allocated s d' b' x (Ok j d' b' Hj)).
  - intros x. rewrite In, In0. intros [Hx|Hx]; [left; by apply (gr_old _ _ _ _ _ G)|by right].
  - intros x. rewrite In, In0. intros [Hx|Hx]; [|by left; right].
    destruct (gr_new _ _ _ _ _ G x Hx); [by left; left|by right].
  - intros j d' b' Hne Hj. destruct (O j d' b' Hne Hj) as (_ & ? & ?). done.
Qed.

(** A change under one child of a block of pointers. *)
Lemma grown_descend s s' d b p j slots :
  b <> 0 -> tree_ok s (Datatypes.S d) b -> NoDup (tree_blocks s (Datatypes.S d) b) ->
  bread s b = Some p -> 0 <= j < 512 -> grown s s' d (ptr p j) slots -> grown s s' (Datatypes.S d) b (j :: slots).
Proof.
  intros Hb Hok Hn Hp Hj G. assert (Hh : held s b = p) by (unfold held; by rewrite Hp).
  rewrite tree_blocks_children in Hn by done. apply list.NoDup_cons in Hn as [Hb1 Hn].
  assert (FO : forest_ok s (children s d b)) by (split; [by apply tree_ok_children|done]).
  pose proof (lookup_children s d b j Hj) as Hi. rewrite Hh in Hi.
  pose proof (forest_step s s' _ _ _ _ _ FO Hi G) as [F1 F2 F3 F4 F5 F6].
  assert (Ab : allocated s b) by (destruct Hok as [->|[A _]]; done).
  destruct (F2 b Ab Hb1) as (A' & R' & D').
  assert (Hh' : held s' b = p) by (unfold held; by rewrite R', Hp).
  assert (Hc : children s' d b = children s d b) by (unfold children, kids; by rewrite Hh', Hh).
  assert (Nb : b ∉ forest s' (children s d b)) by (intros Hx; by destruct (F5 b Hx)).
  destruct Hok as [->|(_ & p' & E & Z & B & De & C)]; [done|]. rewrite Hp in E. injection E as <-.
  split; rewrite ?(tree_blocks_children s' d b), ?(tree_blocks_children s d b), ?Hc by done.
  - right. split; [done|]. exists p. rewrite R'. split_and!; [done|done|done|by apply D'|].
    intros k Hk. pose proof (lookup_children s d b k Hk) as Hk'. rewrite Hh in Hk'. by apply (fo_ok _ _ F1 _ _ _ Hk').
  - apply list.NoDup_cons. split; [done|apply F1].
  - intros x A Hx. apply F2; [done|]. intros Hx'. apply Hx. by right.
  - intros x. rewrite F3, elem_of_cons. split; [tauto|]. intros [A|[->|Hx]]; [by left|by left|by right].
  - intros x. rewrite !elem_of_cons. intros [->|Hx]; [by left|right; by apply F4].
  - intros x. rewrite !elem_of_cons. intros [->|Hx]; [by left; left|]. destruct (F5 x Hx); [by left; right|by right].
  - intros [|k slots'] [V1 V2] Hne; [done|]. injection V1 as V1. apply list.Forall_cons in V2 as [Hk V2].
    cbn [tree_get]. destruct (Z.eqb_spec b 0); [done|]. rewrite Hh', Hh.
    destruct (decide (k = j)) as [->|Hkj].
    + apply (gr_get _ _ _ _ _ G); [done|]. intros ->. by apply Hne.
    + pose proof (lookup_children s d b k Hk) as Hk'. rewrite Hh in Hk'.
      apply (F6 (Z.to_nat k) d (ptr p k)); [lia|done|done].
Qed.

(** ** The steps of an allocation *)

(** A new block, everything else kept. *)
Record extended (s s' : S) (b : Z) : Prop := {
  ex_new : ~ allocated s b;
  ex_range : 0 < b < 2 ^ 64;
  ex_alloc : forall x, allocated s' x <-> x = b \/ allocated s x;
  ex_keep : forall x, allocated s x -> keeps s s' x;
  ex_par : par_ok s -> par_ok s' }.

Lemma extended_same s s1 s2 b : extended s s1 b -> same s1 s2 -> extended s s2 b.
Proof.
  intros [N R A K P] H. split; [done|done| | |].
  - intros x. by rewrite (sm_alloc _ _ H).
  - intros x Hx. apply (keeps_trans s s1); [by apply K|]. apply same_keeps; [done|]. apply A. by right.
  - intros Hp. by apply (sm_par _ _ H), P.
Qed.

Lemma alloc_buffer_spec s ino rc b s' :
  alloc_buffer s ino = (rc, b, s') ->
  room s <= room s' /\ (rc = 0 /\ extended s s' b \/ rc < 0 /\ b = 0 /\ same s s').
Proof.
  unfold alloc_buffer. destruct (balloc s ino) as [b1 s1] eqn:E.
  destruct (balloc_par _ _ _ _ E) as (P1 & P2 & P3 & P4).
  destruct (Z.eqb_spec b1 0) as [->|Hb].
  - intros H. assert (Sm : same s s1).
    { split; [by apply (balloc_none s ino)|intros x A; by apply (balloc_bread s ino 0 s1)|done|done|done]. }
    destruct (failed s1); injection H as <- <- <-; (split; [done|]); right; (split; [done|done]).
  - destruct (balloc_some _ _ _ _ E Hb) as (N & R & A).
    assert (K : forall x, allocated s x -> keeps s s1 x).
    { intros x Hx. split_and!; [apply A; by right|by apply (balloc_bread s ino b1 s1)|apply P4]. }
    destruct (getblk s1 b1); cbn [negb]; intros H; injection H as <- <- <-.
    + split; [done|left]. split; [done|]. by split.
    + destruct (bfree_freed s1 b1 ino) as [F1 F2 F3 F4 F5 F6]. specialize (F1 (P3 Hb)).
      split; [lia|right]. split; [done|]. split; [done|]. split; [| | | |lia].
      * intros x. rewrite F1, A. split; [tauto|]. intros Hx. split; [by right|]. by intros ->.
      * intros x Hx. rewrite F2; [by apply K|by apply K|]. by intros ->.
      * intros x p Hx. by apply F3, P4.
      * intros Hp. by apply F4, P1.
Qed.

Lemma extended_bput s s1 b p : extended s s1 b -> extended s (bput s1 b p) b /\ bread (bput s1 b p) b = Some p.
Proof.
  intros [N R A K P]. destruct (bput_par s1 b p) as (P1 & _ & _ & P4). split; [|apply bput_same]. split; [done|done| | |].
  - intros x. by rewrite bput_allocated.
  - intros x Hx. destruct (K x Hx) as (K1 & K2 & K3). split_and!.
    + by apply bput_allocated.
    + rewrite bput_other by (by intros ->). done.
    + intros q Hq. by apply P4, K3.
  - intros Hp. by apply P1, P.
Qed.

(** What is known is known of blocks in use. *)
Definition viewed (s : S) : Prop := forall b p, leaf_view b = Some p -> allocated s b.

Lemma viewed_mono s s' : viewed s -> (forall x, allocated s x -> allocated s' x) -> viewed s'.
Proof. intros V H b p E. by apply H, (V b p). Qed.

(** A tree that holds nothing below its root. *)
Record bare (s : S) (d : nat) (b : Z) : Prop := {
  ba_nz : b <> 0;
  ba_ok : tree_ok s d b;
  ba_blocks : tree_blocks s d b = [b];
  ba_get : forall j slots, valid_slots d (j :: slots) -> tree_get s b (j :: slots) = 0 }.

Lemma ptr_zeros j : ptr (zeros 4096) j = 0.
Proof. unfold ptr. apply DirUpdate.get_le64_zeros. Qed.

Lemma bare_zeros s d b :
  allocated s b -> bread s b = Some (zeros 4096) -> described s b (zeros 4096) -> bare s (Datatypes.S d) b.
Proof.
  intros A R D. pose proof (allocated_range s b A). assert (Hh : held s b = zeros 4096) by (unfold held; by rewrite R).
  assert (Z0 : forall n, tree_blocks s n 0 = []) by (by destruct n).
  split; [lia| | |].
  - right. split; [done|]. exists (zeros 4096). split_and!; [done|by rewrite zlen_zeros|apply bytes_zeros|done|].
    intros j _. rewrite ptr_zeros. destruct d; by left.
  - rewrite tree_blocks_children by lia. f_equal. unfold forest, children, kids. rewrite !map_map, Hh.
    induction (upto 512) as [|j l IH]; [done|]. cbn [map concat]. by rewrite IH, ptr_zeros, Z0.
  - intros j slots _. cbn [tree_get]. destruct (Z.eqb_spec b 0); [lia|]. rewrite Hh, ptr_zeros. by destruct slots.
Qed.

Lemma new_indirect_spec s ino rc b s' :
  par_ok s -> 0 < room s -> new_indirect s ino = (rc, b, s') ->
  room s - 1 <= room s' /\ (rc = 0 /\ extended s s' b /\ (forall d, bare s' (Datatypes.S d) b) \/ rc < 0 /\ same s s').
Proof.
  intros Hp Hr. unfold new_indirect. destruct (alloc_buffer s ino) as [[rc1 b1] s1] eqn:E.
  destruct (alloc_buffer_spec _ _ _ _ _ E) as (R1 & [(-> & X)|(Hn & -> & Sm)]); cbn [negb].
  2:{ destruct (Z.eqb_spec rc1 0); [lia|]. intros H. injection H as <- <- <-. split; [lia|by right]. }
  intros H. injection H as <- <- <-. destruct (tc_same s1 (TcZeroed ino b1)) as [St _].
  pose proof (extended_same _ _ _ _ X St) as X2. set (s2 := tc s1 _) in *. pose proof (sm_room _ _ St) as R2.
  destruct (extended_bput s s2 b1 (zeros 4096) X2) as [X3 Rd]. destruct (bput_par s2 b1 (zeros 4096)) as (_ & R3 & _ & _).
  change BEAMFS_BLOCK_SIZE with 4096. set (s3 := bput s2 b1 _) in *.
  assert (A3 : allocated s3 b1) by (apply (ex_alloc _ _ _ X3); by left).
  destruct (update_par s3 b1 (zeros 4096) ino) as (U1 & U2 & U3 & U4 & U5);
    [by apply X3|done|by rewrite zlen_zeros|apply bytes_zeros|lia|].
  split; [lia|left]. split; [done|]. split.
  - destruct X3 as [N R A K P]. split; [done|done| | |done].
    + intros x. by rewrite parity_allocated.
    + intros x Hx. destruct (K x Hx) as (K1 & K2 & K3). split_and!.
      * by apply parity_allocated.
      * by rewrite parity_bread.
      * intros p Hq. apply U5; [by intros ->|done|by apply K3].
  - intros d. apply bare_zeros; [by apply parity_allocated|by rewrite parity_bread|done].
Qed.

Lemma new_data_spec `{RL : !RsLib} `{CL : !CrcLib} c t cpu s ino iblock rc b s' :
  viewed s -> new_data c t cpu s ino iblock = (rc, b, s') ->
  room s <= room s' /\ (rc = 0 /\ extended s s' b /\ bare s' 0 b /\
    bread s' b = Some (fresh_data_block c t cpu ino iblock) \/ rc < 0 /\ same s s').
Proof.
  intros Vw. unfold new_data. destruct (alloc_buffer s ino) as [[rc1 b1] s1] eqn:E.
  destruct (alloc_buffer_spec _ _ _ _ _ E) as (R1 & [(-> & X)|(Hn & -> & Sm)]); cbn [negb].
  2:{ destruct (Z.eqb_spec rc1 0); [lia|]. intros H. injection H as <- <- <-. split; [lia|by right]. }
  intros H. injection H as <- <- <-.
  destruct (bput_par s1 b1 (fresh_data_block c t cpu ino iblock)) as (_ & R3 & _ & _).
  destruct (extended_bput s s1 b1 (fresh_data_block c t cpu ino iblock) X) as [X3 Rd].
  split; [lia|left]. split_and!; [done|done| |done]. pose proof (ex_range _ _ _ X3).
  assert (A3 : allocated (bput s1 b1 (fresh_data_block c t cpu ino iblock)) b1) by (apply (ex_alloc _ _ _ X3); by left).
  split; [lia|right; split; [done|]| |by intros ? ? [? _]].
  { intros p Hp. by destruct (ex_new _ _ _ X3); apply (Vw b1 p). }
  cbn [tree_blocks]. destruct (Z.eqb_spec b1 0); [lia|done].
Qed.
End grow.

(** Nothing known, nothing to ask. *)
Lemma viewed_none {S} `{TO : TreeEnvOk S} s : viewed (LV := no_view) s.
Proof. by intros b p. Qed.

(** ** The allocating lookup

    [beamfs_inline_lookup_or_alloc_phys_new] over the map a file
    represents: it adds at most the block it was asked for. *)

(** The pointers and the identity of an inode are the same. *)
Record same_inode (f f' : finode) : Prop := {
  si_ino : fi_ino f' = fi_ino f;
  si_direct : fi_direct f' = fi_direct f;
  si_indirect : fi_indirect f' = fi_indirect f;
  si_dindirect : fi_dindirect f' = fi_dindirect f;
  si_tindirect : fi_tindirect f' = fi_tindirect f }.

Lemma same_inode_refl f : same_inode f f.
Proof. by split. Qed.

Lemma same_inode_dirty f f' : same_inode (fmark_dirty f) f' -> same_inode f f'.
Proof. by intros []. Qed.

Lemma ptr_put p j k q :
  zlen p = 4096 -> 0 <= j < 512 -> 0 <= k < 512 -> 0 <= q < 2 ^ 64 ->
  ptr (put_le64 p (8 * j) q) k = if decide (k = j) then q else ptr p k.
Proof.
  intros Zp Hj Hk Hq. unfold ptr. case_decide as E.
  - subst k. apply get_put_le64; lia.
  - unfold get_le64, put_le64. f_equal. apply slice_splice_ne; rewrite ?zlen_le_bytes; lia.
Qed.

Section install.
Context {S : Type} `{TO : TreeEnvOk S} `{LV : !LeafView}.

(** What an install leaves: the pointer in its parent, the rest kept. *)
Lemma install_effect s ino b p j q :
  par_ok s -> allocated s b -> zlen p = 4096 -> bytes p -> 0 < room s -> 0 <= j < 512 ->
  let p' := put_le64 p (8 * j) q in let s' := install s ino b p j q in
  par_ok s' /\ room s - 1 <= room s' /\ (forall x, allocated s' x <-> allocated s x) /\
  bread s' b = Some p' /\ described s' b p' /\ zlen p' = 4096 /\ bytes p' /\
  forall x, allocated s x -> x <> b -> keeps s s' x.
Proof.
  intros Hp A Zp Bp Hr Hj p' s'. assert (Zp' : zlen p' = 4096).
  { unfold p', put_le64. rewrite zlen_splice; rewrite ?zlen_le_bytes; lia. }
  assert (Bp' : bytes p') by (apply bytes_splice; [done|apply bytes_le_bytes]).
  unfold s', install. set (s1 := tc s _). destruct (tc_same s (TcStore ino b j (ptr p j) q)) as [T1 _]. fold s1 in T1.
  fold p'. set (s2 := bput s1 b p'). destruct (bput_par s1 b p') as (P1 & P2 & _ & P4). fold s2 in P1, P2, P4.
  assert (A2 : forall x, allocated s2 x <-> allocated s x).
  { intros x. unfold s2. rewrite bput_allocated. apply T1. }
  pose proof (sm_room _ _ T1) as R1.
  destruct (update_par s2 b p' ino) as (U1 & U2 & U3 & _ & U5); [by apply P1, T1|by apply A2|done|done|lia|].
  set (s3 := parity_update s2 b p' ino) in *.
  assert (Sm : same s3 (beamfs_attach_dirty s3 b)).
  { unfold beamfs_attach_dirty. destruct (uptodate s3 b); [apply same_refl|apply fail_same]. }
  pose proof (sm_room _ _ Sm) as R3.
  assert (A3 : forall x, allocated s3 x <-> allocated s x) by (intros x; unfold s3; by rewrite parity_allocated).
  split; [by apply Sm|]. split; [lia|]. split; [intros x; by rewrite (sm_alloc _ _ Sm)|]. split_and!.
  - rewrite (sm_read _ _ Sm) by (by apply A3). unfold s3. rewrite parity_bread by (by apply A2). apply bput_same.
  - by apply Sm.
  - done.
  - done.
  - intros x Hx Hne. split_and!.
    + by apply (sm_alloc _ _ Sm), A3.
    + rewrite (sm_read _ _ Sm) by (by apply A3). unfold s3. rewrite parity_bread by (by apply A2).
      unfold s2. rewrite bput_other by done. by apply T1.
    + intros r Hd. apply Sm. apply U5; [done|by apply A2|]. by apply P4, T1.
Qed.

(** A new bare subtree [q] put into an empty slot. *)
Lemma install_spec s s1 ino b p j q d rest :
  b <> 0 -> tree_ok s (Datatypes.S d) b -> NoDup (tree_blocks s (Datatypes.S d) b) ->
  bread s b = Some p -> ptr p j = 0 -> 0 <= j < 512 -> length rest = d ->
  par_ok s -> extended s s1 q -> bare s1 d q -> 0 < room s1 ->
  let s2 := install s1 ino b p j q in
  grown s s2 (Datatypes.S d) b (j :: rest) /\ bread s2 b = Some (put_le64 p (8 * j) q) /\ zlen p = 4096 /\
  par_ok s2 /\ room s1 - 1 <= room s2 /\ bare s2 d q /\ bread s2 q = bread s1 q.
Proof.
  intros Hb Hok Hn Hp H0 Hj Hrest Par X Ba Hr s2.
  rewrite tree_blocks_children in Hn by done. apply list.NoDup_cons in Hn as [Hb1 Hn].
  pose proof Hok as Hok0. destruct Hok as [->|(Ab & p0 & E & Zp & Bp & De & C)]; [done|]. rewrite Hp in E. injection E as <-.
  assert (Hh : held s b = p) by (unfold held; by rewrite Hp).
  assert (Ab1 : allocated s1 b) by (apply X; by right).
  assert (Hqb : q <> b) by (intros ->; by apply (ex_new _ _ _ X)).
  destruct (install_effect s1 ino b p j q) as (I1 & I2 & I3 & I4 & I5 & I6 & I7 & I8); [by apply X|done..|].
  fold s2 in I1, I2, I3, I4, I5, I8. set (p' := put_le64 p (8 * j) q) in *.
  assert (K : forall x, allocated s x -> x <> b -> keeps s s2 x).
  { intros x Hx Hne. apply (keeps_trans s s1); [by apply X|]. apply I8; [apply X; by right|done]. }
  assert (Aq : allocated s1 q) by (apply X; by left).
  destruct (tree_frame s1 s2 d q) as (Q1 & Q2 & Q3);
    [intros x Hx; rewrite (ba_blocks _ _ _ Ba) in Hx; apply list_elem_of_singleton in Hx as ->; by apply I8|apply Ba|].
  assert (Ba2 : bare s2 d q).
  { split; [apply Ba|done|by rewrite Q2; apply Ba|]. intros k sl [V1 V2]. rewrite Q3 by done. by apply (ba_get _ _ _ Ba). }
  assert (Hh2 : held s2 b = p') by (unfold held; by rewrite I4).
  pose proof (ex_range _ _ _ X) as Rq.
  assert (Hptr : forall k, 0 <= k < 512 -> ptr p' k = if decide (k = j) then q else ptr p k)
    by (intros k Hk; apply ptr_put; lia).
  assert (FO : forest_ok s (children s d b)) by (split; [by apply tree_ok_children|done]).
  assert (Sib : forall k, 0 <= k < 512 -> k <> j -> tree_ok s2 d (ptr p k) /\ tree_blocks s2 d (ptr p k) = tree_blocks s d (ptr p k) /\
    forall sl, length sl = d -> Forall (fun j => 0 <= j < 512) sl -> tree_get s2 (ptr p k) sl = tree_get s (ptr p k) sl).
  { intros k Hk Hne. apply tree_frame; [|by apply C]. intros x Hx. apply K; [by apply (tree_allocated s d (ptr p k)); [apply C|]|].
    intros ->. apply Hb1, elem_of_forest. exists (Z.to_nat k), d, (ptr p k). rewrite lookup_children, Hh by done. done. }
  assert (In2 : forall x, x ∈ forest s2 (children s2 d b) <-> x = q \/ x ∈ forest s (children s d b)).
  { intros x. rewrite !elem_of_forest. split.
    - intros (i & d' & r & Hi & Hx). apply lookup_children_inv in Hi as (k & -> & Hk & -> & ->).
      rewrite Hh2, Hptr in Hx by done. case_decide.
      + left. rewrite (ba_blocks _ _ _ Ba2) in Hx. by apply list_elem_of_singleton in Hx.
      + right. exists (Z.to_nat k), d, (ptr p k). rewrite lookup_children, Hh by done. split; [done|].
        destruct (Sib k Hk ltac:(done)) as (_ & <- & _). done.
    - intros [->|(i & d' & r & Hi & Hx)].
      + exists (Z.to_nat j), d, q. rewrite lookup_children, Hh2, Hptr by done. rewrite decide_True by done.
        split; [done|]. rewrite (ba_blocks _ _ _ Ba2). by left.
      + apply lookup_children_inv in Hi as (k & -> & Hk & -> & ->). rewrite Hh in Hx.
        destruct (decide (k = j)) as [->|Hne]; [rewrite H0 in Hx; destruct d; by apply elem_of_nil in Hx|].
        exists (Z.to_nat k), d, (ptr p k). rewrite lookup_children, Hh2, Hptr by done. rewrite decide_False by done.
        split; [done|]. destruct (Sib k Hk Hne) as (_ & -> & _). done. }
  assert (Hall : forall x, x ∈ forest s (children s d b) -> allocated s x).
  { intros x Hx. apply elem_of_forest in Hx as (i & d' & r & Hi & Hx). by apply (tree_allocated s d' r x (fo_ok _ _ FO i d' r Hi)). }
  split; [|split_and!; [done|done|done|done|done|by apply I8]].
  apply forest_nodup in Hn as [Nd Dj].
  split; rewrite ?(tree_blocks_children s2 d b), ?(tree_blocks_children s d b) by done.
  - right. split; [by apply I3|]. exists p'. split_and!; [done|done|done|done|]. intros k Hk. rewrite Hptr by done.
    case_decide; [apply Ba2|by apply Sib].
  - apply list.NoDup_cons. split; [rewrite In2; intros [->|Hx]; done|]. apply forest_nodup. split.
    + intros i d' r Hi. apply lookup_children_inv in Hi as (k & -> & Hk & -> & ->). rewrite Hh2, Hptr by done.
      case_decide; [rewrite (ba_blocks _ _ _ Ba2); apply NoDup_singleton|].
      destruct (Sib k Hk ltac:(done)) as (_ & -> & _). apply (Nd (Z.to_nat k) d). by rewrite lookup_children, Hh.
    + intros i i' d1 r1 d2 r2 x Hne Hi Hi' Hx Hx'.
      apply lookup_children_inv in Hi as (k & -> & Hk & -> & ->). apply lookup_children_inv in Hi' as (k' & -> & Hk' & -> & ->).
      rewrite Hh2, Hptr in Hx, Hx' by done. assert (Hs : forall m, 0 <= m < 512 -> m <> j -> q ∉ tree_blocks s2 d (ptr p m)).
      { intros m Hm Hmj Hq. destruct (Sib m Hm Hmj) as (_ & Em & _). rewrite Em in Hq.
        apply (ex_new _ _ _ X). by apply (tree_allocated s d (ptr p m) q (C m Hm)). }
      destruct (decide (k = j)) as [J|J], (decide (k' = j)) as [J'|J'].
      * apply Hne. by rewrite J, J'.
      * rewrite (ba_blocks _ _ _ Ba2) in Hx. apply list_elem_of_singleton in Hx as ->. by apply (Hs k').
      * rewrite (ba_blocks _ _ _ Ba2) in Hx'. apply list_elem_of_singleton in Hx' as ->. by apply (Hs k).
      * destruct (Sib k Hk J) as (_ & E1 & _). destruct (Sib k' Hk' J') as (_ & E2 & _).
        rewrite E1 in Hx. rewrite E2 in Hx'.
        apply (Dj (Z.to_nat k) (Z.to_nat k') d (ptr p k) d (ptr p k') x); [done|by rewrite lookup_children, Hh..|done|done].
  - intros x Hx Hnx. apply K; [done|]. intros ->. apply Hnx. by left.
  - intros x. rewrite I3, (ex_alloc _ _ _ X), elem_of_cons, In2. split; [tauto|].
    intros [Hx|[->|[->|Hx]]]; [by right|by right|by left|right; by apply Hall].
  - intros x. rewrite !elem_of_cons, In2. tauto.
  - intros x. rewrite !elem_of_cons, In2. intros [->|[->|Hx]]; [by left; left|right; apply X|by left; right].
  - intros [|k sl] [V1 V2] Hne; [done|]. injection V1 as V1. apply list.Forall_cons in V2 as [Hk V2].
    cbn [tree_get]. destruct (Z.eqb_spec b 0); [done|]. rewrite Hh2, Hh, Hptr by done. case_decide as Ek.
    + subst k. rewrite H0. assert (Hsl : sl <> rest) by (intros ->; by apply Hne).
      destruct sl as [|k' sl]; [destruct rest; [done|cbn in *; lia]|]. rewrite (ba_get _ _ _ Ba2) by done. done.
    + by apply Sib.
Qed.
End install.

Section alloc.
Context {S : Type} `{RL : !RsLib} `{CL : !CrcLib} `{TO : TreeEnvOk S} `{LV : !LeafView}.
Context (c : data_cfg) (t : rs_tables) (cpu : nat).

(** The outcome of a walk that asks for the block at the end of a path:
    [old] and [new] are what the path led to before and after. *)
Definition outcome (s s' : S) (ino iblock old new rc r : Z) (fresh : bool) : Prop :=
  rc = 0 /\ fresh = false /\ r = old /\ new = old /\ r <> 0 \/
  rc = 0 /\ fresh = true /\ old = 0 /\ new = r /\ r <> 0 /\ ~ allocated s r /\
    bread s' r = Some (fresh_data_block c t cpu ino iblock) \/
  rc < 0 /\ fresh = false /\ r = 0 /\ old = 0 /\ new = 0.

Lemma same_tree s s' d b slots :
  same s s' -> tree_ok s d b -> NoDup (tree_blocks s d b) -> valid_slots d slots ->
  tree_ok s' d b /\ NoDup (tree_blocks s' d b) /\ tree_get s' b slots = tree_get s b slots.
Proof.
  intros Sm Hok Hn [V1 V2]. destruct (tree_frame s s' d b) as (F1 & F2 & F3); [|done|].
  - intros x Hx. apply same_keeps; [done|]. by apply (tree_allocated s d b).
  - rewrite F2. split_and!; [done|done|by apply F3].
Qed.

Lemma ok_range s d b : b <> 0 -> tree_ok s d b -> allocated s b.
Proof. intros Hb H. destruct d; by destruct H as [?|[? _]]. Qed.

Lemma alloc_slots_spec slots : forall s f iblock now b rc r fresh f' s',
  slots <> [] -> Forall (fun j => 0 <= j < 512) slots -> b <> 0 -> tree_ok s (length slots) b ->
  NoDup (tree_blocks s (length slots) b) -> par_ok s -> viewed s -> 2 * zlen slots <= room s ->
  alloc_slots c t cpu s f iblock now b slots = (rc, r, fresh, f', s') ->
  grown s s' (length slots) b slots /\ par_ok s' /\ room s - 2 * zlen slots <= room s' /\ same_inode f f' /\
  outcome s s' (fi_ino f) iblock (tree_get s b slots) (tree_get s' b slots) rc r fresh.
Proof.
  induction slots as [|j rest IH]; intros s f iblock now b rc r fresh f' s' Hne V Hb Hok Hn Par Vw Hr E; [done|]. clear Hne.
  apply list.Forall_cons in V as [Hj V]. rewrite zlen_cons in *. pose proof (zlen_nonneg rest) as Hz.
  pose proof (ok_range s _ b Hb Hok) as Ab. cbn [length] in Hok, Hn.
  pose proof Hok as Hok0. destruct Hok0 as [->|(_ & p & Hp & Zp & Bp & De & C)]; [done|].
  cbn [alloc_slots] in E. rewrite Hp in E.
  destruct (verify_same s b p Par Ab Zp Bp De) as (s1 & Ev & Sm & _). rewrite Ev in E. cbn [negb Z.eqb] in E.
  assert (V0 : valid_slots (Datatypes.S (length rest)) (j :: rest)) by (split; [done|by apply list.Forall_cons]).
  destruct (same_tree s s1 _ b (j :: rest) Sm Hok Hn V0) as (Hok1 & Hn1 & Hg1).
  pose proof (grown_same s s1 _ b (j :: rest) Sm Hok Hn) as G1.
  assert (Hp1 : bread s1 b = Some p) by (by rewrite (sm_read _ _ Sm)).
  pose proof (sm_par _ _ Sm Par) as Par1. pose proof (sm_room _ _ Sm) as R1.
  assert (Vw1 : viewed s1) by (apply (viewed_mono s); [done|]; intros x; apply (sm_alloc _ _ Sm)).
  assert (Hget : forall s0 q, bread s0 b = Some q -> tree_get s0 b (j :: rest) = tree_get s0 (ptr q j) rest).
  { intros s0 q Hq. cbn [tree_get]. destruct (Z.eqb_spec b 0); [done|]. unfold held. by rewrite Hq. }
  assert (Hok1' : tree_ok s1 (length rest) (ptr p j)).
  { destruct Hok1 as [->|(_ & p1 & Hp' & _ & _ & _ & C1)]; [done|]. rewrite Hp1 in Hp'. injection Hp' as <-. by apply C1. }
  assert (Hdesc : forall s2 q, grown s1 s2 (length rest) q rest -> bread s1 b = Some p -> ptr p j = q ->
    grown s s2 (Datatypes.S (length rest)) b (j :: rest) /\ bread s2 b = Some p).
  { intros s2 q G Hpp <-. split; [apply (grown_trans s s1); [done|]; by apply (grown_descend s1 s2 (length rest) b p j rest)|].
    rewrite tree_blocks_children in Hn1 by done. apply list.NoDup_cons in Hn1 as [Hn1 _].
    destruct (gr_keep _ _ _ _ _ G b) as (_ & -> & _); [by apply (ok_range s1 _ b Hb Hok1)| |done].
    intros Hx. apply Hn1, elem_of_forest. exists (Z.to_nat j), (length rest), (ptr p j).
    rewrite lookup_children by done. unfold held. by rewrite Hpp. }
  destruct (decide (ptr p j = 0)) as [H0|H0].
  - (* an empty slot *)
    assert (Old : tree_get s b (j :: rest) = 0) by (rewrite (Hget s p), H0 by done; by destruct rest).
    assert (New : forall s2, grown s1 s2 (length rest) 0 rest -> bread s2 b = Some p -> tree_get s2 b (j :: rest) = 0)
      by (intros s2 _ Hq; rewrite (Hget s2 p), H0 by done; by destruct rest).
    destruct rest as [|j2 rest].
    + rewrite H0 in E. cbn [negb Z.eqb] in E. destruct (new_data c t cpu s1 (fi_ino f) iblock) as [[rc1 q] s2] eqn:En.
      destruct (new_data_spec _ _ _ _ _ _ _ _ _ Vw1 En) as (R2 & [(-> & X & Ba & Rd)|(Hneg & Sm2)]).
      * cbn [negb Z.eqb] in E. injection E as <- <- <- <- <-. change (zlen (@nil Z)) with 0 in *.
        destruct (install_spec s1 s2 (fi_ino f) b p j q 0 [] Hb Hok1 Hn1 Hp1 H0 Hj eq_refl Par1 X Ba ltac:(lia))
          as (G & Rb & _ & P2 & R3 & Ba2 & Rq).
        split; [by apply (grown_trans s s1)|]. split; [done|]. split; [lia|]. split; [by split|]. right; left.
        rewrite (Hget _ _ Rb), ptr_put by (done || lia || (pose proof (ex_range _ _ _ X); lia)). rewrite decide_True by done.
        pose proof (ba_nz _ _ _ Ba) as Hq.
        assert (Hq0 : forall s0, tree_get s0 q [] = q) by (intros s0; cbn [tree_get]; by destruct (Z.eqb_spec q 0)).
        rewrite Hq0.
        split_and!; [done|done|by rewrite Old|done|done| |by rewrite Rq].
        intros A. apply (ex_new _ _ _ X). by apply (sm_alloc _ _ Sm).
      * destruct (Z.eqb_spec rc1 0); [lia|]. cbn [negb] in E. injection E as <- <- <- <- <-.
        pose proof (same_trans s s1 s2 Sm Sm2) as Sm12. split; [exact (grown_same s s2 _ b _ Sm12 Hok Hn)|]. split; [by apply Sm12|].
        pose proof (sm_room _ _ Sm12). split; [lia|]. split; [by split|]. right; right.
        split_and!; [done|done|done|by rewrite Old|]. rewrite (Hget s2 p), H0; [done|].
        rewrite (sm_read _ _ Sm12); done.
    + rewrite H0 in E. cbn [negb Z.eqb] in E. destruct (new_indirect s1 (fi_ino f)) as [[rc1 q] s2] eqn:En.
      rewrite zlen_cons in *. pose proof (zlen_nonneg rest).
      destruct (new_indirect_spec s1 (fi_ino f) rc1 q s2 Par1 ltac:(lia) En) as (R2 & [(-> & X & Ba)|(Hneg & Sm2)]).
      * cbn [negb Z.eqb] in E.
        destruct (install_spec s1 s2 (fi_ino f) b p j q (length (j2 :: rest)) (j2 :: rest) Hb Hok1 Hn1 Hp1 H0 Hj eq_refl
          Par1 X (Ba _) ltac:(lia)) as (G & Rb & _ & P2 & R3 & Ba2 & Rq).
        set (s3 := install s2 (fi_ino f) b p j q) in *. set (p' := put_le64 p (8 * j) q) in *.
        pose proof (ba_nz _ _ _ Ba2) as Hq.
        destruct (IH s3 (fmark_dirty f) iblock now q rc r fresh f' s') as (G3 & P3 & R4 & I3 & O3);
          [done|done|done|apply Ba2|rewrite (ba_blocks _ _ _ Ba2); apply NoDup_singleton|done| |lia|exact E|].
        { apply (viewed_mono s1); [done|]. intros x A. apply (gr_alloc _ _ _ _ _ G). by left. }
        assert (Pj : ptr p' j = q).
        { unfold p'. rewrite ptr_put by (done || lia || (pose proof (ex_range _ _ _ X); lia)). by rewrite decide_True. }
        assert (G4 : grown s3 s' (Datatypes.S (length (j2 :: rest))) b (j :: j2 :: rest)).
        { apply (grown_descend s3 s' _ b p' j); [done|apply G|apply G|done|done|by rewrite Pj]. }
        assert (Rb' : bread s' b = Some p').
        { destruct (gr_keep _ _ _ _ _ G3 b) as (_ & -> & _); [| |done].
          - by apply (ok_range s3 (Datatypes.S (length (j2 :: rest))) b Hb), G.
          - rewrite (ba_blocks _ _ _ Ba2). intros ->%list_elem_of_singleton. apply (ex_new _ _ _ X). by apply (sm_alloc _ _ Sm). }
        split; [apply (grown_trans s s1); [done|by apply (grown_trans s1 s3)]|]. split; [done|]. split; [lia|].
        split; [by apply same_inode_dirty|].
        rewrite (Hget _ _ Rb'), Pj. rewrite Old.
        assert (Z3 : tree_get s3 q (j2 :: rest) = 0) by (apply (ba_get _ _ _ Ba2); by split).
        rewrite Z3 in O3. destruct O3 as [(-> & -> & -> & O4 & O5)|[(-> & -> & _ & O4 & O5 & O6 & O7)|(O1 & -> & -> & _ & O4)]];
          [done| |by right; right].
        right; left. split_and!; [done|done|done|done|done| |done]. intros A. apply O6.
        apply (gr_alloc _ _ _ _ _ G). left. exact (proj2 (sm_alloc _ _ Sm r) A).
      * destruct (Z.eqb_spec rc1 0); [lia|]. cbn [negb] in E. injection E as <- <- <- <- <-.
        pose proof (same_trans s s1 s2 Sm Sm2) as Sm12. split; [exact (grown_same s s2 _ b _ Sm12 Hok Hn)|]. split; [by apply Sm12|].
        pose proof (sm_room _ _ Sm12). split; [lia|]. split; [by split|]. right; right.
        split_and!; [done|done|done|by rewrite Old|]. rewrite (Hget s2 p), H0; [done|].
        rewrite (sm_read _ _ Sm12); done.
  - (* the slot is taken *)
    destruct (Z.eqb_spec (ptr p j) 0) as [?|_]; [done|]. cbn [negb] in E. destruct rest as [|j2 rest].
    + injection E as <- <- <- <- <-. split; [done|]. split; [done|]. split; [lia|]. split; [by split|]. left.
      rewrite (Hget s p), (Hget s1 p) by done. cbn [tree_get]. by destruct (Z.eqb_spec (ptr p j) 0).
    + assert (Hn2 : NoDup (tree_blocks s1 (length (j2 :: rest)) (ptr p j))).
      { rewrite tree_blocks_children in Hn1 by done. apply list.NoDup_cons in Hn1 as [_ Hn1]. apply forest_nodup in Hn1 as [Hn1 _].
        apply (Hn1 (Z.to_nat j) _). rewrite lookup_children by done. unfold held. by rewrite Hp1. }
      destruct (IH s1 f iblock now (ptr p j) rc r fresh f' s') as (G3 & P3 & R4 & I3 & O3);
        [done|done|done|done|done|done|done|lia|exact E|].
      destruct (Hdesc s' (ptr p j) G3 Hp1 eq_refl) as [G4 Rb']. split; [done|]. split; [done|]. split; [lia|]. split; [done|].
      rewrite (Hget s' p), (Hget s p) by done.
      assert (Hg : tree_get s1 (ptr p j) (j2 :: rest) = tree_get s (ptr p j) (j2 :: rest))
        by (by rewrite <- (Hget s1 p), <- (Hget s p)).
      rewrite Hg in O3. destruct O3 as [O3|[(-> & -> & O2 & O4 & O5 & O6 & O7)|O3]]; [by left| |by right; right].
      right; left. split_and!; [done|done|done|done|done| |done]. intros A. apply O6. by apply (sm_alloc _ _ Sm).
Qed.
End alloc.
