(* ===== verification/FileTheorems.v ===== *)
(** * The roots of a file

    A file is a forest of fifteen trees: twelve data blocks and one tree
    of one, two and three levels of pointers. *)

From S2P Require Import Prelude Format Crc RsInit RsLib Edac Dirent FileData Dir DirTree FileTree FileMap FileGrow.

Definition file_roots (f : finode) : list (nat * Z) :=
  map (fun b => (0%nat, b)) (fi_direct f) ++ [(1%nat, fi_indirect f); (2%nat, fi_dindirect f); (3%nat, fi_tindirect f)].

(** The root of a logical block and the slots under it. *)
Definition path (iblock : Z) : nat * list Z :=
  if iblock <? BEAMFS_DIRECT_BLOCKS then (Z.to_nat iblock, [])
  else if iblock <? BEAMFS_DIRECT_BLOCKS + BEAMFS_INDIRECT_PTRS then (12%nat, [iblock - BEAMFS_DIRECT_BLOCKS])
  else if iblock <? BEAMFS_MAX_IBLOCK_DINDIRECT then (13%nat, dind_slots iblock)
  else (14%nat, tind_slots iblock).

Definition path_depth (iblock : Z) : nat := length (snd (path iblock)).

Definition file_block (iblock : Z) : Prop := 0 <= iblock < BEAMFS_MAX_IBLOCK_TINDIRECT.

Ltac path_consts :=
  unfold path, dind_slots, tind_slots, file_block in *;
  change BEAMFS_DIRECT_BLOCKS with 12 in *; change BEAMFS_INDIRECT_PTRS with 512 in *;
  change BEAMFS_MAX_IBLOCK_INDIRECT with 524 in *; change BEAMFS_MAX_IBLOCK_DINDIRECT with 262668 in *;
  change BEAMFS_MAX_IBLOCK_TINDIRECT with 134480396 in *.

Lemma path_valid i : file_block i -> valid_slots (path_depth i) (snd (path i)).
Proof.
  intros Hi. split; [done|]. path_consts.
  destruct (Z.ltb_spec i 12); [constructor|].
  destruct (Z.ltb_spec i (12 + 512)); cbn [snd]; [repeat constructor; lia|].
  destruct (Z.ltb_spec i 262668); cbn [snd]; repeat constructor; Z.to_euclidean_division_equations; lia.
Qed.

Lemma path_inj i j : file_block i -> file_block j -> path i = path j -> i = j.
Proof.
  intros Hi Hj. path_consts.
  destruct (Z.ltb_spec i 12), (Z.ltb_spec j 12); try (destruct (Z.ltb_spec i (12 + 512))); try (destruct (Z.ltb_spec j (12 + 512)));
    try (destruct (Z.ltb_spec i 262668)); try (destruct (Z.ltb_spec j 262668)); intros E; injection E; intros; try done;
    try lia; Z.to_euclidean_division_equations; lia.
Qed.

Lemma path_root f i :
  zlen (fi_direct f) = 12 -> file_block i ->
  exists b, file_roots f !! fst (path i) = Some (path_depth i, b) /\
    b = (if i <? 12 then getb (fi_direct f) i else if i <? 524 then fi_indirect f
         else if i <? 262668 then fi_dindirect f else fi_tindirect f).
Proof.
  intros Hd Hi. unfold path_depth, file_roots. path_consts. unfold zlen in Hd.
  assert (Hl : length (map (fun b => (0%nat, b)) (fi_direct f)) = 12%nat) by (rewrite length_map; lia).
  change (12 + 512) with 524. eexists; split; [|reflexivity].
  destruct (Z.ltb_spec i 12).
  { cbn [fst snd length]. rewrite lookup_app_l, list_lookup_fmap by lia.
    destruct (lookup_lt_is_Some_2 (fi_direct f) (Z.to_nat i) ltac:(lia)) as [b Eb]. rewrite Eb. cbn. do 2 f_equal.
    unfold getb. by rewrite (nth_lookup_Some _ _ _ b). }
  destruct (Z.ltb_spec i 524); [|destruct (Z.ltb_spec i 262668)]; cbn [fst snd length]; by rewrite lookup_app_r, Hl by lia.
Qed.

Section roots.
Context {S : Type} `{TO : TreeEnvOk S} `{LV : !LeafView}.

Definition file_blocks (s : S) (f : finode) : list Z := forest s (file_roots f).

(** The map: the physical block of a logical block, 0 for a hole. *)
Definition fget (s : S) (f : finode) (iblock : Z) : Z :=
  match file_roots f !! fst (path iblock) with
  | Some (_, b) => tree_get s b (snd (path iblock))
  | None => 0
  end.

Record wf_file (s : S) (f : finode) : Prop := {
  wff_direct : zlen (fi_direct f) = 12;
  wff_forest : forest_ok s (file_roots f) }.

(** ** Changes of a forest *)

Record rgrown (s s' : S) (ts ts' : list (nat * Z)) (k : nat) (slots : list Z) : Prop := {
  rg_ok : forest_ok s' ts';
  rg_keep : forall x, allocated s x -> x ∉ forest s ts -> keeps s s' x;
  rg_alloc : forall x, allocated s' x <-> allocated s x \/ x ∈ forest s' ts';
  rg_old : forall x, x ∈ forest s ts -> x ∈ forest s' ts';
  rg_new : forall x, x ∈ forest s' ts' -> x ∈ forest s ts \/ ~ allocated s x;
  rg_get : forall j d b sl, ts !! j = Some (d, b) -> valid_slots d sl -> (j, sl) <> (k, slots) ->
    exists b', ts' !! j = Some (d, b') /\ tree_get s' b' sl = tree_get s b sl }.

Lemma rgrown_trans s1 s2 s3 t1 t2 t3 k slots :
  rgrown s1 s2 t1 t2 k slots -> rgrown s2 s3 t2 t3 k slots -> rgrown s1 s3 t1 t3 k slots.
Proof.
  intros G H. split; [apply H| | | | |].
  - intros x A Hx. pose proof (rg_keep _ _ _ _ _ _ G x A Hx) as K. apply (keeps_trans s1 s2); [done|].
    apply (rg_keep _ _ _ _ _ _ H); [apply K|]. intros Hx2. by destruct (rg_new _ _ _ _ _ _ G x Hx2).
  - intros x. rewrite (rg_alloc _ _ _ _ _ _ H), (rg_alloc _ _ _ _ _ _ G).
    pose proof (rg_old _ _ _ _ _ _ H x). tauto.
  - intros x Hx. by apply (rg_old _ _ _ _ _ _ H), (rg_old _ _ _ _ _ _ G).
  - intros x Hx. destruct (rg_new _ _ _ _ _ _ H x Hx) as [Hx2|Hx2]; [by apply (rg_new _ _ _ _ _ _ G)|right].
    intros A. apply Hx2. apply (rg_alloc _ _ _ _ _ _ G). by left.
  - intros j d b sl Hj V Hne. destruct (rg_get _ _ _ _ _ _ G j d b sl Hj V Hne) as (b' & Hj' & <-).
    by apply (rg_get _ _ _ _ _ _ H j d b' sl).
Qed.

Lemma grown_root s s' ts k d b slots :
  forest_ok s ts -> ts !! k = Some (d, b) -> grown s s' d b slots -> rgrown s s' ts ts k slots.
Proof.
  intros FO Hk G. destruct (forest_step s s' ts k d b slots FO Hk G) as [F1 F2 F3 F4 F5 F6].
  split; [done..|]. intros j d' b' sl Hj V Hne. exists b'. split; [done|].
  destruct (decide (j = k)) as [->|Hjk].
  - rewrite Hk in Hj. injection Hj as <- <-. apply (gr_get _ _ _ _ _ G); [done|]. intros ->. by apply Hne.
  - by apply (F6 j d' b').
Qed.

Lemma same_root s s' ts k slots : same s s' -> forest_ok s ts -> is_Some (ts !! k) -> rgrown s s' ts ts k slots.
Proof.
  intros Sm FO [[d b] Hk]. apply (grown_root s s' ts k d b); [done|done|]. apply grown_same; [done|by apply (fo_ok _ _ FO k)|].
  pose proof (fo_nodup _ _ FO) as Nd. apply forest_nodup in Nd as [Nd _]. by apply (Nd k).
Qed.

(** A bare tree planted at an empty root. *)
Lemma plant s s1 ts k d q slots :
  forest_ok s ts -> ts !! k = Some (d, 0) -> extended s s1 q -> bare s1 d q -> length slots = d ->
  rgrown s s1 ts (<[k := (d, q)]> ts) k slots.
Proof.
  intros [Ok Nd] Hk X Ba Hl. pose proof Nd as Nd0. apply forest_nodup in Nd0 as [Nd1 Dj].
  pose proof (lookup_lt_Some _ _ _ Hk) as Hlt.
  assert (Z0 : tree_blocks s d 0 = []) by (by destruct d).
  assert (O : forall j d' b, j <> k -> ts !! j = Some (d', b) -> tree_ok s1 d' b /\ tree_blocks s1 d' b = tree_blocks s d' b /\
    forall sl, length sl = d' -> Forall (fun j => 0 <= j < 512) sl -> tree_get s1 b sl = tree_get s b sl).
  { intros j d' b Hne Hj. apply tree_frame; [|by apply (Ok j)]. intros x Hx. apply X. by apply (tree_allocated s d' b x (Ok j d' b Hj)). }
  assert (In1 : forall x, x ∈ forest s1 (<[k := (d, q)]> ts) <-> x = q \/ x ∈ forest s ts).
  { intros x. rewrite !elem_of_forest. split.
    - intros (j & d' & b & Hj & Hx). destruct (decide (j = k)) as [->|Hne].
      + rewrite list_lookup_insert_eq in Hj by done. injection Hj as <- <-. rewrite (ba_blocks _ _ _ Ba) in Hx.
        apply list_elem_of_singleton in Hx. by left.
      + rewrite list_lookup_insert_ne in Hj by done. right. exists j, d', b. destruct (O j d' b Hne Hj) as (_ & <- & _). done.
    - intros [->|(j & d' & b & Hj & Hx)].
      + exists k, d, q. rewrite list_lookup_insert_eq by done. rewrite (ba_blocks _ _ _ Ba). split; [done|by left].
      + destruct (decide (j = k)) as [->|Hne]; [rewrite Hk in Hj; injection Hj as <- <-; rewrite Z0 in Hx; by apply elem_of_nil in Hx|].
        exists j, d', b. rewrite list_lookup_insert_ne by done. destruct (O j d' b Hne Hj) as (_ & -> & _). done. }
  assert (Hall : forall x, x ∈ forest s ts -> allocated s x).
  { intros x Hx. apply elem_of_forest in Hx as (i & d' & r & Hi & Hx). by apply (tree_allocated s d' r x (Ok i d' r Hi)). }
  assert (Hq : q ∉ forest s ts) by (intros Hx; apply (ex_new _ _ _ X); by apply Hall).
  split.
  - split.
    + intros j d' b Hj. destruct (decide (j = k)) as [->|Hne].
      * rewrite list_lookup_insert_eq in Hj by done. injection Hj as <- <-. apply Ba.
      * rewrite list_lookup_insert_ne in Hj by done. by apply (O j).
    + apply forest_nodup. split.
      * intros j d' b Hj. destruct (decide (j = k)) as [->|Hne].
        -- rewrite list_lookup_insert_eq in Hj by done. injection Hj as <- <-. rewrite (ba_blocks _ _ _ Ba). apply NoDup_singleton.
        -- rewrite list_lookup_insert_ne in Hj by done. destruct (O j d' b Hne Hj) as (_ & -> & _). by apply (Nd1 j).
      * assert (Sep : forall j d' b, j <> k -> ts !! j = Some (d', b) -> q ∉ tree_blocks s1 d' b).
        { intros j d' b Hne Hj. destruct (O j d' b Hne Hj) as (_ & -> & _). intros Hx. apply Hq, elem_of_forest. by exists j, d', b. }
        intros i j d1 b1 d2 b2 x Hne Hi Hj Hx Hx'.
        destruct (decide (i = k)) as [->|Hik]; [|destruct (decide (j = k)) as [->|Hjk]].
        -- rewrite list_lookup_insert_eq in Hi by done. injection Hi as <- <-. rewrite list_lookup_insert_ne in Hj by done.
           rewrite (ba_blocks _ _ _ Ba) in Hx. apply list_elem_of_singleton in Hx as ->. by apply (Sep j d2 b2).
        -- rewrite list_lookup_insert_eq in Hj by done. injection Hj as <- <-. rewrite list_lookup_insert_ne in Hi by done.
           rewrite (ba_blocks _ _ _ Ba) in Hx'. apply list_elem_of_singleton in Hx' as ->. by apply (Sep i d1 b1).
        -- rewrite list_lookup_insert_ne in Hi by done. rewrite list_lookup_insert_ne in Hj by done.
           destruct (O i d1 b1 Hik Hi) as (_ & E1 & _). destruct (O j d2 b2 Hjk Hj) as (_ & E2 & _).
           rewrite E1 in Hx. rewrite E2 in Hx'. by apply (Dj i j d1 b1 d2 b2 x).
  - intros x A _. by apply X.
  - intros x. rewrite (ex_alloc _ _ _ X), In1. split; [tauto|]. intros [?|[->|?]]; [by right|by left|right; by apply Hall].
  - intros x Hx. rewrite In1. by right.
  - intros x. rewrite In1. intros [->|Hx]; [right; apply X|by left].
  - intros j d' b sl Hj [V1 V2] Hne. destruct (decide (j = k)) as [->|Hjk].
    + rewrite Hk in Hj. injection Hj as <- <-. exists q. rewrite list_lookup_insert_eq by done. split; [done|].
      assert (Hs : sl <> slots) by (intros ->; by apply Hne).
      destruct sl as [|j sl]; [destruct slots; [done|cbn in *; lia]|].
      rewrite (ba_get _ _ _ Ba) by done. done.
    + exists b. rewrite list_lookup_insert_ne by done. split; [done|]. by apply (O j d' b).
Qed.
End roots.

(** ** Lookup and allocation over the map of a file *)

Section theorems.
Context {S : Type} `{RL : !RsLib} `{CL : !CrcLib} `{TO : TreeEnvOk S} `{LV : !LeafView}.
Context (c : data_cfg) (t : rs_tables) (cpu : nat).

(** ** Lookup *)

Lemma lookup_slots_spec slots : forall s b,
  tree_ok s (length slots) b -> Forall (fun j => 0 <= j < 512) slots -> par_ok s ->
  exists s', lookup_slots s b slots = (0, tree_get s b slots, s') /\ same s s' /\ failed s' = failed s.
Proof.
  induction slots as [|j slots IH]; intros s b Hok V Par; cbn [lookup_slots tree_get].
  - unfold check_terminal. destruct (Z.eqb_spec b 0); [by exists s|].
    assert (A : allocated s b) by (by destruct Hok as [?|[? _]]).
    apply pointer_ok, andb_true_iff in A as [-> ->]. by exists s.
  - destruct (Z.eqb_spec b 0); [by exists s|]. apply list.Forall_cons in V as [Hj V].
    destruct Hok as [->|(A & p & Hp & Zp & Bp & De & C)]; [done|].
    unfold beamfs_check_intermediate_block. pose proof A as A'. apply pointer_ok, andb_true_iff in A' as [-> ->]. cbn [negb orb Z.eqb].
    rewrite Hp. destruct (verify_same s b p Par A Zp Bp De) as (s1 & -> & Sm & Hf). cbn [negb Z.eqb].
    assert (Ok1 : tree_ok s1 (length slots) (ptr p j) /\ tree_get s1 (ptr p j) slots = tree_get s (ptr p j) slots).
    { destruct (tree_frame s s1 (length slots) (ptr p j)) as (F1 & _ & F3); [|by apply C|by split; [|apply F3]].
      intros x Hx. apply same_keeps; [done|]. by apply (tree_allocated s (length slots) (ptr p j)); [apply C|]. }
    destruct Ok1 as [Ok1 Eg]. destruct (IH s1 (ptr p j) Ok1 V (sm_par _ _ Sm Par)) as (s2 & -> & Sm2 & Hf2).
    exists s2. split; [|split; [by apply (same_trans s s1)|by rewrite Hf2]]. unfold held. rewrite Hp. cbn [default]. by rewrite Eg.
Qed.

Lemma fget_path s f i b :
  file_roots f !! fst (path i) = Some (path_depth i, b) -> fget s f i = tree_get s b (snd (path i)).
Proof. intros H. unfold fget. by rewrite H. Qed.

Lemma lookup_phys_spec s f i :
  wf_file s f -> par_ok s -> file_block i ->
  exists s', beamfs_inline_lookup_phys s f i = (0, fget s f i, s') /\ same s s' /\ failed s' = failed s.
Proof.
  intros [Hd FO] Par Hi. destruct (path_root f i Hd Hi) as (b & Hb & Eb). rewrite (fget_path s f i b Hb).
  pose proof (path_valid i Hi) as [V1 V2]. pose proof (fo_ok _ _ FO _ _ _ Hb) as Ok.
  destruct (lookup_slots_spec (snd (path i)) s b Ok V2 Par) as (s' & E & Sm & Hf). exists s'. split; [|done]. rewrite <- E.
  unfold beamfs_inline_lookup_phys. path_consts. change (12 + 512) with 524. subst b.
  destruct (Z.ltb_spec i 12); [done|]. destruct (Z.ltb_spec i 524); [done|]. destruct (Z.ltb_spec i 262668); [done|].
  destruct (Z.ltb_spec i 134480396); [done|lia].
Qed.

(** Whatever the tree holds, a successful lookup leads to a hole or to a
    block of the data area that the bitmap calls used. *)
Lemma lookup_slots_sane slots : forall s b r s',
  lookup_slots s b slots = (0, r, s') -> r = 0 \/ allocated s r.
Proof.
  induction slots as [|j slots IH]; intros s b r s'; cbn [lookup_slots].
  - unfold check_terminal. destruct (b =? 0); [intros [= <- <-]; by left|].
    destruct (in_data s b) eqn:E1; cbn [negb]; [|intros [=]]. destruct (is_allocated s b) eqn:E2; cbn [negb]; [|intros [=]].
    intros [= <- <-]. right. apply pointer_ok. by rewrite E1, E2.
  - destruct (b =? 0); [intros [= <- <-]; by left|].
    assert (A : forall x, allocated (snd (beamfs_check_intermediate_block s b)) x <-> allocated s x).
    { intros x. unfold beamfs_check_intermediate_block. case_match; cbn [snd]; [apply report_allocated|done]. }
    destruct (beamfs_check_intermediate_block s b) as [ret s1]. cbn [snd] in A.
    destruct (Z.eqb_spec ret 0); cbn [negb]; [|intros [= -> <- <-]; done]. destruct (bread s1 b) as [p|]; [|intros [=]].
    pose proof (verify_allocated s1 b p) as V. destruct (parity_verify s1 b p) as [bad s2]. cbn [snd] in V.
    destruct (bad =? 0); cbn [negb]; [|intros [=]]. intros E. destruct (IH _ _ _ _ E) as [->|H]; [by left|right].
    by apply A, V.
Qed.

Lemma lookup_phys_sane s f i r s' :
  beamfs_inline_lookup_phys s f i = (0, r, s') -> r = 0 \/ allocated s r.
Proof.
  unfold beamfs_inline_lookup_phys. repeat (case_match; [apply lookup_slots_sane|]). intros [=].
Qed.

(** ** Allocation *)

Lemma file_roots_direct f i b :
  zlen (fi_direct f) = 12 -> 0 <= i < 12 ->
  file_roots (fmark_dirty (fset_direct f i b)) = <[Z.to_nat i := (0%nat, b)]> (file_roots f).
Proof.
  intros Hd Hi. unfold file_roots, zlen in *. cbn. rewrite insert_app_l by (rewrite length_map; lia). f_equal.
  unfold setb. apply list_fmap_insert.
Qed.

Definition root_set (set_root : finode -> Z -> finode) (k : nat) : Prop :=
  forall f b, zlen (fi_direct f) = 12 -> fi_direct (set_root f b) = fi_direct f /\ fi_ino (set_root f b) = fi_ino f /\
    exists d, fst <$> file_roots f !! k = Some d /\ file_roots (set_root f b) = <[k := (d, b)]> (file_roots f).

Lemma root_sets : root_set fset_indirect 12 /\ root_set fset_dindirect 13 /\ root_set fset_tindirect 14.
Proof.
  split_and!; intros f b Hd; (split; [done|]); (split; [done|]); unfold file_roots, zlen in *; cbn;
    assert (L : length (map (fun b => (0%nat, b)) (fi_direct f)) = 12%nat) by (rewrite length_map; lia);
    [exists 1%nat|exists 2%nat|exists 3%nat];
    (split; [rewrite lookup_app_r by (rewrite L; lia); rewrite L; done|]);
    rewrite insert_app_r_alt by (rewrite L; lia); rewrite L; done.
Qed.

Lemma same_inode_roots f f' : same_inode f f' -> file_roots f' = file_roots f.
Proof. intros [_ E1 E2 E3 E4]. unfold file_roots. by rewrite E1, E2, E3, E4. Qed.

Lemma alloc_root_spec s f i now root set_root rc r fresh f' s' :
  wf_file s f -> par_ok s -> viewed s -> 8 <= room s -> file_block i -> 12 <= i -> root_set set_root (fst (path i)) ->
  file_roots f !! fst (path i) = Some (path_depth i, root) ->
  alloc_from_root c t cpu s f i now root set_root (snd (path i)) = (rc, r, fresh, f', s') ->
  zlen (fi_direct f') = 12 /\ fi_ino f' = fi_ino f /\ par_ok s' /\ room s - 8 <= room s' /\
  rgrown s s' (file_roots f) (file_roots f') (fst (path i)) (snd (path i)) /\
  outcome c t cpu s s' (fi_ino f) i (fget s f i) (fget s' f' i) rc r fresh.
Proof.
  intros [Hd FO] Par Vw Hr Hi H12 Hset Hroot E. set (slots := snd (path i)) in *. set (k := fst (path i)) in *.
  pose proof (path_valid i Hi) as [V1 V2]. fold slots in V1, V2.
  assert (Hz : 1 <= zlen slots <= 3).
  { unfold slots. path_consts. destruct (Z.ltb_spec i 12); [lia|]. destruct (i <? _); [done|]. by destruct (i <? _). }
  assert (Hne : slots <> []) by (intros X; rewrite X, zlen_nil in Hz; lia).
  rewrite (fget_path s f i root Hroot). unfold alloc_from_root in E. unfold path_depth in Hroot. fold slots in Hroot.
  pose proof (fo_nodup _ _ FO) as Nd. apply forest_nodup in Nd as [Nd _].
  destruct (Z.eqb_spec root 0) as [->|H0].
  - destruct (new_indirect s (fi_ino f)) as [[rc1 q] s1] eqn:En.
    destruct (new_indirect_spec s (fi_ino f) rc1 q s1 Par ltac:(lia) En) as (R1 & [(-> & X & Ba)|(Hneg & Sm)]).
    + cbn [negb Z.eqb] in E. destruct (Hset f q Hd) as (D1 & I1 & d & Ed & Er). rewrite Hroot in Ed. injection Ed as <-.
      set (f1 := fmark_dirty (set_root f q)) in *. assert (Er1 : file_roots f1 = <[k := (length slots, q)]> (file_roots f)) by done.
      assert (Ba1 : bare s1 (length slots) q) by (destruct (length slots) eqn:El; [by destruct slots|apply Ba]).
      pose proof (plant s s1 (file_roots f) k (length slots) q slots FO Hroot X Ba1 eq_refl) as G1.
      assert (Hk1 : file_roots f1 !! k = Some (length slots, q)).
      { rewrite Er1. apply list_lookup_insert_eq. by apply lookup_lt_Some in Hroot. }
      destruct (alloc_slots_spec c t cpu slots s1 f1 i now q rc r fresh f' s') as (G2 & P2 & R2 & I2 & O2);
        [done|done|apply Ba1|apply Ba1|rewrite (ba_blocks _ _ _ Ba1); apply NoDup_singleton|by apply X| |lia|exact E|].
      { apply (viewed_mono s); [done|]. intros x A. apply X. by right. }
      pose proof (same_inode_roots f1 f' I2) as Ef.
      split; [rewrite (si_direct _ _ I2); cbn; by rewrite D1|]. split; [rewrite (si_ino _ _ I2); exact I1|].
      split; [done|]. split; [lia|]. rewrite Ef, Er1. split.
      * apply (rgrown_trans s s1 s' _ (<[k := (length slots, q)]> (file_roots f))); [done|].
        apply (grown_root s1 s' _ k (length slots) q); [apply G1|by rewrite <- Er1|done].
      * rewrite (fget_path s' f' i q) by (rewrite Ef; exact Hk1). fold slots.
        assert (Z1 : tree_get s1 q slots = 0).
        { destruct slots as [|j sl]; [done|]. apply (ba_get _ _ _ Ba1). by split. }
        assert (Z0 : tree_get s 0 slots = 0) by (by destruct slots). rewrite Z0. rewrite Z1 in O2.
        destruct O2 as [(-> & -> & -> & O4 & O5)|[(-> & -> & _ & O4 & O5 & O6 & O7)|O2]]; [done| |by right; right].
        right; left. split_and!; [done|done|done|done|done| |by rewrite <- I1].
        intros A. apply O6. apply X. by right.
    + destruct (Z.eqb_spec rc1 0); [lia|]. cbn [negb] in E. injection E as <- <- <- <- <-.
      split; [done|]. split; [done|]. split; [by apply Sm|]. pose proof (sm_room _ _ Sm). split; [lia|]. split.
      * apply same_root; [done|done|by eexists].
      * right; right. rewrite (fget_path s1 f i 0 Hroot). fold slots. by destruct slots.
  - destruct (alloc_slots_spec c t cpu slots s f i now root rc r fresh f' s') as (G2 & P2 & R2 & I2 & O2);
      [done|done|done|by apply (fo_ok _ _ FO k)|by apply (Nd k)|done|done|lia|exact E|].
    pose proof (same_inode_roots f f' I2) as Ef. split; [by rewrite (si_direct _ _ I2)|]. split; [apply I2|].
    split; [done|]. split; [lia|]. rewrite Ef. split; [by apply (grown_root s s' _ k (length slots) root)|].
    by rewrite (fget_path s' f' i root) by (by rewrite Ef).
Qed.

Lemma lookup_or_alloc_spec s f i now rc r fresh f' s' :
  wf_file s f -> par_ok s -> viewed s -> 8 <= room s -> file_block i -> fi_freeing f = false -> s_free_blocks s <> 0 ->
  beamfs_inline_lookup_or_alloc_phys_new c t cpu s f i now = (rc, r, fresh, f', s') ->
  zlen (fi_direct f') = 12 /\ fi_ino f' = fi_ino f /\ par_ok s' /\ room s - 8 <= room s' /\
  rgrown s s' (file_roots f) (file_roots f') (fst (path i)) (snd (path i)) /\
  outcome c t cpu s s' (fi_ino f) i (fget s f i) (fget s' f' i) rc r fresh.
Proof.
  intros Wf Par Vw Hr Hi Hfr Hfb E. pose proof Wf as [Hd FO]. unfold beamfs_inline_lookup_or_alloc_phys_new in E. rewrite Hfr in E.
  destruct (Z.eqb_spec (s_free_blocks s) 0); [done|].
  destruct (path_root f i Hd Hi) as (root & Hroot & Eroot).
  destruct root_sets as (RS1 & RS2 & RS3).
  change BEAMFS_DIRECT_BLOCKS with 12 in E. change BEAMFS_INDIRECT_PTRS with 512 in E. change (12 + 512) with 524 in E.
  change BEAMFS_MAX_IBLOCK_DINDIRECT with 262668 in E. change BEAMFS_MAX_IBLOCK_TINDIRECT with 134480396 in E.
  assert (Hp : path i = if i <? 12 then (Z.to_nat i, []) else if i <? 524 then (12%nat, [i - 12])
    else if i <? 262668 then (13%nat, dind_slots i) else (14%nat, tind_slots i)) by done.
  destruct (Z.ltb_spec i 12).
  - rewrite <- Eroot in E. rewrite (fget_path s f i root Hroot). assert (Hs : snd (path i) = []) by (by rewrite Hp).
    assert (Hk : fst (path i) = Z.to_nat i) by (by rewrite Hp).
    unfold path_depth in Hroot. rewrite Hs in Hroot |- *. cbn [length] in Hroot. rewrite Hk in Hroot |- *. clear Eroot.
    destruct (Z.eqb_spec root 0) as [R0|H0]; cbn [negb] in E.
    + subst root. destruct (new_data c t cpu s (fi_ino f) i) as [[rc1 q] s1] eqn:En.
      destruct (new_data_spec _ _ _ _ _ _ _ _ _ Vw En) as (R2 & [(-> & X & Ba & Rd)|(Hneg & Sm)]).
      * cbn [negb Z.eqb] in E. injection E as <- <- <- <- <-. split; [by cbn; rewrite zlen_setb|]. split; [done|].
        split; [by apply X|]. split; [lia|]. rewrite file_roots_direct by (unfold file_block in Hi; lia).
        split; [by apply plant|]. right; left. pose proof (ba_nz _ _ _ Ba).
        split_and!; [done|done|done| |done|apply X|done].
        rewrite (fget_path _ _ i q).
        -- rewrite Hs. cbn [tree_get]. by destruct (Z.eqb_spec q 0).
        -- unfold path_depth. rewrite Hs, Hk, file_roots_direct by (unfold file_block in Hi; lia).
           apply list_lookup_insert_eq. by apply lookup_lt_Some in Hroot.
      * destruct (Z.eqb_spec rc1 0); [lia|]. cbn [negb] in E. injection E as <- <- <- <- <-.
        split; [done|]. split; [done|]. split; [by apply Sm|]. pose proof (sm_room _ _ Sm). split; [lia|].
        split; [apply same_root; [done|done|by eexists]|]. right; right.
        rewrite (fget_path s1 f i 0); [by rewrite Hs|]. unfold path_depth. by rewrite Hs, Hk.
    + injection E as <- <- <- <- <-. split; [done|]. split; [done|]. split; [done|]. split; [lia|].
      split; [apply same_root; [apply same_refl|done|by eexists]|]. left.
      rewrite (fget_path s f i root); [|unfold path_depth; by rewrite Hs, Hk]. rewrite Hs. cbn [tree_get].
      by destruct (Z.eqb_spec root 0).
  - unfold file_block in Hi. change BEAMFS_MAX_IBLOCK_TINDIRECT with 134480396 in Hi.
    destruct (Z.ltb_spec i 524); [|destruct (Z.ltb_spec i 262668); [|destruct (Z.ltb_spec i 134480396); [|lia]]];
      (eapply (alloc_root_spec s f i now root); [done|done|done|done|done|lia| |exact Hroot|]; [|rewrite Hp, Eroot; exact E]);
      rewrite Hp; done.
Qed.

(** Allocation at one logical block leaves the others where they are. *)
Lemma rgrown_get s s' f f' i j :
  zlen (fi_direct f) = 12 -> rgrown s s' (file_roots f) (file_roots f') (fst (path i)) (snd (path i)) ->
  file_block i -> file_block j -> j <> i -> fget s' f' j = fget s f j.
Proof.
  intros Hd G Hi Hj Hne. destruct (path_root f j Hd Hj) as (b & Hb & _).
  destruct (rg_get _ _ _ _ _ _ G _ _ _ _ Hb (path_valid j Hj)) as (b' & Hb' & E).
  { intros E. apply Hne, path_inj; [done|done|]. destruct (path i), (path j). cbn in E. by injection E as -> ->. }
  by rewrite (fget_path s' f' j b' Hb'), (fget_path s f j b Hb).
Qed.
End theorems.
