(* ===== verification/FileFree.v ===== *)
(** * Freeing part of a tree

    [beamfs_free_ind_range] takes out of a tree exactly the logical blocks
    from [first] on, gives back exactly the blocks that leave it, and keeps
    everything else. *)

From S2P Require Import Prelude Format Crc RsInit RsLib Edac Dirent FileData Dir DirTree FileTree FileMap FileGrow.

(** The logical index of a path below its root. *)
Fixpoint index (slots : list Z) : Z :=
  match slots with
  | [] => 0
  | j :: slots => j * span (length slots) + index slots
  end.

Lemma span_pos d : 0 < span d.
Proof. unfold span. apply Z.pow_pos_nonneg; [done|lia]. Qed.

Lemma span_S d : span (Datatypes.S d) = 512 * span d.
Proof. unfold span. change BEAMFS_INDIRECT_PTRS with 512. rewrite Nat2Z.inj_succ, Z.pow_succ_r by lia. lia. Qed.

Lemma index_bound d slots : valid_slots d slots -> 0 <= index slots < span d.
Proof.
  revert d. induction slots as [|j slots IH]; intros d [<- V]; cbn [index length]; [done|].
  apply list.Forall_cons in V as [Hj V]. destruct (IH (length slots)) as [I1 I2]; [done|].
  rewrite span_S. pose proof (span_pos (length slots)). nia.
Qed.

Section free.
Context {S : Type} `{TO : TreeEnvOk S} `{LV : !LeafView}.

(** The tree under [b] becomes the tree under [b']: paths below [first]
    (counted from [base]) stay, the others are gone, and with them the root
    when it has no path to keep. *)
Record pruned (s s' : S) (d : nat) (b b' base first : Z) : Prop := {
  pr_root : b' = b \/ b' = 0;
  pr_gone : first <= base -> b' = 0;
  pr_ok : tree_ok s' d b';
  pr_nodup : NoDup (tree_blocks s' d b');
  pr_sub : forall x, x ∈ tree_blocks s' d b' -> x ∈ tree_blocks s d b;
  pr_keep : forall x, allocated s x -> x ∉ tree_blocks s d b -> keeps s s' x;
  pr_alloc : forall x, allocated s' x <-> allocated s x /\ (x ∉ tree_blocks s d b \/ x ∈ tree_blocks s' d b');
  pr_get : forall slots, valid_slots d slots ->
    tree_get s' b' slots = if base + index slots <? first then tree_get s b slots else 0 }.

(** The volume is alive and has room for [n] more parity updates. *)
Definition alive (s : S) (n : Z) : Prop := par_ok s /\ failed s = false /\ n <= room s.

Lemma tree_get_0 s slots : tree_get s 0 slots = 0.
Proof. by destruct slots. Qed.

Lemma tree_blocks_0 s d : tree_blocks s d 0 = [].
Proof. by destruct d. Qed.

Lemma tree_ok_0 s d : tree_ok s d 0.
Proof. destruct d; by left. Qed.

(** ** One tree of a forest *)

(** [e] is a block that is not kept; 0 when there is none. *)
Record fpruned (e : Z) (s s' : S) (ts ts' : list (nat * Z)) : Prop := {
  fp_ok : forest_ok s' ts';
  fp_sub : forall x, x ∈ forest s' ts' -> x ∈ forest s ts;
  fp_keep : forall x, allocated s x -> x ∉ forest s ts -> x <> e -> keeps s s' x;
  fp_alloc : forall x, allocated s' x <-> allocated s x /\ (x ∉ forest s ts \/ x ∈ forest s' ts') }.

Lemma fpruned_refl e s ts : forest_ok s ts -> fpruned e s s ts ts.
Proof.
  intros FO. split; [done|done| |].
  - intros x A _ _. split_and!; done.
  - intros x. split; [|tauto]. intros A. split; [done|]. destruct (decide (x ∈ forest s ts)); [by right|by left].
Qed.

Lemma fpruned_trans e s1 s2 s3 t1 t2 t3 : fpruned e s1 s2 t1 t2 -> fpruned e s2 s3 t2 t3 -> fpruned e s1 s3 t1 t3.
Proof.
  intros G H. split; [apply H| | |].
  - intros x Hx. by apply G, H.
  - intros x A Hx He. pose proof (fp_keep _ _ _ _ _ G x A Hx He) as K. apply (keeps_trans s1 s2); [done|].
    apply H; [apply K| |done]. intros Hx'. by apply Hx, G.
  - intros x. rewrite (fp_alloc _ _ _ _ _ H), (fp_alloc _ _ _ _ _ G).
    pose proof (fp_sub _ _ _ _ _ H x). pose proof (fp_sub _ _ _ _ _ G x). destruct (decide (x ∈ forest s2 t2)); tauto.
Qed.

Lemma forest_prune e s s' ts i d b b' base first :
  forest_ok s ts -> ts !! i = Some (d, b) -> pruned s s' d b b' base first ->
  fpruned e s s' ts (<[i := (d, b')]> ts) /\
  forall j d' q, j <> i -> ts !! j = Some (d', q) -> tree_blocks s' d' q = tree_blocks s d' q /\
    forall slots, valid_slots d' slots -> tree_get s' q slots = tree_get s q slots.
Proof.
  intros [Ok Nd] Hi G. pose proof (lookup_lt_Some _ _ _ Hi) as Hlt. apply forest_nodup in Nd as [Nd Dj].
  assert (O : forall j d' q, j <> i -> ts !! j = Some (d', q) -> tree_ok s' d' q /\
    tree_blocks s' d' q = tree_blocks s d' q /\
    forall slots, valid_slots d' slots -> tree_get s' q slots = tree_get s q slots).
  { intros j d' q Hne Hj. destruct (tree_frame s s' d' q) as (F1 & F2 & F3); [|by apply (Ok j)|].
    - intros x Hx. apply (pr_keep _ _ _ _ _ _ _ G); [apply (tree_allocated s d' q x (Ok j d' q Hj) Hx)|].
      intros Hx'. by apply (Dj j i d' q d b x).
    - split_and!; [done|done|]. intros sl [V1 V2]. by apply F3. }
  assert (In0 : forall x, x ∈ forest s ts <-> x ∈ tree_blocks s d b \/
    exists j d' q, j <> i /\ ts !! j = Some (d', q) /\ x ∈ tree_blocks s d' q).
  { intros x. rewrite elem_of_forest. split.
    - intros (j & d' & q & Hj & Hx). destruct (decide (j = i)) as [->|Hne].
      + rewrite Hi in Hj. injection Hj as <- <-. by left.
      + right. by exists j, d', q.
    - intros [Hx|(j & d' & q & Hne & Hj & Hx)]; [by exists i, d, b|]. by exists j, d', q. }
  assert (In1 : forall x, x ∈ forest s' (<[i := (d, b')]> ts) <-> x ∈ tree_blocks s' d b' \/
    exists j d' q, j <> i /\ ts !! j = Some (d', q) /\ x ∈ tree_blocks s d' q).
  { intros x. rewrite elem_of_forest. split.
    - intros (j & d' & q & Hj & Hx). destruct (decide (j = i)) as [->|Hne].
      + rewrite list_lookup_insert_eq in Hj by done. injection Hj as <- <-. by left.
      + rewrite list_lookup_insert_ne in Hj by done. right. exists j, d', q. destruct (O j d' q Hne Hj) as (_ & <- & _). done.
    - intros [Hx|(j & d' & q & Hne & Hj & Hx)].
      + exists i, d, b'. by rewrite list_lookup_insert_eq by done.
      + exists j, d', q. rewrite list_lookup_insert_ne by done. destruct (O j d' q Hne Hj) as (_ & -> & _). done. }
  assert (Sep : forall j d' q x, j <> i -> ts !! j = Some (d', q) -> x ∈ tree_blocks s d' q -> x ∉ tree_blocks s' d b').
  { intros j d' q x Hne Hj Hx Hx'. apply (pr_sub _ _ _ _ _ _ _ G) in Hx'. by apply (Dj j i d' q d b x). }
  split; [|intros j d' q Hne Hj; by destruct (O j d' q Hne Hj) as (_ & ? & ?)].
  split.
  - split.
    + intros j d' q Hj. destruct (decide (j = i)) as [->|Hne].
      * rewrite list_lookup_insert_eq in Hj by done. injection Hj as <- <-. apply G.
      * rewrite list_lookup_insert_ne in Hj by done. by apply (O j).
    + apply forest_nodup. split.
      * intros j d' q Hj. destruct (decide (j = i)) as [->|Hne].
        -- rewrite list_lookup_insert_eq in Hj by done. injection Hj as <- <-. apply G.
        -- rewrite list_lookup_insert_ne in Hj by done. destruct (O j d' q Hne Hj) as (_ & -> & _). by apply (Nd j).
      * intros j k d1 b1 d2 b2 x Hne Hj Hk Hx Hx'.
        destruct (decide (j = i)) as [->|Hji]; [|destruct (decide (k = i)) as [->|Hki]].
        -- rewrite list_lookup_insert_eq in Hj by done. injection Hj as <- <-. rewrite list_lookup_insert_ne in Hk by done.
           destruct (O k d2 b2 ltac:(done) Hk) as (_ & Ek & _). rewrite Ek in Hx'. by apply (Sep k d2 b2 x).
        -- rewrite list_lookup_insert_eq in Hk by done. injection Hk as <- <-. rewrite list_lookup_insert_ne in Hj by done.
           destruct (O j d1 b1 ltac:(done) Hj) as (_ & Ej & _). rewrite Ej in Hx. by apply (Sep j d1 b1 x).
        -- rewrite list_lookup_insert_ne in Hj by done. rewrite list_lookup_insert_ne in Hk by done.
           destruct (O j d1 b1 ltac:(done) Hj) as (_ & Ej & _). destruct (O k d2 b2 ltac:(done) Hk) as (_ & Ek & _).
           rewrite Ej in Hx. rewrite Ek in Hx'. by apply (Dj j k d1 b1 d2 b2 x).
  - intros x. rewrite In0, In1. intros [Hx|Hx]; [left; by apply (pr_sub _ _ _ _ _ _ _ G)|by right].
  - intros x A Hx _. apply (pr_keep _ _ _ _ _ _ _ G); [done|]. intros Hx'. apply Hx, In0. by left.
  - intros x. rewrite (pr_alloc _ _ _ _ _ _ _ G), In0, In1.
    split; [|intros [A [Hx|[Hx|(j & d' & q & Hne & Hj & Hx)]]]; split; [done| |done| |done|]].
    + intros [A [Hx|Hx]]; (split; [done|]); [|by right; left].
      destruct (decide (x ∈ forest s ts)) as [Hf|Hf].
      * apply In0 in Hf as [Hf|Hf]; [done|by right; right].
      * left. by rewrite <- In0.
    + left. tauto.
    + by right.
    + left. intros Hx'. by apply (Dj j i d' q d b x).
Qed.

(** One block changes, the forest does not reach it. *)
Lemma fpruned_touch e s s' ts :
  forest_ok s ts -> e ∉ forest s ts -> (forall x, allocated s' x <-> allocated s x) ->
  (forall x, allocated s x -> x <> e -> keeps s s' x) ->
  fpruned e s s' ts ts /\ forall j d q, ts !! j = Some (d, q) -> tree_blocks s' d q = tree_blocks s d q /\
    forall slots, valid_slots d slots -> tree_get s' q slots = tree_get s q slots.
Proof.
  intros [Ok Nd] He A K.
  assert (O : forall j d q, ts !! j = Some (d, q) -> tree_ok s' d q /\ tree_blocks s' d q = tree_blocks s d q /\
    forall slots, valid_slots d slots -> tree_get s' q slots = tree_get s q slots).
  { intros j d q Hj. destruct (tree_frame s s' d q) as (F1 & F2 & F3); [|by apply (Ok j)|].
    - intros x Hx. apply K; [by apply (tree_allocated s d q x (Ok j d q Hj))|]. intros ->. apply He, elem_of_forest. by exists j, d, q.
    - split_and!; [done|done|]. intros sl [V1 V2]. by apply F3. }
  assert (E : forest s' ts = forest s ts).
  { unfold forest. f_equal. apply map_ext_in. intros [d q] Hin%list_elem_of_In. apply list_elem_of_lookup_1 in Hin as [j Hj].
    by apply (O j). }
  split; [|intros j d q Hj; by destruct (O j d q Hj) as (_ & ? & ?)].
  split; rewrite ?E; [split; [intros j d q Hj; by apply (O j)|by rewrite E]|done| |].
  - intros x Hx _ Hne. by apply K.
  - intros x. rewrite A. split; [|tauto]. intros Hx. split; [done|]. destruct (decide (x ∈ forest s ts)); [by right|by left].
Qed.

(** ** Leaves *)

Lemma free_one_block_spec s b :
  allocated s b -> exists s', beamfs_free_one_block s b = (true, s') /\ freed s s' b.
Proof.
  intros A. unfold beamfs_free_one_block. pose proof (allocated_range s b A). destruct (Z.eqb_spec b 0); [lia|].
  apply pointer_ok, andb_true_iff in A as [_ ->]. cbn [negb]. eexists. split; [done|]. apply bfree_anon_freed.
Qed.

Lemma pruned_leaf s s' b base first :
  b <> 0 -> tree_ok s 0 b -> failed s = false -> freed s s' b -> first <= base -> pruned s s' 0 b 0 base first.
Proof.
  intros Hb Hok Hf F Hle. assert (Eb : tree_blocks s 0 b = [b]) by (cbn; by destruct (Z.eqb_spec b 0)).
  pose proof (fr_alloc _ _ _ F Hf) as Fa. split; rewrite ?tree_blocks_0, ?Eb; [by right|done|apply tree_ok_0|constructor| | | |].
  - by intros x ?%elem_of_nil.
  - intros x A Hx. rewrite list_elem_of_singleton in Hx. split_and!; [by apply Fa|by apply (fr_read _ _ _ F)|apply (fr_desc _ _ _ F)].
  - intros x. rewrite Fa, list_elem_of_singleton. split; [intros [A Hne]; split; [done|by left]|].
    intros [A [Hne|Hx]]; [done|by apply elem_of_nil in Hx].
  - intros [|j sl] [V _]; [|done]. cbn [index]. destruct (Z.ltb_spec (base + 0) first); [lia|done].
Qed.

Lemma pruned_keep s d b base first :
  tree_ok s d b -> NoDup (tree_blocks s d b) -> base + span d <= first \/ b = 0 -> pruned s s d b b base first.
Proof.
  intros Hok Hn H. pose proof (span_pos d). split; [by left|lia|done|done|done| | |].
  - intros x A _. split_and!; done.
  - intros x. split; [|tauto]. intros A. split; [done|]. destruct (decide (x ∈ tree_blocks s d b)); [by right|by left].
  - intros sl V. pose proof (index_bound d sl V). destruct H as [H|Hz]; [|subst b; rewrite tree_get_0; by case_match].
    destruct (Z.ltb_spec (base + index sl) first); [done|lia].
Qed.

Lemma clear_slot_spec s b p j :
  allocated s b -> bread s b = Some p -> zlen p = 4096 -> bytes p -> 0 <= j < 512 ->
  let s' := clear_slot s b j in let p' := put_le64 p (8 * j) 0 in
  bread s' b = Some p' /\ zlen p' = 4096 /\ bytes p' /\ (forall x, allocated s' x <-> allocated s x) /\
  (forall x, allocated s x -> x <> b -> keeps s s' x) /\ (par_ok s -> par_ok s') /\ failed s' = failed s /\ room s <= room s'.
Proof.
  intros A Hp Zp Bp Hj s' p'. unfold s', clear_slot. destruct (tc_same s (TcClear b j)) as [T Tf]. set (s1 := tc s _) in *.
  assert (Hh : held s1 b = p) by (unfold held; by rewrite (sm_read _ _ T), Hp). rewrite Hh. fold p'.
  destruct (bput_par s1 b p') as (P1 & P2 & P3 & P4). pose proof (sm_room _ _ T).
  split; [apply bput_same|]. split; [unfold p', put_le64; rewrite zlen_splice; rewrite ?zlen_le_bytes; lia|].
  split; [apply bytes_splice; [done|apply bytes_le_bytes]|]. split_and!.
  - intros x. rewrite bput_allocated. apply T.
  - intros x Hx Hne. split_and!; [by apply bput_allocated, T|rewrite bput_other by done; by apply T|].
    intros q Hq. by apply P4, T.
  - intros Hpar. by apply P1, T.
  - by rewrite P3.
  - lia.
Qed.
End free.

(** ** The loop of [beamfs_free_ind_range] *)

Section prune.
Context {S : Type} `{TO : TreeEnvOk S} `{LV : !LeafView}.

(** The trees a page of pointers leads to. *)
Definition page_trees (d : nat) (p : list Z) : list (nat * Z) := map (fun k => (d, ptr p k)) (upto 512).

Lemma page_children s d b p : bread s b = Some p -> children s d b = page_trees d p.
Proof. intros H. unfold children, kids, page_trees, held. rewrite H. by rewrite map_map. Qed.

Lemma lookup_page d p k : 0 <= k < 512 -> page_trees d p !! Z.to_nat k = Some (d, ptr p k).
Proof.
  intros Hk. unfold page_trees. rewrite list_lookup_fmap. unfold upto. rewrite lookup_seqZ_lt by lia. cbn. do 3 f_equal. lia.
Qed.

Lemma lookup_page_inv d p i d' q :
  page_trees d p !! i = Some (d', q) -> exists k, i = Z.to_nat k /\ 0 <= k < 512 /\ d' = d /\ q = ptr p k.
Proof.
  unfold page_trees. rewrite list_lookup_fmap. intros E. destruct (upto 512 !! i) as [j|] eqn:Ej; [|done].
  cbn in E. injection E as <- <-. apply lookup_seqZ in Ej as [-> Hi]. exists (0 + Z.of_nat i). split_and!; [lia|lia|lia|done|done].
Qed.

Lemma page_insert d p n q :
  zlen p = 4096 -> 0 <= n < 512 -> 0 <= q < 2 ^ 64 ->
  page_trees d (put_le64 p (8 * n) q) = <[Z.to_nat n := (d, q)]> (page_trees d p).
Proof.
  intros Zp Hn Hq. apply list_eq. intros i. destruct (decide (i < 512)%nat) as [Hi|Hi].
  - rewrite <- (Nat2Z.id i). rewrite lookup_page by lia. rewrite ptr_put by lia. case_decide as E.
    + rewrite E, list_lookup_insert_eq; [done|]. unfold page_trees. rewrite length_map. unfold upto. rewrite length_seqZ. lia.
    + rewrite list_lookup_insert_ne by lia. by rewrite lookup_page by lia.
  - rewrite !lookup_ge_None_2; [done|..]; rewrite ?length_insert; unfold page_trees; rewrite length_map; unfold upto;
      rewrite length_seqZ; lia.
Qed.

(** Blocks of the first [n] subtrees. *)
Definition used (s : S) (d : nat) (p : list Z) (n : Z) : Z :=
  zlen (concat (map (fun k => tree_blocks s d (ptr p k)) (upto n))).

Lemma used_succ s d p n : 0 <= n -> used s d p (n + 1) = used s d p n + zlen (tree_blocks s d (ptr p n)).
Proof. intros Hn. unfold used. rewrite upto_succ, map_app, concat_app, zlen_app by lia. cbn [map concat]. by rewrite app_nil_r. Qed.

(** After [n] slots. *)
Record linv (s : S) (d : nat) (b : Z) (p : list Z) (base first n : Z) (sn : S) (pn : list Z) (surv : Z) (dirt : bool) : Prop := {
  li_read : bread sn b = Some pn;
  li_len : zlen pn = 4096;
  li_bytes : bytes pn;
  li_block : allocated sn b;
  li_par : par_ok sn;
  li_failed : failed sn = false;
  li_room : room s - used s d p n <= room sn;
  li_prune : fpruned b s sn (page_trees d p) (page_trees d pn);
  li_clean : dirt = false -> keeps s sn b;
  li_rest : forall k, n <= k < 512 -> ptr pn k = ptr p k /\ tree_blocks sn d (ptr p k) = tree_blocks s d (ptr p k);
  li_get : forall k slots, 0 <= k < 512 -> valid_slots d slots ->
    tree_get sn (ptr pn k) slots =
      if (k <? n) && negb (base + k * span d + index slots <? first) then 0 else tree_get s (ptr p k) slots;
  li_surv : 0 <= surv /\ (surv = 0 <-> forall k, 0 <= k < n -> ptr pn k = 0);
  li_gone : first <= base -> surv = 0 }.

Lemma not_in_forest s d b p : forest_ok s (page_trees d p) -> b ∉ forest s (page_trees d p) ->
  forall k, 0 <= k < 512 -> b ∉ tree_blocks s d (ptr p k).
Proof. intros _ Hb k Hk Hx. apply Hb, elem_of_forest. exists (Z.to_nat k), d, (ptr p k). by rewrite lookup_page. Qed.

(** One child: pruned to [q'], the slot cleared when it is gone. *)
Lemma linv_step s d b p base first n sn pn surv dirt s1 q' s2 surv' dirt' :
  b ∉ forest s (page_trees d p) -> 0 <= n < 512 -> linv s d b p base first n sn pn surv dirt ->
  ptr p n <> 0 -> pruned sn s1 d (ptr p n) q' (base + n * span d) first -> par_ok s1 -> failed s1 = false ->
  room sn - zlen (tree_blocks s d (ptr p n)) <= room s1 ->
  (q' = ptr p n /\ s2 = s1 /\ surv' = surv + 1 /\ dirt' = dirt \/
   q' = 0 /\ s2 = clear_slot s1 b n /\ surv' = surv /\ dirt' = true) ->
  exists pn', linv s d b p base first (n + 1) s2 pn' surv' dirt'.
Proof.
  intros Hb Hn L Hq G Par1 Hf1 Hr1 Hcase. destruct L as [L1 L2 L3 L4 L5 L6 L7 L8 L9 L10 L11 [L12 L13] L14].
  destruct (L10 n ltac:(lia)) as [Ep Et]. pose proof (fp_ok _ _ _ _ _ L8) as FOn.
  assert (Hbn : b ∉ forest sn (page_trees d pn)) by (intros Hx; by apply Hb, (fp_sub _ _ _ _ _ L8)).
  assert (Hi : page_trees d pn !! Z.to_nat n = Some (d, ptr p n)) by (rewrite lookup_page by done; by rewrite Ep).
  destruct (forest_prune b sn s1 (page_trees d pn) (Z.to_nat n) d (ptr p n) q' _ first FOn Hi G) as [F1 F2].
  assert (Kb : keeps sn s1 b).
  { apply (pr_keep _ _ _ _ _ _ _ G); [done|]. rewrite <- Ep. by apply not_in_forest. }
  pose proof (fpruned_trans _ _ _ _ _ _ _ L8 F1) as F3.
  assert (Rd : bread s1 b = Some pn) by (by destruct Kb as (_ & -> & _)).
  assert (Oth : forall k, 0 <= k < 512 -> k <> n -> tree_blocks s1 d (ptr pn k) = tree_blocks sn d (ptr pn k) /\
    forall slots, valid_slots d slots -> tree_get s1 (ptr pn k) slots = tree_get sn (ptr pn k) slots).
  { intros k Hk Hne. apply (F2 (Z.to_nat k) d (ptr pn k)); [lia|]. by rewrite lookup_page. }
  assert (Hroom : room s - used s d p (n + 1) <= room s1) by (rewrite used_succ by lia; lia).
  destruct Hcase as [(-> & -> & -> & ->)|(-> & -> & -> & ->)].
  - exists pn. assert (Ets : <[Z.to_nat n := (d, ptr p n)]> (page_trees d pn) = page_trees d pn) by (by apply list_insert_id).
    rewrite Ets in F3. split; [done|done|done|apply Kb|done|done|done|done| | | | |].
    + intros Hd. apply (keeps_trans s sn); [by apply L9|done].
    + intros k Hk. destruct (L10 k ltac:(lia)) as [E1 E2]. split; [done|]. rewrite <- E1 at 1.
      destruct (Oth k ltac:(lia) ltac:(lia)) as [E3 _]. rewrite E3, E1. done.
    + intros k sl Hk V. destruct (decide (k = n)) as [->|Hne].
      * rewrite Ep, (pr_get _ _ _ _ _ _ _ G sl V). rewrite <- Ep at 1. rewrite L11 by done.
        destruct (Z.ltb_spec n n); [lia|]. cbn [andb]. destruct (Z.ltb_spec n (n + 1)); [|lia]. cbn [andb].
        by destruct (_ <? first).
      * destruct (Oth k Hk Hne) as [_ ->]; [|done]. rewrite L11 by done.
        destruct (Z.ltb_spec k n), (Z.ltb_spec k (n + 1)); try lia; done.
    + split; [lia|]. split; [lia|]. intros H. specialize (H n ltac:(lia)). congruence.
    + intros Hle. exfalso. apply Hq, (pr_gone _ _ _ _ _ _ _ G). pose proof (span_pos d). nia.
  - destruct (clear_slot_spec s1 b pn n ltac:(apply Kb) Rd L2 L3 Hn) as (C1 & C2 & C3 & C4 & C5 & C6 & C7 & C8).
    set (s2 := clear_slot s1 b n) in *. set (p' := put_le64 pn (8 * n) 0) in *.
    rewrite <- (page_insert d pn n 0) in F1, F3 by lia. fold p' in F1, F3.
    assert (Hb1 : b ∉ forest s1 (page_trees d p')) by (intros Hx; by apply Hbn, (fp_sub _ _ _ _ _ F1)).
    destruct (fpruned_touch b s1 s2 (page_trees d p') (fp_ok _ _ _ _ _ F1) Hb1 C4 C5) as [T1 T2].
    assert (Pp : forall k, 0 <= k < 512 -> ptr p' k = if decide (k = n) then 0 else ptr pn k) by (intros k Hk; by apply ptr_put; lia).
    assert (T3 : forall k, 0 <= k < 512 -> tree_blocks s2 d (ptr p' k) = tree_blocks s1 d (ptr p' k) /\
      forall slots, valid_slots d slots -> tree_get s2 (ptr p' k) slots = tree_get s1 (ptr p' k) slots).
    { intros k Hk. apply (T2 (Z.to_nat k) d). by rewrite lookup_page. }
    exists p'. split; [done|done|done|by apply C4, Kb|by apply C6|by rewrite C7|lia|by apply (fpruned_trans b s s1 s2 _ (page_trees d p'))|done| | | |done].
    + intros k Hk. destruct (L10 k ltac:(lia)) as [E1 E2]. destruct (T3 k ltac:(lia)) as [E4 _]. rewrite Pp in * by lia.
      rewrite decide_False in * by lia. split; [done|]. rewrite <- E1 at 1. rewrite E4.
      destruct (Oth k ltac:(lia) ltac:(lia)) as [E3 _]. by rewrite E3, E1.
    + intros k sl Hk V. destruct (T3 k Hk) as [_ ->]; [|done]. rewrite Pp by done. case_decide as Ek.
      * subst k. pose proof (pr_get _ _ _ _ _ _ _ G sl V) as Eg. rewrite tree_get_0 in *.
        destruct (Z.ltb_spec n (n + 1)); [|lia]. cbn [andb]. destruct (_ <? first); cbn [negb]; [|done].
        rewrite Eg. rewrite <- Ep at 1. rewrite L11 by done. destruct (Z.ltb_spec n n); [lia|done].
      * destruct (Oth k Hk Ek) as [_ ->]; [|done]. rewrite L11 by done.
        destruct (Z.ltb_spec k n), (Z.ltb_spec k (n + 1)); try lia; done.
    + split; [done|]. rewrite L13. split.
      * intros H k Hk. rewrite Pp by lia. case_decide; [done|]. apply H. lia.
      * intros H k Hk. specialize (H k ltac:(lia)). rewrite Pp in H by lia. rewrite decide_False in H by lia. done.
Qed.

(** A slot that is empty. *)
Lemma linv_skip s d b p base first n sn pn surv dirt :
  0 <= n < 512 -> linv s d b p base first n sn pn surv dirt -> ptr p n = 0 ->
  linv s d b p base first (n + 1) sn pn surv dirt.
Proof.
  intros Hn [L1 L2 L3 L4 L5 L6 L7 L8 L9 L10 L11 [L12 L13] L14] H0. destruct (L10 n ltac:(lia)) as [Ep Et].
  split; [done|done|done|done|done|done| |done|done| | | |done].
  - rewrite used_succ, H0, tree_blocks_0, zlen_nil by lia. lia.
  - intros k Hk. apply L10. lia.
  - intros k sl Hk V. rewrite L11 by done. destruct (decide (k = n)) as [->|Hne].
    + rewrite H0, tree_get_0. by repeat case_match.
    + destruct (Z.ltb_spec k n), (Z.ltb_spec k (n + 1)); try lia; done.
  - split; [done|]. rewrite L13. split; intros H k Hk; [|apply H; lia].
    destruct (decide (k = n)) as [->|]; [by rewrite Ep|]. apply H. lia.
Qed.

(** The loop over the 512 slots. *)
Lemma free_loop (free_child : S -> Z -> Z -> bool * S) (leaf : bool) s d b p base first :
  b ∉ forest s (page_trees d p) -> leaf = match d with O => true | _ => false end ->
  bread s b = Some p -> zlen p = 4096 -> bytes p -> allocated s b -> par_ok s -> failed s = false ->
  forest_ok s (page_trees d p) -> used s d p 512 <= room s ->
  (leaf = false -> forall s0 q base0, q <> 0 -> tree_ok s0 d q -> NoDup (tree_blocks s0 d q) -> par_ok s0 ->
     failed s0 = false -> zlen (tree_blocks s0 d q) <= room s0 ->
     exists gone s1, free_child s0 q base0 = (gone, s1) /\ pruned s0 s1 d q (if gone then 0 else q) base0 first /\
       par_ok s1 /\ failed s1 = false /\ room s0 - zlen (tree_blocks s0 d q) <= room s1) ->
  exists sn pn surv dirt,
    foldl (free_slot free_child leaf b base (span d) first) (s, 0, false) (upto 512) = (sn, surv, dirt) /\
    linv s d b p base first 512 sn pn surv dirt.
Proof.
  intros Hb Hleaf Hp Zp Bp A Par Hf FO Hroom Hchild.
  set (P := fun n (st : S * Z * bool) => exists sn pn surv dirt, st = (sn, surv, dirt) /\
    linv s d b p base first n sn pn surv dirt).
  apply (foldl_upto_ind _ P); [done| |].
  { exists s, p, 0, false. split; [done|]. split; [done|done|done|done|done|done| | | | | | |done].
    - change (used s d p 0) with 0. lia.
    - by apply fpruned_refl.
    - intros _. split_and!; done.
    - done.
    - intros k sl Hk V. destruct (Z.ltb_spec k 0); [lia|done].
    - split; [done|]. split; [lia|done]. }
  intros n st Hn (sn & pn & surv & dirt & -> & L). unfold P, free_slot.
  pose proof (li_rest _ _ _ _ _ _ _ _ _ _ _ L n ltac:(lia)) as [Ep Et].
  assert (Hh : held sn b = pn) by (unfold held; by rewrite (li_read _ _ _ _ _ _ _ _ _ _ _ L)). rewrite Hh, Ep.
  destruct (Z.eqb_spec (ptr p n) 0) as [H0|H0].
  { exists sn, pn, surv, dirt. split; [done|]. by apply linv_skip. }
  assert (Hi : page_trees d pn !! Z.to_nat n = Some (d, ptr p n)) by (rewrite lookup_page by done; by rewrite Ep).
  pose proof (fp_ok _ _ _ _ _ (li_prune _ _ _ _ _ _ _ _ _ _ _ L)) as [Okn Ndn].
  pose proof (Okn _ _ _ Hi) as Hok. apply forest_nodup in Ndn as [Ndn _]. pose proof (Ndn _ _ _ Hi) as Hnd.
  pose proof (li_par _ _ _ _ _ _ _ _ _ _ _ L) as Parn. pose proof (li_failed _ _ _ _ _ _ _ _ _ _ _ L) as Hfn.
  pose proof (li_room _ _ _ _ _ _ _ _ _ _ _ L) as Rn.
  assert (Hu : used s d p n + zlen (tree_blocks s d (ptr p n)) <= used s d p 512).
  { rewrite <- used_succ by lia. unfold used.
    assert (E : upto 512 = upto (n + 1) ++ seqZ (0 + (n + 1)) (512 - (n + 1))).
    { unfold upto. rewrite <- seqZ_app by lia. f_equal. lia. }
    rewrite E, map_app, concat_app, zlen_app. pose proof (zlen_nonneg (concat (map (fun k => tree_blocks s d (ptr p k)) (seqZ (0 + (n + 1)) (512 - (n + 1)))))). lia. }
  destruct leaf; cbn [negb].
  - destruct d; [|done]. change (span 0) with 1 in *. rewrite Z.mul_1_r.
    destruct (Z.ltb_spec (base + n) first).
    + destruct (linv_step s 0 b p base first n sn pn surv dirt sn (ptr p n) sn (surv + 1) dirt) as (pn' & L'); try done.
      * change (span 0) with 1. rewrite Z.mul_1_r. apply pruned_keep; [done|done|]. left. change (span 0) with 1. lia.
      * pose proof (zlen_nonneg (tree_blocks s 0 (ptr p n))). lia.
      * by left.
      * by exists sn, pn', (surv + 1), dirt.
    + assert (Aq : allocated sn (ptr p n)) by (by destruct Hok as [?|[? _]]).
      destruct (free_one_block_spec sn (ptr p n) Aq) as (s1 & -> & F).
      destruct (linv_step s 0 b p base first n sn pn surv dirt s1 0 (clear_slot s1 b n) surv true) as (pn' & L'); try done.
      * change (span 0) with 1. rewrite Z.mul_1_r. by apply pruned_leaf.
      * by apply F.
      * rewrite (fr_failed _ _ _ F). done.
      * pose proof (fr_room _ _ _ F). pose proof (zlen_nonneg (tree_blocks s 0 (ptr p n))). lia.
      * by right.
      * by exists (clear_slot s1 b n), pn', surv, true.
  - destruct (Hchild eq_refl sn (ptr p n) (base + n * span d) H0 Hok Hnd Parn Hfn) as (gone & s1 & -> & G & P1 & P2 & P3);
      [rewrite Et; lia|]. rewrite Et in P3.
    destruct gone.
    + destruct (linv_step s d b p base first n sn pn surv dirt s1 0 (clear_slot s1 b n) surv true) as (pn' & L'); try done; [by right|].
      by exists (clear_slot s1 b n), pn', surv, true.
    + destruct (linv_step s d b p base first n sn pn surv dirt s1 (ptr p n) s1 (surv + 1) dirt) as (pn' & L'); try done; [by left|].
      by exists s1, pn', (surv + 1), dirt.
Qed.

Lemma forest_page_zero s d p : (forall k, 0 <= k < 512 -> ptr p k = 0) -> forest s (page_trees d p) = [].
Proof.
  intros H. destruct (forest s (page_trees d p)) as [|x l] eqn:E; [done|]. exfalso.
  assert (Hx : x ∈ forest s (page_trees d p)) by (rewrite E; left).
  apply elem_of_forest in Hx as (i & d' & q & Hi & Hx). apply lookup_page_inv in Hi as (k & -> & Hk & -> & ->).
  rewrite H, tree_blocks_0 in Hx by done. by apply elem_of_nil in Hx.
Qed.

Lemma used_forest s d p : used s d p 512 = zlen (forest s (page_trees d p)).
Proof. unfold used, forest, page_trees. by rewrite map_map. Qed.

Lemma free_ind_range_spec depth : forall s b base first ino,
  tree_ok s (Datatypes.S depth) b -> NoDup (tree_blocks s (Datatypes.S depth) b) -> par_ok s -> failed s = false ->
  zlen (tree_blocks s (Datatypes.S depth) b) <= room s ->
  exists gone s', beamfs_free_ind_range s b depth base first ino = (gone, s') /\
    pruned s s' (Datatypes.S depth) b (if gone then 0 else b) base first /\
    par_ok s' /\ failed s' = false /\ room s - zlen (tree_blocks s (Datatypes.S depth) b) <= room s'.
Proof.
  induction depth as [depth IH] using (well_founded_induction lt_wf); intros s b base first ino Hok Hn Par Hf Hroom.
  set (d := depth) in *.
  assert (E : beamfs_free_ind_range s b d base first ino =
    if b =? 0 then (true, s) else if base + span d * BEAMFS_INDIRECT_PTRS <=? first then (false, s)
    else match bread s b with
    | None => (false, s)
    | Some _ =>
      let free_child := match d with O => fun (s : S) (_ _ : Z) => (false, s)
        | Datatypes.S d => fun s child child_base => beamfs_free_ind_range s child d child_base first ino end in
      let leaf := match d with O => true | _ => false end in
      let '(s, survivors, dirtied) :=
        foldl (free_slot free_child leaf b base (span d) first) (s, 0, false) (upto BEAMFS_INDIRECT_PTRS) in
      let s := if dirtied then parity_update s b (held s b) ino else s in
      if survivors =? 0 then (true, snd (beamfs_free_one_block s b)) else (false, s)
    end) by (by destruct d).
  rewrite E. clear E. change BEAMFS_INDIRECT_PTRS with 512.
  destruct (Z.eqb_spec b 0) as [->|Hb].
  { exists true, s. split; [done|]. split; [apply pruned_keep; [done|done|by right]|]. split; [done|]. split; [done|].
    pose proof (zlen_nonneg (tree_blocks s (Datatypes.S d) 0)). lia. }
  pose proof (zlen_nonneg (tree_blocks s (Datatypes.S d) b)) as Hzn.
  destruct (Z.leb_spec (base + span d * 512) first) as [Hle|Hle].
  { exists false, s. split; [done|]. split; [apply pruned_keep; [done|done|left; rewrite span_S; lia]|]. split; [done|]. split; [done|lia]. }
  pose proof Hok as Hok0. destruct Hok as [->|(A & p & Hp & Zp & Bp & De & C)]; [done|]. rewrite Hp. cbv zeta.
  assert (Ec : tree_blocks s (Datatypes.S d) b = b :: forest s (page_trees d p)).
  { rewrite tree_blocks_children by done. by rewrite (page_children s d b p Hp). }
  rewrite Ec in *. apply list.NoDup_cons in Hn as [Hb1 Hn]. rewrite zlen_cons in *.
  assert (FO : forest_ok s (page_trees d p)).
  { split; [|done]. intros i d' q Hi. apply lookup_page_inv in Hi as (k & -> & Hk & -> & ->). by apply C. }
  destruct (free_loop (match d with O => fun (s : S) (_ _ : Z) => (false, s)
      | Datatypes.S d => fun s child child_base => beamfs_free_ind_range s child d child_base first ino end)
      (match d with O => true | _ => false end) s d b p base first Hb1 eq_refl Hp Zp Bp A Par Hf FO)
    as (sn & pn & surv & dirt & -> & L).
  { rewrite used_forest. lia. }
  { destruct d as [|d'] eqn:Ed; [done|]. intros _ s0 q base0 Hq Hok Hnd P0 F0 R0.
    by apply (IH d' ltac:(lia)). }
  destruct L as [L1 L2 L3 L4 L5 L6 L7 L8 L9 L10 L11 [L12 L13] L14]. rewrite used_forest in L7.
  assert (Hh : held sn b = pn) by (unfold held; by rewrite L1).
  (* the parity follows the block *)
  assert (U : exists s1, (if dirt then parity_update sn b (held sn b) ino else sn) = s1 /\ par_ok s1 /\ failed s1 = false /\
    room sn - 1 <= room s1 /\ bread s1 b = Some pn /\ described s1 b pn /\ (forall x, allocated s1 x <-> allocated sn x) /\
    (forall x, allocated sn x -> x <> b -> keeps sn s1 x)).
  { destruct dirt.
    - rewrite Hh. destruct (update_par sn b pn ino) as (U1 & U2 & U3 & U4 & U5); [done|done|done|done|lia|].
      eexists. split; [done|]. split_and!; [done|by rewrite U4|done|by rewrite parity_bread|done|intros x; apply parity_allocated|].
      intros x Hx Hne. split_and!; [by apply parity_allocated|by rewrite parity_bread|]. intros q Hq. by apply U5.
    - exists sn. destruct (L9 eq_refl) as (K1 & K2 & K3). rewrite Hp, L1 in K2. injection K2 as ->.
      split_and!; [done|done|done|lia|done|by apply K3|done|]. intros x Hx Hne. split_and!; done. }
  destruct U as (s1 & -> & P1 & F1 & R1 & B1 & D1 & A1 & K1).
  assert (Hbn : b ∉ forest sn (page_trees d pn)) by (intros Hx; by apply Hb1, (fp_sub _ _ _ _ _ L8)).
  destruct (fpruned_touch b sn s1 (page_trees d pn) (fp_ok _ _ _ _ _ L8) Hbn A1 K1) as [T1 T2].
  pose proof (fpruned_trans _ _ _ _ _ _ _ L8 T1) as F3.
  assert (Hb3 : b ∉ forest s1 (page_trees d pn)) by (intros Hx; by apply Hb1, (fp_sub _ _ _ _ _ F3)).
  assert (Get : forall slots, valid_slots (Datatypes.S d) slots ->
    tree_get s1 b slots = if base + index slots <? first then tree_get s b slots else 0).
  { intros [|k sl] [V1 V2]; [done|]. injection V1 as V1. apply list.Forall_cons in V2 as [Hk V2].
    cbn [tree_get index]. destruct (Z.eqb_spec b 0); [done|]. unfold held. rewrite B1, Hp. cbn [default].
    destruct (T2 (Z.to_nat k) d (ptr pn k)) as [_ ->]; [by rewrite lookup_page| |by split]. rewrite L11 by (done || by split).
    destruct (Z.ltb_spec k 512); [|lia]. cbn [andb]. rewrite V1, Z.add_assoc. by destruct (_ <? first). }
  destruct (Z.eqb_spec surv 0) as [Hs|Hs].
  - (* nothing left *)
    pose proof (proj1 L13 Hs) as Hz. pose proof (forest_page_zero s1 d pn Hz) as F0.
    destruct (free_one_block_spec s1 b ltac:(by apply A1)) as (s2 & -> & Fr). cbn [snd]. exists true, s2. split; [done|].
    pose proof (fr_alloc _ _ _ Fr F1) as Fa. pose proof (fr_room _ _ _ Fr). split.
    + split; rewrite ?tree_blocks_0, ?Ec; [by right|done|apply tree_ok_0|constructor|by intros x ?%elem_of_nil| | |].
      * intros x Hx Hnx. rewrite elem_of_cons in Hnx. assert (x <> b /\ x ∉ forest s (page_trees d p)) as [N1 N2] by tauto.
        apply (keeps_trans s s1); [by apply (fp_keep _ _ _ _ _ F3)|].
        pose proof (fp_keep _ _ _ _ _ F3 x Hx N2 N1) as (Ax & _). split_and!; [by apply Fa|by apply (fr_read _ _ _ Fr)|apply (fr_desc _ _ _ Fr)].
      * intros x. rewrite Fa, (fp_alloc _ _ _ _ _ F3), F0, elem_of_cons.
        split; [intros [[Hx [Hnx|Hnx]] Hne]; [split; [done|left; tauto]|by apply elem_of_nil in Hnx]|].
        intros [Hx [Hnx|Hnx]]; [|by apply elem_of_nil in Hnx]. split; [split; [done|left; tauto]|tauto].
      * intros sl V. rewrite tree_get_0. rewrite <- Get by done. symmetry. destruct sl as [|k sl]; [by destruct V|].
        destruct V as [V1 V2]. apply list.Forall_cons in V2 as [Hk V2]. cbn [tree_get]. destruct (Z.eqb_spec b 0); [done|].
        unfold held. rewrite B1. cbn [default]. by rewrite Hz, tree_get_0.
    + split; [by apply Fr|]. split; [by rewrite (fr_failed _ _ _ Fr)|lia].
  - exists false, s1. split; [done|]. split; [|split; [done|]; split; [done|lia]].
    assert (Ec1 : tree_blocks s1 (Datatypes.S d) b = b :: forest s1 (page_trees d pn)).
    { rewrite tree_blocks_children by done. by rewrite (page_children s1 d b pn B1). }
    split; rewrite ?Ec, ?Ec1; [by left|intros Hle0; by destruct Hs; apply L14| | | | | |].
    + right. split; [by apply A1|]. exists pn. split_and!; [done|done|done|done|]. intros k Hk.
      apply (fo_ok _ _ (fp_ok _ _ _ _ _ F3) (Z.to_nat k)). by rewrite lookup_page.
    + apply list.NoDup_cons. split; [done|apply F3].
    + intros x. rewrite !elem_of_cons. intros [->|Hx]; [by left|right; by apply (fp_sub _ _ _ _ _ F3)].
    + intros x Hx Hnx. rewrite elem_of_cons in Hnx. apply (fp_keep _ _ _ _ _ F3); tauto.
    + intros x. rewrite (fp_alloc _ _ _ _ _ F3), !elem_of_cons. destruct (decide (x = b)) as [->|Hne]; [|tauto].
      split; [intros [Hx _]; split; [done|by right; left]|]. intros [Hx _]. split; [done|by left].
    + exact Get.
Qed.
End prune.
