(* ===== verification/FileTruncate.v ===== *)
(** * Truncation and eviction

    [beamfs_inline_free_blocks_from] removes from the map of a file exactly
    the logical blocks from its argument on and gives back exactly the
    blocks that leave the file; [beamfs_free_data_blocks] gives back all. *)

From S2P Require Import Prelude Format Crc RsInit RsLib Edac Dirent FileData Dir DirTree FileTree FileMap FileGrow FileTheorems FileFree.

Lemma foldl_seqZ_ind {St} (P : Z -> St -> Prop) (f : St -> Z -> St) a k st :
  0 <= k -> P a st -> (forall i st, a <= i < a + k -> P i st -> P (i + 1) (f st i)) ->
  P (a + k) (foldl f st (seqZ a k)).
Proof.
  intros Hk H0 Hs. revert st H0.
  assert (G : forall n : nat, Z.of_nat n <= k -> forall st, P (a + k - Z.of_nat n) st ->
    P (a + k) (foldl f st (seqZ (a + k - Z.of_nat n) (Z.of_nat n)))).
  { induction n as [|n IH]; intros Hn st H; [by replace (a + k) with (a + k - Z.of_nat 0) by lia|].
    rewrite seqZ_cons by lia. cbn [foldl]. replace (Z.pred (Z.of_nat (S n))) with (Z.of_nat n) by lia.
    replace (Z.succ (a + k - Z.of_nat (S n))) with (a + k - Z.of_nat n) by lia. apply IH; [lia|].
    replace (a + k - Z.of_nat n) with (a + k - Z.of_nat (S n) + 1) by lia. apply Hs; [lia|done]. }
  intros st H0. specialize (G (Z.to_nat k) ltac:(lia) st). rewrite Z2Nat.id in G by lia.
  replace (a + k - k) with a in G by lia. by apply G.
Qed.

(** The first logical block of a root. *)
Definition root_base (k : nat) : Z :=
  if decide (k <= 12)%nat then Z.of_nat k else if decide (k = 13%nat) then 524 else 262668.

Lemma path_index i : file_block i -> root_base (fst (path i)) + index (snd (path i)) = i.
Proof.
  intros Hi. path_consts. unfold root_base.
  destruct (Z.ltb_spec i 12); [cbn [fst snd index]; rewrite decide_True by lia; lia|].
  destruct (Z.ltb_spec i (12 + 512)); [|destruct (Z.ltb_spec i 262668)]; cbn [fst snd index length];
    change (span 0) with 1; change (span 1) with 512; change (span 2) with 262144.
  - rewrite decide_True by lia. lia.
  - rewrite decide_False, decide_True by lia. Z.to_euclidean_division_equations. lia.
  - rewrite decide_False, decide_False by lia. Z.to_euclidean_division_equations. lia.
Qed.

Section truncate.
Context {S : Type} `{TO : TreeEnvOk S} `{LV : !LeafView}.

Definition trees_size (s : S) (ts : list (nat * Z)) : Z := zlen (forest s ts).

(** ** Root by root *)

Record rinv (s : S) (ts : list (nat * Z)) (first : Z) (n : nat) (sn : S) (tsn : list (nat * Z)) : Prop := {
  ri_prune : fpruned 0 s sn ts tsn;
  ri_par : par_ok sn;
  ri_failed : failed sn = false;
  ri_room : room s - trees_size s (take n ts) <= room sn;
  ri_rest : forall j d b, (n <= j)%nat -> ts !! j = Some (d, b) ->
    tsn !! j = Some (d, b) /\ tree_blocks sn d b = tree_blocks s d b;
  ri_get : forall j d b sl, ts !! j = Some (d, b) -> valid_slots d sl ->
    exists b', tsn !! j = Some (d, b') /\ tree_get sn b' sl =
      if bool_decide (j < n)%nat && negb (root_base j + index sl <? first) then 0 else tree_get s b sl;
  ri_gone : forall j d b, (j < n)%nat -> first <= root_base j -> ts !! j = Some (d, b) -> tsn !! j = Some (d, 0) }.

Lemma trees_size_succ s ts n d b :
  ts !! n = Some (d, b) -> trees_size s (take (Datatypes.S n) ts) = trees_size s (take n ts) + zlen (tree_blocks s d b).
Proof.
  intros H. unfold trees_size, forest. rewrite (take_S_r _ _ _ H), map_app, concat_app, zlen_app. cbn [map concat].
  by rewrite app_nil_r.
Qed.

Lemma trees_size_le s ts n : trees_size s (take n ts) <= trees_size s ts.
Proof.
  unfold trees_size, forest. rewrite <- (take_drop n ts) at 2. rewrite map_app, concat_app, zlen_app.
  pose proof (zlen_nonneg (concat (map (fun '(d, b) => tree_blocks s d b) (drop n ts)))). lia.
Qed.

Lemma rinv_step s ts first n sn tsn d b b' s1 :
  rinv s ts first n sn tsn -> ts !! n = Some (d, b) -> pruned sn s1 d b b' (root_base n) first ->
  par_ok s1 -> failed s1 = false -> room sn - zlen (tree_blocks s d b) <= room s1 ->
  rinv s ts first (Datatypes.S n) s1 (<[n := (d, b')]> tsn).
Proof.
  intros [R1 R2 R3 R4 R5 R6 R7] Hn G P1 F1 Rm. destruct (R5 n d b ltac:(lia) Hn) as [Hn' Et].
  pose proof (lookup_lt_Some _ _ _ Hn') as Hlt.
  destruct (forest_prune 0 sn s1 tsn n d b b' _ first (fp_ok _ _ _ _ _ R1) Hn' G) as [F2 F3].
  split; [by apply (fpruned_trans 0 s sn s1 _ tsn)|done|done|rewrite (trees_size_succ s ts n d b Hn); lia| | |].
  - intros j d' q Hj Hq. destruct (R5 j d' q ltac:(lia) Hq) as [Hq' Eq]. rewrite list_lookup_insert_ne by lia. split; [done|].
    destruct (F3 j d' q ltac:(lia) Hq') as [-> _]. done.
  - intros j d' q sl Hq V. destruct (decide (j = n)) as [->|Hne].
    + rewrite Hn in Hq. injection Hq as <- <-. exists b'. rewrite list_lookup_insert_eq by done. split; [done|].
      rewrite (pr_get _ _ _ _ _ _ _ G sl V). destruct (R6 n d b sl Hn V) as (b2 & Hb2 & E). rewrite Hn' in Hb2. injection Hb2 as <-.
      rewrite bool_decide_false in E by lia. cbn [andb] in E. rewrite bool_decide_true by lia. cbn [andb]. rewrite E.
      by destruct (_ <? first).
    + destruct (R6 j d' q sl Hq V) as (q' & Hq' & E). exists q'. rewrite list_lookup_insert_ne by done. split; [done|].
      destruct (F3 j d' q' Hne Hq') as [_ ->]; [|done]. rewrite E.
      by rewrite (bool_decide_ext (j < n)%nat (j < Datatypes.S n)%nat) by lia.
  - intros j d' q Hj Hle Hq. destruct (decide (j = n)) as [->|Hne].
    + rewrite Hn in Hq. injection Hq as <- <-. rewrite list_lookup_insert_eq by done. by rewrite (pr_gone _ _ _ _ _ _ _ G Hle).
    + rewrite list_lookup_insert_ne by done. apply (R7 j d' q); [lia|done|done].
Qed.

(** Roots wholly below the truncation point. *)
Lemma rinv_start s ts first n :
  forest_ok s ts -> par_ok s -> failed s = false ->
  (forall j d b, (j < n)%nat -> ts !! j = Some (d, b) -> root_base j + span d <= first) ->
  rinv s ts first n s ts.
Proof.
  intros FO Par Hf H. split; [by apply fpruned_refl|done|done| |done| |].
  - pose proof (zlen_nonneg (forest s (take n ts))). unfold trees_size. lia.
  - intros j d b sl Hj V. exists b. split; [done|]. case_bool_decide as E; [|done]. cbn [andb].
    pose proof (index_bound d sl V). specialize (H j d b E Hj). destruct (Z.ltb_spec (root_base j + index sl) first); [done|lia].
  - intros j d b Hj Hle Hq. pose proof (H j d b Hj Hq). pose proof (span_pos d). lia.
Qed.

(** ** A list of blocks given back *)

Lemma free_list l ino : forall s, failed s = false ->
  let s' := foldl (fun s b => bfree s b ino) s l in
  failed s' = false /\ (par_ok s -> par_ok s') /\ room s <= room s' /\
  (forall x, allocated s' x <-> allocated s x /\ x ∉ l) /\ (forall x, allocated s x -> x ∉ l -> keeps s s' x).
Proof.
  induction l as [|b l IH]; intros s Hf; cbn [foldl].
  - split_and!; [done|done|lia|intros x; rewrite elem_of_nil; tauto|intros x A _; split_and!; done].
  - destruct (bfree_freed s b ino) as [F1 F2 F3 F4 F5 F6]. specialize (F1 Hf).
    destruct (IH (bfree s b ino) ltac:(by rewrite F6)) as (I1 & I2 & I3 & I4 & I5). split_and!; [done|tauto|lia| |].
    + intros x. rewrite I4, F1, elem_of_cons. tauto.
    + intros x A Hx. rewrite elem_of_cons in Hx. assert (x <> b /\ x ∉ l) as [N1 N2] by tauto.
      apply (keeps_trans s (bfree s b ino)); [|apply I5; [by apply F1|done]].
      split_and!; [by apply F1|by apply F2|apply F3].
Qed.

(** ** The single indirect block *)

(** Slots [a ..] taken out of the page, with the pointers they held. *)
Record cleared (s : S) (b : Z) (p : list Z) (a n : Z) (sn : S) (pn : list Z) (doomed : list Z) : Prop := {
  cl_read : bread sn b = Some pn;
  cl_len : zlen pn = 4096;
  cl_bytes : bytes pn;
  cl_alloc : forall x, allocated sn x <-> allocated s x;
  cl_keep : forall x, allocated s x -> x <> b -> keeps s sn x;
  cl_par : par_ok s -> par_ok sn;
  cl_failed : failed sn = failed s;
  cl_room : room s <= room sn;
  cl_ptr : forall k, 0 <= k < 512 -> ptr pn k = if bool_decide (a <= k < n) then 0 else ptr p k;
  cl_doomed : forall x, x ∈ doomed <-> x <> 0 /\ exists k, a <= k < n /\ ptr p k = x }.

Lemma clear_range s b p a :
  allocated s b -> bread s b = Some p -> zlen p = 4096 -> bytes p -> 0 <= a ->
  exists sn pn doomed,
    foldl (fun '(s, doomed) j =>
      let x := ptr (held s b) j in if x =? 0 then (s, doomed) else (clear_slot s b j, doomed ++ [x]))
      (s, []) (seqZ a (512 - a)) = (sn, doomed) /\ cleared s b p a (Z.max a 512) sn pn doomed.
Proof.
  intros A Hp Zp Bp Ha.
  set (P := fun n (st : S * list Z) => exists pn, cleared s b p a n (fst st) pn (snd st)).
  assert (H0 : P a (s, [])).
  { exists p. split; [done|done|done|done|intros x Hx _; split_and!; done|done|done|done| |].
    - intros k Hk. by rewrite bool_decide_false by lia.
    - intros x. cbn [snd]. rewrite elem_of_nil. split; [done|]. intros (_ & k & Hk & _). lia. }
  assert (G : P (Z.max a 512) (foldl (fun '(s, doomed) j =>
      let x := ptr (held s b) j in if x =? 0 then (s, doomed) else (clear_slot s b j, doomed ++ [x])) (s, []) (seqZ a (512 - a)))).
  { destruct (decide (512 <= a)) as [Hge|Hlt].
    - replace (Z.max a 512) with a by lia. assert (E : seqZ a (512 - a) = []) by (unfold seqZ; replace (Z.to_nat (512 - a)) with 0%nat by lia; done).
      rewrite E. exact H0.
    - replace (Z.max a 512) with (a + (512 - a)) by lia. apply (foldl_seqZ_ind P); [lia|exact H0|].
      intros n [sn doomed] Hn (pn & C). cbn [fst snd] in C. destruct C as [C1 C2 C3 C4 C5 C6 C7 C8 C9 C10].
      assert (Hh : held sn b = pn) by (unfold held; by rewrite C1).
      assert (En : ptr pn n = ptr p n) by (rewrite C9 by lia; by rewrite bool_decide_false by lia).
      cbv zeta. rewrite Hh, En. destruct (Z.eqb_spec (ptr p n) 0) as [E0|E0].
      + exists pn. cbn [fst snd]. split; [done..| |].
        * intros k Hk. rewrite C9 by done. destruct (decide (k = n)) as [->|]; [|repeat case_bool_decide; lia || done].
          rewrite E0. by repeat case_bool_decide.
        * intros x. rewrite C10. split; intros (Hx & k & Hk & E); (split; [done|]); [exists k; split; [lia|done]|].
          exists k. split; [|done]. destruct (decide (k = n)) as [->|]; [congruence|lia].
      + destruct (clear_slot_spec sn b pn n) as (S1 & S2 & S3 & S4 & S5 & S6 & S7 & S8); [by apply C4|done|done|done|lia|].
        exists (put_le64 pn (8 * n) 0). cbn [fst snd].
        split; [done|done|done|intros x; by rewrite S4| |tauto|by rewrite S7|lia| |].
        * intros x Hx Hne. apply (keeps_trans s sn); [by apply C5|]. apply S5; [by apply C4|done].
        * intros k Hk. rewrite ptr_put by lia. case_decide; [by rewrite bool_decide_true by lia|]. rewrite C9 by done.
          repeat case_bool_decide; lia || done.
        * intros x. rewrite elem_of_app, C10, list_elem_of_singleton. split.
          -- intros [(Hx & k & Hk & E)|Ex]; [|subst x]; (split; [done|]); [exists k; split; [lia|done]|exists n; split; [lia|done]].
          -- intros (Hx & k & Hk & E). destruct (decide (k = n)) as [->|]; [by right|left]. split; [done|]. exists k. split; [lia|done]. }
  destruct G as (pn & C). destruct (foldl _ _ _) as [sn doomed]. by exists sn, pn, doomed.
Qed.

Lemma pruned_same s s1 s' d b b' base first :
  same s s1 -> tree_ok s d b -> NoDup (tree_blocks s d b) -> pruned s1 s' d b b' base first -> pruned s s' d b b' base first.
Proof.
  intros Sm Hok Hn G. destruct (tree_frame s s1 d b) as (F1 & F2 & F3); [|done|].
  { intros x Hx. apply same_keeps; [done|]. by apply (tree_allocated s d b). }
  destruct G as [G1 G0 G2 G3 G4 G5 G6 G7]. rewrite F2 in *. split; [done|done|done|done|done| | |].
  - intros x A Hx. apply (keeps_trans s s1); [by apply same_keeps|]. apply G5; [by apply (sm_alloc _ _ Sm)|done].
  - intros x. rewrite G6. by rewrite (sm_alloc _ _ Sm).
  - intros sl V. rewrite G7 by done. destruct V as [V1 V2]. by rewrite F3.
Qed.

Lemma elem_of_single s b p x :
  b <> 0 -> bread s b = Some p ->
  x ∈ tree_blocks s 1 b <-> x = b \/ x <> 0 /\ exists k, 0 <= k < 512 /\ ptr p k = x.
Proof.
  intros Hb Hp. rewrite tree_blocks_children, (page_children s 0 b p Hp), elem_of_cons, elem_of_forest by done. split.
  - intros [->|(i & d & q & Hi & Hx)]; [by left|right]. apply lookup_page_inv in Hi as (k & -> & Hk & -> & ->).
    cbn in Hx. destruct (Z.eqb_spec (ptr p k) 0); [by apply elem_of_nil in Hx|]. apply list_elem_of_singleton in Hx as ->.
    split; [done|by exists k].
  - intros [->|(Hx & k & Hk & E)]; [by left|right]. exists (Z.to_nat k), 0%nat, x. rewrite lookup_page by done. rewrite E.
    split; [done|]. cbn. destruct (Z.eqb_spec x 0); [done|by left].
Qed.

(** Distinct slots of a block hold distinct pointers. *)
Lemma single_inj s b p :
  b <> 0 -> bread s b = Some p -> NoDup (tree_blocks s 1 b) ->
  (forall k, 0 <= k < 512 -> ptr p k <> b) /\
  forall j k, 0 <= j < 512 -> 0 <= k < 512 -> ptr p j = ptr p k -> ptr p j <> 0 -> j = k.
Proof.
  intros Hb Hp Hn. rewrite tree_blocks_children, (page_children s 0 b p Hp) in Hn by done.
  apply list.NoDup_cons in Hn as [Hb1 Hn]. apply forest_nodup in Hn as [_ Dj].
  assert (T : forall q, q <> 0 -> tree_blocks s 0 q = [q]) by (intros q Hq; cbn; by destruct (Z.eqb_spec q 0)).
  split.
  - intros k Hk E. apply Hb1, elem_of_forest. exists (Z.to_nat k), 0%nat, b. rewrite lookup_page, E, T by done. split; [done|by left].
  - intros j k Hj Hk E H0. destruct (decide (j = k)) as [|Hne]; [done|exfalso].
    apply (Dj (Z.to_nat j) (Z.to_nat k) 0%nat (ptr p j) 0%nat (ptr p k) (ptr p j)); [lia|by apply lookup_page..| |].
    + rewrite T by done. by left.
    + rewrite E, T by congruence. by left.
Qed.

(** The walk of the single indirect block, from the slot [a] on. *)
Lemma single_prune s b ino a first base :
  b <> 0 -> tree_ok s 1 b -> NoDup (tree_blocks s 1 b) -> par_ok s -> failed s = false -> 1 <= room s -> 0 <= a ->
  (forall k, 0 <= k < 512 -> base + k < first <-> k < a) ->
  let '(s1, doomed) := foldl (fun '(s, doomed) j =>
      let x := ptr (held s b) j in if x =? 0 then (s, doomed) else (clear_slot s b j, doomed ++ [x]))
      (s, []) (seqZ a (512 - a)) in
  let s2 := parity_update s1 b (held s1 b) ino in
  let s3 := foldl (fun s x => bfree s x ino) s2 doomed in
  let s4 := if a =? 0 then bfree s3 b ino else s3 in
  pruned s s4 1 b (if a =? 0 then 0 else b) base first /\ par_ok s4 /\ failed s4 = false /\ room s - 1 <= room s4.
Proof.
  intros Hb Hok Hn Par Hf Hr Ha Hfirst. pose proof Hok as Hok0.
  destruct Hok as [->|(A & p & Hp & Zp & Bp & De & C)]; [done|].
  destruct (clear_range s b p a A Hp Zp Bp Ha) as (s1 & pn & doomed & -> & Cl).
  destruct Cl as [C1 C2 C3 C4 C5 C6 C7 C8 C9 C10]. cbv zeta.
  destruct (single_inj s b p Hb Hp Hn) as [Ib Ij].
  assert (Hh : held s1 b = pn) by (unfold held; by rewrite C1). rewrite Hh.
  assert (A1 : allocated s1 b) by (by apply C4).
  destruct (update_par s1 b pn ino) as (U1 & U2 & U3 & U4 & U5); [by apply C6|done|done|done|lia|].
  set (s2 := parity_update s1 b pn ino) in *.
  assert (A2 : forall x, allocated s2 x <-> allocated s x) by (intros x; unfold s2; rewrite parity_allocated; apply C4).
  assert (K2 : forall x, allocated s x -> x <> b -> keeps s s2 x).
  { intros x Hx Hne. apply (keeps_trans s s1); [by apply C5|]. split_and!; [by apply A2|unfold s2; rewrite parity_bread; [done|by apply C4]|].
    intros q Hq. apply U5; [done|by apply C4|done]. }
  assert (Hdb : b ∉ doomed) by (rewrite C10; intros (_ & k & Hk & E); destruct (decide (512 <= a)); [lia|]; by apply (Ib k); [lia|]).
  destruct (free_list doomed ino s2 ltac:(rewrite U4, C7; done)) as (F1 & F2 & F3 & F4 & F5).
  set (s3 := foldl (fun s x => bfree s x ino) s2 doomed) in *.
  assert (R3 : room s - 1 <= room s3) by lia.
  assert (B3 : bread s3 b = Some pn).
  { destruct (F5 b) as (_ & -> & _); [by apply A2|done|]. unfold s2. by rewrite parity_bread. }
  assert (D3 : described s3 b pn) by (apply (F5 b); [by apply A2|done|done]).
  assert (Hin : forall x, x ∈ doomed -> x ∈ tree_blocks s 1 b).
  { intros x (Hx & k & Hk & E)%C10. apply (elem_of_single s b p x Hb Hp). right. split; [done|].
    exists k. destruct (decide (512 <= a)); [lia|]. split; [lia|done]. }
  assert (Keep3 : forall x, allocated s x -> x ∉ tree_blocks s 1 b -> keeps s s3 x).
  { intros x Hx Hnx. apply (keeps_trans s s2).
    - apply K2; [done|]. intros ->. apply Hnx, (elem_of_single s b p b Hb Hp). by left.
    - apply F5; [by apply A2|]. intros Hd. by apply Hnx, Hin. }
  destruct (Z.eqb_spec a 0) as [->|Hne].
  - (* the block goes too *)
    destruct (bfree_freed s3 b ino) as [G1 G2 G3 G4 G5 G6]. specialize (G1 F1). split; [|split; [tauto|]; split; [by rewrite G6|lia]].
    split; rewrite ?tree_blocks_0; [by right|done|apply tree_ok_0|constructor|by intros x ?%elem_of_nil| | |].
    + intros x Hx Hnx. assert (x <> b) by (intros ->; apply Hnx, (elem_of_single s b p b Hb Hp); by left).
      pose proof (Keep3 x Hx Hnx) as K. apply (keeps_trans s s3); [done|]. split_and!; [apply G1; split; [apply K|done]|apply G2; [apply K|done]|apply G3].
    + intros x. rewrite G1, F4, A2, elem_of_nil, (elem_of_single s b p x Hb Hp), C10. change (Z.max 0 512) with 512. split.
      * intros [[Hx Hd] Hxb]. split; [done|left]. intros [->|Hy]; [done|]. by apply Hd.
      * intros [Hx [Hy|[]]]. split_and!; [done|intros Hd; apply Hy; by right|intros ->; apply Hy; by left].
    + intros [|k [|? ?]] [V1 V2]; [done| |done]. apply list.Forall_cons in V2 as [Hk _]. rewrite tree_get_0. cbn [index length].
      change (span 0) with 1. destruct (Z.ltb_spec (base + (k * 1 + 0)) first) as [Hlt|]; [|done].
      pose proof (proj1 (Hfirst k Hk) ltac:(lia)). lia.
  - split; [|split; [by apply F2|]; split; [done|lia]].
    assert (Pn : forall k, 0 <= k < 512 -> ptr pn k = if bool_decide (a <= k) then 0 else ptr p k).
    { intros k Hk. rewrite C9 by done. repeat case_bool_decide; lia || done. }
    assert (In3 : forall x, x ∈ tree_blocks s3 1 b <-> x = b \/ x <> 0 /\ exists k, 0 <= k < 512 /\ k < a /\ ptr p k = x).
    { intros x. rewrite (elem_of_single s3 b pn x Hb B3). split; intros [->|(Hx & k & Hk & E)]; [by left| |by left|];
        right; (split; [done|]); exists k; rewrite Pn in * by lia; case_bool_decide; try lia; try done. }
    assert (Al3 : forall k, 0 <= k < 512 -> k < a -> ptr p k <> 0 -> keeps s s3 (ptr p k)).
    { intros k Hk Hka H0. assert (Ak : allocated s (ptr p k)) by (by destruct (C k Hk) as [?|[? _]]).
      apply (keeps_trans s s2); [apply K2; [done|by apply Ib]|]. apply F5.
      - by apply A2.
      - rewrite C10. intros (_ & j & Hj & E). destruct (decide (512 <= a)); [lia|]. pose proof (Ij j k ltac:(lia) Hk E). rewrite E in *. lia. }
    assert (Ok3 : tree_ok s3 1 b).
    { right. split; [apply F4; split; [by apply A2|done]|]. exists pn. split_and!; [done|done|done|done|]. intros k Hk. rewrite Pn by done.
      case_bool_decide; [by left|]. destruct (decide (ptr p k = 0)) as [|H0]; [by left|right].
      destruct (Al3 k Hk ltac:(lia) H0) as (Ak & Rk & _). split; [done|]. rewrite Rk. by destruct (C k Hk) as [?|[_ ?]]. }
    split; [by left|intros Hle; pose proof (Hfirst 0 ltac:(lia)); lia|done| | |done| |].
    + rewrite tree_blocks_children, (page_children s3 0 b pn B3) by done.
      assert (T : forall q, q <> 0 -> tree_blocks s3 0 q = [q]) by (intros q Hq; cbn; by destruct (Z.eqb_spec q 0)).
      apply list.NoDup_cons. split.
      * intros Hx. apply elem_of_forest in Hx as (i & d & q & Hi & Hx). apply lookup_page_inv in Hi as (k & -> & Hk & -> & ->).
        rewrite Pn in Hx by done. case_bool_decide; [by rewrite tree_blocks_0 in Hx; apply elem_of_nil in Hx|].
        destruct (decide (ptr p k = 0)) as [E0|E0]; [rewrite E0, tree_blocks_0 in Hx; by apply elem_of_nil in Hx|].
        rewrite T in Hx by done. apply list_elem_of_singleton in Hx. by apply (Ib k).
      * apply forest_nodup. split.
        -- intros i d q Hi. apply lookup_page_inv in Hi as (k & -> & Hk & -> & ->).
           destruct (decide (ptr pn k = 0)) as [->|E0]; [rewrite tree_blocks_0; constructor|rewrite T by done; apply NoDup_singleton].
        -- intros i j d1 q1 d2 q2 x Hij Hi Hj Hx Hx'.
           apply lookup_page_inv in Hi as (k & -> & Hk & -> & ->). apply lookup_page_inv in Hj as (k' & -> & Hk' & -> & ->).
           destruct (decide (ptr pn k = 0)) as [E0|E0]; [rewrite E0, tree_blocks_0 in Hx; by apply elem_of_nil in Hx|].
           destruct (decide (ptr pn k' = 0)) as [E1|E1]; [rewrite E1, tree_blocks_0 in Hx'; by apply elem_of_nil in Hx'|].
           rewrite T in Hx, Hx' by done. apply list_elem_of_singleton in Hx, Hx'. subst x.
           rewrite Pn in Hx', E0 by done. rewrite Pn in Hx', E1 by done. repeat case_bool_decide; try done.
           apply Hij. f_equal. by apply Ij.
    + intros x. rewrite In3, (elem_of_single s b p x Hb Hp). intros [->|(Hx & k & Hk & _ & E)]; [by left|right]. split; [done|by exists k].
    + intros x. rewrite F4, A2, In3, (elem_of_single s b p x Hb Hp), C10. split.
      * intros [Hx Hd]. split; [done|]. destruct (decide (x = b)) as [->|Hxb]; [by right; left|].
        destruct (decide (x ∈ tree_blocks s 1 b)) as [Ht|Ht]; [|left; by rewrite <- (elem_of_single s b p x Hb Hp)].
        apply (elem_of_single s b p x Hb Hp) in Ht as [->|(H0 & k & Hk & E)]; [done|]. right; right. split; [done|]. exists k.
        destruct (decide (k < a)); [done|]. exfalso. apply Hd. split; [done|]. exists k. split; [lia|done].
      * intros [Hx Hy]. split; [done|]. intros (H0 & j & Hj & E). destruct (decide (512 <= a)); [lia|]. destruct Hy as [Hy|[->|(_ & k & Hk & Hka & E')]].
        -- apply Hy. right. split; [done|]. exists j. split; [lia|done].
        -- by apply (Ib j); [lia|].
        -- assert (j = k); [apply Ij; [lia|done|congruence|congruence]|lia].
    + intros [|k [|? ?]] [V1 V2]; [done| |done]. apply list.Forall_cons in V2 as [Hk _]. cbn [tree_get index length].
      change (span 0) with 1. destruct (Z.eqb_spec b 0); [done|]. unfold held. rewrite B3, Hp. cbn [default]. rewrite Pn by done.
      pose proof (Hfirst k Hk). destruct (Z.ltb_spec (base + (k * 1 + 0)) first); case_bool_decide; try lia; done.
Qed.
End truncate.

(** ** Truncation and eviction of a file

    [beamfs_inline_free_blocks_from] removes from the map of a file exactly
    the logical blocks from its argument on and gives back exactly the
    blocks that leave the file; [beamfs_free_data_blocks] gives back all. *)

Section shrink.
Context {S : Type} `{TO : TreeEnvOk S} `{LV : !LeafView}.

(** The first [n] roots of the file are done. *)
Definition shrunk (s : S) (f : finode) (first : Z) (n : nat) (st : finode * S) : Prop :=
  rinv s (file_roots f) first n (snd st) (file_roots (fst st)) /\ zlen (fi_direct (fst st)) = 12 /\ fi_ino (fst st) = fi_ino f.

Lemma file_roots_low f j d b : zlen (fi_direct f) = 12 -> (j < 12)%nat -> file_roots f !! j = Some (d, b) ->
  d = 0%nat /\ b = getb (fi_direct f) (Z.of_nat j).
Proof.
  intros Hd Hj H. unfold file_roots, zlen in *. rewrite lookup_app_l in H by (rewrite length_map; lia).
  rewrite list_lookup_fmap in H. apply fmap_Some in H as (q & Hq & [= -> ->]). split; [done|]. unfold getb.
  rewrite Nat2Z.id. symmetry. by apply nth_lookup_Some.
Qed.

Lemma file_roots_high f : zlen (fi_direct f) = 12 ->
  file_roots f !! 12%nat = Some (1%nat, fi_indirect f) /\ file_roots f !! 13%nat = Some (2%nat, fi_dindirect f) /\
  file_roots f !! 14%nat = Some (3%nat, fi_tindirect f).
Proof.
  intros Hd. unfold file_roots, zlen in *.
  assert (L : length (map (fun b => (0%nat, b)) (fi_direct f)) = 12%nat) by (rewrite length_map; lia).
  split_and!; rewrite lookup_app_r by (rewrite L; lia); by rewrite L.
Qed.

Lemma shrunk_tree s f first n st d b :
  shrunk s f first n st -> file_roots f !! n = Some (d, b) ->
  file_roots (fst st) !! n = Some (d, b) /\ tree_ok (snd st) d b /\ NoDup (tree_blocks (snd st) d b) /\
  tree_blocks (snd st) d b = tree_blocks s d b.
Proof.
  intros [R _] H. destruct (ri_rest _ _ _ _ _ _ R n d b ltac:(lia) H) as [H1 H2].
  pose proof (fp_ok _ _ _ _ _ (ri_prune _ _ _ _ _ _ R)) as [Ok Nd]. apply forest_nodup in Nd as [Nd _].
  split_and!; [done|by apply (Ok n)|by apply (Nd n)|done].
Qed.

(** What remains of the room when the root [n] is reached. *)
Lemma shrunk_room s f first n st d b :
  shrunk s f first n st -> file_roots f !! n = Some (d, b) -> zlen (file_blocks s f) <= room s ->
  zlen (tree_blocks s d b) <= room (snd st).
Proof.
  intros [R _] H Hr. pose proof (ri_room _ _ _ _ _ _ R). pose proof (trees_size_succ s _ n d b H).
  pose proof (trees_size_le s (file_roots f) (Datatypes.S n)). unfold trees_size, file_blocks in *. lia.
Qed.

Lemma shrunk_step s f first n st d b b' s1 f1 :
  shrunk s f first n st -> file_roots f !! n = Some (d, b) -> pruned (snd st) s1 d b b' (root_base n) first ->
  par_ok s1 -> failed s1 = false -> room (snd st) - zlen (tree_blocks s d b) <= room s1 ->
  file_roots f1 = <[n := (d, b')]> (file_roots (fst st)) -> zlen (fi_direct f1) = 12 -> fi_ino f1 = fi_ino f ->
  shrunk s f first (Datatypes.S n) (f1, s1).
Proof.
  intros [R _] H G P1 F1 Rm E Hd Hi. split; [|done]. cbn [fst snd]. rewrite E.
  by apply (rinv_step s _ first n (snd st) _ d b b').
Qed.

(** A root the truncation does not change. *)
Lemma shrunk_skip s f first n st d b :
  shrunk s f first n st -> file_roots f !! n = Some (d, b) -> b = 0 -> shrunk s f first (Datatypes.S n) st.
Proof.
  intros Sh H ->. destruct (shrunk_tree _ _ _ _ _ _ _ Sh H) as (H1 & Ok & Nd & _). destruct st as [f1 s1].
  eapply (shrunk_step s f first n (f1, s1) d 0 0); [done|done|apply pruned_keep; [done|done|by right]|apply Sh|apply Sh| | |apply Sh|apply Sh].
  - cbn [snd]. rewrite tree_blocks_0, zlen_nil. lia.
  - cbn [fst] in *. by rewrite list_insert_id.
Qed.

(** ** The direct blocks *)

Lemma free_direct_spec s f first st i :
  shrunk s f first (Z.to_nat i) st -> first <= i -> 0 <= i < 12 -> zlen (fi_direct f) = 12 ->
  shrunk s f first (Z.to_nat (i + 1)) (free_direct st i).
Proof.
  intros Sh Hf Hi Hd. replace (Z.to_nat (i + 1)) with (Datatypes.S (Z.to_nat i)) by lia.
  destruct (lookup_lt_is_Some_2 (file_roots f) (Z.to_nat i)) as [[d b] Hr].
  { unfold file_roots, zlen in *. rewrite length_app, length_map. lia. }
  destruct (file_roots_low f (Z.to_nat i) d b Hd ltac:(lia) Hr) as [-> _].
  destruct (shrunk_tree _ _ _ _ _ _ _ Sh Hr) as (H1 & Ok & Nd & Et).
  destruct st as [f1 s1]. cbn [fst snd] in *. unfold free_direct.
  pose proof Sh as (R & D1 & I1). cbn [fst snd] in *.
  destruct (file_roots_low f1 (Z.to_nat i) 0%nat b D1 ltac:(lia) H1) as [_ Eb]. rewrite Z2Nat.id in Eb by lia. rewrite <- Eb.
  destruct (Z.eqb_spec b 0) as [E0|Hb]; [by apply (shrunk_skip s f first _ _ 0%nat b)|].
  pose proof (bfree_freed s1 b (fi_ino f1)) as F. pose proof (ri_failed _ _ _ _ _ _ R) as Hfl.
  eapply (shrunk_step s f first _ (f1, s1) 0%nat b 0); [done|done| | | | | | |].
  - cbn [snd]. apply pruned_leaf; [done..|]. unfold root_base. rewrite decide_True by lia. lia.
  - apply F, R.
  - by rewrite (fr_failed _ _ _ F).
  - cbn [snd]. pose proof (fr_room _ _ _ F). pose proof (zlen_nonneg (tree_blocks s 0 b)). lia.
  - cbn [fst]. by apply (file_roots_direct f1 i 0).
  - cbn. by rewrite zlen_setb.
  - done.
Qed.

Lemma free_directs s f first :
  wf_file s f -> par_ok s -> failed s = false -> 0 <= first ->
  shrunk s f first 12 (foldl free_direct (f, s) (seqZ first (12 - first))).
Proof.
  intros [Hd FO] Par Hf H0.
  assert (St : forall n, (n <= 12)%nat -> Z.of_nat n <= first -> shrunk s f first n (f, s)).
  { intros n Hn Hle. split; [|done]. apply rinv_start; [done..|]. intros j d b Hj E.
    destruct (file_roots_low f j d b Hd ltac:(lia) E) as [-> _]. unfold root_base. rewrite decide_True by lia. change (span 0) with 1. lia. }
  destruct (decide (12 <= first)) as [Hge|Hlt].
  - assert (E : seqZ first (12 - first) = []) by (unfold seqZ; replace (Z.to_nat (12 - first)) with 0%nat by lia; done).
    rewrite E. apply St; lia.
  - change 12%nat with (Z.to_nat 12). replace 12 with (first + (12 - first)) at 1 by lia.
    apply (foldl_seqZ_ind (fun i => shrunk s f first (Z.to_nat i))); [lia|apply St; lia|].
    intros i st Hi Sh. apply free_direct_spec; [done|lia|lia|done].
Qed.

(** ** The trees *)

Lemma tree_size_pos s d b : b <> 0 -> 1 <= zlen (tree_blocks s d b).
Proof.
  intros Hb. destruct d; cbn [tree_blocks]; (destruct (Z.eqb_spec b 0); [done|]);
    [done|]. rewrite zlen_cons. match goal with |- context[zlen ?l] => pose proof (zlen_nonneg l) end. lia.
Qed.

Lemma truncate_indirect_spec s f first st :
  zlen (fi_direct f) = 12 -> 0 <= first -> zlen (file_blocks s f) <= room s -> shrunk s f first 12 st ->
  exists f1 s1, truncate_indirect true (snd st) (fst st) first = (s1, Some f1) /\ shrunk s f first 13 (f1, s1).
Proof.
  intros Hd H0 Hr Sh. destruct (file_roots_high f Hd) as (R12 & _).
  destruct (shrunk_tree _ _ _ _ _ _ _ Sh R12) as (H1 & Ok & Nd & Et).
  pose proof (shrunk_room _ _ _ _ _ _ _ Sh R12 Hr) as Rm. pose proof Sh as (R & D1 & I1).
  destruct st as [f1 s1]. cbn [fst snd] in *. destruct (file_roots_high f1 D1) as (E12 & _). rewrite E12 in H1. injection H1 as Ei.
  set (b := fi_indirect f) in *. unfold truncate_indirect. rewrite Ei. destruct (Z.eqb_spec b 0) as [E0|Hb].
  { exists f1, s1. split; [done|]. by apply (shrunk_skip s f first _ _ 1%nat b). }
  pose proof (tree_size_pos s 1 b Hb) as Hs. pose proof Ok as [?|(A & p & Hp & Zp & Bp & De & C)]; [done|]. rewrite Hp.
  destruct (verify_same s1 b p (ri_par _ _ _ _ _ _ R) A Zp Bp De) as (s2 & -> & Sm & Hf2). cbn [negb Z.eqb].
  set (a := if BEAMFS_DIRECT_BLOCKS <=? first then first - BEAMFS_DIRECT_BLOCKS else 0).
  assert (Ha : 0 <= a /\ forall k, 0 <= k < 512 -> 12 + k < first <-> k < a).
  { unfold a. change BEAMFS_DIRECT_BLOCKS with 12. destruct (Z.leb_spec 12 first); split; intros; lia. }
  destruct Ha as [Ha Hfirst]. destruct (tree_frame s1 s2 1 b) as (Ok2 & Eb2 & _); [|done|].
  { intros x Hx. apply same_keeps; [done|]. by apply (tree_allocated s1 1 b). }
  pose proof (sm_room _ _ Sm) as Rm2.
  pose proof (single_prune s2 b (fi_ino f1) a first 12 Hb Ok2 ltac:(by rewrite Eb2) (sm_par _ _ Sm (ri_par _ _ _ _ _ _ R))
    ltac:(rewrite Hf2; apply R) ltac:(lia) Ha Hfirst) as SP. change BEAMFS_INDIRECT_PTRS with 512.
  destruct (foldl _ (s2, []) (seqZ a (512 - a))) as [s3 doomed]. cbv zeta in SP |- *. cbn [fmark_dirty fi_ino].
  set (s4 := foldl _ _ doomed) in *. destruct SP as (G & P4 & F4 & R4).
  pose proof (pruned_same s1 s2 _ _ _ _ _ _ Sm Ok Nd G) as G'.
  exists (if a =? 0 then fset_indirect (fmark_dirty f1) 0 else fmark_dirty f1), (if a =? 0 then bfree s4 b (fi_ino f1) else s4).
  split; [by destruct (a =? 0)|]. eapply (shrunk_step s f first 12 (f1, s1) 1%nat b (if a =? 0 then 0 else b)); [done|done|exact G'|done|done| | | |].
  - cbn [snd]. lia.
  - cbn [fst]. destruct (a =? 0).
    + destruct root_sets as (RS & _). destruct (RS (fmark_dirty f1) 0 D1) as (_ & _ & d & Ed & ->).
      change (file_roots (fmark_dirty f1)) with (file_roots f1) in *. rewrite E12 in Ed. by injection Ed as <-.
    + rewrite list_insert_id; [done|]. by rewrite E12, Ei.
  - by destruct (a =? 0).
  - by destruct (a =? 0).
Qed.

(** The last two trees. *)
Lemma free_root_spec s f first k depth (get_root : finode -> Z) (set_root : finode -> Z -> finode) st :
  zlen (fi_direct f) = 12 -> zlen (file_blocks s f) <= room s -> root_set set_root k ->
  (forall f, zlen (fi_direct f) = 12 -> file_roots f !! k = Some (Datatypes.S depth, get_root f)) ->
  shrunk s f first k st ->
  shrunk s f first (Datatypes.S k)
    (if get_root (fst st) =? 0 then st
     else let '(gone, s1) := beamfs_free_ind_range (snd st) (get_root (fst st)) depth (root_base k) first (fi_ino (fst st)) in
          (if gone then set_root (fst st) 0 else fst st, s1)).
Proof.
  intros Hd Hr RS GR Sh. pose proof (GR f Hd) as Rk. destruct (shrunk_tree _ _ _ _ _ _ _ Sh Rk) as (H1 & Ok & Nd & Et).
  pose proof (shrunk_room _ _ _ _ _ _ _ Sh Rk Hr) as Rm. pose proof Sh as (R & D1 & I1). destruct st as [f1 s1]. cbn [fst snd] in *.
  pose proof (GR f1 D1) as E1. rewrite E1 in H1. injection H1 as Ei. rewrite Ei. set (b := get_root f) in *.
  destruct (Z.eqb_spec b 0) as [E0|Hb]; [by apply (shrunk_skip s f first _ _ (Datatypes.S depth) b)|].
  destruct (free_ind_range_spec depth s1 b (root_base k) first (fi_ino f1) Ok Nd) as (gone & s2 & -> & G & P2 & F2 & R2);
    [apply R|apply R|by rewrite Et|].
  eapply (shrunk_step s f first k (f1, s1) (Datatypes.S depth) b); [done|done|exact G|done|done| | | |].
  - cbn [snd]. rewrite Et in R2. lia.
  - cbn [fst]. destruct gone.
    + destruct (RS f1 0 D1) as (_ & _ & d & Ed & ->). rewrite E1 in Ed. by injection Ed as <-.
    + rewrite list_insert_id; [done|]. by rewrite E1, Ei.
  - destruct gone; [|done]. by destruct (RS f1 0 D1) as (-> & _).
  - destruct gone; [|done]. by destruct (RS f1 0 D1) as (_ & -> & _).
Qed.

(** ** The file *)

(** The file [f'] is [f] cut at [first]. *)
Record file_cut (s : S) (f : finode) (first : Z) (s' : S) (f' : finode) : Prop := {
  fc_wf : wf_file s' f';
  fc_par : par_ok s';
  fc_get : forall i, file_block i -> fget s' f' i = if i <? first then fget s f i else 0;
  fc_sub : forall x, x ∈ file_blocks s' f' -> x ∈ file_blocks s f;
  fc_alloc : forall x, allocated s' x <-> allocated s x /\ (x ∉ file_blocks s f \/ x ∈ file_blocks s' f');
  fc_keep : forall x, allocated s x -> x ∉ file_blocks s f -> keeps s s' x }.

Lemma shrunk_cut s f first st : zlen (fi_direct f) = 12 -> shrunk s f first 15 st -> file_cut s f first (snd st) (fst st).
Proof.
  intros Hd (R & D1 & I1). destruct st as [f1 s1]. cbn [fst snd] in *. destruct R as [[P1 P2 P3 P4] R2 R3 R4 R5 R6 R7].
  split; [by split|done| |done|done|].
  - intros i Hi. destruct (path_root f i Hd Hi) as (b & Hb & _). pose proof (path_valid i Hi) as V.
    pose proof (path_index i Hi) as Ei. destruct (R6 _ _ _ _ Hb V) as (b' & Hb' & E).
    rewrite (fget_path s1 f1 i b' Hb'), (fget_path s f i b Hb), E, Ei.
    assert (Hlt : (fst (path i) < 15)%nat).
    { apply lookup_lt_Some in Hb. unfold file_roots in Hb. rewrite length_app, length_map in Hb. unfold zlen in Hd. cbn in Hb. lia. }
    rewrite bool_decide_true by done. cbn [andb]. by destruct (i <? first).
  - intros x A Hx. apply P3; [done|done|]. pose proof (allocated_range s x A). lia.
Qed.

Lemma free_blocks_from_spec s f first f' s' :
  wf_file s f -> par_ok s -> failed s = false -> zlen (file_blocks s f) <= room s -> 0 <= first < 2 ^ 32 ->
  beamfs_inline_free_blocks_from true s f first = (f', s') -> file_cut s f first s' f'.
Proof.
  intros Wf Par Hf Hr Hfirst. unfold beamfs_inline_free_blocks_from. change BEAMFS_DIRECT_BLOCKS with 12.
  unfold u32 at 1 2. rewrite Z.mod_small by exact Hfirst.
  pose proof (free_directs s f first Wf Par Hf ltac:(lia)) as Sh. destruct (foldl free_direct _ _) as [f1 s1].
  destruct (truncate_indirect_spec s f first _ (wff_direct _ _ Wf) ltac:(lia) Hr Sh) as (f2 & s2 & E2 & Sh2).
  cbn [fst snd] in E2. rewrite E2. destruct root_sets as (_ & RS2 & RS3).
  pose proof (free_root_spec s f first 13 1 fi_dindirect fset_dindirect (f2, s2) (wff_direct _ _ Wf) Hr RS2
    (fun f Hd => proj1 (proj2 (file_roots_high f Hd))) Sh2) as Sh3. cbn [fst snd] in Sh3.
  change (root_base 13) with BEAMFS_MAX_IBLOCK_INDIRECT in Sh3.
  set (st3 := if fi_dindirect f2 =? 0 then _ else _) in Sh3 |- *. destruct st3 as [f3 s3].
  pose proof (free_root_spec s f first 14 2 fi_tindirect fset_tindirect (f3, s3) (wff_direct _ _ Wf) Hr RS3
    (fun f Hd => proj2 (proj2 (file_roots_high f Hd))) Sh3) as Sh4. cbn [fst snd] in Sh4.
  change (root_base 14) with BEAMFS_MAX_IBLOCK_DINDIRECT in Sh4.
  set (st4 := if fi_tindirect f3 =? 0 then _ else _) in Sh4 |- *. destruct st4 as [f4 s4].
  intros [= <- <-]. apply (shrunk_cut s f first (fmark_dirty f4, s4)); [apply Wf|exact Sh4].
Qed.

(** ** Eviction *)

(** The blocks [seen] are direct blocks of the roots already freed. *)
Definition seen_ok (f : finode) (i : Z) (seen : option (list Z)) : Prop :=
  forall l x, seen = Some l -> x ∈ l -> exists j, (j < Z.to_nat i)%nat /\ file_roots f !! j = Some (0%nat, x).

Lemma evict_direct_spec s f st seen i :
  wf_file s f -> shrunk s f 0 (Z.to_nat i) st -> seen_ok f i seen -> 0 <= i < 12 ->
  exists st' seen', evict_direct (fst st, snd st, seen) i = (fst st', snd st', seen') /\
    shrunk s f 0 (Z.to_nat (i + 1)) st' /\ seen_ok f (i + 1) seen'.
Proof.
  intros [Hd FO] Sh Hseen Hi. replace (Z.to_nat (i + 1)) with (Datatypes.S (Z.to_nat i)) by lia.
  destruct (lookup_lt_is_Some_2 (file_roots f) (Z.to_nat i)) as [[d b] Hr].
  { unfold file_roots, zlen in *. rewrite length_app, length_map. lia. }
  destruct (file_roots_low f (Z.to_nat i) d b Hd ltac:(lia) Hr) as [-> _].
  destruct (shrunk_tree _ _ _ _ _ _ _ Sh Hr) as (H1 & Ok & Nd & Et). destruct st as [f1 s1]. cbn [fst snd] in *.
  pose proof Sh as (R & D1 & I1). cbn [fst snd] in *.
  destruct (file_roots_low f1 (Z.to_nat i) 0%nat b D1 ltac:(lia) H1) as [_ Eb]. rewrite Z2Nat.id in Eb by lia.
  assert (Mono : forall l, seen_ok f i l -> seen_ok f (i + 1) l).
  { intros l H q x Hl Hx. destruct (H q x Hl Hx) as (j & Hj & E). exists j. split; [lia|done]. }
  pose proof (file_roots_direct f1 i 0 D1 Hi) as Ef. change (file_roots (fmark_dirty _)) with (file_roots (fset_direct f1 i 0)) in Ef.
  unfold evict_direct. rewrite <- Eb. destruct (Z.eqb_spec b 0) as [E0|Hb]; cbn [negb andb].
  { exists (fset_direct f1 i 0, s1), seen. split; [done|]. split; [|by apply Mono].
    pose proof (shrunk_skip s f 0 _ _ 0%nat b Sh Hr E0) as (R' & _). split; [|by split; cbn; rewrite ?zlen_setb].
    cbn [fst snd] in *. rewrite Ef, list_insert_id; [done|]. by rewrite <- E0. }
  assert (Fr : match seen with Some l => negb (bool_decide (b ∈ l)) | None => true end = true).
  { destruct seen as [l|]; [|done]. rewrite negb_true_iff. apply bool_decide_false. intros Hx.
    destruct (Hseen l b eq_refl Hx) as (j & Hj & Ej). pose proof (fo_nodup _ _ FO) as Nf. apply forest_nodup in Nf as [_ Dj].
    assert (T : tree_blocks s 0 b = [b]) by (cbn; by destruct (Z.eqb_spec b 0)).
    apply (Dj j (Z.to_nat i) 0%nat b 0%nat b b); [lia|done|done|rewrite T; by left|rewrite T; by left]. }
  rewrite Fr. exists (fset_direct f1 i 0, bfree_anon s1 b), (match seen with Some l => Some (l ++ [b]) | None => None end).
  split; [done|]. pose proof (bfree_anon_freed s1 b) as F. pose proof (ri_failed _ _ _ _ _ _ R) as Hfl. split.
  - eapply (shrunk_step s f 0 _ (f1, s1) 0%nat b 0); [done|done| | | | | | |].
    + cbn [snd]. apply pruned_leaf; [done..|]. unfold root_base. rewrite decide_True by lia. lia.
    + apply F, R.
    + by rewrite (fr_failed _ _ _ F).
    + cbn [snd]. pose proof (fr_room _ _ _ F). pose proof (zlen_nonneg (tree_blocks s 0 b)). lia.
    + exact Ef.
    + cbn. by rewrite zlen_setb.
    + done.
  - intros l x El Hx. destruct seen as [q|]; [|done]. injection El as <-. apply elem_of_app in Hx as [Hx|Hx%list_elem_of_singleton].
    + destruct (Hseen q x eq_refl Hx) as (j & Hj & E). exists j. split; [lia|done].
    + subst x. exists (Z.to_nat i). split; [lia|done].
Qed.

Lemma evict_directs s f seen0 :
  wf_file s f -> par_ok s -> failed s = false -> seen0 = Some [] \/ seen0 = None ->
  exists st seen, foldl evict_direct (f, s, seen0) (upto 12) = (fst st, snd st, seen) /\ shrunk s f 0 12 st.
Proof.
  intros Wf Par Hf H0. set (P := fun i (x : finode * S * option (list Z)) =>
    exists st seen, x = (fst st, snd st, seen) /\ shrunk s f 0 (Z.to_nat i) st /\ seen_ok f i seen).
  assert (G : P (0 + 12) (foldl evict_direct (f, s, seen0) (seqZ 0 12))).
  { apply (foldl_seqZ_ind P); [done| |].
    - exists (f, s), seen0. split; [done|]. split.
      + split; [|split; [apply Wf|done]]. apply rinv_start; [apply Wf|done|done|]. intros j d b Hj. cbn in Hj. lia.
      + intros l x -> Hx. destruct H0 as [[= ->]|?]; [by apply elem_of_nil in Hx|done].
    - intros i x Hi (st & seen & -> & Sh & Sn). destruct (evict_direct_spec s f st seen i Wf Sh Sn ltac:(lia)) as (st' & seen' & -> & Sh' & Sn').
      by exists st', seen'. }
  destruct G as (st & seen & E & Sh & _). exists st, seen. split; [exact E|exact Sh].
Qed.

(** A root emptied whatever the walk says of it. *)
Lemma evict_root_spec s f k depth (get_root : finode -> Z) (set_root : finode -> Z -> finode) st :
  zlen (fi_direct f) = 12 -> zlen (file_blocks s f) <= room s -> root_set set_root k ->
  (forall f, zlen (fi_direct f) = 12 -> file_roots f !! k = Some (Datatypes.S depth, get_root f)) -> 0 <= root_base k ->
  shrunk s f 0 k st ->
  shrunk s f 0 (Datatypes.S k)
    (if get_root (fst st) =? 0 then st
     else (set_root (fst st) 0, snd (beamfs_free_ind_range (snd st) (get_root (fst st)) depth (root_base k) 0 (fi_ino (fst st))))).
Proof.
  intros Hd Hr RS GR Hb0 Sh. pose proof (free_root_spec s f 0 k depth get_root set_root st Hd Hr RS GR Sh) as Sh'.
  destruct (Z.eqb_spec (get_root (fst st)) 0) as [E0|E0]; [done|].
  destruct st as [f1 s1]. cbn [fst snd] in *. pose proof Sh as (_ & D1 & I1). cbn [fst] in D1, I1.
  destruct (shrunk_tree _ _ _ _ _ _ _ Sh (GR f Hd)) as (H1 & Ok & Nd & Et).
  pose proof (shrunk_room _ _ _ _ _ _ _ Sh (GR f Hd) Hr) as Rm. cbn [fst snd] in *.
  assert (Ei : get_root f1 = get_root f) by (pose proof (GR f1 D1) as E1; rewrite E1 in H1; by injection H1).
  rewrite Ei in *.
  destruct (free_ind_range_spec depth s1 (get_root f) (root_base k) 0 (fi_ino f1) Ok Nd) as (gone & s2 & E & G & _);
    [apply Sh|apply Sh|by rewrite Et|].
  rewrite E in Sh' |- *. cbn [snd]. destruct gone; [done|].
  exfalso. apply E0, (pr_gone _ _ _ _ _ _ _ G). done.
Qed.

Lemma root_base_nonneg k : 0 <= root_base k.
Proof. unfold root_base. repeat case_decide; lia. Qed.

Lemma shrunk_gone s f st : zlen (fi_direct f) = 12 -> shrunk s f 0 15 st -> file_blocks (snd st) (fst st) = [].
Proof.
  intros Hd (R & D1 & _). destruct (file_blocks _ _) as [|x l] eqn:E; [done|exfalso].
  assert (Hx : x ∈ file_blocks (snd st) (fst st)) by (rewrite E; left).
  apply elem_of_forest in Hx as (j & d & b & Hj & Hx).
  assert (Hl : (j < 15)%nat) by (apply lookup_lt_Some in Hj; unfold file_roots in Hj; rewrite length_app, length_map in Hj; unfold zlen in D1; cbn in Hj; lia).
  destruct (lookup_lt_is_Some_2 (file_roots f) j) as [[d' q] Hq].
  { unfold file_roots. rewrite length_app, length_map. unfold zlen in Hd. cbn. lia. }
  pose proof (ri_gone _ _ _ _ _ _ R j d' q Hl (root_base_nonneg j) Hq) as Hj'. rewrite Hj in Hj'. injection Hj' as -> ->.
  rewrite tree_blocks_0 in Hx. by apply elem_of_nil in Hx.
Qed.

Lemma free_data_blocks_spec kmalloc_ok s f f' s' :
  wf_file s f -> par_ok s -> failed s = false -> zlen (file_blocks s f) <= room s -> fi_type f <> S_IFLNK ->
  beamfs_free_data_blocks kmalloc_ok s f = (f', s') -> file_cut s f 0 s' f' /\ file_blocks s' f' = [].
Proof.
  intros Wf Par Hf Hr Hty. pose proof (wff_direct _ _ Wf) as Hd.
  destruct (evict_directs s f (if kmalloc_ok then Some [] else None) Wf Par Hf) as ([f1 s1] & seen & E1 & Sh1);
    [destruct kmalloc_ok; tauto|]. cbn [fst snd] in E1.
  assert (E : beamfs_free_data_blocks kmalloc_ok s f =
    let '(f, s) := if fi_indirect f1 =? 0 then (f1, s1)
      else (fset_indirect f1 0, snd (beamfs_free_ind_range s1 (fi_indirect f1) 0 BEAMFS_MAX_IBLOCK_DIRECT 0 (fi_ino f1))) in
    let '(f, s) := if fi_dindirect f =? 0 then (f, s)
      else (fset_dindirect f 0, snd (beamfs_free_ind_range s (fi_dindirect f) 1 BEAMFS_MAX_IBLOCK_INDIRECT 0 (fi_ino f))) in
    if fi_tindirect f =? 0 then (f, s)
    else (fset_tindirect f 0, snd (beamfs_free_ind_range s (fi_tindirect f) 2 BEAMFS_MAX_IBLOCK_DINDIRECT 0 (fi_ino f)))).
  { unfold beamfs_free_data_blocks. change BEAMFS_DIRECT_BLOCKS with 12. rewrite E1. by destruct (fi_type f). }
  rewrite E. clear E. destruct root_sets as (RS1 & RS2 & RS3).
  pose proof (evict_root_spec s f 12 0 fi_indirect fset_indirect (f1, s1) Hd Hr RS1
    (fun f Hd => proj1 (file_roots_high f Hd)) (root_base_nonneg _) Sh1) as Sh2. cbn [fst snd] in Sh2.
  change (root_base 12) with BEAMFS_MAX_IBLOCK_DIRECT in Sh2.
  set (st2 := if fi_indirect f1 =? 0 then _ else _) in Sh2 |- *. destruct st2 as [f2 s2].
  pose proof (evict_root_spec s f 13 1 fi_dindirect fset_dindirect (f2, s2) Hd Hr RS2
    (fun f Hd => proj1 (proj2 (file_roots_high f Hd))) (root_base_nonneg _) Sh2) as Sh3. cbn [fst snd] in Sh3.
  change (root_base 13) with BEAMFS_MAX_IBLOCK_INDIRECT in Sh3.
  set (st3 := if fi_dindirect f2 =? 0 then _ else _) in Sh3 |- *. destruct st3 as [f3 s3].
  pose proof (evict_root_spec s f 14 2 fi_tindirect fset_tindirect (f3, s3) Hd Hr RS3
    (fun f Hd => proj2 (proj2 (file_roots_high f Hd))) (root_base_nonneg _) Sh3) as Sh4. cbn [fst snd] in Sh4.
  change (root_base 14) with BEAMFS_MAX_IBLOCK_DINDIRECT in Sh4. intros E. rewrite E in Sh4.
  split; [exact (shrunk_cut s f 0 (f', s') Hd Sh4)|exact (shrunk_gone s f (f', s') Hd Sh4)].
Qed.

(** ** Counting *)

Lemma same_tree_blocks s s' d b : same s s' -> tree_ok s d b -> tree_ok s' d b /\ tree_blocks s' d b = tree_blocks s d b.
Proof.
  intros Sm Ok. destruct (tree_frame s s' d b) as (F1 & F2 & _); [|done|done].
  intros x Hx. apply same_keeps; [done|]. by apply (tree_allocated s d b).
Qed.

(** A walk that counts trees one after the other. *)
Lemma count_fold (count_tree : S -> Z -> Z -> Z * Z * S) d s ts :
  (forall s q count, q <> 0 -> tree_ok s d q -> par_ok s ->
     exists s', count_tree s q count = (0, count + zlen (tree_blocks s d q), s') /\ same s s') ->
  Forall (tree_ok s d) ts -> forall s1 count, same s s1 -> par_ok s1 ->
  exists s', foldl (fun '(ret, count, s) q => if negb (ret =? 0) then (ret, count, s) else count_tree s q count)
      (0, count, s1) (filter (fun q => q <> 0) ts) = (0, count + zlen (concat (map (tree_blocks s d) ts)), s') /\ same s s'.
Proof.
  intros H Ok. induction Ok as [|q ts Oq Ok IH]; intros s1 count Sm Par.
  - exists s1. change (zlen (concat (map (tree_blocks s d) []))) with 0. rewrite Z.add_0_r. done.
  - cbn [map concat]. rewrite zlen_app, filter_cons. destruct (decide (q = 0)) as [->|Hq].
    + rewrite decide_False by (intros X; by apply X). rewrite tree_blocks_0. change (zlen (@nil Z)) with 0. rewrite Z.add_0_l. by apply IH.
    + rewrite decide_True by done. cbn [foldl]. destruct (same_tree_blocks s s1 d q Sm Oq) as [O1 E1].
      change (negb (0 =? 0)) with false. cbv iota.
      destruct (H s1 q count Hq O1 Par) as (s2 & -> & Sm2). rewrite E1, Z.add_assoc.
      apply IH; [by apply (same_trans s s1)|by apply Sm2].
Qed.

Lemma count_tree_spec depth : forall s b count,
  b <> 0 -> tree_ok s (Datatypes.S depth) b -> par_ok s ->
  exists s', beamfs_count_tree true s b depth count = (0, count + zlen (tree_blocks s (Datatypes.S depth) b), s') /\ same s s'.
Proof.
  induction depth as [|d IH]; intros s b count Hb Ok Par; pose proof Ok as [?|(A & p & Hp & Zp & Bp & De & C)]; try done;
    cbn [beamfs_count_tree]; unfold beamfs_check_intermediate_block;
    pose proof (proj2 (pointer_ok s b) A) as [-> ->]%andb_true_iff; cbn [negb orb Z.eqb]; rewrite Hp;
    destruct (verify_same s b p Par A Zp Bp De) as (s1 & -> & Sm & _); cbn [negb Z.eqb];
    rewrite tree_blocks_children, (page_children s _ b p Hp), zlen_cons by done; change BEAMFS_INDIRECT_PTRS with 512.
  - exists s1. split; [|done]. f_equal. f_equal. unfold forest, page_trees. rewrite map_map.
    enough (zlen (filter (fun q => q <> 0) (map (ptr p) (upto 512))) = zlen (concat (map (fun k => tree_blocks s 0 (ptr p k)) (upto 512)))) by lia.
    induction (upto 512) as [|k l IHl]; [done|]. cbn [map concat].
    rewrite zlen_app, <- IHl. cbn [tree_blocks]. rewrite filter_cons. destruct (Z.eqb_spec (ptr p k) 0) as [E|E].
    + rewrite decide_False by (intros H; by apply H). done.
    + rewrite decide_True by done. rewrite zlen_cons. change (zlen [ptr p k]) with 1. lia.
  - destruct (count_fold (fun s q count => beamfs_count_tree true s q d count) (Datatypes.S d) s (map (ptr p) (upto 512)) IH)
      with (s1 := s1) (count := count + 1) as (s2 & E & Sm2); [|done|by apply Sm|].
    { apply Forall_map, list.Forall_forall. intros k Hk%elem_of_seqZ. apply C. lia. }
    exists s2. split; [|done]. cbn [negb] in E |- *. rewrite E. f_equal. f_equal.
    unfold forest, page_trees. rewrite !map_map. lia.
Qed.

Lemma count_blocks_spec s f :
  wf_file s f -> par_ok s -> fi_type f = S_IFREG \/ fi_type f = S_IFDIR ->
  exists s', beamfs_count_blocks true s f = (0, zlen (file_blocks s f), s') /\ same s s'.
Proof.
  intros [Hd FO] Par Hty. set (n0 := zlen (filter (fun p => p <> 0) (map (getb (fi_direct f)) (upto BEAMFS_DIRECT_BLOCKS)))).
  assert (E : beamfs_count_blocks true s f = foldl (fun '(ret, count, s) '(root, depth) =>
      if negb (ret =? 0) || (root =? 0) then (ret, count, s) else beamfs_count_tree true s root depth count)
      (0, n0, s) [(fi_indirect f, 0%nat); (fi_dindirect f, 1%nat); (fi_tindirect f, 2%nat)]).
  { unfold beamfs_count_blocks. by destruct Hty as [-> | ->]. }
  rewrite E. clear E. cbn [foldl]. destruct (file_roots_high f Hd) as (R12 & R13 & R14).
  assert (Step : forall s1 count b depth, same s s1 -> tree_ok s (Datatypes.S depth) b ->
    exists s2, (if negb (0 =? 0) || (b =? 0) then (0, count, s1) else beamfs_count_tree true s1 b depth count)
      = (0, count + zlen (tree_blocks s (Datatypes.S depth) b), s2) /\ same s s2).
  { intros s1 count b depth Sm Ok. change (negb (0 =? 0)) with false. cbn [orb]. destruct (Z.eqb_spec b 0) as [->|Hb].
    - exists s1. rewrite tree_blocks_0. change (zlen (@nil Z)) with 0. rewrite Z.add_0_r. done.
    - destruct (same_tree_blocks s s1 _ b Sm Ok) as [O1 <-]. destruct (count_tree_spec depth s1 b count Hb O1) as (s2 & -> & Sm2); [by apply Sm|].
      exists s2. split; [done|]. by apply (same_trans s s1). }
  destruct (Step s n0 (fi_indirect f) 0%nat (same_refl s) (fo_ok _ _ FO _ _ _ R12)) as (s1 & -> & S1).
  destruct (Step s1 (n0 + zlen (tree_blocks s 1 (fi_indirect f))) (fi_dindirect f) 1%nat S1 (fo_ok _ _ FO _ _ _ R13)) as (s2 & -> & S2).
  match goal with |- context[beamfs_count_tree true s2 _ _ ?c] => destruct (Step s2 c (fi_tindirect f) 2%nat S2 (fo_ok _ _ FO _ _ _ R14)) as (s3 & -> & S3) end.
  exists s3. split; [|done]. f_equal. f_equal. unfold file_blocks, forest, file_roots.
  rewrite map_app, concat_app, zlen_app. cbn [map concat]. rewrite !zlen_app, !map_map. change (zlen (@nil Z)) with 0.
  enough (n0 = zlen (concat (map (fun b => tree_blocks s 0 b) (fi_direct f)))) by lia.
  unfold n0. replace (map (getb (fi_direct f)) (upto BEAMFS_DIRECT_BLOCKS)) with (fi_direct f).
  - clear. induction (fi_direct f) as [|b l IHl]; [done|]. cbn [map concat]. rewrite zlen_app, <- IHl.
    cbn [tree_blocks]. rewrite filter_cons. destruct (Z.eqb_spec b 0) as [E|E].
    + rewrite decide_False by (intros H; by apply H). done.
    + rewrite decide_True by done. rewrite zlen_cons. change (zlen [b]) with 1. lia.
  - change BEAMFS_DIRECT_BLOCKS with 12. rewrite <- Hd. apply list_map_upto.
Qed.
End shrink.
