(* ===== verification/FileContent.v ===== *)
(** * The contents of a file

    The bytes a file holds, through its map and the blocks behind it, and
    what the operations on the map leave of them. *)

From S2P Require Import Prelude Format Crc RsInit GF RsTheory RsCode RsCorrect RsDecode RsLib RsComplete Edac EdacWord EdacBlock EdacLayouts EdacTheorems Dirent FileData Dir DirTree FileDataTheorems FileTree FileSteady FileMap FileGrow FileTheorems FileFree FileTruncate.

(** ** Several files on one volume

    The operations of the file code as steps on a volume and its open
    files, and the invariant they keep: every file is well formed and no
    block belongs to two of them. *)

Section world.
Context {S : Type} `{RL : !RsLib} `{CL : !CrcLib} `{TO : TreeEnvOk S}.
#[local] Existing Instance no_view.
Context (c : data_cfg) (t : rs_tables) (cpu : nat).

(** The state, and the inodes of the open files. *)
Definition world : Type := S * list finode.

(** One call of the file code for the file [k].  The generation of the
    parity region has room for the updates of the call. *)
Inductive fstep : world -> world -> Prop :=
  | step_lookup s fs k f i rc r s' :
      fs !! k = Some f -> file_block i ->
      beamfs_inline_lookup_phys s f i = (rc, r, s') ->
      fstep (s, fs) (s', fs)
  | step_alloc s fs k f i now rc r fresh f' s' :
      fs !! k = Some f -> 8 <= room s -> file_block i ->
      beamfs_inline_lookup_or_alloc_phys_new c t cpu s f i now = (rc, r, fresh, f', s') ->
      fstep (s, fs) (s', <[k := f']> fs)
  | step_truncate s fs k f first f' s' :
      fs !! k = Some f -> zlen (file_blocks s f) <= room s -> failed s = false -> 0 <= first < 2 ^ 32 ->
      beamfs_inline_free_blocks_from true s f first = (f', s') ->
      fstep (s, fs) (s', <[k := f']> fs)
  | step_evict s fs k f kmalloc_ok f' s' :
      fs !! k = Some f -> zlen (file_blocks s f) <= room s -> failed s = false -> fi_type f <> S_IFLNK ->
      beamfs_free_data_blocks kmalloc_ok s f = (f', s') ->
      fstep (s, fs) (s', <[k := f']> fs).

Record files_ok (w : world) : Prop := {
  fw_par : par_ok (fst w);
  fw_wf : forall k f, snd w !! k = Some f -> wf_file (fst w) f;
  fw_disj : forall j k f g x, j <> k -> snd w !! j = Some f -> snd w !! k = Some g ->
    x ∈ file_blocks (fst w) f -> x ∉ file_blocks (fst w) g }.

Lemma file_allocated s f x : wf_file s f -> x ∈ file_blocks s f -> allocated s x.
Proof.
  intros [_ [Ok _]] Hx. apply elem_of_forest in Hx as (i & d & b & Hi & Hx). by apply (tree_allocated s d b x (Ok i d b Hi)).
Qed.

(** A file whose blocks are kept is kept. *)
Lemma file_frame s s' f : wf_file s f -> (forall x, x ∈ file_blocks s f -> keeps s s' x) ->
  wf_file s' f /\ file_blocks s' f = file_blocks s f /\ forall i, file_block i -> fget s' f i = fget s f i.
Proof.
  intros [Hd [Ok Nd]] K.
  assert (O : forall j d q, file_roots f !! j = Some (d, q) -> tree_ok s' d q /\ tree_blocks s' d q = tree_blocks s d q /\
    forall slots, valid_slots d slots -> tree_get s' q slots = tree_get s q slots).
  { intros j d q Hj. destruct (tree_frame s s' d q) as (F1 & F2 & F3); [|by apply (Ok j)|].
    - intros x Hx. apply K, elem_of_forest. by exists j, d, q.
    - split_and!; [done|done|]. intros sl [V1 V2]. by apply F3. }
  assert (E : file_blocks s' f = file_blocks s f).
  { unfold file_blocks, forest. f_equal. apply map_ext_in. intros [d q] Hin%list_elem_of_In.
    apply list_elem_of_lookup_1 in Hin as [j Hj]. by apply (O j). }
  split; [split; [done|]; split; [intros j d q Hj; by apply (O j)|]; unfold file_blocks in E; by rewrite E|]. split; [done|].
  intros i Hi. destruct (path_root f i Hd Hi) as (b & Hb & _). rewrite (fget_path s' f i b Hb), (fget_path s f i b Hb).
  apply (O _ _ _ Hb). by apply path_valid.
Qed.

(** The file [k] changed: its old blocks apart, everything is kept, and its
    new blocks were its own or in use by nobody. *)
Lemma files_ok_step s s' fs k f f' :
  files_ok (s, fs) -> fs !! k = Some f -> par_ok s' -> wf_file s' f' ->
  (forall x, allocated s x -> x ∉ file_blocks s f -> keeps s s' x) ->
  (forall x, x ∈ file_blocks s' f' -> x ∈ file_blocks s f \/ ~ allocated s x) ->
  files_ok (s', <[k := f']> fs) /\
  forall j g i, j <> k -> fs !! j = Some g -> file_block i -> fget s' g i = fget s g i.
Proof.
  intros [P W D] Hk P' W' K N. cbn [fst snd] in *. pose proof (lookup_lt_Some _ _ _ Hk) as Hlt.
  assert (F : forall j g, j <> k -> fs !! j = Some g -> wf_file s' g /\ file_blocks s' g = file_blocks s g /\
    forall i, file_block i -> fget s' g i = fget s g i).
  { intros j g Hne Hj. apply file_frame; [by apply (W j)|]. intros x Hx. apply K; [by apply (file_allocated s g); [apply (W j)|]|].
    by apply (D j k g f). }
  assert (X : forall j g x, j <> k -> fs !! j = Some g -> x ∈ file_blocks s g -> x ∉ file_blocks s' f').
  { intros j g x Hne Hj Hx Hx'. destruct (N x Hx') as [H|H]; [by apply (D j k g f x)|].
    apply H. by apply (file_allocated s g); [apply (W j)|]. }
  split; [|intros j g i Hne Hj; by apply (F j)]. split; cbn [fst snd]; [done| |].
  - intros j g Hj. destruct (decide (j = k)) as [->|Hne].
    + rewrite list_lookup_insert_eq in Hj by done. by injection Hj as <-.
    + rewrite list_lookup_insert_ne in Hj by done. by apply (F j).
  - intros i j g h x Hij Hi Hj Hx Hx'. destruct (decide (i = k)) as [->|Hik]; [|destruct (decide (j = k)) as [->|Hjk]].
    + rewrite list_lookup_insert_eq in Hi by done. injection Hi as <-. rewrite list_lookup_insert_ne in Hj by done.
      destruct (F j h) as (_ & E & _); [done|done|]. rewrite E in Hx'. by apply (X j h x).
    + rewrite list_lookup_insert_eq in Hj by done. injection Hj as <-. rewrite list_lookup_insert_ne in Hi by done.
      destruct (F i g) as (_ & E & _); [done|done|]. rewrite E in Hx. by apply (X i g x).
    + rewrite list_lookup_insert_ne in Hi by done. rewrite list_lookup_insert_ne in Hj by done.
      destruct (F i g) as (_ & E1 & _); [done|done|]. destruct (F j h) as (_ & E2 & _); [done|done|].
      rewrite E1 in Hx. rewrite E2 in Hx'. by apply (D i j g h x).
Qed.

(** Nothing changed. *)
Lemma files_ok_same s s' fs : files_ok (s, fs) -> same s s' ->
  files_ok (s', fs) /\ forall j g i, fs !! j = Some g -> file_block i -> fget s' g i = fget s g i.
Proof.
  intros [P W D] Sm. cbn [fst snd] in *.
  assert (F : forall j g, fs !! j = Some g -> wf_file s' g /\ file_blocks s' g = file_blocks s g /\
    forall i, file_block i -> fget s' g i = fget s g i).
  { intros j g Hj. apply file_frame; [by apply (W j)|]. intros x Hx. apply same_keeps; [done|].
    by apply (file_allocated s g); [apply (W j)|]. }
  split; [|intros j g i Hj; by apply (F j)]. split; cbn [fst snd]; [by apply Sm|intros j g Hj; by apply (F j)|].
  intros i j g h x Hij Hi Hj. destruct (F i g Hi) as (_ & -> & _), (F j h Hj) as (_ & -> & _). by apply (D i j).
Qed.

(** What a step does to the maps: all but one logical block of one file, or
    all but the file's tail, stay. *)
Definition map_change (w w' : world) : Prop :=
  (forall j f f' i, snd w !! j = Some f -> snd w' !! j = Some f' -> file_block i -> fget (fst w') f' i = fget (fst w) f i) \/
  exists k f f', snd w !! k = Some f /\ snd w' !! k = Some f' /\
    (forall j g i, j <> k -> snd w !! j = Some g -> snd w' !! j = Some g /\
       (file_block i -> fget (fst w') g i = fget (fst w) g i)) /\
    ((exists i, fget (fst w) f i = 0 /\ forall j, file_block j -> j <> i -> fget (fst w') f' j = fget (fst w) f j) \/
     (exists first, forall j, file_block j -> fget (fst w') f' j = if j <? first then fget (fst w) f j else 0)).

Lemma cut_step s s' fs k f f' first :
  files_ok (s, fs) -> fs !! k = Some f -> file_cut s f first s' f' ->
  files_ok (s', <[k := f']> fs) /\ map_change (s, fs) (s', <[k := f']> fs).
Proof.
  intros Ok Hk [C1 C2 C3 C4 C5 C6]. destruct (files_ok_step s s' fs k f f' Ok Hk C2 C1 C6) as [O M]; [intros x Hx; left; by apply C4|].
  split; [done|right]. exists k, f, f'. cbn [fst snd]. pose proof (lookup_lt_Some _ _ _ Hk).
  split; [done|]. split; [by rewrite list_lookup_insert_eq|]. split.
  - intros j g x Hne Hj. rewrite list_lookup_insert_ne by done. split; [done|]. by apply (M j).
  - right. by exists first.
Qed.

Lemma fstep_ok w w' : files_ok w -> fstep w w' -> files_ok w' /\ map_change w w'.
Proof.
  intros Ok St. destruct St as [s fs k f i rc r s' Hk Hi E|s fs k f i now rc r fresh f' s' Hk Hr Hi E|
    s fs k f first f' s' Hk Hr Hf Hfirst E|s fs k f ok f' s' Hk Hr Hf Hty E].
  - destruct (lookup_phys_spec s f i (fw_wf _ Ok k f Hk) (fw_par _ Ok) Hi) as (s1 & E1 & Sm & _).
    rewrite E in E1. injection E1 as _ _ ->. destruct (files_ok_same s s1 fs Ok Sm) as [O M]. split; [done|left].
    intros j g g' x Hj Hj'. cbn [fst snd] in *. rewrite Hj in Hj'. injection Hj' as <-. by apply (M j).
  - pose proof (fw_wf _ Ok k f Hk) as Wf. cbn [fst] in Wf.
    assert (T : (f', s') = (f, s) -> files_ok (s', <[k := f']> fs) /\ map_change (s, fs) (s', <[k := f']> fs)).
    { intros [= -> ->]. rewrite list_insert_id by done. split; [done|left]. intros j g g' x Hj Hj'. cbn [fst snd] in *. congruence. }
    destruct (fi_freeing f) eqn:Fr; [apply T; unfold beamfs_inline_lookup_or_alloc_phys_new in E; rewrite Fr in E; congruence|].
    destruct (decide (s_free_blocks s = 0)) as [F0|F0].
    { apply T. unfold beamfs_inline_lookup_or_alloc_phys_new in E. rewrite Fr, F0 in E. cbn [Z.eqb] in E. congruence. }
    destruct (lookup_or_alloc_spec c t cpu s f i now rc r fresh f' s' Wf (fw_par _ Ok) (viewed_none s) Hr Hi Fr F0 E) as (D' & _ & P' & _ & G & O).
    destruct (files_ok_step s s' fs k f f' Ok Hk P') as [O1 M1]; [by split; [|apply G]|apply G|apply G|].
    split; [done|]. destruct (decide (fget s f i = 0)) as [E0|E0].
    + right. exists k, f, f'. cbn [fst snd]. pose proof (lookup_lt_Some _ _ _ Hk).
      split; [done|]. split; [by rewrite list_lookup_insert_eq|]. split.
      * intros j g x Hne Hj. rewrite list_lookup_insert_ne by done. split; [done|]. by apply (M1 j).
      * left. exists i. split; [done|]. intros j Hj Hne. apply (rgrown_get s s' f f' i j); [apply Wf|done..].
    + left. assert (En : fget s' f' i = fget s f i) by (destruct O as [(_ & _ & _ & ? & _)|[(_ & _ & ? & _)|(_ & _ & _ & ? & _)]]; done).
      intros j g g' x Hj Hj' Hx. cbn [fst snd] in *. destruct (decide (j = k)) as [->|Hne].
      * rewrite list_lookup_insert_eq in Hj' by (by apply lookup_lt_Some in Hk). injection Hj' as <-. rewrite Hk in Hj. injection Hj as <-.
        destruct (decide (x = i)) as [->|Hxi]; [done|]. apply (rgrown_get s s' f f' i x); [apply Wf|done..].
      * rewrite list_lookup_insert_ne in Hj' by done. rewrite Hj in Hj'. injection Hj' as <-. by apply (M1 j).
  - pose proof (fw_wf _ Ok k f Hk) as Wf. cbn [fst] in Wf.
    pose proof (free_blocks_from_spec s f first f' s' Wf (fw_par _ Ok) Hf Hr Hfirst E) as C.
    by apply (cut_step s s' fs k f f' first).
  - pose proof (fw_wf _ Ok k f Hk) as Wf. cbn [fst] in Wf.
    destruct (free_data_blocks_spec ok s f f' s' Wf (fw_par _ Ok) Hf Hr Hty E) as [C _].
    by apply (cut_step s s' fs k f f' 0).
Qed.
End world.

(** ** The contents of a file

    The bytes a file holds, through its map and the blocks behind it, and
    what the operations on the map leave of them. *)

(** ** What is known of the blocks *)

Section view.
Context {S : Type} `{TO : TreeEnvOk S}.

(** Every block in use holds what it holds. *)
Definition view_of (s : S) : LeafView := fun x => if in_data s x && is_allocated s x then bread s x else None.

Lemma view_of_read s x p : view_of s x = Some p -> bread s x = Some p /\ allocated s x.
Proof. unfold view_of. destruct (in_data s x && is_allocated s x) eqn:E; [|done]. intros H. split; [done|by apply pointer_ok]. Qed.

Lemma view_of_intro s x p : allocated s x -> bread s x = Some p -> view_of s x = Some p.
Proof. intros A H. unfold view_of. apply pointer_ok in A. by rewrite A. Qed.

Lemma tree_view (lv lv' : LeafView) s d b : (forall x p, lv' x = Some p -> bread s x = Some p) ->
  tree_ok (LV := lv) s d b -> tree_ok (LV := lv') s d b.
Proof.
  intros H. revert b. induction d as [|d IH]; intros b [->|(A & T)]; [by left|right; split; [done|]; intros p; apply H|by left|right].
  destruct T as (p & R & Z & B & D & C). split; [done|]. exists p. split_and!; [done..|]. intros j Hj. by apply IH, C.
Qed.

Lemma tree_unview (lv : LeafView) s d b : tree_ok (LV := lv) s d b -> tree_ok (LV := no_view) s d b.
Proof. by apply tree_view. Qed.

(** A block at the end of a path. *)
Lemma tree_leaf (lv : LeafView) s d b slots : tree_ok (LV := lv) s d b -> valid_slots d slots -> tree_get s b slots <> 0 ->
  tree_get s b slots ∈ tree_blocks s d b /\ forall p, lv (tree_get s b slots) = Some p -> bread s (tree_get s b slots) = Some p.
Proof.
  revert b slots. induction d as [|d IH]; intros b slots Hok [V1 V2] Hne.
  - destruct slots; [|done]. cbn [tree_get] in *. destruct (Z.eqb_spec b 0) as [|Hb]; [done|]. destruct Hok as [?|[_ L]]; [done|].
    split; [|exact L]. cbn. destruct (Z.eqb_spec b 0); [done|left].
  - destruct slots as [|j slots]; [done|]. apply list.Forall_cons in V2 as [Hj V2]. cbn [tree_get] in *.
    destruct (Z.eqb_spec b 0) as [|Hb]; [done|]. destruct Hok as [?|(A & p & R & Z & B & D & C)]; [done|].
    assert (Eh : held s b = p) by (unfold held; by rewrite R). rewrite Eh in *.
    destruct (IH (ptr p j) slots (C j Hj) ltac:(split; [by injection V1|done]) Hne) as [I1 I2]. split; [|exact I2].
    rewrite tree_blocks_children by done. right. apply elem_of_forest. exists (Z.to_nat j), d, (ptr p j). by rewrite lookup_children, Eh.
Qed.

Lemma wf_view (lv lv' : LeafView) s f : (forall x p, lv' x = Some p -> bread s x = Some p) ->
  wf_file (LV := lv) s f -> wf_file (LV := lv') s f.
Proof. intros H [D [O N]]. split; [done|]. split; [|done]. intros i d b Hi. by apply (tree_view lv lv'), (O i). Qed.

Lemma wf_unview (lv : LeafView) s f : wf_file (LV := lv) s f -> wf_file (LV := no_view) s f.
Proof. by apply wf_view. Qed.

Lemma viewed_of s : viewed (LV := view_of s) s.
Proof. intros b p H. by apply view_of_read in H as [_ ?]. Qed.

Lemma wf_leaf (lv : LeafView) s f i : wf_file (LV := lv) s f -> file_block i -> fget s f i <> 0 ->
  fget s f i ∈ file_blocks s f /\ forall p, lv (fget s f i) = Some p -> bread s (fget s f i) = Some p.
Proof.
  intros [D [O N]] Hi Hne. destruct (path_root f i D Hi) as (b & Hb & _). rewrite (fget_path s f i b Hb) in *.
  destruct (tree_leaf lv s _ b (snd (path i)) (O _ _ _ Hb) (path_valid i Hi) Hne) as [L1 L2]. split; [|done].
  apply elem_of_forest. by eexists _, _, _.
Qed.
End view.

#[local] Existing Instance no_view.

Section content.
Context {S : Type} `{RL : !RsLib} `{RS : !RsLibSpec} `{RB : !RsLibBounded} `{CL : !CrcLib} `{TO : TreeEnvOk S}.
Context (c : data_cfg) (t : rs_tables) (cpu : nat).

Abbreviation P := (beamfs_block_payload c).

Lemma payload_range : 3808 <= P <= 3824.
Proof. data_consts. destruct (s_rs_interleave c); lia. Qed.

Lemma leaf_allocated s f i : wf_file s f -> file_block i -> fget s f i <> 0 -> allocated s (fget s f i).
Proof. intros W Hi Hne. destruct (wf_leaf _ s f i W Hi Hne) as [L _]. by apply (file_allocated s f). Qed.

(** ** The map grows *)

Lemma alloc_keeps_data s f i now rc r fresh f' s' j p :
  wf_file s f -> par_ok s -> 8 <= room s -> file_block i -> fi_freeing f = false -> s_free_blocks s <> 0 ->
  beamfs_inline_lookup_or_alloc_phys_new c t cpu s f i now = (rc, r, fresh, f', s') ->
  file_block j -> fget s f j <> 0 -> bread s (fget s f j) = Some p -> fget s' f' j = fget s f j /\ bread s' (fget s f j) = Some p.
Proof.
  intros W Par Hr Hi Fr F0 E Hj Hne Hp.
  pose proof (wf_view _ (view_of s) s f (fun x p H => proj1 (view_of_read s x p H)) W) as Wv.
  destruct (lookup_or_alloc_spec (LV := view_of s) c t cpu s f i now rc r fresh f' s' Wv Par (viewed_of s) Hr Hi Fr F0 E) as (D' & _ & P' & _ & G & O).
  assert (Ej : fget s' f' j = fget s f j).
  { destruct (decide (j = i)) as [->|Hji]; [|by apply (rgrown_get (LV := view_of s) s s' f f' i j); [apply W|..]].
    unfold outcome in O. destruct O as [(_ & _ & _ & -> & _)|[(_ & _ & ? & _)|(_ & _ & _ & ? & _)]]; done. }
  split; [done|]. assert (Wv' : wf_file (LV := view_of s) s' f') by (split; [done|apply G]).
  destruct (wf_leaf (view_of s) s' f' j Wv' Hj ltac:(by rewrite Ej)) as [_ L]. rewrite Ej in L. apply L.
  apply view_of_intro; [by apply leaf_allocated|done].
Qed.

(** ** The map is cut *)

Lemma cut_keeps_data s f first f' s' j p :
  wf_file s f -> par_ok s -> failed s = false -> zlen (file_blocks s f) <= room s -> 0 <= first < 2 ^ 32 ->
  beamfs_inline_free_blocks_from true s f first = (f', s') ->
  file_block j -> j < first -> fget s f j <> 0 -> bread s (fget s f j) = Some p -> bread s' (fget s f j) = Some p.
Proof.
  intros W Par Hf Hr Hfirst E Hj Hlt Hne Hp.
  pose proof (wf_view _ (view_of s) s f (fun x p H => proj1 (view_of_read s x p H)) W) as Wv.
  destruct (free_blocks_from_spec (LV := view_of s) s f first f' s' Wv Par Hf Hr Hfirst E) as [C1 _ C3 _ _ _].
  pose proof (C3 j Hj) as Ej. destruct (Z.ltb_spec j first) as [_|]; [|lia].
  destruct (wf_leaf (view_of s) s' f' j C1 Hj ltac:(by rewrite Ej)) as [_ L]. rewrite Ej in L. apply L.
  apply view_of_intro; [by apply leaf_allocated|done].
Qed.

(** ** A data block is written *)

Lemma bput_keeps s x p b : allocated s b -> b <> x -> keeps s (bput s x p) b.
Proof. intros A Hne. split_and!; [by apply bput_allocated|by apply bput_other|apply (bput_par s x p)]. Qed.

Definition at_leaf (s : S) (d : nat) (b x : Z) : Prop := exists slots, valid_slots d slots /\ tree_get s b slots = x /\ x <> 0.

Lemma tree_put : forall d s b x p, tree_ok s d b -> NoDup (tree_blocks s d b) -> x ∉ tree_blocks s d b \/ at_leaf s d b x ->
  tree_ok (bput s x p) d b /\ tree_blocks (bput s x p) d b = tree_blocks s d b /\
  forall slots, valid_slots d slots -> tree_get (bput s x p) b slots = tree_get s b slots.
Proof.
  assert (Out : forall d s b x p, tree_ok s d b -> x ∉ tree_blocks s d b ->
    tree_ok (bput s x p) d b /\ tree_blocks (bput s x p) d b = tree_blocks s d b /\
    forall slots, valid_slots d slots -> tree_get (bput s x p) b slots = tree_get s b slots).
  { intros d s b x p Hok Hx. destruct (tree_frame s (bput s x p) d b) as (F1 & F2 & F3); [|done|].
    - intros y Hy. apply bput_keeps; [by apply (tree_allocated s d b)|]. by intros ->.
    - split_and!; [done|done|]. intros sl [V1 V2]. by apply F3. }
  induction d as [|d IH]; intros s b x p Hok Hn [Hx|(slots & [V1 V2] & E & H0)]; try by apply Out.
  - split_and!; [|done|by intros [|? ?] [? _]]. destruct Hok as [->|[A _]]; [by left|right]. split; [by apply bput_allocated|done].
  - destruct slots as [|j slots]; [done|]. cbn [tree_get] in E. destruct (Z.eqb_spec b 0) as [|Hb]; [congruence|].
    pose proof Hok as Hok0. destruct Hok as [?|(A & q & R & Zq & B & D & C)]; [done|]. apply list.Forall_cons in V2 as [Hj V2].
    assert (Eh : held s b = q) by (unfold held; by rewrite R). rewrite Eh in E.
    assert (Vs : valid_slots d slots) by (split; [by injection V1|done]).
    destruct (tree_leaf _ s d (ptr q j) slots (C j Hj) Vs ltac:(congruence)) as [Lx _]. rewrite E in Lx.
    rewrite tree_blocks_children in Hn by done. apply list.NoDup_cons in Hn as [Hb1 Hn]. pose proof Hn as Hn0. apply forest_nodup in Hn as [Hn Dj].
    assert (Hxb : x <> b). { intros ->. apply Hb1, elem_of_forest. exists (Z.to_nat j), d, (ptr q j). by rewrite lookup_children, Eh. }
    assert (Rb : bread (bput s x p) b = Some q) by (by rewrite bput_other).
    assert (Eh' : held (bput s x p) b = q) by (unfold held; by rewrite Rb).
    assert (K : forall k, 0 <= k < 512 -> tree_ok (bput s x p) d (ptr q k) /\ tree_blocks (bput s x p) d (ptr q k) = tree_blocks s d (ptr q k) /\
      forall sl, valid_slots d sl -> tree_get (bput s x p) (ptr q k) sl = tree_get s (ptr q k) sl).
    { intros k Hk. apply IH; [by apply C|apply (Hn (Z.to_nat k) d); by rewrite lookup_children, Eh|].
      destruct (decide (k = j)) as [->|Hkj]; [right; by exists slots|left]. intros Hx.
      apply (Dj (Z.to_nat j) (Z.to_nat k) d (ptr q j) d (ptr q k) x); [lia|by rewrite lookup_children, Eh..|done|done]. }
    split_and!.
    + right. split; [by apply bput_allocated|]. exists q. split_and!; [done|done|done|by apply (bput_par s x p)|]. intros k Hk. by apply K.
    + rewrite !tree_blocks_children by done. f_equal. unfold forest, children. rewrite !map_map. unfold kids.
      rewrite Eh', Eh, !map_map. f_equal. apply map_ext_in. intros k Hk%list_elem_of_In%elem_of_upto. by apply K.
    + intros [|k sl] [W1 W2]; [done|]. cbn [tree_get]. destruct (Z.eqb_spec b 0); [done|]. apply list.Forall_cons in W2 as [Hk W2].
      rewrite Eh', Eh. apply K; [done|]. split; [by injection W1|done].
Qed.

Lemma tree_get_inj : forall d s b sl sl', tree_ok s d b -> NoDup (tree_blocks s d b) -> valid_slots d sl -> valid_slots d sl' ->
  tree_get s b sl = tree_get s b sl' -> tree_get s b sl <> 0 -> sl = sl'.
Proof.
  induction d as [|d IH]; intros s b [|j sl] [|j' sl'] Hok Hn [V1 V2] [W1 W2] E H0; try done.
  cbn [tree_get] in E, H0. destruct (Z.eqb_spec b 0) as [|Hb]; [done|]. apply list.Forall_cons in V2 as [Hj V2], W2 as [Hj' W2].
  destruct Hok as [?|(A & q & R & Zq & B & D & C)]; [done|]. assert (Eh : held s b = q) by (unfold held; by rewrite R). rewrite Eh in *.
  rewrite tree_blocks_children in Hn by done. apply list.NoDup_cons in Hn as [_ Hn]. apply forest_nodup in Hn as [Hn Dj].
  assert (V : valid_slots d sl) by (split; [by injection V1|done]). assert (W : valid_slots d sl') by (split; [by injection W1|done]).
  destruct (tree_leaf _ s d (ptr q j) sl (C j Hj) V H0) as [L1 _]. destruct (tree_leaf _ s d (ptr q j') sl' (C j' Hj') W ltac:(congruence)) as [L2 _].
  destruct (decide (j = j')) as [<-|Hne].
  - f_equal. apply (IH s (ptr q j)); try done; [by apply C|]. apply (Hn (Z.to_nat j) d). by rewrite lookup_children, Eh.
  - exfalso. rewrite <- E in L2. apply (Dj (Z.to_nat j) (Z.to_nat j') d (ptr q j) d (ptr q j') (tree_get s (ptr q j) sl)); [lia|by rewrite lookup_children, Eh..|done|done].
Qed.

Lemma fget_inj s f i j : wf_file s f -> file_block i -> file_block j -> fget s f i = fget s f j -> fget s f i <> 0 -> i = j.
Proof.
  intros [D [O N]] Hi Hj E H0. destruct (path_root f i D Hi) as (b & Hb & _), (path_root f j D Hj) as (b' & Hb' & _).
  rewrite (fget_path s f i b Hb) in *. rewrite (fget_path s f j b' Hb') in E. apply forest_nodup in N as [N Dj].
  pose proof (path_valid i Hi) as Vi. pose proof (path_valid j Hj) as Vj.
  destruct (tree_leaf _ s _ b (snd (path i)) (O _ _ _ Hb) Vi H0) as [L1 _]. destruct (tree_leaf _ s _ b' (snd (path j)) (O _ _ _ Hb') Vj ltac:(congruence)) as [L2 _].
  rewrite <- E in L2. apply path_inj; [done|done|]. destruct (decide (fst (path i) = fst (path j))) as [Ef|Hne].
  - rewrite Ef in Hb. rewrite Hb in Hb'. injection Hb' as Ed <-. rewrite (surjective_pairing (path i)), (surjective_pairing (path j)), Ef. f_equal.
    apply (tree_get_inj (path_depth i) s b); try done; [by apply (O (fst (path j)))|by apply (N (fst (path j)))|by rewrite Ed].
  - exfalso. by apply (Dj _ _ _ _ _ _ (tree_get s b (snd (path i))) Hne Hb Hb').
Qed.

(** A data block of the file is in one place of one tree. *)
Lemma leaf_place s f i k d q : wf_file s f -> file_block i -> fget s f i <> 0 -> file_roots f !! k = Some (d, q) ->
  NoDup (tree_blocks s d q) /\ (fget s f i ∉ tree_blocks s d q \/ at_leaf s d q (fget s f i)).
Proof.
  intros [D [O N]] Hi Hne Hk. destruct (path_root f i D Hi) as (b & Hb & _). pose proof (fget_path s f i b Hb) as Ex.
  apply forest_nodup in N as [N Dj]. split; [by apply (N k)|]. rewrite Ex in *. pose proof (path_valid i Hi) as V.
  destruct (tree_leaf _ s _ b (snd (path i)) (O _ _ _ Hb) V Hne) as [Lx _]. destruct (decide (k = fst (path i))) as [->|Hki].
  - rewrite Hb in Hk. injection Hk as <- <-. right. by exists (snd (path i)).
  - left. intros Hx. by apply (Dj k (fst (path i)) d q (path_depth i) b (tree_get s b (snd (path i)))).
Qed.

Lemma file_put s f i p : wf_file s f -> file_block i -> fget s f i <> 0 ->
  wf_file (bput s (fget s f i) p) f /\ file_blocks (bput s (fget s f i) p) f = file_blocks s f /\
  forall j, file_block j -> fget (bput s (fget s f i) p) f j = fget s f j.
Proof.
  intros W Hi Hne. pose proof W as [D [O N]]. set (x := fget s f i) in *.
  assert (K : forall k d q, file_roots f !! k = Some (d, q) -> tree_ok (bput s x p) d q /\ tree_blocks (bput s x p) d q = tree_blocks s d q /\
    forall sl, valid_slots d sl -> tree_get (bput s x p) q sl = tree_get s q sl).
  { intros k d q Hk. destruct (leaf_place s f i k d q W Hi Hne Hk) as [Nk Px]. by apply tree_put; [apply (O k)|..]. }
  assert (E : file_blocks (bput s x p) f = file_blocks s f).
  { unfold file_blocks, forest. f_equal. apply map_ext_in. intros [d q] Hin%list_elem_of_In.
    apply list_elem_of_lookup_1 in Hin as [k Hk]. by apply (K k). }
  split; [split; [done|]; split; [intros k d q Hk; by apply (K k)|]; unfold file_blocks in E; by rewrite E|]. split; [done|].
  intros j Hj. destruct (path_root f j D Hj) as (q & Hq & _). rewrite (fget_path _ f j q Hq), (fget_path s f j q Hq).
  apply (K _ _ _ Hq). by apply path_valid.
Qed.

(** ** Contents *)

(** [raw] is a block built for [pay], with damage the code tolerates. *)
Definition sealed (ino i : Z) (pay raw : list Z) : Prop :=
  bytes pay /\ P <= zlen pay /\ exists page blk, zlen page = 4096 /\ bytes page /\
    build_data_block c t cpu page pay ino i = (0, blk) /\ tolerable c blk raw.

(** The file's byte at every position, from block [i]. *)
Definition block_holds (s : S) (f : finode) (C : Z -> Z) (i : Z) : Prop :=
  (fget s f i = 0 -> forall u, 0 <= u < P -> C (i * P + u) = 0) /\
  (fget s f i <> 0 -> exists raw pay, bread s (fget s f i) = Some raw /\ sealed (fi_ino f) i pay raw /\
    forall u, 0 <= u < P -> getb pay u = C (i * P + u)).

(** The blocks of the file hold the bytes [C]. *)
Record file_maps (s : S) (f : finode) (C : Z -> Z) : Prop := {
  fm_wf : wf_file s f;
  fm_par : par_ok s;
  fm_block i : file_block i -> block_holds s f C i }.

(** The file holds the bytes [C], zeroes beyond its end. *)
Record file_holds (s : S) (f : finode) (C : Z -> Z) : Prop := {
  fh_maps : file_maps s f C;
  fh_size : 0 <= fi_size f <= BEAMFS_MAX_IBLOCK_TINDIRECT * P;
  fh_end p : fi_size f <= p -> C p = 0 }.

Lemma block_holds_frame s s' f f' C C' i : fi_ino f' = fi_ino f -> fget s' f' i = fget s f i ->
  (forall p, fget s f i <> 0 -> bread s (fget s f i) = Some p -> bread s' (fget s f i) = Some p) ->
  (forall u, 0 <= u < P -> C' (i * P + u) = C (i * P + u)) ->
  block_holds s f C i -> block_holds s' f' C' i.
Proof.
  intros Ei Eg Hr HC [B1 B2]. unfold block_holds. rewrite Eg, Ei. split.
  - intros H u Hu. rewrite HC by done. by apply B1.
  - intros H. destruct (B2 H) as (raw & pay & R & Se & Hp). exists raw, pay. split_and!; [by apply Hr|done|]. intros u Hu. rewrite HC by done. by apply Hp.
Qed.

(** The file may change, the blocks of others do not; no block of another
    becomes the file's. *)
Record apart (s : S) (f : finode) (s' : S) (f' : finode) : Prop := {
  ap_kept x : allocated s x -> x ∉ file_blocks s f -> keeps s s' x;
  ap_new x : x ∈ file_blocks s' f' -> x ∈ file_blocks s f \/ ~ allocated s x }.

Lemma apart_trans s1 f1 s2 f2 s3 f3 : apart s1 f1 s2 f2 -> apart s2 f2 s3 f3 -> apart s1 f1 s3 f3.
Proof.
  intros [K1 N1] [K2 N2]. assert (Out : forall x, allocated s1 x -> x ∉ file_blocks s1 f1 -> x ∉ file_blocks s2 f2).
  { intros x A Hx Hx2. by destruct (N1 x Hx2). }
  split.
  - intros x A Hx. apply (keeps_trans s1 s2); [by apply K1|]. apply K2; [by apply (K1 x A Hx)|by apply Out].
  - intros x Hx. destruct (N2 x Hx) as [Hx2|Na]; [by apply N1|]. destruct (decide (x ∈ file_blocks s1 f1)); [by left|right].
    intros A. apply Na. by apply (K1 x A).
Qed.

Lemma apart_same s s' f : wf_file s f -> same s s' -> apart s f s' f.
Proof.
  intros W Sm. destruct (file_frame s s' f W) as (_ & E & _).
  { intros x Hx. apply same_keeps; [done|]. by apply (file_allocated s f). }
  split; [intros x A _; by apply same_keeps|]. intros x. rewrite E. by left.
Qed.

Lemma apart_refl s f : apart s f s f.
Proof. split; [intros x A _; apply same_keeps; [apply same_refl|done]|by left]. Qed.

(** Only the roots of an inode matter. *)
Lemma apart_inode s f s' f1 f2 : same_inode f1 f2 -> apart s f s' f1 -> apart s f s' f2.
Proof. intros I [K N]. split; [done|]. unfold file_blocks. by rewrite (same_inode_roots f1 f2 I). Qed.

Lemma maps_same s s' f C : same s s' -> file_maps s f C -> file_maps s' f C /\ forall i, file_block i -> fget s' f i = fget s f i.
Proof.
  intros Sm [H1 H2 H3]. destruct (file_frame s s' f H1) as (F1 & F2 & F3).
  { intros x Hx. apply same_keeps; [done|]. by apply (file_allocated s f). }
  split; [|done]. split; [done|by apply Sm|]. intros i Hi. apply (block_holds_frame s s' f f C C); [done|by apply F3| |done|by apply H3].
  intros p Hne Hp. rewrite (sm_read _ _ Sm); [done|]. by apply leaf_allocated.
Qed.

Lemma file_holds_same s s' f C : same s s' -> file_holds s f C -> file_holds s' f C.
Proof. intros Sm [H1 H2 H3]. split; [by apply (maps_same s)|done|done]. Qed.

Lemma block_of p : 0 <= p < BEAMFS_MAX_IBLOCK_TINDIRECT * P -> file_block (p / P) /\ 0 <= p - p / P * P < P /\ p / P * P + (p - p / P * P) = p.
Proof.
  pose proof payload_range. intros Hp. unfold file_block. split; [|split; [|lia]].
  - split; [apply Z.div_pos; lia|]. apply Z.div_lt_upper_bound; lia.
  - pose proof (Z.div_mod p P ltac:(lia)). pose proof (Z.mod_pos_bound p P ltac:(lia)). lia.
Qed.

(** ** Reading a block whole *)

Lemma decode_sealed stk ino i pay raw phys off len rmw : ready t cpu -> sealed ino i pay raw -> phys <> 0 ->
  0 <= off -> 0 < len -> off + len <= P -> exists calls,
  beamfs_inline_decode_block_into_buf c t cpu stk true raw phys ino i off len rmw = (0, slice pay off len, calls).
Proof.
  intros Hr (Bp & Zp & page & blk & Zg & Bg & E & T) Hp Ho Hl Hs.
  destruct (data_block_read c t cpu stk page pay ino i blk raw phys off len rmw Hr Zg Bg Bp Zp E T Hp Ho Hl Hs) as (calls & H & _). by exists calls.
Qed.

(** The read-modify-write reads 3824 bytes, of which the payload matters. *)
Lemma decode_whole stk ino i pay raw phys rmw : ready t cpu -> sealed ino i pay raw -> phys <> 0 -> exists out calls,
  beamfs_inline_decode_block_into_buf c t cpu stk true raw phys ino i 0 BEAMFS_DATA_INLINE_BYTES rmw = (0, out, calls) /\
  zlen out = 3824 /\ bytes out /\ forall u, 0 <= u < P -> getb out u = getb pay u.
Proof.
  intros Hr Se Hp. pose proof Se as (Bp & Zp & page & blk & Zg & Bg & E & T).
  destruct (s_rs_interleave c) eqn:Ei.
  - unfold beamfs_inline_decode_block_into_buf. destruct (Z.eqb_spec phys 0); [done|]. cbn [negb].
    change (BEAMFS_DATA_INLINE_BYTES =? 0) with false. change (BEAMFS_DATA_INLINE_BYTES <? 0 + BEAMFS_DATA_INLINE_BYTES) with false. cbn iota.
    destruct (decode_sealed stk ino i pay raw phys 0 1 rmw Hr Se Hp ltac:(lia) ltac:(lia) ltac:(pose proof payload_range; lia)) as (calls & D).
    unfold beamfs_inline_decode_block_into_buf in D. destruct (Z.eqb_spec phys 0); [done|]. cbn [negb] in D.
    change (1 =? 0) with false in D. change (BEAMFS_DATA_INLINE_BYTES <? 0 + 1) with false in D. cbn iota in D.
    destruct (built_decoded c t cpu Hr stk page pay ino i blk raw Zg Bg Bp Zp E T) as (fixed & results & positions & Ed & F1 & F2 & _ & _ & F5).
    rewrite Ed in *. destruct (foldl _ (false, []) _) as [unc cs].
    destruct unc; [done|]. do 3 (destruct (_ && _); [done|]). injection D as _ <-.
    exists (copy_slice c fixed 0 BEAMFS_DATA_INLINE_BYTES), cs. split; [done|]. unfold copy_slice. rewrite Ei. change (BEAMFS_CAPSULE_DATA_OFF + 0) with 0.
    change BEAMFS_DATA_INLINE_BYTES with 3824. split; [apply zlen_slice; lia|]. split; [by apply bytes_slice|].
    intros u Hu. pose proof payload_range. rewrite getb_slice by lia. rewrite <- F5 by done. unfold user_addr. by rewrite Ei.
  - assert (EP : P = 3824) by (data_consts; by rewrite Ei).
    destruct (decode_sealed stk ino i pay raw phys 0 3824 rmw Hr Se Hp ltac:(lia) ltac:(lia) ltac:(lia)) as (calls & D).
    exists (slice pay 0 3824), calls. split; [exact D|]. split; [apply zlen_slice; lia|]. split; [by apply bytes_slice|].
    intros u Hu. by rewrite getb_slice by lia.
Qed.

(** ** What operations leave of the contents *)

Lemma lay_zeros : beamfs_lay_data_payload c (zeros 4096) (zeros 4096) = zeros 4096.
Proof. unfold beamfs_lay_data_payload. destruct (s_rs_interleave c); vm_compute; reflexivity. Qed.

Lemma build_ok page pay ino i : ready t cpu -> zlen page = 4096 -> bytes page -> bytes pay -> P <= zlen pay ->
  exists blk, build_data_block c t cpu page pay ino i = (0, blk) /\ sealed ino i pay blk.
Proof.
  intros Hr Zg Bg Bp Zp. destruct (lay_spec c page pay Zg Bg Bp Zp) as (L1 & L2 & _).
  destruct (stamp_spec c _ pay ino i L1 L2 Bp) as (M1 & M2 & _). destruct (seal_spec c t cpu Hr _ M1 M2) as (blk & E & X).
  exists blk. split; [exact E|]. split; [done|]. split; [done|]. exists page, blk. split_and!; [done|done|exact E|].
  destruct (data_layout_facts c) as (F & _). apply tolerable_refl; [rewrite <- F; apply X|apply X].
Qed.

Lemma fresh_sealed ino i : ready t cpu -> sealed ino i (zeros 4096) (fresh_data_block c t cpu ino i).
Proof.
  intros Hr. pose proof payload_range. destruct (build_ok (zeros 4096) (zeros 4096) ino i Hr) as (blk & E & Se);
    [by rewrite zlen_zeros|apply bytes_zeros|apply bytes_zeros|rewrite zlen_zeros; lia|].
  unfold build_data_block in E. rewrite lay_zeros in E. unfold fresh_data_block. change BEAMFS_BLOCK_SIZE with 4096. by rewrite E.
Qed.

(** The allocating lookup changes no byte of the file. *)
Lemma maps_alloc s f C i now rc r fresh f' s' : ready t cpu -> file_maps s f C -> 8 <= room s -> file_block i ->
  fi_freeing f = false -> s_free_blocks s <> 0 ->
  beamfs_inline_lookup_or_alloc_phys_new c t cpu s f i now = (rc, r, fresh, f', s') ->
  file_maps s' f' C /\ room s - 8 <= room s' /\ same_meta f f' /\
  (rc = 0 /\ r <> 0 /\ fget s' f' i = r /\ (fget s f i = r \/ fget s f i = 0 /\ ~ allocated s r) \/ rc < 0 /\ r = 0 /\ fget s f i = 0) /\
  (forall j, file_block j -> j <> i -> fget s' f' j = fget s f j) /\ apart s f s' f'.
Proof.
  intros Hr [W Par B] Rm Hi Fr F0 E.
  destruct (lookup_or_alloc_spec c t cpu s f i now rc r fresh f' s' W Par (viewed_none s) Rm Hi Fr F0 E) as (D' & Ei & P' & R' & G & O).
  pose proof (alloc_meta c t cpu s f i now) as Me. rewrite E in Me. cbn [fst snd] in Me.
  assert (Gj : forall j, file_block j -> j <> i -> fget s' f' j = fget s f j) by (intros j Hj Hne; apply (rgrown_get s s' f f' i j); [apply W|done..]).
  split_and!; [|done|done| |done|split; apply G].
  - split; [split; [done|apply G]|done|]. intros j Hj.
    destruct (decide (j = i)) as [->|Hne]; [destruct (decide (fget s f i = 0)) as [E0|E0]|].
    + destruct O as [(_ & _ & -> & _ & ?)|[(_ & _ & _ & On & Or & _ & Rd)|(_ & _ & _ & _ & On)]]; [congruence| |].
      * split; [congruence|]. intros _. rewrite On. exists (fresh_data_block c t cpu (fi_ino f) i), (zeros 4096). rewrite Ei.
        split; [done|]. split; [by apply fresh_sealed|]. intros u Hu. rewrite getb_zeros. symmetry. by apply (B i Hi).
      * split; [|congruence]. intros _ u Hu. by apply (B i Hi).
    + apply (block_holds_frame s s' f f' C C); [done| | |done|by apply B].
      * destruct O as [(_ & _ & _ & -> & _)|[(_ & _ & ? & _)|(_ & _ & _ & ? & _)]]; done.
      * intros p Hp Hq. by apply (alloc_keeps_data s f i now rc r fresh f' s' i p).
    + apply (block_holds_frame s s' f f' C C); [done|by apply Gj| |done|by apply B].
      intros p Hp Hq. by apply (alloc_keeps_data s f i now rc r fresh f' s' j p).
  - destruct O as [(-> & _ & -> & On & ?)|[(-> & _ & Oo & On & ? & Na & _)|(? & _ & -> & Oo & _)]]; [left|left|right]; split_and!; try done; [by left|right; done].
Qed.

(** A cut leaves the bytes of the blocks it keeps. *)
Lemma maps_cut s f C first f' s' : file_maps s f C -> failed s = false -> zlen (file_blocks s f) <= room s -> 0 <= first < 2 ^ 32 ->
  beamfs_inline_free_blocks_from true s f first = (f', s') ->
  file_maps s' f' (fun p => if p <? first * P then C p else 0) /\ same_meta f f' /\ apart s f s' f' /\
  (forall x, allocated s' x <-> allocated s x /\ (x ∉ file_blocks s f \/ x ∈ file_blocks s' f')).
Proof.
  intros [W Par B] Hf Rm Hfirst E. destruct (free_blocks_from_spec s f first f' s' W Par Hf Rm Hfirst E) as [C1 C2 C3 C4 C5 C6].
  pose proof (free_from_meta true s f first) as Me. rewrite E in Me. cbn [fst] in Me. pose proof payload_range as HP.
  split_and!; [|done|split; [done|by left; apply C4]|done]. split; [done|done|]. intros i Hi. pose proof (C3 i Hi) as Eg. destruct (Z.ltb_spec i first) as [Hlt|Hge].
  - apply (block_holds_frame s s' f f' C _ i); [apply Me|done| | |by apply B].
    + intros p Hp Hq. by apply (cut_keeps_data s f first f' s' i p).
    + intros u Hu. destruct (Z.ltb_spec (i * P + u) (first * P)); [done|nia].
  - split; [|congruence]. intros _ u Hu. destruct (Z.ltb_spec (i * P + u) (first * P)); [nia|done].
Qed.

(** A block of the file is built anew. *)
Lemma maps_put s f C C' i pay raw : file_maps s f C -> file_block i -> fget s f i <> 0 -> sealed (fi_ino f) i pay raw ->
  (forall u, 0 <= u < P -> getb pay u = C' (i * P + u)) ->
  (forall j u, file_block j -> j <> i -> 0 <= u < P -> C' (j * P + u) = C (j * P + u)) ->
  file_maps (bput s (fget s f i) raw) f C' /\ (forall j, file_block j -> fget (bput s (fget s f i) raw) f j = fget s f j) /\
  apart s f (bput s (fget s f i) raw) f.
Proof.
  intros [W Par B] Hi Hne Se Hp Ho. destruct (file_put s f i raw W Hi Hne) as (F1 & F2 & F3). split_and!; [|done|].
  2:{ split; [|intros x; rewrite F2; by left]. intros x A Hx. apply bput_keeps; [done|]. intros ->. by apply Hx, (wf_leaf _ s f i W Hi). }
  split; [done|by apply (bput_par s (fget s f i) raw)|]. intros j Hj. destruct (decide (j = i)) as [->|Hji].
  - split; rewrite F3 by done; [done|]. intros _. exists raw, pay. split; [apply bput_same|done].
  - apply (block_holds_frame s _ f f C C'); [done|by apply F3| |by intros; apply Ho|by apply B]. intros p Hq Hr.
    rewrite bput_other; [done|]. intros Eq. apply Hji. by apply (fget_inj s f j i).
Qed.

Lemma maps_ext s f C C' : (forall p, 0 <= p -> C' p = C p) -> file_maps s f C -> file_maps s f C'.
Proof.
  intros HC [W Par B]. split; [done|done|]. intros i Hi. apply (block_holds_frame s s f f C C'); [done|done|done| |by apply B].
  intros u Hu. apply HC. pose proof payload_range. unfold file_block in Hi. nia.
Qed.

Lemma maps_inode s f f' C : same_inode f f' -> file_maps s f C -> file_maps s f' C.
Proof.
  intros I [W Par B]. pose proof (same_inode_roots f f' I) as Er.
  assert (Eg : forall i, fget s f' i = fget s f i) by (intros i; unfold fget; by rewrite Er).
  split; [|done|].
  - destruct W as [D F]. split; [by rewrite (si_direct _ _ I)|by rewrite Er].
  - intros i Hi. apply (block_holds_frame s s f f' C C); [apply I|apply Eg|done|done|by apply B].
Qed.

(** The blocks of a file are no more than those of the volume. *)
Lemma file_blocks_bound `{SS : !Steady S} s f : steady s -> wf_file s f -> zlen (file_blocks s f) <= capacity.
Proof.
  intros St W. pose proof (steady_capacity s St). cut (zlen (file_blocks s f) <= s_nblocks s); [lia|].
  assert (L : (length (file_blocks s f) <= length (seqZ (s_data_start s) (s_nblocks s)))%nat).
  { apply NoDup_incl_length; [apply NoDup_ListNoDup, W|]. intros x Hx%list_elem_of_In. apply list_elem_of_In, elem_of_seqZ.
    pose proof (file_allocated s f x W Hx) as A. apply pointer_ok, andb_true_iff in A as [A _]. unfold in_data in A. lia. }
  rewrite length_seqZ in L. unfold zlen. lia.
Qed.
End content.
