(* ===== verification/FileIoTheorems.v ===== *)
(** * Reading and truncating a file

    A folio is filled with the bytes the file holds; a cut leaves the bytes
    below the new size, zeroes beyond, and blocks of nobody else. *)

From S2P Require Import Prelude Format Crc RsInit GF RsTheory RsCode RsCorrect RsDecode RsLib RsComplete Edac EdacWord EdacBlock EdacLayouts EdacTheorems Dirent FileData Dir DirTree FileDataTheorems FileTree FileSteady FileIo FileMap FileGrow FileTheorems FileFree FileTruncate FileContent.

#[local] Existing Instance no_view.

Section io.
Context {S : Type} `{RL : !RsLib} `{RS : !RsLibSpec} `{RB : !RsLibBounded} `{CL : !CrcLib} `{TO : TreeEnvOk S} `{SS : !Steady S}.
Context (c : data_cfg) (t : rs_tables) (cpu : nat) (stk : stack_arrays).
Hypothesis Hready : ready t cpu.

Abbreviation P := (beamfs_block_payload c).
Notation file_holds := (file_holds c t cpu).
Notation file_maps := (file_maps c t cpu).

(** ** Reading *)

(** [fetch] finds what the buffer cache or the device holds. *)
Definition fetches (fetch : S -> Z -> Z + list Z) : Prop :=
  forall s x raw, scratch_get s = true -> bread s x = Some raw -> fetch s x = inr raw.

Lemma fetch_read_ok : fetches fetch_read.
Proof. intros s x raw H1 H2. unfold fetch_read. by rewrite H1, H2. Qed.

Lemma fetch_write_ok : fetches fetch_write.
Proof. intros s x raw H1 H2. unfold fetch_write. by rewrite H2. Qed.

(** One block of a lookup. *)
Lemma lookup_maps s f C i : steady s -> file_maps s f C -> file_block i -> exists s',
  beamfs_inline_lookup_phys s f i = (0, fget s f i, s') /\ same s s' /\ steady s' /\ failed s' = failed s /\ file_maps s' f C /\
  forall j, file_block j -> fget s' f j = fget s f j.
Proof.
  intros St H Hi. destruct (lookup_phys_spec s f i (fm_wf _ _ _ _ _ _ H) (fm_par _ _ _ _ _ _ H) Hi) as (s' & E & Sm & Hf).
  exists s'. pose proof (lookup_steady s f i St) as St'. rewrite E in St'. destruct (maps_same c t cpu s s' f C Sm H). by split_and!.
Qed.

(** The bytes [C] from [p] on, in the folio from [off] on. *)
Definition filled (folio folio' : list Z) (C : Z -> Z) (p off n : Z) : Prop :=
  zlen folio' = zlen folio /\
  forall k, 0 <= k -> getb folio' k = if bool_decide (off <= k < off + n) then C (p + (k - off)) else getb folio k.

Lemma filled_splice folio C p off n src : 0 <= off -> off + n <= zlen folio -> zlen src = n ->
  (forall u, 0 <= u < n -> getb src u = C (p + u)) -> filled folio (splice folio off src) C p off n.
Proof.
  intros Ho Hn Hz HC. split; [apply zlen_splice; lia|]. intros k Hk. case_bool_decide as Hb.
  - rewrite getb_splice_in by lia. apply HC. lia.
  - apply getb_splice_out; lia.
Qed.

Lemma filled_trans a b d C p off n m : 0 <= n -> 0 <= m -> filled a b C p off n -> filled b d C (p + n) (off + n) m -> filled a d C p off (n + m).
Proof.
  intros Hn Hm [Z1 F1] [Z2 F2]. split; [congruence|]. intros k Hk. rewrite F2 by done. case_bool_decide.
  - rewrite bool_decide_true by lia. f_equal. lia.
  - rewrite F1 by done. repeat case_bool_decide; try lia; done.
Qed.

Lemma filled_none folio C p off : filled folio folio C p off 0.
Proof. split; [done|]. intros k Hk. by rewrite bool_decide_false by lia. Qed.

(** A slice of one block. *)
Lemma slice_holds s f C p l fetch : fetches fetch -> steady s -> file_holds s f C -> 0 <= p -> 0 < l -> p + l <= fi_size f ->
  p - p / P * P + l <= P ->
  exists s1, beamfs_inline_lookup_phys s f (p / P) = (0, fget s f (p / P), s1) /\ same s s1 /\ steady s1 /\ file_holds s1 f C /\
  (fget s f (p / P) = 0 -> forall u, 0 <= u < l -> C (p + u) = 0) /\
  (fget s f (p / P) <> 0 -> exists raw out calls, fetch s1 (fget s f (p / P)) = inr raw /\
    beamfs_inline_decode_block_into_buf c t cpu stk (scratch_get s1) raw (fget s f (p / P)) (fi_ino f) (p / P) (p - p / P * P) l false = (0, out, calls) /\
    zlen out = l /\ forall u, 0 <= u < l -> getb out u = C (p + u)).
Proof.
  intros Hf St H Hp Hl Hs Hb. pose proof (fh_size _ _ _ _ _ _ H) as Hsz. destruct (block_of c p ltac:(lia)) as (Hi & Ho & Ep).
  set (i := p / P) in *. set (o := p - i * P) in *.
  destruct (lookup_maps s f C i St (fh_maps _ _ _ _ _ _ H) Hi) as (s1 & E & Sm & St1 & _ & H1 & G). pose proof (file_holds_same c t cpu s s1 f C Sm H) as Hh. exists s1. split_and!; [done..| |].
  - intros E0 u Hu. pose proof (proj1 (fm_block _ _ _ _ _ _ (fh_maps _ _ _ _ _ _ H) i Hi) E0 (o + u) ltac:(lia)) as Hz. rewrite <- Hz. f_equal. lia.
  - intros Hne. destruct (proj2 (fm_block _ _ _ _ _ _ H1 i Hi)) as (raw & pay & R & Se & Hpay); [by rewrite G|]. rewrite G in R by done.
    destruct (decode_sealed c t cpu stk (fi_ino f) i pay raw (fget s f i) o l false Hready Se Hne ltac:(lia) Hl Hb) as (calls & D).
    exists raw, (slice pay o l), calls. rewrite (steady_scratch s1 St1). pose proof Se as (_ & Zp & _).
    split; [by apply Hf; [apply steady_scratch|]|]. split; [exact D|]. split; [apply zlen_slice; lia|].
    intros u Hu. rewrite getb_slice by lia. rewrite Hpay by lia. f_equal. lia.
Qed.

Lemma read_slices_spec fetch fuel : fetches fetch -> forall s f C folio p end_, steady s -> file_holds s f C ->
  0 <= p <= end_ -> end_ <= fi_size f -> end_ - p <= Z.of_nat fuel -> zlen folio = 4096 -> p mod 4096 + (end_ - p) <= 4096 ->
  exists folio' s', read_slices c t cpu stk fetch fuel s f folio p end_ = (0, folio', s') /\ steady s' /\ same s s' /\
    filled folio folio' C p (p mod 4096) (end_ - p).
Proof.
  intros Hf. induction fuel as [|fuel IH]; intros s f C folio p end_ St H Hp He Hfu Zf Hpg; cbn [read_slices].
  { exists folio, s. replace end_ with p by lia. rewrite Z.sub_diag. split_and!; [done|done|apply same_refl|apply filled_none]. }
  destruct (Z.leb_spec end_ p).
  { exists folio, s. replace end_ with p by lia. rewrite Z.sub_diag. split_and!; [done|done|apply same_refl|apply filled_none]. }
  pose proof (fh_size _ _ _ _ _ _ H) as Hsz. destruct (block_of c p ltac:(lia)) as (Hi & Ho & Ep).
  set (l := Z.min (end_ - p) (P - (p - p / P * P))). assert (Hl : 0 < l <= end_ - p) by lia.
  destruct (slice_holds s f C p l fetch Hf St H ltac:(lia) ltac:(lia) ltac:(lia) ltac:(lia)) as (s1 & -> & Sm & St1 & H1 & Z0 & D).
  cbn [Z.ltb Z.compare]. unfold offset_in_folio. change PAGE_SIZE with 4096.
  pose proof (Z.mod_pos_bound p 4096 ltac:(lia)) as Hm. set (off := p mod 4096) in *.
  assert (Step : forall s2 folio1, steady s2 -> same s s2 -> file_holds s2 f C -> filled folio folio1 C p off l ->
    exists folio' s', read_slices c t cpu stk fetch fuel s2 f folio1 (p + l) end_ = (0, folio', s') /\ steady s' /\ same s s' /\
      filled folio folio' C p off (end_ - p)).
  { intros s2 folio1 St2 Sm2 H2 F1. destruct (decide (p + l = end_)) as [El|El].
    - exists folio1, s2. split; [destruct fuel; cbn [read_slices]; [done|]; destruct (Z.leb_spec end_ (p + l)); [done|lia]|].
      split_and!; [done|done|]. by replace (end_ - p) with l by lia.
    - assert (Em : (p + l) mod 4096 = off + l).
      { pose proof (Z.div_mod p 4096 ltac:(lia)) as Dm. symmetry. apply (Z.mod_unique_pos _ _ (p / 4096)); lia. }
      destruct (IH s2 f C folio1 (p + l) end_ St2 H2 ltac:(lia) He ltac:(lia) ltac:(destruct F1; congruence) ltac:(lia)) as (folio' & s' & E' & St' & Sm' & F').
      exists folio', s'. split_and!; [done|done|by apply (same_trans s s2)|]. rewrite Em in F'.
      replace (end_ - p) with (l + (end_ - (p + l))) by lia. apply (filled_trans folio folio1); [lia|lia|done|done]. }
  destruct (Z.eqb_spec (fget s f (p / P)) 0) as [E0|E0].
  - apply Step; [done|done|done|]. unfold folio_zero_range. apply filled_splice; [lia|lia|rewrite zlen_zeros; lia|].
    intros u Hu. rewrite getb_zeros. symmetry. by apply Z0.
  - destruct (D E0) as (raw & out & calls & -> & -> & Zo & Ho'). cbn [Z.ltb Z.compare].
    destruct (report_same s1 calls) as [Sr _]. pose proof (same_trans s s1 _ Sm Sr) as Sm2.
    apply Step; [by apply steady_report|done|by apply (file_holds_same c t cpu s1)|]. apply filled_splice; [lia|lia|done|done].
Qed.

Lemma read_range_spec fetch s f C folio pos len : fetches fetch -> steady s -> file_holds s f C -> 0 <= pos -> 0 <= len ->
  zlen folio = 4096 -> pos mod 4096 + len <= 4096 ->
  exists folio' s', read_range c t cpu stk fetch s f folio pos len = (0, folio', s') /\ steady s' /\ same s s' /\
    filled folio folio' C pos (pos mod 4096) len.
Proof.
  intros Hf St H Hp Hl Zf Hpg. unfold read_range. pose proof (Z.mod_pos_bound pos 4096 ltac:(lia)) as Hm. set (off := pos mod 4096) in *.
  destruct (Z.ltb_spec (fi_size f) (pos + len)) as [He|He].
  - set (eof := Z.max pos (fi_size f)).
    assert (Eo : offset_in_folio eof = off + (eof - pos)).
    { unfold offset_in_folio. change PAGE_SIZE with 4096. symmetry. apply (Z.mod_unique_pos _ _ (pos / 4096)); [lia|].
      pose proof (Z.div_mod pos 4096 ltac:(lia)). lia. }
    rewrite Eo. unfold folio_zero_range.
    assert (Fz : filled folio (splice folio (off + (eof - pos)) (zeros (pos + len - eof))) C eof (off + (eof - pos)) (pos + len - eof)).
    { apply filled_splice; [lia|lia|rewrite zlen_zeros; lia|]. intros u Hu. rewrite getb_zeros. symmetry. apply (fh_end _ _ _ _ _ _ H). lia. }
    assert (Glue : forall folio', filled (splice folio (off + (eof - pos)) (zeros (pos + len - eof))) folio' C pos off (eof - pos) -> filled folio folio' C pos off len).
    { intros folio' [Z1 F1]. destruct Fz as [Z2 F2]. split; [congruence|]. intros k Hk. rewrite F1, F2 by done.
      repeat case_bool_decide; try lia; try done. f_equal. lia. }
    destruct (decide (pos < eof)) as [Hlt|Hge].
    + destruct (read_slices_spec fetch (Z.to_nat len) Hf s f C (splice folio (off + (eof - pos)) (zeros (pos + len - eof))) pos eof St H)
        as (folio' & s' & E & St' & Sm & F); [lia|lia|lia|destruct Fz; congruence|fold off; lia|].
      exists folio', s'. split_and!; [done|done|done|]. by apply Glue.
    + exists (splice folio (off + (eof - pos)) (zeros (pos + len - eof))), s. split_and!; [|done|apply same_refl|].
      * destruct (Z.to_nat len); cbn [read_slices]; [done|]. destruct (Z.leb_spec eof pos); [done|lia].
      * apply Glue. replace (eof - pos) with 0 by lia. apply filled_none.
  - destruct (read_slices_spec fetch (Z.to_nat len) Hf s f C folio pos (pos + len) St H) as (folio' & s' & E & St' & Sm & F); [lia|lia|lia|done|fold off; lia|].
    exists folio', s'. split_and!; [done|done|done|]. by replace (pos + len - pos) with len in F by lia.
Qed.

(** ** Truncation *)

(** The bytes from [a] to [b] become zero. *)
Definition zeroed (C : Z -> Z) (a b : Z) : Z -> Z := fun p => if (a <=? p) && (p <? b) then 0 else C p.

Lemma gate_ok s r : allocated s r -> gate 0 r s = (0, s).
Proof. intros A. unfold gate, beamfs_phys_is_sane. apply pointer_ok, andb_true_iff in A as [-> _]. by destruct (r =? 0). Qed.

Lemma gate_err s rc r : rc <> 0 -> gate rc r s = (rc, s).
Proof. intros H. unfold gate. by destruct (Z.eqb_spec rc 0). Qed.

Lemma alloc_phys_eq s f i now : beamfs_inline_lookup_or_alloc_phys c t cpu s f i now =
  let '(rc, r, _, f', s') := beamfs_inline_lookup_or_alloc_phys_new c t cpu s f i now in (rc, r, f', s').
Proof. done. Qed.

(** The lookup, then the lookup that allocates. *)
Lemma double_lookup s f C b now : steady s -> file_maps s f C -> 8 <= room s -> file_block b -> fi_freeing f = false -> s_free_blocks s <> 0 ->
  exists s1 rc r f' s2, beamfs_inline_lookup_phys s f b = (0, fget s f b, s1) /\
    beamfs_inline_lookup_or_alloc_phys c t cpu s1 f b now = (rc, r, f', s2) /\ steady s2 /\ file_maps s2 f' C /\ room s - 8 <= room s2 /\
    same_meta f f' /\ apart s f s2 f' /\
    (rc = 0 /\ r <> 0 /\ fget s2 f' b = r /\ (fget s f b = r \/ fget s f b = 0 /\ ~ allocated s r) \/ rc < 0 /\ r = 0 /\ fget s f b = 0) /\
    forall j, file_block j -> j <> b -> fget s2 f' j = fget s f j.
Proof.
  intros St H Rm Hb Fr F0. destruct (lookup_maps s f C b St H Hb) as (s1 & E1 & Sm & St1 & _ & H1 & G1).
  pose proof (lookup_free s f b) as Ef. rewrite E1 in Ef. cbn [snd] in Ef. pose proof (sm_room _ _ Sm) as R1.
  destruct (beamfs_inline_lookup_or_alloc_phys_new c t cpu s1 f b now) as [[[[rc r] fresh] f'] s2] eqn:E2.
  destruct (maps_alloc c t cpu s1 f C b now rc r fresh f' s2 Hready H1 ltac:(lia) Hb Fr ltac:(congruence) E2) as (H2 & R2 & Me & O & Gj & K).
  pose proof (alloc_steady c t cpu s1 f b now St1) as St2. rewrite E2 in St2. cbn [snd] in St2.
  exists s1, rc, r, f', s2. split; [done|]. split; [by rewrite alloc_phys_eq, E2|]. split_and!; [done|done|lia|done| | |].
  - apply (apart_trans s f s1 f); [apply apart_same; [apply H|done]|done].
  - rewrite G1 in O by done. destruct O as [(-> & O1 & O2 & [O3|[O3 O4]])|O]; [left|left|by right]; split_and!; try done; [by left|right].
    split; [done|]. by rewrite <- (sm_alloc _ _ Sm).
  - intros j Hj Hne. rewrite Gj, G1; done.
Qed.

Lemma zero_tail_spec s f C b z now : steady s -> file_maps s f C -> 8 <= room s -> file_block b -> fi_freeing f = false ->
  0 < z < P ->
  exists rc f' s', beamfs_inline_zero_tail_block c t cpu stk (fun _ => 0) s f b z now = (rc, f', s') /\ steady s' /\ room s - 8 <= room s' /\
    same_meta f f' /\ apart s f s' f' /\
    (rc = 0 /\ file_maps s' f' (zeroed C (b * P + z) (b * P + P)) \/
     rc < 0 /\ (fget s f b = 0 \/ s_free_blocks s = 0) /\ file_maps s' f' C).
Proof.
  intros St H Rm Hb Fr Hz. pose proof (payload_range c) as HP. unfold beamfs_inline_zero_tail_block.
  change BEAMFS_DATA_INLINE_BYTES with 3824. destruct (Z.leb_spec 3824 z); [lia|].
  destruct (decide (s_free_blocks s = 0)) as [F0|F0].
  { destruct (lookup_maps s f C b St H Hb) as (s1 & E1 & Sm & St1 & _ & H1 & _). pose proof (lookup_free s f b) as Ef.
    rewrite E1 in Ef. cbn [snd] in Ef. pose proof (sm_room _ _ Sm). rewrite E1, alloc_phys_eq.
    unfold beamfs_inline_lookup_or_alloc_phys_new. rewrite Fr, Ef, F0. cbn [Z.eqb]. rewrite gate_err by done. cbn [Z.ltb Z.compare Z.opp].
    exists (- ENOSPC), f, s1. split_and!; [done|done|lia|done|apply apart_same; [apply H|done]|]. right. split_and!; [done|by right|done]. }
  destruct (double_lookup s f C b now St H Rm Hb Fr F0) as (s1 & rc & r & f' & s2 & -> & -> & St2 & H2 & R2 & Me & K & [(-> & Hr & Eg & Old)|(Hrc & -> & E0)] & _).
  2:{ rewrite gate_err by lia. destruct (Z.ltb_spec rc 0); [|lia]. exists rc, f', s2. split_and!; try done. right. split_and!; [done|by left|done]. }
  assert (Ar : allocated s2 r) by (rewrite <- Eg; apply leaf_allocated; [apply H2|done|by rewrite Eg]).
  rewrite (gate_ok s2 r Ar). cbn [Z.ltb Z.compare]. destruct (Z.eqb_spec r 0); [done|]. rewrite (steady_scratch s2 St2). cbn [negb].
  destruct (proj2 (fm_block _ _ _ _ _ _ H2 b Hb) ltac:(by rewrite Eg)) as (raw & pay & Rd & Se & Hpay). rewrite Eg in Rd. rewrite Rd.
  destruct (decode_whole c t cpu stk (fi_ino f') b pay raw r true Hready Se Hr) as (out & calls & D & Zo & Bo & Ho).
  change BEAMFS_DATA_INLINE_BYTES with 3824 in D. rewrite D. cbn [Z.ltb Z.compare].
  destruct (report_same s2 calls) as [Sr _]. set (s3 := report s2 calls) in *. pose proof (steady_report s2 calls St2) as St3. fold s3 in St3.
  destruct (maps_same c t cpu s2 s3 f' C Sr H2) as [H3 G3]. pose proof Se as (_ & _ & page & blk & _ & _ & _ & (Zr & Br & _)).
  set (pay' := splice out z (zeros (3824 - z))).
  assert (Zp' : zlen pay' = 3824) by (unfold pay'; rewrite zlen_splice; rewrite ?zlen_zeros; lia).
  assert (Bp' : bytes pay') by (apply bytes_splice; [done|apply bytes_zeros]).
  destruct (build_ok c t cpu raw pay' (fi_ino f') b Hready Zr Br Bp' ltac:(lia)) as (blk' & -> & Se'). cbn [Z.ltb Z.compare].
  assert (E3 : fget s3 f' b = r) by (rewrite G3; done).
  destruct (maps_put c t cpu s3 f' C (zeroed C (b * P + z) (b * P + P)) b pay' blk' H3 Hb ltac:(by rewrite E3) Se') as (H4 & _ & A4).
  { intros u Hu. unfold zeroed, pay'. destruct (Z.leb_spec (b * P + z) (b * P + u)); cbn [andb].
    - destruct (Z.ltb_spec (b * P + u) (b * P + P)); [|lia]. rewrite getb_splice_in; rewrite ?zlen_zeros; try lia. by rewrite getb_zeros.
    - rewrite getb_splice_out; rewrite ?zlen_zeros; try lia. rewrite Ho by lia. by apply Hpay. }
  { intros j u Hj Hne Hu. unfold zeroed. destruct (Z.leb_spec (b * P + z) (j * P + u)); cbn [andb]; [|done]. destruct (Z.ltb_spec (j * P + u) (b * P + P)); [nia|done]. }
  rewrite E3 in H4, A4. exists 0, f', (bput s3 r blk'). pose proof (sm_room _ _ Sr). destruct (bput_par s3 r blk') as (_ & R4 & _).
  split_and!; [done|by apply steady_bput|lia|done| |left; by split].
  apply (apart_trans s f s2 f'); [done|]. apply (apart_trans s2 f' s3 f'); [apply apart_same; [apply H2|done]|done].
Qed.

(** setattr_copy leaves the size and the pointers alone. *)
Definition copies (copy : finode -> finode) : Prop := forall f, same_inode f (copy f) /\ same_meta f (copy f).

Lemma round_up_aligned n : n mod P = 0 -> DIV_ROUND_UP n P * P = n.
Proof.
  intros Em. pose proof (payload_range c). unfold DIV_ROUND_UP. pose proof (Z.div_mod n P ltac:(lia)) as Dm. rewrite Em, Z.add_0_r in Dm.
  replace (n + P - 1) with (n / P * P + (P - 1)) by lia. rewrite Z.div_add_l by lia. rewrite (Z.div_small (P - 1)) by lia. lia.
Qed.

Lemma round_up_tail n : n mod P <> 0 -> DIV_ROUND_UP n P * P = n / P * P + P.
Proof.
  intros Em. pose proof (payload_range c). pose proof (Z.div_mod n P ltac:(lia)). pose proof (Z.mod_pos_bound n P ltac:(lia)).
  unfold DIV_ROUND_UP. replace (n + P - 1) with ((n / P + 1) * P + (n mod P - 1)) by lia.
  rewrite Z.div_add_l by lia. rewrite (Z.div_small (n mod P - 1)) by lia. lia.
Qed.

(** The cut of setattr, in a state [s1] that comes from [s]. *)
Lemma cut_from s f s1 f1 C n f2 s2 : steady s1 -> capacity <= room s1 -> file_maps s1 f1 C -> fi_size f1 = n ->
  0 <= n <= BEAMFS_MAX_IBLOCK_TINDIRECT * P -> apart s f s1 f1 ->
  beamfs_inline_free_blocks_from true s1 f1 (DIV_ROUND_UP n P) = (f2, s2) ->
  steady s2 /\ apart s f s2 f2 /\ fi_size f2 = n /\ file_maps s2 f2 (fun p => if p <? DIV_ROUND_UP n P * P then C p else 0).
Proof.
  intros St1 R1 H1 En Hn K1 E. pose proof (payload_range c) as HP. assert (Hfirst : 0 <= DIV_ROUND_UP n P < 2 ^ 32).
  { unfold DIV_ROUND_UP. change BEAMFS_MAX_IBLOCK_TINDIRECT with 134480396 in Hn. split; [apply Z.div_pos; lia|]. apply Z.div_lt_upper_bound; lia. }
  pose proof (file_blocks_bound s1 f1 St1 (fm_wf _ _ _ _ _ _ H1)) as Bd.
  destruct (maps_cut c t cpu s1 f1 C (DIV_ROUND_UP n P) f2 s2 H1 (steady_failed s1 St1) ltac:(lia) Hfirst E) as (H2 & (_ & _ & Ez & _) & K2 & _).
  pose proof (free_from_steady true s1 f1 (DIV_ROUND_UP n P) St1) as St2. rewrite E in St2. cbn [snd] in St2.
  split_and!; [done|by apply (apart_trans s f s1 f1)|congruence|done].
Qed.

Lemma setattr_spec copy s f C n now rc f' s' : copies copy -> steady s -> file_holds s f C -> capacity + 8 <= room s ->
  fi_freeing f = false -> 0 <= n <= BEAMFS_MAX_IBLOCK_TINDIRECT * P ->
  beamfs_inline_setattr c t cpu stk true (fun _ => 0) 0 0 copy s f (Some n) now = (rc, f', s') ->
  steady s' /\ apart s f s' f' /\
  (rc = 0 /\ fi_size f' = n /\ file_holds s' f' (fun p => if p <? n then C p else 0) \/
   rc < 0 /\ n < fi_size f /\ n mod P <> 0 /\ (fget s f (n / P) = 0 \/ s_free_blocks s = 0) /\ fi_size f' = n /\ file_maps s' f' C).
Proof.
  intros Hcp St H Rm Fr Hn. pose proof (payload_range c) as HP. pose proof (fh_size _ _ _ _ _ _ H) as Hsz.
  pose proof (fh_maps _ _ _ _ _ _ H) as HM. unfold beamfs_inline_setattr. cbn [Z.eqb negb].
  pose proof (steady_capacity s St) as Hcap.
  assert (Fin : forall s0 f0 C0, same_inode f0 f' -> same_meta f0 f' -> fi_size f0 = n -> file_maps s0 f0 C0 -> (forall p, 0 <= p -> C0 p = if p <? n then C p else 0) ->
    fi_size f' = n /\ file_holds s0 f' (fun p => if p <? n then C p else 0)).
  { intros s0 f0 C0 I0 (_ & _ & Ez & _) En Hm HC. rewrite En in Ez. split; [done|]. split; [|by rewrite Ez|].
    - apply (maps_ext c t cpu s0 f' C0); [intros p Hp; symmetry; by apply HC|]. by apply (maps_inode c t cpu s0 f0).
    - intros p Hp. rewrite Ez in Hp. destruct (Z.ltb_spec p n); [lia|done]. }
  assert (Cp : forall f0, f' = fmark_dirty (copy (fset_ctime f0 now)) -> same_inode f0 f' /\ same_meta f0 f').
  { intros f0 ->. destruct (Hcp (fset_ctime f0 now)) as [[? ? ? ? ?] (? & ? & ? & ?)]. split; [by split|by split_and!]. }
  destruct (Z.ltb_spec n (fi_size f)) as [Hlt|Hge].
  - set (f0 := truncate_setsize f n). assert (I0 : same_inode f f0) by (by split).
    pose proof (maps_inode c t cpu s f f0 C I0 HM) as HM0.
    assert (Eg0 : forall i, fget s f0 i = fget s f i) by done.
    destruct (Z.eqb_spec (n mod P) 0) as [Em|Em]; cbn [negb andb].
    + destruct (beamfs_inline_free_blocks_from true s f0 (DIV_ROUND_UP n P)) as [f2 s2] eqn:E2. cbn [Z.eqb negb]. intros [= <- E' <-].
      pose proof (round_up_aligned n Em) as Ed.
      destruct (cut_from s f s f0 C n f2 s2 St ltac:(lia) HM0 eq_refl Hn (apart_inode s f s f f0 I0 (apart_refl s f)) E2) as (S2 & K2 & Z2 & M2).
      split; [done|]. destruct (Cp f2 (eq_sym E')) as [I2 J2]. split; [by apply (apart_inode s f s2 f2)|]. left. split; [done|].
      apply (Fin s2 f2 _ I2 J2 Z2 M2). intros p _. by rewrite Ed.
    + destruct (Z.ltb_spec 0 n); [|by destruct (Z.eq_dec n 0) as [->|]; [rewrite Z.mod_0_l in Em by lia|lia]].
      pose proof (Z.mod_pos_bound n P ltac:(lia)) as Hmb. pose proof (Z.div_mod n P ltac:(lia)) as Dm.
      destruct (block_of c n ltac:(lia)) as (Hb & _ & _).
      destruct (zero_tail_spec s f0 C (n / P) (n mod P) now St HM0 ltac:(lia) Hb Fr ltac:(lia)) as (rc1 & f1 & s1 & -> & St1 & R1 & Me1 & K1 & O1).
      assert (K1' : apart s f s1 f1) by (destruct K1 as [X1 X2]; split; [exact X1|exact X2]).
      destruct O1 as [[-> M1]|(Hrc & E0 & M1)].
      * cbn [Z.eqb negb]. destruct (beamfs_inline_free_blocks_from true s1 f1 (DIV_ROUND_UP n P)) as [f2 s2] eqn:E2. cbn [Z.eqb negb]. intros [= <- E' <-].
        pose proof (round_up_tail n Em) as Ed.
        assert (HC : forall p, 0 <= p -> (if p <? DIV_ROUND_UP n P * P then zeroed C (n / P * P + n mod P) (n / P * P + P) p else 0) = if p <? n then C p else 0).
        { intros p Hp. rewrite Ed. unfold zeroed. replace (n / P * P + n mod P) with n by lia.
          destruct (Z.ltb_spec p (n / P * P + P)), (Z.ltb_spec p n), (Z.leb_spec n p); cbn [andb]; try lia; done. }
        destruct (cut_from s f s1 f1 _ n f2 s2 St1 ltac:(lia) M1 ltac:(by destruct Me1 as (_ & _ & -> & _)) Hn K1' E2) as (S2 & K2 & Z2 & M2).
        split; [done|]. destruct (Cp f2 (eq_sym E')) as [I2 J2]. split; [by apply (apart_inode s f s2 f2)|]. left. split; [done|]. exact (Fin s2 f2 _ I2 J2 Z2 M2 HC).
      * destruct (Z.eqb_spec rc1 0); [lia|]. cbn [negb]. destruct (Z.eqb_spec rc1 0); [lia|]. cbn [negb]. intros [= <- <- <-].
        split; [done|]. split; [exact K1'|]. right. split_and!; [done|done|done|done|by destruct Me1 as (_ & _ & -> & _)|done].
  - destruct (Z.ltb_spec (fi_size f) n) as [Hgt|Hle]; cbn [Z.eqb negb]; intros [= <- E' <-].
    all: split; [done|]; destruct (Cp _ (eq_sym E')) as [I2 J2]; (split; [by apply (apart_inode s f s f); [by destruct I2; split|apply apart_refl]|]); left; (split; [done|]).
    + apply (Fin s (truncate_setsize f n) C I2 J2 eq_refl); [by apply (maps_inode c t cpu s f)|]. intros p Hp.
      destruct (Z.ltb_spec p n); [done|]. apply (fh_end _ _ _ _ _ _ H). lia.
    + apply (Fin s f C I2 J2 ltac:(lia) HM). intros p Hp. destruct (Z.ltb_spec p n); [done|]. apply (fh_end _ _ _ _ _ _ H). lia.
Qed.
End io.
