(* ===== verification/WbContent.v ===== *)
(** * A writeback pass writes what the folios hold

    Through the blocks queued and the block that waits the file already
    reads as it will: a pass over sorted pages, then the completion of its
    bios in any order, leave the bytes of the folios on the device and every
    other byte of the file as it was. *)

From stdpp Require Import gmap.
From S2P Require Import Prelude Format Crc RsInit GF RsTheory RsCode RsCorrect RsDecode RsLib RsComplete Edac EdacWord EdacBlock EdacLayouts EdacTheorems Dirent FileData Dir DirTree FileDataTheorems FileTree FileSteady FileIo FileWriteback WbCount FileMap FileGrow FileTheorems FileFree FileTruncate FileContent FileIoTheorems.

#[local] Existing Instance no_view.

Section mapped.
Context {S : Type} `{RL : !RsLib} `{CL : !CrcLib} `{TO : TreeEnvOk S} `{SS : !Steady S}.
Context (c : data_cfg) (t : rs_tables) (cpu : nat).

(** The lookup that allocates, of a block that is there. *)
Lemma alloc_slots_mapped slots : forall s f i now b, tree_ok s (length slots) b -> Forall (fun j => 0 <= j < 512) slots -> par_ok s ->
  tree_get s b slots <> 0 -> exists s', alloc_slots c t cpu s f i now b slots = (0, tree_get s b slots, false, f, s') /\ same s s' /\
    s_free_blocks s' = s_free_blocks s.
Proof.
  induction slots as [|j rest IH]; intros s f i now b Hok V Par Hne; cbn [alloc_slots tree_get] in *.
  { destruct (Z.eqb_spec b 0); [done|]. exists s. split; [done|]. split; [apply same_refl|done]. }
  destruct (Z.eqb_spec b 0); [done|]. apply list.Forall_cons in V as [Hj V]. destruct Hok as [?|(A & p & Hp & Zp & Bp & De & C)]; [done|].
  assert (Eh : held s b = p) by (unfold held; by rewrite Hp). rewrite Eh in *. rewrite Hp.
  destruct (verify_same s b p Par A Zp Bp De) as (s1 & Ev & Sm & _). pose proof (verify_free s b p) as Ef. rewrite Ev in *. cbn [snd negb Z.eqb] in *.
  assert (Ok1 : tree_ok s1 (length rest) (ptr p j) /\ tree_get s1 (ptr p j) rest = tree_get s (ptr p j) rest).
  { destruct (tree_frame s s1 (length rest) (ptr p j)) as (F1 & _ & F3); [|by apply C|by split; [|apply F3]].
    intros x Hx. apply same_keeps; [done|]. by apply (tree_allocated s (length rest) (ptr p j)); [apply C|]. }
  destruct Ok1 as [Ok1 Eg].
  assert (Hpj : ptr p j <> 0) by (intros E0; apply Hne; rewrite E0; by destruct rest). destruct (Z.eqb_spec (ptr p j) 0); [done|]. cbn [negb].
  destruct rest as [|j2 rest].
  - exists s1. cbn [tree_get]. destruct (Z.eqb_spec (ptr p j) 0); [done|]. done.
  - destruct (IH s1 f i now (ptr p j) Ok1 V (sm_par _ _ Sm Par) ltac:(by rewrite Eg)) as (s2 & -> & Sm2 & Ef2).
    exists s2. split; [by rewrite Eg|]. split; [by apply (same_trans s s1)|congruence].
Qed.

Lemma alloc_mapped s f i now : wf_file s f -> par_ok s -> file_block i -> fi_freeing f = false -> s_free_blocks s <> 0 -> fget s f i <> 0 ->
  exists s', beamfs_inline_lookup_or_alloc_phys c t cpu s f i now = (0, fget s f i, f, s') /\ same s s' /\ s_free_blocks s' = s_free_blocks s.
Proof.
  intros [Hd FO] Par Hi Fr F0 Hne. destruct (path_root f i Hd Hi) as (b & Hb & Eb). rewrite (fget_path s f i b Hb) in *.
  pose proof (path_valid i Hi) as [V1 V2]. pose proof (fo_ok _ _ FO _ _ _ Hb) as Ok.
  destruct (alloc_slots_mapped (snd (path i)) s f i now b Ok V2 Par Hne) as (s' & E & Sm & Hf). exists s'. split; [|done].
  unfold beamfs_inline_lookup_or_alloc_phys, beamfs_inline_lookup_or_alloc_phys_new. rewrite Fr. destruct (Z.eqb_spec (s_free_blocks s) 0); [done|].
  assert (Hb0 : b <> 0) by (intros ->; apply Hne; by destruct (snd (path i))).
  assert (R : forall root set slots, root = b -> slots = snd (path i) -> alloc_from_root c t cpu s f i now root set slots = (0, tree_get s b (snd (path i)), false, f, s')).
  { intros root set slots -> ->. unfold alloc_from_root. destruct (Z.eqb_spec b 0); [done|exact E]. }
  change BEAMFS_DIRECT_BLOCKS with 12. change BEAMFS_INDIRECT_PTRS with 512. change (12 + 512) with 524.
  change BEAMFS_MAX_IBLOCK_DINDIRECT with 262668. change BEAMFS_MAX_IBLOCK_TINDIRECT with 134480396.
  assert (Hp : path i = if i <? 12 then (Z.to_nat i, []) else if i <? 524 then (12%nat, [i - 12])
    else if i <? 262668 then (13%nat, dind_slots i) else (14%nat, tind_slots i)) by (unfold path; path_consts; reflexivity).
  destruct (Z.ltb_spec i 12).
  { rewrite Hp in E |- *. cbn [snd alloc_slots tree_get] in *. injection E as E1 E2. rewrite <- Eb. destruct (Z.eqb_spec b 0); [done|]. cbn [negb]. by rewrite E2. }
  destruct (Z.ltb_spec i 524); [by rewrite R; [|done|by rewrite Hp]|]. destruct (Z.ltb_spec i 262668); [by rewrite R; [|done|by rewrite Hp]|].
  unfold file_block in Hi. destruct (Z.ltb_spec i 134480396); [by rewrite R; [|done|by rewrite Hp]|]. exfalso. revert Hi. path_consts. lia.
Qed.
End mapped.

(** ** What the file reads as, through the queue *)

Fixpoint page_of (l : list beamfs_wb_block) (b : Z) : option (list Z) :=
  match l with [] => None | k :: l => if k_phys k =? b then Some (k_page k) else page_of l b end.

Lemma page_of_elem l b p : page_of l b = Some p -> exists k, k ∈ l /\ k_phys k = b /\ k_page k = p.
Proof.
  induction l as [|k l IH]; cbn; [done|]. destruct (Z.eqb_spec (k_phys k) b) as [E|_].
  - intros [= <-]. exists k. split; [left|done].
  - intros H. destruct (IH H) as (k' & ? & ?). exists k'. split; [by right|done].
Qed.

Lemma page_of_in l k : NoDup (k_phys <$> l) -> k ∈ l -> page_of l (k_phys k) = Some (k_page k).
Proof.
  induction l as [|k' l IH]; cbn; [by intros _ ?%not_elem_of_nil|]. intros [Hn Hd]%list.NoDup_cons [->|Hk]%list.elem_of_cons; [by rewrite Z.eqb_refl|].
  destruct (Z.eqb_spec (k_phys k') (k_phys k)) as [E|_]; [|by apply IH]. exfalso. apply Hn. rewrite E. by apply list_elem_of_fmap_2.
Qed.

Lemma page_of_none l b : (forall k, k ∈ l -> k_phys k <> b) -> page_of l b = None.
Proof. intros H. destruct (page_of l b) as [p|] eqn:E; [|done]. apply page_of_elem in E as (k & Hk & Eb & _). by destruct (H k Hk). Qed.

Lemma page_of_perm l l' b : l ≡ₚ l' -> NoDup (k_phys <$> l) -> page_of l b = page_of l' b.
Proof.
  intros Hp Hd. assert (Hd' : NoDup (k_phys <$> l')) by (by rewrite <- Hp). destruct (page_of l b) as [p|] eqn:E.
  - apply page_of_elem in E as (k & Hk & <- & <-). symmetry. apply page_of_in; [done|]. by rewrite <- Hp.
  - destruct (page_of l' b) as [p|] eqn:E'; [|done]. apply page_of_elem in E' as (k & Hk & <- & <-).
    rewrite <- Hp in Hk. by rewrite (page_of_in l k Hd Hk) in E.
Qed.

Lemma page_of_app l l' b : page_of (l ++ l') b = match page_of l b with Some p => Some p | None => page_of l' b end.
Proof. induction l as [|k l IH]; cbn; [done|]. by destruct (k_phys k =? b). Qed.

Section content.
Context {S : Type} `{RL : !RsLib} `{RS : !RsLibSpec} `{RB : !RsLibBounded} `{CL : !CrcLib} `{TO : TreeEnvOk S} `{SS : !Steady S}.
Context (c : data_cfg) (t : rs_tables) (cpu : nat) (stk : stack_arrays) (now : Z * Z).
Hypothesis Hready : ready t cpu.

(** The file, the volume the pass finds, the blocks with an alias. *)
Context (f : finode) (s0 : S) (al : Z -> bool).
Hypothesis Hfreeing : fi_freeing f = false.

Abbreviation P := (beamfs_block_payload c).
Abbreviation M i := (fget s0 f i).

Definition rd (s : S) (l : list beamfs_wb_block) (b : Z) : option (list Z) :=
  match page_of l b with Some p => Some p | None => bread s b end.

Definition will_hold (s : S) (l : list beamfs_wb_block) (C : Z -> Z) (i : Z) : Prop :=
  (M i = 0 -> forall u, 0 <= u < P -> C (i * P + u) = 0) /\
  (M i <> 0 -> exists raw pay, rd s l (M i) = Some raw /\ sealed c t cpu (fi_ino f) i pay raw /\ forall u, 0 <= u < P -> getb pay u = C (i * P + u)).

(** The map of the file is what it was, the volume is fit. *)
Record base (s : S) : Prop := {
  v_wf : wf_file s f;
  v_par : par_ok s;
  v_steady : steady s;
  v_free : s_free_blocks s <> 0;
  v_apart : apart s0 f s f;
  v_map i : file_block i -> fget s f i = M i }.

(** [C]: what the file holds once the blocks of [l] are written; they are
    blocks of the file below block [nb]. *)
Record vol (C : Z -> Z) (nb : Z) (s : S) (l : list beamfs_wb_block) : Prop := {
  v_base : base s;
  v_queue k : k ∈ l -> exists i, file_block i /\ i < nb /\ M i = k_phys k /\ M i <> 0 /\ (al (k_phys k) = true -> bread s (k_phys k) = Some (k_page k));
  v_nodup : NoDup (k_phys <$> l);
  v_holds i : file_block i -> will_hold s l C i }.

Lemma map_inj s i j : base s -> file_block i -> file_block j -> M i = M j -> M i <> 0 -> i = j.
Proof. intros B Hi Hj E Hne. apply (fget_inj s f i j (v_wf _ B) Hi Hj); by rewrite !(v_map _ B). Qed.

Lemma base_read s s' i : base s -> same s s' -> file_block i -> M i <> 0 -> bread s' (M i) = bread s (M i).
Proof.
  intros B Sm Hi Hne. apply (sm_read _ _ Sm). rewrite <- (v_map _ B i Hi). apply (leaf_allocated s f i (v_wf _ B) Hi). by rewrite (v_map _ B).
Qed.

Lemma base_same s s' : same s s' -> steady s' -> s_free_blocks s' = s_free_blocks s -> base s -> base s'.
Proof.
  intros Sm St Ef [W Pa _ Fr A Mp]. destruct (file_frame s s' f W) as (F1 & F2 & F3).
  { intros x Hx. apply same_keeps; [done|]. by apply (file_allocated s f). }
  split; [done|by apply Sm|done|congruence| |].
  - apply (apart_trans s0 f s f); [done|by apply apart_same].
  - intros i Hi. by rewrite F3, Mp.
Qed.

Lemma base_put s i p : base s -> file_block i -> M i <> 0 -> base (bput s (M i) p).
Proof.
  intros [W Pa St Fr A Mp] Hi Hne. destruct (file_put s f i p W Hi ltac:(by rewrite Mp)) as (F1 & F2 & F3). rewrite Mp in F1, F2, F3 by done.
  destruct (bput_par s (M i) p) as (P1 & _). split; [done|by apply P1|by apply steady_bput|by rewrite bput_free| |].
  - apply (apart_trans s0 f s f); [done|]. split; [|intros x; rewrite F2; by left]. intros x Ax Hx. apply bput_keeps; [done|]. intros ->.
    apply Hx. rewrite <- (Mp i Hi). apply (wf_leaf _ s f i W Hi). by rewrite Mp.
  - intros j Hj. rewrite F3, Mp; done.
Qed.

Lemma vol_same C nb s s' l : same s s' -> steady s' -> s_free_blocks s' = s_free_blocks s -> vol C nb s l -> vol C nb s' l.
Proof.
  intros Sm St Ef [B Q N H]. split; [by apply (base_same s)| |done|].
  - intros k Hk. destruct (Q k Hk) as (i & Hi & Hlt & E & Hne & Ha). exists i. split_and!; try done. intros Hal.
    rewrite <- E, (base_read s s' i B Sm Hi Hne), E. by apply Ha.
  - intros i Hi. destruct (H i Hi) as [H1 H2]. split; [done|]. intros Hne. unfold rd in *. rewrite (base_read s s' i B Sm Hi Hne). by apply H2.
Qed.

Lemma vol_mono C nb nb' s l : nb <= nb' -> vol C nb s l -> vol C nb' s l.
Proof. intros Hle [? Q ? ?]. split; try done. intros k Hk. destruct (Q k Hk) as (i & ? & ? & ?). exists i. split; [done|]. split; [lia|done]. Qed.

Lemma vol_ext C C' nb s l : (forall q, 0 <= q -> C' q = C q) -> vol C nb s l -> vol C' nb s l.
Proof.
  intros HC [? ? ? H]. split; try done. pose proof (payload_range c). intros i Hi. destruct (H i Hi) as [H1 H2]. unfold file_block in Hi.
  split; [intros E u Hu; rewrite HC by nia; by apply H1|]. intros Hne. destruct (H2 Hne) as (raw & pay & ? & ? & Hp).
  exists raw, pay. split_and!; try done. intros u Hu. rewrite HC by nia. by apply Hp.
Qed.

Lemma vol_perm C nb s l l' : l ≡ₚ l' -> vol C nb s l -> vol C nb s l'.
Proof.
  intros Hp [? Q N H]. split; try done.
  - intros k Hk. apply Q. by rewrite Hp.
  - by rewrite <- Hp.
  - intros i Hi. destruct (H i Hi) as [H1 H2]. split; [done|]. intros Hne. unfold rd in *. rewrite <- (page_of_perm l l' _ Hp N). by apply H2.
Qed.

(** A block leaves the queue: the device has it. *)
Lemma vol_landed C nb s k l : vol C nb s (k :: l) -> vol C nb (if al (k_phys k) then s else bput s (k_phys k) (k_page k)) l.
Proof.
  intros [B Q N H]. cbn in N. apply list.NoDup_cons in N as [Nk N]. destruct (Q k ltac:(left)) as (i & Hi & Hlt & E & Hne & Ha).
  assert (Hnk : forall k', k' ∈ l -> k_phys k' <> k_phys k) by (intros k' Hk' E'; apply Nk; rewrite <- E'; by apply list_elem_of_fmap_2).
  set (s' := if al (k_phys k) then s else bput s (k_phys k) (k_page k)).
  assert (Ro : forall b, b <> k_phys k -> bread s' b = bread s b) by (intros b Hb; unfold s'; destruct (al _); [done|by apply bput_other]).
  assert (Rk : bread s' (k_phys k) = Some (k_page k)) by (unfold s'; destruct (al _); [by apply Ha|apply bput_same]).
  assert (B' : base s') by (unfold s'; destruct (al _); [done|rewrite <- E; by apply base_put]).
  split; try done.
  - intros k' Hk'. destruct (Q k' ltac:(by right)) as (j & Hj & Hlj & Ej & Hnj & Haj). exists j. split_and!; try done.
    intros Hal. rewrite Ro by (by apply Hnk). by apply Haj.
  - intros j Hj. destruct (H j Hj) as [H1 H2]. split; [done|]. intros Hnj. destruct (H2 Hnj) as (raw & pay & R & Se & Hp). exists raw, pay. split_and!; try done.
    unfold rd in *. cbn in R. destruct (Z.eqb_spec (k_phys k) (M j)) as [Ej|Ej].
    + rewrite <- Ej, (page_of_none l) by done. congruence.
    + destruct (page_of l (M j)); [done|]. by rewrite Ro.
Qed.

(** Block [i] with the payload [pay]. *)
Definition put (C : Z -> Z) (i : Z) (pay : list Z) : Z -> Z := fun q => if (i * P <=? q) && (q <? i * P + P) then getb pay (q - i * P) else C q.

Lemma put_in C i pay u : 0 <= u < P -> put C i pay (i * P + u) = getb pay u.
Proof. intros Hu. unfold put. rewrite (proj2 (Z.leb_le _ _)), (proj2 (Z.ltb_lt _ _)) by lia. cbn [andb]. f_equal. lia. Qed.

Lemma put_out C i pay j u : j <> i -> 0 <= u < P -> put C i pay (j * P + u) = C (j * P + u).
Proof. intros Hji Hu. unfold put. destruct (Z.leb_spec (i * P) (j * P + u)), (Z.ltb_spec (j * P + u) (i * P + P)); cbn [andb]; try done. nia. Qed.

Lemma not_queued C nb s l i k : vol C nb s l -> file_block i -> nb <= i -> M i <> 0 -> k ∈ l -> k_phys k <> M i.
Proof.
  intros V Hi Hnb Hne Hk E. destruct (v_queue _ _ _ _ V k Hk) as (j & Hj & Hlt & Ej & Hnj & _).
  assert (i = j) by (apply (map_inj s); try done; [apply V|congruence]). lia.
Qed.

(** A block is built and queued. *)
Lemma vol_queued C nb s l i pay blk o o2 : vol C nb s l -> file_block i -> nb <= i -> M i <> 0 -> sealed c t cpu (fi_ino f) i pay blk ->
  vol (put C i pay) (i + 1) (if al (M i) then bput s (M i) blk else s) (l ++ [WbBlock (M i) blk o o2]).
Proof.
  intros V Hi Hnb Hne Se. pose proof V as [B Q N H]. pose proof (fun k => not_queued _ _ _ _ i k V Hi Hnb Hne) as Hout.
  set (s' := if al (M i) then bput s (M i) blk else s).
  assert (Ro : forall b, b <> M i -> bread s' b = bread s b) by (intros b Hb; unfold s'; destruct (al _); [by apply bput_other|done]).
  assert (B' : base s') by (unfold s'; destruct (al _); [by apply base_put|done]).
  split; try done.
  - intros k [Hk| ->%list_elem_of_singleton]%list.elem_of_app.
    + destruct (Q k Hk) as (j & Hj & Hlt & Ej & Hnj & Ha). exists j. split_and!; try done; [lia|]. intros Hal. rewrite Ro by (by apply Hout). by apply Ha.
    + exists i. cbn [k_phys k_page]. split_and!; try done; [lia|]. intros Hal. unfold s'. rewrite Hal. apply bput_same.
  - rewrite fmap_app. cbn. apply list.NoDup_app. split; [done|]. split; [|apply NoDup_singleton].
    intros x Hx ->%list_elem_of_singleton. apply list_elem_of_fmap in Hx as (k & Ek & Hk). by apply (Hout k Hk).
  - intros j Hj. destruct (H j Hj) as [H1 H2]. destruct (decide (j = i)) as [->|Hji].
    + split; [done|]. intros _. exists blk, pay. split; [|split; [done|intros u Hu; by rewrite put_in]].
      unfold rd. rewrite page_of_app, (page_of_none l (M i)) by done. cbn. by rewrite Z.eqb_refl.
    + split; [intros E u Hu; rewrite put_out by done; by apply H1|]. intros Hnj. destruct (H2 Hnj) as (raw & pay' & R & Se' & Hp).
      assert (Hm : M j <> M i) by (intros E; apply Hji; by apply (map_inj s)).
      exists raw, pay'. split; [|split; [done|intros u Hu; rewrite put_out by done; by apply Hp]].
      unfold rd in *. rewrite page_of_app. destruct (page_of l (M j)); [done|]. cbn. rewrite (proj2 (Z.eqb_neq _ _)) by congruence. by rewrite Ro.
Qed.

(** ** The steps of a pass *)

(** No allocation fails, and pages of the pool are pages. *)
Record calm (K : wb_kernel) : Prop := {
  cm_alias b : aliased K b = al b;
  cm_wb : kzalloc_wb K = true;
  cm_owner p : kzalloc_owner K p = true;
  cm_io b : kzalloc_io K b = true;
  cm_page b : zlen (pool_page K b) = 4096 /\ bytes (pool_page K b) }.

Context (K : wb_kernel).
Hypothesis Hcalm : calm K.

Abbreviation wpass := (wpass S).

Definition here (C : Z -> Z) (nb : Z) (w : wpass) : Prop := p_inode w = f /\ vol C nb (p_env w) (queued_blocks w).

(** The block that waits is as it was. *)
Record same_pend (w w' : wpass) : Prop := {
  sp_pend : wb_pend (wb_of w') = wb_pend (wb_of w);
  sp_bytes : wb_pend_payload (wb_of w') = wb_pend_payload (wb_of w);
  sp_ctx : is_Some (p_ctx w) -> is_Some (p_ctx w') }.

Lemma same_pend_trans w1 w2 w3 : same_pend w1 w2 -> same_pend w2 w3 -> same_pend w1 w3.
Proof. intros [? ? ?] [? ? ?]. split; [congruence|congruence|auto]. Qed.

Record still (w w' : wpass) : Prop := {
  sl_pend : same_pend w w';
  sl_env : p_env w' = p_env w;
  sl_inode : p_inode w' = p_inode w;
  sl_queue : queued_blocks w' = queued_blocks w }.

Lemma still_refl w : still w w.
Proof. by split. Qed.

Lemma still_here C nb w w' : still w w' -> here C nb w -> here C nb w'.
Proof. intros [_ E1 E2 E3] [H1 H2]. split; [congruence|]. by rewrite E1, E3. Qed.

Lemma submit_ioend_still w : wpw beamfs_wb_submit_ioend w (fun _ w' => still w w').
Proof.
  unfold beamfs_wb_submit_ioend. apply wpw_bind. unfold get_wb. apply wpw_get. fold (wb_of w).
  destruct (wb_ioend (wb_of w)) as [io|] eqn:E; [|apply wpw_ret, still_refl]. wrun. split; try done.
  unfold queued_blocks, ioend_blocks. rewrite E. cbn. rewrite concat_app. cbn. by rewrite !app_nil_r.
Qed.

Lemma queue_here C nb i pay o o2 w : here C nb w -> file_block i -> nb <= i -> M i <> 0 -> bytes pay -> P <= zlen pay ->
  wpw (beamfs_wb_queue c t cpu K i (M i) pay o o2) w (fun r w' => r = 0 /\ here (put C i pay) (i + 1) w' /\ same_pend w w').
Proof.
  intros Hh Hi Hnb Hne Bp Zp. destruct (cm_page _ Hcalm (M i)) as [Zg Bg]. unfold beamfs_wb_queue. apply wpw_bind.
  apply (wpw_mono _ _ (fun pg w' => pg = pool_page K (M i) /\ still w w')).
  { unfold beamfs_wb_page. apply wpw_bind. destruct (page_now K (M i)); [apply wpw_ret, wpw_ret; split; [done|apply still_refl]|].
    eapply wpw_mono; [apply submit_ioend_still|]. cbv beta; intros _ w' Hs. by apply wpw_ret. }
  intros pg w1 [-> Hs1]. pose proof (still_here _ _ _ _ Hs1 Hh) as [Hf1 V1]. apply wpw_bind, wpw_get. rewrite Hf1.
  destruct (build_ok c t cpu (pool_page K (M i)) pay (fi_ino f) i Hready Zg Bg Bp Zp) as (blk & -> & Se). cbn [Z.ltb Z.compare].
  pose proof (vol_queued C nb _ _ i pay blk o o2 V1 Hi Hnb Hne Se) as V2.
  apply wpw_bind. apply (wpw_mono _ _ (fun _ w' => p_env w' = (if al (M i) then bput (p_env w1) (M i) blk else p_env w1) /\ p_inode w' = f /\
    queued_blocks w' = queued_blocks w1 /\ same_pend w1 w')).
  { unfold beamfs_wb_sync_alias. rewrite (cm_alias _ Hcalm). destruct (al (M i)); wrun; by split_and!. }
  intros _ w2 (E2 & Hf2 & Hq2 & Hp2). rewrite <- E2, <- Hq2 in V2. clear E2 Hq2.
  apply wpw_bind. unfold get_wb at 1. apply wpw_get. fold (wb_of w2). apply wpw_bind.
  apply (wpw_mono _ _ (fun _ w' => still w2 w')).
  { destruct (wb_ioend (wb_of w2)) as [io|]; [|apply wpw_ret, still_refl]. destruct (_ || _); [apply submit_ioend_still|apply wpw_ret, still_refl]. }
  intros _ w3 Hs3. apply wpw_bind. unfold get_wb at 1. apply wpw_get. fold (wb_of w3). cbv zeta. destruct Hs3 as [Hp3 E3 Hf3 Hq3]. rewrite <- E3, <- Hq3 in V2.
  assert (Hadd : forall io, io_blk io = ioend_blocks w3 -> wpw (set_ioend (Some (WbIoend (io_blk io ++ [WbBlock (M i) blk o o2])
      (io_next io + Z.shiftr BEAMFS_BLOCK_SIZE SECTOR_SHIFT)));; mret 0) w3 (fun r w' => r = 0 /\ here (put C i pay) (i + 1) w' /\ same_pend w w')).
  { intros io Hio. wrun. split; [done|]. split; [split; [cbn; congruence|]|].
    - cbn [p_env]. assert (Eq : queued_blocks w3 ++ [WbBlock (M i) blk o o2] = queued_blocks (WPass (p_env w3) (p_inode w3)
        (Some (Wb (Some (WbIoend (io_blk io ++ [WbBlock (M i) blk o o2]) (io_next io + Z.shiftr BEAMFS_BLOCK_SIZE SECTOR_SHIFT)))
          (wb_pend (default ctx0 (p_ctx w3))) (wb_pend_payload (default ctx0 (p_ctx w3))) (wb_error (default ctx0 (p_ctx w3)))))
        (p_owners w3) (p_next w3) (p_inflight w3) (p_finished w3) (p_errors w3))).
      { unfold queued_blocks, ioend_blocks. cbn. unfold ioend_blocks in Hio. by rewrite Hio, <- app_assoc. }
      by rewrite <- Eq.
    - apply (same_pend_trans w w1); [apply Hs1|]. apply (same_pend_trans w1 w2); [done|]. apply (same_pend_trans w2 w3); [done|]. split; try done. }
  destruct (wb_ioend (wb_of w3)) as [io|] eqn:Eio.
  - apply Hadd. unfold ioend_blocks. by rewrite Eio.
  - rewrite (cm_io _ Hcalm). cbn [negb]. apply Hadd. unfold ioend_blocks. by rewrite Eio.
Qed.

Lemma read_old_here C nb i w : here C nb w -> file_block i -> nb <= i -> M i <> 0 ->
  wpw (beamfs_wb_read_old c t cpu stk i (M i)) w (fun r w' => here C nb w' /\ same_pend w w' /\
    exists out, r = inr out /\ zlen out = 3824 /\ bytes out /\ forall u, 0 <= u < P -> getb out u = C (i * P + u)).
Proof.
  intros [Hf V] Hi Hnb Hne. unfold beamfs_wb_read_old. do 2 apply wpw_bind, wpw_get. rewrite Hf.
  pose proof V as [B Q N H]. rewrite (steady_scratch _ (v_steady _ B)). cbn [negb].
  destruct (proj2 (H i Hi) Hne) as (raw & pay & R & Se & Hp). unfold rd in R.
  rewrite (page_of_none _ (M i)) in R by (intros k; by apply (not_queued _ _ _ _ _ _ V)). rewrite R.
  destruct (decode_whole c t cpu stk (fi_ino f) i pay raw (M i) true Hready Se Hne) as (out & calls & -> & Zo & Bo & Ho). wrun.
  destruct (report_same (p_env w) calls) as [Sm _]. split_and!; [|by split|].
  - split; [done|]. cbn [p_env]. apply (vol_same _ _ (p_env w)); [done|apply steady_report, B|apply report_free|done].
  - exists out. split_and!; try done. intros u Hu. rewrite Ho by done. by apply Hp.
Qed.

Lemma slice_phys_here C nb i w : here C nb w -> file_block i -> M i <> 0 ->
  wpw (slice_phys c t cpu now i) w (fun r w' => r = inr (M i) /\ here C nb w' /\ same_pend w w').
Proof.
  intros [Hf V] Hi Hne. unfold slice_phys. do 2 apply wpw_bind, wpw_get. rewrite Hf. pose proof (v_base _ _ _ _ V) as B.
  destruct (lookup_phys_spec (p_env w) f i (v_wf _ B) (v_par _ B) Hi) as (s1 & E1 & Sm1 & _).
  pose proof (lookup_steady (p_env w) f i (v_steady _ B)) as St1. pose proof (lookup_free (p_env w) f i) as Ef1. rewrite E1 in *. cbn [snd] in St1, Ef1.
  assert (V1 : vol C nb s1 (queued_blocks w)) by (by apply (vol_same _ _ (p_env w))). pose proof (v_base _ _ _ _ V1) as B1.
  destruct (alloc_mapped c t cpu s1 f i now (v_wf _ B1) (v_par _ B1) Hi Hfreeing (v_free _ B1) ltac:(by rewrite (v_map _ B1))) as (s2 & E2 & Sm2 & Ef2).
  pose proof (alloc_steady c t cpu s1 f i now (v_steady _ B1)) as St2. rewrite alloc_phys_eq in E2.
  destruct (beamfs_inline_lookup_or_alloc_phys_new c t cpu s1 f i now) as [[[[rc r] fresh] f'] s'] eqn:E3. cbn [snd] in St2.
  rewrite alloc_phys_eq, E3. injection E2 as -> -> -> ->. rewrite (v_map _ B1 i Hi). cbn [Z.ltb Z.compare]. destruct (Z.eqb_spec (M i) 0); [done|]. wrun.
  split; [done|]. split; [|by split]. split; [done|]. cbn [p_env]. by apply (vol_same _ _ s1).
Qed.

(** ** What the file will read as, the waiting block included *)

Record waits (C Cq : Z -> Z) (nb : Z) (pd : wb_pending) (pay : list Z) : Prop := {
  wt_block : file_block (pend_b pd);
  wt_phys : pend_phys pd = M (pend_b pd);
  wt_mapped : M (pend_b pd) <> 0;
  wt_above : nb <= pend_b pd;
  wt_filled : 0 < pend_filled pd < P;
  wt_inode : pend_inode pd = fi_ino f;
  wt_next : pend_next_pos pd = pend_b pd * P + pend_filled pd;
  wt_in u : 0 <= u < pend_filled pd -> C (pend_b pd * P + u) = getb pay u;
  wt_out q : 0 <= q -> ~ (pend_b pd * P <= q < pend_b pd * P + pend_filled pd) -> C q = Cq q }.

Definition reads (C : Z -> Z) (nb : Z) (w : wpass) : Prop :=
  is_Some (p_ctx w) /\ zlen (wb_pend_payload (wb_of w)) = 4096 /\ bytes (wb_pend_payload (wb_of w)) /\
  match wb_pend (wb_of w) with
  | None => here C nb w
  | Some pd => exists Cq, here Cq nb w /\ waits C Cq nb pd (wb_pend_payload (wb_of w))
  end.

(** The bytes [src] from [p] on. *)
Definition over (C : Z -> Z) (p : Z) (src : list Z) : Z -> Z := fun q => if (p <=? q) && (q <? p + zlen src) then getb src (q - p) else C q.

Lemma over_in C p src u : 0 <= u < zlen src -> over C p src (p + u) = getb src u.
Proof. intros Hu. unfold over. rewrite (proj2 (Z.leb_le _ _)), (proj2 (Z.ltb_lt _ _)) by lia. cbn [andb]. f_equal. lia. Qed.

Lemma over_out C p src q : ~ (p <= q < p + zlen src) -> over C p src q = C q.
Proof. intros Hq. unfold over. destruct (Z.leb_spec p q), (Z.ltb_spec q (p + zlen src)); cbn [andb]; try done. lia. Qed.

(** A block is queued: the file reads as [C'] if block and rest agree. *)
Lemma queue_reads C C' nb i pay o o2 w : here C nb w -> wb_pend (wb_of w) = None -> is_Some (p_ctx w) ->
  zlen (wb_pend_payload (wb_of w)) = 4096 -> bytes (wb_pend_payload (wb_of w)) ->
  file_block i -> nb <= i -> M i <> 0 -> bytes pay -> P <= zlen pay ->
  (forall u, 0 <= u < P -> getb pay u = C' (i * P + u)) -> (forall q, 0 <= q -> ~ (i * P <= q < i * P + P) -> C' q = C q) ->
  wpw (beamfs_wb_queue c t cpu K i (M i) pay o o2) w (fun r w' => r = 0 /\ reads C' (i + 1) w' /\ wb_pend (wb_of w') = None).
Proof.
  intros Hh Hn Hx Zw Bw Hi Hnb Hne Bp Zp Hin Hout. eapply wpw_mono; [by apply (queue_here C nb)|]. cbv beta. intros r w' (-> & [Hf V] & [E1 E2 E3]).
  split; [done|]. rewrite E1. split; [|done]. split; [by apply E3|]. rewrite E2, E1, Hn. split; [done|]. split; [done|]. split; [done|].
  apply (vol_ext (put C i pay)); [|done]. intros q Hq. unfold put. destruct (Z.leb_spec (i * P) q), (Z.ltb_spec q (i * P + P)); cbn [andb]; try (apply Hout; lia).
  rewrite Hin by lia. f_equal. lia.
Qed.

(** A slice that does not start its block: over what the block holds. *)
Lemma partial_reads C nb i off src o w : reads C nb w -> wb_pend (wb_of w) = None -> file_block i -> nb <= i -> M i <> 0 ->
  0 <= off -> off + zlen src <= P -> bytes src ->
  wpw (slice_partial c t cpu stk K i (M i) off src o) w (fun r w' => r = 0 /\ reads (over C (i * P + off) src) (i + 1) w' /\ wb_pend (wb_of w') = None).
Proof.
  intros (Hx & Zw & Bw & Hh) Hn Hi Hnb Hne Hoff Hlen Bs. rewrite Hn in Hh. pose proof (payload_range c) as HP.
  unfold slice_partial. apply wpw_bind. eapply wpw_mono; [by apply (read_old_here C nb)|]. cbv beta.
  intros r w1 (Hh1 & [E1 E2 E3] & out & -> & Zo & Bo & Ho).
  eapply (queue_reads C); try done; [congruence|by apply E3|congruence|by rewrite E2|by apply bytes_splice|rewrite zlen_splice; lia| |].
  - intros u Hu. destruct (decide (off <= u < off + zlen src)) as [Hb|Hb].
    + rewrite getb_splice_in by lia. replace (i * P + u) with (i * P + off + (u - off)) by lia. by rewrite over_in by lia.
    + rewrite getb_splice_out, over_out by lia. by apply Ho.
  - intros q Hq Hb. apply over_out. lia.
Qed.

Lemma set_pend_reads x bytes' (w : wpass) : is_Some (p_ctx w) ->
  wpw (set_pend x bytes') w (fun _ w' => is_Some (p_ctx w') /\ wb_pend (wb_of w') = x /\ wb_pend_payload (wb_of w') = bytes' /\
    p_env w' = p_env w /\ p_inode w' = p_inode w /\ queued_blocks w' = queued_blocks w).
Proof. intros Hx. wrun. split_and!; try done. Qed.

Lemma here_eq C nb (w w' : wpass) : p_env w' = p_env w -> p_inode w' = p_inode w -> queued_blocks w' = queued_blocks w -> here C nb w -> here C nb w'.
Proof. intros E1 E2 E3 [H1 H2]. split; [congruence|]. by rewrite E1, E3. Qed.

(** The first bytes of a block over what it holds. *)
Lemma head_reads C C' nb i head o o2 w : reads C nb w -> wb_pend (wb_of w) = None -> file_block i -> nb <= i -> M i <> 0 ->
  zlen head <= P -> bytes head -> (forall u, 0 <= u < zlen head -> getb head u = C' (i * P + u)) ->
  (forall q, 0 <= q -> ~ (i * P <= q < i * P + zlen head) -> C' q = C q) ->
  wpw (r ← beamfs_wb_read_old c t cpu stk i (M i);
       match r with inl e => mret e | inr old => beamfs_wb_queue c t cpu K i (M i) (splice old 0 head) o o2 end) w
    (fun r w' => r = 0 /\ reads C' (i + 1) w' /\ wb_pend (wb_of w') = None).
Proof.
  intros (Hx & Zw & Bw & Hh) Hn Hi Hnb Hne Hlen Bs Hin Hout. rewrite Hn in Hh. pose proof (payload_range c) as HP. pose proof (zlen_nonneg head).
  unfold file_block in *. apply wpw_bind. eapply wpw_mono; [by apply (read_old_here C nb)|]. cbv beta.
  intros r w1 (Hh1 & [E1 E2 E3] & out & -> & Zo & Bo & Ho).
  eapply (queue_reads C); try done; [congruence|by apply E3|congruence|by rewrite E2|by apply bytes_splice|rewrite zlen_splice; lia| |].
  - intros u Hu. destruct (decide (u < zlen head)) as [Hb|Hb].
    + rewrite getb_splice_in by lia. rewrite Z.sub_0_r. apply Hin. lia.
    + rewrite getb_splice_out by lia. rewrite Ho, Hout by nia. done.
  - intros q Hq Hb. apply Hout; lia.
Qed.

Lemma flush_reads C nb w : reads C nb w ->
  wpw (beamfs_wb_flush_pending c t cpu stk K) w (fun r w' => r = 0 /\ wb_pend (wb_of w') = None /\
    reads C (match wb_pend (wb_of w) with None => nb | Some pd => pend_b pd + 1 end) w').
Proof.
  intros Hr. pose proof Hr as (Hx & Zw & Bw & Hw). unfold beamfs_wb_flush_pending. apply wpw_bind. unfold get_wb at 1. apply wpw_get. fold (wb_of w).
  destruct (wb_pend (wb_of w)) as [pd|] eqn:Ep; [|by apply wpw_ret]. destruct Hw as (Cq & Hh & [T1 T2 T3 T4 T5 T6 T7 T8 T9]). cbv zeta.
  pose proof (payload_range c) as HP. apply wpw_bind. eapply wpw_mono; [by apply set_pend_reads|]. cbv beta. intros _ w1 (Hx1 & Hp1 & Hb1 & He1 & Hi1 & Hq1).
  pose proof (here_eq Cq nb w w1 He1 Hi1 Hq1 Hh) as Hh1. apply wpw_bind, wpw_get.
  rewrite (steady_scratch _ (v_steady _ (v_base _ _ _ _ (proj2 Hh1)))). cbn [negb]. rewrite T2. apply wpw_bind.
  eapply wpw_mono; [apply (head_reads Cq C nb (pend_b pd) (slice (wb_pend_payload (wb_of w)) 0 (pend_filled pd)) (pend_owner pd) None w1)|]; try done.
  - split; [done|]. rewrite Hb1, Hp1. done.
  - rewrite zlen_slice; lia.
  - by apply bytes_slice.
  - intros u Hu. rewrite zlen_slice in Hu by lia. rewrite getb_slice by lia. symmetry. by apply T8.
  - intros q Hq Hb. rewrite zlen_slice in Hb by lia. by apply T9.
  - cbv beta. intros r w2 (-> & Hr2 & Hp2). cbn [Z.eqb]. by apply wpw_ret.
Qed.

(** The folio's bytes end the block that waits, or go on with it. *)
Lemma continue_reads C nb pd b off src o w : reads C nb w -> wb_pend (wb_of w) = Some pd -> pend_b pd = b -> pend_filled pd = off ->
  0 < zlen src -> off + zlen src <= P -> bytes src ->
  wpw (slice_continue c t cpu stk K pd b (M b) off (zlen src) src o) w (fun r w' => r = 0 /\ reads (over C (b * P + off) src) (b + 1) w' /\ wb_pend (wb_of w') = None).
Proof.
  intros Hr Ep <- <- Hlen Hfit Bs. pose proof Hr as (Hx & Zw & Bw & Hw). rewrite Ep in Hw. destruct Hw as (Cq & Hh & [T1 T2 T3 T4 T5 T6 T7 T8 T9]).
  pose proof (payload_range c) as HP. unfold slice_continue. apply wpw_bind. unfold get_wb at 1. apply wpw_get. fold (wb_of w). cbv zeta.
  set (all := splice (wb_pend_payload (wb_of w)) (pend_filled pd) src).
  assert (Za : zlen all = 4096) by (unfold all; rewrite zlen_splice; lia). assert (Ba : bytes all) by (by apply bytes_splice).
  assert (Hin : forall u, 0 <= u < pend_filled pd + zlen src -> getb all u = over C (pend_b pd * P + pend_filled pd) src (pend_b pd * P + u)).
  { intros u Hu. unfold all. destruct (decide (u < pend_filled pd)).
    - rewrite getb_splice_out, over_out by lia. symmetry. apply T8. lia.
    - rewrite getb_splice_in by lia. replace (pend_b pd * P + u) with (pend_b pd * P + pend_filled pd + (u - pend_filled pd)) by lia. by rewrite over_in by lia. }
  assert (Hout : forall q, 0 <= q -> ~ (pend_b pd * P <= q < pend_b pd * P + (pend_filled pd + zlen src)) -> over C (pend_b pd * P + pend_filled pd) src q = Cq q).
  { intros q Hq Hb. rewrite over_out by lia. apply T9; lia. }
  apply wpw_bind. eapply wpw_mono; [by apply set_pend_reads|]. cbv beta. intros _ w1 (Hx1 & Hp1 & Hb1 & He1 & Hi1 & Hq1). fold all in Hb1.
  pose proof (here_eq Cq nb w w1 He1 Hi1 Hq1 Hh) as Hh1. apply wpw_bind.
  apply (wpw_mono _ _ (fun r w' => r = 0 /\ reads (over C (pend_b pd * P + pend_filled pd) src) (pend_b pd + 1) w' /\ wb_pend (wb_of w') = None)).
  - destruct (Z.ltb_spec (pend_filled pd + zlen src) P) as [Hlt|Hge].
    + eapply (head_reads Cq); try done.
      * split; [done|]. rewrite Hb1, Hp1. done.
      * rewrite zlen_slice; lia.
      * by apply bytes_slice.
      * intros u Hu. rewrite zlen_slice in Hu by lia. rewrite getb_slice by lia. by apply Hin.
      * intros q Hq Hb. rewrite zlen_slice in Hb by lia. by apply Hout.
    + eapply (queue_reads Cq); try done; [by rewrite Hb1|by rewrite Hb1|lia|intros u Hu; apply Hin; lia|intros q Hq Hb; apply Hout; lia].
  - intros r w2 (-> & Hr2 & Hp2). cbn [Z.ltb Z.compare]. by apply wpw_ret.
Qed.

(** ** A folio *)

Abbreviation slice_len p end_ := (Z.min (end_ - p) (P - (p - p / P * P))).

Lemma waits_at C Cq nb pd pay p : waits C Cq nb pd pay -> pend_next_pos pd = p -> 0 <= p -> pend_b pd = p / P /\ pend_filled pd = p - p / P * P.
Proof.
  intros [T1 _ _ _ T5 _ T7 _ _] Hp H0. pose proof (payload_range c). assert (E : p / P = pend_b pd) by (symmetry; apply (Z.div_unique_pos _ _ _ (pend_filled pd)); lia).
  rewrite E. lia.
Qed.

(** After a slice: nothing waits and the blocks up to its own are queued,
    or it waits, the folio's last. *)
Definition after (C : Z -> Z) (nb p end_ : Z) (w : wpass) : Prop :=
  (wb_pend (wb_of w) = None /\ (p - p / P * P = 0 -> slice_len p end_ = P) /\ reads C (p / P + 1) w) \/
  (exists pd, wb_pend (wb_of w) = Some pd /\ pend_next_pos pd = end_ /\ p + slice_len p end_ = end_ /\ p - p / P * P + (end_ - p) < P /\ reads C nb w).

Lemma slice_reads C nb folio p end_ o w : reads C nb w -> 0 <= p < end_ -> file_block (p / P) -> nb <= p / P -> M (p / P) <> 0 ->
  (forall pd, wb_pend (wb_of w) = Some pd -> pend_next_pos pd = p) -> zlen folio = 4096 -> bytes folio -> p mod 4096 + (end_ - p) <= 4096 ->
  wpw (writeback_slice c t cpu stk K now folio p end_ o) w
    (fun r w' => r = 0 /\ after (over C p (slice folio (p mod 4096) (slice_len p end_))) nb p end_ w').
Proof.
  intros Hr Hp Hi Hnb Hne Hpd Zf Bf Hpg. pose proof (payload_range c) as HP. pose proof (Z.div_mod p P ltac:(lia)) as Hd. pose proof (Z.mod_pos_bound p P ltac:(lia)) as Hm.
  pose proof (Z.mod_pos_bound p 4096 ltac:(lia)) as Hm4. unfold writeback_slice. cbv zeta. set (b := p / P) in *. set (off := p - b * P) in *. set (l := Z.min (end_ - p) (P - off)).
  assert (Hoff : 0 <= off < P) by (unfold off; lia). assert (Hl : 0 < l /\ off + l <= P /\ p + l <= end_) by (unfold l; lia).
  change (offset_in_folio p) with (p mod 4096). set (src := slice folio (p mod 4096) l).
  assert (Zs : zlen src = l) by (unfold src; rewrite zlen_slice; lia). assert (Bs : bytes src) by (by apply bytes_slice).
  assert (Ep : p = b * P + off) by (unfold off; lia). pose proof Hr as (Hx & Zw & Bw & Hw).
  assert (E1 : over C p src = over C (b * P + off) src) by (by rewrite <- Ep). rewrite E1. clear E1.
  apply wpw_bind.
  apply (wpw_mono _ _ (fun r w' => r = inr (M b) /\ reads C nb w' /\ same_pend w w')).
  { assert (Hh : exists C', here C' nb w) by (destruct (wb_pend (wb_of w)); [destruct Hw as (Cq & ? & _); by exists Cq|by exists C]). destruct Hh as [C' Hh].
    pose proof (fun C' (Hh : here C' nb w) => slice_phys_here C' nb b w Hh Hi Hne) as Hs. unfold wpw in *. destruct (Hs C' Hh) as (-> & _ & Hsp). split; [done|]. split; [|done].
    pose proof Hsp as [F1 F2 F3]. split; [by apply F3|]. rewrite F1, F2. split; [done|]. split; [done|].
    destruct (wb_pend (wb_of w)) as [pd|]; [destruct Hw as (Cq & Hq & Wt); exists Cq; split; [by apply (Hs Cq)|done]|by apply (Hs C)]. }
  intros r w1 (-> & Hr1 & [F1 F2 F3]). apply wpw_bind. unfold get_wb at 1. apply wpw_get. fold (wb_of w1). apply wpw_bind, wpw_get.
  assert (Fin : (off = 0 -> l = P) -> forall r w', (r = 0 /\ reads (over C (b * P + off) src) (b + 1) w' /\ wb_pend (wb_of w') = None) ->
    r = 0 /\ after (over C (b * P + off) src) nb p end_ w').
  { intros Hol r' w' (-> & Hr' & Hn'). split; [done|]. left. done. }
  rewrite F1. destruct (Z.eqb_spec off 0) as [E0|E0]; cbn [negb].
  - assert (Hn : wb_pend (wb_of w) = None).
    { destruct (wb_pend (wb_of w)) as [pd|]; [|done]. destruct Hw as (Cq & _ & Wt). destruct (waits_at _ _ _ _ _ p Wt (Hpd pd eq_refl) ltac:(lia)) as [_ Ef].
      pose proof (wt_filled _ _ _ _ _ Wt). fold b in Ef. fold off in Ef. lia. }
    assert (Hn1 : wb_pend (wb_of w1) = None) by congruence. pose proof Hr1 as (Hx1 & Zw1 & Bw1 & Hh1). rewrite Hn1 in Hh1.
    destruct (Z.eqb_spec l P) as [El|El].
    + unfold flush_first. apply wpw_bind. unfold get_wb at 1. apply wpw_get. fold (wb_of w1). rewrite Hn1.
      eapply wpw_mono; [apply (queue_reads C (over C (b * P + off) src) nb b)|exact (Fin (fun _ => El))]; try done.
      * apply bytes_splice; [apply bytes_zeros|done].
      * rewrite zlen_splice; change BEAMFS_BLOCK_SIZE with 4096; rewrite ?zlen_zeros; lia.
      * intros u Hu. rewrite getb_splice_in; change BEAMFS_BLOCK_SIZE with 4096; rewrite ?zlen_zeros; try lia.
        rewrite E0, Z.add_0_r, over_in by lia. f_equal. lia.
      * intros q Hq Hb. apply over_out. lia.
    + unfold flush_first. apply wpw_bind. unfold get_wb at 1. apply wpw_get. fold (wb_of w1). rewrite Hn1.
      apply wpw_bind. unfold get_wb at 1. apply wpw_get. fold (wb_of w1). apply wpw_bind. eapply wpw_mono; [by apply set_pend_reads|]. cbv beta.
      intros _ w2 (Hx2 & Hp2 & Hb2 & He2 & Hi2 & Hq2). apply wpw_ret. split; [done|]. right. eexists. split; [exact Hp2|]. cbn [pend_next_pos].
      assert (Ee : p + l = end_) by lia. split; [done|]. split; [exact Ee|]. fold b off. split; [lia|]. split; [done|]. rewrite Hb2, Hp2.
      split; [rewrite zlen_splice; lia|]. split; [by apply bytes_splice|]. exists C. split; [by apply (here_eq C nb w1)|].
      split; cbn [pend_b pend_phys pend_filled pend_inode pend_next_pos]; try done; [lia|by rewrite (proj1 Hh1)|lia| |].
      * intros u Hu. rewrite E0, Z.add_0_r, over_in by lia. rewrite getb_splice_in by lia. f_equal. lia.
      * intros q Hq Hb. apply over_out. lia.
  - destruct (wb_pend (wb_of w)) as [pd|] eqn:Epd.
    + destruct Hw as (Cq & _ & Wt). destruct (waits_at _ _ _ _ _ p Wt (Hpd pd eq_refl) ltac:(lia)) as [Eb Ef]. fold b in Eb, Ef. fold off in Ef.
      rewrite (wt_phys _ _ _ _ _ Wt), Eb, Ef, !Z.eqb_refl. cbn [andb]. rewrite <- Zs at 1.
      eapply wpw_mono; [apply (continue_reads C nb pd b off src); try done; [lia|lia]|apply Fin; done].
    + eapply wpw_mono; [apply (partial_reads C nb); try done; [lia|lia]|apply Fin; done].
Qed.

Lemma reads_ext C C' nb w : (forall q, 0 <= q -> C' q = C q) -> reads C nb w -> reads C' nb w.
Proof.
  intros HC (Hx & Zw & Bw & Hw). split_and!; try done. pose proof (payload_range c). destruct (wb_pend (wb_of w)) as [pd|].
  - destruct Hw as (Cq & Hh & [T1 T2 T3 T4 T5 T6 T7 T8 T9]). exists Cq. split; [done|]. split; try done.
    + intros u Hu. unfold file_block in T1. rewrite HC by nia. by apply T8.
    + intros q Hq Hb. rewrite HC by done. by apply T9.
  - destruct Hw as [Hf V]. split; [done|]. by apply (vol_ext C).
Qed.

Lemma over_over C p folio o l m q : 0 <= o -> 0 <= l -> 0 <= m -> o + l + m <= zlen folio ->
  over C p (slice folio o (l + m)) q = over (over C p (slice folio o l)) (p + l) (slice folio (o + l) m) q.
Proof.
  intros Ho Hl Hm Hz. unfold over. rewrite !zlen_slice by lia.
  destruct (Z.leb_spec p q), (Z.ltb_spec q (p + (l + m))), (Z.leb_spec (p + l) q), (Z.ltb_spec q (p + l + m)), (Z.ltb_spec q (p + l)); cbn [andb]; try lia; try done.
  all: rewrite !getb_slice by lia; f_equal; lia.
Qed.

Lemma slices_reads folio end_ o fuel : zlen folio = 4096 -> bytes folio -> forall p C nb queued w, reads C nb w ->
  0 <= p <= end_ -> (Z.to_nat (end_ - p) <= fuel)%nat -> p mod 4096 + (end_ - p) <= 4096 ->
  (forall q, p <= q < end_ -> file_block (q / P) /\ M (q / P) <> 0) -> nb <= p / P ->
  (forall pd, wb_pend (wb_of w) = Some pd -> pend_next_pos pd = p) ->
  wpw (writeback_slices c t cpu stk K now fuel folio p end_ o queued) w (fun r w' => fst r = 0 /\ exists nb',
    reads (over C p (slice folio (p mod 4096) (end_ - p))) nb' w' /\ (forall pd, wb_pend (wb_of w') = Some pd -> pend_next_pos pd = end_) /\
    (nb' <= end_ / P \/ p - p / P * P <> 0 /\ p - p / P * P + (end_ - p) < P)).
Proof.
  intros Zf Bf. pose proof (payload_range c) as HP.
  assert (Done : forall p C nb (queued : Z) w, reads C nb w -> p = end_ -> nb <= p / P -> (forall pd, wb_pend (wb_of w) = Some pd -> pend_next_pos pd = p) ->
    fst (0, queued) = 0 /\ exists nb', reads (over C p (slice folio (p mod 4096) (end_ - p))) nb' w /\ (forall pd, wb_pend (wb_of w) = Some pd -> pend_next_pos pd = end_) /\
    (nb' <= end_ / P \/ p - p / P * P <> 0 /\ p - p / P * P + (end_ - p) < P)).
  { intros p C nb queued w Hr -> Hnb Hpd. split; [done|]. exists nb. split_and!; [|done|by left]. apply (reads_ext C); [|done]. intros q Hq.
    apply over_out. rewrite Z.sub_diag. assert (zlen (slice folio (end_ mod 4096) 0) = 0) by done. lia. }
  induction fuel as [|fuel IH]; intros p C nb queued w Hr Hp Hfu Hpg Hmap Hnb Hpd; cbn [writeback_slices].
  { apply wpw_ret. apply (Done p C nb); try done. lia. }
  destruct (Z.leb_spec end_ p) as [He|He]; [apply wpw_ret; apply (Done p C nb); try done; lia|]. cbv zeta.
  destruct (Hmap p ltac:(lia)) as [Hi Hne]. pose proof (Z.div_mod p P ltac:(lia)) as Hd. pose proof (Z.mod_pos_bound p P ltac:(lia)) as Hm.
  pose proof (Z.mod_pos_bound p 4096 ltac:(lia)) as Hm4.
  apply wpw_bind. eapply wpw_mono; [apply (slice_reads C nb); try done; lia|]. cbv beta. intros r w1 [-> Ha]. cbn [Z.ltb Z.compare].
  set (l := slice_len p end_) in *. assert (Hl : 0 < l <= end_ - p) by lia.
  set (C1 := over C p (slice folio (p mod 4096) l)) in *.
  assert (Step : forall nb1, reads C1 nb1 w1 -> nb1 <= (p + l) / P -> (forall pd, wb_pend (wb_of w1) = Some pd -> pend_next_pos pd = p + l) ->
    (p + l < end_ -> (p + l) - (p + l) / P * P = 0) ->
    wpw (writeback_slices c t cpu stk K now fuel folio (p + l) end_ o (queued + 1)) w1 (fun r w' => fst r = 0 /\ exists nb',
      reads (over C p (slice folio (p mod 4096) (end_ - p))) nb' w' /\ (forall pd, wb_pend (wb_of w') = Some pd -> pend_next_pos pd = end_) /\
      (nb' <= end_ / P \/ p - p / P * P <> 0 /\ p - p / P * P + (end_ - p) < P))).
  { intros nb1 Hr1 Hnb1 Hpd1 Hal. destruct (decide (p + l = end_)) as [Ee|Ee].
    - assert (Er : forall fu q, writeback_slices c t cpu stk K now fu folio (p + l) end_ o q = mret (0, q)).
      { intros [|fu] q; [done|]. cbn [writeback_slices]. by rewrite (proj2 (Z.leb_le _ _)) by lia. }
      rewrite Er. apply wpw_ret. split; [done|]. exists nb1. replace (end_ - p) with l by lia. fold C1. rewrite <- Ee. split_and!; [done|done|by left].
    - assert (Em : (p + l) mod 4096 = p mod 4096 + l).
      { pose proof (Z.div_mod p 4096 ltac:(lia)). symmetry. apply (Z.mod_unique_pos _ _ (p / 4096)); lia. }
      eapply wpw_mono; [apply (IH (p + l) C1 nb1); try done; [lia|lia|lia|intros q Hq; apply Hmap; lia]|].
      cbv beta. intros r w2 (E & nb2 & Hr2 & Hpd2 & Hnb2). split; [done|]. exists nb2. split_and!; [|done|left; destruct Hnb2 as [?|[? _]]; [done|lia]].
      eapply reads_ext; [|exact Hr2]. intros q Hq. unfold C1. rewrite Em. replace (end_ - p) with (l + (end_ - (p + l))) by lia. apply over_over; lia. }
  destruct Ha as [(Hn & Hol & Hr1)|(pd & Hn & Hnx & Ee & Hsh & Hr1)].
  - destruct (decide (p - p / P * P + l = P)) as [Efull|Eshort].
    + assert (Eq : (p + l) / P = p / P + 1) by (symmetry; apply (Z.div_unique_pos _ _ _ 0); lia).
      apply (Step _ Hr1); [lia|intros pd Hpd1; congruence|rewrite Eq; lia].
    + assert (Ee : p + l = end_) by lia.
      assert (Er : forall fu q, writeback_slices c t cpu stk K now fu folio (p + l) end_ o q = mret (0, q)).
      { intros [|fu] q; [done|]. cbn [writeback_slices]. by rewrite (proj2 (Z.leb_le _ _)) by lia. }
      rewrite Er. apply wpw_ret. split; [done|]. exists (p / P + 1). replace (end_ - p) with l by lia. split_and!; [done|intros pd Hpd1; congruence|right; lia].
  - apply (Step _ Hr1); [|intros pd' Hpd1; rewrite Hn in Hpd1; injection Hpd1 as <-; rewrite Hnx; symmetry; exact Ee|lia].
    pose proof (Z.div_le_mono p (p + l) P ltac:(lia) ltac:(lia)). lia.
Qed.

(** A pass that has begun, or not yet. *)
Definition at_rest (C : Z -> Z) (nb : Z) (w : wpass) : Prop := (p_ctx w = None /\ here C nb w) \/ reads C nb w.

Lemma get_ctx_reads C nb w : at_rest C nb w -> wpw (beamfs_wb_get K) w (fun ok w' => ok = true /\ reads C nb w' /\ wb_pend (wb_of w') = wb_pend (wb_of w)).
Proof.
  intros Ha. unfold beamfs_wb_get. do 2 apply wpw_bind, wpw_get. destruct Ha as [[E Hh]|Hr].
  - rewrite E, (cm_wb _ Hcalm), (steady_scratch _ (v_steady _ (v_base _ _ _ _ (proj2 Hh)))). cbn [negb orb]. wrun. split; [done|].
    unfold wb_of. rewrite E. split; [|done]. split; [by eexists|]. unfold wb_of. cbn [p_ctx from_option wb_pend_payload wb_pend Datatypes.id].
    split; [done|]. split; [apply bytes_zeros|]. apply (here_eq C nb w); try done. unfold queued_blocks, ioend_blocks, wb_of. by rewrite E.
  - destruct (proj1 Hr) as [x E]. rewrite E. by apply wpw_ret.
Qed.

(** Where the next folio may start. *)
Definition open_at (w : wpass) (nb pos : Z) : Prop :=
  nb <= pos / P /\ forall pd, wb_pend (wb_of w) = Some pd -> pend_next_pos pd = pos \/ pend_b pd + 1 <= pos / P.

Lemma range_reads C nb folio pos len w : at_rest C nb w -> open_at w nb pos -> zlen folio = 4096 -> bytes folio ->
  0 <= pos -> pos mod 4096 = 0 -> 0 < len <= 4096 -> (forall q, pos <= q < pos + len -> file_block (q / P) /\ M (q / P) <> 0) ->
  wpw (beamfs_inline_writeback_range c t cpu stk K now folio pos len) w (fun r w' => r = len /\ exists nb',
    reads (over C pos (slice folio 0 len)) nb' w' /\ (len = 4096 -> forall pos', pos' mod 4096 = 0 -> pos + 4096 <= pos' -> open_at w' nb' pos')).
Proof.
  intros Ha [Hnb Hop] Zf Bf Hpos Hal Hlen Hmap. pose proof (payload_range c) as HP. unfold beamfs_inline_writeback_range. apply wpw_bind.
  eapply wpw_mono; [by apply (get_ctx_reads C nb)|]. cbv beta. intros ok w1 (-> & Hr1 & Ep1). cbn [negb]. cbv zeta. rewrite (cm_owner _ Hcalm). cbn [negb].
  assert (Hh1 : exists C', here C' nb w1) by (destruct Hr1 as (_ & _ & _ & Hw); destruct (wb_pend (wb_of w1)); [destruct Hw as (Cq & ? & _); by exists Cq|by exists C]).
  destruct Hh1 as [C' Hh1]. apply wpw_bind, wpw_get. rewrite (steady_scratch _ (v_steady _ (v_base _ _ _ _ (proj2 Hh1)))). cbn [negb].
  apply wpw_bind. unfold new_owner. unfold wpw at 1. cbn [fst snd]. set (w2 := WPass _ _ _ _ _ _ _ _).
  assert (Hr2 : reads C nb w2) by exact Hr1. assert (Ep2 : wb_pend (wb_of w2) = wb_pend (wb_of w)) by exact Ep1. clearbody w2. clear Hr1 Ep1 Hh1.
  apply wpw_bind. unfold get_wb at 1. apply wpw_get. fold (wb_of w2). apply wpw_bind, wpw_get. apply wpw_bind.
  assert (Ef2 : p_inode w2 = f) by (destruct Hr2 as (_ & _ & _ & Hw); destruct (wb_pend (wb_of w2)); [destruct Hw as (Cq & [? _] & _)|destruct Hw]; done).
  apply (wpw_mono _ _ (fun r w' => r = 0 /\ exists nb', reads C nb' w' /\ nb' <= pos / P /\ forall pd, wb_pend (wb_of w') = Some pd -> pend_next_pos pd = pos)).
  { rewrite <- Ep2 in Hop. destruct (wb_pend (wb_of w2)) as [pd|] eqn:Epd; [|apply wpw_ret; split; [done|]; exists nb; split_and!; [done|done|congruence]].
    destruct (Z.eqb_spec (pend_next_pos pd) pos) as [En|En].
    - pose proof Hr2 as (_ & _ & _ & Hw). rewrite Epd in Hw. destruct Hw as (Cq & _ & Wt). rewrite Ef2, (wt_inode _ _ _ _ _ Wt), Z.eqb_refl. cbn [negb orb].
      apply wpw_ret. split; [done|]. exists nb. split_and!; [done|done|]. intros pd' E. rewrite Epd in E. by injection E as <-.
    - rewrite orb_true_r. eapply wpw_mono; [by apply (flush_reads C nb)|]. cbv beta. rewrite Epd. intros r w3 (-> & Hn & Hr3). split; [done|].
      exists (pend_b pd + 1). split_and!; [done| |congruence]. by destruct (Hop pd eq_refl). }
  intros r w3 (-> & nb3 & Hr3 & Hnb3 & Hpd3). cbn [Z.ltb Z.compare]. apply wpw_bind.
  eapply wpw_mono; [apply (slices_reads folio (pos + len) _ (Z.to_nat len) Zf Bf pos C nb3); try done; lia|].
  cbv beta. intros [r q] w4 (Er & nb4 & Hr4 & Hpd4 & Hnb4). cbn [fst] in Er. subst r. cbn [Z.ltb Z.compare]. apply wpw_ret. split; [done|]. exists nb4.
  rewrite Hal in Hr4. replace (pos + len - pos) with len in * by lia. split; [done|]. intros -> pos' Hal' Hpos'.
  pose proof (Z.div_mod pos P ltac:(lia)). pose proof (Z.mod_pos_bound pos P ltac:(lia)). destruct Hnb4 as [Hnb4|[_ ?]]; [|lia].
  pose proof (Z.div_le_mono (pos + 4096) pos' P ltac:(lia) ltac:(lia)). split; [lia|]. intros pd Epd. pose proof Hr4 as (_ & _ & _ & Hw). rewrite Epd in Hw.
  destruct Hw as (Cq & _ & [T1 _ _ _ T5 _ T7 _ _]). specialize (Hpd4 pd Epd). destruct (decide (pos' = pos + 4096)) as [->|Hgt]; [by left|right].
  assert (pos + 8192 <= pos') by (pose proof (Z.div_mod pos 4096 ltac:(lia)); pose proof (Z.div_mod pos' 4096 ltac:(lia)); lia).
  apply Z.div_le_lower_bound; lia.
Qed.

(** The end of the pass: the block that waits is queued. *)
Lemma submit_reads C nb error w : at_rest C nb w ->
  wpw (beamfs_inline_writeback_submit c t cpu stk K error) w (fun _ w' => p_ctx w' = None /\ exists nb', here C nb' w').
Proof.
  intros Ha. unfold beamfs_inline_writeback_submit. apply wpw_bind, wpw_get. destruct Ha as [[E Hh]|Hr].
  { rewrite E. apply wpw_ret. split; [done|]. by exists nb. }
  destruct (proj1 Hr) as [x E]. rewrite E. apply wpw_bind. eapply wpw_mono; [by apply (flush_reads C nb)|]. cbv beta. intros r w1 (-> & Hn & Hr1).
  set (nb1 := match wb_pend (wb_of w) with None => nb | Some pd => pend_b pd + 1 end) in *.
  apply wpw_bind. apply (wpw_mono _ _ (fun _ w' => still w1 w' /\ wb_ioend (wb_of w') = None)).
  { split; [apply submit_ioend_still|apply submit_ioend_spec]. }
  intros _ w2 [Hs Hio]. destruct Hr1 as (_ & _ & _ & Hh). rewrite Hn in Hh. pose proof (still_here _ _ _ _ Hs Hh) as Hh2. wrun. split; [done|]. exists nb1.
  eapply (here_eq C nb1 w2); try done. unfold queued_blocks, ioend_blocks. rewrite Hio. done.
Qed.

(** ** Completion *)

Lemma landed_here C nb blks : forall (w : wpass) rest, p_inode w = f -> vol C nb (p_env w) (blks ++ rest) ->
  wpw (for_each (dev_write K) blks) w (fun _ w' => p_inode w' = f /\ p_inflight w' = p_inflight w /\ p_ctx w' = p_ctx w /\ vol C nb (p_env w') rest).
Proof.
  induction blks as [|k blks IH]; intros w rest Hf V; cbn [for_each app] in *; [by apply wpw_ret|].
  apply vol_landed in V. apply wpw_bind.
  apply (wpw_mono _ _ (fun _ w' => p_inode w' = f /\ p_inflight w' = p_inflight w /\ p_ctx w' = p_ctx w /\ vol C nb (p_env w') (blks ++ rest))).
  { unfold dev_write. rewrite (cm_alias _ Hcalm). destruct (al (k_phys k)); wrun; done. }
  intros _ w1 (Hf1 & Hi1 & Hx1 & V1). eapply wpw_mono; [by apply (IH w1 rest)|]. cbv beta. intros _ w2 (? & ? & ? & ?). split_and!; try done; congruence.
Qed.

Definition same_store (w w' : wpass) : Prop := p_env w' = p_env w /\ p_inode w' = p_inode w /\ p_inflight w' = p_inflight w /\ p_ctx w' = p_ctx w.

Lemma folio_done_store o w : wpw (beamfs_wb_folio_done o) w (fun _ w' => same_store w w').
Proof.
  destruct o as [i|]; cbn [beamfs_wb_folio_done]; [|by apply wpw_ret]. apply wpw_bind, wpw_get.
  destruct (p_owners w !! i) as [x|]; [|by apply wpw_ret]. cbv zeta. destruct (_ =? 0); [destruct (o_abandoned x)|]; by wrun.
Qed.

Lemma end_blocks_store blks : forall w, wpw (for_each (end_block false) blks) w (fun _ w' => same_store w w').
Proof.
  induction blks as [|k blks IH]; intros w; cbn [for_each]; [by apply wpw_ret|]. unfold end_block at 1. apply wpw_bind. apply wpw_bind, wpw_ret, wpw_bind.
  eapply wpw_mono; [apply folio_done_store|]. cbv beta. intros _ w1 (? & ? & ? & ?). eapply wpw_mono; [apply folio_done_store|]. cbv beta. intros _ w2 (? & ? & ? & ?).
  eapply wpw_mono; [apply IH|]. cbv beta. intros _ w3 (? & ? & ? & ?). split_and!; congruence.
Qed.

(** A bio completes: what the file will read as stays. *)
Lemma end_bio_here C nb k w : here C nb w ->
  wpw (beamfs_wb_end_bio K k false) w (fun _ w' => here C nb w' /\ p_ctx w' = p_ctx w /\ p_inflight w' = delete k (p_inflight w)).
Proof.
  intros [Hf V]. unfold beamfs_wb_end_bio. apply wpw_bind, wpw_get. destruct (p_inflight w !! k) as [blks|] eqn:Ek.
  2:{ apply wpw_ret. split; [done|]. split; [done|]. apply lookup_ge_None in Ek. rewrite delete_take_drop, take_ge, drop_ge, app_nil_r by lia. done. }
  apply wpw_bind. unfold set_inflight. unfold wpw at 1. cbn [fst snd]. set (w1 := WPass _ _ _ _ _ _ _ _). apply wpw_bind.
  assert (V1 : vol C nb (p_env w1) (blks ++ queued_blocks w1)).
  { apply (vol_perm _ _ _ (queued_blocks w)); [|done]. unfold queued_blocks. change (ioend_blocks w1) with (ioend_blocks w). rewrite app_assoc.
    apply Permutation_app_tail. change (p_inflight w1) with (delete k (p_inflight w)). by rewrite (delete_Permutation _ _ _ Ek) at 1. }
  eapply wpw_mono; [by apply (landed_here C nb blks w1 (queued_blocks w1))|]. cbv beta. intros _ w2 (Hf2 & Hi2 & Hx2 & V2).
  eapply wpw_mono; [apply end_blocks_store|]. cbv beta. intros _ w3 (E1 & E2 & E3 & E4). split; [|split; [by rewrite E4, Hx2|by rewrite E3, Hi2]].
  split; [congruence|]. rewrite E1. replace (queued_blocks w3) with (queued_blocks w1); [done|]. unfold queued_blocks, ioend_blocks, wb_of. by rewrite E3, E4, Hi2, Hx2.
Qed.

Lemma end_bio_rest C nb k w : at_rest C nb w ->
  wpw (beamfs_wb_end_bio K k false) w (fun _ w' => at_rest C nb w' /\ wb_pend (wb_of w') = wb_pend (wb_of w)).
Proof.
  intros [[E Hh]|Hr].
  - eapply wpw_mono; [by apply (end_bio_here C nb)|]. cbv beta. intros _ w' (Hh' & Hx & _). unfold wb_of. rewrite Hx. split; [left; split; [congruence|done]|done].
  - pose proof Hr as (Hx & Zw & Bw & Hw). pose proof (fun C' (Hh : here C' nb w) => end_bio_here C' nb k w Hh) as He. unfold wpw in *.
    set (w' := snd (beamfs_wb_end_bio K k false w)) in *.
    assert (Ex : p_ctx w' = p_ctx w) by (destruct (wb_pend (wb_of w)); [destruct Hw as (Cq & Hh & _); apply (He Cq Hh)|apply (He C Hw)]).
    assert (Ew : wb_of w' = wb_of w) by (unfold wb_of; by rewrite Ex). rewrite Ew. split; [|done]. right. split; [by rewrite Ex|]. rewrite Ew. split_and!; try done.
    destruct (wb_pend (wb_of w)); [destruct Hw as (Cq & Hh & Wt); exists Cq; split; [apply (He Cq Hh)|done]|apply (He C Hw)].
Qed.
End content.

(** ** A pass *)

Section pass.
Context {S : Type} `{RL : !RsLib} `{RS : !RsLibSpec} `{RB : !RsLibBounded} `{CL : !CrcLib} `{TO : TreeEnvOk S} `{SS : !Steady S}.
Context (c : data_cfg) (t : rs_tables) (cpu : nat) (stk : stack_arrays) (now : Z * Z).
Hypothesis Hready : ready t cpu.
Context (f : finode) (s0 : S) (al : Z -> bool).
Hypothesis Hfreeing : fi_freeing f = false.

Abbreviation P := (beamfs_block_payload c).

(** Pages in order, from [lo] on, whole but for the last, over blocks the
    file has; bios may complete in between. *)
Fixpoint pages_ok (lo : Z) (l : list wb_event) : Prop :=
  match l with
  | [] => True
  | WbRange K folio pos len :: l =>
    calm al K /\ zlen folio = 4096 /\ bytes folio /\ 0 <= pos /\ lo <= pos /\ pos mod 4096 = 0 /\ 0 < len <= 4096 /\
    (forall q, pos <= q < pos + len -> file_block (q / P) /\ fget s0 f (q / P) <> 0) /\
    (len = 4096 /\ pages_ok (pos + 4096) l \/ Forall (fun e => match e with WbEndBio K _ false => calm al K | _ => False end) l)
  | WbEndBio K k failed :: l => calm al K /\ failed = false /\ pages_ok lo l
  | WbSubmit _ _ :: _ => False
  end.

(** The bytes of the folios over [C]. *)
Fixpoint written (C : Z -> Z) (l : list wb_event) : Z -> Z :=
  match l with
  | [] => C
  | WbRange _ folio pos len :: l => written (over C pos (slice folio 0 len)) l
  | _ :: l => written C l
  end.

Abbreviation at_rest := (at_rest c t cpu f s0 al).
Abbreviation here := (here c t cpu f s0 al).

Lemma ends_rest l : forall C nb (w : wpass S), at_rest C nb w -> Forall (fun e => match e with WbEndBio K _ false => calm al K | _ => False end) l ->
  wpw (wb_run c t cpu stk now l) w (fun _ w' => at_rest C nb w') /\ written C l = C.
Proof.
  induction l as [|e l IH]; intros C nb w Ha Hl; cbn [wb_run written]; [split; [by apply wpw_ret|done]|]. inversion_clear Hl as [|? ? He Hl'].
  destruct e as [? ? ? ?|? ?|K k [|]]; try done. cbn [wb_step]. split; [|by apply (IH C nb w)]. apply wpw_bind, wpw_bind.
  eapply wpw_mono; [by apply (end_bio_rest c t cpu f s0 al K He C nb)|]. cbv beta. intros _ w1 [Ha1 _]. apply wpw_ret, wpw_bind.
  eapply wpw_mono; [by apply (IH C nb w1)|]. cbv beta. intros r w2 Ha2. by apply wpw_ret.
Qed.

Lemma run_rest l : forall lo C nb (w : wpass S), at_rest C nb w -> pages_ok lo l ->
  (forall pos, pos mod 4096 = 0 -> 0 <= pos -> lo <= pos -> open_at c w nb pos) ->
  wpw (wb_run c t cpu stk now l) w (fun _ w' => exists nb', at_rest (written C l) nb' w').
Proof.
  induction l as [|e l IH]; intros lo C nb w Ha Hl Hop; cbn [wb_run written pages_ok] in *; [apply wpw_ret; by exists nb|].
  destruct e as [K folio pos len|? ?|K k failed]; [|done|].
  - destruct Hl as (Hk & Zf & Bf & H0 & Hlo & Hal & Hlen & Hmap & Hnext). cbn [wb_step]. apply wpw_bind, wpw_bind.
    eapply wpw_mono; [apply (range_reads c t cpu stk now Hready f s0 al Hfreeing K Hk C nb); try done; by apply Hop|]. cbv beta.
    intros r w1 (-> & nb1 & Hr1 & Hop1). apply wpw_ret, wpw_bind. destruct Hnext as [[El Hl]|Hends].
    + eapply wpw_mono; [apply (IH (pos + 4096) (over C pos (slice folio 0 len)) nb1 w1); [by right|done|]|].
      * intros pos' Hal' _ Hpos'. by apply Hop1.
      * cbv beta. intros rs w2 H2. by apply wpw_ret.
    + destruct (ends_rest l (over C pos (slice folio 0 len)) nb1 w1 (or_intror Hr1) Hends) as [He ->]. eapply wpw_mono; [exact He|]. cbv beta. intros rs w2 H2. apply wpw_ret. by exists nb1.
  - destruct Hl as (Hk & -> & Hl). cbn [wb_step]. apply wpw_bind, wpw_bind.
    eapply wpw_mono; [by apply (end_bio_rest c t cpu f s0 al K Hk C nb)|]. cbv beta. intros _ w1 [Ha1 Ep]. apply wpw_ret, wpw_bind.
    eapply wpw_mono; [apply (IH lo C nb w1); [done|done|]|].
    + intros pos Hal H0 Hlo. destruct (Hop pos Hal H0 Hlo) as [O1 O2]. split; [done|]. by rewrite Ep.
    + cbv beta. intros rs w2 H2. by apply wpw_ret.
Qed.

Lemma drained_here C nb K order : calm al K -> Forall (fun x => snd x = false) order -> forall (w : wpass S) l, p_ctx w = None -> here C nb w ->
  completions K (length (p_inflight w)) order = Some l ->
  wpw (wb_run c t cpu stk now l) w (fun _ w' => here C nb w' /\ p_ctx w' = None /\ p_inflight w' = []).
Proof.
  intros Hk. induction order as [|[k failed] order IH]; intros Ho w l Hx Hh Hl; cbn [completions] in Hl.
  { case_decide as E; [|done]. injection Hl as <-. apply wpw_ret. split; [done|]. split; [done|]. by apply nil_length_inv. }
  inversion_clear Ho as [|? ? Hfl Ho']. cbn [snd] in Hfl. subst failed.
  case_decide as E; [|done]. destruct (completions K (length (p_inflight w) - 1) order) as [l'|] eqn:El; [|done]. injection Hl as <-.
  cbn [wb_run wb_step]. apply wpw_bind, wpw_bind. eapply wpw_mono; [by apply (end_bio_here c t cpu f s0 al K Hk C nb)|]. cbv beta. intros _ w1 (Hh1 & Hx1 & Hi1).
  apply wpw_ret, wpw_bind. eapply wpw_mono; [apply (IH Ho' w1 l'); [congruence|done|]|].
  - rewrite Hi1, length_delete; [done|]. by apply lookup_lt_is_Some.
  - cbv beta. intros r w2 H2. by apply wpw_ret.
Qed.

(** The pass, its end, and the completion of what is left in flight. *)
Lemma pass_writes C l K error order ends : steady s0 -> s_free_blocks s0 <> 0 -> file_maps c t cpu s0 f C -> pages_ok 0 l ->
  calm al K -> Forall (fun x => snd x = false) order ->
  let w1 := snd (wb_run c t cpu stk now l (wb_start s0 f)) in
  let w2 := snd (beamfs_inline_writeback_submit c t cpu stk K error w1) in
  completions K (length (p_inflight w2)) order = Some ends ->
  let w3 := snd (wb_run c t cpu stk now ends w2) in
  p_inode w3 = f /\ file_maps c t cpu (p_env w3) f (written C l) /\ apart s0 f (p_env w3) f /\ steady (p_env w3).
Proof.
  intros St Fr [W Par B] Hl Hk Ho w1 w2 Hc w3.
  assert (H0 : at_rest C 0 (wb_start s0 f)).
  { left. split; [done|]. split; [done|]. split; [|by intros k Hin%not_elem_of_nil|apply NoDup_nil_2|].
    - split; try done. apply apart_refl.
    - intros i Hi. exact (B i Hi). }
  assert (H1 : exists nb, at_rest (written C l) nb w1).
  { apply (run_rest l 0 C 0 _ H0 Hl). intros pos _ H _. split; [|done]. pose proof (payload_range c). apply Z.div_pos; lia. }
  destruct H1 as [nb1 H1]. destruct (submit_reads c t cpu stk Hready f s0 al K Hk _ nb1 error w1 H1) as (Hx2 & nb2 & H2).
  destruct (drained_here _ nb2 K order Hk Ho w2 ends Hx2 H2 Hc) as ([Hf3 V3] & Hx3 & Hi3). fold w3 in Hf3, V3, Hx3, Hi3.
  unfold queued_blocks, ioend_blocks, wb_of in V3. rewrite Hx3, Hi3 in V3. cbn [concat app from_option ctx0 wb_ioend] in V3.
  destruct V3 as [[W3 Par3 St3 _ A3 M3] _ _ H3]. split_and!; [done| |done|done]. split; [done|done|].
  intros i Hi. destruct (H3 i Hi) as [E1 E2]. unfold block_holds. rewrite M3 by done. done.
Qed.
End pass.
