(* ===== verification/TreeCheck.v ===== *)
(** * The tree checker (treecheck.c)

    Every store into a block of pointers is recorded per slot; a later store
    that finds 0 where a live pointer was recorded is a violation.  A hash
    table is the list of its entries, newest first: entries of one slot are
    in one bucket, and a probe finds the newest.  The second table, on the
    child, is a flag of the entry.  [who] only feeds messages. *)

From stdpp Require Import gmap.
From S2P Require Import Prelude Format.

(** struct beamfs_tc_entry *)
Record beamfs_tc_entry := TcEntry {
  te_parent : Z;
  te_slot : Z;
  te_child : Z;
  te_ino : Z;
  te_hashed : bool }.                 (** [cnode] is on s_tc_child *)

Record tcheck := TCheck {
  s_tc : list beamfs_tc_entry;
  s_tc_entries : Z;
  s_tc_violations : Z }.

Definition tc_is (parent slot : Z) (e : beamfs_tc_entry) : bool := (te_parent e =? parent) && (te_slot e =? slot).

Definition beamfs_tc_index_child (e : beamfs_tc_entry) : beamfs_tc_entry :=
  TcEntry (te_parent e) (te_slot e) (te_child e) (te_ino e) (if te_child e =? 0 then te_hashed e else true).

Definition beamfs_tc_unindex_child (e : beamfs_tc_entry) : beamfs_tc_entry :=
  TcEntry (te_parent e) (te_slot e) (te_child e) (te_ino e) false.

(** The first entry of a probe that satisfies [P], replaced by [g] of it. *)
Fixpoint tc_first (P : beamfs_tc_entry -> bool) (g : beamfs_tc_entry -> list beamfs_tc_entry)
    (l : list beamfs_tc_entry) : list beamfs_tc_entry :=
  match l with
  | [] => []
  | e :: l => if P e then g e ++ l else e :: tc_first P g l
  end.

(** [beamfs_tc_drop] of the first entry of a probe. *)
Definition beamfs_tc_drop (c : tcheck) (P : beamfs_tc_entry -> bool) : tcheck :=
  TCheck (tc_first P (fun _ => []) (s_tc c)) (u32 (s_tc_entries c - 1)) (s_tc_violations c).

Definition beamfs_tc_init : tcheck := TCheck [] 0 0.

(** What the log says at unmount, and no entry is left. *)
Definition beamfs_tc_exit (c : tcheck) : Z * tcheck :=
  (s_tc_violations c, TCheck [] (s_tc_entries c) (s_tc_violations c)).

Definition tc_set (child ino : Z) (e : beamfs_tc_entry) : beamfs_tc_entry :=
  let e := beamfs_tc_unindex_child e in
  beamfs_tc_index_child (TcEntry (te_parent e) (te_slot e) child ino (te_hashed e)).

(** [kmalloc_ok]: the allocation of a new entry. *)
Definition beamfs_tc_store (kmalloc_ok : bool) (c : tcheck) (ino parent slot old child : Z) : tcheck :=
  let set l := tc_first (tc_is parent slot) (fun e => [tc_set child ino e]) l in
  match find (tc_is parent slot) (s_tc c) with
  | Some found =>
    if negb (te_child found =? 0) && (old =? 0)
    then TCheck (set (s_tc c)) (s_tc_entries c) (u32 (s_tc_violations c + 1))
    else TCheck (set (s_tc c)) (s_tc_entries c) (s_tc_violations c)
  | None =>
    if negb kmalloc_ok then c
    else TCheck (beamfs_tc_index_child (TcEntry parent slot child ino false) :: s_tc c)
           (u32 (s_tc_entries c + 1)) (s_tc_violations c)
  end.

Definition beamfs_tc_forget_child (c : tcheck) (child : Z) : tcheck :=
  let dropped e := te_hashed e && (te_child e =? child) in
  TCheck (List.filter (fun e => negb (dropped e)) (s_tc c)) (u32 (s_tc_entries c - zlen (List.filter dropped (s_tc c))))
    (s_tc_violations c).

Definition beamfs_tc_forget_parent (c : tcheck) (parent : Z) : tcheck :=
  foldl (fun c slot =>
    match find (tc_is parent slot) (s_tc c) with
    | Some _ => beamfs_tc_drop c (tc_is parent slot)
    | None => c
    end) c (upto BEAMFS_INDIRECT_PTRS).

Definition beamfs_tc_clear (c : tcheck) (parent slot : Z) : tcheck :=
  TCheck (tc_first (tc_is parent slot)
            (fun e => [TcEntry (te_parent e) (te_slot e) 0 (te_ino e) (te_hashed (beamfs_tc_unindex_child e))]) (s_tc c))
    (s_tc_entries c) (s_tc_violations c).

Definition beamfs_tc_zeroed (c : tcheck) (parent : Z) : tcheck :=
  let '(c, live) :=
    foldl (fun '(c, live) slot =>
      match find (tc_is parent slot) (s_tc c) with
      | Some e => (beamfs_tc_drop c (tc_is parent slot), if te_child e =? 0 then live else live + 1)
      | None => (c, live)
      end) (c, 0) (upto BEAMFS_INDIRECT_PTRS) in
  if live =? 0 then c else TCheck (s_tc c) (s_tc_entries c) (u32 (s_tc_violations c + 1)).

(** ** The abstract checker: the last child stored in every slot *)

Inductive tc_op :=
  | OpStore (kmalloc_ok : bool) (ino parent slot old child : Z)
  | OpClear (parent slot : Z)
  | OpZeroed (parent : Z)
  | OpForget (block : Z).             (** beamfs_free_block: as child, then as parent *)

Definition tc_run (c : tcheck) (op : tc_op) : tcheck :=
  match op with
  | OpStore ok ino parent slot old child => beamfs_tc_store ok c ino parent slot old child
  | OpClear parent slot => beamfs_tc_clear c parent slot
  | OpZeroed parent => beamfs_tc_zeroed c parent
  | OpForget block => beamfs_tc_forget_parent (beamfs_tc_forget_child c block) block
  end.

(** The slots of a block. *)
Definition of_parent (parent : Z) (k : Z * Z) : Prop := fst k = parent /\ 0 <= snd k < BEAMFS_INDIRECT_PTRS.
#[export] Instance of_parent_dec parent k : Decision (of_parent parent k).
Proof. unfold of_parent. apply _. Defined.

(** One call: the new map, and whether it is a violation. *)
Definition tc_spec (m : gmap (Z * Z) Z) (op : tc_op) : gmap (Z * Z) Z * bool :=
  match op with
  | OpStore ok _ parent slot old child =>
    match m !! (parent, slot) with
    | Some held => (<[(parent, slot) := child]> m, negb (held =? 0) && (old =? 0))
    | None => (if ok then <[(parent, slot) := child]> m else m, false)
    end
  | OpClear parent slot => (alter (fun _ => 0) (parent, slot) m, false)
  | OpZeroed parent =>
    (filter (fun '(k, _) => ~ of_parent parent k) m,
     bool_decide (map_Exists (fun k c => of_parent parent k /\ c <> 0) m))
  | OpForget block => (filter (fun '(k, c) => ~ of_parent block k /\ (c = block -> block = 0)) m, false)
  end.

(** ** Refinement *)

Definition te_key (e : beamfs_tc_entry) : Z * Z := (te_parent e, te_slot e).

Record tc_ok (c : tcheck) : Prop := {
  tco_keys : NoDup (map te_key (s_tc c));
  tco_index : Forall (fun e => te_hashed e = negb (te_child e =? 0)) (s_tc c);
  tco_count : s_tc_entries c = u32 (zlen (s_tc c)) }.

Definition tc_list_map (l : list beamfs_tc_entry) : gmap (Z * Z) Z := list_to_map (map (fun e => (te_key e, te_child e)) l).

Definition tc_map (c : tcheck) : gmap (Z * Z) Z := tc_list_map (s_tc c).

Lemma tc_is_key parent slot e : tc_is parent slot e = bool_decide (te_key e = (parent, slot)).
Proof.
  unfold tc_is, te_key. destruct (Z.eqb_spec (te_parent e) parent), (Z.eqb_spec (te_slot e) slot); cbn [andb];
    symmetry; [apply bool_decide_true|apply bool_decide_false..]; congruence.
Qed.

Lemma find_key l parent slot : NoDup (map te_key l) ->
  te_child <$> find (tc_is parent slot) l = tc_list_map l !! (parent, slot).
Proof.
  intros N. unfold tc_list_map. induction l as [|e l IH]; cbn [find map list_to_map foldr]; [by rewrite lookup_empty|].
  cbn [map] in N. apply list.NoDup_cons in N as [_ N]. rewrite tc_is_key.
  cbn [fst snd uncurry]. case_bool_decide as E; [by rewrite E, lookup_insert_eq|].
  rewrite lookup_insert_ne by done. by apply IH.
Qed.

Lemma tc_list_lookup l k c : NoDup (map te_key l) ->
  tc_list_map l !! k = Some c <-> exists e, e ∈ l /\ te_key e = k /\ te_child e = c.
Proof.
  intros N. unfold tc_list_map. rewrite <- elem_of_list_to_map; [|by rewrite map_map].
  rewrite list_elem_of_fmap. split; [intros (e & [= -> ->] & He); by exists e|intros (e & He & <- & <-); by exists e].
Qed.

(** The first entry of a slot, rewritten in place. *)
Lemma first_set l parent slot (g : beamfs_tc_entry -> beamfs_tc_entry) :
  (forall e, te_key (g e) = te_key e) ->
  let l' := tc_first (tc_is parent slot) (fun e => [g e]) l in
  map te_key l' = map te_key l /\ zlen l' = zlen l /\
  (forall P : beamfs_tc_entry -> Prop, Forall P l -> (forall e, P (g e)) -> Forall P l') /\
  tc_list_map l' = match find (tc_is parent slot) l with
                   | Some e => <[(parent, slot) := te_child (g e)]> (tc_list_map l) | None => tc_list_map l end.
Proof.
  intros Hg. induction l as [|e l (I1 & I2 & I3 & I4)]; [done|]. cbn [tc_first find].
  rewrite tc_is_key. case_bool_decide as E; cbn [app map].
  - split_and!; [by rewrite Hg|by rewrite !zlen_cons|intros P H HP; inversion H; by constructor|].
    unfold tc_list_map. cbn [map list_to_map foldr uncurry fst snd]. rewrite Hg, E, insert_insert_eq. done.
  - split_and!; [by rewrite I1|by rewrite !zlen_cons, I2|intros P H HP; inversion H; subst; constructor; [done|by apply I3]|].
    unfold tc_list_map in *. cbn [map list_to_map foldr uncurry fst snd]. rewrite I4. destruct (find _ l); [|done].
    by rewrite insert_insert_ne.
Qed.

(** The first entry of a slot, dropped. *)
Lemma first_drop l parent slot : NoDup (map te_key l) ->
  let l' := tc_first (tc_is parent slot) (fun _ => []) l in
  sublist l' l /\ tc_list_map l' = delete (parent, slot) (tc_list_map l) /\
  zlen l' = match find (tc_is parent slot) l with Some _ => zlen l - 1 | None => zlen l end.
Proof.
  induction l as [|e l IH]; intros N; [split_and!; [done| |done]; unfold tc_list_map; cbn; by rewrite delete_empty|].
  cbn [map] in N. apply list.NoDup_cons in N as [Ne N]. destruct (IH N) as (I1 & I2 & I3). cbn [tc_first find].
  rewrite tc_is_key. case_bool_decide as E; cbn [app].
  - split_and!; [by apply sublist_cons| |rewrite zlen_cons; lia]. unfold tc_list_map. cbn [map list_to_map foldr uncurry fst snd].
    rewrite E, delete_insert_eq. rewrite delete_id; [done|]. apply eq_None_not_Some. intros [c Hc].
    apply (tc_list_lookup l (parent, slot) c N) in Hc as (e' & He' & Hk & _). apply Ne. rewrite E, <- Hk. by apply list_elem_of_fmap_2.
  - split_and!; [by apply sublist_skip| |rewrite !zlen_cons; destruct (find _ l); lia].
    unfold tc_list_map in *. cbn [map list_to_map foldr uncurry fst snd]. rewrite I2, delete_insert_ne by done. done.
Qed.

Lemma sublist_ok l l' : sublist l' l -> NoDup (map te_key l) ->
  Forall (fun e => te_hashed e = negb (te_child e =? 0)) l ->
  NoDup (map te_key l') /\ Forall (fun e => te_hashed e = negb (te_child e =? 0)) l'.
Proof.
  intros Hs N F. split.
  - eapply sublist_NoDup; [exact N|]. by apply (fmap_sublist te_key).
  - clear N. induction Hs; [done|apply list.Forall_cons in F as [F1 F2]; constructor; auto|apply list.Forall_cons in F as [F1 F2]; auto].
Qed.

Lemma u32_sub_1 x : u32 (u32 x - 1) = u32 (x - 1).
Proof. unfold u32. by rewrite Zminus_mod_idemp_l. Qed.


Lemma drop_ok c parent slot e :
  tc_ok c -> find (tc_is parent slot) (s_tc c) = Some e ->
  let c' := beamfs_tc_drop c (tc_is parent slot) in
  tc_ok c' /\ tc_map c' = delete (parent, slot) (tc_map c) /\ tc_map c !! (parent, slot) = Some (te_child e).
Proof.
  intros [N F E] Hf. destruct (first_drop (s_tc c) parent slot N) as (D1 & D2 & D3). rewrite Hf in D3.
  destruct (sublist_ok _ _ D1 N F) as [N' F']. split_and!; [|done|].
  - split; [done|done|]. cbn [beamfs_tc_drop s_tc s_tc_entries]. by rewrite E, D3, u32_sub_1.
  - unfold tc_map. rewrite <- find_key, Hf by done. done.
Qed.

Definition low_slot (parent n : Z) (k : Z * Z) : Prop := fst k = parent /\ 0 <= snd k < n.
#[export] Instance low_slot_dec parent n k : Decision (low_slot parent n k).
Proof. unfold low_slot. apply _. Defined.

(** Probing the slots of a block one after the other. *)
Lemma zero_loop c parent : tc_ok c ->
  let '(c', live) := foldl (fun '(c, live) slot =>
      match find (tc_is parent slot) (s_tc c) with
      | Some e => (beamfs_tc_drop c (tc_is parent slot), if te_child e =? 0 then live else live + 1)
      | None => (c, live)
      end) (c, 0) (upto BEAMFS_INDIRECT_PTRS) in
  tc_ok c' /\ tc_map c' = filter (fun '(k, _) => ~ of_parent parent k) (tc_map c) /\ s_tc_violations c' = s_tc_violations c /\
  (live = 0 <-> ~ map_Exists (fun k x => of_parent parent k /\ x <> 0) (tc_map c)).
Proof.
  intros Hc. set (f := fun '(c, live) slot => _).
  set (P := fun n (st : tcheck * Z) => tc_ok (fst st) /\
    tc_map (fst st) = filter (fun '(k, _) => ~ low_slot parent n k) (tc_map c) /\
    s_tc_violations (fst st) = s_tc_violations c /\ 0 <= snd st /\
    (snd st = 0 <-> forall k x, tc_map c !! k = Some x -> low_slot parent n k -> x = 0)).
  assert (G : P BEAMFS_INDIRECT_PTRS (foldl f (c, 0) (upto BEAMFS_INDIRECT_PTRS))).
  { apply (foldl_upto_ind f P); [done| |].
    - split_and!; [done| |done|done|split; [|done]; intros _ k x _ [_ ?]; lia].
      symmetry. apply map_filter_id. intros k x _ [_ ?]. lia.
    - intros n [c1 live] Hn (O1 & M1 & V1 & L1 & L2). cbn [fst snd] in *. unfold f.
      assert (Hlk : tc_map c1 !! (parent, n) = tc_map c !! (parent, n)).
      { rewrite M1, map_lookup_filter. destruct (tc_map c !! (parent, n)); [|done]. cbn. rewrite option_guard_True; [done|].
        intros [_ ?]. cbn in *. lia. }
      assert (Hkey : forall k, low_slot parent (n + 1) k <-> low_slot parent n k \/ k = (parent, n)).
      { intros [k1 k2]. unfold low_slot. cbn. split; [intros [-> ?]; destruct (decide (k2 = n)) as [->|]; [by right|left; split; lia]|].
        intros [?|[= -> ->]]; split; lia. }
      destruct (find _ (s_tc c1)) as [e|] eqn:Ef.
      + destruct (drop_ok c1 parent n e O1 Ef) as (O2 & M2 & H2). rewrite Hlk in H2. split_and!; [done| |done| |].
        * cbn [fst]. rewrite M2, M1. apply map_eq. intros k. destruct (decide (k = (parent, n))) as [Ekk|Ekk].
          -- subst k. rewrite lookup_delete_eq, map_lookup_filter, H2. cbn.
             rewrite option_guard_False; [done|]. intros H. apply H, Hkey. by right.
          -- rewrite lookup_delete_ne, !map_lookup_filter by done. destruct (tc_map c !! k) as [x|] eqn:Ek; cbn; [|done].
             destruct (decide (low_slot parent n k)) as [Hl|Hl].
             ++ rewrite !option_guard_False; [done|intros H; apply H, Hkey; by left|tauto].
             ++ rewrite !option_guard_True; [done|rewrite Hkey; intros [?|?]; [done|by subst k]|done].
        * cbn [snd]. destruct (te_child e =? 0); lia.
        * cbn [snd]. destruct (Z.eqb_spec (te_child e) 0) as [E0|E0].
          -- rewrite L2. split; [intros H k x Hk [Hl|Heq]%Hkey; [by apply (H k)|]; subst k; congruence|].
             intros H k x Hk Hl. apply (H k x Hk), Hkey. by left.
          -- split; [lia|]. intros H. destruct E0. apply (H _ _ H2), Hkey. by right.
      + assert (Hno : tc_map c !! (parent, n) = None).
        { rewrite <- Hlk. unfold tc_map. rewrite <- find_key, Ef by apply O1. done. }
        split_and!; [done| |done|done|].
        * cbn [fst]. rewrite M1. apply map_filter_ext. intros k x Hk. rewrite Hkey. split; [|tauto].
          intros Hl [?|?]; [done|]. subst k. congruence.
        * rewrite L2. split; [intros H k x Hk [Hl|Heq]%Hkey; [by apply (H k)|]; subst k; congruence|].
          intros H k x Hk Hl. apply (H k x Hk), Hkey. by left. }
  destruct (foldl f (c, 0) (upto BEAMFS_INDIRECT_PTRS)) as [c' live]. destruct G as (O1 & M1 & V1 & L1 & L2). cbn [fst snd] in *.
  split_and!; [done|done|done|]. rewrite L2. split.
  - intros H (k & x & Hk & Hp & Hx). by apply Hx, (H k).
  - intros H k x Hk Hl. destruct (decide (x = 0)); [done|]. destruct H. by exists k, x.
Qed.

Lemma forget_parent_ok c parent : tc_ok c ->
  let c' := beamfs_tc_forget_parent c parent in
  tc_ok c' /\ tc_map c' = filter (fun '(k, _) => ~ of_parent parent k) (tc_map c) /\ s_tc_violations c' = s_tc_violations c.
Proof.
  intros Hc. pose proof (zero_loop c parent Hc) as H. unfold beamfs_tc_forget_parent.
  assert (E : forall l live, foldl (fun c slot => match find (tc_is parent slot) (s_tc c) with
      | Some _ => beamfs_tc_drop c (tc_is parent slot) | None => c end) c l =
    fst (foldl (fun '(c, live) slot => match find (tc_is parent slot) (s_tc c) with
      | Some e => (beamfs_tc_drop c (tc_is parent slot), if te_child e =? 0 then live else live + 1)
      | None => (c, live) end) (c, live) l)).
  { clear. intros l. revert c. induction l as [|slot l IH]; intros c live; [done|]. cbn [foldl].
    destruct (find _ _); apply IH. }
  rewrite (E _ 0). destruct (foldl _ (c, 0) _) as [c' live]. by destruct H as (H1 & H2 & H3 & _).
Qed.

Lemma forget_child_ok c child : tc_ok c ->
  let c' := beamfs_tc_forget_child c child in
  tc_ok c' /\ tc_map c' = filter (fun '(_, x) => x = child -> child = 0) (tc_map c) /\ s_tc_violations c' = s_tc_violations c.
Proof.
  intros [N F E]. cbv zeta. unfold beamfs_tc_forget_child. set (dropped := fun e => te_hashed e && (te_child e =? child)).
  assert (Sl : forall l, sublist (List.filter (fun e => negb (dropped e)) l) l).
  { induction l as [|e l IH]; cbn [List.filter]; [done|]. destruct (negb (dropped e)); [by apply sublist_skip|by apply sublist_cons]. }
  destruct (sublist_ok _ _ (Sl (s_tc c)) N F) as [N' F'].
  assert (Hz : forall l, zlen (List.filter (fun e => negb (dropped e)) l) = zlen l - zlen (List.filter dropped l)).
  { induction l as [|e l IH]; [done|]. cbn [List.filter]. destruct (dropped e); cbn [negb]; rewrite !zlen_cons; lia. }
  split_and!; [split; [exact N'|exact F'|]| |done].
  - cbn [s_tc s_tc_entries]. rewrite E, Hz. unfold u32. by rewrite Zminus_mod_idemp_l.
  - apply map_eq. intros k. apply option_eq. intros x. rewrite map_lookup_filter_Some.
    unfold tc_map. cbn [s_tc]. change (fun e => negb (te_hashed e && (te_child e =? child))) with (fun e => negb (dropped e)). rewrite (tc_list_lookup _ k x N'), (tc_list_lookup _ k x N). split.
    + intros (e & He & Hk & Hx). apply list_elem_of_In, filter_In in He as [He Hd].
      assert (He' : e ∈ s_tc c) by (by apply list_elem_of_In). split; [by exists e|]. intros Hxc.
      rewrite list.Forall_forall in F. specialize (F e He'). unfold dropped in Hd. rewrite F, Hx, Hxc, Z.eqb_refl in Hd.
      destruct (Z.eqb_spec child 0); [done|]. by subst.
    + intros ((e & He & Hk & Hx) & Hc). exists e. split; [|done]. apply list_elem_of_In, filter_In. split; [by apply list_elem_of_In|].
      rewrite list.Forall_forall in F. specialize (F e He). unfold dropped. rewrite F, Hx.
      destruct (Z.eqb_spec x child) as [Exc|Exc]; [|by rewrite andb_false_r]. rewrite (Hc Exc) in Exc. by rewrite Exc.
Qed.

Lemma find_key_alter c parent slot : tc_ok c ->
  match find (tc_is parent slot) (s_tc c) with Some _ => <[(parent, slot) := 0]> (tc_map c) | None => tc_map c end =
  alter (fun _ => 0) (parent, slot) (tc_map c).
Proof.
  intros [N _ _]. pose proof (find_key (s_tc c) parent slot N) as Hk. fold (tc_map c) in Hk.
  apply map_eq. intros k. destruct (find _ _) as [e|]; cbn in Hk.
  - destruct (decide (k = (parent, slot))) as [->|Hne]; [by rewrite lookup_insert_eq, lookup_alter_eq, <- Hk|].
    by rewrite lookup_insert_ne, lookup_alter_ne.
  - destruct (decide (k = (parent, slot))) as [->|Hne]; [by rewrite lookup_alter_eq, <- Hk|]. by rewrite lookup_alter_ne.
Qed.

Lemma tc_step c op : tc_ok c ->
  let c' := tc_run c op in let '(m', bad) := tc_spec (tc_map c) op in
  tc_ok c' /\ tc_map c' = m' /\ s_tc_violations c' = if bad : bool then u32 (s_tc_violations c + 1) else s_tc_violations c.
Proof.
  intros Hc. destruct op as [ok ino parent slot old child|parent slot|parent|block]; cbn [tc_run tc_spec].
  - pose proof Hc as [N F E]. unfold beamfs_tc_store. pose proof (find_key (s_tc c) parent slot N) as Hk. fold (tc_map c) in Hk.
    destruct (first_set (s_tc c) parent slot (tc_set child ino) ltac:(done)) as (I1 & I2 & I3 & I4).
    assert (Ok : forall v, tc_ok (TCheck (tc_first (tc_is parent slot) (fun e => [tc_set child ino e]) (s_tc c)) (s_tc_entries c) v)).
    { intros v. split; cbn [s_tc s_tc_entries]; [by rewrite I1| |by rewrite I2]. apply I3; [done|].
      intros e. cbn. by destruct (child =? 0). }
    destruct (find (tc_is parent slot) (s_tc c)) as [e|]; cbn in Hk; rewrite <- Hk.
    + destruct (_ && _); (split; [apply Ok|]); (split; [exact I4|done]).
    + destruct ok; cbn [negb]; [|done]. split_and!; [|done|done]. split; cbn [s_tc s_tc_entries map].
      * apply list.NoDup_cons. split; [|done]. intros Hin. apply list_elem_of_fmap in Hin as (e & He & Hin).
        symmetry in Hk. apply eq_None_not_Some in Hk. apply Hk. exists (te_child e). apply tc_list_lookup; [done|].
        exists e. split; [done|]. split; [|done]. by rewrite <- He.
      * constructor; [cbn; by destruct (child =? 0)|done].
      * rewrite E, zlen_cons. unfold u32. rewrite Zplus_mod_idemp_l. f_equal. lia.
  - pose proof Hc as [N F E]. unfold beamfs_tc_clear.
    destruct (first_set (s_tc c) parent slot (fun e => TcEntry (te_parent e) (te_slot e) 0 (te_ino e) (te_hashed (beamfs_tc_unindex_child e))) ltac:(done))
      as (I1 & I2 & I3 & I4). split_and!; [|rewrite <- (find_key_alter c parent slot); [exact I4|done]|done].
    split; cbn [s_tc s_tc_entries]; [by rewrite I1|by apply I3|by rewrite I2].
  - pose proof (zero_loop c parent Hc) as H. unfold beamfs_tc_zeroed. destruct (foldl _ (c, 0) _) as [c' live].
    destruct H as (O1 & M1 & V1 & L). destruct (Z.eqb_spec live 0) as [E0|E0].
    + rewrite bool_decide_false by (by apply L). done.
    + rewrite bool_decide_true by (destruct (decide (map_Exists (fun k x => of_parent parent k /\ x <> 0) (tc_map c))); [done|]; by destruct E0; apply L).
      split; [destruct O1; by split|]. split; [done|]. cbn [s_tc_violations]. by rewrite V1.
  - destruct (forget_child_ok c block Hc) as (O1 & M1 & V1). destruct (forget_parent_ok _ block O1) as (O2 & M2 & V2).
    split; [done|]. split; [|by rewrite V2, V1]. rewrite M2, M1, map_filter_filter. done.
Qed.

Definition tc_spec_run (st : gmap (Z * Z) Z * Z) (op : tc_op) : gmap (Z * Z) Z * Z :=
  let '(m, bad) := tc_spec (fst st) op in (m, if bad then snd st + 1 else snd st).

(** C24: the tree checker refines a map from slots to the last child stored
    in them.  Whatever is stored, cleared, zeroed and freed, the table holds
    exactly that map, its entries are on the child index exactly while they
    name a block, s_tc_entries counts them, and s_tc_violations counts
    (modulo 2^32) exactly the stores that read 0 where the map holds a
    pointer and the blocks zeroed while a slot of theirs holds one. *)
Theorem treecheck_refines ops :
  let c := foldl tc_run beamfs_tc_init ops in
  let '(m, n) := foldl tc_spec_run (∅, 0) ops in
  tc_ok c /\ tc_map c = m /\ s_tc_violations c = u32 n.
Proof.
  cbv zeta. induction ops as [|op ops IH] using rev_ind; [split_and!; [|done|done]; split; [constructor|constructor|done]|].
  rewrite !foldl_app. cbn [foldl]. set (c := foldl tc_run beamfs_tc_init ops) in *.
  destruct (foldl tc_spec_run (∅, 0) ops) as [m n]. destruct IH as (O & <- & V). unfold tc_spec_run. cbn [fst snd].
  pose proof (tc_step c op O) as H. destruct (tc_spec (tc_map c) op) as [m' bad]. destruct H as (H1 & H2 & H3).
  split; [done|]. split; [done|]. rewrite H3, V. destruct bad; [|done]. unfold u32. by rewrite Zplus_mod_idemp_l.
Qed.
