(* ===== verification/AllocHealth.v ===== *)
(** * The allocator on buffers without write errors

    Nothing but a failed write makes the allocator fail the volume. *)

From stdpp Require Import gmap.
From S2P Require Import Prelude Format Crc RsInit GF RsTheory RsCode RsCorrect RsDecode RsLib Edac EdacWord EdacBlock EdacLayouts EdacTheorems Dirent Super SuperTheorems Alloc AllocBits AllocImage AllocInv AllocTheorems.

(** No write of the superblock or of a bitmap block has failed. *)
Definition healthy (s : sbi) : Prop :=
  b_uptodate (s_sbh (s_super s)) = true /\
  forall bhs k bh, s_bitmap_blkhs s = Some bhs -> nth k bhs None = Some bh -> b_uptodate bh = true.

Section healthy.
Context `{RL : !RsLib} `{CL : !CrcLib} (t : rs_tables) (cpu : nat).

Lemma healthy_ext s s' :
  s_bitmap_blkhs s' = s_bitmap_blkhs s -> s_super s' = s_super s -> healthy s -> healthy s' /\ beamfs_failed s' = beamfs_failed s.
Proof. intros E1 E2 [H1 H2]. unfold healthy, beamfs_failed. rewrite E1, E2. done. Qed.

Lemma dirty_super_healthy sp : b_uptodate (s_sbh sp) = true ->
  b_uptodate (s_sbh (beamfs_dirty_super t cpu sp)) = true /\ s_failed (beamfs_dirty_super t cpu sp) = s_failed sp.
Proof.
  intros H. unfold beamfs_dirty_super, beamfs_dirty_super_now. cbn [s_failed clear_needs_encode s_sbh].
  destruct (s_failed sp) eqn:F; [done|]. rewrite H. done.
Qed.

Lemma sb_counts_healthy s : healthy s -> healthy (sb_counts t cpu s) /\ beamfs_failed (sb_counts t cpu s) = beamfs_failed s.
Proof.
  intros [H1 H2]. unfold sb_counts, healthy, beamfs_failed. cbn [with_super s_super s_bitmap_blkhs].
  destruct (dirty_super_healthy (set_sb (s_super s) (put_le64 (s_beamfs_sb (s_super s)) off_s_free_blocks (s_free_blocks s))) H1) as [D1 D2].
  done.
Qed.

Lemma write_healthy s bit owner : healthy s ->
  healthy (snd (beamfs_write_bitmap_block t cpu s bit owner)) /\
  beamfs_failed (snd (beamfs_write_bitmap_block t cpu s bit owner)) = beamfs_failed s.
Proof.
  intros H. pose proof H as [H1 H2]. unfold beamfs_write_bitmap_block. destruct (beamfs_failed s) eqn:F; [done|].
  destruct (s_bitmap_blkhs s) as [bhs|] eqn:E1; [|done]. destruct (s_block_bitmap s) as [bits|]; [|done].
  destruct (_ <=? bit); [done|]. destruct (_ <=? bit / _); [done|].
  destruct (nth _ bhs None) as [bh|] eqn:E2; [|done]. rewrite (H2 bhs _ bh eq_refl E2). cbn [negb snd].
  set (s1 := with_buffers _ _ _). destruct (dirty_owner_only s1 owner) as [E _].
  assert (G : healthy s1).
  { split; [done|]. intros bhs' k bh'. cbn [s1 with_buffers s_bitmap_blkhs]. intros [= <-] Hk.
    destruct (decide (k = Z.to_nat (bit / BEAMFS_BITS_PER_BITMAP_BLOCK))) as [->|Hne].
    - rewrite nth_insert_eq in Hk; [by injection Hk as <-|]. destruct (decide (Z.to_nat (bit / BEAMFS_BITS_PER_BITMAP_BLOCK) < length bhs)%nat); [done|].
      rewrite nth_overflow in E2 by lia. done.
    - rewrite nth_insert_ne in Hk by done. by apply (H2 bhs k). }
  rewrite E, <- F. by apply (healthy_ext s1).
Qed.

Lemma commit_healthy s goal bits free owner d fg bit : healthy s ->
  healthy (commit t cpu s goal bits free owner d fg bit) /\ beamfs_failed (commit t cpu s goal bits free owner d fg bit) = beamfs_failed s.
Proof.
  intros H. unfold commit. set (s2 := with_free_blocks _ free). assert (H2 : healthy s2) by exact H.
  destruct (sb_counts_healthy s2 H2) as [H3 F3]. set (s3 := sb_counts t cpu s2) in *.
  destruct (add_bytes_only s3 owner d) as [E4 _]. set (s5 := with_forgotten _ fg).
  destruct (healthy_ext s3 s5) as [H5 F5]; [unfold s5; by rewrite E4..|done|].
  destruct (write_healthy s5 bit owner H5) as [H6 F6]. split; [done|]. rewrite F6, F5, F3. done.
Qed.

Lemma alloc_healthy s bits owner : alloc_inv s bits -> healthy s ->
  healthy (snd (beamfs_alloc_block t cpu s owner)) /\
  beamfs_failed (snd (beamfs_alloc_block t cpu s owner)) = beamfs_failed s.
Proof.
  intros Hi H. destruct (beamfs_failed s) eqn:F; [unfold beamfs_alloc_block; rewrite F; done|].
  destruct (decide (s_free_blocks s = 0)) as [E0|E0].
  { unfold beamfs_alloc_block. rewrite F, (ai_bits _ _ Hi). destruct (Z.eqb_spec (s_free_blocks s) 0); [|done]. done. }
  rewrite (alloc_block_eq t cpu s bits owner (ai_bits _ _ Hi) F E0).
  pose proof (pick_spec s bits owner ltac:(destruct (ai_for _ _ Hi); lia) (ai_goal _ _ Hi) (ai_windows _ _ Hi)) as P.
  destruct (pick s bits owner) as [bit s1]. destruct P as (_ & _ & _ & (w & m & ->) & _).
  destruct (_ <=? bit); [done|]. cbv zeta. cbn [snd]. rewrite <- F. apply (commit_healthy (with_windows s w m)). exact H.
Qed.

Lemma free_healthy s block owner : healthy s ->
  healthy (beamfs_free_block t cpu s block owner) /\
  beamfs_failed (beamfs_free_block t cpu s block owner) = beamfs_failed s.
Proof.
  intros H. unfold beamfs_free_block. destruct (beamfs_failed s) eqn:F; [done|]. destruct (block <? _); [done|].
  destruct (_ <=? _); [done|]. destruct (s_block_bitmap s) as [bits|]; [|done]. destruct (test_bit _ _); [done|].
  set (s1 := with_free_blocks _ _). destruct (sb_counts_healthy s1 H) as [H3 F3]. set (s3 := sb_counts t cpu s1) in *.
  destruct (add_bytes_only s3 owner (- BEAMFS_BLOCK_SIZE)) as [E4 _]. set (s5 := with_forgotten _ _).
  destruct (healthy_ext s3 s5) as [H5 F5]; [unfold s5; by rewrite E4..|done|].
  destruct (write_healthy s5 (block - s_data_start s) owner H5) as [H6 F6]. split; [exact H6|]. rewrite <- F, F6, F5, F3. done.
Qed.
End healthy.

(** ** Inode numbers (alloc.c)

    The bitmap of inode numbers is in memory only: bit [n] is set while
    inode [n] is free, bits 0 and 1 never.  Taking a number and giving one
    back keep the count, its mirror in the superblock, and everything the
    block allocator relies on. *)

(** What the block operations leave of the inode numbers. *)
Definition inums (s : sbi) : option (list Z) * Z * Z := (s_inode_bitmap s, s_ninodes s, s_free_inodes s).

Record inode_inv (s : sbi) (ib : list Z) : Prop := {
  ii_bits : s_inode_bitmap s = Some ib;
  ii_for : bits_for (s_ninodes s + 1) ib;
  ii_first : 1 <= s_ninodes s < 2 ^ 64 - 1;
  ii_low : test_bit ib 0 = false /\ test_bit ib 1 = false;
  ii_free : s_free_inodes s = free_count ib (s_ninodes s + 1);
  ii_mirror : get_le64 (s_beamfs_sb (s_super s)) off_s_free_inodes = s_free_inodes s }.

Section inodes.
Context `{RL : !RsLib} `{CL : !CrcLib} (t : rs_tables) (cpu : nat).

Lemma write_inums s bit owner : inums (snd (beamfs_write_bitmap_block t cpu s bit owner)) = inums s.
Proof.
  unfold beamfs_write_bitmap_block.
  repeat match goal with
  | |- context [if ?c then _ else _] => destruct c
  | |- context [match ?c with _ => _ end] => destruct c; try done
  end; cbn [snd]; try done.
  all: match goal with |- context [dirty_owner ?x _] => destruct (dirty_owner_only x owner) as [E _] end; by rewrite E.
Qed.

Lemma commit_inums s goal bits free owner d fg bit : inums (commit t cpu s goal bits free owner d fg bit) = inums s.
Proof.
  unfold commit. set (s2 := with_free_blocks _ free). assert (E2 : inums s2 = inums s) by done. rewrite <- E2.
  assert (E3 : inums (sb_counts t cpu s2) = inums s2) by done. rewrite <- E3. set (s3 := sb_counts t cpu s2).
  destruct (add_bytes_only s3 owner d) as [E4 _]. set (s5 := with_forgotten _ fg).
  assert (E5 : inums s5 = inums s3) by (unfold s5; by rewrite E4). rewrite <- E5. apply write_inums.
Qed.

Lemma alloc_block_inums s bits owner : alloc_inv s bits -> inums (snd (beamfs_alloc_block t cpu s owner)) = inums s.
Proof.
  intros Hi. destruct (beamfs_failed s) eqn:F; [unfold beamfs_alloc_block; by rewrite F|].
  destruct (decide (s_free_blocks s = 0)) as [E0|E0].
  { unfold beamfs_alloc_block. rewrite F, (ai_bits _ _ Hi). by destruct (Z.eqb_spec (s_free_blocks s) 0). }
  rewrite (alloc_block_eq t cpu s bits owner (ai_bits _ _ Hi) F E0).
  pose proof (pick_spec s bits owner ltac:(destruct (ai_for _ _ Hi); lia) (ai_goal _ _ Hi) (ai_windows _ _ Hi)) as P.
  destruct (pick s bits owner) as [bit s1]. destruct P as (_ & _ & _ & (w & m & ->) & _).
  destruct (_ <=? bit); [done|]. cbv zeta. cbn [snd]. apply (commit_inums (with_windows s w m)).
Qed.

Lemma free_block_inums s block owner : inums (beamfs_free_block t cpu s block owner) = inums s.
Proof.
  unfold beamfs_free_block. destruct (beamfs_failed s); [done|]. destruct (block <? _); [done|].
  destruct (_ <=? _); [done|]. destruct (s_block_bitmap s) as [bits|]; [|done]. destruct (test_bit _ _); [done|].
  set (s1 := with_free_blocks _ _). assert (E1 : inums s1 = inums s) by done. rewrite <- E1.
  assert (E3 : inums (sb_counts t cpu s1) = inums s1) by done. rewrite <- E3. set (s3 := sb_counts t cpu s1).
  destruct (add_bytes_only s3 owner (- BEAMFS_BLOCK_SIZE)) as [E4 _]. set (s5 := with_forgotten _ _).
  assert (E5 : inums s5 = inums s3) by (unfold s5; by rewrite E4). rewrite <- E5. apply write_inums.
Qed.

(** ** The count of free inodes in the superblock *)

(** The blocks see nothing of a change of the inode numbers. *)
Definition renumber (s : sbi) (ib : list Z) (n : Z) : sbi := sb_icounts t cpu (with_free_inodes (with_ibits s (Some ib)) n).

Lemma renumber_blocks s bits ib n : alloc_inv s bits -> alloc_inv (renumber s ib n) bits /\ same_blocks s (renumber s ib n).
Proof.
  intros [A1 A2 A3 A4 A5 A6 A7 A8 [A9 A10]]. split; [|by unfold same_blocks]. unfold renumber, sb_icounts. split; try done.
  - apply (image_ok_ext s); [done..| |done]. unfold beamfs_failed. cbn [with_super s_super]. intros F%dirty_super_failed. exact F.
  - unfold sb_mirrors. cbn [with_super s_super s_free_blocks with_free_inodes with_ibits s_free_inodes]. set (f := put_le64 _ _ _).
    assert (Hf : zlen f = 4096) by (unfold f, put_le64; change off_s_free_inodes with 32; rewrite zlen_splice; rewrite ?zlen_le_bytes; lia).
    destruct (dirty_super_sb t cpu (set_sb (s_super s) f) Hf) as [Hl Hg]. split; [done|]. rewrite <- A10. unfold get_le64. f_equal.
    change off_s_free_blocks with 16. apply bytes_ext; [rewrite !zlen_slice; lia|]. rewrite zlen_slice by lia. intros a Ha.
    rewrite !getb_slice by lia. rewrite Hg by lia. cbn [set_sb s_beamfs_sb]. unfold f, put_le64. change off_s_free_inodes with 32.
    rewrite getb_splice_out; rewrite ?zlen_le_bytes; lia || done.
Qed.

Lemma renumber_healthy s ib n : healthy s -> healthy (renumber s ib n) /\ beamfs_failed (renumber s ib n) = beamfs_failed s.
Proof.
  intros [H1 H2]. unfold renumber, sb_icounts, healthy, beamfs_failed. cbn [with_super s_super s_bitmap_blkhs with_free_inodes with_ibits s_free_inodes].
  by destruct (dirty_super_healthy t cpu (set_sb (s_super s) (put_le64 (s_beamfs_sb (s_super s)) off_s_free_inodes n)) H1) as [D1 D2].
Qed.

Lemma renumber_inv s ib ib' n : inode_inv s ib -> zlen (s_beamfs_sb (s_super s)) = 4096 -> bits_for (s_ninodes s + 1) ib' ->
  test_bit ib' 0 = false /\ test_bit ib' 1 = false -> n = free_count ib' (s_ninodes s + 1) -> 0 <= n < 2 ^ 64 -> inode_inv (renumber s ib' n) ib'.
Proof.
  intros [I1 I2 I3 I4 I5 I6] Hz Hb Hl Hn Hr. unfold renumber, sb_icounts. split; try done.
  cbn [with_super s_super s_free_inodes with_free_inodes with_ibits]. set (f := put_le64 _ _ _).
  assert (Hf : zlen f = 4096) by (unfold f, put_le64; change off_s_free_inodes with 32; rewrite zlen_splice; rewrite ?zlen_le_bytes; lia).
  destruct (dirty_super_sb t cpu (set_sb (s_super s) f) Hf) as [Hl' Hg]. transitivity (get_le64 f off_s_free_inodes).
  - unfold get_le64. f_equal. change off_s_free_inodes with 32. apply bytes_ext; [rewrite !zlen_slice; lia|]. rewrite zlen_slice by lia. intros a Ha.
    rewrite !getb_slice by lia. by apply Hg; lia.
  - apply get_put_le64; change off_s_free_inodes with 32; lia.
Qed.

(** ** Taking a number *)

(** The number is the first free one; on a volume that failed, or when none
    is free, it is 0 and nothing changes. *)
Lemma alloc_inode_spec s bits ib : alloc_inv s bits -> inode_inv s ib ->
  let '(ino, s') := beamfs_alloc_inode_num t cpu s in
  ino = 0 /\ s' = s /\ (beamfs_failed s = true \/ forall n, 2 <= n <= s_ninodes s -> test_bit ib n = false) \/
  2 <= ino <= s_ninodes s /\ test_bit ib ino = true /\ (forall n, 2 <= n < ino -> test_bit ib n = false) /\
  s' = renumber s (clear_bit ib ino) (s_free_inodes s - 1) /\ inode_inv s' (clear_bit ib ino).
Proof.
  intros A I. pose proof I as [I1 I2 I3 I4 I5 I6]. unfold beamfs_alloc_inode_num. destruct (beamfs_failed s) eqn:F; [left; tauto|]. rewrite I1.
  pose proof (free_count_range ib (s_ninodes s + 1) ltac:(lia)) as Hc.
  destruct (Z.eqb_spec (s_free_inodes s) 0) as [E0|E0].
  { left. split_and!; [done|done|]. right. intros n Hn. destruct (test_bit ib n) eqn:T; [|done]. exfalso. rewrite I5 in E0.
    apply (free_count_pos ib (s_ninodes s + 1)); [|done]. exists n. split; [lia|done]. }
  destruct (find_next_bit_spec ib (s_ninodes s + 1) 2 ltac:(lia)) as (R & Tb & Nb). set (bit := find_next_bit _ _ _) in *.
  destruct (Z.ltb_spec (s_ninodes s) bit) as [L|L].
  { left. split_and!; [done|done|]. right. intros n Hn. apply Nb. lia. }
  right. specialize (Tb ltac:(lia)). pose proof (in_bits_for _ _ bit I2 ltac:(lia)) as Hin.
  pose proof (free_count_clear ib (s_ninodes s + 1) bit ltac:(lia) Hin Tb) as Ec.
  assert (Eu : u64 (s_free_inodes s - 1) = s_free_inodes s - 1) by (unfold u64; rewrite Z.mod_small; lia).
  assert (Hb : bits_for (s_ninodes s + 1) (clear_bit ib bit)).
  { destruct I2 as [B1 B2]. split; [unfold clear_bit; apply bytes_setb; [done|]; by apply is_byte_clear|]. unfold clear_bit. by rewrite zlen_setb. }
  split_and!; [lia|lia|done|intros n Hn; apply Nb; lia|unfold renumber; cbn [with_ibits s_free_inodes]; by rewrite Eu|]. cbn [with_ibits s_free_inodes with_free_inodes]. rewrite Eu.
  apply (renumber_inv s ib); [done|apply A|done| |lia|lia]. destruct I4 as [T0 T1]. rewrite !test_clear_bit by (done || lia).
  rewrite T0, T1. by do 2 case_decide.
Qed.

(** A volume that failed gives no number. *)
Lemma alloc_inum_failed s : beamfs_failed s = true -> fst (beamfs_alloc_inode_num t cpu s) = 0.
Proof. intros F. unfold beamfs_alloc_inode_num. by rewrite F. Qed.

(** ** Giving a number back *)

Lemma free_inode_spec s bits ib ino : alloc_inv s bits -> inode_inv s ib ->
  let s' := beamfs_free_inode_num t cpu s ino in
  s' = s /\ (beamfs_ino_is_reserved ino = true \/ s_ninodes s < ino \/ test_bit ib ino = true) \/
  2 <= ino <= s_ninodes s /\ test_bit ib ino = false /\
  s' = renumber s (set_bit ib ino) (s_free_inodes s + 1) /\ inode_inv s' (set_bit ib ino).
Proof.
  intros A I. pose proof I as [I1 I2 I3 I4 I5 I6]. unfold beamfs_free_inode_num. destruct (beamfs_ino_is_reserved ino) eqn:Er; cbn [orb]; [left; tauto|].
  destruct (Z.ltb_spec (s_ninodes s) ino) as [L|L]; [left; tauto|]. rewrite I1. destruct (test_bit ib ino) eqn:T; [left; tauto|]. right.
  assert (Hi : 2 <= ino) by (unfold beamfs_ino_is_reserved, BEAMFS_FIRST_USER_INO in Er; lia).
  pose proof (in_bits_for _ _ ino I2 ltac:(lia)) as Hin. pose proof (free_count_set ib (s_ninodes s + 1) ino ltac:(lia) Hin T) as Ec.
  pose proof (free_count_range (set_bit ib ino) (s_ninodes s + 1) ltac:(lia)) as Hc.
  assert (Eu : u64 (s_free_inodes s + 1) = s_free_inodes s + 1) by (unfold u64; rewrite Z.mod_small; lia).
  assert (Hb : bits_for (s_ninodes s + 1) (set_bit ib ino)).
  { destruct I2 as [B1 B2]. split; [unfold set_bit; apply bytes_setb; [done|]; apply is_byte_set; [lia|done]|]. unfold set_bit. by rewrite zlen_setb. }
  split_and!; [lia|lia|done|unfold renumber; cbn [with_ibits s_free_inodes]; by rewrite Eu|]. cbn [with_ibits s_free_inodes with_free_inodes]. rewrite Eu.
  apply (renumber_inv s ib); [done|apply A|done| |lia|lia]. destruct I4 as [T0 T1]. rewrite !test_set_bit by (done || lia).
  by rewrite !decide_False by lia.
Qed.
End inodes.
