(* ===== verification/IndTheorems.v ===== *)
(** * Correctness of the parity of indirect blocks *)

From stdpp Require Import gmap.
From S2P Require Import Prelude Format Crc RsInit GF RsTheory RsCode RsCorrect RsDecode RsLib Edac EdacWord EdacBlock EdacLayouts EdacTheorems Dirent Super Alloc AllocBits AllocImage IndParity IndRegion.

Lemma u64_small x : 0 <= x < 2 ^ 64 -> u64 x = x.
Proof. apply Z.mod_small. Qed.
Lemma u32_small x : 0 <= x < 2 ^ 32 -> u32 x = x.
Proof. apply Z.mod_small. Qed.

Lemma bytes_of_getb l : (forall i, 0 <= i < zlen l -> is_byte (getb l i)) -> bytes l.
Proof.
  intros H. rewrite (list_map_upto l). apply Forall_map, Forall_forall.
  intros i Hi%list_elem_of_In%elem_of_upto. by apply H.
Qed.

Lemma scattered_bytes img src off stride img' :
  bytes img -> bytes src -> scattered img src off stride img' -> bytes img'.
Proof.
  intros B Bs [Hl Hin Hout]. apply bytes_of_getb. intros a Ha.
  destruct (decide (Exists (fun j => pos (off + j) = a) (upto stride))) as [E|E].
  - apply Exists_exists in E as (j & Hj%list_elem_of_In%elem_of_upto & <-). rewrite Hin by done. auto with bytes.
  - rewrite Hout; [auto with bytes|lia|]. intros j Hj Ej. apply E, Exists_exists. exists j.
    split; [by apply list_elem_of_In, elem_of_upto|done].
Qed.

(** ** Geometry *)

Definition stride_of (v : pvol) : Z := ind_parity_stride (s_ind_parity_mode v).
Definition slots_of (v : pvol) : Z := ind_parity_slots (s_ind_parity_mode v).

(** The region holds a slot for block [phys]. *)
Definition covered_by (v : pvol) (phys : Z) : Prop :=
  pv_data_start v <= phys < pv_data_start v + s_ind_parity_len v * slots_of v.

Record geometry_ok (v : pvol) : Prop := {
  go_mode : s_ind_parity_mode v = BEAMFS_IND_PARITY_CRC \/ s_ind_parity_mode v = BEAMFS_IND_PARITY_RS;
  go_blk : 0 < s_ind_parity_blk v;
  go_len : 0 <= s_ind_parity_len v;
  go_width : s_ind_parity_blk v + s_ind_parity_len v < 2 ^ 64 }.

Definition slot_index (v : pvol) (phys : Z) : Z := phys - pv_data_start v.
Definition slot_block (v : pvol) (phys : Z) : Z := s_ind_parity_blk v + slot_index v phys / slots_of v.
Definition slot_offset (v : pvol) (phys : Z) : Z := slot_index v phys mod slots_of v * stride_of v.

Lemma mode_facts v :
  geometry_ok v -> 0 < stride_of v <= 256 /\ 0 < slots_of v <= 59 /\ slots_of v * stride_of v <= 3824 /\
  stride_of v = 16 * piece_len (s_ind_parity_mode v).
Proof. intros [[E|E] _ _ _]; unfold stride_of, slots_of; rewrite E; vm_compute; split_and!; congruence. Qed.

Lemma slot_covered v phys :
  geometry_ok v -> covered_by v phys ->
  ind_parity_slot v phys = Some (slot_block v phys, slot_offset v phys, stride_of v) /\
  s_ind_parity_blk v <= slot_block v phys < s_ind_parity_blk v + s_ind_parity_len v /\
  0 <= slot_offset v phys /\ slot_offset v phys + stride_of v <= 3824.
Proof.
  intros G [C1 C2]. destruct (mode_facts v G) as (S1 & S2 & S3 & _). destruct G as [_ Gb Gl Gw].
  unfold ind_parity_slot. fold (stride_of v) (slots_of v) (slot_index v phys).
  assert (Hidx : 0 <= slot_index v phys < s_ind_parity_len v * slots_of v) by (unfold slot_index; lia).
  pose proof (Z.div_mod (slot_index v phys) (slots_of v) ltac:(lia)) as Dm.
  pose proof (Z.mod_pos_bound (slot_index v phys) (slots_of v) ltac:(lia)) as Mb.
  assert (0 <= slot_index v phys / slots_of v) by (apply Z.div_pos; lia).
  assert (slot_index v phys / slots_of v < s_ind_parity_len v) by (apply Z.div_lt_upper_bound; lia).
  assert (Ho : 0 <= slot_offset v phys /\ slot_offset v phys + stride_of v <= 3824) by (unfold slot_offset; nia).
  assert (Hb : s_ind_parity_blk v <= slot_block v phys < s_ind_parity_blk v + s_ind_parity_len v)
    by (unfold slot_block; lia).
  split; [|done]. cbv zeta. fold (slot_block v phys) (slot_offset v phys).
  rewrite (u64_small (slot_block v phys)), (u64_small (s_ind_parity_blk v + _)), (u32_small (slot_offset v phys)) by lia.
  destruct (Z.eqb_spec (stride_of v) 0); [lia|]. destruct (Z.eqb_spec (slots_of v) 0); [lia|].
  destruct (Z.eqb_spec (s_ind_parity_blk v) 0); [lia|]. cbn [orb].
  destruct (Z.ltb_spec phys (pv_data_start v)); [lia|]. change BEAMFS_DATA_INLINE_BYTES with 3824.
  destruct (Z.ltb_spec 3824 (slot_offset v phys + stride_of v)); [lia|].
  destruct (Z.leb_spec (s_ind_parity_blk v + s_ind_parity_len v) (slot_block v phys)); [lia|]. done.
Qed.

(** Two blocks' slots are in different region blocks or apart. *)
Lemma slots_apart v p q :
  geometry_ok v -> covered_by v p -> covered_by v q -> p <> q -> slot_block v p = slot_block v q ->
  slot_offset v q + stride_of v <= slot_offset v p \/ slot_offset v p + stride_of v <= slot_offset v q.
Proof.
  intros G [P1 P2] [Q1 Q2] Hne E. destruct (mode_facts v G) as (S1 & S2 & _).
  unfold slot_block in E. unfold slot_offset.
  pose proof (Z.div_mod (slot_index v p) (slots_of v) ltac:(lia)).
  pose proof (Z.div_mod (slot_index v q) (slots_of v) ltac:(lia)).
  assert (slot_index v p mod slots_of v <> slot_index v q mod slots_of v) by (unfold slot_index in *; nia).
  nia.
Qed.

(** ** Invariant *)

Record parity_ok (v : pvol) : Prop := {
  po_geometry : geometry_ok v;
  po_gen : 0 <= s_ind_parity_gen v;
  po_region : forall r, s_ind_parity_blk v <= r < s_ind_parity_blk v + s_ind_parity_len v ->
    is_Some (pv_buffers v !! r) }.

Section theorems.
Context `{RL : !RsLib} `{RS : !RsLibSpec} `{CL : !CrcLib} (t : rs_tables).

Definition buffers_ok (v : pvol) : Prop := forall r b, pv_buffers v !! r = Some b -> region_ok b.

(** Every entry of the current generation is the block it names. *)
Definition cache_good (v : pvol) (caches : list ind_region_cache) : Prop :=
  forall c, c ∈ caches -> c_gen c <= s_ind_parity_gen v /\
    forall d b, c_data c = Some d -> c_gen c = s_ind_parity_gen v -> pv_buffers v !! c_blocknr c = Some b ->
      c_ret c = 0 /\ d = b.

Lemma cache_good_ok cpu v caches :
  ctrl_here t cpu = true -> buffers_ok v -> cache_good v caches <-> cache_ok t cpu v caches.
Proof.
  intros Hctrl Hb. split; intros H c Hc; destruct (H c Hc) as [H1 H2]; (split; [done|]); intros d b E1 E2 E3;
    pose proof (region_decode_ok t cpu Hctrl (c_blocknr c) b (Hb _ _ E3)) as Er.
  - destruct (H2 d b E1 E2 E3) as [-> ->]. by exists [].
  - destruct (H2 d b E1 E2 E3) as (calls & E). rewrite Er in E. by injection E as <- <- <-.
Qed.

Definition slot_at (v : pvol) (phys : Z) : option (list Z) :=
  b ← pv_buffers v !! slot_block v phys; Some (slot_bytes b (slot_offset v phys) (stride_of v)).

(** Same geometry. *)
Definition same_geometry (v v' : pvol) : Prop :=
  s_ind_parity_mode v' = s_ind_parity_mode v /\ s_ind_parity_blk v' = s_ind_parity_blk v /\
  s_ind_parity_len v' = s_ind_parity_len v /\ pv_data_start v' = pv_data_start v.

Lemma update_spec cpu env caches v phys block inode :
  ctrl_here t cpu = true -> (cpu < length caches)%nat -> pe_scratch env = true ->
  parity_ok v -> buffers_ok v -> cache_good v caches -> covered_by v phys ->
  s_ind_parity_gen v + 1 < 2 ^ 64 -> zlen block = 4096 -> bytes block ->
  let '(caches', v') := beamfs_ind_parity_update t cpu env caches v phys block inode in
  parity_ok v' /\ buffers_ok v' /\ cache_good v' caches' /\ length caches' = length caches /\
  same_geometry v v' /\ s_ind_parity_gen v' = s_ind_parity_gen v + 1 /\
  slot_at v' phys = Some (slot_value (s_ind_parity_mode v) block) /\
  forall q, covered_by v q -> q <> phys -> slot_at v' q = slot_at v q.
Proof.
  intros Hctrl Hcpu Hs Hv Hb Hc Hcov Hgen Hz B. unfold beamfs_ind_parity_update.
  pose proof (po_geometry _ Hv) as G. destruct (slot_covered v phys G Hcov) as (-> & Hr & Ho1 & Ho2).
  destruct (mode_facts v G) as (S1 & S2 & S3 & S4).
  change BEAMFS_IND_PARITY_RS_BYTES with 256. destruct (Z.ltb_spec 256 (stride_of v)); [lia|].
  destruct (po_region _ Hv _ Hr) as (pbh & Ep). rewrite Ep, Hs. cbn [negb].
  destruct (region_read_spec t cpu env v caches (slot_block v phys) pbh Hcpu) as (caches' & calls & -> & Hc' & Hl');
    [by apply cache_good_ok|done|].
  pose proof (Hb _ _ Ep) as Hok. rewrite region_decode_ok by done. cbn [fst]. change (0 =? - EUCLEAN) with false. cbv iota.
  pose proof (en_len _ _ _ Hok) as Zp. pose proof (en_bytes _ _ _ Hok) as Bp. cbn in Zp.
  change (s_ind_parity_mode (add_calls v calls)) with (s_ind_parity_mode v).
  rewrite slot_gather_eq by lia.
  destruct (slot_fill_eq t cpu Hctrl (s_ind_parity_mode v) block (slot_bytes pbh (slot_offset v phys) (stride_of v)) Hz B)
    as (-> & Hlv & _); [rewrite zlen_slot_bytes; lia|].
  set (sv := slot_value (s_ind_parity_mode v) block) in *.
  pose proof (slot_scatter_spec pbh sv (slot_offset v phys) (stride_of v) Zp ltac:(lia) Ho1 Ho2) as Sc.
  set (scr := ind_slot_scatter pbh (slot_offset v phys) (stride_of v) sv) in *.
  assert (Bscr : bytes scr) by (apply (scattered_bytes pbh sv (slot_offset v phys) (stride_of v));
    [done|by apply bytes_slot_value|done]).
  assert (Zscr : zlen scr = 4096) by (rewrite (sc_len _ _ _ _ _ Sc); done).
  destruct (region_write_spec t cpu Hctrl pbh scr Zp Bp Zscr Bscr) as [Hw Hwp].
  set (w := ind_region_write t cpu pbh scr) in *.
  assert (Hslot : forall o n, 0 <= o -> o + n <= 3824 -> slot_bytes w o n = slot_bytes scr o n).
  { intros o n Ho Hn. unfold slot_bytes. apply map_ext_in. intros j Hj%list_elem_of_In%elem_of_upto. apply Hwp. lia. }
  set (v' := mark_shared _ _ _).
  assert (Ebuf : pv_buffers v' = <[slot_block v phys := w]> (pv_buffers v)) by done.
  assert (Egen : s_ind_parity_gen v' = s_ind_parity_gen v + 1).
  { change (u64 (s_ind_parity_gen v + 1) = s_ind_parity_gen v + 1). apply u64_small. destruct Hv. lia. }
  assert (Hat : forall q, slot_at v' q = (b ← (<[slot_block v phys := w]> (pv_buffers v)) !! slot_block v q;
            Some (slot_bytes b (slot_offset v q) (stride_of v)))) by done.
  split_and!.
  - destruct Hv as [V1 V2 V3]. split; [by destruct V1|lia|]. intros r Hr'. rewrite Ebuf, lookup_insert_is_Some'.
    right. by apply V3.
  - intros r b Hrb. rewrite Ebuf in Hrb. apply lookup_insert_Some in Hrb as [[_ <-]|[_ Hrb]]; [done|by apply (Hb r)].
  - intros c Hin. apply (cache_good_ok cpu v caches' Hctrl Hb) in Hc'. destruct (Hc' c Hin) as [L _].
    split; [lia|]. intros d b _ Eg. lia.
  - done.
  - done.
  - done.
  - rewrite Hat, lookup_insert_eq. cbn. f_equal. rewrite Hslot by lia.
    apply (scattered_same pbh); [lia|lia|done].
  - intros q Hq Hne. rewrite Hat. unfold slot_at. destruct (slot_covered v q G Hq) as (_ & _ & Q1 & Q2).
    destruct (decide (slot_block v phys = slot_block v q)) as [E|E].
    + rewrite <- E, lookup_insert_eq, Ep. cbn. f_equal. rewrite Hslot by lia.
      apply (scattered_other pbh sv (slot_offset v phys) (stride_of v)); [done|done|done| |done].
      by apply slots_apart.
    + by rewrite lookup_insert_ne.
Qed.

Lemma verify_spec cpu env caches v phys block :
  ctrl_here t cpu = true -> (cpu < length caches)%nat ->
  parity_ok v -> buffers_ok v -> cache_good v caches -> covered_by v phys ->
  zlen block = 4096 -> bytes block -> slot_at v phys = Some (slot_value (s_ind_parity_mode v) block) ->
  fst (fst (beamfs_ind_parity_verify_medium t cpu env caches v phys block)) = 0.
Proof.
  intros Hctrl Hcpu Hv Hb Hc Hcov Hz B Hat. unfold beamfs_ind_parity_verify_medium, beamfs_ind_parity_verify.
  set (v1 := set_verified v _). change (ind_parity_slot v1 phys) with (ind_parity_slot v phys).
  pose proof (po_geometry _ Hv) as G. destruct (slot_covered v phys G Hcov) as (-> & Hr & Ho1 & Ho2).
  destruct (bool_decide _); [done|]. change (pv_buffers v1) with (pv_buffers v).
  destruct (mode_facts v G) as (S1 & S2 & S3 & S4).
  destruct (po_region _ Hv _ Hr) as (pbh & Ep). unfold slot_at in Hat. rewrite Ep in *. cbn in Hat. injection Hat as Hat.
  destruct (_ <? stride_of v); [done|]. destruct (pe_scratch env); cbn [negb]; [|done].
  destruct (region_read_spec t cpu env v caches (slot_block v phys) pbh Hcpu) as (caches' & calls & E & _ & _);
    [by apply cache_good_ok|done|].
  change (s_ind_parity_gen v1) with (s_ind_parity_gen v). rewrite E.
  pose proof (Hb _ _ Ep) as Hok. rewrite region_decode_ok by done. cbn [fst]. change (0 =? - EUCLEAN) with false. cbv iota.
  pose proof (en_len _ _ _ Hok) as Zp. cbn in Zp. rewrite slot_gather_eq by lia. rewrite Hat.
  destruct (forallb _ _); [done|]. change (s_ind_parity_mode (add_calls v1 calls)) with (s_ind_parity_mode v).
  destruct (Z.eqb_spec (s_ind_parity_mode v) BEAMFS_IND_PARITY_CRC) as [Em|Em]; cbn [negb andb].
  - by rewrite (verify_crc_clean t cpu).
  - destruct (pe_copy env); cbn [negb andb]; [|done]. by rewrite verify_rs_clean.
Qed.
End theorems.

(** ** Sequences of updates *)

(** One call of beamfs_ind_parity_update. *)
Record parity_write := PWrite {
  w_cpu : nat; w_env : parity_env; w_phys : Z; w_block : list Z; w_inode : option Z }.

Section runs.
Context `{RL : !RsLib} `{RS : !RsLibSpec} `{CL : !CrcLib} (t : rs_tables).

Definition run_writes (caches : list ind_region_cache) (v : pvol) (ws : list parity_write) :=
  foldl (fun '(caches, v) w =>
    beamfs_ind_parity_update t (w_cpu w) (w_env w) caches v (w_phys w) (w_block w) (w_inode w)) (caches, v) ws.

(** The last contents written of every block. *)
Definition last_writes (m : gmap Z (list Z)) (ws : list parity_write) : gmap Z (list Z) :=
  foldl (fun m w => <[w_phys w := w_block w]> m) m ws.

Definition write_ok (v : pvol) (ncpu : nat) (w : parity_write) : Prop :=
  ctrl_here t (w_cpu w) = true /\ (w_cpu w < ncpu)%nat /\ pe_scratch (w_env w) = true /\
  covered_by v (w_phys w) /\ zlen (w_block w) = 4096 /\ bytes (w_block w).

(** The region describes the blocks of [m]. *)
Definition describes (v : pvol) (m : gmap Z (list Z)) : Prop :=
  forall p b, m !! p = Some b -> covered_by v p /\ zlen b = 4096 /\ bytes b /\
    slot_at v p = Some (slot_value (s_ind_parity_mode v) b).

Lemma covered_same v v' p : same_geometry v v' -> covered_by v' p <-> covered_by v p.
Proof. intros (E1 & E2 & E3 & E4). unfold covered_by, slots_of. by rewrite E1, E3, E4. Qed.

Lemma run_writes_spec ncpu ws caches v m :
  parity_ok v -> buffers_ok v -> cache_good v caches -> length caches = ncpu ->
  s_ind_parity_gen v + zlen ws < 2 ^ 64 -> describes v m -> (forall w, w ∈ ws -> write_ok v ncpu w) ->
  let '(caches', v') := run_writes caches v ws in
  parity_ok v' /\ buffers_ok v' /\ cache_good v' caches' /\ length caches' = ncpu /\
  describes v' (last_writes m ws).
Proof.
  revert caches v m. induction ws as [|w ws IH]; intros caches v m Hv Hb Hc Hl Hg Hd Hw; [done|].
  cbn [run_writes last_writes foldl]. destruct (Hw w ltac:(left)) as (W1 & W2 & W3 & W4 & W5 & W6).
  rewrite zlen_cons in Hg. pose proof (zlen_nonneg ws).
  pose proof (update_spec t (w_cpu w) (w_env w) caches v (w_phys w) (w_block w) (w_inode w) W1 ltac:(lia) W3 Hv Hb Hc W4
    ltac:(lia) W5 W6) as U.
  destruct (beamfs_ind_parity_update _ _ _ _ _ _ _ _) as [caches1 v1].
  destruct U as (U1 & U2 & U3 & U4 & U5 & U6 & U7 & U8). pose proof U5 as (G1 & _).
  apply IH; [done|done|done|lia|lia| |].
  - intros p b Hp. rewrite (covered_same v v1) by done. rewrite G1.
    apply lookup_insert_Some in Hp as [[<- <-]|[Hne Hp]]; [done|].
    destruct (Hd p b Hp) as (D1 & D2 & D3 & D4). split_and!; [done..|]. by rewrite U8.
  - intros x Hx. destruct (Hw x ltac:(by right)) as (X1 & X2 & X3 & X4 & X5 & X6).
    split_and!; [done..| |done|done]. by rewrite (covered_same v v1).
Qed.
End runs.


(** A region of one block, at 5, for the blocks from 10 on. *)
Definition ex_parity (mode : Z) (region : list Z) : pvol :=
  PVol mode 5 1 10 0 {[ 5 := region ]} [] ∅ [] [].

Definition ex_penv : parity_env := PEnv true true true.

Definition ex_writes : list parity_write :=
  [PWrite 0 ex_penv 10 (replicate 4096 1) (Some 3); PWrite 0 ex_penv 11 (replicate 4096 2) None;
   PWrite 0 ex_penv 10 (replicate 4096 3) (Some 3)].

Lemma ex_parity_ok region : parity_ok (ex_parity BEAMFS_IND_PARITY_RS region).
Proof.
  split; [split; [by right|done|done|done]|done|]. intros r Hr. cbn in Hr. assert (r = 5) as -> by lia.
  cbn. rewrite lookup_singleton_eq. by eexists.
Qed.

Lemma region_ok_zeros : region_ok (zeros 4096).
Proof.
  assert (E : forall i, 0 <= i < 16 -> cw_data LB (zeros 4096) i = zeros 239).
  { intros i Hi. unfold cw_data. apply bytes_ext; [by rewrite zlen_map|]. rewrite zlen_map. intros k Hk.
    rewrite getb_map, !getb_zeros by done. done. }
  split; [done|apply bytes_zeros|done| |done]. intros i Hi. rewrite E, encode_rs8_zeros by done.
  unfold cw_par. cbn in Hi. cbn [l_par region_layout].
  assert (Z16 : zlen (slice (zeros 4096) (239 + i * 255) 16) = 16) by (rewrite zlen_slice; rewrite ?zlen_zeros; lia).
  apply bytes_ext; [by rewrite Z16|]. rewrite Z16. intros k Hk. by rewrite getb_slice, !getb_zeros by lia.
Qed.


(** ** One cache for every mount

    The decode is kept under the number of the region block and the
    generation of the region, not under the mount. *)
Section crossing.
Context `{RL : !RsLib} `{CL : !CrcLib} (t : rs_tables) (cpu : nat).

(** After a verification that reached the region, its decode is the cpu's. *)
Lemma verify_caches env caches v phys block r off stride b :
  (cpu < length caches)%nat -> pe_scratch env = true -> pe_kmalloc env = true ->
  ind_parity_slot v phys = Some (r, off, stride) -> stride <= BEAMFS_IND_PARITY_RS_BYTES -> pv_buffers v !! r = Some b ->
  exists ret d, get_cache (snd (fst (beamfs_ind_parity_verify_medium t cpu env caches v phys block))) cpu =
    RCache r (s_ind_parity_gen v) ret (Some d).
Proof.
  intros Hc Hs Hk Hp Hst Hb. unfold beamfs_ind_parity_verify_medium, beamfs_ind_parity_verify.
  change (ind_parity_slot (set_verified v _) phys) with (ind_parity_slot v phys). rewrite Hp. cbn [set_verified pv_verified pv_buffers s_ind_parity_gen].
  rewrite bool_decide_false by set_solver. rewrite Hb, Hs. destruct (Z.ltb_spec BEAMFS_IND_PARITY_RS_BYTES stride); [lia|]. cbn [negb].
  assert (K : exists ret d, get_cache (snd (fst (ind_region_read t cpu env caches (s_ind_parity_gen v) r b))) cpu =
    RCache r (s_ind_parity_gen v) ret (Some d)).
  { unfold ind_region_read. destruct (region_decode t cpu r b) as [[ret scratch] calls].
    assert (W : get_cache (<[cpu:=RCache r (s_ind_parity_gen v) ret (Some scratch)]> caches) cpu = RCache r (s_ind_parity_gen v) ret (Some scratch)).
    { unfold get_cache. apply nth_lookup_Some, list_lookup_insert_eq, Hc. }
    destruct (c_data (get_cache caches cpu)) as [d|] eqn:Ed; [|rewrite Hk; by do 2 eexists].
    destruct ((c_blocknr _ =? r) && _) eqn:Ek; [|by do 2 eexists]. cbn [fst snd]. exists (c_ret (get_cache caches cpu)), d.
    apply andb_true_iff in Ek as [E1%Z.eqb_eq E2%Z.eqb_eq]. destruct (get_cache caches cpu); cbn in *. congruence. }
  destruct (ind_region_read _ _ _ _ _ _ _) as [[[rc scratch] caches'] calls]. cbn [fst snd] in K.
  repeat case_match; cbn [fst snd]; exact K.
Qed.

(** Two mounts of one geometry and generation: once [va] has verified a
    block on a cpu, [vb] answers there for any block of the same region
    block as [va]'s parity has it, whatever its own region holds. *)
Theorem region_cache_crosses_volumes env caches va vb p q blka blkb r offp offq stridep strideq a b :
  (cpu < length caches)%nat -> pe_scratch env = true -> pe_kmalloc env = true ->
  same_geometry va vb -> s_ind_parity_gen vb = s_ind_parity_gen va ->
  ind_parity_slot va p = Some (r, offp, stridep) -> stridep <= BEAMFS_IND_PARITY_RS_BYTES ->
  ind_parity_slot va q = Some (r, offq, strideq) -> pv_buffers va !! r = Some a -> pv_buffers vb !! r = Some b ->
  let caches' := snd (fst (beamfs_ind_parity_verify_medium t cpu env caches va p blka)) in
  fst (fst (beamfs_ind_parity_verify_medium t cpu env caches' vb q blkb)) =
  fst (fst (beamfs_ind_parity_verify_medium t cpu env caches' va q blkb)).
Proof.
  intros Hc Hs Hk (G1 & G2 & G3 & G4) Gg Hp Hst Hq Ha Hb caches'.
  destruct (verify_caches env caches va p blka r offp stridep a Hc Hs Hk Hp Hst Ha) as (ret & d & E). fold caches' in E. clearbody caches'.
  assert (Eq : ind_parity_slot vb q = ind_parity_slot va q) by (unfold ind_parity_slot; by rewrite G1, G2, G3, G4).
  unfold beamfs_ind_parity_verify_medium, beamfs_ind_parity_verify.
  change (ind_parity_slot (set_verified vb _) q) with (ind_parity_slot vb q). change (ind_parity_slot (set_verified va _) q) with (ind_parity_slot va q).
  rewrite Eq, Hq. cbn [set_verified pv_verified pv_buffers s_ind_parity_gen]. rewrite !bool_decide_false by set_solver. rewrite Ha, Hb, Gg.
  unfold ind_region_read. rewrite E. cbn [c_data c_blocknr c_gen c_ret]. rewrite !Z.eqb_refl. cbn [andb].
  cbn [add_calls set_verified s_ind_parity_mode]. replace (s_ind_parity_mode vb) with (s_ind_parity_mode va) by congruence.
  repeat case_match; done.
Qed.
End crossing.

(** ** What a verification leaves behind

    [beamfs_ind_parity_verify] changes nothing but the cached decodes, the
    flag of the buffer and the journal. *)

(** The region and its geometry are the same. *)
Record same_region (v v' : pvol) : Prop := {
  sr_geometry : same_geometry v v';
  sr_gen : s_ind_parity_gen v' = s_ind_parity_gen v;
  sr_buffers : pv_buffers v' = pv_buffers v }.

Lemma same_region_slot v v' p : same_region v v' -> slot_at v' p = slot_at v p.
Proof.
  intros [(E1 & E2 & E3 & E4) _ E5]. unfold slot_at, slot_block, slot_offset, slot_index, slots_of, stride_of.
  by rewrite E1, E2, E4, E5.
Qed.

Lemma same_region_ok v v' : same_region v v' -> parity_ok v -> parity_ok v'.
Proof.
  intros [(E1 & E2 & E3 & E4) Eg Eb] [[G1 G2 G3 G4] H2 H3]. split; [split; congruence|congruence|].
  intros r. rewrite E2, E3, Eb. apply H3.
Qed.

Lemma same_region_cache v v' caches : same_region v v' -> cache_good v caches -> cache_good v' caches.
Proof. intros [_ E1 E2] H c Hc. rewrite E1, E2. by apply H. Qed.

Section verify.
Context `{RL : !RsLib} `{RS : !RsLibSpec} `{CL : !CrcLib} (t : rs_tables) (cpu : nat).

Lemma same_region_buffers v v' : same_region v v' -> buffers_ok v -> buffers_ok v'.
Proof. intros [_ _ E] H r b. rewrite E. apply H. Qed.

Lemma verify_frame env caches v phys block :
  same_region v (snd (beamfs_ind_parity_verify t cpu env caches v phys block)).
Proof.
  unfold beamfs_ind_parity_verify.
  repeat first [case_match; cbn [snd] | by split]; by split.
Qed.

Lemma verify_clean env caches v phys block :
  ctrl_here t cpu = true -> (cpu < length caches)%nat ->
  parity_ok v -> buffers_ok v -> cache_good v caches -> covered_by v phys ->
  zlen block = 4096 -> bytes block -> slot_at v phys = Some (slot_value (s_ind_parity_mode v) block) ->
  exists caches' v', beamfs_ind_parity_verify t cpu env caches v phys block = (0, caches', v') /\
    cache_good v caches' /\ length caches' = length caches.
Proof.
  intros Hctrl Hcpu Hv Hb Hc Hcov Hz B Hat. unfold beamfs_ind_parity_verify.
  pose proof (po_geometry _ Hv) as G. destruct (slot_covered v phys G Hcov) as (-> & Hr & Ho1 & Ho2).
  destruct (bool_decide _); [by exists caches, v|].
  destruct (mode_facts v G) as (S1 & S2 & S3 & S4).
  destruct (po_region _ Hv _ Hr) as (pbh & Ep). unfold slot_at in Hat. rewrite Ep in *. cbn in Hat. injection Hat as Hat.
  destruct (_ <? stride_of v); [by exists caches, v|]. destruct (pe_scratch env); cbn [negb]; [|by exists caches, v].
  destruct (region_read_spec t cpu env v caches (slot_block v phys) pbh Hcpu) as (caches' & calls & E & Hc' & Hl);
    [by apply cache_good_ok|done|].
  apply (cache_good_ok t cpu v caches' Hctrl Hb) in Hc'. rewrite E.
  pose proof (Hb _ _ Ep) as Hok. rewrite region_decode_ok by done. cbn [fst]. change (0 =? - EUCLEAN) with false. cbv iota.
  pose proof (en_len _ _ _ Hok) as Zp. cbn in Zp. rewrite slot_gather_eq by lia. rewrite Hat.
  destruct (forallb _ _); [by eexists _, _|]. change (s_ind_parity_mode (add_calls v calls)) with (s_ind_parity_mode v).
  destruct (Z.eqb_spec (s_ind_parity_mode v) BEAMFS_IND_PARITY_CRC) as [Em|Em]; cbn [negb andb].
  - rewrite (verify_crc_clean t cpu) by done. by eexists _, _.
  - destruct (pe_copy env); cbn [negb andb]; [|by eexists _, _].
    rewrite verify_rs_clean by done. by eexists _, _.
Qed.
End verify.
