(* ===== verification/Volume.v ===== *)
(** * A mounted volume

    The allocator, the parity of indirect blocks, the tree checker and the
    buffers of the data zone, put together: an instance of what the
    directory and file code calls, and the proof that it keeps the laws
    their theorems are proved from. *)

From stdpp Require Import gmap.
From S2P Require Import Prelude Format Crc RsInit GF RsTheory RsCode RsCorrect RsDecode RsLib RsComplete Edac EdacWord EdacBlock EdacLayouts EdacTheorems Dirent FileData Super SuperTheorems Alloc AllocBits AllocImage AllocInv AllocTheorems AllocProps IndParity IndRegion Dir DirTree FileTree FileMap FileGrow FileTheorems TreeCheck AllocHealth IndTheorems.

(** The buffers of the parity region and of the bitmap live in [v_parity]
    and [v_alloc]: their blocks are outside the data zone. *)
Record volume := Vol {
  v_alloc : sbi;
  v_parity : pvol;
  v_caches : list ind_region_cache;
  v_env : parity_env;
  v_blocks : gmap Z (list Z);         (** blocks of the data zone that read *)
  v_getblk : Z -> bool;
  v_uptodate : Z -> bool;
  v_scratch : bool;
  v_tc : tcheck;
  v_calls : list rs_call }.

Definition set_alloc (v : volume) (a : sbi) : volume :=
  Vol a (v_parity v) (v_caches v) (v_env v) (v_blocks v) (v_getblk v) (v_uptodate v) (v_scratch v) (v_tc v) (v_calls v).
Definition set_parity (v : volume) (c : list ind_region_cache) (p : pvol) : volume :=
  Vol (v_alloc v) p c (v_env v) (v_blocks v) (v_getblk v) (v_uptodate v) (v_scratch v) (v_tc v) (v_calls v).
Definition set_block (v : volume) (b : Z) (c : list Z) : volume :=
  Vol (v_alloc v) (v_parity v) (v_caches v) (v_env v) (<[b := c]> (v_blocks v)) (v_getblk v) (v_uptodate v) (v_scratch v) (v_tc v) (v_calls v).
Definition set_tc (v : volume) (c : tcheck) : volume :=
  Vol (v_alloc v) (v_parity v) (v_caches v) (v_env v) (v_blocks v) (v_getblk v) (v_uptodate v) (v_scratch v) c (v_calls v).
Definition add_report (v : volume) (calls : list rs_call) : volume :=
  Vol (v_alloc v) (v_parity v) (v_caches v) (v_env v) (v_blocks v) (v_getblk v) (v_uptodate v) (v_scratch v) (v_tc v) (v_calls v ++ calls).

(** beamfs_free_block tells the tree checker what it forgets. *)
Definition tc_told (v : volume) (a : sbi) : tcheck :=
  foldl (fun c b => beamfs_tc_forget_parent (beamfs_tc_forget_child c b) b) (v_tc v)
    (rev (take (length (s_tc_forgotten a) - length (s_tc_forgotten (v_alloc v))) (s_tc_forgotten a))).

Section volume.
Context `{RL : !RsLib} `{RS : !RsLibSpec} `{CL : !CrcLib} (t : rs_tables) (cpu : nat).

(** The tables of the codec are there, the allocator's invariant holds and
    no write of its buffers has failed. *)
Definition vol_ok (v : volume) : Prop :=
  ctrl_here t cpu = true /\ alloc_ok (v_alloc v) /\ healthy (v_alloc v).

Definition mounted : Type := { v : volume | vol_ok v }.

Definition vol (s : mounted) : volume := proj1_sig s.

(** A step that leaves the allocator alone. *)
Definition step (s : mounted) (f : volume -> volume) (H : forall v, v_alloc (f v) = v_alloc v) : mounted.
Proof.
  exists (f (vol s)). abstract (destruct s as [v (H1 & H2 & H3)]; split_and!; [done|unfold vol; cbn [proj1_sig]; by rewrite H..]).
Defined.

Lemma fail_ok a : alloc_ok a -> healthy a -> alloc_ok (with_super a (beamfs_fail (s_super a))) /\ healthy (with_super a (beamfs_fail (s_super a))).
Proof.
  intros [bits [A1 A2 A3 A4 A5 A6 A7 A8 A9]] [H1 H2]. split; [|split; [done|exact H2]]. exists bits. split; try done.
  destruct A8 as (bhs & Hb & H). exists bhs. split; [done|]. intros k Hk Hn. destruct (H k Hk Hn) as (X1 & X2 & bh & X3 & X4).
  split_and!; [done..|]. by exists bh.
Qed.

Definition vfail (s : mounted) : mounted.
Proof.
  exists (set_alloc (vol s) (with_super (v_alloc (vol s)) (beamfs_fail (s_super (v_alloc (vol s)))))).
  abstract (destruct s as [v (H1 & H2 & H3)]; split; [done|]; cbn [set_alloc v_alloc]; by apply fail_ok).
Defined.

Lemma alloc_step_ok v owner : vol_ok v -> vol_ok (set_alloc v (snd (beamfs_alloc_block t cpu (v_alloc v) owner))).
Proof.
  intros (H1 & [bits H2] & H3). split; [done|]. cbn [set_alloc v_alloc].
  pose proof (alloc_block_spec t cpu H1 (v_alloc v) bits owner H2) as A. pose proof (alloc_healthy t cpu (v_alloc v) bits owner H2 H3) as [A2 _].
  destruct (beamfs_alloc_block t cpu (v_alloc v) owner) as [b s']. cbn [snd] in *. by destruct A as [(_ & ? & _)|(_ & _ & _ & ? & _)].
Qed.

Definition valloc (s : mounted) (owner : option Z) : Z * mounted :=
  (fst (beamfs_alloc_block t cpu (v_alloc (vol s)) owner), exist _ _ (alloc_step_ok (vol s) owner (proj2_sig s))).

Lemma free_step_ok v b owner c : vol_ok v -> vol_ok (set_tc (set_alloc v (beamfs_free_block t cpu (v_alloc v) b owner)) c).
Proof.
  intros (H1 & [bits H2] & H3). split; [done|]. cbn [set_alloc set_tc v_alloc].
  pose proof (free_healthy t cpu (v_alloc v) b owner H3) as [A2 _].
  destruct (free_block_spec t cpu H1 (v_alloc v) bits b owner H2) as [(E & _)|(_ & _ & _ & ? & _)]; [|done].
  rewrite E in *. split; [by exists bits|done].
Qed.

Definition vfree (s : mounted) (b : Z) (owner : option Z) : mounted :=
  exist _ _ (free_step_ok (vol s) b owner (tc_told (vol s) (beamfs_free_block t cpu (v_alloc (vol s)) b owner)) (proj2_sig s)).

Definition vupdate (s : mounted) (b : Z) (contents : list Z) (ino : Z) : mounted :=
  step s (fun v => let '(caches, p) := beamfs_ind_parity_update t cpu (v_env v) (v_caches v) (v_parity v) b contents (Some ino) in
                   set_parity v caches p)
    (fun v => ltac:(cbv beta; by destruct (beamfs_ind_parity_update t cpu (v_env v) (v_caches v) (v_parity v) b contents (Some ino)))).

Definition vverify (s : mounted) (b : Z) (contents : list Z) : Z * mounted :=
  (fst (fst (beamfs_ind_parity_verify t cpu (v_env (vol s)) (v_caches (vol s)) (v_parity (vol s)) b contents)),
   step s (fun v => let '(_, caches, p) := beamfs_ind_parity_verify t cpu (v_env v) (v_caches v) (v_parity v) b contents in
                    set_parity v caches p)
     (fun v => ltac:(cbv beta; by destruct (beamfs_ind_parity_verify t cpu (v_env v) (v_caches v) (v_parity v) b contents) as [[? ?] ?]))).

Definition tc_run_call (c : tcheck) (x : tc_call) : tcheck :=
  match x with
  | TcStore ino parent slot old child => beamfs_tc_store true c ino parent slot old child
  | TcClear parent slot => beamfs_tc_clear c parent slot
  | TcZeroed _ parent => beamfs_tc_zeroed c parent
  end.

#[export] Instance vol_dir : DirEnv mounted := {|
  bread s b := v_blocks (vol s) !! b;
  getblk s b := v_getblk (vol s) b;
  bput s b c := step s (fun v => set_block v b c) (fun _ => eq_refl);
  balloc s ino := valloc s (Some ino);
  bfree s b ino := vfree s b (Some ino);
  parity_update := vupdate;
  scratch_get s := v_scratch (vol s);
  report s calls := step s (fun v => add_report v calls) (fun _ => eq_refl) |}.

#[export] Instance vol_tree : TreeEnv mounted := {|
  FileTree.s_data_start s := Alloc.s_data_start (v_alloc (vol s));
  FileTree.s_nblocks s := Alloc.s_nblocks (v_alloc (vol s));
  FileTree.s_free_blocks s := Alloc.s_free_blocks (v_alloc (vol s));
  is_allocated s b := beamfs_block_is_allocated (v_alloc (vol s)) b;
  failed s := beamfs_failed (v_alloc (vol s));
  fail := vfail;
  bfree_anon s b := vfree s b None;
  parity_verify := vverify;
  uptodate s b := v_uptodate (vol s) b;
  tc s x := step s (fun v => set_tc v (tc_run_call (v_tc v) x)) (fun _ => eq_refl) |}.

(** ** The laws *)

Definition vallocated (s : mounted) (b : Z) : Prop :=
  in_volume (v_alloc (vol s)) b /\ beamfs_block_is_allocated (v_alloc (vol s)) b = true.

Lemma mounted_inv (s : mounted) : ctrl_here t cpu = true /\ (exists bits, alloc_inv (v_alloc (vol s)) bits) /\ healthy (v_alloc (vol s)).
Proof. exact (proj2_sig s). Qed.

Lemma valloc_spec s owner b s' : valloc s owner = (b, s') ->
  v_blocks (vol s') = v_blocks (vol s) /\ v_parity (vol s') = v_parity (vol s) /\ v_caches (vol s') = v_caches (vol s) /\
  v_env (vol s') = v_env (vol s) /\ beamfs_failed (v_alloc (vol s')) = beamfs_failed (v_alloc (vol s)) /\
  (b = 0 /\ same_blocks (v_alloc (vol s)) (v_alloc (vol s')) \/
   0 < b < 2 ^ 64 /\ beamfs_failed (v_alloc (vol s)) = false /\ ~ vallocated s b /\
   in_volume (v_alloc (vol s)) b /\ only_block (v_alloc (vol s)) (v_alloc (vol s')) b true).
Proof.
  intros [= <- <-]. destruct (mounted_inv s) as (Hctrl & [bits Hi] & Hh). do 4 (split; [done|]). cbn [vol proj1_sig set_alloc v_alloc].
  fold (vol s). destruct (alloc_healthy t cpu (v_alloc (vol s)) bits owner Hi Hh) as [_ F]. split; [done|].
  pose proof (alloc_block_spec t cpu Hctrl (v_alloc (vol s)) bits owner Hi) as A.
  destruct (beamfs_alloc_block t cpu (v_alloc (vol s)) owner) as [b a']. cbn [fst snd] in *.
  destruct A as [(-> & _ & A & _)|(A1 & A2 & A3 & _ & A5)]; [by left|right].
  pose proof (ai_data _ _ Hi). pose proof (ai_width _ _ Hi). pose proof A1 as [? ?].
  split_and!; [lia|lia|done| |done..]. intros [_ A']. congruence.
Qed.

Lemma vfree_spec s b owner :
  let s' := vfree s b owner in
  v_blocks (vol s') = v_blocks (vol s) /\ v_parity (vol s') = v_parity (vol s) /\ v_caches (vol s') = v_caches (vol s) /\
  v_env (vol s') = v_env (vol s) /\ beamfs_failed (v_alloc (vol s')) = beamfs_failed (v_alloc (vol s)) /\
  (v_alloc (vol s') = v_alloc (vol s) /\ (beamfs_failed (v_alloc (vol s)) = true \/ ~ vallocated s b) \/
   only_block (v_alloc (vol s)) (v_alloc (vol s')) b false).
Proof.
  destruct (mounted_inv s) as (Hctrl & [bits Hi] & Hh). cbv zeta. do 4 (split; [done|]). unfold vfree. cbn [vol proj1_sig set_tc set_alloc v_alloc].
  fold (vol s). destruct (free_healthy t cpu (v_alloc (vol s)) b owner Hh) as [_ F]. split; [done|].
  destruct (free_block_spec t cpu Hctrl (v_alloc (vol s)) bits b owner Hi) as [(E & A)|(_ & _ & _ & _ & A)]; [left|by right].
  split; [done|]. destruct A as [?|[?|?]]; [by left|right; intros [? ?]; done|right; intros [? ?]; congruence].
Qed.

Lemma vupdate_frame s i c ino : let s' := vupdate s i c ino in
  v_alloc (vol s') = v_alloc (vol s) /\ v_blocks (vol s') = v_blocks (vol s) /\ v_env (vol s') = v_env (vol s).
Proof.
  cbv zeta. unfold vupdate, step. cbn [vol proj1_sig]. fold (vol s).
  destruct (beamfs_ind_parity_update t cpu (v_env (vol s)) (v_caches (vol s)) (v_parity (vol s)) i c (Some ino)). done.
Qed.

Lemma vallocated_same s s' : same_blocks (v_alloc (vol s)) (v_alloc (vol s')) -> forall b, vallocated s' b <-> vallocated s b.
Proof. intros (E1 & E2 & E3) b. unfold vallocated, in_volume. by rewrite E1, E2, E3. Qed.

#[export] Instance vol_dir_ok : DirEnvOk mounted.
Proof.
  refine {| allocated := vallocated |}.
  - intros s b c. apply lookup_insert_eq.
  - intros s b c b' Hne. by apply lookup_insert_ne.
  - done.
  - done.
  - done.
  - intros s i ptrs ino b _. change (v_blocks (vol (vupdate s i ptrs ino)) !! b = v_blocks (vol s) !! b). by destruct (vupdate_frame s i ptrs ino) as (_ & -> & _).
  - intros s i ptrs ino b. change (vallocated (vupdate s i ptrs ino) b <-> vallocated s b). unfold vallocated. by destruct (vupdate_frame s i ptrs ino) as (-> & _).
  - intros s ino s' E. destruct (valloc_spec _ _ _ _ E) as (_ & _ & _ & _ & _ & [[_ H]|(H & _)]); [by apply vallocated_same|lia].
  - intros s ino b s' E Hb. destruct (valloc_spec _ _ _ _ E) as (_ & _ & _ & _ & _ & [[H _]|(H1 & H2 & H3 & H4 & E1 & E2 & E3)]); [done|].
    split; [done|]. split; [done|]. intros b'. unfold vallocated, in_volume in *. rewrite E1, E2, E3. case_decide; [subst; tauto|tauto].
  - intros s ino b s' b' E _. destruct (valloc_spec _ _ _ _ E) as (E1 & _). change (v_blocks (vol s') !! b' = v_blocks (vol s) !! b'). by rewrite E1.
  - intros s b ino b' A Hne. change (vallocated (vfree s b (Some ino)) b').
    destruct (vfree_spec s b (Some ino)) as (_ & _ & _ & _ & _ & [[E _]|(E1 & E2 & E3)]); unfold vallocated, in_volume in *.
    + by rewrite E.
    + rewrite E1, E2, E3. by rewrite decide_False.
  - intros s b ino b' _ _. change (v_blocks (vol (vfree s b (Some ino))) !! b' = v_blocks (vol s) !! b'). by destruct (vfree_spec s b (Some ino)) as (-> & _).
Defined.

(** The region covers the data zone, every block of it decodes, the cached
    decodes are the blocks they name. *)
Record vparity (s : mounted) : Prop := {
  vp_ok : parity_ok (v_parity (vol s));
  vp_buffers : buffers_ok (v_parity (vol s));
  vp_cache : cache_good (v_parity (vol s)) (v_caches (vol s));
  vp_cpu : (cpu < length (v_caches (vol s)))%nat;
  vp_scratch : pe_scratch (v_env (vol s)) = true;
  vp_covers : forall b, in_volume (v_alloc (vol s)) b -> covered_by (v_parity (vol s)) b }.

#[export] Instance vol_parity : ParityView mounted := {|
  described s b p := slot_at (v_parity (vol s)) b = Some (slot_value (s_ind_parity_mode (v_parity (vol s))) p);
  par_ok := vparity;
  room s := 2 ^ 64 - 1 - s_ind_parity_gen (v_parity (vol s)) |}.

Lemma vparity_frame s s' :
  v_parity (vol s') = v_parity (vol s) -> v_caches (vol s') = v_caches (vol s) -> v_env (vol s') = v_env (vol s) ->
  Alloc.s_data_start (v_alloc (vol s')) = Alloc.s_data_start (v_alloc (vol s)) ->
  Alloc.s_nblocks (v_alloc (vol s')) = Alloc.s_nblocks (v_alloc (vol s)) -> vparity s -> vparity s'.
Proof. intros E1 E2 E3 E4 E5 [H1 H2 H3 H4 H5 H6]. split; rewrite ?E1, ?E2, ?E3; try done. unfold in_volume. by rewrite E4, E5. Qed.

(** Nothing the laws speak of changes but the allocator's counters. *)
Lemma vsame s s' :
  v_parity (vol s') = v_parity (vol s) -> v_caches (vol s') = v_caches (vol s) -> v_env (vol s') = v_env (vol s) ->
  v_blocks (vol s') = v_blocks (vol s) -> same_blocks (v_alloc (vol s)) (v_alloc (vol s')) -> same s s'.
Proof.
  intros E1 E2 E3 E4 (S1 & S2 & S3). split.
  - intros b. by apply vallocated_same.
  - intros b _. change (v_blocks (vol s') !! b = v_blocks (vol s) !! b). by rewrite E4.
  - intros b p. cbn [described room vol_parity]. by rewrite E1.
  - intros P. by apply (vparity_frame s).
  - cbn [described room vol_parity]. by rewrite E1.
Qed.

Lemma vverify_same s b p : vparity s -> vallocated s b -> zlen p = 4096 -> bytes p ->
  described s b p -> exists s', vverify s b p = (0, s') /\ same s s' /\ failed s' = failed s.
Proof.
  intros [P1 P2 P3 P4 P5 P6] [A _] Zp Bp D. destruct (mounted_inv s) as (Hctrl & _).
  destruct (verify_clean t cpu (v_env (vol s)) (v_caches (vol s)) (v_parity (vol s)) b p Hctrl P4 P1 P2 P3 (P6 b A) Zp Bp D)
    as (caches' & v' & E & C1 & C2).
  pose proof (verify_frame t cpu (v_env (vol s)) (v_caches (vol s)) (v_parity (vol s)) b p) as R. rewrite E in R. cbn [snd] in R.
  unfold vverify. rewrite E. cbn [fst]. eexists. split; [reflexivity|]. set (s' := step _ _ _).
  assert (Ev : vol s' = set_parity (vol s) caches' v') by (unfold s', step; cbn [vol proj1_sig]; fold (vol s); by rewrite E).
  split; [|cbn [failed vol_tree]; by rewrite Ev]. pose proof R as [(G1 & _) R2 R3]. split.
  - intros x. change (vallocated s' x <-> vallocated s x). unfold vallocated. by rewrite Ev.
  - intros x _. change (v_blocks (vol s') !! x = v_blocks (vol s) !! x). by rewrite Ev.
  - intros x q. cbn [described vol_parity]. rewrite Ev. cbn [set_parity v_parity]. by rewrite (same_region_slot _ _ x R), G1.
  - intros _. split; rewrite Ev; cbn [set_parity v_parity v_caches v_env v_alloc].
    + by apply (same_region_ok (v_parity (vol s))).
    + by apply (same_region_buffers (v_parity (vol s))).
    + by apply (same_region_cache (v_parity (vol s))).
    + by rewrite C2.
    + done.
    + intros x Hx. apply (covered_same (v_parity (vol s))); [apply R|by apply P6].
  - cbn [room vol_parity]. rewrite Ev. cbn [set_parity v_parity]. rewrite R2. done.
Qed.

Lemma vupdate_par s b p ino : vparity s -> vallocated s b -> zlen p = 4096 -> bytes p -> 0 < room s ->
  let s' := vupdate s b p ino in
  vparity s' /\ described s' b p /\ room s - 1 <= room s' /\ failed s' = failed s /\
  forall b' p', b' <> b -> vallocated s b' -> described s b' p' -> described s' b' p'.
Proof.
  intros [P1 P2 P3 P4 P5 P6] [A _] Zp Bp Hr. destruct (mounted_inv s) as (Hctrl & _). cbv zeta.
  pose proof (update_spec t cpu (v_env (vol s)) (v_caches (vol s)) (v_parity (vol s)) b p (Some ino) Hctrl P4 P5 P1 P2 P3 (P6 b A)
    ltac:(cbn in Hr; lia) Zp Bp) as U.
  destruct (beamfs_ind_parity_update t cpu (v_env (vol s)) (v_caches (vol s)) (v_parity (vol s)) b p (Some ino)) as [caches' v'] eqn:E.
  destruct U as (U1 & U2 & U3 & U4 & U5 & U6 & U7 & U8).
  set (s' := vupdate s b p ino).
  assert (Ev : vol s' = set_parity (vol s) caches' v') by (unfold s', vupdate, step; cbn [vol proj1_sig]; fold (vol s); by rewrite E).
  pose proof U5 as (G1 & _). split_and!.
  - split; rewrite Ev; cbn [set_parity v_parity v_caches v_env v_alloc]; [done|done|done|by rewrite U4|done|].
    intros x Hx. apply (covered_same (v_parity (vol s))); [done|by apply P6].
  - cbn [described vol_parity]. rewrite Ev. cbn [set_parity v_parity]. by rewrite G1.
  - cbn [room vol_parity]. rewrite Ev. cbn [set_parity v_parity]. rewrite U6. lia.
  - cbn [failed vol_tree]. by rewrite Ev.
  - intros x q Hne [Ax _]. cbn [described vol_parity]. rewrite Ev. cbn [set_parity v_parity]. rewrite G1, U8; [done|by apply P6|done].
Qed.

Lemma vfreed s b owner : freed s (vfree s b owner) b.
Proof.
  destruct (vfree_spec s b owner) as (E1 & E2 & E3 & E4 & E5 & H). set (s' := vfree s b owner) in *.
  assert (G : Alloc.s_data_start (v_alloc (vol s')) = Alloc.s_data_start (v_alloc (vol s)) /\
              Alloc.s_nblocks (v_alloc (vol s')) = Alloc.s_nblocks (v_alloc (vol s))).
  { destruct H as [[-> _]|(H1 & H2 & _)]; done. }
  destruct G as [G1 G2]. split.
  - intros F x. change (vallocated s' x <-> vallocated s x /\ x <> b). cbn in F. destruct H as [[E H]|(_ & _ & H)].
    + destruct H as [H|H]; [congruence|]. unfold vallocated in *. rewrite E. split; [|tauto]. intros A. split; [done|]. by intros ->.
    + unfold vallocated, in_volume. rewrite G1, G2, H. case_decide; [subst; split; [intros [_ ?]; done|tauto]|tauto].
  - intros x _ _. change (v_blocks (vol s') !! x = v_blocks (vol s) !! x). by rewrite E1.
  - intros x p. cbn [described room vol_parity]. by rewrite E2.
  - intros P. by apply (vparity_frame s).
  - cbn [described room vol_parity]. by rewrite E2.
  - exact E5.
Qed.

#[export] Instance vol_tree_ok : TreeEnvOk mounted.
Proof.
  refine {| tree_dir_ok := vol_dir_ok; tree_parity := vol_parity |}.
  - intros s b. change (in_data s b && beamfs_block_is_allocated (v_alloc (vol s)) b = true <-> vallocated s b).
    rewrite andb_true_iff. unfold vallocated, in_volume, in_data. cbn [FileTree.s_data_start FileTree.s_nblocks vol_tree].
    rewrite negb_true_iff, orb_false_iff, Z.ltb_ge, Z.leb_gt. tauto.
  - intros s b [H _]. destruct (mounted_inv s) as (_ & [bits Hi] & _). pose proof (ai_data _ _ Hi). pose proof (ai_width _ _ Hi).
    unfold in_volume in H. lia.
  - intros s x. split; [|done]. by apply vsame.
  - intros s. by apply vsame.
  - intros s calls. split; [|done]. by apply vsame.
  - intros s b p P A Zp Bp D. by apply vverify_same.
  - intros s b p b'. change (vallocated (snd (vverify s b p)) b' <-> vallocated s b'). unfold vallocated, vverify, step. cbn [snd vol proj1_sig].
    fold (vol s). destruct (beamfs_ind_parity_verify t cpu (v_env (vol s)) (v_caches (vol s)) (v_parity (vol s)) b p) as [[? ?] ?]. done.
  - intros s b p ino P A Zp Bp Hr. by apply vupdate_par.
  - intros s b p. split_and!; [|done|done|done]. intros P. by apply (vparity_frame s).
  - intros s ino b s' E. destruct (valloc_spec _ _ _ _ E) as (E1 & E2 & E3 & E4 & E5 & H). split_and!.
    + intros P. apply (vparity_frame s); [done|done|done| | |done]; destruct H as [(_ & ? & ? & _)|(_ & _ & _ & _ & ? & ? & _)]; done.
    + cbn [described room vol_parity]. by rewrite E2.
    + intros Hb. cbn [failed vol_tree]. destruct H as [[? _]|(_ & F & _)]; [done|]. by rewrite E5.
    + intros b' p. cbn [described room vol_parity]. by rewrite E2.
  - intros s b ino. apply vfreed.
  - intros s b. apply vfreed.
Defined.
End volume.

(** ** A volume with a file on it

    The small volume of the allocator with a file of two direct blocks and
    a single-indirect block that names two more. *)

Definition ex_page : list Z := Eval vm_compute in put_le64 (put_le64 (zeros 4096) 0 13) 40 14.

(** A volume of the blocks 10 to 33 with 10 to 17 in use. *)
Record ex_alloc (a : sbi) : Prop := {
  ea_ok : alloc_ok a;
  ea_healthy : healthy a;
  ea_failed : beamfs_failed a = false;
  ea_start : Alloc.s_data_start a = 10;
  ea_nblocks : Alloc.s_nblocks a = 24;
  ea_used : forallb (beamfs_block_is_allocated a) (seqZ 10 8) = true }.

Definition ex_volume (a : sbi) : volume :=
  Vol a (ex_parity BEAMFS_IND_PARITY_CRC (zeros 4096)) [empty_cache] ex_penv ∅ (fun _ => true) (fun _ => true) true beamfs_tc_init [].

(** The file: inode 7. *)
Definition ex_file : finode := FInode 7 S_IFREG 60000 (10 :: 11 :: zeros 10) 12 0 0 false (0, 0) false.

Lemma ex_slots j : 0 <= j < 512 -> ptr ex_page j = 0 \/ ptr ex_page j = 13 \/ ptr ex_page j = 14.
Proof.
  intros Hj. assert (F : forallb (fun j => (ptr ex_page j =? 0) || (ptr ex_page j =? 13) || (ptr ex_page j =? 14)) (upto 512) = true)
    by (by vm_compute).
  rewrite forallb_forall in F. specialize (F j). rewrite !orb_true_iff, !Z.eqb_eq in F.
  destruct F as [[?|?]|?]; [|tauto..]. apply list_elem_of_In, elem_of_seqZ. lia.
Qed.

#[local] Existing Instance no_view.

Section example.
Context (a : sbi) (Ha : ex_alloc a).

Definition ex_mounted : mounted ex_tables 0 :=
  exist _ (ex_volume a) (conj eq_refl (conj (ea_ok a Ha) (ea_healthy a Ha))).

(** The page is written, then its parity. *)
Definition ex_written : mounted ex_tables 0 := bput ex_mounted 12 ex_page.
Definition ex_state : mounted ex_tables 0 := parity_update ex_written 12 ex_page 7.

Lemma ex_allocated b : 10 <= b < 18 -> vallocated ex_tables 0 ex_mounted b.
Proof.
  intros Hb. split; [unfold in_volume; cbn; rewrite (ea_start a Ha), (ea_nblocks a Ha); lia|].
  pose proof (ea_used a Ha) as F. rewrite forallb_forall in F. apply F. apply list_elem_of_In, elem_of_seqZ. lia.
Qed.

Lemma ex_vparity : vparity ex_tables 0 ex_written.
Proof.
  split.
  - split; [split; [by left|done|done|done]|done|]. intros r Hr. cbn in Hr. assert (r = 5) as -> by lia.
    cbn. rewrite lookup_singleton_eq. by eexists.
  - intros r b Hr. cbn in Hr. apply lookup_singleton_Some in Hr as [_ <-]. exact region_ok_zeros.
  - intros c Hc. apply list_elem_of_singleton in Hc as ->. by split.
  - cbn. lia.
  - done.
  - intros b [H1 H2]. cbn in H1, H2. rewrite (ea_start a Ha) in *. rewrite (ea_nblocks a Ha) in H2.
    unfold covered_by. change (slots_of _) with 59. cbn. lia.
Qed.

Lemma ex_par_ok : par_ok ex_state /\ described ex_state 12 ex_page /\ room ex_written - 1 <= room ex_state /\ failed ex_state = false.
Proof.
  destruct (vupdate_par ex_tables 0 ex_written 12 ex_page 7 ex_vparity) as (H1 & H2 & H3 & H4 & _);
    [by apply ex_allocated|done|by apply bytes_check|by vm_compute|].
  split_and!; [exact H1|exact H2|exact H3|]. rewrite <- (ea_failed a Ha). exact H4.
Qed.

Lemma ex_bread b : bread ex_state b = bread ex_written b.
Proof.
  change (v_blocks (vol _ _ (vupdate ex_tables 0 ex_written 12 ex_page 7)) !! b = v_blocks (vol _ _ ex_written) !! b).
  by destruct (vupdate_frame ex_tables 0 ex_written 12 ex_page 7) as (_ & -> & _).
Qed.

Lemma ex_state_allocated b : 10 <= b < 18 -> allocated ex_state b.
Proof. intros Hb. unfold ex_state. rewrite parity_allocated. unfold ex_written. rewrite bput_allocated. by apply ex_allocated. Qed.

Lemma ex_held : bread ex_state 12 = Some ex_page.
Proof. by rewrite ex_bread. Qed.

Lemma ex_blocks : file_blocks ex_state ex_file = [10; 11; 12; 13; 14].
Proof.
  assert (T : forall d b, b = 0 \/ d = 0%nat -> tree_blocks ex_state d b = if b =? 0 then [] else [b]).
  { intros d b [->| ->]; [by destruct d|done]. }
  unfold file_blocks, forest, file_roots. cbn [ex_file fi_direct fi_indirect fi_dindirect fi_tindirect].
  change (zeros 10) with [0; 0; 0; 0; 0; 0; 0; 0; 0; 0]. cbn [map app concat].
  rewrite !(T 0%nat) by (by right). rewrite (T 2%nat 0), (T 3%nat 0) by (by left).
  rewrite tree_blocks_children by done. unfold forest, children, kids, held. rewrite ex_held. cbn [default].
  rewrite !map_map. rewrite (map_ext _ (fun j => if ptr ex_page j =? 0 then [] else [ptr ex_page j])); [by vm_compute|].
  intros j. apply T. by right.
Qed.

Lemma ex_wf : wf_file ex_state ex_file.
Proof.
  assert (Leaf : forall b, b = 0 \/ 10 <= b < 18 -> tree_ok ex_state 0 b).
  { intros b [->|Hb]; [by left|right]. split; [by apply ex_state_allocated|done]. }
  split; [done|]. split.
  - intros i d b Hi. unfold file_roots in Hi. cbn [ex_file fi_direct fi_indirect fi_dindirect fi_tindirect] in Hi.
    change (zeros 10) with [0; 0; 0; 0; 0; 0; 0; 0; 0; 0] in Hi. cbn [map app] in Hi.
    do 2 (destruct i as [|i]; [injection Hi as <- <-; apply Leaf; right; lia|]).
    do 10 (destruct i as [|i]; [injection Hi as <- <-; apply Leaf; by left|]).
    destruct i as [|i]; [|do 2 (destruct i as [|i]; [injection Hi as <- <-; by left|]); done].
    injection Hi as <- <-. right. split; [by apply ex_state_allocated|]. exists ex_page.
    split; [exact ex_held|]. split; [done|]. split; [by apply bytes_check|]. split; [apply ex_par_ok|].
    intros j Hj. apply Leaf. destruct (ex_slots j Hj) as [->|[->| ->]]; [by left|right; lia..].
  - pose proof ex_blocks as E. unfold file_blocks in E. rewrite E. by apply (bool_decide_unpack _), I.
Qed.

Lemma ex_room : 100 <= room ex_state.
Proof. destruct ex_par_ok as (_ & _ & H & _). change (room ex_written) with (2 ^ 64 - 1) in H. lia. Qed.

Lemma ex_free : s_free_blocks ex_state = Alloc.s_free_blocks a.
Proof.
  change (Alloc.s_free_blocks (v_alloc (vol _ _ (vupdate ex_tables 0 ex_written 12 ex_page 7))) = Alloc.s_free_blocks a).
  by destruct (vupdate_frame ex_tables 0 ex_written 12 ex_page 7) as (-> & _).
Qed.

Lemma ex_fget : fget ex_state ex_file 17 = 14 /\ fget ex_state ex_file 0 = 10 /\ fget ex_state ex_file 20 = 0.
Proof.
  assert (H : held ex_state 12 = ex_page) by (unfold held; by rewrite ex_held).
  assert (G : forall i, file_roots ex_file !! fst (path i) = Some (1%nat, 12) -> length (snd (path i)) = 1%nat ->
    fget ex_state ex_file i = tree_get ex_state 12 (snd (path i))) by (intros i Hi _; unfold fget; by rewrite Hi).
  split_and!; [rewrite G by done|done|rewrite G by done].
  - change (snd (path 17)) with [5]. cbn [tree_get]. rewrite H. change (ptr ex_page 5) with 14. done.
  - change (snd (path 20)) with [8]. cbn [tree_get]. rewrite H. change (ptr ex_page 8) with 0. done.
Qed.
End example.

(** ** The allocator's small volume, and a full one *)

Lemma ex_vol_alloc : ex_alloc ex_vol.
Proof.
  split; [exists ex_bits; exact ex_vol_inv| |done|done|done|by vm_compute]. split; [done|]. intros bhs k bh [= <-].
  destruct k as [|[|k]]; cbn; [by intros [= <-]|done|done].
Qed.

Definition ex_full_img : list Z :=
  Eval vm_compute in beamfs_bitmap_encode_one_locked ex_tables 0 24 (zeros 8) 0 (zeros 4096).

Definition ex_full : sbi :=
  Sbi 24 10 (Some (zeros 8)) 1 (Some [Some (Buffer ex_full_img true false)]) (Some [false]) 0 0
    None 0 0 [] ∅ (Super (put_le64 ex_vol_sb off_s_free_blocks 0) (Buffer (zeros 4096) true false) true false false) [].

Lemma ex_full_alloc : ex_alloc ex_full.
Proof.
  assert (Hb : bits_for 24 (zeros 8)) by (split; [by apply bytes_check|by vm_compute]).
  assert (Hi : image_of 24 (zeros 8) 0 ex_full_img).
  { assert (E : ex_full_img = beamfs_bitmap_encode_one_locked ex_tables 0 24 (zeros 8) 0 (zeros 4096)) by (by vm_compute).
    rewrite E. by apply image_full. }
  split; [exists (zeros 8)| |done|done|done|by vm_compute].
  - split; [done|done|done|done|by vm_compute|done| | |].
    + intros o. unfold ii. cbn [ex_full s_inodes]. rewrite lookup_empty. by apply window_ok_init.
    + eexists. split; [reflexivity|]. intros k Hk Hn. change BEAMFS_BITS_PER_BITMAP_BLOCK with 30592 in Hn.
      cbn [ex_full Alloc.s_nblocks s_bitmap_blocks_count] in *. assert (k = 0) as -> by lia. split_and!; [lia|cbn; lia|].
      by eexists.
    + split; by vm_compute.
  - split; [done|]. intros bhs k bh [= <-]. destruct k as [|[|k]]; cbn; [by intros [= <-]|done|done].
Qed.
