(* ===== verification/FileProps.v ===== *)
(** * What the file code promises *)

From stdpp Require Import relations.
From stdpp Require Import gmap.
From S2P Require Import Prelude Format Crc RsInit GF RsTheory RsCode RsCorrect RsDecode RsLib RsComplete Edac EdacWord EdacBlock EdacLayouts EdacTheorems Dirent FileData Super SuperTheorems Alloc AllocBits AllocImage AllocInv AllocTheorems AllocProps IndParity IndRegion Dir DirTree FileDataTheorems FileTree FileSteady FileMap FileGrow FileTheorems FileFree FileTruncate FileContent TreeCheck AllocHealth IndTheorems Volume.

#[local] Existing Instance no_view.

Section props.
Context {S : Type} `{RL : !RsLib} `{CL : !CrcLib} `{TO : TreeEnvOk S}.
Context (c : data_cfg) (t : rs_tables) (cpu : nat).

(** In a well-formed file every logical block below 12 + 512 + 512^2 +
    512^3 is looked up as the map says, through however many levels, with
    the parity of every block of pointers checked on the way and nothing
    changed; beyond, the lookup answers -EOPNOTSUPP. *)
Theorem lookup_phys_correct s f i :
  wf_file s f -> par_ok s -> 0 <= i ->
  exists s', same s s' /\
    beamfs_inline_lookup_phys s f i = if i <? BEAMFS_MAX_IBLOCK_TINDIRECT then (0, fget s f i, s') else (- EOPNOTSUPP, 0, s').
Proof.
  intros Wf Par Hi. destruct (Z.ltb_spec i BEAMFS_MAX_IBLOCK_TINDIRECT) as [Hlt|Hge].
  - destruct (lookup_phys_spec s f i Wf Par (conj Hi Hlt)) as (s' & E & Sm & _). by exists s'.
  - exists s. split; [apply same_refl|]. unfold beamfs_inline_lookup_phys. path_consts.
    change (12 + 512) with 524. repeat match goal with |- context [i <? ?n] => destruct (Z.ltb_spec i n); [lia|] end. done.
Qed.

(** Fail closed.  Whatever the inode and the blocks of pointers hold,
    damaged or hostile, a lookup that succeeds returns 0 or a block of the
    data zone that the bitmap calls used. *)
Theorem lookup_phys_fails_closed s f i r s' :
  beamfs_inline_lookup_phys s f i = (0, r, s') -> r = 0 \/ allocated s r.
Proof. apply lookup_phys_sane. Qed.

(** C8: the allocating lookup refines insertion into the map.  A block that
    is mapped is returned and nothing moves; a hole is filled with a block
    nobody had, which holds the sealed zero block of this file and index, or
    the call fails with the map as it was.  No other logical block of the
    file moves, the blocks the file has stay its own, and every block of
    anybody else keeps its contents, its place and its parity. *)
Theorem lookup_or_alloc_correct s f i now rc r fresh f' s' :
  wf_file s f -> par_ok s -> 8 <= room s -> file_block i -> fi_freeing f = false -> s_free_blocks s <> 0 ->
  beamfs_inline_lookup_or_alloc_phys_new c t cpu s f i now = (rc, r, fresh, f', s') ->
  wf_file s' f' /\ par_ok s' /\
  outcome c t cpu s s' (fi_ino f) i (fget s f i) (fget s' f' i) rc r fresh /\
  (forall j, file_block j -> j <> i -> fget s' f' j = fget s f j) /\
  (forall x, x ∈ file_blocks s f -> x ∈ file_blocks s' f') /\
  (forall x, allocated s' x <-> allocated s x \/ x ∈ file_blocks s' f') /\
  (forall x, allocated s x -> x ∉ file_blocks s f -> keeps s s' x).
Proof.
  intros Wf Par Hr Hi Fr F0 E.
  destruct (lookup_or_alloc_spec c t cpu s f i now rc r fresh f' s' Wf Par (viewed_none s) Hr Hi Fr F0 E) as (D' & _ & P' & _ & G & O).
  split_and!; [by split; [|apply G]|done|done| |apply G|apply G|apply G].
  intros j Hj Hne. apply (rgrown_get s s' f f' i j); [apply Wf|done..].
Qed.

(** C9: truncation is exact.  After beamfs_inline_free_blocks_from the file
    maps the logical blocks below [first] to what they were and nothing
    else; a block of the volume is in use afterwards exactly when it was and
    is not one the file has given up; the blocks of everybody else keep
    their contents and parity, and the file is well formed. *)
Theorem truncate_exact s f first f' s' :
  wf_file s f -> par_ok s -> failed s = false -> zlen (file_blocks s f) <= room s -> 0 <= first < 2 ^ 32 ->
  beamfs_inline_free_blocks_from true s f first = (f', s') ->
  wf_file s' f' /\
  (forall i, file_block i -> fget s' f' i = if i <? first then fget s f i else 0) /\
  (forall x, allocated s' x <-> allocated s x /\ (x ∉ file_blocks s f \/ x ∈ file_blocks s' f')) /\
  (forall x, allocated s x -> x ∉ file_blocks s f -> keeps s s' x).
Proof.
  intros Wf Par Hf Hr Hfirst E. destruct (free_blocks_from_spec s f first f' s' Wf Par Hf Hr Hfirst E). by split_and!.
Qed.

(** Eviction gives back every block of the inode, whether or not the
    list of blocks seen could be allocated, and no block of anybody else. *)
Theorem evict_releases_all kmalloc_ok s f f' s' :
  wf_file s f -> par_ok s -> failed s = false -> zlen (file_blocks s f) <= room s -> fi_type f <> S_IFLNK ->
  beamfs_free_data_blocks kmalloc_ok s f = (f', s') ->
  file_blocks s' f' = [] /\
  (forall x, allocated s' x <-> allocated s x /\ x ∉ file_blocks s f) /\
  (forall x, allocated s x -> x ∉ file_blocks s f -> keeps s s' x).
Proof.
  intros Wf Par Hf Hr Hty E. destruct (free_data_blocks_spec kmalloc_ok s f f' s' Wf Par Hf Hr Hty E) as [[_ _ _ _ A K] E0].
  split_and!; [done| |done]. intros x. rewrite A, E0. split; [|tauto]. intros [? [?|?%elem_of_nil]]; done.
Qed.

(** Beamfs_count_blocks counts the blocks of a file or directory, those
    that hold pointers included. *)
Theorem count_blocks_exact s f :
  wf_file s f -> par_ok s -> fi_type f = S_IFREG \/ fi_type f = S_IFDIR ->
  exists s', beamfs_count_blocks true s f = (0, zlen (file_blocks s f), s') /\ same s s'.
Proof. apply count_blocks_spec. Qed.

(** C7: files never share a block.  Whatever lookups, allocations,
    truncations and evictions are made for the files of a volume, in any
    order, every file stays well formed, no block belongs to two of them,
    and each step changes the map of one file at one hole or beyond one
    logical block. *)
Theorem files_never_share w w' :
  files_ok w -> rtc (fstep c t cpu) w w' -> files_ok w' /\ forall w'', fstep c t cpu w' w'' -> map_change w' w''.
Proof.
  intros Ok R. assert (Ok' : files_ok w').
  { revert Ok. induction R as [|w1 w2 w3 St _ IH]; intros Ok; [done|]. apply IH. by apply (fstep_ok c t cpu w1). }
  split; [done|]. intros w'' St. by apply (fstep_ok c t cpu w').
Qed.

(** The check of the free count comes before the lookup: on a volume
    with no free block the allocating lookup refuses a block that is mapped
    and needs no allocation, and with it the overwrite, the writeback or
    the tail zeroing that asked. *)
Theorem full_volume_refuses_mapped s f i now :
  wf_file s f -> par_ok s -> file_block i -> fi_freeing f = false -> s_free_blocks s = 0 -> fget s f i <> 0 ->
  beamfs_inline_lookup_or_alloc_phys_new c t cpu s f i now = (- ENOSPC, 0, false, f, s) /\
  exists s', beamfs_inline_lookup_phys s f i = (0, fget s f i, s').
Proof.
  intros Wf Par Hi Fr F0 _. split.
  - unfold beamfs_inline_lookup_or_alloc_phys_new. by rewrite Fr, F0.
  - destruct (lookup_phys_spec s f i Wf Par Hi) as (s' & E & _). by exists s'.
Qed.
End props.

(** ** On the small volume *)

(** The state of the example, on the allocator's small volume. *)
Definition xs : mounted ex_tables 0 := ex_state ex_vol ex_vol_alloc.
Definition x_par : par_ok xs := proj1 (ex_par_ok ex_vol ex_vol_alloc).
Definition x_failed : failed xs = false := proj2 (proj2 (proj2 (ex_par_ok ex_vol ex_vol_alloc))).
Definition x_wf : wf_file xs ex_file := ex_wf ex_vol ex_vol_alloc.
Definition x_room : 100 <= room xs := ex_room ex_vol ex_vol_alloc.
Definition x_blocks : file_blocks xs ex_file = [10; 11; 12; 13; 14] := ex_blocks ex_vol ex_vol_alloc.
Definition x_get : fget xs ex_file 17 = 14 /\ fget xs ex_file 0 = 10 /\ fget xs ex_file 20 = 0 := ex_fget ex_vol ex_vol_alloc.

Lemma lookup_phys_correct_witness : exists s', beamfs_inline_lookup_phys xs ex_file 17 = (0, 14, s').
Proof.
  destruct (lookup_phys_correct xs ex_file 17 x_wf x_par ltac:(lia)) as (s' & _ & E).
  change (17 <? BEAMFS_MAX_IBLOCK_TINDIRECT) with true in E. rewrite (proj1 x_get) in E. by exists s'.
Defined.

Lemma lookup_phys_fails_closed_witness : 14 = 0 \/ allocated xs 14.
Proof.
  destruct (lookup_phys_spec xs ex_file 17 x_wf x_par ltac:(by split)) as (s' & E & _).
  rewrite (proj1 x_get) in E. exact (lookup_phys_fails_closed xs ex_file 17 14 s' E).
Defined.

Lemma lookup_or_alloc_correct_witness : exists rc r fresh f' s',
  beamfs_inline_lookup_or_alloc_phys_new ex_cfg ex_tables 0 xs ex_file 20 (99, 0) = (rc, r, fresh, f', s') /\
  wf_file s' f' /\ fget s' f' 17 = 14.
Proof.
  destruct (beamfs_inline_lookup_or_alloc_phys_new ex_cfg ex_tables 0 xs ex_file 20 (99, 0)) as [[[[rc r] fresh] f'] s'] eqn:E.
  assert (F0 : s_free_blocks xs <> 0) by (unfold xs; rewrite ex_free; done).
  destruct (lookup_or_alloc_correct ex_cfg ex_tables 0 xs ex_file 20 (99, 0) rc r fresh f' s' x_wf x_par
    (Z.le_trans 8 100 _ ltac:(lia) x_room) ltac:(by split) eq_refl F0 E) as (W & _ & _ & M & _).
  exists rc, r, fresh, f', s'. split; [reflexivity|]. split; [exact W|]. rewrite M; [apply x_get|by split|done].
Defined.

Lemma truncate_exact_witness : exists f' s',
  beamfs_inline_free_blocks_from true xs ex_file 1 = (f', s') /\ fget s' f' 0 = 10 /\ fget s' f' 17 = 0.
Proof.
  destruct (beamfs_inline_free_blocks_from true xs ex_file 1) as [f' s'] eqn:E.
  destruct (truncate_exact xs ex_file 1 f' s' x_wf x_par x_failed) as (_ & M & _);
    [rewrite x_blocks; exact (Z.le_trans 5 100 _ ltac:(lia) x_room)|lia|exact E|].
  exists f', s'. split; [reflexivity|]. split; [rewrite M by (by split); apply x_get|by rewrite M by (by split)].
Defined.

Lemma evict_releases_all_witness : exists f' s',
  beamfs_free_data_blocks false xs ex_file = (f', s') /\ ~ allocated s' 14.
Proof.
  destruct (beamfs_free_data_blocks false xs ex_file) as [f' s'] eqn:E.
  destruct (evict_releases_all false xs ex_file f' s' x_wf x_par x_failed) as (_ & A & _);
    [rewrite x_blocks; exact (Z.le_trans 5 100 _ ltac:(lia) x_room)|done|exact E|].
  exists f', s'. split; [reflexivity|]. rewrite A, x_blocks. intros [_ H]. apply H. by apply (bool_decide_unpack _), I.
Defined.

Lemma count_blocks_exact_witness : exists s', beamfs_count_blocks true xs ex_file = (0, 5, s').
Proof.
  destruct (count_blocks_exact xs ex_file x_wf x_par (or_introl eq_refl)) as (s' & E & _).
  rewrite x_blocks in E. by exists s'.
Defined.

Lemma ex_files : files_ok (xs, [ex_file]).
Proof.
  split; cbn [fst snd]; [exact x_par| |].
  - intros [|k] f; [|done]. intros [= <-]. exact x_wf.
  - intros [|j] [|k] f g x Hne Hj Hk; done.
Qed.

Lemma files_never_share_witness : exists s', files_ok (s', [ex_file]) /\ rtc (fstep ex_cfg ex_tables 0) (xs, [ex_file]) (s', [ex_file]).
Proof.
  destruct (lookup_phys_spec xs ex_file 17 x_wf x_par ltac:(by split)) as (s' & E & _).
  assert (R : rtc (fstep ex_cfg ex_tables 0) (xs, [ex_file]) (s', [ex_file])).
  { apply rtc_once. exact (step_lookup ex_cfg ex_tables 0 xs [ex_file] 0%nat ex_file 17 _ _ s' eq_refl ltac:(by split) E). }
  exists s'. split; [|exact R]. exact (proj1 (files_never_share ex_cfg ex_tables 0 _ _ ex_files R)).
Defined.

Lemma full_volume_refuses_mapped_witness :
  let s := ex_state ex_full ex_full_alloc in
  beamfs_inline_lookup_or_alloc_phys_new ex_cfg ex_tables 0 s ex_file 17 (99, 0) = (- ENOSPC, 0, false, ex_file, s) /\
  exists s', beamfs_inline_lookup_phys s ex_file 17 = (0, 14, s').
Proof.
  cbv zeta. pose proof (full_volume_refuses_mapped ex_cfg ex_tables 0 (ex_state ex_full ex_full_alloc) ex_file 17 (99, 0)
    (ex_wf _ _) (proj1 (ex_par_ok _ _)) ltac:(by split) eq_refl (ex_free _ _)) as H.
  pose proof (proj1 (ex_fget ex_full ex_full_alloc)) as Eg.
  set (g := fget (ex_state ex_full ex_full_alloc) ex_file 17) in *. clearbody g. subst g. apply H. done.
Defined.

(** ** A mounted volume is steady

    What the contents of files are proved from, on the volume of the
    allocator, the parity and the buffers; and the file of the example with
    bytes in its blocks. *)

Section steady.
Context `{RL : !RsLib} `{RS : !RsLibSpec} `{CL : !CrcLib} (t : rs_tables) (cpu : nat).

Notation mounted := (mounted t cpu).

(** A volume of [n] blocks on which no write has failed. *)
Record vsteady (n : Z) (s : mounted) : Prop := {
  vs_scratch : v_scratch (vol t cpu s) = true;
  vs_failed : beamfs_failed (v_alloc (vol t cpu s)) = false;
  vs_uptodate b : v_uptodate (vol t cpu s) b = true;
  vs_nblocks : Alloc.s_nblocks (v_alloc (vol t cpu s)) = n;
  vs_size : 0 <= n }.

Definition vkept (s s' : mounted) : Prop :=
  v_scratch (vol t cpu s') = v_scratch (vol t cpu s) /\ v_uptodate (vol t cpu s') = v_uptodate (vol t cpu s) /\
  beamfs_failed (v_alloc (vol t cpu s')) = beamfs_failed (v_alloc (vol t cpu s)) /\
  Alloc.s_nblocks (v_alloc (vol t cpu s')) = Alloc.s_nblocks (v_alloc (vol t cpu s)).

Lemma vsteady_kept n s s' : vkept s s' -> vsteady n s -> vsteady n s'.
Proof. intros (E1 & E2 & E3 & E4) [? ? ? ? ?]. split; try congruence. Qed.

Lemma vkept_alloc s owner : vkept s (snd (valloc t cpu s owner)).
Proof.
  destruct (valloc t cpu s owner) as [b s'] eqn:E. destruct (valloc_spec t cpu s owner b s' E) as (_ & _ & _ & _ & F & C).
  injection E as _ <-. split_and!; [done|done|exact F|]. cbn [snd]. destruct C as [[_ (N & _)]|(_ & _ & _ & _ & (N & _))]; exact N.
Qed.

Lemma vkept_free s b owner : vkept s (vfree t cpu s b owner).
Proof.
  destruct (vfree_spec t cpu s b owner) as (_ & _ & _ & _ & F & C). split_and!; [done|done|exact F|].
  destruct C as [[E _]|(N & _)]; [by rewrite E|exact N].
Qed.

Lemma vkept_update s b p ino : vkept s (vupdate t cpu s b p ino).
Proof.
  unfold vkept, vupdate, step. cbn [vol proj1_sig]. fold (vol t cpu s).
  by destruct (beamfs_ind_parity_update t cpu (v_env (vol t cpu s)) (v_caches (vol t cpu s)) (v_parity (vol t cpu s)) b p (Some ino)).
Qed.

Lemma vverify_kept s b p : vkept s (snd (vverify t cpu s b p)) /\
  Alloc.s_free_blocks (v_alloc (vol t cpu (snd (vverify t cpu s b p)))) = Alloc.s_free_blocks (v_alloc (vol t cpu s)).
Proof.
  unfold vkept, vverify, step. cbn [snd vol proj1_sig]. fold (vol t cpu s).
  by destruct (beamfs_ind_parity_verify t cpu (v_env (vol t cpu s)) (v_caches (vol t cpu s)) (v_parity (vol t cpu s)) b p) as [[? ?] ?].
Qed.

Definition vol_steady (n : Z) : Steady mounted.
Proof.
  refine {| steady := vsteady n; capacity := n |}.
  - intros s H. apply H.
  - intros s H. apply H.
  - intros s b H. apply H.
  - intros s [_ _ _ E H]. cbn. lia.
  - intros s calls. by apply vsteady_kept.
  - intros s x. by apply vsteady_kept.
  - intros s b p. apply vsteady_kept, vverify_kept.
  - intros s b p ino. apply vsteady_kept, vkept_update.
  - intros s b p. by apply vsteady_kept.
  - intros s ino. apply vsteady_kept, vkept_alloc.
  - intros s b ino. apply vsteady_kept, vkept_free.
  - intros s b. apply vsteady_kept, vkept_free.
  - done.
  - intros s b p. apply vverify_kept.
  - done.
Defined.
End steady.

#[local] Existing Instance no_view.

(** ** The example, with bytes *)

Definition x_steady : Steady (mounted ex_tables 0) := vol_steady ex_tables 0 24.

(** Block 0 of the file is full of one byte, the others of zeroes. *)
Definition ex_bytes : list Z := replicate 4096 65.
Definition ex_data (i : Z) : list Z := snd (build_data_block ex_cfg ex_tables 0 (zeros 4096) (if i =? 0 then ex_bytes else zeros 4096) 7 i).
Definition ex_content (p : Z) : Z := if (0 <=? p) && (p <? beamfs_block_payload ex_cfg) then 65 else 0.

Definition xf : mounted ex_tables 0 := bput (bput (bput (bput xs 10 (ex_data 0)) 11 (ex_data 1)) 13 (ex_data 12)) 14 (ex_data 17).

Lemma x_ready : ready ex_tables 0.
Proof. by vm_compute. Qed.

Lemma ex_sealed i : sealed ex_cfg ex_tables 0 7 i (if i =? 0 then ex_bytes else zeros 4096) (ex_data i).
Proof.
  unfold ex_data. set (pay := if i =? 0 then ex_bytes else zeros 4096).
  destruct (build_ok ex_cfg ex_tables 0 (zeros 4096) pay 7 i x_ready) as (blk & -> & Se); [by rewrite zlen_zeros|apply bytes_zeros| | |exact Se].
  - unfold pay. destruct (i =? 0); [by apply bytes_check|apply bytes_zeros].
  - pose proof (payload_range ex_cfg). unfold pay. destruct (i =? 0); [change (zlen ex_bytes) with 4096; lia|rewrite zlen_zeros; lia].
Qed.

Lemma ex_map i : file_block i -> fget xs ex_file i = if i =? 0 then 10 else if i =? 1 then 11 else if i =? 12 then 13 else if i =? 17 then 14 else 0.
Proof.
  intros Hi. destruct (path_root ex_file i eq_refl Hi) as (b & Hb & Eb). rewrite (fget_path xs ex_file i b Hb).
  assert (Hh : held xs 12 = ex_page) by (unfold held; by rewrite (ex_held ex_vol ex_vol_alloc : bread xs 12 = Some ex_page)).
  assert (Hp : path i = if i <? 12 then (Z.to_nat i, []) else if i <? 524 then (12%nat, [i - 12])
    else if i <? 262668 then (13%nat, dind_slots i) else (14%nat, tind_slots i)) by (unfold path; path_consts; reflexivity).
  assert (Z0 : forall sl, tree_get xs 0 sl = 0) by (by intros [|? ?]).
  rewrite Hp. subst b. clear Hb Hp. destruct (Z.ltb_spec i 12) as [H|H]; [|destruct (Z.ltb_spec i 524) as [H'|H']].
  - cbn [snd tree_get]. unfold file_block in Hi.
    assert (F : forallb (fun i => (if getb (fi_direct ex_file) i =? 0 then 0 else getb (fi_direct ex_file) i) =?
      (if i =? 0 then 10 else if i =? 1 then 11 else if i =? 12 then 13 else if i =? 17 then 14 else 0)) (upto 12) = true) by (by vm_compute).
    rewrite forallb_forall in F. apply Z.eqb_eq, F. apply list_elem_of_In, elem_of_seqZ. lia.
  - cbn [snd ex_file fi_indirect]. cbn [tree_get]. rewrite Hh. change (12 =? 0) with false. cbn iota.
    assert (F : forallb (fun j => (if ptr ex_page j =? 0 then 0 else ptr ex_page j) =?
      (if j =? 0 then 13 else if j =? 5 then 14 else 0)) (upto 512) = true) by (by vm_compute).
    rewrite forallb_forall in F. specialize (F (i - 12) ltac:(apply list_elem_of_In, elem_of_seqZ; lia)). apply Z.eqb_eq in F. rewrite F.
    destruct (Z.eqb_spec i 0), (Z.eqb_spec i 1), (Z.eqb_spec i 12), (Z.eqb_spec i 17), (Z.eqb_spec (i - 12) 0), (Z.eqb_spec (i - 12) 5); try lia; done.
  - destruct (Z.eqb_spec i 0), (Z.eqb_spec i 1), (Z.eqb_spec i 12), (Z.eqb_spec i 17); try lia.
    destruct (i <? 262668); cbn [snd ex_file fi_dindirect fi_tindirect]; apply Z0.
Qed.

(** Putting data in a block of the file keeps its map. *)
Record xkeeps (s : mounted ex_tables 0) : Prop := {
  xk_wf : wf_file s ex_file;
  xk_par : par_ok s;
  xk_blocks : file_blocks s ex_file = [10; 11; 12; 13; 14];
  xk_map i : file_block i -> fget s ex_file i = fget xs ex_file i;
  xk_steady : vsteady ex_tables 0 24 s;
  xk_free : s_free_blocks s = s_free_blocks xs;
  xk_room : room s = room xs }.

Lemma xw_steady : vsteady ex_tables 0 24 (ex_written ex_vol ex_vol_alloc).
Proof. split; [exact eq_refl|exact (ea_failed _ ex_vol_alloc)|intros b; exact eq_refl|exact (ea_nblocks _ ex_vol_alloc)|lia]. Qed.

Lemma xs_keeps : xkeeps xs.
Proof.
  split; [exact x_wf|exact x_par|exact x_blocks|intros i Hi; exact eq_refl| |exact eq_refl|exact eq_refl].
  exact (vsteady_kept ex_tables 0 24 _ _ (vkept_update ex_tables 0 (ex_written ex_vol ex_vol_alloc) 12 ex_page 7) xw_steady).
Qed.

Lemma xput_keeps s i p : xkeeps s -> file_block i -> fget xs ex_file i <> 0 -> xkeeps (bput s (fget xs ex_file i) p).
Proof.
  intros [W Par Bl Mp St Fr Rm] Hi Hne. rewrite <- (Mp i Hi) in Hne |- *. destruct (file_put s ex_file i p W Hi Hne) as (F1 & F2 & F3).
  split; [exact F1|exact (proj1 (bput_par s (fget s ex_file i) p) Par)|by rewrite F2| | | |].
  - intros j Hj. by rewrite F3, Mp.
  - exact (vsteady_kept ex_tables 0 24 s (bput s (fget s ex_file i) p) (conj eq_refl (conj eq_refl (conj eq_refl eq_refl))) St).
  - rewrite <- Fr. exact eq_refl.
  - rewrite <- Rm. exact eq_refl.
Qed.

Lemma xf_keeps : xkeeps xf.
Proof.
  pose proof (xput_keeps xs 0 (ex_data 0) xs_keeps ltac:(by split)) as H0. rewrite ex_map in H0 by (by split). specialize (H0 ltac:(done)).
  pose proof (xput_keeps _ 1 (ex_data 1) H0 ltac:(by split)) as H1. rewrite ex_map in H1 by (by split). specialize (H1 ltac:(done)).
  pose proof (xput_keeps _ 12 (ex_data 12) H1 ltac:(by split)) as H2. rewrite ex_map in H2 by (by split). specialize (H2 ltac:(done)).
  pose proof (xput_keeps _ 17 (ex_data 17) H2 ltac:(by split)) as H3. rewrite ex_map in H3 by (by split). exact (H3 ltac:(done)).
Qed.

Lemma xf_read i b : In (i, b) [(0, 10); (1, 11); (12, 13); (17, 14)] -> bread xf b = Some (ex_data i).
Proof.
  unfold xf. intros [E|[E|[E|[E|[]]]]]; injection E as <- <-; repeat (rewrite bput_other by done); by rewrite bput_same.
Qed.

Lemma xf_maps : file_maps ex_cfg ex_tables 0 xf ex_file ex_content.
Proof.
  destruct xf_keeps as [W Par _ Mp _ _ _]. split; [done|done|]. intros i Hi. unfold block_holds. rewrite (Mp i Hi), (ex_map i Hi).
  assert (HC : forall u, 0 <= u < beamfs_block_payload ex_cfg -> getb (if i =? 0 then ex_bytes else zeros 4096) u = ex_content (i * beamfs_block_payload ex_cfg + u)).
  { intros u Hu. pose proof (payload_range ex_cfg). unfold ex_content, file_block in *. destruct (Z.eqb_spec i 0) as [->|Hn].
    - rewrite (proj2 (Z.leb_le _ _)), (proj2 (Z.ltb_lt _ _)) by lia. cbn [andb]. unfold getb, ex_bytes. rewrite (nth_lookup_Some _ _ _ 65); [done|]. apply lookup_replicate_2. lia.
    - rewrite getb_zeros. rewrite (proj2 (Z.ltb_ge _ _)) by nia. by rewrite andb_false_r. }
  assert (Hold : forall b, In (i, b) [(0, 10); (1, 11); (12, 13); (17, 14)] -> exists raw pay, bread xf b = Some raw /\ sealed ex_cfg ex_tables 0 (fi_ino ex_file) i pay raw /\
    forall u, 0 <= u < beamfs_block_payload ex_cfg -> getb pay u = ex_content (i * beamfs_block_payload ex_cfg + u)).
  { intros b Hb. exists (ex_data i), (if i =? 0 then ex_bytes else zeros 4096). split; [by apply xf_read|]. split; [apply ex_sealed|exact HC]. }
  destruct (Z.eqb_spec i 0) as [->|H0]; [split; [done|intros _; apply Hold; cbn; tauto]|].
  destruct (Z.eqb_spec i 1) as [->|H1]; [split; [done|intros _; apply Hold; cbn; tauto]|].
  destruct (Z.eqb_spec i 12) as [->|H2]; [split; [done|intros _; apply Hold; cbn; tauto]|].
  destruct (Z.eqb_spec i 17) as [->|H3]; [split; [done|intros _; apply Hold; cbn; tauto]|].
  split; [|done]. intros _ u Hu. rewrite <- HC by done. apply getb_zeros.
Qed.

Lemma xf_holds : file_holds ex_cfg ex_tables 0 xf ex_file ex_content.
Proof.
  split; [exact xf_maps|by vm_compute|]. intros p Hp. unfold ex_content. pose proof (payload_range ex_cfg). cbn in Hp.
  rewrite (proj2 (Z.ltb_ge _ _)) by lia. by rewrite andb_false_r.
Qed.
