(* ===== verification/FileIoProps.v ===== *)
(** * What reading, mapping, truncating and writing back promise *)

From stdpp Require Import gmap.
From S2P Require Import Prelude Format Crc RsInit GF RsTheory RsCode RsCorrect RsDecode RsLib RsComplete Edac EdacWord EdacBlock EdacLayouts EdacTheorems Dirent FileData Super Alloc AllocProps Dir DirTree FileDataTheorems FileTree FileSteady FileIo FileWriteback WbCount FileMap FileGrow FileTheorems FileFree FileTruncate FileContent FileIoTheorems WbContent Volume FileProps.

#[local] Existing Instance no_view.

Section props.
Context {S : Type} `{RL : !RsLib} `{RS : !RsLibSpec} `{RB : !RsLibBounded} `{CL : !CrcLib} `{TO : TreeEnvOk S} `{SS : !Steady S}.
Context (c : data_cfg) (t : rs_tables) (cpu : nat) (stk : stack_arrays).

Abbreviation P := (beamfs_block_payload c).
Notation file_holds := (file_holds c t cpu).

(** C12: a folio read is the file.  read_folio_range fills the range it is
    asked for with exactly the bytes the file holds, across the blocks that
    back it, with zeroes for holes and beyond the end, through whatever
    damage the blocks tolerate; the rest of the folio, the file and the
    volume stay. *)
Theorem read_folio_exact s f C folio pos len :
  ready t cpu -> steady s -> file_holds s f C -> 0 <= pos -> 0 <= len -> zlen folio = 4096 -> pos mod 4096 + len <= 4096 ->
  exists folio' s', beamfs_inline_read_folio_range c t cpu stk s f folio pos len = (0, folio', s') /\ same s s' /\ zlen folio' = 4096 /\
    forall k, 0 <= k -> getb folio' k = if bool_decide (pos mod 4096 <= k < pos mod 4096 + len) then C (pos - pos mod 4096 + k) else getb folio k.
Proof.
  intros Hr St H Hp Hl Zf Hpg. destruct (read_range_spec c t cpu stk Hr fetch_read s f C folio pos len fetch_read_ok St H Hp Hl Zf Hpg) as (folio' & s' & E & St' & Sm & Z' & F).
  exists folio', s'. split_and!; [done|done|congruence|]. intros k Hk. rewrite F by done. case_bool_decide; [|done]. f_equal. lia.
Qed.

(** C13: truncation is a truncation of the bytes.  A setattr to size [n] that
    succeeds leaves the bytes below [n] as they were and zeroes beyond,
    with size [n]; blocks of others keep their contents, and the file gains
    none of them.  It fails only when it shrinks into the middle of a block
    and that block is a hole that cannot be filled, or the volume has no
    free block, mapped though the block may be; the size is [n] even then,
    and the blocks still hold every byte. *)
Theorem truncate_content copy s f C n now rc f' s' :
  ready t cpu -> copies copy -> steady s -> file_holds s f C -> capacity + 8 <= room s ->
  fi_freeing f = false -> 0 <= n <= BEAMFS_MAX_IBLOCK_TINDIRECT * P ->
  beamfs_inline_setattr c t cpu stk true (fun _ => 0) 0 0 copy s f (Some n) now = (rc, f', s') ->
  apart s f s' f' /\
  (rc = 0 /\ fi_size f' = n /\ file_holds s' f' (fun p => if p <? n then C p else 0) \/
   rc < 0 /\ n < fi_size f /\ n mod P <> 0 /\ (fget s f (n / P) = 0 \/ s_free_blocks s = 0) /\
   fi_size f' = n /\ file_maps c t cpu s' f' C).
Proof. intros Hr Hc St H Rm Fr Hn E. by destruct (setattr_spec c t cpu stk Hr copy s f C n now rc f' s' Hc St H Rm Fr Hn E) as (_ & ?). Qed.

Lemma holds_meta s f C s' f' : file_holds s f C -> file_maps c t cpu s' f' C -> same_meta f f' -> file_holds s' f' C.
Proof. intros [_ H2 H3] M (_ & _ & E & _). split; [done|by rewrite E|by rewrite E]. Qed.

Lemma begin_holds s f C pos length flags now rc m f' s' :
  ready t cpu -> steady s -> file_holds s f C -> 8 <= room s -> fi_freeing f = false -> s_free_blocks s <> 0 ->
  0 <= pos < BEAMFS_MAX_IBLOCK_TINDIRECT * P -> 0 < length ->
  beamfs_inline_iomap_begin c t cpu s f pos length flags now = (rc, m, f', s') ->
  steady s' /\ file_holds s' f' C /\ room s - 8 <= room s' /\ apart s f s' f' /\
  (rc = 0 -> im_offset m = pos /\ 0 < im_length m <= length /\
    match im_type m with
    | IOMAP_MAPPED => fget s' f' (pos / P) <> 0 /\ im_addr m = fget s' f' (pos / P) * BEAMFS_BLOCK_SIZE
    | IOMAP_HOLE => Z.land flags IOMAP_WRITE = 0 /\ (fget s' f' (pos / P) = 0 \/ fi_size f <= pos)
    end).
Proof.
  intros Hr St H Rm Fr F0 Hp Hl. pose proof (payload_range c) as HP. destruct (block_of c pos Hp) as (Hi & Ho & _). unfold beamfs_inline_iomap_begin.
  set (b := pos / P) in *. pose proof (fh_maps _ _ _ _ _ _ H) as HM.
  destruct (Z.eqb_spec (Z.land flags IOMAP_WRITE) 0) as [Ew|Ew]; cbn [negb andb].
  - destruct (Z.leb_spec (fi_size f) pos) as [He|He].
    { intros [= <- <- <- <-]. split_and!; [done|done|lia|apply apart_refl|]. intros _. cbn. split_and!; [done|lia|lia|done|by right]. }
    set (len := if negb _ then _ else _). assert (Hlen : 0 < len <= length) by (unfold len; destruct (negb _); lia).
    destruct (lookup_maps c t cpu s f C b St HM Hi) as (s1 & -> & Sm & St1 & _ & M1 & G1). cbn [Z.eqb andb].
    pose proof (file_holds_same c t cpu s s1 f C Sm H) as H1. pose proof (sm_room _ _ Sm) as R1.
    assert (A1 : apart s f s1 f) by (apply apart_same; [apply HM|done]).
    destruct (Z.eqb_spec (fget s f b) 0) as [E0|E0].
    + unfold gate, beamfs_phys_is_sane. rewrite E0. cbn [Z.eqb Z.ltb Z.compare]. intros [= <- <- <- <-]. split_and!; [done|done|lia|done|]. intros _. cbn.
      split_and!; [done|lia|lia|done|left; by rewrite G1].
    + rewrite (gate_ok s1 (fget s f b)) by (apply (sm_alloc _ _ Sm); apply leaf_allocated; [apply HM|done|done]). cbn [Z.ltb Z.compare].
      intros [= <- <- <- <-]. split_and!; [done|done|lia|done|]. intros _. cbn. rewrite G1 by done. split_and!; [done|lia|lia|done|done].
  - rewrite (steady_failed s St). set (len := if negb _ then _ else _). assert (Hlen : 0 < len <= length) by (unfold len; destruct (negb _); lia).
    destruct (beamfs_inline_lookup_or_alloc_phys_new c t cpu s f b now) as [[[[rc1 r] fresh] f1] s1] eqn:E1.
    destruct (maps_alloc c t cpu s f C b now rc1 r fresh f1 s1 Hr HM Rm Hi Fr F0 E1) as (M1 & R1 & Me & O & _ & A1).
    pose proof (alloc_steady c t cpu s f b now St) as St1. rewrite E1 in St1. cbn [snd] in St1. pose proof (holds_meta s f C s1 f1 H M1 Me) as H1.
    destruct O as [(-> & Hne & Eg & _)|(Hrc & -> & _)].
    + rewrite (gate_ok s1 r) by (rewrite <- Eg; apply leaf_allocated; [apply M1|done|by rewrite Eg]). cbn [Z.ltb Z.compare].
      destruct (Z.eqb_spec r 0); [done|]. intros [= <- <- <- <-]. split_and!; [done|done|done|done|]. intros _. cbn. rewrite Eg. split_and!; [done|lia|lia|done|done].
    + rewrite gate_err by lia. destruct (Z.ltb_spec rc1 0); [|lia]. intros [= <- <- <- <-]. split_and!; [done|done|done|done|]. lia.
Qed.

Lemma end_holds s f C pos length written flags m f' s' :
  steady s -> file_holds s f C -> capacity <= room s -> 0 <= pos -> 0 <= written -> pos + length <= BEAMFS_MAX_IBLOCK_TINDIRECT * P ->
  beamfs_inline_iomap_end c true s f pos length written flags m = (f', s') -> file_holds s' f' C /\ apart s f s' f'.
Proof.
  intros St H Rm Hp Hw Hb. pose proof (payload_range c) as HP. unfold beamfs_inline_iomap_end.
  assert (Id : file_holds s f C /\ apart s f s f) by (split; [done|apply apart_refl]).
  destruct (_ || _); [by intros [= <- <-]|]. destruct (Z.ltb_spec written 0); [lia|]. destruct (Z.leb_spec length written); [by intros [= <- <-]|]. cbn [orb].
  destruct (_ <=? _); [by intros [= <- <-]|]. destruct (Z.ltb_spec (DIV_ROUND_UP (pos + written) P) (DIV_ROUND_UP (fi_size f) P)) as [|Hge]; [by intros [= <- <-]|].
  intros E. set (first := DIV_ROUND_UP (pos + written) P) in *.
  assert (Hfirst : 0 <= first < 2 ^ 32).
  { unfold first, DIV_ROUND_UP. change BEAMFS_MAX_IBLOCK_TINDIRECT with 134480396 in Hb. split; [apply Z.div_pos; lia|]. apply Z.div_lt_upper_bound; lia. }
  pose proof (file_blocks_bound s f St (fm_wf _ _ _ _ _ _ (fh_maps _ _ _ _ _ _ H))) as Bd.
  destruct (maps_cut c t cpu s f C first f' s' (fh_maps _ _ _ _ _ _ H) (steady_failed s St) ltac:(lia) Hfirst E) as (M' & Me & A' & _).
  split; [|done]. apply (holds_meta s f); [done| |done]. apply (maps_ext c t cpu s' f' (fun p => if p <? first * P then C p else 0)); [|done].
  intros p _. destruct (Z.ltb_spec p (first * P)) as [|Hpast]; [done|]. apply (fh_end _ _ _ _ _ _ H).
  assert (fi_size f <= DIV_ROUND_UP (fi_size f) P * P) by (unfold DIV_ROUND_UP; pose proof (Z.div_mod (fi_size f + P - 1) P ltac:(lia)); pose proof (Z.mod_pos_bound (fi_size f + P - 1) P ltac:(lia)); lia).
  nia.
Qed.

(** C14: mapping a range changes no byte.  iomap_begin, reading or writing,
    and the iomap_end that follows it after any part of the range was
    written, keep every byte of the file and every block of others; a
    mapping names the block that backs the position, and for a write there
    is one. *)
Theorem mapping_keeps_content s f C pos length flags now rc m f' s' written f'' s'' :
  ready t cpu -> steady s -> file_holds s f C -> capacity + 8 <= room s -> fi_freeing f = false -> s_free_blocks s <> 0 ->
  0 <= pos -> 0 < length -> pos + length <= BEAMFS_MAX_IBLOCK_TINDIRECT * P -> 0 <= written ->
  beamfs_inline_iomap_begin c t cpu s f pos length flags now = (rc, m, f', s') ->
  beamfs_inline_iomap_end c true s' f' pos length written flags m = (f'', s'') ->
  (file_holds s' f' C /\ apart s f s' f') /\ (file_holds s'' f'' C /\ apart s f s'' f'') /\
  (rc = 0 -> im_offset m = pos /\ 0 < im_length m <= length /\
    match im_type m with
    | IOMAP_MAPPED => fget s' f' (pos / P) <> 0 /\ im_addr m = fget s' f' (pos / P) * BEAMFS_BLOCK_SIZE
    | IOMAP_HOLE => Z.land flags IOMAP_WRITE = 0 /\ (fget s' f' (pos / P) = 0 \/ fi_size f <= pos)
    end).
Proof.
  intros Hr St H Rm Fr F0 Hp Hl Hb Hw E1 E2. pose proof (steady_capacity s St).
  destruct (begin_holds s f C pos length flags now rc m f' s' Hr St H ltac:(lia) Fr F0 ltac:(lia) Hl E1) as (St1 & H1 & R1 & A1 & O).
  destruct (end_holds s' f' C pos length written flags m f'' s'' St1 H1 ltac:(lia) Hp Hw Hb E2) as [H2 A2].
  split_and!; try done. by apply (apart_trans s f s' f').
Qed.


(** C11: every folio is finished, and once.  Whatever fails in a pass,
    allocations, reads, encodings, bios, and in whatever order its bios
    complete, after the end of the pass and the completion of every bio the
    folios finished are exactly those writeback_range took over, each as
    often as it was taken, and no counter of a folio is left. *)
Theorem folios_finished_once s f now l K error order ends :
  Forall wb_event_ok l ->
  let '(taken, w1) := wb_run c t cpu stk now l (wb_start s f) in
  let w2 := snd (beamfs_inline_writeback_submit c t cpu stk K error w1) in
  completions K (length (p_inflight w2)) order = Some ends ->
  let w3 := snd (wb_run c t cpu stk now ends w2) in
  p_inflight w3 = [] /\ p_owners w3 = ∅ /\ p_finished w3 ≡ₚ taken.
Proof. apply finished_once. pose proof (payload_range c). lia. Qed.
End props.

(** ** Witnesses *)

#[local] Existing Instance x_steady.

Lemma xf_steady : steady xf.
Proof. exact (xk_steady _ xf_keeps). Qed.

Lemma xf_room : capacity + 8 <= room xf.
Proof. rewrite (xk_room _ xf_keeps). change (24 + 8 <= room xs). pose proof x_room. lia. Qed.

Lemma xf_free : s_free_blocks xf <> 0.
Proof. rewrite (xk_free _ xf_keeps). rewrite (ex_free ex_vol ex_vol_alloc : s_free_blocks xs = _). by vm_compute. Qed.

Lemma xf_get i : file_block i -> fget xf ex_file i = if i =? 0 then 10 else if i =? 1 then 11 else if i =? 12 then 13 else if i =? 17 then 14 else 0.
Proof. intros Hi. rewrite (xk_map _ xf_keeps i Hi). by apply ex_map. Qed.

Lemma read_folio_exact_witness : exists folio' s',
  beamfs_inline_read_folio_range ex_cfg ex_tables 0 ex_stack xf ex_file (zeros 4096) 0 4096 = (0, folio', s') /\ getb folio' 5 = 65 /\ getb folio' 4000 = 0.
Proof.
  destruct (read_folio_exact ex_cfg ex_tables 0 ex_stack xf ex_file ex_content (zeros 4096) 0 4096 x_ready xf_steady xf_holds ltac:(lia) ltac:(lia) eq_refl ltac:(by vm_compute))
    as (folio' & s' & E & _ & _ & F).
  exists folio', s'. split; [exact E|]. split; (rewrite F by lia; by vm_compute).
Defined.

Lemma copies_id : copies (fun f => f).
Proof. intros f. split; [by split|by split_and!]. Qed.

Lemma truncate_content_witness : exists f' s',
  beamfs_inline_setattr ex_cfg ex_tables 0 ex_stack true (fun _ => 0) 0 0 (fun f => f) xf ex_file (Some 100) (99, 0) = (0, f', s') /\
  fi_size f' = 100 /\ file_holds ex_cfg ex_tables 0 s' f' (fun p => if p <? 100 then ex_content p else 0).
Proof.
  destruct (beamfs_inline_setattr ex_cfg ex_tables 0 ex_stack true (fun _ => 0) 0 0 (fun f => f) xf ex_file (Some 100) (99, 0)) as [[rc f'] s'] eqn:E.
  assert (Hn : 0 <= 100 <= BEAMFS_MAX_IBLOCK_TINDIRECT * beamfs_block_payload ex_cfg) by (clear; by vm_compute).
  destruct (truncate_content ex_cfg ex_tables 0 ex_stack (fun f => f) xf ex_file ex_content 100 (99, 0) rc f' s' x_ready copies_id
    xf_steady xf_holds xf_room eq_refl Hn E) as [_ [(-> & Hs & Hh)|(_ & _ & _ & [H0|H0] & _)]].
  - exists f', s'. split; [reflexivity|]. split; [exact Hs|exact Hh].
  - change (100 / beamfs_block_payload ex_cfg) with 0 in H0. rewrite (xf_get 0 ltac:(clear; by split)) in H0. discriminate H0.
  - destruct (xf_free H0).
Defined.

Lemma mapping_keeps_content_witness : exists rc m f' s',
  beamfs_inline_iomap_begin ex_cfg ex_tables 0 xf ex_file 8000 100 IOMAP_WRITE (99, 0) = (rc, m, f', s') /\ file_holds ex_cfg ex_tables 0 s' f' ex_content.
Proof.
  destruct (beamfs_inline_iomap_begin ex_cfg ex_tables 0 xf ex_file 8000 100 IOMAP_WRITE (99, 0)) as [[[rc m] f'] s'] eqn:E1.
  assert (Hn : 8000 + 100 <= BEAMFS_MAX_IBLOCK_TINDIRECT * beamfs_block_payload ex_cfg) by (clear; by vm_compute).
  destruct (beamfs_inline_iomap_end ex_cfg true s' f' 8000 100 50 IOMAP_WRITE m) as [f'' s''] eqn:E2.
  destruct (mapping_keeps_content ex_cfg ex_tables 0 xf ex_file ex_content 8000 100 IOMAP_WRITE (99, 0) rc m f' s' 50 f'' s'' x_ready xf_steady xf_holds xf_room eq_refl xf_free
    ltac:(lia) ltac:(lia) Hn ltac:(lia) E1 E2) as ([H _] & _ & _).
  exists rc, m, f', s'. split; [reflexivity|exact H].
Defined.

(** One page over the first two blocks of the file. *)
Definition ex_kernel : wb_kernel := WbKernel (fun b => b =? 11) true (fun _ => true) (fun _ => true) (fun _ => false) (fun _ => zeros 4096).
Definition ex_dirty : list wb_event := [WbRange ex_kernel (replicate 4096 66) 0 4096].

Lemma ex_calm : calm (fun b => b =? 11) ex_kernel.
Proof. split; [done..|]. intros b. split; [done|apply bytes_zeros]. Qed.

Lemma ex_mapped q : 0 <= q < 0 + 4096 -> file_block (q / beamfs_block_payload ex_cfg) /\ fget xf ex_file (q / beamfs_block_payload ex_cfg) <> 0.
Proof.
  intros Hq. pose proof (payload_range ex_cfg) as HP.
  assert (E : q / beamfs_block_payload ex_cfg = 0 \/ q / beamfs_block_payload ex_cfg = 1).
  { assert (0 <= q / beamfs_block_payload ex_cfg < 2) by (split; [apply Z.div_pos; lia|apply Z.div_lt_upper_bound; lia]). lia. }
  destruct E as [-> | ->]; (split; [by split|]); (rewrite xf_get by (by split)); done.
Qed.


Lemma folios_finished_once_witness : exists w3 : wpass (mounted ex_tables 0), p_owners w3 = (∅ : gmap Z beamfs_wb_folio) /\
  p_finished w3 ≡ₚ fst (wb_run ex_cfg ex_tables 0 ex_stack (99, 0) ex_dirty (wb_start xf ex_file)).
Proof.
  pose proof (folios_finished_once ex_cfg ex_tables 0 ex_stack xf ex_file (99, 0) ex_dirty ex_kernel 0) as H.
  destruct (wb_run ex_cfg ex_tables 0 ex_stack (99, 0) ex_dirty (wb_start xf ex_file)) as [taken w1].
  set (w2 := snd (beamfs_inline_writeback_submit ex_cfg ex_tables 0 ex_stack ex_kernel 0 w1)) in *.
  specialize (H (replicate (length (p_inflight w2)) (O, true)) (replicate (length (p_inflight w2)) (WbEndBio ex_kernel O true))).
  destruct H as (_ & Ho & Hf).
  - constructor; [cbn; lia|constructor].
  - apply completions_oldest.
  - eexists. split; [exact Ho|exact Hf].
Defined.
