(* ===== verification/Inode.v ===== *)
(** * Inode records (inode.c, namei.c)

    Sixteen records of 256 bytes to a block of the inode table: 172 bytes
    of fields with a CRC among them, then their Reed-Solomon parity.  The
    record is written by beamfs_write_inode_raw_flags and read, checked and
    repaired by beamfs_iget. *)

From stdpp Require Import gmap.
From S2P Require Import Prelude Format Crc RsInit RsLib Edac Dirent.

Definition ESTALE : Z := 116.
Definition NSEC_PER_SEC : Z := 1000000000.
Definition BEAMFS_RESERVED_INO_ROOT : Z := 1.
Definition BEAMFS_DATA_PROTECTION_INODE_UNIVERSAL : Z := 5.

(** (s64)x *)
Definition s64 (x : Z) : Z := let y := u64 x in if y <? 2 ^ 63 then y else y - 2 ^ 64.

(** ** The inode in memory *)

(** Times are (seconds, nanoseconds); owners are the numbers that
    i_uid_read and i_gid_read give. *)
Record vinode := VInode {
  vi_mode : Z;
  vi_nlink : Z;
  vi_uid : Z;
  vi_gid : Z;
  vi_size : Z;
  vi_atime : Z * Z;
  vi_mtime : Z * Z;
  vi_ctime : Z * Z;
  vi_flags : Z;
  vi_direct : list Z;
  vi_indirect : Z;
  vi_dindirect : Z;
  vi_tindirect : Z }.

(** The operations an inode gets. *)
Inductive iops := IopsDir | IopsInlineFile | IopsFile | IopsSymlink | IopsSpecial.

(** What the code reads of the mount, and the blocks of the inode table
    that beamfs_bread returns. *)
Record itable := ITable {
  it_failed : bool;
  it_inode_count : Z;
  it_table_blk : Z;
  it_scheme : Z;                      (** s_data_protection_scheme *)
  it_feat_incompat : Z;
  it_buffers : gmap Z (list Z);
  it_dirty : list Z;                  (** mark_buffer_dirty, in order *)
  it_calls : list rs_call }.

Definition put_table (T : itable) (blk : Z) (b : list Z) (calls : list rs_call) : itable :=
  ITable (it_failed T) (it_inode_count T) (it_table_blk T) (it_scheme T) (it_feat_incompat T)
    (<[blk := b]> (it_buffers T)) (blk :: it_dirty T) (it_calls T ++ calls).

(** The block of the table that holds inode [ino], and its offset there. *)
Definition inodes_per_block : Z := BEAMFS_BLOCK_SIZE / sizeof_inode.
Definition inode_block (T : itable) (ino : Z) : Z := it_table_blk T + (ino - 1) / inodes_per_block.
Definition inode_offset (ino : Z) : Z := ((ino - 1) mod inodes_per_block) * sizeof_inode.

(** ** Times *)

Definition beamfs_split_ns (ns : Z) : Z * Z :=
  let sec := Z.quot ns NSEC_PER_SEC in
  let rem := Z.rem ns NSEC_PER_SEC in
  if rem <? 0 then (sec - 1, rem + NSEC_PER_SEC) else (sec, rem).

Definition time_ns (tm : Z * Z) : Z := u64 (fst tm * NSEC_PER_SEC + snd tm).

(** ** The record *)

Section record.
Context `{RL : !RsLib} `{CL : !CrcLib} (t : rs_tables) (cpu : nat).

Definition beamfs_inode_crc (raw : list Z) : Z :=
  beamfs_crc32 (slice raw 0 BEAMFS_INODE_CRC_HEAD_LEN ++ slice raw BEAMFS_INODE_CRC_TAIL_OFF BEAMFS_INODE_CRC_TAIL_LEN).

(** Assignments to the fields of a record, in order. *)
Definition put_fields (raw : list Z) (fields : list (Z * list Z)) : list Z :=
  foldl (fun raw '(off, src) => splice raw off src) raw fields.

Definition inode_fields (i : vinode) : list (Z * list Z) :=
  [(off_i_mode, le_bytes 2 (vi_mode i)); (off_i_uid, le_bytes 4 (vi_uid i)); (off_i_gid, le_bytes 4 (vi_gid i));
   (off_i_nlink, le_bytes 2 (vi_nlink i)); (off_i_size, le_bytes 8 (vi_size i));
   (off_i_atime, le_bytes 8 (time_ns (vi_atime i))); (off_i_mtime, le_bytes 8 (time_ns (vi_mtime i)));
   (off_i_ctime, le_bytes 8 (time_ns (vi_ctime i))); (off_i_flags, le_bytes 4 (vi_flags i));
   (off_i_direct, concat (map (le_bytes 8) (vi_direct i))); (off_i_indirect, le_bytes 8 (vi_indirect i));
   (off_i_dindirect, le_bytes 8 (vi_dindirect i)); (off_i_tindirect, le_bytes 8 (vi_tindirect i))].

(** The record of [i], over what the slot held. *)
Definition inode_record (raw : list Z) (i : vinode) : list Z :=
  let raw := put_fields raw (inode_fields i) in
  let raw := put_le32 raw off_i_crc32 (beamfs_inode_crc raw) in
  let raw := splice raw (off_i_reserved + BEAMFS_RS_PARITY) (zeros (sizeof_inode - off_i_reserved - BEAMFS_RS_PARITY)) in
  let '(_, par) := beamfs_rs_encode t cpu raw BEAMFS_INODE_RS_DATA in
  splice raw off_i_reserved par.

(** [sync_ok] is whether a synchronous write of the buffer succeeds. *)
Definition beamfs_write_inode_raw_flags (T : itable) (ino : Z) (i : vinode) (sync sync_ok : bool) : Z * itable :=
  if it_failed T then (- EIO, T)
  else
    let block := inode_block T ino in
    match it_buffers T !! block with
    | None => (- EIO, T)
    | Some b =>
      let off := inode_offset ino in
      let b := splice b off (inode_record (slice b off sizeof_inode) i) in
      let T := put_table T block b [] in
      if sync && negb sync_ok then (- EIO, T) else (0, T)
    end.

Definition beamfs_write_inode_raw (T : itable) (ino : Z) (i : vinode) : Z * itable :=
  beamfs_write_inode_raw_flags T ino i false true.

(** [sret] and [mret] are what the syncs of the shared and of the inode's
    own metadata return. *)
Definition beamfs_write_inode (T : itable) (ino : Z) (i : vinode) (sync sync_ok : bool) (sret mret : Z) : Z * itable :=
  let '(ret, T) := beamfs_write_inode_raw_flags T ino i sync sync_ok in
  let ret := if ret =? 0 then mret else ret in
  (if ret =? 0 then sret else ret, T).

(** ** Reading it back *)

Definition S_IFMT : Z := 61440.
Definition inode_ops (T : itable) (mode : Z) : iops :=
  let fmt := Z.land mode S_IFMT in
  if fmt =? 16384 then IopsDir
  else if fmt =? 32768 then
    if it_scheme T =? BEAMFS_DATA_PROTECTION_UNIVERSAL_INLINE then IopsInlineFile else IopsFile
  else if fmt =? 40960 then IopsSymlink else IopsSpecial.

(** Populating the inode. *)
Definition inode_of (raw : list Z) : vinode :=
  let tm off := beamfs_split_ns (s64 (get_le64 raw off)) in
  VInode (get_le16 raw off_i_mode) (get_le16 raw off_i_nlink) (get_le32 raw off_i_uid) (get_le32 raw off_i_gid)
    (get_le64 raw off_i_size) (tm off_i_atime) (tm off_i_mtime) (tm off_i_ctime) (get_le32 raw off_i_flags)
    (map (fun k => get_le64 raw (off_i_direct + 8 * k)) (upto BEAMFS_DIRECT_BLOCKS))
    (get_le64 raw off_i_indirect) (get_le64 raw off_i_dindirect) (get_le64 raw off_i_tindirect).

(** An error, or the inode, whether it is immutable, and its operations. *)
Inductive iget_result := IgetErr (e : Z) | IgetOk (i : vinode) (immutable : bool) (ops : iops).

Definition iget_ok (T : itable) (ino : Z) (raw : list Z) : iget_result :=
  IgetOk (inode_of raw) (beamfs_ino_is_reserved ino && negb (ino =? BEAMFS_RESERVED_INO_ROOT))
    (inode_ops T (get_le16 raw off_i_mode)).

(** The record fails its CRC: the result, and the record and the journal
    calls when it was repaired.  [kmemdup_ok]: the private copy. *)
Definition inode_repair (T : itable) (kmemdup_ok : bool) (block : Z) (raw : list Z) : Z + list Z * list rs_call :=
  if negb (it_scheme T =? BEAMFS_DATA_PROTECTION_INODE_UNIVERSAL) &&
     (Z.land (it_feat_incompat T) BEAMFS_FEATURE_INCOMPAT_PER_INODE_RS =? 0) then inl (- EIO)
  else if negb kmemdup_ok then inl (- ENOMEM)
  else
    let '(nerr, data, positions) :=
      beamfs_rs_decode t cpu (slice raw 0 BEAMFS_INODE_RS_DATA) BEAMFS_INODE_RS_DATA
        (slice raw off_i_reserved BEAMFS_RS_PARITY) (Some (BEAMFS_RS_PARITY / 2)) in
    let fixed := splice raw 0 data in
    if nerr <? 0 then inl (- EIO)
    else if negb (beamfs_inode_crc fixed =? get_le32 fixed off_i_crc32) then inl (- EIO)
    else
      let np := Z.min nerr (BEAMFS_RS_PARITY / 2) in
      inr (fixed, if 0 <? nerr
                  then [LogRsEvent block (Some positions) np BEAMFS_INODE_RS_DATA BEAMFS_RS_EVENT_FLAG_INODE] else []).

(** [cached] is the inode iget_locked finds; [iget_alloc] its allocation. *)
Definition beamfs_iget (T : itable) (iget_alloc kmemdup_ok : bool) (cached : option iget_result) (ino : Z)
    : iget_result * itable :=
  if (ino <? BEAMFS_RESERVED_INO_ROOT) || (it_inode_count T <? ino) then (IgetErr (- EUCLEAN), T)
  else if negb iget_alloc then (IgetErr (- ENOMEM), T)
  else
    match cached with
    | Some i => (i, T)
    | None =>
      let block := inode_block T ino in
      match it_buffers T !! block with
      | None => (IgetErr (- EIO), T)
      | Some b =>
        let off := inode_offset ino in
        let raw := slice b off sizeof_inode in
        if get_le16 raw off_i_mode =? 0 then (IgetErr (- ESTALE), T)
        else if beamfs_inode_crc raw =? get_le32 raw off_i_crc32 then (iget_ok T ino raw, T)
        else
          match inode_repair T kmemdup_ok block raw with
          | inl e => (IgetErr e, T)
          | inr (fixed, calls) => (iget_ok T ino fixed, put_table T block (splice b off fixed) calls)
          end
      end
    end.
End record.
