(* ===== verification/InodeTheorems.v ===== *)
(** * What reading and writing an inode promises *)

From stdpp Require Import gmap.
From S2P Require Import Prelude Format Crc RsInit GF RsTheory RsCode RsCorrect RsDecode RsLib RsComplete Edac EdacWord EdacBlock EdacLayouts EdacTheorems Dirent Inode.

(** ** Times *)

Lemma split_ns_floor ns : beamfs_split_ns ns = (ns / NSEC_PER_SEC, ns mod NSEC_PER_SEC).
Proof.
  unfold beamfs_split_ns, NSEC_PER_SEC. cbv zeta. pose proof (Z.quot_rem ns 1000000000 ltac:(lia)) as Q.
  pose proof (Z.div_mod ns 1000000000 ltac:(lia)) as D. pose proof (Z.mod_pos_bound ns 1000000000 ltac:(lia)).
  pose proof (Z.rem_bound_abs ns 1000000000 ltac:(lia)).
  destruct (Z.ltb_spec (Z.rem ns 1000000000) 0); f_equal; nia.
Qed.

(** A time as the code keeps it. *)
Definition time_ok (tm : Z * Z) : Prop :=
  0 <= snd tm < NSEC_PER_SEC /\ - 2 ^ 63 <= fst tm * NSEC_PER_SEC + snd tm < 2 ^ 63.

Lemma s64_u64 x : - 2 ^ 63 <= x < 2 ^ 63 -> s64 (u64 x) = x.
Proof.
  intros H. unfold s64, u64. rewrite Z.mod_mod by lia. destruct (Z.ltb_spec (x mod 2 ^ 64) (2 ^ 63));
    Z.to_euclidean_division_equations; lia.
Qed.

Lemma time_roundtrip tm : time_ok tm -> beamfs_split_ns (s64 (time_ns tm)) = tm.
Proof.
  destruct tm as [sec ns]. intros [H1 H2]. cbn [fst snd] in *. unfold time_ns. cbn [fst snd].
  rewrite s64_u64 by done. rewrite split_ns_floor. unfold NSEC_PER_SEC in *.
  f_equal; Z.to_euclidean_division_equations; nia.
Qed.

(** ** Fields *)

(** The fields lie in a record of [n] bytes. *)
Definition fields_in (n : Z) (fs : list (Z * list Z)) : Prop := Forall (fun '(off, src) => 0 <= off /\ off + zlen src <= n) fs.

Lemma put_fields_len fs : forall raw, fields_in (zlen raw) fs -> zlen (put_fields raw fs) = zlen raw.
Proof.
  induction fs as [|[off src] fs IH]; intros raw H; [done|]. apply list.Forall_cons in H as [[H1 H2] H].
  cbn [put_fields foldl]. fold (put_fields (splice raw off src) fs).
  assert (E : zlen (splice raw off src) = zlen raw) by (by rewrite zlen_splice). rewrite IH; [done|]. by rewrite E.
Qed.

Lemma put_fields_other fs : forall raw off n, fields_in (zlen raw) fs -> 0 <= off -> 0 <= n ->
  Forall (fun '(o, src) => off + n <= o \/ o + zlen src <= off) fs -> slice (put_fields raw fs) off n = slice raw off n.
Proof.
  induction fs as [|[o src] fs IH]; intros raw off n H Ho Hn D; [done|]. apply list.Forall_cons in H as [[H1 H2] H].
  apply list.Forall_cons in D as [D1 D]. cbn [put_fields foldl]. fold (put_fields (splice raw o src) fs).
  rewrite IH; [by rewrite slice_splice_ne| |done|done|done]. by rewrite zlen_splice.
Qed.

Lemma put_fields_get k fs raw off src : fields_in (zlen raw) fs -> fs !! k = Some (off, src) ->
  Forall (fun '(o, s) => off + zlen src <= o \/ o + zlen s <= off) (drop (S k) fs) ->
  slice (put_fields raw fs) off (zlen src) = src.
Proof.
  intros H Hk D. rewrite <- (take_drop_middle fs k _ Hk) in H |- *. unfold fields_in in H. rewrite Forall_app in H.
  destruct H as [H1 H2]. apply list.Forall_cons in H2 as [[H2 H3] H4].
  unfold put_fields. rewrite foldl_app. cbn [foldl]. fold (put_fields raw (take k fs)).
  set (r1 := put_fields raw (take k fs)). assert (E1 : zlen r1 = zlen raw) by (by apply put_fields_len).
  change (slice (put_fields (splice r1 off src) (drop (S k) fs)) off (zlen src) = src).
  assert (E2 : zlen (splice r1 off src) = zlen raw) by (rewrite zlen_splice; lia).
  pose proof (zlen_nonneg src). rewrite put_fields_other; [by apply slice_splice_eq; lia|by rewrite E2|done|done|done].
Qed.

Lemma bytes_put_fields fs : forall raw, bytes raw -> Forall (fun '(_, src) => bytes src) fs -> bytes (put_fields raw fs).
Proof.
  induction fs as [|[o src] fs IH]; intros raw B H; [done|]. apply list.Forall_cons in H as [H1 H].
  cbn [put_fields foldl]. apply IH; [by apply bytes_splice|done].
Qed.

Lemma zlen_le_words ws : zlen (concat (map (le_bytes 8) ws)) = 8 * zlen ws.
Proof. induction ws as [|w ws IH]; [done|]. cbn [map concat]. rewrite zlen_app, zlen_le_bytes, zlen_cons, IH. lia. Qed.

Lemma slice_le_words ws k : 0 <= k < zlen ws -> slice (concat (map (le_bytes 8) ws)) (8 * k) 8 = le_bytes 8 (getb ws k).
Proof.
  revert k. induction ws as [|w ws IH]; intros k Hk; [change (zlen (@nil Z)) with 0 in Hk; lia|]. rewrite zlen_cons in Hk. cbn [map concat].
  destruct (decide (k = 0)) as [->|Hne].
  - unfold slice. cbn [Z.mul Z.to_nat]. rewrite drop_0, take_app_le by (rewrite length_le_bytes; lia).
    by rewrite take_ge by (rewrite length_le_bytes; lia).
  - rewrite getb_cons, decide_False by lia. rewrite <- IH by lia. unfold slice.
    rewrite drop_app_ge by (rewrite length_le_bytes; lia). rewrite length_le_bytes. do 2 f_equal. lia.
Qed.

Section theorems.
Context `{RL : !RsLib} `{RS : !RsLibSpec} `{CL : !CrcLib} (t : rs_tables) (cpu : nat).
Context (Hctrl : ctrl_here t cpu = true).

(** The values fit their fields. *)
Record inode_ok (i : vinode) : Prop := {
  io_mode : 0 < vi_mode i < 2 ^ 16;
  io_nlink : 0 <= vi_nlink i < 2 ^ 16;
  io_uid : 0 <= vi_uid i < 2 ^ 32;
  io_gid : 0 <= vi_gid i < 2 ^ 32;
  io_size : 0 <= vi_size i < 2 ^ 64;
  io_atime : time_ok (vi_atime i);
  io_mtime : time_ok (vi_mtime i);
  io_ctime : time_ok (vi_ctime i);
  io_flags : 0 <= vi_flags i < 2 ^ 32;
  io_direct : zlen (vi_direct i) = 12 /\ Forall (fun b => 0 <= b < 2 ^ 64) (vi_direct i);
  io_indirect : 0 <= vi_indirect i < 2 ^ 64;
  io_dindirect : 0 <= vi_dindirect i < 2 ^ 64;
  io_tindirect : 0 <= vi_tindirect i < 2 ^ 64 }.

(** What the covered bytes of a record say: all but the CRC field. *)
Lemma inode_of_ext r r' : slice r 0 48 = slice r' 0 48 -> slice r 52 120 = slice r' 52 120 ->
  inode_of r = inode_of r' /\ beamfs_inode_crc r = beamfs_inode_crc r'.
Proof.
  intros E1 E2. assert (S1 : forall off n, 0 <= off -> 0 <= n -> off + n <= 48 -> slice r off n = slice r' off n).
  { intros off n Ho Hn Hl. rewrite <- (Z.add_0_l off), <- !(slice_slice _ 0 48) by lia. by rewrite E1. }
  assert (S2 : forall off n, 52 <= off -> 0 <= n -> off + n <= 172 -> slice r off n = slice r' off n).
  { intros off n Ho Hn Hl. replace off with (52 + (off - 52)) by lia. rewrite <- !(slice_slice _ 52 120) by lia. by rewrite E2. }
  unfold inode_of, beamfs_inode_crc, get_le16, get_le32, get_le64.
  change BEAMFS_INODE_CRC_HEAD_LEN with 48. change BEAMFS_INODE_CRC_TAIL_OFF with 52. change BEAMFS_INODE_CRC_TAIL_LEN with 120.
  split; [|by rewrite E1, E2].
  rewrite (S1 off_i_mode), (S1 off_i_nlink), (S1 off_i_uid), (S1 off_i_gid), (S1 off_i_size), (S1 off_i_atime), (S1 off_i_mtime),
    (S1 off_i_ctime), (S1 off_i_flags), (S2 off_i_indirect), (S2 off_i_dindirect), (S2 off_i_tindirect) by (vm_compute; congruence).
  f_equal.
  apply map_ext_in. intros k Hk%list_elem_of_In%elem_of_upto. change off_i_direct with 52.
  change BEAMFS_DIRECT_BLOCKS with 12 in Hk. by rewrite S2 by lia.
Qed.

(** The same when all 172 bytes under the code agree. *)
Lemma inode_of_same r r' : slice r 0 172 = slice r' 0 172 ->
  inode_of r = inode_of r' /\ beamfs_inode_crc r = beamfs_inode_crc r' /\ get_le32 r off_i_crc32 = get_le32 r' off_i_crc32.
Proof.
  intros E. assert (S : forall off n, 0 <= off -> 0 <= n -> off + n <= 172 -> slice r off n = slice r' off n).
  { intros off n Ho Hn Hl. rewrite <- (Z.add_0_l off), <- !(slice_slice _ 0 172) by lia. by rewrite E. }
  destruct (inode_of_ext r r') as [-> ->]; [apply S; lia..|]. split_and!; [done..|].
  unfold get_le32. by rewrite S by (vm_compute; congruence).
Qed.

Lemma get_le16_slice r off x : 0 <= x < 2 ^ 16 -> slice r off 2 = le_bytes 2 x -> get_le16 r off = x.
Proof. intros Hx E. unfold get_le16. rewrite E, le_val_le_bytes by lia. by apply Z.mod_small. Qed.
Lemma get_le32_slice r off x : 0 <= x < 2 ^ 32 -> slice r off 4 = le_bytes 4 x -> get_le32 r off = x.
Proof. intros Hx E. unfold get_le32. rewrite E, le_val_le_bytes by lia. by apply Z.mod_small. Qed.
Lemma get_le64_slice r off x : 0 <= x < 2 ^ 64 -> slice r off 8 = le_bytes 8 x -> get_le64 r off = x.
Proof. intros Hx E. unfold get_le64. rewrite E, le_val_le_bytes by lia. by apply Z.mod_small. Qed.

Lemma time_ns_range tm : 0 <= time_ns tm < 2 ^ 64.
Proof. apply Z.mod_pos_bound. lia. Qed.

Lemma fields_len i : zlen (vi_direct i) = 12 -> map (fun f => zlen (snd f)) (inode_fields i) = [2; 4; 4; 2; 8; 8; 8; 8; 4; 96; 8; 8; 8].
Proof. intros H. unfold inode_fields. cbn [map snd]. rewrite zlen_le_words, H. rewrite !zlen_le_bytes. done. Qed.

Lemma fields_range i : zlen (vi_direct i) = 12 -> fields_in 256 (inode_fields i).
Proof.
  intros H. unfold fields_in, inode_fields. pose proof (zlen_le_words (vi_direct i)) as Hw.
  repeat (apply list.Forall_cons; split; [rewrite ?zlen_le_bytes, ?Hw, ?H; vm_compute; split; congruence|]). constructor.
Qed.

(** Every field of the written record. *)
Lemma fields_slice raw i k off src : zlen raw = 256 -> zlen (vi_direct i) = 12 -> inode_fields i !! k = Some (off, src) ->
  slice (put_fields raw (inode_fields i)) off (zlen src) = src.
Proof.
  intros Hz H Hk. apply (put_fields_get k); [rewrite Hz; by apply fields_range|done|].
  pose proof (zlen_le_words (vi_direct i)) as Hw. rewrite H in Hw. unfold inode_fields in *.
  set (w := concat (map (le_bytes 8) (vi_direct i))) in *. clearbody w.
  do 13 (destruct k as [|k]; [injection Hk as <- <-; cbn [drop];
    repeat first [exact (List.Forall_nil _) | apply list.Forall_cons; split; [rewrite ?zlen_le_bytes, ?Hw; vm_compute; first [left; congruence|right; congruence]|]]|]).
  done.
Qed.

Lemma fields_inode raw i : zlen raw = 256 -> inode_ok i -> inode_of (put_fields raw (inode_fields i)) = i.
Proof.
  intros Hz [I1 I2 I3 I4 I5 I6 I7 I8 I9 [I10 I10'] I11 I12 I13]. set (r := put_fields raw (inode_fields i)).
  pose proof (fun k off src => fields_slice raw i k off src Hz I10) as F. fold r in F. unfold inode_of.
  assert (F' : forall k off n src, inode_fields i !! k = Some (off, src) -> zlen src = n -> slice r off n = src).
  { intros k off n src E <-. by apply (F k). }
  rewrite (get_le16_slice r off_i_mode (vi_mode i)) by (lia || by (apply (F' 0%nat); [reflexivity|apply zlen_le_bytes])).
  rewrite (get_le16_slice r off_i_nlink (vi_nlink i)) by (lia || by (apply (F' 3%nat); [reflexivity|apply zlen_le_bytes])).
  rewrite (get_le32_slice r off_i_uid (vi_uid i)) by (lia || by (apply (F' 1%nat); [reflexivity|apply zlen_le_bytes])).
  rewrite (get_le32_slice r off_i_gid (vi_gid i)) by (lia || by (apply (F' 2%nat); [reflexivity|apply zlen_le_bytes])).
  rewrite (get_le64_slice r off_i_size (vi_size i)) by (lia || by (apply (F' 4%nat); [reflexivity|apply zlen_le_bytes])).
  rewrite (get_le64_slice r off_i_atime (time_ns (vi_atime i))) by (apply time_ns_range || by (apply (F' 5%nat); [reflexivity|apply zlen_le_bytes])).
  rewrite (get_le64_slice r off_i_mtime (time_ns (vi_mtime i))) by (apply time_ns_range || by (apply (F' 6%nat); [reflexivity|apply zlen_le_bytes])).
  rewrite (get_le64_slice r off_i_ctime (time_ns (vi_ctime i))) by (apply time_ns_range || by (apply (F' 7%nat); [reflexivity|apply zlen_le_bytes])).
  rewrite (get_le32_slice r off_i_flags (vi_flags i)) by (lia || by (apply (F' 8%nat); [reflexivity|apply zlen_le_bytes])).
  rewrite (get_le64_slice r off_i_indirect (vi_indirect i)) by (lia || by (apply (F' 10%nat); [reflexivity|apply zlen_le_bytes])).
  rewrite (get_le64_slice r off_i_dindirect (vi_dindirect i)) by (lia || by (apply (F' 11%nat); [reflexivity|apply zlen_le_bytes])).
  rewrite (get_le64_slice r off_i_tindirect (vi_tindirect i)) by (lia || by (apply (F' 12%nat); [reflexivity|apply zlen_le_bytes])).
  rewrite !time_roundtrip by done.
  assert (D : map (fun k => get_le64 r (off_i_direct + 8 * k)) (upto BEAMFS_DIRECT_BLOCKS) = vi_direct i).
  { rewrite (list_map_upto (vi_direct i)), I10. apply map_ext_in. intros k Hk%list_elem_of_In%elem_of_upto.
    apply get_le64_slice.
    - rewrite list.Forall_forall in I10'. apply I10'. unfold getb. apply list_elem_of_In, nth_In. unfold zlen in I10. lia.
    - specialize (F 9%nat off_i_direct _ eq_refl). rewrite zlen_le_words, I10 in F.
      rewrite <- slice_le_words by (rewrite I10; lia). rewrite <- F. change off_i_direct with 52.
      rewrite slice_slice by lia. done. }
  rewrite D. by destruct i.
Qed.
Lemma fields_bytes i : Forall (fun '(_, src) => bytes src) (inode_fields i).
Proof.
  assert (W : bytes (concat (map (le_bytes 8) (vi_direct i)))).
  { induction (vi_direct i) as [|w ws IH]; [apply list.Forall_nil_2|]. cbn [map concat]. apply bytes_app. split; [apply bytes_le_bytes|done]. }
  unfold inode_fields. repeat (apply list.Forall_cons; split; [first [exact W|apply bytes_le_bytes]|]). apply list.Forall_nil_2.
Qed.

(** A written record: its fields, its CRC and its parity. *)
Record record_of (r : list Z) (i : vinode) : Prop := {
  rc_len : zlen r = 256;
  rc_bytes : bytes r;
  rc_inode : inode_of r = i;
  rc_crc : beamfs_inode_crc r = get_le32 r off_i_crc32;
  rc_par : slice r 172 16 = encode_rs8 (slice r 0 172) }.

Lemma inode_record_ok raw i : zlen raw = 256 -> bytes raw -> inode_ok i -> record_of (inode_record t cpu raw i) i.
Proof.
  intros Hz B I. unfold inode_record. set (r0 := put_fields raw (inode_fields i)).
  assert (Hd : zlen (vi_direct i) = 12) by apply (io_direct i I).
  assert (Z0 : zlen r0 = 256) by (unfold r0; rewrite put_fields_len; [done|rewrite Hz; by apply fields_range]).
  assert (B0 : bytes r0) by (apply bytes_put_fields; [done|apply fields_bytes]).
  assert (I0 : inode_of r0 = i) by (by apply fields_inode).
  assert (C0 : is_u32 (beamfs_inode_crc r0)) by (apply beamfs_crc32_range, bytes_app; split; by apply bytes_slice).
  clearbody r0. set (c := beamfs_inode_crc r0) in *. unfold put_le32.
  change off_i_crc32 with 48. change off_i_reserved with 172. change BEAMFS_RS_PARITY with 16. change (172 + 16) with 188.
  change (sizeof_inode - 172 - 16) with 68. change BEAMFS_INODE_RS_DATA with 172.
  assert (L4 : zlen (le_bytes 4 c) = 4) by apply zlen_le_bytes. assert (L68 : zlen (zeros 68) = 68) by done.
  set (r1 := splice r0 48 (le_bytes 4 c)). assert (Z1 : zlen r1 = 256) by (unfold r1; rewrite zlen_splice; lia).
  assert (B1 : bytes r1) by (apply bytes_splice; [done|apply bytes_le_bytes]).
  set (r2 := splice r1 188 (zeros 68)). assert (Z2 : zlen r2 = 256) by (unfold r2; rewrite zlen_splice; lia).
  assert (B2 : bytes r2) by (apply bytes_splice; [done|apply bytes_zeros]).
  assert (Zs : zlen (slice r2 0 172) = 172) by (apply zlen_slice; lia).
  assert (Bs : bytes (slice r2 0 172)) by (by apply bytes_slice).
  assert (E : beamfs_rs_encode t cpu r2 172 = (0, encode_rs8 (slice r2 0 172))).
  { rewrite <- (rs_encode_eq t cpu Hctrl _ Bs) by lia. unfold beamfs_rs_encode. rewrite Zs.
    rewrite (slice_slice r2 0 172 0 172) by lia. done. }
  rewrite E. set (par := encode_rs8 _). assert (Zp : zlen par = 16) by (apply encode_rs8_len; [done|lia]).
  assert (Bp : bytes par) by (apply encode_rs8_bytes; [done|lia]). set (r3 := splice r2 172 par).
  assert (S3 : forall off n, 0 <= off -> 0 <= n -> off + n <= 172 -> slice r3 off n = slice r1 off n).
  { intros off n Ho Hn Hl. unfold r3, r2. by rewrite !slice_splice_ne by (rewrite ?zlen_splice; lia). }
  destruct (inode_of_ext r3 r0) as [EI EC]; [rewrite S3 by lia; unfold r1; by rewrite slice_splice_ne by lia..|].
  split.
  - unfold r3. rewrite zlen_splice; lia.
  - by apply bytes_splice.
  - by rewrite EI.
  - rewrite EC. unfold get_le32. change off_i_crc32 with 48. rewrite S3 by lia. unfold r1. rewrite slice_splice_len by lia.
    rewrite le_val_le_bytes by (unfold is_u32 in C0; lia). symmetry. apply Z.mod_small. apply C0.
  - unfold r3 at 1. rewrite slice_splice_len by lia. unfold par. f_equal. rewrite S3 by lia.
    unfold r2. by rewrite slice_splice_ne by lia.
Qed.
(** ** Slots of a table block *)

Lemma inode_offset_range ino : 0 <= inode_offset ino /\ inode_offset ino + 256 <= 4096.
Proof.
  unfold inode_offset. change inodes_per_block with 16. change sizeof_inode with 256.
  pose proof (Z.mod_pos_bound (ino - 1) 16 ltac:(lia)). lia.
Qed.

(** Two inodes of one block have slots apart. *)
Lemma inode_offset_apart T ino ino' : inode_block T ino = inode_block T ino' -> ino <> ino' ->
  inode_offset ino' + 256 <= inode_offset ino \/ inode_offset ino + 256 <= inode_offset ino'.
Proof.
  unfold inode_block, inode_offset. change inodes_per_block with 16. change sizeof_inode with 256. intros E N.
  pose proof (Z.div_mod (ino - 1) 16 ltac:(lia)). pose proof (Z.div_mod (ino' - 1) 16 ltac:(lia)). lia.
Qed.

(** The blocks of a table. *)
Definition table_ok (T : itable) : Prop := forall blk b, it_buffers T !! blk = Some b -> zlen b = 4096 /\ bytes b.

(** The table with other contents in one block, as damage leaves it. *)
Definition damaged_table (T : itable) (blk : Z) (b : list Z) : itable :=
  ITable (it_failed T) (it_inode_count T) (it_table_blk T) (it_scheme T) (it_feat_incompat T)
    (<[blk := b]> (it_buffers T)) (it_dirty T) (it_calls T).

Lemma slot_ok T blk b ino : table_ok T -> it_buffers T !! blk = Some b ->
  zlen (slice b (inode_offset ino) 256) = 256 /\ bytes (slice b (inode_offset ino) 256).
Proof.
  intros H E. destruct (H _ _ E) as [Hz Hb]. pose proof (inode_offset_range ino). split; [apply zlen_slice; lia|by apply bytes_slice].
Qed.

(** What a write of [ino] leaves in its block. *)
Lemma write_slot T ino i b : table_ok T -> it_failed T = false -> inode_ok i -> it_buffers T !! inode_block T ino = Some b ->
  exists b1 r, beamfs_write_inode_raw t cpu T ino i = (0, put_table T (inode_block T ino) b1 []) /\ b1 = splice b (inode_offset ino) r /\
    record_of r i /\ zlen b1 = 4096 /\ bytes b1 /\ slice b1 (inode_offset ino) 256 = r.
Proof.
  intros TO F I Eb. destruct (slot_ok _ _ _ ino TO Eb) as [Zr Br]. destruct (TO _ _ Eb) as [Zb Bb].
  pose proof (inode_offset_range ino). pose proof (inode_record_ok _ i Zr Br I) as R.
  unfold beamfs_write_inode_raw, beamfs_write_inode_raw_flags. rewrite F, Eb. change sizeof_inode with 256. cbn [andb].
  pose proof (rc_len _ _ R) as Lr. do 2 eexists. split; [reflexivity|]. split; [reflexivity|]. split_and!; [done|..].
  - rewrite zlen_splice; lia.
  - apply bytes_splice; [done|apply R].
  - apply slice_splice_len; lia.
Qed.

(** Reading a slot whose covered bytes are those of the record. *)
Lemma iget_clean T ino i b r : record_of r i -> 0 < vi_mode i -> 1 <= ino <= it_inode_count T ->
  it_buffers T !! inode_block T ino = Some b -> slice b (inode_offset ino) 172 = slice r 0 172 ->
  beamfs_iget t cpu T true true None ino = (IgetOk i (beamfs_ino_is_reserved ino && negb (ino =? 1)) (inode_ops T (vi_mode i)), T).
Proof.
  intros R M Hi Eb Es. unfold beamfs_iget, BEAMFS_RESERVED_INO_ROOT. replace (ino <? 1) with false by lia. replace (it_inode_count T <? ino) with false by lia.
  cbn [orb negb]. rewrite Eb. change sizeof_inode with 256. set (raw := slice b (inode_offset ino) 256).
  pose proof (inode_offset_range ino). assert (E : slice raw 0 172 = slice r 0 172).
  { unfold raw. rewrite slice_slice by lia. by rewrite Z.add_0_r. }
  destruct (inode_of_same raw r E) as (E1 & E2 & E3). rewrite (rc_inode _ _ R) in E1.
  assert (Em : get_le16 raw off_i_mode = vi_mode i) by (by rewrite <- E1).
  rewrite Em. replace (vi_mode i =? 0) with false by lia. rewrite E2, E3, (rc_crc _ _ R), Z.eqb_refl.
  unfold iget_ok. by rewrite E1, Em.
Qed.
(** The mount has Reed-Solomon parity on inodes. *)
Definition inode_rs_active (T : itable) : Prop :=
  it_scheme T = BEAMFS_DATA_PROTECTION_INODE_UNIVERSAL \/ Z.land (it_feat_incompat T) BEAMFS_FEATURE_INCOMPAT_PER_INODE_RS <> 0.

(** At most eight of the 188 bytes of a record changed: the repair gives
    the record back. *)
Lemma inode_repair_ok `{RB : !RsLibBounded} T block r i raw : inode_rs_active T -> record_of r i -> zlen raw = 256 -> bytes raw ->
  hamming (slice r 0 188) (slice raw 0 188) <= 8 ->
  exists calls, inode_repair t cpu T true block raw = inr (splice raw 0 (slice r 0 172), calls).
Proof.
  intros A R Hz B Hd. unfold inode_repair.
  destruct (negb (it_scheme T =? BEAMFS_DATA_PROTECTION_INODE_UNIVERSAL) && (Z.land (it_feat_incompat T) BEAMFS_FEATURE_INCOMPAT_PER_INODE_RS =? 0)) eqn:Ea.
  { apply andb_true_iff in Ea as [E1%negb_true_iff%Z.eqb_neq E2%Z.eqb_eq]. destruct A; [contradiction|done]. }
  cbn [negb]. change BEAMFS_INODE_RS_DATA with 172. change off_i_reserved with 172. change BEAMFS_RS_PARITY with 16.
  pose proof (rc_len _ _ R) as Lr. assert (Z1 : zlen (slice r 0 172) = 172) by (apply zlen_slice; lia).
  assert (Z2 : zlen (slice raw 0 172) = 172) by (apply zlen_slice; lia).
  assert (J : forall l, zlen l = 256 -> slice l 0 188 = slice l 0 172 ++ slice l 172 16) by (intros l Hl; apply (slice_cat l 0 172 16); lia).
  rewrite !J, (rc_par _ _ R) in Hd by done.
  destruct (rs_decode_restores t cpu Hctrl (slice r 0 172) (slice raw 0 172) (slice raw 172 16) (Some (16 / 2))) as (n & ps & Hn & _ & E).
  - apply bytes_slice, R.
  - split_and!; [by apply bytes_slice|by apply bytes_slice|lia|lia|apply zlen_slice; lia].
  - lia.
  - intros m [= <-]. done.
  - done.
  - rewrite Z2 in E. rewrite E. replace (n <? 0) with false by lia.
    assert (S : slice (splice raw 0 (slice r 0 172)) 0 172 = slice r 0 172) by (apply slice_splice_len; lia).
    destruct (inode_of_same _ _ S) as (_ & -> & ->). rewrite (rc_crc _ _ R), Z.eqb_refl. cbn [negb]. by eexists.
Qed.
End theorems.

(** ** Theorems *)

(** C28: an inode written to the table is the inode read back, with its
    owner, times before 1970 included, and block pointers, and with the
    operations of its type: always when its 172 checked bytes are as they
    were written, and, on a volume with parity on inodes, even when up to
    eight of the record's 188 coded bytes have changed since, as long as the
    type field is not zero and the CRC notices what changed; what the read
    leaves in the block is then the record that was written.  On a volume
    without that parity a change the CRC notices is -EIO, and nothing is
    written. *)
Theorem inode_roundtrip `{RL : !RsLib} `{RS : !RsLibSpec} `{RB : !RsLibBounded} `{CL : !CrcLib} t cpu T ino i b b1 b2 T1 :
  ctrl_here t cpu = true -> table_ok T -> it_failed T = false -> inode_ok i ->
  1 <= ino <= it_inode_count T -> it_buffers T !! inode_block T ino = Some b ->
  beamfs_write_inode_raw t cpu T ino i = (0, T1) -> it_buffers T1 !! inode_block T ino = Some b1 ->
  zlen b2 = 4096 -> bytes b2 -> get_le16 b2 (inode_offset ino + off_i_mode) <> 0 ->
  let T2 := damaged_table T1 (inode_block T ino) b2 in
  let intact := slice b2 (inode_offset ino) 172 = slice b1 (inode_offset ino) 172 in
  let noticed := beamfs_inode_crc (slice b2 (inode_offset ino) 256) <> get_le32 b2 (inode_offset ino + off_i_crc32) in
  (intact \/ inode_rs_active T /\ noticed /\ hamming (slice b1 (inode_offset ino) 188) (slice b2 (inode_offset ino) 188) <= 8 ->
   exists T3 b3, beamfs_iget t cpu T2 true true None ino =
      (IgetOk i (beamfs_ino_is_reserved ino && negb (ino =? 1)) (inode_ops T (vi_mode i)), T3) /\
    it_buffers T3 !! inode_block T ino = Some b3 /\ slice b3 (inode_offset ino) 172 = slice b1 (inode_offset ino) 172) /\
  (~ inode_rs_active T -> noticed -> beamfs_iget t cpu T2 true true None ino = (IgetErr (- EIO), T2)).
Proof.
  intros Hc TO F I Hi Eb Ew Eb1 Z2 B2 Hm T2 intact noticed. unfold intact, noticed. pose proof (inode_offset_range ino) as Ho.
  destruct (write_slot t cpu Hc T ino i b TO F I Eb) as (b1' & r & Ew' & _ & R & Z1 & B1 & Sr).
  rewrite Ew in Ew'. injection Ew' as ->. cbn [put_table it_buffers] in Eb1. rewrite lookup_insert_eq in Eb1. injection Eb1 as ->.
  assert (Eb2 : it_buffers T2 !! inode_block T2 ino = Some b2) by apply lookup_insert_eq.
  assert (G : forall (l : list Z) n, 0 <= n <= 256 -> slice (slice l (inode_offset ino) 256) 0 n = slice l (inode_offset ino) n).
  { intros l n Hn. rewrite slice_slice by lia. by rewrite Z.add_0_r. }
  assert (Es : slice b1 (inode_offset ino) 172 = slice r 0 172) by (rewrite <- Sr, G; [done|lia]). rewrite Es.
  split; [intros [Hsame|(A & Hcrc & Hd)]|intros A Hcrc].
  { rewrite (iget_clean t cpu T2 ino i b2 r); [|done|apply I|done|done|done]. do 2 eexists. split; [reflexivity|]. by split. }
  all: unfold beamfs_iget; change (it_inode_count T2) with (it_inode_count T); unfold BEAMFS_RESERVED_INO_ROOT;
    (replace (ino <? 1) with false by lia); (replace (it_inode_count T <? ino) with false by lia); cbn [orb negb]; rewrite Eb2;
    change sizeof_inode with 256; set (raw := slice b2 (inode_offset ino) 256) in *;
    assert (Em : get_le16 raw off_i_mode = get_le16 b2 (inode_offset ino + off_i_mode))
      by (unfold get_le16, raw, off_i_mode; by rewrite slice_slice by lia);
    assert (Ec : get_le32 raw off_i_crc32 = get_le32 b2 (inode_offset ino + off_i_crc32))
      by (unfold get_le32, raw, off_i_crc32; by rewrite slice_slice by lia);
    rewrite Em, Ec; apply Z.eqb_neq in Hm, Hcrc; rewrite Hm, Hcrc.
  2:{ unfold inode_repair. change (it_scheme T2) with (it_scheme T). change (it_feat_incompat T2) with (it_feat_incompat T).
    unfold inode_rs_active in A. destruct (Z.eqb_spec (it_scheme T) BEAMFS_DATA_PROTECTION_INODE_UNIVERSAL); [tauto|].
    by destruct (Z.eqb_spec (Z.land (it_feat_incompat T) BEAMFS_FEATURE_INCOMPAT_PER_INODE_RS) 0); [|tauto]. }
  assert (Zr : zlen raw = 256) by (apply zlen_slice; lia). assert (Br : bytes raw) by (by apply bytes_slice).
  destruct (inode_repair_ok t cpu Hc T2 (inode_block T2 ino) r i raw A R Zr Br) as (calls & ->).
  { unfold raw. rewrite G by lia. rewrite <- Sr, G by lia. done. }
  assert (Z172 : zlen (slice r 0 172) = 172) by (apply zlen_slice; pose proof (rc_len _ _ R); lia).
  set (fixed := splice raw 0 (slice r 0 172)). assert (Zf : zlen fixed = 256) by (unfold fixed; rewrite zlen_splice; lia).
  assert (Sf : slice fixed 0 172 = slice r 0 172) by (apply slice_splice_len; lia).
  destruct (inode_of_same fixed r Sf) as (E1 & _). rewrite (rc_inode _ _ R) in E1. do 2 eexists. split; [|split].
  - unfold iget_ok. assert (get_le16 fixed off_i_mode = vi_mode i) as -> by (by rewrite <- E1). rewrite E1. reflexivity.
  - apply lookup_insert_eq.
  - rewrite <- G by lia. rewrite slice_splice_len by lia. exact Sf.
Qed.

(** The bytes of the slot of an inode. *)
Definition inode_slot (T : itable) (ino : Z) : option (list Z) :=
  (fun b => slice b (inode_offset ino) sizeof_inode) <$> it_buffers T !! inode_block T ino.

(** What is read of an inode depends on its slot alone. *)
Lemma iget_ext `{RL : !RsLib} `{CL : !CrcLib} t cpu T T1 ino km cached :
  it_inode_count T1 = it_inode_count T -> it_table_blk T1 = it_table_blk T -> it_scheme T1 = it_scheme T ->
  it_feat_incompat T1 = it_feat_incompat T -> inode_slot T1 ino = inode_slot T ino ->
  fst (beamfs_iget t cpu T1 true km cached ino) = fst (beamfs_iget t cpu T true km cached ino).
Proof.
  intros E1 E2 E3 E4 Es. assert (Eb : inode_block T1 ino = inode_block T ino) by (unfold inode_block; by rewrite E2).
  unfold inode_slot in Es. rewrite Eb in Es. unfold beamfs_iget. rewrite E1, Eb.
  destruct (_ || _); [done|]. destruct cached; [done|]. cbn [negb].
  destruct (it_buffers T1 !! inode_block T ino) as [b1|], (it_buffers T !! inode_block T ino) as [b|]; cbn [fmap option_fmap option_map] in Es;
    [|done..]. injection Es as ->. set (raw := slice b _ _).
  assert (Ek : forall i, iget_ok T1 i = iget_ok T i) by (intros i; unfold iget_ok, inode_ops; by rewrite E3).
  assert (Er : inode_repair t cpu T1 = inode_repair t cpu T) by (unfold inode_repair; by rewrite E3, E4).
  rewrite Ek, Er. destruct (get_le16 raw off_i_mode =? 0); [done|]. destruct (beamfs_inode_crc raw =? _); [done|].
  by destruct (inode_repair t cpu T km (inode_block T ino) raw) as [e|[f cs]].
Qed.

(** Putting a record in the slot of [ino] leaves the other slots. *)
Lemma slot_put T ino b r cs ino' : it_buffers T !! inode_block T ino = Some b -> zlen b = 4096 -> zlen r = 256 -> ino' <> ino ->
  inode_slot (put_table T (inode_block T ino) (splice b (inode_offset ino) r) cs) ino' = inode_slot T ino'.
Proof.
  intros Eb Zb Zr N. unfold inode_slot. set (T1 := put_table _ _ _ _). change (inode_block T1 ino') with (inode_block T ino').
  change (it_buffers T1) with (<[inode_block T ino := splice b (inode_offset ino) r]> (it_buffers T)).
  destruct (decide (inode_block T ino = inode_block T ino')) as [E|E]; [|by rewrite lookup_insert_ne].
  rewrite <- E, lookup_insert_eq, Eb. cbn [fmap option_fmap option_map]. f_equal. change sizeof_inode with 256.
  pose proof (inode_offset_range ino). pose proof (inode_offset_range ino').
  pose proof (inode_offset_apart T ino ino' E ltac:(congruence)). apply slice_splice_ne; lia.
Qed.

(** Writing an inode changes what is read of that inode alone: any other
    inode number, in the same block of the table or in another, reads as it
    did, with the same repairs and the same errors. *)
Theorem inode_write_isolated `{RL : !RsLib} `{RS : !RsLibSpec} `{CL : !CrcLib} t cpu T ino i T1 ino' km cached :
  ctrl_here t cpu = true -> table_ok T -> inode_ok i -> ino' <> ino ->
  beamfs_write_inode_raw t cpu T ino i = (0, T1) ->
  fst (beamfs_iget t cpu T1 true km cached ino') = fst (beamfs_iget t cpu T true km cached ino').
Proof.
  intros Hc TO I N Ew. destruct (it_failed T) eqn:F.
  { unfold beamfs_write_inode_raw, beamfs_write_inode_raw_flags in Ew. by rewrite F in Ew. }
  destruct (it_buffers T !! inode_block T ino) as [b|] eqn:Eb.
  2:{ unfold beamfs_write_inode_raw, beamfs_write_inode_raw_flags in Ew. by rewrite F, Eb in Ew. }
  destruct (write_slot t cpu Hc T ino i b TO F I Eb) as (b1 & r & Ew' & -> & R & _).
  rewrite Ew in Ew'. injection Ew' as ->. apply iget_ext; [done..|].
  apply slot_put; [done|by apply (TO _ _ Eb)|apply (rc_len _ _ R)|done].
Qed.

Lemma rs_decode_len `{RL : !RsLib} `{RS : !RsLibSpec} t cpu (Hc : ctrl_here t cpu = true) data par maxp n d ps :
  rs_input data par -> (forall m, maxp = Some m -> 0 < m) ->
  beamfs_rs_decode t cpu data (zlen data) par maxp = (n, d, ps) -> zlen d = zlen data.
Proof.
  intros Hin Hm E. destruct (rs_decode_cases t cpu Hc data par maxp Hin Hm) as [E'|(k & d' & p' & W & E')]; rewrite E in E'; injection E' as -> -> ->; [done|apply W].
Qed.

(** C40: reading an inode that is not in the inode cache fails closed.  Every
    error leaves the table as it was; an inode is returned only for a number
    from 1 to s_inode_count, it is the one its slot now holds, under a CRC
    that matches, with the operations of its type, immutable exactly when
    its number is reserved and not the root's, and no other slot has
    changed. *)
Theorem iget_fails_closed `{RL : !RsLib} `{RS : !RsLibSpec} `{CL : !CrcLib} t cpu T ia km ino res T' :
  ctrl_here t cpu = true -> table_ok T -> beamfs_iget t cpu T ia km None ino = (res, T') ->
  match res with
  | IgetErr e => T' = T /\ e < 0
  | IgetOk i imm ops =>
    1 <= ino <= it_inode_count T /\ (forall ino', ino' <> ino -> inode_slot T' ino' = inode_slot T ino') /\
    imm = beamfs_ino_is_reserved ino && negb (ino =? BEAMFS_RESERVED_INO_ROOT) /\ ops = inode_ops T (vi_mode i) /\
    exists r, inode_slot T' ino = Some r /\ i = inode_of r /\ beamfs_inode_crc r = get_le32 r off_i_crc32
  end.
Proof.
  intros Hc TO. unfold beamfs_iget, BEAMFS_RESERVED_INO_ROOT.
  destruct ((ino <? 1) || (it_inode_count T <? ino)) eqn:Er; [by intros [= <- <-]|].
  destruct ia; [|by intros [= <- <-]]. cbn [negb]. destruct (it_buffers T !! inode_block T ino) as [b|] eqn:Eb; [|by intros [= <- <-]].
  pose proof (slot_ok T _ b ino TO Eb) as [Zr Br]. destruct (TO _ _ Eb) as [Zb Bb]. pose proof (inode_offset_range ino) as Ho.
  change sizeof_inode with 256. set (raw := slice b (inode_offset ino) 256) in *.
  destruct (get_le16 raw off_i_mode =? 0); [by intros [= <- <-]|]. apply orb_false_iff in Er as [Er1 Er2].
  destruct (beamfs_inode_crc raw =? get_le32 raw off_i_crc32) eqn:Ec.
  { intros [= <- <-]. split_and!; [lia|lia|done|done|done|]. exists raw. unfold inode_slot. rewrite Eb. split_and!; [done..|lia]. }
  unfold inode_repair. destruct (_ && _); [by intros [= <- <-]|]. destruct km; [|by intros [= <- <-]]. cbn [negb].
  destruct (beamfs_rs_decode _ _ _ _ _ _) as [[nerr data] ps] eqn:Ed.
  destruct (nerr <? 0) eqn:En; [by intros [= <- <-]|]. set (fixed := splice raw 0 data).
  destruct (beamfs_inode_crc fixed =? get_le32 fixed off_i_crc32) eqn:Ef; [|by intros [= <- <-]]. cbn [negb].
  assert (Zf : zlen fixed = 256).
  { assert (Zd : zlen (slice raw 0 172) = 172) by (apply zlen_slice; lia).
    assert (Hin : rs_input (slice raw 0 172) (slice raw 172 16)).
    { split_and!; [by apply bytes_slice|by apply bytes_slice|lia|lia|apply zlen_slice; lia]. }
    pose proof (rs_decode_len t cpu Hc _ _ (Some 8) nerr data ps Hin ltac:(by intros m [= <-])) as L.
    rewrite Zd in L. specialize (L Ed). unfold fixed. rewrite zlen_splice; lia. }
  intros [= <- <-]. split_and!; [lia|lia|intros ino' N; by apply slot_put|done|done|].
  exists fixed. split_and!; [|done|lia]. unfold inode_slot. set (T1 := put_table _ _ _ _).
  change (inode_block T1 ino) with (inode_block T ino). cbn [put_table it_buffers]. unfold T1, put_table, it_buffers.
  rewrite lookup_insert_eq. cbn [fmap option_fmap option_map]. f_equal. change sizeof_inode with 256. apply slice_splice_len; lia.
Qed.

(** ** Witnesses *)

(** A directory's record, written in 1960, in an otherwise empty block. *)
Definition ex_vinode : vinode :=
  VInode 16877 2 1000 1000 4096 (0, 0) (-315619200, 500000000) (1700000000, 1) 0 [40; 41; 0; 0; 0; 0; 0; 0; 0; 0; 0; 0] 0 0 0.
Definition ex_table : itable := ITable false 64 5 BEAMFS_DATA_PROTECTION_INODE_UNIVERSAL 0 {[5 := zeros 4096]} [] [].
Definition ex_table1 : itable := Eval vm_compute in snd (beamfs_write_inode_raw ex_tables 0 ex_table 3 ex_vinode).
Definition ex_block1 : list Z := Eval vm_compute in default [] (it_buffers ex_table1 !! 5).

(** Eight bytes of the record overwritten: two of its mtime, six pointers' bytes. *)
Definition ex_block2 : list Z := splice (splice ex_block1 540 [255; 255]) 564 [1; 2; 3; 4; 5; 6].

Lemma ex_vinode_ok : inode_ok ex_vinode.
Proof.
  split; unfold ex_vinode, time_ok, NSEC_PER_SEC; cbn [vi_mode vi_nlink vi_uid vi_gid vi_size vi_atime vi_mtime vi_ctime
    vi_flags vi_direct vi_indirect vi_dindirect vi_tindirect fst snd]; try lia. split; [reflexivity|].
  repeat (apply list.Forall_cons; split; [lia|]). apply list.Forall_nil_2.
Qed.

Lemma ex_table_ok : table_ok ex_table.
Proof.
  intros blk b E. cbn [ex_table it_buffers] in E. apply lookup_singleton_Some in E as [_ <-]. split; [reflexivity|apply bytes_zeros].
Qed.

(** The same table on a volume without parity on inodes. *)
Definition plain (T : itable) : itable :=
  ITable (it_failed T) (it_inode_count T) (it_table_blk T) 0 0 (it_buffers T) (it_dirty T) (it_calls T).

Lemma inode_roundtrip_witness :
  (exists T3 b3, beamfs_iget ex_tables 0 (damaged_table ex_table1 5 ex_block2) true true None 3 = (IgetOk ex_vinode false IopsDir, T3) /\
    it_buffers T3 !! 5 = Some b3 /\ slice b3 512 172 = slice ex_block1 512 172) /\
  beamfs_iget ex_tables 0 (damaged_table (plain ex_table1) 5 ex_block2) true true None 3 =
    (IgetErr (- EIO), damaged_table (plain ex_table1) 5 ex_block2).
Proof.
  assert (B2 : bytes ex_block2) by (apply bytes_check; vm_compute; reflexivity).
  assert (N : beamfs_inode_crc (slice ex_block2 (inode_offset 3) 256) <> get_le32 ex_block2 (inode_offset 3 + off_i_crc32))
    by (vm_compute; congruence).
  assert (M : get_le16 ex_block2 (inode_offset 3 + off_i_mode) <> 0) by (vm_compute; congruence). split.
  - refine (proj1 (inode_roundtrip ex_tables 0 ex_table 3 ex_vinode (zeros 4096) ex_block1 ex_block2 ex_table1
      eq_refl ex_table_ok eq_refl ex_vinode_ok _ eq_refl _ _ eq_refl B2 M) (or_intror (conj (or_introl eq_refl) (conj N _))));
      [cbn; lia|vm_compute; reflexivity|vm_compute; reflexivity|vm_compute; congruence].
  - refine (proj2 (inode_roundtrip ex_tables 0 (plain ex_table) 3 ex_vinode (zeros 4096) ex_block1 ex_block2 (plain ex_table1)
      eq_refl ex_table_ok eq_refl ex_vinode_ok _ eq_refl _ _ eq_refl B2 M) _ N);
      [cbn; lia|vm_compute; reflexivity|vm_compute; reflexivity|intros [H|H]; [discriminate H|by apply H]].
Defined.

Lemma inode_write_isolated_witness :
  fst (beamfs_iget ex_tables 0 ex_table1 true true None 4) = fst (beamfs_iget ex_tables 0 ex_table true true None 4).
Proof.
  apply (inode_write_isolated ex_tables 0 ex_table 3 ex_vinode).
  - reflexivity.
  - exact ex_table_ok.
  - exact ex_vinode_ok.
  - lia.
  - vm_compute. reflexivity.
Defined.

Lemma damaged_ok T blk b : table_ok T -> zlen b = 4096 -> bytes b -> table_ok (damaged_table T blk b).
Proof. intros H Zb Bb k x Hx. cbn [damaged_table it_buffers] in Hx. apply lookup_insert_Some in Hx as [[_ <-]|[_ Hx]]; [done|by apply (H k)]. Qed.

Lemma ex_damaged_ok : table_ok (damaged_table ex_table1 5 ex_block2).
Proof.
  assert (E : it_buffers ex_table1 = {[5 := ex_block1]}) by (vm_compute; reflexivity).
  apply damaged_ok; [|vm_compute; reflexivity|apply bytes_check; vm_compute; reflexivity].
  intros blk b Hb. rewrite E in Hb. apply lookup_singleton_Some in Hb as [_ <-].
  split; [vm_compute; reflexivity|apply bytes_check; vm_compute; reflexivity].
Qed.

Lemma iget_fails_closed_witness :
  (let res := beamfs_iget ex_tables 0 ex_table true true None 4 in fst res = IgetErr (- ESTALE) /\ snd res = ex_table) /\
  exists i T' r, beamfs_iget ex_tables 0 (damaged_table ex_table1 5 ex_block2) true true None 3 = (IgetOk i false IopsDir, T') /\
    inode_slot T' 3 = Some r /\ beamfs_inode_crc r = get_le32 r off_i_crc32.
Proof.
  split.
  - split; [vm_compute; reflexivity|].
    apply (iget_fails_closed ex_tables 0 ex_table true true 4 (IgetErr (- ESTALE)));
      [reflexivity|exact ex_table_ok|vm_compute; reflexivity].
  - assert (F : fst (beamfs_iget ex_tables 0 (damaged_table ex_table1 5 ex_block2) true true None 3) = IgetOk ex_vinode false IopsDir)
      by (vm_compute; reflexivity).
    destruct (beamfs_iget ex_tables 0 (damaged_table ex_table1 5 ex_block2) true true None 3) as [res T'] eqn:E. cbn [fst] in F. subst res.
    destruct (iget_fails_closed ex_tables 0 (damaged_table ex_table1 5 ex_block2) true true 3 (IgetOk ex_vinode false IopsDir) T' eq_refl ex_damaged_ok E)
      as (_ & _ & _ & _ & r & R & _ & C).
    exists ex_vinode, T', r. split; [reflexivity|]. split; [exact R|exact C].
Defined.
