(* ===== verification/Alert.v ===== *)
(** * Threshold alerts (alert.c)

    A uevent when a block cannot be recovered, when one has no margin left,
    and when a sweep corrected more than the operator allows; each class no
    more often than once a minute.  Time is [jiffies], an unsigned long
    that wraps. *)

From Stdlib Require Import Sorted.
From S2P Require Import Prelude Format.

(** Two's complement reading of [w] bits. *)
Definition signed (w x : Z) : Z := let y := x mod 2 ^ w in if y <? 2 ^ (w - 1) then y else y - 2 ^ w.

Definition BEAMFS_ALERT_UNCORRECTABLE : Z := 0.
Definition BEAMFS_ALERT_MARGIN : Z := 1.
Definition BEAMFS_ALERT_RATE : Z := 2.
Definition BEAMFS_ALERT_CLASSES : Z := 3.

(** What a notification says. *)
Inductive alert_detail :=
  | Unrecoverable (phys : Z)
  | NoMargin (phys : Z)
  | CorrectionRate (delta limit : Z).

Record alerts := Alerts {
  s_kobj_initialized : bool;
  s_alert_last : list Z;              (** jiffies of the last of each class, 0 for never *)
  s_alert_last_corrected : Z;
  s_alert_rate_limit : Z;
  s_scrub_corrected : Z;
  uevents : list (Z * alert_detail) } .  (** kobject_uevent_env: class and detail, in order *)

Section alert.
(** BITS_PER_LONG, and msecs_to_jiffies(BEAMFS_ALERT_INTERVAL_MS). *)
Context (w interval : Z).

Definition time_before (a b : Z) : bool := signed w (a - b) <? 0.

Definition beamfs_alert (now : Z) (a : alerts) (class : Z) (d : alert_detail) : alerts :=
  if BEAMFS_ALERT_CLASSES <=? class then a
  else if negb (s_kobj_initialized a) then a
  else
    let last := getb (s_alert_last a) class in
    if negb (last =? 0) && time_before now ((last + interval) mod 2 ^ w) then a
    else
      Alerts (s_kobj_initialized a) (setb (s_alert_last a) class (if now =? 0 then 1 else now))
        (s_alert_last_corrected a) (s_alert_rate_limit a) (s_scrub_corrected a) (uevents a ++ [(class, d)]).

Definition beamfs_alert_uncorrectable (now : Z) (a : alerts) (phys : Z) : alerts :=
  beamfs_alert now a BEAMFS_ALERT_UNCORRECTABLE (Unrecoverable phys).

Definition beamfs_alert_margin (now : Z) (a : alerts) (phys used : Z) : alerts :=
  if used <? BEAMFS_ERROR_BUDGET_MAX then a else beamfs_alert now a BEAMFS_ALERT_MARGIN (NoMargin phys).

Definition beamfs_alert_check_rate (now : Z) (a : alerts) : alerts :=
  if s_alert_rate_limit a =? 0 then a
  else
    let delta := u64 (s_scrub_corrected a - s_alert_last_corrected a) in
    let a := Alerts (s_kobj_initialized a) (s_alert_last a) (s_scrub_corrected a) (s_alert_rate_limit a)
      (s_scrub_corrected a) (uevents a) in
    if delta <? s_alert_rate_limit a then a
    else beamfs_alert now a BEAMFS_ALERT_RATE (CorrectionRate delta (s_alert_rate_limit a)).
End alert.

(** ** What the rate limit does *)

Section limit.
Context (w interval : Z) (Hw : 2 <= w) (Hint : 0 < interval < 2 ^ (w - 2)).

(** Calls at true times, in ticks since boot; the code sees them modulo 2^w. *)
Record alert_call := AlertCall { ac_time : Z; ac_class : Z; ac_detail : alert_detail }.

Definition do_alert (a : alerts) (c : alert_call) : alerts :=
  beamfs_alert w interval (ac_time c mod 2 ^ w) a (ac_class c) (ac_detail c).

(** The call was answered with a notification. *)
Definition fires (a : alerts) (c : alert_call) : bool :=
  negb (zlen (uevents (do_alert a c)) =? zlen (uevents a)).

(** The calls of a run that fired. *)
Fixpoint fired (a : alerts) (cs : list alert_call) : list alert_call :=
  match cs with
  | [] => []
  | c :: cs => if fires a c then c :: fired (do_alert a c) cs else fired (do_alert a c) cs
  end.

Definition run_alerts (a : alerts) (cs : list alert_call) : alerts := foldl do_alert a cs.

(** Class [k] last fired at true time [t] ([None]: never). *)
Definition last_at (a : alerts) (k : Z) (t : option Z) : Prop :=
  match t with
  | None => getb (s_alert_last a) k = 0
  | Some t => getb (s_alert_last a) k = if t mod 2 ^ w =? 0 then 1 else t mod 2 ^ w
  end.

Lemma pow_w : 2 ^ w = 4 * 2 ^ (w - 2) /\ 2 ^ (w - 1) = 2 * 2 ^ (w - 2) /\ 0 < 2 ^ (w - 2).
Proof.
  replace w with (w - 2 + 2) at 1 by lia. replace (w - 1) with (w - 2 + 1) by lia.
  rewrite !Z.pow_add_r by lia. split_and!; [lia|lia|]. apply Z.pow_pos_nonneg; lia.
Qed.

(** The test on stamps is the test on true times, for half the wrap. *)
Lemma time_before_true t now : 0 <= t <= now -> now - t < 2 ^ (w - 1) ->
  let last := if t mod 2 ^ w =? 0 then 1 else t mod 2 ^ w in
  time_before w (now mod 2 ^ w) ((last + interval) mod 2 ^ w) =
    (now <? t + interval + if t mod 2 ^ w =? 0 then 1 else 0).
Proof.
  intros Ht Hn last. destruct pow_w as (P1 & P2 & P3). unfold time_before, signed.
  set (e := if t mod 2 ^ w =? 0 then 1 else 0). assert (He : 0 <= e <= 1) by (unfold e; destruct (_ =? 0); lia).
  assert (El : exists q, last = t + e + q * 2 ^ w).
  { pose proof (Z.div_mod t (2 ^ w) ltac:(lia)) as D. unfold last, e. exists (- (t / 2 ^ w)).
    destruct (Z.eqb_spec (t mod 2 ^ w) 0); lia. }
  destruct El as [q El].
  assert (Em : (now mod 2 ^ w - (last + interval) mod 2 ^ w) mod 2 ^ w = (now - t - interval - e) mod 2 ^ w).
  { rewrite <- Zminus_mod. rewrite El. replace (now - (t + e + q * 2 ^ w + interval)) with (now - t - interval - e + (- q) * 2 ^ w) by lia.
    apply Z_mod_plus_full. }
  rewrite Em. set (d := now - t - interval - e). fold e.
  destruct (Z.ltb_spec now (t + interval + e)) as [L|L].
  - assert (M : d mod 2 ^ w = d + 2 ^ w) by (symmetry; apply (Z.mod_unique_pos _ _ (-1)); unfold d; lia).
    rewrite M. replace (d + 2 ^ w <? 2 ^ (w - 1)) with false by (unfold d; lia). unfold d. lia.
  - assert (M : d mod 2 ^ w = d) by (apply Z.mod_small; unfold d; lia). rewrite M.
    replace (d <? 2 ^ (w - 1)) with true by (unfold d; lia). unfold d. lia.
Qed.
Definition call_ok (c : alert_call) : Prop := 0 <= ac_class c < 3.

(** Notifications can be sent, and every class has its stamp. *)
Definition alerts_ok (a : alerts) : Prop := s_kobj_initialized a = true /\ zlen (s_alert_last a) = 3.

(** The true times at which the classes last fired. *)
Definition history (a : alerts) (h : Z -> option Z) : Prop := forall k, 0 <= k < 3 -> last_at a k (h k).

Definition after (c : alert_call) (h : Z -> option Z) : Z -> option Z := fun k => if k =? ac_class c then Some (ac_time c) else h k.

(** One call: it is suppressed within the interval after the last of its
    class, and fires otherwise. *)
Lemma do_alert_step a c h : alerts_ok a -> call_ok c -> history a h ->
  (forall t, h (ac_class c) = Some t -> 0 <= t <= ac_time c /\ ac_time c - t < 2 ^ (w - 1)) ->
  (do_alert a c = a /\ fires a c = false /\ exists t, h (ac_class c) = Some t /\ ac_time c <= t + interval) \/
  (fires a c = true /\ (forall t, h (ac_class c) = Some t -> t + interval <= ac_time c) /\
   alerts_ok (do_alert a c) /\ history (do_alert a c) (after c h) /\ uevents (do_alert a c) = uevents a ++ [(ac_class c, ac_detail c)]).
Proof.
  intros [K L] Hc Hh Ht. unfold call_ok in Hc. pose proof (Hh (ac_class c) Hc) as Hl.
  set (silent := negb (getb (s_alert_last a) (ac_class c) =? 0) &&
    time_before w (ac_time c mod 2 ^ w) ((getb (s_alert_last a) (ac_class c) + interval) mod 2 ^ w)).
  assert (Ed : do_alert a c = if silent then a else
    Alerts (s_kobj_initialized a) (setb (s_alert_last a) (ac_class c) (if ac_time c mod 2 ^ w =? 0 then 1 else ac_time c mod 2 ^ w))
        (s_alert_last_corrected a) (s_alert_rate_limit a) (s_scrub_corrected a) (uevents a ++ [(ac_class c, ac_detail c)])).
  { unfold do_alert, beamfs_alert. replace (BEAMFS_ALERT_CLASSES <=? ac_class c) with false by (unfold BEAMFS_ALERT_CLASSES; lia).
    rewrite K. cbn [negb]. reflexivity. }
  assert (Es : silent = match h (ac_class c) with
    | None => false | Some t => ac_time c <? t + interval + if t mod 2 ^ w =? 0 then 1 else 0 end).
  { unfold silent. destruct (h (ac_class c)) as [t|]; cbn [last_at] in Hl; rewrite Hl; [|done].
    destruct (Ht t eq_refl) as [T1 T2]. rewrite time_before_true by done.
    destruct pow_w as (P1 & _ & P3). pose proof (Z.mod_pos_bound t (2 ^ w) ltac:(lia)).
    assert (((if t mod 2 ^ w =? 0 then 1 else t mod 2 ^ w) =? 0) = false) as ->; [|done]. destruct (Z.eqb_spec (t mod 2 ^ w) 0); lia. }
  unfold fires. rewrite Ed. clearbody silent. destruct silent.
  - left. split_and!; [done|by rewrite Z.eqb_refl|]. destruct (h (ac_class c)) as [t|]; [|done].
    exists t. split; [done|]. destruct (t mod 2 ^ w =? 0); lia.
  - right. cbn [uevents]. rewrite zlen_app. change (zlen [(ac_class c, ac_detail c)]) with 1.
    split; [lia|]. split; [|split; [|split; [|done]]].
    + intros t E. rewrite E in Es. destruct (t mod 2 ^ w =? 0); lia.
    + split; [done|]. cbn [s_alert_last]. by rewrite zlen_setb.
    + intros k Hk. unfold after. cbn [s_alert_last last_at]. destruct (Z.eqb_spec k (ac_class c)) as [->|N].
      * cbn [last_at s_alert_last]. by rewrite getb_setb_eq by lia.
      * specialize (Hh k Hk). unfold last_at in *. cbn [s_alert_last]. by rewrite getb_setb_ne by lia.
Qed.

(** Same class: a whole interval between. *)
Definition spaced (c c' : alert_call) : Prop := ac_class c = ac_class c' -> ac_time c + interval <= ac_time c'.

(** A run, from any history. *)
Lemma run_alerts_spec cs : forall a h t0, alerts_ok a -> history a h -> 0 <= t0 ->
  Forall (fun c => call_ok c /\ t0 <= ac_time c < t0 + 2 ^ (w - 1)) cs -> StronglySorted (fun c c' => ac_time c <= ac_time c') cs ->
  (forall k t c, h k = Some t -> c ∈ cs -> t0 <= t <= ac_time c) ->
  StronglySorted spaced (fired a cs) /\
  (forall c t, c ∈ fired a cs -> h (ac_class c) = Some t -> t + interval <= ac_time c) /\
  (forall c, c ∈ cs -> (exists t, h (ac_class c) = Some t /\ ac_time c <= t + interval) \/
     exists c', c' ∈ fired a cs /\ ac_class c' = ac_class c /\ ac_time c' <= ac_time c <= ac_time c' + interval) /\
  uevents (run_alerts a cs) = uevents a ++ map (fun c => (ac_class c, ac_detail c)) (fired a cs).
Proof.
  induction cs as [|c cs IH]; intros a h t0 A H T0 F S Ht.
  { cbn. rewrite app_nil_r. split_and!; [constructor| | |done]; intros c; [intros t|]; intros Hc; by apply elem_of_nil in Hc. }
  apply list.Forall_cons in F as [[Fc Ft] F]. apply StronglySorted_inv in S as [S Sc].
  assert (Hs : forall c', c' ∈ cs -> ac_time c <= ac_time c') by (by apply list.Forall_forall).
  cbn [fired run_alerts foldl]. fold (run_alerts (do_alert a c) cs).
  destruct (do_alert_step a c h A Fc H) as [(-> & -> & t & Et & Hle)|(-> & Hge & A' & H' & Ev)].
  { intros t Et. pose proof (Ht _ t c Et ltac:(left)). lia. }
  - destruct (IH a h t0 A H T0 F S) as (I1 & I2 & I3 & I4); [intros k s c' Ek Hc'; apply (Ht k); [done|by right]|].
    split_and!; [done|done| |done]. intros c' [->|Hc']%elem_of_cons; [left; by exists t|by apply I3].
  - destruct (IH (do_alert a c) (after c h) t0 A' H' T0 F S) as (I1 & I2 & I3 & I4).
    { intros k s c' Ek Hc'. unfold after in Ek. destruct (k =? ac_class c).
      - injection Ek as <-. split; [lia|by apply Hs].
      - apply (Ht k); [done|by right]. }
    assert (Ec : forall c', ac_class c = ac_class c' -> after c h (ac_class c') = Some (ac_time c)) by (intros c' E; unfold after; by rewrite E, Z.eqb_refl).
    split_and!.
    + constructor; [done|]. apply list.Forall_forall. intros c' Hc' E. by apply I2, Ec.
    + intros c' t [->|Hc']%elem_of_cons Et; [by apply Hge|]. destruct (decide (ac_class c = ac_class c')) as [E|E].
      * pose proof (I2 c' _ Hc' (Ec c' E)). rewrite <- E in Et. pose proof (Ht _ t c Et ltac:(left)). lia.
      * apply I2; [done|]. unfold after. by replace (ac_class c' =? ac_class c) with false by lia.
    + intros c' [->|Hc']%elem_of_cons; [right; exists c; split_and!; [left|done|lia|lia]|].
      destruct (I3 c' Hc') as [(t & Et & Hle)|(c2 & H2 & E2 & T2)]; [|right; exists c2; split_and!; [by right|done|lia|lia]].
      unfold after in Et. destruct (Z.eqb_spec (ac_class c') (ac_class c)) as [E|E]; [|left; by exists t].
      injection Et as <-. right. exists c. split_and!; [left|done|by apply Hs|done].
    + rewrite I4, Ev. cbn [map]. by rewrite <- app_assoc.
Qed.
End limit.

(** ** Theorems *)

(** C34: the rate limit, across the wrap of jiffies.  In a run of calls within
    half the wrap of an unsigned long, two notifications of one class are a
    whole interval apart; a call that notified nobody came within an
    interval of a notification of its class, so the first of a class is
    never suppressed, not even at jiffies 0; and what was sent is exactly
    the calls that fired, in order. *)
Theorem alerts_rate_limited (w interval t0 : Z) (a : alerts) (cs : list alert_call) :
  2 <= w -> 0 < interval < 2 ^ (w - 2) -> 0 <= t0 -> s_kobj_initialized a = true -> s_alert_last a = [0; 0; 0] ->
  Forall (fun c => call_ok c /\ t0 <= ac_time c < t0 + 2 ^ (w - 1)) cs -> StronglySorted (fun c c' => ac_time c <= ac_time c') cs ->
  StronglySorted (spaced interval) (fired w interval a cs) /\
  (forall c, c ∈ cs -> exists c', c' ∈ fired w interval a cs /\ ac_class c' = ac_class c /\
     ac_time c' <= ac_time c <= ac_time c' + interval) /\
  uevents (run_alerts w interval a cs) = uevents a ++ map (fun c => (ac_class c, ac_detail c)) (fired w interval a cs).
Proof.
  intros Hw Hi T0 K L F S. assert (H : history w a (fun _ => None)).
  { intros k Hk. unfold last_at. rewrite L. assert (k = 0 \/ k = 1 \/ k = 2) as [->|[->| ->]] by lia; done. }
  destruct (run_alerts_spec w interval Hw Hi cs a (fun _ => None) t0) as (R1 & R2 & R3 & R4); [by split; [|rewrite L]|done..|].
  split_and!; [done| |done]. intros c Hc. destruct (R3 c Hc) as [(t & Et & _)|R]; [done|exact R].
Qed.

(** Three calls around the wrap of a 32-bit jiffies at 1000 ticks a second. *)
Definition ex_alerts : alerts := Alerts true [0; 0; 0] 0 0 0 [].
Definition ex_calls : list alert_call :=
  [AlertCall (2 ^ 32) 0 (Unrecoverable 7); AlertCall (2 ^ 32 + 59999) 0 (Unrecoverable 8);
   AlertCall (2 ^ 32 + 60001) 0 (Unrecoverable 9)].

Lemma alerts_rate_limited_witness :
  fired 32 60000 ex_alerts ex_calls = [AlertCall (2 ^ 32) 0 (Unrecoverable 7); AlertCall (2 ^ 32 + 60001) 0 (Unrecoverable 9)] /\
  uevents (run_alerts 32 60000 ex_alerts ex_calls) = [(0, Unrecoverable 7); (0, Unrecoverable 9)].
Proof.
  split; [vm_compute; reflexivity|].
  refine (proj2 (proj2 (alerts_rate_limited 32 60000 (2 ^ 32) ex_alerts ex_calls _ _ _ _ _ _ _))); try reflexivity; try lia.
  - repeat (apply list.Forall_cons; split; [split; [split|]; cbn; lia|]). apply list.Forall_nil_2.
  - repeat (constructor; cbn [ac_time]; try lia).
Defined.

(** A class quiet for more than half the wrap is taken for one that fired a
    moment ago: with a 32-bit long at 1000 ticks a second, 25 days. *)
Lemma alert_lost_after_half_wrap :
  uevents (run_alerts 32 60000 ex_alerts
    [AlertCall 1000 0 (Unrecoverable 7); AlertCall (1000 + 26 * 86400 * 1000) 0 (Unrecoverable 8)]) = [(0, Unrecoverable 7)].
Proof. vm_compute. reflexivity. Qed.
