(* ===== verification/Budget.v ===== *)
(** * The error budget (budget.c)

    One byte per data block: the most symbols any subblock of it ever
    needed corrected, of the eight that can be. *)

From stdpp Require Import gmap.
From S2P Require Import Prelude Format Alert.

Record budget := Budget {
  bg_budget_blk : Z;
  bg_budget_len : Z;
  bg_data_start : Z;
  bg_nblocks : Z;
  bg_buffers : gmap Z (list Z);       (** what sb_bread returns *)
  bg_dirty : list Z;
  bg_alerts : alerts }.

Definition budget_active (B : budget) : bool := negb (bg_budget_blk B =? 0) && negb (bg_budget_len B =? 0).

(** The region block and the offset of the byte of [phys]. *)
Definition budget_slot (B : budget) (phys : Z) : option (Z * Z) :=
  if negb (budget_active B) || (phys <? bg_data_start B) then None
  else
    let index := phys - bg_data_start B in
    let region_blk := u64 (bg_budget_blk B + index / BEAMFS_BLOCK_SIZE) in
    let offset := index mod BEAMFS_BLOCK_SIZE in
    if region_blk <? u64 (bg_budget_blk B + bg_budget_len B) then Some (region_blk, offset) else None.

Section record.
Context (w interval : Z).

Definition beamfs_budget_record (now : Z) (B : budget) (phys symbols : Z) : budget :=
  if symbols =? 0 then B
  else
    match budget_slot B phys with
    | None => B
    | Some (region_blk, offset) =>
      let capped := Z.min symbols BEAMFS_ERROR_BUDGET_MAX in
      match bg_buffers B !! region_blk with
      | None => B
      | Some b =>
        if getb b offset <? capped then
          Budget (bg_budget_blk B) (bg_budget_len B) (bg_data_start B) (bg_nblocks B)
            (<[region_blk := setb b offset capped]> (bg_buffers B)) (region_blk :: bg_dirty B)
            (beamfs_alert_margin w interval now (bg_alerts B) phys capped)
        else B
      end
    end.
End record.

(** The first of the [span] bytes from [offset] that is at [threshold]. *)
Fixpoint first_worn (b : list Z) (offset threshold : Z) (span : nat) (i : Z) : option Z :=
  match span with
  | O => None
  | S span => if threshold <=? getb b (offset + i) then Some i else first_worn b offset threshold span (i + 1)
  end.

Fixpoint next_worn_loop (B : budget) (last threshold : Z) (fuel : nat) (phys : Z) : Z :=
  match fuel with
  | O => 0
  | S fuel =>
    if negb (phys <? last) then 0
    else
      match budget_slot B phys with
      | None => 0
      | Some (region_blk, offset) =>
        let span := Z.min (BEAMFS_BLOCK_SIZE - offset) (last - phys) in
        match bg_buffers B !! region_blk with
        | None => next_worn_loop B last threshold fuel (phys + span)
        | Some b =>
          match first_worn b offset threshold (Z.to_nat span) 0 with
          | Some i => phys + i
          | None => next_worn_loop B last threshold fuel (phys + span)
          end
        end
      end
  end.

Definition beamfs_budget_next_worn (B : budget) (from threshold : Z) : Z :=
  if bg_budget_len B =? 0 then 0
  else
    let first := Z.max from (bg_data_start B) in
    let last := u64 (bg_data_start B + bg_nblocks B) in
    next_worn_loop B last threshold (S (Z.to_nat (last - first))) first.

Definition beamfs_budget_read (B : budget) (phys : Z) : Z :=
  match budget_slot B phys with
  | None => 0
  | Some (region_blk, offset) => match bg_buffers B !! region_blk with None => 0 | Some b => getb b offset end
  end.

(** The bytes of one region block: (seen, hist). *)
Fixpoint histogram_bytes (nblocks : Z) (b : list Z) (seen : Z) (hist : list Z) : Z * list Z :=
  match b with
  | [] => (seen, hist)
  | v :: b =>
    if nblocks <=? seen then (seen, hist)
    else
      let v := if BEAMFS_ERROR_BUDGET_MAX <? v then BEAMFS_ERROR_BUDGET_MAX else v in
      histogram_bytes nblocks b (seen + 1) (setb hist v (u64 (getb hist v + 1)))
  end.

Definition beamfs_budget_histogram (B : budget) : list Z :=
  let hist := zeros (BEAMFS_ERROR_BUDGET_MAX + 1) in
  if negb (budget_active B) then hist
  else
    snd (foldl (fun '(seen, hist) blk =>
      match bg_buffers B !! (bg_budget_blk B + blk) with
      | None => (seen, hist)
      | Some b => histogram_bytes (bg_nblocks B) b seen hist
      end) (0, hist) (upto (bg_budget_len B))).

(** ** The region *)

(** A region that has a byte for every data block, and its buffers. *)
Record budget_ok (B : budget) : Prop := {
  bo_blk : 0 < bg_budget_blk B;
  bo_len : 0 < bg_budget_len B < 2 ^ 32;
  bo_end : bg_budget_blk B + bg_budget_len B < 2 ^ 64;
  bo_start : 0 < bg_data_start B;
  bo_nblocks : 0 <= bg_nblocks B <= bg_budget_len B * 4096;
  bo_last : bg_data_start B + bg_nblocks B < 2 ^ 64;
  bo_buffers : forall blk b, bg_buffers B !! blk = Some b -> zlen b = 4096 }.

Definition in_budget (B : budget) (phys : Z) : Prop := bg_data_start B <= phys < bg_data_start B + bg_nblocks B.

Lemma budget_slot_eq B phys : budget_ok B -> in_budget B phys ->
  let index := phys - bg_data_start B in budget_slot B phys = Some (bg_budget_blk B + index / 4096, index mod 4096).
Proof.
  intros [] [H1 H2] index. unfold budget_slot, budget_active.
  replace (bg_budget_blk B =? 0) with false by lia. replace (bg_budget_len B =? 0) with false by lia.
  replace (phys <? bg_data_start B) with false by lia. cbn [negb andb orb]. change BEAMFS_BLOCK_SIZE with 4096. fold index.
  assert (0 <= index / 4096 < bg_budget_len B).
  { split; [apply Z.div_pos; unfold index; lia|apply Z.div_lt_upper_bound; unfold index; lia]. }
  unfold u64. rewrite !Z.mod_small by lia. by replace (_ <? _) with true by lia.
Qed.

(** Distinct data blocks have distinct bytes. *)
Lemma budget_slot_inj B p q : budget_ok B -> in_budget B p -> in_budget B q -> budget_slot B p = budget_slot B q -> p = q.
Proof.
  intros H Hp Hq. rewrite !budget_slot_eq by done. intros E.
  pose proof (Z.div_mod (p - bg_data_start B) 4096 ltac:(lia)). pose proof (Z.div_mod (q - bg_data_start B) 4096 ltac:(lia)).
  injection E as E1 E2. lia.
Qed.

(** The byte of [phys] can be read. *)
Definition described (B : budget) (phys : Z) : Prop := exists blk off b, budget_slot B phys = Some (blk, off) /\ bg_buffers B !! blk = Some b.

Section records.
Context (w interval : Z).

Record record_call := RecordCall { bc_now : Z; bc_phys : Z; bc_symbols : Z }.

Definition do_record (B : budget) (c : record_call) : budget := beamfs_budget_record w interval (bc_now c) B (bc_phys c) (bc_symbols c).

(** A state of the same region. *)
Definition same_budget (B B' : budget) : Prop :=
  bg_budget_blk B' = bg_budget_blk B /\ bg_budget_len B' = bg_budget_len B /\ bg_data_start B' = bg_data_start B /\
  bg_nblocks B' = bg_nblocks B /\ forall blk, is_Some (bg_buffers B' !! blk) <-> is_Some (bg_buffers B !! blk).

Lemma same_budget_slot B B' phys : same_budget B B' -> budget_slot B' phys = budget_slot B phys.
Proof. intros (E1 & E2 & E3 & E4 & _). unfold budget_slot, budget_active. by rewrite E1, E2, E3. Qed.

Lemma same_budget_described B B' phys : same_budget B B' -> described B' phys <-> described B phys.
Proof.
  intros S. destruct (S) as (_ & _ & _ & _ & Hb). unfold described. rewrite (same_budget_slot B B') by done.
  split; intros (blk & off & b & E1 & E2); destruct (Hb blk) as [H1 H2].
  - destruct (H1 ltac:(by eexists)) as [b' E]. by exists blk, off, b'.
  - destruct (H2 ltac:(by eexists)) as [b' E]. by exists blk, off, b'.
Qed.

(** What the corrections of one call leave of a mark [v]. *)
Definition raise (phys : Z) (v : Z) (c : record_call) : Z :=
  if bc_phys c =? phys then Z.max v (Z.min (bc_symbols c) BEAMFS_ERROR_BUDGET_MAX) else v.

(** The state after a mark was raised. *)
Definition raised (B : budget) (blk off v : Z) (b : list Z) (al : alerts) : budget :=
  Budget (bg_budget_blk B) (bg_budget_len B) (bg_data_start B) (bg_nblocks B)
    (<[blk := setb b off v]> (bg_buffers B)) (blk :: bg_dirty B) al.

Lemma raised_ok B blk off v b al : budget_ok B -> bg_buffers B !! blk = Some b ->
  budget_ok (raised B blk off v b al) /\ same_budget B (raised B blk off v b al).
Proof.
  intros [] Eb. split.
  - split; try done. intros k b' E. cbn [raised bg_buffers] in E.
    apply lookup_insert_Some in E as [[<- <-]|[_ E]]; rewrite ?zlen_setb; by eapply bo_buffers0.
  - do 4 (split; [reflexivity|]). intros k. cbn [raised bg_buffers]. destruct (decide (blk = k)) as [<-|N];
      [rewrite lookup_insert_eq, Eb; split; intros _; by eexists|by rewrite lookup_insert_ne].
Qed.

Lemma raised_read B p blk off v b al q : budget_ok B -> in_budget B p -> in_budget B q ->
  budget_slot B p = Some (blk, off) -> bg_buffers B !! blk = Some b ->
  beamfs_budget_read (raised B blk off v b al) q = if p =? q then v else beamfs_budget_read B q.
Proof.
  intros Ok Hp Hq Es Eb. pose proof (budget_slot_eq B p Ok Hp) as E1. pose proof (budget_slot_eq B q Ok Hq) as E2. cbv zeta in E1, E2.
  rewrite Es in E1. injection E1 as E1 E1'. pose proof (Z.mod_pos_bound (p - bg_data_start B) 4096 ltac:(lia)).
  pose proof (Z.mod_pos_bound (q - bg_data_start B) 4096 ltac:(lia)). pose proof (bo_buffers B Ok _ _ Eb) as Zb.
  unfold beamfs_budget_read. rewrite (same_budget_slot B (raised B blk off v b al)) by (by apply raised_ok).
  destruct (Z.eqb_spec p q) as [<-|N]; [rewrite Es; cbn [raised bg_buffers]; rewrite lookup_insert_eq; apply getb_setb_eq; lia|].
  rewrite E2. cbn [raised bg_buffers]. set (k2 := bg_budget_blk B + (q - bg_data_start B) / 4096) in *. set (o2 := (q - bg_data_start B) mod 4096) in *.
  destruct (decide (blk = k2)) as [E|E]; [|by rewrite lookup_insert_ne].
  rewrite <- E, lookup_insert_eq, Eb. apply getb_setb_ne; [lia|lia|]. intros Eo. apply N.
  apply (budget_slot_inj B); [done|done|done|]. by rewrite Es, E2, E, Eo.
Qed.

(** A call either changes nothing, because the mark is not below it or
    cannot be read, or raises the mark and tells the alerts. *)
Lemma do_record_cases B c : budget_ok B -> in_budget B (bc_phys c) -> 0 <= bc_symbols c ->
  (do_record B c = B /\ (described B (bc_phys c) -> 0 <= beamfs_budget_read B (bc_phys c) ->
     Z.min (bc_symbols c) BEAMFS_ERROR_BUDGET_MAX <= beamfs_budget_read B (bc_phys c))) \/
  exists blk off b, budget_slot B (bc_phys c) = Some (blk, off) /\ bg_buffers B !! blk = Some b /\
    let v := Z.min (bc_symbols c) BEAMFS_ERROR_BUDGET_MAX in beamfs_budget_read B (bc_phys c) < v /\
    do_record B c = raised B blk off v b (beamfs_alert_margin w interval (bc_now c) (bg_alerts B) (bc_phys c) v).
Proof.
  intros Ok Hc Hs. unfold do_record, beamfs_budget_record, beamfs_budget_read. destruct (Z.eqb_spec (bc_symbols c) 0) as [Z0|Z0].
  { left. split; [done|]. intros _ P. rewrite Z0. change (Z.min 0 _) with 0. exact P. }
  destruct (budget_slot B (bc_phys c)) as [[blk off]|] eqn:Es.
  2:{ left. split; [done|]. intros (? & ? & ? & E & _). congruence. }
  destruct (bg_buffers B !! blk) as [b|] eqn:Eb.
  2:{ left. split; [done|]. intros (? & ? & ? & E & ?). congruence. }
  destruct (Z.ltb_spec (getb b off) (Z.min (bc_symbols c) BEAMFS_ERROR_BUDGET_MAX)) as [L|L].
  - right. exists blk, off, b. by split_and!.
  - left. split; [done|]. intros _ _. lia.
Qed.

Lemma do_record_spec B c : budget_ok B -> in_budget B (bc_phys c) -> 0 <= bc_symbols c ->
  budget_ok (do_record B c) /\ same_budget B (do_record B c) /\
  (forall phys, in_budget B phys -> described B phys -> 0 <= beamfs_budget_read B phys ->
     beamfs_budget_read (do_record B c) phys = raise phys (beamfs_budget_read B phys) c).
Proof.
  intros Ok Hc Hs. destruct (do_record_cases B c Ok Hc Hs) as [[-> Hle]|(blk & off & b & Es & Eb & L & ->)].
  - split; [done|]. split; [unfold same_budget; tauto|]. intros phys Hp D P. unfold raise.
    destruct (Z.eqb_spec (bc_phys c) phys) as [<-|]; [|done]. specialize (Hle D P). lia.
  - split; [by apply raised_ok|]. split; [by apply raised_ok|]. intros phys Hp D P.
    rewrite (raised_read B (bc_phys c)) by done. unfold raise. destruct (Z.eqb_spec (bc_phys c) phys) as [<-|]; [lia|done].
Qed.

(** Marks are not negative. *)
Definition marks_ok (B : budget) : Prop := forall phys, 0 <= beamfs_budget_read B phys.

Lemma run_records_spec cs : forall B, budget_ok B -> Forall (fun c => in_budget B (bc_phys c) /\ 0 <= bc_symbols c) cs ->
  let B' := foldl do_record B cs in
  budget_ok B' /\ same_budget B B' /\
  (forall phys, in_budget B phys -> described B phys -> 0 <= beamfs_budget_read B phys ->
     beamfs_budget_read B' phys = foldl (raise phys) (beamfs_budget_read B phys) cs).
Proof.
  induction cs as [|c cs IH]; intros B Ok F; cbn [foldl]; [split; [done|]; split; [unfold same_budget; tauto|done]|].
  apply list.Forall_cons in F as [[Hc Hs] F]. destruct (do_record_spec B c Ok Hc Hs) as (Ok1 & S1 & R1).
  assert (D1 : forall p, in_budget (do_record B c) p <-> in_budget B p) by (destruct S1 as (_ & _ & E3 & E4 & _); intros p; unfold in_budget; by rewrite E3, E4).
  destruct (IH (do_record B c) Ok1) as (Ok2 & S2 & R2).
  { eapply list.Forall_impl; [exact F|]. intros c' [H1 H2]. split; [by apply D1|done]. }
  split; [done|]. split.
  - destruct S1 as (? & ? & ? & ? & K1), S2 as (? & ? & ? & ? & K2). do 4 (split; [congruence|]). intros k. rewrite K2. apply K1.
  - intros phys Hp D P. rewrite R2; [by rewrite R1|by apply D1|by apply (same_budget_described B)|].
    rewrite R1 by done. unfold raise. destruct (_ =? _); lia.
Qed.
End records.

(** ** The scan for worn blocks *)

Lemma first_worn_spec b off th n : forall i,
  match first_worn b off th n i with
  | Some j => i <= j < i + Z.of_nat n /\ th <= getb b (off + j) /\ forall k, i <= k < j -> getb b (off + k) < th
  | None => forall k, i <= k < i + Z.of_nat n -> getb b (off + k) < th
  end.
Proof.
  induction n as [|n IH]; intros i; cbn [first_worn]; [lia|].
  destruct (Z.leb_spec th (getb b (off + i))) as [L|L]; [split_and!; [lia|lia|done|lia]|].
  specialize (IH (i + 1)). destruct (first_worn b off th n (i + 1)) as [j|].
  - destruct IH as (H1 & H2 & H3). split_and!; [lia|lia|done|]. intros k Hk. destruct (decide (k = i)) as [->|]; [done|apply H3; lia].
  - intros k Hk. destruct (decide (k = i)) as [->|]; [done|apply IH; lia].
Qed.

(** The bytes of one region block, from the place of [phys] on. *)
Lemma read_in_block B phys k : budget_ok B -> in_budget B phys -> in_budget B (phys + k) -> 0 <= k ->
  let off := (phys - bg_data_start B) mod 4096 in off + k < 4096 ->
  beamfs_budget_read B (phys + k) =
    match bg_buffers B !! (bg_budget_blk B + (phys - bg_data_start B) / 4096) with None => 0 | Some b => getb b (off + k) end.
Proof.
  intros Ok Hp Hk Hk0 off Ho. unfold beamfs_budget_read. rewrite budget_slot_eq by done. cbv zeta.
  pose proof (Z.div_mod (phys - bg_data_start B) 4096 ltac:(lia)) as D. fold off in D.
  assert (0 <= off < 4096) by (apply Z.mod_pos_bound; lia).
  replace (phys + k - bg_data_start B) with ((phys - bg_data_start B) / 4096 * 4096 + (off + k)) by lia.
  rewrite Z.div_add_l, (Z.div_small (off + k)), Z.add_0_r by lia. rewrite (Z.add_comm (_ * 4096)), Z_mod_plus_full, (Z.mod_small (off + k)) by lia.
  done.
Qed.

(** The answer of a scan of [first, last): the least worn block, or 0. *)
Definition worn_answer (B : budget) (first last th r : Z) : Prop :=
  (r = 0 /\ forall p, first <= p < last -> beamfs_budget_read B p < th) \/
  (first <= r < last /\ th <= beamfs_budget_read B r /\ forall p, first <= p < r -> beamfs_budget_read B p < th).

Lemma worn_answer_skip B first mid last th r : first <= mid <= last ->
  (forall p, first <= p < mid -> beamfs_budget_read B p < th) -> worn_answer B mid last th r -> worn_answer B first last th r.
Proof.
  intros Hm Hs [[-> H]|(H1 & H2 & H3)]; [left|right]; split_and!; try done; try lia; intros p Hp;
    (destruct (decide (p < mid)); [apply Hs; lia|]); [apply H; lia|apply H3; lia].
Qed.

Lemma next_worn_loop_spec B th last fuel : budget_ok B -> 0 < th -> last = bg_data_start B + bg_nblocks B ->
  forall phys, bg_data_start B <= phys -> last - phys < Z.of_nat fuel -> worn_answer B phys last th (next_worn_loop B last th fuel phys).
Proof.
  intros Ok Hth El. induction fuel as [|fuel IH]; intros phys Hp Hf; cbn [next_worn_loop]; [left; split; [done|lia]|].
  destruct (Z.ltb_spec phys last) as [L|L]; cbn [negb]; [|left; split; [done|lia]].
  assert (Hin : in_budget B phys) by (unfold in_budget; lia). rewrite budget_slot_eq by done. cbv zeta. change BEAMFS_BLOCK_SIZE with 4096.
  set (off := (phys - bg_data_start B) mod 4096). assert (Ho : 0 <= off < 4096) by (apply Z.mod_pos_bound; lia).
  set (span := Z.min (4096 - off) (last - phys)). set (blk := bg_budget_blk B + _).
  assert (R : forall k, 0 <= k < span -> beamfs_budget_read B (phys + k) = match bg_buffers B !! blk with None => 0 | Some b => getb b (off + k) end).
  { intros k Hk. apply read_in_block; [done|done|unfold in_budget; lia|lia|]. fold off. lia. }
  assert (Skip : (forall k, 0 <= k < span -> beamfs_budget_read B (phys + k) < th) ->
    worn_answer B phys last th (next_worn_loop B last th fuel (phys + span))).
  { intros H. apply (worn_answer_skip _ _ (phys + span)); [lia| |apply IH; lia].
    intros p Hpp. replace p with (phys + (p - phys)) by lia. apply H. lia. }
  destruct (bg_buffers B !! blk) as [b|]; [|apply Skip; intros k Hk; rewrite R by done; lia].
  pose proof (first_worn_spec b off th (Z.to_nat span) 0) as F. destruct (first_worn b off th (Z.to_nat span) 0) as [j|].
  - destruct F as (F1 & F2 & F3). right. split_and!; [lia|lia|rewrite R by lia; done|]. intros p Hpp.
    replace p with (phys + (p - phys)) by lia. rewrite R by lia. apply F3. lia.
  - apply Skip. intros k Hk. rewrite R by done. apply F. lia.
Qed.

(** ** The histogram *)

Definition capped (v : Z) : Z := Z.min v BEAMFS_ERROR_BUDGET_MAX.

(** How many marks of a list are at level [v]. *)
Definition at_level (v : Z) (l : list Z) : Z := zlen (filter (fun x => capped x = v) l).

(** The histogram of the marks [l]. *)
Definition hist_of (hist : list Z) (l : list Z) : Prop :=
  zlen hist = 9 /\ forall v, 0 <= v <= 8 -> getb hist v = at_level v l.

Lemma at_level_snoc v l x : at_level v (l ++ [x]) = at_level v l + if capped x =? v then 1 else 0.
Proof.
  unfold at_level. rewrite list.filter_app, zlen_app, filter_cons. destruct (Z.eqb_spec (capped x) v) as [E|N];
    [rewrite decide_True by done|rewrite decide_False by done]; done.
Qed.

Lemma at_level_le v l : 0 <= at_level v l <= zlen l.
Proof. unfold at_level, zlen. pose proof (list.length_filter (fun x => capped x = v) l). lia. Qed.

Lemma histogram_bytes_spec n b : bytes b -> n < 2 ^ 64 -> forall l hist, hist_of hist l -> zlen l <= n ->
  let l' := l ++ take (Z.to_nat (n - zlen l)) b in
  exists hist', histogram_bytes n b (zlen l) hist = (zlen l', hist') /\ hist_of hist' l'.
Proof.
  intros Bb Hn. induction b as [|v b IH]; intros l hist H Hl; cbn [histogram_bytes].
  { rewrite take_nil, app_nil_r. by eexists. }
  destruct (Z.leb_spec n (zlen l)) as [L|L].
  { replace (Z.to_nat (n - zlen l)) with 0%nat by lia. cbn [take]. rewrite app_nil_r. by eexists. }
  apply bytes_cons in Bb as [Hv Bb]. assert (Ev : (if BEAMFS_ERROR_BUDGET_MAX <? v then BEAMFS_ERROR_BUDGET_MAX else v) = capped v).
  { unfold capped. destruct (Z.ltb_spec BEAMFS_ERROR_BUDGET_MAX v); lia. }
  rewrite Ev. assert (Hc : 0 <= capped v <= 8) by (unfold capped; change BEAMFS_ERROR_BUDGET_MAX with 8; unfold is_byte in Hv; lia).
  destruct (IH Bb (l ++ [v]) (setb hist (capped v) (u64 (getb hist (capped v) + 1)))) as (hist' & E & H').
  - destruct H as [Z9 H]. split; [by rewrite zlen_setb|]. intros k Hk. rewrite at_level_snoc.
    pose proof (at_level_le (capped v) l). destruct (Z.eqb_spec (capped v) k) as [<-|N].
    + rewrite getb_setb_eq by lia. rewrite H by done. apply Z.mod_small. lia.
    + rewrite getb_setb_ne by lia. rewrite H by done. lia.
  - rewrite zlen_app. change (zlen [v]) with 1. lia.
  - rewrite zlen_app in E, H'. change (zlen [v]) with 1 in E, H'. rewrite <- app_assoc in E, H'.
    replace (Z.to_nat (n - zlen l)) with (S (Z.to_nat (n - (zlen l + 1)))) by lia. cbn [take].
    change (v :: take (Z.to_nat (n - (zlen l + 1))) b) with ([v] ++ take (Z.to_nat (n - (zlen l + 1))) b). by eexists.
Qed.

(** The marks of the first [n] data blocks. *)
Definition marks (B : budget) (n : Z) : list Z := map (fun i => beamfs_budget_read B (bg_data_start B + i)) (upto n).

Lemma zlen_marks B n : 0 <= n -> zlen (marks B n) = n.
Proof. intros H. unfold marks. by rewrite zlen_map, zlen_upto. Qed.

Lemma take_slice (b : list Z) n : take (Z.to_nat n) b = slice b 0 (Z.min n (zlen b)).
Proof.
  unfold slice, zlen. rewrite drop_0. destruct (decide (n <= Z.of_nat (length b))); [by rewrite Z.min_l by lia|].
  rewrite Z.min_r by lia. rewrite !take_ge by lia. done.
Qed.

(** One more region block of marks. *)
Lemma marks_extend B k b : budget_ok B -> 0 <= k -> bg_buffers B !! (bg_budget_blk B + k) = Some b ->
  let m := Z.min (bg_nblocks B) (4096 * k) in
  marks B m ++ take (Z.to_nat (bg_nblocks B - m)) b = marks B (Z.min (bg_nblocks B) (4096 * (k + 1))).
Proof.
  intros Ok Hk Eb m. pose proof (bo_buffers B Ok _ _ Eb) as Zb. pose proof (bo_nblocks B Ok) as Hn. rewrite take_slice, Zb.
  set (c := Z.min (bg_nblocks B - m) 4096). assert (Zs : zlen (slice b 0 c) = c) by (apply zlen_slice; lia).
  assert (Zm : zlen (marks B m) = m) by (apply zlen_marks; lia).
  apply bytes_ext; [rewrite zlen_app, Zs, Zm, zlen_marks; lia|]. rewrite zlen_app, Zs, Zm. intros i Hi.
  unfold marks at 2. rewrite getb_map by (rewrite zlen_upto; lia). rewrite getb_upto by lia.
  rewrite getb_app, Zm by lia. destruct (decide (i < m)) as [L|L].
  { unfold marks. rewrite getb_map by (rewrite zlen_upto; lia). by rewrite getb_upto by lia. }
  assert (m = 4096 * k) as Em by lia. rewrite getb_slice, Z.add_0_l by lia.
  unfold beamfs_budget_read. rewrite budget_slot_eq by (done || unfold in_budget; lia). cbv zeta.
  replace (bg_data_start B + i - bg_data_start B) with (k * 4096 + (i - m)) by lia.
  rewrite Z.div_add_l, Z.div_small, Z.add_0_r, Eb by lia. rewrite (Z.add_comm (k * 4096)), Z_mod_plus_full, Z.mod_small by lia. done.
Qed.

Lemma histogram_spec B : budget_ok B -> (forall blk b, bg_buffers B !! blk = Some b -> bytes b) ->
  (forall k, 0 <= k < bg_budget_len B -> is_Some (bg_buffers B !! (bg_budget_blk B + k))) ->
  hist_of (beamfs_budget_histogram B) (marks B (bg_nblocks B)).
Proof.
  intros Ok Hb Hr. unfold beamfs_budget_histogram, budget_active. pose proof (bo_blk B Ok). pose proof (bo_len B Ok). pose proof (bo_nblocks B Ok).
  pose proof (bo_last B Ok). pose proof (bo_start B Ok).
  replace (bg_budget_blk B =? 0) with false by lia. replace (bg_budget_len B =? 0) with false by lia. cbn [negb andb].
  match goal with |- context [foldl ?f ?s ?l] => assert (I : (fun k st => fst st = Z.min (bg_nblocks B) (4096 * k) /\
    hist_of (snd st) (marks B (Z.min (bg_nblocks B) (4096 * k)))) (bg_budget_len B) (foldl f s l)) end.
  { apply (foldl_upto_ind _ (fun k st => fst st = Z.min (bg_nblocks B) (4096 * k) /\ hist_of (snd st) (marks B (Z.min (bg_nblocks B) (4096 * k))))); [lia| |].
    - rewrite Z.mul_0_r, Z.min_r by lia. split; [done|]. split; [done|]. intros v Hv. change (marks B 0) with (@nil Z).
      assert (v = 0 \/ v = 1 \/ v = 2 \/ v = 3 \/ v = 4 \/ v = 5 \/ v = 6 \/ v = 7 \/ v = 8) as D by lia.
      repeat destruct D as [->|D]; try reflexivity. by rewrite D.
    - intros k [seen hist] Hk [E H']. cbn [fst snd] in E, H'. destruct (Hr k Hk) as [b Eb]. rewrite Eb.
      set (m := Z.min (bg_nblocks B) (4096 * k)) in *. assert (Zm : zlen (marks B m) = m) by (apply zlen_marks; lia).
      destruct (histogram_bytes_spec (bg_nblocks B) b (Hb _ _ Eb) ltac:(lia) _ _ H' ltac:(lia)) as (hist' & Eh & Hh).
      rewrite Zm in Eh, Hh. pose proof (marks_extend B k b Ok ltac:(lia) Eb) as M. cbv zeta in M. fold m in M. rewrite M in Eh, Hh.
      rewrite E, Eh. rewrite zlen_marks by lia. split; done. }
  cbv beta in I. destruct I as [_ I]. by rewrite Z.min_l in I by lia.
Qed.

Lemma foldl_raise phys cs : forall v, let r := foldl (raise phys) v cs in
  v <= r /\ (forall c, c ∈ cs -> bc_phys c = phys -> Z.min (bc_symbols c) 8 <= r) /\
  (r = v \/ exists c, c ∈ cs /\ bc_phys c = phys /\ r = Z.min (bc_symbols c) 8).
Proof.
  induction cs as [|c cs IH]; intros v; cbn [foldl]; [split_and!; [lia| |by left]; intros c Hc; by apply elem_of_nil in Hc|].
  destruct (IH (raise phys v c)) as (I1 & I2 & I3). cbv zeta in *. set (r := foldl (raise phys) (raise phys v c) cs) in *.
  assert (Hr : v <= raise phys v c /\ (bc_phys c = phys -> Z.min (bc_symbols c) 8 <= raise phys v c) /\
    (raise phys v c = v \/ bc_phys c = phys /\ raise phys v c = Z.min (bc_symbols c) 8)).
  { unfold raise. change BEAMFS_ERROR_BUDGET_MAX with 8. destruct (Z.eqb_spec (bc_phys c) phys); lia. }
  destruct Hr as (R1 & R2 & R3). split_and!; [lia| |].
  - intros c' [->|Hc]%elem_of_cons E; [specialize (R2 E); lia|by apply I2].
  - destruct I3 as [I3|(c' & Hc & E & Er)]; [|right; exists c'; split_and!; [by right|done|done]].
    destruct R3 as [R3|[E R3]]; [left; lia|right; exists c; split_and!; [left|done|lia]].
Qed.

Lemma zlen_filter_map {A A'} (f : A -> A') (P : A' -> Prop) `{!forall x, Decision (P x)} (l : list A) :
  zlen (filter P (map f l)) = zlen (filter (fun x => P (f x)) l).
Proof.
  induction l as [|x l IH]; [done|]. cbn [map]. rewrite !filter_cons. destruct (decide (P (f x))); [rewrite !zlen_cons|]; by rewrite IH.
Qed.

(** ** Theorems *)

(** C33: the byte of a block is a high-water mark.  After any sequence of
    records, in any order and for any blocks, a block whose byte can be
    read shows the largest of what it showed before and of the corrections
    recorded for it, capped at eight: it never falls, misses no record and
    is not touched by another block's. *)
Theorem budget_high_water (w interval : Z) (B : budget) (cs : list record_call) (phys : Z) :
  budget_ok B -> Forall (fun c => in_budget B (bc_phys c) /\ 0 <= bc_symbols c) cs ->
  in_budget B phys -> described B phys -> 0 <= beamfs_budget_read B phys ->
  let r := beamfs_budget_read (foldl (do_record w interval) B cs) phys in
  beamfs_budget_read B phys <= r /\
  (forall c, c ∈ cs -> bc_phys c = phys -> Z.min (bc_symbols c) BEAMFS_ERROR_BUDGET_MAX <= r) /\
  (r = beamfs_budget_read B phys \/
   exists c, c ∈ cs /\ bc_phys c = phys /\ r = Z.min (bc_symbols c) BEAMFS_ERROR_BUDGET_MAX).
Proof.
  intros Ok F Hp D P r. destruct (run_records_spec w interval cs B Ok F) as (_ & _ & R).
  unfold r. rewrite R by done. apply foldl_raise.
Qed.

(** The wear scan gives the first block at or after [from] whose mark
    has reached the threshold, and 0 only when there is none, whatever
    region blocks are unreadable in between. *)
Theorem next_worn_finds_first (B : budget) (from threshold : Z) :
  budget_ok B -> 0 < threshold ->
  let first := Z.max from (bg_data_start B) in let last := bg_data_start B + bg_nblocks B in
  let r := beamfs_budget_next_worn B from threshold in
  (r = 0 /\ forall p, first <= p < last -> beamfs_budget_read B p < threshold) \/
  (first <= r < last /\ threshold <= beamfs_budget_read B r /\ forall p, first <= p < r -> beamfs_budget_read B p < threshold).
Proof.
  intros Ok Ht first last r. pose proof (bo_len B Ok). pose proof (bo_last B Ok). pose proof (bo_start B Ok). pose proof (bo_nblocks B Ok).
  unfold r, beamfs_budget_next_worn. replace (bg_budget_len B =? 0) with false by lia.
  unfold u64. rewrite Z.mod_small by lia. fold first. fold last. apply (next_worn_loop_spec B threshold last); [done|done|done|unfold first; lia|lia].
Qed.

(** With every region block readable, entry [v] of the histogram is the
    number of data blocks whose mark is [v], those past eight counted at
    eight, and padding of the last region block counted nowhere. *)
Theorem histogram_counts_blocks (B : budget) (v : Z) :
  budget_ok B -> (forall blk b, bg_buffers B !! blk = Some b -> bytes b) ->
  (forall k, 0 <= k < bg_budget_len B -> is_Some (bg_buffers B !! (bg_budget_blk B + k))) -> 0 <= v <= 8 ->
  getb (beamfs_budget_histogram B) v =
    zlen (filter (fun p => Z.min (beamfs_budget_read B p) BEAMFS_ERROR_BUDGET_MAX = v) (seqZ (bg_data_start B) (bg_nblocks B))).
Proof.
  intros Ok Hb Hr Hv. destruct (histogram_spec B Ok Hb Hr) as [_ H]. rewrite H by done. unfold at_level, marks.
  assert (E : seqZ (bg_data_start B) (bg_nblocks B) = map (Z.add (bg_data_start B)) (upto (bg_nblocks B))).
  { pose proof (fmap_add_seqZ (bg_data_start B) 0 (bg_nblocks B)) as E. by rewrite Z.add_0_r in E. }
  rewrite E, !zlen_filter_map. done.
Qed.

(** ** Witnesses *)

(** 5000 data blocks from block 100, two region blocks from block 40. *)
Definition ex_budget : budget :=
  Budget 40 2 100 5000 (<[40 := setb (zeros 4096) 7 6]> {[41 := zeros 4096]}) [] ex_alerts.

Lemma ex_budget_ok : budget_ok ex_budget.
Proof.
  split; cbn [ex_budget bg_budget_blk bg_budget_len bg_data_start bg_nblocks bg_buffers]; try lia.
  intros blk b [[_ <-]|[_ E]]%lookup_insert_Some; [reflexivity|]. by apply lookup_singleton_Some in E as [_ <-].
Qed.

Lemma budget_high_water_witness :
  3 <= beamfs_budget_read (foldl (do_record 64 60000) ex_budget [RecordCall 9 4300 3; RecordCall 9 107 7; RecordCall 9 4300 2]) 4300.
Proof.
  refine (proj1 (proj2 (budget_high_water 64 60000 ex_budget
    [RecordCall 9 4300 3; RecordCall 9 107 7; RecordCall 9 4300 2] 4300 ex_budget_ok _ _ _ _)) (RecordCall 9 4300 3) _ _).
  - repeat (apply list.Forall_cons; split; [unfold in_budget; cbn; lia|]). apply list.Forall_nil_2.
  - unfold in_budget. cbn. lia.
  - exists 41, 104, (zeros 4096). split; vm_compute; reflexivity.
  - vm_compute. congruence.
  - left.
  - reflexivity.
Defined.

Lemma next_worn_finds_first_witness : beamfs_budget_next_worn ex_budget 0 6 = 107 /\ forall p, 100 <= p < 107 -> beamfs_budget_read ex_budget p < 6.
Proof.
  assert (E : beamfs_budget_next_worn ex_budget 0 6 = 107) by (vm_compute; reflexivity). split; [exact E|].
  destruct (next_worn_finds_first ex_budget 0 6 ex_budget_ok ltac:(lia)) as [[E0 _]|(_ & _ & H)]; rewrite E in *; [discriminate E0|exact H].
Defined.

Lemma histogram_counts_blocks_witness : getb (beamfs_budget_histogram ex_budget) 6 =
  zlen (filter (fun p => Z.min (beamfs_budget_read ex_budget p) 8 = 6) (seqZ 100 5000)).
Proof.
  apply (histogram_counts_blocks ex_budget 6 ex_budget_ok).
  - cbn [ex_budget bg_buffers]. intros blk b [[_ <-]|[_ E]]%lookup_insert_Some; [apply bytes_check; vm_compute; reflexivity|].
    apply lookup_singleton_Some in E as [_ <-]. apply bytes_zeros.
  - intros k Hk. cbn in Hk. assert (k = 0 \/ k = 1) as [->| ->] by lia; by eexists.
  - lia.
Defined.

(** A region block that cannot be read is not counted as seen, so padding
    of a later one is: 5000 blocks, 904 of them readable, 4096 counted. *)
Lemma histogram_counts_padding : getb (beamfs_budget_histogram (Budget 40 2 100 5000 {[41 := zeros 4096]} [] ex_alerts)) 0 = 4096.
Proof. vm_compute. reflexivity. Qed.
