(* ===== verification/Clock.v ===== *)
(** * The clock anchor (clock.c)

    Journal entries carry the monotonic clock.  The anchor is what the wall
    clock read at one point of that scale, and what it was worth; it is
    kept in the mount and in the superblock. *)

From S2P Require Import Prelude Format Crc RsInit RsLib RsComplete Edac EdacTheorems Super SuperTheorems.

Definition BEAMFS_CLOCK_UNKNOWN : Z := 0.
Definition BEAMFS_CLOCK_HARDWARE : Z := 3.

Record anchor := Anchor { s_anchor_mono : Z; s_anchor_real : Z; s_anchor_quality : Z }.

(** [source] is the clock_source parameter, [seconds] the wall clock's. *)
Definition beamfs_clock_quality (source seconds : Z) : Z :=
  let q := if BEAMFS_CLOCK_HARDWARE <? source then BEAMFS_CLOCK_UNKNOWN else source in
  if (BEAMFS_CLOCK_UNKNOWN <? q) && (seconds <? 1000000000) then BEAMFS_CLOCK_UNKNOWN else q.

Section anchor.
Context `{RL : !RsLib} `{CL : !CrcLib} (t : rs_tables) (cpu : nat).

Definition beamfs_clock_anchor (source seconds mono real : Z) (sp : super) : anchor * super :=
  let quality := beamfs_clock_quality source seconds in
  let fsb := put_le64 (s_beamfs_sb sp) off_s_anchor_mono mono in
  let fsb := put_le64 fsb off_s_anchor_real real in
  let fsb := put_le32 fsb off_s_anchor_quality quality in
  (Anchor mono real quality, beamfs_dirty_super t cpu (set_sb sp fsb)).
End anchor.

Definition beamfs_clock_to_real (a : anchor) (mono : Z) : Z :=
  if s_anchor_real a =? 0 then 0
  else if s_anchor_mono a <=? mono then u64 (s_anchor_real a + u64 (mono - s_anchor_mono a))
  else u64 (s_anchor_real a - u64 (s_anchor_mono a - mono)).

(** The anchor a superblock carries. *)
Definition sb_anchor (fsb : list Z) : anchor :=
  Anchor (get_le64 fsb off_s_anchor_mono) (get_le64 fsb off_s_anchor_real) (get_le32 fsb off_s_anchor_quality).

Lemma clock_to_real_affine a mono : s_anchor_real a <> 0 ->
  beamfs_clock_to_real a mono = u64 (s_anchor_real a + (mono - s_anchor_mono a)).
Proof.
  intros H. unfold beamfs_clock_to_real. replace (s_anchor_real a =? 0) with false by lia. unfold u64.
  destruct (_ <=? _); [by rewrite Zplus_mod_idemp_r|]. rewrite Zminus_mod_idemp_r. f_equal. lia.
Qed.

(** ** The anchor in the superblock *)

(** The three fields of the anchor. *)
Definition put_anchor (fsb : list Z) (a : anchor) : list Z :=
  put_le32 (put_le64 (put_le64 fsb off_s_anchor_mono (s_anchor_mono a)) off_s_anchor_real (s_anchor_real a))
    off_s_anchor_quality (s_anchor_quality a).

Lemma put_anchor_good fsb a : sb_good fsb -> sb_good (put_anchor fsb a).
Proof.
  intros (Z & B & M & V). unfold put_anchor, put_le64, put_le32.
  assert (L : forall n x, zlen (le_bytes n x) = Z.of_nat n) by apply zlen_le_bytes.
  change off_s_anchor_mono with 2745. change off_s_anchor_real with 2753. change off_s_anchor_quality with 2761.
  assert (K : forall f off n x, zlen f = 4096 -> 64 <= off -> off + Z.of_nat n <= 4096 ->
    zlen (splice f off (le_bytes n x)) = 4096 /\ forall o k, 0 <= o -> 0 <= k -> o + k <= 64 -> slice (splice f off (le_bytes n x)) o k = slice f o k).
  { intros f off n x Zf H1 H2. split; [rewrite zlen_splice; rewrite ?L; lia|]. intros o k H3 H4 H5. apply slice_splice_ne; rewrite ?L; lia. }
  set (f1 := splice fsb _ _). destruct (K fsb 2745 8%nat (s_anchor_mono a) Z ltac:(lia) ltac:(lia)) as [Z1 K1]. fold f1 in Z1, K1.
  set (f2 := splice f1 _ _). destruct (K f1 2753 8%nat (s_anchor_real a) Z1 ltac:(lia) ltac:(lia)) as [Z2 K2]. fold f2 in Z2, K2.
  set (f3 := splice f2 _ _). destruct (K f2 2761 4%nat (s_anchor_quality a) Z2 ltac:(lia) ltac:(lia)) as [Z3 K3]. fold f3 in Z3, K3.
  assert (E : forall o, 0 <= o -> o + 4 <= 64 -> get_le32 f3 o = get_le32 fsb o) by (intros o H1 H2; unfold get_le32; by rewrite K3, K2, K1 by lia).
  split_and!; [done| |rewrite E by (vm_compute; congruence); exact M|rewrite E by (vm_compute; congruence); exact V].
  unfold f3, f2, f1. auto 8 using bytes_splice, bytes_le_bytes.
Qed.

Definition anchor_ok (a : anchor) : Prop :=
  0 <= s_anchor_mono a < 2 ^ 64 /\ 0 <= s_anchor_real a < 2 ^ 64 /\ 0 <= s_anchor_quality a <= 3.

Lemma sb_anchor_covered f g : same_covered f g -> sb_anchor f = sb_anchor g.
Proof.
  intros [_ E]. assert (S : forall o n, 68 <= o -> 0 <= n -> o + n <= 2769 -> slice f o n = slice g o n).
  { intros o n H1 H2 H3. replace o with (68 + (o - 68)) by lia. rewrite <- !(slice_slice _ 68 2701) by lia. by rewrite E. }
  unfold sb_anchor, get_le64, get_le32. by rewrite !S by (vm_compute; congruence).
Qed.

Lemma sb_anchor_put fsb a : zlen fsb = 4096 -> anchor_ok a -> sb_anchor (put_anchor fsb a) = a.
Proof.
  intros Z0 (H1 & H2 & H3). unfold sb_anchor, put_anchor, put_le64, put_le32, get_le64, get_le32.
  assert (L8 : forall x, zlen (le_bytes 8 x) = 8) by (intros; apply zlen_le_bytes). assert (L4 : forall x, zlen (le_bytes 4 x) = 4) by (intros; apply zlen_le_bytes).
  change off_s_anchor_mono with 2745. change off_s_anchor_real with 2753. change off_s_anchor_quality with 2761.
  assert (Zs : forall (f : list Z) off src, zlen f = 4096 -> 0 <= off -> off + zlen src <= 4096 -> zlen (splice f off src) = 4096) by (intros; rewrite zlen_splice; lia).
  set (m := le_bytes 8 _). set (r := le_bytes 8 _). set (q := le_bytes 4 _).
  assert (Zm : zlen m = 8) by apply L8. assert (Zr : zlen r = 8) by apply L8. assert (Zq : zlen q = 4) by apply L4.
  assert (Z1 : zlen (splice fsb 2745 m) = 4096) by (apply Zs; lia). assert (Z2 : zlen (splice (splice fsb 2745 m) 2753 r) = 4096) by (apply Zs; lia).
  rewrite !(slice_splice_ne (splice (splice fsb 2745 m) 2753 r)) by lia. rewrite (slice_splice_ne (splice fsb 2745 m)) by lia.
  rewrite !slice_splice_len by lia. unfold m, r, q. rewrite !le_val_le_bytes by lia. rewrite !Z.mod_small by lia. by destruct a.
Qed.

Lemma clock_quality_range source seconds : 0 <= source -> 0 <= beamfs_clock_quality source seconds <= 3.
Proof.
  intros H. unfold beamfs_clock_quality, BEAMFS_CLOCK_HARDWARE, BEAMFS_CLOCK_UNKNOWN.
  destruct (Z.ltb_spec 3 source); destruct (_ && _); lia.
Qed.

(** ** Theorems *)

(** C35: anchoring the clocks leaves a superblock the next mount accepts as it
    is and that carries the anchor, and with it every monotonic stamp
    converts to the wall time as far from the anchor as the stamp is, before
    or after it: intervals between events survive the conversion.  A wall
    clock before September 2001 is never declared better than unknown. *)
Theorem clock_anchor_dates `{RL : !RsLib} `{RS : !RsLibSpec} `{CL : !CrcLib} t cpu source seconds mono real (sp : super) kv km :
  ctrl_here t cpu = true -> sb_good (s_beamfs_sb sp) -> s_failed sp = false ->
  b_uptodate (s_sbh sp) = true -> s_sb_rs_staging sp = true ->
  0 <= source < 2 ^ 32 -> 0 <= mono < 2 ^ 64 -> 0 < real < 2 ^ 64 ->
  let '(a, sp') := beamfs_clock_anchor t cpu source seconds mono real sp in
  let disk := b_data (s_sbh sp') in
  fill_super_read t cpu kv km disk = inr (disk, []) /\ sb_anchor disk = a /\
  (seconds < 1000000000 -> s_anchor_quality a = BEAMFS_CLOCK_UNKNOWN) /\
  forall stamp, 0 <= real + (stamp - mono) < 2 ^ 64 -> beamfs_clock_to_real (sb_anchor disk) stamp = real + (stamp - mono).
Proof.
  intros Hc G F U S Hs Hm Hr. unfold beamfs_clock_anchor. set (a := Anchor mono real _).
  assert (A : anchor_ok a) by (split; [exact Hm|]; split; [cbn [a s_anchor_real]; lia|apply clock_quality_range; lia]).
  set (fsb := put_anchor (s_beamfs_sb sp) a).
  change (put_le32 _ off_s_anchor_quality _) with fsb. pose proof (put_anchor_good _ a G) as G'. fold fsb in G'.
  destruct (dirty_super_read t cpu (set_sb sp fsb) kv km Hc G' F U S) as (R & C & _).
  pose proof (sb_anchor_covered _ _ C) as E. cbn [s_beamfs_sb set_sb] in E. unfold fsb in E at 2.
  rewrite sb_anchor_put in E; [|apply G|done]. split_and!; [exact R|exact E| |].
  - intros Hsec. cbn [a s_anchor_quality]. unfold beamfs_clock_quality. replace (seconds <? 1000000000) with true by lia.
    rewrite andb_true_r. unfold BEAMFS_CLOCK_UNKNOWN, BEAMFS_CLOCK_HARDWARE.
    destruct (Z.ltb_spec 3 source); [done|]. destruct (Z.ltb_spec 0 source); lia.
  - intros stamp Hst. rewrite E, clock_to_real_affine by (cbn; lia). apply Z.mod_small. exact Hst.
Qed.

Lemma clock_anchor_dates_witness :
  let '(a, sp') := beamfs_clock_anchor ex_tables 0 2 1700000000 5000000000 1700000000000000000 ex_super in
  fill_super_read ex_tables 0 true true (b_data (s_sbh sp')) = inr (b_data (s_sbh sp'), []).
Proof.
  refine (proj1 (clock_anchor_dates ex_tables 0 2 1700000000 5000000000 1700000000000000000 ex_super true true _ _ _ _ _ _ _ _));
    try reflexivity; try lia. exact ex_sb_good.
Defined.
