(* ===== verification/ReaddirTheorems.v ===== *)
(** * Every entry is listed once

    Successive calls of [beamfs_readdir], each into a buffer of any size,
    list "." and ".." and then every entry of the directory, once and in
    order, whatever positions the buffers ran out at. *)

From S2P Require Import Prelude Format RsInit RsLib Edac EdacTheorems Dirent DirentTheorems DirRecords DirOps Dir DirTree DirUpdate.

(** ** Listing a directory (dir.c)

    [beamfs_readdir] fills the caller's buffer from the position the last
    call left off at. *)

(** What the caller receives: a name with its inode number and type. *)
Inductive listed := Dot | DotDot | Listed (name : list Z) (ino dt : Z).

(** struct dir_context: the position, what the buffer still holds room for,
    and what it was given. *)
Record dctx := DCtx { c_pos : Z; c_room : nat; c_out : list listed }.

Definition set_pos (c : dctx) (pos : Z) : dctx := DCtx pos (c_room c) (c_out c).

(** dir_emit: false when the buffer is full. *)
Definition dir_emit (c : dctx) (e : listed) : bool * dctx :=
  match c_room c with
  | O => (false, c)
  | S n => (true, DCtx (c_pos c) n (c_out c ++ [e]))
  end.

Definition dir_emit_dots (c : dctx) : bool * dctx :=
  let '(ok, c) := if c_pos c =? 0 then let '(ok, c) := dir_emit c Dot in (ok, if ok then set_pos c 1 else c) else (true, c) in
  if negb ok then (false, c)
  else if c_pos c =? 1 then let '(ok, c) := dir_emit c DotDot in (ok, if ok then set_pos c 2 else c)
  else (true, c).

Definition INT_MAX : Z := 2147483647.
Definition DT_REG : Z := 8.
Definition DT_DIR : Z := 4.

(** (int)x of an unsigned 64-bit value. *)
Definition int_of (x : Z) : Z := let y := x mod 2 ^ 32 in if y <? 2 ^ 31 then y else y - 2 ^ 32.

(** [de->d_ino && !dot && !dotdot] *)
Definition is_shown (p : list Z) (off : Z) : bool := negb (d_ino p off =? 0) && negb (is_dots p off).

Definition shown (p : list Z) (off : Z) : listed :=
  let ft := d_file_type p off in
  Listed (slice p (off + BEAMFS_DIRENT_HDR_LEN) (d_name_len p off)) (d_ino p off)
    (if ft =? 1 then DT_REG else if ft =? 2 then DT_DIR else ft).

(** One record: [inr] leaves the function. *)
Definition readdir_record (p : list Z) (block_idx : Z) (c : dctx) (off : Z) : dctx + dctx :=
  let '(ok, c) := if is_shown p off then dir_emit c (shown p off) else (true, c) in
  if negb ok then inr c
  else
    let next := beamfs_dirent_next p off in
    inl (if next =? BEAMFS_DIRENT_NOSPACE then c else set_pos c (2 + block_idx * BEAMFS_DATA_INLINE_BYTES + next)).

(** The record boundary at or after [offset]. *)
Fixpoint slide (fuel : nat) (p : list Z) (offset scan : Z) : Z :=
  match fuel with
  | O => scan
  | S fuel =>
    if negb (scan <? offset) then scan
    else if negb (beamfs_dirent_valid p scan) then scan
    else
      let nxt := beamfs_dirent_next p scan in
      if (nxt =? BEAMFS_DIRENT_NOSPACE) || (nxt <=? scan) then scan else slide fuel p offset nxt
  end.

Section readdir.
Context {S : Type} `{RL : !RsLib} `{DE : !DirEnv S} (t : rs_tables) (cpu : nat).

(** One block: [inl] goes on, [inr] leaves the loop, with the code when it
    leaves the function. *)
Definition readdir_block (dir : dinode) (start_block start_off : Z) (st : S * dctx) (block_idx : Z)
    : (S * dctx) + (S * dctx * option Z) :=
  let '(s, c) := st in
  let '(rc, block_no, _, s) := beamfs_dir_get_block t cpu s dir (u32 block_idx) false in
  if negb (rc =? 0) then inr (s, c, Some rc)
  else if block_no =? 0 then inr (s, c, None)
  else
    match read_payload t cpu s block_no with
    | None => inl (s, c)
    | Some (rc, p, s) =>
      if rc <? 0 then inr (s, c, Some rc)
      else
        let offset := if block_idx =? start_block then start_off else 0 in
        let offset := if negb (offset =? 0) && (offset <? BEAMFS_DATA_INLINE_BYTES) then slide walk_fuel p offset 0 else offset in
        match dir_walk walk_fuel p (readdir_record p block_idx) c offset with
        | inl c => inl (s, c)
        | inr c => inr (s, c, Some 0)
        end
    end.

Definition beamfs_readdir (s : S) (dir : dinode) (c : dctx) : Z * S * dctx :=
  if c_pos c =? INT_MAX then (0, s, c)
  else
    let '(ok, c) := if c_pos c <? 2 then dir_emit_dots c else (true, c) in
    if negb ok then (0, s, c)
    else
      let '(start_block, start_off) :=
        if c_pos c <=? 2 then (0, 0)
        else let p := u64 (c_pos c - 2) in (int_of (p / BEAMFS_DATA_INLINE_BYTES), p mod BEAMFS_DATA_INLINE_BYTES) in
      if negb (scratch_get s) then (- ENOMEM, s, c)
      else
        match fold_until (readdir_block dir start_block start_off) (s, c) (seqZ start_block (DIR_BLOCKS - start_block)) with
        | inl (s, c) | inr (s, c, None) => (0, s, set_pos c INT_MAX)
        | inr (s, c, Some rc) => (rc, s, c)
        end.
End readdir.

(** ** Every entry is listed once

    Successive calls of [beamfs_readdir], each into a buffer of any size,
    list "." and ".." and then every entry of the directory, once and in
    order, whatever positions the buffers ran out at. *)

(** ** Positions *)

(** The position of the record at [o] of block [i]. *)
Definition cookie (i o : Z) : Z := 2 + i * 3824 + o.

(** The records of a chain with their positions, and what each shows. *)
Definition items (i : Z) (p : list Z) (l : list Z) : list (Z * option listed) :=
  map (fun o => (cookie i o, if is_shown p o then Some (shown p o) else None)) l.

Fixpoint flat (i : Z) (bs : list dblock) : list (Z * option listed) :=
  match bs with
  | [] => []
  | b :: bs => items i (b_payload b) (b_chain b) ++ flat (i + 1) bs
  end.

Definition outputs (xs : list (Z * option listed)) : list listed := omap snd xs.

(** What a reader at position [pos] has still to be given. *)
Definition pending (bs : list dblock) (pos : Z) : list listed :=
  if pos =? INT_MAX then []
  else (if pos =? 0 then [Dot; DotDot] else if pos =? 1 then [DotDot] else []) ++
       outputs (filter (fun x => pos <= fst x) (flat 0 bs)).

Lemma outputs_app xs ys : outputs (xs ++ ys) = outputs xs ++ outputs ys.
Proof. apply omap_app. Qed.

Lemma filter_whole {A} (P : A -> Prop) `{D : !forall x, Decision (P x)} l : Forall P l -> filter P l = l.
Proof. intros H. by apply filter_all, list.Forall_forall. Qed.

Lemma filter_nothing {A} (P : A -> Prop) `{D : !forall x, Decision (P x)} l : Forall (fun x => ~ P x) l -> filter P l = [].
Proof. induction 1 as [|x l H _ IH]; [done|]. rewrite filter_cons, decide_False by done. by rewrite IH. Qed.

(** Blocks of a directory. *)
Definition chains_ok (bs : list dblock) : Prop := Forall (fun b => wf_payload (b_payload b) (b_chain b)) bs.

Lemma items_bounds i p l : Forall (fun o => 0 <= o < 3824) l -> Forall (fun x => cookie i 0 <= fst x < cookie (i + 1) 0) (items i p l).
Proof. induction 1 as [|o l H _ IH]; [constructor|]. constructor; [|done]. unfold cookie in *. cbn [fst]. lia. Qed.

Lemma chain_offsets p l : wf_payload p l -> Forall (fun o => 0 <= o < 3824) l.
Proof. intros W. apply list.Forall_forall. intros o Ho. pose proof (wf_in p l o W Ho). lia. Qed.

Lemma flat_bounds bs : forall i, chains_ok bs -> Forall (fun x => cookie i 0 <= fst x < cookie (i + zlen bs) 0) (flat i bs).
Proof.
  induction bs as [|b bs IH]; intros i H; cbn [flat]; [constructor|]. apply list.Forall_cons in H as [Hb H].
  rewrite zlen_cons. apply list.Forall_app. split.
  - eapply list.Forall_impl; [apply items_bounds; exact (chain_offsets _ _ Hb)|]. intros x Hx. unfold cookie in *. pose proof (zlen_nonneg bs). lia.
  - eapply list.Forall_impl; [apply IH, H|]. intros x Hx. unfold cookie in *. lia.
Qed.

Lemma flat_app bs1 bs2 i : flat i (bs1 ++ bs2) = flat i bs1 ++ flat (i + zlen bs1) bs2.
Proof.
  revert i. induction bs1 as [|b bs1 IH]; intros i; cbn [flat app]; [f_equal; rewrite Z.add_0_r; done|].
  rewrite IH, <- app_assoc, zlen_cons. do 3 f_equal. lia.
Qed.

(** The records from a position inside block [i] on. *)
Lemma flat_from bs1 b bs2 l1 l2 pos : let i := zlen bs1 in
  chains_ok (bs1 ++ b :: bs2) -> b_chain b = l1 ++ l2 -> cookie i 0 <= pos <= cookie (i + 1) 0 ->
  Forall (fun o => cookie i o < pos) l1 -> Forall (fun o => pos <= cookie i o) l2 ->
  filter (fun x => pos <= fst x) (flat 0 (bs1 ++ b :: bs2)) = items i (b_payload b) l2 ++ flat (i + 1) bs2.
Proof.
  intros i W El Hp H1 H2. unfold chains_ok in W. rewrite list.Forall_app, list.Forall_cons in W. destruct W as (W1 & Wb & W2).
  rewrite flat_app. cbn [flat]. rewrite !list.filter_app, Z.add_0_l. fold i.
  rewrite (filter_nothing _ (flat 0 bs1)).
  2:{ eapply list.Forall_impl; [apply flat_bounds, W1|]. intros x Hx. fold i in Hx. unfold cookie in *. lia. }
  rewrite (filter_whole _ (flat (i + 1) bs2)).
  2:{ eapply list.Forall_impl; [apply flat_bounds, W2|]. intros x Hx. unfold cookie in *. lia. }
  rewrite El. unfold items. rewrite map_app, list.filter_app. rewrite (filter_nothing _ (map _ l1)), (filter_whole _ (map _ l2)); [done| |].
  - apply list.Forall_fmap. eapply list.Forall_impl; [exact H2|]. intros o Ho. exact Ho.
  - apply list.Forall_fmap. eapply list.Forall_impl; [exact H1|]. intros o Ho. unfold compose. cbn [fst]. cbv beta in Ho. lia.
Qed.

(** Past the last block there is nothing. *)
Lemma flat_past bs pos : chains_ok bs -> cookie (zlen bs) 0 <= pos -> filter (fun x => pos <= fst x) (flat 0 bs) = [].
Proof.
  intros W Hp. apply filter_nothing. eapply list.Forall_impl; [apply flat_bounds, W|]. intros x Hx. unfold cookie in *. lia.
Qed.

(** ** One call *)

Section call.
Context (bs : list dblock) (Wbs : chains_ok bs) (Hbs : zlen bs <= 524).

(** The reader was given what was due before [rest], and stands there. *)
Record progress (c0 : dctx) (all : list listed) (c : dctx) (rest : list (Z * option listed)) : Prop := {
  pr_out : c_out c ++ outputs rest = c_out c0 ++ all;
  pr_pos : pending bs (c_pos c) = outputs rest;
  pr_room : (c_room c + length (c_out c) = c_room c0 + length (c_out c0))%nat;
  pr_range : 0 <= c_pos c <= INT_MAX }.

(** Where a call ends. *)
Definition call_done (c0 : dctx) (all : list listed) (c : dctx) : Prop :=
  c_out c = c_out c0 ++ take (c_room c0) all /\ pending bs (c_pos c) = drop (c_room c0) all /\
  0 <= c_pos c <= INT_MAX.

(** The buffer is full. *)
Lemma progress_full c0 all c rest : progress c0 all c rest -> c_room c = 0%nat -> call_done c0 all c.
Proof.
  intros [O P R Rg] H0. rewrite H0 in R. cbn [Nat.add] in R.
  assert (E : c_out c = c_out c0 ++ take (c_room c0) all).
  { apply (f_equal (take (length (c_out c)))) in O. rewrite take_app_length in O. rewrite O, R, Nat.add_comm, take_app_add. done. }
  split_and!; [done| |apply Rg|apply Rg]. rewrite P. rewrite E, <- app_assoc in O. apply app_inv_head in O.
  apply (app_inv_head (take (c_room c0) all)). rewrite take_drop. done.
Qed.

(** Everything was given. *)
Lemma progress_end c0 all c : progress c0 all c [] -> call_done c0 all (set_pos c INT_MAX).
Proof.
  intros [O P R Rg]. change (outputs []) with (@nil listed) in O. rewrite app_nil_r in O. cbn [set_pos c_out c_pos]. unfold call_done. cbn [set_pos c_out c_pos].
  apply (f_equal length) in O as L. rewrite length_app in L.
  rewrite take_ge, drop_ge by lia. split_and!; [done| |done|done]. unfold pending. by rewrite Z.eqb_refl.
Qed.

(** A position inside block [i]. *)
Lemma pending_at bs1 b bs2 l1 l2 pos : bs = bs1 ++ b :: bs2 -> b_chain b = l1 ++ l2 -> cookie (zlen bs1) 0 <= pos <= cookie (zlen bs1 + 1) 0 ->
  Forall (fun o => cookie (zlen bs1) o < pos) l1 -> Forall (fun o => pos <= cookie (zlen bs1) o) l2 ->
  pending bs pos = outputs (items (zlen bs1) (b_payload b) l2 ++ flat (zlen bs1 + 1) bs2).
Proof.
  intros E El Hp H1 H2. pose proof (zlen_nonneg bs1). pose proof (zlen_nonneg bs2).
  assert (zlen bs1 < 524) by (rewrite E, zlen_app, zlen_cons in Hbs; lia). unfold cookie in Hp.
  unfold pending, INT_MAX. replace (pos =? 2147483647) with false by lia. replace (pos =? 0) with false by lia. replace (pos =? 1) with false by lia.
  cbn [app]. rewrite E in *. f_equal. apply (flat_from bs1 b bs2 l1 l2); [done|done|unfold cookie; lia|done|done].
Qed.

(** The records of a chain that ends at [a] lie before it, those of one that
    starts there do not. *)
Lemma recs_before p a l : bytes p -> recs p 0 a l -> a <= 3824 -> Forall (fun o => o < a) l.
Proof.
  intros B R Ha. apply list.Forall_forall. intros o Ho. destruct (recs_in p 0 a l o B ltac:(lia) R Ho) as (H1 & V & H2 & H3).
  apply valid_spec in V; [lia|done|]. pose proof (rec_len_range p o B). lia.
Qed.

Lemma recs_after p a l : bytes p -> 0 <= a <= 3824 -> recs p a 3824 l -> Forall (fun o => a <= o) l.
Proof. intros B Ha R. apply list.Forall_forall. intros o Ho. by apply (recs_in p a 3824 l o B Ha R Ho). Qed.

(** The loop over the records of a block, from a record boundary. *)
Lemma readdir_walk bs1 b bs2 c0 all : bs = bs1 ++ b :: bs2 -> forall l2 l1 a c,
  b_chain b = l1 ++ l2 -> recs (b_payload b) 0 a l1 -> recs (b_payload b) a 3824 l2 -> 0 <= a <= 3824 ->
  progress c0 all c (items (zlen bs1) (b_payload b) l2 ++ flat (zlen bs1 + 1) bs2) ->
  match fold_until (readdir_record (b_payload b) (zlen bs1)) c l2 with
  | inl c => progress c0 all c (flat (zlen bs1 + 1) bs2)
  | inr c => call_done c0 all c
  end.
Proof.
  intros E. assert (W : wf_payload (b_payload b) (b_chain b)).
  { unfold chains_ok in Wbs. rewrite E, list.Forall_app, list.Forall_cons in Wbs. apply Wbs. }
  assert (Hi : 0 <= zlen bs1 < 524).
  { pose proof (zlen_nonneg bs1). pose proof (zlen_nonneg bs2). rewrite E, zlen_app, zlen_cons in Hbs. lia. }
  pose proof (wf_bytes _ _ W) as B. set (p := b_payload b) in *. set (i := zlen bs1) in *.
  induction l2 as [|o l2 IH]; intros l1 a c El R1 R2 Ha Pr; [exact Pr|].
  apply recs_cons_inv in R2 as (-> & V & R2). pose proof V as V'. apply valid_spec in V'; [|done|done].
  cbn [fold_until]. unfold readdir_record at 1.
  assert (R1' : recs p 0 (o + d_rec_len p o) (l1 ++ [o])) by (eapply recs_app; [exact R1|]; constructor; [done|constructor]).
  assert (El' : b_chain b = (l1 ++ [o]) ++ l2) by (by rewrite <- app_assoc).
  assert (Next : forall c', c_out c' ++ outputs (items i p l2 ++ flat (i + 1) bs2) = c_out c0 ++ all ->
    (c_room c' + length (c_out c') = c_room c0 + length (c_out c0))%nat ->
    match fold_until (readdir_record p i) (set_pos c' (2 + i * BEAMFS_DATA_INLINE_BYTES + (o + d_rec_len p o))) l2 with
    | inl c => progress c0 all c (flat (i + 1) bs2) | inr c => call_done c0 all c end).
  { intros c' O' R'. apply (IH (l1 ++ [o]) (o + d_rec_len p o)); [done|done|done|lia|]. split; [done| |done|cbn [set_pos c_pos]; change BEAMFS_DATA_INLINE_BYTES with 3824; unfold INT_MAX; lia].
    cbn [set_pos c_pos]. apply (pending_at bs1 b bs2 (l1 ++ [o])); [done|done| | |].
    - fold i. unfold cookie. change BEAMFS_DATA_INLINE_BYTES with 3824. lia.
    - eapply list.Forall_impl; [apply (recs_before p _ _ B R1'); lia|]. intros x Hx. cbv beta in Hx |- *. fold i. unfold cookie. change BEAMFS_DATA_INLINE_BYTES with 3824. lia.
    - eapply list.Forall_impl; [apply (recs_after p (o + d_rec_len p o) l2 B); [lia|exact R2]|]. intros x Hx. cbv beta in Hx |- *. fold i. unfold cookie. change BEAMFS_DATA_INLINE_BYTES with 3824. lia. }
  destruct Pr as [O P R Rg]. cbn [items map app] in O, P. rewrite next_valid by done.
  replace (o + d_rec_len p o =? BEAMFS_DIRENT_NOSPACE) with false by (change BEAMFS_DIRENT_NOSPACE with 4294967295; lia).
  fold (items i p l2) in O, P.
  destruct (is_shown p o) eqn:Es.
  - unfold dir_emit. destruct (c_room c) as [|n] eqn:En; cbn [negb].
    + eapply (progress_full c0 all c ((cookie i o, Some (shown p o)) :: items i p l2 ++ flat (i + 1) bs2)); [|done].
      split; [exact O|exact P|by rewrite En|exact Rg].
    + apply (Next (DCtx (c_pos c) n (c_out c ++ [shown p o]))); cbn [c_out c_room].
      * rewrite <- app_assoc. exact O.
      * rewrite length_app. cbn [length]. lia.
  - cbn [negb]. apply Next; [exact O|exact R].
Qed.
End call.

(** The boundary a position inside a record resumes at. *)
Lemma slide_spec p off : bytes p -> off < 3824 -> forall l fuel a, 0 <= a <= 3824 -> recs p a 3824 l -> zlen l < Z.of_nat fuel ->
  exists l1 l2, l = l1 ++ l2 /\ recs p a (slide fuel p off a) l1 /\ recs p (slide fuel p off a) 3824 l2 /\
    Forall (fun o => o < off) l1 /\ Z.max a off <= slide fuel p off a <= 3824.
Proof.
  intros B Hoff. induction l as [|o l IH]; intros fuel a Ha R Hf; 
    (destruct fuel as [|fuel]; [match type of Hf with zlen ?L < _ => pose proof (zlen_nonneg L) end; lia|]); cbn [slide].
  - apply recs_nil_inv in R as ->. replace (3824 <? off) with false by lia. cbn [negb].
    exists [], []. split_and!; [done|constructor|constructor|constructor|lia|lia].
  - apply recs_cons_inv in R as (-> & V & R). destruct (Z.ltb_spec o off) as [L|L]; cbn [negb].
    2:{ exists [], (o :: l). split_and!; [done|constructor|by constructor|constructor|lia|lia]. }
    pose proof V as V'. apply valid_spec in V'; [|done|done]. rewrite V, next_valid by done. cbn [negb].
    replace (o + d_rec_len p o =? BEAMFS_DIRENT_NOSPACE) with false by (change BEAMFS_DIRENT_NOSPACE with 4294967295; lia).
    replace (o + d_rec_len p o <=? o) with false by lia. cbn [orb].
    destruct (IH fuel (o + d_rec_len p o)) as (l1 & l2 & E & R1 & R2 & F & Hb); [lia|done|rewrite zlen_cons in Hf; lia|].
    exists (o :: l1), l2. split_and!; [by rewrite E|by constructor|done|by constructor|lia|lia].
Qed.

Section blocks.
Context {S : Type} `{RL : !RsLib} `{RS : !RsLibSpec} `{DO : DirEnvOk S} (t : rs_tables) (cpu : nat).
Context (d : dinode) (bs : list dblock).

Lemma wf_dir_chains s : wf_dir t cpu s d bs -> chains_ok bs.
Proof.
  intros W. apply list.Forall_forall. intros b Hb. apply list_elem_of_lookup in Hb as (i & Hb).
  apply (wd_block _ _ _ _ _ W i b Hb).
Qed.

(** The result of the loop over blocks. *)
Definition loop_result (r : (S * dctx) + (S * dctx * option Z)) : Z * S * dctx :=
  match r with
  | inl (s, c) | inr (s, c, None) => (0, s, set_pos c INT_MAX)
  | inr (s, c, Some rc) => (rc, s, c)
  end.

(** One block, entered at the offset of the first block or at its start. *)
Lemma readdir_block_step s bs1 b bs2 start off c0 all c : wf_dir t cpu s d bs -> bs = bs1 ++ b :: bs2 ->
  let i := zlen bs1 in let offset := if i =? start then off else 0 in
  0 <= off < 3824 -> (forall l1 l2, b_chain b = l1 ++ l2 -> Forall (fun o => o < offset) l1 -> Forall (fun o => offset <= o) l2 ->
    progress bs c0 all c (items i (b_payload b) l2 ++ flat (i + 1) bs2)) ->
  exists s', same_on s s' /\
    match readdir_block t cpu d start off (s, c) i with
    | inl (s1, c') => s1 = s' /\ progress bs c0 all c' (flat (i + 1) bs2)
    | inr (s1, c', Some rc) => s1 = s' /\ rc = 0 /\ call_done bs c0 all c'
    | inr (s1, c', None) => False
    end.
Proof.
  intros W E i offset Hoff Pr. pose proof (wd_len _ _ _ _ _ W) as Hl. pose proof (wf_dir_chains s W) as Wc.
  assert (Hi : 0 <= i < zlen bs).
  { unfold i. rewrite E, zlen_app, zlen_cons. pose proof (zlen_nonneg bs1). pose proof (zlen_nonneg bs2). lia. }
  destruct (block_at t cpu s d bs i W Hi) as (b' & Hb & K & G & NZ).
  assert (b' = b) as ->.
  { unfold i, zlen in Hb. rewrite Nat2Z.id, E in Hb. rewrite list_lookup_middle in Hb by done. congruence. }
  unfold readdir_block. replace (u32 i) with i by (symmetry; apply Z.mod_small; lia). rewrite G, NZ. cbn [Z.eqb negb].
  destruct (read_block t cpu s b K) as (rc & s' & Er & Hrc & Hs). rewrite Er. replace (rc <? 0) with false by lia.
  exists s'. split; [done|]. fold offset. pose proof (bk_wf _ _ _ _ K) as Wp. pose proof (wf_bytes _ _ Wp) as Bp.
  pose proof (wf_recs _ _ Wp) as Rp. pose proof (recs_bound (b_payload b) 0 3824 (b_chain b) Bp ltac:(lia) Rp) as [Hlen _].
  assert (Ho : 0 <= offset < 3824) by (unfold offset; destruct (_ =? _); lia).
  destruct (slide_spec (b_payload b) offset Bp ltac:(lia) (b_chain b) walk_fuel 0 ltac:(lia) Rp ltac:(unfold walk_fuel; lia))
    as (l1 & l2 & El & R1 & R2 & F1 & Ha). set (a := slide walk_fuel (b_payload b) offset 0) in *.
  assert (Ea : (if negb (offset =? 0) && (offset <? BEAMFS_DATA_INLINE_BYTES) then a else offset) = a).
  { destruct (Z.eqb_spec offset 0) as [E0|E0]; cbn [negb andb]; [unfold a; rewrite E0; done|].
    by replace (offset <? BEAMFS_DATA_INLINE_BYTES) with true by (change BEAMFS_DATA_INLINE_BYTES with 3824; lia). }
  rewrite Ea. pose proof (recs_bound (b_payload b) a 3824 l2 Bp ltac:(lia) R2) as [Hlen2 _].
  rewrite (walk_recs _ _ _ _ a l2) by (done || lia || (unfold walk_fuel; lia)).
  assert (F2 : Forall (fun o => offset <= o) l2).
  { eapply list.Forall_impl; [apply (recs_after (b_payload b) a l2 Bp ltac:(lia) R2)|]. intros x Hx. cbv beta in Hx |- *. lia. }
  pose proof (readdir_walk bs Wc Hl bs1 b bs2 c0 all E l2 l1 a c El R1 R2 ltac:(lia) (Pr l1 l2 El F1 F2)) as Wk. fold i in Wk.
  destruct (fold_until (readdir_record (b_payload b) i) c l2) as [c'|c']; [by split|by split_and!].
Qed.

(** The blocks after the first. *)
Lemma readdir_loop start off c0 all : 0 <= off < 3824 -> forall bs2 bs1 s c, wf_dir t cpu s d bs -> bs = bs1 ++ bs2 -> start < zlen bs1 ->
  progress bs c0 all c (flat (zlen bs1) bs2) ->
  exists s' c', loop_result (fold_until (readdir_block t cpu d start off) (s, c) (seqZ (zlen bs1) (524 - zlen bs1))) = (0, s', c') /\
    same_on s s' /\ call_done bs c0 all c'.
Proof.
  intros Hoff. induction bs2 as [|b bs2 IH]; intros bs1 s c W E Hs Pr; pose proof (wd_len _ _ _ _ _ W) as Hl; pose proof (zlen_nonneg bs1).
  - rewrite app_nil_r in E. cbn [flat] in Pr. pose proof (progress_end bs c0 all c Pr) as D. destruct (decide (zlen bs1 = 524)) as [E5|E5].
    + rewrite E5. exists s, (set_pos c INT_MAX). split_and!; [done|apply same_on_refl|exact D].
    + rewrite E in Hl. rewrite upto_cons_from by lia. cbn [fold_until]. unfold readdir_block at 1.
      replace (u32 (zlen bs1)) with (zlen bs1) by (symmetry; apply Z.mod_small; lia).
      rewrite (no_block_at t cpu s d bs) by (done || rewrite E; lia). cbn [Z.eqb negb loop_result].
      exists s, (set_pos c INT_MAX). split_and!; [done|apply same_on_refl|exact D].
  - assert (Hlt : zlen bs1 < 524) by (rewrite E, zlen_app, zlen_cons in Hl; pose proof (zlen_nonneg bs2); lia).
    rewrite upto_cons_from by lia. cbn [fold_until].
    destruct (readdir_block_step s bs1 b bs2 start off c0 all c W E Hoff) as (s1 & Hs1 & St).
    { replace (zlen bs1 =? start) with false by lia. intros l1 l2 El F1 F2. cbn [flat] in Pr.
      assert (l1 = []) as ->.
      { destruct l1 as [|x l1]; [done|]. apply list.Forall_cons in F1 as [F1 _].
        pose proof (wf_dir_chains s W) as Wc. unfold chains_ok in Wc. rewrite E, list.Forall_app, list.Forall_cons in Wc. destruct Wc as (_ & Wb & _).
        pose proof (chain_offsets _ _ Wb) as F. rewrite El in F. apply list.Forall_cons in F as [F _]. lia. }
      cbn [app] in El. rewrite <- El. exact Pr. }
    destruct (readdir_block t cpu d start off (s, c) (zlen bs1)) as [[s2 c2]|[[s2 c2] [rc|]]]; [|destruct St as (-> & -> & D)|done].
    + destruct St as [-> Pr2]. destruct (IH (bs1 ++ [b]) s1 c2) as (s3 & c3 & E3 & Hs3 & D3).
      * by apply (wf_dir_same t cpu s).
      * by rewrite <- app_assoc.
      * rewrite zlen_app. change (zlen [b]) with 1. lia.
      * rewrite zlen_app. exact Pr2.
      * rewrite zlen_app in E3. change (zlen [b]) with 1 in E3. exists s3, c3. split_and!; [exact E3|by apply (same_on_trans s s1)|exact D3].
    + exists s1, c2. split_and!; [done|done|exact D].
Qed.

(** From a position past the dots. *)
Lemma readdir_main s c : wf_dir t cpu s d bs -> 2 <= c_pos c < INT_MAX ->
  let q := c_pos c - 2 in let start := q / 3824 in let off := q mod 3824 in
  exists s' c', loop_result (fold_until (readdir_block t cpu d start off) (s, c) (seqZ start (524 - start))) = (0, s', c') /\
    same_on s s' /\ call_done bs c (pending bs (c_pos c)) c'.
Proof.
  intros W Hp q start off. pose proof (wd_len _ _ _ _ _ W) as Hl. pose proof (wf_dir_chains s W) as Wc.
  assert (Hoff : 0 <= off < 3824) by (apply Z.mod_pos_bound; lia). assert (Hq : q = 3824 * start + off) by (apply Z.div_mod; lia).
  assert (Hs : 0 <= start) by (apply Z.div_pos; unfold q; lia).
  assert (Pos : c_pos c = cookie start off) by (unfold cookie, q in *; lia).
  assert (Pr : forall rest, pending bs (c_pos c) = outputs rest -> progress bs c (pending bs (c_pos c)) c rest).
  { intros rest E. split; [by rewrite E|done|done|lia]. }
  destruct (decide (start < zlen bs)) as [L|L].
  - destruct (block_at t cpu s d bs start W ltac:(lia)) as (b & Hb & _). pose proof (take_drop_middle bs _ b Hb) as E. symmetry in E.
    set (bs1 := take (Z.to_nat start) bs) in *. set (bs2 := drop (Datatypes.S (Z.to_nat start)) bs) in *.
    assert (Z1 : zlen bs1 = start) by (unfold zlen, bs1 in *; rewrite length_take; lia).
    rewrite upto_cons_from by lia. cbn [fold_until].
    destruct (readdir_block_step s bs1 b bs2 start off c (pending bs (c_pos c)) c W E Hoff) as (s1 & Hs1 & St).
    { rewrite Z1, Z.eqb_refl. intros l1 l2 El F1 F2. apply Pr.
      pose proof (pending_at bs Wc Hl bs1 b bs2 l1 l2 (c_pos c) E El) as Q. rewrite Z1 in Q. apply Q; [rewrite Pos; unfold cookie; lia| |].
      - eapply list.Forall_impl; [exact F1|]. intros x Hx. cbv beta in Hx |- *. rewrite Pos. unfold cookie. lia.
      - eapply list.Forall_impl; [exact F2|]. intros x Hx. cbv beta in Hx |- *. rewrite Pos. unfold cookie. lia. }
    rewrite Z1 in St. destruct (readdir_block t cpu d start off (s, c) start) as [[s2 c2]|[[s2 c2] [rc|]]]; [|destruct St as (-> & -> & D)|done].
    + destruct St as [-> Pr2]. destruct (readdir_loop start off c (pending bs (c_pos c)) Hoff bs2 (bs1 ++ [b]) s1 c2) as (s3 & c3 & E3 & Hs3 & D3).
      * by apply (wf_dir_same t cpu s).
      * by rewrite <- app_assoc.
      * rewrite zlen_app, Z1. change (zlen [b]) with 1. lia.
      * rewrite zlen_app, Z1. exact Pr2.
      * rewrite zlen_app, Z1 in E3. change (zlen [b]) with 1 in E3. exists s3, c3. split_and!; [exact E3|by apply (same_on_trans s s1)|exact D3].
    + exists s1, c2. split_and!; [done|done|exact D].
  - assert (E0 : pending bs (c_pos c) = outputs []).
    { unfold pending, INT_MAX in *. replace (c_pos c =? 2147483647) with false by lia. replace (c_pos c =? 0) with false by lia.
      replace (c_pos c =? 1) with false by lia. cbn [app]. f_equal. apply flat_past; [done|]. rewrite Pos. unfold cookie. lia. }
    pose proof (progress_end bs c _ c (Pr [] E0)) as D. exists s, (set_pos c INT_MAX). split_and!; [|apply same_on_refl|exact D].
    destruct (decide (start < 524)) as [L5|L5].
    + rewrite upto_cons_from by lia. cbn [fold_until]. unfold readdir_block at 1. replace (u32 start) with start by (symmetry; apply Z.mod_small; lia).
      rewrite (no_block_at t cpu s d bs) by (done || lia). done.
    + rewrite seqZ_nil by lia. done.
Qed.

Lemma pending_dots : chains_ok bs -> pending bs 0 = Dot :: DotDot :: pending bs 2 /\ pending bs 1 = DotDot :: pending bs 2.
Proof.
  intros Wc. assert (F : forall k, k <= 2 -> filter (fun x => k <= fst x) (flat 0 bs) = flat 0 bs).
  { intros k Hk. apply filter_whole. eapply list.Forall_impl; [apply flat_bounds, Wc|]. intros x Hx. cbv beta in Hx |- *. unfold cookie in Hx. lia. }
  unfold pending. cbn [Z.eqb Pos.eqb INT_MAX app]. rewrite !F by lia. done.
Qed.

(** A call gives what fits of what is pending, and leaves the rest pending. *)
Lemma readdir_call s c : wf_dir t cpu s d bs -> scratch_get s = true -> 0 <= c_pos c <= INT_MAX ->
  exists s' c', beamfs_readdir t cpu s d c = (0, s', c') /\ same_on s s' /\ call_done bs c (pending bs (c_pos c)) c'.
Proof.
  intros W Hsc Hp. unfold beamfs_readdir. destruct (Z.eqb_spec (c_pos c) INT_MAX) as [E|N].
  { exists s, c. split_and!; [done|apply same_on_refl|]. unfold call_done, pending. rewrite E, Z.eqb_refl, take_nil, drop_nil, app_nil_r. by split_and!. }
  assert (Main : forall c1, 2 <= c_pos c1 < INT_MAX -> exists s' c',
    (let '(start_block, start_off) := if c_pos c1 <=? 2 then (0, 0)
        else let p := u64 (c_pos c1 - 2) in (int_of (p / BEAMFS_DATA_INLINE_BYTES), p mod BEAMFS_DATA_INLINE_BYTES) in
     if negb (scratch_get s) then (- ENOMEM, s, c1) else
     loop_result (fold_until (readdir_block t cpu d start_block start_off) (s, c1) (seqZ start_block (DIR_BLOCKS - start_block)))) = (0, s', c') /\
    same_on s s' /\ call_done bs c1 (pending bs (c_pos c1)) c').
  { intros c1 H1. destruct (readdir_main s c1 W H1) as (s' & c' & E' & Hs' & D). exists s', c'. split_and!; [|done|exact D].
    change BEAMFS_DATA_INLINE_BYTES with 3824. change DIR_BLOCKS with 524. rewrite Hsc. cbn [negb]. rewrite <- E'.
    destruct (Z.leb_spec (c_pos c1) 2) as [L|L]; [by replace (c_pos c1 - 2) with 0 by lia|].
    unfold u64. rewrite (Z.mod_small (c_pos c1 - 2) (2 ^ 64)) by (unfold INT_MAX in H1; lia).
    assert (int_of ((c_pos c1 - 2) / 3824) = (c_pos c1 - 2) / 3824) as ->; [|done].
    assert (0 <= (c_pos c1 - 2) / 3824 < 2 ^ 31) by (unfold INT_MAX in H1; split; [apply Z.div_pos; lia|apply Z.div_lt_upper_bound; lia]).
    unfold int_of. rewrite Z.mod_small by lia. by replace (_ <? _) with true by lia. }
  destruct (Z.ltb_spec (c_pos c) 2) as [L|L]; [|apply (Main c); lia].
  destruct c as [pos room out]. cbn [c_pos c_room c_out] in *.
  destruct (pending_dots (wf_dir_chains s W)) as [P0 P1].
  assert (Same : exists s' c', (0, s, DCtx pos 0 out) = (0, s', c') /\ same_on s s' /\ call_done bs (DCtx pos 0 out) (pending bs pos) c').
  { exists s, (DCtx pos 0 out). split_and!; [done|apply same_on_refl|]. unfold call_done. cbn [c_out c_pos c_room take drop]. rewrite app_nil_r. split_and!; [done|done|lia|lia]. }
  assert (pos = 0 \/ pos = 1) as [->| ->] by lia; unfold dir_emit_dots, dir_emit, set_pos; cbn [c_pos c_room c_out Z.eqb negb].
  - destruct room as [|[|n]]; cbn [c_pos c_room c_out Z.eqb negb Pos.eqb]; [exact Same| |].
    + exists s, (DCtx 1 0 (out ++ [Dot])). split_and!; [done|apply same_on_refl|]. unfold call_done. cbn [c_out c_pos c_room]. rewrite P0, P1. split_and!; [done|done|lia|unfold INT_MAX; lia].
    + destruct (Main (DCtx 2 n ((out ++ [Dot]) ++ [DotDot]))) as (s' & c' & E & Hs & D); [cbn; unfold INT_MAX; lia|].
      exists s', c'. split_and!; [exact E|done|]. destruct D as (D1 & D2 & D3). unfold call_done. cbn [c_out c_pos c_room] in *. rewrite P0.
      cbn [take drop]. rewrite D1, <- !app_assoc. split_and!; [done|done|lia|lia].
  - destruct room as [|n]; cbn [c_pos c_room c_out Z.eqb negb Pos.eqb]; [exact Same|].
    destruct (Main (DCtx 2 n (out ++ [DotDot]))) as (s' & c' & E & Hs & D); [cbn; unfold INT_MAX; lia|].
    exists s', c'. split_and!; [exact E|done|]. destruct D as (D1 & D2 & D3). unfold call_done. cbn [c_out c_pos c_room] in *. rewrite P1.
    cbn [take drop]. rewrite D1, <- !app_assoc. split_and!; [done|done|lia|lia].
Qed.
End blocks.

(** ** Theorems *)

(** Successive calls, each in the state and with the room it finds. *)
Fixpoint listing {S} `{RL : !RsLib} `{DE : !DirEnv S} t cpu (d : dinode) (pos : Z) (calls : list (S * nat)) : list listed * Z :=
  match calls with
  | [] => ([], pos)
  | (s, room) :: calls =>
    let '(_, _, c) := beamfs_readdir t cpu s d (DCtx pos room []) in
    let '(out, pos) := listing t cpu d (c_pos c) calls in (c_out c ++ out, pos)
  end.

(** An entry as it is shown, and whether it is: "." and ".." come first. *)
Definition listed_entry (e : dentry) : listed :=
  Listed (e_name e) (e_ino e) (if e_type e =? 1 then DT_REG else if e_type e =? 2 then DT_DIR else e_type e).
Definition dots_entry (e : dentry) : bool := bool_decide (e_name e = [dot]) || bool_decide (e_name e = [dot; dot]).

(** What a directory shows. *)
Definition directory_listing (bs : list dblock) : list listed :=
  Dot :: DotDot :: map listed_entry (filter (fun e => dots_entry e = false) (dir_entries bs)).

Lemma is_dots_entry p o : zlen p = 4096 -> 0 <= o -> o + 12 + d_name_len p o <= 4096 -> 0 <= d_name_len p o ->
  is_dots p o = dots_entry (entry p o).
Proof.
  intros Zp Ho Hl Hn. unfold is_dots, dots_entry, entry. cbn [e_name]. unfold d_name. change BEAMFS_DIRENT_HDR_LEN with 12.
  set (n := d_name_len p o) in *. assert (Zs : zlen (slice p (o + 12) n) = n) by (apply zlen_slice; lia).
  assert (G : forall k, 0 <= k < n -> getb (slice p (o + 12) n) k = getb p (o + 12 + k)) by (intros k Hk; apply getb_slice; lia).
  destruct (decide (n = 1)) as [E1|N1]; [|destruct (decide (n = 2)) as [E2|N2]].
  - rewrite E1 in *. destruct (slice p (o + 12) 1) as [|x [|y l]]; [done| |rewrite !zlen_cons in Zs; pose proof (zlen_nonneg l); lia].
    specialize (G 0 ltac:(lia)). rewrite Z.add_0_r in G. change (getb [x] 0) with x in G. rewrite <- G. cbn [Z.eqb Pos.eqb andb orb].
    rewrite (bool_decide_eq_false_2 ([x] = [dot; dot])), !orb_false_r by done.
    destruct (Z.eqb_spec x dot) as [->|N]; [by rewrite bool_decide_eq_true_2|by rewrite bool_decide_eq_false_2 by congruence].
  - rewrite E2 in *. destruct (slice p (o + 12) 2) as [|x [|y [|z l]]]; [done|done| |rewrite !zlen_cons in Zs; pose proof (zlen_nonneg l); lia].
    pose proof (G 0 ltac:(lia)) as G0. pose proof (G 1 ltac:(lia)) as G1. rewrite Z.add_0_r in G0. change (getb [x; y] 0) with x in G0. change (getb [x; y] 1) with y in G1.
    replace (o + 12 + 1) with (o + 13) in G1 by lia. rewrite <- G0, <- G1. cbn [Z.eqb Pos.eqb andb orb].
    rewrite (bool_decide_eq_false_2 ([x; y] = [dot])) by done. cbn [orb].
    destruct (Z.eqb_spec x dot) as [->|N]; [|by rewrite bool_decide_eq_false_2 by congruence].
    destruct (Z.eqb_spec y dot) as [->|N]; [by rewrite bool_decide_eq_true_2|by rewrite bool_decide_eq_false_2 by congruence].
  - replace (n =? 1) with false by lia. replace (n =? 2) with false by lia. cbn [andb orb].
    rewrite !bool_decide_eq_false_2; [done| |]; intros E; rewrite E, !zlen_cons in Zs; change (zlen (@nil Z)) with 0 in Zs; lia.
Qed.

Lemma outputs_items i p l : wf_payload p l -> forall l2, (forall o, o ∈ l2 -> o ∈ l) ->
  outputs (items i p l2) = map listed_entry (filter (fun e => dots_entry e = false) (entries p l2)).
Proof.
  intros W. pose proof (wf_bytes _ _ W) as B. pose proof (wf_len _ _ W) as Zp. change BEAMFS_BLOCK_SIZE with 4096 in Zp.
  induction l2 as [|o l2 IH]; intros Hsub; [done|]. specialize (IH ltac:(intros; apply Hsub; by right)).
  destruct (wf_in p l o W ltac:(apply Hsub; left)) as (Ho & V & _ & Hr). apply valid_spec in V; [|done|lia].
  pose proof (name_len_range p o B) as Hn.
  assert (D : is_dots p o = dots_entry (entry p o)) by (apply is_dots_entry; [done|lia|lia|lia]).
  unfold outputs, items. cbn [map omap list_omap snd]. fold (items i p l2). fold (outputs (items i p l2)). unfold is_shown. rewrite D.
  destruct (Z.eqb_spec (d_ino p o) 0) as [E|N]; cbn [negb andb]; [by rewrite entries_free|].
  rewrite entries_live, filter_cons by done. destruct (dots_entry (entry p o)); cbn [negb];
    [rewrite decide_False by done; exact IH|rewrite decide_True by done; cbn [map]; by rewrite <- IH].
Qed.

Lemma outputs_flat bs : chains_ok bs -> forall i, outputs (flat i bs) = map listed_entry (filter (fun e => dots_entry e = false) (dir_entries bs)).
Proof.
  induction 1 as [|b bs W _ IH]; intros i; [done|]. cbn [flat]. rewrite outputs_app, IH. unfold dir_entries. cbn [map concat].
  rewrite list.filter_app, map_app. f_equal. by apply (outputs_items i _ (b_chain b)).
Qed.

Lemma listing_pending {S} `{RL : !RsLib} `{RS : !RsLibSpec} `{DO : DirEnvOk S} t cpu d bs (calls : list (S * nat)) : forall pos,
  0 <= pos <= INT_MAX -> Forall (fun '(s, _) => wf_dir t cpu s d bs /\ scratch_get s = true) calls ->
  let '(out, pos') := listing t cpu d pos calls in
  out = take (sum_list (map snd calls)) (pending bs pos) /\ pending bs pos' = drop (sum_list (map snd calls)) (pending bs pos).
Proof.
  induction calls as [|[s room] calls IH]; intros pos Hp F; cbn [listing map snd sum_list]; [done|].
  apply list.Forall_cons in F as [[W Hs] F].
  destruct (readdir_call t cpu d bs s (DCtx pos room []) W Hs Hp) as (s' & c' & -> & _ & D1 & D2 & D3). cbn [c_out c_pos c_room app] in D1, D2.
  specialize (IH (c_pos c') D3 F). destruct (listing t cpu d (c_pos c') calls) as [out pos']. destruct IH as [-> ->].
  rewrite D1, D2. split; [by rewrite take_take_drop|by rewrite drop_drop].
Qed.

(** C27: listing a directory in any number of calls, each with room for any
    number of names, gives its names in order without repeating or missing
    one: what the calls returned is a prefix of the listing as long as the
    room they had, and a call resumes exactly where the last one stopped. *)
Theorem readdir_lists_once {S} `{RL : !RsLib} `{RS : !RsLibSpec} `{DO : DirEnvOk S} t cpu d bs (calls : list (S * nat)) :
  Forall (fun '(s, _) => wf_dir t cpu s d bs /\ scratch_get s = true) calls -> chains_ok bs ->
  fst (listing t cpu d 0 calls) = take (sum_list (map snd calls)) (directory_listing bs).
Proof.
  intros F Wc. pose proof (listing_pending t cpu d bs calls 0 ltac:(unfold INT_MAX; lia) F) as L.
  destruct (listing t cpu d 0 calls) as [out pos']. destruct L as [-> _]. cbn [fst]. f_equal.
  destruct (pending_dots bs Wc) as [-> _]. unfold directory_listing. do 2 f_equal. rewrite <- (outputs_flat bs Wc 0). unfold pending. cbn [Z.eqb Pos.eqb INT_MAX app]. f_equal.
  apply filter_whole. eapply list.Forall_impl; [apply flat_bounds, Wc|]. intros x Hx. cbv beta in Hx |- *. unfold cookie in Hx. lia.
Qed.
