(* ===== verification/DirTheorems.v ===== *)
(** * A directory is a map from names to inode numbers

    The operations on a directory of any number of blocks, against a finite
    map: whatever block an entry lies in, and whatever the blocks' slack,
    lookup, insertion, removal and the emptiness test answer as the map
    does. *)

From stdpp Require Import gmap.
From S2P Require Import Prelude Format Crc RsInit GF RsTheory RsCode RsCorrect RsDecode RsLib RsComplete Edac EdacTheorems Dirent Alloc AllocInv AllocTheorems AllocProps IndParity DirentTheorems DirRecords DirOps Dir DirTree DirUpdate Volume ReaddirTheorems.

(** ** Entries as a map *)

Definition entries_map (es : list dentry) : gmap (list Z) Z := list_to_map (map (fun e => (e_name e, e_ino e)) es).

Lemma entries_map_lookup es name : entries_map es !! name = option_map e_ino (find_entry name es).
Proof.
  unfold entries_map, find_entry. induction es as [|e es IH]; [done|]. cbn [map list_to_map foldr fst snd find uncurry].
  destruct (decide (e_name e = name)) as [<-|N].
  - rewrite lookup_insert_eq, bool_decide_eq_true_2 by done. done.
  - rewrite lookup_insert_ne, bool_decide_eq_false_2 by done. exact IH.
Qed.

Lemma entries_map_insert es1 es2 e : e_name e ∉ map e_name (es1 ++ es2) ->
  entries_map (es1 ++ e :: es2) = <[e_name e := e_ino e]> (entries_map (es1 ++ es2)).
Proof.
  intros N. apply map_eq. intros name. rewrite entries_map_lookup. destruct (decide (e_name e = name)) as [<-|Hne].
  - rewrite lookup_insert_eq, find_entry_app; [done| |done]. apply find_entry_none. rewrite map_app, not_elem_of_app in N. apply N.
  - rewrite lookup_insert_ne, entries_map_lookup by done. by rewrite find_entry_skip.
Qed.

Lemma entries_map_delete es1 es2 e : e_name e ∉ map e_name (es1 ++ es2) ->
  entries_map (es1 ++ es2) = delete (e_name e) (entries_map (es1 ++ e :: es2)).
Proof.
  intros N. rewrite entries_map_insert by done. symmetry. apply delete_insert_id. rewrite entries_map_lookup.
  apply find_entry_none in N. by rewrite N.
Qed.

Lemma names_middle es1 e es2 : NoDup (map e_name (es1 ++ e :: es2)) <-> (e_name e ∉ map e_name (es1 ++ es2)) /\ NoDup (map e_name (es1 ++ es2)).
Proof. rewrite !map_app. cbn [map]. rewrite <- Permutation_middle, list.NoDup_cons. done. Qed.

(** No names but the dots. *)
Definition only_dots (m : gmap (list Z) Z) : Prop := forall name ino, m !! name = Some ino -> name = [dot] \/ name = [dot; dot].

Lemma dots_entry_true e : dots_entry e = true <-> e_name e = [dot] \/ e_name e = [dot; dot].
Proof. unfold dots_entry. rewrite orb_true_iff, !bool_decide_eq_true. done. Qed.

Lemma only_dots_entries es : only_dots (entries_map es) <-> Forall (fun e => dots_entry e = true) es.
Proof.
  rewrite list.Forall_forall. unfold only_dots. split.
  - intros H e He. apply dots_entry_true. destruct (entries_map es !! e_name e) as [ino|] eqn:E; [by apply (H _ ino)|].
    rewrite entries_map_lookup in E. destruct (find_entry (e_name e) es) eqn:F; [done|]. apply find_entry_none in F.
    destruct F. apply list_elem_of_In, in_map, list_elem_of_In, He.
  - intros H name ino E. rewrite entries_map_lookup in E. destruct (find_entry name es) as [e|] eqn:F; [|done].
    unfold find_entry in F. apply find_some in F as [Hin Hn%bool_decide_eq_true]. subst name. apply dots_entry_true, H, list_elem_of_In, Hin.
Qed.

(** ** The emptiness test *)

Lemma payload_is_empty_spec p l : wf_payload p l -> payload_is_empty p = forallb dots_entry (entries p l).
Proof.
  intros W. unfold payload_is_empty. rewrite (walk_all _ _ _ l) by apply W.
  pose proof (wf_bytes _ _ W) as B. pose proof (wf_len _ _ W) as Zp. change BEAMFS_BLOCK_SIZE with 4096 in Zp.
  assert (H : forall l2, (forall o, o ∈ l2 -> o ∈ l) ->
    match fold_until (fun (_ : unit) off => if negb (d_ino p off =? 0) && negb (is_dots p off) then inr tt else inl tt) tt l2 with
    | inl _ => true | inr _ => false end = forallb dots_entry (entries p l2)); [|by apply H].
  induction l2 as [|o l2 IH]; intros Hsub; [done|]. specialize (IH ltac:(intros; apply Hsub; by right)). cbn [fold_until].
  destruct (wf_in p l o W ltac:(apply Hsub; left)) as (Ho & V & _ & Hr). apply valid_spec in V; [|done|lia].
  pose proof (name_len_range p o B). rewrite is_dots_entry by (done || lia).
  destruct (Z.eqb_spec (d_ino p o) 0) as [E|N]; cbn [negb andb]; [by rewrite entries_free|].
  rewrite entries_live by done. cbn [forallb]. by destruct (dots_entry (entry p o)).
Qed.

Section directory.
Context {S : Type} `{RL : !RsLib} `{RS : !RsLibSpec} `{DO : DirEnvOk S} (t : rs_tables) (cpu : nat).
Context (Hctrl : ctrl_here t cpu = true).

Lemma empty_loop d bs : forall k s i,
  wf_dir t cpu s d bs -> Z.to_nat (zlen bs - i) = k -> 0 <= i <= zlen bs ->
  exists s', same_on s s' /\
    match fold_until (empty_block t cpu d) s (seqZ i (524 - i)) with inl s => (s, 0) | inr r => r end =
    (s', if forallb dots_entry (dir_entries (drop (Z.to_nat i) bs)) then 0 else - ENOTEMPTY).
Proof.
  induction k as [|k IH]; intros s i W Hk Hi; pose proof (wd_len _ _ _ _ _ W) as Hl.
  - assert (i = zlen bs) as -> by lia. rewrite drop_ge by (unfold zlen; lia). exists s. split; [apply same_on_refl|].
    destruct (decide (zlen bs = 524)) as [E|E]; [by rewrite E|]. pose proof (zlen_nonneg bs). rewrite upto_cons_from by lia.
    cbn [fold_until]. unfold empty_block. by rewrite (no_block_at t cpu s d bs) by (done || lia).
  - destruct (block_at t cpu s d bs i W ltac:(lia)) as (b & Hb & K & G & NZ).
    rewrite upto_cons_from by lia. cbn [fold_until]. unfold empty_block at 1. rewrite G, NZ. cbn [Z.eqb negb].
    destruct (read_block t cpu s b K) as (rc & s1 & -> & Hrc & Hs). replace (rc <? 0) with false by lia.
    rewrite (payload_is_empty_spec _ _ (bk_wf _ _ _ _ K)). fold (block_entries b). rewrite (drop_S bs b (Z.to_nat i)) by done.
    unfold dir_entries. cbn [map concat]. rewrite forallb_app. destruct (forallb dots_entry (block_entries b)); cbn [andb].
    + destruct (IH s1 (i + 1)) as (s2 & Hs2 & E2); [by apply (wf_dir_same t cpu s)|lia|lia|].
      exists s2. split; [by apply (same_on_trans s s1)|]. replace (Datatypes.S (Z.to_nat i)) with (Z.to_nat (i + 1)) by lia. exact E2.
    + by exists s1.
Qed.

(** ** The abstract directory *)

(** [d] holds the names of [m], in the blocks [own], which satisfy [Q]. *)
Definition holds_with (Q : list dblock -> Prop) (s : S) (d : dinode) (m : gmap (list Z) Z) (own : list Z) : Prop :=
  exists bs, wf_dir t cpu s d bs /\ NoDup (map e_name (dir_entries bs)) /\ m = entries_map (dir_entries bs) /\ own = dir_blocks d bs /\ Q bs.

Definition holds := holds_with (fun _ => True).

(** A block has a free record that takes [name]. *)
Definition room_for (name : list Z) (bs : list dblock) : Prop := dir_room bs (BEAMFS_DIRENT_LEN (zlen name)).

Lemma holds_weaken Q s d m own : holds_with Q s d m own -> holds s d m own.
Proof. intros (bs & W & N & Em & Eo & _). by exists bs. Qed.

Definition represents (s : S) (d : dinode) (m : gmap (list Z) Z) : Prop := exists own, holds s d m own.

(** Blocks of others are kept, and no such block is taken. *)
Record moved (s : S) (own : list Z) (s' : S) (own' : list Z) : Prop := {
  mv_keep : forall x, allocated s x -> x ∉ own -> allocated s' x /\ bread s' x = bread s x;
  mv_own : forall x, x ∈ own' -> x ∈ own \/ ~ allocated s x }.

Lemma evolves_moved s d bs s' d' bs' : evolves s d bs s' d' bs' -> moved s (dir_blocks d bs) s' (dir_blocks d' bs').
Proof. intros [F O]. by split. Qed.

Lemma moved_same s s' own : same_on s s' -> moved s own s' own.
Proof. intros H. split; [intros x A _; by apply H|by left]. Qed.

Lemma moved_trans s own s1 own1 s2 own2 : moved s own s1 own1 -> moved s1 own1 s2 own2 -> (forall x, x ∈ own -> allocated s x) -> moved s own s2 own2.
Proof.
  intros [K1 O1] [K2 O2] A. split.
  - intros x Ax Nx. destruct (K1 x Ax Nx) as [A1 E1]. assert (N1 : x ∉ own1) by (intros H; by destruct (O1 x H)).
    destruct (K2 x A1 N1) as [A2 E2]. split; [done|congruence].
  - intros x Hx. destruct (O2 x Hx) as [H|H]; [by apply O1|]. destruct (decide (x ∈ own)) as [|N]; [by left|right].
    intros Ax. apply H. by apply K1.
Qed.

(** The times and the dirty mark of the inode do not matter. *)
Lemma holds_ptrs Q s d d' m own : di_direct d' = di_direct d -> di_indirect d' = di_indirect d -> holds_with Q s d m own -> holds_with Q s d' m own.
Proof.
  intros E1 E2 (bs & [L D I B N E] & Nn & Em & -> & HQ). exists bs.
  assert (M : forall i, bmap s d' i = bmap s d i) by (intros; unfold bmap; by rewrite E1, E2).
  split_and!; try done; [|unfold dir_blocks; by rewrite E2]. split; rewrite ?E1, ?E2; try done.
  - intros i b Hb. rewrite M. by apply B.
  - intros i Hi. rewrite M. by apply E.
Qed.

Lemma holds_same Q s s' d m own : same_on s s' -> holds_with Q s d m own -> holds_with Q s' d m own.
Proof. intros H (bs & W & R). exists bs. split; [by apply (wf_dir_same t cpu s)|done]. Qed.

(** The blocks of a directory are allocated. *)
Lemma holds_allocated Q s d m own x : holds_with Q s d m own -> x ∈ own -> allocated s x.
Proof.
  intros (bs & W & _ & _ & -> & _) Hx. apply elem_of_app in Hx as [Hx|Hx].
  - apply list_elem_of_In, in_map_iff in Hx as (b & <- & Hb%list_elem_of_In). apply list_elem_of_lookup in Hb as (i & Hb).
    destruct (wd_block _ _ _ _ _ W i b Hb) as (_ & K & _). apply K.
  - destruct (Z.eqb_spec (di_indirect d) 0) as [|N]; [by apply elem_of_nil in Hx|]. apply list_elem_of_singleton in Hx as ->.
    by apply (wd_indirect _ _ _ _ _ W).
Qed.

(** A directory whose blocks are kept is kept. *)
Lemma holds_kept Q s s' d m own : holds_with Q s d m own -> (forall x, x ∈ own -> allocated s' x /\ bread s' x = bread s x) -> holds_with Q s' d m own.
Proof.
  intros (bs & W & N & Em & -> & HQ) K. exists bs. split; [|done]. destruct W as [L D I B Nd E].
  assert (Ki : di_indirect d <> 0 -> allocated s' (di_indirect d) /\ bread s' (di_indirect d) = bread s (di_indirect d)).
  { intros Hne. apply K. unfold dir_blocks. apply elem_of_app. right. replace (di_indirect d =? 0) with false by lia. by left. }
  assert (M : forall i, bmap s' d i = bmap s d i).
  { intros i. unfold bmap. destruct (i <? BEAMFS_DIRECT_BLOCKS); [done|]. destruct (Z.eqb_spec (di_indirect d) 0) as [|Hne]; [done|].
    by destruct (Ki Hne) as [_ ->]. }
  split; [done|done| | |done|].
  - intros Hne. destruct (I Hne) as [A R]. destruct (Ki Hne) as [A' ->]. by split.
  - intros i b Hb. destruct (B i b Hb) as (Mb & [A Nz R Wp] & X). rewrite M. destruct (K (b_phys b) (dir_blocks_phys d bs i b Hb)) as [A' E'].
    split_and!; [done|split; [done|done| |done]|done]. by rewrite E'.
  - intros i Hi. rewrite M. by apply E.
Qed.

(** A directory of fewer than twelve blocks has direct pointers only. *)
Lemma small_direct Q s d m own : holds_with Q s d m own -> (forall bs, Q bs -> zlen bs < 12) ->
  zlen (di_direct d) = 12 /\ di_indirect d = 0 /\ forall i, 0 <= i < 12 -> getb (di_direct d) i <> 0 -> getb (di_direct d) i ∈ own.
Proof.
  intros (bs & W & _ & _ & -> & HQ) Hs. specialize (Hs bs HQ). split; [apply W|]. split.
  - destruct (Z.eq_dec (di_indirect d) 0) as [|N]; [done|]. destruct (wd_indirect _ _ _ _ _ W N) as (_ & _ & ?). lia.
  - intros i Hi Nz. assert (Eb : bmap s d i = Some (getb (di_direct d) i)).
    { unfold bmap. change BEAMFS_DIRECT_BLOCKS with 12. by replace (i <? 12) with true by lia. }
    destruct (bs !! Z.to_nat i) as [b|] eqn:Hb.
    + destruct (wd_block _ _ _ _ _ W _ b Hb) as (Mb & _). rewrite Z2Nat.id, Eb in Mb by lia. injection Mb as ->.
      exact (dir_blocks_phys d bs _ b Hb).
    + apply lookup_ge_None in Hb. pose proof (wd_end _ _ _ _ _ W i ltac:(unfold zlen in *; lia)). congruence.
Qed.

(** An inode without blocks is an empty directory. *)
Lemma holds_new s ino size mtime ctime dirty :
  holds_with (fun bs => zlen bs <= 0) s (DInode ino (zeros BEAMFS_DIRECT_BLOCKS) 0 size mtime ctime dirty) ∅ [].
Proof.
  exists []. split_and!; [|constructor|done|done|done]. split; cbn [di_indirect di_direct].
  - done.
  - done.
  - done.
  - intros i b Hb. by rewrite lookup_nil in Hb.
  - constructor.
  - intros i _. unfold bmap. cbn [di_indirect di_direct]. destruct (i <? BEAMFS_DIRECT_BLOCKS); [|done]. f_equal. apply getb_zeros.
Qed.

Inductive dop :=
  | DLookup (name : list Z)
  | DAdd (name : list Z) (ino file_type : Z) (now : Z * Z)
  | DDel (name : list Z) (now : Z * Z)
  | DIsEmpty.

(** What an operation answers: a code, and for a lookup the inode number. *)
Definition run_dop (s : S) (d : dinode) (op : dop) : Z * option Z * dinode * S :=
  match op with
  | DLookup name => let '(s, r) := beamfs_lookup t cpu s d name in
                    match r with inl e => (e, None, d, s) | inr o => (0, o, d, s) end
  | DAdd name ino ft now => let '(rc, d, s) := beamfs_add_dirent t cpu s d name ino ft now in (rc, None, d, s)
  | DDel name now => let '(rc, d, s) := beamfs_del_dirent t cpu s d name now in (rc, None, d, s)
  | DIsEmpty => let '(s, rc) := beamfs_dir_is_empty t cpu s d in (rc, None, d, s)
  end.

(** When the operations are called: an insertion for a name that a lookup
    did not find, as the VFS does, with the directory locked. *)
Definition dop_ok (m : gmap (list Z) Z) (op : dop) : Prop :=
  match op with
  | DLookup name => zlen name <= 255
  | DAdd name ino ft _ => name_ok name /\ 0 < ino < 2 ^ 64 /\ is_byte ft /\ m !! name = None
  | DDel _ _ | DIsEmpty => True
  end.

(** What a map answers: the code, the inode number, the map after. *)
Inductive dspec (m : gmap (list Z) Z) : dop -> Z -> option Z -> gmap (list Z) Z -> Prop :=
  | ds_lookup name : dspec m (DLookup name) 0 (m !! name) m
  | ds_add name ino ft now : dspec m (DAdd name ino ft now) 0 None (<[name := ino]> m)
  | ds_full name ino ft now rc : rc <> 0 -> dspec m (DAdd name ino ft now) rc None m
  | ds_del name ino now : m !! name = Some ino -> dspec m (DDel name now) 0 None (delete name m)
  | ds_absent name now : m !! name = None -> dspec m (DDel name now) (- ENOENT) None m
  | ds_empty : only_dots m -> dspec m DIsEmpty 0 None m
  | ds_busy : ~ only_dots m -> dspec m DIsEmpty (- ENOTEMPTY) None m.

Lemma lookup_refines s d m own name : holds s d m own -> scratch_get s = true -> zlen name <= 255 ->
  exists s', run_dop s d (DLookup name) = (0, m !! name, d, s') /\ holds s' d m own /\ same_on s s'.
Proof.
  intros (bs & W & N & -> & -> & _) Hs Hn. destruct (lookup_spec t cpu s d bs name W Hs Hn) as (s' & Ho & E).
  exists s'. cbn [run_dop]. rewrite E, entries_map_lookup. split; [done|]. split; [|done]. apply (holds_same _ s); [done|]. by exists bs.
Qed.

Lemma add_refines Q s d m own name ino ft now : holds_with Q s d m own -> name_ok name -> 0 < ino < 2 ^ 64 -> is_byte ft ->
  m !! name = None -> exists rc d' s' own', run_dop s d (DAdd name ino ft now) = (rc, None, d', s') /\ di_ino d' = di_ino d /\ moved s own s' own' /\
    (rc <> 0 /\ holds_with Q s' d' m own' /\ (scratch_get s = true -> exists bs, Q bs /\ ~ room_for name bs) \/
     rc = 0 /\ holds_with (fun bs' => exists bs, Q bs /\ zlen bs' <= zlen bs + 1) s' d' (<[name := ino]> m) own').
Proof.
  intros (bs & W & N & -> & -> & HQ) Hn Hi Hf Hm. cbn [run_dop]. unfold beamfs_add_dirent.
  replace (BEAMFS_MAX_FILENAME <? zlen name) with false by (destruct Hn; lia). destruct (scratch_get s); cbn [negb].
  2: { exists (- ENOMEM), d, s, (dir_blocks d bs). split_and!; [done|done|by apply moved_same|]. left. split_and!; [done|by exists bs|done]. }
  pose proof (zlen_nonneg bs). change (upto DIR_BLOCKS) with (seqZ 0 (524 - 0)).
  destruct (add_loop t cpu Hctrl name ino ft now Hn Hi Hf bs _ s d 0 W eq_refl ltac:(lia)) as (rc & d' & s' & -> & R).
  destruct R as [(Hrc & W' & Ev & Ei & Nr)|[-> (bs' & es1 & es2 & W' & Ev & Ei & E1 & E2 & El)]].
  - exists rc, d', s', (dir_blocks d' bs). split_and!; [done|done|by apply evolves_moved|]. left. split_and!; [done|by exists bs|]. intros _. exists bs. split; [done|]. change (Z.to_nat 0) with 0%nat in Nr. by rewrite drop_0 in Nr.
  - exists 0, d', s', (dir_blocks d' bs'). split_and!; [done|done|by apply evolves_moved|]. right. split; [done|].
    rewrite entries_map_lookup in Hm. destruct (find_entry name (dir_entries bs)) eqn:F; [done|].
    apply find_entry_none in F. rewrite E1 in F, N |- *. exists bs'. split; [done|]. rewrite E2. split; [by apply names_middle|].
    split_and!; [|done|by exists bs]. symmetry. apply (entries_map_insert es1 es2 (Dentry ino name ft) F).
Qed.

Lemma del_refines s d m own name now : holds s d m own ->
  exists rc d' s' own', run_dop s d (DDel name now) = (rc, None, d', s') /\ di_ino d' = di_ino d /\ moved s own s' own' /\
    (scratch_get s = false /\ rc = - ENOMEM /\ holds s' d' m own' \/
     scratch_get s = true /\ rc = - ENOENT /\ m !! name = None /\ holds s' d' m own' \/
     scratch_get s = true /\ rc = 0 /\ is_Some (m !! name) /\ holds_with (room_for name) s' d' (delete name m) own').
Proof.
  intros (bs & W & N & -> & -> & _). cbn [run_dop]. unfold beamfs_del_dirent. destruct (scratch_get s); cbn [negb].
  2: { do 4 eexists. split; [reflexivity|]. split; [done|]. split; [by apply moved_same|]. left. split_and!; [done|done|by exists bs]. }
  pose proof (zlen_nonneg bs). change (upto DIR_BLOCKS) with (seqZ 0 (524 - 0)). rewrite entries_map_lookup.
  pose proof (del_loop t cpu Hctrl d bs name now _ s 0 W eq_refl ltac:(lia)) as D. cbv zeta in D.
  destruct D as [(s' & -> & Hs' & F)|(s' & d' & bs' & es1 & e & es2 & -> & W' & Ev & Ei & E1 & En & F & E2 & Hroom)]; change (Z.to_nat 0) with 0%nat in *; rewrite ?drop_0, ?take_0 in *.
  - do 4 eexists. split; [reflexivity|]. split; [done|]. split; [by apply moved_same|]. right. left. split; [done|]. rewrite F. split; [done|]. split; [done|].
    apply (holds_same _ s); [done|]. by exists bs.
  - do 4 eexists. split; [reflexivity|]. split; [done|]. split; [by apply evolves_moved|]. right. right. split; [done|]. split; [done|].
    change (dir_entries []) with (@nil dentry) in E1, E2. cbn [app] in E1, E2.
    rewrite E1 in *. apply names_middle in N as [N1 N2]. rewrite find_entry_app by done. split; [by eexists|].
    exists bs'. rewrite E2. split_and!; [done|done| |done|done]. rewrite <- En. symmetry. by apply entries_map_delete.
Qed.

Lemma empty_refines s d m own : holds s d m own ->
  exists rc s', run_dop s d DIsEmpty = (rc, None, d, s') /\ holds s' d m own /\ same_on s s' /\
    (scratch_get s = false /\ rc = - ENOMEM \/ scratch_get s = true /\ only_dots m /\ rc = 0 \/ scratch_get s = true /\ ~ only_dots m /\ rc = - ENOTEMPTY).
Proof.
  intros (bs & W & N & -> & -> & _). cbn [run_dop]. unfold beamfs_dir_is_empty. destruct (scratch_get s); cbn [negb].
  2: { do 2 eexists. split; [reflexivity|]. split; [by exists bs|]. split; [done|]. by left. }
  pose proof (zlen_nonneg bs). change (upto DIR_BLOCKS) with (seqZ 0 (524 - 0)).
  destruct (empty_loop d bs _ s 0 W eq_refl ltac:(lia)) as (s' & Hs' & E). rewrite E. change (Z.to_nat 0) with 0%nat. rewrite drop_0.
  do 2 eexists. split; [reflexivity|]. split; [apply (holds_same _ s); [done|by exists bs]|]. split; [done|].
  rewrite only_dots_entries. destruct (forallb dots_entry (dir_entries bs)) eqn:F; right; [left|right]; (split; [done|split; [|done]]).
  - apply list.Forall_forall. intros e He. rewrite forallb_forall in F. apply F, list_elem_of_In, He.
  - intros H1. apply not_true_iff_false in F. apply F. apply forallb_forall. intros e He. rewrite list.Forall_forall in H1. apply H1, list_elem_of_In, He.
Qed.
End directory.

(** ** Theorems *)

(** C26: a directory refines a map from names to inode numbers.  Lookup gives
    the map's answer; an insertion adds the name, or fails and leaves the
    names as they were; a removal takes exactly its name out, or reports
    that it is not there; the emptiness test sees whether names other than
    the dots are left.  Every operation leaves a directory that represents
    the map it should. *)
Theorem dir_refines_map {S} `{RL : !RsLib} `{RS : !RsLibSpec} `{DO : DirEnvOk S} t cpu (s : S) d m op :
  ctrl_here t cpu = true -> represents t cpu s d m -> scratch_get s = true -> dop_ok m op ->
  let '(rc, found, d', s') := run_dop t cpu s d op in
  exists m', dspec m op rc found m' /\ represents t cpu s' d' m'.
Proof.
  intros Hc [own R] Hs Hop. destruct op as [name|name ino ft now|name now|].
  - destruct (lookup_refines t cpu s d m own name R Hs Hop) as (s' & -> & R' & _). exists m. split; [constructor|by exists own].
  - destruct Hop as (Hn & Hi & Hf & Hm).
    destruct (add_refines t cpu Hc _ s d m own name ino ft now R Hn Hi Hf Hm) as (rc & d' & s' & own' & -> & _ & _ & [(Hrc & R' & _)|[-> R'%holds_weaken]]).
    + exists m. split; [by constructor|by exists own'].
    + exists (<[name := ino]> m). split; [constructor|by exists own'].
  - destruct (del_refines t cpu Hc s d m own name now R) as (rc & d' & s' & own' & -> & _ & _ & [(? & _)|[(_ & -> & Hm & R')|(_ & -> & [ino Hm] & R'%holds_weaken)]]); [congruence| |].
    + exists m. split; [by constructor|by exists own'].
    + exists (delete name m). split; [by econstructor|by exists own'].
  - destruct (empty_refines t cpu s d m own R) as (rc & s' & -> & R' & _ & [[? _]|[(_ & O & ->)|(_ & O & ->)]]); [congruence|..]; exists m; (split; [by constructor|by exists own]).
Qed.

(** ** Witnesses *)

(** A directory of one block, block 10 of the small volume, with the name ab. *)
Definition ex_dir_state : mounted ex_tables 0 :=
  bput (ex_mounted ex_vol ex_vol_alloc) 10 (beamfs_dirent_encode ex_tables 0 ex_dir).
Definition ex_dinode : dinode := DInode 7 (10 :: zeros 11) 0 3824 (0, 0) (0, 0) false.

Lemma ex_dir_wf : exists p, wf_dir ex_tables 0 ex_dir_state ex_dinode [DBlock 10 p [0; 16]] /\ entries p [0; 16] = [Dentry 7 [97; 98] 8].
Proof.
  destruct (encoded_payload ex_tables 0 eq_refl 10 ex_dir ex_dir [0; 16]) as (p & B & Z & D & W & E & _);
    [apply wf_ex_dir|apply wf_ex_dir|done|exact wf_ex_dir|].
  assert (Ee : entries ex_dir [0; 16] = [Dentry 7 [97; 98] 8]) by (vm_compute; reflexivity).
  exists p. split; [|by rewrite E]. split.
  - unfold zlen. cbn [length]. lia.
  - reflexivity.
  - intros H. by destruct H.
  - intros i b Hb. apply list_lookup_singleton_Some in Hb as [-> <-]. split; [reflexivity|]. split; [|done].
    split; [exact (ex_allocated ex_vol ex_vol_alloc 10 ltac:(lia))|done| |exact W].
    exists (beamfs_dirent_encode ex_tables 0 ex_dir), 0, []. split; [apply bput_same|]. split_and!; [exact B|exact Z|exact D|lia].
  - apply NoDup_singleton.
  - intros i Hi. change (zlen [_]) with 1 in Hi. unfold bmap. destruct (Z.ltb_spec i BEAMFS_DIRECT_BLOCKS) as [L|L]; [|reflexivity].
    change BEAMFS_DIRECT_BLOCKS with 12 in L. f_equal. cbn [ex_dinode di_direct]. change (10 :: zeros 11) with ([10] ++ zeros 11).
    rewrite getb_app by lia. change (zlen [10]) with 1. rewrite decide_False by lia. apply getb_zeros.
Qed.

Lemma ex_dir_represents : represents ex_tables 0 ex_dir_state ex_dinode {[[97; 98] := 7]}.
Proof.
  destruct ex_dir_wf as (p & W & E). exists (dir_blocks ex_dinode [DBlock 10 p [0; 16]]), [DBlock 10 p [0; 16]].
  split; [exact W|]. unfold dir_entries, block_entries. cbn [map concat b_payload b_chain].
  rewrite E. split; [apply NoDup_singleton|split_and!; reflexivity || done].
Qed.

Lemma dir_refines_map_witness :
  let '(rc, found, d', s') := run_dop ex_tables 0 ex_dir_state ex_dinode (DAdd [99] 9 8 (5, 0)) in
  exists m', dspec {[[97; 98] := 7]} (DAdd [99] 9 8 (5, 0)) rc found m' /\ represents ex_tables 0 s' d' m'.
Proof.
  apply (dir_refines_map ex_tables 0 ex_dir_state ex_dinode {[[97; 98] := 7]} (DAdd [99] 9 8 (5, 0))); [reflexivity|exact ex_dir_represents|reflexivity|].
  split; [split; [by apply bytes_check|vm_compute; split; congruence]|]. split; [lia|]. split; [unfold is_byte; lia|reflexivity].
Defined.

Lemma readdir_lists_once_witness :
  fst (listing ex_tables 0 ex_dinode 0 [(ex_dir_state, 1%nat); (ex_dir_state, 1%nat); (ex_dir_state, 5%nat)]) = [Dot; DotDot; Listed [97; 98] 7 8].
Proof.
  destruct ex_dir_wf as (p & W & E).
  rewrite (readdir_lists_once ex_tables 0 ex_dinode [DBlock 10 p [0; 16]]).
  - unfold directory_listing, dir_entries, block_entries. cbn [map concat b_payload b_chain]. rewrite E. reflexivity.
  - repeat (apply list.Forall_cons; split; [split; [exact W|reflexivity]|]). apply list.Forall_nil_2.
  - exact (wf_dir_chains ex_tables 0 ex_dinode _ _ W).
Defined.
