(* ===== verification/Namei.v ===== *)
(** * Names (namei.c, evict_inode of super.c)

    Creating, removing, linking and moving names: each operation takes an
    inode from the table or gives one back, changes directory entries and
    link counts, and writes the inodes it touched. *)

From stdpp Require Import gmap.
From S2P Require Import Prelude Format Crc RsInit RsLib Edac Dirent FileData Dir FileTree Inode ReaddirTheorems.

Definition EEXIST : Z := 17.
Definition ECHILD : Z := 10.
Definition DT_LNK : Z := 10.
Definition RENAME_NOREPLACE : Z := 1.
Definition MODE_REG : Z := 32768.       (** S_IFREG *)
Definition MODE_DIR : Z := 16384.       (** S_IFDIR *)
Definition MODE_LNK : Z := 40960.       (** S_IFLNK *)

Definition S_ISDIR (mode : Z) : bool := Z.land mode S_IFMT =? MODE_DIR.

(** ** What the name operations call, beyond what the file tree calls *)

Class NameiEnv (S : Type) := {
  namei_tree :: TreeEnv S;
  current_time : S -> Z * Z;
  (** beamfs_alloc_inode_num and beamfs_free_inode_num *)
  alloc_ino : S -> Z * S;
  free_ino : S -> Z -> S;
  (** new_inode does not return NULL *)
  new_inode : S -> bool;
  (** inode_init_owner: mode, owner and group of an inode made in a directory *)
  init_owner : S -> vinode -> Z -> Z * Z * Z;
  (** beamfs_write_inode_raw *)
  write_raw : S -> Z -> vinode -> Z * S;
  (** s_scheme *)
  scheme : S -> Z;
  (** beamfs_rsv_discard *)
  rsv_discard : S -> Z -> S;
  (** kmalloc of the list an eviction keeps of the blocks it has freed *)
  kmalloc_ok : S -> bool;
  (** sync_dirty_buffer *)
  sync_buffer : S -> Z -> Z }.

(** ** The inodes in memory *)

Record minode := MInode {
  m_inode : vinode;
  m_ops : iops;
  m_dirty : bool }.

Definition vset_nlink (v : vinode) (n : Z) : vinode :=
  VInode (vi_mode v) n (vi_uid v) (vi_gid v) (vi_size v) (vi_atime v) (vi_mtime v) (vi_ctime v) (vi_flags v)
    (vi_direct v) (vi_indirect v) (vi_dindirect v) (vi_tindirect v).
Definition vset_mode (v : vinode) (m : Z) : vinode :=
  VInode m (vi_nlink v) (vi_uid v) (vi_gid v) (vi_size v) (vi_atime v) (vi_mtime v) (vi_ctime v) (vi_flags v)
    (vi_direct v) (vi_indirect v) (vi_dindirect v) (vi_tindirect v).
Definition vset_size (v : vinode) (n : Z) : vinode :=
  VInode (vi_mode v) (vi_nlink v) (vi_uid v) (vi_gid v) n (vi_atime v) (vi_mtime v) (vi_ctime v) (vi_flags v)
    (vi_direct v) (vi_indirect v) (vi_dindirect v) (vi_tindirect v).
Definition vset_mtime (v : vinode) (tm : Z * Z) : vinode :=
  VInode (vi_mode v) (vi_nlink v) (vi_uid v) (vi_gid v) (vi_size v) (vi_atime v) tm (vi_ctime v) (vi_flags v)
    (vi_direct v) (vi_indirect v) (vi_dindirect v) (vi_tindirect v).
Definition vset_ctime (v : vinode) (tm : Z * Z) : vinode :=
  VInode (vi_mode v) (vi_nlink v) (vi_uid v) (vi_gid v) (vi_size v) (vi_atime v) (vi_mtime v) tm (vi_flags v)
    (vi_direct v) (vi_indirect v) (vi_dindirect v) (vi_tindirect v).
Definition vset_roots (v : vinode) (d : list Z) (i1 i2 i3 : Z) : vinode :=
  VInode (vi_mode v) (vi_nlink v) (vi_uid v) (vi_gid v) (vi_size v) (vi_atime v) (vi_mtime v) (vi_ctime v) (vi_flags v)
    d i1 i2 i3.
Definition vset_direct (v : vinode) (d : list Z) : vinode := vset_roots v d (vi_indirect v) (vi_dindirect v) (vi_tindirect v).

Definition on_inode (f : vinode -> vinode) (i : minode) : minode := MInode (f (m_inode i)) (m_ops i) (m_dirty i).
Definition mset_ops (ops : iops) (i : minode) : minode := MInode (m_inode i) ops (m_dirty i).
Definition mset_dirty (i : minode) : minode := MInode (m_inode i) (m_ops i) true.

(** The inode as the directory code sees it, and what that code left. *)
Definition to_dinode (ino : Z) (i : minode) : dinode :=
  let v := m_inode i in DInode ino (vi_direct v) (vi_indirect v) (vi_size v) (vi_mtime v) (vi_ctime v) (m_dirty i).
Definition of_dinode (d : dinode) (i : minode) : minode :=
  let v := m_inode i in
  let v := vset_roots v (di_direct d) (di_indirect d) (vi_dindirect v) (vi_tindirect v) in
  MInode (vset_ctime (vset_mtime (vset_size v (di_size d)) (di_mtime d)) (di_ctime d)) (m_ops i) (di_dirty d).

(** The inode as the file tree's code sees it when it is evicted. *)
Definition ftype_of (mode : Z) : ftype :=
  let fmt := Z.land mode S_IFMT in
  if fmt =? MODE_DIR then S_IFDIR else if fmt =? MODE_REG then S_IFREG else if fmt =? MODE_LNK then S_IFLNK else S_IFOTHER.
Definition to_finode (ino : Z) (i : minode) : finode :=
  let v := m_inode i in
  FInode ino (ftype_of (vi_mode v)) (vi_size v) (vi_direct v) (vi_indirect v) (vi_dindirect v) (vi_tindirect v) true
    (vi_ctime v) (m_dirty i).
Definition of_finode (f : finode) (i : minode) : minode :=
  on_inode (fun v => vset_roots v (fi_direct f) (fi_indirect f) (fi_dindirect f) (fi_tindirect f)) i.

(** ** State *)

Section monad.
Context {S : Type}.

(** The volume and the inodes in memory, by number. *)
Record fs := Fs { f_env : S; f_inodes : gmap Z minode }.

Definition M (A : Type) : Type := fs -> A * fs.
#[global] Instance M_ret : MRet M := fun A x w => (x, w).
#[global] Instance M_bind : MBind M := fun A B k m w => let '(x, w) := m w in k x w.

Definition env_get {A} (f : S -> A) : M A := fun w => (f (f_env w), w).
Definition env_do {A} (f : S -> A * S) : M A := fun w => let '(a, e) := f (f_env w) in (a, Fs e (f_inodes w)).
Definition env_step (f : S -> S) : M unit := fun w => (tt, Fs (f (f_env w)) (f_inodes w)).

Definition no_inode : minode := MInode (VInode 0 0 0 0 0 (0, 0) (0, 0) (0, 0) 0 [] 0 0 0) IopsSpecial false.

(** An inode the caller holds a reference to. *)
Definition inode (ino : Z) : M minode := fun w => (default no_inode (f_inodes w !! ino), w).
Definition update (ino : Z) (f : minode -> minode) : M unit := fun w => (tt, Fs (f_env w) (alter f ino (f_inodes w))).
Definition cached (ino : Z) : M bool := fun w => (bool_decide (is_Some (f_inodes w !! ino)), w).
Definition hash (ino : Z) (i : minode) : M unit := fun w => (tt, Fs (f_env w) (<[ino := i]> (f_inodes w))).
Definition unhash (ino : Z) : M unit := fun w => (tt, Fs (f_env w) (delete ino (f_inodes w))).

(** inode_inc_link_count and inode_dec_link_count *)
Definition inc_link (ino : Z) : M unit := update ino (fun i => mset_dirty (on_inode (fun v => vset_nlink v (u32 (vi_nlink v + 1))) i)).
Definition dec_link (ino : Z) : M unit := update ino (fun i => mset_dirty (on_inode (fun v => vset_nlink v (u32 (vi_nlink v - 1))) i)).
End monad.
Arguments fs : clear implicits.
Arguments M : clear implicits.

Section namei.
Context {S : Type} `{RL : !RsLib} `{CL : !CrcLib} `{NE : !NameiEnv S} (c : data_cfg) (t : rs_tables) (cpu : nat).

Abbreviation M := (M S).

(** ** Calls on an inode in memory *)

Definition add_dirent (dir : Z) (name : list Z) (ino file_type : Z) : M Z := fun w =>
  let d := to_dinode dir (default no_inode (f_inodes w !! dir)) in
  let '(rc, d, s) := beamfs_add_dirent t cpu (f_env w) d name ino file_type (current_time (f_env w)) in
  (rc, Fs s (alter (of_dinode d) dir (f_inodes w))).

Definition del_dirent (dir : Z) (name : list Z) : M Z := fun w =>
  let d := to_dinode dir (default no_inode (f_inodes w !! dir)) in
  let '(rc, d, s) := beamfs_del_dirent t cpu (f_env w) d name (current_time (f_env w)) in
  (rc, Fs s (alter (of_dinode d) dir (f_inodes w))).

Definition dir_is_empty (ino : Z) : M Z := fun w =>
  let '(s, rc) := beamfs_dir_is_empty t cpu (f_env w) (to_dinode ino (default no_inode (f_inodes w !! ino))) in
  (rc, Fs s (f_inodes w)).

Definition write_inode_raw (ino : Z) : M Z := i ← inode ino; env_do (fun s => write_raw s ino (m_inode i)).

Definition set_ctime (ino : Z) : M unit := now ← env_get current_time; update ino (on_inode (fun v => vset_ctime v now)).
Definition set_mtime (ino : Z) : M unit := now ← env_get current_time; update ino (on_inode (fun v => vset_mtime v now)).

(** ** Eviction *)

(** The buffers of the model are their contents, so that the syncs of
    buffer lists change nothing here. *)
Definition beamfs_evict_inode (ino : Z) : M unit :=
  env_step (fun s => rsv_discard s ino);;
  i ← inode ino;
  (if vi_nlink (m_inode i) =? 0 then
     ok ← env_get kmalloc_ok;
     f ← env_do (fun s => beamfs_free_data_blocks ok s (to_finode ino i));
     update ino (of_finode f);;
     update ino (on_inode (fun v => vset_mode v 0));;
     write_inode_raw ino
   else mret 0);;
  (if vi_nlink (m_inode i) =? 0 then env_step (fun s => free_ino s ino) else mret tt);;
  unhash ino.

(** discard_new_inode drops the only reference: an inode without links is
    evicted. *)
Definition discard_new_inode (ino : Z) : M unit :=
  i ← inode ino;
  if vi_nlink (m_inode i) =? 0 then beamfs_evict_inode ino else mret tt.

(** ** A new inode *)

(** [inl] is an error, [inr] the number of the inode. *)
Definition beamfs_new_inode (dir mode : Z) : M (Z + Z) :=
  ino ← env_do alloc_ino;
  if ino =? 0 then mret (inl (- ENOSPC))
  else
    ok ← env_get new_inode;
    if negb ok then mret (inl (- ENOMEM))
    else
      p ← inode dir;
      owner ← env_get (fun s => init_owner s (m_inode p) mode);
      let '(mode', uid, gid) := owner in
      now ← env_get current_time;
      sch ← env_get scheme;
      let ops := if S_ISDIR mode then IopsDir
                 else if sch =? BEAMFS_DATA_PROTECTION_UNIVERSAL_INLINE then IopsInlineFile else IopsFile in
      let i := VInode mode' (if S_ISDIR mode then 2 else 1) uid gid 0 now now now 0 (zeros BEAMFS_DIRECT_BLOCKS) 0 0 0 in
      (* insert_inode_locked refuses a number that is in memory; the inode
         is then bad, and dropped *)
      busy ← cached ino;
      if (busy : bool) then mret (inl (- EIO))
      else
        hash ino (MInode i ops true);;
        mret (inr ino).

(** ** Names *)

(** The end of create and symlink on an error. *)
Definition out_iput (ino ret : Z) : M Z :=
  dec_link ino;; discard_new_inode ino;; mret ret.

Definition beamfs_create (dir : Z) (name : list Z) (mode : Z) : M Z :=
  r ← beamfs_new_inode dir (Z.lor mode MODE_REG);
  match r with
  | inl e => mret e
  | inr ino =>
    ret ← write_inode_raw ino;
    if negb (ret =? 0) then out_iput ino ret
    else
      ret ← add_dirent dir name ino DT_REG;
      if negb (ret =? 0) then out_iput ino ret
      else
        ret ← write_inode_raw dir;
        if negb (ret =? 0) then out_iput ino ret else mret 0
  end.

Definition mkdir_fail (dir ino ret : Z) : M Z :=
  dec_link ino;; dec_link ino;; discard_new_inode ino;; dec_link dir;; mret ret.

Definition beamfs_mkdir (dir : Z) (name : list Z) (mode : Z) : M Z :=
  inc_link dir;;
  r ← beamfs_new_inode dir (Z.lor mode MODE_DIR);
  match r with
  | inl e => dec_link dir;; mret e
  | inr ino =>
    ret ← add_dirent ino [dot] ino DT_DIR;
    if negb (ret =? 0) then mkdir_fail dir ino ret
    else
      ret ← add_dirent ino [dot; dot] dir DT_DIR;
      if negb (ret =? 0) then mkdir_fail dir ino ret
      else
        ret ← write_inode_raw ino;
        if negb (ret =? 0) then mkdir_fail dir ino ret
        else
          ret ← add_dirent dir name ino DT_DIR;
          if negb (ret =? 0) then mkdir_fail dir ino ret
          else
            ret ← write_inode_raw dir;
            if negb (ret =? 0) then mkdir_fail dir ino ret else mret 0
  end.

(** [ino] is the inode the dentry names. *)
Definition beamfs_unlink (dir : Z) (name : list Z) (ino : Z) : M Z :=
  ret ← del_dirent dir name;
  if negb (ret =? 0) then mret ret
  else
    set_ctime ino;;
    dec_link ino;;
    write_inode_raw dir;;
    mret 0.

Definition beamfs_rmdir (dir : Z) (name : list Z) (ino : Z) : M Z :=
  ret ← dir_is_empty ino;
  if negb (ret =? 0) then mret ret
  else
    ret ← del_dirent dir name;
    if negb (ret =? 0) then mret ret
    else
      dec_link ino;;
      dec_link ino;;
      dec_link dir;;
      write_inode_raw dir;;
      mret 0.

(** fs_umode_to_dtype *)
Definition umode_to_dtype (mode : Z) : Z := Z.shiftr (Z.land mode S_IFMT) 12.

Definition beamfs_link (ino dir : Z) (name : list Z) : M Z :=
  set_ctime ino;;
  inc_link ino;;
  i ← inode ino;
  ret ← add_dirent dir name ino (umode_to_dtype (vi_mode (m_inode i)));
  if negb (ret =? 0) then dec_link ino;; mret ret
  else
    w ← write_inode_raw ino;
    (if w =? 0 then write_inode_raw dir else mret w);;
    mret 0.

(** *** Symbolic links *)

(** i_direct as bytes, and back. *)
Definition direct_bytes (v : vinode) : list Z := concat (map (le_bytes 8) (vi_direct v)).
Definition direct_words (b : list Z) : list Z := map (fun k => get_le64 b (8 * k)) (upto BEAMFS_DIRECT_BLOCKS).
Definition sizeof_direct : Z := 8 * BEAMFS_DIRECT_BLOCKS.

Definition beamfs_symlink_store_block (ino : Z) (target : list Z) : M Z :=
  ok ← env_get scratch_get;
  if negb ok then mret (- ENOMEM)
  else
    let staging := splice (zeros BEAMFS_DATA_INLINE_BYTES) 0 target in
    phys ← env_do (fun s => balloc s ino);
    if phys =? 0 then mret (- ENOSPC)
    else
      got ← env_get (fun s => getblk s phys);
      if negb got then env_step (fun s => bfree s phys ino);; mret (- EIO)
      else
        (* an encode that fails is only logged *)
        let block := snd (build_data_block c t cpu (zeros BEAMFS_BLOCK_SIZE) staging ino 0) in
        env_step (fun s => bput s phys block);;
        ret ← env_get (fun s => sync_buffer s phys);
        if negb (ret =? 0) then env_step (fun s => bfree s phys ino);; mret ret
        else
          update ino (on_inode (fun v => vset_direct v (setb (vi_direct v) 0 phys)));;
          mret 0.

Definition beamfs_symlink (dir : Z) (name target : list Z) : M Z :=
  let len := zlen target in
  if (len =? 0) || (beamfs_block_payload c <? len) then mret (- ENAMETOOLONG)
  else
    r ← beamfs_new_inode dir (Z.lor MODE_LNK 511);
    match r with
    | inl e => mret e
    | inr ino =>
      update ino (on_inode (fun v => vset_direct v (zeros BEAMFS_DIRECT_BLOCKS)));;
      ret ← (if len <? sizeof_direct then
               update ino (on_inode (fun v => vset_direct v (direct_words (splice (direct_bytes v) 0 target))));;
               mret 0
             else beamfs_symlink_store_block ino target);
      if negb (ret =? 0) then out_iput ino ret
      else
        update ino (on_inode (fun v => vset_size v len));;
        update ino (mset_ops IopsSymlink);;
        ret ← write_inode_raw ino;
        if negb (ret =? 0) then out_iput ino ret
        else
          ret ← add_dirent dir name ino DT_LNK;
          if negb (ret =? 0) then out_iput ino ret
          else
            ret ← write_inode_raw dir;
            if negb (ret =? 0) then out_iput ino ret else mret 0
    end.

(** The bytes before the NUL. *)
Fixpoint cstring (b : list Z) : list Z :=
  match b with [] => [] | x :: b => if x =? 0 then [] else x :: cstring b end.

(** The target, or an error.  [rcu]: no dentry, the walk may not sleep;
    [kzalloc]: the buffer for a long target. *)
Definition beamfs_get_link (stk : stack_arrays) (rcu kzalloc : bool) (ino : Z) : M (Z + list Z) :=
  i ← inode ino;
  let v := m_inode i in
  let len := vi_size v in
  if len <? sizeof_direct then mret (inr (cstring (direct_bytes v)))
  else if rcu then mret (inl (- ECHILD))
  else if beamfs_block_payload c <? len then mret (inl (- EUCLEAN))
  else
    let phys := getb (vi_direct v) 0 in
    if phys =? 0 then mret (inl (- EUCLEAN))
    else if negb kzalloc then mret (inl (- ENOMEM))
    else
      b ← env_get (fun s => bread s phys);
      match b with
      | None => mret (inl (- EIO))
      | Some raw =>
        ok ← env_get scratch_get;
        let '(ret, out, calls) := beamfs_inline_decode_symlink c t cpu stk ok raw phys ino (u32 len) in
        env_step (fun s => report s calls);;
        if negb (ret =? 0) then mret (inl ret) else mret (inr (cstring (out ++ [0])))
      end.

(** *** Moving *)

Definition type_of (is_dir : bool) : Z := if is_dir then DT_DIR else DT_REG.

(** The name of an inode that was taken away goes back: [ret] is the error
    that made it necessary. *)
Definition rename_restore (new_dir : Z) (new_name : list Z) (new_inode : option Z) (ret : Z) : M Z :=
  match new_inode with
  | None => mret ret
  | Some n =>
    i ← inode n;
    let is_dir := S_ISDIR (vi_mode (m_inode i)) in
    back ← add_dirent new_dir new_name n (type_of is_dir);
    if negb (back =? 0) then mret ret
    else
      (if is_dir then inc_link n;; inc_link n;; inc_link new_dir else inc_link n);;
      mret ret
  end.

(** What the destination named goes first: an error code. *)
Definition rename_replace (is_dir : bool) (new_dir : Z) (new_name : list Z) (new_inode : option Z) : M Z :=
  match new_inode with
  | None => mret 0
  | Some n =>
    ret ← (if is_dir then dir_is_empty n else mret 0);
    if negb (ret =? 0) then mret ret
    else
      ret ← del_dirent new_dir new_name;
      if negb (ret =? 0) then mret ret
      else
        (if is_dir then dec_link n;; dec_link n;; dec_link new_dir else dec_link n);;
        set_ctime n;;
        mret 0
  end.

(** The parent of a directory that moved. *)
Definition rename_dotdot (old_dir old_inode new_dir : Z) : M Z :=
  ret ← del_dirent old_inode [dot; dot];
  if negb (ret =? 0) then mret ret
  else
    ret ← add_dirent old_inode [dot; dot] new_dir DT_DIR;
    if negb (ret =? 0) then mret ret
    else
      dec_link old_dir;;
      inc_link new_dir;;
      write_inode_raw old_inode.

(** The inodes a move touched are stamped and written. *)
Definition rename_finish (old_dir old_inode new_dir : Z) (new_inode : option Z) : M Z :=
  set_ctime old_inode;;
  set_mtime old_dir;; set_ctime old_dir;;
  set_mtime new_dir;; set_ctime new_dir;;
  ret ← write_inode_raw old_inode;
  if negb (ret =? 0) then mret ret
  else
    ret ← write_inode_raw old_dir;
    if negb (ret =? 0) then mret ret
    else
      ret ← (if negb (old_dir =? new_dir) then write_inode_raw new_dir else mret 0);
      if negb (ret =? 0) then mret ret
      else
        match new_inode with
        | None => mret 0
        | Some n => write_inode_raw n;; mret 0
        end.

(** [old_inode] and [new_inode] are the inodes of the two dentries; two
    directories are the same when their numbers are. *)
Definition beamfs_rename (old_dir : Z) (old_name : list Z) (old_inode : Z) (new_dir : Z) (new_name : list Z)
    (new_inode : option Z) (flags : Z) : M Z :=
  i ← inode old_inode;
  let is_dir := S_ISDIR (vi_mode (m_inode i)) in
  if negb (Z.land flags (Z.lnot RENAME_NOREPLACE) =? 0) then mret (- EINVAL)
  else if negb (Z.land flags RENAME_NOREPLACE =? 0) && (match new_inode with Some _ => true | None => false end) then mret (- EEXIST)
  else
    ret ← rename_replace is_dir new_dir new_name new_inode;
    if negb (ret =? 0) then mret ret
    else
      ret ← add_dirent new_dir new_name old_inode (type_of is_dir);
      if negb (ret =? 0) then rename_restore new_dir new_name new_inode ret
      else
        ret ← del_dirent old_dir old_name;
        if negb (ret =? 0) then
          del_dirent new_dir new_name;;
          mret ret
        else
          ret ← (if is_dir && negb (old_dir =? new_dir) then rename_dotdot old_dir old_inode new_dir else mret 0);
          if negb (ret =? 0) then mret ret else rename_finish old_dir old_inode new_dir new_inode.
End namei.
