(* ===== verification/Names.v ===== *)
(** * The tree of names

    What the name operations mean, without blocks or records: directories,
    a map from (directory, name) to inode numbers, and the mode and link
    count of each inode.  A tree is sound when every directory has its dots,
    every directory but the root is named once, by its parent, and every
    link count is the number of names. *)

From stdpp Require Import gmap.
From S2P Require Import Prelude Format Dirent DirOps Inode Namei.

Record names := Names {
  n_dirs : gset Z;
  n_map : gmap (Z * list Z) Z;
  n_meta : gmap Z (Z * Z) }.          (** mode and link count *)

Definition dots (name : list Z) : Prop := name = [dot] \/ name = [dot; dot].

#[export] Instance dots_dec name : Decision (dots name).
Proof. unfold dots. apply _. Defined.

Lemma dots_dot : dots [dot].
Proof. by left. Qed.
Lemma dots_dotdot : dots [dot; dot].
Proof. by right. Qed.
Create HintDb names discriminated.
#[export] Hint Resolve dots_dot dots_dotdot : names.

(** The names of inode [i]. *)
Definition links (ns : gmap (Z * list Z) Z) (i : Z) : Z := Z.of_nat (size (filter (fun kv => snd kv = i) ns)).

(** ** Steps *)

Definition bind (d : Z) (name : list Z) (i : Z) (A : names) : names := Names (n_dirs A) (<[(d, name) := i]> (n_map A)) (n_meta A).
Definition unbind (d : Z) (name : list Z) (A : names) : names := Names (n_dirs A) (delete (d, name) (n_map A)) (n_meta A).
Definition relink (i k : Z) (A : names) : names :=
  Names (n_dirs A) (n_map A) (alter (fun '(mode, n) => (mode, u32 (n + k))) i (n_meta A)).
Definition enter (i mode n : Z) (A : names) : names := Names (n_dirs A) (n_map A) (<[i := (mode, n)]> (n_meta A)).
Definition open_dir (i : Z) (A : names) : names := Names ({[i]} ∪ n_dirs A) (n_map A) (n_meta A).
Definition close_dir (i : Z) (A : names) : names :=
  Names (n_dirs A ∖ {[i]}) (delete (i, [dot; dot]) (delete (i, [dot]) (n_map A))) (n_meta A).

(** A directory with nothing but its dots. *)
Definition bare (A : names) (i : Z) : Prop := forall name j, n_map A !! (i, name) = Some j -> dots name.

(** ** Soundness *)

Definition is_directory (A : names) (i : Z) : Prop := exists mode n, n_meta A !! i = Some (mode, n) /\ S_ISDIR mode = true.

(** The shape of the tree: [D] are the directories and [K] the inodes there
    are. *)
Record tree_ok (root : Z) (dirs : gset Z) (ns : gmap (Z * list Z) Z) (D K : Z -> Prop) : Prop := {
  tk_root : root ∈ dirs /\ ns !! (root, [dot; dot]) = Some root;
  tk_named d name i : ns !! (d, name) = Some i -> d ∈ dirs /\ K i;
  tk_open d : d ∈ dirs -> D d /\ K d;
  tk_dir d name i : ns !! (d, name) = Some i -> D i -> i ∈ dirs;
  tk_dot d : d ∈ dirs -> ns !! (d, [dot]) = Some d;
  tk_parent d : d ∈ dirs -> d <> root ->
    exists p name, ns !! (d, [dot; dot]) = Some p /\ ~ dots name /\ ns !! (p, name) = Some d;
  tk_child d name i : ns !! (d, name) = Some i -> ~ dots name -> i ∈ dirs -> i <> root /\ ns !! (i, [dot; dot]) = Some d;
  tk_once d n1 n2 i : i ∈ dirs -> ns !! (d, n1) = Some i -> ns !! (d, n2) = Some i -> ~ dots n1 -> ~ dots n2 -> n1 = n2 }.

Definition counted (ns : gmap (Z * list Z) Z) (meta : gmap Z (Z * Z)) : Prop :=
  forall i mode n, meta !! i = Some (mode, n) -> n = u32 (links ns i).

Definition known (A : names) (i : Z) : Prop := is_Some (n_meta A !! i).

(** [N] inodes, of which [root] is the root. *)
Record names_ok (N root : Z) (A : names) : Prop := {
  nk_tree : tree_ok root (n_dirs A) (n_map A) (is_directory A) (known A);
  nk_links : counted (n_map A) (n_meta A);
  nk_range i : known A i -> 0 < i <= N }.

(** ** Counting *)

Lemma links_insert ns k v i : ns !! k = None -> links (<[k := v]> ns) i = links ns i + (if decide (v = i) then 1 else 0).
Proof.
  intros H. unfold links. rewrite map_filter_insert. cbn [snd]. case_decide as E.
  - rewrite map_size_insert_None; [lia|]. apply map_lookup_filter_None. by left.
  - rewrite delete_id by done. lia.
Qed.

Lemma links_delete ns k v i : ns !! k = Some v -> links (delete k ns) i = links ns i - (if decide (v = i) then 1 else 0).
Proof.
  intros H. rewrite <- (insert_delete_id ns k v H) at 2. rewrite links_insert by apply lookup_delete_eq. lia.
Qed.

Lemma links_none ns i : (forall k, ns !! k <> Some i) -> links ns i = 0.
Proof.
  intros H. unfold links. assert (E : filter (fun kv => snd kv = i) ns = ∅).
  { apply map_empty. intros k. apply map_lookup_filter_None. right. intros x Hx Ei. cbn in Ei. subst. by apply (H k). }
  by rewrite E.
Qed.

(** A change of the names that moves [i]'s count by [k], against the link count. *)
Lemma relink_links (meta : gmap Z (Z * Z)) (ns ns' : gmap (Z * list Z) Z) j k :
  counted ns meta -> (forall i, links ns' i = links ns i + (if decide (i = j) then k else 0)) ->
  counted ns' (alter (fun '(mode, n) => (mode, u32 (n + k))) j meta).
Proof.
  intros H E i mode n. rewrite E. destruct (decide (i = j)) as [->|Hne].
  - rewrite lookup_alter_eq. destruct (meta !! j) as [[m0 n0]|] eqn:Ej; cbn; [|done]. intros [= <- <-]. rewrite (H j m0 n0 Ej). apply u32_add_l.
  - rewrite lookup_alter_ne by done. intros Hi. rewrite (H i mode n Hi). f_equal. lia.
Qed.

(** ** What keeps a tree sound *)

(** Case analysis on the lookups of an updated map, and its keys. *)
Ltac nmap :=
  repeat match goal with
  | H : <[_ := _]> _ !! _ = Some _ |- _ => apply lookup_insert_Some in H as [[? ?]|[? ?]]
  | H : delete _ _ !! _ = Some _ |- _ => apply lookup_delete_Some in H as [? ?]
  end; simplify_eq.
Ltac nkey := intros ?; simplify_eq; solve [congruence | auto with names | exfalso; auto with names].
Ltac nlook := repeat first [rewrite lookup_insert_ne by nkey | rewrite lookup_delete_ne by nkey]; try done.

Lemma tree_ok_ext root dirs ns (D K D' K' : Z -> Prop) :
  (forall j, D' j <-> D j) -> (forall j, K' j <-> K j) -> tree_ok root dirs ns D K -> tree_ok root dirs ns D' K'.
Proof.
  intros HD HK [T1 T2 T3 T4 T5 T6 T7 T8]. split; try done.
  - intros d n i H. rewrite HK. by eapply T2.
  - intros d H. rewrite HD, HK. by apply T3.
  - intros d n i H. rewrite HD. by eapply T4.
Qed.

(** A name that is not the dots, of something that is not a directory. *)
Lemma tree_bind root dirs ns D K d name i :
  tree_ok root dirs ns D K -> d ∈ dirs -> ~ dots name -> ns !! (d, name) = None -> K i -> ~ D i ->
  tree_ok root dirs (<[(d, name) := i]> ns) D K.
Proof.
  intros [T1 T2 T3 T4 T5 T6 T7 T8] Hd Hn Hf Hi Hnd. assert (Ni : i ∉ dirs) by (intros H; by apply Hnd, T3). split.
  - split; [apply T1|]. nlook. apply T1.
  - intros d0 n0 i0 H. nmap; [done|by eapply T2].
  - done.
  - intros d0 n0 i0 H H0. nmap; [done|by eapply T4].
  - intros d0 H. nlook. by apply T5.
  - intros d0 H H0. destruct (T6 d0 H H0) as (p & n0 & P1 & P2 & P3). exists p, n0. split_and!; nlook.
  - intros d0 n0 i0 H H0 H1. nmap; [done|]. destruct (T7 d0 n0 i0) as [C1 C2]; [done..|]. split; [done|]. nlook.
  - intros d0 n1 n2 i0 H H1 H2 H3 H4. nmap; try done. by apply (T8 d0 n1 n2 i0).
Qed.

(** Such a name taken away. *)
Lemma tree_unbind root dirs ns D K d name i :
  tree_ok root dirs ns D K -> ~ dots name -> ns !! (d, name) = Some i -> ~ D i -> tree_ok root dirs (delete (d, name) ns) D K.
Proof.
  intros [T1 T2 T3 T4 T5 T6 T7 T8] Hn Hf Hnd. assert (Ni : i ∉ dirs) by (intros H; by apply Hnd, T3). split.
  - split; [apply T1|]. nlook. apply T1.
  - intros d0 n0 i0 H. nmap. by eapply T2.
  - done.
  - intros d0 n0 i0 H H0. nmap. by eapply T4.
  - intros d0 H. nlook. by apply T5.
  - intros d0 H H0. destruct (T6 d0 H H0) as (p & n0 & P1 & P2 & P3). exists p, n0. split_and!; nlook.
  - intros d0 n0 i0 H H0 H1. nmap. destruct (T7 d0 n0 i0) as [C1 C2]; [done..|]. split; [done|]. nlook.
  - intros d0 n1 n2 i0 H H1 H2 H3 H4. nmap. by apply (T8 d0 n1 n2 i0).
Qed.

(** A new directory with its dots, under a name of [d]. *)
Lemma tree_mkdir root dirs ns (D K : Z -> Prop) d name i :
  tree_ok root dirs ns D K -> d ∈ dirs -> ~ dots name -> ns !! (d, name) = None -> ~ K i ->
  tree_ok root ({[i]} ∪ dirs) (<[(d, name) := i]> (<[(i, [dot; dot]) := d]> (<[(i, [dot]) := i]> ns)))
    (fun j => j = i \/ D j) (fun j => j = i \/ K j).
Proof.
  intros [T1 T2 T3 T4 T5 T6 T7 T8] Hd Hn Hf Hi. assert (Ni : i ∉ dirs) by (intros H; by apply Hi, T3).
  assert (Nk : forall n, ns !! (i, n) = None) by (intros n; destruct (ns !! (i, n)) eqn:E; [by apply T2 in E as [? _]|done]).
  assert (Nv : forall k, ns !! k <> Some i) by (intros [d0 n0] E; by apply T2 in E as [_ ?]).
  assert (Hr : root <> i) by (intros ->; by apply Ni, T1). assert (Hdi : d <> i) by (by intros ->). split.
  - split; [set_solver|]. nlook. apply T1.
  - intros d0 n0 i0 H. nmap; [set_solver|split; [set_solver|right; by apply T3]|set_solver|]. destruct (T2 _ _ _ H2). set_solver.
  - intros d0 [->%elem_of_singleton|H]%elem_of_union; [by split; left|]. destruct (T3 d0 H). by split; right.
  - intros d0 n0 i0 H [->|H0]; [set_solver|]. nmap; [set_solver..|]. apply elem_of_union. right. by eapply T4.
  - intros d0 [->%elem_of_singleton|H]%elem_of_union.
    + nlook. apply lookup_insert_eq.
    + assert (d0 <> i) by (by intros ->). nlook. by apply T5.
  - intros d0 [->%elem_of_singleton|H]%elem_of_union H0.
    + exists d, name. split_and!; [|done|apply lookup_insert_eq]. nlook. apply lookup_insert_eq.
    + assert (d0 <> i) by (by intros ->). destruct (T6 d0 H H0) as (p & n0 & P1 & P2 & P3). exists p, n0. split_and!; nlook.
  - intros d0 n0 i0 H H0 H1. nmap; [|by destruct H0; auto with names..|].
    + split; [done|]. nlook. apply lookup_insert_eq.
    + apply elem_of_union in H1 as [->%elem_of_singleton|H1]; [by apply Nv in H4|]. assert (i0 <> i) by (by intros ->).
      destruct (T7 d0 n0 i0) as [C1 C2]; [done..|]. split; [done|]. nlook.
  - intros d0 n1 n2 i0 H H1 H2 H3 H4. apply elem_of_union in H as [->%elem_of_singleton|H].
    + nmap; try done; try (by exfalso; auto with names); try (by exfalso; eapply Nv).
    + nmap; try done; try (by exfalso; auto with names). by apply (T8 d0 n1 n2 i0).
Qed.

(** A bare directory taken away. *)
Lemma tree_rmdir root dirs ns (D K : Z -> Prop) d name i :
  tree_ok root dirs ns D K -> ~ dots name -> ns !! (d, name) = Some i -> i ∈ dirs ->
  (forall n j, ns !! (i, n) = Some j -> dots n) ->
  tree_ok root (dirs ∖ {[i]}) (delete (i, [dot; dot]) (delete (i, [dot]) (delete (d, name) ns))) D K.
Proof.
  intros [T1 T2 T3 T4 T5 T6 T7 T8] Hn Hf Hi Hb. destruct (T7 d name i Hf Hn Hi) as [Hr Hp].
  assert (Hdi : d <> i) by (intros ->; by apply Hn, (Hb name i)).
  assert (Nk : forall n j, delete (i, [dot; dot]) (delete (i, [dot]) (delete (d, name) ns)) !! (i, n) <> Some j).
  { intros n j H. nmap. by destruct (Hb n j H2) as [->| ->]. }
  assert (Nv : forall k, delete (i, [dot; dot]) (delete (i, [dot]) (delete (d, name) ns)) !! k <> Some i).
  { intros [d0 n0] H. nmap. destruct (decide (dots n0)) as [Hn0|Hn0].
    - destruct (T2 _ _ _ H2) as [Hd0 _]. destruct Hn0 as [->| ->]; [rewrite (T5 d0 Hd0) in H2; congruence|].
      destruct (decide (d0 = root)) as [->|Hd0r]; [destruct T1; congruence|].
      destruct (T6 d0 Hd0 Hd0r) as (p & n & P1 & P2 & P3). rewrite H2 in P1. injection P1 as <-. by apply P2, (Hb n d0).
    - destruct (T7 d0 n0 i H2 Hn0 Hi) as [_ H3]. rewrite Hp in H3. injection H3 as ->. apply H1. f_equal. by apply (T8 d0 name n0 i). }
  split.
  - split; [set_solver|]. nlook. apply T1.
  - intros d0 n0 i0 H. pose proof (Nk n0 i0). nmap. destruct (T2 _ _ _ H3). split; [|done].
    apply elem_of_difference. split; [done|]. intros ->%elem_of_singleton. by destruct (Hb n0 i0 H3) as [->| ->].
  - intros d0 H. apply T3. set_solver.
  - intros d0 n0 i0 H H0. apply elem_of_difference. split; [nmap; by eapply T4|]. intros ->%elem_of_singleton. by apply (Nv (d0, n0)).
  - intros d0 [H H0]%elem_of_difference. rewrite elem_of_singleton in H0. nlook. by apply T5.
  - intros d0 [H H0]%elem_of_difference H1. rewrite elem_of_singleton in H0. destruct (T6 d0 H H1) as (p & n0 & P1 & P2 & P3).
    assert (p <> i) by (intros ->; by apply P2, (Hb n0 d0)). exists p, n0. split_and!; nlook.
  - intros d0 n0 i0 H H0 [H1 H2]%elem_of_difference. rewrite elem_of_singleton in H2. nmap. destruct (T7 d0 n0 i0) as [C1 C2]; [done..|].
    split; [done|]. nlook.
  - intros d0 n1 n2 i0 [H _]%elem_of_difference H1 H2 H3 H4. nmap. by apply (T8 d0 n1 n2 i0).
Qed.

(** A directory that moves, with its parent. *)
Lemma tree_move root dirs ns (D K : Z -> Prop) od on i nd nn :
  tree_ok root dirs ns D K -> i ∈ dirs -> ~ dots on -> ~ dots nn -> ns !! (od, on) = Some i -> nd ∈ dirs -> ns !! (nd, nn) = None ->
  tree_ok root dirs (<[(i, [dot; dot]) := nd]> (delete (od, on) (<[(nd, nn) := i]> ns))) D K.
Proof.
  intros [T1 T2 T3 T4 T5 T6 T7 T8] Hi Ho Hn Hf Hnd Hfree. destruct (T7 od on i Hf Ho Hi) as [Hr Hp].
  assert (Nv : forall d0 n0, ns !! (d0, n0) = Some i -> ~ dots n0 -> (d0, n0) = (od, on)).
  { intros d0 n0 H H0. destruct (T7 d0 n0 i H H0 Hi) as [_ H1]. rewrite Hp in H1. injection H1 as ->. f_equal. by apply (T8 d0 n0 on i). }
  split.
  - split; [apply T1|]. nlook. apply T1.
  - intros d0 n0 i0 H. nmap; [split; [done|by apply T3]|split; [done|by apply T3]|by eapply T2].
  - done.
  - intros d0 n0 i0 H H0. nmap; [done|done|by eapply T4].
  - intros d0 H. nlook. by apply T5.
  - intros d0 H H0. destruct (decide (d0 = i)) as [->|Hne].
    + exists nd, nn. split_and!; [apply lookup_insert_eq|done|]. nlook. apply lookup_insert_eq.
    + destruct (T6 d0 H H0) as (p & n0 & P1 & P2 & P3). exists p, n0. split_and!; nlook.
  - intros d0 n0 i0 H H0 H1. nmap; [by destruct H0; auto with names| |].
    + split; [done|]. apply lookup_insert_eq.
    + assert (i0 <> i) by (intros ->; by apply H2; symmetry; apply Nv). destruct (T7 d0 n0 i0) as [C1 C2]; [done..|].
      split; [done|]. nlook.
  - intros d0 n1 n2 i0 H H1 H2 H3 H4. nmap; try done; try (by exfalso; auto with names).
    + exfalso. match goal with H : ns !! (_, n1) = Some _ |- _ => specialize (Nv _ _ H H3) end. congruence.
    + exfalso. match goal with H : ns !! (_, n2) = Some _ |- _ => specialize (Nv _ _ H H4) end. congruence.
    + by apply (T8 d0 n1 n2 i0).
Qed.

(** ** Operations *)

Inductive nop :=
  | NCreate (dir : Z) (name : list Z) (mode : Z)
  | NSymlink (dir : Z) (name target : list Z)
  | NMkdir (dir : Z) (name : list Z) (mode : Z)
  | NUnlink (dir : Z) (name : list Z) (ino : Z)
  | NRmdir (dir : Z) (name : list Z) (ino : Z)
  | NLink (ino dir : Z) (name : list Z)
  | NRename (old_dir : Z) (old_name : list Z) (old_ino new_dir : Z) (new_name : list Z) (new_ino : option Z) (flags : Z).

(** A name that can be given in directory [d]. *)
Definition free_name (A : names) (d : Z) (name : list Z) : Prop :=
  d ∈ n_dirs A /\ name_ok name /\ ~ dots name /\ n_map A !! (d, name) = None.
(** A name, not the dots, of inode [i]. *)
Definition bound (A : names) (d : Z) (name : list Z) (i : Z) : Prop := ~ dots name /\ n_map A !! (d, name) = Some i.

(** When the VFS calls them: it has looked the names up, holds the
    directories, and lets nothing but a directory replace a directory or
    be removed as one. *)
Definition nop_ok (A : names) (op : nop) : Prop :=
  match op with
  | NCreate d name mode => free_name A d name /\ S_ISDIR (Z.lor mode MODE_REG) = false
  | NSymlink d name target => free_name A d name /\ bytes target
  | NMkdir d name mode => free_name A d name /\ S_ISDIR (Z.lor mode MODE_DIR) = true
  | NUnlink d name i => bound A d name i /\ ~ is_directory A i
  | NRmdir d name i => bound A d name i /\ is_directory A i
  | NLink i d name => free_name A d name /\ known A i /\ ~ is_directory A i
  | NRename od on i nd nn tgt _ =>
      bound A od on i /\ nd ∈ n_dirs A /\ nd <> i /\ name_ok nn /\ ~ dots nn /\ n_map A !! (nd, nn) = tgt /\ tgt <> Some i /\
      match tgt with None => True | Some n => is_directory A i <-> is_directory A n end
  end.

(** The bare directory [i], or the other inode [i], loses its name. *)
Definition drop_dir (d : Z) (name : list Z) (i : Z) (A : names) : names := relink d (-1) (relink i (-2) (close_dir i (unbind d name A))).
Definition drop_name (d : Z) (name : list Z) (i : Z) (A : names) : names := relink i (-1) (unbind d name A).

(** The new name, then the old one; a directory gets its new parent. *)
Definition move (od : Z) (on : list Z) (i nd : Z) (nn : list Z) (A : names) : names := unbind od on (bind nd nn i A).
Definition reparent (i od nd : Z) (A : names) : names := relink nd 1 (relink od (-1) (bind i [dot; dot] nd A)).

(** What an operation may answer, and the tree after. *)
Inductive nspec (N : Z) (A : names) : nop -> Z -> names -> Prop :=
  | ns_create_fail d name mode rc : rc <> 0 -> nspec N A (NCreate d name mode) rc A
  | ns_symlink_fail d name target rc : rc <> 0 -> nspec N A (NSymlink d name target) rc A
  | ns_mkdir_fail d name mode rc : rc <> 0 -> nspec N A (NMkdir d name mode) rc A
  | ns_link_fail i d name rc : rc <> 0 -> nspec N A (NLink i d name) rc A
  | ns_create d name mode i mode' : ~ known A i -> 0 < i <= N -> S_ISDIR mode' = false ->
      nspec N A (NCreate d name mode) 0 (bind d name i (enter i mode' 1 A))
  | ns_symlink d name target i mode' : ~ known A i -> 0 < i <= N -> S_ISDIR mode' = false ->
      nspec N A (NSymlink d name target) 0 (bind d name i (enter i mode' 1 A))
  | ns_mkdir d name mode i mode' : ~ known A i -> 0 < i <= N -> S_ISDIR mode' = true ->
      nspec N A (NMkdir d name mode) 0
        (relink d 1 (bind d name i (bind i [dot; dot] d (bind i [dot] i (open_dir i (enter i mode' 2 A))))))
  | ns_unlink d name i : nspec N A (NUnlink d name i) 0 (drop_name d name i A)
  | ns_rmdir d name i : bare A i -> nspec N A (NRmdir d name i) 0 (drop_dir d name i A)
  | ns_rmdir_busy d name i : ~ bare A i -> nspec N A (NRmdir d name i) (- ENOTEMPTY) A
  | ns_link i d name : nspec N A (NLink i d name) 0 (relink i 1 (bind d name i A))
  | ns_rename_flags od on i nd nn tgt flags : Z.land flags (Z.lnot RENAME_NOREPLACE) <> 0 ->
      nspec N A (NRename od on i nd nn tgt flags) (- EINVAL) A
  | ns_rename_exists od on i nd nn n flags : Z.land flags RENAME_NOREPLACE <> 0 ->
      nspec N A (NRename od on i nd nn (Some n) flags) (- EEXIST) A
  | ns_rename_busy od on i nd nn n flags : i ∈ n_dirs A -> ~ bare A n -> nspec N A (NRename od on i nd nn (Some n) flags) (- ENOTEMPTY) A
  | ns_rename_full od on i nd nn flags rc : rc <> 0 -> nspec N A (NRename od on i nd nn None flags) rc A
  | ns_rename od on i nd nn tgt flags :
      let dir := bool_decide (i ∈ n_dirs A) in
      (forall n, tgt = Some n -> dir = true -> bare A n) ->
      let A1 := match tgt with
                | None => A
                | Some n => if dir then drop_dir nd nn n A else drop_name nd nn n A
                end in
      let A2 := move od on i nd nn A1 in
      nspec N A (NRename od on i nd nn tgt flags) 0 (if dir && negb (od =? nd) then reparent i od nd A2 else A2).

Lemma meta_relink i k A j : n_meta (relink i k A) !! j = (fun '(m, n) => (m, if decide (j = i) then u32 (n + k) else n)) <$> n_meta A !! j.
Proof.
  cbn [n_meta relink]. destruct (decide (j = i)) as [->|Hne]; [by rewrite lookup_alter_eq|]. rewrite lookup_alter_ne by done.
  by destruct (n_meta A !! j) as [[m n]|].
Qed.

Lemma known_relink i k A j : known (relink i k A) j <-> known A j.
Proof. unfold known. rewrite meta_relink, fmap_is_Some. done. Qed.

Lemma dir_relink i k A j : is_directory (relink i k A) j <-> is_directory A j.
Proof.
  unfold is_directory. rewrite meta_relink. destruct (n_meta A !! j) as [[m n]|]; cbn; [|by split; intros (? & ? & ? & _)].
  split; intros (m' & n' & [= <- <-] & H); by do 2 eexists.
Qed.

Lemma known_enter i mode n A j : known (enter i mode n A) j <-> j = i \/ known A j.
Proof.
  unfold known. cbn [n_meta enter]. destruct (decide (j = i)) as [->|Hne]; [rewrite lookup_insert_eq; split; [by left|by eexists]|].
  rewrite lookup_insert_ne by done. split; [by right|by intros [?|?]].
Qed.

Lemma dir_enter i mode n A j : ~ known A i -> is_directory (enter i mode n A) j <-> j = i /\ S_ISDIR mode = true \/ is_directory A j.
Proof.
  intros Hi. unfold is_directory. cbn [n_meta enter]. destruct (decide (j = i)) as [->|Hne].
  - rewrite lookup_insert_eq. split; [intros (m & k & [= <- <-] & H); by left|]. intros [[_ H]|(m & k & E & _)]; [by do 2 eexists|].
    destruct Hi. by eexists.
  - rewrite lookup_insert_ne by done. split; [by right|]. intros [[? _]|H]; [done|exact H].
Qed.

Lemma counted_enter ns meta i mode n : counted ns meta -> n = u32 (links ns i) -> counted ns (<[i := (mode, n)]> meta).
Proof. intros H E j m k Hj. apply lookup_insert_Some in Hj as [[<- [= <- <-]]|[_ Hj]]; [done|by eapply H]. Qed.

(** The inodes that are not named have no names. *)
Lemma links_unknown N root A i : names_ok N root A -> ~ known A i -> links (n_map A) i = 0.
Proof. intros [T _ _] Hi. apply links_none. intros [d n] E. by apply (tk_named _ _ _ _ _ T) in E as [_ ?]. Qed.

(** The link count of [j] after some relinks, against its names. *)
Lemma counted_relink A ns i k : (forall j m n, n_meta A !! j = Some (m, n) -> n = u32 (links ns j + (if decide (j = i) then - k else 0))) ->
  counted ns (n_meta (relink i k A)).
Proof.
  intros H j m n. rewrite meta_relink. destruct (n_meta A !! j) as [[m0 n0]|] eqn:E; cbn; [|done]. intros [= <- <-].
  rewrite (H j m0 n0 E). case_decide; [rewrite u32_add_l|]; f_equal; lia.
Qed.

Lemma relink_off A i k (f : Z -> Z) : (forall j m n, n_meta A !! j = Some (m, n) -> n = u32 (f j - (if decide (j = i) then k else 0))) ->
  forall j m n, n_meta (relink i k A) !! j = Some (m, n) -> n = u32 (f j).
Proof.
  intros H j m n. rewrite meta_relink. destruct (n_meta A !! j) as [[m0 n0]|] eqn:E; cbn; [|done]. intros [= <- <-].
  rewrite (H j m0 n0 E). case_decide; [rewrite u32_add_l|]; f_equal; lia.
Qed.

Section sound.
Context (N root : Z).

Lemma names_enter d name i mode A : names_ok N root A -> d ∈ n_dirs A -> ~ dots name -> n_map A !! (d, name) = None ->
  ~ known A i -> 0 < i <= N -> S_ISDIR mode = false -> names_ok N root (bind d name i (enter i mode 1 A)).
Proof.
  intros Ok Hd Hn Hf Hi Hr Hm. pose proof (links_unknown N root A i Ok Hi) as Hl. destruct Ok as [T L R]. split.
  - apply tree_bind; [|done|done|done|apply known_enter; by left|].
    + destruct T as [T1 T2 T3 T4 T5 T6 T7 T8]. split; try done.
      * intros d0 n0 i0 H. destruct (T2 d0 n0 i0 H). split; [done|]. apply known_enter. by right.
      * intros d0 H. destruct (T3 d0 H). split; [by apply dir_enter; [|right]|apply known_enter; by right].
      * intros d0 n0 i0 H [[-> ?]|H0]%dir_enter; [congruence|by eapply T4|done].
    + intros [[_ ?]|(m & n & E & _)]%(dir_enter i mode 1 A i Hi); [congruence|]. apply Hi. by eexists.
  - cbn [n_map n_meta bind enter]. intros j m n Hj. rewrite links_insert by done.
    apply lookup_insert_Some in Hj as [[<- [= <- <-]]|[Hne Hj]].
    + rewrite Hl, decide_True by done. done.
    + rewrite decide_False, Z.add_0_r by done. by eapply L.
  - intros j Hj. cbn [n_meta bind] in Hj. apply (known_enter i mode 1 A j) in Hj as [->|Hj]; [done|by apply R].
Qed.

Lemma names_link d name i A : names_ok N root A -> d ∈ n_dirs A -> ~ dots name -> n_map A !! (d, name) = None ->
  known A i -> ~ is_directory A i -> names_ok N root (relink i 1 (bind d name i A)).
Proof.
  intros [T L R] Hd Hn Hf Hi Hm. split.
  - cbn [n_dirs n_map relink bind]. eapply tree_ok_ext; [apply (dir_relink i 1)|apply (known_relink i 1)|].
    by apply (tree_bind root (n_dirs A) (n_map A) (is_directory A)).
  - apply counted_relink. cbn [n_map relink bind]. intros j m n Hj. rewrite links_insert, (L j m n Hj) by done.
    f_equal. repeat case_decide; subst; lia || done.
  - intros j Hj%known_relink. by apply R.
Qed.

Lemma names_drop_name d name i A : names_ok N root A -> bound A d name i -> ~ is_directory A i -> names_ok N root (drop_name d name i A).
Proof.
  intros [T L R] [Hn Hf] Hm. split.
  - cbn [n_dirs n_map drop_name relink unbind]. eapply tree_ok_ext; [apply (dir_relink i (-1))|apply (known_relink i (-1))|].
    by apply (tree_unbind root (n_dirs A) (n_map A) (is_directory A) _ _ _ i).
  - apply counted_relink. cbn [n_map drop_name relink unbind]. intros j m n Hj. rewrite (links_delete _ _ i), (L j m n Hj) by done.
    f_equal. repeat case_decide; subst; lia || done.
  - intros j Hj%known_relink. by apply R.
Qed.

Lemma names_drop_dir d name i A : names_ok N root A -> bound A d name i -> is_directory A i -> bare A i -> names_ok N root (drop_dir d name i A).
Proof.
  intros [T L R] [Hn Hf] Hm Hb. pose proof (tk_dir _ _ _ _ _ T _ _ _ Hf Hm) as Hi.
  destruct (tk_child _ _ _ _ _ T _ _ _ Hf Hn Hi) as [Hr Hp]. pose proof (tk_dot _ _ _ _ _ T i Hi) as Hdot.
  assert (Hdi : d <> i) by (intros ->; by apply Hn, (Hb name i)). split.
  - cbn [n_dirs n_map drop_dir relink unbind close_dir].
    apply (tree_ok_ext root _ _ (is_directory A) (known A)); [intros; unfold drop_dir; rewrite !dir_relink; done|intros; unfold drop_dir; rewrite !known_relink; done|].
    by apply (tree_rmdir root (n_dirs A) (n_map A) (is_directory A) (known A) d name i).
  - unfold counted. apply relink_off, relink_off. cbn [n_map drop_dir relink unbind close_dir n_meta]. intros j m n Hj.
    rewrite (links_delete _ _ d), (links_delete _ _ i), (links_delete _ _ i), (L j m n Hj); [|done|nlook|nlook].
    f_equal. repeat case_decide; subst; lia || done.
  - intros j Hj%known_relink%known_relink. by apply R.
Qed.

Lemma names_mkdir d name i mode A : names_ok N root A -> d ∈ n_dirs A -> ~ dots name -> n_map A !! (d, name) = None ->
  ~ known A i -> 0 < i <= N -> S_ISDIR mode = true ->
  names_ok N root (relink d 1 (bind d name i (bind i [dot; dot] d (bind i [dot] i (open_dir i (enter i mode 2 A)))))).
Proof.
  intros Ok Hd Hn Hf Hi Hr Hm. pose proof (links_unknown N root A i Ok Hi) as Hl. destruct Ok as [T L R].
  assert (Hdi : d <> i) by (intros ->; by apply Hi, (tk_open _ _ _ _ _ T)).
  assert (Nk : forall n, n_map A !! (i, n) = None).
  { intros n. destruct (n_map A !! (i, n)) eqn:E; [|done]. apply (tk_named _ _ _ _ _ T) in E as [E _]. by apply (tk_open _ _ _ _ _ T) in E as [_ ?]. }
  split.
  - cbn [n_dirs n_map relink bind open_dir enter].
    eapply tree_ok_ext; [..|by apply (tree_mkdir root (n_dirs A) (n_map A) (is_directory A) (known A) d name i)].
    + intros j. rewrite dir_relink. rewrite (dir_enter i mode 2 A j Hi). naive_solver.
    + intros j. rewrite known_relink. apply (known_enter i mode 2 A).
  - unfold counted. apply relink_off. cbn [n_map relink bind open_dir enter n_meta]. intros j m n Hj.
    rewrite !links_insert by (nlook; apply Nk).
    apply lookup_insert_Some in Hj as [[<- [= <- <-]]|[Hne Hj]].
    + rewrite Hl. repeat case_decide; subst; done.
    + rewrite (L j m n Hj). f_equal. repeat case_decide; subst; lia || done.
  - intros j Hj%known_relink. apply (known_enter i mode 2 A j) in Hj as [->|Hj]; [done|by apply R].
Qed.

Lemma names_move od on i nd nn A : names_ok N root A -> bound A od on i -> ~ is_directory A i ->
  nd ∈ n_dirs A -> ~ dots nn -> n_map A !! (nd, nn) = None -> names_ok N root (move od on i nd nn A).
Proof.
  intros [T L R] [Ho Hf] Hm Hd Hn Hfree. pose proof (tk_named _ _ _ _ _ T _ _ _ Hf) as [_ Hi].
  assert (Hk : <[(nd, nn) := i]> (n_map A) !! (od, on) = Some i) by (rewrite lookup_insert_ne; [done|congruence]). split.
  - apply (tree_unbind _ _ _ _ _ _ _ i); [|done|done|done]. by apply tree_bind.
  - cbn [n_map move unbind bind n_meta]. intros j m n Hj. rewrite (links_delete _ _ i), links_insert, (L j m n Hj) by done. f_equal. lia.
  - exact R.
Qed.

Lemma names_move_dir od on i nd nn A : names_ok N root A -> bound A od on i -> i ∈ n_dirs A ->
  nd ∈ n_dirs A -> ~ dots nn -> n_map A !! (nd, nn) = None ->
  names_ok N root (if negb (od =? nd) then reparent i od nd (move od on i nd nn A) else move od on i nd nn A).
Proof.
  intros [T L R] [Ho Hf] Hi Hd Hn Hfree. destruct (tk_child _ _ _ _ _ T _ _ _ Hf Ho Hi) as [Hr Hp].
  pose proof (tree_move _ _ _ _ _ od on i nd nn T Hi Ho Hn Hf Hd Hfree) as T'.
  assert (Hk : <[(nd, nn) := i]> (n_map A) !! (od, on) = Some i) by (rewrite lookup_insert_ne; [done|congruence]).
  assert (Hpm : delete (od, on) (<[(nd, nn) := i]> (n_map A)) !! (i, [dot; dot]) = Some od) by nlook.
  destruct (Z.eqb_spec od nd) as [->|Hne]; cbn [negb].
  - rewrite insert_id in T' by done. split; [exact T'| |exact R].
    cbn [n_map move unbind bind n_meta]. intros j m n Hj. rewrite (links_delete _ _ i), links_insert, (L j m n Hj) by done. f_equal. lia.
  - split.
    + apply (tree_ok_ext root _ _ (is_directory A) (known A)); [intros; unfold reparent; rewrite !dir_relink; done|intros; unfold reparent; rewrite !known_relink; done|exact T'].
    + unfold counted, reparent. apply relink_off, relink_off. cbn [n_map relink bind move unbind n_meta]. intros j m n Hj.
      rewrite <- insert_delete_eq, links_insert by apply lookup_delete_eq. rewrite (links_delete _ _ od), (links_delete _ _ i), links_insert, (L j m n Hj) by done.
      f_equal. repeat case_decide; subst; lia || done.
    + intros j Hj%known_relink%known_relink. by apply R.
Qed.

(** ** Every operation keeps the tree sound *)

Lemma drop_dir_lookup d name n A k : ~ dots name -> k <> (d, name) -> fst k <> n -> n_map (drop_dir d name n A) !! k = n_map A !! k.
Proof.
  intros Hn Hk Hf. destruct k as [d0 n0]. cbn [fst] in Hf. cbn [n_map drop_dir relink close_dir unbind]. rewrite !lookup_delete_ne by congruence. done.
Qed.

Lemma nspec_sound A op rc A' : names_ok N root A -> nop_ok A op -> nspec N A op rc A' -> names_ok N root A'.
Proof.
  intros Ok Hop Sp. destruct Sp; cbn [nop_ok] in Hop; try done.
  - destruct Hop as ((? & ? & ? & ?) & _). by apply names_enter.
  - destruct Hop as ((? & ? & ? & ?) & _). by apply names_enter.
  - destruct Hop as ((? & ? & ? & ?) & _). by apply names_mkdir.
  - destruct Hop as [? ?]. by apply names_drop_name.
  - destruct Hop as [? ?]. by apply names_drop_dir.
  - destruct Hop as ((? & ? & ? & ?) & ? & ?). by apply names_link.
  - destruct Hop as (Hb & Hd & Hne & _ & Hn & Ht & Hti & Hk).
    pose proof (nk_tree _ _ _ Ok) as T. destruct Hb as [Ho Hf].
    assert (Ei : dir = true <-> is_directory A i).
    { unfold dir. rewrite bool_decide_eq_true. split; [apply T|intros; by eapply (tk_dir _ _ _ _ _ T)]. }
    assert (Ok1 : names_ok N root A1 /\ bound A1 od on i /\ (is_directory A1 i <-> is_directory A i) /\ nd ∈ n_dirs A1 /\
                  (dir = true -> i ∈ n_dirs A1) /\ n_map A1 !! (nd, nn) = None).
    { destruct tgt as [n|]; [|by unfold A1; split_and!; try done; intros; eapply (tk_dir _ _ _ _ _ T); [exact Hf|by apply Ei]].
      assert (Hni : n <> i) by congruence. assert (Hk1 : (od, on) <> (nd, nn)) by congruence. unfold A1. destruct dir.
      - assert (Dn : is_directory A n) by (apply Hk; tauto). assert (Hnn : n ∈ n_dirs A) by (by eapply (tk_dir _ _ _ _ _ T)).
        pose proof (H n eq_refl eq_refl) as Bn.
        assert (Hond : od <> n) by (intros ->; by apply Ho, (Bn on i)). assert (Hnnd : nd <> n) by (intros ->; by apply Hn, (Bn nn n)).
        split; [by apply names_drop_dir|]. split; [split; [done|by rewrite drop_dir_lookup]|].
        split; [unfold drop_dir; by rewrite !dir_relink|]. split; [cbn; set_solver|].
        split; [intros _; cbn; assert (i ∈ n_dirs A) by (eapply (tk_dir _ _ _ _ _ T); [exact Hf|by apply Ei]); set_solver|].
        cbn [n_map drop_dir relink close_dir unbind]. rewrite !lookup_delete_ne by congruence. apply lookup_delete_eq.
      - assert (Di : ~ is_directory A i) by (intros ?%Ei; done). split; [apply names_drop_name; [done|done|tauto]|].
        split; [split; [done|cbn; by rewrite lookup_delete_ne by congruence]|]. split; [unfold drop_name; by rewrite dir_relink|].
        split; [done|]. split; [done|]. cbn. apply lookup_delete_eq. }
    destruct Ok1 as (Ok1 & B1 & D1 & N1 & I1 & F1). unfold A2. destruct dir; cbn [andb].
    + apply names_move_dir; auto.
    + apply names_move; try done. rewrite D1. intros ?%Ei. done.
Qed.
End sound.
