(* ===== verification/NameiSteps.v ===== *)
(** * The steps of the name operations

    What each call of the name operations does to the tree of names: rules
    for the state monad, proved from the directory theorems and from what
    the volume promises. *)

From stdpp Require Import gmap.
From S2P Require Import Prelude Format Crc RsInit GF RsTheory RsCode RsCorrect RsDecode RsLib RsComplete Edac EdacTheorems Dirent FileData DirentTheorems DirRecords DirOps Dir DirTree DirUpdate FileTree Inode ReaddirTheorems DirTheorems Namei Names.

(** ** What the volume promises *)

Class NameiEnvOk (S : Type) `{NE : !NameiEnv S} := {
  namei_dir_ok :: DirEnvOk S;
  (** the volume takes writes, and its table has this many inodes *)
  writable : Z -> S -> Prop;
  writable_scratch n s : writable n s -> scratch_get s = true;
  writable_bput n s b c : writable n s -> writable n (bput s b c);
  writable_balloc n s ino : writable n s -> writable n (snd (balloc s ino));
  writable_bfree n s b ino : writable n s -> writable n (bfree s b ino);
  writable_report n s calls : writable n s -> writable n (report s calls);
  writable_parity n s b c ino : writable n s -> writable n (parity_update s b c ino);
  writable_anon n s b : writable n s -> writable n (bfree_anon s b);
  write_raw_ok n s ino v : writable n s -> 0 < ino <= n ->
    exists s', write_raw s ino v = (0, s') /\ writable n s' /\ same_on s s';
  alloc_ino_ok n s ino s' : writable n s -> alloc_ino s = (ino, s') -> writable n s' /\ same_on s s' /\ (ino = 0 \/ 0 < ino <= n);
  free_ino_ok n s ino : writable n s -> writable n (free_ino s ino) /\ same_on s (free_ino s ino);
  rsv_ok n s ino : writable n s -> writable n (rsv_discard s ino) /\ same_on s (rsv_discard s ino);
  bfree_anon_ok s b x : allocated s x -> x <> b -> allocated (bfree_anon s b) x /\ bread (bfree_anon s b) x = bread s x;
  init_owner_type s v mode : Z.land (fst (fst (init_owner s v mode))) S_IFMT = Z.land mode S_IFMT;
  writable_width n s : writable n s -> n < 2 ^ 64 }.

(** ** Directory operations keep what their calls keep *)

Section preserve.
Context {S : Type} `{RL : !RsLib} `{DE : !DirEnv S} (t : rs_tables) (cpu : nat) (P : S -> Prop).
Context (P_put : forall s b c, P s -> P (bput s b c)) (P_alloc : forall s ino, P s -> P (snd (balloc s ino))).
Context (P_free : forall s b ino, P s -> P (bfree s b ino)) (P_report : forall s calls, P s -> P (report s calls)).
Context (P_parity : forall s b c ino, P s -> P (parity_update s b c ino)).

(** A loop that stops keeps what its body keeps. *)
Lemma fold_until_inv {St Rt} (I : St -> Prop) (J : Rt -> Prop) (f : St -> Z -> St + Rt) l : forall st,
  I st -> (forall st i, I st -> match f st i with inl st => I st | inr r => J r end) ->
  match fold_until f st l with inl st => I st | inr r => J r end.
Proof.
  induction l as [|i l IH]; intros st Hst Hf; [done|]. cbn [fold_until]. specialize (Hf st i Hst) as H.
  destruct (f st i); [by apply IH|done].
Qed.

Lemma get_indirect_pres s d i a : P s -> P (snd (dir_get_indirect t cpu s d i a)).
Proof.
  intros H. unfold dir_get_indirect. destruct (bread s (di_indirect d)); [|done]. case_match; [done|]. case_match; [done|].
  specialize (P_alloc s (di_ino d) H). destruct (balloc s (di_ino d)) as [b s1]. cbn [snd] in P_alloc.
  case_match; [done|]. case_match; cbn [snd]; auto.
Qed.

Lemma get_block_pres s d i a : P s -> P (snd (beamfs_dir_get_block t cpu s d i a)).
Proof.
  intros H. pose proof (P_alloc s (di_ino d) H) as Ha. unfold beamfs_dir_get_block. destruct (DIR_BLOCKS <=? i); [done|].
  destruct (i <? BEAMFS_DIRECT_BLOCKS).
  - case_match; [done|]. case_match; [done|]. destruct (balloc s (di_ino d)) as [b s1]. cbn [snd] in Ha. repeat (case_match; cbn [snd]; auto).
  - case_match; [|by apply get_indirect_pres]. case_match; [done|]. destruct (balloc s (di_ino d)) as [b s1]. cbn [snd] in Ha.
    case_match; [done|]. case_match; [by apply P_free|]. apply get_indirect_pres. auto.
Qed.

Lemma read_pres s b r : P s -> read_payload t cpu s b = Some r -> P (snd r).
Proof.
  intros H. unfold read_payload. destruct (bread s b); [|done]. destruct (beamfs_dirent_decode t cpu b l) as [[rc p] calls].
  intros [= <-]. by apply P_report.
Qed.

Lemma write_pres s b p : P s -> P (write_payload t cpu s b p).
Proof. intros H. unfold write_payload. destruct (bread s b); auto. Qed.

Lemma add_pres s d name ino ft now : P s -> P (snd (beamfs_add_dirent t cpu s d name ino ft now)).
Proof.
  intros H. unfold beamfs_add_dirent. case_match; [done|]. case_match; [done|].
  pose proof (fold_until_inv (fun st => P (snd st)) (fun r => P (snd r)) (add_block t cpu name ino ft now) (upto DIR_BLOCKS) (d, s) H) as L.
  destruct (fold_until _ (d, s) (upto DIR_BLOCKS)) as [[d1 s1]|[[rc d1] s1]]; apply L; intros [d2 s2] i Hs; cbn [snd] in Hs; unfold add_block.
  all: pose proof (get_block_pres s2 d2 i false Hs) as G1; destruct (beamfs_dir_get_block t cpu s2 d2 i false) as [[[rc2 b2] d3] s3]; cbn [snd] in G1.
  all: destruct (negb (rc2 =? 0)); [done|]; pose proof (get_block_pres s3 d3 i true G1) as G2.
  all: assert (G : P (snd (if b2 =? 0 then let '(rc, block_no, dir, s) := beamfs_dir_get_block t cpu s3 d3 i true in
        if negb (rc =? 0) then (rc, block_no, dir, s) else if block_no =? 0 then (- ENOSPC, block_no, dir, s) else (0, block_no, dir, s)
      else (0, b2, d3, s3)))) by (destruct (b2 =? 0); [|done]; destruct (beamfs_dir_get_block t cpu s3 d3 i true) as [[[? ?] ?] ?]; repeat case_match; done).
  all: destruct (if b2 =? 0 then _ else _) as [[[rc4 b4] d4] s4]; cbn [snd] in G; destruct (negb (rc4 =? 0)); [done|].
  all: destruct (read_payload t cpu s4 b4) as [[[rc5 p] s5]|] eqn:E; [|done]; apply read_pres in E; [|done]; cbn [snd] in E.
  all: destruct (rc5 <? 0); [done|]; destruct (add_payload p name ino ft); [by apply write_pres|done].
Qed.

Lemma del_pres s d name now : P s -> P (snd (beamfs_del_dirent t cpu s d name now)).
Proof.
  intros H. unfold beamfs_del_dirent. case_match; [done|].
  pose proof (fold_until_inv P (fun r => P (snd r)) (del_block t cpu d name now) (upto DIR_BLOCKS) s H) as L.
  destruct (fold_until _ s (upto DIR_BLOCKS)) as [s1|[[rc d1] s1]]; apply L; intros s2 i Hs; unfold del_block.
  all: pose proof (get_block_pres s2 d i false Hs) as G1; destruct (beamfs_dir_get_block t cpu s2 d i false) as [[[rc2 b2] d3] s3]; cbn [snd] in G1.
  all: destruct (negb (rc2 =? 0)); [done|]; destruct (b2 =? 0); [done|].
  all: destruct (read_payload t cpu s3 b2) as [[[rc5 p] s5]|] eqn:E; [|done]; apply read_pres in E; [|done]; cbn [snd] in E.
  all: destruct (rc5 <? 0); [done|]; destruct (del_payload p name); [by apply write_pres|done].
Qed.

Lemma empty_pres s d : P s -> P (fst (beamfs_dir_is_empty t cpu s d)).
Proof.
  intros H. unfold beamfs_dir_is_empty. case_match; [done|].
  pose proof (fold_until_inv P (fun r => P (fst r)) (empty_block t cpu d) (upto DIR_BLOCKS) s H) as L.
  destruct (fold_until _ s (upto DIR_BLOCKS)) as [s1|[s1 rc]]; apply L; intros s2 i Hs; unfold empty_block.
  all: pose proof (get_block_pres s2 d i false Hs) as G1; destruct (beamfs_dir_get_block t cpu s2 d i false) as [[[rc2 b2] d3] s3]; cbn [snd] in G1.
  all: destruct (negb (rc2 =? 0)); [done|]; destruct (b2 =? 0); [done|].
  all: destruct (read_payload t cpu s3 b2) as [[[rc5 p] s5]|] eqn:E; [|done]; apply read_pres in E; [|done]; cbn [snd] in E.
  all: destruct (rc5 <? 0); [done|]; by destruct (payload_is_empty p).
Qed.
End preserve.

(** ** Weakest preconditions *)

Section wp.
Context {S : Type}.

Definition wp {A} (m : M S A) (w : fs S) (Post : A -> fs S -> Prop) : Prop := Post (fst (m w)) (snd (m w)).

Lemma wp_ret {A} (a : A) w (Post : A -> fs S -> Prop) : Post a w -> wp (mret a) w Post.
Proof. done. Qed.

Lemma wp_bind {A B} (m : M S A) (k : A -> M S B) w Post : wp m w (fun a w => wp (k a) w Post) -> wp (x ← m; k x) w Post.
Proof. unfold wp, mbind, M_bind. by destruct (m w). Qed.

Lemma wp_mono {A} (m : M S A) w (P Post : A -> fs S -> Prop) : wp m w P -> (forall a w, P a w -> Post a w) -> wp m w Post.
Proof. unfold wp. auto. Qed.

Lemma wp_env_get {A} (f : S -> A) w Post : Post (f (f_env w)) w -> wp (env_get f) w Post.
Proof. done. Qed.
Lemma wp_env_do {A} (f : S -> A * S) w Post : Post (fst (f (f_env w))) (Fs (snd (f (f_env w))) (f_inodes w)) -> wp (env_do f) w Post.
Proof. unfold wp, env_do. by destruct (f (f_env w)). Qed.
Lemma wp_env_step (f : S -> S) w Post : Post tt (Fs (f (f_env w)) (f_inodes w)) -> wp (env_step f) w Post.
Proof. done. Qed.
Lemma wp_inode ino i w Post : f_inodes w !! ino = Some i -> Post i w -> wp (inode ino) w Post.
Proof. intros E H. unfold wp, inode. cbn [fst snd]. by rewrite E. Qed.
End wp.

(** ** The state and the tree of names *)

Definition meta_of (m : gmap Z minode) : gmap Z (Z * Z) := (fun i => (vi_mode (m_inode i), vi_nlink (m_inode i))) <$> m.

Lemma meta_alter f g ino m : (forall i, (vi_mode (m_inode (f i)), vi_nlink (m_inode (f i))) = g (vi_mode (m_inode i), vi_nlink (m_inode i))) ->
  meta_of (alter f ino m) = alter g ino (meta_of m).
Proof.
  intros H. unfold meta_of. apply map_eq. intros j. rewrite lookup_fmap. destruct (decide (j = ino)) as [->|Hne].
  - rewrite !lookup_alter_eq, lookup_fmap. destruct (m !! ino); [|done]. cbn. by rewrite H.
  - by rewrite !lookup_alter_ne, lookup_fmap.
Qed.

(** [P] at [d], else [Q]. *)
Definition setQ {T} (Q : Z -> T) (d : Z) (P : T) (x : Z) : T := if decide (x = d) then P else Q x.

Lemma setQ_eq {T} (Q : Z -> T) d P : setQ Q d P d = P.
Proof. unfold setQ. by rewrite decide_True. Qed.
Lemma setQ_ne {T} (Q : Z -> T) d P x : x <> d -> setQ Q d P x = Q x.
Proof. intros. unfold setQ. by rewrite decide_False. Qed.

Section state.
Context {S : Type} `{RL : !RsLib} `{RS : !RsLibSpec} `{CL : !CrcLib} `{NO : NameiEnvOk S} (c : data_cfg) (t : rs_tables) (cpu : nat).
Context (Hctrl : ctrl_here t cpu = true) (N : Z).

(** Every directory holds its names, in blocks of its own; the blocks of
    [R], with what they hold, are somebody else's. *)
Record rep (R : gmap Z (option (list Z))) (Q : Z -> list dblock -> Prop) (own : Z -> list Z) (dirs : gset Z) (ns : gmap (Z * list Z) Z)
    (e : S) (inodes : gmap Z minode) : Prop := {
  rp_dir d : d ∈ dirs -> exists i m, inodes !! d = Some i /\ holds_with t cpu (Q d) e (to_dinode d i) m (own d) /\
    (forall n, m !! n = ns !! (d, n)) /\ vi_dindirect (m_inode i) = 0 /\ vi_tindirect (m_inode i) = 0;
  rp_disj d d' x : d ∈ dirs -> d' ∈ dirs -> d <> d' -> x ∈ own d -> x ∉ own d';
  rp_rest x b : R !! x = Some b -> allocated e x /\ bread e x = b /\ forall d, d ∈ dirs -> x ∉ own d }.

Definition st (R : gmap Z (option (list Z))) (Q : Z -> list dblock -> Prop) (A : names) (w : fs S) : Prop :=
  writable N (f_env w) /\ n_meta A = meta_of (f_inodes w) /\ exists own, rep R Q own (n_dirs A) (n_map A) (f_env w) (f_inodes w).

(** Nothing is asked of the directories' blocks. *)
Definition any (_ : Z) (_ : list dblock) : Prop := True.

Lemma st_weaken R Q Q' A w : st R Q A w -> (forall d bs, d ∈ n_dirs A -> Q d bs -> Q' d bs) -> st R Q' A w.
Proof.
  intros (H1 & H2 & own & [D1 D2 D3]) HQ. split; [done|]. split; [done|]. exists own. split; [|done|done].
  intros d Hd. destruct (D1 d Hd) as (i & m & E & (bs & W & Nd & Em & Eo & Hq) & Hm). exists i, m. split; [done|]. split; [|exact Hm].
  exists bs. split_and!; [done..|by apply HQ].
Qed.

Lemma st_any R Q A w : st R Q A w -> st R any A w.
Proof. intros H. by eapply st_weaken. Qed.

(** Some directories are forgotten. *)
Lemma st_forget R Q A w dirs ns : st R Q A w -> dirs ⊆ n_dirs A -> (forall d name, d ∈ dirs -> ns !! (d, name) = n_map A !! (d, name)) ->
  st R Q (Names dirs ns (n_meta A)) w.
Proof.
  intros (H1 & H2 & own & [D1 D2 D3]) Hs Hn. split; [done|]. split; [done|]. exists own. cbn [n_dirs n_map]. split.
  - intros d Hd. destruct (D1 d) as (i & m & E & Hh & Hm & Hr); [set_solver|]. exists i, m. split_and!; [done|done| |apply Hr..]. intros n. rewrite Hm. by rewrite Hn.
  - intros d d' x Hd Hd'. apply D2; set_solver.
  - intros x b Hx. destruct (D3 x b Hx) as (A1 & A2 & A3). split_and!; [done|done|]. intros d Hd. apply A3. set_solver.
Qed.

(** A step of the volume that leaves every block in use. *)
Lemma rep_env R Q own dirs ns e e' inodes : same_on e e' -> rep R Q own dirs ns e inodes -> rep R Q own dirs ns e' inodes.
Proof.
  intros Hs [D1 D2 D3]. split; [|done|].
  - intros d Hd. destruct (D1 d Hd) as (i & m & E & Hh & Hm). exists i, m. split; [done|]. split; [|exact Hm]. by apply (holds_same t cpu _ e).
  - intros x b Hx. destruct (D3 x b Hx) as (A1 & A2 & A3). destruct (Hs x A1) as [A4 A5]. split_and!; [done|by rewrite A5|done].
Qed.

(** Inodes that keep their block pointers. *)
Definition same_roots (i i' : minode) : Prop :=
  vi_direct (m_inode i') = vi_direct (m_inode i) /\ vi_indirect (m_inode i') = vi_indirect (m_inode i) /\
  vi_dindirect (m_inode i') = vi_dindirect (m_inode i) /\ vi_tindirect (m_inode i') = vi_tindirect (m_inode i).

Lemma rep_inodes R Q own dirs ns e inodes inodes' : rep R Q own dirs ns e inodes ->
  (forall d i, d ∈ dirs -> inodes !! d = Some i -> exists i', inodes' !! d = Some i' /\
     same_roots i i') -> rep R Q own dirs ns e inodes'.
Proof.
  intros [D1 D2 D3] H. split; [|done|done]. intros d Hd. destruct (D1 d Hd) as (i & m & E & Hh & Hm & H1 & H2).
  destruct (H d i Hd E) as (i' & E' & P1 & P2 & P3 & P4). exists i', m. split_and!; [done| |done|congruence|congruence]. by apply (holds_ptrs t cpu _ _ (to_dinode d i)).
Qed.

(** One directory changed. *)
Lemma rep_moved R Q own dirs ns ns' e e' inodes d dd Q' m' own' : rep R Q own dirs ns e inodes -> d ∈ dirs ->
  moved e (own d) e' own' -> holds_with t cpu Q' e' dd m' own' ->
  (forall n, m' !! n = ns' !! (d, n)) -> (forall d' n, d' <> d -> ns' !! (d', n) = ns !! (d', n)) ->
  rep R (setQ Q d Q') (setQ own d own') dirs ns' e' (alter (of_dinode dd) d inodes).
Proof.
  intros [D1 D2 D3] Hd [K O] Hh Hm Hn.
  assert (Al : forall d0 x, d0 ∈ dirs -> x ∈ own d0 -> allocated e x).
  { intros d0 x Hd0 Hx. destruct (D1 d0 Hd0) as (i & m & _ & H & _). by apply (holds_allocated t cpu _ _ _ _ _ x H). }
  assert (Nw : forall d0 x, d0 ∈ dirs -> d0 <> d -> x ∈ own d0 -> x ∉ own').
  { intros d0 x Hd0 Hne Hx Hx'. destruct (O x Hx') as [H|H]; [by apply (D2 d d0 x)|]. by apply H, (Al d0). }
  split.
  - intros d0 Hd0. destruct (decide (d0 = d)) as [->|Hne].
    + destruct (D1 d Hd) as (i & m & E & _ & _ & Hr). exists (of_dinode dd i), m'. rewrite lookup_alter_eq, E, !setQ_eq. split; [done|]. split; [|split; [done|exact Hr]].
      by apply (holds_ptrs t cpu _ _ dd).
    + destruct (D1 d0 Hd0) as (i & m & E & H & Hm0 & Hr). exists i, m. rewrite lookup_alter_ne, !setQ_ne by done. split; [done|]. split; [|split; [|exact Hr]].
      * apply (holds_kept t cpu _ e); [done|]. intros x Hx. apply K; [by apply (Al d0)|]. by apply (D2 d0 d).
      * intros n. rewrite Hm0. by rewrite Hn.
  - intros d0 d1 x Hd0 Hd1 Hne. unfold setQ. repeat case_decide; subst; try done.
    + intros Hx Hx'. by apply (Nw d1 x).
    + intros Hx Hx'. by apply (Nw d0 x).
    + by apply D2.
  - intros x b Hx. destruct (D3 x b Hx) as (A1 & A2 & A3). destruct (K x A1 (A3 d Hd)) as [A4 A5]. split_and!; [done|by rewrite A5|].
    intros d0 Hd0. unfold setQ. case_decide; [|by apply A3]. intros Hx'. destruct (O x Hx') as [H1|H1]; [by apply (A3 d)|done].
Qed.

(** Blocks given back that no directory has. *)
Lemma rep_freed R Q own dirs ns e e' inodes (L : list Z) : rep R Q own dirs ns e inodes ->
  (forall x, allocated e x -> x ∉ L -> allocated e' x /\ bread e' x = bread e x) ->
  (forall x d, x ∈ L -> d ∈ dirs -> x ∉ own d) -> (forall x, x ∈ L -> R !! x = None) -> rep R Q own dirs ns e' inodes.
Proof.
  intros [D1 D2 D3] K H1 H2. split; [|done|].
  - intros d Hd. destruct (D1 d Hd) as (i & m & E & Hh & Hm). exists i, m. split; [done|]. split; [|exact Hm]. apply (holds_kept t cpu _ e); [done|].
    intros x Hx. apply K; [by apply (holds_allocated t cpu _ _ _ _ _ x Hh)|]. intros Hl. by apply (H1 x d).
  - intros x b Hx. destruct (D3 x b Hx) as (A1 & A2 & A3). destruct (K x A1) as [A4 A5]; [|by split_and!; [|rewrite A5|]].
    intros Hl. by rewrite (H2 x Hl) in Hx.
Qed.

(** ** Rules *)

Lemma st_inode R Q A w i : st R Q A w -> known A i -> exists m, f_inodes w !! i = Some m.
Proof. intros (_ & E & _) H. unfold known in H. rewrite E in H. unfold meta_of in H. rewrite lookup_fmap in H. by apply fmap_is_Some in H. Qed.

Lemma wp_write R Q A w ino : st R Q A w -> 0 < ino <= N ->
  wp (write_inode_raw ino) w (fun rc w' => rc = 0 /\ st R Q A w' /\ f_inodes w' = f_inodes w).
Proof.
  intros (H1 & H2 & own & H3) Hi. unfold write_inode_raw. apply wp_bind. unfold wp at 1, inode. cbn [fst snd]. apply wp_env_do.
  destruct (write_raw_ok N (f_env w) ino (m_inode (default no_inode (f_inodes w !! ino))) H1 Hi) as (s' & -> & R1 & R2).
  split; [done|]. split; [|done]. split; [done|]. split; [done|]. exists own. by apply (rep_env _ _ _ _ _ (f_env w)).
Qed.

(** A change of one inode that is not of its pointers. *)
Lemma wp_update R Q A w ino f g : st R Q A w ->
  (forall i, same_roots i (f i)) ->
  (forall i, (vi_mode (m_inode (f i)), vi_nlink (m_inode (f i))) = g (vi_mode (m_inode i), vi_nlink (m_inode i))) ->
  wp (update ino f) w (fun _ w' => st R Q (Names (n_dirs A) (n_map A) (alter g ino (n_meta A))) w' /\ f_env w' = f_env w /\ f_inodes w' = alter f ino (f_inodes w)).
Proof.
  intros (H1 & H2 & own & H3) Hf Hg. unfold wp, update. cbn [snd]. split; [|done]. split; [done|]. cbn [n_meta f_inodes f_env n_dirs n_map].
  split; [rewrite H2; symmetry; by apply meta_alter|]. exists own. apply (rep_inodes _ _ _ _ _ _ (f_inodes w)); [done|].
  intros d i Hd E. destruct (decide (d = ino)) as [->|Hne].
  - exists (f i). by rewrite lookup_alter_eq, E.
  - exists i. by rewrite lookup_alter_ne.
Qed.

Lemma names_alter_id A ino : Names (n_dirs A) (n_map A) (alter id ino (n_meta A)) = A.
Proof. destruct A as [d m n]. cbn. f_equal. apply map_eq. intros j. destruct (decide (j = ino)) as [->|]; [rewrite lookup_alter_eq; by destruct (n !! ino)|by rewrite lookup_alter_ne]. Qed.

(** One that is not of its mode and link count either. *)
Lemma wp_touch R Q A w ino f : st R Q A w ->
  (forall i, same_roots i (f i)) ->
  (forall i, vi_mode (m_inode (f i)) = vi_mode (m_inode i) /\ vi_nlink (m_inode (f i)) = vi_nlink (m_inode i)) ->
  wp (update ino f) w (fun _ w' => st R Q A w').
Proof.
  intros H Hf Hg. eapply wp_mono; [apply (wp_update _ _ _ _ _ f id H Hf); intros i; destruct (Hg i) as [-> ->]; done|].
  intros [] w' [H' _]. by rewrite names_alter_id in H'.
Qed.

Lemma wp_ctime R Q A w ino : st R Q A w -> wp (set_ctime ino) w (fun _ w' => st R Q A w').
Proof. intros H. unfold set_ctime. apply wp_bind, wp_env_get. by apply wp_touch. Qed.

Lemma wp_mtime R Q A w ino : st R Q A w -> wp (set_mtime ino) w (fun _ w' => st R Q A w').
Proof. intros H. unfold set_mtime. apply wp_bind, wp_env_get. by apply wp_touch. Qed.

Definition relinked (k : Z) (i : minode) : minode := mset_dirty (on_inode (fun v => vset_nlink v (u32 (vi_nlink v + k))) i).

Lemma wp_inc R Q A w ino : st R Q A w ->
  wp (inc_link ino) w (fun _ w' => st R Q (relink ino 1 A) w' /\ f_inodes w' = alter (relinked 1) ino (f_inodes w)).
Proof. intros H. eapply wp_mono; [by apply (wp_update _ _ _ _ _ _ (fun '(m, n) => (m, u32 (n + 1))) H)|]. by intros [] w' (H' & _ & E'). Qed.

Lemma wp_dec R Q A w ino : st R Q A w ->
  wp (dec_link ino) w (fun _ w' => st R Q (relink ino (-1) A) w' /\ f_inodes w' = alter (relinked (-1)) ino (f_inodes w)).
Proof. intros H. eapply wp_mono; [by apply (wp_update _ _ _ _ _ _ (fun '(m, n) => (m, u32 (n + -1))) H)|]. by intros [] w' (H' & _ & E'). Qed.

(** *** Entries *)

Lemma meta_of_dinode d ino m : meta_of (alter (of_dinode d) ino m) = meta_of m.
Proof.
  rewrite (meta_alter _ id) by done. apply map_eq. intros j. destruct (decide (j = ino)) as [->|]; [|by rewrite lookup_alter_ne].
  rewrite lookup_alter_eq. by destruct (meta_of m !! ino).
Qed.

Lemma wp_add R Q A w d name ino ft : st R Q A w -> d ∈ n_dirs A -> name_ok name -> 0 < ino <= N -> is_byte ft -> n_map A !! (d, name) = None ->
  wp (add_dirent t cpu d name ino ft) w (fun rc w' =>
    (forall j, j <> d -> f_inodes w' !! j = f_inodes w !! j) /\
    (rc <> 0 /\ st R Q A w' /\ (exists bs, Q d bs /\ ~ room_for name bs) \/
     rc = 0 /\ st R (setQ Q d (fun bs' => exists bs, Q d bs /\ zlen bs' <= zlen bs + 1)) (bind d name ino A) w')).
Proof.
  intros (H1 & H2 & own & H3) Hd Hn Hi Hf Hm. unfold wp, add_dirent. destruct (rp_dir _ _ _ _ _ _ _ H3 d Hd) as (i & m & E & Hh & Hmm & _).
  rewrite E. cbn [default from_option id]. pose proof (writable_width N _ H1). set (now := current_time (f_env w)).
  destruct (add_refines t cpu Hctrl (Q d) (f_env w) (to_dinode d i) m (own d) name ino ft now Hh Hn ltac:(lia) Hf) as (rc & d' & s' & own' & Er & _ & Mv & Res);
    [by rewrite Hmm|].
  cbn [run_dop] in Er. pose proof (add_pres t cpu (writable N) (writable_bput N) (writable_balloc N) (writable_bfree N) (writable_report N) (writable_parity N)
    (f_env w) (to_dinode d i) name ino ft now H1) as Hr.
  destruct (beamfs_add_dirent t cpu (f_env w) (to_dinode d i) name ino ft now) as [[rc0 d0] s0]. injection Er as -> -> ->. cbn [fst snd] in *.
  split; [intros j Hj; cbn [f_inodes]; by rewrite lookup_alter_ne|].
  destruct Res as [(Hrc & Hh' & Hroom)|(-> & Hh')]; [left|right]; (split; [done|]).
  - split; [|by apply Hroom, (writable_scratch N)]. split; [done|]. split; [cbn [f_inodes]; by rewrite meta_of_dinode|]. exists (setQ own d own').
    cbn [f_env f_inodes]. pose proof (rep_moved R Q own _ _ (n_map A) _ _ _ d d' (Q d) m own' H3 Hd Mv Hh' Hmm ltac:(done)) as [D1 D2 D3].
    split; [|done|done]. intros d0 Hd0. destruct (D1 d0 Hd0) as (i0 & m0 & X1 & X2 & X3). exists i0, m0. split; [done|]. split; [|exact X3].
    unfold setQ in X2 at 1. by case_decide; subst.
  - split; [done|]. split; [cbn [f_inodes bind n_meta]; by rewrite meta_of_dinode|]. exists (setQ own d own'). cbn [bind n_dirs n_map f_env f_inodes].
    apply (rep_moved R Q own _ (n_map A) _ (f_env w) _ _ d d' _ (<[name := ino]> m)); try done.
    + intros n. destruct (decide (n = name)) as [->|Hne]; [by rewrite !lookup_insert_eq|]. rewrite !lookup_insert_ne by congruence. apply Hmm.
    + intros d0 n Hne. by rewrite lookup_insert_ne by congruence.
Qed.

Lemma wp_del R Q A w d name ino : st R Q A w -> d ∈ n_dirs A -> n_map A !! (d, name) = Some ino ->
  wp (del_dirent t cpu d name) w (fun rc w' => rc = 0 /\ st R (setQ Q d (room_for name)) (unbind d name A) w').
Proof.
  intros (H1 & H2 & own & H3) Hd Hm. unfold wp, del_dirent. destruct (rp_dir _ _ _ _ _ _ _ H3 d Hd) as (i & m & E & Hh & Hmm & _).
  rewrite E. cbn [default from_option id]. set (now := current_time (f_env w)).
  destruct (del_refines t cpu Hctrl (f_env w) (to_dinode d i) m (own d) name now (holds_weaken _ _ _ _ _ _ _ Hh)) as (rc & d' & s' & own' & Er & _ & Mv & Res).
  cbn [run_dop] in Er. pose proof (del_pres t cpu (writable N) (writable_bput N) (writable_balloc N) (writable_bfree N) (writable_report N) (writable_parity N)
    (f_env w) (to_dinode d i) name now H1) as Hr.
  destruct (beamfs_del_dirent t cpu (f_env w) (to_dinode d i) name now) as [[rc0 d0] s0]. injection Er as -> -> ->. cbn [fst snd] in *.
  pose proof (writable_scratch N _ H1) as Hs. rewrite Hmm, Hm in Res. destruct Res as [(? & _)|[(_ & _ & ? & _)|(_ & -> & _ & Hh')]]; [congruence|done|].
  split; [done|]. split; [done|]. split; [cbn [f_inodes unbind n_meta]; by rewrite meta_of_dinode|]. exists (setQ own d own'). cbn [unbind n_dirs n_map f_env f_inodes].
  apply (rep_moved R Q own _ (n_map A) _ (f_env w) _ _ d d' _ (delete name m)); try done.
  - intros n. destruct (decide (n = name)) as [->|Hne]; [by rewrite !lookup_delete_eq|]. rewrite !lookup_delete_ne by congruence. apply Hmm.
  - intros d0 n Hne. by rewrite lookup_delete_ne by congruence.
Qed.

Lemma wp_empty R Q A w d : st R Q A w -> d ∈ n_dirs A ->
  wp (dir_is_empty t cpu d) w (fun rc w' => st R Q A w' /\ (rc = 0 /\ bare A d \/ rc = - ENOTEMPTY /\ ~ bare A d)).
Proof.
  intros (H1 & H2 & own & H3) Hd. unfold wp, dir_is_empty. destruct (rp_dir _ _ _ _ _ _ _ H3 d Hd) as (i & m & E & Hh & Hmm & _).
  rewrite E. cbn [default from_option id].
  destruct (empty_refines t cpu (f_env w) (to_dinode d i) m (own d) (holds_weaken _ _ _ _ _ _ _ Hh)) as (rc & s' & Er & _ & Hs & Res).
  cbn [run_dop] in Er. pose proof (empty_pres t cpu (writable N) (writable_bput N) (writable_balloc N) (writable_bfree N) (writable_report N) (writable_parity N)
    (f_env w) (to_dinode d i) H1) as Hr.
  destruct (beamfs_dir_is_empty t cpu (f_env w) (to_dinode d i)) as [s0 rc0]. injection Er as -> ->. cbn [fst snd] in *.
  assert (Eb : only_dots m <-> bare A d) by (unfold only_dots, bare, dots; split; intros H n j; [rewrite <- Hmm|rewrite Hmm]; by eauto).
  rewrite <- Eb. pose proof (writable_scratch N _ H1) as Hsc. split.
  - split; [done|]. split; [done|]. exists own. by apply (rep_env _ _ _ _ _ (f_env w)).
  - destruct Res as [[? _]|[(_ & ? & ?)|(_ & ? & ?)]]; [congruence|by left|by right].
Qed.

(** *** A new inode *)

(** An inode of type [mode] without blocks. *)
Definition blank (mode : Z) (i : minode) : Prop :=
  Z.land (vi_mode (m_inode i)) S_IFMT = Z.land mode S_IFMT /\ vi_size (m_inode i) = 0 /\
  vi_direct (m_inode i) = zeros BEAMFS_DIRECT_BLOCKS /\ vi_indirect (m_inode i) = 0 /\
  vi_dindirect (m_inode i) = 0 /\ vi_tindirect (m_inode i) = 0.

Lemma wp_new_inode R Q A w dir mode : st R Q A w ->
  wp (beamfs_new_inode dir mode) w (fun r w' =>
    match r with
    | inl e => e <> 0 /\ st R Q A w'
    | inr ino => exists i, f_inodes w' !! ino = Some i /\ blank mode i /\ vi_nlink (m_inode i) = (if S_ISDIR mode then 2 else 1) /\
        ~ known A ino /\ 0 < ino <= N /\ (forall j, j <> ino -> f_inodes w' !! j = f_inodes w !! j) /\
        st R Q (enter ino (vi_mode (m_inode i)) (if S_ISDIR mode then 2 else 1) A) w'
    end).
Proof.
  intros (H1 & H2 & own & H3). unfold beamfs_new_inode. apply wp_bind, wp_env_do. destruct (alloc_ino (f_env w)) as [ino s1] eqn:Ea. cbn [fst snd].
  destruct (alloc_ino_ok N _ _ _ H1 Ea) as (R1 & S1 & Hi).
  assert (St : st R Q A (Fs s1 (f_inodes w))) by (split; [done|split; [done|exists own; by apply (rep_env _ _ _ _ _ (f_env w))]]).
  destruct (Z.eqb_spec ino 0) as [->|Hn]; [by apply wp_ret|]. destruct Hi as [?|Hi]; [done|].
  apply wp_bind, wp_env_get. cbn [f_env]. destruct (new_inode s1); cbn [negb]; [|by apply wp_ret].
  apply wp_bind. unfold wp at 1, inode. cbn [fst snd f_inodes]. apply wp_bind, wp_env_get. cbn [f_env].
  pose proof (init_owner_type s1 (m_inode (default no_inode (f_inodes w !! dir))) mode) as Ht.
  destruct (init_owner s1 _ mode) as [[mode' uid] gid]. cbn [fst] in Ht. apply wp_bind, wp_env_get, wp_bind, wp_env_get. cbn [f_env].
  apply wp_bind. unfold wp at 1, cached. cbn [fst snd f_inodes]. case_bool_decide as Hc; [by apply wp_ret|].
  apply wp_bind. unfold wp at 1, hash. cbn [fst snd f_inodes f_env]. apply wp_ret.
  assert (Hk : ~ known A ino).
  { unfold known. rewrite H2. unfold meta_of. rewrite lookup_fmap, fmap_is_Some. done. }
  set (i := MInode _ _ true). exists i. cbn [f_inodes]. split; [apply lookup_insert_eq|]. split; [by unfold blank|]. split; [done|].
  split; [done|]. split; [done|]. split; [intros j Hj; by rewrite lookup_insert_ne|]. split; [done|].
  cbn [n_meta enter f_inodes f_env n_dirs n_map]. split.
  - rewrite H2. unfold meta_of. by rewrite fmap_insert.
  - exists own. destruct St as (_ & _ & own2 & _). apply (rep_inodes _ _ _ _ _ _ (f_inodes w)); [by apply (rep_env _ _ _ _ _ (f_env w))|].
    intros d x Hd E. exists x. split; [|done]. rewrite lookup_insert_ne; [done|]. intros ->. apply Hc. by eexists.
Qed.

(** A new inode of a directory is a directory, empty. *)
Lemma st_open R Q A w i x mode : st R Q A w -> i ∉ n_dirs A -> f_inodes w !! i = Some x -> blank mode x ->
  (forall n, n_map A !! (i, n) = None) -> st R (setQ Q i (fun bs => zlen bs <= 0)) (open_dir i A) w.
Proof.
  intros (H1 & H2 & own & [D1 D2 D3]) Hi E (_ & _ & B1 & B2 & B3 & B4) Hn. split; [done|]. split; [done|]. exists (setQ own i []).
  cbn [open_dir n_dirs n_map]. split.
  - intros d Hd. destruct (decide (d = i)) as [->|Hne].
    + exists x, ∅. rewrite !setQ_eq. split_and!; [done| |intros n; by rewrite lookup_empty, Hn|done|done].
      unfold to_dinode. rewrite B1, B2. apply holds_new.
    + rewrite !setQ_ne by done. apply D1. set_solver.
  - intros d d' y Hd Hd' Hne. unfold setQ. repeat case_decide; subst; try done; [set_solver|set_solver|]. apply D2; set_solver.
  - intros y b Hy. destruct (D3 y b Hy) as (A1 & A2 & A3). split_and!; [done|done|]. intros d Hd. unfold setQ. case_decide; [set_solver|]. apply A3. set_solver.
Qed.

(** *** Giving an inode back *)

(** The blocks of an inode are among [L]. *)
Definition frees_in (i : minode) (L : list Z) : Prop :=
  let v := m_inode i in
  match ftype_of (vi_mode v) with
  | S_IFLNK => sizeof_direct <= vi_size v -> getb (vi_direct v) 0 <> 0 -> getb (vi_direct v) 0 ∈ L
  | _ => zlen (vi_direct v) = 12 /\ vi_indirect v = 0 /\ vi_dindirect v = 0 /\ vi_tindirect v = 0 /\
         forall k, 0 <= k < 12 -> getb (vi_direct v) k <> 0 -> getb (vi_direct v) k ∈ L
  end.

(** Blocks outside [L] stay. *)
Definition outside (L : list Z) (e e' : S) : Prop :=
  (writable N e -> writable N e') /\ forall x, allocated e x -> x ∉ L -> allocated e' x /\ bread e' x = bread e x.

Lemma outside_refl L e : outside L e e.
Proof. done. Qed.

Lemma outside_trans L e1 e2 e3 : outside L e1 e2 -> outside L e2 e3 -> outside L e1 e3.
Proof.
  intros [R1 K1] [R2 K2]. split; [auto|]. intros x Ax Nx. destruct (K1 x Ax Nx) as [A1 E1]. destruct (K2 x A1 Nx) as [A2 E2]. split; [done|congruence].
Qed.

Lemma outside_anon L e b : b ∈ L -> outside L e (bfree_anon e b).
Proof. intros Hb. split; [apply writable_anon|]. intros x Ax Nx. apply bfree_anon_ok; [done|]. by intros ->. Qed.

Lemma evict_direct_outside L : forall ks (f : finode) e seen,
  Forall (fun k => 0 <= k < 12) ks -> zlen (fi_direct f) = 12 -> (forall k, 0 <= k < 12 -> getb (fi_direct f) k <> 0 -> getb (fi_direct f) k ∈ L) ->
  let '(f', e', _) := foldl evict_direct (f, e, seen) ks in
  outside L e e' /\ fi_indirect f' = fi_indirect f /\ fi_dindirect f' = fi_dindirect f /\ fi_tindirect f' = fi_tindirect f.
Proof.
  induction ks as [|k ks IH]; intros f e seen Hks Hz Hl; [done|]. apply list.Forall_cons in Hks as [Hk Hks]. cbn [foldl].
  set (r := evict_direct (f, e, seen) k). assert (Er : exists e1 seen1, r = (fset_direct f k 0, e1, seen1) /\ outside L e e1).
  { unfold r, evict_direct. destruct (Z.eqb_spec (getb (fi_direct f) k) 0) as [|Nz]; cbn [negb andb]; [by do 2 eexists|].
    destruct (match seen with Some l => negb (bool_decide (getb (fi_direct f) k ∈ l)) | None => true end);
      do 2 eexists; (split; [reflexivity|]); [by apply outside_anon, Hl|done]. }
  destruct Er as (e1 & seen1 & -> & O1).
  specialize (IH (fset_direct f k 0) e1 seen1 Hks). destruct (foldl evict_direct _ ks) as [[f' e'] seen'].
  destruct IH as (O2 & I1 & I2 & I3).
  - unfold fset_direct. cbn [fi_direct with_pointers]. by rewrite zlen_setb.
  - intros j Hj. unfold fset_direct. cbn [fi_direct with_pointers]. destruct (decide (j = k)) as [->|Hne].
    + rewrite getb_setb_eq by lia. done.
    + rewrite getb_setb_ne by lia. by apply Hl.
  - split; [by eapply outside_trans|]. done.
Qed.

Lemma free_outside ok e ino i L : frees_in i L -> outside L e (snd (beamfs_free_data_blocks ok e (to_finode ino i))).
Proof.
  unfold frees_in, beamfs_free_data_blocks, to_finode. cbn [fi_type fi_direct fi_size fi_indirect fi_dindirect fi_tindirect].
  set (f0 := FInode _ _ _ _ _ _ _ _ _ _). intros H.
  assert (D : ftype_of (vi_mode (m_inode i)) <> S_IFLNK -> outside L e (snd (
    let '(f, s, _) := foldl evict_direct (f0, e, if ok then Some [] else None) (upto BEAMFS_DIRECT_BLOCKS) in
    let '(f, s) := if fi_indirect f =? 0 then (f, s) else (fset_indirect f 0, snd (beamfs_free_ind_range s (fi_indirect f) 0 BEAMFS_MAX_IBLOCK_DIRECT 0 (fi_ino f))) in
    let '(f, s) := if fi_dindirect f =? 0 then (f, s) else (fset_dindirect f 0, snd (beamfs_free_ind_range s (fi_dindirect f) 1 BEAMFS_MAX_IBLOCK_INDIRECT 0 (fi_ino f))) in
    if fi_tindirect f =? 0 then (f, s) else (fset_tindirect f 0, snd (beamfs_free_ind_range s (fi_tindirect f) 2 BEAMFS_MAX_IBLOCK_DINDIRECT 0 (fi_ino f)))))).
  { intros Hne. assert (H' : zlen (vi_direct (m_inode i)) = 12 /\ vi_indirect (m_inode i) = 0 /\ vi_dindirect (m_inode i) = 0 /\ vi_tindirect (m_inode i) = 0 /\
      forall k, 0 <= k < 12 -> getb (vi_direct (m_inode i)) k <> 0 -> getb (vi_direct (m_inode i)) k ∈ L) by (by destruct (ftype_of _)).
    destruct H' as (Zl & I1 & I2 & I3 & Hl).
    pose proof (evict_direct_outside L (upto BEAMFS_DIRECT_BLOCKS) f0 e (if ok then Some [] else None)) as F.
    destruct (foldl evict_direct _ _) as [[f' e'] seen']. destruct F as (O & J1 & J2 & J3); [|done|done|].
    - apply list.Forall_forall. intros k Hk. apply elem_of_seqZ in Hk. done.
    - rewrite J1. cbn [f0 fi_indirect]. rewrite I1. cbn [Z.eqb]. rewrite J2. cbn [f0 fi_dindirect]. rewrite I2. cbn [Z.eqb].
      rewrite J3. cbn [f0 fi_tindirect]. rewrite I3. exact O. }
  destruct (ftype_of (vi_mode (m_inode i))) eqn:Ef; try (by apply D). clear D.
  change (8 * BEAMFS_DIRECT_BLOCKS) with sizeof_direct.
  destruct (Z.leb_spec sizeof_direct (vi_size (m_inode i))) as [Hs|]; [|done]. destruct (Z.eqb_spec (getb (vi_direct (m_inode i)) 0) 0) as [|Nz]; [done|].
  cbn [negb andb snd]. apply outside_anon. by apply H.
Qed.

(** An inode that is no open directory can be changed and dropped. *)
Lemma rep_other R Q own dirs ns e inodes inodes' ino : rep R Q own dirs ns e inodes -> ino ∉ dirs ->
  (forall j, j <> ino -> inodes' !! j = inodes !! j) -> rep R Q own dirs ns e inodes'.
Proof.
  intros H Hi Hj. apply (rep_inodes _ _ _ _ _ _ inodes); [done|]. intros d i Hd E. exists i. split; [|done]. rewrite Hj; [done|]. by intros ->.
Qed.

Lemma rep_less R R' Q own dirs ns e inodes : rep R' Q own dirs ns e inodes -> R ⊆ R' -> rep R Q own dirs ns e inodes.
Proof. intros [D1 D2 D3] H. split; [done|done|]. intros x b Hx. apply D3. by eapply lookup_weaken. Qed.

Lemma st_less R R' Q A w : st R' Q A w -> R ⊆ R' -> st R Q A w.
Proof. intros (H1 & H2 & own & H3) H. split; [done|]. split; [done|]. exists own. by apply (rep_less R R'). Qed.

Lemma wp_discard R R' Q A w ino i L : st R' Q A w -> ino ∉ n_dirs A -> f_inodes w !! ino = Some i -> vi_nlink (m_inode i) = 0 -> 0 < ino <= N ->
  frees_in i L -> R ⊆ R' -> (forall x, x ∈ L -> R !! x = None /\ is_Some (R' !! x)) ->
  wp (discard_new_inode ino) w (fun _ w' => st R Q (Names (n_dirs A) (n_map A) (delete ino (n_meta A))) w').
Proof.
  intros (H1 & H2 & own & H3) Hd E Hn Hr Hf HR HL. unfold discard_new_inode. apply wp_bind, (wp_inode _ i); [done|]. rewrite Hn. cbn [Z.eqb].
  unfold beamfs_evict_inode. destruct (rsv_ok N (f_env w) ino H1) as [R1 S1]. apply wp_bind, wp_env_step. set (e1 := rsv_discard (f_env w) ino) in *.
  apply wp_bind, (wp_inode _ i); [done|]. rewrite Hn. cbn [Z.eqb]. do 2 apply wp_bind. apply wp_env_get. cbn [f_env]. apply wp_bind, wp_env_do.
  cbn [f_env f_inodes]. pose proof (free_outside (kmalloc_ok e1) e1 ino i L Hf) as [R2 S2]. specialize (R2 R1).
  destruct (beamfs_free_data_blocks (kmalloc_ok e1) e1 (to_finode ino i)) as [f2 e2]. cbn [fst snd] in *.
  assert (P2 : rep R Q own (n_dirs A) (n_map A) e2 (f_inodes w)).
  { apply (rep_freed _ _ _ _ _ e1 _ _ L); [|done| |by intros x Hx; apply HL].
    - apply (rep_env _ _ _ _ _ (f_env w)); [done|]. by apply (rep_less R R').
    - intros x d Hx Hd'. destruct (HL x Hx) as [_ [b Hb]]. by apply (rp_rest _ _ _ _ _ _ _ H3 x b Hb). }
  apply wp_bind. unfold wp at 1, update. cbn [fst snd]. apply wp_bind. unfold wp at 1, update. cbn [fst snd f_inodes f_env].
  set (in3 := alter _ ino (alter _ ino (f_inodes w))).
  unfold write_inode_raw. apply wp_bind. unfold wp at 1, inode. cbn [fst snd f_inodes]. apply wp_env_do. cbn [f_env].
  destruct (write_raw_ok N e2 ino (m_inode (default no_inode (in3 !! ino))) R2 Hr) as (e4 & -> & R4 & S4). cbn [fst snd f_inodes].
  apply wp_bind, wp_env_step. cbn [f_env f_inodes]. destruct (free_ino_ok N e4 ino R4) as [R5 S5].
  unfold wp, unhash. cbn [snd f_env f_inodes]. split; [done|]. cbn [n_meta f_inodes f_env n_dirs n_map]. split.
  - rewrite H2. unfold meta_of. rewrite <- fmap_delete. f_equal. apply map_eq. intros j. destruct (decide (j = ino)) as [->|Hne]; [by rewrite !lookup_delete_eq|].
    unfold in3. by rewrite !lookup_delete_ne, !lookup_alter_ne.
  - exists own. apply (rep_env _ _ _ _ _ e4); [done|]. apply (rep_env _ _ _ _ _ e2); [done|]. apply (rep_other _ _ _ _ _ _ (f_inodes w) _ ino); [done|done|].
    intros j Hj. unfold in3. by rewrite lookup_delete_ne, !lookup_alter_ne.
Qed.

(** The blocks of a small directory, set apart so that it can go. *)
Lemma st_release R Q A w d i : st R Q A w -> d ∈ n_dirs A -> (forall bs, Q d bs -> zlen bs < 12) -> f_inodes w !! d = Some i ->
  exists R' (L : list Z), st R' Q (Names (n_dirs A ∖ {[d]}) (n_map A) (n_meta A)) w /\ R ⊆ R' /\ (forall x, x ∈ L -> R !! x = None /\ is_Some (R' !! x)) /\
    zlen (vi_direct (m_inode i)) = 12 /\ vi_indirect (m_inode i) = 0 /\ vi_dindirect (m_inode i) = 0 /\ vi_tindirect (m_inode i) = 0 /\
    forall k, 0 <= k < 12 -> getb (vi_direct (m_inode i)) k <> 0 -> getb (vi_direct (m_inode i)) k ∈ L.
Proof.
  intros (H1 & H2 & own & [D1 D2 D3]) Hd HQ E. destruct (D1 d Hd) as (i0 & m & E0 & Hh & Hm & I2 & I3). rewrite E in E0. injection E0 as <-.
  destruct (small_direct t cpu _ _ _ _ _ Hh HQ) as (Zl & I1 & Hl).
  set (X := list_to_map ((fun x => (x, bread (f_env w) x)) <$> own d) : gmap Z (option (list Z))).
  assert (HX : forall x, x ∈ own d -> X !! x = Some (bread (f_env w) x)).
  { intros x Hx. apply elem_of_list_to_map_1'; [|by apply list_elem_of_fmap; exists x]. intros y Hy. apply list_elem_of_fmap in Hy as (z & [= <- ->] & _). done. }
  assert (XH : forall x b, X !! x = Some b -> x ∈ own d /\ b = bread (f_env w) x).
  { intros x b Hx. apply elem_of_list_to_map_2, list_elem_of_fmap in Hx as (y & [= -> ->] & Hy). done. }
  assert (Dj : R ##ₘ X).
  { apply map_disjoint_spec. intros x b b' Hx Hx'. destruct (D3 x b Hx) as (_ & _ & H). by apply (H d Hd), (XH x b'). }
  exists (R ∪ X), (own d). split_and!; try done.
  - split; [done|]. split; [done|]. exists own. cbn [n_dirs n_map]. split.
    + intros d0 Hd0. apply D1. set_solver.
    + intros d0 d1 x Hd0 Hd1. apply D2; set_solver.
    + intros x b Hx. apply lookup_union_Some in Hx as [Hx|Hx]; [| |done].
      * destruct (D3 x b Hx) as (A1 & A2 & A3). split_and!; [done|done|]. intros d0 Hd0. apply A3. set_solver.
      * destruct (XH x b Hx) as [Ho ->]. split_and!; [by apply (holds_allocated t cpu _ _ _ _ _ x Hh)|done|].
        intros d0 Hd0. apply (D2 d d0); [done|set_solver|set_solver|done].
  - apply map_union_subseteq_l.
  - intros x Hx. split; [|exists (bread (f_env w) x); apply lookup_union_Some_r; [done|by apply HX]].
    destruct (R !! x) as [b|] eqn:Eb; [|done]. destruct (D3 x b Eb) as (_ & _ & H). by destruct (H d Hd).
Qed.

(** *** Inodes that are no directories, and their blocks *)

Lemma wp_update_other R Q A w ino f : st R Q A w -> ino ∉ n_dirs A ->
  (forall i, vi_mode (m_inode (f i)) = vi_mode (m_inode i) /\ vi_nlink (m_inode (f i)) = vi_nlink (m_inode i)) ->
  wp (update ino f) w (fun _ w' => st R Q A w' /\ f_env w' = f_env w /\ f_inodes w' = alter f ino (f_inodes w)).
Proof.
  intros (H1 & H2 & own & H3) Hi Hf. unfold wp, update. cbn [snd]. split; [|done]. split; [done|]. cbn [f_inodes f_env]. split.
  - rewrite (meta_alter _ id) by (intros i; by destruct (Hf i) as [-> ->]). rewrite H2. apply map_eq. intros j.
    destruct (decide (j = ino)) as [->|]; [rewrite lookup_alter_eq; by destruct (meta_of _ !! ino)|by rewrite lookup_alter_ne].
  - exists own. apply (rep_other _ _ _ _ _ _ (f_inodes w) _ ino); [done|done|]. intros j Hj. by rewrite lookup_alter_ne.
Qed.

(** A block is taken, written and set apart. *)
Lemma st_balloc R Q A w ino b s' block : st R Q A w -> balloc (f_env w) ino = (b, s') -> b <> 0 ->
  R !! b = None /\ st (<[b := Some block]> R) Q A (Fs (bput s' b block) (f_inodes w)).
Proof.
  intros (H1 & H2 & own & H3) Ea Hb. destruct (balloc_some _ _ _ _ Ea Hb) as (Hna & _ & Hal).
  assert (Hn : R !! b = None) by (destruct (R !! b) eqn:E; [by apply (rp_rest _ _ _ _ _ _ _ H3) in E as [? _]|done]). split; [done|].
  pose proof (same_alloc_put (f_env w) ino b s' block Ea Hb) as Hs.
  split; [apply writable_bput; pose proof (writable_balloc N (f_env w) ino H1) as Hw; by rewrite Ea in Hw|]. split; [done|]. exists own.
  destruct (rep_env _ _ _ _ _ _ _ _ Hs H3) as [D1 D2 D3]. split; [done|done|]. cbn [f_env].
  intros x c0 Hx. apply lookup_insert_Some in Hx as [[<- <-]|[_ Hx]]; [|by apply D3].
  split; [apply bput_allocated, Hal; by left|]. split; [apply bput_same|]. intros d Hd Ho.
  destruct (rp_dir _ _ _ _ _ _ _ H3 d Hd) as (i & m & _ & Hh & _). apply Hna. by apply (holds_allocated t cpu _ _ _ _ _ b Hh).
Qed.

Lemma st_unalloc R Q A w ino b s' : st R Q A w -> balloc (f_env w) ino = (b, s') -> b <> 0 -> st R Q A (Fs (bfree s' b ino) (f_inodes w)).
Proof.
  intros (H1 & H2 & own & H3) Ea Hb. pose proof (same_alloc_free (f_env w) ino b s' Ea Hb) as Hs.
  split; [apply writable_bfree; pose proof (writable_balloc N (f_env w) ino H1) as Hw; by rewrite Ea in Hw|]. split; [done|]. exists own.
  by apply (rep_env _ _ _ _ _ (f_env w)).
Qed.

Lemma st_unput R Q A w ino b s' block : st R Q A w -> balloc (f_env w) ino = (b, s') -> b <> 0 ->
  st R Q A (Fs (bfree (bput s' b block) b ino) (f_inodes w)).
Proof.
  intros (H1 & H2 & own & H3) Ea Hb. pose proof (same_alloc_put (f_env w) ino b s' block Ea Hb) as Hs.
  destruct (balloc_some _ _ _ _ Ea Hb) as (Hna & _ & _).
  split; [apply writable_bfree, writable_bput; pose proof (writable_balloc N (f_env w) ino H1) as Hw; by rewrite Ea in Hw|]. split; [done|]. exists own.
  apply (rep_env _ _ _ _ _ (f_env w)); [|done]. cbn [f_env]. intros x Ax. destruct (Hs x Ax) as [A1 E1]. assert (x <> b) by (by intros ->).
  split; [by apply bfree_allocated|by rewrite bfree_bread].
Qed.

Lemma st_balloc_none R Q A w ino s' : st R Q A w -> balloc (f_env w) ino = (0, s') -> st R Q A (Fs s' (f_inodes w)).
Proof.
  intros (H1 & H2 & own & H3) Ea. split; [pose proof (writable_balloc N (f_env w) ino H1) as Hw; by rewrite Ea in Hw|]. split; [done|]. exists own.
  apply (rep_env _ _ _ _ _ (f_env w)); [|done]. exact (same_alloc _ _ _ _ Ea).
Qed.
End state.
