(* ===== verification/NameiTheorems.v ===== *)
(** * The name operations are correct

    Each operation of namei.c, on a volume that takes writes, does to the
    tree of names what its specification says: the name is there, or gone,
    or nothing has changed; every link count is the number of names; no
    block of a file or of another directory is touched. *)

From stdpp Require Import gmap.
From S2P Require Import Prelude Format Crc RsInit GF RsTheory RsCode RsCorrect RsDecode RsLib RsComplete Edac EdacTheorems Dirent FileData DirentTheorems DirRecords DirOps Dir DirTree DirUpdate FileTree Inode ReaddirTheorems DirTheorems Namei Names NameiSteps.

(** ** Relinking *)

Lemma names_eq A B : n_dirs A = n_dirs B -> n_map A = n_map B -> n_meta A = n_meta B -> A = B.
Proof. destruct A, B. cbn. by intros -> -> ->. Qed.

Lemma relink_undo A i k k' : counted (n_map A) (n_meta A) -> k' = - k -> relink i k' (relink i k A) = A.
Proof.
  intros H ->. apply names_eq; [done|done|]. apply map_eq. intros j. rewrite !meta_relink. destruct (n_meta A !! j) as [[m n]|] eqn:E; [|done]. cbn.
  do 2 f_equal. destruct (decide (j = i)); [|done]. rewrite u32_add_l. rewrite (H j m n E). unfold u32. rewrite <- Z.add_assoc, Z.add_opp_diag_r, Z.add_0_r.
  by rewrite Zmod_mod.
Qed.

Lemma relink_enter A d k i m n : i <> d -> relink d k (enter i m n A) = enter i m n (relink d k A).
Proof.
  intros Hne. apply names_eq; [done|done|]. apply map_eq. intros j. rewrite meta_relink. cbn [n_meta enter].
  destruct (decide (j = i)) as [->|Hj]; [rewrite !lookup_insert_eq; cbn; by rewrite decide_False|]. rewrite !lookup_insert_ne by done. by rewrite meta_relink.
Qed.

Lemma delete_relink_enter A i k m n : ~ known A i -> delete i (n_meta (relink i k (enter i m n A))) = n_meta A.
Proof.
  intros Hi. apply map_eq. intros j. destruct (decide (j = i)) as [->|Hj].
  - rewrite lookup_delete_eq. unfold known in Hi. by destruct (n_meta A !! i); [destruct Hi; eexists|].
  - rewrite lookup_delete_ne, meta_relink by done. cbn [n_meta enter]. rewrite lookup_insert_ne by done. destruct (n_meta A !! j) as [[? ?]|]; cbn; [|done]. by rewrite decide_False.
Qed.

Section namei.
Context {S : Type} `{RL : !RsLib} `{RS : !RsLibSpec} `{CL : !CrcLib} `{NO : NameiEnvOk S} (c : data_cfg) (t : rs_tables) (cpu : nat).
Context (Hctrl : ctrl_here t cpu = true) (N : Z).

Notation st := (st t cpu N).

Lemma blank_frees mode i : blank mode i -> frees_in i [].
Proof.
  intros (_ & B0 & B1 & B2 & B3 & B4). unfold frees_in. rewrite B0, B1, B2, B3, B4.
  assert (G : forall k, getb (zeros BEAMFS_DIRECT_BLOCKS) k = 0) by (intros; apply getb_zeros).
  destruct (ftype_of _); try (by split_and!; try done; intros k _; rewrite G). intros H. by vm_compute in H.
Qed.

Lemma frees_relinked i k L : frees_in i L -> frees_in (relinked k i) L.
Proof. done. Qed.

(** ** The error tails *)

Lemma wp_out_iput R R' Q A w ino mode i L ret : st R' Q (enter ino mode 1 A) w -> ~ known A ino -> ino ∉ n_dirs A ->
  f_inodes w !! ino = Some i -> vi_nlink (m_inode i) = 1 -> 0 < ino <= N -> frees_in i L -> R ⊆ R' ->
  (forall x, x ∈ L -> R !! x = None /\ is_Some (R' !! x)) ->
  wp (out_iput ino ret) w (fun rc w' => rc = ret /\ st R Q A w').
Proof.
  intros H Hk Hd E Hn Hr Hf HR HL. unfold out_iput. apply wp_bind. eapply wp_mono; [by apply (wp_dec t cpu N _ _ _ _ ino H)|].
  intros [] w1 [H1 E1]. apply wp_bind. eapply wp_mono.
  - apply (wp_discard t cpu N R R' Q _ w1 ino (relinked (-1) i) L H1); try done; [by rewrite E1, lookup_alter_eq, E|].
    cbn [relinked mset_dirty on_inode m_inode vset_nlink vi_nlink]. by rewrite Hn.
  - intros [] w2 H2. apply wp_ret. split; [done|]. cbn [n_dirs n_map relink enter] in H2. rewrite (delete_relink_enter A ino (-1) mode 1 Hk) in H2. by destruct A.
Qed.

Lemma wp_mkdir_fail R Q A B w d ino mode ret : counted (n_map A) (n_meta A) -> st R Q B w -> ino ∉ n_dirs A -> ~ known A ino -> d <> ino ->
  n_dirs B = {[ino]} ∪ n_dirs A -> n_meta B = n_meta (enter ino mode 2 (relink d 1 A)) ->
  (forall d0 n, d0 ∈ n_dirs A -> n_map B !! (d0, n) = n_map A !! (d0, n)) -> (forall bs, Q ino bs -> zlen bs < 12) -> 0 < ino <= N -> S_ISDIR mode = true ->
  wp (mkdir_fail d ino ret) w (fun rc w' => rc = ret /\ st R any A w').
Proof.
  intros Hc H Hd Hk Hne E1 E2 E3 HQ Hr Hm. unfold mkdir_fail. apply wp_bind. eapply wp_mono; [by apply (wp_dec t cpu N _ _ _ _ ino H)|].
  intros [] w1 [H1 F1]. apply wp_bind. eapply wp_mono; [by apply (wp_dec t cpu N _ _ _ _ ino H1)|]. intros [] w2 [H2 F2].
  assert (Mi : n_meta (relink ino (-1) (relink ino (-1) B)) !! ino = Some (mode, 0)).
  { rewrite !meta_relink, E2. cbn [n_meta enter]. rewrite lookup_insert_eq. cbn [fmap option_fmap option_map]. by rewrite !decide_True. }
  destruct (f_inodes w2 !! ino) as [i|] eqn:Ei.
  2: { destruct H2 as (_ & Em & _). rewrite Em in Mi. unfold meta_of in Mi. by rewrite lookup_fmap, Ei in Mi. }
  assert (Vi : vi_mode (m_inode i) = mode /\ vi_nlink (m_inode i) = 0).
  { destruct H2 as (_ & Em & _). rewrite Em in Mi. unfold meta_of in Mi. rewrite lookup_fmap, Ei in Mi. by injection Mi as -> ->. }
  destruct (st_release t cpu Hctrl N R Q _ w2 ino i H2) as (R' & L & H3 & HR & HL & Zl & I1 & I2 & I3 & Hl); [cbn [n_dirs relink]; set_solver|done|done|].
  apply wp_bind. eapply wp_mono; [apply (wp_discard t cpu N R R' Q _ w2 ino i L H3); try done; [cbn [n_dirs]; set_solver|by apply Vi|]|].
  { unfold frees_in, ftype_of. destruct Vi as [-> _]. unfold S_ISDIR in Hm. rewrite Hm. by split_and!. }
  intros [] w3 H4. cbn [n_dirs n_map n_meta relink] in H4. apply wp_bind. eapply wp_mono; [apply (wp_dec t cpu N _ _ _ _ d H4)|].
  intros [] w4 [H5 _]. apply wp_ret. split; [done|]. apply (st_any t cpu N R Q).
  assert (Ea : relink d (-1) (Names (n_dirs A) (n_map A) (n_meta (relink d 1 A))) = A) by apply (relink_undo A d 1 (-1) Hc eq_refl).
  rewrite <- Ea. unfold relink at 1. cbn [n_dirs n_map n_meta].
  pose proof (st_forget t cpu Hctrl N R Q _ w4 (n_dirs A) (n_map A) H5) as H6. cbn [n_dirs n_map n_meta relink] in H6.
  assert (Eq : delete ino (alter (fun '(mode0, n) => (mode0, u32 (n + -1))) ino (alter (fun '(mode0, n) => (mode0, u32 (n + -1))) ino (n_meta B))) =
    n_meta (relink d 1 A)).
  { apply map_eq. intros j. destruct (decide (j = ino)) as [->|Hj].
    - rewrite lookup_delete_eq. rewrite meta_relink. unfold known in Hk. by destruct (n_meta A !! ino); [destruct Hk; eexists|].
    - rewrite lookup_delete_ne, !lookup_alter_ne, E2 by done. cbn [n_meta enter]. by rewrite lookup_insert_ne. }
  rewrite Eq in H6. apply H6; [set_solver|]. intros d0 n Hd0. symmetry. by apply E3.
Qed.

(** ** create, mkdir *)

(** What an operation leaves: the tree of its specification. *)
Definition done_as (R : gmap Z (option (list Z))) (A : names) (op : nop) (rc : Z) (w : fs S) : Prop :=
  exists A', nspec N A op rc A' /\ st R any A' w.

Lemma create_wp root R A w d name mode : names_ok N root A -> st R any A w -> nop_ok A (NCreate d name mode) ->
  wp (beamfs_create t cpu d name mode) w (done_as R A (NCreate d name mode)).
Proof.
  intros Ok H ((Hd & Hn & Hdn & Hf) & Hm). unfold beamfs_create. apply wp_bind. eapply wp_mono; [by apply (wp_new_inode t cpu N R any A w d)|].
  intros [e|ino] w1; [intros [He H1]; apply wp_ret; exists A; split; [by constructor|done]|].
  intros (i & E & Bi & Hl & Hk & Hr & _ & H1). rewrite Hm in Hl, H1. pose proof (nk_tree _ _ _ Ok) as T.
  assert (Hid : ino ∉ n_dirs A) by (intros Hin; by apply Hk, (tk_open _ _ _ _ _ T)).
  apply wp_bind. eapply wp_mono; [by apply (wp_write t cpu N _ _ _ _ ino H1)|]. intros ? w2 (-> & H2 & E2). cbn [Z.eqb negb].
  apply wp_bind. eapply wp_mono; [by apply (wp_add t cpu Hctrl N _ _ _ _ d name ino DT_REG H2)|].
  intros rc w3 [E3 [(Hrc & H3 & _)|[-> H3]]].
  - replace (rc =? 0) with false by lia. cbn [negb]. eapply wp_mono.
    + apply (wp_out_iput R R any A w3 ino _ i [] rc H3 Hk Hid); try done; [by rewrite E3, E2 by congruence|by eapply blank_frees|]. intros x Hx. by apply elem_of_nil in Hx.
    + intros ? w4 [-> H4]. exists A. split; [by constructor|done].
  - cbn [Z.eqb negb]. apply wp_bind. eapply wp_mono; [apply (wp_write t cpu N _ _ _ _ d H3), (nk_range _ _ _ Ok), (tk_open _ _ _ _ _ T d Hd)|].
    intros ? w4 (-> & H4 & _). cbn [Z.eqb negb]. apply wp_ret. eexists. split; [|by apply st_any in H4].
    constructor; [done|done|]. destruct Bi as [Bi _]. unfold S_ISDIR in *. by rewrite Bi.
Qed.

Lemma mkdir_wp root R A w d name mode : names_ok N root A -> st R any A w -> nop_ok A (NMkdir d name mode) ->
  wp (beamfs_mkdir t cpu d name mode) w (done_as R A (NMkdir d name mode)).
Proof.
  intros Ok H ((Hd & Hn & Hdn & Hf) & Hm). pose proof (nk_tree _ _ _ Ok) as T. pose proof (nk_links _ _ _ Ok) as Hc.
  unfold beamfs_mkdir. apply wp_bind. eapply wp_mono; [by apply (wp_inc t cpu N _ _ _ _ d H)|]. intros [] w0 [H0 _].
  apply wp_bind. eapply wp_mono; [by apply (wp_new_inode t cpu N R any (relink d 1 A) w0 d)|].
  intros [e|ino] w1.
  { intros [He H1]. apply wp_bind. eapply wp_mono; [by apply (wp_dec t cpu N _ _ _ _ d H1)|]. intros [] w2 [H2 _]. apply wp_ret.
    exists A. split; [by constructor|]. by rewrite (relink_undo A d 1 (-1) Hc eq_refl) in H2. }
  intros (i & E & Bi & Hl & Hk & Hr & _ & H1). rewrite Hm in H1. set (mi := vi_mode (m_inode i)) in *.
  assert (Hmi : S_ISDIR mi = true) by (destruct Bi as [Bi _]; unfold S_ISDIR, mi in *; by rewrite Bi).
  assert (Hk' : ~ known A ino) by (by rewrite known_relink in Hk).
  assert (Hid : ino ∉ n_dirs A) by (intros Hin; by apply Hk', (tk_open _ _ _ _ _ T)). assert (Hdi : d <> ino) by (by intros ->).
  assert (Nk : forall n, n_map A !! (ino, n) = None).
  { intros n. destruct (n_map A !! (ino, n)) eqn:En; [|done]. by apply (tk_named _ _ _ _ _ T) in En as [? _]. }
  assert (No : forall d0 (n : list Z), d0 ∈ n_dirs A -> d0 <> ino) by (by intros d0 n Hd0 ->).
  pose proof (nk_range _ _ _ Ok d (proj2 (tk_open _ _ _ _ _ T d Hd))) as Hrd.
  pose proof (st_open t cpu Hctrl N R any _ w1 ino i _ H1 Hid E Bi Nk) as H2.
  set (Q0 := setQ any ino (fun bs => zlen bs <= 0)) in *. assert (HQ0 : forall bs, Q0 ino bs -> zlen bs <= 0) by (intros bs; unfold Q0; by rewrite setQ_eq).
  apply wp_bind. eapply wp_mono.
  { apply (wp_add t cpu Hctrl N _ _ _ _ ino [dot] ino DT_DIR H2); [cbn; set_solver|split; [by apply bytes_check|vm_compute; split; congruence]|done| |apply Nk].
    unfold is_byte, DT_DIR. lia. }
  intros rc w3 [_ [(Hrc & H3 & _)|[-> H3]]].
  { replace (rc =? 0) with false by lia. cbn [negb]. eapply wp_mono.
    - apply (wp_mkdir_fail R Q0 A _ w3 d ino mi rc Hc H3); try done. intros bs Hb%HQ0. lia.
    - intros ? w4 [-> H4]. exists A. split; [by constructor|done]. }
  cbn [Z.eqb negb]. match type of H3 with st _ ?q _ _ => set (Q1 := q) in * end.
  assert (HQ1 : forall bs, Q1 ino bs -> zlen bs <= 1) by (intros bs; unfold Q1; rewrite setQ_eq; intros (bs0 & Hb%HQ0 & ?); lia).
  apply wp_bind. eapply wp_mono.
  { apply (wp_add t cpu Hctrl N _ _ _ _ ino [dot; dot] d DT_DIR H3); [cbn; set_solver|split; [by apply bytes_check|vm_compute; split; congruence]|done| |].
    - unfold is_byte, DT_DIR. lia.
    - cbn [n_map bind open_dir enter relink]. by rewrite lookup_insert_ne. }
  intros rc w4 [_ [(Hrc & H4 & _)|[-> H4]]].
  { replace (rc =? 0) with false by lia. cbn [negb]. eapply wp_mono.
    - apply (wp_mkdir_fail R Q1 A _ w4 d ino mi rc Hc H4); try done; [|intros bs Hb%HQ1; lia].
      intros d0 n Hd0. cbn [n_map bind open_dir enter relink]. pose proof (No d0 n Hd0). by rewrite lookup_insert_ne by congruence.
    - intros ? w5 [-> H5]. exists A. split; [by constructor|done]. }
  cbn [Z.eqb negb]. match type of H4 with st _ ?q _ _ => set (Q2 := q) in * end.
  assert (HQ2 : forall bs, Q2 ino bs -> zlen bs <= 2) by (intros bs; unfold Q2; rewrite setQ_eq; intros (bs0 & Hb%HQ1 & ?); lia).
  apply wp_bind. eapply wp_mono; [by apply (wp_write t cpu N _ _ _ _ ino H4)|]. intros ? w5 (-> & H5 & _). cbn [Z.eqb negb].
  apply wp_bind. eapply wp_mono.
  { apply (wp_add t cpu Hctrl N _ _ _ _ d name ino DT_DIR H5); [cbn; set_solver|done|done| |].
    - unfold is_byte, DT_DIR. lia.
    - cbn [n_map bind open_dir enter relink]. rewrite !lookup_insert_ne by congruence. done. }
  intros rc w6 [_ [(Hrc & H6 & _)|[-> H6]]].
  { replace (rc =? 0) with false by lia. cbn [negb]. eapply wp_mono.
    - apply (wp_mkdir_fail R Q2 A _ w6 d ino mi rc Hc H6); try done; [|intros bs Hb%HQ2; lia].
      intros d0 n Hd0. cbn [n_map bind open_dir enter relink]. pose proof (No d0 n Hd0). by rewrite !lookup_insert_ne by congruence.
    - intros ? w7 [-> H7]. exists A. split; [by constructor|done]. }
  cbn [Z.eqb negb]. apply wp_bind. eapply wp_mono; [by apply (wp_write t cpu N _ _ _ _ d H6)|]. intros ? w7 (-> & H7 & _). cbn [Z.eqb negb].
  apply wp_ret. eexists. split; [by apply (ns_mkdir N A d name mode ino mi)|]. apply st_any in H7.
  match type of H7 with st _ _ ?X _ => match goal with |- st _ _ ?Y _ => replace Y with X; [done|] end end.
  apply names_eq; [done|done|]. pose proof (relink_enter A d 1 ino mi 2 ltac:(congruence)) as Er. apply (f_equal n_meta) in Er. symmetry. exact Er.
Qed.

(** ** unlink, rmdir, link *)

Lemma relink_twice A i k k' : relink i k (relink i k' A) = relink i (k' + k) A.
Proof.
  apply names_eq; [done|done|]. apply map_eq. intros j. rewrite !meta_relink. destruct (n_meta A !! j) as [[m n]|]; [|done]. cbn.
  do 2 f_equal. case_decide; [|done]. rewrite u32_add_l. f_equal. lia.
Qed.

Lemma unlink_wp root R A w d name i : names_ok N root A -> st R any A w -> nop_ok A (NUnlink d name i) ->
  wp (beamfs_unlink t cpu d name i) w (done_as R A (NUnlink d name i)).
Proof.
  intros Ok H ((Hdn & Hf) & Hnd). pose proof (nk_tree _ _ _ Ok) as T. destruct (tk_named _ _ _ _ _ T _ _ _ Hf) as [Hd Hi].
  unfold beamfs_unlink. apply wp_bind. eapply wp_mono; [by apply (wp_del t cpu Hctrl N _ _ _ _ d name i H)|]. intros ? w1 [-> H1]. cbn [Z.eqb negb].
  apply wp_bind. eapply wp_mono; [by apply (wp_ctime t cpu N _ _ _ _ i H1)|]. intros [] w2 H2.
  apply wp_bind. eapply wp_mono; [by apply (wp_dec t cpu N _ _ _ _ i H2)|]. intros [] w3 [H3 _].
  apply wp_bind. eapply wp_mono; [apply (wp_write t cpu N _ _ _ _ d H3), (nk_range _ _ _ Ok), (tk_open _ _ _ _ _ T d Hd)|].
  intros ? w4 (-> & H4 & _). apply wp_ret. eexists. split; [constructor|]. by apply st_any in H4.
Qed.

(** A bare directory is closed. *)
Lemma st_close R Q A w i : st R Q A w -> st R Q (close_dir i A) w.
Proof.
  intros H. apply (st_forget t cpu Hctrl N R Q A w (n_dirs A ∖ {[i]}) _ H); [set_solver|]. intros d n Hd.
  assert (d <> i) by set_solver. by rewrite !lookup_delete_ne by congruence.
Qed.

Lemma rmdir_wp root R A w d name i : names_ok N root A -> st R any A w -> nop_ok A (NRmdir d name i) ->
  wp (beamfs_rmdir t cpu d name i) w (done_as R A (NRmdir d name i)).
Proof.
  intros Ok H ((Hdn & Hf) & Hm). pose proof (nk_tree _ _ _ Ok) as T. destruct (tk_named _ _ _ _ _ T _ _ _ Hf) as [Hd Hk].
  pose proof (tk_dir _ _ _ _ _ T _ _ _ Hf Hm) as Hi.
  unfold beamfs_rmdir. apply wp_bind. eapply wp_mono; [by apply (wp_empty t cpu N _ _ _ _ i H)|].
  intros rc w1 [H1 [[-> Hb]|[-> Hb]]]; [|cbn [negb]; apply wp_ret; exists A; split; [by constructor|done]]. cbn [Z.eqb negb].
  apply wp_bind. eapply wp_mono; [by apply (wp_del t cpu Hctrl N _ _ _ _ d name i H1)|]. intros ? w2 [-> H2]. cbn [Z.eqb negb].
  apply wp_bind. eapply wp_mono; [by apply (wp_dec t cpu N _ _ _ _ i H2)|]. intros [] w3 [H3 _].
  apply wp_bind. eapply wp_mono; [by apply (wp_dec t cpu N _ _ _ _ i H3)|]. intros [] w4 [H4 _].
  apply wp_bind. eapply wp_mono; [by apply (wp_dec t cpu N _ _ _ _ d H4)|]. intros [] w5 [H5 _].
  apply wp_bind. eapply wp_mono; [apply (wp_write t cpu N _ _ _ _ d H5), (nk_range _ _ _ Ok), (tk_open _ _ _ _ _ T d Hd)|].
  intros ? w6 (-> & H6 & _). apply wp_ret. eexists. split; [by apply ns_rmdir|]. rewrite relink_twice in H6.
  apply st_any, (st_close _ _ _ _ i) in H6. exact H6.
Qed.

Lemma link_wp root R A w i d name : names_ok N root A -> st R any A w -> nop_ok A (NLink i d name) ->
  wp (beamfs_link t cpu i d name) w (done_as R A (NLink i d name)).
Proof.
  intros Ok H ((Hd & Hn & Hdn & Hf) & Hk & Hm). pose proof (nk_tree _ _ _ Ok) as T. pose proof (nk_links _ _ _ Ok) as Hc.
  pose proof (nk_range _ _ _ Ok i Hk) as Hr. unfold beamfs_link.
  apply wp_bind. eapply wp_mono; [by apply (wp_ctime t cpu N _ _ _ _ i H)|]. intros [] w1 H1.
  apply wp_bind. eapply wp_mono; [by apply (wp_inc t cpu N _ _ _ _ i H1)|]. intros [] w2 [H2 _].
  apply wp_bind. unfold wp at 1, inode. cbn [fst snd]. set (ft := umode_to_dtype _).
  assert (Hft : is_byte ft).
  { unfold ft, umode_to_dtype, is_byte. rewrite Z.shiftr_land. change (Z.shiftr S_IFMT 12) with (Z.ones 4). rewrite Z.land_ones by lia.
    pose proof (Z.mod_pos_bound (Z.shiftr (vi_mode (m_inode (default no_inode (f_inodes w2 !! i)))) 12) (2 ^ 4)). lia. }
  apply wp_bind. eapply wp_mono; [by apply (wp_add t cpu Hctrl N _ _ _ _ d name i ft H2)|].
  intros rc w3 [_ [(Hrc & H3 & _)|[-> H3]]].
  - replace (rc =? 0) with false by lia. cbn [negb]. apply wp_bind. eapply wp_mono; [by apply (wp_dec t cpu N _ _ _ _ i H3)|]. intros [] w4 [H4 _].
    apply wp_ret. exists A. split; [by constructor|]. by rewrite (relink_undo A i 1 (-1) Hc eq_refl) in H4.
  - cbn [Z.eqb negb]. apply wp_bind. eapply wp_mono; [by apply (wp_write t cpu N _ _ _ _ i H3)|]. intros ? w4 (-> & H4 & _). cbn [Z.eqb].
    apply wp_bind. eapply wp_mono; [apply (wp_write t cpu N _ _ _ _ d H4), (nk_range _ _ _ Ok), (tk_open _ _ _ _ _ T d Hd)|].
    intros ? w5 (-> & H5 & _). apply wp_ret. eexists. split; [apply ns_link|]. by apply st_any in H5.
Qed.

(** ** rename *)

(** The destination's inode, with the room its name leaves. *)
Lemma replace_wp root R A w (dir : bool) nd nn n : names_ok N root A -> st R any A w -> bound A nd nn n ->
  (if dir then is_directory A n else ~ is_directory A n) ->
  wp (rename_replace t cpu dir nd nn (Some n)) w (fun rc w' =>
    rc = - ENOTEMPTY /\ dir = true /\ ~ bare A n /\ st R any A w' \/
    rc = 0 /\ (dir = true -> bare A n) /\ st R (setQ any nd (room_for nn)) (if dir then drop_dir nd nn n A else drop_name nd nn n A) w').
Proof.
  intros Ok H (Hdn & Hf) Hk. pose proof (nk_tree _ _ _ Ok) as T. destruct (tk_named _ _ _ _ _ T _ _ _ Hf) as [Hd _].
  unfold rename_replace. apply wp_bind. destruct dir.
  - pose proof (tk_dir _ _ _ _ _ T _ _ _ Hf Hk) as Hn. eapply wp_mono; [by apply (wp_empty t cpu N _ _ _ _ n H)|].
    intros rc w1 [H1 [[-> Hb]|[-> Hb]]]; [|cbn [negb]; apply wp_ret; by left]. cbn [Z.eqb negb].
    apply wp_bind. eapply wp_mono; [by apply (wp_del t cpu Hctrl N _ _ _ _ nd nn n H1)|]. intros ? w2 [-> H2]. cbn [Z.eqb negb]. do 2 apply wp_bind.
    eapply wp_mono; [by apply (wp_dec t cpu N _ _ _ _ n H2)|]. intros [] w3 [H3 _].
    apply wp_bind. eapply wp_mono; [by apply (wp_dec t cpu N _ _ _ _ n H3)|]. intros [] w4 [H4 _].
    eapply wp_mono; [by apply (wp_dec t cpu N _ _ _ _ nd H4)|]. intros [] w5 [H5 _].
    apply wp_bind. eapply wp_mono; [by apply (wp_ctime t cpu N _ _ _ _ n H5)|]. intros [] w6 H6. apply wp_ret. right. split; [done|]. split; [done|].
    rewrite relink_twice in H6. exact (st_close _ _ _ _ n H6).
  - apply wp_ret. cbn [Z.eqb negb]. apply wp_bind. eapply wp_mono; [by apply (wp_del t cpu Hctrl N _ _ _ _ nd nn n H)|]. intros ? w2 [-> H2]. cbn [Z.eqb negb].
    apply wp_bind. eapply wp_mono; [by apply (wp_dec t cpu N _ _ _ _ n H2)|]. intros [] w3 [H3 _].
    apply wp_bind. eapply wp_mono; [by apply (wp_ctime t cpu N _ _ _ _ n H3)|]. intros [] w4 H4. apply wp_ret. right. by split_and!.
Qed.

(** A name that was just taken away can be given again. *)
Lemma wp_add_again R Q A w d name ino ft : st R Q A w -> d ∈ n_dirs A -> name_ok name -> 0 < ino <= N -> is_byte ft -> n_map A !! (d, name) = None ->
  (forall bs, Q d bs -> room_for name bs) -> wp (add_dirent t cpu d name ino ft) w (fun rc w' => rc = 0 /\ st R any (bind d name ino A) w').
Proof.
  intros H Hd Hn Hi Hf Hm HQ. eapply wp_mono; [by apply (wp_add t cpu Hctrl N _ _ _ _ d name ino ft H)|].
  intros rc w1 [_ [(_ & _ & bs & Hb & Hr)|[-> H1]]]; [by destruct Hr; apply HQ|]. split; [done|]. by apply st_any in H1.
Qed.

Lemma dotdot_wp R A w od i nd : st R any A w -> i ∈ n_dirs A -> 0 < i <= N -> 0 < nd <= N -> n_map A !! (i, [dot; dot]) = Some od ->
  wp (rename_dotdot t cpu od i nd) w (fun rc w' => rc = 0 /\ st R any (reparent i od nd A) w').
Proof.
  intros H Hi Hri Hrn Hp. unfold rename_dotdot. apply wp_bind. eapply wp_mono; [by apply (wp_del t cpu Hctrl N _ _ _ _ i _ od H)|].
  intros ? w1 [-> H1]. cbn [Z.eqb negb]. apply wp_bind. eapply wp_mono.
  { apply (wp_add_again _ _ _ _ i [dot; dot] nd DT_DIR H1); [done|split; [by apply bytes_check|vm_compute; split; congruence]|done| | |].
    - unfold is_byte, DT_DIR. lia.
    - apply lookup_delete_eq.
    - intros bs. by rewrite setQ_eq. }
  intros ? w2 [-> H2]. cbn [Z.eqb negb]. apply wp_bind. eapply wp_mono; [by apply (wp_dec t cpu N _ _ _ _ od H2)|]. intros [] w3 [H3 _].
  apply wp_bind. eapply wp_mono; [by apply (wp_inc t cpu N _ _ _ _ nd H3)|]. intros [] w4 [H4 _].
  eapply wp_mono; [by apply (wp_write t cpu N _ _ _ _ i H4)|]. intros ? w5 (-> & H5 & _). split; [done|].
  unfold reparent. unfold bind, unbind in H5 |- *. cbn [n_map n_dirs n_meta] in H5. by rewrite insert_delete_eq in H5.
Qed.

Lemma finish_wp R A w od i nd tgt : st R any A w -> 0 < i <= N -> 0 < od <= N -> 0 < nd <= N -> (forall n, tgt = Some n -> 0 < n <= N) ->
  wp (rename_finish od i nd tgt) w (fun rc w' => rc = 0 /\ st R any A w').
Proof.
  intros H Hi Ho Hd Ht. unfold rename_finish.
  apply wp_bind. eapply wp_mono; [by apply (wp_ctime t cpu N _ _ _ _ i H)|]. intros [] w1 H1.
  apply wp_bind. eapply wp_mono; [by apply (wp_mtime t cpu N _ _ _ _ od H1)|]. intros [] w2 H2.
  apply wp_bind. eapply wp_mono; [by apply (wp_ctime t cpu N _ _ _ _ od H2)|]. intros [] w3 H3.
  apply wp_bind. eapply wp_mono; [by apply (wp_mtime t cpu N _ _ _ _ nd H3)|]. intros [] w4 H4.
  apply wp_bind. eapply wp_mono; [by apply (wp_ctime t cpu N _ _ _ _ nd H4)|]. intros [] w5 H5.
  apply wp_bind. eapply wp_mono; [by apply (wp_write t cpu N _ _ _ _ i H5)|]. intros ? w6 (-> & H6 & _). cbn [Z.eqb negb].
  apply wp_bind. eapply wp_mono; [by apply (wp_write t cpu N _ _ _ _ od H6)|]. intros ? w7 (-> & H7 & _). cbn [Z.eqb negb].
  apply wp_bind. apply (wp_mono _ _ (fun rc w' => rc = 0 /\ st R any A w')).
  { destruct (negb (od =? nd)); [|by apply wp_ret]. eapply wp_mono; [by apply (wp_write t cpu N _ _ _ _ nd H7)|]. by intros ? w8 (-> & H8 & _). }
  intros ? w8 [-> H8]. cbn [Z.eqb negb]. destruct tgt as [n|]; [|by apply wp_ret]. apply wp_bind.
  eapply wp_mono; [by apply (wp_write t cpu N _ _ _ _ n H8), Ht|]. intros ? w9 (-> & H9 & _). by apply wp_ret.
Qed.

Lemma move_tail_wp R Q A w od on i nd nn (dir : bool) tgt : st R Q A w -> bound A od on i -> nd ∈ n_dirs A -> od ∈ n_dirs A -> ~ dots nn ->
  n_map A !! (nd, nn) = None -> name_ok nn -> (dir = true -> i ∈ n_dirs A /\ n_map A !! (i, [dot; dot]) = Some od) ->
  0 < i <= N -> 0 < od <= N -> 0 < nd <= N -> (forall n, tgt = Some n -> 0 < n <= N) ->
  (tgt <> None -> forall bs, Q nd bs -> room_for nn bs) ->
  wp (ret ← add_dirent t cpu nd nn i (type_of dir);
      if negb (ret =? 0) then rename_restore t cpu nd nn tgt ret
      else
        ret ← del_dirent t cpu od on;
        if negb (ret =? 0) then del_dirent t cpu nd nn;; mret ret
        else
          ret ← (if dir && negb (od =? nd) then rename_dotdot t cpu od i nd else mret 0);
          if negb (ret =? 0) then mret ret else rename_finish od i nd tgt) w
    (fun rc w' => rc <> 0 /\ tgt = None /\ st R Q A w' \/
      rc = 0 /\ st R any (if dir && negb (od =? nd) then reparent i od nd (move od on i nd nn A) else move od on i nd nn A) w').
Proof.
  intros H (Hon & Hf) Hnd Hod Hnn Hfree Hok Hdir Hri Hro Hrn Hrt HQ.
  apply wp_bind. eapply wp_mono; [apply (wp_add t cpu Hctrl N _ _ _ _ nd nn i (type_of dir) H); try done|].
  { unfold is_byte, type_of, DT_DIR, DT_REG. destruct dir; lia. }
  intros rc w1 [_ [(Hrc & H1 & bs & Hb & Hr)|[-> H1]]].
  { replace (rc =? 0) with false by lia. cbn [negb]. destruct tgt as [n|]; [by destruct Hr; apply HQ|]. apply wp_ret. left. by split_and!. }
  cbn [Z.eqb negb]. apply st_any in H1. assert (Hk : (od, on) <> (nd, nn)) by congruence.
  apply wp_bind. eapply wp_mono; [apply (wp_del t cpu Hctrl N _ _ _ _ od on i H1 Hod)|].
  { cbn [n_map bind]. by rewrite lookup_insert_ne. }
  intros ? w2 [-> H2]. cbn [Z.eqb negb]. apply st_any in H2. apply wp_bind.
  apply (wp_mono _ _ (fun rc w' => rc = 0 /\ st R any (if dir && negb (od =? nd) then reparent i od nd (move od on i nd nn A) else move od on i nd nn A) w')).
  { destruct (dir && negb (od =? nd)) eqn:E; [|by apply wp_ret]. apply andb_true_iff in E as [-> E]. destruct (Hdir eq_refl) as [Hi Hp].
    apply dotdot_wp; try done. cbn [n_map move unbind bind]. rewrite lookup_delete_ne, lookup_insert_ne; [done| |]; intros [= _ E2]; subst; [by apply Hnn; auto with names|by apply Hon; auto with names]. }
  intros ? w3 [-> H3]. cbn [Z.eqb negb]. eapply wp_mono; [by apply (finish_wp R _ w3 od i nd tgt H3)|]. intros ? w4 [-> H4]. by right.
Qed.

Lemma rename_wp root R A w od on i nd nn tgt flags : names_ok N root A -> st R any A w -> nop_ok A (NRename od on i nd nn tgt flags) ->
  wp (beamfs_rename t cpu od on i nd nn tgt flags) w (done_as R A (NRename od on i nd nn tgt flags)).
Proof.
  intros Ok H (Hb & Hnd & Hne & Hok & Hnn & Ht & Hti & Hk). pose proof (nk_tree _ _ _ Ok) as T. pose proof Hb as [Hon Hf].
  destruct (tk_named _ _ _ _ _ T _ _ _ Hf) as [Hod Hi]. destruct (st_inode t cpu N _ _ _ _ i H Hi) as (mi & Ei).
  assert (Hd : S_ISDIR (vi_mode (m_inode mi)) = bool_decide (i ∈ n_dirs A)).
  { destruct H as (_ & Em & _). assert (Me : n_meta A !! i = Some (vi_mode (m_inode mi), vi_nlink (m_inode mi))) by (rewrite Em; unfold meta_of; by rewrite lookup_fmap, Ei).
    case_bool_decide as Hin.
    - destruct (tk_open _ _ _ _ _ T i Hin) as [(m & n & E & D) _]. congruence.
    - destruct (S_ISDIR _) eqn:D; [|done]. destruct Hin. apply (tk_dir _ _ _ _ _ T od on i Hf). by do 2 eexists. }
  pose proof (nk_range _ _ _ Ok) as Rg. pose proof (Rg i Hi) as Hri. pose proof (Rg od (proj2 (tk_open _ _ _ _ _ T od Hod))) as Hro.
  pose proof (Rg nd (proj2 (tk_open _ _ _ _ _ T nd Hnd))) as Hrn.
  assert (Hrt : forall n, tgt = Some n -> 0 < n <= N) by (intros n ->; apply Rg; by eapply (tk_named _ _ _ _ _ T)).
  unfold beamfs_rename. apply wp_bind, (wp_inode _ mi); [done|]. rewrite Hd. set (dir := bool_decide (i ∈ n_dirs A)).
  destruct (Z.eqb_spec (Z.land flags (Z.lnot RENAME_NOREPLACE)) 0) as [|Hfl]; cbn [negb]; [|apply wp_ret; exists A; split; [by constructor|done]].
  assert (Di : dir = true -> i ∈ n_dirs A) by apply bool_decide_eq_true.
  assert (Hp : dir = true -> n_map A !! (i, [dot; dot]) = Some od) by (intros Hin%Di; by apply (tk_child _ _ _ _ _ T od on i)).
  destruct tgt as [n|].
  - destruct (Z.eqb_spec (Z.land flags RENAME_NOREPLACE) 0) as [|Hfr]; cbn [negb andb]; [|apply wp_ret; exists A; split; [by constructor|done]].
    assert (Hni : n <> i) by congruence. assert (Hk1 : (od, on) <> (nd, nn)) by congruence.
    assert (Ei' : dir = true <-> is_directory A i).
    { unfold dir. rewrite bool_decide_eq_true. split; [apply T|intros; by eapply (tk_dir _ _ _ _ _ T)]. }
    apply wp_bind. eapply wp_mono; [apply (replace_wp root R A w dir nd nn n Ok H); [done|]; destruct dir; [by apply Hk, Ei'|by intros D%Hk%Ei']|].
    intros rc w1 [(-> & Edir & Hnb & H1)|(-> & Hbare & H1)]; [apply wp_ret; exists A; split; [by apply ns_rename_busy; [apply Di|]|done]|].
    cbn [Z.eqb negb]. set (A1 := if dir then drop_dir nd nn n A else drop_name nd nn n A) in *.
    assert (F : bound A1 od on i /\ nd ∈ n_dirs A1 /\ od ∈ n_dirs A1 /\ n_map A1 !! (nd, nn) = None /\
                (dir = true -> i ∈ n_dirs A1 /\ n_map A1 !! (i, [dot; dot]) = Some od)).
    { unfold A1. destruct dir.
      - pose proof (Hbare eq_refl) as Bn. assert (Hond : od <> n) by (intros ->; by apply Hon, (Bn on i)).
        assert (Hnnd : nd <> n) by (intros ->; by apply Hnn, (Bn nn n)). specialize (Di eq_refl). specialize (Hp eq_refl).
        split; [split; [done|by rewrite drop_dir_lookup]|]. split; [cbn; set_solver|]. split; [cbn; set_solver|]. split.
        + cbn [n_map drop_dir relink close_dir unbind]. rewrite !lookup_delete_ne by congruence. apply lookup_delete_eq.
        + intros _. split; [cbn; set_solver|]. rewrite drop_dir_lookup; [done|done| |cbn; congruence]. intros [= _ E]. apply Hnn. rewrite <- E. auto with names.
      - split; [split; [done|cbn; by rewrite lookup_delete_ne by congruence]|]. split; [done|]. split; [done|]. split; [cbn; apply lookup_delete_eq|done]. }
    destruct F as (F1 & F2 & F3 & F4 & F5).
    eapply wp_mono; [apply (move_tail_wp R _ A1 w1 od on i nd nn dir (Some n) H1); try done|].
    { intros _ bs. by rewrite setQ_eq. }
    intros rc w2 [(_ & ? & _)|[-> H2]]; [done|]. eexists. split; [|exact H2].
    apply (ns_rename N A od on i nd nn (Some n) flags). intros n0 [= <-]. exact Hbare.
  - cbn [andb]. rewrite andb_false_r. apply wp_bind, wp_ret. cbn [Z.eqb negb].
    eapply wp_mono; [apply (move_tail_wp R _ A w od on i nd nn dir None H); try done; auto|].
    intros rc w2 [(Hrc & _ & H2)|[-> H2]]; [exists A; split; [by apply ns_rename_full|done]|]. eexists. split; [|exact H2].
    by apply (ns_rename N A od on i nd nn None flags).
Qed.

(** ** symlink *)

(** What a data block holds for a target. *)
Definition link_block (ino : Z) (target : list Z) : list Z :=
  snd (build_data_block c t cpu (zeros BEAMFS_BLOCK_SIZE) (splice (zeros BEAMFS_DATA_INLINE_BYTES) 0 target) ino 0).

(** The inode keeps the target, in its pointers or in a block. *)
Definition stores (w : fs S) (ino : Z) (target : list Z) : Prop :=
  exists i, f_inodes w !! ino = Some i /\ vi_size (m_inode i) = zlen target /\
    if zlen target <? sizeof_direct then vi_direct (m_inode i) = direct_words (splice (zeros sizeof_direct) 0 target)
    else getb (vi_direct (m_inode i)) 0 <> 0 /\ bread (f_env w) (getb (vi_direct (m_inode i)) 0) = Some (link_block ino target).

Lemma store_wp R Q A w ino target : st R Q A w -> ino ∉ n_dirs A ->
  wp (beamfs_symlink_store_block c t cpu ino target) w (fun rc w' =>
    rc <> 0 /\ st R Q A w' /\ f_inodes w' = f_inodes w \/
    rc = 0 /\ exists phys, phys <> 0 /\ R !! phys = None /\ st (<[phys := Some (link_block ino target)]> R) Q A w' /\
      f_inodes w' = alter (on_inode (fun v => vset_direct v (setb (vi_direct v) 0 phys))) ino (f_inodes w)).
Proof.
  intros H Hi. unfold beamfs_symlink_store_block. apply wp_bind, wp_env_get.
  rewrite (writable_scratch N) by apply H. cbn [negb]. apply wp_bind, wp_env_do. destruct (balloc (f_env w) ino) as [phys s1] eqn:Ea. cbn [fst snd].
  destruct (Z.eqb_spec phys 0) as [->|Hp].
  { apply wp_ret. left. split; [done|]. split; [|done]. by apply (st_balloc_none t cpu N _ _ _ _ ino). }
  apply wp_bind, wp_env_get. cbn [f_env]. destruct (getblk s1 phys); cbn [negb].
  2: { apply wp_bind, wp_env_step, wp_ret. left. split; [done|]. split; [|done]. exact (st_unalloc t cpu N R Q A w ino phys s1 H Ea Hp). }
  apply wp_bind, wp_env_step. cbn [f_env f_inodes]. fold (link_block ino target). apply wp_bind, wp_env_get. cbn [f_env].
  destruct (Z.eqb_spec (sync_buffer (bput s1 phys (link_block ino target)) phys) 0) as [|Hs]; cbn [negb].
  2: { apply wp_bind, wp_env_step, wp_ret. left. split; [done|]. split; [|done]. exact (st_unput t cpu N R Q A w ino phys s1 _ H Ea Hp). }
  destruct (st_balloc t cpu N R Q A w ino phys s1 (link_block ino target) H Ea Hp) as [Hn H1].
  apply wp_bind. eapply wp_mono; [by apply (wp_update_other t cpu N _ _ _ _ ino _ H1 Hi)|]. intros [] w2 (H2 & _ & E2). apply wp_ret. right. split; [done|].
  exists phys. by split_and!.
Qed.

(** Once the target is kept, the name is given or everything is undone. *)
Lemma symlink_tail R R' A w d name (target : list Z) ino i (L : list Z) : st R' any (enter ino (vi_mode (m_inode i)) 1 A) w -> free_name A d name -> ~ known A ino -> ino ∉ n_dirs A ->
  f_inodes w !! ino = Some i -> vi_nlink (m_inode i) = 1 -> 0 < ino <= N -> 0 < d <= N ->
  frees_in (on_inode (fun v => vset_size v (zlen target)) i) L -> R ⊆ R' -> (forall x, x ∈ L -> R !! x = None /\ is_Some (R' !! x)) ->
  S_ISDIR (vi_mode (m_inode i)) = false ->
  wp (update ino (on_inode (fun v => vset_size v (zlen target)));; update ino (mset_ops IopsSymlink);;
      ret ← write_inode_raw ino;
      if negb (ret =? 0) then out_iput ino ret
      else
        ret ← add_dirent t cpu d name ino DT_LNK;
        if negb (ret =? 0) then out_iput ino ret
        else
          ret ← write_inode_raw d;
          if negb (ret =? 0) then out_iput ino ret else mret 0) w
    (fun rc w' => rc <> 0 /\ st R any A w' \/
       rc = 0 /\ st R' any (bind d name ino (enter ino (vi_mode (m_inode i)) 1 A)) w' /\
       f_inodes w' !! ino = Some (mset_ops IopsSymlink (on_inode (fun v => vset_size v (zlen target)) i))).
Proof.
  intros H (Hd & Hn & Hdn & Hf) Hk Hid E Hl Hr Hrd Hfr HR HL Hm. set (i1 := mset_ops _ _).
  apply wp_bind. eapply wp_mono; [by apply (wp_update_other t cpu N _ _ _ _ ino _ H)|]. intros [] w1 (H1 & _ & E1).
  apply wp_bind. eapply wp_mono; [by apply (wp_update_other t cpu N _ _ _ _ ino _ H1)|]. intros [] w2 (H2 & _ & E2).
  assert (Ei : f_inodes w2 !! ino = Some i1) by (by rewrite E2, E1, !lookup_alter_eq, E).
  apply wp_bind. eapply wp_mono; [by apply (wp_write t cpu N _ _ _ _ ino H2)|]. intros ? w3 (-> & H3 & E3). cbn [Z.eqb negb].
  apply wp_bind. eapply wp_mono; [by apply (wp_add t cpu Hctrl N _ _ _ _ d name ino DT_LNK H3)|].
  intros rc w4 [E4 [(Hrc & H4 & _)|[-> H4]]].
  - replace (rc =? 0) with false by lia. cbn [negb]. eapply wp_mono.
    + apply (wp_out_iput R R' any A w4 ino _ i1 L rc H4 Hk Hid); try done. rewrite E4, E3; [done|]. by intros ->.
    + intros ? w5 [-> H5]. by left.
  - cbn [Z.eqb negb]. apply wp_bind. eapply wp_mono; [by apply (wp_write t cpu N _ _ _ _ d H4)|]. intros ? w5 (-> & H5 & E5). cbn [Z.eqb negb].
    apply wp_ret. right. split; [done|]. split; [by apply st_any in H5|]. rewrite E5, E4, E3; [done|]. by intros ->.
Qed.

Lemma symlink_wp root R A w d name target : names_ok N root A -> st R any A w -> nop_ok A (NSymlink d name target) ->
  wp (beamfs_symlink c t cpu d name target) w (fun rc w' => rc <> 0 /\ st R any A w' \/
    rc = 0 /\ exists ino mode, ~ known A ino /\ 0 < ino <= N /\ S_ISDIR mode = false /\
      st R any (bind d name ino (enter ino mode 1 A)) w' /\ stores w' ino target).
Proof.
  intros Ok H (Hfn & Hb). pose proof Hfn as (Hd & Hn & Hdn & Hf). pose proof (nk_tree _ _ _ Ok) as T.
  pose proof (nk_range _ _ _ Ok d (proj2 (tk_open _ _ _ _ _ T d Hd))) as Hrd. unfold beamfs_symlink.
  destruct ((zlen target =? 0) || (beamfs_block_payload c <? zlen target)); [apply wp_ret; by left|].
  apply wp_bind. eapply wp_mono; [by apply (wp_new_inode t cpu N R any A w d)|].
  intros [e|ino] w1; [intros [He H1]; apply wp_ret; by left|].
  intros (i & E & Bi & Hl & Hk & Hr & _ & H1). change (S_ISDIR (Z.lor MODE_LNK 511)) with false in Hl, H1.
  assert (Hid : ino ∉ n_dirs A) by (intros Hin; by apply Hk, (tk_open _ _ _ _ _ T)).
  assert (Hm : S_ISDIR (vi_mode (m_inode i)) = false) by (destruct Bi as [Bi _]; unfold S_ISDIR; by rewrite Bi).
  assert (Hty : ftype_of (vi_mode (m_inode i)) = S_IFLNK) by (destruct Bi as [Bi _]; unfold ftype_of; by rewrite Bi).
  apply wp_bind. eapply wp_mono; [by apply (wp_update_other t cpu N _ _ _ _ ino _ H1)|]. intros [] w2 (H2 & _ & E2).
  set (i2 := on_inode (fun v => vset_direct v (zeros BEAMFS_DIRECT_BLOCKS)) i).
  assert (Ei2 : f_inodes w2 !! ino = Some i2) by (by rewrite E2, lookup_alter_eq, E). apply wp_bind.
  destruct (Z.ltb_spec (zlen target) sizeof_direct) as [Hs|Hs].
  - apply wp_bind. eapply wp_mono; [by apply (wp_update_other t cpu N _ _ _ _ ino _ H2)|]. intros [] w3 (H3 & _ & E3). apply wp_ret. cbn [Z.eqb negb].
    set (f3 := on_inode _) in E3.
    eapply wp_mono; [apply (symlink_tail R R A w3 d name target ino (f3 i2) [] H3 Hfn Hk Hid); try done|].
    + by rewrite E3, lookup_alter_eq, Ei2.
    + unfold frees_in. cbn [f3 i2 on_inode m_inode vset_size vset_direct vset_roots vi_mode vi_size]. rewrite Hty. lia.
    + intros x Hx. by apply elem_of_nil in Hx.
    + intros rc w4 [?|(-> & H4 & E4)]; [by left|right]. split; [done|]. exists ino, (vi_mode (m_inode i)). do 4 (split; [done|]).
      eexists. split; [exact E4|]. split; [done|]. destruct (Z.ltb_spec (zlen target) sizeof_direct); [|lia]. done.
  - eapply wp_mono; [by apply (store_wp R any _ w2 ino target H2)|].
    intros rc w3 [(Hrc & H3 & E3)|(-> & phys & Hp & Hnone & H3 & E3)].
    + replace (rc =? 0) with false by lia. cbn [negb]. eapply wp_mono.
      * apply (wp_out_iput R R any A w3 ino _ i2 [] rc H3 Hk Hid); try done; [by rewrite E3|apply (blank_frees (Z.lor MODE_LNK 511)); unfold blank in *; naive_solver|].
        intros x Hx. by apply elem_of_nil in Hx.
      * intros ? w4 [-> H4]. by left.
    + cbn [Z.eqb negb]. set (f3 := on_inode _) in E3.
      eapply wp_mono; [apply (symlink_tail R _ A w3 d name target ino (f3 i2) [phys] H3 Hfn Hk Hid); try done|].
      * by rewrite E3, lookup_alter_eq, Ei2.
      * unfold frees_in. cbn [f3 i2 on_inode m_inode vset_size vset_direct vset_roots vi_mode vi_size vi_direct]. rewrite Hty. intros _ _. by left.
      * by apply insert_subseteq.
      * intros x Hx. apply list_elem_of_singleton in Hx as ->. rewrite lookup_insert_eq. split; [done|by eexists].
      * intros rc w4 [?|(-> & H4 & E4)]; [by left|right]. split; [done|]. exists ino, (vi_mode (m_inode i)). do 3 (split; [done|]). split.
        -- apply (st_less t cpu N R _ _ _ _ H4). by apply insert_subseteq.
        -- eexists. split; [exact E4|]. split; [done|]. destruct (Z.ltb_spec (zlen target) sizeof_direct); [lia|].
           change (getb (vi_direct (m_inode (mset_ops IopsSymlink (on_inode (fun v => vset_size v (zlen target)) (f3 i2))))) 0) with phys.
           split; [done|]. destruct H4 as (_ & _ & own & H4). by destruct (rp_rest _ _ _ _ _ _ _ _ _ H4 phys _ (lookup_insert_eq _ _ _)) as (_ & ? & _).
Qed.
End namei.
