(* ===== verification/NameiVolume.v ===== *)
(** * A mounted volume with its inode table

    What the name operations call, on the volume of the allocator, the
    directory blocks and the inode table put together: the instance, and
    the proof that it keeps the laws the name operations are proved from. *)

From stdpp Require Import gmap.
From S2P Require Import Prelude Format Crc RsInit GF RsTheory RsCode RsCorrect RsDecode RsLib RsComplete Edac EdacWord EdacBlock EdacLayouts EdacTheorems Dirent FileData Super SuperTheorems Alloc AllocBits AllocImage AllocInv AllocTheorems IndParity IndRegion DirentTheorems DirRecords DirOps Dir DirTree FileTree FileMap TreeCheck AllocHealth IndTheorems Volume Inode InodeTheorems Namei NameiSteps.

(** Beyond the volume: the table, the clock, and what the kernel answers. *)
Record nextra := NExtra {
  nx_table : itable;
  nx_now : Z * Z;
  nx_scheme : Z;
  nx_new_inode : bool;
  nx_kmalloc : bool;
  nx_sync : Z -> Z;
  nx_owner : vinode -> Z -> Z * Z }.     (** owner and group of a new inode *)

Definition set_table (x : nextra) (T : itable) : nextra :=
  NExtra T (nx_now x) (nx_scheme x) (nx_new_inode x) (nx_kmalloc x) (nx_sync x) (nx_owner x).

Section volume.
Context `{RL : !RsLib} `{RS : !RsLibSpec} `{CL : !CrcLib} (t : rs_tables) (cpu : nat).

Notation mounted := (mounted t cpu).
Definition nvol : Type := mounted * nextra.

(** A step of the volume alone. *)
Definition on_vol (s : nvol) (f : mounted -> mounted) : nvol := (f (fst s), snd s).

#[export] Instance nvol_dir : DirEnv nvol := {|
  bread s b := bread (fst s) b;
  getblk s b := getblk (fst s) b;
  bput s b c := on_vol s (fun v => bput v b c);
  balloc s ino := let '(b, v) := balloc (fst s) ino in (b, (v, snd s));
  bfree s b ino := on_vol s (fun v => bfree v b ino);
  parity_update s b c ino := on_vol s (fun v => parity_update v b c ino);
  scratch_get s := scratch_get (fst s);
  report s calls := on_vol s (fun v => report v calls) |}.

#[export] Instance nvol_tree : TreeEnv nvol := {|
  FileTree.s_data_start s := FileTree.s_data_start (fst s);
  FileTree.s_nblocks s := FileTree.s_nblocks (fst s);
  FileTree.s_free_blocks s := FileTree.s_free_blocks (fst s);
  is_allocated s b := is_allocated (fst s) b;
  failed s := failed (fst s);
  fail s := on_vol s fail;
  bfree_anon s b := on_vol s (fun v => bfree_anon v b);
  parity_verify s b c := let '(rc, v) := parity_verify (fst s) b c in (rc, (v, snd s));
  uptodate s b := uptodate (fst s) b;
  tc s x := on_vol s (fun v => tc v x) |}.

(** ** Inode numbers *)

Lemma inum_step v s : vol_ok t cpu v -> s = v_alloc v \/ (exists ib n, s = renumber t cpu (v_alloc v) ib n) -> vol_ok t cpu (set_alloc v s).
Proof.
  intros (H1 & [bits H2] & H3) [->|(ib & n & ->)]; split; [done|split; [by exists bits|done]|done|]. cbn [set_alloc v_alloc].
  split; [exists bits; by apply renumber_blocks|]. by apply renumber_healthy.
Qed.

Lemma alloc_inum_cases s : snd (beamfs_alloc_inode_num t cpu s) = s \/ exists ib n, snd (beamfs_alloc_inode_num t cpu s) = renumber t cpu s ib n.
Proof.
  unfold beamfs_alloc_inode_num. destruct (beamfs_failed s); [by left|]. destruct (s_inode_bitmap s) as [ib|]; [|by left].
  destruct (_ =? 0); [by left|]. destruct (_ <? _); [by left|right]. by do 2 eexists.
Qed.

Lemma free_inum_cases s ino : beamfs_free_inode_num t cpu s ino = s \/ exists ib n, beamfs_free_inode_num t cpu s ino = renumber t cpu s ib n.
Proof.
  unfold beamfs_free_inode_num. destruct (_ || _); [by left|]. destruct (s_inode_bitmap s) as [ib|]; [|by left].
  destruct (test_bit ib ino); [by left|right]. by do 2 eexists.
Qed.

Definition valloc_inum (s : mounted) : Z * mounted :=
  (fst (beamfs_alloc_inode_num t cpu (v_alloc (vol t cpu s))), exist _ _ (inum_step (vol t cpu s) _ (proj2_sig s) (alloc_inum_cases _))).
Definition vfree_inum (s : mounted) (ino : Z) : mounted := exist _ _ (inum_step (vol t cpu s) _ (proj2_sig s) (free_inum_cases _ ino)).

Lemma rsv_step v ino : vol_ok t cpu v -> vol_ok t cpu (set_alloc v (beamfs_rsv_discard (v_alloc v) ino)).
Proof.
  intros (H1 & [bits H2] & H3). split; [done|]. cbn [set_alloc v_alloc]. split; [|exact H3]. exists bits. apply alloc_inv_windows; [done|].
  intros o. rewrite ii_insert. pose proof (ai_windows _ _ H2) as W. pose proof (ai_for _ _ H2) as [_ Hn]. cbn [s_nblocks with_windows].
  case_decide; [apply window_ok_no; [apply Hn|apply W]|apply W].
Qed.
Definition vrsv (s : mounted) (ino : Z) : mounted := exist _ _ (rsv_step (vol t cpu s) ino (proj2_sig s)).

(** ** The table *)

Definition table (s : nvol) : itable :=
  let T := nx_table (snd s) in
  ITable (beamfs_failed (v_alloc (vol t cpu (fst s)))) (it_inode_count T) (it_table_blk T) (it_scheme T) (it_feat_incompat T)
    (it_buffers T) (it_dirty T) (it_calls T).

#[export] Instance nvol_namei : NameiEnv nvol := {|
  current_time s := nx_now (snd s);
  alloc_ino s := let '(ino, v) := valloc_inum (fst s) in (ino, (v, snd s));
  free_ino s ino := on_vol s (fun v => vfree_inum v ino);
  new_inode s := nx_new_inode (snd s);
  init_owner s v mode := let '(uid, gid) := nx_owner (snd s) v mode in (mode, uid, gid);
  write_raw s ino v := let '(rc, T) := beamfs_write_inode_raw t cpu (table s) ino v in (rc, (fst s, set_table (snd s) T));
  scheme s := nx_scheme (snd s);
  rsv_discard s ino := on_vol s (fun v => vrsv v ino);
  kmalloc_ok s := nx_kmalloc (snd s);
  sync_buffer s b := nx_sync (snd s) b |}.

(** ** The laws *)

Definition nallocated (s : nvol) (b : Z) : Prop := vallocated t cpu (fst s) b.

#[export] Instance nvol_dir_ok : DirEnvOk nvol.
Proof.
  refine {| allocated := nallocated |}.
  - intros s. exact (bput_same (fst s)).
  - intros s. exact (bput_other (fst s)).
  - intros s. exact (bput_allocated (fst s)).
  - intros s. exact (report_bread (fst s)).
  - intros s. exact (report_allocated (fst s)).
  - intros s. exact (parity_bread (fst s)).
  - intros s. exact (parity_allocated (fst s)).
  - intros [v x] ino s'. cbn. intros [= Eb <-]. refine (balloc_none v ino (snd (valloc t cpu v (Some ino))) _). apply (f_equal (fun b => (b, snd (valloc t cpu v (Some ino)))) Eb).
  - intros [v x] ino b s'. cbn. intros [= <- <-] Hb. exact (balloc_some v ino _ _ eq_refl Hb).
  - intros [v x] ino b s' b'. cbn. intros [= <- <-]. exact (balloc_bread v ino _ _ b' eq_refl).
  - intros s. exact (bfree_allocated (fst s)).
  - intros s. exact (bfree_bread (fst s)).
Defined.

(** The scratch pool is there, no write has failed, the table has [n]
    records and all its blocks are read. *)
Record nwritable (n : Z) (s : nvol) : Prop := {
  nw_scratch : v_scratch (vol t cpu (fst s)) = true;
  nw_failed : beamfs_failed (v_alloc (vol t cpu (fst s))) = false;
  nw_inodes : s_ninodes (v_alloc (vol t cpu (fst s))) = n;
  nw_range : 1 <= n < 2 ^ 64;
  nw_table : forall ino, 0 < ino <= n -> is_Some (it_buffers (nx_table (snd s)) !! inode_block (nx_table (snd s)) ino) }.

(** A volume that moved on. *)
Definition nkept (v v' : mounted) : Prop :=
  v_scratch (vol t cpu v') = v_scratch (vol t cpu v) /\ beamfs_failed (v_alloc (vol t cpu v')) = beamfs_failed (v_alloc (vol t cpu v)) /\
  s_ninodes (v_alloc (vol t cpu v')) = s_ninodes (v_alloc (vol t cpu v)).

Lemma nwritable_kept n v v' x : nkept v v' -> nwritable n (v, x) -> nwritable n (v', x).
Proof. intros (E1 & E2 & E3) [W1 W2 W3 W4 W5]. cbn [fst] in *. split; cbn [fst snd] in *; congruence || done. Qed.

Lemma nkept_alloc v owner : nkept v (snd (valloc t cpu v owner)).
Proof.
  destruct (mounted_inv t cpu v) as (_ & [bits Hi] & Hh). destruct (alloc_healthy t cpu _ bits owner Hi Hh) as [_ F].
  split_and!; [done|exact F|]. pose proof (alloc_block_inums t cpu _ bits owner Hi) as E. by injection E.
Qed.

Lemma nkept_free v b owner : nkept v (vfree t cpu v b owner).
Proof.
  destruct (mounted_inv t cpu v) as (_ & _ & Hh). destruct (free_healthy t cpu (v_alloc (vol t cpu v)) b owner Hh) as [_ F].
  split_and!; [done|exact F|]. pose proof (free_block_inums t cpu (v_alloc (vol t cpu v)) b owner) as E. by injection E.
Qed.

Lemma nkept_update v b c ino : nkept v (vupdate t cpu v b c ino).
Proof.
  unfold nkept, vupdate, step. cbn [vol proj1_sig]. fold (vol t cpu v).
  destruct (beamfs_ind_parity_update t cpu (v_env (vol t cpu v)) (v_caches (vol t cpu v)) (v_parity (vol t cpu v)) b c (Some ino)). done.
Qed.

Lemma renumber_ninodes s ib n : s_ninodes (renumber t cpu s ib n) = s_ninodes s.
Proof. done. Qed.

(** Inode numbers come and go without the blocks seeing it. *)
Lemma inum_kept (v v' : mounted) s : vol t cpu v' = set_alloc (vol t cpu v) s ->
  s = v_alloc (vol t cpu v) \/ (exists ib n, s = renumber t cpu (v_alloc (vol t cpu v)) ib n) ->
  nkept v v' /\ forall b, vallocated t cpu v' b <-> vallocated t cpu v b.
Proof.
  intros Ev C. destruct (mounted_inv t cpu v) as (_ & [bits Hi] & Hh). unfold nkept. rewrite Ev. cbn [set_alloc v_scratch v_alloc]. destruct C as [->|(ib & n & ->)].
  - split; [done|]. intros b. unfold vallocated. by rewrite Ev.
  - destruct (renumber_healthy t cpu _ ib n Hh) as [_ F]. destruct (renumber_blocks t cpu _ bits ib n Hi) as [_ Sb].
    split; [by split_and!|]. intros b. apply vallocated_same. rewrite Ev. exact Sb.
Qed.

#[export] Instance nvol_ok : NameiEnvOk nvol.
Proof.
  refine {| namei_dir_ok := nvol_dir_ok; writable := nwritable |}.
  - intros n s [W _ _ _ _]. exact W.
  - intros n [v x] b c. by apply nwritable_kept.
  - intros n [v x] ino. apply nwritable_kept, nkept_alloc.
  - intros n [v x] b ino. apply nwritable_kept, nkept_free.
  - intros n [v x] calls. by apply nwritable_kept.
  - intros n [v x] b c ino. apply nwritable_kept, nkept_update.
  - intros n [v x] b. apply nwritable_kept, nkept_free.
  - intros n [v x] ino i [W1 W2 W3 W4 W5] Hi. cbn [write_raw nvol_namei].
    destruct (W5 ino Hi) as [b Eb]. cbn [snd] in Eb. unfold beamfs_write_inode_raw, beamfs_write_inode_raw_flags. cbn [it_failed table fst].
    cbn [fst] in W2. rewrite W2. change (inode_block (table (v, x)) ino) with (inode_block (nx_table x) ino). cbn [it_buffers table snd]. rewrite Eb. cbn [andb].
    eexists. split; [reflexivity|]. split; [|done]. split; cbn [fst snd] in *; try done. intros k Hk. cbn [set_table nx_table put_table it_buffers].
    change (inode_block (put_table _ _ _ _) k) with (inode_block (nx_table x) k).
    destruct (decide (inode_block (nx_table x) ino = inode_block (nx_table x) k)) as [->|Hne]; [rewrite lookup_insert_eq; by eexists|].
    rewrite lookup_insert_ne by done. by apply W5.
  - intros n [v x] ino s' W. cbn. intros [= Ei <-].
    destruct (inum_kept v (snd (valloc_inum v)) (snd (beamfs_alloc_inode_num t cpu (v_alloc (vol t cpu v)))) eq_refl (alloc_inum_cases _)) as [K A].
    split; [by apply (nwritable_kept n v)|]. split; [intros b Hb; split; [by apply A|done]|]. rewrite <- Ei.
    destruct W as [_ _ W3 W4 _]. cbn [fst] in W3. unfold beamfs_alloc_inode_num. set (a := v_alloc (vol t cpu v)) in *.
    destruct (beamfs_failed a); [by left|]. destruct (s_inode_bitmap a) as [ib|]; [|by left]. destruct (s_free_inodes a =? 0); [by left|].
    destruct (Z.ltb_spec (s_ninodes a) (find_next_bit ib (s_ninodes a + 1) 2)) as [|L]; [by left|right].
    destruct (find_next_bit_spec ib (s_ninodes a + 1) 2 ltac:(lia)) as (R & _). cbn [fst]. lia.
  - intros n [v x] ino W.
    destruct (inum_kept v (vfree_inum v ino) (beamfs_free_inode_num t cpu (v_alloc (vol t cpu v)) ino) eq_refl (free_inum_cases _ ino)) as [K A].
    split; [by apply (nwritable_kept n v)|]. intros b Hb. split; [by apply A|done].
  - intros n [v x] ino W. split; [by apply (nwritable_kept n v)|]. intros b Hb. split; [|done]. exact Hb.
  - intros [v x] b y Hy Hne. pose proof (bfree_allocated v b 0 y) as L1. pose proof (vfree_spec t cpu v b None) as (E1 & _ & _ & _ & _ & C). split.
    + change (vallocated t cpu (vfree t cpu v b None) y). change (vallocated t cpu v y) in Hy.
      destruct C as [[E _]|(C1 & C2 & C3)]; unfold vallocated, in_volume in *; [by rewrite E|]. rewrite C1, C2, C3. by rewrite decide_False.
    + change (v_blocks (vol t cpu (vfree t cpu v b None)) !! y = v_blocks (vol t cpu v) !! y). by rewrite E1.
  - intros s v mode. cbn. by destruct (nx_owner (snd s) v mode).
  - intros n s [_ _ _ W _]. lia.
Defined.
End volume.
