(* ===== verification/NameiProps.v ===== *)
(** * What the name operations guarantee

    The tree of names is refined by every operation of namei.c, a symbolic
    link gives its target back; both on a volume with its allocator, its
    parity and its inode table. *)

From stdpp Require Import gmap.
From S2P Require Import Prelude Format Crc RsInit GF RsTheory RsCode RsCorrect RsDecode RsLib RsComplete Edac EdacWord EdacBlock EdacLayouts EdacTheorems Dirent FileData Super SuperTheorems Alloc AllocBits AllocImage AllocInv AllocTheorems AllocProps IndParity IndRegion DirentTheorems DirRecords DirOps Dir DirTree DirUpdate FileDataTheorems FileTree TreeCheck AllocHealth IndTheorems Volume Inode ReaddirTheorems DirTheorems Namei Names NameiSteps NameiTheorems NameiVolume.

(** The operation of namei.c behind each call of the VFS. *)
Definition run_nop {S} `{RL : !RsLib} `{CL : !CrcLib} `{NE : !NameiEnv S} (c : data_cfg) (t : rs_tables) (cpu : nat) (op : nop) : M S Z :=
  match op with
  | NCreate d name mode => beamfs_create t cpu d name mode
  | NSymlink d name target => beamfs_symlink c t cpu d name target
  | NMkdir d name mode => beamfs_mkdir t cpu d name mode
  | NUnlink d name i => beamfs_unlink t cpu d name i
  | NRmdir d name i => beamfs_rmdir t cpu d name i
  | NLink i d name => beamfs_link t cpu i d name
  | NRename od on i nd nn tgt flags => beamfs_rename t cpu od on i nd nn tgt flags
  end.

(** ** Targets of symbolic links *)

Definition no_nul (b : list Z) : Prop := Forall (fun x => x <> 0) b.

Lemma cstring_app b l : no_nul b -> cstring (b ++ 0 :: l) = b.
Proof. intros H. induction H as [|x b Hx Hb IH]; [done|]. cbn [app cstring]. destruct (Z.eqb_spec x 0); [done|by rewrite IH]. Qed.

Lemma splice_zeros n b : zlen b <= n -> splice (zeros n) 0 b = b ++ zeros (n - zlen b).
Proof.
  intros H. unfold splice, zeros. change (Z.to_nat 0) with 0%nat. rewrite take_0. cbn [app]. f_equal. rewrite Nat.add_0_l. transitivity (replicate (Z.to_nat n - length b) 0); [apply drop_replicate|]. f_equal. unfold zlen in *. lia.
Qed.

Lemma zeros_cons n : 0 < n -> exists l, zeros n = 0 :: l.
Proof. intros H. unfold zeros. destruct (Z.to_nat n) eqn:E; [lia|]. by eexists. Qed.

(** The words of a buffer, as bytes, are the buffer. *)
Lemma le_words_bytes b (n : nat) : bytes b -> 8 * Z.of_nat n <= zlen b ->
  concat (map (le_bytes 8) (map (fun k => get_le64 b (8 * k)) (seqZ 0 (Z.of_nat n)))) = slice b 0 (8 * Z.of_nat n).
Proof.
  intros Hb. induction n as [|n IH]; intros Hn; [done|]. rewrite seqZ_S, !map_app, concat_app, IH by lia.
  cbn [map concat]. rewrite app_nil_r. replace (8 * Z.of_nat (S n)) with (8 * Z.of_nat n + 8) by lia.
  rewrite slice_cat by lia. f_equal. rewrite Z.add_0_l. unfold get_le64.
  assert (L : length (slice b (8 * Z.of_nat n) 8) = 8%nat) by (pose proof (zlen_slice b (8 * Z.of_nat n) 8) as E; unfold zlen in *; lia).
  rewrite <- L at 1. apply le_bytes_le_val. by apply bytes_slice.
Qed.

Lemma direct_words_bytes b : bytes b -> zlen b = sizeof_direct -> concat (map (le_bytes 8) (direct_words b)) = b.
Proof.
  intros Hb Hz. unfold direct_words, upto. change BEAMFS_DIRECT_BLOCKS with (Z.of_nat 12). rewrite le_words_bytes by (try done; rewrite Hz; done).
  change (8 * Z.of_nat 12) with sizeof_direct. rewrite <- Hz. unfold slice. change (Z.to_nat 0) with 0%nat. rewrite drop_0. apply take_ge. unfold zlen. lia.
Qed.

Section props.
Context {S : Type} `{RL : !RsLib} `{RS : !RsLibSpec} `{CL : !CrcLib} `{NO : NameiEnvOk S} (c : data_cfg) (t : rs_tables) (cpu : nat) (N : Z).

Lemma run_nop_wp root R A w op : ctrl_here t cpu = true -> names_ok N root A -> st t cpu N R any A w -> nop_ok A op ->
  wp (run_nop c t cpu op) w (done_as t cpu N R A op).
Proof.
  intros Hc Ok H Hop. destruct op; cbn [run_nop].
  - by apply (create_wp t cpu Hc N root).
  - eapply wp_mono; [by apply (symlink_wp c t cpu Hc N root)|]. intros rc w' [[Hrc H']|(-> & i & m & Hk & Hr & Hm & H' & _)]; eexists; split; try exact H'.
    + by apply ns_symlink_fail.
    + by apply ns_symlink.
  - by apply (mkdir_wp t cpu Hc N root).
  - by apply (unlink_wp t cpu Hc N root).
  - by apply (rmdir_wp t cpu Hc N root).
  - by apply (link_wp t cpu Hc N root).
  - by apply (rename_wp t cpu Hc N root).
Qed.

(** *** Targets *)

Lemma stores_short v target : bytes target -> no_nul target -> zlen target < sizeof_direct ->
  vi_direct v = direct_words (splice (zeros sizeof_direct) 0 target) -> cstring (direct_bytes v) = target.
Proof.
  intros Hb Hn Hl E. unfold direct_bytes. rewrite E, direct_words_bytes.
  - rewrite splice_zeros by lia. destruct (zeros_cons (sizeof_direct - zlen target)) as [l ->]; [lia|]. by apply cstring_app.
  - apply bytes_splice; [apply bytes_zeros|done].
  - change sizeof_direct with 96 in *. rewrite zlen_splice; rewrite ?zlen_zeros; lia.
Qed.

Lemma link_block_read `{RB : !RsLibBounded} stk ino target phys : ready t cpu -> bytes target -> phys <> 0 ->
  0 < zlen target <= beamfs_block_payload c -> exists calls,
  beamfs_inline_decode_symlink c t cpu stk true (link_block c t cpu ino target) phys ino (u32 (zlen target)) = (0, target, calls).
Proof.
  intros Hr Hb Hp Hl. assert (beamfs_block_payload c <= 3824) by (data_consts; destruct (s_rs_interleave c); lia).
  assert (Eu : u32 (zlen target) = zlen target) by (apply Z.mod_small; lia). unfold beamfs_inline_decode_symlink. rewrite Eu.
  destruct (Z.ltb_spec (beamfs_block_payload c) (zlen target)); [lia|].
  set (payload := splice (zeros BEAMFS_DATA_INLINE_BYTES) 0 target).
  assert (Bp : bytes payload) by (apply bytes_splice; [apply bytes_zeros|done]).
  assert (Zp : zlen payload = 3824) by (unfold payload; change BEAMFS_DATA_INLINE_BYTES with 3824; rewrite zlen_splice; rewrite ?zlen_zeros; lia).
  unfold link_block. fold payload. destruct (build_data_block c t cpu (zeros BEAMFS_BLOCK_SIZE) payload ino 0) as [rc blk] eqn:E.
  assert (Z4 : zlen (zeros BEAMFS_BLOCK_SIZE) = 4096) by (by rewrite zlen_zeros).
  assert (B4 : bytes (zeros BEAMFS_BLOCK_SIZE)) by apply bytes_zeros.
  assert (rc = 0 /\ zlen blk = 4096 /\ bytes blk) as (-> & Zb & Bb).
  { unfold build_data_block in E. destruct (lay_spec c _ payload Z4 B4 Bp ltac:(lia)) as (L1 & L2 & _).
    destruct (stamp_spec c _ payload ino 0 L1 L2 Bp) as (M1 & M2 & _). destruct (seal_spec c t cpu Hr _ M1 M2) as (blk' & E' & X).
    rewrite E' in E. injection E as <- <-. destruct (data_layout_facts c) as (F & _). split; [done|]. split; [rewrite <- F; apply X|apply X]. }
  cbn [snd]. destruct (data_block_read c t cpu stk _ payload ino 0 blk blk phys 0 (zlen target) false Hr Z4 B4 Bp) as (calls & -> & _); try done; try lia.
  { by apply tolerable_refl. }
  exists calls. do 2 f_equal. by apply slice_splice_eq; rewrite ?zlen_zeros; change BEAMFS_DATA_INLINE_BYTES with 3824; try lia.
Qed.

Lemma get_link_stores `{RB : !RsLibBounded} stk w ino target : ready t cpu -> bytes target -> no_nul target -> 0 < zlen target <= beamfs_block_payload c ->
  scratch_get (f_env w) = true -> stores c t cpu w ino target -> fst (beamfs_get_link c t cpu stk false true ino w) = inr target.
Proof.
  intros Hr Hb Hn Hl Hs (i & Ei & Es & H). change (wp (beamfs_get_link c t cpu stk false true ino) w (fun r _ => r = inr target)).
  unfold beamfs_get_link. apply wp_bind. apply (wp_inode ino i _ _ Ei). rewrite Es. destruct (Z.ltb_spec (zlen target) sizeof_direct) as [L|L].
  - apply wp_ret. f_equal. by apply stores_short.
  - destruct H as [Hp Hbr]. destruct (Z.ltb_spec (beamfs_block_payload c) (zlen target)); [lia|]. destruct (Z.eqb_spec (getb (vi_direct (m_inode i)) 0) 0); [done|].
    cbn [negb]. apply wp_bind, wp_env_get. rewrite Hbr. apply wp_bind, wp_env_get. rewrite Hs.
    destruct (link_block_read stk ino target (getb (vi_direct (m_inode i)) 0) Hr Hb Hp Hl) as (calls & ->).
    apply wp_bind, wp_env_step. cbn [Z.eqb negb]. apply wp_ret. f_equal. by apply (cstring_app target []).
Qed.
End props.

(** ** Theorems *)

(** C25: the name operations refine the tree of names.  On a volume where
    every write of an inode record succeeds, whose directories hold the names of a tree with a root,
    parents and link counts in order, each of create, symlink, mkdir,
    unlink, rmdir, link and rename, called as the VFS calls it, answers and
    changes the tree as its specification says: on success the one name is
    there, gone or moved and the inode is made or its links counted; on
    failure the tree is as it was.  The tree stays in order (every link
    count is the number of names, every directory but the root is named
    once, by its parent) and the blocks of files are not touched. *)
Theorem names_refined {S} `{RL : !RsLib} `{RS : !RsLibSpec} `{CL : !CrcLib} `{NO : NameiEnvOk S} c t cpu N root R A (w : fs S) op :
  ctrl_here t cpu = true -> names_ok N root A -> st t cpu N R any A w -> nop_ok A op ->
  let '(rc, w') := run_nop c t cpu op w in
  exists A', nspec N A op rc A' /\ names_ok N root A' /\ st t cpu N R any A' w'.
Proof.
  intros Hc Ok H Hop. pose proof (run_nop_wp c t cpu N root R A w op Hc Ok H Hop) as W. unfold wp in W.
  destruct (run_nop c t cpu op w) as [rc w']. destruct W as (A' & Sp & H'). exists A'. split; [done|]. split; [|done]. by apply (nspec_sound N root A op rc).
Qed.

(** A symbolic link gives its target back.  When symlink succeeds, the
    name leads to an inode from which get_link returns the target byte for
    byte, whether the target fits the pointers of the inode or takes a
    protected block of its own. *)
Theorem symlink_roundtrip {S} `{RL : !RsLib} `{RS : !RsLibSpec} `{RB : !RsLibBounded} `{CL : !CrcLib} `{NO : NameiEnvOk S}
    c t cpu stk N root R A (w : fs S) d name target :
  ready t cpu -> names_ok N root A -> st t cpu N R any A w -> nop_ok A (NSymlink d name target) -> no_nul target ->
  let '(rc, w') := beamfs_symlink c t cpu d name target w in
  rc = 0 -> exists ino A', st t cpu N R any A' w' /\ n_map A' !! (d, name) = Some ino /\
    fst (beamfs_get_link c t cpu stk false true ino w') = inr target.
Proof.
  intros Hr Ok H Hop Hn. pose proof (symlink_wp c t cpu (proj1 Hr) N root R A w d name target Ok H Hop) as W. unfold wp in W.
  assert (L : fst (beamfs_symlink c t cpu d name target w) = 0 -> 0 < zlen target <= beamfs_block_payload c).
  { unfold beamfs_symlink. pose proof (zlen_nonneg target). destruct ((zlen target =? 0) || (beamfs_block_payload c <? zlen target)) eqn:G; [done|]. lia. }
  destruct (beamfs_symlink c t cpu d name target w) as [rc w']. intros ->. destruct W as [[? _]|(_ & ino & mode & _ & _ & _ & H' & Hs)]; [done|].
  exists ino. eexists. split; [exact H'|]. split; [cbn [n_map bind]; by rewrite lookup_insert_eq|].
  apply get_link_stores; try done; [apply Hop|by apply L|]. apply (writable_scratch N), H'.
Qed.

(** Beamfs_alloc_inode_num hands out the first free number from 2 on,
    marks it used and counts one free number less in memory and in the
    superblock; it answers 0, and changes nothing, exactly when the volume
    has failed or no number is free; the blocks of the volume are as they
    were. *)
Theorem alloc_inode_first_free `{RL : !RsLib} `{RS : !RsLibSpec} `{CL : !CrcLib} t cpu s bits ib :
  alloc_inv s bits -> inode_inv s ib ->
  let '(ino, s') := beamfs_alloc_inode_num t cpu s in
  alloc_inv s' bits /\ same_blocks s s' /\
  (ino = 0 <-> beamfs_failed s = true \/ forall n, 2 <= n <= s_ninodes s -> test_bit ib n = false) /\
  (ino = 0 -> s' = s) /\
  (ino <> 0 -> 2 <= ino <= s_ninodes s /\ test_bit ib ino = true /\ (forall n, 2 <= n < ino -> test_bit ib n = false) /\
    inode_inv s' (clear_bit ib ino)).
Proof.
  intros A I. pose proof (alloc_inode_spec t cpu s bits ib A I) as H. pose proof (alloc_inum_failed t cpu s) as F.
  destruct (beamfs_alloc_inode_num t cpu s) as [ino s'].
  destruct H as [(-> & -> & H)|(H1 & H2 & H3 & -> & H4)]; [by split_and!|].
  destruct (renumber_blocks t cpu s bits (clear_bit ib ino) (s_free_inodes s - 1) A) as [B1 B2]. cbn [fst] in F.
  split_and!; [done|done| |lia|done]. split; [lia|]. intros [X|X]; [by rewrite F|]. rewrite X in H2; done.
Qed.

(** ** A volume with a root directory *)

Definition ex_ibits : list Z := [248; 255; 1; 0; 0; 0; 0; 0].

(** The small volume with 16 inodes, 1 and 2 of them in use. *)
Definition ex_nvol_sbi : sbi :=
  Sbi 24 10 (Some ex_bits) 1 (Some [Some (Buffer ex_img true false)]) (Some [false]) 0 15
    (Some ex_ibits) 16 14 [] ∅ (Super (put_le64 ex_vol_sb off_s_free_inodes 14) (Buffer (zeros 4096) true false) true false false) [].

Lemma ex_nvol_inv : alloc_inv ex_nvol_sbi ex_bits.
Proof. destruct ex_vol_inv as [H1 H2 H3 H4 H5 H6 H7 H8 H9]. split; try assumption. Qed.

Lemma ex_nvol_inodes : inode_inv ex_nvol_sbi ex_ibits.
Proof. split; [done|split; [by apply bytes_check|by vm_compute]|cbn; lia|done|by vm_compute|by vm_compute]. Qed.

Lemma ex_nvol_alloc : ex_alloc ex_nvol_sbi.
Proof.
  destruct ex_vol_alloc as [_ E _ _ _ _]. split; [exists ex_bits; exact ex_nvol_inv|exact E|done|done|done|by vm_compute].
Qed.

Definition ex_extra : nextra :=
  NExtra (ITable false 16 4 BEAMFS_DATA_PROTECTION_UNIVERSAL_INLINE 0 {[4 := zeros 4096]} [] []) (7, 0) BEAMFS_DATA_PROTECTION_UNIVERSAL_INLINE true true
    (fun _ => 0) (fun _ _ => (0, 0)).

(** The root directory, inode 1, without names yet. *)
Definition ex_root : minode := MInode (VInode 16877 2 0 0 0 (1, 0) (1, 0) (1, 0) 0 (zeros BEAMFS_DIRECT_BLOCKS) 0 0 0) IopsDir false.
Definition ex_fs0 : fs (nvol ex_tables 0) := Fs (ex_mounted ex_nvol_sbi ex_nvol_alloc, ex_extra) {[1 := ex_root]}.
Definition ex_names0 : names := Names {[1]} ∅ {[1 := (16877, 2)]}.

Lemma ex_st0 : st ex_tables 0 16 ∅ any ex_names0 ex_fs0.
Proof.
  split; [|split].
  - split; try done. intros ino Hi. cbn [ex_fs0 f_env snd nx_table ex_extra it_buffers]. unfold inode_block. cbn [it_table_blk].
    change inodes_per_block with 16 in *. rewrite Z.div_small by lia. rewrite lookup_singleton_eq. by eexists.
  - unfold meta_of. cbn [ex_fs0 f_inodes n_meta ex_names0]. by rewrite map_fmap_singleton.
  - exists (fun _ => []). split; [|set_solver|].
    + intros d Hd. cbn [n_dirs ex_names0] in Hd. apply elem_of_singleton in Hd as ->. exists ex_root, ∅. split; [apply lookup_singleton_eq|]. split.
      * eapply holds_weaken, holds_new.
      * done.
    + intros x b Hx. by rewrite lookup_empty in Hx.
Qed.

(** The code itself enters the dots. *)
Definition ex_dot : Z * fs (nvol ex_tables 0) := add_dirent ex_tables 0 1 [dot] 1 DT_DIR ex_fs0.
Definition ex_dotdot : Z * fs (nvol ex_tables 0) := add_dirent ex_tables 0 1 [dot; dot] 1 DT_DIR (snd ex_dot).
Definition ex_fs : fs (nvol ex_tables 0) := snd ex_dotdot.
Definition ex_names : names := bind 1 [dot; dot] 1 (bind 1 [dot] 1 ex_names0).

Lemma ex_dots : fst ex_dot = 0 /\ fst ex_dotdot = 0.
Proof. split; vm_compute; reflexivity. Qed.

Lemma ex_name_ok name : forallb (fun x => (0 <=? x) && (x <? 256)) name = true -> 1 <= zlen name <= 255 -> name_ok name.
Proof. intros H1 H2. split; [by apply bytes_check|exact H2]. Qed.

Lemma ex_bind A (w : fs (nvol ex_tables 0)) name : st ex_tables 0 16 ∅ any A w -> 1 ∈ n_dirs A -> name_ok name -> n_map A !! (1, name) = None ->
  fst (add_dirent ex_tables 0 1 name 1 DT_DIR w) = 0 -> st ex_tables 0 16 ∅ any (bind 1 name 1 A) (snd (add_dirent ex_tables 0 1 name 1 DT_DIR w)).
Proof.
  intros H Hd Hn Hm E. destruct (wp_add ex_tables 0 eq_refl 16 ∅ any A w 1 name 1 DT_DIR H Hd Hn ltac:(lia) ltac:(split; by vm_compute) Hm) as [_ [[W _]|[_ W]]];
    [by rewrite E in W|]. exact (st_any _ _ _ _ _ _ _ W).
Qed.

Lemma ex_st : st ex_tables 0 16 ∅ any ex_names ex_fs.
Proof.
  assert (H1 : name_ok [dot]) by (apply ex_name_ok; [done|by vm_compute]).
  assert (H2 : name_ok [dot; dot]) by (apply ex_name_ok; [done|by vm_compute]).
  assert (Hd : 1 ∈ n_dirs ex_names0) by (cbn; set_solver).
  destruct ex_dots as [E1 E2]. pose proof (ex_bind ex_names0 ex_fs0 [dot] ex_st0 Hd H1 eq_refl E1) as W.
  exact (ex_bind _ (snd ex_dot) [dot; dot] W Hd H2 eq_refl E2).
Qed.

Lemma ex_names_ok : names_ok 16 1 ex_names.
Proof.
  assert (L : forall d name i, n_map ex_names !! (d, name) = Some i -> d = 1 /\ i = 1 /\ dots name).
  { intros d name i. cbn [ex_names bind n_map ex_names0]. rewrite !lookup_insert_Some, lookup_empty. unfold dots. naive_solver. }
  assert (K : forall i, known ex_names i -> i = 1) by (intros i [x Hx]; cbn in Hx; by apply lookup_singleton_Some in Hx as [-> _]).
  split; [|intros i mode n Hi; cbn in Hi; apply lookup_singleton_Some in Hi as [<- [= <- <-]]; vm_compute; reflexivity|intros i ->%K; lia].
  split.
  - split; [cbn; set_solver|reflexivity].
  - intros d name i (-> & -> & _)%L. split; [cbn; set_solver|by eexists].
  - intros d Hd. cbn in Hd. apply elem_of_singleton in Hd as ->. split; [by do 2 eexists|by eexists].
  - intros d name i (-> & -> & _)%L _. cbn. set_solver.
  - intros d Hd. cbn in Hd. by apply elem_of_singleton in Hd as ->.
  - intros d Hd. cbn in Hd. by apply elem_of_singleton in Hd as ->.
  - by intros d name i (_ & _ & ?)%L.
  - by intros d n1 n2 i _ (_ & _ & ?)%L.
Qed.

Lemma ex_free_name name : name_ok name -> bool_decide (name = [dot]) = false -> bool_decide (name = [dot; dot]) = false -> free_name ex_names 1 name.
Proof.
  intros Hn H1%bool_decide_eq_false H2%bool_decide_eq_false. split; [cbn; set_solver|]. split; [done|]. split; [by intros [?|?]|].
  cbn [ex_names bind n_map ex_names0]. rewrite !lookup_insert_ne by congruence. apply lookup_empty.
Qed.

Lemma names_refined_witness : exists A',
  nspec 16 ex_names (NMkdir 1 [97] 493) (fst (run_nop ex_cfg ex_tables 0 (NMkdir 1 [97] 493) ex_fs)) A' /\ names_ok 16 1 A'.
Proof.
  pose proof (names_refined ex_cfg ex_tables 0 16 1 ∅ ex_names ex_fs (NMkdir 1 [97] 493) eq_refl ex_names_ok ex_st) as H.
  destruct (run_nop _ _ _ _ _) as [rc w']. destruct H as (A' & H1 & H2 & _); [|by exists A'].
  split; [|reflexivity]. apply ex_free_name; [|reflexivity|reflexivity]. split; [by apply bytes_check|done].
Defined.

(** A target of 100 bytes, in a block of its own. *)
Definition ex_target : list Z := replicate 100 47.

Lemma symlink_roundtrip_witness : exists ino,
  fst (beamfs_get_link ex_cfg ex_tables 0 ex_stack false true ino (snd (beamfs_symlink ex_cfg ex_tables 0 1 [98] ex_target ex_fs))) = inr ex_target.
Proof.
  pose proof (symlink_roundtrip ex_cfg ex_tables 0 ex_stack 16 1 ∅ ex_names ex_fs 1 [98] ex_target (conj eq_refl eq_refl) ex_names_ok ex_st) as H.
  assert (E : fst (beamfs_symlink ex_cfg ex_tables 0 1 [98] ex_target ex_fs) = 0) by (vm_compute; reflexivity).
  destruct (beamfs_symlink _ _ _ _ _ _ _) as [rc w']. destruct H as (ino & A' & _ & _ & H); [| |exact E|by exists ino].
  - split; [|by apply bytes_check]. apply ex_free_name; [|reflexivity|reflexivity]. split; [by apply bytes_check|done].
  - by apply list.Forall_replicate.
Defined.

Lemma alloc_inode_first_free_witness : exists s', beamfs_alloc_inode_num ex_tables 0 ex_nvol_sbi = (3, s') /\ inode_inv s' (clear_bit ex_ibits 3).
Proof.
  pose proof (alloc_inode_first_free ex_tables 0 ex_nvol_sbi ex_bits ex_ibits ex_nvol_inv ex_nvol_inodes) as H.
  assert (E : fst (beamfs_alloc_inode_num ex_tables 0 ex_nvol_sbi) = 3) by (vm_compute; reflexivity).
  destruct (beamfs_alloc_inode_num _ _ _) as [ino s']. cbn [fst] in E. subst ino. exists s'. split; [done|]. by apply H.
Defined.
