(* ===== verification/Scrub.v ===== *)
(** * The background scrubber (scrub.c)

    A thread walks the inode table; for each regular file nobody writes it
    follows the file's pointers and decodes every data block, writes back
    the ones it corrected, and once per step looks at one block of the wear
    map.  The sweep sleeps and drops its locks between its steps: what the
    other threads do meanwhile is an explicit list, one entry for each
    point where the sweep holds no lock. *)

From S2P Require Import Prelude Format Crc RsInit RsLib Edac Dirent Dir FileData FileTree Inode.

(** ** What the sweep keeps in the mount *)

Record scrub_info := ScrubInfo {
  s_scrub_interval_ms : Z;          (** unsigned int *)
  s_scrub_base_ms : Z;              (** unsigned int *)
  s_scrub_cursor : Z;               (** u64 from here on *)
  s_scrub_passes : Z;
  s_scrub_blocks : Z;
  s_scrub_corrected : Z;
  s_scrub_uncorrectable : Z;
  s_scrub_last_corrected : Z;
  s_wear_cursor : Z;
  s_wear_visits : Z }.

(** The fields [beamfs_scrub_init] sets, from the module's parameter. *)
Definition beamfs_scrub_init (scrub_interval_ms : Z) : scrub_info :=
  ScrubInfo scrub_interval_ms scrub_interval_ms 0 0 0 0 0 0 0 0.

Definition set_pace (b : scrub_info) (interval base : Z) : scrub_info :=
  ScrubInfo interval base (s_scrub_cursor b) (s_scrub_passes b) (s_scrub_blocks b) (s_scrub_corrected b)
    (s_scrub_uncorrectable b) (s_scrub_last_corrected b) (s_wear_cursor b) (s_wear_visits b).
Definition set_cursor (b : scrub_info) (cursor passes : Z) : scrub_info :=
  ScrubInfo (s_scrub_interval_ms b) (s_scrub_base_ms b) cursor passes (s_scrub_blocks b) (s_scrub_corrected b)
    (s_scrub_uncorrectable b) (s_scrub_last_corrected b) (s_wear_cursor b) (s_wear_visits b).
Definition set_counts (b : scrub_info) (blocks corrected uncorrectable : Z) : scrub_info :=
  ScrubInfo (s_scrub_interval_ms b) (s_scrub_base_ms b) (s_scrub_cursor b) (s_scrub_passes b) blocks corrected
    uncorrectable (s_scrub_last_corrected b) (s_wear_cursor b) (s_wear_visits b).
Definition set_last (b : scrub_info) (last : Z) : scrub_info :=
  ScrubInfo (s_scrub_interval_ms b) (s_scrub_base_ms b) (s_scrub_cursor b) (s_scrub_passes b) (s_scrub_blocks b)
    (s_scrub_corrected b) (s_scrub_uncorrectable b) last (s_wear_cursor b) (s_wear_visits b).
Definition set_wear (b : scrub_info) (cursor visits : Z) : scrub_info :=
  ScrubInfo (s_scrub_interval_ms b) (s_scrub_base_ms b) (s_scrub_cursor b) (s_scrub_passes b) (s_scrub_blocks b)
    (s_scrub_corrected b) (s_scrub_uncorrectable b) (s_scrub_last_corrected b) cursor visits.

(** One block checked: the counters by its code and its corrections. *)
Definition count_checked (ret corrected : Z) (b : scrub_info) : scrub_info :=
  set_counts b (u64 (s_scrub_blocks b + 1))
    (if corrected =? 0 then s_scrub_corrected b else u64 (s_scrub_corrected b + 1))
    (if ret =? - EUCLEAN then u64 (s_scrub_uncorrectable b + 1) else s_scrub_uncorrectable b).

(** ** Pace *)

(** Faster after a pass that corrected anything, an eighth of the
    operator's interval back after a quiet one. *)
Definition beamfs_scrub_pace (b : scrub_info) : scrub_info :=
  let cur := s_scrub_interval_ms b in
  let base := s_scrub_base_ms b in
  if (cur =? 0) || (base =? 0) then b
  else
    let found := u64 (s_scrub_corrected b - s_scrub_last_corrected b) in
    let b := set_last b (s_scrub_corrected b) in
    let cur :=
      if negb (found =? 0) then Z.max 1 (cur / 2)
      else if cur <? base then Z.min (u32 (cur + Z.max 1 (base / 8))) base
      else cur in
    set_pace b cur base.

(** The factor line of [scrub_pace_show]. *)
Definition scrub_pace_factor (b : scrub_info) : Z :=
  let cur := s_scrub_interval_ms b in
  let base := s_scrub_base_ms b in
  if negb (cur =? 0) && (cur <? base) then base / cur else 1.

(** [v] is what kstrtouint reads, [None] when it refuses the text. *)
Definition interval_store (b : scrub_info) (v : option Z) (len : Z) : Z * scrub_info :=
  match v with
  | None => (- EINVAL, b)
  | Some v => (len, set_pace b v v)
  end.

(** ** What the sweep calls, beyond what the tree of a file calls *)

Class ScrubEnv (S : Type) := {
  scrub_tree :: TreeEnv S;
  (** the scratch arrays of a check, and a page for pointers or a bio *)
  kzalloc_scratch : S -> bool;
  kmalloc_ptrs : S -> bool;
  alloc_page : S -> bool;
  (** a read of the page at this sector, around the buffer cache: the code
      and the page *)
  submit_bio_wait : S -> Z -> Z * list Z;
  (** beamfs_ind_parity_verify_medium *)
  verify_medium : S -> Z -> list Z -> Z * S;
  sb_rdonly : S -> bool;
  sb_start_write_trylock : S -> bool;
  (** ilookup finds the inode, and it is dirty, under writeback, coming,
      going or mapped for writing *)
  inode_busy : S -> Z -> bool;
  (** sb_bread of a block of the inode table *)
  s_inode_table_blk : S -> Z;
  table_bread : S -> Z -> option (list Z);
  (** beamfs_iget: the inode with its link count, [None] for an error *)
  scrub_iget : S -> Z -> option (finode * Z) * S;
  (** the last reference to an unlinked inode evicts it *)
  iput : S -> finode -> Z -> S;
  (** s_ninodes, and a bit of s_inode_bitmap, [None] without a bitmap *)
  scrub_ninodes : S -> Z;
  inode_bit : S -> Z -> option bool;
  (** s_budget_len and beamfs_budget_next_worn *)
  s_budget_len : S -> Z;
  budget_next_worn : S -> Z -> Z -> Z;
  (** beamfs_clock_anchor and beamfs_alert_check_rate *)
  clock_anchor : S -> S;
  alert_check_rate : S -> S }.

(** What other threads do at one point: to the volume and the inode the
    sweep holds, to the volume when it holds none, to the link count, to
    the thread (kthread_stop) and to the interval (interval_store). *)
Record others (S : Type) := Others {
  o_file : S -> finode -> S * finode;
  o_idle : S -> S;
  o_nlink : Z -> Z;
  o_stop : bool;
  o_interval : option Z }.
Arguments Others {S}.
Arguments o_file {S}.
Arguments o_idle {S}.
Arguments o_nlink {S}.
Arguments o_stop {S}.
Arguments o_interval {S}.

(** The sweep: the volume, the inode it holds with its link count, whether
    the thread was asked to stop, its fields of the mount, and what the
    others will do. *)
Record sweep (S : Type) := Sweep {
  w_env : S;
  w_inode : option finode;
  w_nlink : Z;
  w_stop : bool;
  w_sbi : scrub_info;
  w_others : list (others S) }.
Arguments Sweep {S}.
Arguments w_env {S}.
Arguments w_inode {S}.
Arguments w_nlink {S}.
Arguments w_stop {S}.
Arguments w_sbi {S}.
Arguments w_others {S}.

Section scrub.
Context {S : Type} `{RL : !RsLib} `{CL : !CrcLib} `{SE : !ScrubEnv S}.
Context (c : data_cfg) (t : rs_tables) (cpu : nat).
Implicit Types (s : S) (w : sweep S) (f : finode).

Definition set_env w s : sweep S := Sweep s (w_inode w) (w_nlink w) (w_stop w) (w_sbi w) (w_others w).
Definition on_sbi (g : scrub_info -> scrub_info) w : sweep S :=
  Sweep (w_env w) (w_inode w) (w_nlink w) (w_stop w) (g (w_sbi w)) (w_others w).

(** The others run; nobody does once the list is empty. *)
Definition meanwhile w : sweep S :=
  match w_others w with
  | [] => w
  | o :: rest =>
    let b := match o_interval o with
             | None => w_sbi w
             | v => snd (interval_store (w_sbi w) v 0)
             end in
    let stop := w_stop w || o_stop o in
    match w_inode w with
    | None => Sweep (o_idle o (w_env w)) None (w_nlink w) stop b rest
    | Some f =>
      let '(s, f) := o_file o (w_env w) f in
      Sweep s (Some f) (o_nlink o (w_nlink w)) stop b rest
    end
  end.

(** ** Reading a block around the cache *)

(** Returns the code and what [buf] then holds, nothing on an error. *)
Definition beamfs_scrub_read_medium s (phys : Z) : Z * list Z :=
  if negb (alloc_page s) then (- ENOMEM, [])
  else
    let '(ret, page) := submit_bio_wait s (Z.shiftl phys 3) in
    if ret =? 0 then (0, slice page 0 BEAMFS_BLOCK_SIZE) else (ret, []).

(** [r2]: the results of the decode of what the medium holds; the arrays
    were zeroed when they were allocated. *)
Definition beamfs_scrub_confirm s (phys : Z) (woven : bool) : list Z :=
  let '(mr, buf) := beamfs_scrub_read_medium s phys in
  if negb (mr =? 0) then
    replicate (Z.to_nat BEAMFS_DATA_INLINE_SUBBLOCKS) (if mr =? - ENOMEM then 0 else -1)
  else if woven then
    let '(_, _, r2) :=
      beamfs_rs_decode_woven t cpu buf BEAMFS_CAPSULE_DATA_OFF BEAMFS_CAPSULE_PARITY_OFF
        BEAMFS_RS_PARITY BEAMFS_SUBBLOCK_DATA BEAMFS_DATA_INLINE_SUBBLOCKS in
    match r2 with [] => zeros BEAMFS_DATA_INLINE_SUBBLOCKS | _ => r2 end
  else
    let '(_, _, r2, _) :=
      beamfs_rs_decode_region t cpu buf 0 BEAMFS_SUBBLOCK_TOTAL BEAMFS_SUBBLOCK_DATA
        BEAMFS_SUBBLOCK_TOTAL BEAMFS_SUBBLOCK_DATA BEAMFS_DATA_INLINE_SUBBLOCKS
        (Some (BEAMFS_RS_PARITY / 2)) in
    r2.

(** ** Is it still the file's block? *)

Definition beamfs_scrub_root_base (top : nat) : Z :=
  match top with
  | 1%nat => BEAMFS_DIRECT_BLOCKS
  | 2%nat => BEAMFS_MAX_IBLOCK_INDIRECT
  | _ => BEAMFS_MAX_IBLOCK_DINDIRECT
  end.

Definition scrub_root f (top : nat) : Z :=
  match top with
  | 1%nat => fi_indirect f
  | 2%nat => fi_dindirect f
  | _ => fi_tindirect f
  end.

(** The loop of [beamfs_scrub_node_current], [n] levels down; [None] is
    one of its early returns. *)
Fixpoint node_below s (n : nat) (off sp node : Z) : option Z :=
  match n with
  | O => Some node
  | Datatypes.S n =>
    if node =? 0 then Some node
    else
      let slot := off / sp in
      if BEAMFS_INDIRECT_PTRS <=? slot then None
      else
        match bread s node with
        | None => None
        | Some ptrs => node_below s n (off - slot * sp) (sp / BEAMFS_INDIRECT_PTRS) (ptr ptrs slot)
        end
  end.

Definition beamfs_scrub_node_current s f (top depth : nat) (base blk : Z) : bool :=
  match node_below s (top - depth) (base - beamfs_scrub_root_base top) (span (top - 1)) (scrub_root f top) with
  | None => false
  | Some node => node =? blk
  end.

Definition beamfs_scrub_leaf_current s f (iblock phys : Z) : bool * S :=
  if beamfs_ino_is_reserved (fi_ino f) then
    ((iblock <? BEAMFS_DIRECT_BLOCKS) && (getb (fi_direct f) iblock =? phys), s)
  else
    let '(ret, now, s) := beamfs_inline_lookup_phys s f iblock in
    ((ret =? 0) && (now =? phys), s).

(** ** Checking one block *)

(** The error of a failed read, or the bytes. *)
Definition beamfs_scrub_read_copy s (phys : Z) : Z + list Z :=
  match bread s phys with None => inl (- EIO) | Some b => inr b end.

(** The owner is the inode the sweep holds. *)
Definition beamfs_scrub_snapshot w (phys iblock : Z) : (Z + list Z) * sweep S :=
  match w_inode w with
  | None => (beamfs_scrub_read_copy (w_env w) phys, w)
  | Some f =>
    let '(current, s) := beamfs_scrub_leaf_current (w_env w) f iblock phys in
    (if current then beamfs_scrub_read_copy s phys else inl (- ESTALE), set_env w s)
  end.

(** The decode in the layout of the volume, then in the alternating one:
    the code, [staging], [results], [positions] and [woven]. *)
Definition sweep_decode (orig : list Z) : Z * list Z * list Z * list (list Z) * bool :=
  let plain :=
    let '(ret, staging, results, positions) :=
      beamfs_rs_decode_region t cpu orig 0 BEAMFS_SUBBLOCK_TOTAL BEAMFS_SUBBLOCK_DATA
        BEAMFS_SUBBLOCK_TOTAL BEAMFS_SUBBLOCK_DATA BEAMFS_DATA_INLINE_SUBBLOCKS
        (Some (BEAMFS_RS_PARITY / 2)) in
    (ret, staging, results, positions, false) in
  if s_rs_interleave c then
    let '(ret, staging, results) :=
      beamfs_rs_decode_woven t cpu orig BEAMFS_CAPSULE_DATA_OFF BEAMFS_CAPSULE_PARITY_OFF
        BEAMFS_RS_PARITY BEAMFS_SUBBLOCK_DATA BEAMFS_DATA_INLINE_SUBBLOCKS in
    if negb (ret =? - EUCLEAN) then
      (ret, staging, results,
       replicate (Z.to_nat BEAMFS_DATA_INLINE_SUBBLOCKS) (zeros (BEAMFS_RS_PARITY / 2)), true)
    else plain
  else plain.

(** One codeword of the report: the state, [n_corrected], the confirming
    decode once it was done ([confirmed], and no longer [repairable]), and
    the code. *)
Definition sweep_report (phys : Z) (woven : bool) (results : list Z) (positions : list (list Z))
    (st : S * Z * option (list Z) * Z) (i : Z) : S * Z * option (list Z) * Z :=
  let '(s, n_corrected, r2, ret) := st in
  let rc := getb results i in
  let bits := beamfs_rs_event_subblock_bits i in
  if 0 <? rc then
    (report s [LogRsEvent phys (Some (nth (Z.to_nat i) positions [])) rc BEAMFS_SUBBLOCK_DATA bits;
               BudgetRecord phys rc], n_corrected + 1, r2, ret)
  else if rc <? 0 then
    let r := match r2 with Some r => r | None => beamfs_scrub_confirm s phys woven end in
    if 0 <=? getb r i then (s, n_corrected, Some r, ret)
    else (report s [LogRsEvent phys None 0 BEAMFS_SUBBLOCK_DATA bits], n_corrected, Some r, - EUCLEAN)
  else st.

(** The repair: only to the block the owner still maps there, only over the
    bytes that were decoded. *)
Definition sweep_write_back w (phys iblock : Z) (orig staging : list Z) : sweep S :=
  match w_inode w with
  | None => w
  | Some f =>
    if sb_rdonly (w_env w) || negb (sb_start_write_trylock (w_env w)) then w
    else
      let '(current, s) := beamfs_scrub_leaf_current (w_env w) f iblock phys in
      set_env w (if current && bool_decide (held s phys = orig) then bput s phys staging else s)
  end.

(** Returns the code, [*corrected] and the sweep. *)
Definition beamfs_scrub_check_block w (phys iblock : Z) : Z * Z * sweep S :=
  if negb (kzalloc_scratch (w_env w)) then (- ENOMEM, 0, w)
  else if negb (scratch_get (w_env w)) then (- ENOMEM, 0, w)
  else
    match beamfs_scrub_snapshot (meanwhile w) phys iblock with
    | (inl e, w) => (e, 0, w)
    | (inr orig, w) =>
      let '(dret, staging, results, positions, woven) := sweep_decode orig in
      if (dret <? 0) && negb (dret =? - EUCLEAN) then (dret, 0, w)
      else
        let w := meanwhile w in
        let '(s, n_corrected, r2, ret) :=
          foldl (sweep_report phys woven results positions) (w_env w, 0, None, 0)
            (upto BEAMFS_DATA_INLINE_SUBBLOCKS) in
        let w := set_env w s in
        let repairable := match r2 with None => true | Some _ => false end in
        (ret, n_corrected,
         if negb (n_corrected =? 0) && repairable then sweep_write_back w phys iblock orig staging else w)
    end.

(** ** Walking a file *)

(** The conditions of the loops over blocks. *)
Definition sweep_over w : bool := w_stop w || (w_nlink w =? 0).

(** The part of [beamfs_scrub_walk_level] under the allocation mutex: the
    copy of the pointers of a node that is current and sound. *)
Definition walk_node w (top depth : nat) (blk base : Z) : option (list Z) * sweep S :=
  match w_inode w with
  | None => (None, w)
  | Some f =>
    if negb (beamfs_scrub_node_current (w_env w) f top depth base blk) then (None, w)
    else
      match bread (w_env w) blk with
      | None => (None, w)
      | Some ptrs =>
        let '(bad, s) := verify_medium (w_env w) blk ptrs in
        let w := set_env w s in
        if bad =? 0 then (Some (held s blk), w)
        else (None, on_sbi (fun b => set_counts b (s_scrub_blocks b) (s_scrub_corrected b)
                                       (u64 (s_scrub_uncorrectable b + 1))) w)
      end
  end.

(** One slot of the copy: the blocks visited so far and the sweep. *)
Definition walk_slot (walk_child : sweep S -> Z -> Z -> Z * sweep S) (leaf : bool) (ptrs : list Z) (base sp : Z)
    (st : Z * sweep S) (j : Z) : Z * sweep S :=
  let '(visited, w) := st in
  let child := ptr ptrs j in
  if sweep_over w then st
  else if child =? 0 then st
  else if negb leaf then
    let '(n, w) := walk_child w child (base + j * sp) in (u64 (visited + n), w)
  else if negb (is_allocated (w_env w) child) then st
  else
    let '(ret, corrected, w) := beamfs_scrub_check_block w child (base + j) in
    if ret =? - ESTALE then (visited, w)
    else (u64 (visited + 1), meanwhile (on_sbi (count_checked ret corrected) w)).

(** [d] is one less than the code's depth.  Returns the blocks visited. *)
Fixpoint beamfs_scrub_walk_level (d top : nat) w (blk base : Z) : Z * sweep S :=
  if (blk =? 0) || negb (is_allocated (w_env w) blk) then (0, w)
  else if negb (kmalloc_ptrs (w_env w)) then (0, w)
  else
    match walk_node (meanwhile w) top (Datatypes.S d) blk base with
    | (None, w) => (0, w)
    | (Some ptrs, w) =>
      let walk_child := match d with
        | O => fun w _ _ => (0, w)
        | Datatypes.S d => beamfs_scrub_walk_level d top
        end in
      let leaf := match d with O => true | _ => false end in
      foldl (walk_slot walk_child leaf ptrs base (span d)) (0, w) (upto BEAMFS_INDIRECT_PTRS)
    end.

Definition walk_direct (direct : list Z) w (i : Z) : sweep S :=
  let blk := getb direct i in
  if sweep_over w then w
  else if (blk =? 0) || negb (is_allocated (w_env w) blk) then w
  else
    let '(ret, corrected, w) := beamfs_scrub_check_block w blk i in
    if ret =? - ESTALE then w else meanwhile (on_sbi (count_checked ret corrected) w).

(** The walk of the inode the sweep holds, from a copy of its pointers. *)
Definition scrub_held w : sweep S :=
  match w_inode w with
  | None => w
  | Some f =>
    let w := foldl (walk_direct (fi_direct f)) w (upto BEAMFS_DIRECT_BLOCKS) in
    let w := snd (beamfs_scrub_walk_level 0 1 w (fi_indirect f) (beamfs_scrub_root_base 1)) in
    let w := snd (beamfs_scrub_walk_level 1 2 w (fi_dindirect f) (beamfs_scrub_root_base 2)) in
    snd (beamfs_scrub_walk_level 2 3 w (fi_tindirect f) (beamfs_scrub_root_base 3))
  end.

Definition S_ISREG (mode : Z) : bool := Z.land mode S_IFMT =? 32768.

(** [iget] took a reference; [iput] drops it. *)
Definition take_inode w f (nlink : Z) : sweep S := Sweep (w_env w) (Some f) nlink (w_stop w) (w_sbi w) (w_others w).
Definition drop_inode w : sweep S :=
  match w_inode w with
  | None => w
  | Some f => Sweep (iput (w_env w) f (w_nlink w)) None (w_nlink w) (w_stop w) (w_sbi w) (w_others w)
  end.

Definition beamfs_scrub_one_inode w (ino : Z) : sweep S :=
  if inode_busy (w_env w) ino then w
  else
    match table_bread (w_env w) (s_inode_table_blk (w_env w) + (ino - 1) / inodes_per_block) with
    | None => w
    | Some b =>
      let snap := slice b (inode_offset ino) sizeof_inode in
      if negb (S_ISREG (get_le16 snap off_i_mode)) then w
      else
        let w := meanwhile w in
        match scrub_iget (w_env w) ino with
        | (None, s) => set_env w s
        | (Some (f, nlink), s) =>
          let w := take_inode (set_env w s) f nlink in
          if match fi_type f with S_IFREG => nlink =? 0 | _ => true end then drop_inode w
          else drop_inode (scrub_held (meanwhile w))
        end
    end.

(** ** Worn blocks *)

Definition BEAMFS_WEAR_THRESHOLD : Z := BEAMFS_RS_PARITY / 4.

Definition beamfs_scrub_wear_step w : sweep S :=
  if s_budget_len (w_env w) =? 0 then w
  else
    let phys := budget_next_worn (w_env w) (s_wear_cursor (w_sbi w)) BEAMFS_WEAR_THRESHOLD in
    if phys =? 0 then on_sbi (fun b => set_wear b 0 (s_wear_visits b)) w
    else
      let w := on_sbi (fun b => set_wear b (u64 (phys + 1)) (u64 (s_wear_visits b + 1))) w in
      if negb (is_allocated (w_env w) phys) then w
      else
        let '(ret, corrected, w) := beamfs_scrub_check_block w phys 0 in
        on_sbi (count_checked ret corrected) w.

(** ** The thread *)

(** One turn of its loop. *)
Definition scrub_turn w : sweep S :=
  if s_scrub_interval_ms (w_sbi w) =? 0 then meanwhile w
  else
    let ino := s_scrub_cursor (w_sbi w) + 1 in
    let w := match inode_bit (w_env w) ino with
             | Some false => beamfs_scrub_one_inode w ino
             | _ => w
             end in
    let w := beamfs_scrub_wear_step w in
    let cursor := u64 (s_scrub_cursor (w_sbi w) + 1) in
    if scrub_ninodes (w_env w) <=? cursor then
      let w := on_sbi (fun b => beamfs_scrub_pace (set_cursor b 0 (u64 (s_scrub_passes b + 1)))) w in
      meanwhile (set_env w (alert_check_rate (clock_anchor (w_env w))))
    else meanwhile (on_sbi (fun b => set_cursor b cursor (s_scrub_passes b)) w).

(** [fuel] turns, or until it is asked to stop. *)
Fixpoint beamfs_scrub_thread (fuel : nat) w : sweep S :=
  match fuel with
  | O => w
  | Datatypes.S fuel => if w_stop w then w else beamfs_scrub_thread fuel (scrub_turn w)
  end.
End scrub.
