(* ===== verification/ScrubSafe.v ===== *)
(** * The sweep beside other threads

    The sweep walks a file while others write it, grow it, cut it and change
    other files.  Whatever they do between its steps, it changes the
    contents of no file. *)

From S2P Require Import Prelude Format Crc RsInit GF RsTheory RsCode RsCorrect RsDecode RsLib RsComplete Edac EdacWord EdacBlock EdacLayouts EdacTheorems Dirent FileData Dir DirTree FileDataTheorems FileTree FileSteady FileMap FileGrow FileTheorems FileFree FileTruncate FileContent Inode Scrub.

(** ** What a check finds in a block, and what it leaves there

    The decode of the sweep on a block with damage the code tolerates: the
    corrections it counts, and the bytes it would write back. *)

(** ** One codeword *)

Section word.
Context `{RL : !RsLib} `{RS : !RsLibSpec} `{RB : !RsLibBounded} (t : rs_tables) (cpu : nat).
Context (Hctrl : ctrl_here t cpu = true) (L : layout) {LO : LayoutOk L}.
Context (maxp : option Z) (Hmaxp : forall m, maxp = Some m -> 0 < m).

(** The count of a decode within the radius: the damaged symbols of the
    codeword, or those of its data when positions are asked for. *)
Lemma dec1_count mem0 mem mem' i :
  zlen mem0 = l_size L -> bytes mem0 -> encoded L mem0 mem ->
  zlen mem' = l_size L -> bytes mem' -> 0 <= i < l_n L -> damage L mem mem' i <= 8 ->
  fst (fst (dec1 t cpu L maxp mem' i)) =
    decode_return maxp (damage L mem' mem i) (changed (cw_data L mem' i) (cw_data L mem i)).
Proof.
  intros Hm0 B0 En Hm' B' Hi Hd. pose proof (lo_len (L := L)) as Hlen.
  pose proof (en_len _ _ _ En) as Hm. pose proof (en_bytes _ _ _ En) as Bm.
  pose proof (cw_input L mem i Hm Bm Hi) as Hin. pose proof (cw_input L mem' i Hm' B' Hi) as Hin'.
  assert (Hl : zlen (cw_data L mem i) = zlen (cw_data L mem' i)) by (by rewrite !(zlen_cw_data L)).
  assert (Ep : cw_par L mem i = encode_rs8 (cw_data L mem i)) by (rewrite (en_par _ _ _ En), (en_data _ _ _ En); done).
  assert (C : is_codeword (cw_data L mem i ++ cw_par L mem i)) by (rewrite Ep; apply encode_rs8_codeword; [apply Hin|destruct Hin as (_ & _ & ? & _); lia]).
  destruct (decode_rs8_bounded _ _ _ _ Hin' Hin Hl C Hd) as (cs & Ecs & H8).
  destruct (corrections_split _ _ _ Hin' Ecs) as (_ & _ & W).
  destruct (word_fixed_original (cw_data L mem i) (cw_par L mem i) (cw_data L mem' i) (cw_par L mem' i) (zlen cs) _ _
    ltac:(destruct Hin as (? & ? & _); by apply bytes_app) ltac:(destruct Hin' as (? & ? & _); by apply bytes_app) C Hl
    ltac:(apply Hin) ltac:(apply Hin') ltac:(destruct Hin as (_ & _ & ? & _); lia) W ltac:(unfold damage, cw in Hd; lia)) as [Ed Ep'].
  unfold dec1. rewrite <- (zlen_cw_data L mem' i), (rs_decode_some t cpu Hctrl _ _ maxp cs Hin' Hmaxp Ecs) by done.
  cbn [fst]. unfold fixed_data. rewrite Ed. f_equal. unfold damage, cw. rewrite <- (wf_distance _ _ _ _ _ W), Ed, Ep'. done.
Qed.
End word.

Lemma hamming_zero l l' : zlen l = zlen l' -> hamming l l' = 0 -> l = l'.
Proof.
  unfold zlen. revert l'. induction l as [|x l IH]; intros [|y l'] Hl H; simpl in Hl; try lia; [done|].
  rewrite hamming_cons in H. pose proof (hamming_le l l'). destruct (Z.eqb_spec x y) as [->|]; [|lia]. f_equal. apply IH; lia.
Qed.

(** ** The block *)

Section block.
Context `{RL : !RsLib} `{RS : !RsLibSpec} `{RB : !RsLibBounded} `{CL : !CrcLib}.
Context (c : data_cfg) (t : rs_tables) (cpu : nat) (Hr : ready t cpu).

Abbreviation L := (data_layout c).

(** What the sweep counts as damage of a codeword: symbols of its data,
    and in the interleaved layout of its parity too. *)
Definition hurt (blk raw : list Z) (i : Z) : Prop :=
  if s_rs_interleave c then cw L raw i <> cw L blk i else cw_data L raw i <> cw_data L blk i.

(** [fixed] is [raw] with the data of [blk] in every codeword; the parity
    is still that of [raw]. *)
Record mended (blk raw fixed : list Z) : Prop := {
  me_len : zlen fixed = 4096;
  me_bytes : bytes fixed;
  me_data i : 0 <= i < 16 -> cw_data L fixed i = cw_data L blk i;
  me_par i : 0 <= i < 16 -> cw_par L fixed i = cw_par L raw i;
  me_out a : 0 <= a -> (forall i k, 0 <= i < 16 -> 0 <= k < 239 -> l_data L i k <> a) -> getb fixed a = getb raw a }.

Lemma damage_split b r i : zlen b = 4096 -> zlen r = 4096 -> 0 <= i < 16 ->
  damage L b r i = hamming (cw_data L b i) (cw_data L r i) + hamming (cw_par L b i) (cw_par L r i).
Proof. intros Zb Zr Hi. unfold damage, cw. apply hamming_app. by rewrite !(zlen_cw_data L). Qed.

Lemma mended_tolerable blk raw fixed : zlen blk = 4096 -> tolerable c blk raw -> mended blk raw fixed -> tolerable c blk fixed.
Proof.
  intros Zb (Zr & Br & D & Ds) [M1 M2 M3 M4 M5]. split_and!; [done|done| |].
  - intros i Hi. specialize (D i Hi). rewrite damage_split in D |- * by done. rewrite M3, M4, hamming_refl by done.
    pose proof (hamming_le (cw_data L blk i) (cw_data L raw i)). lia.
  - intros Ec a Ha. rewrite M5; [by apply Ds| |]; unfold desc_byte in Ha; data_consts; rewrite Ec in *; [lia|].
    intros i k Hi Hk. unfold data_layout. rewrite Ec. cbn. data_consts. lia.
Qed.

(** A block without damage in its data has none after the sweep either. *)
Lemma mended_hurt blk raw fixed i : zlen blk = 4096 -> zlen raw = 4096 -> mended blk raw fixed -> 0 <= i < 16 ->
  hurt blk fixed i <-> s_rs_interleave c = true /\ cw_par L raw i <> cw_par L blk i.
Proof.
  intros Zb Zr M Hi. unfold hurt. destruct (s_rs_interleave c); [|rewrite (me_data _ _ _ M) by done; by split; [|intros [? _]]].
  unfold cw. rewrite (me_data _ _ _ M), (me_par _ _ _ M) by done. split; [intros H; split; [done|]; congruence|].
  intros [_ H] E. by apply app_inv_head in E.
Qed.

Lemma hurt_data blk raw i : ~ hurt blk raw i -> 0 <= i < 16 -> cw_data L raw i = cw_data L blk i.
Proof.
  unfold hurt. intros H Hi. apply dec_stable. intros E. destruct (s_rs_interleave c); [|done]. apply H. intros Ec. apply E.
  unfold cw in Ec. by apply app_inj_1 in Ec as [? _]; [|pose proof (zlen_cw_data L raw i); pose proof (zlen_cw_data L blk i); unfold zlen in *; lia].
Qed.

Definition sweep_maxp : option Z := if s_rs_interleave c then None else Some (BEAMFS_RS_PARITY / 2).

Lemma sweep_decoded block blk raw : zlen block = 4096 -> bytes block -> encoded L block blk -> tolerable c blk raw ->
  exists dret fixed results positions, sweep_decode c t cpu raw = (dret, fixed, results, positions, s_rs_interleave c) /\
    0 <= dret /\ mended blk raw fixed /\ (forall i, 0 <= i < 16 -> 0 <= getb results i) /\
    (forall i, 0 <= i < 16 -> 0 < getb results i <-> hurt blk raw i).
Proof.
  intros Zb Bb En (Zr & Br & D & Ds). destruct Hr as [Hc Hs]. destruct (data_layout_facts c) as (F1 & F2 & F3).
  assert (Hmp : forall m, sweep_maxp = Some m -> 0 < m) by (unfold sweep_maxp; destruct (s_rs_interleave c); [done|intros m [= <-]; done]).
  assert (N : forall fixed, decoded t cpu L sweep_maxp raw fixed ->
    let results := map (fun i => fst (fst (dec1 t cpu L sweep_maxp raw i))) (upto 16) in
    mended blk raw fixed /\ (forall i, 0 <= i < 16 -> 0 <= getb results i) /\
    (forall i, 0 <= i < 16 -> 0 < getb results i <-> hurt blk raw i) /\ (forall r, r ∈ results -> 0 <= r)).
  { intros fixed De results.
    pose proof (fun i Hi => dec1_restores t cpu Hc L sweep_maxp Hmp block blk raw i ltac:(lia) Bb En ltac:(lia) Br Hi (D i ltac:(lia))) as R.
    assert (G : forall i, 0 <= i < 16 -> getb results i = fst (fst (dec1 t cpu L sweep_maxp raw i)))
      by (intros i Hi; unfold results; by rewrite getb_map, getb_upto by (rewrite ?zlen_upto; lia)).
    split_and!.
    - split; [rewrite <- F1; apply De|apply De| | |].
      + intros i Hi. rewrite (de_data _ _ _ _ _ _ De) by lia. rewrite (en_data _ _ _ En) by lia. apply R. lia.
      + intros i Hi. apply De. lia.
      + intros a Ha Ho. apply De; [done|]. rewrite F2, F3. exact Ho.
    - intros i Hi. rewrite G by done. apply R. lia.
    - intros i Hi. rewrite G by done. rewrite (dec1_count t cpu Hc L sweep_maxp Hmp block blk raw i) by (done || lia || (apply D; lia)).
      pose proof (en_len _ _ _ En) as Zk. rewrite F1 in Zk. unfold sweep_maxp, decode_return, hurt. destruct (s_rs_interleave c).
      + pose proof (hamming_le (cw L raw i) (cw L blk i)). unfold damage. split.
        * intros H0 E. rewrite E, hamming_refl in H0. lia.
        * intros Hne. destruct (decide (hamming (cw L raw i) (cw L blk i) = 0)) as [E|]; [|lia]. exfalso. apply Hne, hamming_zero; [|done].
          by rewrite !(zlen_cw L) by lia.
      + rewrite zlen_changed by (by rewrite !(zlen_cw_data L)). change (BEAMFS_RS_PARITY / 2) with 8.
        pose proof (hamming_le (cw_data L raw i) (cw_data L blk i)). split.
        * intros H0 E. rewrite E, hamming_refl in H0. lia.
        * intros Hne. destruct (decide (hamming (cw_data L raw i) (cw_data L blk i) = 0)) as [E|]; [|lia]. exfalso. apply Hne, hamming_zero; [|done].
          by rewrite !(zlen_cw_data L).
    - intros r (i & <- & Hi%list_elem_of_In%elem_of_upto)%list_elem_of_In%in_map_iff. apply R. lia. }
  unfold sweep_decode. destruct (s_rs_interleave c) eqn:Ec.
  - assert (El : L = interleaved) by (unfold data_layout; by rewrite Ec). unfold sweep_maxp in N. rewrite Ec, El in *.
    rewrite (decode_woven_loop t cpu Hc Hs BEAMFS_BLOCK_SIZE _ _ _ _ _ (LO := interleaved_ok)) by done.
    destruct (dec_loop_spec t cpu Hc interleaved None ltac:(done) raw Zr Br) as (fixed & De & E).
    fold interleaved. rewrite E.
    destruct (N fixed De) as (N1 & N2 & N3 & N4). pose proof (woven_worst_ok _ N4) as Hw.
    change (l_n interleaved) with 16. destruct (Z.eqb_spec (woven_worst (map (fun i => fst (fst (dec1 t cpu interleaved None raw i))) (upto 16))) (- EUCLEAN)) as [E0|_];
      [rewrite E0 in Hw; done|]. cbn [negb].
    do 4 eexists. split; [reflexivity|]. split_and!; done.
  - assert (El : L = alternating) by (unfold data_layout; by rewrite Ec). unfold sweep_maxp in N. rewrite Ec, El in *.
    destruct (decode_region_decoded t cpu Hc BEAMFS_BLOCK_SIZE 0 255 239 255 239 16 raw (Some (BEAMFS_RS_PARITY / 2)) ltac:(by intros m [= <-]) Zr Br)
      as (fixed & De & E). data_consts. rewrite E. destruct (N fixed De) as (N1 & N2 & N3 & N4).
    do 4 eexists. split; [reflexivity|]. rewrite first_error_ok by exact N4. split_and!; done.
Qed.
End block.

(** ** The sweep beside other threads

    The sweep walks a file while others write it, grow it, cut it and change
    other files.  Whatever they do between its steps, it changes the
    contents of no file. *)

#[local] Existing Instance no_view.

(** The parity of a block of pointers verifies on the medium as it does in
    the buffer; dropping a reference to a linked inode changes no block. *)
Class ScrubEnvOk (S : Type) `{SE : !ScrubEnv S} := {
  scrub_tree_ok :: TreeEnvOk S;
  medium_same s b p : par_ok s -> allocated s b -> zlen p = 4096 -> bytes p -> described s b p ->
    exists s', verify_medium s b p = (0, s') /\ same s s' /\ failed s' = failed s;
  iput_same s f nlink : nlink <> 0 -> same s (iput s f nlink) }.

Section blocks.
Context {S : Type} `{RL : !RsLib} `{RS : !RsLibSpec} `{RB : !RsLibBounded} `{CL : !CrcLib} `{SO : ScrubEnvOk S}.
Context (c : data_cfg) (t : rs_tables) (cpu : nat) (Hr : ready t cpu).
Implicit Types (s : S) (w : sweep S) (f g : finode) (C D : Z -> Z).

Notation sealed := (sealed c t cpu).
Notation file_maps := (file_maps c t cpu).

(** A block built by the write path is an encoded block. *)
Lemma build_encoded page pay ino i blk : zlen page = 4096 -> bytes page -> bytes pay -> beamfs_block_payload c <= zlen pay ->
  build_data_block c t cpu page pay ino i = (0, blk) -> exists block, zlen block = 4096 /\ bytes block /\ encoded (data_layout c) block blk.
Proof.
  intros Zp Bp By Hl E. unfold build_data_block in E. destruct (lay_spec c page pay Zp Bp By Hl) as (L1 & L2 & _).
  destruct (stamp_spec c _ pay ino i L1 L2 By) as (S1 & S2 & _). destruct (seal_spec c t cpu Hr _ S1 S2) as (blk' & E' & En).
  rewrite E in E'. injection E' as <-. by eexists.
Qed.

(** The decode of a sealed block is sealed for the same payload. *)
Lemma sealed_decoded ino i pay raw : sealed ino i pay raw ->
  exists dret fixed results positions, sweep_decode c t cpu raw = (dret, fixed, results, positions, s_rs_interleave c) /\
    0 <= dret /\ (forall k, 0 <= k < 16 -> 0 <= getb results k) /\ sealed ino i pay fixed.
Proof.
  intros (By & Hl & page & blk & Zp & Bp & E & T). destruct (build_encoded page pay ino i blk Zp Bp By Hl E) as (block & Zb & Bb & En).
  destruct (sweep_decoded c t cpu Hr block blk raw Zb Bb En T) as (dret & fixed & results & positions & Ed & H0 & M & R & _).
  exists dret, fixed, results, positions. split_and!; [done..|]. split; [done|]. split; [done|]. exists page, blk. split_and!; [done..|].
  destruct (data_layout_facts c) as (F & _). apply (mended_tolerable c blk raw); [rewrite <- F; apply En|done|done].
Qed.

(** A report without failures. *)
Lemma report_clean phys woven results positions s : (forall k, 0 <= k < 16 -> 0 <= getb results k) ->
  exists s' n, foldl (sweep_report t cpu phys woven results positions) (s, 0, None, 0) (upto 16) = (s', n, None, 0) /\ same s s' /\
    0 <= n <= 16 /\ (n = 0 <-> forall k, 0 <= k < 16 -> getb results k = 0) /\
    forall P : S -> Prop, (forall s calls, P s -> P (report s calls)) -> P s -> P s'.
Proof.
  intros H. set (Inv := fun (m : Z) (st : S * Z * option (list Z) * Z) => exists s' n, st = (s', n, None, 0) /\ same s s' /\
    0 <= n <= m /\ (n = 0 <-> forall k, 0 <= k < m -> getb results k = 0) /\ forall P : S -> Prop, (forall s calls, P s -> P (report s calls)) -> P s -> P s').
  apply (foldl_upto_ind _ Inv); [lia| |].
  - exists s, 0. split; [done|]. split; [apply same_refl|]. split_and!; [lia|lia| |done]. split; [lia|done].
  - intros i st Hi (s' & n & -> & Sm & Hn & Z0 & HP). unfold sweep_report. specialize (H i Hi). destruct (Z.ltb_spec 0 (getb results i)) as [Hp|Hp].
    + eexists _, (n + 1). split; [reflexivity|]. split_and!; [by eapply same_trans; [exact Sm|apply report_same]|lia|lia| |].
      * split; [lia|]. intros G. specialize (G i ltac:(lia)). lia.
      * intros P Hrep Hs. apply Hrep. by apply HP.
    + destruct (Z.ltb_spec (getb results i) 0); [lia|]. exists s', n. split; [done|]. split; [done|]. split; [lia|]. split; [|done]. rewrite Z0. split.
      * intros G k Hk. destruct (decide (k = i)) as [->|]; [lia|]. apply G. lia.
      * intros G k Hk. apply G. lia.
Qed.

(** ** Two files *)

(** The file the sweep holds, any other file, and no block of both. *)
Record both s f C g D : Prop := {
  bo_file : file_maps s f C;
  bo_other : file_maps s g D;
  bo_apart x : x ∈ file_blocks s f -> x ∉ file_blocks s g }.

Lemma blocks_same s s' f : wf_file s f -> same s s' -> file_blocks s' f = file_blocks s f.
Proof. intros W Sm. apply (file_frame s s' f W). intros x Hx. apply same_keeps; [done|]. by apply (file_allocated s f). Qed.

Lemma both_same s s' f C g D : same s s' -> both s f C g D -> both s' f C g D.
Proof.
  intros Sm [H1 H2 H3]. split; [by apply (maps_same c t cpu s)|by apply (maps_same c t cpu s)|].
  intros x. rewrite (blocks_same s s' f), (blocks_same s s' g); [apply H3|apply H2|done|apply H1|done].
Qed.

Lemma maps_kept s s' g D : file_maps s g D -> (par_ok s -> par_ok s') -> (forall x, x ∈ file_blocks s g -> keeps s s' x) ->
  file_maps s' g D /\ file_blocks s' g = file_blocks s g.
Proof.
  intros [W P B] HP K. destruct (file_frame s s' g W K) as (F1 & F2 & F3). split; [|done]. split; [done|by apply HP|].
  intros i Hi. apply (block_holds_frame c t cpu s s' g g D D); [done|by apply F3| |done|by apply B].
  intros p Hne Hp. destruct (wf_leaf _ s g i W Hi Hne) as [Hx _]. destruct (K _ Hx) as (_ & -> & _). done.
Qed.

(** A block of the file is written. *)
Lemma both_write s f C C' g D i pay raw : both s f C g D -> file_block i -> fget s f i <> 0 -> sealed (fi_ino f) i pay raw ->
  (forall u, 0 <= u < beamfs_block_payload c -> getb pay u = C' (i * beamfs_block_payload c + u)) ->
  (forall j u, file_block j -> j <> i -> 0 <= u < beamfs_block_payload c -> C' (j * beamfs_block_payload c + u) = C (j * beamfs_block_payload c + u)) ->
  both (bput s (fget s f i) raw) f C' g D.
Proof.
  intros [H1 H2 H3] Hi Hne Se Hp Ho. destruct (maps_put c t cpu s f C C' i pay raw H1 Hi Hne Se Hp Ho) as (M1 & _ & A1).
  destruct (file_put s f i raw (fm_wf _ _ _ _ _ _ H1) Hi Hne) as (_ & E1 & _).
  destruct (maps_kept s (bput s (fget s f i) raw) g D H2) as [M2 E2]; [apply (bput_par s (fget s f i) raw)| |].
  - intros x Hx. apply (ap_kept _ _ _ _ A1); [apply (file_allocated s g); [apply H2|done]|]. intros Hx'. by apply (H3 x).
  - split; [done|done|]. intros x. rewrite E1, E2. apply H3.
Qed.

(** A block of the file is replaced by its decode. *)
Lemma both_put s f C g D i raw fixed : both s f C g D -> file_block i -> fget s f i <> 0 -> bread s (fget s f i) = Some raw ->
  (forall pay, sealed (fi_ino f) i pay raw -> sealed (fi_ino f) i pay fixed) -> both (bput s (fget s f i) fixed) f C g D.
Proof.
  intros B Hi Hne R M. destruct (fm_block _ _ _ _ _ _ (bo_file _ _ _ _ _ B) i Hi) as [_ Bh]. destruct (Bh Hne) as (raw' & pay & R' & Se & Hp).
  rewrite R in R'. injection R' as <-. by apply (both_write s f C C g D i pay fixed B Hi Hne (M pay Se) Hp).
Qed.

(** The owner is asked: what it answers, and that asking changes nothing. *)
Lemma leaf_current_spec s f C i phys : file_maps s f C -> 0 <= i -> phys <> 0 -> exists current s',
  beamfs_scrub_leaf_current s f i phys = (current, s') /\ same s s' /\
  (current = true -> file_block i /\ fget s f i = phys) /\
  (beamfs_ino_is_reserved (fi_ino f) = false -> file_block i -> fget s f i = phys -> current = true).
Proof.
  intros H Hi Hp. unfold beamfs_scrub_leaf_current. pose proof (fm_wf _ _ _ _ _ _ H) as W. destruct (beamfs_ino_is_reserved (fi_ino f)).
  - eexists _, s. split; [reflexivity|]. split; [apply same_refl|]. split; [|done].
    intros (Hlt%Z.ltb_lt & E%Z.eqb_eq)%andb_true_iff. change BEAMFS_DIRECT_BLOCKS with 12 in Hlt.
    assert (Fb : file_block i) by (path_consts; lia). split; [done|]. destruct (path_root f i (wff_direct _ _ W) Fb) as (b & Hb & Eb).
    rewrite (fget_path s f i b Hb). path_consts. destruct (Z.ltb_spec i 12); [|lia]. cbn [snd tree_get]. subst b. rewrite E. by destruct (Z.eqb_spec phys 0).
  - destruct (Z.ltb_spec i BEAMFS_MAX_IBLOCK_TINDIRECT) as [Hlt|Hge].
    + destruct (lookup_phys_spec s f i W (fm_par _ _ _ _ _ _ H) (conj Hi Hlt)) as (s' & -> & Sm & _). eexists _, s'. split; [reflexivity|].
      split; [done|]. split; [intros (_ & E%Z.eqb_eq)%andb_true_iff; done|]. intros _ _ ->. by rewrite !Z.eqb_refl.
    + unfold beamfs_inline_lookup_phys. path_consts. change (12 + 512) with 524.
      repeat (match goal with |- context [i <? ?n] => destruct (Z.ltb_spec i n); [lia|] end). eexists _, s. split; [reflexivity|].
      split; [apply same_refl|]. split; [done|]. lia.
Qed.
End blocks.

(** ** The sweep beside the others *)

Section beside.
Context {S : Type} `{RL : !RsLib} `{RS : !RsLibSpec} `{RB : !RsLibBounded} `{CL : !CrcLib} `{SO : ScrubEnvOk S}.
Context (c : data_cfg) (t : rs_tables) (cpu : nat) (Hr : ready t cpu).
Context (g : finode) (D : Z -> Z) (effect : others S -> (Z -> Z) -> Z -> Z).
Implicit Types (s : S) (w : sweep S) (f : finode) (C : Z -> Z).

Notation both := (both c t cpu).

(** What the others promise: a step changes the file the sweep holds by its
    [effect], and leaves the other file as it is. *)
Definition fair (o : others S) : Prop := forall s f C, both s f C g D ->
  both (fst (o_file o s f)) (snd (o_file o s f)) (effect o C) g D.

(** The file holds [C], the others are fair. *)
Definition sweeping w C : Prop := exists f, w_inode w = Some f /\ both (w_env w) f C g D /\ Forall fair (w_others w).

(** From [w] to [w'] some of the others ran, and the contents are what they
    made of them. *)
Definition went w C w' : Prop := exists ran, w_others w = ran ++ w_others w' /\ sweeping w' (foldl (fun C o => effect o C) C ran).

Lemma went_refl w C : sweeping w C -> went w C w.
Proof. intros H. by exists []. Qed.

Lemma went_trans w C w1 w2 : went w C w1 -> (forall C1, sweeping w1 C1 -> went w1 C1 w2) -> went w C w2.
Proof.
  intros (r1 & E1 & H1) H. destruct (H _ H1) as (r2 & E2 & H2). exists (r1 ++ r2). split; [by rewrite E1, E2, app_assoc|]. by rewrite foldl_app.
Qed.

(** Steps of the sweep that leave the file alone. *)
Lemma went_same w C w' : sweeping w C -> w_inode w' = w_inode w -> w_others w' = w_others w -> same (w_env w) (w_env w') -> went w C w'.
Proof.
  intros (f & Hf & B & F) E1 E2 Sm. exists []. rewrite E2. split; [done|]. exists f. rewrite E1, E2. split_and!; [done| |done].
  by apply (both_same c t cpu (w_env w)).
Qed.

Lemma meanwhile_went w C : sweeping w C -> went w C (meanwhile w).
Proof.
  intros H. pose proof H as (f & Hf & B & F). unfold meanwhile. destruct (w_others w) as [|o rest] eqn:E; [by apply went_refl|].
  apply list.Forall_cons in F as [Fo F]. rewrite Hf. specialize (Fo _ _ _ B). destruct (o_file o (w_env w) f) as [s' f'].
  exists [o]. split; [by rewrite E|]. exists f'. by split_and!.
Qed.

Lemma sbi_went w C b : sweeping w C -> went w C (on_sbi b w).
Proof. intros H. apply went_same; done. Qed.

Lemma write_back_went w C phys i orig fixed dret results positions woven :
  sweeping w C -> 0 <= i -> phys <> 0 -> sweep_decode c t cpu orig = (dret, fixed, results, positions, woven) ->
  went w C (sweep_write_back w phys i orig fixed).
Proof.
  intros H Hi Hp E. pose proof H as (f & Hf & B & F). unfold sweep_write_back. rewrite Hf.
  destruct (_ || _); [by apply went_refl|].
  destruct (leaf_current_spec c t cpu (w_env w) f C i phys (bo_file _ _ _ _ _ _ _ _ B) Hi Hp) as (cur & s1 & -> & Sm & Hcur & _).
  pose proof (both_same c t cpu _ _ _ _ _ _ Sm B) as B1. destruct cur; cbn [andb]; [|by apply went_same].
  case_bool_decide as Hb; [|by apply went_same]. destruct (Hcur eq_refl) as [Fb Eg].
  destruct (maps_same c t cpu (w_env w) s1 f C Sm (bo_file _ _ _ _ _ _ _ _ B)) as [M1 G1]. rewrite <- (G1 i Fb) in Eg.
  destruct (fm_block _ _ _ _ _ _ M1 i Fb) as [_ Bh]. destruct (Bh ltac:(congruence)) as (raw & pay & Rd & Se & _).
  rewrite Eg in Rd. unfold held in Hb. rewrite Rd in Hb. change (raw = orig) in Hb. subst orig.
  exists []. split; [done|]. exists f. split_and!; [done| |done]. cbn [w_env set_env]. rewrite <- Eg.
  apply (both_put c t cpu s1 f C g D i raw); [done|done|congruence|congruence|]. intros pay' Se'.
  destruct (sealed_decoded c t cpu Hr (fi_ino f) i pay' raw Se') as (d & fx & rs & ps & Ed & _ & _ & Sf). rewrite E in Ed. by injection Ed as _ -> _ _ _.
Qed.

Lemma report_went w C phys woven results positions : sweeping w C ->
  went w C (set_env w (fst (fst (fst (foldl (sweep_report t cpu phys woven results positions) (w_env w, 0, None, 0) (upto 16)))))).
Proof.
  intros H. apply went_same; [done|done|done|]. cbn [w_env set_env].
  apply (foldl_upto_ind _ (fun _ st => same (w_env w) (fst (fst (fst st))))); [lia|apply same_refl|].
  intros i [[[s n] r2] ret] _ Sm. unfold sweep_report. cbn [fst] in Sm.
  destruct (0 <? _); [by eapply same_trans; [exact Sm|apply report_same]|]. destruct (_ <? 0); [|done].
  destruct (0 <=? _); [done|]. by eapply same_trans; [exact Sm|apply report_same].
Qed.

Lemma snapshot_went w C phys i : sweeping w C -> 0 <= i -> phys <> 0 -> went w C (snd (beamfs_scrub_snapshot w phys i)).
Proof.
  intros H Hi Hp. pose proof H as (f & Hf & B & F). unfold beamfs_scrub_snapshot. rewrite Hf.
  destruct (leaf_current_spec c t cpu (w_env w) f C i phys (bo_file _ _ _ _ _ _ _ _ B) Hi Hp) as (cur & s1 & -> & Sm & _). by apply went_same.
Qed.

Lemma check_went w C phys i : sweeping w C -> 0 <= i -> phys <> 0 -> went w C (snd (beamfs_scrub_check_block c t cpu w phys i)).
Proof.
  intros H Hi Hp. unfold beamfs_scrub_check_block. destruct (negb (kzalloc_scratch _)); [by apply went_refl|].
  destruct (negb (scratch_get _)); [by apply went_refl|].
  apply (went_trans w C (meanwhile w)); [by apply meanwhile_went|]. intros C1 H1.
  pose proof (snapshot_went _ C1 phys i H1 Hi Hp) as Hs. destruct (beamfs_scrub_snapshot (meanwhile w) phys i) as [[e|orig] w2]; cbn [snd] in *; [done|].
  apply (went_trans _ C1 w2); [done|]. clear Hs H1. intros C2 H2.
  destruct (sweep_decode c t cpu orig) as [[[[dret fixed] results] positions] woven] eqn:E. destruct (_ && _); [by apply went_refl|].
  apply (went_trans w2 C2 (meanwhile w2)); [by apply meanwhile_went|]. intros C3 H3.
  pose proof (report_went _ C3 phys woven results positions H3) as Hw. change BEAMFS_DATA_INLINE_SUBBLOCKS with 16.
  destruct (foldl _ (w_env (meanwhile w2), 0, None, 0) (upto 16)) as [[[s n] r2] ret]. cbn [fst snd] in *.
  destruct (_ && _); [|done]. apply (went_trans _ C3 _ _ Hw). intros C4 H4. by apply (write_back_went _ C4 phys i orig fixed dret results positions woven).
Qed.

(** A node that is current is one of the file's blocks of pointers: its
    parity verifies. *)
Lemma node_below_ok : forall n s off sp b d, tree_ok s (n + Datatypes.S d) b -> 0 <= sp -> 0 <= off ->
  forall x, node_below s n off sp b = Some x -> x <> 0 -> tree_ok s (Datatypes.S d) x.
Proof.
  induction n as [|n IH]; intros s off sp b d Hok Hsp Hoff x E Hx; cbn [node_below] in E; [by injection E as <-|].
  destruct (Z.eqb_spec b 0) as [|Hb]; [by injection E as <-|]. change BEAMFS_INDIRECT_PTRS with 512 in E. destruct (Z.leb_spec 512 (off / sp)); [done|].
  destruct Hok as [?|(A & p & R & Zp & Bp & De & K)]; [done|]. rewrite R in E.
  assert (Hs : 0 <= off / sp /\ off / sp * sp <= off).
  { destruct (decide (sp = 0)) as [->|]; [rewrite Zdiv_0_r; lia|]. split; [apply Z.div_pos; lia|]. rewrite Z.mul_comm. apply Z.mul_div_le. lia. }
  eapply (IH s (off - off / sp * sp) (sp / 512) (ptr p (off / sp)) d); [apply K; lia|apply Z.div_pos; lia|lia|exact E|done].
Qed.

Lemma root_ok s f top : wf_file s f -> (1 <= top <= 3)%nat ->
  file_roots f !! (11 + top)%nat = Some (top, scrub_root f top) /\ tree_ok s top (scrub_root f top).
Proof.
  intros [Hd FO] Ht. assert (E : file_roots f !! (11 + top)%nat = Some (top, scrub_root f top)); [|split; [done|by apply (fo_ok _ _ FO (11 + top)%nat)]].
  unfold file_roots. rewrite lookup_app_r by (rewrite length_map; unfold zlen in Hd; lia). rewrite length_map.
  destruct top as [|[|[|[|top]]]]; try lia; replace (length (fi_direct f)) with 12%nat by (unfold zlen in Hd; lia); done.
Qed.

Lemma node_went w C top d blk base : sweeping w C -> (Datatypes.S d <= top <= 3)%nat -> blk <> 0 -> beamfs_scrub_root_base top <= base ->
  went w C (snd (walk_node w top (Datatypes.S d) blk base)).
Proof.
  intros H Ht Hb Hbase. pose proof H as (f & Hf & B & F). unfold walk_node. rewrite Hf.
  destruct (beamfs_scrub_node_current (w_env w) f top (Datatypes.S d) base blk) eqn:E; cbn [negb]; [|by apply went_refl].
  destruct (bread (w_env w) blk) as [ptrs|] eqn:R; [|by apply went_refl].
  unfold beamfs_scrub_node_current in E. destruct (node_below _ _ _ _ _) as [x|] eqn:En; [|done]. apply Z.eqb_eq in E as ->.
  pose proof (bo_file _ _ _ _ _ _ _ _ B) as M. destruct (root_ok (w_env w) f top (fm_wf _ _ _ _ _ _ M) ltac:(lia)) as [_ Ok].
  replace top with ((top - Datatypes.S d) + Datatypes.S d)%nat in Ok at 1 by lia.
  destruct (node_below_ok (top - Datatypes.S d) (w_env w) (base - beamfs_scrub_root_base top) (span (top - 1)) (scrub_root f top) d Ok ltac:(unfold span; apply Z.pow_nonneg; done) ltac:(lia) _ En Hb) as [?|(A & p & R' & Zp & Bp & De & _)]; [done|].
  rewrite R in R'. injection R' as <-. destruct (medium_same _ _ _ (fm_par _ _ _ _ _ _ M) A Zp Bp De) as (s1 & -> & Sm & _).
  cbn [Z.eqb snd]. by apply went_same.
Qed.

Lemma slot_went child leaf ptrs base sp visited w C j : sweeping w C -> 0 <= base -> 0 <= sp -> 0 <= j ->
  (leaf = false -> forall w C b base', sweeping w C -> base <= base' -> went w C (snd (child w b base'))) ->
  went w C (snd (walk_slot c t cpu child leaf ptrs base sp (visited, w) j)).
Proof.
  intros H Hb Hsp Hj Hc. unfold walk_slot. destruct (sweep_over w); [by apply went_refl|]. destruct (Z.eqb_spec (ptr ptrs j) 0); [by apply went_refl|].
  destruct leaf; cbn [negb].
  - destruct (negb _); [by apply went_refl|]. pose proof (check_went w C (ptr ptrs j) (base + j) H ltac:(lia) ltac:(done)) as Hk.
    destruct (beamfs_scrub_check_block c t cpu w (ptr ptrs j) (base + j)) as [[ret m] w1]. cbn [snd] in Hk. destruct (_ =? _); [done|]. cbn [snd].
    apply (went_trans _ _ _ _ Hk). intros C1 H1. apply (went_trans _ C1 (on_sbi (count_checked ret m) w1)); [by apply sbi_went|]. intros C2 H2. by apply meanwhile_went.
  - pose proof (Hc eq_refl w C (ptr ptrs j) (base + j * sp) H ltac:(nia)) as Hw. by destruct (child w (ptr ptrs j) (base + j * sp)).
Qed.

Lemma walk_went d : forall w C top blk base, sweeping w C -> (Datatypes.S d <= top <= 3)%nat -> beamfs_scrub_root_base top <= base ->
  went w C (snd (beamfs_scrub_walk_level c t cpu d top w blk base)).
Proof.
  assert (B0 : forall top, 0 <= beamfs_scrub_root_base top) by (intros [|[|[|top]]]; done).
  induction d as [|d IH]; intros w C top blk base H Ht Hb; cbn [beamfs_scrub_walk_level].
  all: destruct (Z.eqb_spec blk 0); cbn [orb]; [by apply went_refl|]; destruct (negb _); [by apply went_refl|]; destruct (negb _); [by apply went_refl|].
  all: apply (went_trans w C (meanwhile w)); [by apply meanwhile_went|]; intros C1 H1.
  all: match goal with |- context [walk_node ?w0 ?t0 (Datatypes.S ?d0) ?b ?x] =>
    pose proof (node_went w0 C1 t0 d0 b x H1 ltac:(lia) ltac:(done) Hb) as Hn; destruct (walk_node w0 t0 (Datatypes.S d0) b x) as [[ptrs|] w2] end; cbn [snd] in *; [|done].
  all: apply (went_trans _ _ _ _ Hn); clear Hn; intros C2 H2; change BEAMFS_INDIRECT_PTRS with 512.
  all: apply (foldl_upto_ind _ (fun _ st => went w2 C2 (snd st))); [lia|by apply went_refl|]; intros j [v w3] Hj Hw; cbn [snd] in Hw.
  all: apply (went_trans _ _ _ _ Hw); intros C3 H3; pose proof (B0 top); apply slot_went; [done|lia|apply Z.pow_nonneg; done|lia|]; intros ?; try done.
  intros w4 C4 b base' Hs4 Hb4. apply IH; [done|lia|lia].
Qed.

(** The sweep of the inode it holds. *)
Lemma held_went w C : sweeping w C -> went w C (scrub_held c t cpu w).
Proof.
  intros H. pose proof H as (f & Hf & B & F). unfold scrub_held. rewrite Hf. change BEAMFS_DIRECT_BLOCKS with 12.
  assert (Hd : went w C (foldl (walk_direct c t cpu (fi_direct f)) w (upto 12))).
  { apply (foldl_upto_ind _ (fun _ w' => went w C w')); [lia|by apply went_refl|]. intros i w1 Hi Hw. apply (went_trans _ _ _ _ Hw). intros C1 H1.
    unfold walk_direct. destruct (sweep_over w1); [by apply went_refl|]. destruct (Z.eqb_spec (getb (fi_direct f) i) 0); cbn [orb]; [by apply went_refl|].
    destruct (negb _); [by apply went_refl|]. pose proof (check_went w1 C1 (getb (fi_direct f) i) i H1 ltac:(lia) ltac:(done)) as Hk.
    destruct (beamfs_scrub_check_block c t cpu w1 (getb (fi_direct f) i) i) as [[ret n1] w2]. cbn [snd] in Hk. destruct (_ =? _); [done|].
    apply (went_trans _ _ _ _ Hk). intros C2 H2. apply (went_trans _ C2 (on_sbi (count_checked ret n1) w2)); [by apply sbi_went|]. intros C3 H3. by apply meanwhile_went. }
  apply (went_trans _ _ _ _ Hd). intros C1 H1.
  eapply went_trans; [exact (walk_went 0 _ C1 1 (fi_indirect f) (beamfs_scrub_root_base 1) H1 ltac:(lia) ltac:(lia))|]. intros C2 H2.
  eapply went_trans; [exact (walk_went 1 _ C2 2 (fi_dindirect f) (beamfs_scrub_root_base 2) H2 ltac:(lia) ltac:(lia))|]. intros C3 H3.
  exact (walk_went 2 _ C3 3 (fi_tindirect f) (beamfs_scrub_root_base 3) H3 ltac:(lia) ltac:(lia)).
Qed.
End beside.
