(* ===== verification/ScrubRepair.v ===== *)
(** * What a sweep repairs

    On a file nobody touches meanwhile, the sweep reaches every block the
    file maps and leaves each with the data that was written. *)

From S2P Require Import Prelude Format Crc RsInit GF RsTheory RsCode RsCorrect RsDecode RsLib RsComplete Edac EdacWord EdacBlock EdacLayouts EdacTheorems Dirent FileData Dir DirTree FileDataTheorems FileTree FileSteady FileMap FileGrow FileTheorems FileFree FileTruncate FileContent Inode Scrub ScrubSafe.

#[local] Existing Instance no_view.

(** ** The place of a block in a tree *)

(** The number of a leaf, from its slots. *)
Fixpoint index (slots : list Z) : Z :=
  match slots with [] => 0 | j :: slots => j * 512 ^ Z.of_nat (length slots) + index slots end.

Abbreviation slots_ok := (Forall (fun j : Z => 0 <= j < 512)).

Lemma slots_index_bound slots : slots_ok slots -> 0 <= index slots < 512 ^ Z.of_nat (length slots).
Proof.
  induction 1 as [|j slots Hj _ IH]; [done|]. cbn [index length]. rewrite Nat2Z.inj_succ, Z.pow_succ_r by lia. nia.
Qed.

Lemma index_snoc slots j : index (slots ++ [j]) = index slots * 512 + j.
Proof.
  induction slots as [|k slots IH]; cbn [index app]; [change (Z.of_nat (length (@nil Z))) with 0; lia|].
  rewrite IH, length_app. cbn [length]. rewrite Nat.add_1_r, Nat2Z.inj_succ, Z.pow_succ_r by lia. ring.
Qed.

Lemma slots_path top slots : (1 <= top <= 3)%nat -> length slots = top -> slots_ok slots ->
  file_block (beamfs_scrub_root_base top + index slots) /\ path (beamfs_scrub_root_base top + index slots) = ((11 + top)%nat, slots).
Proof.
  intros Ht El F. pose proof (slots_index_bound slots F) as Hb. rewrite El in Hb. unfold beamfs_scrub_root_base.
  destruct top as [|[|[|[|top]]]]; try lia; destruct slots as [|a [|b [|d [|? ?]]]]; try done; clear El Ht; cbn [index length Nat.add] in *;
    repeat (match goal with H : slots_ok (_ :: _) |- _ => apply list.Forall_cons in H as [? H] end).
  all: change (512 ^ Z.of_nat 0) with 1 in *; change (512 ^ Z.of_nat 1) with 512 in *; change (512 ^ Z.of_nat 2) with (512 * 512) in *; change (512 ^ Z.of_nat 3) with (512 * 512 * 512) in *.
  all: path_consts; change (12 + 512) with 524.
  all: split; [lia|].
  all: repeat (match goal with |- context [?x <? ?y] => destruct (Z.ltb_spec x y); try lia end).
  all: f_equal; repeat (f_equal; try (Z.to_euclidean_division_equations; lia)).
Qed.

Section shape.
Context {S : Type} `{SO : ScrubEnvOk S}.
Implicit Types s : S.

Lemma tree_get_zero s sl : tree_get s 0 sl = 0.
Proof. by destruct sl. Qed.

Lemma tree_get_app s : forall sl b sl', tree_get s b (sl ++ sl') = tree_get s (tree_get s b sl) sl'.
Proof.
  induction sl as [|j sl IH]; intros b sl'; cbn [app tree_get].
  - by destruct (Z.eqb_spec b 0) as [->|].
  - destruct (Z.eqb_spec b 0) as [->|]; [by rewrite tree_get_zero|apply IH].
Qed.

(** The loop of beamfs_scrub_node_current follows the slots. *)
Lemma node_below_get s r : forall sl b, tree_ok s (length sl + r) b -> slots_ok sl ->
  node_below s (length sl) (index sl * 512 ^ Z.of_nat r) (512 ^ Z.of_nat (length sl - 1 + r)) b = Some (tree_get s b sl).
Proof.
  induction sl as [|j sl IH]; intros b Hok F; cbn [length node_below tree_get]; [by destruct (Z.eqb_spec b 0) as [->|]|].
  destruct (Z.eqb_spec b 0) as [->|Hb]; [done|]. apply list.Forall_cons in F as [Hj F]. pose proof (slots_index_bound sl F) as Hx.
  cbn [Nat.add] in Hok. destruct Hok as [?|(A & p & R & Zp & Bp & De & K)]; [done|]. rewrite R.
  assert (Eh : held s b = p) by (unfold held; by rewrite R). rewrite Eh.
  replace (Datatypes.S (length sl) - 1 + r)%nat with (length sl + r)%nat by lia.
  assert (Hp : 0 < 512 ^ Z.of_nat r) by (apply Z.pow_pos_nonneg; lia).
  assert (Ep : 512 ^ Z.of_nat (length sl + r) = 512 ^ Z.of_nat (length sl) * 512 ^ Z.of_nat r) by (rewrite Nat2Z.inj_add; apply Z.pow_add_r; lia).
  assert (Es : index (j :: sl) * 512 ^ Z.of_nat r / 512 ^ Z.of_nat (length sl + r) = j).
  { cbn [index]. symmetry. apply (Z.div_unique _ _ _ (index sl * 512 ^ Z.of_nat r)); [left; rewrite Ep; nia|rewrite Ep; ring]. }
  rewrite Es. change BEAMFS_INDIRECT_PTRS with 512. destruct (Z.leb_spec 512 j); [lia|].
  replace (index (j :: sl) * 512 ^ Z.of_nat r - j * 512 ^ Z.of_nat (length sl + r)) with (index sl * 512 ^ Z.of_nat r) by (rewrite Ep; cbn [index]; ring).
  destruct sl as [|j2 sl]; [cbn; by destruct (Z.eqb_spec (ptr p j) 0) as [->|]|].
  replace (512 ^ Z.of_nat (length (j2 :: sl) + r) / 512) with (512 ^ Z.of_nat (length (j2 :: sl) - 1 + r)).
  { apply IH; [by apply K|done]. }
  cbn [length]. replace (Datatypes.S (length sl) + r)%nat with (Datatypes.S (length sl + r)) by lia.
  replace (Datatypes.S (length sl) - 1 + r)%nat with (length sl + r)%nat by lia. rewrite Nat2Z.inj_succ, Z.pow_succ_r by lia.
  rewrite Z.mul_comm. by rewrite Z.div_mul.
Qed.

(** The pointers above the data are what they were. *)
Lemma tree_get_short : forall d s s' b y, tree_ok s d b -> NoDup (tree_blocks s d b) -> y ∉ tree_blocks s d b \/ at_leaf s d b y ->
  (forall x, x ∈ tree_blocks s d b -> x <> y -> bread s' x = bread s x) ->
  forall sl, (length sl <= d)%nat -> slots_ok sl -> tree_get s' b sl = tree_get s b sl.
Proof.
  induction d as [|d IH]; intros s s' b y Hok Hn Hy K [|j sl] Hl F; cbn [length tree_get] in *; try done; [lia|].
  destruct (Z.eqb_spec b 0) as [|Hb]; [done|]. apply list.Forall_cons in F as [Hj F].
  destruct Hok as [?|(A & p & R & Zp & Bp & De & Kd)]; [done|]. assert (Eh : held s b = p) by (unfold held; by rewrite R).
  rewrite tree_blocks_children in Hn by done. apply list.NoDup_cons in Hn as [Hb1 Hn]. apply forest_nodup in Hn as [Hn Dj].
  assert (In : forall k x, 0 <= k < 512 -> x ∈ tree_blocks s d (ptr p k) -> x ∈ forest s (children s d b)).
  { intros k x Hk Hx. apply elem_of_forest. exists (Z.to_nat k), d, (ptr p k). by rewrite lookup_children, Eh. }
  assert (Py : y <> b /\ (y ∉ tree_blocks s d (ptr p j) \/ at_leaf s d (ptr p j) y)).
  { destruct Hy as [Hy|(slots & [V1 V2] & E & H0)].
    - rewrite tree_blocks_children in Hy by done. rewrite not_elem_of_cons in Hy. destruct Hy as [Hy1 Hy2]. split; [done|]. left. intros Hx. apply Hy2. by apply (In j).
    - destruct slots as [|k slots]; [done|]. cbn [tree_get] in E. destruct (Z.eqb_spec b 0); [done|]. rewrite Eh in E. apply list.Forall_cons in V2 as [Hk V2].
      assert (V : valid_slots d slots) by (split; [by injection V1|done]).
      destruct (tree_leaf _ s d (ptr p k) slots (Kd k Hk) V ltac:(congruence)) as [Ly _]. rewrite E in Ly. split; [intros ->; by apply Hb1, (In k)|].
      destruct (decide (k = j)) as [->|Hkj]; [right; by exists slots|left]. intros Hx.
      apply (Dj (Z.to_nat j) (Z.to_nat k) d (ptr p j) d (ptr p k) y); [lia|by rewrite lookup_children, Eh..|done|done]. }
  destruct Py as [Hyb Py]. assert (Eb : held s' b = p) by (unfold held; by rewrite (K b), R; [|rewrite tree_blocks_children by done; left|]).
  rewrite Eb, Eh. apply (IH s s' (ptr p j) y); [by apply Kd|apply (Hn (Z.to_nat j) d); by rewrite lookup_children, Eh|done| |lia|done].
  intros x Hx Hne. apply K; [|done]. rewrite tree_blocks_children by done. right. by apply (In j).
Qed.
End shape.

(** ** One block *)

(** Memory is there, the volume is writable, and what the sweep does keeps
    it so. *)
Class Able (S : Type) `{SE : !ScrubEnv S} := {
  able_steady :: Steady S;
  able_kzalloc s : steady s -> kzalloc_scratch s = true;
  able_kmalloc s : steady s -> kmalloc_ptrs s = true;
  able_rw s : steady s -> sb_rdonly s = false;
  able_write s : steady s -> sb_start_write_trylock s = true;
  able_medium s b p : steady s -> steady (snd (verify_medium s b p)) }.

Section repair.
Context {S : Type} `{RL : !RsLib} `{RS : !RsLibSpec} `{RB : !RsLibBounded} `{CL : !CrcLib} `{SO : ScrubEnvOk S} `{AB : !Able S}.
Context (c : data_cfg) (t : rs_tables) (cpu : nat) (Hr : ready t cpu).
Implicit Types (s : S) (w : sweep S).

Abbreviation P := (beamfs_block_payload c).
Abbreviation L := (data_layout c).

(** [raw] holds every data symbol of a block built for [pay]. *)
Definition intact (ino i : Z) (pay raw : list Z) : Prop :=
  bytes pay /\ P <= zlen pay /\ exists page blk, zlen page = 4096 /\ bytes page /\
    build_data_block c t cpu page pay ino i = (0, blk) /\ tolerable c blk raw /\
    forall k, 0 <= k < 16 -> cw_data L raw k = cw_data L blk k.

Context (f : finode) (C : Z -> Z) (Hf : beamfs_ino_is_reserved (fi_ino f) = false).

(** Block [i] of the file, where it has one, holds its bytes of [C] without
    damage. *)
Definition sound s (i : Z) : Prop := fget s f i <> 0 -> exists raw pay, bread s (fget s f i) = Some raw /\
  intact (fi_ino f) i pay raw /\ forall u, 0 <= u < P -> getb pay u = C (i * P + u).

(** The sweep holds the file, whose contents are [C]; nobody else runs. *)
Record quiet w : Prop := {
  qu_others : w_others w = [];
  qu_inode : w_inode w = Some f;
  qu_over : sweep_over w = false;
  qu_steady : steady (w_env w);
  qu_maps : file_maps c t cpu (w_env w) f C }.

(** The pointers of the file are the same. *)
Definition same_shape s s' : Prop := forall k d b sl, file_roots f !! k = Some (d, b) -> (length sl <= d)%nat -> slots_ok sl ->
  tree_get s' b sl = tree_get s b sl.

(** The blocks in [I] are sound, and those that were. *)
Record mends w w' (I : Z -> Prop) : Prop := {
  mn_quiet : quiet w';
  mn_shape : same_shape (w_env w) (w_env w');
  mn_sound i : file_block i -> I i \/ sound (w_env w) i -> sound (w_env w') i }.

Lemma mends_trans w w1 w2 I J : mends w w1 I -> mends w1 w2 J -> mends w w2 (fun i => I i \/ J i).
Proof.
  intros [Q1 S1 M1] [Q2 S2 M2]. split; [done| |].
  - intros k d b sl Hk Hl F. rewrite (S2 k d b sl), (S1 k d b sl) by done. done.
  - intros i Hi [[H|H]|H]; apply M2; try done; [right|by left|right]; apply M1; tauto.
Qed.

Lemma mends_weaken w w' (I J : Z -> Prop) : (forall i, file_block i -> J i -> I i) -> mends w w' I -> mends w w' J.
Proof. intros H [Q1 S1 M1]. split; [done|done|]. intros i Hi [Hj|Hs]; apply M1; try done; [left; by apply H|by right]. Qed.

Lemma shape_get s s' i : wf_file s f -> same_shape s s' -> file_block i -> fget s' f i = fget s f i.
Proof.
  intros W Sh Hi. destruct (path_root f i (wff_direct _ _ W) Hi) as (b & Hb & _). rewrite (fget_path s' f i b Hb), (fget_path s f i b Hb).
  destruct (path_valid i Hi) as [V1 V2]. apply (Sh _ _ _ _ Hb); [lia|done].
Qed.

Lemma shape_same s s' : wf_file s f -> same s s' -> same_shape s s'.
Proof.
  intros [D [O N]] Sm k d b sl Hk Hl F. apply forest_nodup in N as [N _].
  assert (A : forall x, x ∈ tree_blocks s d b -> allocated s x) by (intros x Hx; by apply (tree_allocated s d b); [apply (O k)|]).
  apply (tree_get_short d s s' b 0); [by apply (O k)|by apply (N k)|left; intros Hx; apply A, allocated_range in Hx; lia| |done|done].
  intros x Hx _. by apply Sm, A.
Qed.

Lemma sound_frame s s' i : fget s' f i = fget s f i -> bread s' (fget s f i) = bread s (fget s f i) -> sound s i -> sound s' i.
Proof. intros E1 E2 H Hne. rewrite E1 in *. destruct (H Hne) as (raw & pay & R & ?). exists raw, pay. by rewrite E2. Qed.

(** Steps that leave the blocks alone. *)
Lemma mends_same w w' : quiet w -> w_others w' = [] -> w_inode w' = Some f -> sweep_over w' = false -> steady (w_env w') ->
  same (w_env w) (w_env w') -> mends w w' (fun _ => False).
Proof.
  intros [Q1 Q2 Q3 Q4 Q5] E1 E2 E3 St Sm. destruct (maps_same c t cpu _ _ f C Sm Q5) as [M G]. pose proof (fm_wf _ _ _ _ _ _ Q5) as W.
  split; [by split|by apply shape_same|]. intros i Hi [[]|Hs] Hne. rewrite G in Hne by done.
  apply (sound_frame (w_env w)); [by apply G|apply Sm; by apply leaf_allocated|done|by rewrite G].
Qed.

Lemma mends_put w i fixed pay : quiet w -> file_block i -> fget (w_env w) f i <> 0 -> intact (fi_ino f) i pay fixed ->
  (forall u, 0 <= u < P -> getb pay u = C (i * P + u)) -> mends w (set_env w (bput (w_env w) (fget (w_env w) f i) fixed)) (fun j => j = i).
Proof.
  intros [Q1 Q2 Q3 Q4 Q5] Hi Hne In Hp. pose proof (fm_wf _ _ _ _ _ _ Q5) as W. set (s := w_env w) in *. set (x := fget s f i) in *.
  assert (Se : sealed c t cpu (fi_ino f) i pay fixed).
  { destruct In as (H1 & H2 & page & blk & H3 & H4 & H5 & H6 & _). split; [done|]. split; [done|]. by exists page, blk. }
  destruct (maps_put c t cpu s f C C i pay fixed Q5 Hi Hne Se Hp ltac:(done)) as (M & G & _). fold x in M, G.
  split; [split; [done|done|done|by apply steady_bput|done]| |].
  - intros k d b sl Hk Hl F. destruct (leaf_place s f i k d b W Hi Hne Hk) as [Nk Px].
    apply (tree_get_short d s (bput s x fixed) b x); [by apply (fo_ok _ _ (wff_forest _ _ W) k)|done|done| |done|done]. intros y _ Hy. by apply bput_other.
  - intros j Hj H Hnj. cbn [w_env set_env] in *. rewrite G in Hnj by done. destruct (decide (j = i)) as [->|Hji].
    + exists fixed, pay. rewrite G by done. split; [apply bput_same|done].
    + destruct H as [?|H]; [done|]. apply (sound_frame s); [by apply G| |done|by rewrite G].
      apply bput_other. intros E. apply Hji. by apply (fget_inj s f j i).
Qed.

Lemma quiet_meanwhile w : w_others w = [] -> meanwhile w = w.
Proof. intros E. unfold meanwhile. by rewrite E. Qed.

Lemma leaf_quiet s i : steady s -> file_maps c t cpu s f C -> file_block i -> fget s f i <> 0 -> exists s',
  beamfs_scrub_leaf_current s f i (fget s f i) = (true, s') /\ same s s' /\ steady s'.
Proof.
  intros St M Hi Hne. destruct (leaf_current_spec c t cpu s f C i (fget s f i) M (proj1 Hi) Hne) as (cur & s' & E & Sm & _ & H).
  rewrite (H Hf Hi eq_refl) in E. exists s'. split_and!; [done|done|]. unfold beamfs_scrub_leaf_current in E. rewrite Hf in E.
  pose proof (lookup_steady s f i St) as St'. destruct (beamfs_inline_lookup_phys s f i) as [[ret now] s2]. by injection E as _ <-.
Qed.

(** A check of a block of the file: what it counts, what it leaves. *)
Lemma check_block_spec w i raw pay page blk : quiet w -> file_block i -> fget (w_env w) f i <> 0 ->
  bread (w_env w) (fget (w_env w) f i) = Some raw -> bytes pay -> P <= zlen pay -> zlen page = 4096 -> bytes page ->
  build_data_block c t cpu page pay (fi_ino f) i = (0, blk) -> tolerable c blk raw -> (forall u, 0 <= u < P -> getb pay u = C (i * P + u)) ->
  exists n w' raw', beamfs_scrub_check_block c t cpu w (fget (w_env w) f i) i = (0, n, w') /\ mends w w' (fun j => j = i) /\
    w_sbi w' = w_sbi w /\ (n = 0 <-> forall k, 0 <= k < 16 -> ~ hurt c blk raw k) /\
    bread (w_env w') (fget (w_env w) f i) = Some raw' /\ (n = 0 -> raw' = raw) /\ (n <> 0 -> mended c blk raw raw').
Proof.
  intros Q Hi Hne R By Hl Zp Bp E T Hp. pose proof Q as [Q1 Q2 Q3 Q4 Q5]. set (s := w_env w) in *. set (x := fget s f i) in *.
  destruct (build_encoded c t cpu Hr page pay (fi_ino f) i blk Zp Bp By Hl E) as (block & Zb & Bb & En).
  destruct (sweep_decoded c t cpu Hr block blk raw Zb Bb En T) as (dret & fixed & results & positions & Ed & H0 & M & Rs & Hh).
  destruct (data_layout_facts c) as (F1 & _). assert (Zk : zlen blk = 4096) by (rewrite <- F1; apply En).
  unfold beamfs_scrub_check_block. fold s. rewrite (able_kzalloc s Q4), (steady_scratch s Q4). cbn [negb].
  rewrite (quiet_meanwhile w Q1). unfold beamfs_scrub_snapshot. rewrite Q2. fold s.
  destruct (leaf_quiet s i Q4 Q5 Hi Hne) as (s1 & E1 & Sm1 & St1). fold x in E1. rewrite E1.
  assert (Ax : allocated s x) by (apply leaf_allocated; [apply Q5|done|done]).
  unfold beamfs_scrub_read_copy. rewrite (sm_read _ _ Sm1 x Ax), R, Ed. destruct (Z.ltb_spec dret 0); [lia|]. cbn [andb].
  rewrite (quiet_meanwhile (set_env w s1)) by done. cbn [w_env set_env]. change BEAMFS_DATA_INLINE_SUBBLOCKS with 16.
  destruct (report_clean t cpu x (s_rs_interleave c) results positions s1 Rs) as (s2 & n & -> & Sm2 & Hn & Z0 & HP).
  assert (St2 : steady s2) by (apply HP; [apply steady_report|done]). pose proof (same_trans _ _ _ Sm1 Sm2) as Sm.
  assert (HZ : n = 0 <-> forall k, 0 <= k < 16 -> ~ hurt c blk raw k).
  { rewrite Z0. split; intros G k Hk; specialize (G k Hk); specialize (Hh k Hk); specialize (Rs k Hk); [|destruct (decide (0 < getb results k)); [tauto|lia]].
    intros Hu. apply Hh in Hu. lia. }
  set (w2 := set_env (set_env w s1) s2).
  assert (M2 : mends w w2 (fun _ => False)) by (apply mends_same; done). pose proof (mn_quiet _ _ _ M2) as Q'.
  assert (G2 : fget s2 f i = x) by (apply (shape_get s s2 i (fm_wf _ _ _ _ _ _ Q5)); [apply M2|done]).
  assert (R2 : bread s2 x = Some raw) by (by rewrite (sm_read _ _ Sm x Ax)).
  destruct (Z.eqb_spec n 0) as [En0|En0]; cbn [negb andb].
  - exists n, w2, raw. split; [done|]. split; [|done]. split; [apply M2|apply M2|]. intros j Hj [->|Hs]; [|apply M2; [done|by right]].
    intros _. exists raw, pay. cbn [w_env w2 set_env]. rewrite G2. split; [done|]. split; [|done]. split; [done|]. split; [done|]. exists page, blk. split_and!; try done.
    intros k Hk. apply (hurt_data c); [|done]. by apply HZ.
  - unfold sweep_write_back. cbn [w_inode w_env w2 set_env]. rewrite Q2, (able_rw s2 St2), (able_write s2 St2). cbn [negb orb].
    destruct (leaf_quiet s2 i St2 (qu_maps _ Q') Hi ltac:(by rewrite G2)) as (s3 & E3 & Sm3 & St3). rewrite G2 in E3. rewrite E3.
    pose proof (same_trans _ _ _ Sm Sm3) as Sm13. set (w3 := set_env w2 s3).
    assert (M3 : mends w w3 (fun _ => False)) by (apply mends_same; done). pose proof (mn_quiet _ _ _ M3) as Q3'.
    assert (G3 : fget s3 f i = x) by (apply (shape_get s s3 i (fm_wf _ _ _ _ _ _ Q5)); [apply M3|done]).
    assert (R3 : held s3 x = raw) by (unfold held; by rewrite (sm_read _ _ Sm13 x Ax), R). cbn [andb]. rewrite R3, bool_decide_true by done.
    assert (In : intact (fi_ino f) i pay fixed).
    { split; [done|]. split; [done|]. exists page, blk. split_and!; try done; [by apply (mended_tolerable c blk raw)|apply M]. }
    pose proof (mends_put w3 i fixed pay Q3' Hi ltac:(cbn; by rewrite G3) In Hp) as M4. cbn [w_env w3 set_env] in M4. rewrite G3 in M4.
    eexists n, _, fixed. split; [reflexivity|]. split; [|split; [done|]; split; [done|]; split; [apply bput_same|done]].
    eapply mends_weaken; [|exact (mends_trans _ _ _ _ _ M3 M4)]. intros j _ ->. by right.
Qed.

Lemma check_mends w i : quiet w -> file_block i -> fget (w_env w) f i <> 0 -> exists n w',
  beamfs_scrub_check_block c t cpu w (fget (w_env w) f i) i = (0, n, w') /\ mends w w' (fun j => j = i).
Proof.
  intros Q Hi Hne. destruct (fm_block _ _ _ _ _ _ (qu_maps _ Q) i Hi) as [_ B].
  destruct (B Hne) as (raw & pay & R & (By & Hl & page & blk & Zp & Bp & E & T) & Hp).
  destruct (check_block_spec w i raw pay page blk Q Hi Hne R By Hl Zp Bp E T Hp) as (n & w' & _ & Ec & M & _). by exists n, w'.
Qed.

(** ** The file *)

Lemma quiet_sbi w g : quiet w -> quiet (on_sbi g w).
Proof. by intros [Q1 Q2 Q3 Q4 Q5]. Qed.

(** A checked block is counted, then the sweep sleeps. *)
Lemma mends_counted w w' I g : mends w w' I -> mends w (meanwhile (on_sbi g w')) I.
Proof. intros [Q Sh Sd]. rewrite quiet_meanwhile by apply Q. split; [by apply quiet_sbi|done|done]. Qed.

Lemma mends_none w : quiet w -> mends w w (fun _ => False).
Proof. intros Q. apply mends_same; try apply Q; try done; apply same_refl. Qed.

(** A hole is sound. *)
Lemma mends_hole w (I : Z -> Prop) : quiet w -> (forall i, file_block i -> I i -> fget (w_env w) f i = 0) -> mends w w I.
Proof. intros Q H. split; [done|done|]. intros i Hi [Hx|Hs]; [|done]. intros Hne. by rewrite H in Hne. Qed.

Lemma is_allocated_leaf w i : quiet w -> file_block i -> fget (w_env w) f i <> 0 -> is_allocated (w_env w) (fget (w_env w) f i) = true.
Proof. intros Q Hi Hne. pose proof (leaf_allocated _ f i (fm_wf _ _ _ _ _ _ (qu_maps _ Q)) Hi Hne) as A. by apply pointer_ok, andb_true_iff in A as [_ A]. Qed.

Lemma direct_mends w i : quiet w -> 0 <= i < 12 -> mends w (walk_direct c t cpu (fi_direct f) w i) (fun j => j = i).
Proof.
  intros Q Hi. pose proof (fm_wf _ _ _ _ _ _ (qu_maps _ Q)) as W. assert (Fb : file_block i) by (path_consts; lia).
  assert (Eg : getb (fi_direct f) i = fget (w_env w) f i).
  { destruct (path_root f i (wff_direct _ _ W) Fb) as (b & Hb & Eb). rewrite (fget_path _ f i b Hb). path_consts. destruct (Z.ltb_spec i 12); [|lia].
    cbn [snd tree_get]. subst b. by destruct (Z.eqb_spec (getb (fi_direct f) i) 0). }
  unfold walk_direct. rewrite (qu_over _ Q), Eg. destruct (Z.eqb_spec (fget (w_env w) f i) 0) as [E0|Hne]; cbn [orb]; [apply mends_hole; [done|by intros j _ ->]|].
  rewrite (is_allocated_leaf w i Q Fb Hne). cbn [negb]. destruct (check_mends w i Q Fb Hne) as (n & w' & -> & M).
  change (0 =? - ESTALE) with false. cbn iota. by apply mends_counted.
Qed.

(** Leaf blocks below the node at [sl] of the tree of depth [top]. *)
Definition below (top : nat) (sl : list Z) (i : Z) : Prop := exists sl', path i = ((11 + top)%nat, sl ++ sl').

Lemma below_get s top sl i : wf_file s f -> (1 <= top <= 3)%nat -> below top sl i ->
  exists sl', fget s f i = tree_get s (tree_get s (scrub_root f top) sl) sl'.
Proof.
  intros W Ht (sl' & E). destruct (root_ok s f top W Ht) as [Er _]. exists sl'. unfold fget. rewrite E. cbn [fst snd]. by rewrite Er, tree_get_app.
Qed.

(** The node at [sl], as the walk meets it. *)
Lemma node_ok s top sl d : wf_file s f -> (length sl + Datatypes.S d = top)%nat -> (top <= 3)%nat -> slots_ok sl ->
  let blk := tree_get s (scrub_root f top) sl in blk <> 0 ->
  allocated s blk /\ (exists p, bread s blk = Some p /\ zlen p = 4096 /\ bytes p /\ described s blk p) /\
  beamfs_scrub_node_current s f top (Datatypes.S d) (beamfs_scrub_root_base top + index sl * 512 ^ Z.of_nat (Datatypes.S d)) blk = true.
Proof.
  intros W El Ht F blk Hne. destruct (root_ok s f top W ltac:(lia)) as [_ Ok].
  assert (En : node_below s (top - Datatypes.S d) (beamfs_scrub_root_base top + index sl * 512 ^ Z.of_nat (Datatypes.S d) - beamfs_scrub_root_base top)
    (span (top - 1)) (scrub_root f top) = Some blk).
  { replace (top - Datatypes.S d)%nat with (length sl) by lia. rewrite Z.add_simpl_l. unfold span. change BEAMFS_INDIRECT_PTRS with 512.
    destruct sl as [|j sl]; [cbn [length node_below]; unfold blk; cbn [tree_get]; by destruct (Z.eqb_spec (scrub_root f top) 0) as [->|]|].
    replace (top - 1)%nat with (length (j :: sl) - 1 + Datatypes.S d)%nat by (cbn [length] in *; lia). apply node_below_get; [|done]. by rewrite El. }
  split; [|split]; [| |unfold beamfs_scrub_node_current; by rewrite En, Z.eqb_refl].
  all: replace top with ((top - Datatypes.S d) + Datatypes.S d)%nat in Ok at 1 by lia.
  all: pose proof (slots_index_bound sl F).
  all: assert (Hp : 0 <= 512 ^ Z.of_nat (Datatypes.S d)) by (apply Z.pow_nonneg; done).
  all: destruct (node_below_ok (top - Datatypes.S d) s (beamfs_scrub_root_base top + index sl * 512 ^ Z.of_nat (Datatypes.S d) - beamfs_scrub_root_base top) (span (top - 1)) (scrub_root f top) d Ok ltac:(unfold span; apply Z.pow_nonneg; done) ltac:(nia) _ En Hne) as [?|(A & p & R & Zp & Bp & De & _)]; [done|].
  - done.
  - by exists p.
Qed.

Lemma node_mends w top sl d : quiet w -> (length sl + Datatypes.S d = top)%nat -> (top <= 3)%nat -> slots_ok sl ->
  let blk := tree_get (w_env w) (scrub_root f top) sl in blk <> 0 -> exists w',
  walk_node w top (Datatypes.S d) blk (beamfs_scrub_root_base top + index sl * 512 ^ Z.of_nat (Datatypes.S d)) = (Some (held (w_env w') blk), w') /\
  mends w w' (fun _ => False).
Proof.
  intros Q El Ht F blk Hne. destruct (node_ok (w_env w) top sl d (fm_wf _ _ _ _ _ _ (qu_maps _ Q)) El Ht F Hne) as (A & (p & R & Zp & Bp & De) & Ec).
  fold blk in A, R, De, Ec. unfold walk_node. rewrite (qu_inode _ Q), Ec, R. cbn [negb]. destruct (medium_same _ _ _ (fm_par _ _ _ _ _ _ (qu_maps _ Q)) A Zp Bp De) as (s1 & E1 & Sm & _).
  pose proof (able_medium (w_env w) blk p (qu_steady _ Q)) as St. rewrite E1 in *. cbn [snd Z.eqb] in *.
  exists (set_env w s1). split; [done|]. by apply mends_same; try apply Q.
Qed.

Lemma slot_mends child leaf ptrs base sp visited w top sl d j :
  quiet w -> (length sl + Datatypes.S d = top)%nat -> (top <= 3)%nat -> slots_ok sl -> 0 <= j < 512 ->
  leaf = match d with O => true | _ => false end -> base = beamfs_scrub_root_base top + index sl * 512 ^ Z.of_nat (Datatypes.S d) ->
  sp = 512 ^ Z.of_nat d -> ptr ptrs j = tree_get (w_env w) (scrub_root f top) (sl ++ [j]) ->
  (leaf = false -> mends w (snd (child w (ptr ptrs j) (base + j * sp))) (below top (sl ++ [j]))) ->
  mends w (snd (walk_slot c t cpu child leaf ptrs base sp (visited, w) j)) (below top (sl ++ [j])).
Proof.
  intros Q El Ht F Hj -> Eb Es Ep Hc. pose proof (fm_wf _ _ _ _ _ _ (qu_maps _ Q)) as W. unfold walk_slot. rewrite (qu_over _ Q).
  destruct (Z.eqb_spec (ptr ptrs j) 0) as [E0|Hne].
  { cbn [snd]. apply mends_hole; [done|]. intros i Hi Hb. destruct (below_get (w_env w) top (sl ++ [j]) i W ltac:(lia) Hb) as (sl' & ->). by rewrite <- Ep, E0, tree_get_zero. }
  destruct d as [|d]; cbn [negb]; [|specialize (Hc eq_refl); by destruct (child w (ptr ptrs j) (base + j * sp))]. clear Hc.
  assert (F1 : slots_ok (sl ++ [j])) by (apply Forall_app_2; [done|by constructor]).
  assert (L1 : length (sl ++ [j]) = top) by (rewrite length_app; cbn [length]; lia).
  destruct (slots_path top (sl ++ [j]) ltac:(lia) L1 F1) as [Fb Pi].
  assert (Ei : base + j = beamfs_scrub_root_base top + index (sl ++ [j])) by (rewrite index_snoc, Eb; change (512 ^ Z.of_nat 1) with 512; lia).
  rewrite <- Ei in *. assert (Eg : fget (w_env w) f (base + j) = ptr ptrs j).
  { destruct (root_ok (w_env w) f top W ltac:(lia)) as [Er _]. unfold fget. rewrite Pi. cbn [fst snd]. by rewrite Er, Ep. }
  rewrite <- Eg in *. rewrite (is_allocated_leaf w (base + j) Q Fb Hne). cbn [negb]. destruct (check_mends w (base + j) Q Fb Hne) as (n & w' & -> & M).
  change (0 =? - ESTALE) with false. cbn [snd]. apply mends_counted. eapply mends_weaken; [|exact M]. intros i Hi (sl' & Pi').
  apply path_inj; [done|done|]. rewrite Pi, Pi'. destruct (path_valid i Hi) as [V _]. destruct (path_root f i (wff_direct _ _ W) Hi) as (b & Hb & _).
  rewrite Pi' in Hb. cbn [fst] in Hb. destruct (root_ok (w_env w) f top W ltac:(lia)) as [Er _]. rewrite Er in Hb. injection Hb as Hd _.
  unfold path_depth in Hd. rewrite Pi' in Hd. cbn [snd] in Hd. rewrite length_app in Hd. f_equal. destruct sl'; [by rewrite app_nil_r|cbn [length] in *; lia].
Qed.

Lemma below_snoc top sl i d : file_block i -> below top sl i -> (length sl + Datatypes.S d = top)%nat -> (1 <= top <= 3)%nat ->
  zlen (fi_direct f) = 12 -> exists j, 0 <= j < 512 /\ below top (sl ++ [j]) i.
Proof.
  intros Hi (sl' & Pi) El Ht Hd. destruct (path_valid i Hi) as [_ V]. destruct (path_root f i Hd Hi) as (b & Hb & _).
  assert (Hl : length (sl ++ sl') = top).
  { unfold path_depth in Hb. rewrite Pi in Hb. cbn [fst snd] in Hb. unfold file_roots in Hb. rewrite lookup_app_r in Hb by (rewrite length_map; unfold zlen in Hd; lia).
    rewrite length_map in Hb. replace (length (fi_direct f)) with 12%nat in Hb by (unfold zlen in Hd; lia).
    destruct top as [|[|[|[|top]]]]; try lia; by injection Hb. }
  rewrite length_app in Hl. destruct sl' as [|j sl']; [cbn [length] in Hl; lia|]. rewrite Pi in V. cbn [snd] in V. apply Forall_app in V as [_ V].
  apply list.Forall_cons in V as [Hj _]. exists j. split; [done|]. exists sl'. by rewrite Pi, <- app_assoc.
Qed.

Lemma walk_mends d : forall w top sl, quiet w -> (length sl + Datatypes.S d = top)%nat -> (top <= 3)%nat -> slots_ok sl ->
  mends w (snd (beamfs_scrub_walk_level c t cpu d top w (tree_get (w_env w) (scrub_root f top) sl)
    (beamfs_scrub_root_base top + index sl * 512 ^ Z.of_nat (Datatypes.S d)))) (below top sl).
Proof.
  assert (G : forall d, (forall d', d = Datatypes.S d' -> forall w top sl, quiet w -> (length sl + Datatypes.S d' = top)%nat -> (top <= 3)%nat -> slots_ok sl ->
      mends w (snd (beamfs_scrub_walk_level c t cpu d' top w (tree_get (w_env w) (scrub_root f top) sl)
        (beamfs_scrub_root_base top + index sl * 512 ^ Z.of_nat (Datatypes.S d')))) (below top sl)) ->
    forall w top sl, quiet w -> (length sl + Datatypes.S d = top)%nat -> (top <= 3)%nat -> slots_ok sl ->
    mends w (snd (beamfs_scrub_walk_level c t cpu d top w (tree_get (w_env w) (scrub_root f top) sl)
      (beamfs_scrub_root_base top + index sl * 512 ^ Z.of_nat (Datatypes.S d)))) (below top sl)).
  2:{ induction d as [|d IH]; apply G; [done|]. by intros d' [= <-]. }
  clear d. intros d IH w top sl Q El Ht F. pose proof (fm_wf _ _ _ _ _ _ (qu_maps _ Q)) as W.
  set (blk := tree_get (w_env w) (scrub_root f top) sl). set (base := beamfs_scrub_root_base top + _).
  assert (Ew : beamfs_scrub_walk_level c t cpu d top w blk base =
    if (blk =? 0) || negb (is_allocated (w_env w) blk) then (0, w) else if negb (kmalloc_ptrs (w_env w)) then (0, w)
    else match walk_node (meanwhile w) top (Datatypes.S d) blk base with
         | (None, w) => (0, w)
         | (Some ptrs, w) => foldl (walk_slot c t cpu (match d with O => fun w _ _ => (0, w) | Datatypes.S d => beamfs_scrub_walk_level c t cpu d top end)
             (match d with O => true | _ => false end) ptrs base (span d)) (0, w) (upto BEAMFS_INDIRECT_PTRS) end) by (by destruct d).
  rewrite Ew. clear Ew. destruct (Z.eqb_spec blk 0) as [E0|Hne]; cbn [orb].
  { cbn [snd]. apply mends_hole; [done|]. intros i Hi Hb. destruct (below_get (w_env w) top sl i W ltac:(lia) Hb) as (sl' & ->). fold blk. by rewrite E0, tree_get_zero. }
  destruct (node_ok (w_env w) top sl d W El Ht F Hne) as (A & _ & _). fold blk in A. apply pointer_ok, andb_true_iff in A as [_ ->]. cbn [negb].
  rewrite (able_kmalloc _ (qu_steady _ Q)), (quiet_meanwhile w (qu_others _ Q)). cbn [negb].
  destruct (node_mends w top sl d Q El Ht F Hne) as (w1 & E1 & M1). fold blk base in E1. rewrite E1. change BEAMFS_INDIRECT_PTRS with 512.
  set (fold := foldl _ _ _). enough (M2 : mends w1 (snd fold) (fun i => exists j, 0 <= j < 512 /\ below top (sl ++ [j]) i)).
  { eapply mends_weaken; [|exact (mends_trans _ _ _ _ _ M1 M2)]. intros i Hi Hb. right. apply (below_snoc top sl i d); [done|done|done|lia|apply W]. }
  pose proof (mn_quiet _ _ _ M1) as Q1.
  assert (Sb : tree_get (w_env w1) (scrub_root f top) sl = blk).
  { destruct (root_ok (w_env w) f top W ltac:(lia)) as [Er _]. apply (mn_shape _ _ _ M1 _ _ _ sl Er); [lia|done]. }
  unfold fold. apply (foldl_upto_ind _ (fun n st => mends w1 (snd st) (fun i => exists j, 0 <= j < n /\ below top (sl ++ [j]) i))); [lia| |].
  - eapply mends_weaken; [|exact (mends_none w1 Q1)]. intros i _ (j & Hj & _). lia.
  - intros j [v w2] Hj M2. cbn [snd] in M2. pose proof (mn_quiet _ _ _ M2) as Q2.
    assert (F1 : slots_ok (sl ++ [j])) by (apply Forall_app_2; [done|by constructor]).
    assert (L1 : (length (sl ++ [j]) = length sl + 1)%nat) by (by rewrite length_app).
    assert (Ep : ptr (held (w_env w1) blk) j = tree_get (w_env w2) (scrub_root f top) (sl ++ [j])).
    { destruct (root_ok (w_env w) f top W ltac:(lia)) as [Er _]. rewrite (mn_shape _ _ _ M2 _ _ _ _ Er), tree_get_app, Sb by (lia || done). cbn [tree_get].
      destruct (Z.eqb_spec blk 0); [done|]. by destruct (Z.eqb_spec (ptr (held (w_env w1) blk) j) 0) as [->|]. }
    eapply mends_weaken; [|eapply mends_trans; [exact M2|]].
    2:{ apply (slot_mends _ _ _ _ _ _ w2 top sl d j); [done..|]. intros Hl. destruct d as [|d]; [done|]. rewrite Ep.
      replace (base + j * span (Datatypes.S d)) with (beamfs_scrub_root_base top + index (sl ++ [j]) * 512 ^ Z.of_nat (Datatypes.S d)); [apply (IH d eq_refl w2 top (sl ++ [j]) Q2 ltac:(lia) Ht F1)|].
      unfold base, span. change BEAMFS_INDIRECT_PTRS with 512. rewrite index_snoc, (Nat2Z.inj_succ (Datatypes.S d)), Z.pow_succ_r by lia. ring. }
    intros i Hi (k & Hk & Hb). destruct (decide (k = j)) as [->|]; [by right|left; exists k; split; [lia|done]].
Qed.

(** The sweep of a file nobody touches: every block is sound. *)
Lemma held_mends w : quiet w -> mends w (scrub_held c t cpu w) (fun _ => True).
Proof.
  intros Q. pose proof (fm_wf _ _ _ _ _ _ (qu_maps _ Q)) as W. unfold scrub_held. rewrite (qu_inode _ Q). change BEAMFS_DIRECT_BLOCKS with 12.
  assert (Md : mends w (foldl (walk_direct c t cpu (fi_direct f)) w (upto 12)) (fun i => 0 <= i < 12)).
  { apply (foldl_upto_ind _ (fun n w' => mends w w' (fun i => 0 <= i < n))); [lia| |].
    - eapply mends_weaken; [|exact (mends_none w Q)]. intros i _ ?. lia.
    - intros i w1 Hi M. eapply mends_weaken; [|exact (mends_trans _ _ _ _ _ M (direct_mends w1 i (mn_quiet _ _ _ M) Hi))]. intros k _ Hk. cbn beta. lia. }
  assert (Step : forall d w1, (d < 3)%nat -> quiet w1 ->
    mends w1 (snd (beamfs_scrub_walk_level c t cpu d (Datatypes.S d) w1 (scrub_root f (Datatypes.S d)) (beamfs_scrub_root_base (Datatypes.S d)))) (below (Datatypes.S d) [])).
  { intros d w1 Hd Q1. pose proof (walk_mends d w1 (Datatypes.S d) [] Q1 eq_refl Hd (Forall_nil _)) as M. cbn [index tree_get] in M. rewrite Z.mul_0_l, Z.add_0_r in M.
    by destruct (Z.eqb_spec (scrub_root f (Datatypes.S d)) 0) as [E|]; [rewrite E|]. }
  pose proof (Step 0%nat _ ltac:(lia) (mn_quiet _ _ _ Md)) as M1. pose proof (mends_trans _ _ _ _ _ Md M1) as M01.
  pose proof (Step 1%nat _ ltac:(lia) (mn_quiet _ _ _ M1)) as M2. pose proof (mends_trans _ _ _ _ _ M01 M2) as M02.
  pose proof (Step 2%nat _ ltac:(lia) (mn_quiet _ _ _ M2)) as M3. pose proof (mends_trans _ _ _ _ _ M02 M3) as M.
  eapply mends_weaken; [|exact M]. intros i Hi _. cbn beta. unfold below. cbn [app Nat.add].
  destruct (path i) as [k sl] eqn:Ep. pose proof Ep as Ek. path_consts. change (12 + 512) with 524 in Ek.
  destruct (Z.ltb_spec i 12); [left; left; left; lia|]. destruct (Z.ltb_spec i 524); [injection Ek as <- _; left; left; right; by exists sl|].
  destruct (i <? 262668); injection Ek as <- _; [left; right|right]; by exists sl.
Qed.
End repair.
