(* ===== verification/ScrubProps.v ===== *)
(** * What the scrubber promises

    The theorems about the sweep and its pace, an instance of what it calls
    on a mounted volume, and the examples the theorems are applied to. *)

From stdpp Require Import gmap.
From S2P Require Import Prelude Format Crc RsInit GF RsTheory RsCode RsCorrect RsDecode RsLib RsComplete Edac EdacWord EdacBlock EdacLayouts EdacTheorems Dirent FileData Super SuperTheorems Alloc AllocProps IndParity Dir DirTree FileDataTheorems FileTree FileSteady FileMap FileGrow FileTheorems FileFree FileTruncate FileContent AllocHealth IndTheorems Volume FileProps FileIoProps Inode Budget Scrub ScrubSafe ScrubRepair.

#[local] Existing Instance no_view.

Section props.
Context {S : Type} `{RL : !RsLib} `{RS : !RsLibSpec} `{RB : !RsLibBounded} `{CL : !CrcLib} `{SO : ScrubEnvOk S}.
Context (c : data_cfg) (t : rs_tables) (cpu : nat).

Abbreviation P := (beamfs_block_payload c).
Abbreviation L := (data_layout c).

(** C15: the sweep changes no contents.  Other threads may write, grow and
    cut the file under the sweep at every point where it holds no lock; if
    each of their steps changes the file's contents by its [effect] and
    leaves another file's contents alone, then at the end of the walk the
    file holds what those steps, in their order, made of it, and the other
    file holds what it held: no write of theirs is lost, no block that
    changed hands is touched. *)
Theorem sweep_keeps_contents w f C g D effect :
  ready t cpu -> w_inode w = Some f -> both c t cpu (w_env w) f C g D -> Forall (fair c t cpu g D effect) (w_others w) ->
  let w' := scrub_held c t cpu w in
  exists f' ran, w_inode w' = Some f' /\ w_others w = ran ++ w_others w' /\
    both c t cpu (w_env w') f' (foldl (fun C o => effect o C) C ran) g D.
Proof.
  intros Hr Hf B F w'. destruct (held_went c t cpu Hr g D effect w C) as (ran & E & f' & Hf' & B' & _); [by exists f|]. by exists f', ran.
Qed.

(** C16: a sweep repairs the file.  When nobody else runs, the sweep of a
    regular file reaches every block the file maps, direct and under each
    level of indirect blocks, and leaves it with every data symbol that was
    written, whatever damage within the radius it had; the contents stay. *)
Theorem sweep_repairs_file `{AB : !Able S} w ino b f nlink s1 C :
  ready t cpu -> w_others w = [] -> w_stop w = false -> inode_busy (w_env w) ino = false ->
  table_bread (w_env w) (s_inode_table_blk (w_env w) + (ino - 1) / inodes_per_block) = Some b ->
  S_ISREG (get_le16 (slice b (inode_offset ino) sizeof_inode) off_i_mode) = true ->
  scrub_iget (w_env w) ino = (Some (f, nlink), s1) -> fi_type f = S_IFREG -> nlink <> 0 ->
  beamfs_ino_is_reserved (fi_ino f) = false -> steady s1 -> file_maps c t cpu s1 f C ->
  let s' := w_env (beamfs_scrub_one_inode c t cpu w ino) in
  file_maps c t cpu s' f C /\ forall i, file_block i -> fget s' f i = fget s1 f i /\ sound c t cpu f C s' i.
Proof.
  intros Hr Ho Hs Hb Ht Hm Hg Hty Hn Hres St M s'. unfold s', beamfs_scrub_one_inode. rewrite Hb, Ht, Hm. cbn [negb].
  rewrite (quiet_meanwhile w Ho), Hg, Hty. destruct (Z.eqb_spec nlink 0); [done|]. set (w1 := take_inode (set_env w s1) f nlink).
  assert (Q1 : quiet c t cpu f C w1) by (split; try done; unfold sweep_over; cbn; rewrite Hs; by destruct (Z.eqb_spec nlink 0)).
  rewrite (quiet_meanwhile w1) by done. pose proof (held_mends c t cpu Hr f C Hres w1 Q1) as [Q2 Sh Sd]. unfold drop_inode. rewrite (qu_inode _ _ _ _ _ _ Q2). cbn [w_env].
  assert (Hn2 : w_nlink (scrub_held c t cpu w1) <> 0) by (pose proof (qu_over _ _ _ _ _ _ Q2) as Ov; unfold sweep_over in Ov; apply orb_false_iff in Ov as [_ Ov]; by apply Z.eqb_neq).
  set (s2 := w_env (scrub_held c t cpu w1)) in *. pose proof (iput_same s2 f _ Hn2) as Sm. pose proof (qu_maps _ _ _ _ _ _ Q2) as M2. fold s2 in M2.
  destruct (maps_same c t cpu s2 _ f C Sm M2) as [M3 G3]. split; [done|]. intros i Hi.
  split; [rewrite (G3 i Hi); apply (shape_get f s1 s2 i (fm_wf _ _ _ _ _ _ M)); done|]. intros Hne. rewrite G3 in Hne by done.
  apply (sound_frame c t cpu f C s2); [by apply G3|apply Sm; by apply leaf_allocated; [apply M2|..]|apply Sd; [done|by left]|by rewrite G3].
Qed.

Lemma mended_idem blk raw fixed : zlen raw = 4096 -> (forall k, 0 <= k < 16 -> cw_data L raw k = cw_data L blk k) -> mended c blk raw fixed -> fixed = raw.
Proof.
  intros Zr H M. pose proof (data_layout_facts c) as (_ & _ & F3). apply bytes_ext; [by rewrite (me_len _ _ _ _ M)|]. intros a Ha.
  destruct (decide (Exists (fun i => Exists (fun k => l_data L i k = a) (upto 239)) (upto 16))) as [Hx|Hx].
  - apply list.Exists_exists in Hx as (i & Hi%elem_of_upto & (k & Hk%elem_of_upto & <-)%list.Exists_exists).
    rewrite <- !(getb_cw_data L) by lia. by rewrite (me_data _ _ _ _ M), H.
  - apply (me_out _ _ _ _ M); [lia|]. intros i k Hi Hk E. apply Hx, list.Exists_exists. exists i. split; [by apply elem_of_upto|].
    apply list.Exists_exists. exists k. split; [by apply elem_of_upto|done].
Qed.

(** C38: what a second check finds.  After a check of a block within the
    radius, the data are as written and a second check changes nothing.  It
    counts corrections again exactly when the volume is interleaved and a
    parity symbol was damaged: parity is corrected in no buffer, so such a
    block is journalled, counted and rewritten unchanged on every pass. *)
Theorem second_check_counts_parity `{AB : !Able S} f C w i raw pay page blk :
  ready t cpu -> beamfs_ino_is_reserved (fi_ino f) = false -> quiet c t cpu f C w -> file_block i -> fget (w_env w) f i <> 0 ->
  bread (w_env w) (fget (w_env w) f i) = Some raw -> bytes pay -> P <= zlen pay -> zlen page = 4096 -> bytes page ->
  build_data_block c t cpu page pay (fi_ino f) i = (0, blk) -> tolerable c blk raw -> (forall u, 0 <= u < P -> getb pay u = C (i * P + u)) ->
  exists n w' n' w'' raw', beamfs_scrub_check_block c t cpu w (fget (w_env w) f i) i = (0, n, w') /\
    beamfs_scrub_check_block c t cpu w' (fget (w_env w) f i) i = (0, n', w'') /\
    bread (w_env w') (fget (w_env w) f i) = Some raw' /\ bread (w_env w'') (fget (w_env w) f i) = Some raw' /\
    (forall k, 0 <= k < 16 -> cw_data L raw' k = cw_data L blk k) /\
    (n' <> 0 <-> s_rs_interleave c = true /\ exists k, 0 <= k < 16 /\ cw_par L raw k <> cw_par L blk k).
Proof.
  intros Hr Hf Q Hi Hne R By Hl Zp Bp E T Hp. pose proof (qu_maps _ _ _ _ _ _ Q) as M0.
  destruct (build_encoded c t cpu Hr page pay (fi_ino f) i blk Zp Bp By Hl E) as (block & Zb & Bb & En).
  assert (Zk : zlen blk = 4096) by (destruct (data_layout_facts c) as (<- & _); apply En). pose proof (proj1 T) as Zr.
  destruct (check_block_spec c t cpu Hr f C Hf w i raw pay page blk Q Hi Hne R By Hl Zp Bp E T Hp) as (n & w' & raw' & E1 & M1 & _ & N1 & R1 & U1 & V1).
  assert (D' : forall k, 0 <= k < 16 -> cw_data L raw' k = cw_data L blk k).
  { intros k Hk. destruct (decide (n = 0)) as [En0|En0]; [|by apply (me_data _ _ _ _ (V1 En0))]. rewrite (U1 En0). apply (hurt_data c); [|done]. by apply N1. }
  assert (P' : forall k, 0 <= k < 16 -> cw_par L raw' k = cw_par L raw k).
  { intros k Hk. destruct (decide (n = 0)) as [En0|En0]; [by rewrite (U1 En0)|by apply (me_par _ _ _ _ (V1 En0))]. }
  assert (T' : tolerable c blk raw') by (destruct (decide (n = 0)) as [En0|En0]; [by rewrite (U1 En0)|by apply (mended_tolerable c blk raw), V1]).
  pose proof (mn_quiet _ _ _ _ _ _ _ _ M1) as Q1.
  pose proof (shape_get f (w_env w) (w_env w') i (fm_wf _ _ _ _ _ _ M0) (mn_shape _ _ _ _ _ _ _ _ M1) Hi) as G1. rewrite <- G1 in R1.
  destruct (check_block_spec c t cpu Hr f C Hf w' i raw' pay page blk Q1 Hi ltac:(by rewrite G1) R1 By Hl Zp Bp E T' Hp) as (n' & w'' & raw'' & E2 & _ & _ & N2 & R2 & U2 & V2).
  rewrite G1 in *. assert (raw'' = raw') as -> by (destruct (decide (n' = 0)) as [E0|E0]; [by apply U2|apply (mended_idem blk); [apply T'|done|by apply V2]]).
  exists n, w', n', w'', raw'. split_and!; try done.
  assert (Hu : forall k, 0 <= k < 16 -> hurt c blk raw' k <-> s_rs_interleave c = true /\ cw_par L raw k <> cw_par L blk k).
  { intros k Hk. unfold hurt, cw. destruct (s_rs_interleave c); [|rewrite D' by done; by split; [|intros [? _]]]. rewrite D', P' by done.
    split; [intros H; split; [done|]; congruence|]. intros [_ H] Ee. by apply app_inv_head in Ee. }
  rewrite N2. split.
  - intros Hx. destruct (s_rs_interleave c) eqn:Ei; [|exfalso; apply Hx; intros k Hk Hk'; by apply Hu in Hk' as [? _]]. split; [done|].
    destruct (decide (Exists (fun k => cw_par L raw k <> cw_par L blk k) (upto 16))) as [He|He].
    + apply list.Exists_exists in He as (k & Hk%elem_of_upto & Hd). by exists k.
    + exfalso. apply Hx. intros k Hk Hk'. apply Hu in Hk' as [_ Hd]; [|done]. apply He, list.Exists_exists. exists k. split; [by apply elem_of_upto|done].
  - intros (Ei & k & Hk & Hd) Hx. apply (Hx k Hk). by apply Hu.
Qed.

(** C39: the sweep of an alternating volume reports no uncorrectable block.
    A block with a codeword past the radius fails with -EBADMSG, which the
    check takes for an error of the decoder and not for -EUCLEAN: nothing
    is confirmed on the medium, journalled, budgeted or corrected, and the
    caller's counter of uncorrectable blocks stays. *)
Theorem uncorrectable_not_reported w phys i orig w1 k b :
  ready t cpu -> s_rs_interleave c = false -> kzalloc_scratch (w_env w) = true -> scratch_get (w_env w) = true ->
  beamfs_scrub_snapshot (meanwhile w) phys i = (inr orig, w1) -> zlen orig = 4096 -> bytes orig -> 0 <= k < 16 ->
  fst (fst (beamfs_rs_decode t cpu (cw_data alternating orig k) 239 (cw_par alternating orig k) (Some 8))) < 0 ->
  beamfs_scrub_check_block c t cpu w phys i = (- EBADMSG, 0, w1) /\
  s_scrub_uncorrectable (count_checked (- EBADMSG) 0 b) = s_scrub_uncorrectable b.
Proof.
  intros [Hc _] Ei Hk Hs E Zo Bo Hi Hd. split; [|done]. unfold beamfs_scrub_check_block. rewrite Hk, Hs, E. cbn [negb]. unfold sweep_decode. rewrite Ei.
  assert (Hmp : forall m, Some (BEAMFS_RS_PARITY / 2) = Some m -> 0 < m) by (by intros m [= <-]).
  destruct (decode_region_decoded t cpu Hc BEAMFS_BLOCK_SIZE 0 255 239 255 239 16 orig (Some (BEAMFS_RS_PARITY / 2)) Hmp Zo Bo) as (fixed & De & Ed).
  change (region_layout BEAMFS_BLOCK_SIZE 0 255 239 255 239 16) with alternating in Ed. cbv zeta in Ed.
  set (results := map (fun i => fst (fst (dec1 t cpu alternating (Some (BEAMFS_RS_PARITY / 2)) orig i))) (upto 16)) in Ed.
  assert (Neg : forall r, r ∈ results -> r < 0 -> r = - EBADMSG).
  { intros r (j & <- & Hj%list_elem_of_In%elem_of_upto)%list_elem_of_In%in_map_iff Hr. unfold dec1 in Hr |- *.
    rewrite <- (zlen_cw_data alternating orig j) in Hr |- *.
    destruct (rs_decode_cases t cpu Hc _ _ (Some (BEAMFS_RS_PARITY / 2)) (cw_input alternating orig j Zo Bo Hj) Hmp) as [Er|(n & d' & p' & W & Er)]; rewrite Er in Hr |- *; [done|].
    cbn [fst decode_return] in Hr. change (BEAMFS_RS_PARITY / 2) with 8 in Hr. pose proof (zlen_nonneg (changed (cw_data alternating orig j) d')). lia. }
  assert (Hin : fst (fst (dec1 t cpu alternating (Some (BEAMFS_RS_PARITY / 2)) orig k)) ∈ results).
  { apply list_elem_of_In, in_map_iff. exists k. split; [done|]. by apply list_elem_of_In, elem_of_upto. }
  destruct (first_error_neg results _ Hin Hd) as (r & Hr & Hneg & Ef). rewrite Ef, (Neg r Hr Hneg) in Ed.
  change BEAMFS_SUBBLOCK_TOTAL with 255. change BEAMFS_SUBBLOCK_DATA with 239. change BEAMFS_DATA_INLINE_SUBBLOCKS with 16. by rewrite Ed.
Qed.
End props.

(** ** Pace *)

(** The operator writes the interval, or a pass ends with this many blocks
    corrected since the mount. *)
Inductive pace_event := PaceStore (v : option Z) | PacePass (corrected : Z).

Definition pace_step (b : scrub_info) (e : pace_event) : scrub_info :=
  match e with
  | PaceStore v => snd (interval_store b v 0)
  | PacePass n => beamfs_scrub_pace (set_counts b (s_scrub_blocks b) n (s_scrub_uncorrectable b))
  end.

(** The sum of the pace does not leave 32 bits. *)
Definition interval_ok (v : Z) : Prop := 0 <= v /\ v + v / 8 <= 2 ^ 32.
Definition scrub_event_ok (e : pace_event) : Prop := match e with PaceStore (Some v) => interval_ok v | _ => True end.

Record paced (b : scrub_info) : Prop := {
  pc_base : interval_ok (s_scrub_base_ms b);
  pc_cur : 0 <= s_scrub_interval_ms b <= s_scrub_base_ms b;
  pc_live : s_scrub_base_ms b <> 0 -> 1 <= s_scrub_interval_ms b }.

(** A pass after which nothing new was corrected. *)
Definition pace_back (base cur : Z) : Z := Z.min (cur + Z.max 1 (base / 8)) base.

Lemma pace_spec b : paced b -> s_scrub_base_ms b <> 0 -> let b' := beamfs_scrub_pace b in
  s_scrub_base_ms b' = s_scrub_base_ms b /\ s_scrub_corrected b' = s_scrub_corrected b /\ s_scrub_last_corrected b' = s_scrub_corrected b' /\
  s_scrub_interval_ms b' = if u64 (s_scrub_corrected b - s_scrub_last_corrected b) =? 0 then pace_back (s_scrub_base_ms b) (s_scrub_interval_ms b)
    else Z.max 1 (s_scrub_interval_ms b / 2).
Proof.
  intros [[B1 B2] [C1 C2] L] Hb. specialize (L Hb). unfold beamfs_scrub_pace. destruct (Z.eqb_spec (s_scrub_interval_ms b) 0); [lia|].
  destruct (Z.eqb_spec (s_scrub_base_ms b) 0); [done|]. cbn [orb]. destruct (_ =? 0); cbn [negb set_pace set_last s_scrub_base_ms s_scrub_interval_ms s_scrub_corrected s_scrub_last_corrected]; [|done].
  split_and!; [done..|]. unfold pace_back. assert (0 <= s_scrub_base_ms b / 8) by (apply Z.div_pos; lia). destruct (Z.ltb_spec (s_scrub_interval_ms b) (s_scrub_base_ms b)).
  - f_equal. apply Z.mod_small. destruct (decide (s_scrub_base_ms b < 8)); [rewrite Z.div_small by lia; lia|].
    assert (1 <= s_scrub_base_ms b / 8) by (apply Z.div_le_lower_bound; lia). lia.
  - lia.
Qed.

Lemma pace_paced b : paced b -> paced (beamfs_scrub_pace b).
Proof.
  intros H. destruct (decide (s_scrub_base_ms b = 0)) as [E|Hb].
  { unfold beamfs_scrub_pace. rewrite E, Z.eqb_refl. by rewrite orb_true_r. }
  destruct (pace_spec b H Hb) as (E1 & _ & _ & E2). destruct H as [B [C1 C2] Lv]. specialize (Lv Hb). split; rewrite ?E1, ?E2; [done| |intros _].
  all: unfold pace_back; pose proof (Z.div_le_upper_bound (s_scrub_interval_ms b) 2 (s_scrub_interval_ms b)); assert (0 <= s_scrub_base_ms b / 8) by (apply Z.div_pos; lia);
    destruct (_ =? 0); lia.
Qed.

Lemma step_paced b e : paced b -> scrub_event_ok e -> paced (pace_step b e).
Proof.
  intros H He. destruct e as [[v|]|n]; cbn [pace_step interval_store snd]; [|done|].
  - destruct He as [H0 H1]. split; cbn; [by split|lia|lia].
  - apply pace_paced. destruct H. by split.
Qed.

Lemma iter_fixed {A} (h : A -> A) (x : A) : h x = x -> forall n, Nat.iter n h x = x.
Proof. intros E n. induction n as [|n IH]; [done|]. change (h (Nat.iter n h x) = x). by rewrite IH. Qed.

(** [n] quiet passes from any interval. *)
Lemma quiet_passes n : forall b, paced b -> s_scrub_base_ms b <> 0 -> s_scrub_last_corrected b = s_scrub_corrected b ->
  s_scrub_interval_ms (Nat.iter n beamfs_scrub_pace b) = Z.min (s_scrub_interval_ms b + Z.of_nat n * Z.max 1 (s_scrub_base_ms b / 8)) (s_scrub_base_ms b) /\
  s_scrub_base_ms (Nat.iter n beamfs_scrub_pace b) = s_scrub_base_ms b.
Proof.
  intros b H Hb Hl. assert (G : let b' := Nat.iter n beamfs_scrub_pace b in paced b' /\ s_scrub_last_corrected b' = s_scrub_corrected b' /\
    s_scrub_interval_ms b' = Z.min (s_scrub_interval_ms b + Z.of_nat n * Z.max 1 (s_scrub_base_ms b / 8)) (s_scrub_base_ms b) /\ s_scrub_base_ms b' = s_scrub_base_ms b); [|by destruct G as (_ & _ & ?)].
  induction n as [|n (P1 & P2 & P3 & P4)]; [cbn; split_and!; try done; destruct H; lia|]. cbn [Nat.iter nat_rect]. cbv zeta in *.
  change (nat_rect _ b (fun _ => beamfs_scrub_pace) n) with (Nat.iter n beamfs_scrub_pace b). set (b1 := Nat.iter n beamfs_scrub_pace b) in *.
  destruct (pace_spec b1 P1 ltac:(by rewrite P4)) as (E1 & E2 & E3 & E4). split_and!; [by apply pace_paced|done| |by rewrite E1].
  rewrite E4, P2, Z.sub_diag. change (u64 0 =? 0) with true. cbn iota. unfold pace_back. rewrite P3, P4. lia.
Qed.

(** C37: the pace stays within what the operator set and comes back to it.
    However passes and writes of the interval follow each other, the
    interval is at most the base and at least one millisecond unless the
    thread is parked, and at most fourteen quiet passes after any pass it
    is the base again; all of it for an interval whose sum with an eighth
    of itself fits in 32 bits. *)
Theorem pace_bounded scrub_interval_ms l :
  interval_ok scrub_interval_ms -> Forall scrub_event_ok l ->
  let b := foldl pace_step (beamfs_scrub_init scrub_interval_ms) l in
  0 <= s_scrub_interval_ms b <= s_scrub_base_ms b /\ (s_scrub_base_ms b <> 0 -> 1 <= s_scrub_interval_ms b) /\
  forall n, (14 <= n)%nat -> s_scrub_interval_ms (Nat.iter n beamfs_scrub_pace (beamfs_scrub_pace b)) = s_scrub_base_ms b.
Proof.
  intros Hi F b. assert (H : paced b).
  { unfold b. assert (H0 : paced (beamfs_scrub_init scrub_interval_ms)) by (destruct Hi; split; cbn; [done|lia|lia]).
    revert H0. generalize (beamfs_scrub_init scrub_interval_ms). induction F as [|e l He _ IH]; intros b0 H0; cbn [foldl]; [done|]. by apply IH, step_paced. }
  split; [apply H|]. split; [apply H|]. intros n Hn. destruct (decide (s_scrub_base_ms b = 0)) as [E0|Hb].
  - assert (Ei : s_scrub_interval_ms b = 0) by (destruct H; lia). assert (Ep : beamfs_scrub_pace b = b) by (unfold beamfs_scrub_pace; by rewrite Ei).
    by rewrite Ep, (iter_fixed beamfs_scrub_pace b Ep), Ei, E0.
  - destruct (pace_spec b H Hb) as (E1 & _ & E3 & _). pose proof (pace_paced b H) as [B [C1 C2] Lv]. rewrite E1 in *. specialize (Lv Hb).
    destruct (quiet_passes n (beamfs_scrub_pace b) (pace_paced b H) ltac:(by rewrite E1) E3) as [-> _]. rewrite E1. apply Z.min_r.
    pose proof (Z.div_mod (s_scrub_base_ms b) 8 ltac:(lia)). pose proof (Z.mod_pos_bound (s_scrub_base_ms b) 8 ltac:(lia)). nia.
Qed.

(** ** A volume *)

(** The volume of the other examples, for the scrubber: memory is not short,
    nobody else uses the inodes, the table and the inode in memory are
    those of [T] and [vi], the wear map is [B]. *)
Section volume.
Context `{RL : !RsLib} `{RS : !RsLibSpec} `{CL : !CrcLib} (t : rs_tables) (cpu : nat) (T : itable) (vi : Z -> option vinode) (B : budget).

Notation mounted := (mounted t cpu).

Definition unverify (s : mounted) (b : Z) : mounted :=
  step t cpu s (fun v => set_parity v (v_caches v) (set_verified (v_parity v) (pv_verified (v_parity v) ∖ {[b]}))) (fun _ => eq_refl).

Definition vinode_file (ino : Z) (v : vinode) : finode :=
  FInode ino (if S_ISREG (vi_mode v) then S_IFREG else S_IFOTHER) (vi_size v) (vi_direct v) (vi_indirect v) (vi_dindirect v) (vi_tindirect v) false (vi_ctime v) false.

Definition vol_scrub : ScrubEnv mounted := {|
  scrub_tree := vol_tree t cpu;
  kzalloc_scratch _ := true;
  kmalloc_ptrs _ := true;
  alloc_page _ := true;
  submit_bio_wait s sector := match v_blocks (vol t cpu s) !! (sector / 8) with Some b => (0, b) | None => (- EIO, []) end;
  verify_medium s b p := vverify t cpu (unverify s b) b p;
  sb_rdonly _ := false;
  sb_start_write_trylock _ := true;
  inode_busy _ _ := false;
  s_inode_table_blk _ := it_table_blk T;
  table_bread _ b := it_buffers T !! b;
  scrub_iget s ino := (option_map (fun v => (vinode_file ino v, vi_nlink v)) (vi ino), s);
  iput s _ _ := s;
  scrub_ninodes _ := it_inode_count T;
  inode_bit _ ino := Some (bool_decide (vi ino = None));
  s_budget_len _ := bg_budget_len B;
  budget_next_worn _ from threshold := beamfs_budget_next_worn B from threshold;
  clock_anchor s := s;
  alert_check_rate s := s |}.

(** The check of the medium is the one of the parity code. *)
Lemma verify_medium_eq s b p : fst (vverify t cpu (unverify s b) b p) =
  fst (fst (beamfs_ind_parity_verify_medium t cpu (v_env (vol t cpu s)) (v_caches (vol t cpu s)) (v_parity (vol t cpu s)) b p)).
Proof. done. Qed.

Lemma unverify_same s b : same s (unverify s b).
Proof.
  assert (R : same_region (v_parity (vol t cpu s)) (v_parity (vol t cpu (unverify s b)))) by (by split).
  split; try done. intros [P1 P2 P3 P4 P5 P6]. split; [by apply (same_region_ok _ _ R)|by apply (same_region_buffers _ _ R)|by apply (same_region_cache _ _ _ R)|done|done|done].
Qed.

Definition vol_scrub_ok : ScrubEnvOk (SE := vol_scrub) mounted.
Proof.
  refine {| scrub_tree_ok := vol_tree_ok t cpu : @TreeEnvOk mounted (@scrub_tree mounted vol_scrub) |}.
  - intros s b p Hp Ha Zp Bp Hd. pose proof (unverify_same s b) as Sm.
    destruct (vverify_same t cpu (unverify s b) b p (sm_par _ _ Sm Hp) (proj2 (sm_alloc _ _ Sm b) Ha) Zp Bp (sm_desc _ _ Sm b p Hd)) as (s' & E & Sm' & F).
    exists s'. split; [exact E|]. split; [exact (same_trans _ _ _ Sm Sm')|exact F].
  - intros s f n _. apply same_refl.
Defined.

Definition vol_able (n : Z) : Able (SE := vol_scrub) mounted.
Proof.
  refine {| able_steady := vol_steady t cpu n : @Steady mounted (@scrub_tree mounted vol_scrub) |}; try done.
  intros s b p H. apply (vsteady_kept t cpu n (unverify s b)); [apply vverify_kept|]. exact (vsteady_kept t cpu n s (unverify s b) (conj eq_refl (conj eq_refl (conj eq_refl eq_refl))) H).
Defined.
End volume.

(** ** Witnesses *)

Definition ex_vi (ino : Z) : option vinode :=
  if ino =? 7 then Some (VInode 33188 1 0 0 60000 (0, 0) (0, 0) (0, 0) 0 (10 :: 11 :: zeros 10) 12 0 0) else None.
Definition ex_itable : itable :=
  ITable false 64 5 BEAMFS_DATA_PROTECTION_INODE_UNIVERSAL 0 {[5 := put_le16 (zeros 4096) (inode_offset 7) 33188]} [] [].

Definition x_scrub : ScrubEnv (mounted ex_tables 0) := vol_scrub ex_tables 0 ex_itable ex_vi ex_budget.
Definition x_scrub_ok : ScrubEnvOk (SE := x_scrub) (mounted ex_tables 0) := vol_scrub_ok ex_tables 0 ex_itable ex_vi ex_budget.
Definition x_able : Able (SE := x_scrub) (mounted ex_tables 0) := vol_able ex_tables 0 ex_itable ex_vi ex_budget 24.

(** Block 0 of the file with a damaged data symbol and a damaged parity
    symbol. *)
Definition ex_hurt : list Z := let b := ex_data 0 in setb (setb b 3 1) 3830 (Z.lxor (getb b 3830) 1).

Definition xd : mounted ex_tables 0 := bput xf 10 ex_hurt.

Lemma ex_data0_range : zlen (ex_data 0) = 4096 /\ bytes (ex_data 0).
Proof. destruct (ex_sealed 0) as (_ & _ & page & blk & _ & _ & _ & Z & B & _). by split. Qed.

Lemma ex_hurt_ok : tolerable ex_cfg (ex_data 0) ex_hurt.
Proof.
  destruct ex_data0_range as [Z B]. assert (Zh : zlen ex_hurt = 4096) by (unfold ex_hurt; cbv zeta; by rewrite !zlen_setb).
  split; [exact Zh|]. split; [|split; [|intros E; discriminate E]].
  - unfold ex_hurt. cbv zeta. repeat apply bytes_setb; [exact B|by split|]. apply is_byte_lxor; [by apply bytes_getb|by split].
  - intros i Hi. transitivity (zlen [3; 3830]); [|done]. apply damage_few; [exact _|exact Z|exact Zh|exact Hi|]. intros a Ha N.
    destruct (decide (a ∈ [3; 3830])) as [|Ni]; [done|]. exfalso. apply N. rewrite !elem_of_cons, elem_of_nil in Ni.
    unfold ex_hurt. cbv zeta. rewrite !getb_setb_ne by lia. done.
Qed.

Lemma ex_data_built : build_data_block ex_cfg ex_tables 0 (zeros 4096) ex_bytes 7 0 = (0, ex_data 0).
Proof.
  unfold ex_data. change (0 =? 0) with true. cbn iota.
  destruct (build_ok ex_cfg ex_tables 0 (zeros 4096) ex_bytes 7 0 x_ready) as (blk & -> & _); [by rewrite zlen_zeros|apply bytes_zeros|by apply bytes_check| |done].
  change (zlen ex_bytes) with 4096. pose proof (payload_range ex_cfg). lia.
Qed.

Lemma ex_bytes_content u : 0 <= u < beamfs_block_payload ex_cfg -> getb ex_bytes u = ex_content (0 * beamfs_block_payload ex_cfg + u).
Proof.
  intros Hu. pose proof (payload_range ex_cfg). unfold ex_content. rewrite Z.mul_0_l, Z.add_0_l, (proj2 (Z.leb_le _ _)), (proj2 (Z.ltb_lt _ _)) by lia.
  unfold getb, ex_bytes. rewrite (nth_lookup_Some _ _ _ 65); [done|]. apply lookup_replicate_2. lia.
Qed.

Lemma ex_bytes_len : beamfs_block_payload ex_cfg <= zlen ex_bytes.
Proof. change (zlen ex_bytes) with 4096. pose proof (payload_range ex_cfg). lia. Qed.

Lemma ex_hurt_sealed : sealed ex_cfg ex_tables 0 7 0 ex_bytes ex_hurt.
Proof.
  split; [by apply bytes_check|]. split; [exact ex_bytes_len|]. exists (zeros 4096), (ex_data 0).
  split; [by rewrite zlen_zeros|]. split; [apply bytes_zeros|]. split; [exact ex_data_built|exact ex_hurt_ok].
Qed.

Lemma block0 : file_block 0.
Proof. by split. Qed.

Lemma xd_maps : file_maps ex_cfg ex_tables 0 xd ex_file ex_content /\ fget xd ex_file 0 = 10.
Proof.
  destruct (maps_put ex_cfg ex_tables 0 xf ex_file ex_content ex_content 0 ex_bytes ex_hurt xf_maps block0) as (M & G & _).
  - rewrite (xf_get 0 block0). discriminate.
  - exact ex_hurt_sealed.
  - exact ex_bytes_content.
  - intros j u _ _ _. exact eq_refl.
  - pose proof (xf_get 0 block0 : fget xf ex_file 0 = 10) as E. rewrite E in M, G. split; [exact M|]. pose proof (G 0 block0) as E0. rewrite E in E0. exact E0.
Qed.

Lemma xd_steady : vsteady ex_tables 0 24 xd.
Proof. exact (steady_bput (Steady := x_steady) xf 10 ex_hurt xf_steady). Qed.

#[local] Existing Instance x_scrub.
#[local] Existing Instance x_scrub_ok.
#[local] Existing Instance x_able.

Definition ex_sweep (s : mounted ex_tables 0) (f : option finode) (o : list (others (mounted ex_tables 0))) : sweep (mounted ex_tables 0) :=
  Sweep s f 1 false (beamfs_scrub_init 100) o.

Lemma sweep_repairs_file_witness :
  let s' := w_env (beamfs_scrub_one_inode ex_cfg ex_tables 0 (ex_sweep xd None []) 7) in
  file_maps ex_cfg ex_tables 0 s' ex_file ex_content /\ fget s' ex_file 0 = 10 /\ sound ex_cfg ex_tables 0 ex_file ex_content s' 0.
Proof.
  assert (Ht : it_buffers ex_itable !! (5 + (7 - 1) / inodes_per_block) = Some (put_le16 (zeros 4096) (inode_offset 7) 33188)) by (clear; vm_compute; reflexivity).
  assert (Hm : S_ISREG (get_le16 (slice (put_le16 (zeros 4096) (inode_offset 7) 33188) (inode_offset 7) sizeof_inode) off_i_mode) = true) by (clear; vm_compute; reflexivity).
  assert (Hg : option_map (fun v => (vinode_file 7 v, vi_nlink v)) (ex_vi 7) = Some (ex_file, 1)) by (clear; vm_compute; reflexivity).
  assert (Hn : 1 <> 0) by discriminate.
  destruct (sweep_repairs_file (SE := x_scrub) (SO := x_scrub_ok) (AB := x_able) ex_cfg ex_tables 0 (ex_sweep xd None []) 7 _ ex_file 1 xd ex_content x_ready eq_refl eq_refl eq_refl Ht Hm (f_equal (fun o => (o, xd)) Hg) eq_refl Hn eq_refl xd_steady (proj1 xd_maps)) as [M H].
  split; [exact M|]. destruct (H 0 block0) as [G Sd]. split; [exact (eq_trans G (proj2 xd_maps))|exact Sd].
Defined.

Lemma xd_quiet : quiet ex_cfg ex_tables 0 ex_file ex_content (ex_sweep xd (Some ex_file) []).
Proof. split; [exact eq_refl|exact eq_refl|exact eq_refl|exact xd_steady|exact (proj1 xd_maps)]. Qed.

Lemma second_check_counts_parity_witness : exists n w' n' w'',
  beamfs_scrub_check_block ex_cfg ex_tables 0 (ex_sweep xd (Some ex_file) []) 10 0 = (0, n, w') /\
  beamfs_scrub_check_block ex_cfg ex_tables 0 w' 10 0 = (0, n', w'') /\ n' <> 0.
Proof.
  assert (R : bread xd 10 = Some ex_hurt) by (unfold xd; apply bput_same).
  assert (Hb : bytes ex_bytes) by (by apply bytes_check).
  assert (Hp : bool_decide (cw_par (data_layout ex_cfg) ex_hurt 0 = cw_par (data_layout ex_cfg) (ex_data 0) 0) = false) by (clear; vm_compute; reflexivity).
  apply bool_decide_eq_false in Hp. assert (G : fget xd ex_file 0 = 10) by exact (proj2 xd_maps). assert (H10 : 10 <> 0) by discriminate.
  assert (Hne : fget xd ex_file 0 <> 0) by (rewrite G; exact H10). assert (Rg : bread xd (fget xd ex_file 0) = Some ex_hurt) by (rewrite G; exact R).
  destruct (second_check_counts_parity (SE := x_scrub) (SO := x_scrub_ok) (AB := x_able) ex_cfg ex_tables 0 ex_file ex_content (ex_sweep xd (Some ex_file) []) 0
    ex_hurt ex_bytes (zeros 4096) (ex_data 0) x_ready eq_refl xd_quiet block0 Hne Rg Hb ex_bytes_len (zlen_zeros 4096 ltac:(clear; lia)) (bytes_zeros 4096)
    ex_data_built ex_hurt_ok ex_bytes_content) as (n & w' & n' & w'' & raw' & E1 & E2 & _ & _ & _ & H).
  cbn [w_env ex_sweep] in E1, E2. rewrite G in E1, E2. exists n, w', n', w''. split; [exact E1|]. split; [exact E2|]. apply H. split; [exact eq_refl|].
  exists 0. split; [clear; lia|exact Hp].
Defined.

(** A block of the alternating layout with nine damaged symbols. *)
Definition ex_bad : list Z := foldl (fun blk k => setb blk k (17 * k + 5)) (zeros 4096) (upto 9).

Lemma uncorrectable_not_reported_witness :
  beamfs_scrub_check_block (DataCfg true true false) ex_tables 0 (ex_sweep (bput xf 10 ex_bad) None []) 10 0 =
    (- EBADMSG, 0, ex_sweep (bput xf 10 ex_bad) None []).
Proof.
  assert (Zb : zlen ex_bad = 4096) by (clear; vm_compute; reflexivity). assert (Bb : bytes ex_bad) by (apply bytes_check; clear; vm_compute; reflexivity).
  assert (Hd : fst (fst (beamfs_rs_decode ex_tables 0 (cw_data alternating ex_bad 0) 239 (cw_par alternating ex_bad 0) (Some 8))) < 0) by (clear; vm_compute; reflexivity).
  assert (R : bread (bput xf 10 ex_bad) 10 = Some ex_bad) by (apply bput_same).
  assert (E : beamfs_scrub_snapshot (meanwhile (ex_sweep (bput xf 10 ex_bad) None [])) 10 0 = (inr ex_bad, ex_sweep (bput xf 10 ex_bad) None [])).
  { cbv beta iota delta [beamfs_scrub_snapshot meanwhile ex_sweep w_others w_inode w_env beamfs_scrub_read_copy]. fold (bput xf 10 ex_bad). rewrite R. reflexivity. }
  exact (proj1 (uncorrectable_not_reported (SE := x_scrub) (DataCfg true true false) ex_tables 0 (ex_sweep (bput xf 10 ex_bad) None []) 10 0 ex_bad
    (ex_sweep (bput xf 10 ex_bad) None []) 0 (beamfs_scrub_init 100) x_ready eq_refl eq_refl (vs_scratch _ _ _ _ (steady_bput (Steady := x_steady) xf 10 ex_bad xf_steady)) E Zb Bb
    ltac:(clear; lia) Hd)).
Defined.

Lemma pace_bounded_witness : s_scrub_interval_ms (Nat.iter 14 beamfs_scrub_pace (beamfs_scrub_pace
  (foldl pace_step (beamfs_scrub_init 100) [PacePass 3; PacePass 5; PaceStore (Some 4000); PacePass 9]))) = 4000.
Proof.
  refine (proj2 (proj2 (pace_bounded 100 [PacePass 3; PacePass 5; PaceStore (Some 4000); PacePass 9] _ _)) 14%nat _).
  - by split.
  - repeat constructor; by vm_compute.
  - lia.
Defined.

(** Past that bound the sum wraps: a quiet pass shortens the interval. *)
Example pace_wraps : s_scrub_interval_ms (beamfs_scrub_pace (set_pace (beamfs_scrub_init 0) 4000000000 4294967295)) = 241903615.
Proof. reflexivity. Qed.

(** Another file, without blocks, and a thread that zeroes block 1 of the
    file under the sweep. *)
Definition ex_other : finode := FInode 8 S_IFREG 0 (zeros 12) 0 0 0 false (0, 0) false.

Definition ex_zero : others (mounted ex_tables 0) := Others
  (fun s f => if fget s f 1 =? 0 then (s, f)
    else (bput s (fget s f 1) (snd (build_data_block ex_cfg ex_tables 0 (zeros 4096) (zeros 4096) (fi_ino f) 1)), f))
  (fun s => s) (fun n => n) false None.

Definition ex_effect (o : others (mounted ex_tables 0)) (C : Z -> Z) (p : Z) : Z :=
  if (beamfs_block_payload ex_cfg <=? p) && (p <? 2 * beamfs_block_payload ex_cfg) then 0 else C p.

Lemma other_maps s : par_ok s -> file_maps ex_cfg ex_tables 0 s ex_other (fun _ => 0) /\ file_blocks s ex_other = [].
Proof.
  intros Par. assert (E : file_blocks s ex_other = []) by reflexivity.
  assert (Rt : forall k d b, file_roots ex_other !! k = Some (d, b) -> b = 0).
  { intros k d b H%list_elem_of_lookup_2. cbn in H. repeat (apply elem_of_cons in H as [H|H]; [by injection H as _ ->|]). by apply elem_of_nil in H. }
  split; [|done]. split; [split; [done|split]|done|].
  - intros k d b Hk. rewrite (Rt k d b Hk). destruct d; by left.
  - unfold file_blocks in E. rewrite E. constructor.
  - intros i Hi. assert (G : fget s ex_other i = 0).
    { unfold fget. destruct (file_roots ex_other !! fst (path i)) as [[d b]|] eqn:Ek; [|done]. rewrite (Rt _ _ _ Ek). apply tree_get_zero. }
    split; [done|]. by rewrite G.
Qed.

Lemma ex_zero_fair : fair ex_cfg ex_tables 0 ex_other (fun _ => 0) ex_effect ex_zero.
Proof.
  intros s f C B. assert (H1 : file_block 1) by (by split). pose proof (payload_range ex_cfg) as HP. set (P := beamfs_block_payload ex_cfg) in *.
  assert (In : forall u, 0 <= u < P -> ex_effect ex_zero C (1 * P + u) = 0).
  { intros u Hu. unfold ex_effect. fold P. rewrite (proj2 (Z.leb_le _ _)), (proj2 (Z.ltb_lt _ _)) by lia. exact eq_refl. }
  assert (Out : forall j u, j <> 1 -> 0 <= j -> 0 <= u < P -> ex_effect ex_zero C (j * P + u) = C (j * P + u)).
  { intros j u Hj H0 Hu. unfold ex_effect. fold P. destruct (Z.leb_spec P (j * P + u)); [|exact eq_refl]. rewrite (proj2 (Z.ltb_ge _ _)); [exact eq_refl|nia]. }
  cbn [o_file ex_zero]. destruct (Z.eqb_spec (fget s f 1) 0) as [E0|Hne]; cbn [fst snd].
  - destruct B as [M1 M2 M3]. split; [|exact M2|exact M3]. apply (maps_ext ex_cfg ex_tables 0 s f C); [|exact M1]. intros p Hp.
    destruct (fm_block _ _ _ _ _ _ M1 1 H1) as [Hz _]. specialize (Hz E0). unfold ex_effect. fold P in Hz |- *.
    destruct (Z.leb_spec P p); [|exact eq_refl]. destruct (Z.ltb_spec p (2 * P)); [|exact eq_refl]. cbn [andb]. specialize (Hz (p - P) ltac:(lia)). rewrite <- Hz. f_equal. lia.
  - destruct (build_ok ex_cfg ex_tables 0 (zeros 4096) (zeros 4096) (fi_ino f) 1 x_ready) as (blk & -> & Se); [by rewrite zlen_zeros|apply bytes_zeros|apply bytes_zeros|rewrite zlen_zeros; lia|].
    cbn [snd]. apply (both_write ex_cfg ex_tables 0 s f C (ex_effect ex_zero C) ex_other (fun _ => 0) 1 (zeros 4096) blk B H1 Hne Se).
    + intros u Hu. rewrite getb_zeros. symmetry. exact (In u Hu).
    + intros j u [Hj _] Hne' Hu. exact (Out j u Hne' Hj Hu).
Qed.

Lemma sweep_keeps_contents_witness :
  let w' := scrub_held ex_cfg ex_tables 0 (ex_sweep xd (Some ex_file) [ex_zero; ex_zero]) in
  exists f' ran, w_inode w' = Some f' /\ [ex_zero; ex_zero] = ran ++ w_others w' /\
    file_maps ex_cfg ex_tables 0 (w_env w') f' (foldl (fun C o => ex_effect o C) ex_content ran).
Proof.
  destruct (other_maps xd (fm_par _ _ _ _ _ _ (proj1 xd_maps))) as [M2 E2].
  assert (B : both ex_cfg ex_tables 0 xd ex_file ex_content ex_other (fun _ => 0)).
  { split; [exact (proj1 xd_maps)|exact M2|]. intros x _ Hx. rewrite E2 in Hx. by apply elem_of_nil in Hx. }
  assert (F : Forall (fair ex_cfg ex_tables 0 ex_other (fun _ => 0) ex_effect) [ex_zero; ex_zero]).
  { constructor; [exact ex_zero_fair|]. constructor; [exact ex_zero_fair|constructor]. }
  destruct (sweep_keeps_contents (SE := x_scrub) (SO := x_scrub_ok) ex_cfg ex_tables 0 (ex_sweep xd (Some ex_file) [ex_zero; ex_zero]) ex_file ex_content ex_other (fun _ => 0) ex_effect
    x_ready eq_refl B F) as (f' & ran & Ei & Eo & B').
  exists f', ran. split; [exact Ei|]. split; [exact Eo|exact (bo_file _ _ _ _ _ _ _ _ B')].
Defined.
