(* ===== verification/FsckRead.v ===== *)
(** * The reader of fsck.beamfs (tools/fsck.beamfs/fsck_read.c)

    One way in from the medium: the superblock, an inode, an indirect
    block, a data or directory block, a bitmap block, each verified and
    corrected on the way.

    A function of the source that fills a buffer of its caller returns an
    option: [None] when it returns without filling it.  The counters of
    the reader are threaded, as the source bumps them through [r]. *)

From S2P Require Import Prelude Format Crc RsInit GF RsTheory RsCode RsCorrect RsDecode Dirent.

(** ** The device *)

(** The bytes behind the file descriptor, and the extents on which
    lseek(2) or read(2) fail. *)
Record device := Device { dv_bytes : list Z; dv_bad : Z -> Z -> bool }.

(** An offset as off_t: the 64 bits read as a signed number. *)
Definition off_t (x : Z) : Z := let y := u64 x in if y <? 2 ^ 63 then y else y - 2 ^ 64.

(** All [len] bytes at [off], or a failure: a negative offset, a read that
    fails, the end of the device. *)
Definition read_exact (fd : device) (off len : Z) : option (list Z) :=
  if off <? 0 then None
  else if dv_bad fd off len then None
  else if zlen (dv_bytes fd) <? off + len then None
  else Some (slice (dv_bytes fd) off len).

(** ** Reader *)

Inductive fsck_read_status :=
  | FSCK_READ_CLEAN
  | FSCK_READ_CORRECTED
  | FSCK_READ_UNCORRECTABLE
  | FSCK_READ_UNDESCRIBED
  | FSCK_READ_IO.

#[export] Instance fsck_read_status_eq : EqDecision fsck_read_status.
Proof. solve_decision. Defined.

(** The part of struct fsck_reader that stays as fsck_reader_open left it. *)
Record geometry := Geometry {
  g_fd : device;
  g_data_start : Z;
  g_nblocks : Z;
  g_inode_table_blk : Z;
  g_inode_count : Z;
  g_inodes_per_block : Z;
  g_interleaved : bool;
  g_ind_parity_blk : Z;
  g_ind_parity_len : Z;
  g_ind_parity_mode : Z }.

Record fsck_reader := Reader {
  rd_geo : geometry;
  rd_corrected : Z;
  rd_uncorrectable : Z;
  rd_undescribed : Z }.

Definition add_corrected (r : fsck_reader) : fsck_reader :=
  Reader (rd_geo r) (u32 (rd_corrected r + 1)) (rd_uncorrectable r) (rd_undescribed r).
Definition add_uncorrectable (r : fsck_reader) : fsck_reader :=
  Reader (rd_geo r) (rd_corrected r) (u32 (rd_uncorrectable r + 1)) (rd_undescribed r).
Definition add_undescribed (r : fsck_reader) : fsck_reader :=
  Reader (rd_geo r) (rd_corrected r) (rd_uncorrectable r) (u32 (rd_undescribed r + 1)).

(** Sixteen codewords or so: [step i] decodes one, [None] is the early
    return on one past correction. *)
Definition decode_all {S} (step : S -> Z -> option S) (s : S) (n : Z) : option S :=
  foldl (fun acc i => match acc with None => None | Some s => step s i end) (Some s) (upto n).

(** ** Superblock *)

Definition sb_staging (sb : list Z) : list Z :=
  slice sb 0 off_s_crc32 ++ slice sb off_s_uuid (off_s_pad - off_s_uuid) ++
  zeros (BEAMFS_SB_RS_STAGING_BYTES - BEAMFS_SB_RS_COVERAGE_BYTES).

(** The loop over the subblocks of the staging buffer: (staging, corrected). *)
Definition sb_decode_step (sb : list Z) (st : list Z * Z) (i : Z) : option (list Z * Z) :=
  let '(staging, corrected) := st in
  match rs_decode_subblock codec (slice staging (i * BEAMFS_SB_RS_DATA_LEN) BEAMFS_SB_RS_DATA_LEN)
          BEAMFS_SB_RS_DATA_LEN (slice sb (BEAMFS_SB_RS_PARITY_OFFSET + i * BEAMFS_RS_PARITY) BEAMFS_RS_PARITY) with
  | Uncorrectable => None
  | Decoded rc d _ _ =>
    Some (splice staging (i * BEAMFS_SB_RS_DATA_LEN) d, if 0 <? rc then u32 (corrected + rc) else corrected)
  end.

Definition sb_unstage (staging sb : list Z) : list Z :=
  splice (splice sb 0 (slice staging 0 off_s_crc32)) off_s_uuid
    (slice staging off_s_crc32 (off_s_pad - off_s_uuid)).

Definition geometry_of (fd : device) (sb : list Z) : geometry :=
  let block_count := get_le64 sb off_s_block_count in
  let data_start := get_le64 sb off_s_data_start_blk in
  {| g_fd := fd;
     g_data_start := data_start;
     g_nblocks := if data_start <? block_count then block_count - data_start else 0;
     g_inode_table_blk := get_le64 sb off_s_inode_table_blk;
     g_inode_count := get_le64 sb off_s_inode_count;
     g_inodes_per_block := BEAMFS_BLOCK_SIZE / sizeof_inode;
     g_interleaved := negb (Z.land (get_le64 sb off_s_feat_incompat) BEAMFS_FEATURE_INCOMPAT_RS_INTERLEAVE =? 0);
     g_ind_parity_blk := get_le64 sb off_s_ind_parity_blk;
     g_ind_parity_len := get_le32 sb off_s_ind_parity_len;
     g_ind_parity_mode := get_le32 sb off_s_ind_parity_mode |}.

(** [rs_ok]: rs_init found memory. *)
Definition fsck_reader_open (rs_ok : bool) (fd : device) : fsck_read_status * option fsck_reader :=
  if negb rs_ok then (FSCK_READ_IO, None)
  else
    match read_exact fd 0 BEAMFS_BLOCK_SIZE with
    | None => (FSCK_READ_IO, None)
    | Some sb =>
      match decode_all (sb_decode_step sb) (sb_staging sb, 0) BEAMFS_SB_RS_SUBBLOCKS with
      | None => (FSCK_READ_UNCORRECTABLE, None)
      | Some (staging, corrected) =>
        let '(sb, n, st) :=
          if 0 <? corrected then (sb_unstage staging sb, 1, FSCK_READ_CORRECTED)
          else (sb, 0, FSCK_READ_CLEAN) in
        let g := geometry_of fd sb in
        if (g_inodes_per_block g =? 0) || (g_inode_count g =? 0) || (g_nblocks g =? 0)
        then (FSCK_READ_UNCORRECTABLE, None)
        else (st, Some (Reader g n 0 0))
      end
    end.

(** ** Inodes *)

(** On FSCK_READ_UNCORRECTABLE the caller's buffer holds what the decoder
    left; it is not to be read, and is [None] here too. *)
Definition fsck_read_inode (r : fsck_reader) (ino : Z) : fsck_read_status * option (list Z) * fsck_reader :=
  let g := rd_geo r in
  if (ino =? 0) || (g_inode_count g <? ino) then (FSCK_READ_IO, None, r)
  else
    let block := u64 (g_inode_table_blk g + (ino - 1) / g_inodes_per_block g) in
    let offset := (ino - 1) mod g_inodes_per_block g in
    let pos := off_t (block * BEAMFS_BLOCK_SIZE + offset * sizeof_inode) in
    match read_exact (g_fd g) pos sizeof_inode with
    | None => (FSCK_READ_IO, None, r)
    | Some out =>
      if get_le16 out off_i_mode =? 0 then (FSCK_READ_CLEAN, Some out, r)
      else if crc32_inode out =? get_le32 out off_i_crc32 then (FSCK_READ_CLEAN, Some out, r)
      else
        match rs_decode_subblock codec (slice out 0 BEAMFS_INODE_RS_DATA) BEAMFS_INODE_RS_DATA
                (slice out off_i_reserved BEAMFS_RS_PARITY) with
        | Uncorrectable => (FSCK_READ_UNCORRECTABLE, None, add_uncorrectable r)
        | Decoded _ d p _ =>
          let out := splice (splice out 0 d) off_i_reserved p in
          if negb (crc32_inode out =? get_le32 out off_i_crc32)
          then (FSCK_READ_UNCORRECTABLE, None, add_uncorrectable r)
          else (FSCK_READ_CORRECTED, Some out, add_corrected r)
        end
    end.

(** ** Alternating blocks *)

(** One subblock of data followed by its parity: (status, bytes out). *)
Definition alternating_step (raw : list Z) (st : fsck_read_status * list Z) (i : Z)
    : option (fsck_read_status * list Z) :=
  let sub := i * BEAMFS_SUBBLOCK_TOTAL in
  match rs_decode_subblock codec (slice raw sub BEAMFS_SUBBLOCK_DATA) BEAMFS_SUBBLOCK_DATA
          (slice raw (sub + BEAMFS_SUBBLOCK_DATA) BEAMFS_RS_PARITY) with
  | Uncorrectable => None
  | Decoded rc d _ _ => Some (if 0 <? rc then FSCK_READ_CORRECTED else fst st, snd st ++ d)
  end.

Definition read_alternating (r : fsck_reader) (raw : list Z) (n : Z)
    : fsck_read_status * option (list Z) * fsck_reader :=
  match decode_all (alternating_step raw) (FSCK_READ_CLEAN, []) n with
  | None => (FSCK_READ_UNCORRECTABLE, None, add_uncorrectable r)
  | Some (st, out) => (st, Some out, if decide (st = FSCK_READ_CORRECTED) then add_corrected r else r)
  end.

(** ** Capsules *)

Definition capsule_word (raw : list Z) (i : Z) : list Z :=
  map (fun k => getb raw (k * BEAMFS_DATA_INLINE_SUBBLOCKS + i)) (upto BEAMFS_SUBBLOCK_DATA).

Definition capsule_unword (raw word : list Z) (i : Z) : list Z :=
  foldl (fun raw k => setb raw (k * BEAMFS_DATA_INLINE_SUBBLOCKS + i) (getb word k)) raw
    (upto BEAMFS_SUBBLOCK_DATA).

(** (status, raw); the decoder also corrects the parity in place. *)
Definition capsule_step (st : fsck_read_status * list Z) (i : Z) : option (fsck_read_status * list Z) :=
  let raw := snd st in
  let off := BEAMFS_CAPSULE_PARITY_OFF + i * BEAMFS_RS_PARITY in
  match rs_decode_subblock codec (capsule_word raw i) BEAMFS_SUBBLOCK_DATA (slice raw off BEAMFS_RS_PARITY) with
  | Uncorrectable => None
  | Decoded rc d p _ =>
    Some (if 0 <? rc then FSCK_READ_CORRECTED else fst st, capsule_unword (splice raw off p) d i)
  end.

(** ** Data, directory and bitmap blocks *)

Definition fsck_read_data (r : fsck_reader) (blk : Z) : fsck_read_status * option (list Z) * fsck_reader :=
  let g := rd_geo r in
  if (blk =? 0) || (u64 (g_data_start g + g_nblocks g) <=? blk) then (FSCK_READ_IO, None, r)
  else
    match read_exact (g_fd g) (off_t (blk * BEAMFS_BLOCK_SIZE)) BEAMFS_BLOCK_SIZE with
    | None => (FSCK_READ_IO, None, r)
    | Some raw =>
      if g_interleaved g then
        match decode_all capsule_step (FSCK_READ_CLEAN, raw) BEAMFS_DATA_INLINE_SUBBLOCKS with
        | None => (FSCK_READ_UNCORRECTABLE, None, add_uncorrectable r)
        | Some (st, raw) =>
          (st, Some (slice raw 0 BEAMFS_CAPSULE_DATA_BYTES),
           if decide (st = FSCK_READ_CORRECTED) then add_corrected r else r)
        end
      else read_alternating r raw BEAMFS_DATA_INLINE_SUBBLOCKS
    end.

Definition set_interleaved (r : fsck_reader) (b : bool) : fsck_reader :=
  let g := rd_geo r in
  Reader (Geometry (g_fd g) (g_data_start g) (g_nblocks g) (g_inode_table_blk g) (g_inode_count g)
            (g_inodes_per_block g) b (g_ind_parity_blk g) (g_ind_parity_len g) (g_ind_parity_mode g))
    (rd_corrected r) (rd_uncorrectable r) (rd_undescribed r).

Definition fsck_read_dirblock (r : fsck_reader) (blk : Z) : fsck_read_status * option (list Z) * fsck_reader :=
  let was := g_interleaved (rd_geo r) in
  let '(st, out, r) := fsck_read_data (set_interleaved r false) blk in
  (st, out, set_interleaved r was).

(** The bitmap's place is read from the superblock as it is on the medium. *)
Definition fsck_read_bitmap (r : fsck_reader) (index : Z) : fsck_read_status * option (list Z) * fsck_reader :=
  let fd := g_fd (rd_geo r) in
  match read_exact fd 0 BEAMFS_BLOCK_SIZE with
  | None => (FSCK_READ_IO, None, r)
  | Some sb =>
    match read_exact fd (off_t (u64 (get_le64 sb off_s_bitmap_blk + index) * BEAMFS_BLOCK_SIZE)) BEAMFS_BLOCK_SIZE with
    | None => (FSCK_READ_IO, None, r)
    | Some raw => read_alternating r raw BEAMFS_BITMAP_SUBBLOCKS
    end
  end.

(** ** Indirect blocks *)

(** Where an indirect block's parity lives: (region block, offset, stride). *)
Definition fsck_parity_slot (g : geometry) (phys : Z) : option (Z * Z * Z) :=
  let '(stride, slots) :=
    if g_ind_parity_mode g =? BEAMFS_IND_PARITY_CRC
    then (BEAMFS_IND_PARITY_CRC_BYTES, BEAMFS_IND_PARITY_CRC_SLOTS)
    else (BEAMFS_IND_PARITY_RS_BYTES, BEAMFS_IND_PARITY_RS_SLOTS) in
  if (stride =? 0) || (slots =? 0) || (g_ind_parity_blk g =? 0) || (g_ind_parity_len g =? 0) then None
  else if phys <? g_data_start g then None
  else
    let index := phys - g_data_start g in
    let region_blk := u64 (g_ind_parity_blk g + index / slots) in
    let offset := u32 (u32 (index mod slots) * stride) in
    if BEAMFS_DATA_INLINE_BYTES <? offset + stride then None
    else if u64 (g_ind_parity_blk g + g_ind_parity_len g) <=? region_blk then None
    else Some (region_blk, offset, stride).

(** The region block, flat: [None] when a subblock is past correction.  A
    correction is counted as it is made, also before such a subblock. *)
Definition ind_region_decode (r : fsck_reader) (raw : list Z) : option (list Z) * fsck_reader :=
  foldl (fun '(acc, r) i =>
    match acc with
    | None => (None, r)
    | Some flat =>
      let sub := i * BEAMFS_SUBBLOCK_TOTAL in
      match rs_decode_subblock codec (slice raw sub BEAMFS_SUBBLOCK_DATA) BEAMFS_SUBBLOCK_DATA
              (slice raw (sub + BEAMFS_SUBBLOCK_DATA) BEAMFS_RS_PARITY) with
      | Uncorrectable => (None, r)
      | Decoded rc d _ _ => (Some (flat ++ d), if 0 <? rc then add_corrected r else r)
      end
    end) (Some [], r) (upto BEAMFS_DATA_INLINE_SUBBLOCKS).

Definition ptrs_of (raw : list Z) : list Z := map (fun i => get_le64 raw (i * 8)) (upto BEAMFS_INDIRECT_PTRS).

(** The copy decoded against the slot: (corrected so far, copy). *)
Definition ind_decode_step (slot : list Z) (st : fsck_read_status * list Z) (i : Z)
    : option (fsck_read_status * list Z) :=
  let work := snd st in
  match rs_decode_subblock codec (slice work (i * BEAMFS_SUBBLOCK_DATA) BEAMFS_SUBBLOCK_DATA)
          BEAMFS_SUBBLOCK_DATA (slice slot (i * BEAMFS_RS_PARITY) BEAMFS_RS_PARITY) with
  | Uncorrectable => None
  | Decoded rc d _ _ =>
    Some (if 0 <? rc then FSCK_READ_CORRECTED else fst st, splice work (i * BEAMFS_SUBBLOCK_DATA) d)
  end.

(** An indirect block against its slot of the decoded region block. *)
Definition check_slot (r : fsck_reader) (raw slot : list Z) : fsck_read_status * option (list Z) * fsck_reader :=
  if forallb (fun x => x =? 0) slot then (FSCK_READ_UNDESCRIBED, Some (ptrs_of raw), add_undescribed r)
  else if g_ind_parity_mode (rd_geo r) =? BEAMFS_IND_PARITY_CRC then
    if forallb (fun i => crc32 (slice raw (i * BEAMFS_SUBBLOCK_DATA) BEAMFS_SUBBLOCK_DATA) =? get_le32 slot (i * 4))
         (upto BEAMFS_DATA_INLINE_SUBBLOCKS)
    then (FSCK_READ_CLEAN, Some (ptrs_of raw), r)
    else (FSCK_READ_UNCORRECTABLE, None, add_uncorrectable r)
  else
    match decode_all (ind_decode_step slot) (FSCK_READ_CLEAN, raw) BEAMFS_DATA_INLINE_SUBBLOCKS with
    | None => (FSCK_READ_UNCORRECTABLE, None, add_uncorrectable r)
    | Some (st, work) =>
      (st, Some (ptrs_of work), if decide (st = FSCK_READ_CORRECTED) then add_corrected r else r)
    end.

Definition fsck_read_indirect (r : fsck_reader) (blk : Z) : fsck_read_status * option (list Z) * fsck_reader :=
  let g := rd_geo r in
  if (blk =? 0) || (u64 (g_data_start g + g_nblocks g) <=? blk) then (FSCK_READ_IO, None, r)
  else
    match read_exact (g_fd g) (off_t (blk * BEAMFS_BLOCK_SIZE)) BEAMFS_BLOCK_SIZE with
    | None => (FSCK_READ_IO, None, r)
    | Some raw =>
      let unverified := (FSCK_READ_CLEAN, Some (ptrs_of raw)) in
      match fsck_parity_slot g blk with
      | None => (unverified, r)
      | Some (region_blk, offset, stride) =>
        match read_exact (g_fd g) (off_t (region_blk * BEAMFS_BLOCK_SIZE)) BEAMFS_BLOCK_SIZE with
        | None => (unverified, r)
        | Some parity =>
          match ind_region_decode r parity with
          | (None, r) => (unverified, r)
          | (Some flat, r) => check_slot r raw (slice flat offset stride)
          end
        end
      end
    end.

(** ** What a read shows

    The reads depend on the volume and not on the counters of the reader,
    and leave the volume alone: a view of the volume, by inode and by
    block. *)

Definition fresh (g : geometry) : fsck_reader := Reader g 0 0 0.

Definition inode_view (g : geometry) (ino : Z) : fsck_read_status * option (list Z) := fst (fsck_read_inode (fresh g) ino).
Definition ind_view (g : geometry) (blk : Z) : fsck_read_status * option (list Z) := fst (fsck_read_indirect (fresh g) blk).
Definition dir_view (g : geometry) (blk : Z) : fsck_read_status * option (list Z) := fst (fsck_read_dirblock (fresh g) blk).

(** A read of the reader shows [v] and keeps the volume. *)
Definition shows (r : fsck_reader) (v : fsck_read_status * option (list Z))
    (x : fsck_read_status * option (list Z) * fsck_reader) : Prop :=
  exists r', x = (v, r') /\ rd_geo r' = rd_geo r.

Lemma inode_shows r ino : shows r (inode_view (rd_geo r) ino) (fsck_read_inode r ino).
Proof.
  unfold shows, inode_view, fsck_read_inode, fresh. cbn [rd_geo].
  repeat case_match; eexists; (split; [reflexivity|done]).
Qed.

Lemma read_alternating_shows r r' raw n :
  shows r (fst (read_alternating r' raw n)) (read_alternating r raw n).
Proof. unfold shows, read_alternating. repeat case_match; eexists; (split; [reflexivity|done]). Qed.

Lemma data_shows r r' blk : rd_geo r = rd_geo r' -> shows r (fst (fsck_read_data r' blk)) (fsck_read_data r blk).
Proof.
  intros E. unfold fsck_read_data. rewrite <- E.
  destruct (_ || _); [by eexists|]. destruct (read_exact _ _ _) as [raw|]; [|by eexists].
  destruct (g_interleaved _); [|apply read_alternating_shows].
  unfold shows. repeat case_match; eexists; (split; [reflexivity|done]).
Qed.

Lemma dir_shows r blk : shows r (dir_view (rd_geo r) blk) (fsck_read_dirblock r blk).
Proof.
  unfold dir_view, fsck_read_dirblock.
  destruct (data_shows (set_interleaved r false) (set_interleaved (fresh (rd_geo r)) false) blk eq_refl) as (r' & E & G).
  rewrite E. destruct (fsck_read_data (set_interleaved (fresh (rd_geo r)) false) blk) as [[st out] r2]. cbn [fst].
  eexists. split; [reflexivity|]. unfold set_interleaved. cbn [rd_geo]. rewrite G. by destruct r as [[]].
Qed.

Lemma region_decode_shows r r' raw :
  fst (ind_region_decode r raw) = fst (ind_region_decode r' raw) /\ rd_geo (snd (ind_region_decode r raw)) = rd_geo r.
Proof.
  unfold ind_region_decode. generalize (upto BEAMFS_DATA_INLINE_SUBBLOCKS) as l. generalize (Some (@nil Z)) as a.
  intros a l. revert a r r'. induction l as [|i l IH]; intros a r r'; [done|]. cbn [foldl].
  destruct a as [flat|]; [|apply IH]. destruct (rs_decode_subblock _ _ _ _); [apply IH|].
  destruct (IH (Some (flat ++ data)) (if 0 <? n then add_corrected r else r) (if 0 <? n then add_corrected r' else r')) as [I1 I2].
  split; [done|]. rewrite I2. by destruct (0 <? n).
Qed.

Lemma check_slot_shows r r' raw slot :
  rd_geo r = rd_geo r' -> shows r (fst (check_slot r' raw slot)) (check_slot r raw slot).
Proof.
  intros E. unfold shows, check_slot. rewrite <- E.
  repeat case_match; eexists; (split; [reflexivity|done]).
Qed.

Lemma ind_shows r blk : shows r (ind_view (rd_geo r) blk) (fsck_read_indirect r blk).
Proof.
  unfold ind_view, fsck_read_indirect, fresh. cbn [rd_geo].
  destruct (_ || _); [by eexists|]. destruct (read_exact _ _ _) as [raw|]; [|by eexists].
  destruct (fsck_parity_slot _ _) as [[[rb off] stride]|]; [|by eexists].
  destruct (read_exact _ _ _) as [par|]; [|by eexists].
  destruct (region_decode_shows r (fresh (rd_geo r)) par) as [E1 G1].
  destruct (region_decode_shows (fresh (rd_geo r)) r par) as [_ G2].
  change (Reader (rd_geo r) 0 0 0) with (fresh (rd_geo r)).
  destruct (ind_region_decode r par) as [[flat|] r1], (ind_region_decode (fresh (rd_geo r)) par) as [[flat2|] r2];
    cbn [fst snd] in *; simplify_eq; [|by eexists].
  destruct (check_slot_shows r1 r2 raw (slice flat2 off stride)) as (r' & E & G); [by rewrite G1, G2|].
  exists r'. by rewrite E, G, G1.
Qed.

(** ** Reads that cannot fail *)

(** The device is as long as the volume says, and reads from it succeed. *)
Record fits (g : geometry) : Prop := {
  fit_bytes : bytes (dv_bytes (g_fd g));
  fit_bad : forall off len, dv_bad (g_fd g) off len = false;
  fit_start : 0 <= g_data_start g;
  fit_blocks : 0 < g_nblocks g;
  fit_end : (g_data_start g + g_nblocks g) * BEAMFS_BLOCK_SIZE <= zlen (dv_bytes (g_fd g));
  fit_ipb : g_inodes_per_block g = BEAMFS_BLOCK_SIZE / sizeof_inode;
  fit_table : 0 <= g_inode_table_blk g;
  fit_inodes : (g_inode_table_blk g + (g_inode_count g - 1) / g_inodes_per_block g + 1) * BEAMFS_BLOCK_SIZE
                 <= zlen (dv_bytes (g_fd g));
  fit_size : zlen (dv_bytes (g_fd g)) < 2 ^ 63 }.

Lemma off_t_small x : 0 <= x < 2 ^ 63 -> off_t x = x.
Proof. intros H. unfold off_t, u64. rewrite Z.mod_small by lia. by destruct (Z.ltb_spec x (2 ^ 63)); [|lia]. Qed.

Lemma read_exact_fits g off len :
  fits g -> 0 <= off -> 0 <= len -> off + len <= zlen (dv_bytes (g_fd g)) ->
  read_exact (g_fd g) off len = Some (slice (dv_bytes (g_fd g)) off len).
Proof.
  intros F Ho Hl He. unfold read_exact. rewrite (fit_bad _ F).
  destruct (Z.ltb_spec off 0); [lia|]. by destruct (Z.ltb_spec (zlen (dv_bytes (g_fd g))) (off + len)); [lia|].
Qed.

Lemma block_read g blk :
  fits g -> 0 <= blk < g_data_start g + g_nblocks g ->
  read_exact (g_fd g) (off_t (blk * BEAMFS_BLOCK_SIZE)) BEAMFS_BLOCK_SIZE =
  Some (slice (dv_bytes (g_fd g)) (blk * BEAMFS_BLOCK_SIZE) BEAMFS_BLOCK_SIZE).
Proof.
  intros F Hb. pose proof (fit_end _ F). pose proof (fit_size _ F). change BEAMFS_BLOCK_SIZE with 4096 in *.
  rewrite off_t_small by lia. apply read_exact_fits; [done|lia..].
Qed.

Lemma end_u64 g : fits g -> u64 (g_data_start g + g_nblocks g) = g_data_start g + g_nblocks g.
Proof.
  intros F. pose proof (fit_end _ F). pose proof (fit_size _ F). pose proof (fit_start _ F). pose proof (fit_blocks _ F).
  change BEAMFS_BLOCK_SIZE with 4096 in *. apply Z.mod_small. lia.
Qed.

(** A read that shows something shows it filled in. *)
Definition filled (v : fsck_read_status * option (list Z)) : Prop := fst v <> FSCK_READ_UNCORRECTABLE -> snd v <> None.

Lemma inode_filled g ino : fits g -> 1 <= ino <= g_inode_count g -> filled (inode_view g ino).
Proof.
  intros F Hi. pose proof (fit_size _ F). pose proof (fit_table _ F). pose proof (fit_inodes _ F) as HI.
  unfold filled, inode_view, fsck_read_inode, fresh. cbn [rd_geo]. rewrite (fit_ipb _ F) in *.
  change (BEAMFS_BLOCK_SIZE / sizeof_inode) with 16 in *. change BEAMFS_BLOCK_SIZE with 4096 in *. change sizeof_inode with 256.
  destruct (Z.eqb_spec ino 0); [lia|]. destruct (Z.ltb_spec (g_inode_count g) ino); [lia|]. cbn [orb].
  assert ((ino - 1) / 16 <= (g_inode_count g - 1) / 16) by (apply Z.div_le_mono; lia).
  assert (0 <= (ino - 1) / 16) by (apply Z.div_pos; lia). pose proof (Z.mod_pos_bound (ino - 1) 16 ltac:(lia)).
  assert (E : u64 (g_inode_table_blk g + (ino - 1) / 16) = g_inode_table_blk g + (ino - 1) / 16)
    by (apply Z.mod_small; lia). rewrite E.
  rewrite off_t_small by lia. rewrite read_exact_fits by (done || lia).
  repeat case_match; cbn; intros; congruence.
Qed.

Lemma dir_filled g blk : fits g -> 0 < blk < g_data_start g + g_nblocks g -> filled (dir_view g blk).
Proof.
  intros F Hb. unfold filled, dir_view, fsck_read_dirblock, fsck_read_data, set_interleaved, fresh.
  cbn [rd_geo g_data_start g_nblocks g_fd g_interleaved]. rewrite (end_u64 _ F).
  destruct (Z.eqb_spec blk 0); [lia|]. destruct (Z.leb_spec (g_data_start g + g_nblocks g) blk); [lia|]. cbn [orb].
  rewrite block_read by (done || lia). unfold read_alternating. repeat case_match; cbn; intros; congruence.
Qed.

Lemma ind_filled g blk : fits g -> 0 < blk < g_data_start g + g_nblocks g -> filled (ind_view g blk).
Proof.
  intros F Hb. unfold filled, ind_view, fsck_read_indirect, fresh. cbn [rd_geo]. rewrite (end_u64 _ F).
  destruct (Z.eqb_spec blk 0); [lia|]. destruct (Z.leb_spec (g_data_start g + g_nblocks g) blk); [lia|]. cbn [orb].
  rewrite block_read by (done || lia).
  destruct (fsck_parity_slot _ _) as [[[rb off] stride]|]; [|done].
  destruct (read_exact _ _ _) as [par|]; [|done].
  destruct (ind_region_decode _ _) as [[flat|] r1]; [|done].
  unfold check_slot. repeat case_match; cbn; intros; congruence.
Qed.

(** Past the device nothing is filled in. *)
Lemma ind_unfilled g blk : fits g -> g_data_start g + g_nblocks g <= blk -> ind_view g blk = (FSCK_READ_IO, None).
Proof.
  intros F Hb. unfold ind_view, fsck_read_indirect, fresh. cbn [rd_geo]. rewrite (end_u64 _ F).
  destruct (Z.leb_spec (g_data_start g + g_nblocks g) blk); [|lia]. by rewrite orb_true_r.
Qed.

Lemma dir_unfilled g blk : fits g -> g_data_start g + g_nblocks g <= blk -> dir_view g blk = (FSCK_READ_IO, None).
Proof.
  intros F Hb. unfold dir_view, fsck_read_dirblock, fsck_read_data, set_interleaved, fresh.
  cbn [rd_geo g_data_start g_nblocks]. rewrite (end_u64 _ F).
  destruct (Z.leb_spec (g_data_start g + g_nblocks g) blk); [|lia]. by rewrite orb_true_r.
Qed.

(** ** Bytes *)

Lemma decode_bytes data len par n d p pos :
  rs_decode_subblock codec data len par = Decoded n d p pos -> bytes d /\ bytes p.
Proof.
  unfold rs_decode_subblock. destruct (_ || _); [done|]. destruct (rs_decode_internal _ _ _ _) as [|n' d' p' pos']; [done|].
  intros [= _ <- <- _]. split; apply Forall_forall; intros x (y & <- & _)%in_map_iff; apply land_255_byte.
Qed.

Lemma decode_all_ind {S} (step : S -> Z -> option S) (P : S -> Prop) s n s' :
  decode_all step s n = Some s' -> P s -> (forall s i s', P s -> step s i = Some s' -> P s') -> P s'.
Proof.
  unfold decode_all. intros E H Hs. revert s H E. induction (upto n) as [|i l IH]; intros s H E; cbn [foldl] in E.
  - by injection E as <-.
  - destruct (step s i) as [s1|] eqn:E1; [by apply (IH s1); [eapply Hs|]|].
    exfalso. clear -E. induction l as [|i l IH]; cbn in E; [done|]. by apply IH.
Qed.

Lemma get_le64_range b off : bytes b -> 0 <= get_le64 b off < 2 ^ 64.
Proof.
  intros B. unfold get_le64. pose proof (le_val_range (slice b off 8) (bytes_slice _ _ _ B)) as R.
  assert (zlen (slice b off 8) <= 8) by (unfold slice, zlen; rewrite length_take; lia).
  pose proof (Z.pow_le_mono_r 256 (zlen (slice b off 8)) 8 ltac:(lia) ltac:(lia)). lia.
Qed.

Lemma read_exact_bytes fd off len buf : bytes (dv_bytes fd) -> read_exact fd off len = Some buf -> bytes buf.
Proof. intros B. unfold read_exact. destruct (off <? 0); [done|]. destruct (dv_bad _ _ _); [done|]. destruct (_ <? _); [done|]. intros [= <-]. by apply bytes_slice. Qed.

(** What fsck_reader_open learns is a geometry. *)
Lemma open_geometry fd st rd :
  bytes (dv_bytes fd) -> fsck_reader_open true fd = (st, Some rd) ->
  0 <= g_data_start (rd_geo rd) /\ 0 < g_nblocks (rd_geo rd) /\
  g_data_start (rd_geo rd) + g_nblocks (rd_geo rd) < 2 ^ 64 /\ 1 <= g_inode_count (rd_geo rd) /\ g_fd (rd_geo rd) = fd.
Proof.
  intros B. unfold fsck_reader_open. cbn [negb].
  destruct (read_exact fd 0 BEAMFS_BLOCK_SIZE) as [sb|] eqn:R; [|done]. apply read_exact_bytes in R; [|done].
  destruct (decode_all _ _ _) as [[staging corrected]|] eqn:E; [|done].
  assert (Bs : bytes staging).
  { apply (decode_all_ind _ (fun s => bytes (fst s))) in E; [done| |].
    - cbn [fst]. unfold sb_staging. rewrite !bytes_app. split_and!; auto using bytes_slice, bytes_zeros.
    - intros [s1 c1] i [s2 c2] Hs E1. unfold sb_decode_step in E1.
      destruct (rs_decode_subblock _ _ _ _) as [|n d p pos] eqn:Ed; [done|]. injection E1 as <- <-. cbn [fst] in *.
      apply bytes_splice; [done|]. apply (decode_bytes _ _ _ _ _ _ _ Ed). }
  set (x := if 0 <? corrected then (sb_unstage staging sb, 1, FSCK_READ_CORRECTED) else (sb, 0, FSCK_READ_CLEAN)).
  assert (Bx : bytes (fst (fst x))).
  { unfold x. destruct (0 <? corrected); [|done]. cbn [fst]. unfold sb_unstage.
    apply bytes_splice; [apply bytes_splice; [done|]|]; by apply bytes_slice. }
  destruct x as [[sb' n] st']. cbn [fst] in Bx.
  destruct (_ || _ || _) eqn:Z0; [done|]. intros [= <- <-]. cbn [rd_geo].
  pose proof (get_le64_range sb' off_s_data_start_blk Bx) as R1. pose proof (get_le64_range sb' off_s_block_count Bx) as R2.
  pose proof (get_le64_range sb' off_s_inode_count Bx) as R3.
  unfold geometry_of in *. cbn [g_data_start g_nblocks g_inode_count g_fd g_inodes_per_block] in *.
  destruct (Z.ltb_spec (get_le64 sb' off_s_data_start_blk) (get_le64 sb' off_s_block_count)); split_and!; try done; lia.
Qed.
