(* ===== verification/FsckPass6.v ===== *)
(** * Pass 6 of fsck.beamfs (tools/fsck.beamfs/fsck_pass6.c)

    Block ownership, directory records, link counts and reachability, over
    the reader of FsckRead.  [None] is a run that uses bytes no read filled
    in: the source tests a read for FSCK_READ_UNCORRECTABLE only, and goes
    on after FSCK_READ_IO with whatever its local buffer holds. *)

From S2P Require Import Prelude Format Dirent FsckRead.

(** ** Results *)

(** The counters of struct fsck_pass6_result. *)
Inductive p6_counter :=
  | allocated_inodes | shared_blocks | bad_dirents | dangling_entries | duplicate_names
  | link_count_wrong | orphaned_inodes | size_ahead_of_blocks | unreadable_inodes
  | unreadable_indirect | unreadable_dirblocks | undescribed_indirect
  | beyond_reach_indirect | undescribed_empty | deep_directories.

#[export] Instance p6_counter_eq : EqDecision p6_counter.
Proof. solve_decision. Defined.

Record fsck_pass6_result := Result { root_bad : bool; counts : p6_counter -> Z }.

Definition FSCK_PASS6_OK : Z := 0.
Definition FSCK_PASS6_UNCORRECTED : Z := 1.
Definition FSCK_PASS6_ERROR : Z := 2.
Definition FSCK_PASS6_MAX_NAMES : Z := 4096.
Definition FSCK_IND_PTRS_COVERED : Z := BEAMFS_DATA_INLINE_BYTES / 8.
Definition ROOT_INO : Z := 1.
Definition S_FMT : Z := 61440.
Definition S_DIR : Z := 16384.
Definition S_REG : Z := 32768.
Definition S_LNK : Z := 40960.

(** struct p6; [p_names] is the static table of names, whose rows outlive
    a directory. *)
Record p6 := P6 {
  p_rd : fsck_reader;
  p_owner : list Z;
  p_seen_links : list Z;
  p_reachable : list Z;
  p_names : list (list Z);
  p_r : fsck_pass6_result }.

Definition p_nblocks (p : p6) : Z := g_nblocks (rd_geo (p_rd p)).
Definition p_ninodes (p : p6) : Z := g_inode_count (rd_geo (p_rd p)).

Definition set_rd (p : p6) (rd : fsck_reader) : p6 :=
  P6 rd (p_owner p) (p_seen_links p) (p_reachable p) (p_names p) (p_r p).
Definition set_owner (p : p6) (o : list Z) : p6 :=
  P6 (p_rd p) o (p_seen_links p) (p_reachable p) (p_names p) (p_r p).
Definition set_names (p : p6) (n : list (list Z)) : p6 :=
  P6 (p_rd p) (p_owner p) (p_seen_links p) (p_reachable p) n (p_r p).
Definition set_root_bad (p : p6) : p6 :=
  P6 (p_rd p) (p_owner p) (p_seen_links p) (p_reachable p) (p_names p) (Result true (counts (p_r p))).

(** [p->r.<c>++], an unsigned int. *)
Definition bump (p : p6) (c : p6_counter) : p6 :=
  P6 (p_rd p) (p_owner p) (p_seen_links p) (p_reachable p) (p_names p)
    (Result (root_bad (p_r p))
       (fun c' => if decide (c' = c) then u32 (counts (p_r p) c + 1) else counts (p_r p) c')).

(** [p->seen_links[ino]++; p->reachable[ino / 8] |= 1 << (ino % 8)] *)
Definition mark_named (p : p6) (ino : Z) : p6 :=
  P6 (p_rd p) (p_owner p)
    (setb (p_seen_links p) ino (u32 (getb (p_seen_links p) ino + 1)))
    (setb (p_reachable p) (ino / 8) (u8 (Z.lor (getb (p_reachable p) (ino / 8)) (Z.shiftl 1 (ino mod 8)))))
    (p_names p) (p_r p).

(** ** Fields of an inode *)

Definition i_mode (raw : list Z) : Z := get_le16 raw off_i_mode.
Definition i_nlink (raw : list Z) : Z := get_le16 raw off_i_nlink.
Definition i_size (raw : list Z) : Z := get_le64 raw off_i_size.
Definition i_direct (raw : list Z) (i : Z) : Z := get_le64 raw (off_i_direct + i * 8).
Definition i_indirect (raw : list Z) : Z := get_le64 raw off_i_indirect.
Definition i_dindirect (raw : list Z) : Z := get_le64 raw off_i_dindirect.
Definition i_tindirect (raw : list Z) : Z := get_le64 raw off_i_tindirect.
Definition i_fmt (raw : list Z) : Z := Z.land (i_mode raw) S_FMT.

(** A loop that a use of unfilled bytes leaves. *)
Fixpoint foldo {S A} (f : S -> A -> option S) (s : S) (l : list A) : option S :=
  match l with
  | [] => Some s
  | x :: l => match f s x with None => None | Some s => foldo f s l end
  end.

(** ** Who owns which block *)

Definition claim (p : p6) (phys ino : Z) : p6 :=
  let g := rd_geo (p_rd p) in
  if (phys <? g_data_start g) || (u64 (g_data_start g + p_nblocks p) <=? phys) then p
  else
    let idx := phys - g_data_start g in
    if negb (getb (p_owner p) idx =? 0) && negb (getb (p_owner p) idx =? ino)
    then bump p shared_blocks
    else set_owner p (setb (p_owner p) idx ino).

(** Pointers that are set, and those of them the parity slot covers. *)
Definition set_ptrs (ptrs : list Z) : Z := zlen (filter (fun x => x <> 0) ptrs).
Definition reach_ptrs (ptrs : list Z) : Z := set_ptrs (slice ptrs 0 FSCK_IND_PTRS_COVERED).

(** (blocks of the subtree, itself included). *)
Fixpoint claim_tree (level : nat) (p : p6) (blk ino : Z) : option (Z * p6) :=
  match level with
  | O => Some (0, p)
  | S below =>
    if blk =? 0 then Some (0, p)
    else
      let p := claim p blk ino in
      let '(ist, ptrs, rd) := fsck_read_indirect (p_rd p) blk in
      let p := set_rd p rd in
      if decide (ist = FSCK_READ_UNCORRECTABLE) then Some (1, bump p unreadable_indirect)
      else
        match ptrs with
        | None => None
        | Some ptrs =>
          let undescribed := bool_decide (ist = FSCK_READ_UNDESCRIBED) in
          if undescribed && (set_ptrs ptrs =? 0) then Some (1, bump p undescribed_empty)
          else
            let p := if undescribed then
                       bump p (if reach_ptrs ptrs =? 0 then beyond_reach_indirect else undescribed_indirect)
                     else p in
            foldo (fun '(n, p) b =>
              if b =? 0 then Some (n, p)
              else match below with
                   | O => Some (u64 (n + 1), claim p b ino)
                   | S _ => match claim_tree below p b ino with
                            | None => None
                            | Some (m, p) => Some (u64 (n + m), p)
                            end
                   end) (1, p) ptrs
        end
  end.

Definition count_blocks (p : p6) (raw : list Z) (ino : Z) : option (Z * p6) :=
  let '(n, p) :=
    foldl (fun '(n, p) i =>
      if i_direct raw i =? 0 then (n, p) else (n + 1, claim p (i_direct raw i) ino))
      (0, p) (upto BEAMFS_DIRECT_BLOCKS) in
  foldo (fun '(n, p) '(level, blk) =>
    match claim_tree level p blk ino with
    | None => None
    | Some (m, p) => Some (u64 (n + m), p)
    end) (n, p) [(1%nat, i_indirect raw); (2%nat, i_dindirect raw); (3%nat, i_tindirect raw)].

(** ** Directory records *)

(** [strncmp(a, b, n) == 0] *)
Fixpoint strneq (n : nat) (a b : list Z) : bool :=
  match n with
  | O => true
  | S n =>
    let x := getb a 0 in
    (x =? getb b 0) && ((x =? 0) || strneq n (drop 1 a) (drop 1 b))
  end.

Definition row (names : list (list Z)) (k : Z) : list Z := nth (Z.to_nat k) names (zeros (BEAMFS_MAX_FILENAME + 1)).

(** The first of the [nnames] rows that holds the name, or [nnames]. *)
Definition name_seen (names : list (list Z)) (nnames : Z) (name : list Z) : Z :=
  match list_find (fun k => strneq (length name) (row names k) name && (getb (row names k) (zlen name) =? 0) = true)
          (upto nnames) with
  | Some (_, k) => k
  | None => nnames
  end.

(** [memcpy(names[k], name, nl); names[k][nl] = '\0'] *)
Definition put_row (names : list (list Z)) (k : Z) (name : list Z) : list (list Z) :=
  take (Z.to_nat k) names ++ [splice (row names k) 0 (name ++ [0])] ++ drop (S (Z.to_nat k)) names.

(** The name of a record against the names so far: (nnames, p). *)
Definition note_name (p : p6) (nnames : Z) (name : list Z) : Z * p6 :=
  if FSCK_PASS6_MAX_NAMES <=? nnames then (nnames, p)
  else
    let k := name_seen (p_names p) nnames name in
    if k <? nnames then (nnames, bump p duplicate_names)
    else (nnames + 1, set_names p (put_row (p_names p) nnames name)).

(** What a record that can be stepped over is charged with. *)
Definition visit_record (p : p6) (flat : list Z) (off nnames : Z) : option (Z * p6) :=
  let ino := d_ino flat off in
  let rec := d_rec_len flat off in
  let nl := d_name_len flat off in
  if ino =? 0 then Some (nnames, p)
  else if p_ninodes p <? ino then Some (nnames, bump p bad_dirents)
  else if (nl =? 0) || (rec <? BEAMFS_DIRENT_HDR_LEN + nl) then Some (nnames, bump p bad_dirents)
  else
    let '(nnames, p) := note_name p nnames (d_name flat off) in
    let '(st, target, rd) := fsck_read_inode (p_rd p) ino in
    let p := set_rd p rd in
    if decide (st = FSCK_READ_UNCORRECTABLE) then Some (nnames, p)
    else
      match target with
      | None => None
      | Some target =>
        Some (nnames, if i_mode target =? 0 then bump p dangling_entries else mark_named p ino)
      end.

(** The walk from [off]; a record is at least sixteen bytes long, so that
    [rec_fuel] steps are enough for a block. *)
Definition rec_fuel : nat := 240.

Fixpoint walk_records (fuel : nat) (p : p6) (flat : list Z) (off nnames : Z) : option (Z * p6) :=
  match fuel with
  | O => None
  | S fuel =>
    if BEAMFS_DATA_INLINE_BYTES <? off + BEAMFS_DIRENT_HDR_LEN then Some (nnames, p)
    else
      let rec := d_rec_len flat off in
      if rec =? 0 then Some (nnames, p)
      else if (rec <? BEAMFS_DIRENT_MIN_LEN) || negb (Z.land rec (BEAMFS_DIRENT_ALIGN - 1) =? 0) ||
              (BEAMFS_DATA_INLINE_BYTES <? off + rec)
      then Some (nnames, bump p bad_dirents)
      else
        match visit_record p flat off nnames with
        | None => None
        | Some (nnames, p) => walk_records fuel p flat (off + rec) nnames
        end
  end.

Definition walk_dir_block (p : p6) (blk nnames : Z) : option (Z * p6) :=
  let '(st, flat, rd) := fsck_read_dirblock (p_rd p) blk in
  let p := set_rd p rd in
  if decide (st = FSCK_READ_UNCORRECTABLE) then Some (nnames, bump p unreadable_dirblocks)
  else
    match flat with
    | None => None
    | Some flat => walk_records rec_fuel p flat 0 nnames
    end.

Definition walk_blocks (st : Z * p6) (blks : list Z) : option (Z * p6) :=
  foldo (fun '(nnames, p) b => if b =? 0 then Some (nnames, p) else walk_dir_block p b nnames) st blks.

Definition walk_directory (p : p6) (raw : list Z) : option p6 :=
  match walk_blocks (0, p) (map (i_direct raw) (upto BEAMFS_DIRECT_BLOCKS)) with
  | None => None
  | Some (nnames, p) =>
    let walked :=
      if i_indirect raw =? 0 then Some (nnames, p)
      else
        let '(st, ptrs, rd) := fsck_read_indirect (p_rd p) (i_indirect raw) in
        let p := set_rd p rd in
        if decide (st = FSCK_READ_UNCORRECTABLE) then Some (nnames, p)
        else match ptrs with None => None | Some ptrs => walk_blocks (nnames, p) ptrs end in
    match walked with
    | None => None
    | Some (_, p) =>
      Some (if (i_dindirect raw =? 0) && (i_tindirect raw =? 0) then p else bump p deep_directories)
    end
  end.

(** ** The pass *)

Definition check_root (p : p6) : option p6 :=
  let '(st, raw, rd) := fsck_read_inode (p_rd p) ROOT_INO in
  let p := set_rd p rd in
  if decide (st = FSCK_READ_UNCORRECTABLE) then Some (set_root_bad p)
  else
    match raw with
    | None => None
    | Some raw =>
      Some (if i_mode raw =? 0 then set_root_bad p
            else if negb (i_fmt raw =? S_DIR) then set_root_bad p
            else mark_named p ROOT_INO)
    end.

(** Bytes a block holds for this inode. *)
Definition per_block (g : geometry) (raw : list Z) : Z :=
  if g_interleaved g && negb (i_fmt raw =? S_DIR) then BEAMFS_CAPSULE_DATA_BYTES else BEAMFS_DATA_INLINE_BYTES.

(** One inode of the first loop. *)
Definition check_inode (p : p6) (ino : Z) : option p6 :=
  let '(st, raw, rd) := fsck_read_inode (p_rd p) ino in
  let p := set_rd p rd in
  if decide (st = FSCK_READ_UNCORRECTABLE) then Some (bump p unreadable_inodes)
  else
    match raw with
    | None => None
    | Some raw =>
      if i_mode raw =? 0 then Some p
      else
        let p := bump p allocated_inodes in
        if negb (i_fmt raw =? S_REG) && negb (i_fmt raw =? S_DIR) then Some p
        else
          match count_blocks p raw ino with
          | None => None
          | Some (owned, p) =>
            let per := per_block (rd_geo (p_rd p)) raw in
            let need := u64 (i_size raw + per - 1) / per in
            let p := if negb (i_fmt raw =? S_LNK) && (owned <? need) then bump p size_ahead_of_blocks else p in
            if i_fmt raw =? S_DIR then walk_directory p raw else Some p
          end
    end.

Definition reach_bit (p : p6) (ino : Z) : bool :=
  negb (Z.land (getb (p_reachable p) (ino / 8)) (Z.shiftl 1 (ino mod 8)) =? 0).

(** One inode of the second loop. *)
Definition check_links (p : p6) (ino : Z) : option p6 :=
  let '(st, raw, rd) := fsck_read_inode (p_rd p) ino in
  let p := set_rd p rd in
  if decide (st = FSCK_READ_UNCORRECTABLE) then Some p
  else
    match raw with
    | None => None
    | Some raw =>
      Some (if i_mode raw =? 0 then p
            else if negb (beamfs_ino_is_reserved ino) && negb (reach_bit p ino) then bump p orphaned_inodes
            else if beamfs_ino_is_reserved ino && negb (ino =? ROOT_INO) then p
            else if negb (i_fmt raw =? S_DIR) && negb (i_nlink raw =? getb (p_seen_links p) ino)
            then bump p link_count_wrong
            else p)
    end.

Definition pass6_init (rd : fsck_reader) : p6 :=
  P6 rd (zeros (g_nblocks (rd_geo rd))) (zeros (g_inode_count (rd_geo rd) + 1))
    (zeros ((g_inode_count (rd_geo rd) + 8) / 8)) [] (Result false (fun _ => 0)).

(** The counters that make the verdict. *)
Definition p6_damage : list p6_counter :=
  [shared_blocks; bad_dirents; dangling_entries; duplicate_names; link_count_wrong; orphaned_inodes;
   undescribed_indirect].

Definition verdict (r : fsck_pass6_result) : Z :=
  if root_bad r || existsb (fun c => negb (counts r c =? 0)) p6_damage
  then FSCK_PASS6_UNCORRECTED else FSCK_PASS6_OK.

(** [mem]: the three allocations succeeded. *)
Definition fsck_pass6 (mem : bool) (rd : fsck_reader) : option (Z * option fsck_pass6_result) :=
  if negb mem then Some (FSCK_PASS6_ERROR, None)
  else
    let inos := seqZ 1 (g_inode_count (rd_geo rd)) in
    match check_root (pass6_init rd) with
    | None => None
    | Some p =>
      match foldo check_inode p inos with
      | None => None
      | Some p =>
        match foldo check_links p inos with
        | None => None
        | Some p => Some (verdict (p_r p), Some (p_r p))
        end
      end
    end.
