(* ===== verification/FsckEffect.v ===== *)
(** * Pass 6 as a list of effects

    What a walk of pass 6 does to its state, apart from the counters of the
    reader and the names of the directory at hand: the blocks it claims,
    the inodes it finds named, what it counts.  The effects of a walk are
    read off the volume; the walk performs them or, when the volume names a
    block no read can fill in, goes wrong. *)

From S2P Require Import Prelude Format Dirent FsckRead FsckPass6.

(** ** Effects *)

Record effect := Eff { e_claims : list (Z * Z); e_named : list Z; e_tally : p6_counter -> Z }.

Definition eff0 : effect := Eff [] [] (fun _ => 0).
Definition eff_app (e f : effect) : effect :=
  Eff (e_claims e ++ e_claims f) (e_named e ++ e_named f) (fun c => e_tally e c + e_tally f c).
Definition eff_claim (b ino : Z) : effect := Eff [(b, ino)] [] (fun _ => 0).
Definition eff_count (c : p6_counter) (n : Z) : effect := Eff [] [] (fun c' => if decide (c' = c) then n else 0).
Definition eff_name (ino : Z) : effect := Eff [] [ino] (fun _ => 0).

Definition oapp (e f : option effect) : option effect :=
  match e, f with Some e, Some f => Some (eff_app e f) | _, _ => None end.
Definition oconcat (l : list (option effect)) : option effect := foldr oapp (Some eff0) l.

(** ** Performing them *)

Definition in_region (g : geometry) (b : Z) : Prop := g_data_start g <= b < g_data_start g + g_nblocks g.
#[export] Instance in_region_dec g b : Decision (in_region g b) := _.

(** One claim on the owner table; the second number counts refusals. *)
Definition claim1 (g : geometry) (st : list Z * Z) (c : Z * Z) : list Z * Z :=
  if decide (in_region g (fst c)) then
    let idx := fst c - g_data_start g in
    if decide (getb (fst st) idx <> 0 /\ getb (fst st) idx <> snd c) then (fst st, snd st + 1)
    else (setb (fst st) idx (snd c), snd st)
  else st.

Definition link1 (l : list Z) (ino : Z) : list Z := setb l ino (u32 (getb l ino + 1)).
Definition reach1 (l : list Z) (ino : Z) : list Z :=
  setb l (ino / 8) (u8 (Z.lor (getb l (ino / 8)) (Z.shiftl 1 (ino mod 8)))).

Record runs (p : p6) (e : effect) (p' : p6) : Prop := {
  run_geo : rd_geo (p_rd p') = rd_geo (p_rd p);
  run_owner : p_owner p' = fst (foldl (claim1 (rd_geo (p_rd p))) (p_owner p, 0) (e_claims e));
  run_shared : u32 (counts (p_r p') shared_blocks) =
    u32 (counts (p_r p) shared_blocks + snd (foldl (claim1 (rd_geo (p_rd p))) (p_owner p, 0) (e_claims e)));
  run_links : p_seen_links p' = foldl link1 (p_seen_links p) (e_named e);
  run_reach : p_reachable p' = foldl reach1 (p_reachable p) (e_named e);
  run_counts : forall c, c <> shared_blocks ->
    u32 (counts (p_r p') c) = u32 (counts (p_r p) c + e_tally e c);
  run_range : (forall c, 0 <= counts (p_r p) c < 2 ^ 32) -> forall c, 0 <= counts (p_r p') c < 2 ^ 32;
  run_root : root_bad (p_r p') = root_bad (p_r p) }.

Lemma u32_cong a b x : u32 a = u32 b -> u32 (a + x) = u32 (b + x).
Proof. intros H. by rewrite <- (u32_add_l a), H, u32_add_l. Qed.

Lemma u32_idem a : u32 (u32 a) = u32 a.
Proof. unfold u32. by rewrite Zmod_mod. Qed.

Lemma claims_shift g l o n :
  foldl (claim1 g) (o, n) l = (fst (foldl (claim1 g) (o, 0) l), n + snd (foldl (claim1 g) (o, 0) l)).
Proof.
  revert o n. induction l as [|c l IH]; intros o n; cbn [foldl fst snd]; [f_equal; lia|].
  unfold claim1 at 2 4 6. cbn [fst snd]. repeat case_decide; try apply IH.
  rewrite IH, (IH _ (0 + 1)). cbn [fst snd]. f_equal. lia.
Qed.

Lemma runs_refl p : runs p eff0 p.
Proof.
  split; cbn; try done. by rewrite Z.add_0_r. intros. by rewrite Z.add_0_r.
Qed.

Lemma runs_app p e p' f p'' : runs p e p' -> runs p' f p'' -> runs p (eff_app e f) p''.
Proof.
  intros R1 R2. destruct R1 as [G1 O1 S1 L1 H1 C1 N1 T1], R2 as [G2 O2 S2 L2 H2 C2 N2 T2].
  rewrite G1 in O2, S2.
  split; cbn [eff_app e_claims e_named e_tally]; rewrite ?foldl_app.
  - congruence.
  - rewrite (surjective_pairing (foldl _ (p_owner p, 0) _)), claims_shift. cbn [fst]. by rewrite O2, O1.
  - rewrite (surjective_pairing (foldl _ (p_owner p, 0) _)), claims_shift. cbn [snd]. rewrite S2, <- O1, Z.add_assoc.
    by apply u32_cong.
  - by rewrite L2, L1.
  - by rewrite H2, H1.
  - intros c Hc. rewrite C2, Z.add_assoc by done. apply u32_cong. by apply C1.
  - auto.
  - congruence.
Qed.

Lemma runs_rd p rd : rd_geo rd = rd_geo (p_rd p) -> runs p eff0 (set_rd p rd).
Proof. intros E. destruct (runs_refl p). split; cbn; try done. Qed.

Lemma runs_names p n : runs p eff0 (set_names p n).
Proof. destruct (runs_refl p). split; cbn; try done. Qed.

Lemma bump_range p c : (forall c, 0 <= counts (p_r p) c < 2 ^ 32) -> forall c', 0 <= counts (p_r (bump p c)) c' < 2 ^ 32.
Proof. intros H c'. cbn. case_decide; [apply Z.mod_pos_bound; lia|apply H]. Qed.

Lemma runs_bump p c : c <> shared_blocks -> runs p (eff_count c 1) (bump p c).
Proof.
  intros Hc. split; cbn [eff_count e_claims e_named e_tally foldl fst snd]; try done.
  - cbn. rewrite decide_False by congruence. by rewrite Z.add_0_r.
  - intros c' Hc'. cbn. case_decide; subst; [apply u32_idem|by rewrite Z.add_0_r].
  - apply bump_range.
Qed.

Lemma runs_named p ino : runs p (eff_name ino) (mark_named p ino).
Proof. destruct (runs_refl p). split; cbn; try done. Qed.

(** ** Geometry the pass relies on *)

Record geo_ok (g : geometry) : Prop := {
  geo_start : 0 <= g_data_start g;
  geo_blocks : 0 <= g_nblocks g;
  geo_end : g_data_start g + g_nblocks g < 2 ^ 64 }.

Lemma runs_claim p b ino : geo_ok (rd_geo (p_rd p)) -> runs p (eff_claim b ino) (claim p b ino).
Proof.
  intros [G1 G2 G3]. unfold claim, p_nblocks. unfold u64. rewrite (Z.mod_small (_ + _)) by lia.
  set (g := rd_geo (p_rd p)) in *.
  destruct (decide (in_region g b)) as [I|I]; unfold in_region in I.
  - destruct (Z.ltb_spec b (g_data_start g)); [lia|]. destruct (Z.leb_spec (g_data_start g + g_nblocks g) b); [lia|]. cbn [orb].
    destruct (negb (getb (p_owner p) (b - g_data_start g) =? 0) && negb (getb (p_owner p) (b - g_data_start g) =? ino)) eqn:E.
    + assert (K : foldl (claim1 g) (p_owner p, 0) [(b, ino)] = (p_owner p, 1)).
      { cbn [foldl]. unfold claim1. cbn [fst snd]. rewrite decide_True by done. rewrite decide_True; [done|]. lia. }
      split; cbn [eff_claim e_claims e_named e_tally]; fold g; rewrite ?K; try done.
      * cbn. apply u32_idem.
      * intros c Hc. cbn. rewrite decide_False by done. by rewrite Z.add_0_r.
      * apply bump_range.
    + assert (K : foldl (claim1 g) (p_owner p, 0) [(b, ino)] = (setb (p_owner p) (b - g_data_start g) ino, 0)).
      { cbn [foldl]. unfold claim1. cbn [fst snd]. rewrite decide_True by done. rewrite decide_False; [done|]. lia. }
      split; cbn [eff_claim e_claims e_named e_tally]; fold g; rewrite ?K; try done; cbn; intros; by rewrite ?Z.add_0_r.
  - assert (K : foldl (claim1 g) (p_owner p, 0) [(b, ino)] = (p_owner p, 0)).
    { cbn [foldl]. unfold claim1. cbn [fst snd]. by rewrite decide_False by done. }
    assert ((b <? g_data_start g) || (g_data_start g + g_nblocks g <=? b) = true) as -> by lia.
    split; cbn [eff_claim e_claims e_named e_tally]; fold g; rewrite ?K; try done; cbn; intros; by rewrite ?Z.add_0_r.
Qed.

(** ** Composition *)

(** The walk [m] from [p] gives [x] and performs [oe], or goes wrong. *)
Definition does {X} (p : p6) (m : option (X * p6)) (x : effect -> X) (oe : option effect) : Prop :=
  match oe with
  | None => m = None
  | Some e => exists p', m = Some (x e, p') /\ runs p e p'
  end.

Lemma does_after {X} p e0 p1 (m : option (X * p6)) (x y : effect -> X) oe :
  runs p e0 p1 -> (forall e, y (eff_app e0 e) = x e) -> does p1 m x oe -> does p m y (oapp (Some e0) oe).
Proof.
  intros R E D. destruct oe as [e|]; cbn in *; [|done]. destruct D as (p' & -> & R').
  exists p'. rewrite E. split; [done|]. by eapply runs_app.
Qed.

Definition zcl (e : effect) : Z := zlen (e_claims e).

Lemma zcl_app e f : zcl (eff_app e f) = zcl e + zcl f.
Proof. unfold zcl. cbn. apply zlen_app. Qed.

Lemma u64_add_r a b : u64 (a + u64 b) = u64 (a + b).
Proof. unfold u64. by rewrite Zplus_mod_idemp_r. Qed.

Lemma u64_add_l a b : u64 (u64 a + b) = u64 (a + b).
Proof. unfold u64. by rewrite Zplus_mod_idemp_l. Qed.

(** A loop that adds up block counts. *)
Lemma does_fold {A} (f : Z * p6 -> A -> option (Z * p6)) (ef : A -> option effect) (g : geometry) (l : list A) n p :
  (forall n p a, rd_geo (p_rd p) = g -> u64 n = n -> does p (f (n, p) a) (fun e => u64 (n + zcl e)) (ef a)) ->
  rd_geo (p_rd p) = g -> u64 n = n ->
  does p (foldo f (n, p) l) (fun e => u64 (n + zcl e)) (oconcat (map ef l)).
Proof.
  intros Hf. revert n p. induction l as [|a l IH]; intros n p Hg Hn; cbn [foldo map oconcat foldr].
  - exists p. split; [|apply runs_refl]. cbn. by rewrite Z.add_0_r, Hn.
  - specialize (Hf n p a Hg Hn). destruct (ef a) as [e|]; cbn [does] in Hf.
    + destruct Hf as (p1 & -> & R).
      eapply does_after; [exact R| |apply IH; [by rewrite (run_geo _ _ _ R)|unfold u64; by rewrite Zmod_mod]].
      intros e'. cbn beta. rewrite zcl_app, u64_add_l. f_equal. lia.
    + rewrite Hf. done.
Qed.

(** ** Trees *)

(** The note an indirect block's parity slot earns. *)
Definition ind_note (ist : fsck_read_status) (ptrs : list Z) : effect :=
  if decide (ist = FSCK_READ_UNDESCRIBED) then
    eff_count (if set_ptrs ptrs =? 0 then undescribed_empty
               else if reach_ptrs ptrs =? 0 then beyond_reach_indirect else undescribed_indirect) 1
  else eff0.

Fixpoint tree_eff (g : geometry) (level : nat) (blk ino : Z) : option effect :=
  match level with
  | O => Some eff0
  | S below =>
    if blk =? 0 then Some eff0
    else
      let '(ist, ptrs) := ind_view g blk in
      if decide (ist = FSCK_READ_UNCORRECTABLE)
      then Some (eff_app (eff_claim blk ino) (eff_count unreadable_indirect 1))
      else
        match ptrs with
        | None => None
        | Some ptrs =>
          oapp (Some (eff_app (eff_claim blk ino) (ind_note ist ptrs)))
            (oconcat (map (fun b =>
              if b =? 0 then Some eff0
              else match below with O => Some (eff_claim b ino) | S _ => tree_eff g below b ino end) ptrs))
        end
  end.

(** One pointer of a block whose subtrees have [below] levels. *)
Definition ptr_eff (g : geometry) (below : nat) (ino b : Z) : option effect :=
  if b =? 0 then Some eff0
  else match below with O => Some (eff_claim b ino) | S _ => tree_eff g below b ino end.

Lemma set_ptrs_0 ptrs : set_ptrs ptrs = 0 -> Forall (fun x => x = 0) ptrs.
Proof.
  unfold set_ptrs, zlen. induction ptrs as [|x l IH]; intros H; [constructor|].
  destruct (decide (x = 0)) as [->|N].
  - constructor; [done|]. apply IH. by rewrite filter_cons_False in H by lia.
  - rewrite filter_cons_True in H by done. cbn in H. lia.
Qed.

Lemma oconcat_zeros (f : Z -> option effect) ptrs p :
  Forall (fun x => x = 0) ptrs -> f 0 = Some eff0 ->
  exists e, oconcat (map f ptrs) = Some e /\ zcl e = 0 /\ runs p e p.
Proof.
  intros H E. induction H as [|x l -> H IH]; [exists eff0; split_and!; [done|done|apply runs_refl]|].
  destruct IH as (e & E2 & Z2 & R). exists (eff_app eff0 e). cbn [map oconcat foldr]. rewrite E.
  fold (oconcat (map f l)). rewrite E2. split_and!; [done|by rewrite zcl_app|].
  eapply runs_app; [apply runs_refl|done].
Qed.

Lemma oapp_assoc_does {X} p m (x : effect -> X) e f oe :
  (forall a b c, x (eff_app (eff_app a b) c) = x (eff_app a (eff_app b c))) ->
  does p m x (oapp (Some e) (oapp (Some f) oe)) -> does p m x (oapp (Some (eff_app e f)) oe).
Proof.
  intros Hx. destruct oe as [o|]; cbn; [|done]. intros (p' & -> & R). exists p'. rewrite Hx. split; [done|].
  destruct R as [? O S L H C ? ?]. split; cbn in *; rewrite <- ?app_assoc; try done.
  intros c Hc. rewrite C by done. f_equal. lia.
Qed.

Lemma runs_same_geo g p e p' : runs p e p' -> rd_geo (p_rd p) = g -> rd_geo (p_rd p') = g.
Proof. intros R <-. apply R. Qed.

(** An effect that is only regrouped. *)
Lemma runs_equiv p e f p' :
  runs p e p' -> e_claims e = e_claims f -> e_named e = e_named f -> (forall c, e_tally e c = e_tally f c) -> runs p f p'.
Proof.
  intros [? O S L H C ? ?] E1 E2 E3. rewrite E1 in O, S. rewrite E2 in L, H. split; try done.
  intros c Hc. rewrite C by done. by rewrite E3.
Qed.

Lemma tree_does g level p blk ino :
  geo_ok g -> rd_geo (p_rd p) = g ->
  does p (claim_tree level p blk ino) (fun e => u64 (zcl e)) (tree_eff g level blk ino).
Proof.
  intros G. revert p blk. induction level as [|below IH]; intros p blk Hp.
  { exists p. split; [done|apply runs_refl]. }
  assert (Step : forall n q b, rd_geo (p_rd q) = g -> u64 n = n ->
    does q (if b =? 0 then Some (n, q)
            else match below with
                 | O => Some (u64 (n + 1), claim q b ino)
                 | S _ => match claim_tree below q b ino with
                          | None => None | Some (m, q) => Some (u64 (n + m), q) end
                 end) (fun e => u64 (n + zcl e)) (ptr_eff g below ino b)).
  { intros n q b Hg Hn. unfold ptr_eff.
    destruct (b =? 0); [exists q; split; [cbn; by rewrite Z.add_0_r, Hn|apply runs_refl]|]. destruct below as [|k].
    - eexists. split; [reflexivity|]. apply runs_claim. by rewrite Hg.
    - specialize (IH q b Hg). destruct (tree_eff _ _ b ino) as [e|]; cbn [does] in IH.
      + destruct IH as (q' & -> & R). exists q'. by rewrite u64_add_r.
      + rewrite IH. done. }
  cbn [claim_tree tree_eff]. destruct (blk =? 0); [exists p; split; [done|apply runs_refl]|].
  pose proof (runs_claim p blk ino ltac:(by rewrite Hp)) as Rc. set (p1 := claim p blk ino) in *.
  destruct (ind_shows (p_rd p1) blk) as (rd & E & Gr). rewrite E, (run_geo _ _ _ Rc), Hp.
  destruct (ind_view g blk) as [ist optrs].
  pose proof (runs_equiv _ _ (eff_claim blk ino) _ (runs_app _ _ _ _ _ Rc (runs_rd p1 rd Gr)) eq_refl eq_refl
    ltac:(intros; reflexivity)) as R2. set (p2 := set_rd p1 rd) in *.
  pose proof (runs_same_geo _ _ _ _ R2 Hp) as G2.
  case_decide as Hu.
  { eexists. split; [|eapply runs_app; [exact R2|by apply runs_bump]]. done. }
  destruct optrs as [ptrs|]; [|done]. fold (ptr_eff g below ino).
  apply oapp_assoc_does; [intros a b c; by rewrite !zcl_app, Z.add_assoc|].
  eapply (does_after p _ p2 _ (fun e => u64 (1 + zcl e))); [exact R2|intros e; by rewrite zcl_app|].
  unfold ind_note. destruct (decide (ist = FSCK_READ_UNDESCRIBED)) as [->|Hd].
  - rewrite bool_decide_true by done. cbn [andb]. destruct (set_ptrs ptrs =? 0) eqn:Z0.
    + apply Z.eqb_eq, set_ptrs_0 in Z0.
      destruct (oconcat_zeros (ptr_eff g below ino) ptrs (bump p2 undescribed_empty) Z0 eq_refl) as (e & -> & Ze & R).
      cbn [oapp does]. eexists. split; [rewrite zcl_app, Ze; reflexivity|]. eapply runs_app; [|exact R]. by apply runs_bump.
    + set (c := if reach_ptrs ptrs =? 0 then beyond_reach_indirect else undescribed_indirect).
      assert (Hc : c <> shared_blocks) by (subst c; by destruct (reach_ptrs ptrs =? 0)).
      pose proof (runs_bump p2 c Hc) as R3.
      eapply (does_after p2 _ _ _ (fun e => u64 (1 + zcl e))); [exact R3|intros e; by rewrite zcl_app|].
      apply (does_fold _ _ g); [exact Step|done|done].
  - rewrite bool_decide_false by done. cbn [andb].
    eapply (does_after p2 _ p2 _ (fun e => u64 (1 + zcl e))); [apply runs_refl|intros e; by rewrite zcl_app|].
    apply (does_fold _ _ g); [exact Step|done|done].
Qed.
