(* ===== verification/FsckWalk.v ===== *)
(** * The directories and the inodes of pass 6

    The effects of walking a directory and of checking an inode, and that
    the pass performs them; a name met twice in a directory is counted. *)

From S2P Require Import Prelude Format Dirent DirentTheorems DirRecords FsckRead FsckPass6 FsckEffect.

(** ** The blocks of an inode *)

Definition direct_eff (raw : list Z) (ino i : Z) : option effect :=
  if i_direct raw i =? 0 then Some eff0 else Some (eff_claim (i_direct raw i) ino).

Definition count_eff (g : geometry) (raw : list Z) (ino : Z) : option effect :=
  oapp (oconcat (map (direct_eff raw ino) (upto BEAMFS_DIRECT_BLOCKS)))
    (oconcat (map (fun '(level, blk) => tree_eff g level blk ino)
       [(1%nat, i_indirect raw); (2%nat, i_dindirect raw); (3%nat, i_tindirect raw)])).

Lemma direct_does g raw ino l n p :
  geo_ok g -> rd_geo (p_rd p) = g ->
  exists e p', oconcat (map (direct_eff raw ino) l) = Some e /\ runs p e p' /\
    foldl (fun '(n, p) i => if i_direct raw i =? 0 then (n, p) else (n + 1, claim p (i_direct raw i) ino)) (n, p) l
      = (n + zcl e, p') /\ zcl e <= zlen l.
Proof.
  intros G. revert n p. induction l as [|i l IH]; intros n p Hp.
  { exists eff0, p. split_and!; [done|apply runs_refl|cbn; by rewrite Z.add_0_r|done]. }
  cbn [map oconcat foldr foldl]. fold (oconcat (map (direct_eff raw ino) l)). unfold direct_eff at 1.
  rewrite zlen_cons. destruct (i_direct raw i =? 0).
  - destruct (IH n p Hp) as (e & p' & -> & R & -> & B). exists (eff_app eff0 e), p'.
    split_and!; [done|by eapply runs_app; [apply runs_refl|]|by rewrite zcl_app|rewrite zcl_app; change (zcl eff0) with 0; lia].
  - pose proof (runs_claim p (i_direct raw i) ino ltac:(by rewrite Hp)) as Rc.
    destruct (IH (n + 1) _ (runs_same_geo _ _ _ _ Rc Hp)) as (e & p' & -> & R & -> & B).
    exists (eff_app (eff_claim (i_direct raw i) ino) e), p'. rewrite zcl_app. change (zcl (eff_claim _ _)) with 1.
    split_and!; [done|by eapply runs_app|f_equal; lia|lia].
Qed.

Lemma count_does g p raw ino :
  geo_ok g -> rd_geo (p_rd p) = g ->
  does p (count_blocks p raw ino) (fun e => u64 (zcl e)) (count_eff g raw ino).
Proof.
  intros G Hp. unfold count_blocks, count_eff.
  destruct (direct_does g raw ino (upto BEAMFS_DIRECT_BLOCKS) 0 p G Hp) as (e & p' & -> & R & -> & B).
  rewrite zlen_upto in B by done. change BEAMFS_DIRECT_BLOCKS with 12 in B.
  assert (0 <= zcl e) by apply zlen_nonneg. cbn [Z.add].
  apply (does_after p e p' _ (fun f => u64 (zcl e + zcl f))); [done|intros f; by rewrite zcl_app|].
  apply (does_fold _ _ g); [|by eapply runs_same_geo|apply Z.mod_small; lia].
  intros n q [level blk] Hq Hn. pose proof (tree_does g level q blk ino G Hq) as T.
  destruct (tree_eff g level blk ino) as [f|]; cbn [does] in *.
  - destruct T as (q' & -> & R'). exists q'. by rewrite u64_add_r.
  - by rewrite T.
Qed.

(** ** Names of a directory *)

Definition max_names : nat := Z.to_nat FSCK_PASS6_MAX_NAMES.

(** The first [nn] rows hold the names [D], each with its terminator. *)
Record names_hold (names : list (list Z)) (nn : Z) (D : list (list Z)) : Prop := {
  hold_len : zlen D = nn;
  hold_max : (length D <= max_names)%nat;
  hold_rows : (length D <= length names)%nat;
  hold_row : forall k name, D !! k = Some name ->
    take (length name + 1) (nth k names (zeros (BEAMFS_MAX_FILENAME + 1))) = name ++ [0] }.

Lemma strneq_prefix name r : take (length name) r = name -> strneq (length name) r name = true.
Proof.
  revert r. induction name as [|x name IH]; intros r H; [done|]. destruct r as [|y r]; [done|].
  cbn [length take] in H. injection H as -> H. cbn [length strneq]. change (getb (x :: r) 0) with x. change (getb (x :: name) 0) with x.
  rewrite Z.eqb_refl. cbn [drop andb]. by rewrite IH, orb_true_r.
Qed.

Lemma row_found r name :
  take (length name + 1) r = name ++ [0] -> strneq (length name) r name && (getb r (zlen name) =? 0) = true.
Proof.
  intros H. rewrite strneq_prefix.
  - cbn [andb]. apply Z.eqb_eq. unfold getb, zlen. rewrite Nat2Z.id.
    rewrite <- (nth_take_lt r (length name + 1)), H, app_nth2 by lia. by rewrite Nat.sub_diag.
  - apply (f_equal (take (length name))) in H. rewrite take_take, take_app_length in H. by rewrite Nat.min_l in H by lia.
Qed.

(** A name the table holds is found. *)
Lemma name_seen_spec names nn D name :
  names_hold names nn D -> (name ∈ D -> name_seen names nn name < nn) /\ 0 <= name_seen names nn name <= nn.
Proof.
  intros H. pose proof (hold_len _ _ _ H) as L. pose proof (zlen_nonneg D). unfold name_seen.
  destruct (list_find _ _) as [[i k]|] eqn:E.
  - apply list_find_Some in E as (E & _ & _). unfold upto in E. apply lookup_seqZ in E. lia.
  - split; [|lia]. intros (k & Hk)%list_elem_of_lookup. exfalso.
    apply list_find_None in E. rewrite Forall_forall in E.
    pose proof (lookup_lt_Some _ _ _ Hk). apply (E (Z.of_nat k)).
    + apply list_elem_of_In, elem_of_upto. unfold zlen in L. lia.
    + unfold row. rewrite Nat2Z.id. apply row_found. by apply (hold_row _ _ _ H).
Qed.

Lemma names_hold_snoc names nn D name :
  names_hold names nn D -> nn < FSCK_PASS6_MAX_NAMES -> names_hold (put_row names nn name) (nn + 1) (D ++ [name]).
Proof.
  intros [L M R W] Hn. unfold zlen in L.
  assert (En : Z.to_nat nn = length D) by lia. split.
  - rewrite zlen_app. unfold zlen. cbn. lia.
  - rewrite length_app. cbn. unfold max_names. lia.
  - unfold put_row. rewrite !length_app, length_take, length_drop, En. cbn. lia.
  - intros k x Hk. unfold put_row. rewrite En. apply lookup_app_Some in Hk as [Hk|[Hk1 Hk2]].
    + pose proof (lookup_lt_Some _ _ _ Hk). rewrite app_nth1 by (rewrite length_take; lia).
      rewrite !nth_lookup, lookup_take_lt by lia. rewrite <- nth_lookup. by apply W.
    + apply list_lookup_singleton_Some in Hk2 as [Hk2 ->]. assert (k = length D) as -> by lia.
      rewrite app_nth2 by (rewrite length_take; lia). rewrite length_take, Nat.min_l, Nat.sub_diag by lia.
      cbn [nth app]. unfold splice. change (Z.to_nat 0) with 0%nat. rewrite take_0. cbn [app].
      apply take_app_length'. rewrite length_app. done.
Qed.

(** Walking records with the names [ns] from [nn] names: the repeated ones
    are counted in [k], and [k] = 0 puts all of them in the table. *)
Definition names_go (p : p6) (nn : Z) (ns : list (list Z)) (k : Z) (p' : p6) (nn' : Z) : Prop :=
  0 <= k <= zlen ns /\
  forall D, names_hold (p_names p) nn D ->
    exists D', names_hold (p_names p') nn' D' /\
      (k = 0 -> D' = take max_names (D ++ ns) /\ (NoDup D -> NoDup D')).

Definition walks (p : p6) (nn : Z) (m : option (Z * p6)) (ns : list (list Z)) (oe : option effect) : Prop :=
  match oe with
  | None => m = None
  | Some e => exists nn' p' k, m = Some (nn', p') /\ runs p (eff_app (eff_count duplicate_names k) e) p' /\
                names_go p nn ns k p' nn'
  end.

Lemma names_go_none p nn p' : p_names p' = p_names p -> names_go p nn [] 0 p' nn.
Proof.
  intros E. split; [done|]. intros D H. exists D. rewrite E. split; [done|]. intros _. rewrite app_nil_r, take_ge by apply H. done.
Qed.

Lemma names_go_app p nn ns k p1 nn1 ns2 k2 p2 nn2 :
  names_go p nn ns k p1 nn1 -> names_go p1 nn1 ns2 k2 p2 nn2 -> names_go p nn (ns ++ ns2) (k + k2) p2 nn2.
Proof.
  intros [B1 H1] [B2 H2]. split; [rewrite zlen_app; lia|]. intros D HD.
  destruct (H1 D HD) as (D1 & HD1 & K1). destruct (H2 D1 HD1) as (D2 & HD2 & K2).
  exists D2. split; [done|]. intros Hk. destruct K1 as [E1 N1]; [lia|]. destruct K2 as [E2 N2]; [lia|].
  split; [|auto]. rewrite E2, E1. rewrite (assoc_L (++)). set (l := D ++ ns).
  destruct (Nat.le_gt_cases (length l) max_names) as [Hl|Hl].
  - by rewrite (take_ge l) by done.
  - rewrite take_app_le by (rewrite length_take; lia). rewrite take_take, Nat.min_id. by rewrite take_app_le by lia.
Qed.

Lemma dup_split k k2 e f p p1 p2 :
  runs p (eff_app (eff_count duplicate_names k) e) p1 -> runs p1 (eff_app (eff_count duplicate_names k2) f) p2 ->
  runs p (eff_app (eff_count duplicate_names (k + k2)) (eff_app e f)) p2.
Proof.
  intros R1 R2. eapply runs_equiv; [exact (runs_app _ _ _ _ _ R1 R2)|done|done|].
  intros c. cbn. case_decide; lia.
Qed.

Lemma walks_then p nn m ns oe (K : Z * p6 -> option (Z * p6)) ns2 oe2 g :
  rd_geo (p_rd p) = g -> walks p nn m ns oe ->
  (forall nn1 p1, rd_geo (p_rd p1) = g -> walks p1 nn1 (K (nn1, p1)) ns2 oe2) ->
  walks p nn (match m with None => None | Some s => K s end) (ns ++ ns2) (oapp oe oe2).
Proof.
  intros Hg W HK. destruct oe as [e|]; cbn [walks] in W; [|by rewrite W].
  destruct W as (nn1 & p1 & k & -> & R & N). specialize (HK nn1 p1 (runs_same_geo _ _ _ _ R Hg)).
  destruct oe2 as [f|]; cbn [walks oapp] in *; [|done]. destruct HK as (nn2 & p2 & k2 & -> & R2 & N2).
  exists nn2, p2, (k + k2). split; [done|]. split; [by eapply dup_split|by eapply names_go_app].
Qed.

(** A walk without names. *)
Lemma walks_plain p nn p' e : runs p e p' -> p_names p' = p_names p -> walks p nn (Some (nn, p')) [] (Some e).
Proof.
  intros R E. exists nn, p', 0. split; [done|]. split; [|by apply names_go_none].
  eapply runs_equiv; [exact R|done|done|]. intros c. cbn. by case_decide.
Qed.

Lemma walks_fold {A} (f : Z * p6 -> A -> option (Z * p6)) (ns : A -> list (list Z)) (ef : A -> option effect) g l p nn :
  (forall nn p a, rd_geo (p_rd p) = g -> walks p nn (f (nn, p) a) (ns a) (ef a)) -> rd_geo (p_rd p) = g ->
  walks p nn (foldo f (nn, p) l) (concat (map ns l)) (oconcat (map ef l)).
Proof.
  intros Hf. revert p nn. induction l as [|a l IH]; intros p nn Hg; cbn [foldo map concat oconcat foldr].
  - apply walks_plain; [apply runs_refl|done].
  - apply (walks_then p nn (f (nn, p) a) (ns a) (ef a) (fun s => foldo f s l) _ _ g); [done|by apply Hf|].
    intros nn1 p1 H1. by apply IH.
Qed.

(** A step that keeps the names before a walk. *)
Lemma walks_before p nn p1 e0 m ns oe :
  runs p e0 p1 -> p_names p1 = p_names p -> walks p1 nn m ns oe -> walks p nn m ns (oapp (Some e0) oe).
Proof.
  intros R E W. destruct oe as [e|]; cbn [walks oapp] in *; [|done].
  destruct W as (nn' & p' & k & -> & R' & N). exists nn', p', k. split; [done|]. split.
  - eapply runs_equiv; [exact (runs_app _ _ _ _ _ R R')|done|done|]. intros c. cbn. case_decide; lia.
  - destruct N as [B N]. split; [done|]. by rewrite <- E.
Qed.

Lemma walks_same p nn m ns oe : walks p nn m ns (oapp (Some eff0) oe) -> walks p nn m ns oe.
Proof.
  destruct oe as [e|]; cbn [walks oapp]; [|done]. intros (nn' & p' & k & E & R & N). exists nn', p', k. split; [done|].
  split; [|done]. eapply runs_equiv; [exact R|done|done|]. intros c. cbn. done.
Qed.

Lemma walks_regroup p nn m ns a b c : walks p nn m ns (oapp a (oapp b c)) -> walks p nn m ns (oapp (oapp a b) c).
Proof.
  destruct a as [a|], b as [b|], c as [c|]; cbn [walks oapp]; try done.
  intros (nn' & p' & k & E & R & N). exists nn', p', k. split; [done|]. split; [|done].
  eapply runs_equiv; [exact R|cbn; by rewrite app_assoc|cbn; by rewrite app_assoc|]. intros d. cbn. lia.
Qed.

(** ** Records *)

(** A record that names an inode of the table, with a name inside it. *)
Definition names_inode (g : geometry) (flat : list Z) (off : Z) : bool :=
  negb (d_ino flat off =? 0) && (d_ino flat off <=? g_inode_count g) &&
  negb (d_name_len flat off =? 0) && (BEAMFS_DIRENT_HDR_LEN + d_name_len flat off <=? d_rec_len flat off).

Definition rec_names (g : geometry) (flat : list Z) (off : Z) : list (list Z) :=
  if names_inode g flat off then [d_name flat off] else [].

Definition rec_eff (g : geometry) (flat : list Z) (off : Z) : option effect :=
  if d_ino flat off =? 0 then Some eff0
  else if negb (names_inode g flat off) then Some (eff_count bad_dirents 1)
  else
    match inode_view g (d_ino flat off) with
    | (FSCK_READ_UNCORRECTABLE, _) => Some eff0
    | (_, None) => None
    | (_, Some raw) => Some (if i_mode raw =? 0 then eff_count dangling_entries 1 else eff_name (d_ino flat off))
    end.

(** The records a walk steps over, and whether it stops at one it cannot. *)
Definition steppable (flat : list Z) (off : Z) : bool :=
  (BEAMFS_DIRENT_MIN_LEN <=? d_rec_len flat off) && (Z.land (d_rec_len flat off) (BEAMFS_DIRENT_ALIGN - 1) =? 0) &&
  (off + d_rec_len flat off <=? BEAMFS_DATA_INLINE_BYTES).

Fixpoint rec_walk (fuel : nat) (flat : list Z) (off : Z) : list Z * bool :=
  match fuel with
  | O => ([], false)
  | S fuel =>
    if BEAMFS_DATA_INLINE_BYTES <? off + BEAMFS_DIRENT_HDR_LEN then ([], false)
    else if d_rec_len flat off =? 0 then ([], false)
    else if negb (steppable flat off) then ([], true)
    else let '(l, cut) := rec_walk fuel flat (off + d_rec_len flat off) in (off :: l, cut)
  end.

Definition walk_eff (g : geometry) (flat : list Z) (w : list Z * bool) : option effect :=
  oapp (oconcat (map (rec_eff g flat) (fst w))) (Some (if snd w then eff_count bad_dirents 1 else eff0)).

Definition block_eff (g : geometry) (flat : list Z) : option effect := walk_eff g flat (rec_walk rec_fuel flat 0).
Definition block_names (g : geometry) (flat : list Z) : list (list Z) :=
  concat (map (rec_names g flat) (fst (rec_walk rec_fuel flat 0))).

Lemma note_name_walks p nn name : walks p nn (Some (note_name p nn name)) [name] (Some eff0).
Proof.
  unfold note_name. destruct (Z.leb_spec FSCK_PASS6_MAX_NAMES nn) as [Hm|Hm].
  - exists nn, p, 0. split; [done|]. split.
    { eapply runs_equiv; [apply runs_refl|done|done|]. intros c. cbn. by case_decide. }
    split; [done|]. intros D H. exists D. split; [done|]. intros _.
    assert (length D = max_names) as E.
    { pose proof (hold_max _ _ _ H). pose proof (hold_len _ _ _ H). unfold zlen, max_names in *. lia. }
    split; [|done]. rewrite take_app_le by lia. by rewrite <- E, firstn_all.
  - destruct (Z.ltb_spec (name_seen (p_names p) nn name) nn) as [Hs|Hs].
    + exists nn, (bump p duplicate_names), 1. split; [done|]. split.
      { eapply runs_equiv; [by apply (runs_bump p duplicate_names)|done|done|]. intros c. cbn. by case_decide. }
      split; [done|]. intros D H. by exists D.
    + exists (nn + 1), (set_names p (put_row (p_names p) nn name)), 0. split; [done|]. split.
      { eapply runs_equiv; [apply runs_names|done|done|]. intros c. cbn. by case_decide. }
      split; [done|]. intros D H. exists (D ++ [name]). cbn [p_names set_names].
      pose proof (names_hold_snoc _ _ _ name H Hm) as H'. split; [done|]. intros _.
      split; [by rewrite take_ge by apply H'|]. intros Nd. apply list.NoDup_app. split_and!; [done| |apply NoDup_singleton].
      intros x Hx ->%list_elem_of_singleton. apply (name_seen_spec _ _ _ name H) in Hx. lia.
Qed.

Lemma visit_walks g p flat off nn :
  rd_geo (p_rd p) = g -> walks p nn (visit_record p flat off nn) (rec_names g flat off) (rec_eff g flat off).
Proof.
  intros Hg. unfold visit_record, rec_names, rec_eff, names_inode, p_ninodes. rewrite Hg.
  destruct (Z.eqb_spec (d_ino flat off) 0) as [E0|E0]; [by apply walks_plain; [apply runs_refl|]|]. cbn [negb andb].
  destruct (Z.ltb_spec (g_inode_count g) (d_ino flat off)) as [E1|E1].
  { destruct (Z.leb_spec (d_ino flat off) (g_inode_count g)); [lia|]. by apply walks_plain; [apply runs_bump|]. }
  destruct (Z.leb_spec (d_ino flat off) (g_inode_count g)); [|lia]. cbn [andb].
  destruct (Z.eqb_spec (d_name_len flat off) 0) as [E2|E2]; [by apply walks_plain; [apply runs_bump|]|]. cbn [negb andb orb].
  destruct (Z.ltb_spec (d_rec_len flat off) (BEAMFS_DIRENT_HDR_LEN + d_name_len flat off)) as [E3|E3].
  { destruct (Z.leb_spec (BEAMFS_DIRENT_HDR_LEN + d_name_len flat off) (d_rec_len flat off)); [lia|].
    by apply walks_plain; [apply runs_bump|]. }
  destruct (Z.leb_spec (BEAMFS_DIRENT_HDR_LEN + d_name_len flat off) (d_rec_len flat off)); [|lia]. cbn [negb].
  rewrite <- (app_nil_r [d_name flat off]). apply walks_same.
  apply (walks_then p nn (Some (note_name p nn (d_name flat off))) _ _
    (fun '(nnames, p) =>
       let '(st, target, rd) := fsck_read_inode (p_rd p) (d_ino flat off) in
       let p := set_rd p rd in
       if decide (st = FSCK_READ_UNCORRECTABLE) then Some (nnames, p)
       else match target with
            | None => None
            | Some target => Some (nnames, if i_mode target =? 0 then bump p dangling_entries else mark_named p (d_ino flat off))
            end) _ _ g Hg (note_name_walks _ _ _)).
  intros nn1 p1 H1. destruct (inode_shows (p_rd p1) (d_ino flat off)) as (rd & -> & Gr). rewrite H1.
  pose proof (runs_rd p1 rd Gr) as R. apply walks_same.
  destruct (inode_view g (d_ino flat off)) as [st [raw|]]; cbn [fst snd].
  - destruct (decide (st = FSCK_READ_UNCORRECTABLE)) as [->|N].
    + eapply walks_before; [exact R|done|]. by apply walks_plain; [apply runs_refl|].
    + eapply walks_before; [exact R|done|]. destruct st; try done; (apply walks_plain; [|by destruct (i_mode raw =? 0)]);
        (destruct (i_mode raw =? 0); [by apply runs_bump|apply runs_named]).
  - destruct (decide (st = FSCK_READ_UNCORRECTABLE)) as [->|N].
    + eapply walks_before; [exact R|done|]. by apply walks_plain; [apply runs_refl|].
    + by destruct st.
Qed.

(** [fuel] steps are enough from [off]. *)
Lemma records_walks g flat fuel p off nn :
  rd_geo (p_rd p) = g -> 0 <= off <= BEAMFS_DATA_INLINE_BYTES -> 3828 - off <= 16 * Z.of_nat fuel ->
  walks p nn (walk_records fuel p flat off nn) (concat (map (rec_names g flat) (fst (rec_walk fuel flat off))))
    (walk_eff g flat (rec_walk fuel flat off)).
Proof.
  change BEAMFS_DATA_INLINE_BYTES with 3824. revert p off nn.
  induction fuel as [|fuel IH]; intros p off nn Hg Ho Hf; [lia|]. cbn [walk_records rec_walk].
  change BEAMFS_DATA_INLINE_BYTES with 3824. change BEAMFS_DIRENT_HDR_LEN with 12.
  assert (Hend : walks p nn (Some (nn, p)) [] (walk_eff g flat ([], false))).
  { apply walks_plain; [|done]. eapply runs_app; apply runs_refl. }
  destruct (3824 <? off + 12); [done|]. destruct (Z.eqb_spec (d_rec_len flat off) 0) as [|Hz]; [done|].
  unfold steppable. change BEAMFS_DIRENT_MIN_LEN with 16. change BEAMFS_DATA_INLINE_BYTES with 3824.
  assert (Eb : negb ((16 <=? d_rec_len flat off) && (Z.land (d_rec_len flat off) (BEAMFS_DIRENT_ALIGN - 1) =? 0) &&
               (off + d_rec_len flat off <=? 3824)) =
               (d_rec_len flat off <? 16) || negb (Z.land (d_rec_len flat off) (BEAMFS_DIRENT_ALIGN - 1) =? 0) ||
               (3824 <? off + d_rec_len flat off)) by lia.
  rewrite Eb. destruct (_ || _ || _) eqn:B.
  { apply walks_plain; [|done]. eapply runs_app; [apply runs_refl|by apply runs_bump]. }
  destruct (rec_walk fuel flat (off + d_rec_len flat off)) as [l cut] eqn:Ew. cbn [fst map concat].
  unfold walk_eff. cbn [fst snd map oconcat foldr]. fold (oconcat (map (rec_eff g flat) l)).
  apply walks_regroup. fold (walk_eff g flat (l, cut)).
  apply (walks_then p nn (visit_record p flat off nn) _ _ (fun '(nn, p) => walk_records fuel p flat (off + d_rec_len flat off) nn) _ _ g Hg).
  - by apply visit_walks.
  - intros nn1 p1 H1. specialize (IH p1 (off + d_rec_len flat off) nn1 H1). rewrite Ew in IH. cbn [fst] in IH. apply IH; lia.
Qed.

(** ** Directories *)

Definition dirblock_eff (g : geometry) (blk : Z) : option effect :=
  if blk =? 0 then Some eff0
  else
    match dir_view g blk with
    | (FSCK_READ_UNCORRECTABLE, _) => Some (eff_count unreadable_dirblocks 1)
    | (_, None) => None
    | (_, Some flat) => block_eff g flat
    end.

(** The payload a walk of the block sees. *)
Definition dir_flat (g : geometry) (blk : Z) : option (list Z) :=
  match dir_view g blk with
  | (FSCK_READ_UNCORRECTABLE, _) => None
  | (_, flat) => flat
  end.

Definition dirblock_names (g : geometry) (blk : Z) : list (list Z) :=
  if blk =? 0 then [] else match dir_flat g blk with Some flat => block_names g flat | None => [] end.

(** The pointers of an indirect block that is read. *)
Definition ind_ptrs (g : geometry) (blk : Z) : list Z :=
  match ind_view g blk with
  | (FSCK_READ_UNCORRECTABLE, _) => []
  | (_, None) => []
  | (_, Some ptrs) => ptrs
  end.

Definition ind_read (g : geometry) (blk : Z) : option effect :=
  match ind_view g blk with
  | (FSCK_READ_UNCORRECTABLE, _) => Some eff0
  | (_, None) => None
  | (_, Some _) => Some eff0
  end.

(** The blocks of records of a directory, holes included. *)
Definition dir_blocks (g : geometry) (raw : list Z) : list Z :=
  map (i_direct raw) (upto BEAMFS_DIRECT_BLOCKS) ++
  (if i_indirect raw =? 0 then [] else ind_ptrs g (i_indirect raw)).

Definition dir_eff (g : geometry) (raw : list Z) : option effect :=
  oapp (oapp (oconcat (map (dirblock_eff g) (map (i_direct raw) (upto BEAMFS_DIRECT_BLOCKS))))
          (oapp (if i_indirect raw =? 0 then Some eff0 else ind_read g (i_indirect raw))
             (oconcat (map (dirblock_eff g) (if i_indirect raw =? 0 then [] else ind_ptrs g (i_indirect raw))))))
    (Some (if (i_dindirect raw =? 0) && (i_tindirect raw =? 0) then eff0 else eff_count deep_directories 1)).

Definition dir_names (g : geometry) (raw : list Z) : list (list Z) := concat (map (dirblock_names g) (dir_blocks g raw)).

Lemma dir_block_walks g p blk nn :
  rd_geo (p_rd p) = g ->
  walks p nn (if blk =? 0 then Some (nn, p) else walk_dir_block p blk nn) (dirblock_names g blk) (dirblock_eff g blk).
Proof.
  intros Hg. unfold dirblock_names, dirblock_eff, dir_flat. destruct (blk =? 0); [by apply walks_plain; [apply runs_refl|]|].
  unfold walk_dir_block. destruct (dir_shows (p_rd p) blk) as (rd & -> & Gr). rewrite Hg.
  pose proof (runs_rd p rd Gr) as R. pose proof (runs_same_geo _ _ _ _ R Hg) as G1. apply walks_same.
  eapply walks_before; [exact R|done|].
  destruct (dir_view g blk) as [st o]. destruct (decide (st = FSCK_READ_UNCORRECTABLE)) as [->|N].
  - by apply walks_plain; [apply runs_bump|].
  - destruct o as [flat|]; [|by destruct st].
    assert (W : walks (set_rd p rd) nn (walk_records rec_fuel (set_rd p rd) flat 0 nn) (block_names g flat) (block_eff g flat)).
    { apply records_walks; [done|by vm_compute|by vm_compute]. }
    by destruct st.
Qed.

Lemma walk_blocks_walks g p nn blks :
  rd_geo (p_rd p) = g ->
  walks p nn (walk_blocks (nn, p) blks) (concat (map (dirblock_names g) blks)) (oconcat (map (dirblock_eff g) blks)).
Proof. intros Hg. apply (walks_fold _ _ _ g); [|done]. intros nn1 p1 b H1. by apply dir_block_walks. Qed.

(** A check that performs [oe], goes wrong, or counts repeated names. *)
Definition checks (p : p6) (m : option p6) (ns : list (list Z)) (oe : option effect) : Prop :=
  match oe with
  | None => m = None
  | Some e => exists p' k, m = Some p' /\ runs p (eff_app (eff_count duplicate_names k) e) p' /\
                0 <= k <= zlen ns /\ (k = 0 -> NoDup (take max_names ns))
  end.

Lemma walks_checks p m ns oe : walks p 0 m ns oe -> checks p (option_map snd m) ns oe.
Proof.
  destruct oe as [e|]; cbn [walks checks]; [|by intros ->]. intros (nn' & p' & k & -> & R & B & N).
  exists p', k. split; [done|]. split; [done|]. split; [done|]. intros Hk. destruct (N []) as (D' & _ & K).
  - split; [done|cbn; lia|cbn; lia|by intros].
  - destruct (K Hk) as [-> Nd]. apply Nd, NoDup_nil_2.
Qed.

Lemma checks_plain p p' e : runs p e p' -> checks p (Some p') [] (Some e).
Proof.
  intros R. exists p', 0. split; [done|]. split; [|split; [done|intros _; rewrite take_nil; apply NoDup_nil_2]].
  eapply runs_equiv; [exact R|done|done|]. intros c. cbn. by case_decide.
Qed.

Lemma checks_before p p1 e0 m ns oe : runs p e0 p1 -> checks p1 m ns oe -> checks p m ns (oapp (Some e0) oe).
Proof.
  intros R W. destruct oe as [e|]; cbn [checks oapp] in *; [|done]. destruct W as (p' & k & -> & R' & B).
  exists p', k. split; [done|]. split; [|done].
  eapply runs_equiv; [exact (runs_app _ _ _ _ _ R R')|done|done|]. intros c. cbn. case_decide; lia.
Qed.

Lemma directory_checks g p raw :
  rd_geo (p_rd p) = g -> checks p (walk_directory p raw) (dir_names g raw) (dir_eff g raw).
Proof.
  intros Hg. unfold walk_directory, dir_eff, dir_names, dir_blocks. rewrite map_app, concat_app.
  pose proof (walk_blocks_walks g p 0 (map (i_direct raw) (upto BEAMFS_DIRECT_BLOCKS)) Hg) as W.
  set (ns1 := concat _) in *. set (e1 := oconcat _) in *. set (m := walk_blocks _ _) in *. clearbody ns1 e1 m.
  set (K2 := fun '(nnames, p) =>
      if i_indirect raw =? 0 then Some (nnames, p)
      else let '(st, ptrs, rd) := fsck_read_indirect (p_rd p) (i_indirect raw) in
           let p := set_rd p rd in
           if decide (st = FSCK_READ_UNCORRECTABLE) then Some (nnames, p)
           else match ptrs with None => None | Some ptrs => walk_blocks (nnames, p) ptrs end).
  set (K3 := fun '(nnames, p) =>
      Some (nnames : Z, if (i_dindirect raw =? 0) && (i_tindirect raw =? 0) then p else bump p deep_directories)).
  assert (W2 : walks p 0 (match m with None => None | Some s => K2 s end)
    (ns1 ++ concat (map (dirblock_names g) (if i_indirect raw =? 0 then [] else ind_ptrs g (i_indirect raw))))
    (oapp e1 (oapp (if i_indirect raw =? 0 then Some eff0 else ind_read g (i_indirect raw))
       (oconcat (map (dirblock_eff g) (if i_indirect raw =? 0 then [] else ind_ptrs g (i_indirect raw))))))).
  { apply (walks_then p 0 m ns1 e1 K2 _ _ g Hg W). intros nn1 p1 H1. unfold K2.
    destruct (i_indirect raw =? 0).
    { apply walks_plain; [|done]. eapply runs_app; apply runs_refl. }
    unfold ind_read, ind_ptrs. destruct (ind_shows (p_rd p1) (i_indirect raw)) as (rd & -> & Gr). rewrite H1.
    pose proof (runs_rd p1 rd Gr) as R. pose proof (runs_same_geo _ _ _ _ R H1) as G1.
    destruct (ind_view g (i_indirect raw)) as [st o]. destruct (decide (st = FSCK_READ_UNCORRECTABLE)) as [->|N].
    - apply walks_plain; [|done]. eapply runs_app; [exact R|apply runs_refl].
    - destruct o as [ptrs|]; [|by destruct st].
      assert (W3 : walks p1 nn1 (walk_blocks (nn1, set_rd p1 rd) ptrs) (concat (map (dirblock_names g) ptrs))
                     (oapp (Some eff0) (oconcat (map (dirblock_eff g) ptrs)))).
      { eapply walks_before; [exact R|done|]. by apply walk_blocks_walks. }
      by destruct st. }
  pose proof (walks_then p 0 _ _ _ K3 [] (Some (if (i_dindirect raw =? 0) && (i_tindirect raw =? 0) then eff0
    else eff_count deep_directories 1)) g Hg W2) as W3.
  rewrite app_nil_r in W3. lapply W3; clear W3.
  - intros W3%walks_checks. clear W W2. subst K2 K3.
    destruct m as [[nn1 p1]|]; [|exact W3]. cbn beta iota zeta in W3.
    match goal with |- checks _ (match ?x with _ => _ end) _ _ => destruct x as [[nn2 p2]|] end; exact W3.
  - intros nn1 p1 H1. unfold K3. apply walks_plain; [|by destruct (_ && _)].
    destruct (_ && _); [apply runs_refl|by apply runs_bump].
Qed.

(** ** Inodes *)

Definition owns_blocks (raw : list Z) : bool := (i_fmt raw =? S_REG) || (i_fmt raw =? S_DIR).

(** The size of an inode against its blocks. *)
Definition size_eff (g : geometry) (raw : list Z) (n : Z) : effect :=
  if negb (i_fmt raw =? S_LNK) && (u64 n <? u64 (i_size raw + per_block g raw - 1) / per_block g raw)
  then eff_count size_ahead_of_blocks 1 else eff0.

Definition inode_eff (g : geometry) (ino : Z) : option effect :=
  match inode_view g ino with
  | (FSCK_READ_UNCORRECTABLE, _) => Some (eff_count unreadable_inodes 1)
  | (_, None) => None
  | (_, Some raw) =>
    if i_mode raw =? 0 then Some eff0
    else if negb (owns_blocks raw) then Some (eff_count allocated_inodes 1)
    else
      oapp (Some (eff_count allocated_inodes 1))
        (match count_eff g raw ino with
         | None => None
         | Some e => oapp (Some (eff_app e (size_eff g raw (zcl e))))
                       (if i_fmt raw =? S_DIR then dir_eff g raw else Some eff0)
         end)
  end.

(** The inode a read of the table shows, allocated or not. *)
Definition inode_at (g : geometry) (ino : Z) : option (list Z) :=
  match inode_view g ino with
  | (FSCK_READ_UNCORRECTABLE, _) => None
  | (_, raw) => raw
  end.

Definition inode_names (g : geometry) (ino : Z) : list (list Z) :=
  match inode_at g ino with
  | Some raw => if negb (i_mode raw =? 0) && (i_fmt raw =? S_DIR) then dir_names g raw else []
  | None => []
  end.

Lemma checks_same p m ns oe : checks p m ns (oapp (Some eff0) oe) -> checks p m ns oe.
Proof.
  destruct oe as [e|]; cbn [checks oapp]; [|done]. intros (p' & k & E & R & N). exists p', k. split; [done|].
  split; [|done]. eapply runs_equiv; [exact R|done|done|]. done.
Qed.

Lemma inode_checks g p ino :
  geo_ok g -> rd_geo (p_rd p) = g -> checks p (check_inode p ino) (inode_names g ino) (inode_eff g ino).
Proof.
  intros G Hg. unfold check_inode, inode_names, inode_eff, inode_at, owns_blocks.
  destruct (inode_shows (p_rd p) ino) as (rd & -> & Gr). rewrite Hg.
  pose proof (runs_rd p rd Gr) as R. pose proof (runs_same_geo _ _ _ _ R Hg) as G1. apply checks_same.
  eapply checks_before; [exact R|]. set (p1 := set_rd p rd) in *. clearbody p1. clear p R Gr rd Hg.
  destruct (inode_view g ino) as [st o]. destruct (decide (st = FSCK_READ_UNCORRECTABLE)) as [->|N].
  { by apply checks_plain, runs_bump. }
  destruct o as [raw|]; [|by destruct st].
  assert (W : checks p1
    (if i_mode raw =? 0 then Some p1
      else
        let p := bump p1 allocated_inodes in
        if negb (i_fmt raw =? S_REG) && negb (i_fmt raw =? S_DIR) then Some p
        else
          match count_blocks p raw ino with
          | None => None
          | Some (owned, p) =>
            let per := per_block (rd_geo (p_rd p)) raw in
            let need := u64 (i_size raw + per - 1) / per in
            let p := if negb (i_fmt raw =? S_LNK) && (owned <? need) then bump p size_ahead_of_blocks else p in
            if i_fmt raw =? S_DIR then walk_directory p raw else Some p
          end)
    (if negb (i_mode raw =? 0) && (i_fmt raw =? S_DIR) then dir_names g raw else [])
    (if i_mode raw =? 0 then Some eff0
    else if negb ((i_fmt raw =? S_REG) || (i_fmt raw =? S_DIR)) then Some (eff_count allocated_inodes 1)
    else
      oapp (Some (eff_count allocated_inodes 1))
        (match count_eff g raw ino with
         | None => None
         | Some e => oapp (Some (eff_app e (size_eff g raw (zcl e))))
                       (if i_fmt raw =? S_DIR then dir_eff g raw else Some eff0)
         end))).
  2:{ by destruct st. }
  destruct (i_mode raw =? 0); [by apply checks_plain, runs_refl|]. cbv zeta. cbn [negb andb].
  pose proof (runs_bump p1 allocated_inodes ltac:(done)) as R2. rewrite negb_orb.
  destruct (negb (i_fmt raw =? S_REG) && negb (i_fmt raw =? S_DIR)) eqn:F.
  { assert (i_fmt raw =? S_DIR = false) as -> by lia. by apply checks_plain. }
  clear F. pose proof (runs_same_geo _ _ _ _ R2 G1) as G2. eapply checks_before; [exact R2|].
  set (p2 := bump p1 allocated_inodes) in *. clearbody p2. clear p1 R2 G1.
  pose proof (count_does g p2 raw ino G G2) as C. destruct (count_eff g raw ino) as [e|]; cbn [does] in C; [|by rewrite C].
  destruct C as (p3 & -> & R3). pose proof (runs_same_geo _ _ _ _ R3 G2) as G3. rewrite G3. fold (size_eff g raw (zcl e)).
  set (p4 := if _ && _ then bump p3 size_ahead_of_blocks else p3).
  assert (R4 : runs p3 (size_eff g raw (zcl e)) p4).
  { unfold size_eff, p4. destruct (_ && _); [by apply runs_bump|apply runs_refl]. }
  pose proof (runs_same_geo _ _ _ _ R4 G3) as G4.
  eapply checks_before; [exact (runs_app _ _ _ _ _ R3 R4)|].
  destruct (i_fmt raw =? S_DIR); [by apply directory_checks|by apply checks_plain, runs_refl].
Qed.
