(* ===== verification/FsckSpec.v ===== *)
(** * What pass 6 of fsck.beamfs computes

    The effects of the walks read off the volume as lists: the blocks of
    each file, the inodes the directories name; and the counters and the
    verdict the pass ends with, in terms of these lists. *)

From stdpp Require Import sets.
From S2P Require Import Prelude Format Crc RsInit GF RsTheory RsCode RsCorrect RsDecode Dirent FsckRead FsckPass6 FsckEffect FsckWalk.

(** ** Claims *)

Section claims.
Context (g : geometry).

Notation run o l := (foldl (claim1 g) (o, 0) l).

Lemma claims_snoc o l c : run o (l ++ [c]) = claim1 g (run o l) c.
Proof. by rewrite foldl_app. Qed.

Lemma zlen_claims o l : zlen (fst (run o l)) = zlen o.
Proof.
  induction l as [|c l IH] using rev_ind; [done|]. rewrite claims_snoc. unfold claim1.
  repeat case_decide; cbn [fst]; rewrite ?zlen_setb; done.
Qed.

(** The owner is the first claimant, and refusals are counted. *)
Record claimed (l : list (Z * Z)) : Prop := {
  cl_first : forall b, in_region g b ->
    getb (fst (run (zeros (g_nblocks g)) l)) (b - g_data_start g) =
    match list_find (fun c => fst c = b) l with Some (_, c) => snd c | None => 0 end;
  cl_count : 0 <= snd (run (zeros (g_nblocks g)) l) <= zlen l;
  cl_zero : snd (run (zeros (g_nblocks g)) l) = 0 <->
    forall b i j, in_region g b -> (b, i) ∈ l -> (b, j) ∈ l -> i = j }.

Lemma find_snoc (l : list (Z * Z)) c b :
  match list_find (fun c => fst c = b) (l ++ [c]) with Some (_, c) => snd c | None => 0 end =
  match list_find (fun c => fst c = b) l with
  | Some (_, c') => snd c' | None => if decide (fst c = b) then snd c else 0 end.
Proof.
  destruct (list_find _ l) as [[k x]|] eqn:E.
  - by rewrite (list_find_app_l _ _ _ _ _ E).
  - rewrite list_find_app_r by done. cbn. by case_decide.
Qed.

Lemma find_claim (l : list (Z * Z)) b :
  match list_find (fun c => fst c = b) l with
  | Some (_, c) => (b, snd c) ∈ l
  | None => forall i, (b, i) ∉ l
  end.
Proof.
  destruct (list_find _ l) as [[k [b' i]]|] eqn:E.
  - apply list_find_Some in E as (E & Eb & _). cbn in *. subst. by eapply list_elem_of_lookup_2.
  - apply list_find_None in E. rewrite Forall_forall in E. intros i Hi. by apply (E (b, i)); [apply list_elem_of_In|].
Qed.

Lemma claims_spec l : 0 <= g_nblocks g -> (forall c, c ∈ l -> snd c <> 0) -> claimed l.
Proof.
  intros Hn. induction l as [|[b0 i0] l IH] using rev_ind; intros Hnz.
  { split; cbn.
    - intros b _. apply getb_zeros.
    - change (zlen (@nil (Z * Z))) with 0. lia.
    - split; [|done]. intros _ b i j _ H. by apply elem_of_nil in H. }
  destruct IH as [F C Z0]; [intros c Hc; apply Hnz; set_solver|].
  assert (Hi0 : i0 <> 0) by (apply (Hnz (b0, i0)); set_solver).
  pose proof (zlen_claims (zeros (g_nblocks g)) l) as Hl. rewrite zlen_zeros in Hl by done.
  pose proof (find_claim l b0) as Fc.
  assert (Hin : forall b i, (b, i) ∈ l ++ [(b0, i0)] <-> (b, i) ∈ l \/ (b = b0 /\ i = i0)) by (intros; set_solver).
  destruct (decide (in_region g b0)) as [I|I].
  - pose proof (F b0 I) as F0. unfold in_region in I.
    destruct (decide (getb (fst (run (zeros (g_nblocks g)) l)) (b0 - g_data_start g) <> 0 /\
                      getb (fst (run (zeros (g_nblocks g)) l)) (b0 - g_data_start g) <> i0)) as [[D1 D2]|D].
    + assert (E : run (zeros (g_nblocks g)) (l ++ [(b0, i0)]) =
        (fst (run (zeros (g_nblocks g)) l), snd (run (zeros (g_nblocks g)) l) + 1)).
      { rewrite claims_snoc. unfold claim1 at 1. cbn [fst snd]. rewrite decide_True by done. by rewrite decide_True. }
      destruct (list_find _ l) as [[k x]|] eqn:El; [|done].
      split; rewrite E; cbn [fst snd].
      * intros b Hb. rewrite F, find_snoc by done. destruct (list_find (fun c => fst c = b) l) as [[]|] eqn:Eb; [done|].
        cbn. case_decide; [|done]. subst. congruence.
      * rewrite zlen_app. change (zlen [(b0, i0)]) with 1. lia.
      * split; [lia|]. intros H. exfalso. apply D2. rewrite F0. apply (H b0); [done|by apply Hin; left|by apply Hin; right].
    + assert (E : run (zeros (g_nblocks g)) (l ++ [(b0, i0)]) =
        (setb (fst (run (zeros (g_nblocks g)) l)) (b0 - g_data_start g) i0, snd (run (zeros (g_nblocks g)) l))).
      { rewrite claims_snoc. unfold claim1 at 1. cbn [fst snd]. rewrite decide_True by done. by rewrite decide_False. }
      assert (Fi : match list_find (fun c => fst c = b0) l with Some (_, c) => snd c | None => i0 end = i0).
      { rewrite F0 in D. destruct (list_find _ l) as [[k x]|] eqn:El; [|done].
        apply list_find_Some in El as (El & _ & _). apply list_elem_of_lookup_2 in El.
        assert (snd x <> 0) by (apply Hnz; set_solver). lia. }
      split; rewrite E; cbn [fst snd].
      * intros b Hb. rewrite find_snoc. cbn [fst snd]. destruct (decide (b = b0)) as [->|Nb].
        -- rewrite getb_setb_eq by lia. rewrite decide_True by done. by destruct (list_find _ l) as [[]|].
        -- unfold in_region in Hb. rewrite getb_setb_ne, F by (unfold in_region; lia).
           destruct (list_find (fun c => fst c = b) l) as [[]|]; [done|]. by rewrite decide_False by congruence.
      * rewrite zlen_app. change (zlen [(b0, i0)]) with 1. lia.
      * rewrite Z0. split; intros H b i j Hb Hi Hj.
        -- apply Hin in Hi, Hj.
           assert (K : forall i, (b0, i) ∈ l -> i = i0).
           { intros i' H'. destruct (list_find _ l) as [[k x]|] eqn:El; [|by apply Fc in H'].
             rewrite <- Fi. apply (H b0); done. }
           destruct Hi as [Hi|[-> ->]], Hj as [Hj|[? ->]]; subst; try done; [by apply (H b)|by apply K|symmetry; by apply K].
        -- apply (H b); [done|apply Hin; by left..].
  - assert (E : run (zeros (g_nblocks g)) (l ++ [(b0, i0)]) = run (zeros (g_nblocks g)) l).
    { rewrite claims_snoc. unfold claim1 at 1. cbn [fst snd]. by rewrite decide_False. }
    split; rewrite E.
    + intros b Hb. rewrite F, find_snoc by done. destruct (list_find (fun c => fst c = b) l) as [[]|]; [done|].
      cbn. rewrite decide_False; [done|]. by intros ->.
    + rewrite zlen_app. change (zlen [(b0, i0)]) with 1. lia.
    + rewrite Z0. split; intros H b i j Hb Hi Hj.
      * apply Hin in Hi, Hj. destruct Hi as [Hi|[-> ->]]; [|done]. destruct Hj as [Hj|[-> ->]]; [|done]. by apply (H b).
      * apply (H b); [done|apply Hin; by left..].
Qed.
End claims.

(** ** Links and reachability *)

Definition count_in (t : Z) (l : list Z) : Z := zlen (filter (fun x => x = t) l).

Lemma count_in_snoc t l x : count_in t (l ++ [x]) = count_in t l + if decide (x = t) then 1 else 0.
Proof.
  unfold count_in. rewrite list.filter_app, zlen_app. f_equal. by case_decide; [rewrite filter_cons_True|rewrite filter_cons_False].
Qed.

Lemma links_spec n l t :
  0 <= n -> (forall x, x ∈ l -> 0 <= x <= n) -> 0 <= t <= n ->
  getb (foldl link1 (zeros (n + 1)) l) t = u32 (count_in t l) /\ zlen (foldl link1 (zeros (n + 1)) l) = n + 1.
Proof.
  intros Hn. induction l as [|x l IH] using rev_ind; intros Hl Ht.
  { cbn. split; [apply getb_zeros|apply zlen_zeros; lia]. }
  destruct IH as [I1 I2]; [intros y Hy; apply Hl; set_solver|done|]. rewrite foldl_app. cbn [foldl]. unfold link1 at 1 3.
  assert (0 <= x <= n) by (apply Hl; set_solver). rewrite zlen_setb, count_in_snoc. split; [|done].
  case_decide as D.
  - subst. rewrite getb_setb_eq by lia. by rewrite I1, u32_add_l.
  - rewrite getb_setb_ne by lia. by rewrite I1, Z.add_0_r.
Qed.

Lemma reach_bit_land x k : negb (Z.land x (Z.shiftl 1 k) =? 0) = Z.testbit x k \/ k < 0.
Proof.
  destruct (Z.lt_ge_cases k 0) as [|Hk]; [by right|left]. rewrite Z.shiftl_1_l.
  destruct (Z.testbit x k) eqn:E.
  - apply negb_true_iff, Z.eqb_neq. intros H. apply (f_equal (fun y => Z.testbit y k)) in H.
    by rewrite Z.land_spec, E, Z.pow2_bits_true, Z.bits_0 in H by done.
  - apply negb_false_iff, Z.eqb_eq. apply Z.bits_inj'. intros m Hm. rewrite Z.land_spec, Z.bits_0.
    destruct (decide (m = k)) as [->|]; [by rewrite E|]. rewrite (Z.pow2_bits_false k m) by lia. by rewrite andb_false_r.
Qed.

Lemma u8_testbit x m : 0 <= m < 8 -> Z.testbit (u8 x) m = Z.testbit x m.
Proof. intros H. unfold u8. rewrite Z.mod_pow2_bits_low by lia. done. Qed.

Lemma reach_spec n l t :
  0 <= n -> (forall x, x ∈ l -> 0 <= x <= n) -> 0 <= t <= n ->
  (Z.testbit (getb (foldl reach1 (zeros ((n + 8) / 8)) l) (t / 8)) (t mod 8) = true <-> t ∈ l) /\
  zlen (foldl reach1 (zeros ((n + 8) / 8)) l) = (n + 8) / 8.
Proof.
  intros Hn. induction l as [|x l IH] using rev_ind; intros Hl Ht.
  { cbn [foldl]. rewrite getb_zeros, Z.bits_0, elem_of_nil. split; [done|apply zlen_zeros, Z.div_pos; lia]. }
  destruct IH as [I1 I2]; [intros y Hy; apply Hl; set_solver|done|]. rewrite foldl_app. cbn [foldl]. unfold reach1 at 1 3.
  assert (Hx : 0 <= x <= n) by (apply Hl; set_solver). rewrite zlen_setb. split; [|done].
  pose proof (Z.mod_pos_bound t 8 ltac:(lia)). pose proof (Z.mod_pos_bound x 8 ltac:(lia)).
  pose proof (Z.div_mod t 8 ltac:(lia)). pose proof (Z.div_mod x 8 ltac:(lia)).
  assert (x / 8 < (n + 8) / 8) by (replace (n + 8) with (n + 1 * 8) by lia; rewrite Z.div_add by lia;
    assert (x / 8 <= n / 8) by (apply Z.div_le_mono; lia); lia).
  assert (0 <= x / 8) by (apply Z.div_pos; lia). assert (0 <= t / 8) by (apply Z.div_pos; lia).
  assert (Hin : t ∈ l ++ [x] <-> t ∈ l \/ t = x) by set_solver. rewrite Hin.
  destruct (decide (t / 8 = x / 8)) as [E|E].
  - rewrite E, getb_setb_eq, u8_testbit, Z.lor_spec, orb_true_iff by lia. rewrite <- E, I1, Z.shiftl_1_l.
    destruct (decide (t mod 8 = x mod 8)) as [E2|E2].
    + rewrite E2, Z.pow2_bits_true by lia. split; [right; lia|by right].
    + rewrite Z.pow2_bits_false by lia. split; [intros [|]; [by left|done]|intros [|]; [by left|lia]].
  - rewrite getb_setb_ne by lia. rewrite I1. split; [by left|]. intros [|]; [done|subst; lia].
Qed.

(** ** Reading effects off the volume *)

Definition claims_of (oe : option effect) : list (Z * Z) := match oe with Some e => e_claims e | None => [] end.
Definition named_of (oe : option effect) : list Z := match oe with Some e => e_named e | None => [] end.
Definition tally_of (oe : option effect) (c : p6_counter) : Z := match oe with Some e => e_tally e c | None => 0 end.
Definition pos_eff (oe : option effect) : Prop := forall c, 0 <= tally_of oe c.

Lemma oapp_inv a b e :
  oapp a b = Some e -> exists ea eb, a = Some ea /\ b = Some eb /\ e_claims e = e_claims ea ++ e_claims eb /\
    e_named e = e_named ea ++ e_named eb /\ forall c, e_tally e c = e_tally ea c + e_tally eb c.
Proof. destruct a as [ea|], b as [eb|]; cbn; try done. intros [= <-]. by exists ea, eb. Qed.

Lemma pos_oapp a b : pos_eff a -> pos_eff b -> pos_eff (oapp a b).
Proof. intros A B c. specialize (A c). specialize (B c). destruct a, b; cbn in *; lia. Qed.

Lemma pos_oconcat {A} (f : A -> option effect) l : (forall x, pos_eff (f x)) -> pos_eff (oconcat (map f l)).
Proof.
  intros H. induction l as [|x l IH]; [done|]. cbn [map oconcat foldr]. apply pos_oapp; [apply H|apply IH].
Qed.

Lemma pos_count c n : 0 <= n -> pos_eff (Some (eff_count c n)).
Proof. intros Hn c'. cbn. case_decide; lia. Qed.

Lemma pos_eff0 : pos_eff (Some eff0). Proof. done. Qed.
Lemma pos_claim b ino : pos_eff (Some (eff_claim b ino)). Proof. done. Qed.
Lemma pos_name ino : pos_eff (Some (eff_name ino)). Proof. done. Qed.
Lemma pos_none : pos_eff None. Proof. done. Qed.
Lemma pos_some_app a b : pos_eff (Some a) -> pos_eff (Some b) -> pos_eff (Some (eff_app a b)).
Proof. apply (pos_oapp (Some a) (Some b)). Qed.

Create HintDb pos discriminated.
#[local] Hint Resolve pos_oapp pos_oconcat pos_eff0 pos_claim pos_name pos_none pos_some_app : pos.
#[local] Hint Extern 1 (pos_eff (Some (eff_count _ _))) => (apply pos_count; lia) : pos.

Lemma pos_tree g level blk ino : pos_eff (tree_eff g level blk ino).
Proof.
  revert blk. induction level as [|below IH]; intros blk; cbn [tree_eff]; [auto with pos|].
  destruct (blk =? 0); [auto with pos|]. destruct (ind_view g blk) as [ist [ptrs|]]; case_decide; auto with pos.
  apply pos_oapp; [apply pos_some_app; [auto with pos|]|apply pos_oconcat].
  - unfold ind_note. case_decide; auto with pos.
  - intros b. destruct (b =? 0); [auto with pos|]. destruct below; auto with pos.
Qed.

Lemma pos_dirblock g blk : pos_eff (dirblock_eff g blk).
Proof.
  unfold dirblock_eff. destruct (blk =? 0); [auto with pos|].
  assert (W : forall flat, pos_eff (block_eff g flat)).
  { intros flat. unfold block_eff, walk_eff. apply pos_oapp; [apply pos_oconcat|destruct (snd _); auto with pos].
    intros off. unfold rec_eff. repeat case_match; auto with pos. }
  destruct (dir_view g blk) as [st [flat|]]; destruct st; auto with pos.
Qed.

Lemma pos_blocks g raw ino : pos_eff (count_eff g raw ino).
Proof.
  unfold count_eff. apply pos_oapp; apply pos_oconcat.
  - intros i. unfold direct_eff. destruct (_ =? _); auto with pos.
  - intros [level blk]. apply pos_tree.
Qed.

Lemma pos_ind_read g blk : pos_eff (if blk =? 0 then Some eff0 else ind_read g blk).
Proof. destruct (blk =? 0); [auto with pos|]. unfold ind_read. repeat case_match; auto with pos. Qed.

Lemma pos_dir g raw : pos_eff (dir_eff g raw).
Proof.
  unfold dir_eff. apply pos_oapp; [apply pos_oapp; [apply pos_oconcat, pos_dirblock|]|destruct (_ && _); auto with pos].
  apply pos_oapp; [apply pos_ind_read|apply pos_oconcat, pos_dirblock].
Qed.

Lemma pos_inode g ino : pos_eff (inode_eff g ino).
Proof.
  unfold inode_eff.
  assert (W : forall raw, pos_eff (if i_mode raw =? 0 then Some eff0
    else if negb (owns_blocks raw) then Some (eff_count allocated_inodes 1)
    else
      oapp (Some (eff_count allocated_inodes 1))
        (match count_eff g raw ino with
         | None => None
         | Some e => oapp (Some (eff_app e (size_eff g raw (zcl e))))
                       (if i_fmt raw =? S_DIR then dir_eff g raw else Some eff0)
         end))).
  { intros raw. destruct (_ =? 0); [auto with pos|]. destruct (negb _); [auto with pos|]. apply pos_oapp; [auto with pos|].
    pose proof (pos_blocks g raw ino) as C. destruct (count_eff g raw ino) as [e|]; [|auto with pos].
    apply pos_oapp; [apply pos_some_app; [done|]|destruct (_ =? S_DIR); auto using pos_dir with pos].
    unfold size_eff. destruct (_ && _); auto with pos. }
  destruct (inode_view g ino) as [st [raw|]]; destruct st; auto with pos.
Qed.

(** A sum of non-negative counts that is zero. *)
Lemma oconcat_zero {A} (f : A -> option effect) l e c :
  (forall x, pos_eff (f x)) -> oconcat (map f l) = Some e -> e_tally e c = 0 ->
  forall x, x ∈ l -> exists ex, f x = Some ex /\ e_tally ex c = 0.
Proof.
  intros P. revert e. induction l as [|y l IH]; intros e E Z0 x Hx; [by apply elem_of_nil in Hx|].
  cbn [map oconcat foldr] in E. fold (oconcat (map f l)) in E. apply oapp_inv in E as (ea & eb & Ea & Eb & _ & _ & T).
  specialize (T c). pose proof (P y c) as Py. rewrite Ea in Py. cbn in Py.
  pose proof (pos_oconcat f l P c) as Pl. rewrite Eb in Pl. cbn in Pl.
  apply elem_of_cons in Hx as [->|Hx]; [exists ea; split; [done|lia]|]. apply (IH eb); [done|lia|done].
Qed.

Lemma oconcat_claims {A} (f : A -> option effect) l e :
  oconcat (map f l) = Some e -> e_claims e = concat (map (fun x => claims_of (f x)) l).
Proof.
  revert e. induction l as [|y l IH]; intros e E; [by injection E as <-|].
  cbn [map oconcat foldr] in E. fold (oconcat (map f l)) in E. apply oapp_inv in E as (ea & eb & Ea & Eb & -> & _).
  cbn [map concat]. rewrite (IH eb Eb), Ea. done.
Qed.

Lemma oconcat_named {A} (f : A -> option effect) l e :
  oconcat (map f l) = Some e -> e_named e = concat (map (fun x => named_of (f x)) l).
Proof.
  revert e. induction l as [|y l IH]; intros e E; [by injection E as <-|].
  cbn [map oconcat foldr] in E. fold (oconcat (map f l)) in E. apply oapp_inv in E as (ea & eb & Ea & Eb & _ & -> & _).
  cbn [map concat]. rewrite (IH eb Eb), Ea. done.
Qed.

Lemma oconcat_some {A} (f : A -> option effect) l e :
  oconcat (map f l) = Some e -> forall x, x ∈ l -> exists ex, f x = Some ex.
Proof.
  revert e. induction l as [|y l IH]; intros e E x Hx; [by apply elem_of_nil in Hx|].
  cbn [map oconcat foldr] in E. fold (oconcat (map f l)) in E. apply oapp_inv in E as (ea & eb & Ea & Eb & _).
  apply elem_of_cons in Hx as [->|Hx]; eauto.
Qed.

Lemma oconcat_none {A} (f : A -> option effect) l : oconcat (map f l) = None <-> exists x, x ∈ l /\ f x = None.
Proof.
  induction l as [|y l IH]; cbn [map oconcat foldr]; [split; [done|intros (x & Hx & _); by apply elem_of_nil in Hx]|].
  fold (oconcat (map f l)). destruct (f y) as [ey|] eqn:Ey; cbn [oapp].
  - destruct (oconcat (map f l)) as [el|].
    + split; [done|]. intros (x & [->|Hx]%elem_of_cons & E); [congruence|].
      assert (@None effect = None) as H by done. exfalso. assert (K : Some el = None) by (apply IH; eauto). done.
    + split; [|done]. intros _. destruct IH as [IH _]. destruct (IH eq_refl) as (x & Hx & E). exists x. split; [by right|done].
  - split; [|done]. intros _. exists y. split; [left|done].
Qed.

(** ** The blocks of a file *)

(** The blocks a tree of pointers leads to, its own blocks included. *)
Fixpoint tree_blocks (g : geometry) (level : nat) (blk : Z) : list Z :=
  match level with
  | O => []
  | S below =>
    if blk =? 0 then []
    else blk :: concat (map (fun b =>
      if b =? 0 then [] else match below with O => [b] | S _ => tree_blocks g below b end) (ind_ptrs g blk))
  end.

Definition inode_blocks (g : geometry) (raw : list Z) : list Z :=
  filter (fun b => b <> 0) (map (i_direct raw) (upto BEAMFS_DIRECT_BLOCKS)) ++
  tree_blocks g 1 (i_indirect raw) ++ tree_blocks g 2 (i_dindirect raw) ++ tree_blocks g 3 (i_tindirect raw).

Lemma concat_map_ext {A B} (f f' : A -> list B) l : (forall x, x ∈ l -> f x = f' x) -> concat (map f l) = concat (map f' l).
Proof.
  induction l as [|x l IH]; intros H; [done|]. cbn. rewrite H by left. f_equal. apply IH. intros y Hy. apply H. by right.
Qed.

Lemma map_concat_map {A B C} (h : B -> C) (f : A -> list B) l : map h (concat (map f l)) = concat (map (fun x => map h (f x)) l).
Proof. induction l as [|x l IH]; [done|]. cbn. by rewrite map_app, IH. Qed.

Lemma tree_claims g level blk ino e :
  tree_eff g level blk ino = Some e -> e_claims e = map (fun b => (b, ino)) (tree_blocks g level blk) /\ e_named e = [].
Proof.
  revert blk e. induction level as [|below IH]; intros blk e; cbn [tree_eff tree_blocks]; [by intros [= <-]|].
  destruct (blk =? 0); [by intros [= <-]|]. unfold ind_ptrs. destruct (ind_view g blk) as [ist optrs].
  destruct (decide (ist = FSCK_READ_UNCORRECTABLE)) as [->|N]; [by intros [= <-]|].
  destruct optrs as [ptrs|]; [|done]. intros E.
  assert (Hp : match ist with FSCK_READ_UNCORRECTABLE => [] | _ => ptrs end = ptrs) by (by destruct ist). rewrite Hp. clear Hp.
  apply oapp_inv in E as (ea & eb & [= <-] & Eb & -> & -> & _). cbn [eff_app e_claims e_named].
  assert (Hn : e_claims (ind_note ist ptrs) = [] /\ e_named (ind_note ist ptrs) = []) by (unfold ind_note; by case_decide).
  destruct Hn as [-> ->]. fold (ptr_eff g below ino) in Eb. rewrite (oconcat_claims _ _ _ Eb), (oconcat_named _ _ _ Eb).
  assert (K : forall b, b ∈ ptrs ->
    claims_of (ptr_eff g below ino b) = map (fun b => (b, ino))
      (if b =? 0 then [] else match below with O => [b] | S _ => tree_blocks g below b end) /\
    named_of (ptr_eff g below ino b) = []).
  { intros b Hb. destruct (oconcat_some _ _ _ Eb b Hb) as [ex Ex]. rewrite Ex. unfold ptr_eff in Ex. cbn [claims_of named_of].
    destruct (b =? 0); [by injection Ex as <-|]. destruct below as [|k]; [by injection Ex as <-|]. by apply IH. }
  split.
  - cbn. f_equal. rewrite map_concat_map. apply concat_map_ext. intros b Hb. by apply K.
  - cbn. rewrite (concat_map_ext _ (fun _ => [])) by (intros b Hb; by apply K). clear. induction ptrs; done.
Qed.

Lemma count_claims g raw ino e :
  count_eff g raw ino = Some e -> e_claims e = map (fun b => (b, ino)) (inode_blocks g raw) /\ e_named e = [].
Proof.
  intros E. apply oapp_inv in E as (ea & eb & Ea & Eb & -> & -> & _).
  rewrite (oconcat_claims _ _ _ Ea), (oconcat_named _ _ _ Ea). cbn [map oconcat foldr] in Eb.
  apply oapp_inv in Eb as (e1 & r1 & E1 & Eb & -> & -> & _). apply oapp_inv in Eb as (e2 & r2 & E2 & Eb & -> & -> & _).
  apply oapp_inv in Eb as (e3 & r3 & E3 & [= <-] & -> & -> & _).
  apply tree_claims in E1 as [-> ->]. apply tree_claims in E2 as [-> ->]. apply tree_claims in E3 as [-> ->].
  unfold inode_blocks. rewrite !map_app. cbn [eff0 e_claims e_named]. rewrite !app_nil_r. split.
  - f_equal. clear. induction (upto BEAMFS_DIRECT_BLOCKS) as [|i l IH]; [done|]. cbn [map concat].
    unfold direct_eff at 1. destruct (Z.eqb_spec (i_direct raw i) 0) as [E|N].
    + rewrite filter_cons_False by lia. cbn. apply IH.
    + rewrite filter_cons_True by done. cbn. by rewrite IH.
  - clear. induction (upto BEAMFS_DIRECT_BLOCKS) as [|i l IH]; [done|]. cbn [map concat]. unfold direct_eff at 1.
    by destruct (i_direct raw i =? 0).
Qed.

#[local] Opaque rec_walk.

(** ** The entries of the directories *)

Definition allocated (g : geometry) (ino : Z) : bool :=
  match inode_at g ino with Some raw => negb (i_mode raw =? 0) | None => false end.

(** The inodes the records of a payload name. *)
Definition rec_target (g : geometry) (flat : list Z) (off : Z) : list Z :=
  if names_inode g flat off && allocated g (d_ino flat off) then [d_ino flat off] else [].

Definition block_targets (g : geometry) (blk : Z) : list Z :=
  if blk =? 0 then []
  else match dir_flat g blk with
       | Some flat => concat (map (rec_target g flat) (fst (rec_walk rec_fuel flat 0)))
       | None => []
       end.

Definition is_dir (raw : list Z) : bool := negb (i_mode raw =? 0) && (i_fmt raw =? S_DIR).

Definition inode_targets (g : geometry) (ino : Z) : list Z :=
  match inode_at g ino with
  | Some raw => if is_dir raw then concat (map (block_targets g) (dir_blocks g raw)) else []
  | None => []
  end.

(** Every entry of every directory, as the inode it names. *)
Definition all_targets (g : geometry) : list Z := concat (map (inode_targets g) (seqZ 1 (g_inode_count g))).

(** The blocks an inode owns. *)
Definition owned_blocks (g : geometry) (ino : Z) : list Z :=
  match inode_at g ino with
  | Some raw => if negb (i_mode raw =? 0) && owns_blocks raw then inode_blocks g raw else []
  | None => []
  end.

Lemma rec_named g flat off e : rec_eff g flat off = Some e -> e_claims e = [] /\ e_named e = rec_target g flat off.
Proof.
  unfold rec_eff, rec_target, allocated, inode_at, names_inode.
  destruct (d_ino flat off =? 0); [by intros [= <-]|]. cbn [negb andb].
  destruct (_ && _ && _); cbn [negb andb]; [|by intros [= <-]].
  destruct (inode_view g (d_ino flat off)) as [st [raw|]]; destruct st; try done; try (by intros [= <-]);
    intros [= <-]; by destruct (i_mode raw =? 0).
Qed.

Lemma walk_named g flat w e :
  walk_eff g flat w = Some e -> e_claims e = [] /\ e_named e = concat (map (rec_target g flat) (fst w)).
Proof.
  destruct w as [l cut]. intros E. apply oapp_inv in E as (ea & eb & Ea & [= <-] & -> & -> & _). cbn [fst snd] in *.
  rewrite (oconcat_claims _ _ _ Ea), (oconcat_named _ _ _ Ea).
  assert (K : forall o, o ∈ l -> claims_of (rec_eff g flat o) = [] /\ named_of (rec_eff g flat o) = rec_target g flat o).
  { intros o Ho. destruct (oconcat_some _ _ _ Ea o Ho) as [ex Ex]. rewrite Ex. by apply rec_named. }
  assert (T : e_claims (if cut then eff_count bad_dirents 1 else eff0) = [] /\
              e_named (if cut then eff_count bad_dirents 1 else eff0) = []) by (by destruct cut).
  destruct T as [-> ->]. rewrite !app_nil_r. split; [|apply concat_map_ext; intros o Ho; by apply K].
  rewrite (concat_map_ext _ (fun _ => [])) by (intros o Ho; by apply K). clear. by induction l.
Qed.

Lemma block_named g blk e : dirblock_eff g blk = Some e -> e_claims e = [] /\ e_named e = block_targets g blk.
Proof.
  unfold dirblock_eff, block_targets, dir_flat, block_eff. destruct (blk =? 0); [by intros [= <-]|].
  destruct (dir_view g blk) as [st [flat|]]; destruct st; try done; try (by intros [= <-]); apply walk_named.
Qed.

Lemma blocks_named g l e :
  oconcat (map (dirblock_eff g) l) = Some e -> e_claims e = [] /\ e_named e = concat (map (block_targets g) l).
Proof.
  intros E. rewrite (oconcat_claims _ _ _ E), (oconcat_named _ _ _ E).
  assert (K : forall b, b ∈ l -> claims_of (dirblock_eff g b) = [] /\ named_of (dirblock_eff g b) = block_targets g b).
  { intros b Hb. destruct (oconcat_some _ _ _ E b Hb) as [ex Ex]. rewrite Ex. by apply block_named. }
  split; [|apply concat_map_ext; intros b Hb; by apply K].
  rewrite (concat_map_ext _ (fun _ => [])) by (intros b Hb; by apply K). clear. by induction l.
Qed.

Lemma dir_named g raw e :
  dir_eff g raw = Some e -> e_claims e = [] /\ e_named e = concat (map (block_targets g) (dir_blocks g raw)).
Proof.
  intros E. unfold dir_eff in E. apply oapp_inv in E as (ea & eb & Ea & [= <-] & -> & -> & _).
  apply oapp_inv in Ea as (e1 & e2 & E1 & E2 & -> & -> & _). apply oapp_inv in E2 as (e3 & e4 & E3 & E4 & -> & -> & _).
  apply blocks_named in E1 as [-> ->], E4 as [-> ->].
  assert (H3 : e_claims e3 = [] /\ e_named e3 = []).
  { destruct (_ =? 0); [by injection E3 as <-|]. unfold ind_read in E3. repeat case_match; try done; by injection E3 as <-. }
  destruct H3 as [-> ->]. unfold dir_blocks. rewrite map_app, concat_app. cbn [app].
  destruct (_ && _); cbn; by rewrite !app_nil_r.
Qed.

Lemma inode_effects g ino e :
  inode_eff g ino = Some e ->
  e_claims e = map (fun b => (b, ino)) (owned_blocks g ino) /\ e_named e = inode_targets g ino.
Proof.
  unfold inode_eff, owned_blocks, inode_targets, inode_at, is_dir.
  destruct (inode_view g ino) as [st o]. destruct (decide (st = FSCK_READ_UNCORRECTABLE)) as [->|N]; [by intros [= <-]|].
  destruct o as [raw|]; [|by destruct st]. intros E.
  assert (E' : (if i_mode raw =? 0 then Some eff0
    else if negb (owns_blocks raw) then Some (eff_count allocated_inodes 1)
    else
      oapp (Some (eff_count allocated_inodes 1))
        (match count_eff g raw ino with
         | None => None
         | Some e => oapp (Some (eff_app e (size_eff g raw (zcl e))))
                       (if i_fmt raw =? S_DIR then dir_eff g raw else Some eff0)
         end)) = Some e) by (by destruct st). clear E.
  assert (Hs : forall X (x y : X), match st with FSCK_READ_UNCORRECTABLE => x | _ => y end = y) by (by destruct st).
  rewrite !Hs. clear Hs N st. destruct (i_mode raw =? 0); [by injection E' as <-|]. cbn [negb andb].
  unfold owns_blocks in *. destruct (i_fmt raw =? S_DIR) eqn:D.
  - rewrite orb_true_r in *. cbn [negb] in E'. apply oapp_inv in E' as (ea & eb & [= <-] & Eb & -> & -> & _).
    destruct (count_eff g raw ino) as [ec|] eqn:Ec; [|done]. apply oapp_inv in Eb as (e1 & e2 & [= <-] & E2 & -> & -> & _).
    apply count_claims in Ec as [Ec1 Ec2]. apply dir_named in E2 as [-> ->].
    assert (Hz : e_claims (size_eff g raw (zcl ec)) = [] /\ e_named (size_eff g raw (zcl ec)) = [])
      by (unfold size_eff; by destruct (_ && _)). destruct Hz as [Hz1 Hz2].
    cbn. by rewrite Ec1, Ec2, Hz1, Hz2, !app_nil_r.
  - rewrite orb_false_r in *. destruct (i_fmt raw =? S_REG); cbn [negb] in E'; [|by injection E' as <-].
    apply oapp_inv in E' as (ea & eb & [= <-] & Eb & -> & -> & _).
    destruct (count_eff g raw ino) as [ec|] eqn:Ec; [|done]. apply oapp_inv in Eb as (e1 & e2 & [= <-] & [= <-] & -> & -> & _).
    apply count_claims in Ec as [Ec1 Ec2].
    assert (Hz : e_claims (size_eff g raw (zcl ec)) = [] /\ e_named (size_eff g raw (zcl ec)) = [])
      by (unfold size_eff; by destruct (_ && _)). destruct Hz as [Hz1 Hz2].
    cbn. by rewrite Ec1, Ec2, Hz1, Hz2, !app_nil_r.
Qed.

(** ** The whole pass *)

Definition volume_eff (g : geometry) : option effect := oconcat (map (inode_eff g) (seqZ 1 (g_inode_count g))).

Lemma volume_claims g e b i :
  volume_eff g = Some e -> (b, i) ∈ e_claims e <-> 1 <= i <= g_inode_count g /\ b ∈ owned_blocks g i.
Proof.
  intros E. rewrite (oconcat_claims _ _ _ E), list_elem_of_In, in_concat. split.
  - intros (l & (x & <- & Hx)%in_map_iff & Hb). apply list_elem_of_In in Hx, Hb.
    destruct (oconcat_some _ _ _ E x Hx) as [ex Ex]. rewrite Ex in Hb. cbn in Hb. apply inode_effects in Ex as [Ec _].
    rewrite Ec, list_elem_of_fmap in Hb. destruct Hb as (b' & [= <- <-] & Hb). apply elem_of_seqZ in Hx. split; [lia|done].
  - intros [Hi Hb]. assert (Hx : i ∈ seqZ 1 (g_inode_count g)) by (apply elem_of_seqZ; lia).
    destruct (oconcat_some _ _ _ E i Hx) as [ex Ex]. exists (e_claims ex). split.
    + apply in_map_iff. exists i. rewrite Ex. split; [done|by apply list_elem_of_In].
    + apply inode_effects in Ex as [-> _]. apply list_elem_of_In, list_elem_of_fmap. by exists b.
Qed.

Lemma volume_named g e : volume_eff g = Some e -> e_named e = all_targets g.
Proof.
  intros E. rewrite (oconcat_named _ _ _ E). apply concat_map_ext. intros i Hi.
  destruct (oconcat_some _ _ _ E i Hi) as [ex Ex]. rewrite Ex. cbn [named_of]. by apply inode_effects in Ex as [_ ->].
Qed.

Lemma elem_of_concat_map {A B} (f : A -> list B) l y : y ∈ concat (map f l) <-> exists x, x ∈ l /\ y ∈ f x.
Proof.
  rewrite list_elem_of_In, in_concat. split.
  - intros (k & (x & <- & Hx)%in_map_iff & Hy). exists x. by rewrite !list_elem_of_In.
  - intros (x & Hx%list_elem_of_In & Hy%list_elem_of_In). exists (f x). rewrite in_map_iff. eauto.
Qed.

(** Decoded payloads are bytes. *)
Lemma dir_flat_bytes g blk flat : dir_flat g blk = Some flat -> bytes flat.
Proof.
  unfold dir_flat, dir_view, fsck_read_dirblock, fsck_read_data, set_interleaved, fresh. cbn [rd_geo g_interleaved g_fd].
  destruct (_ || _); [done|]. destruct (read_exact _ _ _) as [raw|]; [|done]. unfold read_alternating.
  destruct (decode_all _ _ _) as [[st out]|] eqn:E; [|done]. intros H.
  assert (out = flat) as -> by (destruct st; try done; by injection H).
  apply (decode_all_ind _ (fun s => bytes (snd s))) in E; [done|constructor|].
  intros [st1 o1] i [st2 o2] B Es. unfold alternating_step in Es.
  destruct (rs_decode_subblock _ _ _ _) as [|n d p pos] eqn:Ed; [done|]. injection Es as <- <-. cbn [snd] in *.
  apply bytes_app. split; [done|]. apply (decode_bytes _ _ _ _ _ _ _ Ed).
Qed.

Lemma d_ino_range flat o : bytes flat -> 0 <= d_ino flat o.
Proof. intros B. apply (le_val_range (slice flat o 8)). by apply bytes_slice. Qed.

Lemma target_range g t : t ∈ all_targets g -> 1 <= t <= g_inode_count g.
Proof.
  unfold all_targets. rewrite elem_of_concat_map. intros (i & _ & Hi). unfold inode_targets in Hi.
  destruct (inode_at g i) as [raw|]; [|by apply elem_of_nil in Hi]. destruct (is_dir raw); [|by apply elem_of_nil in Hi].
  apply elem_of_concat_map in Hi as (b & _ & Hb). unfold block_targets in Hb.
  destruct (b =? 0); [by apply elem_of_nil in Hb|]. destruct (dir_flat g b) as [flat|] eqn:F; [|by apply elem_of_nil in Hb].
  apply elem_of_concat_map in Hb as (o & _ & Ho). unfold rec_target, names_inode in Ho.
  destruct (_ && _) eqn:E; [|by apply elem_of_nil in Ho]. apply list_elem_of_singleton in Ho as ->.
  pose proof (d_ino_range flat o (dir_flat_bytes _ _ _ F)). lia.
Qed.

Definition root_ok (g : geometry) : bool := match inode_at g ROOT_INO with Some raw => is_dir raw | None => false end.

(** The names of all directories, as the pass meets them. *)
Definition all_names (g : geometry) : list (list Z) := concat (map (inode_names g) (seqZ 1 (g_inode_count g))).

Lemma inodes_check g l p :
  geo_ok g -> rd_geo (p_rd p) = g ->
  match oconcat (map (inode_eff g) l) with
  | None => foldo check_inode p l = None
  | Some e => exists p' K, foldo check_inode p l = Some p' /\ runs p (eff_app (eff_count duplicate_names K) e) p' /\
      0 <= K <= zlen (concat (map (inode_names g) l)) /\
      (K = 0 -> forall i, i ∈ l -> NoDup (take max_names (inode_names g i)))
  end.
Proof.
  intros G. revert p. induction l as [|i l IH]; intros p Hg; cbn [map oconcat foldr foldo concat].
  { exists p, 0. split; [done|]. split; [|split; [done|intros _ i Hi; by apply elem_of_nil in Hi]].
    eapply runs_equiv; [apply runs_refl|done|done|]. intros c. cbn. by case_decide. }
  fold (oconcat (map (inode_eff g) l)). pose proof (inode_checks g p i G Hg) as C.
  destruct (inode_eff g i) as [e|]; cbn [checks oapp] in *; [|by rewrite C].
  destruct C as (p1 & k & -> & R & B & N). specialize (IH p1 (runs_same_geo _ _ _ _ R Hg)).
  destruct (oconcat (map (inode_eff g) l)) as [f|]; [|done]. destruct IH as (p2 & K & -> & R2 & B2 & N2).
  exists p2, (k + K). split; [done|]. split; [by eapply dup_split|]. split; [rewrite zlen_app; lia|].
  intros Hk x [->|Hx]%elem_of_cons; [apply N; lia|apply N2; [lia|done]].
Qed.

(** The second loop reads the tables the first one filled. *)
Definition link_bad (g : geometry) (links reach : list Z) (ino : Z) : effect :=
  match inode_at g ino with
  | Some raw =>
    if i_mode raw =? 0 then eff0
    else if negb (beamfs_ino_is_reserved ino) &&
            negb (negb (Z.land (getb reach (ino / 8)) (Z.shiftl 1 (ino mod 8)) =? 0)) then eff_count orphaned_inodes 1
    else if beamfs_ino_is_reserved ino && negb (ino =? ROOT_INO) then eff0
    else if negb (i_fmt raw =? S_DIR) && negb (i_nlink raw =? getb links ino) then eff_count link_count_wrong 1
    else eff0
  | None => eff0
  end.

Definition link_eff (g : geometry) (links reach : list Z) (ino : Z) : option effect :=
  match inode_eff g ino with None => None | Some _ => Some (link_bad g links reach ino) end.

Lemma links_check g links reach l p :
  rd_geo (p_rd p) = g -> p_seen_links p = links -> p_reachable p = reach ->
  (forall i, i ∈ l -> inode_eff g i <> None) ->
  exists p' e, oconcat (map (link_eff g links reach) l) = Some e /\ foldo check_links p l = Some p' /\ runs p e p' /\
    e_claims e = [] /\ e_named e = [].
Proof.
  revert p. induction l as [|i l IH]; intros p Hg Hl Hr Hf; cbn [map oconcat foldr foldo].
  { exists p, eff0. split_and!; try done. apply runs_refl. }
  fold (oconcat (map (link_eff g links reach) l)).
  assert (S1 : exists p1, check_links p i = Some p1 /\ runs p (link_bad g links reach i) p1).
  { assert (Hi : inode_eff g i <> None) by (apply Hf; left). unfold check_links, link_bad, inode_at.
    destruct (inode_shows (p_rd p) i) as (rd & -> & Gr). rewrite Hg. pose proof (runs_rd p rd Gr) as R.
    unfold inode_eff in Hi. destruct (inode_view g i) as [st o].
    destruct (decide (st = FSCK_READ_UNCORRECTABLE)) as [->|N]; [by exists (set_rd p rd)|].
    destruct o as [raw|]; [|by destruct st].
    assert (Hs : forall X (x y : X), match st with FSCK_READ_UNCORRECTABLE => x | _ => y end = y) by (by destruct st).
    rewrite Hs. clear Hs Hi N st. cbv zeta. unfold reach_bit. cbn [set_rd p_reachable p_seen_links]. rewrite Hl, Hr.
    eexists. split; [reflexivity|].
    assert (Rb : forall c, c <> shared_blocks -> runs p (eff_count c 1) (bump (set_rd p rd) c)).
    { intros c Hc. eapply runs_equiv; [exact (runs_app _ _ _ _ _ R (runs_bump _ c Hc))|done|done|done]. }
    repeat case_match; auto. all: by apply Rb. }
  destruct S1 as (p1 & -> & R1).
  assert (Hb : e_claims (link_bad g links reach i) = [] /\ e_named (link_bad g links reach i) = [])
    by (unfold link_bad; repeat case_match; done). destruct Hb as [Hb1 Hb2].
  destruct (IH p1) as (p2 & e & Eo & -> & R2 & C1 & C2).
  - by eapply runs_same_geo.
  - by rewrite (run_links _ _ _ R1), Hb2.
  - by rewrite (run_reach _ _ _ R1), Hb2.
  - intros x Hx. apply Hf. by right.
  - unfold link_eff at 1. destruct (inode_eff g i) as [ei|] eqn:Ei; [|exfalso; apply (Hf i); [left|done]].
    rewrite Eo. cbn [oapp]. eexists p2, _. split; [reflexivity|]. split; [done|]. split; [by eapply runs_app|].
    cbn. by rewrite Hb1, Hb2, C1, C2.
Qed.

(** What the pass returns on a volume with effects [e]. *)
Definition named_all (g : geometry) : list Z := (if root_ok g then [ROOT_INO] else []) ++ all_targets g.

Record pass_result (g : geometry) (e : effect) (r : fsck_pass6_result) (K : Z) (el : effect) : Prop := {
  pr_root : root_bad r = negb (root_ok g);
  pr_shared : counts r shared_blocks = u32 (snd (foldl (claim1 g) (zeros (g_nblocks g), 0) (e_claims e)));
  pr_counts : forall c, c <> shared_blocks ->
    counts r c = u32 ((if decide (c = duplicate_names) then K else 0) + e_tally e c + e_tally el c);
  pr_dups : 0 <= K <= zlen (all_names g) /\
    (K = 0 -> forall i, 1 <= i <= g_inode_count g -> NoDup (take max_names (inode_names g i)));
  pr_links : oconcat (map (link_eff g (foldl link1 (zeros (g_inode_count g + 1)) (named_all g))
      (foldl reach1 (zeros ((g_inode_count g + 8) / 8)) (named_all g))) (seqZ 1 (g_inode_count g))) = Some el }.

Lemma root_check g p :
  rd_geo (p_rd p) = g -> inode_eff g ROOT_INO <> None ->
  exists p1, check_root p = Some p1 /\
    (if root_ok g then runs p (eff_name ROOT_INO) p1
     else exists p0, runs p eff0 p0 /\ p1 = set_root_bad p0).
Proof.
  intros Hg Hi. unfold check_root, root_ok, inode_at, inode_eff in *.
  destruct (inode_shows (p_rd p) ROOT_INO) as (rd & -> & Gr). rewrite Hg. pose proof (runs_rd p rd Gr) as R.
  destruct (inode_view g ROOT_INO) as [st o].
  destruct (decide (st = FSCK_READ_UNCORRECTABLE)) as [->|N]; [eexists; split; [done|by exists (set_rd p rd)]|].
  destruct o as [raw|]; [|by destruct st].
  assert (Hs : forall X (x y : X), match st with FSCK_READ_UNCORRECTABLE => x | _ => y end = y) by (by destruct st).
  rewrite Hs. eexists. split; [reflexivity|]. unfold is_dir.
  destruct (i_mode raw =? 0); cbn [negb andb]; [by exists (set_rd p rd)|].
  destruct (i_fmt raw =? S_DIR); cbn [negb]; [|by exists (set_rd p rd)].
  eapply runs_equiv; [exact (runs_app _ _ _ _ _ R (runs_named _ ROOT_INO))|done|done|done].
Qed.

Lemma runs_after_root p p' e : runs (set_root_bad p) e p' ->
  exists q, runs p e q /\ p_r p' = Result true (counts (p_r q)) /\ p_seen_links p' = p_seen_links q /\
    p_reachable p' = p_reachable q /\ rd_geo (p_rd p') = rd_geo (p_rd q).
Proof.
  intros [G O S L H C N T]. cbn in *.
  exists (P6 (p_rd p') (p_owner p') (p_seen_links p') (p_reachable p') (p_names p') (Result (root_bad (p_r p)) (counts (p_r p')))).
  split; [by split; cbn|]. cbn. split_and!; try done. destruct (p_r p') as [b ct]. cbn in *. by subst.
Qed.

Lemma root_geo p p1 : check_root p = Some p1 -> rd_geo (p_rd p1) = rd_geo (p_rd p).
Proof.
  unfold check_root. destruct (inode_shows (p_rd p) ROOT_INO) as (rd & -> & Gr). intros E.
  repeat case_match; simplify_eq; done.
Qed.

(** The counters at the end of effects performed on the cleared state. *)
Lemma counts_end rd E q :
  runs (pass6_init rd) E q ->
  counts (p_r q) shared_blocks =
    u32 (snd (foldl (claim1 (rd_geo rd)) (zeros (g_nblocks (rd_geo rd)), 0) (e_claims E))) /\
  forall c, c <> shared_blocks -> counts (p_r q) c = u32 (e_tally E c).
Proof.
  intros R. pose proof (run_range _ _ _ R) as N.
  assert (B : forall c, u32 (counts (p_r q) c) = counts (p_r q) c).
  { intros c. apply Z.mod_small, N. intros c'. cbn. lia. }
  split; [|intros c Hc]; rewrite <- B; [by rewrite (run_shared _ _ _ R)|by rewrite (run_counts _ _ _ R)].
Qed.

(** The loops after the root check, from a state whose names are [first]. *)
Lemma loops_check g e p1 :
  geo_ok g -> volume_eff g = Some e -> rd_geo (p_rd p1) = g ->
  exists p2 p3 K el, foldo check_inode p1 (seqZ 1 (g_inode_count g)) = Some p2 /\
    foldo check_links p2 (seqZ 1 (g_inode_count g)) = Some p3 /\
    runs p1 (eff_app (eff_app (eff_count duplicate_names K) e) el) p3 /\
    e_claims el = [] /\ e_named el = [] /\
    0 <= K <= zlen (all_names g) /\
    (K = 0 -> forall i, 1 <= i <= g_inode_count g -> NoDup (take max_names (inode_names g i))) /\
    oconcat (map (link_eff g (foldl link1 (p_seen_links p1) (all_targets g))
      (foldl reach1 (p_reachable p1) (all_targets g))) (seqZ 1 (g_inode_count g))) = Some el.
Proof.
  intros G Ev Hg. pose proof (inodes_check g (seqZ 1 (g_inode_count g)) p1 G Hg) as I.
  unfold volume_eff in Ev. rewrite Ev in I. destruct I as (p2 & K & E2 & R2 & B & N).
  destruct (links_check g (p_seen_links p2) (p_reachable p2) (seqZ 1 (g_inode_count g)) p2)
    as (p3 & el & Eo & E3 & R3 & C1 & C2); [by eapply runs_same_geo|done|done| |].
  { intros i Hi Hn. destruct (oconcat_some _ _ _ Ev i Hi) as [ex Ex]. congruence. }
  exists p2, p3, K, el. split_and!; try done; [by eapply runs_app|lia|apply B| |].
  - intros Hk i Hi. apply N; [done|]. apply elem_of_seqZ. lia.
  - rewrite (run_links _ _ _ R2), (run_reach _ _ _ R2) in Eo. cbn in Eo. by rewrite (volume_named g e Ev) in Eo.
Qed.

Lemma pass6_spec rd g :
  geo_ok g -> rd_geo rd = g -> 1 <= g_inode_count g ->
  match volume_eff g with
  | None => fsck_pass6 true rd = None
  | Some e => exists r K el, fsck_pass6 true rd = Some (verdict r, Some r) /\ pass_result g e r K el
  end.
Proof.
  intros G Hg Hc. unfold fsck_pass6. cbn [negb]. rewrite Hg.
  assert (Hp0 : rd_geo (p_rd (pass6_init rd)) = g) by done.
  destruct (volume_eff g) as [e|] eqn:Ev.
  2:{ destruct (check_root (pass6_init rd)) as [p1|] eqn:E1; [|done]. apply root_geo in E1. rewrite Hp0 in E1.
      pose proof (inodes_check g (seqZ 1 (g_inode_count g)) p1 G E1) as I. unfold volume_eff in Ev. rewrite Ev in I. by rewrite I. }
  destruct (root_check g (pass6_init rd) Hp0) as (p1 & Er & R1).
  { intros Hn. destruct (oconcat_some _ _ _ Ev ROOT_INO) as [ex Ex]; [|congruence]. apply elem_of_seqZ. unfold ROOT_INO. lia. }
  rewrite Er. pose proof (root_geo _ _ Er) as H1. rewrite Hp0 in H1.
  destruct (loops_check g e p1 G Ev H1) as (p2 & p3 & K & el & -> & -> & R & C1 & C2 & B1 & B2 & Eo).
  exists (p_r p3), K, el. split; [done|].
  assert (W : exists q E, runs (pass6_init rd) E q /\ counts (p_r p3) = counts (p_r q) /\ root_bad (p_r p3) = negb (root_ok g) /\
    e_claims E = e_claims e /\ (forall c, e_tally E c = (if decide (c = duplicate_names) then K else 0) + e_tally e c + e_tally el c) /\
    p_seen_links p1 = foldl link1 (zeros (g_inode_count g + 1)) (if root_ok g then [ROOT_INO] else []) /\
    p_reachable p1 = foldl reach1 (zeros ((g_inode_count g + 8) / 8)) (if root_ok g then [ROOT_INO] else [])).
  { destruct (root_ok g) eqn:Ro.
    - exists p3. eexists. split; [exact (runs_app _ _ _ _ _ R1 R)|]. split; [done|].
      split; [by rewrite (run_root _ _ _ R), (run_root _ _ _ R1)|]. split; [cbn; by rewrite C1, app_nil_r|].
      split; [done|]. rewrite (run_links _ _ _ R1), (run_reach _ _ _ R1), <- Hg. done.
    - destruct R1 as (q0 & R0 & ->). apply runs_after_root in R as (q & R & Ep & _ & _ & _).
      exists q. eexists. split; [exact (runs_app _ _ _ _ _ R0 R)|]. rewrite Ep. split; [done|]. split; [done|].
      split; [cbn; by rewrite C1, app_nil_r|]. split; [done|]. cbn [set_root_bad p_seen_links p_reachable].
      rewrite (run_links _ _ _ R0), (run_reach _ _ _ R0), <- Hg. done. }
  destruct W as (q & E & Rq & Ec & Eb & Ecl & Et & El & Erh). apply counts_end in Rq as [S1 S2]. rewrite Hg, Ecl in S1.
  split; try done.
  - by rewrite Ec.
  - intros c Hcc. by rewrite Ec, S2, Et.
  - rewrite El, Erh in Eo. unfold named_all. by rewrite !foldl_app.
Qed.
