(* ===== verification/FsckSound.v ===== *)
(** * Soundness of pass 6 of fsck.beamfs

    Sharing is reported exactly when there is some; and a volume that pass 6
    calls good has a root directory, no block of the data region in two
    files, directories whose records can be stepped over and name allocated
    inodes, and exact link counts. *)

From stdpp Require Import sets.
From S2P Require Import Prelude Format Dirent FsckRead FsckPass6 FsckEffect FsckWalk FsckSpec.

#[local] Opaque rec_walk.

(** ** Sharing *)

(** None of the pass's counts reaches 2^32. *)
Record counters_fit (g : geometry) : Prop := {
  fit_claims : zlen (claims_of (volume_eff g)) < 2 ^ 32;
  fit_tally : forall c, g_inode_count g + zlen (all_names g) + tally_of (volume_eff g) c < 2 ^ 32 }.

(** No block of the data region belongs to two inodes. *)
Definition unshared (g : geometry) : Prop :=
  forall i j b, 1 <= i <= g_inode_count g -> 1 <= j <= g_inode_count g -> in_region g b ->
    b ∈ owned_blocks g i -> b ∈ owned_blocks g j -> i = j.

Lemma open_geo_ok fd st rd :
  bytes (dv_bytes fd) -> fsck_reader_open true fd = (st, Some rd) -> geo_ok (rd_geo rd) /\ 1 <= g_inode_count (rd_geo rd).
Proof. intros B E. destruct (open_geometry fd st rd B E) as (? & ? & ? & ? & _). split; [split|]; lia. Qed.

(** The result of a run, with the volume's effects. *)
Lemma pass6_result rd rc r :
  geo_ok (rd_geo rd) -> 1 <= g_inode_count (rd_geo rd) -> fsck_pass6 true rd = Some (rc, Some r) ->
  exists e K el, volume_eff (rd_geo rd) = Some e /\ rc = verdict r /\ pass_result (rd_geo rd) e r K el.
Proof.
  intros G Hc E. pose proof (pass6_spec rd (rd_geo rd) G eq_refl Hc) as S. destruct (volume_eff (rd_geo rd)) as [e|].
  - destruct S as (r' & K & el & E' & P). rewrite E in E'. simplify_eq. by exists e, K, el.
  - congruence.
Qed.

Lemma u32_zero n : 0 <= n < 2 ^ 32 -> u32 n = 0 -> n = 0.
Proof. intros H. unfold u32. by rewrite Z.mod_small. Qed.

Lemma shared_zero g e r K el :
  geo_ok g -> counters_fit g -> volume_eff g = Some e -> pass_result g e r K el ->
  counts r shared_blocks = 0 <-> unshared g.
Proof.
  intros G F Ev P. rewrite (pr_shared _ _ _ _ _ P).
  destruct (claims_spec g (e_claims e)) as [_ C Z0]; [apply G| |].
  { intros [b i] Hb. apply (volume_claims g e b i Ev) in Hb. cbn. lia. }
  assert (Hz : zlen (e_claims e) < 2 ^ 32) by (pose proof (fit_claims _ F) as H; by rewrite Ev in H).
  transitivity (snd (foldl (claim1 g) (zeros (g_nblocks g), 0) (e_claims e)) = 0).
  { split; [apply u32_zero; lia|]. by intros ->. }
  rewrite Z0. unfold unshared. split; intros H.
  - intros i j b Hi Hj Hb Bi Bj. apply (H b i j Hb); by apply (volume_claims g e).
  - intros b i j Hb Bi Bj. apply (volume_claims g e b i Ev) in Bi as [? ?]. apply (volume_claims g e b j Ev) in Bj as [? ?]. eauto.
Qed.

Lemma verdict_counts r : verdict r = FSCK_PASS6_OK <-> root_bad r = false /\ forall c, c ∈ p6_damage -> counts r c = 0.
Proof.
  unfold verdict. destruct (root_bad r); cbn [orb]; [split; [done|by intros [? _]]|].
  destruct (existsb _ p6_damage) eqn:E.
  - split; [done|]. intros [_ H]. apply existsb_exists in E as (c & Hc & N). apply list_elem_of_In in Hc. rewrite H in N by done. done.
  - split; [|done]. intros _. split; [done|]. intros c Hc%list_elem_of_In.
    destruct (Z.eqb_spec (counts r c) 0) as [|N]; [done|]. exfalso. apply not_true_iff_false in E. apply E, existsb_exists.
    exists c. split; [done|]. by apply negb_true_iff, Z.eqb_neq.
Qed.

Lemma verdict_cases r : verdict r = FSCK_PASS6_OK \/ verdict r = FSCK_PASS6_UNCORRECTED.
Proof. unfold verdict. destruct (_ || _); auto. Qed.

(** C18: pass 6 reports sharing exactly when a block of the data region
    belongs to two inodes, counting direct blocks, indirect blocks and
    everything the readable ones lead to; and sharing is never a pass. *)
Theorem pass6_finds_sharing fd st rd rc r :
  bytes (dv_bytes fd) -> fsck_reader_open true fd = (st, Some rd) -> counters_fit (rd_geo rd) ->
  fsck_pass6 true rd = Some (rc, Some r) ->
  (counts r shared_blocks = 0 <-> unshared (rd_geo rd)) /\ (~ unshared (rd_geo rd) -> rc = FSCK_PASS6_UNCORRECTED).
Proof.
  intros B O F E. destruct (open_geo_ok fd st rd B O) as [G Hc].
  destruct (pass6_result rd rc r G Hc E) as (e & K & el & Ev & -> & P).
  pose proof (shared_zero _ _ _ _ _ G F Ev P) as S. split; [done|]. intros N.
  destruct (verdict_cases r) as [V|V]; [|done]. apply verdict_counts in V as [_ V]. exfalso. apply N, S, V. left.
Qed.

(** ** What a good verdict means *)

(** The records from [off] can be stepped over, up to the end of the
    payload or a record of length zero. *)
Inductive fsck_chain (flat : list Z) : Z -> list Z -> Prop :=
  | chain_end off : BEAMFS_DATA_INLINE_BYTES < off + BEAMFS_DIRENT_HDR_LEN \/ d_rec_len flat off = 0 ->
      fsck_chain flat off []
  | chain_rec off l : off + BEAMFS_DIRENT_HDR_LEN <= BEAMFS_DATA_INLINE_BYTES -> steppable flat off = true ->
      fsck_chain flat (off + d_rec_len flat off) l -> fsck_chain flat off (off :: l).

(** A record in use names an inode of the table, and not a free one. *)
Definition good_record (g : geometry) (flat : list Z) (off : Z) : Prop :=
  d_ino flat off <> 0 ->
  names_inode g flat off = true /\ forall raw, inode_at g (d_ino flat off) = Some raw -> i_mode raw <> 0.

Record consistent (g : geometry) : Prop := {
  con_root : exists raw, inode_at g ROOT_INO = Some raw /\ i_mode raw <> 0 /\ i_fmt raw = S_DIR;
  con_owner : unshared g;
  con_records : forall i raw blk flat, 1 <= i <= g_inode_count g -> inode_at g i = Some raw -> is_dir raw = true ->
    blk ∈ dir_blocks g raw -> blk <> 0 -> dir_flat g blk = Some flat ->
    exists l, fsck_chain flat 0 l /\ Forall (good_record g flat) l;
  con_names : forall i, 1 <= i <= g_inode_count g -> NoDup (take max_names (inode_names g i));
  con_links : forall i raw, BEAMFS_FIRST_USER_INO <= i <= g_inode_count g -> inode_at g i = Some raw -> i_mode raw <> 0 ->
    i ∈ all_targets g /\ (i_fmt raw <> S_DIR -> i_nlink raw = count_in i (all_targets g)) }.

#[local] Transparent rec_walk.

Lemma rec_walk_chain flat fuel off :
  0 <= off <= BEAMFS_DATA_INLINE_BYTES -> 3828 - off <= 16 * Z.of_nat fuel -> snd (rec_walk fuel flat off) = false ->
  fsck_chain flat off (fst (rec_walk fuel flat off)).
Proof.
  change BEAMFS_DATA_INLINE_BYTES with 3824. revert off. induction fuel as [|fuel IH]; intros off Ho Hf; [lia|].
  cbn [rec_walk]. change BEAMFS_DATA_INLINE_BYTES with 3824. change BEAMFS_DIRENT_HDR_LEN with 12.
  destruct (Z.ltb_spec 3824 (off + 12)); [intros _; constructor; by left|].
  destruct (Z.eqb_spec (d_rec_len flat off) 0); [intros _; constructor; by right|].
  destruct (steppable flat off) eqn:S; cbn [negb]; [|done].
  assert (Hs := S). unfold steppable in Hs. change BEAMFS_DIRENT_MIN_LEN with 16 in Hs. change BEAMFS_DATA_INLINE_BYTES with 3824 in Hs.
  specialize (IH (off + d_rec_len flat off) ltac:(lia) ltac:(lia)).
  destruct (rec_walk fuel flat (off + d_rec_len flat off)) as [l cut]. cbn [fst snd] in *. intros ->.
  constructor; [done|done|]. by apply IH.
Qed.

#[local] Opaque rec_walk.

(** A count that is zero in a pair of effects is zero in each. *)
Lemma oapp_zero a b e c :
  pos_eff a -> pos_eff b -> oapp a b = Some e -> e_tally e c = 0 ->
  exists ea eb, a = Some ea /\ b = Some eb /\ e_tally ea c = 0 /\ e_tally eb c = 0.
Proof.
  intros Pa Pb E Z0. apply oapp_inv in E as (ea & eb & -> & -> & _ & _ & T). specialize (Pa c). specialize (Pb c). cbn in *.
  rewrite T in Z0. exists ea, eb. split_and!; try done; lia.
Qed.

(** Blocks without a bad or a dangling record. *)
Lemma block_good g blk e flat :
  dirblock_eff g blk = Some e -> e_tally e bad_dirents = 0 -> e_tally e dangling_entries = 0 ->
  blk <> 0 -> dir_flat g blk = Some flat ->
  fsck_chain flat 0 (fst (rec_walk rec_fuel flat 0)) /\ Forall (good_record g flat) (fst (rec_walk rec_fuel flat 0)).
Proof.
  unfold dirblock_eff, dir_flat. intros E Zb Zd Nz F. destruct (Z.eqb_spec blk 0) as [|_]; [done|].
  assert (Eb : block_eff g flat = Some e).
  { destruct (dir_view g blk) as [st [f|]]; destruct st; try done; injection F as ->; exact E. } clear E F.
  unfold block_eff, walk_eff in Eb. set (w := rec_walk rec_fuel flat 0) in *.
  assert (Pr : forall o, pos_eff (rec_eff g flat o)).
  { intros o c. unfold rec_eff. repeat case_match; cbn; try case_decide; lia. }
  assert (Pl : pos_eff (Some (if snd w then eff_count bad_dirents 1 else eff0))).
  { intros c. cbn. destruct (snd w); cbn; [case_decide; lia|lia]. }
  destruct (oapp_zero _ _ _ _ (pos_oconcat _ (fst w) Pr) Pl Eb Zb) as (ea & eb & Ea & [= <-] & Za & Zc).
  destruct (oapp_zero _ _ _ _ (pos_oconcat _ (fst w) Pr) Pl Eb Zd) as (ea' & eb' & Ea' & _ & Zd' & _). simplify_eq.
  split.
  - apply rec_walk_chain; [done|done|]. fold w. by destruct (snd w).
  - apply Forall_forall. intros o Ho%list_elem_of_In Hi.
    destruct (oconcat_zero _ _ _ _ Pr Ea Za o Ho) as (ex & Ex & Z1).
    destruct (oconcat_zero _ _ _ _ Pr Ea Zd' o Ho) as (ex' & Ex' & Z2). simplify_eq.
    unfold rec_eff in Ex. destruct (Z.eqb_spec (d_ino flat o) 0); [done|].
    destruct (names_inode g flat o); cbn [negb] in Ex; [|by injection Ex as <-].
    split; [done|]. intros raw Hr Hm. unfold inode_at in Hr.
    destruct (inode_view g (d_ino flat o)) as [st [x|]]; destruct st; try done; injection Hr as ->;
      rewrite Hm in Ex; by injection Ex as <-.
Qed.

(** The same of the blocks of a directory. *)
Lemma directory_good g raw e blk flat :
  dir_eff g raw = Some e -> e_tally e bad_dirents = 0 -> e_tally e dangling_entries = 0 ->
  blk ∈ dir_blocks g raw -> blk <> 0 -> dir_flat g blk = Some flat ->
  exists l, fsck_chain flat 0 l /\ Forall (good_record g flat) l.
Proof.
  intros E Zb Zd Hb Nz F. eexists.
  assert (K : exists eb, dirblock_eff g blk = Some eb /\ e_tally eb bad_dirents = 0 /\ e_tally eb dangling_entries = 0).
  { assert (Kc : forall c, e_tally e c = 0 -> exists eb, dirblock_eff g blk = Some eb /\ e_tally eb c = 0).
    { intros c Zc. unfold dir_eff in E.
      apply (oapp_zero _ _ _ c) in E as (e1 & e2 & E1 & _ & Z1 & _); [|apply pos_oapp; [apply pos_oconcat, pos_dirblock|
        apply pos_oapp; [apply pos_ind_read|apply pos_oconcat, pos_dirblock]]|
        intros c'; cbn; destruct (_ && _); cbn; [lia|case_decide; lia]|done].
      apply (oapp_zero _ _ _ c) in E1 as (e3 & e4 & E3 & E4 & Z3 & Z4); [|apply pos_oconcat, pos_dirblock|
        apply pos_oapp; [apply pos_ind_read|apply pos_oconcat, pos_dirblock]|done].
      apply (oapp_zero _ _ _ c) in E4 as (e5 & e6 & _ & E6 & _ & Z6); [|apply pos_ind_read|apply pos_oconcat, pos_dirblock|done].
      unfold dir_blocks in Hb. apply elem_of_app in Hb as [Hb|Hb].
      - apply (oconcat_zero _ _ _ _ (pos_dirblock g) E3 Z3 _ Hb).
      - apply (oconcat_zero _ _ _ _ (pos_dirblock g) E6 Z6 _ Hb). }
    destruct (Kc _ Zb) as (eb & E1 & Z1). destruct (Kc _ Zd) as (eb' & E2 & Z2). simplify_eq. by exists eb. }
  destruct K as (eb & E1 & Z1 & Z2). by apply (block_good g blk eb).
Qed.

Lemma pos_size g raw n : pos_eff (Some (size_eff g raw n)).
Proof. unfold size_eff. destruct (_ && _); [by apply pos_count|done]. Qed.

Lemma inode_good g ino e raw blk flat :
  inode_eff g ino = Some e -> e_tally e bad_dirents = 0 -> e_tally e dangling_entries = 0 ->
  inode_at g ino = Some raw -> is_dir raw = true -> blk ∈ dir_blocks g raw -> blk <> 0 -> dir_flat g blk = Some flat ->
  exists l, fsck_chain flat 0 l /\ Forall (good_record g flat) l.
Proof.
  intros E Zb Zd R D Hb Nz F.
  assert (K : exists ed, dir_eff g raw = Some ed /\ e_tally ed bad_dirents = 0 /\ e_tally ed dangling_entries = 0).
  { assert (Kc : forall c, e_tally e c = 0 -> exists ed, dir_eff g raw = Some ed /\ e_tally ed c = 0).
    { intros c Zc. unfold inode_eff, inode_at, is_dir, owns_blocks in *.
      assert (E' : oapp (Some (eff_count allocated_inodes 1)) (match count_eff g raw ino with
         | None => None | Some e => oapp (Some (eff_app e (size_eff g raw (zcl e)))) (dir_eff g raw) end) = Some e).
      { apply andb_true_iff in D as [D1 D2].
        destruct (inode_view g ino) as [st [x|]]; destruct st; try done; injection R as ->;
          (destruct (i_mode raw =? 0); [done|]); rewrite D2, orb_true_r in E; exact E. }
      apply (oapp_zero _ _ _ c) in E' as (e1 & e2 & _ & E2 & _ & Z2); [| | |done].
      - pose proof (pos_blocks g raw ino) as C. destruct (count_eff g raw ino) as [ec|]; [|done].
        apply (oapp_zero _ _ _ c) in E2 as (e3 & e4 & _ & E4 & _ & Z4); [by exists e4| |apply pos_dir|done].
        apply pos_some_app; [done|]. apply pos_size.
      - by apply pos_count.
      - pose proof (pos_blocks g raw ino) as C. destruct (count_eff g raw ino) as [ec|]; [|done].
        apply pos_oapp; [|apply pos_dir]. apply pos_some_app; [done|]. apply pos_size. }
    destruct (Kc _ Zb) as (eb & E1 & Z1). destruct (Kc _ Zd) as (eb' & E2 & Z2). simplify_eq. by exists eb. }
  destruct K as (ed & E1 & Z1 & Z2). by apply (directory_good g raw ed blk).
Qed.

(** ** Links *)

Lemma pos_link g links reach ino : pos_eff (link_eff g links reach ino).
Proof. intros c. unfold link_eff, link_bad. repeat case_match; cbn; try case_decide; lia. Qed.

Lemma link_tally_bound g links reach l e c :
  oconcat (map (link_eff g links reach) l) = Some e -> e_tally e c <= zlen l.
Proof.
  revert e. induction l as [|i l IH]; intros e E; [by injection E as <-|].
  cbn [map oconcat foldr] in E. fold (oconcat (map (link_eff g links reach) l)) in E.
  apply oapp_inv in E as (ea & eb & Ea & Eb & _ & _ & T). rewrite T, zlen_cons. specialize (IH eb Eb).
  assert (e_tally ea c <= 1); [|lia]. unfold link_eff, link_bad in Ea.
  repeat case_match; try done; injection Ea as <-; cbn; try case_decide; lia.
Qed.

Lemma named_all_range g t : 1 <= g_inode_count g -> t ∈ named_all g -> 0 <= t <= g_inode_count g.
Proof.
  intros Hc. unfold named_all. rewrite elem_of_app. intros [H|H%target_range]; [|lia].
  destruct (root_ok g); [|by apply elem_of_nil in H]. apply list_elem_of_singleton in H as ->. unfold ROOT_INO. lia.
Qed.

(** Each named inode comes with a name. *)
Lemma targets_names g : zlen (all_targets g) <= zlen (all_names g).
Proof.
  assert (C : forall {A B C} (f : A -> list B) (h : A -> list C) l, (forall x, zlen (f x) <= zlen (h x)) ->
    zlen (concat (map f l)) <= zlen (concat (map h l))).
  { intros A B C f h l H. induction l as [|x l IH]; [done|]. cbn [map concat]. rewrite !zlen_app. specialize (H x). lia. }
  apply C. intros i. unfold inode_targets, inode_names, dir_names, is_dir. destruct (inode_at g i) as [raw|]; [|done].
  destruct (_ && _); [|done]. apply C. intros b. unfold block_targets, dirblock_names, block_names.
  destruct (b =? 0); [done|]. destruct (dir_flat g b) as [flat|]; [|done]. apply C. intros o.
  unfold rec_target, rec_names. destruct (names_inode g flat o); [|done]. by destruct (allocated _ _).
Qed.

Lemma count_in_le t l : count_in t l <= zlen l.
Proof. unfold count_in, zlen. apply inj_le, length_filter. Qed.

Lemma count_in_root g t : ROOT_INO < t -> count_in t (named_all g) = count_in t (all_targets g).
Proof.
  intros H. unfold named_all. destruct (root_ok g); [|done]. unfold count_in. rewrite list.filter_app, zlen_app.
  rewrite filter_cons_False by lia. done.
Qed.

(** An inode whose link count and place in a directory are right. *)
Lemma link_good g i el raw :
  1 <= g_inode_count g -> zlen (all_names g) < 2 ^ 32 ->
  link_eff g (foldl link1 (zeros (g_inode_count g + 1)) (named_all g))
    (foldl reach1 (zeros ((g_inode_count g + 8) / 8)) (named_all g)) i = Some el ->
  e_tally el orphaned_inodes = 0 -> e_tally el link_count_wrong = 0 ->
  BEAMFS_FIRST_USER_INO <= i <= g_inode_count g -> inode_at g i = Some raw -> i_mode raw <> 0 ->
  i ∈ all_targets g /\ (i_fmt raw <> S_DIR -> i_nlink raw = count_in i (all_targets g)).
Proof.
  intros Hc Hn E Zo Zl Hi R Hm. unfold link_eff in E. destruct (inode_eff g i) as [ei|]; [|done]. injection E as <-.
  unfold link_bad in Zo, Zl. rewrite R in Zo, Zl. change BEAMFS_FIRST_USER_INO with 3 in Hi.
  destruct (Z.eqb_spec (i_mode raw) 0) as [|_]; [done|].
  assert (Hr : beamfs_ino_is_reserved i = false) by (unfold beamfs_ino_is_reserved, BEAMFS_FIRST_USER_INO; lia).
  rewrite Hr in Zo, Zl. cbn [negb andb] in Zo, Zl.
  destruct (links_spec (g_inode_count g) (named_all g) i ltac:(lia) (fun x Hx => named_all_range g x Hc Hx) ltac:(lia)) as [L _].
  destruct (reach_spec (g_inode_count g) (named_all g) i ltac:(lia) (fun x Hx => named_all_range g x Hc Hx) ltac:(lia)) as [Rc _].
  pose proof (Z.mod_pos_bound i 8 ltac:(lia)).
  destruct (reach_bit_land (getb (foldl reach1 (zeros ((g_inode_count g + 8) / 8)) (named_all g)) (i / 8)) (i mod 8)) as [Eb|]; [|lia].
  rewrite Eb in Zo, Zl. destruct (Z.testbit _ _); [|by cbn in Zo]. cbn [negb] in Zo, Zl. split.
  - assert (i ∈ named_all g) as Hin by (by apply Rc). unfold named_all in Hin. apply elem_of_app in Hin as [Hin|]; [|done].
    destruct (root_ok g); [|by apply elem_of_nil in Hin]. apply list_elem_of_singleton in Hin. unfold ROOT_INO in Hin. lia.
  - intros Hd. destruct (Z.eqb_spec (i_fmt raw) S_DIR) as [|_]; [done|]. cbn [negb andb] in Zl.
    destruct (Z.eqb_spec (i_nlink raw) (getb (foldl link1 (zeros (g_inode_count g + 1)) (named_all g)) i)) as [En|]; [|by cbn in Zl].
    rewrite En, L, count_in_root by (unfold ROOT_INO; lia). apply Z.mod_small.
    pose proof (count_in_le i (all_targets g)). pose proof (targets_names g). assert (0 <= count_in i (all_targets g)) by apply zlen_nonneg. lia.
Qed.

(** The counters behind a good verdict. *)
Lemma verdict_zero g e r K el :
  counters_fit g -> 1 <= g_inode_count g -> volume_eff g = Some e -> pass_result g e r K el -> verdict r = FSCK_PASS6_OK ->
  root_ok g = true /\ counts r shared_blocks = 0 /\ K = 0 /\
  e_tally e bad_dirents = 0 /\ e_tally e dangling_entries = 0 /\
  e_tally el orphaned_inodes = 0 /\ e_tally el link_count_wrong = 0.
Proof.
  intros F Hc Ev P V. apply verdict_counts in V as [Vr V].
  pose proof (pos_oconcat (inode_eff g) (seqZ 1 (g_inode_count g)) (pos_inode g)) as Pe.
  fold (volume_eff g) in Pe. rewrite Ev in Pe.
  pose proof (pos_oconcat _ (seqZ 1 (g_inode_count g)) (pos_link g (foldl link1 (zeros (g_inode_count g + 1)) (named_all g))
      (foldl reach1 (zeros ((g_inode_count g + 8) / 8)) (named_all g)))) as Pl. rewrite (pr_links _ _ _ _ _ P) in Pl.
  assert (Bl : forall c, e_tally el c <= g_inode_count g).
  { intros c. pose proof (link_tally_bound _ _ _ _ _ c (pr_links _ _ _ _ _ P)) as B.
    unfold zlen in B. rewrite length_seqZ in B. lia. }
  destruct (pr_dups _ _ _ _ _ P) as [BK _]. pose proof (zlen_nonneg (all_names g)).
  assert (Z0 : forall c, c ∈ p6_damage -> c <> shared_blocks ->
    (if decide (c = duplicate_names) then K else 0) = 0 /\ e_tally e c = 0 /\ e_tally el c = 0).
  { intros c Hd N. pose proof (V c Hd) as Vc. rewrite (pr_counts _ _ _ _ _ P) in Vc by done.
    pose proof (fit_tally _ F c) as Ft. rewrite Ev in Ft. specialize (Pe c). specialize (Pl c). specialize (Bl c). cbn in *.
    apply u32_zero in Vc; case_decide; lia. }
  split; [rewrite (pr_root _ _ _ _ _ P) in Vr; by destruct (root_ok g)|]. split; [apply V; left|].
  split; [apply (Z0 duplicate_names); [do 3 right; left|done]|].
  split; [apply (Z0 bad_dirents); [do 1 right; left|done]|]. split; [apply (Z0 dangling_entries); [do 2 right; left|done]|].
  split; [apply (Z0 orphaned_inodes); [do 5 right; left|done]|]. apply (Z0 link_count_wrong); [do 4 right; left|done].
Qed.

(** C17: a good verdict means a good volume, as far as it can be read: the
    root is a directory; no block of the data region is in two files; the
    records of every directory block can be stepped over, and those in use
    name inodes of the table that are not free; the first 4096 names of a
    directory differ; every allocated user inode is named by a directory,
    and the link count of one that is not itself a directory is the number
    of entries that name it. *)
Theorem pass6_ok_sound fd st rd r :
  bytes (dv_bytes fd) -> fsck_reader_open true fd = (st, Some rd) -> counters_fit (rd_geo rd) ->
  fsck_pass6 true rd = Some (FSCK_PASS6_OK, Some r) -> consistent (rd_geo rd).
Proof.
  intros B O F E. destruct (open_geo_ok fd st rd B O) as [G Hc].
  destruct (pass6_result rd _ r G Hc E) as (e & K & el & Ev & V & P). symmetry in V. set (g := rd_geo rd) in *.
  destruct (verdict_zero g e r K el F Hc Ev P V) as (Ro & Sh & -> & Zb & Zd & Zo & Zl). split.
  - unfold root_ok in Ro. destruct (inode_at g ROOT_INO) as [raw|]; [|done]. exists raw. unfold is_dir in Ro.
    split; [done|]. lia.
  - by apply (shared_zero g e r 0 el).
  - intros i raw blk flat Hi R D Hb Nz Fl. assert (Hs : i ∈ seqZ 1 (g_inode_count g)) by (apply elem_of_seqZ; lia).
    destruct (oconcat_zero _ _ _ _ (pos_inode g) Ev Zb i Hs) as (ei & Ei & Z1).
    destruct (oconcat_zero _ _ _ _ (pos_inode g) Ev Zd i Hs) as (ei' & Ei' & Z2). simplify_eq.
    by apply (inode_good g i ei raw blk).
  - intros i Hi. destruct (pr_dups _ _ _ _ _ P) as [_ N]. by apply N.
  - intros i raw Hi R Hm. assert (Hs : i ∈ seqZ 1 (g_inode_count g))
      by (apply elem_of_seqZ; change BEAMFS_FIRST_USER_INO with 3 in Hi; lia).
    destruct (oconcat_zero _ _ _ _ (pos_link g _ _) (pr_links _ _ _ _ _ P) Zo i Hs) as (ei & Ei & Z1).
    destruct (oconcat_zero _ _ _ _ (pos_link g _ _) (pr_links _ _ _ _ _ P) Zl i Hs) as (ei' & Ei' & Z2). simplify_eq.
    apply (link_good g i ei); try done. pose proof (fit_tally _ F shared_blocks) as Ft. rewrite Ev in Ft. cbn in Ft.
    pose proof (pos_oconcat (inode_eff g) (seqZ 1 (g_inode_count g)) (pos_inode g) shared_blocks) as Pe.
    fold (volume_eff g) in Pe. rewrite Ev in Pe. cbn in Pe. lia.
Qed.
