(* ===== verification/FsckProps.v ===== *)
(** * Pass 6 of fsck.beamfs on volumes

    The pass goes wrong exactly when a pointer it follows leaves the device;
    a directory block the kernel wrote is walked record by record as the
    kernel walks it; orphans are counted exactly.  And the volumes, good,
    damaged and inconsistent, on which the theorems are instantiated. *)

From stdpp Require Import sets.
From S2P Require Import Prelude Format Crc RsInit GF RsTheory RsCode RsCorrect RsDecode RsLib RsComplete Edac EdacWord EdacBlock EdacLayouts EdacTheorems Dirent DirentTheorems DirRecords FsckRead FsckPass6 FsckEffect FsckWalk FsckSpec FsckSound.

#[local] Opaque rec_walk.

(** ** Pointers that leave the device *)

Definition vol_end (g : geometry) : Z := g_data_start g + g_nblocks g.

(** The blocks of pointers a tree of [level] levels is walked through. *)
Fixpoint tree_inside (g : geometry) (level : nat) (blk : Z) : bool :=
  match level with
  | O => true
  | S below =>
    (blk =? 0) ||
    ((blk <? vol_end g) && match below with O => true | S _ => forallb (tree_inside g below) (ind_ptrs g blk) end)
  end.

Definition pointers_inside (g : geometry) (ino : Z) : bool :=
  match inode_at g ino with
  | Some raw =>
    if negb (i_mode raw =? 0) && owns_blocks raw then
      tree_inside g 1 (i_indirect raw) && tree_inside g 2 (i_dindirect raw) && tree_inside g 3 (i_tindirect raw) &&
      (if i_fmt raw =? S_DIR then forallb (fun b => b <? vol_end g) (dir_blocks g raw) else true)
    else true
  | None => true
  end.

Lemma inode_at_bytes g ino raw : fits g -> inode_at g ino = Some raw -> bytes raw.
Proof.
  intros F. unfold inode_at, inode_view, fsck_read_inode, fresh. cbn [rd_geo].
  destruct (_ || _); [done|]. destruct (read_exact _ _ _) as [out|] eqn:R; [|done].
  apply read_exact_bytes in R; [|apply F]. destruct (_ =? 0); [by intros [= <-]|]. destruct (_ =? _); [by intros [= <-]|].
  destruct (rs_decode_subblock _ _ _ _) as [|n d p pos] eqn:Ed; [done|]. destruct (negb _); [done|]. intros [= <-].
  apply decode_bytes in Ed as [? ?]. by repeat apply bytes_splice.
Qed.

Lemma ptrs_of_pos raw b : bytes raw -> b ∈ ptrs_of raw -> 0 <= b.
Proof. intros B. unfold ptrs_of. intros (i & <- & _)%list_elem_of_In%in_map_iff. apply get_le64_range, B. Qed.

Lemma ind_ptrs_pos g blk b : fits g -> b ∈ ind_ptrs g blk -> 0 <= b.
Proof.
  intros F. unfold ind_ptrs. destruct (ind_view g blk) as [st [ptrs|]] eqn:E; [|destruct st; intros H; by apply elem_of_nil in H].
  intros Hb. assert (Hp : b ∈ ptrs) by (destruct st; try done; by apply elem_of_nil in Hb). clear Hb.
  unfold ind_view, fsck_read_indirect, fresh in E. cbn [rd_geo] in E. destruct (_ || _); [done|].
  destruct (read_exact _ _ _) as [raw|] eqn:R; [|done]. apply read_exact_bytes in R; [|apply F].
  assert (D : Some (ptrs_of raw) = Some ptrs -> 0 <= b) by (intros [= <-]; by apply (ptrs_of_pos raw)).
  destruct (fsck_parity_slot _ _) as [[[rb off] stride]|]; [|cbn in E; simplify_eq; auto].
  destruct (read_exact _ _ _) as [par|]; [|cbn in E; simplify_eq; auto].
  destruct (ind_region_decode _ _) as [[flat|] r1]; [|cbn in E; simplify_eq; auto].
  unfold check_slot in E. destruct (forallb _ (slice _ _ _)); [cbn in E; simplify_eq; auto|].
  destruct (_ =? BEAMFS_IND_PARITY_CRC); [destruct (forallb _ _); cbn in E; simplify_eq; auto|].
  destruct (decode_all _ _ _) as [[st' work]|] eqn:Ed; [|done]. cbn in E. simplify_eq. apply (ptrs_of_pos work); [|done].
  apply (decode_all_ind _ (fun s => bytes (snd s))) in Ed; [done|done|].
  intros [s1 w1] i [s2 w2] Hs E1. unfold ind_decode_step in E1.
  destruct (rs_decode_subblock _ _ _ _) as [|n d p pos] eqn:E2; [done|]. injection E1 as <- <-. cbn [snd] in *.
  apply bytes_splice; [done|]. apply (decode_bytes _ _ _ _ _ _ _ E2).
Qed.

(** A view that a read fills in, or not. *)
Lemma ind_view_cases g blk :
  fits g -> 0 <= blk -> blk <> 0 ->
  (blk < vol_end g /\ (fst (ind_view g blk) = FSCK_READ_UNCORRECTABLE \/ snd (ind_view g blk) = Some (ind_ptrs g blk) /\
     fst (ind_view g blk) <> FSCK_READ_UNCORRECTABLE)) \/
  (vol_end g <= blk /\ ind_view g blk = (FSCK_READ_IO, None)).
Proof.
  intros F H0 Hn. unfold vol_end. destruct (Z.lt_ge_cases blk (g_data_start g + g_nblocks g)) as [Hl|Hl].
  - left. split; [done|]. pose proof (ind_filled g blk F ltac:(lia)) as Fl. unfold filled, ind_ptrs in *.
    destruct (ind_view g blk) as [st [ptrs|]]; cbn [fst snd] in *; destruct st; auto; exfalso; by apply Fl.
  - right. split; [done|]. by apply ind_unfilled.
Qed.

Lemma tree_none g level blk ino :
  fits g -> 0 <= blk -> tree_eff g level blk ino = None <-> tree_inside g level blk = false.
Proof.
  intros F. revert blk. induction level as [|below IH]; intros blk Hb; cbn [tree_eff tree_inside]; [done|].
  destruct (Z.eqb_spec blk 0) as [|Nz]; [done|]. cbn [orb].
  destruct (ind_view_cases g blk F Hb Nz) as [[Hl Hv]|[Hl Hv]].
  - destruct (Z.ltb_spec blk (vol_end g)); [|lia]. cbn [andb].
    pose proof (fun b Hp => ind_ptrs_pos g blk b F Hp) as Pos.
    assert (Un : fst (ind_view g blk) = FSCK_READ_UNCORRECTABLE -> ind_ptrs g blk = []).
    { unfold ind_ptrs. destruct (ind_view g blk) as [st o]. cbn. by intros ->. }
    destruct (ind_view g blk) as [st o]. cbn [fst snd] in *. destruct Hv as [->|[-> Nu]].
    + rewrite decide_True by done. rewrite Un by done. by destruct below.
    + rewrite decide_False by done. fold (ptr_eff g below ino).
      assert (K : oconcat (map (ptr_eff g below ino) (ind_ptrs g blk)) = None <->
        match below with O => true | S _ => forallb (tree_inside g below) (ind_ptrs g blk) end = false).
      { rewrite oconcat_none. destruct below as [|k].
        - split; [|done]. intros (b & _ & E). unfold ptr_eff in E. by destruct (b =? 0).
        - rewrite <- not_true_iff_false, forallb_forall. split.
          + intros (b & Hp & E) Hf. specialize (Hf b ltac:(by apply list_elem_of_In)). unfold ptr_eff in E.
            destruct (Z.eqb_spec b 0); [done|]. apply IH in E; [congruence|by apply Pos].
          + intros Hf. destruct (decide (Exists (fun b => tree_inside g (S k) b = false) (ind_ptrs g blk))) as [X|X].
            * apply Exists_exists in X as (b & Hp & E). exists b. apply list_elem_of_In in Hp. split; [done|]. unfold ptr_eff.
              destruct (Z.eqb_spec b 0) as [->|]; [done|]. apply IH; [by apply Pos|done].
            * exfalso. apply Hf. intros b Hp. destruct (tree_inside g (S k) b) eqn:E; [done|].
              exfalso. apply X, Exists_exists. eauto. }
      destruct (oconcat _) as [eo|]; cbn [oapp]; [|by rewrite K].
      rewrite <- K. done.
  - destruct (Z.ltb_spec blk (vol_end g)); [lia|]. rewrite Hv. by rewrite decide_False by done.
Qed.

Lemma oapp_none a b : oapp a b = None <-> a = None \/ b = None.
Proof. destruct a, b; cbn; naive_solver. Qed.

Lemma block_some g blk flat : fits g -> dir_flat g blk = Some flat -> exists e, block_eff g flat = Some e.
Proof.
  intros F Hd. apply dir_flat_bytes in Hd as B. unfold block_eff, walk_eff.
  destruct (oconcat (map (rec_eff g flat) (fst (rec_walk rec_fuel flat 0)))) as [e|] eqn:E; [by eexists|].
  apply oconcat_none in E as (o & _ & E). exfalso. unfold rec_eff in E.
  destruct (Z.eqb_spec (d_ino flat o) 0) as [|Nz]; [done|]. destruct (names_inode g flat o) eqn:N; [|done]. cbn [negb] in E.
  pose proof (d_ino_range flat o B). unfold names_inode in N.
  pose proof (inode_filled g (d_ino flat o) F ltac:(lia)) as Fl. unfold filled in Fl.
  destruct (inode_view g (d_ino flat o)) as [st [raw|]]; cbn [fst snd] in Fl; destruct st; try done; by apply Fl.
Qed.

Lemma dirblock_none g blk : fits g -> 0 <= blk -> dirblock_eff g blk = None <-> (blk <? vol_end g) = false.
Proof.
  intros F Hb. pose proof (fit_start _ F). pose proof (fit_blocks _ F). unfold dirblock_eff, vol_end.
  destruct (Z.eqb_spec blk 0) as [->|Nz]; [destruct (Z.ltb_spec 0 (g_data_start g + g_nblocks g)); [done|lia]|].
  destruct (Z.ltb_spec blk (g_data_start g + g_nblocks g)) as [Hl|Hl].
  - split; [|done]. intros E. exfalso. pose proof (dir_filled g blk F ltac:(lia)) as Fl. unfold filled in Fl.
    pose proof (block_some g blk) as Bs. unfold dir_flat in Bs.
    destruct (dir_view g blk) as [st [flat|]]; cbn [fst snd] in *; destruct st; try done;
      try (by apply Fl); destruct (Bs flat F eq_refl) as [e' E']; congruence.
  - split; [done|]. intros _. by rewrite dir_unfilled.
Qed.

Lemma forallb_false {A} (f : A -> bool) l : forallb f l = false <-> exists x, x ∈ l /\ f x = false.
Proof.
  induction l as [|y l IH]; cbn; [split; [done|intros (x & Hx & _); by apply elem_of_nil in Hx]|].
  rewrite andb_false_iff, IH. split.
  - intros [E|(x & Hx & E)]; [exists y; split; [left|done]|exists x; split; [by right|done]].
  - intros (x & [->|Hx]%elem_of_cons & E); eauto.
Qed.

Lemma dir_none g raw :
  fits g -> bytes raw -> (i_indirect raw <? vol_end g) = true ->
  dir_eff g raw = None <-> forallb (fun b => b <? vol_end g) (dir_blocks g raw) = false.
Proof.
  intros F B Hi. unfold dir_eff, dir_blocks. rewrite forallb_app, andb_false_iff, !oapp_none, !oconcat_none, !forallb_false.
  assert (Hr : (if i_indirect raw =? 0 then Some eff0 else ind_read g (i_indirect raw)) = None <-> False).
  { split; [|done]. destruct (Z.eqb_spec (i_indirect raw) 0) as [|Nz]; [done|]. intros E.
    pose proof (get_le64_range raw off_i_indirect B) as R. fold (i_indirect raw) in R.
    destruct (ind_view_cases g (i_indirect raw) F ltac:(lia) Nz) as [[_ Hv]|[Hl _]]; [|lia].
    unfold ind_read in E. destruct (ind_view g (i_indirect raw)) as [st o]. cbn [fst snd] in Hv.
    destruct Hv as [->|[-> Nu]]; [done|by destruct st]. }
  assert (P1 : forall b, b ∈ map (i_direct raw) (upto BEAMFS_DIRECT_BLOCKS) -> 0 <= b).
  { intros b (i & <- & _)%list_elem_of_In%in_map_iff. apply (get_le64_range raw _ B). }
  assert (P2 : forall b, b ∈ (if i_indirect raw =? 0 then [] else ind_ptrs g (i_indirect raw)) -> 0 <= b).
  { intros b. destruct (_ =? 0); [intros H; by apply elem_of_nil in H|]. by apply ind_ptrs_pos. }
  assert (K : forall l : list Z, (forall b, b ∈ l -> 0 <= b) ->
    (exists b, b ∈ l /\ dirblock_eff g b = None) <-> exists b, b ∈ l /\ (b <? vol_end g) = false).
  { intros l P. split; intros (b & Hb & E); exists b; (split; [done|]); by apply (dirblock_none g b F (P b Hb)). }
  rewrite (K _ P1), (K _ P2), Hr. naive_solver.
Qed.

Lemma count_none g raw ino :
  fits g -> bytes raw ->
  count_eff g raw ino = None <->
  tree_inside g 1 (i_indirect raw) && tree_inside g 2 (i_dindirect raw) && tree_inside g 3 (i_tindirect raw) = false.
Proof.
  intros F B. unfold count_eff. rewrite oapp_none, oconcat_none.
  assert (D : (exists x, x ∈ upto BEAMFS_DIRECT_BLOCKS /\ direct_eff raw ino x = None) <-> False).
  { split; [|done]. intros (i & _ & E). unfold direct_eff in E. by destruct (_ =? 0). }
  cbn [map oconcat foldr]. rewrite D, !oapp_none, !andb_false_iff.
  rewrite !tree_none by (done || apply (get_le64_range raw _ B)).
  assert (N : Some eff0 = None <-> False) by done. rewrite N. tauto.
Qed.

Lemma inode_none g ino :
  fits g -> 1 <= ino <= g_inode_count g -> inode_eff g ino = None <-> pointers_inside g ino = false.
Proof.
  intros F Hi. pose proof (inode_filled g ino F Hi) as Fl. pose proof (inode_at_bytes g ino) as Bt.
  unfold inode_eff, pointers_inside, inode_at, filled in *.
  destruct (inode_view g ino) as [st o]. cbn [fst snd] in *.
  destruct (decide (st = FSCK_READ_UNCORRECTABLE)) as [->|N]; [done|]. destruct o as [raw|]; [|by destruct Fl].
  assert (Hs : forall X (x y : X), match st with FSCK_READ_UNCORRECTABLE => x | _ => y end = y) by (by destruct st).
  rewrite !Hs in *. specialize (Bt raw F eq_refl).
  assert (Ho : match st with FSCK_READ_UNCORRECTABLE => Some (eff_count unreadable_inodes 1)
    | _ => if i_mode raw =? 0 then Some eff0
    else if negb (owns_blocks raw) then Some (eff_count allocated_inodes 1)
    else oapp (Some (eff_count allocated_inodes 1)) (match count_eff g raw ino with
         | None => None
         | Some e => oapp (Some (eff_app e (size_eff g raw (zcl e)))) (if i_fmt raw =? S_DIR then dir_eff g raw else Some eff0)
         end) end = None <->
    (if negb (i_mode raw =? 0) && owns_blocks raw then
      tree_inside g 1 (i_indirect raw) && tree_inside g 2 (i_dindirect raw) && tree_inside g 3 (i_tindirect raw) &&
      (if i_fmt raw =? S_DIR then forallb (fun b => b <? vol_end g) (dir_blocks g raw) else true) else true) = false).
  2:{ by destruct st. }
  rewrite Hs. clear Hs N Fl st. destruct (i_mode raw =? 0); [done|]. cbn [negb andb].
  destruct (owns_blocks raw); cbn [negb]; [|done]. rewrite oapp_none, andb_false_iff.
  pose proof (count_none g raw ino F Bt) as C. destruct (count_eff g raw ino) as [e|].
  - assert (T : tree_inside g 1 (i_indirect raw) && tree_inside g 2 (i_dindirect raw) && tree_inside g 3 (i_tindirect raw) = true).
    { apply not_false_iff_true. intros E. by apply C in E. }
    assert (Hin : (i_indirect raw <? vol_end g) = true).
    { apply andb_true_iff in T as [T _]. apply andb_true_iff in T as [T _]. cbn [tree_inside] in T.
      pose proof (fit_start _ F). pose proof (fit_blocks _ F). unfold vol_end in *. lia. }
    rewrite oapp_none. rewrite T. destruct (i_fmt raw =? S_DIR); [rewrite (dir_none g raw F Bt Hin); naive_solver|naive_solver].
  - assert (E : tree_inside g 1 (i_indirect raw) && tree_inside g 2 (i_dindirect raw) && tree_inside g 3 (i_tindirect raw) = false)
      by (by apply C). rewrite E. naive_solver.
Qed.

(** C19: pass 6 goes on with bytes no read filled in exactly when, among the
    pointers it follows, one leaves the device: a block of pointers of a
    file or directory, or a block of records.  On every other volume that
    its device holds in full it returns one of its verdicts. *)
Theorem pass6_wrong_iff rd :
  fits (rd_geo rd) -> 1 <= g_inode_count (rd_geo rd) ->
  (fsck_pass6 true rd = None <-> exists i, 1 <= i <= g_inode_count (rd_geo rd) /\ pointers_inside (rd_geo rd) i = false) /\
  ((forall i, 1 <= i <= g_inode_count (rd_geo rd) -> pointers_inside (rd_geo rd) i = true) ->
   exists rc r, fsck_pass6 true rd = Some (rc, Some r) /\ (rc = FSCK_PASS6_OK \/ rc = FSCK_PASS6_UNCORRECTED)).
Proof.
  intros F Hc. set (g := rd_geo rd) in *.
  assert (G : geo_ok g).
  { pose proof (fit_start _ F). pose proof (fit_blocks _ F). pose proof (fit_end _ F). pose proof (fit_size _ F).
    change BEAMFS_BLOCK_SIZE with 4096 in *. split; lia. }
  pose proof (pass6_spec rd g G eq_refl Hc) as S.
  assert (V : volume_eff g = None <-> exists i, 1 <= i <= g_inode_count g /\ pointers_inside g i = false).
  { unfold volume_eff. rewrite oconcat_none. split; intros (i & Hi & E); exists i.
    - apply elem_of_seqZ in Hi. assert (1 <= i <= g_inode_count g) by lia. split; [done|]. by apply inode_none.
    - split; [apply elem_of_seqZ; lia|]. by apply inode_none. }
  destruct (volume_eff g) as [e|] eqn:E.
  - destruct S as (r & K & el & Er & _). split.
    + rewrite Er, <- V. done.
    + intros _. exists (verdict r), r. split; [done|apply verdict_cases].
  - split; [by rewrite <- V|]. intros H. exfalso. destruct V as [V _]. destruct (V eq_refl) as (i & Hi & Ei). by rewrite H in Ei.
Qed.

(** ** Blocks the kernel wrote *)

Section kernel.
Context `{RL : !RsLib} `{RS : !RsLibSpec} (t : rs_tables) (cpu : nat).
Context (Hctrl : ctrl_here t cpu = true).

(** One codeword of an alternating block with at most eight damaged symbols. *)
Lemma alternating_decode mem enc hit i :
  encoded alternating mem enc -> zlen mem = 4096 -> bytes mem -> zlen hit = 4096 -> bytes hit -> 0 <= i < 16 ->
  damage alternating enc hit i <= 8 ->
  rs_decode_subblock codec (slice hit (i * 255) 239) 239 (slice hit (i * 255 + 239) 16) =
  Decoded (damage alternating hit enc i) (slice mem (i * 255) 239) (encode_rs8 (slice mem (i * 255) 239))
    (filter (fun k => getb (slice hit (i * 255) 239) k <> getb (slice mem (i * 255) 239) k) (upto 239)).
Proof.
  intros En Zm Bm Zh Bh Hi D. pose proof (en_len _ _ _ En) as Ze.
  assert (Hp : forall m, cw_par alternating m i = slice m (i * 255 + 239) 16).
  { intros m. unfold cw_par. f_equal. cbn. unfold BEAMFS_SUBBLOCK_TOTAL, BEAMFS_SUBBLOCK_DATA, BEAMFS_RS_PARITY. lia. }
  assert (Hd : forall m, zlen m = 4096 -> cw_data alternating m i = slice m (i * 255) 239) by (intros; by apply alternating_data).
  assert (Ee : cw alternating enc i = slice mem (i * 255) 239 ++ encode_rs8 (slice mem (i * 255) 239)).
  { unfold cw. by rewrite (en_data _ _ _ En i Hi), (en_par _ _ _ En i Hi), Hd. }
  assert (Eh : cw alternating hit i = slice hit (i * 255) 239 ++ slice hit (i * 255 + 239) 16) by (unfold cw; by rewrite Hd, Hp).
  unfold damage in *. rewrite Ee, Eh in *.
  assert (L1 : zlen (slice hit (i * 255) 239) = 239) by (rewrite zlen_slice; lia).
  assert (L2 : zlen (slice mem (i * 255) 239) = 239) by (rewrite zlen_slice; lia).
  assert (B2 : bytes (slice mem (i * 255) 239)) by (by apply bytes_slice).
  pose proof (decode_within (slice mem (i * 255) 239) (encode_rs8 (slice mem (i * 255) 239))
    (slice hit (i * 255) 239) (slice hit (i * 255 + 239) 16)) as W. rewrite L1 in W. apply W; try done.
  - apply encode_rs8_bytes; [done|lia].
  - by apply bytes_slice.
  - by apply bytes_slice.
  - lia.
  - apply encode_rs8_len; [done|lia].
  - rewrite zlen_slice; lia.
  - apply encode_rs8_codeword; [done|lia].
Qed.

(** The payload of the whole block, and CORRECTED when it needed it. *)
Lemma alternating_read mem enc hit (r : fsck_reader) :
  encoded alternating mem enc -> zlen mem = 4096 -> bytes mem -> zlen hit = 4096 -> bytes hit ->
  (forall i, 0 <= i < 16 -> damage alternating enc hit i <= 8) ->
  exists st r', read_alternating r hit BEAMFS_DATA_INLINE_SUBBLOCKS =
    (st, Some (concat (map (fun i => slice mem (i * 255) 239) (upto 16))), r') /\
    st = if forallb (fun i => damage alternating hit enc i =? 0) (upto 16) then FSCK_READ_CLEAN else FSCK_READ_CORRECTED.
Proof.
  intros En Zm Bm Zh Bh D. unfold read_alternating, decode_all. change BEAMFS_DATA_INLINE_SUBBLOCKS with 16.
  set (P := fun j (acc : option (fsck_read_status * list Z)) => j <= 16 ->
    acc = Some (if forallb (fun i => damage alternating hit enc i =? 0) (upto j) then FSCK_READ_CLEAN else FSCK_READ_CORRECTED,
                concat (map (fun i => slice mem (i * 255) 239) (upto j)))).
  assert (H : P 16 (foldl (fun acc i => match acc with None => None | Some s => alternating_step hit s i end)
                      (Some (FSCK_READ_CLEAN, [])) (upto 16))).
  { apply (foldl_upto_ind _ P); [lia|by intros _|]. intros i acc Hi IH _. rewrite IH by lia. unfold alternating_step.
    change BEAMFS_SUBBLOCK_TOTAL with 255. change BEAMFS_SUBBLOCK_DATA with 239. change BEAMFS_RS_PARITY with 16.
    rewrite (alternating_decode mem enc hit i) by (done || by apply D). cbn [fst snd].
    rewrite upto_succ, forallb_app, map_app, concat_app by lia. cbn [map concat forallb]. rewrite app_nil_r, andb_true_r.
    pose proof (hamming_le (cw alternating hit i) (cw alternating enc i)) as Hh. fold (damage alternating hit enc i) in Hh.
    f_equal. f_equal. destruct (forallb _ (upto i)); destruct (Z.eqb_spec (damage alternating hit enc i) 0) as [E|N];
      destruct (Z.ltb_spec 0 (damage alternating hit enc i)); cbn [andb]; try done; lia. }
  rewrite H by lia. by do 2 eexists.
Qed.
End kernel.

Lemma subblocks_payload (mem b : list Z) :
  zlen b = 4096 -> (forall i, 0 <= i < 16 -> slice mem (i * 255) 239 = slice b (i * 239) 239) ->
  concat (map (fun i => slice mem (i * 255) 239) (upto 16)) = slice b 0 3824.
Proof.
  intros Zb H.
  assert (K : forall j, 0 <= j -> j <= 16 -> concat (map (fun i => slice mem (i * 255) 239) (upto j)) = slice b 0 (239 * j)).
  { apply (natlike_ind (fun j => j <= 16 -> concat (map (fun i => slice mem (i * 255) 239) (upto j)) = slice b 0 (239 * j))); [done|].
    intros j Hj IH Hl. rewrite <- Z.add_1_r, upto_succ, map_app, concat_app, IH by lia. cbn [map concat]. rewrite app_nil_r, H by lia.
    apply bytes_ext; rewrite zlen_app, !zlen_slice by lia; [lia|]. intros k Hk.
    rewrite getb_app, zlen_slice by lia. case_decide; rewrite !getb_slice by lia; f_equal; lia. }
  rewrite K by lia. done.
Qed.

(** Fields of a record that lies in the payload. *)
Lemma payload_fields b o :
  zlen b = 4096 -> 0 <= o -> o + 12 <= 3824 ->
  d_ino (slice b 0 3824) o = d_ino b o /\ d_rec_len (slice b 0 3824) o = d_rec_len b o /\
  d_name_len (slice b 0 3824) o = d_name_len b o.
Proof.
  intros Zb Ho He.
  assert (K : forall off n, 0 <= off -> 0 <= n -> off + n <= 3824 -> slice (slice b 0 3824) off n = slice b off n).
  { intros off n H1 H2 H3. assert (zlen (slice b 0 3824) = 3824) by (rewrite zlen_slice; lia).
    apply bytes_ext; rewrite !zlen_slice by lia; [done|]. intros k Hk. by rewrite !getb_slice by lia. }
  unfold d_ino, d_rec_len, d_name_len, get_le64, get_le16. rewrite !K by lia. rewrite getb_slice by lia. done.
Qed.

(** The loop's body on each of the records at [l]. *)
Definition visit_all (flat : list Z) (st : Z * p6) (l : list Z) : option (Z * p6) :=
  foldo (fun '(nn, p) o => visit_record p flat o nn) st l.

(** Over the chain of records the kernel keeps, the walk visits each record
    in turn and complains of none. *)
Lemma chain_walk b l a fuel p nn :
  bytes b -> zlen b = 4096 -> recs b a 3824 l -> Forall (fun o => Z.land (d_rec_len b o) 3 = 0) l ->
  0 <= a <= 3824 -> 3828 - a <= 16 * Z.of_nat fuel ->
  walk_records fuel p (slice b 0 3824) a nn = visit_all (slice b 0 3824) (nn, p) l.
Proof.
  intros B Zb H. revert a H fuel p nn. induction l as [|o l IH]; intros a H fuel p nn Al Ha Hf; destruct fuel as [|fuel]; try lia.
  - apply recs_nil_inv in H as ->. done.
  - apply recs_cons_inv in H as (-> & V & H). apply valid_spec in V; [|done|done].
    inversion Al as [|? ? A1 A2]; subst. destruct (payload_fields b o Zb ltac:(lia) ltac:(lia)) as (_ & F2 & _).
    cbn [walk_records]. rewrite F2. change (BEAMFS_DIRENT_ALIGN - 1) with 3. rewrite A1. dir_consts.
    destruct (Z.ltb_spec 3824 (o + 12)); [lia|]. destruct (Z.eqb_spec (d_rec_len b o) 0); [lia|].
    destruct (Z.ltb_spec (d_rec_len b o) 16); [lia|]. destruct (Z.ltb_spec 3824 (o + d_rec_len b o)); [lia|]. cbn [orb negb Z.eqb].
    unfold visit_all. cbn [foldo]. destruct (visit_record _ _ _ _) as [[nn' p']|]; [|done]. apply IH; [done|done|lia|lia].
Qed.

Lemma chain_inos b l a :
  bytes b -> zlen b = 4096 -> recs b a 3824 l -> 0 <= a <= 3824 -> Forall (fun o => d_ino (slice b 0 3824) o = d_ino b o) l.
Proof.
  intros B Zb H. revert a H. induction l as [|o l IH]; intros a H Ha; [constructor|].
  apply recs_cons_inv in H as (-> & V & H). apply valid_spec in V; [|done|done].
  constructor; [by destruct (payload_fields b o Zb ltac:(lia) ltac:(lia))|]. apply (IH _ H). lia.
Qed.

(** C20: a directory block the kernel wrote, whose record lengths are
    multiples of four, with up to eight damaged symbols in each codeword,
    reads in fsck as the payload the kernel put there, clean exactly when
    nothing was damaged, and pass 6 walks it record by record as the kernel
    does: it visits each record of the chain in turn and no other, without
    a complaint about their lengths, seeing the inode numbers of the
    entries. *)
Theorem fsck_walks_kernel_block `{RL : !RsLib} `{RS : !RsLibSpec} t cpu (p : p6) blk nnames (b : list Z) (l : list Z) :
  let g := rd_geo (p_rd p) in
  ctrl_here t cpu = true -> wf_payload b l -> Forall (fun o => Z.land (d_rec_len b o) (BEAMFS_DIRENT_ALIGN - 1) = 0) l ->
  fits g -> 0 < blk < g_data_start g + g_nblocks g ->
  let hit := slice (dv_bytes (g_fd g)) (blk * BEAMFS_BLOCK_SIZE) BEAMFS_BLOCK_SIZE in
  (forall i, 0 <= i < 16 -> damage alternating (beamfs_dirent_encode t cpu b) hit i <= 8) ->
  exists rd, rd_geo rd = g /\
    fsck_read_dirblock (p_rd p) blk =
      (if forallb (fun i => damage alternating hit (beamfs_dirent_encode t cpu b) i =? 0) (upto 16)
       then FSCK_READ_CLEAN else FSCK_READ_CORRECTED, Some (slice b 0 BEAMFS_DATA_INLINE_BYTES), rd) /\
    walk_dir_block p blk nnames = visit_all (slice b 0 BEAMFS_DATA_INLINE_BYTES) (nnames, set_rd p rd) l /\
    map (d_ino (slice b 0 BEAMFS_DATA_INLINE_BYTES)) (filter (fun o => d_ino b o <> 0) l) = map e_ino (entries b l).
Proof.
  intros g Hc [B Zb R _] Al F Hb hit D. change BEAMFS_BLOCK_SIZE with 4096 in *. change BEAMFS_DATA_INLINE_BYTES with 3824.
  pose proof (fit_end _ F). pose proof (fit_size _ F). pose proof (fit_start _ F). change BEAMFS_BLOCK_SIZE with 4096 in *.
  assert (Zh : zlen hit = 4096) by (unfold hit; rewrite zlen_slice; lia).
  assert (Bh : bytes hit) by apply bytes_slice, F.
  destruct (spread_spec b Zb B) as (Zs & Bs & Ds). pose proof (dirent_encode_spec t cpu Hc b Zb B) as En.
  pose proof (chain_inos b l 0 B Zb R ltac:(lia)) as I.
  assert (V : dir_view g blk = (if forallb (fun i => damage alternating hit (beamfs_dirent_encode t cpu b) i =? 0) (upto 16)
    then FSCK_READ_CLEAN else FSCK_READ_CORRECTED, Some (slice b 0 3824))).
  { unfold dir_view, fsck_read_dirblock, fsck_read_data, set_interleaved, fresh.
    cbn [rd_geo g_data_start g_nblocks g_fd g_interleaved]. rewrite (end_u64 _ F).
    destruct (Z.eqb_spec blk 0); [lia|]. destruct (Z.leb_spec (g_data_start g + g_nblocks g) blk); [lia|]. cbn [orb].
    rewrite block_read by (done || lia). change BEAMFS_BLOCK_SIZE with 4096. fold hit.
    match goal with |- context [read_alternating ?r hit _] =>
      destruct (alternating_read (dirent_spread b) (beamfs_dirent_encode t cpu b) hit r En Zs Bs Zh Bh D) as (st & r' & -> & ->) end.
    cbn [fst]. f_equal. f_equal. by apply subblocks_payload. }
  destruct (dir_shows (p_rd p) blk) as (rd & Er & Eg). fold g in Er, Eg. rewrite V in Er.
  exists rd. split; [done|]. split; [done|]. split.
  - unfold walk_dir_block. rewrite Er. set (st := if forallb _ _ then _ else _). rewrite decide_False by (unfold st; by destruct (forallb _ _)).
    exact (chain_walk b l 0 rec_fuel (set_rd p rd) nnames B Zb R Al ltac:(lia) ltac:(by vm_compute)).
  - unfold entries. rewrite map_map. clear -I. induction I as [|o l Ho I IH]; [done|].
    destruct (decide (d_ino b o = 0)) as [E|E].
    + rewrite !filter_cons_False by lia. done.
    + rewrite !filter_cons_True by done. cbn [map]. by rewrite IH, Ho.
Qed.

(** ** Orphans *)

(** An allocated user inode that no directory names. *)
Definition unnamed (g : geometry) (i : Z) : Prop :=
  BEAMFS_FIRST_USER_INO <= i /\ allocated g i = true /\ i ∉ all_targets g.
#[local] Instance unnamed_dec g i : Decision (unnamed g i) := _.

Lemma orphan_tally g i el :
  1 <= g_inode_count g -> 1 <= i <= g_inode_count g ->
  link_eff g (foldl link1 (zeros (g_inode_count g + 1)) (named_all g))
    (foldl reach1 (zeros ((g_inode_count g + 8) / 8)) (named_all g)) i = Some el ->
  e_tally el orphaned_inodes = if decide (unnamed g i) then 1 else 0.
Proof.
  intros Hc Hi E. unfold link_eff in E. destruct (inode_eff g i) as [ei|]; [|done]. injection E as <-.
  destruct (reach_spec (g_inode_count g) (named_all g) i ltac:(lia) (fun x Hx => named_all_range g x Hc Hx) ltac:(lia)) as [Rc _].
  pose proof (Z.mod_pos_bound i 8 ltac:(lia)).
  destruct (reach_bit_land (getb (foldl reach1 (zeros ((g_inode_count g + 8) / 8)) (named_all g)) (i / 8)) (i mod 8)) as [Eb|]; [|lia].
  assert (Hr : beamfs_ino_is_reserved i = false <-> BEAMFS_FIRST_USER_INO <= i) by (unfold beamfs_ino_is_reserved; lia).
  assert (Hn : BEAMFS_FIRST_USER_INO <= i -> i ∈ named_all g <-> i ∈ all_targets g).
  { intros H3. unfold named_all. rewrite elem_of_app. split; [|by right]. intros [Hx|]; [|done].
    destruct (root_ok g); [|by apply elem_of_nil in Hx]. apply list_elem_of_singleton in Hx.
    unfold ROOT_INO, BEAMFS_FIRST_USER_INO in *. lia. }
  unfold link_bad. rewrite Eb. destruct (decide (unnamed g i)) as [(U1 & U2 & U3)|U].
  - unfold allocated in U2. destruct (inode_at g i) as [raw|]; [|done]. destruct (i_mode raw =? 0); [done|].
    rewrite (proj2 Hr U1). cbn [negb andb]. destruct (Z.testbit _ _); cbn [negb]; [|done].
    exfalso. apply U3, Hn, Rc; done.
  - unfold unnamed, allocated in U. destruct (inode_at g i) as [raw|]; [|done]. destruct (i_mode raw =? 0); [done|].
    destruct (beamfs_ino_is_reserved i); cbn [negb andb]; [repeat case_match; done|].
    destruct (Z.testbit _ _); cbn [negb]; [repeat case_match; done|].
    exfalso. apply U. split; [by apply Hr|]. split; [done|]. intros H3. apply Hn, Rc in H3; [done|by apply Hr].
Qed.

(** The walks of the first loop count neither orphans nor links. *)
Definition quiet (oe : option effect) : Prop := tally_of oe orphaned_inodes = 0.

Lemma quiet_oapp a b : quiet a -> quiet b -> quiet (oapp a b).
Proof. unfold quiet. destruct a, b; cbn; lia. Qed.

Lemma quiet_oconcat {A} (f : A -> option effect) l : (forall x, quiet (f x)) -> quiet (oconcat (map f l)).
Proof. intros H. induction l as [|x l IH]; [done|]. cbn [map oconcat foldr]. apply quiet_oapp; [apply H|apply IH]. Qed.

Lemma quiet_tree g level blk ino : quiet (tree_eff g level blk ino).
Proof.
  revert blk. induction level as [|below IH]; intros blk; cbn [tree_eff]; [done|].
  destruct (blk =? 0); [done|]. destruct (ind_view g blk) as [ist [ptrs|]]; case_decide; try done.
  apply quiet_oapp; [unfold ind_note, quiet; repeat case_match; done|]. apply quiet_oconcat. intros b.
  destruct (b =? 0); [done|]. by destruct below.
Qed.

Lemma quiet_dirblock g blk : quiet (dirblock_eff g blk).
Proof.
  unfold dirblock_eff. destruct (blk =? 0); [done|].
  assert (W : forall flat, quiet (block_eff g flat)).
  { intros flat. unfold block_eff, walk_eff. apply quiet_oapp; [apply quiet_oconcat|by destruct (snd _)].
    intros o. unfold rec_eff, quiet. repeat case_match; done. }
  destruct (dir_view g blk) as [st [flat|]]; destruct st; done || apply W.
Qed.

Lemma quiet_inode g ino : quiet (inode_eff g ino).
Proof.
  assert (C : forall raw, quiet (count_eff g raw ino)).
  { intros raw. unfold count_eff. apply quiet_oapp; apply quiet_oconcat.
    - intros i. unfold direct_eff. by destruct (_ =? _).
    - intros [level blk]. apply quiet_tree. }
  assert (Dr : forall raw, quiet (dir_eff g raw)).
  { intros raw. unfold dir_eff. apply quiet_oapp; [apply quiet_oapp; [apply quiet_oconcat, quiet_dirblock|]|by destruct (_ && _)].
    apply quiet_oapp; [|apply quiet_oconcat, quiet_dirblock]. unfold ind_read, quiet. repeat case_match; done. }
  unfold inode_eff.
  assert (W : forall raw, quiet (if i_mode raw =? 0 then Some eff0
    else if negb (owns_blocks raw) then Some (eff_count allocated_inodes 1)
    else oapp (Some (eff_count allocated_inodes 1)) (match count_eff g raw ino with
         | None => None
         | Some e => oapp (Some (eff_app e (size_eff g raw (zcl e)))) (if i_fmt raw =? S_DIR then dir_eff g raw else Some eff0)
         end))).
  { intros raw. destruct (_ =? 0); [done|]. destruct (negb _); [done|]. apply quiet_oapp; [done|].
    specialize (C raw). destruct (count_eff g raw ino) as [e|]; [|done].
    apply quiet_oapp; [|destruct (_ =? S_DIR); [apply Dr|done]].
    apply (quiet_oapp (Some e) (Some (size_eff g raw (zcl e)))); [done|]. unfold size_eff. by destruct (_ && _). }
  destruct (inode_view g ino) as [st [raw|]]; destruct st; done || apply W.
Qed.

(** C21: what pass 6 counts as orphaned is exactly the allocated user inodes
    that no directory names, whether or not the root leads to that
    directory.  A directory that holds its own entry, as every directory
    the kernel makes does, names itself and is never counted. *)
Theorem orphan_census fd st rd rc r :
  bytes (dv_bytes fd) -> fsck_reader_open true fd = (st, Some rd) -> counters_fit (rd_geo rd) ->
  fsck_pass6 true rd = Some (rc, Some r) ->
  counts r orphaned_inodes = zlen (filter (unnamed (rd_geo rd)) (seqZ 1 (g_inode_count (rd_geo rd)))) /\
  forall i, 1 <= i <= g_inode_count (rd_geo rd) -> i ∈ inode_targets (rd_geo rd) i -> ~ unnamed (rd_geo rd) i.
Proof.
  intros B O F E. destruct (open_geo_ok fd st rd B O) as [G Hc].
  destruct (pass6_result rd rc r G Hc E) as (e & K & el & Ev & _ & P). set (g := rd_geo rd) in *. split.
  - rewrite (pr_counts _ _ _ _ _ P), decide_False by done.
    pose proof (quiet_oconcat (inode_eff g) (seqZ 1 (g_inode_count g)) (quiet_inode g)) as Q.
    fold (volume_eff g) in Q. unfold quiet in Q. rewrite Ev in Q. cbn [tally_of] in Q. rewrite Q, !Z.add_0_l.
    pose proof (pr_links _ _ _ _ _ P) as El.
    assert (Hb : 0 <= zlen (filter (unnamed g) (seqZ 1 (g_inode_count g))) < 2 ^ 32).
    { pose proof (fit_tally _ F orphaned_inodes) as Ft. rewrite Ev in Ft. cbn in Ft. rewrite Q in Ft.
      pose proof (zlen_nonneg (all_names g)). split; [apply zlen_nonneg|].
      pose proof (length_filter (unnamed g) (seqZ 1 (g_inode_count g))) as Hf. rewrite length_seqZ in Hf. unfold zlen. lia. }
    transitivity (u32 (zlen (filter (unnamed g) (seqZ 1 (g_inode_count g))))); [|by apply Z.mod_small]. f_equal. clear Hb Q.
    assert (Hl : forall i, i ∈ seqZ 1 (g_inode_count g) -> 1 <= i <= g_inode_count g) by (intros i Hi%elem_of_seqZ; lia).
    clear -Hc El Hl. revert el El Hl. induction (seqZ 1 (g_inode_count g)) as [|i l IH]; intros el El Hl;
      [by injection El as <-|].
    cbn [map oconcat foldr] in El. apply oapp_inv in El as (ea & eb & Ea & Eb & _ & _ & T). rewrite T.
    rewrite (orphan_tally g i ea Hc (Hl i ltac:(left)) Ea), (IH eb Eb) by (intros j Hj; apply Hl; by right).
    case_decide; [rewrite filter_cons_True by done; rewrite zlen_cons; lia|rewrite filter_cons_False by done; lia].
  - intros i Hi Hs (_ & _ & N). apply N. unfold all_targets. apply elem_of_concat_map. exists i. split; [|done].
    apply elem_of_seqZ. lia.
Qed.

(** ** Volumes *)

(** A superblock with its parity, for four blocks and more: table in block
    1, data from block 2, no parity region. *)
Definition mk_super (nblocks : Z) : list Z :=
  let sb := put_le64 (zeros BEAMFS_BLOCK_SIZE) off_s_block_count (2 + nblocks) in
  let sb := put_le64 (put_le64 (put_le64 sb off_s_inode_table_blk 1) off_s_data_start_blk 2) off_s_inode_count 6 in
  foldl (fun b i => splice b (BEAMFS_SB_RS_PARITY_OFFSET + i * BEAMFS_RS_PARITY)
    (rs_encode_subblock codec (slice (sb_staging sb) (i * BEAMFS_SB_RS_DATA_LEN) BEAMFS_SB_RS_DATA_LEN)))
    sb (upto BEAMFS_SB_RS_SUBBLOCKS).

(** An inode with one direct pointer and one indirect pointer. *)
Definition mk_inode (mode nlink size direct indirect : Z) : list Z :=
  let raw := put_le16 (put_le16 (zeros sizeof_inode) off_i_mode mode) off_i_nlink nlink in
  let raw := put_le64 (put_le64 (put_le64 raw off_i_size size) off_i_direct direct) off_i_indirect indirect in
  put_le32 raw off_i_crc32 (crc32_inode raw).

(** Records of inode number, length and one- or two-byte names. *)
Definition mk_dir (recs : list (Z * Z * list Z)) : list Z :=
  let '(b, _) := foldl (fun '(b, off) '(ino, len, name) =>
    (splice (put_le16 (put_le64 b off ino) (off + 8) len) (off + 10) ([zlen name; 0] ++ name), off + len))
    (zeros BEAMFS_BLOCK_SIZE, 0) recs in b.

Definition super2 : list Z := Eval vm_compute in mk_super 2.
Definition super3 : list Z := Eval vm_compute in mk_super 3.

Definition mk_volume (super : list Z) (inodes blocks : list (list Z)) : list Z :=
  super ++ concat inodes ++ zeros (BEAMFS_BLOCK_SIZE - zlen (concat inodes)) ++ concat blocks.

Definition ex_tables1 : rs_tables := Tables (Some [true]) (Some [true]) 4.
Definition mk_dirblock (recs : list (Z * Z * list Z)) : list Z := beamfs_dirent_encode ex_tables1 0 (mk_dir recs).
Definition mk_free : list Z := zeros sizeof_inode.
Definition mk_root : list Z := mk_inode (S_DIR + 493) 2 3824 2 0.

(** A device that reads well, and the reader of one with such a superblock. *)
Definition mk_fd (l : list Z) : device := Device l (fun _ _ => false).
Definition mk_rd (fd : device) (nblocks : Z) : fsck_reader := fresh (Geometry fd 2 nblocks 1 6 16 false 0 0 0).

(** The root directory of one file, as the kernel encodes it. *)
Definition root_payload : list Z := mk_dir [(1, 16, [46]); (1, 16, [46; 46]); (3, 16, [97]); (0, 3776, [])].
Definition root_records : list Z := [0; 16; 32; 48].
Definition root_block : list Z := Eval vm_compute in beamfs_dirent_encode ex_tables1 0 root_payload.

(** A root directory with one file of one block. *)
Definition good_bytes : list Z :=
  mk_volume super2 [mk_root; mk_free; mk_inode (S_REG + 420) 1 100 3 0] [root_block; zeros BEAMFS_BLOCK_SIZE].
Definition good_rd : fsck_reader := mk_rd (mk_fd good_bytes) 2.

(** Two files of one and the same block. *)
Definition shared_block : list Z := Eval vm_compute in
  mk_dirblock [(1, 16, [46]); (1, 16, [46; 46]); (3, 16, [97]); (4, 16, [98]); (0, 3760, [])].
Definition shared_bytes : list Z :=
  mk_volume super2 [mk_root; mk_free; mk_inode (S_REG + 420) 1 100 3 0; mk_inode (S_REG + 420) 1 100 3 0]
    [shared_block; zeros BEAMFS_BLOCK_SIZE].
Definition shared_rd : fsck_reader := mk_rd (mk_fd shared_bytes) 2.

(** A file whose indirect pointer is past the device. *)
Definition stray_bytes : list Z :=
  mk_volume super2 [mk_root; mk_free; mk_inode (S_REG + 420) 1 100 3 99] [root_block; zeros BEAMFS_BLOCK_SIZE].
Definition stray_rd : fsck_reader := mk_rd (mk_fd stray_bytes) 2.

(** A directory, with a file in it, that the root does not lead to. *)
Definition empty_root_block : list Z := Eval vm_compute in mk_dirblock [(1, 16, [46]); (1, 16, [46; 46]); (0, 3792, [])].
Definition orphan_block : list Z := Eval vm_compute in
  mk_dirblock [(4, 16, [46]); (4, 16, [46; 46]); (5, 16, [97]); (0, 3776, [])].
Definition orphan_bytes : list Z :=
  mk_volume super3 [mk_root; mk_free; mk_free; mk_inode (S_DIR + 493) 2 3824 3 0; mk_inode (S_REG + 420) 1 100 4 0]
    [empty_root_block; orphan_block; zeros BEAMFS_BLOCK_SIZE].
Definition orphan_rd : fsck_reader := mk_rd (mk_fd orphan_bytes) 3.

(** [good_bytes] with three bytes of the root's block hit. *)
Definition hit_bytes : list Z := setb (setb (setb good_bytes 8192 255) 8200 77) 8448 3.
Definition hit_rd : fsck_reader := mk_rd (mk_fd hit_bytes) 2.

(** ** Witnesses *)

Definition all_counters : list p6_counter :=
  [allocated_inodes; shared_blocks; bad_dirents; dangling_entries; duplicate_names; link_count_wrong; orphaned_inodes;
   size_ahead_of_blocks; unreadable_inodes; unreadable_indirect; unreadable_dirblocks; undescribed_indirect;
   beyond_reach_indirect; undescribed_empty; deep_directories].

(** The conditions of the theorems, by evaluation. *)
Definition fits_check (g : geometry) : bool :=
  let len := zlen (dv_bytes (g_fd g)) in
  forallb (fun x => (0 <=? x) && (x <? 256)) (dv_bytes (g_fd g)) &&
  (0 <=? g_data_start g) && (0 <? g_nblocks g) && ((g_data_start g + g_nblocks g) * BEAMFS_BLOCK_SIZE <=? len) &&
  (g_inodes_per_block g =? 16) && (0 <=? g_inode_table_blk g) &&
  ((g_inode_table_blk g + (g_inode_count g - 1) / 16 + 1) * BEAMFS_BLOCK_SIZE <=? len) && (len <? 2 ^ 63).

Definition counters_check (g : geometry) : bool :=
  let v := volume_eff g in
  let n := g_inode_count g + zlen (all_names g) in
  (zlen (claims_of v) <? 2 ^ 32) && forallb (fun c => n + tally_of v c <? 2 ^ 32) all_counters.

Lemma counters_checked g : counters_check g = true -> counters_fit g.
Proof.
  unfold counters_check. intros [H1 H2]%andb_true_iff. split; [lia|]. intros c. rewrite forallb_forall in H2.
  assert (Hc : In c all_counters) by (destruct c; cbn; tauto). specialize (H2 c Hc). lia.
Qed.

Lemma fits_checked g : (forall off len, dv_bad (g_fd g) off len = false) -> fits_check g = true -> fits g.
Proof.
  intros Hb. unfold fits_check. intros H. repeat (apply andb_true_iff in H as [H ?]).
  assert (g_inodes_per_block g = 16) as E by lia.
  split; try done; try lia; [by apply bytes_check|]. rewrite E. lia.
Qed.

(** A superblock that decodes to itself, with something to count. *)
Definition super_check (sb : list Z) : bool :=
  let g := geometry_of (mk_fd []) sb in
  match decode_all (sb_decode_step sb) (sb_staging sb, 0) BEAMFS_SB_RS_SUBBLOCKS with Some (_, n) => n =? 0 | None => false end &&
  negb ((g_inodes_per_block g =? 0) || (g_inode_count g =? 0) || (g_nblocks g =? 0)) && (zlen sb =? BEAMFS_BLOCK_SIZE).

Lemma super2_check : super_check super2 = true.
Proof. vm_compute. reflexivity. Qed.

Lemma super3_check : super_check super3 = true.
Proof. vm_compute. reflexivity. Qed.

Lemma open_volume sb rest :
  super_check sb = true ->
  fsck_reader_open true (mk_fd (sb ++ rest)) = (FSCK_READ_CLEAN, Some (fresh (geometry_of (mk_fd (sb ++ rest)) sb))).
Proof.
  unfold super_check. intros [[H1 H2]%andb_true_iff Z%Z.eqb_eq]%andb_true_iff. pose proof (zlen_nonneg rest).
  assert (R : read_exact (mk_fd (sb ++ rest)) 0 BEAMFS_BLOCK_SIZE = Some sb).
  { unfold read_exact, mk_fd. cbn [dv_bytes dv_bad]. rewrite zlen_app, Z.
    destruct (Z.ltb_spec (BEAMFS_BLOCK_SIZE + zlen rest) (0 + BEAMFS_BLOCK_SIZE)); [lia|]. cbn [Z.ltb Z.compare]. by rewrite slice_app_l. }
  unfold fsck_reader_open. cbn [negb]. rewrite R. destruct (decode_all _ _ _) as [[staging n]|]; [|done].
  apply Z.eqb_eq in H1 as ->. cbn [Z.ltb Z.compare]. apply negb_true_iff in H2. unfold geometry_of in H2 |- *. cbv zeta in H2 |- *.
  cbn [g_inodes_per_block g_inode_count g_nblocks] in H2 |- *. by rewrite H2.
Qed.

Lemma good_open : fsck_reader_open true (mk_fd good_bytes) = (FSCK_READ_CLEAN, Some good_rd).
Proof. exact (open_volume super2 _ super2_check). Qed.

Lemma shared_open : fsck_reader_open true (mk_fd shared_bytes) = (FSCK_READ_CLEAN, Some shared_rd).
Proof. exact (open_volume super2 _ super2_check). Qed.

Lemma orphan_open : fsck_reader_open true (mk_fd orphan_bytes) = (FSCK_READ_CLEAN, Some orphan_rd).
Proof. exact (open_volume super3 _ super3_check). Qed.

Lemma root_block_eq : beamfs_dirent_encode ex_tables1 0 root_payload = root_block.
Proof. vm_compute. reflexivity. Qed.

(** The verdict of a run, by evaluation. *)
Lemma pass6_verdict rd rc :
  match fsck_pass6 true rd with Some (rc', Some _) => rc' =? rc | _ => false end = true ->
  exists r, fsck_pass6 true rd = Some (rc, Some r).
Proof. destruct (fsck_pass6 true rd) as [[rc' [r|]]|]; try done. intros ->%Z.eqb_eq. by exists r. Qed.

Lemma pass6_finds_sharing_witness : exists r,
  fsck_pass6 true shared_rd = Some (FSCK_PASS6_UNCORRECTED, Some r) /\ counts r shared_blocks <> 0.
Proof.
  destruct (pass6_verdict shared_rd FSCK_PASS6_UNCORRECTED) as [r E]; [vm_compute; reflexivity|].
  exists r. split; [exact E|]. intros Z0.
  assert (U : unshared (rd_geo shared_rd)).
  { apply (pass6_finds_sharing (mk_fd shared_bytes) FSCK_READ_CLEAN shared_rd FSCK_PASS6_UNCORRECTED r).
    - apply bytes_check. vm_compute. reflexivity.
    - exact shared_open.
    - apply counters_checked. vm_compute. reflexivity.
    - exact E.
    - exact Z0. }
  assert (3 = 4); [|lia]. apply (U 3 4 3).
  - split; [lia|vm_compute; discriminate].
  - split; [lia|vm_compute; discriminate].
  - vm_compute. split; [discriminate|reflexivity].
  - apply (bool_decide_unpack _). vm_compute. exact I.
  - apply (bool_decide_unpack _). vm_compute. exact I.
Defined.

Lemma pass6_ok_sound_witness : consistent (rd_geo good_rd).
Proof.
  destruct (pass6_verdict good_rd FSCK_PASS6_OK) as [r E]; [vm_compute; reflexivity|].
  apply (pass6_ok_sound (mk_fd good_bytes) FSCK_READ_CLEAN good_rd r).
  - apply bytes_check. vm_compute. reflexivity.
  - exact good_open.
  - apply counters_checked. vm_compute. reflexivity.
  - exact E.
Defined.

Lemma pass6_wrong_iff_witness :
  fsck_pass6 true stray_rd = None /\
  exists rc r, fsck_pass6 true good_rd = Some (rc, Some r) /\ (rc = FSCK_PASS6_OK \/ rc = FSCK_PASS6_UNCORRECTED).
Proof.
  split.
  - apply (pass6_wrong_iff stray_rd).
    + apply fits_checked; [intros; vm_compute; reflexivity|vm_compute; reflexivity].
    + vm_compute. discriminate.
    + exists 3. split; [split; [lia|vm_compute; discriminate]|vm_compute; reflexivity].
  - apply (pass6_wrong_iff good_rd).
    + apply fits_checked; [intros; vm_compute; reflexivity|vm_compute; reflexivity].
    + vm_compute. discriminate.
    + assert (H : forallb (pointers_inside (rd_geo good_rd)) (seqZ 1 6) = true) by (vm_compute; reflexivity).
      rewrite forallb_forall in H. intros i Hi. apply H, list_elem_of_In, elem_of_seqZ.
      assert (E : g_inode_count (rd_geo good_rd) = 6) by (vm_compute; reflexivity). lia.
Defined.

(** The orphaned directory passes: it names itself. *)
Lemma orphan_census_witness : exists r,
  fsck_pass6 true orphan_rd = Some (FSCK_PASS6_OK, Some r) /\
  inode_targets (rd_geo orphan_rd) ROOT_INO = [ROOT_INO; ROOT_INO] /\
  allocated (rd_geo orphan_rd) 4 = true /\ ~ unnamed (rd_geo orphan_rd) 4.
Proof.
  destruct (pass6_verdict orphan_rd FSCK_PASS6_OK) as [r E]; [vm_compute; reflexivity|].
  exists r. split; [exact E|]. split; [vm_compute; reflexivity|]. split; [vm_compute; reflexivity|].
  apply (orphan_census (mk_fd orphan_bytes) FSCK_READ_CLEAN orphan_rd FSCK_PASS6_OK r).
  - apply bytes_check. vm_compute. reflexivity.
  - exact orphan_open.
  - apply counters_checked. vm_compute. reflexivity.
  - exact E.
  - split; [lia|vm_compute; discriminate].
  - apply (bool_decide_unpack _). vm_compute. exact I.
Defined.

Lemma wf_root_payload : wf_payload root_payload root_records.
Proof.
  split.
  - apply bytes_check. vm_compute. reflexivity.
  - vm_compute. reflexivity.
  - repeat (constructor; [vm_compute; reflexivity|]). vm_compute. constructor.
  - intros o Ho Hi. unfold root_records in Ho.
    repeat (apply elem_of_cons in Ho as [->|Ho]; [vm_compute; (split; [discriminate|reflexivity]) || (exfalso; apply Hi; vm_compute; reflexivity)|]).
    by apply elem_of_nil in Ho.
Qed.

(** The root's block on the device that was hit. *)
Definition hit_block : list Z := slice hit_bytes (2 * BEAMFS_BLOCK_SIZE) BEAMFS_BLOCK_SIZE.

Lemma hit_block_eq : hit_block = setb (setb (setb root_block 0 255) 8 77) 256 3.
Proof. vm_compute. reflexivity. Qed.

Lemma fsck_walks_kernel_block_witness : exists rd,
  fsck_read_dirblock hit_rd 2 = (FSCK_READ_CORRECTED, Some (slice root_payload 0 BEAMFS_DATA_INLINE_BYTES), rd) /\
  walk_dir_block (pass6_init hit_rd) 2 0 =
    visit_all (slice root_payload 0 BEAMFS_DATA_INLINE_BYTES) (0, set_rd (pass6_init hit_rd) rd) root_records /\
  map e_ino (entries root_payload root_records) = [1; 1; 3].
Proof.
  destruct (fsck_walks_kernel_block ex_tables1 0 (pass6_init hit_rd) 2 0 root_payload root_records) as (rd & _ & V & W & _).
  - reflexivity.
  - exact wf_root_payload.
  - repeat (constructor; [vm_compute; reflexivity|]). constructor.
  - apply fits_checked; [intros; vm_compute; reflexivity|vm_compute; reflexivity].
  - vm_compute. split; reflexivity.
  - intros i Hi. rewrite root_block_eq. change (slice _ _ _) with hit_block. transitivity (zlen [0; 8; 256]); [|done].
    apply damage_few; [exact _|reflexivity|reflexivity|exact Hi|]. intros a Ha N.
    destruct (decide (a ∈ [0; 8; 256])) as [|Ni]; [done|]. exfalso. apply N. rewrite !elem_of_cons, elem_of_nil in Ni.
    rewrite hit_block_eq, !getb_setb_ne by lia. reflexivity.
  - exists rd. split; [|split; [exact W|vm_compute; reflexivity]]. etransitivity; [exact V|]. rewrite root_block_eq.
    match goal with |- (if ?b then _ else _, _, _) = _ => assert (b = false) as -> by (vm_compute; reflexivity) end. reflexivity.
Defined.
